(* ===== verification/_CoqProject ===== *)
-Q . S2P
Prelude.v
ZendString.v
HashData.v
HashCore.v
HashInv.v
HashChain.v
HashFind.v
HashRehash.v
HashGrow.v
HashInsert.v
HashUpdate.v
HashIndex.v
HashDelete.v
HashIter.v
HashIterators.v
HashDestroy.v
Interned.v
HashApply.v
HashDup.v
HashMerge.v
ZendSort.v
SortFunc.v
HashSort.v
HashCompare.v
Numeric.v
Symtable.v
MemStr.v
StrCmp.v
Levenshtein.v
Increment.v
Operators.v
SmartStr.v
Llist.v
Stack.v
GcData.v
ObjectStore.v
GcGraph.v
GcScan.v
GcRoots.v
GcCollect.v
GcBuffer.v
GcWhite.v
GcPhases.v
GcCycles.v
GcDestroy.v
ObjectLoops.v
GcRelease.v
GcHusks.v
GcCorrect.v
GcCandidates.v
GcExample.v
MmBits.v
MmState.v
MmChunk.v
MmSearch.v
MmRuns.v
MmRing.v
MmPages.v
MmHeap.v
MmOs.v
MmInv.v
MmFrame.v
MmLinks.v
MmUnlink.v
MmBins.v
MmGc.v
MmCollect.v
MmFind.v
MmAlloc.v
MmHuge.v
MmFree.v
MmRealloc.v
MmSpec.v
MmShutdown.v
MmApi.v
MmTally.v
MmUsage.v
MmProgress.v
MmSample.v
Base64.v
