(* ===== verification/Prelude.v ===== *)
(** * A verification library for the runtime core of PHP 7 (root file)

    PHP's engine (the Zend engine, [src/Zend/]) keeps every array, symbol
    table and property table in one ordered hash table, counts references to
    its values, finds unreachable cycles of them with a cycle collector, and
    takes their memory from its own allocator.  These four parts, the store of
    objects, the interned strings, the arithmetic and the string functions of
    the operators, the small containers, two user-level string functions and
    what they call are modelled here as Rocq functions translated from the C
    code, with theorems about those functions.

    ** The parts and how they interact

    - _Values and strings_ ([zend_types.h], [zend_string.h]): [ZendString.v]
      has bytes, the string object and the hash function; the values and
      table structures are in [HashData.v].
    - _Interned strings_ ([zend_string.c]): [Interned.v], two hash tables
      whose keys are the only interned strings with their contents.
    - _The ordered hash table_ ([zend_hash.c], [zend_hash.h]): the [Hash*.v]
      files.  A table calls destructors, user callbacks and a sort; these are
      arguments.  It shares iterator slots with the executor ([EG]).
    - _Sorting_ ([zend_sort.c]): [ZendSort.v]; the interface [SortFunc] of
      [SortFunc.v] is what the hash table asks of a sort, and the three sorts
      of the file are instances of it.
    - _Symbol tables and integer-like keys_ ([zend_hash.h], [zend_hash.c],
      [zend_operators.c]): [Numeric.v] and [Symtable.v], on top of the tables.
    - _Operators_ ([zend_operators.c], [zend_operators.h],
      [zend_multiply.h]): [MemStr.v], [StrCmp.v], [Increment.v] and
      [Operators.v]: searching and comparing strings, counting them up, and
      arithmetic on numbers.
    - _Lists, stacks and growing strings_ ([zend_llist.c], [zend_stack.c],
      [zend_ptr_stack.c], [zend_smart_str.c], their headers): [Llist.v],
      [Stack.v], [SmartStr.v].  A list is sorted by [zend_sort]; a growing string prints numbers with the functions of
      [Numeric.v].
    - _User-level functions_ ([ext/standard/levenshtein.c],
      [ext/standard/base64.c]): [Levenshtein.v], [Base64.v].
    - _The cycle collector_ ([zend_gc.c], [zend_gc.h]): the [Gc*.v] files.  It
      sees counted structures through what an object's [get_gc] handler or an
      array's buckets give it, and destroys garbage by the release of values
      ([zend_variables.c], [zend_variables.h]).
    - _The objects store_ ([zend_objects_API.c], [zend_objects_API.h]):
      [ObjectStore.v] and [ObjectLoops.v].  The handlers of objects are the
      operations of the class [Handlers] of [GcDestroy.v].
    - _The memory manager_ ([zend_alloc.c], [zend_alloc.h],
      [zend_alloc_sizes.h], [zend_bitset.h], [zend_multiply.h]): the [Mm*.v]
      files.  It stands on [mmap] and [munmap], which are the operations of
      the class [OS] with the laws [OSLaws]; a release always succeeds, as the
      code ignores its failure.  Requests also rely on [LowMemory], that nothing
      is mapped below the address [0x400000].
    The hash table and the collector take fresh memory from the allocator as
    an allocation with unspecified contents, which is the contract the
    theorems of [MmSpec.v] and [MmProgress.v] establish: a fresh block apart
    from all others.

    ** How the code is modelled

    A C function is a function that takes the state it reads and returns the
    state it leaves, in the result type [res] of this file: [Ok] with the
    value, or [Err] with the reason.  [OutOfBounds] is an access outside an
    allocation, [Fatal] an error that ends the request ([Overflow] when it is a
    size that does not fit in 64 bits), [Panic] the exit of an
    allocator that finds its data corrupted, [OutOfFuel] a loop that was given
    too little fuel.  A theorem of the form [f x = Ok y] therefore
    also says that [f] accesses no memory out of bounds and terminates.
    Integers are [Z] with the wrap-around of their width written out
    ([u8] .. [s64] below); pointers into an array are indices, pointers to
    structures are addresses.  Effects on the outside (destructors, releases,
    frees) are events in the executor state [EG].

    The build that is modelled is the 64-bit (LP64) release build that is not
    thread safe, with [ZEND_MM_STAT] and [ZEND_MM_LIMIT] and the default heap:
    no custom handlers, no storage, no debug information in blocks.

    ** Fuel

    Loops over an array are recursions with the array's size as fuel; chains of
    a hash table with [nNumUsed + 1]; [zend_sort] with the length; the
    traversals and releases of the collector with one more than the number of
    structures, its loops over entries with one more than that of the entries;
    the loops of a linked list with one more than the size of the heap; the
    power of integers with 128, twice the bits of an exponent and two more;
    the walks of the memory manager with one more than the number of chunks or
    of all slots of all chunks ([slots_bound]).  The theorems show that the fuel
    is enough in every state that satisfies the invariant, so fuel is nowhere
    a hypothesis except where a C string is read up to its zero byte
    ([_estrdup]).  The two allocator calls inside each other (a huge block
    needs a small one for its list node) are a recursion of depth two.

    ** The files

    - [HashData.v], [HashCore.v]: the table, raw accesses, allocation,
      conversion, rehashing, lookup.  [HashInv.v]: the abstract value
      ([elems], the entries in insertion order) and the invariant [ht_wf]
      (chains, packed tables, counts, next free key).  [HashChain.v],
      [HashInsert.v]: shared lemmas, an executable check of the
      invariant and sample tables.
    - [HashFind.v], [HashRehash.v], [HashGrow.v], [HashUpdate.v],
      [HashIndex.v], [HashDelete.v], [HashIter.v], [HashIterators.v],
      [HashDestroy.v], [HashApply.v], [HashDup.v], [HashMerge.v],
      [HashSort.v], [HashCompare.v]: one group of operations each.  The
      theorems say that an operation refines the one on the ordered
      association list, keeps the invariant, runs the destructor exactly for
      the values that go away and treats every error branch.
    - [ZendSort.v]: insertion sort, the hybrid [zend_sort] and [zend_qsort]:
      termination, permutation, order for a total preorder, and that the
      stacks of [zend_qsort] never overflow.
    - [Numeric.v], [Symtable.v]: a string is an integer key exactly when it is
      the canonical decimal of a [zend_long]; printing and reading are
      inverse; symbol-table operations are the table's at the normalised key.
    - [MemStr.v]: a search returns the first (the last) occurrence, with
      [memchr] as with the table of shifts.  [StrCmp.v]: comparisons have the
      sign of the lexicographic order, with or without regard to case.
      [Increment.v]: the last letters and digits are counted up as a number
      of mixed radix.  [Operators.v]: sums, differences, products and powers
      are the exact integer whenever it is a [zend_long]; division, remainder
      and shifts.  [SmartStr.v]: appends never leave the buffer, and escaped
      text is printable and can be read back.  [Llist.v], [Stack.v]:
      whole sequences of operations refine Rocq lists.
    - [Interned.v]: interning returns the same address for equal contents and
      different ones for different contents; the end of a request frees its
      strings once and keeps the permanent ones.  [Levenshtein.v]: the
      distance is the least cost of an edit script, and a metric for unit
      costs.  [Base64.v]: the decoder inverts the encoder, and the strict one
      rejects exactly the malformed texts.
    - [GcData.v], [GcGraph.v]: the heap as a graph, the one induction behind
      all traversals, marking.  [GcScan.v], [GcWhite.v]: scanning, collecting.  [GcRoots.v], [GcBuffer.v],
      [GcCandidates.v]: the buffer of candidates, its rings and free entries.
      [GcCollect.v], [GcPhases.v], [GcCycles.v],
      [GcCandidates.v]: the phases of a collection.  What is white after
      marking and scanning is exactly what no outside reference keeps alive;
      afterwards every count and colour is restored and the list to free
      holds the garbage.
    - [ObjectStore.v]: handles and the free list.  [GcDestroy.v]: the release
      of values and the second half of [zend_gc_collect_cycles].
      [GcRelease.v]: a release keeps the invariant [phase] of a heap that is
      being destroyed, whatever it destroys in turn.  [GcHusks.v],
      [GcCorrect.v]: the loops that destroy and
      free, and the theorem that a collection frees exactly the garbage.
      [ObjectLoops.v]: the loops over all objects at the end of a request.
      [GcExample.v]: a collection of a concrete heap.
    - [MmBits.v] .. [MmHeap.v]: bit sets, page infos, chunks, the best-fit
      search, runs, rings and the allocator's code.  [MmOs.v]: chunks from the
      system.  [MmInv.v]: the invariant [mm_ok] over a [layout] of runs, free
      slots and huge blocks.  [MmFrame.v], [MmLinks.v]: frame lemmas.
      [MmUnlink.v], [MmBins.v], [MmGc.v],
      [MmCollect.v]: [zend_mm_gc].  [MmFind.v] .. [MmRealloc.v]: allocation,
      release and reallocation.
    - [MmSpec.v]: the contract: [represents st live] says that the heap has
      handed out exactly the blocks of the map [live]; allocation inserts a
      fresh block, release deletes one, reallocation keeps the bytes,
      collection changes nothing, writes of the user into blocks do no harm.
      [MmShutdown.v]: a full shutdown returns every mapping, another one an
      empty heap.  [MmApi.v]: the public functions.  The main chunk is not to
      lose its last block ([main_in_use], [may_alloc], [may_free]).
    - [MmTally.v], [MmUsage.v]: the statistics and the limit.
      [accounted st live] says that [real_size] counts the chunks in use and
      the huge blocks, and [size] the blocks with the nodes of the huge list;
      every operation keeps it, and no request exceeds the limit by more than
      a chunk.  [MmProgress.v]: the theorems about requests, with the reasons for
      which they may fail ([blocked]): the limit leaves no room, or the system
      refuses a mapping in a state that the steps of a request lead to; and
      whole sessions of a program with the manager refine a map of blocks and
      the bytes stored in them.  [GcCandidates.v]
      and [MmSample.v] have concrete states, on which the hypotheses of the
      theorems are evaluated.

    ** Not modelled

    - Classes, the handlers of objects, the executor, the compiler and the
      scanners: they need a model of PHP programs.  The definitions of the
      collector call the destructors of garbage; the theorem about a whole
      collection is for garbage whose destructors do nothing, without
      indirections in its arrays, and whose [free_obj] handlers release what
      their [get_gc] handlers show.
    - In the collector, the keys of arrays (strings it does not look at) and
      the release of strings, resources and constant expressions, which is an
      operation of [Handlers].
    - Debug builds, thread-safe builds, 32-bit and Windows builds, custom heaps.
    - Resources, streams, the server interfaces, the opcode cache with the
      handlers it installs for interned strings, and the other extensions; the
      bundled third-party libraries.
    - In the operators, operands that have to be converted first, numeric
      strings with a fraction or an exponent, and locales; [pow] of the C
      library is an argument.  Floating-point numbers are the binary64 numbers
      of the Standard Library, here and in the averages of [zend_alloc.c].

    Where the code does not do what its callers expect, the theorem carries
    the hypothesis that excludes the case and an example shows the case:
    the deletion of the main chunk, the wrap-around of a huge reallocation,
    the pages behind [NULL] that are unmapped when the system refuses the
    enlarged mapping of a block ([null_range_is_unmapped]),
    the 512-slot bin, iterators of empty tables, a difference that is stored
    into one of its operands, strings of more than 2 GB, negative edit costs. *)
From stdpp Require Export base tactics list numbers option list_numbers.
From Stdlib Require Export ZArith Lia.

#[global] Open Scope Z_scope.

(** ** Machine integers

    The code is compiled for LP64: [zend_ulong] is [uint64_t], [zend_long] is
    [int64_t].  Values are [Z]; the wrap-around of each width is written out. *)
Definition u8 (z : Z) : Z := z mod 2 ^ 8.
Definition u32 (z : Z) : Z := z mod 2 ^ 32.
Definition u64 (z : Z) : Z := z mod 2 ^ 64.
Definition s8 (z : Z) : Z := (z + 2 ^ 7) mod 2 ^ 8 - 2 ^ 7.
Definition s32 (z : Z) : Z := (z + 2 ^ 31) mod 2 ^ 32 - 2 ^ 31.
Definition s64 (z : Z) : Z := (z + 2 ^ 63) mod 2 ^ 64 - 2 ^ 63.

Definition ZEND_LONG_MAX : Z := 2 ^ 63 - 1.
Definition ZEND_LONG_MIN : Z := - 2 ^ 63.

Arguments u8 : simpl never.
Arguments u32 : simpl never.
Arguments u64 : simpl never.
Arguments s8 : simpl never.
Arguments s32 : simpl never.
Arguments s64 : simpl never.

(** Rewriting [mod] at a power of two into a bounded form for [lia]. *)
Lemma u32_small z : 0 <= z < 2 ^ 32 -> u32 z = z.
Proof. intros H. unfold u32. apply Z.mod_small. lia. Qed.

Lemma u64_small z : 0 <= z < 2 ^ 64 -> u64 z = z.
Proof. intros H. unfold u64. apply Z.mod_small. lia. Qed.

Lemma u32_range z : 0 <= u32 z < 2 ^ 32.
Proof. unfold u32. apply Z.mod_pos_bound. lia. Qed.

Lemma u64_range z : 0 <= u64 z < 2 ^ 64.
Proof. unfold u64. apply Z.mod_pos_bound. lia. Qed.

Lemma s64_small z : - 2 ^ 63 <= z < 2 ^ 63 -> s64 z = z.
Proof. intros H. unfold s64. rewrite Z.mod_small; lia. Qed.

Lemma s64_range z : - 2 ^ 63 <= s64 z < 2 ^ 63.
Proof. unfold s64. pose proof (Z.mod_pos_bound (z + 2 ^ 63) (2 ^ 64)). lia. Qed.

Lemma s32_small z : - 2 ^ 31 <= z < 2 ^ 31 -> s32 z = z.
Proof. intros H. unfold s32. rewrite Z.mod_small; lia. Qed.

Lemma s32_wrap z : 2 ^ 31 <= z < 2 ^ 32 -> s32 z = z - 2 ^ 32.
Proof.
  intros H. unfold s32.
  replace (z + 2 ^ 31) with ((z - 2 ^ 31) + 1 * 2 ^ 32) by lia.
  rewrite Z.mod_add, Z.mod_small; lia.
Qed.

(** Decide boolean integer tests, in goal and hypotheses alike. *)
Ltac zbool :=
  repeat match goal with
  | H : (_ <? _) = true |- _ => apply Z.ltb_lt in H
  | H : (_ <? _) = false |- _ => apply Z.ltb_ge in H
  | H : (_ <=? _) = true |- _ => apply Z.leb_le in H
  | H : (_ <=? _) = false |- _ => apply Z.leb_gt in H
  | H : (_ =? _) = true |- _ => apply Z.eqb_eq in H
  | H : (_ =? _) = false |- _ => apply Z.eqb_neq in H
  | H : negb _ = true |- _ => apply negb_true_iff in H
  | H : negb _ = false |- _ => apply negb_false_iff in H
  | H : (_ && _)%bool = true |- _ => apply andb_prop in H; destruct H
  | H : (_ || _)%bool = false |- _ => apply orb_false_elim in H; destruct H
  end.

(** Case analysis on every integer test of the goal. *)
Ltac zcases :=
  repeat match goal with
  | |- context [?a <? ?b] => destruct (Z.ltb_spec a b)
  | |- context [?a <=? ?b] => destruct (Z.leb_spec a b)
  | |- context [?a =? ?b] => destruct (Z.eqb_spec a b)
  end.

(** ** Errors and the result monad

    [Fatal] is [zend_error_noreturn (E_ERROR, ..)]; [Overflow] is the same
    with the message of [zend_safe_address_guarded], which is kept apart from
    the failure of the allocation itself; [Panic] is the exit of the
    process when the allocator finds its data corrupted ([zend_mm_panic]);
    [OutOfBounds] is a read or a write outside an allocation, which in C is
    undefined behaviour; [OutOfFuel] says that a loop of the model has been
    cut short.  The theorems show that the last three never happen on
    well-formed states. *)
Inductive err := Fatal | Overflow | Panic | OutOfBounds | OutOfFuel.

Inductive res (A : Type) : Type :=
| Ok (a : A)
| Err (e : err).
Arguments Ok {A} a.
Arguments Err {A} e.

#[export] Instance err_eq_dec : EqDecision err.
Proof. solve_decision. Defined.

Definition rbind {A B} (m : res A) (k : A -> res B) : res B :=
  match m with Ok a => k a | Err e => Err e end.

Declare Scope php_scope.
Delimit Scope php_scope with php.
#[global] Open Scope php_scope.

Notation "'let!' p := m 'in' k" := (rbind m (fun p => k))
  (at level 10, p pattern, m at level 100, k at level 200,
   format "'[v' 'let!'  p  :=  m  'in' '/' k ']'") : php_scope.

Lemma rbind_ok {A B} (m : res A) (k : A -> res B) a :
  m = Ok a -> rbind m k = k a.
Proof. intros ->. reflexivity. Qed.

Lemma rbind_inv {A B} (m : res A) (k : A -> res B) b :
  rbind m k = Ok b -> exists a, m = Ok a /\ k a = Ok b.
Proof. destruct m; simpl; [eauto | discriminate]. Qed.

Lemma rbind_assoc {A B C} (m : res A) (k : A -> res B) (l : B -> res C) :
  rbind (rbind m k) l = rbind m (fun a => rbind (k a) l).
Proof. by destruct m. Qed.

(** Reduce a bind whose first computation has succeeded. *)
Ltac rsimp := cbn [rbind].

(** Invert every bind of a successful run. *)
Ltac inv_bind :=
  repeat match goal with
  | H : rbind _ _ = Ok _ |- _ =>
      let a := fresh "a" in let Ha := fresh "Ha" in
      apply rbind_inv in H; destruct H as (a & Ha & H)
  | H : Ok _ = Ok _ |- _ => injection H as H; subst
  | H : Err _ = Ok _ |- _ => discriminate H
  end.

(** ** Arrays: lists indexed by C integers *)
Definition aget {A} (l : list A) (i : Z) : res A :=
  if i <? 0 then Err OutOfBounds
  else match l !! Z.to_nat i with Some x => Ok x | None => Err OutOfBounds end.

Definition aset {A} (l : list A) (i : Z) (x : A) : res (list A) :=
  if (i <? 0) || (Z.of_nat (length l) <=? i) then Err OutOfBounds
  else Ok (<[Z.to_nat i := x]> l).

Lemma aget_ok {A} (l : list A) (n : nat) x :
  l !! n = Some x -> aget l (Z.of_nat n) = Ok x.
Proof.
  intros H. unfold aget. zcases; [lia|]. rewrite Nat2Z.id, H. reflexivity.
Qed.

Lemma aget_okZ {A} (l : list A) i x :
  0 <= i -> l !! Z.to_nat i = Some x -> aget l i = Ok x.
Proof. intros Hi H. unfold aget. zcases; [lia|]. by rewrite H. Qed.

Lemma aset_okZ {A} (l : list A) i x :
  0 <= i < Z.of_nat (length l) -> aset l i x = Ok (<[Z.to_nat i := x]> l).
Proof. intros H. unfold aset. zcases; simpl; first [lia | done]. Qed.

Lemma aget_inv {A} (l : list A) i x :
  aget l i = Ok x -> exists n, i = Z.of_nat n /\ l !! n = Some x.
Proof.
  unfold aget. zcases; [discriminate|].
  destruct (l !! Z.to_nat i) eqn:E; intros [= <-].
  exists (Z.to_nat i). split; [lia | done].
Qed.

Lemma aset_ok {A} (l : list A) (n : nat) x :
  (n < length l)%nat -> aset l (Z.of_nat n) x = Ok (<[n := x]> l).
Proof.
  intros H. unfold aset. rewrite Nat2Z.id.
  zcases; simpl; first [lia | reflexivity].
Qed.

(** [p ? 1 : 0] for a pointer. *)
Definition isSome {A} (o : option A) : bool :=
  match o with Some _ => true | None => false end.

(** ** Generic list lemmas *)
Section ListFacts.
Context {A B : Type}.

Lemma take_insert_S (l : list A) (n : nat) x :
  (n < length l)%nat -> take (S n) (<[n := x]> l) = take n l ++ [x].
Proof.
  intros H. rewrite (take_S_r _ _ x) by (by apply list_lookup_insert_eq).
  by rewrite take_insert_ge.
Qed.

Lemma omap_snoc (f : A -> option B) (l : list A) x :
  omap f (l ++ [x]) = omap f l ++ match f x with Some y => [y] | None => [] end.
Proof. rewrite omap_app. simpl. by destruct (f x). Qed.

Lemma omap_length_le (f : A -> option B) (l : list A) : (length (omap f l) <= length l)%nat.
Proof.
  unfold omap. induction l as [|x l IH]; simpl; [done|]. destruct (f x); simpl; lia.
Qed.

Lemma take_split (l : list A) (n m : nat) x :
  l !! n = Some x -> (n < m)%nat ->
  take m l = take n l ++ x :: drop (S n) (take m l).
Proof.
  intros Hx Hm. rewrite <- (take_drop_middle (take m l) n x) at 1.
  - by rewrite take_take, Nat.min_l by lia.
  - by rewrite lookup_take_lt.
Qed.
End ListFacts.

(** The hint database of the development. *)
Create HintDb php discriminated.
#[export] Hint Resolve u32_range u64_range s64_range : php.
