(* ===== verification/ZendString.v ===== *)
(** * Strings: [Zend/zend_string.h]

    Bytes, the [zend_string] object as the hash table sees it, and the
    DJBX33A hash function with its loop unrolled eight times. *)
From Stdlib Require Import Strings.Byte.
From S2P Require Import Prelude.

(** ** Bytes.  [char] is signed on the target (x86-64). *)
Definition char := byte.
Definition uchar (c : char) : Z := Z.of_N (to_N c).
Definition schar (c : char) : Z := s8 (uchar c).

#[export] Instance char_eq_dec : EqDecision char := byte_eq_dec.

Lemma uchar_range c : 0 <= uchar c < 256.
Proof. unfold uchar. pose proof (to_N_bounded c). lia. Qed.

Lemma uchar_inj c d : uchar c = uchar d -> c = d.
Proof.
  unfold uchar. intros H%N2Z.inj.
  assert (E : of_N (to_N c) = of_N (to_N d)) by (by rewrite H).
  rewrite !of_to_N in E. congruence.
Qed.

(** ** The hash function *)

(** [hash = ((hash << 5) + hash) + *str++] on [zend_ulong]. *)
Definition hash_step (hash : Z) (c : char) : Z :=
  u64 (u64 (u64 (Z.shiftl hash 5) + hash) + schar c).

(** The [switch (len)] with its fall-through cases. *)
Definition hash_tail (hash : Z) (s : list char) : Z :=
  match s with
  | [] => hash                                              (* case 0 *)
  | c7 :: s => let hash := hash_step hash c7 in             (* case 7 .. 1 *)
  match s with [] => hash | c6 :: s => let hash := hash_step hash c6 in
  match s with [] => hash | c5 :: s => let hash := hash_step hash c5 in
  match s with [] => hash | c4 :: s => let hash := hash_step hash c4 in
  match s with [] => hash | c3 :: s => let hash := hash_step hash c3 in
  match s with [] => hash | c2 :: s => let hash := hash_step hash c2 in
  match s with [] => hash | c1 :: _ => hash_step hash c1
  end end end end end end end.

Fixpoint hash_loop (hash : Z) (s : list char) {struct s} : Z :=
  match s with
  | a :: b :: c :: d :: e :: f :: g :: h :: s' =>
      let hash := hash_step hash a in let hash := hash_step hash b in
      let hash := hash_step hash c in let hash := hash_step hash d in
      let hash := hash_step hash e in let hash := hash_step hash f in
      let hash := hash_step hash g in let hash := hash_step hash h in
      hash_loop hash s'
  | _ => hash_tail hash s
  end.

Definition zend_inline_hash_func (s : list char) : Z :=
  Z.lor (hash_loop 5381 s) (2 ^ 63).

(** ** The string object

    [zs_serial] tells apart separate allocations with the same contents, so
    that two [zend_string *] are the same pointer iff contents and serial
    agree.  [zs_h] caches the hash (0 when not computed yet). *)
Record zend_string := mk_zend_string {
  zs_val : list char;
  zs_serial : N;
  zs_h : Z;
  zs_interned : bool
}.

#[export] Instance zend_string_eq_dec : EqDecision zend_string.
Proof. solve_decision. Defined.

Definition zend_string_hash_val (s : zend_string) : Z :=
  if zs_h s =? 0 then zend_inline_hash_func (zs_val s) else zs_h s.

(** Pointer equality [s1 == s2]. *)
Definition same_ptr (s1 s2 : zend_string) : bool :=
  bool_decide (zs_serial s1 = zs_serial s2 /\ zs_val s1 = zs_val s2).

Definition memeq (s1 s2 : list char) : bool := bool_decide (s1 = s2).

Definition zend_string_equals (s1 s2 : zend_string) : bool :=
  same_ptr s1 s2
  || (Nat.eqb (length (zs_val s1)) (length (zs_val s2)) && memeq (zs_val s1) (zs_val s2)).

(** A cached hash is the hash of the contents; interned strings are hashed
    when they are interned. *)
Definition zend_string_ok (s : zend_string) : Prop :=
  (zs_h s = 0 /\ zs_interned s = false) \/ zs_h s = zend_inline_hash_func (zs_val s).

(** ** Facts *)
Lemma hash_step_range h c : 0 <= hash_step h c < 2 ^ 64.
Proof. apply u64_range. Qed.

#[local] Opaque hash_step.

Lemma hash_tail_foldl h s :
  (length s < 8)%nat -> hash_tail h s = foldl hash_step h s.
Proof. intros H. do 8 (destruct s as [|? s]; [reflexivity|]). simpl in H. lia. Qed.

Lemma hash_loop_foldl h s : hash_loop h s = foldl hash_step h s.
Proof.
  revert h. induction s as [s IH] using (induction_ltof1 _ length). intros h.
  do 8 (destruct s as [|? s]; [apply hash_tail_foldl; simpl; lia|]).
  simpl. apply IH. unfold ltof. simpl. lia.
Qed.

Lemma foldl_hash_range h s : 0 <= h < 2 ^ 64 -> 0 <= foldl hash_step h s < 2 ^ 64.
Proof. revert h. induction s as [|c s IH]; intros h H; simpl; [done|]. apply IH, hash_step_range. Qed.

Lemma lor_high h : 0 <= h < 2 ^ 64 -> 2 ^ 63 <= Z.lor h (2 ^ 63) < 2 ^ 64.
Proof.
  intros H. assert (Hn : 0 <= Z.lor h (2 ^ 63)) by (apply Z.lor_nonneg; lia).
  assert (Hl : Z.log2 (Z.lor h (2 ^ 63)) = 63).
  { rewrite Z.log2_lor by lia. change (Z.log2 (2 ^ 63)) with 63.
    destruct (Z.eq_dec h 0) as [->|]; [done|].
    assert (Z.log2 h < 64) by (apply Z.log2_lt_pow2; lia). lia. }
  assert (Z.lor h (2 ^ 63) <> 0) by (intros E; rewrite E in Hl; done).
  pose proof (Z.log2_spec (Z.lor h (2 ^ 63))) as Hs. rewrite Hl in Hs.
  change (Z.succ 63) with 64 in Hs. lia.
Qed.

Lemma hash_func_range s : 2 ^ 63 <= zend_inline_hash_func s < 2 ^ 64.
Proof. apply lor_high. rewrite hash_loop_foldl. apply foldl_hash_range. lia. Qed.

Lemma hash_val_ok s :
  zend_string_ok s -> zend_string_hash_val s = zend_inline_hash_func (zs_val s).
Proof.
  intros [[H _]|H]; unfold zend_string_hash_val; rewrite H; [done|].
  pose proof (hash_func_range (zs_val s)). zcases; [lia|done].
Qed.

Lemma same_ptr_val s1 s2 : same_ptr s1 s2 = true -> zs_val s1 = zs_val s2.
Proof. unfold same_ptr. rewrite bool_decide_eq_true. tauto. Qed.

Lemma zend_string_equals_spec s1 s2 :
  zend_string_equals s1 s2 = bool_decide (zs_val s1 = zs_val s2).
Proof.
  unfold zend_string_equals, memeq. destruct (same_ptr s1 s2) eqn:E; simpl.
  - symmetry. apply bool_decide_eq_true. by apply same_ptr_val.
  - case_bool_decide as Hv; [|by rewrite andb_false_r].
    by rewrite Hv, Nat.eqb_refl.
Qed.

#[local] Transparent hash_step.

(** *** Properties *)

(** The unrolled [zend_inline_hash_func] computes the times-33 polynomial of
    the signed bytes modulo 2^64 with the top bit set. *)
Theorem hash_func_polynomial s :
  zend_inline_hash_func s =
  Z.lor (u64 (foldl (fun acc c => 33 * acc + schar c) 5381 s)) (2 ^ 63).
Proof.
  unfold zend_inline_hash_func. rewrite hash_loop_foldl. f_equal.
  enough (E : forall h g, u64 g = h -> foldl hash_step h s
    = u64 (foldl (fun acc c => 33 * acc + schar c) g s))
    by (rewrite (E 5381 5381); [done | by apply u64_small]).
  induction s as [|c s IH]; intros h g Hg; simpl; [done|]. apply IH.
  unfold hash_step, u64 in *. subst h. rewrite Z.shiftl_mul_pow2 by lia.
  rewrite Zplus_mod_idemp_l, <- Z.add_assoc, Zplus_mod_idemp_l.
  replace (g mod 2 ^ 64 * 2 ^ 5 + (g mod 2 ^ 64 + schar c))
    with (33 * (g mod 2 ^ 64) + schar c) by lia.
  rewrite <- (Zplus_mod_idemp_l (33 * (g mod _))), Zmult_mod_idemp_r, Zplus_mod_idemp_l.
  done.
Qed.
