(* ===== verification/HashData.v ===== *)
(** * The ordered hash table: data and primitive accesses
    ([Zend/zend_types.h], [Zend/zend_hash.h], the macros of [zend_hash.c])

    A [HashTable] is one allocation: a hash part [arHash] of [-nTableMask]
    chain heads, then [nTableSize] buckets [arData].  An index outside the
    allocation is the error [OutOfBounds].  Fresh memory holds arbitrary
    contents, given by the executor state ([fresh_bucket], [fresh_idx]). *)
From stdpp Require Export gmap.
From S2P Require Export Prelude ZendString.

(** ** Values *)
Definition addr := positive.

Inductive zval :=
| IS_UNDEF
| IS_NULL
| IS_FALSE
| IS_TRUE
| IS_LONG (lval : Z)
| IS_DOUBLE (dval : Z)
| IS_STRING (str : zend_string)
| IS_ARRAY (arr : addr)
| IS_OBJECT (obj : addr)
| IS_RESOURCE (rsrc : addr)
| IS_REFERENCE (ref : addr)
| IS_INDIRECT (zv : addr)
| IS_PTR (ptr : addr).

#[export] Instance zval_eq_dec : EqDecision zval.
Proof. solve_decision. Defined.

Definition is_undef (v : zval) : bool :=
  match v with IS_UNDEF => true | _ => false end.

(** [Bucket]: [b_next] is [Z_NEXT(val)], the collision chain, which
    [ZVAL_COPY_VALUE] does not touch. *)
Record Bucket := mkBucket {
  b_val : zval;
  b_next : Z;
  b_h : Z;
  b_key : option zend_string
}.

#[export] Instance Bucket_eq_dec : EqDecision Bucket.
Proof. solve_decision. Defined.

Definition set_b_val (v : zval) (b : Bucket) : Bucket :=
  mkBucket v (b_next b) (b_h b) (b_key b).
Definition set_b_next (n : Z) (b : Bucket) : Bucket :=
  mkBucket (b_val b) n (b_h b) (b_key b).

(** ** Constants *)
Definition HT_INVALID_IDX : Z := 2 ^ 32 - 1.
Definition HT_MIN_MASK : Z := 2 ^ 32 - 2.
Definition HT_MIN_SIZE : Z := 8.
Definition HT_MAX_SIZE : Z := 2 ^ 31.

Arguments HT_INVALID_IDX : simpl never.
Arguments HT_MIN_MASK : simpl never.
Arguments HT_MAX_SIZE : simpl never.

Definition HASH_UPDATE : Z := 1.
Definition HASH_ADD : Z := 2.
Definition HASH_UPDATE_INDIRECT : Z := 4.
Definition HASH_ADD_NEW : Z := 8.
Definition HASH_ADD_NEXT : Z := 16.

(** [flag & bit] as a condition. *)
Definition has_flag (flag bit : Z) : bool := negb (Z.land flag bit =? 0).

(** ** The table.  The bits of [u.flags] are booleans, the bytes [nApplyCount]
    and [nIteratorsCount] of the same word are numbers; [ht_addr] is the
    address of the structure, which iterators refer to. *)
Record HashTable := mkHashTable {
  ht_addr : addr;
  f_persistent : bool;
  f_apply_protection : bool;
  f_packed : bool;
  f_initialized : bool;
  f_static_keys : bool;
  f_has_empty_ind : bool;
  nApplyCount : Z;
  nIteratorsCount : Z;
  nTableMask : Z;
  arHash : list Z;
  arData : list Bucket;
  nNumUsed : Z;
  nNumOfElements : Z;
  nTableSize : Z;
  nInternalPointer : Z;
  nNextFreeElement : Z;
  pDestructor : bool
}.

(** Field updates. *)
Definition set_f_apply_protection (x : bool) (ht : HashTable) : HashTable :=
  mkHashTable (ht_addr ht) (f_persistent ht) x (f_packed ht) (f_initialized ht)
    (f_static_keys ht) (f_has_empty_ind ht) (nApplyCount ht) (nIteratorsCount ht) (nTableMask
    ht) (arHash ht) (arData ht) (nNumUsed ht) (nNumOfElements ht) (nTableSize ht)
    (nInternalPointer ht) (nNextFreeElement ht) (pDestructor ht).
Definition set_f_packed (x : bool) (ht : HashTable) : HashTable :=
  mkHashTable (ht_addr ht) (f_persistent ht) (f_apply_protection ht) x (f_initialized ht)
    (f_static_keys ht) (f_has_empty_ind ht) (nApplyCount ht) (nIteratorsCount ht) (nTableMask
    ht) (arHash ht) (arData ht) (nNumUsed ht) (nNumOfElements ht) (nTableSize ht)
    (nInternalPointer ht) (nNextFreeElement ht) (pDestructor ht).
Definition set_f_initialized (x : bool) (ht : HashTable) : HashTable :=
  mkHashTable (ht_addr ht) (f_persistent ht) (f_apply_protection ht) (f_packed ht) x
    (f_static_keys ht) (f_has_empty_ind ht) (nApplyCount ht) (nIteratorsCount ht) (nTableMask
    ht) (arHash ht) (arData ht) (nNumUsed ht) (nNumOfElements ht) (nTableSize ht)
    (nInternalPointer ht) (nNextFreeElement ht) (pDestructor ht).
Definition set_f_static_keys (x : bool) (ht : HashTable) : HashTable :=
  mkHashTable (ht_addr ht) (f_persistent ht) (f_apply_protection ht) (f_packed ht)
    (f_initialized ht) x (f_has_empty_ind ht) (nApplyCount ht) (nIteratorsCount ht)
    (nTableMask ht) (arHash ht) (arData ht) (nNumUsed ht) (nNumOfElements ht) (nTableSize ht)
    (nInternalPointer ht) (nNextFreeElement ht) (pDestructor ht).
Definition set_f_has_empty_ind (x : bool) (ht : HashTable) : HashTable :=
  mkHashTable (ht_addr ht) (f_persistent ht) (f_apply_protection ht) (f_packed ht)
    (f_initialized ht) (f_static_keys ht) x (nApplyCount ht) (nIteratorsCount ht) (nTableMask
    ht) (arHash ht) (arData ht) (nNumUsed ht) (nNumOfElements ht) (nTableSize ht)
    (nInternalPointer ht) (nNextFreeElement ht) (pDestructor ht).
Definition set_nApplyCount (x : Z) (ht : HashTable) : HashTable :=
  mkHashTable (ht_addr ht) (f_persistent ht) (f_apply_protection ht) (f_packed ht)
    (f_initialized ht) (f_static_keys ht) (f_has_empty_ind ht) x (nIteratorsCount ht)
    (nTableMask ht) (arHash ht) (arData ht) (nNumUsed ht) (nNumOfElements ht) (nTableSize ht)
    (nInternalPointer ht) (nNextFreeElement ht) (pDestructor ht).
Definition set_nIteratorsCount (x : Z) (ht : HashTable) : HashTable :=
  mkHashTable (ht_addr ht) (f_persistent ht) (f_apply_protection ht) (f_packed ht)
    (f_initialized ht) (f_static_keys ht) (f_has_empty_ind ht) (nApplyCount ht) x (nTableMask
    ht) (arHash ht) (arData ht) (nNumUsed ht) (nNumOfElements ht) (nTableSize ht)
    (nInternalPointer ht) (nNextFreeElement ht) (pDestructor ht).
Definition set_nTableMask (x : Z) (ht : HashTable) : HashTable :=
  mkHashTable (ht_addr ht) (f_persistent ht) (f_apply_protection ht) (f_packed ht)
    (f_initialized ht) (f_static_keys ht) (f_has_empty_ind ht) (nApplyCount ht)
    (nIteratorsCount ht) x (arHash ht) (arData ht) (nNumUsed ht) (nNumOfElements ht)
    (nTableSize ht) (nInternalPointer ht) (nNextFreeElement ht) (pDestructor ht).
Definition set_arHash (x : list Z) (ht : HashTable) : HashTable :=
  mkHashTable (ht_addr ht) (f_persistent ht) (f_apply_protection ht) (f_packed ht)
    (f_initialized ht) (f_static_keys ht) (f_has_empty_ind ht) (nApplyCount ht)
    (nIteratorsCount ht) (nTableMask ht) x (arData ht) (nNumUsed ht) (nNumOfElements ht)
    (nTableSize ht) (nInternalPointer ht) (nNextFreeElement ht) (pDestructor ht).
Definition set_arData (x : list Bucket) (ht : HashTable) : HashTable :=
  mkHashTable (ht_addr ht) (f_persistent ht) (f_apply_protection ht) (f_packed ht)
    (f_initialized ht) (f_static_keys ht) (f_has_empty_ind ht) (nApplyCount ht)
    (nIteratorsCount ht) (nTableMask ht) (arHash ht) x (nNumUsed ht) (nNumOfElements ht)
    (nTableSize ht) (nInternalPointer ht) (nNextFreeElement ht) (pDestructor ht).
Definition set_nNumUsed (x : Z) (ht : HashTable) : HashTable :=
  mkHashTable (ht_addr ht) (f_persistent ht) (f_apply_protection ht) (f_packed ht)
    (f_initialized ht) (f_static_keys ht) (f_has_empty_ind ht) (nApplyCount ht)
    (nIteratorsCount ht) (nTableMask ht) (arHash ht) (arData ht) x (nNumOfElements ht)
    (nTableSize ht) (nInternalPointer ht) (nNextFreeElement ht) (pDestructor ht).
Definition set_nNumOfElements (x : Z) (ht : HashTable) : HashTable :=
  mkHashTable (ht_addr ht) (f_persistent ht) (f_apply_protection ht) (f_packed ht)
    (f_initialized ht) (f_static_keys ht) (f_has_empty_ind ht) (nApplyCount ht)
    (nIteratorsCount ht) (nTableMask ht) (arHash ht) (arData ht) (nNumUsed ht) x (nTableSize
    ht) (nInternalPointer ht) (nNextFreeElement ht) (pDestructor ht).
Definition set_nTableSize (x : Z) (ht : HashTable) : HashTable :=
  mkHashTable (ht_addr ht) (f_persistent ht) (f_apply_protection ht) (f_packed ht)
    (f_initialized ht) (f_static_keys ht) (f_has_empty_ind ht) (nApplyCount ht)
    (nIteratorsCount ht) (nTableMask ht) (arHash ht) (arData ht) (nNumUsed ht) (nNumOfElements
    ht) x (nInternalPointer ht) (nNextFreeElement ht) (pDestructor ht).
Definition set_nInternalPointer (x : Z) (ht : HashTable) : HashTable :=
  mkHashTable (ht_addr ht) (f_persistent ht) (f_apply_protection ht) (f_packed ht)
    (f_initialized ht) (f_static_keys ht) (f_has_empty_ind ht) (nApplyCount ht)
    (nIteratorsCount ht) (nTableMask ht) (arHash ht) (arData ht) (nNumUsed ht) (nNumOfElements
    ht) (nTableSize ht) x (nNextFreeElement ht) (pDestructor ht).
Definition set_nNextFreeElement (x : Z) (ht : HashTable) : HashTable :=
  mkHashTable (ht_addr ht) (f_persistent ht) (f_apply_protection ht) (f_packed ht)
    (f_initialized ht) (f_static_keys ht) (f_has_empty_ind ht) (nApplyCount ht)
    (nIteratorsCount ht) (nTableMask ht) (arHash ht) (arData ht) (nNumUsed ht) (nNumOfElements
    ht) (nTableSize ht) (nInternalPointer ht) x (pDestructor ht).

(** ** The executor state the table functions touch

    [ht_iterators] is [EG(ht_iterators)] (its length is
    [EG(ht_iterators_count)]); [cells] are the [zval]s that [IS_INDIRECT]
    points to; [next_serial] is the serial number of the next string that is
    allocated; [events] records, most recent first, the calls to the
    destructor, the reference-count changes of keys and the frees. *)
Inductive iter_ht :=
| HT_NULL
| HT_POISONED_PTR
| HT_PTR (a : addr).

#[export] Instance iter_ht_eq_dec : EqDecision iter_ht.
Proof. solve_decision. Defined.

Record HashTableIterator := mkIter { it_ht : iter_ht; it_pos : Z }.

#[export] Instance HashTableIterator_eq_dec : EqDecision HashTableIterator.
Proof. solve_decision. Defined.

Inductive event :=
| EvDtor (v : zval)
| EvAddref (s : zend_string)
| EvRelease (s : zend_string)
| EvDelref (s : zend_string)
| EvPtrDtor (v : zval)
| EvAddrefVal (v : zval)
| EvFree (ht : addr)
| EvFreeTable (ht : addr).

#[export] Instance event_eq_dec : EqDecision event.
Proof. solve_decision. Defined.

Record EG := mkEG {
  ht_iterators : list HashTableIterator;
  ht_iterators_used : Z;
  cells : gmap addr zval;
  fresh_bucket : Bucket;
  fresh_idx : Z;
  next_serial : N;
  events : list event
}.

Definition set_ht_iterators (l : list HashTableIterator) (eg : EG) : EG :=
  mkEG l (ht_iterators_used eg) (cells eg) (fresh_bucket eg) (fresh_idx eg) (next_serial eg) (events eg).
Definition set_cells (c : gmap addr zval) (eg : EG) : EG :=
  mkEG (ht_iterators eg) (ht_iterators_used eg) c (fresh_bucket eg) (fresh_idx eg) (next_serial eg) (events eg).
Definition log (e : event) (eg : EG) : EG :=
  mkEG (ht_iterators eg) (ht_iterators_used eg) (cells eg) (fresh_bucket eg) (fresh_idx eg)
    (next_serial eg) (e :: events eg).

(** [ht->pDestructor(v)] when there is one. *)
Definition run_dtor (ht : HashTable) (v : zval) (eg : EG) : EG :=
  if pDestructor ht then log (EvDtor v) eg else eg.

(** [Z_REFCOUNTED] and [i_zval_ptr_dtor]: values that hold a reference give it
    up (an immutable array ignores that); the others are left alone. *)
Definition refcounted (v : zval) : bool :=
  match v with
  | IS_STRING s => negb (zs_interned s)
  | IS_ARRAY _ | IS_OBJECT _ | IS_RESOURCE _ | IS_REFERENCE _ => true
  | _ => false
  end.
Definition i_zval_ptr_dtor (v : zval) (eg : EG) : EG :=
  if refcounted v then log (EvPtrDtor v) eg else eg.

(** [zend_string_addref] and [zend_string_release] leave interned strings alone. *)
Definition zend_string_addref (s : zend_string) (eg : EG) : EG :=
  if zs_interned s then eg else log (EvAddref s) eg.
Definition zend_string_release (s : zend_string) (eg : EG) : EG :=
  if zs_interned s then eg else log (EvRelease s) eg.
Definition zend_string_delref (s : zend_string) (eg : EG) : EG :=
  if zs_interned s then eg else log (EvDelref s) eg.

(** [zend_string_init]: a new string, not hashed yet. *)
Definition zend_string_init (str : list char) (eg : EG) : zend_string * EG :=
  (mk_zend_string str (next_serial eg) 0 false,
   mkEG (ht_iterators eg) (ht_iterators_used eg) (cells eg) (fresh_bucket eg) (fresh_idx eg)
     (N.succ (next_serial eg)) (events eg)).
Definition release_key (k : option zend_string) (eg : EG) : EG :=
  match k with Some s => zend_string_release s eg | None => eg end.

(** ** Macros *)

(** [(uint32_t)(h | ht->nTableMask)] *)
Definition hash_index (h mask : Z) : Z := u32 (Z.lor h mask).

(** [HT_HASH_SIZE] in entries: [(uint32_t)-(int32_t)nTableMask]. *)
Definition HT_HASH_SIZE (mask : Z) : Z := u32 (- s32 mask).

(** [HT_HASH(ht, nIndex)]: the entry at the negative offset [(int32_t)nIndex]
    before [arData], that is [HT_HASH_SIZE] further in [arHash]. *)
Definition HT_HASH (ht : HashTable) (nIndex : Z) : res Z :=
  aget (arHash ht) (s32 nIndex + HT_HASH_SIZE (nTableMask ht)).
Definition set_HT_HASH (ht : HashTable) (nIndex v : Z) : res HashTable :=
  let! l := aset (arHash ht) (s32 nIndex + HT_HASH_SIZE (nTableMask ht)) v in
  Ok (set_arHash l ht).

(** [HT_HASH_RESET] and [HT_HASH_RESET_PACKED]: every entry is invalid. *)
Definition HT_HASH_RESET (ht : HashTable) : HashTable :=
  set_arHash (replicate (Z.to_nat (HT_HASH_SIZE (nTableMask ht))) HT_INVALID_IDX) ht.
Definition HT_HASH_RESET_PACKED (ht : HashTable) : HashTable :=
  set_arHash [HT_INVALID_IDX; HT_INVALID_IDX] ht.

Definition uninitialized_bucket : list Z := [HT_INVALID_IDX; HT_INVALID_IDX].

Definition HT_IS_WITHOUT_HOLES (ht : HashTable) : bool := nNumUsed ht =? nNumOfElements ht.
Definition HT_HAS_STATIC_KEYS_ONLY (ht : HashTable) : bool := f_packed ht || f_static_keys ht.

Definition get_bucket (ht : HashTable) (idx : Z) : res Bucket := aget (arData ht) idx.
Definition set_bucket (ht : HashTable) (idx : Z) (b : Bucket) : res HashTable :=
  let! l := aset (arData ht) idx b in Ok (set_arData l ht).

(** Fresh memory for [n] buckets or hash entries; [memcpy] of the used ones. *)
Definition malloc_buckets (eg : EG) (n : Z) : list Bucket :=
  replicate (Z.to_nat n) (fresh_bucket eg).
Definition malloc_hash (eg : EG) (n : Z) : list Z := replicate (Z.to_nat n) (fresh_idx eg).
Definition copy_used (eg : EG) (used size : Z) (old : list Bucket) : list Bucket :=
  take (Z.to_nat used) old ++ malloc_buckets eg (size - used).

(** [*p] for a pointer to a cell. *)
Definition get_cell (eg : EG) (a : addr) : res zval :=
  match cells eg !! a with Some v => Ok v | None => Err OutOfBounds end.
Definition set_cell (eg : EG) (a : addr) (v : zval) : EG := set_cells (<[a := v]> (cells eg)) eg.

(** The [zval *] that the table functions return, with its reads and writes
    ([ZVAL_COPY_VALUE]). *)
Inductive zval_ptr :=
| ZV_BUCKET (idx : Z)
| ZV_CELL (a : addr).

#[export] Instance zval_ptr_eq_dec : EqDecision zval_ptr.
Proof. solve_decision. Defined.

Definition read_zval (ht : HashTable) (eg : EG) (p : zval_ptr) : res zval :=
  match p with
  | ZV_BUCKET idx => let! b := get_bucket ht idx in Ok (b_val b)
  | ZV_CELL a => get_cell eg a
  end.

Definition write_zval (ht : HashTable) (eg : EG) (p : zval_ptr) (v : zval)
    : res (HashTable * EG) :=
  match p with
  | ZV_BUCKET idx =>
      let! b := get_bucket ht idx in
      let! ht := set_bucket ht idx (set_b_val v b) in
      Ok (ht, eg)
  | ZV_CELL a => Ok (ht, set_cell eg a v)
  end.

(** Results of the [int] functions. *)
Definition SUCCESS : Z := 0.
Definition FAILURE : Z := -1.
