(* ===== verification/HashCore.v ===== *)
(** * The ordered hash table: allocation, conversion, rehashing, lookup,
    iterator positions ([Zend/zend_hash.c], first part) *)
From S2P Require Export HashData.

(** ** Table sizes *)

(** The portable body of [zend_hash_check_size]. *)
Definition round_up_pow2 (nSize : Z) : Z :=
  let nSize := nSize - 1 in
  let nSize := Z.lor nSize (Z.shiftr nSize 1) in
  let nSize := Z.lor nSize (Z.shiftr nSize 2) in
  let nSize := Z.lor nSize (Z.shiftr nSize 4) in
  let nSize := Z.lor nSize (Z.shiftr nSize 8) in
  let nSize := Z.lor nSize (Z.shiftr nSize 16) in
  nSize + 1.

(** The variant for compilers with [__builtin_clz], which counts the leading
    zeros of a non-zero 32-bit word. *)
Definition builtin_clz (x : Z) : Z := 31 - Z.log2 x.
Definition round_up_pow2_clz (nSize : Z) : Z :=
  u32 (Z.shiftl 2 (Z.lxor (builtin_clz (nSize - 1)) 31)).

Definition zend_hash_check_size (nSize : Z) : res Z :=
  if nSize <? HT_MIN_SIZE then Ok (round_up_pow2 HT_MIN_SIZE)
  else if HT_MAX_SIZE <=? nSize then Err Fatal
  else Ok (round_up_pow2 nSize).

(** ** Initialisation *)
Definition zend_hash_real_init_ex (ht : HashTable) (packed : bool) (eg : EG) : HashTable :=
  if packed then
    HT_HASH_RESET_PACKED
      (set_f_initialized true (set_f_packed true
        (set_arHash (malloc_hash eg (HT_HASH_SIZE (nTableMask ht)))
          (set_arData (malloc_buckets eg (nTableSize ht)) ht))))
  else
    let ht := set_nTableMask (u32 (- nTableSize ht)) ht in
    HT_HASH_RESET
      (set_f_initialized true
        (set_arHash (malloc_hash eg (HT_HASH_SIZE (nTableMask ht)))
          (set_arData (malloc_buckets eg (nTableSize ht)) ht))).

Definition zend_hash_check_init (ht : HashTable) (packed : bool) (eg : EG) : HashTable :=
  if negb (f_initialized ht) then zend_hash_real_init_ex ht packed eg else ht.

Definition _zend_hash_init (self : addr) (nSize : Z) (dtor persistent : bool) : res HashTable :=
  let! size := zend_hash_check_size nSize in
  Ok (mkHashTable self persistent true false false true false 0 0
        HT_MIN_MASK uninitialized_bucket [] 0 0 size HT_INVALID_IDX 0 dtor).

Definition _zend_hash_init_ex (self : addr) (nSize : Z) (dtor persistent bApplyProtection : bool)
    : res HashTable :=
  let! ht := _zend_hash_init self nSize dtor persistent in
  Ok (if bApplyProtection then ht else set_f_apply_protection false ht).

Definition zend_hash_set_apply_protection (ht : HashTable) (bApplyProtection : bool) : HashTable :=
  set_f_apply_protection bApplyProtection ht.

Definition zend_hash_packed_grow (ht : HashTable) (eg : EG) : res HashTable :=
  if HT_MAX_SIZE <=? nTableSize ht then Err Fatal
  else
    let ht := set_nTableSize (nTableSize ht + nTableSize ht) ht in
    Ok (set_arData (copy_used eg (nNumUsed ht) (nTableSize ht) (arData ht)) ht).

Definition zend_hash_real_init (ht : HashTable) (packed : bool) (eg : EG) : HashTable :=
  zend_hash_real_init_ex ht packed eg.

(** ** Iterator positions *)
Definition _zend_hash_iterators_update (ht : HashTable) (from to : Z) (eg : EG) : EG :=
  set_ht_iterators
    (imap (fun k it =>
       if (Z.of_nat k <? ht_iterators_used eg)
          && bool_decide (it_ht it = HT_PTR (ht_addr ht)) && (it_pos it =? from)
       then mkIter (it_ht it) to else it) (ht_iterators eg)) eg.

Definition zend_hash_iterators_update (ht : HashTable) (from to : Z) (eg : EG) : EG :=
  if negb (nIteratorsCount ht =? 0) then _zend_hash_iterators_update ht from to eg else eg.

Definition zend_hash_iterators_lower_pos (ht : HashTable) (start : Z) (eg : EG) : Z :=
  foldl (fun res it =>
    if bool_decide (it_ht it = HT_PTR (ht_addr ht)) && (start <=? it_pos it) && (it_pos it <? res)
    then it_pos it else res)
    HT_INVALID_IDX (take (Z.to_nat (ht_iterators_used eg)) (ht_iterators eg)).

Definition _zend_hash_iterators_remove (ht : HashTable) (eg : EG) : EG :=
  set_ht_iterators
    (imap (fun k it =>
       if (Z.of_nat k <? ht_iterators_used eg) && bool_decide (it_ht it = HT_PTR (ht_addr ht))
       then mkIter HT_POISONED_PTR (it_pos it) else it) (ht_iterators eg)) eg.

Definition zend_hash_iterators_remove (ht : HashTable) (eg : EG) : EG :=
  if negb (nIteratorsCount ht =? 0) then _zend_hash_iterators_remove ht eg else eg.

(** ** Rehashing *)

(** [nIndex = h | ht->nTableMask; Z_NEXT(q->val) = HT_HASH(ht, nIndex);
    HT_HASH(ht, nIndex) = HT_IDX_TO_HASH(idx)] where [q = arData + idx] holds [b]. *)
Definition hash_link (ht : HashTable) (idx : Z) (b : Bucket) : res HashTable :=
  let nIndex := hash_index (b_h b) (nTableMask ht) in
  let! head := HT_HASH ht nIndex in
  let! ht := set_bucket ht idx (set_b_next head b) in
  set_HT_HASH ht nIndex idx.

(** The loop over a table without holes. *)
Fixpoint rehash_dense (fuel : nat) (ht : HashTable) (i : Z) {struct fuel} : res HashTable :=
  match fuel with
  | O => Err OutOfFuel
  | S fuel =>
      let! p := get_bucket ht i in
      let! ht := hash_link ht i p in
      let i := i + 1 in
      if i <? nNumUsed ht then rehash_dense fuel ht i else Ok ht
  end.

(** [do { zend_hash_iterators_update(ht, iter_pos, j); iter_pos =
    zend_hash_iterators_lower_pos(ht, iter_pos + 1); } while (iter_pos < i);] *)
Fixpoint iter_catch_up (fuel : nat) (ht : HashTable) (eg : EG) (iter_pos i j : Z) {struct fuel}
    : res (EG * Z) :=
  match fuel with
  | O => Err OutOfFuel
  | S fuel =>
      let eg := zend_hash_iterators_update ht iter_pos j eg in
      let iter_pos := zend_hash_iterators_lower_pos ht (u32 (iter_pos + 1)) eg in
      if iter_pos <? i then iter_catch_up fuel ht eg iter_pos i j else Ok (eg, iter_pos)
  end.

(** [if (i >= iter_pos) do { .. } while (iter_pos < i);], only in the loop for
    tables with iterators ([iter_pos = None] is the other loop). *)
Definition iter_step (ht : HashTable) (eg : EG) (iter_pos : option Z) (i j : Z)
    : res (EG * option Z) :=
  match iter_pos with
  | None => Ok (eg, None)
  | Some ip =>
      if ip <=? i then
        let! (eg, ip) := iter_catch_up (S (Z.to_nat (i - ip))) ht eg ip i j in
        Ok (eg, Some ip)
      else Ok (eg, Some ip)
  end.

(** The compacting loop: [while (++i < ht->nNumUsed) { p++; .. }] with [q = arData + j]. *)
Fixpoint rehash_compact (fuel : nat) (ht : HashTable) (eg : EG) (iter_pos : option Z) (i j : Z)
    {struct fuel} : res (HashTable * EG * Z) :=
  match fuel with
  | O => Err OutOfFuel
  | S fuel =>
      let i := i + 1 in
      if i <? nNumUsed ht then
        let! p := get_bucket ht i in
        if negb (is_undef (b_val p)) then
          let! q := get_bucket ht j in
          let! ht := hash_link ht j (mkBucket (b_val p) (b_next q) (b_h p) (b_key p)) in
          let ht := if nInternalPointer ht =? i then set_nInternalPointer j ht else ht in
          let! (eg, iter_pos) := iter_step ht eg iter_pos i j in
          rehash_compact fuel ht eg iter_pos i (j + 1)
        else rehash_compact fuel ht eg iter_pos i j
      else Ok (ht, eg, j)
  end.

(** The loop over a table with holes: links until the first hole, then compacts. *)
Fixpoint rehash_holes (fuel : nat) (ht : HashTable) (eg : EG) (i : Z) {struct fuel}
    : res (HashTable * EG) :=
  match fuel with
  | O => Err OutOfFuel
  | S fuel =>
      let! p := get_bucket ht i in
      if is_undef (b_val p) then
        let iter_pos :=
          if nIteratorsCount ht =? 0 then None
          else Some (zend_hash_iterators_lower_pos ht 0 eg) in
        let! (ht, eg, j) :=
          rehash_compact (S (Z.to_nat (nNumUsed ht - i))) ht eg iter_pos i i in
        Ok (set_nNumUsed j ht, eg)
      else
        let! ht := hash_link ht i p in
        let i := i + 1 in
        if i <? nNumUsed ht then rehash_holes fuel ht eg i else Ok (ht, eg)
  end.

Definition zend_hash_rehash (ht : HashTable) (eg : EG) : res (HashTable * EG) :=
  if nNumOfElements ht =? 0 then
    if f_initialized ht then Ok (HT_HASH_RESET (set_nNumUsed 0 ht), eg) else Ok (ht, eg)
  else
    let ht := HT_HASH_RESET ht in
    let fuel := S (Z.to_nat (nNumUsed ht)) in
    if HT_IS_WITHOUT_HOLES ht then
      let! ht := rehash_dense fuel ht 0 in Ok (ht, eg)
    else rehash_holes fuel ht eg 0.

(** ** Conversions and growth *)
Definition zend_hash_packed_to_hash (ht : HashTable) (eg : EG) : res (HashTable * EG) :=
  let ht := set_f_packed false ht in
  let mask := u32 (- nTableSize ht) in
  let data := copy_used eg (nNumUsed ht) (nTableSize ht) (arData ht) in
  let ht := set_arData data (set_arHash (malloc_hash eg (HT_HASH_SIZE mask))
              (set_nTableMask mask ht)) in
  zend_hash_rehash ht eg.

Definition zend_hash_to_packed (ht : HashTable) (eg : EG) : HashTable :=
  let ht := set_nTableMask HT_MIN_MASK (set_f_static_keys true (set_f_packed true ht)) in
  let data := copy_used eg (nNumUsed ht) (nTableSize ht) (arData ht) in
  set_arData data (HT_HASH_RESET_PACKED ht).

(** A new allocation of [nSize] buckets for a non-packed table, then a rehash. *)
Definition realloc_and_rehash (ht : HashTable) (nSize : Z) (eg : EG) : res (HashTable * EG) :=
  let mask := u32 (- nSize) in
  let data := copy_used eg (nNumUsed ht) nSize (arData ht) in
  zend_hash_rehash
    (set_arData data (set_arHash (malloc_hash eg (HT_HASH_SIZE mask))
       (set_nTableMask mask (set_nTableSize nSize ht)))) eg.

Definition zend_hash_extend (ht : HashTable) (nSize : Z) (packed : bool) (eg : EG)
    : res (HashTable * EG) :=
  if nSize =? 0 then Ok (ht, eg)
  else if negb (f_initialized ht) then
    let! ht := if nTableSize ht <? nSize
               then let! s := zend_hash_check_size nSize in Ok (set_nTableSize s ht)
               else Ok ht in
    Ok (zend_hash_check_init ht packed eg, eg)
  else if packed then
    if nTableSize ht <? nSize then
      let! s := zend_hash_check_size nSize in
      let ht := set_nTableSize s ht in
      Ok (set_arData (copy_used eg (nNumUsed ht) (nTableSize ht) (arData ht)) ht, eg)
    else Ok (ht, eg)
  else if nTableSize ht <? nSize then
    let! s := zend_hash_check_size nSize in
    realloc_and_rehash ht s eg
  else Ok (ht, eg).

Definition zend_hash_do_resize (ht : HashTable) (eg : EG) : res (HashTable * EG) :=
  if u32 (nNumOfElements ht + Z.shiftr (nNumOfElements ht) 5) <? nNumUsed ht then
    zend_hash_rehash ht eg
  else if nTableSize ht <? HT_MAX_SIZE then
    realloc_and_rehash ht (nTableSize ht + nTableSize ht) eg
  else Err Fatal.

(** [ZEND_HASH_IF_FULL_DO_RESIZE] *)
Definition if_full_do_resize (ht : HashTable) (eg : EG) : res (HashTable * EG) :=
  if nTableSize ht <=? nNumUsed ht then zend_hash_do_resize ht eg else Ok (ht, eg).

(** The bookkeeping for a new element: [idx = ht->nNumUsed++;
    ht->nNumOfElements++; if (ht->nInternalPointer == HT_INVALID_IDX)
    ht->nInternalPointer = idx;] *)
Definition count_new (ht : HashTable) : HashTable :=
  let idx := nNumUsed ht in
  let ht := set_nNumUsed (u32 (idx + 1)) ht in
  let ht := set_nNumOfElements (u32 (nNumOfElements ht + 1)) ht in
  if nInternalPointer ht =? HT_INVALID_IDX then set_nInternalPointer idx ht else ht.

(** ** Lookup *)

(** The collision-chain loop shared by the find functions: the first bucket
    from [idx] on that satisfies [matches]. *)
Fixpoint find_loop (fuel : nat) (ht : HashTable) (matches : Bucket -> bool) (idx : Z)
    {struct fuel} : res (option Z) :=
  if idx =? HT_INVALID_IDX then Ok None
  else match fuel with
  | O => Err OutOfFuel
  | S fuel =>
      let! p := get_bucket ht idx in
      if matches p then Ok (Some idx) else find_loop fuel ht matches (b_next p)
  end.

Definition find_fuel (ht : HashTable) : nat := S (length (arData ht)).

(** The test of [zend_hash_find_bucket]: the same pointer, or equal hash,
    length and contents. *)
Definition match_zstr (key : zend_string) (h : Z) (p : Bucket) : bool :=
  match b_key p with
  | Some k =>
      same_ptr k key
      || ((b_h p =? h) && Nat.eqb (length (zs_val k)) (length (zs_val key))
          && memeq (zs_val k) (zs_val key))
  | None => false
  end.

Definition match_str (str : list char) (h : Z) (p : Bucket) : bool :=
  match b_key p with
  | Some k => (b_h p =? h) && Nat.eqb (length (zs_val k)) (length str) && memeq (zs_val k) str
  | None => false
  end.

Definition match_index (h : Z) (p : Bucket) : bool :=
  (b_h p =? h) && match b_key p with Some _ => false | None => true end.

Definition zend_hash_find_bucket (ht : HashTable) (key : zend_string) : res (option Z) :=
  let h := zend_string_hash_val key in
  let! idx := HT_HASH ht (hash_index h (nTableMask ht)) in
  find_loop (find_fuel ht) ht (match_zstr key h) idx.

Definition zend_hash_str_find_bucket (ht : HashTable) (str : list char) (h : Z)
    : res (option Z) :=
  let! idx := HT_HASH ht (hash_index h (nTableMask ht)) in
  find_loop (find_fuel ht) ht (match_str str h) idx.

Definition zend_hash_index_find_bucket (ht : HashTable) (h : Z) : res (option Z) :=
  let! idx := HT_HASH ht (hash_index h (nTableMask ht)) in
  find_loop (find_fuel ht) ht (match_index h) idx.

Definition zend_hash_find (ht : HashTable) (key : zend_string) : res (option zval_ptr) :=
  let! p := zend_hash_find_bucket ht key in Ok (ZV_BUCKET <$> p).

Definition zend_hash_str_find (ht : HashTable) (str : list char) : res (option zval_ptr) :=
  let! p := zend_hash_str_find_bucket ht str (zend_inline_hash_func str) in Ok (ZV_BUCKET <$> p).

Definition zend_hash_exists (ht : HashTable) (key : zend_string) : res bool :=
  let! p := zend_hash_find_bucket ht key in Ok (isSome p).

Definition zend_hash_str_exists (ht : HashTable) (str : list char) : res bool :=
  let! p := zend_hash_str_find_bucket ht str (zend_inline_hash_func str) in
  Ok (isSome p).

(** A packed table is indexed directly. *)
Definition packed_find (ht : HashTable) (h : Z) : res (option Z) :=
  if h <? nNumUsed ht then
    let! p := get_bucket ht h in
    Ok (if is_undef (b_val p) then None else Some h)
  else Ok None.

Definition zend_hash_index_find (ht : HashTable) (h : Z) : res (option zval_ptr) :=
  if f_packed ht then let! p := packed_find ht h in Ok (ZV_BUCKET <$> p)
  else let! p := zend_hash_index_find_bucket ht h in Ok (ZV_BUCKET <$> p).

Definition _zend_hash_index_find (ht : HashTable) (h : Z) : res (option zval_ptr) :=
  let! p := zend_hash_index_find_bucket ht h in Ok (ZV_BUCKET <$> p).

Definition zend_hash_index_exists (ht : HashTable) (h : Z) : res bool :=
  if f_packed ht then let! p := packed_find ht h in Ok (isSome p)
  else let! p := zend_hash_index_find_bucket ht h in Ok (isSome p).
