(* ===== verification/HashInv.v ===== *)
(** * The ordered hash table: abstraction, invariant and their lemmas

    The abstract value of a table is the list of its entries in insertion
    order ([elems]); the invariant [ht_wf] says that the hash part and the
    collision chains represent it. *)
From S2P Require Export HashCore.

(** ** Abstract tables: association lists with distinct keys *)
Inductive hkey :=
| KInt (h : Z)
| KStr (s : list char).

#[export] Instance hkey_eq_dec : EqDecision hkey.
Proof. solve_decision. Defined.

Definition alist := list (hkey * zval).

Fixpoint al_find (k : hkey) (l : alist) : option zval :=
  match l with
  | [] => None
  | (k', v) :: l => if decide (k' = k) then Some v else al_find k l
  end.

(** Replace in place, or append: PHP arrays keep insertion order. *)
Fixpoint al_update (k : hkey) (v : zval) (l : alist) : alist :=
  match l with
  | [] => [(k, v)]
  | (k', v') :: l => if decide (k' = k) then (k, v) :: l else (k', v') :: al_update k v l
  end.

Fixpoint al_delete (k : hkey) (l : alist) : alist :=
  match l with
  | [] => []
  | (k', v') :: l => if decide (k' = k) then l else (k', v') :: al_delete k l
  end.

Lemma al_find_None k l : al_find k l = None <-> k ∉ l.*1.
Proof.
  induction l as [|[k' v] l IH]; simpl; [set_solver|].
  case_decide; subst; [set_solver|]. rewrite IH. set_solver.
Qed.

Lemma al_find_app k l1 l2 :
  k ∉ l1.*1 -> al_find k (l1 ++ l2) = al_find k l2.
Proof.
  induction l1 as [|[k' v] l1 IH]; simpl; intros H; [done|].
  rewrite decide_False by set_solver. apply IH. set_solver.
Qed.

Lemma al_update_app k v l1 l2 :
  k ∉ l1.*1 -> al_update k v (l1 ++ l2) = l1 ++ al_update k v l2.
Proof.
  induction l1 as [|[k' v'] l1 IH]; simpl; intros H; [done|].
  rewrite decide_False by set_solver. f_equal. apply IH. set_solver.
Qed.

Lemma al_update_new k v l : al_find k l = None -> al_update k v l = l ++ [(k, v)].
Proof.
  intros H%al_find_None. rewrite <- (app_nil_r l) at 1. by rewrite al_update_app.
Qed.

Lemma al_delete_app k l1 l2 :
  k ∉ l1.*1 -> al_delete k (l1 ++ l2) = l1 ++ al_delete k l2.
Proof.
  induction l1 as [|[k' v'] l1 IH]; simpl; intros H; [done|].
  rewrite decide_False by set_solver. f_equal. apply IH. set_solver.
Qed.

Lemma al_delete_None k l : al_find k l = None -> al_delete k l = l.
Proof.
  intros H%al_find_None. rewrite <- (app_nil_r l) at 1.
  by rewrite al_delete_app, app_nil_r.
Qed.

(** ** Abstraction *)
Definition bkey (b : Bucket) : hkey :=
  match b_key b with Some s => KStr (zs_val s) | None => KInt (b_h b) end.

Definition bucket_elem (b : Bucket) : option (hkey * zval) :=
  if is_undef (b_val b) then None else Some (bkey b, b_val b).

Definition elems_of (d : list Bucket) (n : nat) : alist := omap bucket_elem (take n d).

Definition elems (ht : HashTable) : alist := elems_of (arData ht) (Z.to_nat (nNumUsed ht)).

(** ** Collision chains *)

(** [chain d head l]: following [b_next] from [head] visits the buckets [l]. *)
Fixpoint chain (d : list Bucket) (head : Z) (l : list nat) : Prop :=
  match l with
  | [] => head = HT_INVALID_IDX
  | i :: l => head = Z.of_nat i /\ exists b, d !! i = Some b /\ chain d (b_next b) l
  end.

Definition in_slot (n s : Z) (d : list Bucket) (i : nat) : bool :=
  match d !! i with
  | Some b => negb (is_undef (b_val b)) && (b_h b mod n =? s)
  | None => false
  end.

(** The live buckets among the first [used] of slot [s], newest first. *)
Definition slot_list (n s : Z) (d : list Bucket) (used : nat) : list nat :=
  List.filter (in_slot n s d) (rev (seq 0 used)).

(** Every one of the [n] slots heads the chain of its live buckets. *)
Definition chains_ok (n : Z) (hash : list Z) (d : list Bucket) (used : nat) : Prop :=
  forall s, 0 <= s < n -> exists head,
    hash !! Z.to_nat s = Some head /\ chain d head (slot_list n s d used).

(** ** The invariant *)
Definition bucket_ok (b : Bucket) : Prop :=
  0 <= b_h b < 2 ^ 64 /\
  match b_key b with
  | Some s => zend_string_ok s /\ b_h b = zend_inline_hash_func (zs_val s)
  | None => True
  end.

Definition live (d : list Bucket) (i : nat) (b : Bucket) : Prop :=
  d !! i = Some b /\ is_undef (b_val b) = false.

(** The hash part has [n] entries, a power of two, and the mask is [-n]. *)
Definition mask_ok (ht : HashTable) (n : Z) : Prop :=
  (exists k, 1 <= k <= 31 /\ n = 2 ^ k) /\
  nTableMask ht = u32 (- n) /\ Z.of_nat (length (arHash ht)) = n.

Definition used (ht : HashTable) : nat := Z.to_nat (nNumUsed ht).

Definition position_ok (ht : HashTable) (p : Z) : Prop :=
  p = HT_INVALID_IDX \/ exists i b, p = Z.of_nat i /\ (i < used ht)%nat /\ live (arData ht) i b.

(** The part of the invariant that concerns the bucket array alone. *)
Record data_wf (ht : HashTable) : Prop := mk_data_wf {
  wf_size : exists k, 3 <= k <= 31 /\ nTableSize ht = 2 ^ k;
  wf_used : 0 <= nNumUsed ht <= nTableSize ht;
  wf_data_len : Z.of_nat (length (arData ht)) = if f_initialized ht then nTableSize ht else 0;
  wf_init_used : f_initialized ht = false -> nNumUsed ht = 0;
  wf_count : nNumOfElements ht = Z.of_nat (length (elems ht));
  wf_keys : NoDup (elems ht).*1;
  wf_bucket : forall i b, (i < used ht)%nat -> live (arData ht) i b -> bucket_ok b;
  wf_static : HT_HAS_STATIC_KEYS_ONLY ht = true ->
    forall i b s, (i < used ht)%nat -> live (arData ht) i b -> b_key b = Some s ->
    zs_interned s = true;
  wf_next_free : 0 <= nNextFreeElement ht <= ZEND_LONG_MAX;
  wf_next_free_keys : forall h, KInt h ∈ (elems ht).*1 ->
    s64 h < nNextFreeElement ht \/ nNextFreeElement ht = ZEND_LONG_MAX;
  wf_position : position_ok ht (nInternalPointer ht)
}.

(** Packed (or not yet allocated) tables have the two-entry hash part, and a
    packed bucket's key is its index. *)
Record packed_wf (ht : HashTable) : Prop := mk_packed_wf {
  wf_p_mask : nTableMask ht = HT_MIN_MASK;
  wf_p_hash : arHash ht = uninitialized_bucket;
  wf_p_keys : forall i b, (i < used ht)%nat -> live (arData ht) i b ->
    b_h b = Z.of_nat i /\ b_key b = None
}.

(** Other tables have one hash entry per bucket, and chained live buckets. *)
Record hash_wf (ht : HashTable) : Prop := mk_hash_wf {
  wf_h_mask : nTableMask ht = u32 (- nTableSize ht);
  wf_h_len : Z.of_nat (length (arHash ht)) = nTableSize ht;
  wf_h_chains : chains_ok (nTableSize ht) (arHash ht) (arData ht) (used ht)
}.

Definition is_hashed (ht : HashTable) : bool := f_initialized ht && negb (f_packed ht).

Record ht_wf (ht : HashTable) : Prop := mk_ht_wf {
  wf_data : data_wf ht;
  wf_packed_init : f_packed ht = true -> f_initialized ht = true;
  wf_repr : if is_hashed ht then hash_wf ht else packed_wf ht
}.

(** ** Live buckets and [elems_of] *)
Lemma live_elem d i b : live d i b -> bucket_elem b = Some (bkey b, b_val b).
Proof. intros [_ H]. unfold bucket_elem. by rewrite H. Qed.

Lemma elems_of_split d n i b :
  live d i b -> (i < n)%nat -> exists l2,
  elems_of d n = elems_of d i ++ (bkey b, b_val b) :: l2 /\
  (forall b', elems_of (<[i := b']> d) n =
    elems_of d i ++ match bucket_elem b' with Some e => [e] | None => [] end ++ l2).
Proof.
  intros Hl Hi. pose proof (proj1 Hl) as Hd. unfold elems_of.
  exists (omap bucket_elem (drop (S i) (take n d))). split.
  - rewrite (take_split d i n b Hd Hi) at 1. rewrite omap_app. simpl.
    by rewrite (live_elem _ _ _ Hl).
  - intros b'. assert (i < length d)%nat by (by eapply lookup_lt_Some).
    rewrite (take_split (<[i := b']> d) i n b'); [|by apply list_lookup_insert_eq|done].
    rewrite omap_app, take_insert_ge by lia. f_equal. simpl.
    rewrite take_insert_lt, drop_insert_lt by lia.
    by destruct (bucket_elem b').
Qed.

Lemma elems_of_in d n k v :
  (k, v) ∈ elems_of d n <->
  exists i b, (i < n)%nat /\ live d i b /\ bkey b = k /\ b_val b = v.
Proof.
  unfold elems_of. rewrite list_elem_of_omap. split.
  - intros (b & Hb & He). apply list_elem_of_lookup in Hb as [i Hi].
    apply lookup_take_Some in Hi as [Hi Hn]. exists i, b.
    unfold bucket_elem in He. destruct (is_undef (b_val b)) eqn:E; [done|].
    injection He as <- <-. done.
  - intros (i & b & Hn & Hl & <- & <-). exists b. split; [|by eapply live_elem].
    apply list_elem_of_lookup. exists i. rewrite lookup_take_lt by done. apply Hl.
Qed.

Lemma elems_of_key d n k :
  k ∈ (elems_of d n).*1 <-> exists i b, (i < n)%nat /\ live d i b /\ bkey b = k.
Proof.
  rewrite list_elem_of_fmap. split.
  - intros ([k' v] & -> & (i & b & ? & ? & ? & ?)%elems_of_in). eauto.
  - intros (i & b & ? & ? & <-). exists (bkey b, b_val b). split; [done|].
    apply elems_of_in. eauto 10.
Qed.

(** A key has one live bucket. *)
Lemma live_unique d n i j b c :
  NoDup (elems_of d n).*1 -> live d i b -> live d j c ->
  (i < n)%nat -> (j < n)%nat -> bkey b = bkey c -> i = j.
Proof.
  intros Hnd. revert i j b c.
  assert (W : forall i j b c, live d i b -> live d j c -> (i < n)%nat -> (j < n)%nat ->
              bkey b = bkey c -> (i < j)%nat -> False).
  { intros i j b c Hb Hc Hi Hj Hk Hij.
    destruct (elems_of_split d n j c Hc Hj) as (l2 & E & _).
    rewrite E, fmap_app in Hnd. apply NoDup_app in Hnd as (_ & Hnd & _).
    apply (Hnd (bkey b)); [|rewrite Hk; set_solver].
    apply elems_of_key. eauto. }
  intros i j b c Hb Hc Hi Hj Hk. destruct (lt_eq_lt_dec i j) as [[?|?]|?]; [|done|].
  - exfalso. eauto.
  - exfalso. eapply (W j i); eauto.
Qed.

Lemma elems_of_find d n i b :
  NoDup (elems_of d n).*1 -> live d i b -> (i < n)%nat ->
  al_find (bkey b) (elems_of d n) = Some (b_val b).
Proof.
  intros Hnd Hl Hi. destruct (elems_of_split d n i b Hl Hi) as (l2 & E & _).
  rewrite E in *. rewrite fmap_app in Hnd. apply NoDup_app in Hnd as (_ & Hnd & _).
  rewrite al_find_app; [simpl; by rewrite decide_True|].
  intros Hin. apply (Hnd _ Hin). set_solver.
Qed.

Lemma elems_of_find_None d n k :
  (forall i b, (i < n)%nat -> live d i b -> bkey b <> k) -> al_find k (elems_of d n) = None.
Proof.
  intros H. apply al_find_None. intros (i & b & ? & ? & ?)%elems_of_key. naive_solver.
Qed.

(** Writing a live value with the same key is [al_update]. *)
Lemma elems_of_update d n i b b' :
  NoDup (elems_of d n).*1 -> live d i b -> (i < n)%nat ->
  is_undef (b_val b') = false -> bkey b' = bkey b ->
  elems_of (<[i := b']> d) n = al_update (bkey b) (b_val b') (elems_of d n).
Proof.
  intros Hnd Hl Hi Hu Hk. destruct (elems_of_split d n i b Hl Hi) as (l2 & E & E').
  rewrite E', E in *. unfold bucket_elem. rewrite Hu, Hk.
  rewrite fmap_app in Hnd. apply NoDup_app in Hnd as (_ & Hnd & _).
  rewrite al_update_app; [simpl; by rewrite decide_True|].
  intros Hin. apply (Hnd _ Hin). set_solver.
Qed.

(** Writing [IS_UNDEF] is [al_delete]. *)
Lemma elems_of_delete d n i b b' :
  NoDup (elems_of d n).*1 -> live d i b -> (i < n)%nat -> is_undef (b_val b') = true ->
  elems_of (<[i := b']> d) n = al_delete (bkey b) (elems_of d n).
Proof.
  intros Hnd Hl Hi Hu. destruct (elems_of_split d n i b Hl Hi) as (l2 & E & E').
  rewrite E', E in *. unfold bucket_elem. rewrite Hu.
  rewrite fmap_app in Hnd. apply NoDup_app in Hnd as (_ & Hnd & _).
  rewrite al_delete_app; [simpl; by rewrite decide_True|].
  intros Hin. apply (Hnd _ Hin). set_solver.
Qed.

(** Writing a new bucket just behind the used ones appends. *)
Lemma elems_of_snoc d n b :
  (n < length d)%nat -> is_undef (b_val b) = false ->
  elems_of (<[n := b]> d) (S n) = elems_of d n ++ [(bkey b, b_val b)].
Proof.
  intros Hn Hu. unfold elems_of. rewrite take_insert_S, omap_snoc by done.
  unfold bucket_elem at 2. by rewrite Hu.
Qed.

Lemma elems_of_S d n b :
  d !! n = Some b ->
  elems_of d (S n) = elems_of d n ++ match bucket_elem b with Some e => [e] | None => [] end.
Proof. intros H. unfold elems_of. by rewrite (take_S_r _ _ b), omap_snoc by done. Qed.

Lemma elems_of_ext d d' n :
  (forall i, (i < n)%nat -> bucket_elem <$> d !! i = bucket_elem <$> d' !! i) ->
  elems_of d n = elems_of d' n.
Proof.
  induction n as [|n IH]; intros H; [done|].
  assert (Hn := H n ltac:(lia)). unfold elems_of in *.
  destruct (d !! n) as [b|] eqn:E, (d' !! n) as [b'|] eqn:E'; try done; simpl in Hn.
  - injection Hn as Hn. rewrite (take_S_r _ _ _ E), (take_S_r _ _ _ E'), !omap_snoc, Hn.
    f_equal. apply IH. intros i Hi. apply H. lia.
  - apply lookup_ge_None in E, E'.
    rewrite !(firstn_all2 (n := S n)), <- (firstn_all2 (n := n) d), <- (firstn_all2 (n := n) d') by lia.
    apply IH. intros i Hi. apply H. lia.
Qed.

Lemma elems_of_trim d n m :
  (m <= n)%nat -> (forall i b, (m <= i < n)%nat -> d !! i = Some b -> is_undef (b_val b) = true) ->
  elems_of d n = elems_of d m.
Proof.
  intros Hle H. induction n as [|n IH]; [by replace m with 0%nat by lia|].
  destruct (decide (m = S n)) as [->|]; [done|].
  rewrite <- IH by (lia || (intros; apply H with i; [lia|done])).
  destruct (d !! n) as [b|] eqn:E.
  - rewrite (elems_of_S d n b E). unfold bucket_elem.
    rewrite (H n b) by (lia || done). by rewrite app_nil_r.
  - apply lookup_ge_None in E. unfold elems_of. by rewrite !firstn_all2 by lia.
Qed.

(** The invariant reads only these fields. *)
Definition same_repr (ht ht' : HashTable) : Prop :=
  arHash ht' = arHash ht /\ arData ht' = arData ht /\ nTableMask ht' = nTableMask ht /\
  nNumUsed ht' = nNumUsed ht /\ nNumOfElements ht' = nNumOfElements ht /\
  nTableSize ht' = nTableSize ht /\ nInternalPointer ht' = nInternalPointer ht /\
  nNextFreeElement ht' = nNextFreeElement ht /\ f_packed ht' = f_packed ht /\
  f_initialized ht' = f_initialized ht /\ f_static_keys ht' = f_static_keys ht.

Lemma same_repr_wf ht ht' : same_repr ht ht' -> ht_wf ht -> ht_wf ht'.
Proof.
  intros (E1&E2&E3&E4&E5&E6&E7&E8&E9&E10&E11) [[] Hp Hr].
  assert (Ee : elems ht' = elems ht) by (unfold elems; congruence).
  assert (Eu : used ht' = used ht) by (unfold used; congruence).
  assert (Eh : is_hashed ht' = is_hashed ht) by (unfold is_hashed; congruence).
  split; [split|by rewrite E9, E10|];
    rewrite ?Ee, ?Eu, ?E2, ?E4, ?E5, ?E6, ?E7, ?E8, ?E10; try done.
  - unfold HT_HAS_STATIC_KEYS_ONLY. by rewrite E9, E11.
  - unfold position_ok. by rewrite Eu, E2.
  - rewrite Eh. destruct (is_hashed ht); destruct Hr; split; rewrite ?Eu, ?E1, ?E2, ?E3, ?E6; done.
Qed.
