(* ===== verification/HashChain.v ===== *)
(** * The ordered hash table: hash-part arithmetic and collision chains *)
From S2P Require Export HashInv.
From Stdlib Require Import Strings.Byte.

(** ** The slot of a hash value

    For a table of [2^k] slots, [(int32_t)(h | mask)] is [h mod 2^k - 2^k]: the
    entry at offset [h mod 2^k] of the hash part. *)
Lemma shiftl_ones k : 0 <= k <= 32 -> Z.shiftl (Z.ones (32 - k)) k = 2 ^ 32 - 2 ^ k.
Proof.
  intros Hk. rewrite Z.shiftl_mul_pow2, Z.ones_equiv by lia.
  rewrite Z.mul_pred_l, <- Z.pow_add_r by lia. by replace (32 - k + k) with 32 by lia.
Qed.

Lemma u32_opp_pow2 k : 0 <= k <= 31 -> u32 (- 2 ^ k) = 2 ^ 32 - 2 ^ k.
Proof.
  intros Hk. unfold u32.
  assert (0 < 2 ^ k <= 2 ^ 31) by (split; [apply Z.pow_pos_nonneg; lia | apply Z.pow_le_mono_r; lia]).
  symmetry. apply Z.mod_unique with (-1); lia.
Qed.

Lemma add_disjoint x y : Z.land x y = 0 -> x + y = Z.lor x y.
Proof. intros H. pose proof (Z.add_lor_land x y). lia. Qed.

Lemma hash_index_pow2 h k :
  0 <= h -> 0 <= k <= 31 ->
  hash_index h (u32 (- 2 ^ k)) = 2 ^ 32 - 2 ^ k + h mod 2 ^ k.
Proof.
  intros Hh Hk. unfold hash_index. rewrite u32_opp_pow2, <- shiftl_ones by lia.
  unfold u32. rewrite <- !Z.land_ones by lia.
  assert (D : Z.land (Z.shiftl (Z.ones (32 - k)) k) (Z.land h (Z.ones k)) = 0).
  { apply Z.bits_inj'. intros i Hi. rewrite Z.bits_0, !Z.land_spec.
    destruct (Z.ltb_spec i k).
    - by rewrite Z.shiftl_spec_low by lia.
    - rewrite (Z.ones_spec_high k) by lia. by rewrite !andb_false_r. }
  rewrite (add_disjoint _ _ D). apply Z.bits_inj'. intros i Hi.
  rewrite Z.land_spec, !Z.lor_spec, Z.land_spec, Z.shiftl_spec by lia.
  destruct (Z.ltb_spec i 32); [|rewrite (Z.ones_spec_high 32), (Z.ones_spec_high (32 - k)),
    (Z.ones_spec_high k) by lia; by rewrite !andb_false_r].
  rewrite (Z.ones_spec_low 32), andb_true_r by lia.
  destruct (Z.ltb_spec i k).
  - rewrite (Z.ones_spec_low k), (Z.testbit_neg_r _ (i - k)) by lia.
    by rewrite andb_true_r, orb_comm.
  - rewrite (Z.ones_spec_low (32 - k)) by lia. by rewrite orb_true_r.
Qed.

Lemma HT_HASH_SIZE_pow2 k : 1 <= k <= 31 -> HT_HASH_SIZE (u32 (- 2 ^ k)) = 2 ^ k.
Proof.
  intros Hk. rewrite u32_opp_pow2 by lia. unfold HT_HASH_SIZE.
  assert (2 ^ 1 <= 2 ^ k <= 2 ^ 31) by (split; apply Z.pow_le_mono_r; lia).
  rewrite s32_wrap, u32_small by lia. lia.
Qed.

(** The position of [HT_HASH(ht, h | mask)] in the hash part. *)
Lemma hash_position h k :
  0 <= h -> 1 <= k <= 31 ->
  s32 (hash_index h (u32 (- 2 ^ k))) + HT_HASH_SIZE (u32 (- 2 ^ k)) = h mod 2 ^ k.
Proof.
  intros Hh Hk. rewrite HT_HASH_SIZE_pow2, hash_index_pow2 by lia.
  assert (2 ^ 1 <= 2 ^ k <= 2 ^ 31) by (split; apply Z.pow_le_mono_r; lia).
  pose proof (Z.mod_pos_bound h (2 ^ k)). rewrite s32_wrap by lia. lia.
Qed.

Lemma HT_HASH_slot ht n h :
  mask_ok ht n -> 0 <= h ->
  HT_HASH ht (hash_index h (nTableMask ht)) = aget (arHash ht) (h mod n).
Proof.
  intros ((k & Hk & ->) & Hm & _) Hh. unfold HT_HASH. rewrite Hm.
  by rewrite hash_position by lia.
Qed.

Lemma set_HT_HASH_slot ht n h v :
  mask_ok ht n -> 0 <= h ->
  set_HT_HASH ht (hash_index h (nTableMask ht)) v =
  Ok (set_arHash (<[Z.to_nat (h mod n) := v]> (arHash ht)) ht).
Proof.
  intros ((k & Hk & ->) & Hm & Hl) Hh. unfold set_HT_HASH. rewrite Hm, hash_position by lia.
  pose proof (Z.mod_pos_bound h (2 ^ k) ltac:(lia)).
  rewrite <- (Z2Nat.id (h mod 2 ^ k)) at 1 by lia. rewrite aset_ok by lia. done.
Qed.

(** ** Following chains *)
Lemma chain_ext d d' head l :
  (forall i, i ∈ l -> b_next <$> d !! i = b_next <$> d' !! i) ->
  chain d head l -> chain d' head l.
Proof.
  revert head. induction l as [|i l IH]; intros head H; [done|].
  intros (-> & b & Hb & Hc). split; [done|].
  pose proof (H i ltac:(set_solver)) as Hi. rewrite Hb in Hi.
  destruct (d' !! i) as [b'|] eqn:E; [|done]. injection Hi as Hi.
  exists b'. split; [done|]. rewrite <- Hi. apply IH; [|done]. set_solver.
Qed.

Lemma chain_lookup d head l i : chain d head l -> i ∈ l -> is_Some (d !! i).
Proof.
  revert head. induction l as [|j l IH]; intros head; [set_solver|].
  intros (_ & b & Hb & Hc) [->|Hi]%elem_of_cons; eauto.
Qed.

(** The test of a find loop at a bucket index. *)
Definition test_at (d : list Bucket) (f : Bucket -> bool) (i : nat) : bool :=
  match d !! i with Some b => f b | None => false end.

Lemma find_loop_chain ht f fuel head l :
  Z.of_nat (length (arData ht)) <= HT_MAX_SIZE -> chain (arData ht) head l ->
  (length l <= fuel)%nat ->
  find_loop fuel ht f head = Ok (Z.of_nat <$> List.find (test_at (arData ht) f) l).
Proof.
  intros Hmax. revert fuel head. induction l as [|i l IH]; intros fuel head; simpl.
  - intros -> _. by destruct fuel.
  - intros (-> & b & Hb & Hc) Hf. destruct fuel as [|fuel]; [lia|]. simpl.
    assert (i < length (arData ht))%nat by (by eapply lookup_lt_Some).
    unfold HT_MAX_SIZE in Hmax.
    destruct (Z.eqb_spec (Z.of_nat i) HT_INVALID_IDX) as [E|_];
      [unfold HT_INVALID_IDX in E; lia|].
    unfold get_bucket. rewrite (aget_ok _ _ _ Hb). simpl. unfold test_at at 1. rewrite Hb.
    destruct (f b); [done|]. apply IH; [done|lia].
Qed.

(** ** Slot lists *)
Lemma slot_list_in n s d m i : i ∈ slot_list n s d m <-> (i < m)%nat /\ in_slot n s d i = true.
Proof.
  unfold slot_list. rewrite list_elem_of_In, filter_In, <- in_rev, in_seq. intuition lia.
Qed.

Lemma slot_list_S n s d m :
  slot_list n s d (S m) = (if in_slot n s d m then [m] else []) ++ slot_list n s d m.
Proof.
  unfold slot_list. rewrite seq_S, rev_app_distr. simpl. by destruct (in_slot n s d m).
Qed.

Lemma slot_list_length n s d m : (length (slot_list n s d m) <= m)%nat.
Proof.
  induction m as [|m IH]; [done|]. rewrite slot_list_S, length_app.
  destruct (in_slot n s d m); simpl; lia.
Qed.

Lemma slot_list_ext n s d d' m :
  (forall i, (i < m)%nat -> in_slot n s d i = in_slot n s d' i) ->
  slot_list n s d m = slot_list n s d' m.
Proof.
  induction m as [|m IH]; intros H; [done|].
  rewrite !slot_list_S, IH, H by (lia || (intros; apply H; lia)). done.
Qed.

Lemma slot_list_trim n s d m m' :
  (m' <= m)%nat -> (forall i, (m' <= i < m)%nat -> in_slot n s d i = false) ->
  slot_list n s d m = slot_list n s d m'.
Proof.
  induction m as [|m IH]; intros Hle H; [by replace m' with 0%nat by lia|].
  destruct (decide (m' = S m)) as [->|]; [done|].
  rewrite slot_list_S, H by lia. simpl. apply IH; [lia|]. intros; apply H; lia.
Qed.

Lemma slot_list_sorted n s d m : forall l1 i l2 j,
  slot_list n s d m = l1 ++ i :: l2 -> j ∈ l2 -> (j < i)%nat.
Proof.
  induction m as [|m IH]; intros l1 i l2 j; [by destruct l1|].
  rewrite slot_list_S. destruct (in_slot n s d m); simpl; [|apply IH].
  destruct l1 as [|i' l1]; intros E Hj; injection E as <- E.
  - subst l2. by apply slot_list_in in Hj as [? _].
  - eauto.
Qed.

Lemma in_slot_live n d i b :
  live d i b -> in_slot n (b_h b mod n) d i = true.
Proof. intros [H1 H2]. unfold in_slot. by rewrite H1, H2, Z.eqb_refl. Qed.

Lemma in_slot_true n s d i :
  in_slot n s d i = true -> exists b, live d i b /\ b_h b mod n = s.
Proof.
  unfold in_slot, live. destruct (d !! i) as [b|]; [|done].
  intros [H1%negb_true_iff H2%Z.eqb_eq]%andb_prop. eauto.
Qed.

(** ** Building chains *)
Lemma chains_ok_reset n d :
  0 <= n -> chains_ok n (replicate (Z.to_nat n) HT_INVALID_IDX) d 0.
Proof.
  intros Hn s Hs. exists HT_INVALID_IDX. split; [|done].
  apply lookup_replicate_2. lia.
Qed.

(** Buckets above [m] and the fields other than the chains do not matter. *)
Lemma chains_ok_ext n hash d d' m :
  (forall i, (i < m)%nat -> d !! i = d' !! i) -> chains_ok n hash d m -> chains_ok n hash d' m.
Proof.
  intros H Hc s Hs. destruct (Hc s Hs) as (head & Hh & Hch). exists head. split; [done|].
  rewrite <- (slot_list_ext n s d d' m).
  - eapply chain_ext; [|done]. intros i (? & _)%slot_list_in. by rewrite H.
  - intros i Hi. unfold in_slot. by rewrite H.
Qed.

(** The state after [hash_link]: bucket [idx] heads the chain of its slot. *)
Definition linked (ht : HashTable) (n : Z) (idx : nat) (b : Bucket) (head : Z) : HashTable :=
  set_arHash (<[Z.to_nat (b_h b mod n) := Z.of_nat idx]> (arHash ht))
    (set_arData (<[idx := set_b_next head b]> (arData ht)) ht).

Lemma hash_link_ok ht n idx b :
  mask_ok ht n -> 0 <= b_h b -> (idx < length (arData ht))%nat ->
  exists head, arHash ht !! Z.to_nat (b_h b mod n) = Some head /\
  hash_link ht (Z.of_nat idx) b = Ok (linked ht n idx b head).
Proof.
  intros Hm Hb Hi. pose proof Hm as ((k & Hk & En) & Hmask & Hl).
  pose proof (Z.mod_pos_bound (b_h b) n ltac:(lia)) as Hs.
  destruct (lookup_lt_is_Some_2 (arHash ht) (Z.to_nat (b_h b mod n))) as [head Hh]; [lia|].
  exists head. split; [done|]. unfold hash_link.
  rewrite (HT_HASH_slot ht n) by done.
  rewrite <- (Z2Nat.id (b_h b mod n)) by lia. rewrite (aget_ok _ _ _ Hh). simpl.
  unfold set_bucket. rewrite aset_ok by done. simpl.
  rewrite (set_HT_HASH_slot (set_arData _ ht) n) by done. done.
Qed.

Lemma chains_ok_link ht n idx b head :
  0 < n -> chains_ok n (arHash ht) (arData ht) idx -> (idx < length (arData ht))%nat ->
  is_undef (b_val b) = false -> arHash ht !! Z.to_nat (b_h b mod n) = Some head ->
  chains_ok n (arHash (linked ht n idx b head)) (arData (linked ht n idx b head)) (S idx).
Proof.
  intros Hn Hc Hi Hu Hh s Hs. simpl. set (b' := set_b_next head b).
  destruct (Hc s Hs) as (hd & Hhd & Hch).
  pose proof (Z.mod_pos_bound (b_h b) n Hn) as Hm.
  assert (Hsl : slot_list n s (<[idx:=b']> (arData ht)) idx = slot_list n s (arData ht) idx).
  { apply slot_list_ext. intros i Hlt. unfold in_slot. by rewrite list_lookup_insert_ne by lia. }
  assert (Hch' : chain (<[idx:=b']> (arData ht)) hd (slot_list n s (arData ht) idx)).
  { eapply chain_ext; [|done]. intros i (? & _)%slot_list_in.
    by rewrite list_lookup_insert_ne by lia. }
  rewrite slot_list_S, Hsl. unfold in_slot. rewrite list_lookup_insert_eq by done. simpl.
  rewrite Hu. simpl. destruct (Z.eqb_spec (b_h b mod n) s) as [<-|Hne]; simpl.
  - rewrite Hhd in Hh. injection Hh as ->. exists (Z.of_nat idx).
    apply lookup_lt_Some in Hhd. rewrite list_lookup_insert_eq by done.
    split; [done|]. split; [done|]. exists b'. rewrite list_lookup_insert_eq by done. done.
  - exists hd. rewrite list_lookup_insert_ne by lia. done.
Qed.

(** * The ordered hash table: an executable check of the invariant

    [ht_wfb] decides (soundly) the invariant [ht_wf], so that the theorems can
    be applied to concrete tables; [sample_hash] and [sample_packed] are such
    tables. *)

Fixpoint chainb (d : list Bucket) (head : Z) (l : list nat) : bool :=
  match l with
  | [] => head =? HT_INVALID_IDX
  | i :: l => (head =? Z.of_nat i) &&
      match d !! i with Some b => chainb d (b_next b) l | None => false end
  end.

Definition chains_okb (n : Z) (hash : list Z) (d : list Bucket) (used : nat) : bool :=
  forallb (fun s => match hash !! s with
    | Some head => chainb d head (slot_list n (Z.of_nat s) d used) | None => false end)
    (seq 0 (Z.to_nat n)).

Definition zend_string_okb (s : zend_string) : bool :=
  ((zs_h s =? 0) && negb (zs_interned s)) || (zs_h s =? zend_inline_hash_func (zs_val s)).

Definition bucket_okb (b : Bucket) : bool :=
  (0 <=? b_h b) && (b_h b <? 2 ^ 64) &&
  match b_key b with
  | Some s => zend_string_okb s && (b_h b =? zend_inline_hash_func (zs_val s))
  | None => true
  end.

(** [P] holds of every live bucket among the first [n]. *)
Definition all_live (P : nat -> Bucket -> bool) (d : list Bucket) (n : nat) : bool :=
  forallb (fun i => match d !! i with
    | Some b => is_undef (b_val b) || P i b | None => true end) (seq 0 n).

Definition int_key (k : hkey) : option Z := match k with KInt h => Some h | KStr _ => None end.

Definition data_wfb (ht : HashTable) : bool :=
  existsb (fun k => nTableSize ht =? 2 ^ Z.of_nat k) (seq 3 29) &&
  (0 <=? nNumUsed ht) && (nNumUsed ht <=? nTableSize ht) &&
  (Z.of_nat (length (arData ht)) =? if f_initialized ht then nTableSize ht else 0) &&
  (f_initialized ht || (nNumUsed ht =? 0)) &&
  (nNumOfElements ht =? Z.of_nat (length (elems ht))) &&
  bool_decide (NoDup (elems ht).*1) &&
  all_live (fun _ => bucket_okb) (arData ht) (used ht) &&
  (negb (HT_HAS_STATIC_KEYS_ONLY ht) ||
   all_live (fun _ b => match b_key b with Some s => zs_interned s | None => true end)
     (arData ht) (used ht)) &&
  (0 <=? nNextFreeElement ht) && (nNextFreeElement ht <=? ZEND_LONG_MAX) &&
  forallb (fun h => (s64 h <? nNextFreeElement ht) || (nNextFreeElement ht =? ZEND_LONG_MAX))
    (omap int_key (elems ht).*1) &&
  ((nInternalPointer ht =? HT_INVALID_IDX) ||
   ((0 <=? nInternalPointer ht) && (nInternalPointer ht <? nNumUsed ht) &&
    match arData ht !! Z.to_nat (nInternalPointer ht) with
    | Some b => negb (is_undef (b_val b)) | None => false end)).

Definition ht_wfb (ht : HashTable) : bool :=
  data_wfb ht && (negb (f_packed ht) || f_initialized ht) &&
  if is_hashed ht then
    (nTableMask ht =? u32 (- nTableSize ht)) &&
    (Z.of_nat (length (arHash ht)) =? nTableSize ht) &&
    chains_okb (nTableSize ht) (arHash ht) (arData ht) (used ht)
  else
    (nTableMask ht =? HT_MIN_MASK) && bool_decide (arHash ht = uninitialized_bucket) &&
    all_live (fun i b => (b_h b =? Z.of_nat i) && negb (isSome (b_key b))) (arData ht) (used ht).

(** ** Soundness *)
Lemma chainb_sound d head l : chainb d head l = true -> chain d head l.
Proof.
  revert head. induction l as [|i l IH]; intros head H; simpl in *; zbool; [done|].
  split; [done|]. destruct (d !! i) as [b|]; [|done]. eauto.
Qed.

Lemma chains_okb_sound n hash d u : chains_okb n hash d u = true -> chains_ok n hash d u.
Proof.
  intros H s Hs. unfold chains_okb in H. rewrite forallb_forall in H.
  specialize (H (Z.to_nat s)). rewrite in_seq, Z2Nat.id in H by lia.
  destruct (hash !! Z.to_nat s) as [head|]; [|by discriminate H; lia].
  exists head. split; [done|]. apply chainb_sound, H. lia.
Qed.

Lemma all_live_sound P d n : all_live P d n = true ->
  forall i b, (i < n)%nat -> live d i b -> P i b = true.
Proof.
  intros H i b Hi [Hb Hu]. unfold all_live in H. rewrite forallb_forall in H.
  specialize (H i). rewrite in_seq, Hb, Hu in H. apply H. lia.
Qed.

Lemma zend_string_okb_sound s : zend_string_okb s = true -> zend_string_ok s.
Proof.
  unfold zend_string_okb. intros [H|H]%orb_prop; [left|right]; by zbool.
Qed.

Lemma bucket_okb_sound b : bucket_okb b = true -> bucket_ok b.
Proof.
  unfold bucket_okb, bucket_ok. intros H. zbool. split; [lia|].
  destruct (b_key b); [|done]. zbool. split; [by apply zend_string_okb_sound|done].
Qed.

Lemma data_wfb_sound ht : data_wfb ht = true -> data_wf ht.
Proof.
  unfold data_wfb. intros H. rewrite !andb_true_iff in H.
  destruct H as [[[[[[[[[[[[Hs U0] U1] L] I] C] N] B] St] F0] F1] FK] P]. zbool.
  split; try done.
  - apply existsb_exists in Hs as (k & Hk & E). apply in_seq in Hk. zbool.
    exists (Z.of_nat k). split; [lia|done].
  - intros Hi. rewrite Hi in I. by apply Z.eqb_eq.
  - by apply bool_decide_eq_true in N.
  - intros i b Hi Hb. apply bucket_okb_sound. exact (all_live_sound _ _ _ B i b Hi Hb).
  - intros E i b s Hi Hb Hk. rewrite E in St. simpl in St.
    pose proof (all_live_sound _ _ _ St i b Hi Hb) as Ei. simpl in Ei. by rewrite Hk in Ei.
  - intros h Hh. rewrite forallb_forall in FK.
    assert (Hin : h ∈ omap int_key (elems ht).*1) by (apply list_elem_of_omap; eauto).
    apply list_elem_of_In, FK, orb_prop in Hin as [?|?]; zbool; auto.
  - apply orb_prop in P as [?|E]; zbool; [by left|]. right.
    destruct (arData ht !! _) as [b|] eqn:Eb; [|done]. zbool.
    exists (Z.to_nat (nInternalPointer ht)), b. unfold used. split; [lia|]. split; [lia|done].
Qed.

Lemma ht_wfb_sound ht : ht_wfb ht = true -> ht_wf ht.
Proof.
  unfold ht_wfb. intros [[Hd%data_wfb_sound Hp]%andb_prop Hr]%andb_prop. split; [done| |].
  - intros E. by rewrite E in Hp.
  - destruct (is_hashed ht); zbool; split; try done.
    + by apply chains_okb_sound.
    + by eapply bool_decide_eq_true.
    + intros i b Hi Hb. match goal with H : all_live _ _ _ = true |- _ =>
        pose proof (all_live_sound _ _ _ H i b Hi Hb) as E end. simpl in E. zbool.
      split; [done|]. by destruct (b_key b).
Qed.

(** ** Sample tables *)
Definition sample_eg : EG :=
  mkEG [] 0 (<[5%positive := IS_LONG 50]> (<[6%positive := IS_UNDEF]> ∅))
    (mkBucket IS_UNDEF 77 88 None) 99 100%N [].

Definition sample_key (s : list char) : zend_string :=
  mk_zend_string s 1%N (zend_inline_hash_func s) true.

(** ["a" => 1, 7 => indirect, "ab" => true], with a hole at bucket 1. *)
Definition sample_hash : HashTable :=
  let b k := mk_zend_string k 1%N (zend_inline_hash_func k) false in
  let d := [mkBucket (IS_LONG 1) 0 (zend_inline_hash_func ["a"%byte]) (Some (b ["a"%byte]));
            mkBucket IS_UNDEF 0 0 None;
            mkBucket (IS_INDIRECT 5%positive) 0 7 None;
            mkBucket IS_TRUE 0 (zend_inline_hash_func ["a"; "b"]%byte) (Some (b ["a"; "b"]%byte))] in
  let ht := mkHashTable 1%positive false true false true false false 0 0 (u32 (-8))
    (replicate 8 HT_INVALID_IDX) (d ++ replicate 4 (mkBucket IS_UNDEF 77 88 None))
    4 3 8 0 8 true in
  let link ht i := match get_bucket ht i with
    | Ok p => match hash_link ht i p with Ok ht => ht | Err _ => ht end | Err _ => ht end in
  link (link (link ht 0) 2) 3.

(** [0 => 10, 2 => "a"], packed, with a hole at index 1. *)
Definition sample_packed : HashTable :=
  mkHashTable 2%positive false true true true true false 0 0 HT_MIN_MASK uninitialized_bucket
    ([mkBucket (IS_LONG 10) 0 0 None; mkBucket IS_UNDEF 0 1 None;
      mkBucket (IS_STRING (sample_key ["a"%byte])) 0 2 None]
     ++ replicate 5 (mkBucket IS_UNDEF 77 88 None)) 3 2 8 2 3 true.

Lemma sample_hash_wf : ht_wf sample_hash.
Proof. apply ht_wfb_sound. vm_compute. reflexivity. Qed.

Lemma sample_packed_wf : ht_wf sample_packed.
Proof. apply ht_wfb_sound. vm_compute. reflexivity. Qed.
