(* ===== verification/HashFind.v ===== *)
(** * The ordered hash table: lookup refines the abstract table *)
From Stdlib Require Import Strings.Byte.
From S2P Require Export HashChain.

(** The hash of a key, and the position of its bucket. *)
Definition key_hash (k : hkey) : Z :=
  match k with KInt h => h | KStr s => zend_inline_hash_func s end.

Definition key_at (ht : HashTable) (k : hkey) (i : nat) (b : Bucket) : Prop :=
  (i < used ht)%nat /\ live (arData ht) i b /\ bkey b = k.

Definition key_pos (ht : HashTable) (k : hkey) (r : option nat) : Prop :=
  match r with
  | Some i => exists b, key_at ht k i b
  | None => forall i b, ~ key_at ht k i b
  end.

(** The value a returned pointer designates. *)
Definition deref (ht : HashTable) (eg : EG) (r : option zval_ptr) : option zval :=
  match r with
  | Some (ZV_BUCKET i) => b_val <$> arData ht !! Z.to_nat i
  | Some (ZV_CELL a) => cells eg !! a
  | None => None
  end.

(** ** Consequences of the invariant *)
Lemma pow2_range k : 1 <= k <= 31 -> 2 <= 2 ^ k <= 2 ^ 31.
Proof. intros H. split; [change 2 with (2 ^ 1) at 1|]; apply Z.pow_le_mono_r; lia. Qed.

Lemma data_wf_size ht : data_wf ht -> 8 <= nTableSize ht <= HT_MAX_SIZE.
Proof.
  intros H. destruct (wf_size _ H) as (k & Hk & ->). unfold HT_MAX_SIZE.
  split; [change 8 with (2 ^ 3)|]; apply Z.pow_le_mono_r; lia.
Qed.

Lemma data_wf_len ht : data_wf ht -> (used ht <= length (arData ht))%nat /\
  Z.of_nat (length (arData ht)) <= HT_MAX_SIZE.
Proof.
  intros H. pose proof (data_wf_size _ H). pose proof (wf_used _ H).
  pose proof (wf_data_len _ H). pose proof (wf_init_used _ H).
  unfold used. destruct (f_initialized ht); [|specialize (H3 eq_refl)]; lia.
Qed.

Lemma repr_mask ht : ht_wf ht ->
  mask_ok ht (if is_hashed ht then nTableSize ht else 2).
Proof.
  intros [Hd Hp Hr]. destruct (wf_size _ Hd) as (k & Hk & Es).
  destruct (is_hashed ht); destruct Hr as [H1 H2 H3].
  - split; [exists k; split; [lia|done]|done].
  - split; [exists 1; split; [lia|done]|]. rewrite H1, H2. done.
Qed.

Lemma repr_slot ht s : ht_wf ht ->
  let n := if is_hashed ht then nTableSize ht else 2 in
  0 <= s < n -> exists head, arHash ht !! Z.to_nat s = Some head /\
  chain (arData ht) head (if is_hashed ht then slot_list n s (arData ht) (used ht) else []).
Proof.
  intros [Hd Hp Hr]. destruct (is_hashed ht) eqn:E; simpl; intros Hs.
  - by apply (wf_h_chains _ Hr).
  - exists HT_INVALID_IDX. split; [|done]. rewrite (wf_p_hash _ Hr).
    assert (s = 0 \/ s = 1) as [-> | ->] by lia; done.
Qed.

Lemma key_at_elem ht k i b : key_at ht k i b -> (k, b_val b) ∈ elems ht.
Proof. intros (H1 & H2 & <-). apply elems_of_in. unfold used in H1. eauto 10. Qed.

Lemma key_pos_find ht k r eg : data_wf ht -> key_pos ht k r ->
  deref ht eg (ZV_BUCKET <$> (Z.of_nat <$> r)) = al_find k (elems ht).
Proof.
  intros Hwf. destruct r as [i|]; simpl.
  - intros (b & Hi & Hl & <-). rewrite Nat2Z.id, (proj1 Hl).
    symmetry. apply (elems_of_find _ _ i b (wf_keys _ Hwf) Hl Hi).
  - intros H. symmetry. apply elems_of_find_None. intros i b Hi Hl Hk.
    apply (H i b). done.
Qed.

Lemma key_pos_unique ht k r r' : data_wf ht -> key_pos ht k r -> key_pos ht k r' -> r = r'.
Proof.
  intros Hwf. destruct r as [i|], r' as [j|]; simpl.
  - intros (b & Hi & Hl & Hk) (c & Hj & Hc & Hk'). f_equal.
    eapply (live_unique _ _ i j b c (wf_keys _ Hwf)); eauto. congruence.
  - intros (b & H) N. by destruct (N i b).
  - intros N (b & H). by destruct (N j b).
  - done.
Qed.

(** A string key's bucket is never in a packed table. *)
Lemma not_hashed_int ht k i b : ht_wf ht -> is_hashed ht = false -> key_at ht k i b ->
  exists h, k = KInt h /\ h = Z.of_nat i.
Proof.
  intros [Hd Hp Hr] E (Hi & Hl & <-). rewrite E in Hr.
  destruct (wf_p_keys _ Hr i b Hi Hl) as [Hh Hk]. unfold bkey. rewrite Hk. eauto.
Qed.

Lemma bkey_hash ht i b : data_wf ht -> (i < used ht)%nat -> live (arData ht) i b ->
  b_h b = key_hash (bkey b) /\ 0 <= b_h b.
Proof.
  intros Hwf Hi Hl. destruct (wf_bucket _ Hwf i b Hi Hl) as [Hh Hk].
  unfold bkey. destruct (b_key b); [destruct Hk|]; simpl; split; (done || lia).
Qed.

(** ** The loops find the bucket of the key *)
Definition find_by (ht : HashTable) (f : Bucket -> bool) (h : Z) : res (option Z) :=
  let! idx := HT_HASH ht (hash_index h (nTableMask ht)) in
  find_loop (find_fuel ht) ht f idx.

Definition tests_key (ht : HashTable) (f : Bucket -> bool) (k : hkey) : Prop :=
  forall i b, (i < used ht)%nat -> live (arData ht) i b -> f b = bool_decide (bkey b = k).

Lemma find_by_loop ht f h : ht_wf ht -> 0 <= h -> exists l,
  find_by ht f h = Ok (Z.of_nat <$> List.find (test_at (arData ht) f) l) /\
  l = if is_hashed ht then slot_list (nTableSize ht) (h mod nTableSize ht) (arData ht) (used ht)
      else [].
Proof.
  intros Hwf Hh. eexists. split; [|reflexivity]. pose proof (repr_mask _ Hwf) as Hm.
  pose proof Hm as ((k & Hk & En) & _ & Hlen).
  set (n := if is_hashed ht then nTableSize ht else 2) in *.
  pose proof (pow2_range k Hk). pose proof (Z.mod_pos_bound h n ltac:(lia)) as Hs.
  destruct (repr_slot ht _ Hwf Hs) as (head & Hhd & Hc).
  destruct (data_wf_len _ (wf_data _ Hwf)) as [Hu Hmax].
  unfold find_by. rewrite (HT_HASH_slot ht n) by done.
  rewrite <- (Z2Nat.id (h mod n)) by lia. rewrite (aget_ok _ _ _ Hhd). rsimp.
  fold n in Hc. rewrite (find_loop_chain ht f _ head _ Hmax Hc).
  - unfold n. by destruct (is_hashed ht).
  - unfold find_fuel. destruct (is_hashed ht); simpl; [|lia].
    pose proof (slot_list_length n (h mod n) (arData ht) (used ht)). lia.
Qed.

Lemma find_by_ok ht f k : ht_wf ht -> tests_key ht f k -> 0 <= key_hash k ->
  (is_hashed ht = true \/ exists s, k = KStr s) ->
  exists r, find_by ht f (key_hash k) = Ok (Z.of_nat <$> r) /\ key_pos ht k r.
Proof.
  intros Hwf Ht Hh Hor. destruct (find_by_loop ht f _ Hwf Hh) as (l & E & El).
  exists (List.find (test_at (arData ht) f) l). split; [done|].
  assert (Hin : forall i b, key_at ht k i b -> i ∈ l).
  { intros i b Hka. destruct (is_hashed ht) eqn:Eh.
    - subst l. apply slot_list_in. destruct Hka as (Hi & Hl & Hk). split; [done|].
      destruct (bkey_hash ht i b (wf_data _ Hwf) Hi Hl) as [Hb _]. rewrite Hk in Hb.
      rewrite <- Hb. by apply in_slot_live.
    - destruct Hor as [?|(s & ->)]; [done|].
      by destruct (not_hashed_int ht _ i b Hwf Eh Hka) as (h & ? & _). }
  assert (Hl : forall i, i ∈ l -> (i < used ht)%nat /\ exists b, live (arData ht) i b).
  { intros i Hi. subst l. destruct (is_hashed ht); [|set_solver].
    apply slot_list_in in Hi as [? (b & ? & _)%in_slot_true]. eauto. }
  destruct (List.find _ l) as [i|] eqn:Ef; simpl.
  - apply find_some in Ef as [Hi%list_elem_of_In Hf]. destruct (Hl i Hi) as (Hu & b & Hb).
    exists b. unfold test_at in Hf. rewrite (proj1 Hb), (Ht i b Hu Hb) in Hf.
    by apply bool_decide_eq_true in Hf.
  - intros i b Hka. pose proof (find_none _ _ Ef i) as Hn.
    rewrite <- list_elem_of_In in Hn. specialize (Hn (Hin i b Hka)).
    destruct Hka as (Hi & Hb & Hk). unfold test_at in Hn.
    rewrite (proj1 Hb), (Ht i b Hi Hb) in Hn. by apply bool_decide_eq_false in Hn.
Qed.

Lemma memeq_length s t : Nat.eqb (length s) (length t) && memeq s t = bool_decide (s = t).
Proof.
  unfold memeq. case_bool_decide as E; [|by rewrite andb_false_r]. by rewrite E, Nat.eqb_refl.
Qed.

Lemma match_zstr_tests ht key : data_wf ht ->
  tests_key ht (match_zstr key (zend_inline_hash_func (zs_val key))) (KStr (zs_val key)).
Proof.
  intros Hwf i b Hi Hl. destruct (wf_bucket _ Hwf i b Hi Hl) as [_ Hk].
  unfold match_zstr, bkey. destruct (b_key b) as [s|]; [|by rewrite bool_decide_eq_false_2].
  destruct Hk as [_ ->]. rewrite <- andb_assoc, memeq_length.
  destruct (same_ptr s key) eqn:Es; simpl.
  - symmetry. apply bool_decide_eq_true. by rewrite (same_ptr_val _ _ Es).
  - case_bool_decide as Ev.
    + rewrite Ev, Z.eqb_refl. by rewrite bool_decide_eq_true_2.
    + rewrite andb_false_r. symmetry. apply bool_decide_eq_false. congruence.
Qed.

Lemma match_str_tests ht str : data_wf ht ->
  tests_key ht (match_str str (zend_inline_hash_func str)) (KStr str).
Proof.
  intros Hwf i b Hi Hl. destruct (wf_bucket _ Hwf i b Hi Hl) as [_ Hk].
  unfold match_str, bkey. destruct (b_key b) as [s|]; [|by rewrite bool_decide_eq_false_2].
  destruct Hk as [_ ->]. rewrite <- andb_assoc, memeq_length. case_bool_decide as Ev.
  - rewrite Ev, Z.eqb_refl. by rewrite bool_decide_eq_true_2.
  - rewrite andb_false_r. symmetry. apply bool_decide_eq_false. congruence.
Qed.

Lemma match_index_tests ht h : tests_key ht (match_index h) (KInt h).
Proof.
  intros i b Hi Hl. unfold match_index, bkey. destruct (b_key b) as [s|].
  - rewrite andb_false_r. by rewrite bool_decide_eq_false_2.
  - rewrite andb_true_r. zcases; symmetry; [apply bool_decide_eq_true | apply bool_decide_eq_false];
      congruence.
Qed.

Lemma find_bucket_ok ht key : ht_wf ht -> zend_string_ok key ->
  exists r, zend_hash_find_bucket ht key = Ok (Z.of_nat <$> r) /\
            key_pos ht (KStr (zs_val key)) r.
Proof.
  intros Hwf Hk. unfold zend_hash_find_bucket. rewrite (hash_val_ok _ Hk).
  pose proof (hash_func_range (zs_val key)).
  apply (find_by_ok ht _ (KStr (zs_val key)) Hwf (match_zstr_tests _ _ (wf_data _ Hwf)));
    [simpl; lia | eauto].
Qed.

Lemma str_find_bucket_ok ht str : ht_wf ht ->
  exists r, zend_hash_str_find_bucket ht str (zend_inline_hash_func str) = Ok (Z.of_nat <$> r) /\
            key_pos ht (KStr str) r.
Proof.
  intros Hwf. pose proof (hash_func_range str).
  apply (find_by_ok ht _ (KStr str) Hwf (match_str_tests _ _ (wf_data _ Hwf)));
    [simpl; lia | eauto].
Qed.

Lemma index_find_bucket_ok ht h : ht_wf ht -> is_hashed ht = true -> 0 <= h ->
  exists r, zend_hash_index_find_bucket ht h = Ok (Z.of_nat <$> r) /\ key_pos ht (KInt h) r.
Proof. intros Hwf He Hh. apply (find_by_ok ht _ (KInt h) Hwf (match_index_tests _ _)); auto. Qed.

Lemma packed_find_ok ht h : ht_wf ht -> f_packed ht = true -> 0 <= h ->
  exists r, packed_find ht h = Ok (Z.of_nat <$> r) /\ key_pos ht (KInt h) r.
Proof.
  intros Hwf Ep Hh. pose proof (wf_used _ (wf_data _ Hwf)).
  destruct (data_wf_len _ (wf_data _ Hwf)) as [Hu _].
  assert (En : is_hashed ht = false) by (unfold is_hashed; rewrite Ep; apply andb_false_r).
  assert (Hn : forall i b, key_at ht (KInt h) i b -> h = Z.of_nat i).
  { intros i b Hka. by destruct (not_hashed_int ht _ i b Hwf En Hka) as (h' & [= ->] & ->). }
  unfold packed_find. destruct (Z.ltb_spec h (nNumUsed ht)).
  - destruct (lookup_lt_is_Some_2 (arData ht) (Z.to_nat h)) as [b Hb]; [unfold used in *; lia|].
    unfold get_bucket. rewrite (aget_okZ _ _ _ Hh Hb). simpl.
    destruct (is_undef (b_val b)) eqn:Eu.
    + exists None. split; [done|]. intros i c Hka. pose proof (Hn _ _ Hka) as ->.
      destruct Hka as (_ & [Hc Hv] & _). rewrite Nat2Z.id in Hb. congruence.
    + exists (Some (Z.to_nat h)). simpl. rewrite Z2Nat.id by lia. split; [done|].
      assert (Hl : live (arData ht) (Z.to_nat h) b) by done.
      assert (Hlt : (Z.to_nat h < used ht)%nat) by (unfold used; lia).
      exists b. split; [done|]. split; [done|].
      pose proof (wf_repr _ Hwf) as Hr. rewrite En in Hr.
      destruct (wf_p_keys _ Hr _ _ Hlt Hl) as [Eh Ek]. unfold bkey. rewrite Ek, Eh. f_equal. lia.
  - exists None. split; [done|]. intros i c Hka. pose proof (Hn _ _ Hka) as ->.
    destruct Hka as (Hi & _). unfold used in Hi. lia.
Qed.

(** Lookup by integer on any table. *)
Lemma index_find_ok ht h : ht_wf ht -> 0 <= h ->
  exists r, zend_hash_index_find ht h = Ok (ZV_BUCKET <$> (Z.of_nat <$> r)) /\
            key_pos ht (KInt h) r.
Proof.
  intros Hwf Hh. unfold zend_hash_index_find. destruct (f_packed ht) eqn:Ep.
  - destruct (packed_find_ok ht h Hwf Ep Hh) as (r & -> & Hr). simpl. eauto.
  - destruct (is_hashed ht) eqn:Eh.
    + destruct (index_find_bucket_ok ht h Hwf Eh Hh) as (r & -> & Hr). simpl. eauto.
    + destruct (find_by_loop ht (match_index h) h Hwf Hh) as (l & E & El).
      rewrite Eh in El. subst l. change (zend_hash_index_find_bucket ht h) with
        (find_by ht (match_index h) h). rewrite E. simpl. exists None. split; [done|].
      intros i b (Hi & _). unfold is_hashed in Eh. rewrite Ep, andb_true_r in Eh.
      pose proof (wf_init_used _ (wf_data _ Hwf) Eh) as Hz. unfold used in Hi. lia.
Qed.

(** *** Properties *)

(** Whether there is an entry, from its position. *)
Lemma elems_key_pos ht k r : ht_wf ht -> key_pos ht k r ->
  isSome (al_find k (elems ht)) = isSome r.
Proof.
  intros Hwf. destruct r as [i|]; simpl.
  - intros (b & Hi & Hl & <-).
    by rewrite (elems_of_find _ _ i b (wf_keys _ (wf_data _ Hwf)) Hl Hi : al_find (bkey b) (elems ht) = _).
  - intros H. assert (al_find k (elems ht) = None) as ->; [|done].
    apply elems_of_find_None. intros i b Hi Hl Hk. by apply (H i b).
Qed.

(** C7: On a well-formed table the string lookups return the value that the
    abstract table has at the key, and the existence tests say whether it has
    one; the collision chain ends, so the lookup always returns. *)
Theorem find_correct ht eg key :
  ht_wf ht -> zend_string_ok key ->
  let v := al_find (KStr (zs_val key)) (elems ht) in
  (exists r, zend_hash_find ht key = Ok r /\ deref ht eg r = v) /\
  (exists r, zend_hash_str_find ht (zs_val key) = Ok r /\ deref ht eg r = v) /\
  zend_hash_exists ht key = Ok (isSome v) /\
  zend_hash_str_exists ht (zs_val key) = Ok (isSome v).
Proof.
  intros Hwf Hk. unfold zend_hash_find, zend_hash_str_find, zend_hash_exists, zend_hash_str_exists.
  destruct (find_bucket_ok ht key Hwf Hk) as (r & -> & Hr).
  destruct (str_find_bucket_ok ht (zs_val key) Hwf) as (r' & -> & Hr'). rsimp.
  pose proof (key_pos_find ht _ _ eg (wf_data _ Hwf) Hr) as E.
  pose proof (key_pos_find ht _ _ eg (wf_data _ Hwf) Hr') as E'.
  split; [eauto|]. split; [eauto|]. rewrite <- E.
  rewrite (key_pos_unique _ _ _ _ (wf_data _ Hwf) Hr' Hr).
  destruct r as [i|]; simpl; [|done]. destruct Hr as (b & _ & [Hb _] & _).
  rewrite Nat2Z.id, Hb. done.
Qed.

Lemma find_correct_witness :
  zend_hash_exists sample_hash (sample_key ["a"; "b"]%byte) = Ok true.
Proof.
  destruct (find_correct sample_hash sample_eg (sample_key ["a"; "b"]%byte)) as (_ & _ & H & _).
  - exact sample_hash_wf.
  - right. reflexivity.
  - vm_compute in H |- *. exact H.
Defined.

Lemma index_exists_ok ht h : ht_wf ht -> 0 <= h ->
  zend_hash_index_exists ht h = Ok (isSome (al_find (KInt h) (elems ht))).
Proof.
  intros Hwf Hh. destruct (index_find_ok ht h Hwf Hh) as (r & Er & Hr).
  pose proof (elems_key_pos ht _ r Hwf Hr) as E.
  assert (Ex : zend_hash_index_exists ht h = Ok (isSome r)).
  { unfold zend_hash_index_find, zend_hash_index_exists in *. destruct (f_packed ht);
      match type of Er with rbind ?m _ = _ => destruct m as [o|] end; try discriminate Er;
      injection Er as Er; simpl; by destruct o, r. }
  by rewrite Ex, E.
Qed.

(** The integer lookups do the same, on packed tables by direct
    access and on the others through the collision chain. *)
Theorem index_find_correct ht eg h :
  ht_wf ht -> 0 <= h ->
  let v := al_find (KInt h) (elems ht) in
  (exists r, zend_hash_index_find ht h = Ok r /\ deref ht eg r = v) /\
  zend_hash_index_exists ht h = Ok (isSome v) /\
  (is_hashed ht = true -> zend_hash_index_find ht h = _zend_hash_index_find ht h).
Proof.
  intros Hwf Hh. destruct (index_find_ok ht h Hwf Hh) as (r & Er & Hr).
  pose proof (key_pos_find ht _ _ eg (wf_data _ Hwf) Hr) as E.
  split; [eauto|]. split.
  - by apply index_exists_ok.
  - intros Eh. unfold zend_hash_index_find. unfold is_hashed in Eh.
    apply andb_prop in Eh as [_ Ep]. apply negb_true_iff in Ep. by rewrite Ep.
Qed.

Lemma index_find_correct_witness :
  zend_hash_index_exists sample_packed 2 = Ok true /\ zend_hash_index_exists sample_packed 1 = Ok false.
Proof.
  split.
  - destruct (index_find_correct sample_packed sample_eg 2 sample_packed_wf) as (_ & H & _);
      [lia|vm_compute in H |- *; exact H].
  - destruct (index_find_correct sample_packed sample_eg 1 sample_packed_wf) as (_ & H & _);
      [lia|vm_compute in H |- *; exact H].
Defined.
