(* ===== verification/HashRehash.v ===== *)
(** * The ordered hash table: rehashing and compaction *)
From S2P Require Export HashFind.

(** ** Contents: the live buckets, in order, without their chain links *)
Definition clear_next (b : Bucket) : Bucket := set_b_next 0 b.
Definition is_live (b : Bucket) : bool := negb (is_undef (b_val b)).

Definition contents (d : list Bucket) (n : nat) : list Bucket :=
  List.filter is_live (map clear_next (take n d)).

Definition entry (b : Bucket) : hkey * zval := (bkey b, b_val b).

Lemma contents_S d n b : d !! n = Some b ->
  contents d (S n) = contents d n ++ (if is_live b then [clear_next b] else []).
Proof.
  intros H. unfold contents. rewrite (take_S_r _ _ b H), map_app, List.filter_app. simpl.
  change (is_live (clear_next b)) with (is_live b). by destruct (is_live b).
Qed.

Lemma contents_split d n i b :
  live d i b -> (i < n)%nat -> contents d n =
  contents d i ++ clear_next b :: List.filter is_live (map clear_next (drop (S i) (take n d))).
Proof.
  intros Hb Hi. unfold contents at 1. rewrite (take_split d i n b (proj1 Hb) Hi) at 1.
  rewrite map_app, List.filter_app. fold (contents d i). simpl.
  change (is_live (clear_next b)) with (is_live b). unfold is_live at 1. by rewrite (proj2 Hb).
Qed.

Lemma contents_elems d n : elems_of d n = map entry (contents d n).
Proof.
  unfold elems_of, contents. induction (take n d) as [|b l IH]; [done|]. simpl.
  change (is_live (clear_next b)) with (is_live b).
  unfold bucket_elem, is_live at 1. destruct (is_undef (b_val b)); simpl; [done|].
  f_equal. exact IH.
Qed.

Lemma contents_length_le d n : (length (contents d n) <= n)%nat.
Proof.
  unfold contents. etrans; [apply filter_length_le|]. rewrite length_map, length_take. lia.
Qed.

(** [contents] depends on each bucket only up to its link. *)
Lemma contents_ext d d' n :
  (forall i, (i < n)%nat -> clear_next <$> d !! i = clear_next <$> d' !! i) ->
  contents d n = contents d' n.
Proof.
  intros H. unfold contents. f_equal. apply list_eq. intros i.
  rewrite !list_lookup_fmap. destruct (decide (i < n)%nat).
  - rewrite !lookup_take_lt by done. by apply H.
  - by rewrite !lookup_take_ge by lia.
Qed.

(** Properties of live buckets that ignore links are properties of [contents]. *)
Lemma contents_in d n c :
  c ∈ contents d n <-> exists i b, (i < n)%nat /\ live d i b /\ c = clear_next b.
Proof.
  unfold contents. rewrite list_elem_of_In, filter_In, in_map_iff. split.
  - intros ((b & <- & Hb%list_elem_of_In) & Hl). apply list_elem_of_lookup in Hb as [i Hi].
    apply lookup_take_Some in Hi as [Hi Hn]. exists i, b. split; [done|]. split; [|done].
    split; [done|]. unfold is_live in Hl. by apply negb_true_iff in Hl.
  - intros (i & b & Hi & [Hb Hu] & ->). split.
    + exists b. split; [done|]. apply list_elem_of_In, list_elem_of_lookup. exists i.
      by rewrite lookup_take_lt.
    + unfold is_live. simpl. by rewrite Hu.
Qed.

Lemma contents_forall_perm (P : Bucket -> Prop) d d' n n' :
  (forall b, P b <-> P (clear_next b)) -> contents d' n' ≡ₚ contents d n ->
  (forall i b, (i < n)%nat -> live d i b -> P b) ->
  forall i b, (i < n')%nat -> live d' i b -> P b.
Proof.
  intros HP E H i b Hi Hl. apply HP.
  assert (Hc : clear_next b ∈ contents d n) by (rewrite <- E; apply contents_in; eauto).
  apply contents_in in Hc as (j & c & Hj & Hc & Ec).
  rewrite Ec. apply (proj1 (HP c)). eauto.
Qed.

Lemma contents_forall (P : Bucket -> Prop) d d' n n' :
  (forall b, P b <-> P (clear_next b)) -> contents d n = contents d' n' ->
  (forall i b, (i < n)%nat -> live d i b -> P b) ->
  forall i b, (i < n')%nat -> live d' i b -> P b.
Proof. intros HP E. apply contents_forall_perm; [done | by rewrite E]. Qed.

Lemma contents_full d n :
  (n <= length d)%nat -> length (contents d n) = n ->
  forall i, (i < n)%nat -> exists b, live d i b.
Proof.
  induction n as [|n IH]; intros Hn Hl i Hi; [lia|].
  destruct (lookup_lt_is_Some_2 d n ltac:(lia)) as [b Hb].
  rewrite (contents_S _ _ _ Hb), length_app in Hl. pose proof (contents_length_le d n).
  unfold is_live in Hl. destruct (is_undef (b_val b)) eqn:Eu; simpl in Hl; [lia|].
  destruct (decide (i = n)) as [->|]; [by exists b|]. apply IH; lia.
Qed.

Lemma contents_full_length d n :
  (n <= length d)%nat -> (forall i, (i < n)%nat -> exists b, live d i b) ->
  length (contents d n) = n.
Proof.
  induction n as [|n IH]; intros Hn H; [done|].
  destruct (H n ltac:(lia)) as (b & Hb & Hu). rewrite (contents_S _ _ _ Hb), length_app.
  unfold is_live. rewrite Hu. simpl. rewrite IH; [lia|lia|]. intros i Hi. apply H. lia.
Qed.

(** ** Where compaction moves a position *)
Definition move_pos (d : list Bucket) (p : Z) : Z :=
  if p =? HT_INVALID_IDX then p else Z.of_nat (length (contents d (Z.to_nat p))).

(** Data that differ in the chain links only. *)
Definition relinked (d d' : list Bucket) : Prop :=
  forall i, clear_next <$> d !! i = clear_next <$> d' !! i.

Lemma relinked_sym d d' : relinked d d' -> relinked d' d.
Proof. intros H i. by rewrite H. Qed.

Lemma relinked_live d d' i b : relinked d d' -> live d i b ->
  exists b', live d' i b' /\ b_h b' = b_h b.
Proof.
  intros H [Hb Hu]. pose proof (H i) as E. rewrite Hb in E.
  destruct (d' !! i) as [b'|] eqn:Eb; [|done]. injection E as Ev Eh Ek.
  exists b'. split; [|done]. split; [done|]. by rewrite <- Ev.
Qed.

Lemma relinked_contents d d' n : relinked d d' -> contents d n = contents d' n.
Proof. intros H. apply contents_ext. auto. Qed.

Lemma relinked_move_pos d d' p : relinked d d' -> move_pos d p = move_pos d' p.
Proof. intros H. unfold move_pos. by rewrite (relinked_contents _ _ _ H). Qed.

Lemma linked_relinked ht n i b head :
  arData ht !! i = Some b -> relinked (arData ht) (arData (linked ht n i b head)).
Proof.
  intros Hb k. simpl. destruct (decide (k = i)) as [->|]; [|by rewrite list_lookup_insert_ne].
  rewrite Hb. symmetry. rewrite list_lookup_insert_eq; [done|]. by eapply lookup_lt_Some.
Qed.

(** Nothing moves in front of the first hole. *)
Lemma move_pos_full d p n :
  (n <= length d)%nat -> (forall i, (i < n)%nat -> exists b, live d i b) ->
  p = HT_INVALID_IDX \/ (exists k, p = Z.of_nat k /\ (k <= n)%nat) -> move_pos d p = p.
Proof.
  intros Hn Hl Hp. unfold move_pos. destruct (Z.eqb_spec p HT_INVALID_IDX); [done|].
  destruct Hp as [?|(k & -> & Hk)]; [done|].
  rewrite Nat2Z.id, contents_full_length; [done|lia|]. intros; apply Hl; lia.
Qed.

(** The table with a new hash part, data, number of used buckets and pointer. *)
Definition rebuilt (hs : list Z) (d : list Bucket) (m p : Z) (ht : HashTable) : HashTable :=
  set_nInternalPointer p (set_nNumUsed m (set_arData d (set_arHash hs ht))).

(** Executor states that differ in iterator positions only. *)
Definition iters_only (eg eg' : EG) : Prop :=
  ht_iterators_used eg' = ht_iterators_used eg /\ cells eg' = cells eg /\
  fresh_bucket eg' = fresh_bucket eg /\ fresh_idx eg' = fresh_idx eg /\ next_serial eg' = next_serial eg /\ events eg' = events eg /\
  map it_ht (ht_iterators eg') = map it_ht (ht_iterators eg).

#[export] Instance iters_only_preorder : PreOrder iters_only.
Proof.
  split; [intros x; by repeat split|].
  intros x y z (?&?&?&?&?&?&?) (?&?&?&?&?&?&?). unfold iters_only. intuition congruence.
Qed.

Lemma iterators_update_only ht a b eg : iters_only eg (zend_hash_iterators_update ht a b eg).
Proof.
  unfold zend_hash_iterators_update. destruct (negb _); [|reflexivity].
  do 6 (split; [done|]). simpl. apply list_eq. intros i.
  rewrite !list_lookup_fmap, list_lookup_imap.
  destruct (ht_iterators eg !! i); simpl; [|done]. by destruct (_ && _).
Qed.

Lemma lower_pos_ge ht start eg :
  zend_hash_iterators_lower_pos ht start eg = HT_INVALID_IDX \/
  start <= zend_hash_iterators_lower_pos ht start eg.
Proof.
  unfold zend_hash_iterators_lower_pos. set (l := take _ _). clearbody l.
  generalize HT_INVALID_IDX as r. induction l as [|it l IH]; intros r; simpl; [auto|].
  destruct (_ && (start <=? it_pos it) && _)%bool eqn:E; [|apply IH].
  apply andb_prop in E as [E _]. apply andb_prop in E as [_ E]. zbool.
  destruct (IH (it_pos it)) as [->|]; auto.
Qed.

Lemma iter_catch_up_ok fuel ht eg ip i j :
  0 <= ip <= i -> i < HT_MAX_SIZE -> (Z.to_nat (i - ip) < fuel)%nat ->
  exists eg' ip', iter_catch_up fuel ht eg ip i j = Ok (eg', ip') /\ iters_only eg eg' /\
  (ip' = HT_INVALID_IDX \/ 0 <= ip').
Proof.
  unfold HT_MAX_SIZE. revert eg ip. induction fuel as [|fuel IH]; intros eg ip Hip Hi Hf; [lia|].
  cbn [iter_catch_up]. rewrite u32_small by lia.
  set (eg1 := zend_hash_iterators_update ht ip j eg).
  set (ip1 := zend_hash_iterators_lower_pos ht (ip + 1) eg1).
  assert (H1 : iters_only eg eg1) by apply iterators_update_only.
  assert (H2 : ip1 = HT_INVALID_IDX \/ ip + 1 <= ip1) by apply lower_pos_ge.
  destruct (Z.ltb_spec ip1 i).
  - assert (ip + 1 <= ip1) by (unfold HT_INVALID_IDX in H2; lia).
    destruct (IH eg1 ip1) as (eg' & ip' & E & Ho & Hp); [lia|lia|lia|].
    exists eg', ip'. split; [done|]. split; [by etrans|done].
  - exists eg1, ip1. split; [done|]. split; [done|]. destruct H2; [auto|lia].
Qed.

Definition iter_pos_ok (ip : option Z) : Prop :=
  match ip with Some p => p = HT_INVALID_IDX \/ 0 <= p | None => True end.

Lemma iter_step_ok ht eg ip i j :
  iter_pos_ok ip -> 0 <= i < HT_MAX_SIZE ->
  exists eg' ip', iter_step ht eg ip i j = Ok (eg', ip') /\ iters_only eg eg' /\
  iter_pos_ok ip' /\ (ip = None -> eg' = eg /\ ip' = None).
Proof.
  intros Hp Hi. destruct ip as [p|]; [|exists eg, None; repeat split; done || reflexivity].
  unfold iter_step. destruct (Z.leb_spec p i).
  - destruct (iter_catch_up_ok (S (Z.to_nat (i - p))) ht eg p i j) as (eg' & ip' & E & Ho & Hp');
      [|lia|lia|].
    { destruct Hp as [->|]; [|lia]. unfold HT_INVALID_IDX, HT_MAX_SIZE in *. lia. }
    rewrite E. exists eg', (Some ip'). split; [done|]. split; [done|]. split; [done|]. done.
  - exists eg, (Some p). split; [done|]. split; [reflexivity|]. by split.
Qed.

(** ** The loops *)
Section Loops.
Context (n : Z).

(** The loop over a table without holes. *)
Lemma rehash_dense_ok fuel ht (i : nat) :
  mask_ok ht n -> chains_ok n (arHash ht) (arData ht) i ->
  (i < used ht)%nat -> (used ht <= length (arData ht))%nat ->
  (used ht - i <= fuel)%nat ->
  (forall k, (k < used ht)%nat -> exists b, live (arData ht) k b /\ 0 <= b_h b) ->
  exists hs d, rehash_dense fuel ht (Z.of_nat i) = Ok (set_arHash hs (set_arData d ht)) /\
    length hs = length (arHash ht) /\ chains_ok n hs d (used ht) /\
    length d = length (arData ht) /\
    (forall k, clear_next <$> d !! k = clear_next <$> arData ht !! k).
Proof.
  revert ht i. induction fuel as [|fuel IH]; intros ht i Hm Hc Hi Hu Hf Hl; [lia|].
  destruct (Hl i Hi) as (b & Hb & Hh). cbn [rehash_dense].
  unfold get_bucket. rewrite (aget_ok _ _ _ (proj1 Hb)). rsimp.
  assert (Hlen : (i < length (arData ht))%nat) by lia.
  destruct (hash_link_ok ht n i b Hm Hh Hlen) as (head & Hhd & ->). rsimp.
  pose proof Hm as ((k & Hk & En) & _ & _). pose proof (pow2_range k Hk).
  pose proof (chains_ok_link ht n i b head ltac:(lia) Hc Hlen (proj2 Hb) Hhd) as Hc'.
  set (ht1 := linked ht n i b head) in *.
  pose proof (linked_relinked ht n i b head (proj1 Hb)) as Hsame. fold ht1 in Hsame.
  change (nNumUsed ht1) with (nNumUsed ht). unfold used in *.
  destruct (Z.ltb_spec (Z.of_nat i + 1) (nNumUsed ht)).
  - replace (Z.of_nat i + 1) with (Z.of_nat (S i)) by lia.
    destruct (IH ht1 (S i)) as (hs & d & E & L1 & Hcd & L2 & Hs); unfold used in *; simpl.
    + destruct Hm as (? & ? & ?). split; [done|]. split; [done|]. simpl. by rewrite length_insert.
    + done.
    + lia.
    + by rewrite length_insert.
    + lia.
    + intros k' Hk'. destruct (Hl k' Hk') as (c & Hcl & Hch).
      destruct (decide (k' = i)) as [->|].
      * exists (set_b_next head b). split; [|done]. split; [by apply list_lookup_insert_eq|].
        apply Hb.
      * exists c. split; [|done]. split; [rewrite list_lookup_insert_ne by congruence; apply Hcl|apply Hcl].
    + exists hs, d. rewrite E. split; [done|].
      split; [rewrite L1; simpl; by rewrite length_insert|]. split; [done|].
      split; [rewrite L2; simpl; by rewrite length_insert|].
      intros k'. by rewrite Hs, <- Hsame.
  - exists (arHash ht1), (arData ht1). split; [done|].
    split; [simpl; by rewrite length_insert|]. split.
    { by replace (Z.to_nat (nNumUsed ht)) with (S i) by lia. }
    split; [simpl; by rewrite length_insert|]. intros k'. by rewrite <- Hsame.
Qed.

(** The compacting loop, from the original data [d0]: the first [j] buckets
    are the live ones of the first [S i] of [d0]. *)
Record compacted (d0 : list Bucket) (p : Z) (ht : HashTable) (i j : nat) : Prop := {
  cp_ij : (j <= i < used ht)%nat;
  cp_len : (used ht <= length (arData ht))%nat;
  cp_max : nNumUsed ht <= HT_MAX_SIZE;
  cp_mask : mask_ok ht n;
  cp_chains : chains_ok n (arHash ht) (arData ht) j;
  cp_contents : contents (arData ht) j = contents d0 (S i);
  cp_full : length (contents d0 (S i)) = j;
  cp_rest : forall k, (i < k)%nat -> arData ht !! k = d0 !! k;
  cp_h : forall k b, (k < used ht)%nat -> live d0 k b -> 0 <= b_h b;
  cp_pos : p = HT_INVALID_IDX \/ exists k b, p = Z.of_nat k /\ (k < used ht)%nat /\ live d0 k b;
  cp_ptr : nInternalPointer ht = if p <=? Z.of_nat i then move_pos d0 p else p
}.

Lemma compacted_skip d0 p ht i j b :
  compacted d0 p ht i j -> (S i < used ht)%nat -> d0 !! S i = Some b ->
  is_undef (b_val b) = true -> compacted d0 p ht (S i) j.
Proof.
  intros [] Hi Hb Hu. assert (El : is_live b = false) by (unfold is_live; by rewrite Hu).
  split; try done.
  - lia.
  - rewrite (contents_S _ _ _ Hb), El, app_nil_r. done.
  - rewrite (contents_S _ _ _ Hb), El, app_nil_r. done.
  - intros k Hk. apply cp_rest0. lia.
  - rewrite cp_ptr0. destruct cp_pos0 as [->|(k & c & -> & Hk & Hc)].
    + unfold HT_INVALID_IDX, HT_MAX_SIZE, used in *. zcases; lia.
    + assert (k <> S i) by (intros ->; destruct Hc; congruence). zcases; lia.
Qed.

Lemma compacted_move d0 p ht i j b q :
  compacted d0 p ht i j -> (S i < used ht)%nat -> live d0 (S i) b ->
  arData ht !! j = Some q ->
  exists ht', hash_link ht (Z.of_nat j) (mkBucket (b_val b) (b_next q) (b_h b) (b_key b)) = Ok ht' /\
  let ht'' := if nInternalPointer ht' =? Z.of_nat i + 1
              then set_nInternalPointer (Z.of_nat j) ht' else ht' in
  compacted d0 p ht'' (S i) (S j) /\
  exists hs d, ht'' = rebuilt hs d (nNumUsed ht) (nInternalPointer ht'') ht /\
  length hs = length (arHash ht) /\ length d = length (arData ht).
Proof.
  intros [] Hi Hb Hq. set (c := mkBucket _ _ _ _).
  assert (Hlen : (j < length (arData ht))%nat) by lia.
  assert (Hh : 0 <= b_h c) by (apply (cp_h0 (S i) b); done).
  destruct (hash_link_ok ht n j c cp_mask0 Hh Hlen) as (head & Hhd & E).
  eexists. split; [exact E|]. pose proof cp_mask0 as ((k & Hk & En) & Hmk & Hml).
  pose proof (pow2_range k Hk).
  pose proof (chains_ok_link ht n j c head ltac:(lia) cp_chains0 Hlen (proj2 Hb) Hhd) as Hc'.
  assert (Hcl : clear_next (set_b_next head c) = clear_next b) by done.
  assert (Elive : is_live b = true) by (unfold is_live; by rewrite (proj2 Hb)).
  assert (Ec : contents (arData (linked ht n j c head)) (S j) = contents d0 (S (S i))).
  { assert (Hsj : <[j:=set_b_next head c]> (arData ht) !! j = Some (set_b_next head c))
      by (by apply list_lookup_insert_eq).
    simpl. rewrite (contents_S _ _ _ Hsj), (contents_S _ _ _ (proj1 Hb)), Elive, Hcl.
    change (is_live (set_b_next head c)) with (is_live b). rewrite Elive. f_equal.
    rewrite <- cp_contents0. unfold contents. by rewrite take_insert_ge by lia. }
  assert (Hrest : forall k', (S i < k')%nat -> arData (linked ht n j c head) !! k' = d0 !! k').
  { intros k' Hk'. simpl. rewrite list_lookup_insert_ne by lia. apply cp_rest0. lia. }
  assert (Hmask' : mask_ok (linked ht n j c head) n).
  { split; [eauto|]. split; [done|]. simpl. by rewrite length_insert. }
  assert (Hfull : length (contents d0 (S (S i))) = S j).
  { rewrite (contents_S _ _ _ (proj1 Hb)), Elive, length_app, cp_full0. simpl. lia. }
  set (ht' := linked ht n j c head) in *. simpl.
  assert (Hptr : nInternalPointer (if nInternalPointer ht =? Z.of_nat i + 1
      then set_nInternalPointer (Z.of_nat j) ht' else ht') =
      if p <=? Z.of_nat (S i) then move_pos d0 p else p).
  { assert (Hmv : move_pos d0 (Z.of_nat (S i)) = Z.of_nat j).
    { unfold move_pos. rewrite Nat2Z.id, cp_full0.
      unfold HT_INVALID_IDX, HT_MAX_SIZE, used in *. zcases; [lia|done]. }
    destruct cp_pos0 as [->|(k' & c' & -> & Hk' & Hc'')].
    - rewrite cp_ptr0. unfold HT_INVALID_IDX, HT_MAX_SIZE, used in *. zcases; simpl; lia.
    - destruct (Z.leb_spec (Z.of_nat k') (Z.of_nat i)).
      + rewrite cp_ptr0. assert (move_pos d0 (Z.of_nat k') <= Z.of_nat k').
        { unfold move_pos. zcases; [lia|]. rewrite Nat2Z.id.
          pose proof (contents_length_le d0 k'). lia. }
        zcases; simpl; first [lia | exact cp_ptr0].
      + rewrite cp_ptr0. destruct (decide (k' = S i)) as [->|].
        * rewrite Hmv. zcases; simpl; lia.
        * zcases; simpl; first [lia | exact cp_ptr0]. }
  split.
  - destruct (_ =? _); split; try done; unfold used in *; simpl in *;
      try (by rewrite length_insert); lia.
  - exists (arHash ht'), (arData ht'). destruct (_ =? _); simpl;
      (split; [by destruct ht | by rewrite !length_insert]).
Qed.
(** What a rehash produces from the data [d0]: live buckets in the same
    order, packed at the front, chained, and the pointer on the same bucket. *)
Definition rehashed (d0 : list Bucket) (ht : HashTable) (hs : list Z)
    (d : list Bucket) (m : nat) : Prop :=
  length hs = length (arHash ht) /\ length d = length (arData ht) /\
  m = length (contents d0 (used ht)) /\ contents d m = contents d0 (used ht) /\
  chains_ok n hs d m.

Lemma rehash_compact_ok fuel d0 p ht eg ip (i j : nat) :
  compacted d0 p ht i j -> iter_pos_ok ip -> (used ht - i <= fuel)%nat ->
  exists hs d m eg', rehash_compact fuel ht eg ip (Z.of_nat i) (Z.of_nat j) =
    Ok (rebuilt hs d (nNumUsed ht) (move_pos d0 p) ht, eg', Z.of_nat m) /\
  rehashed d0 ht hs d m /\ iters_only eg eg' /\ (ip = None -> eg' = eg).
Proof.
  revert ht eg ip i j. induction fuel as [|fuel IH]; intros ht eg ip i j Hc Hip Hf.
  { destruct Hc. lia. }
  pose proof Hc as []. cbn [rehash_compact]. unfold used, HT_MAX_SIZE in *.
  destruct (Z.ltb_spec (Z.of_nat i + 1) (nNumUsed ht)) as [Hlt|Hge].
  - destruct (lookup_lt_is_Some_2 (arData ht) (S i) ltac:(lia)) as [b Hb].
    destruct (lookup_lt_is_Some_2 (arData ht) j ltac:(lia)) as [q Hq].
    unfold get_bucket. rewrite (aget_okZ _ _ b) by (lia || by replace (Z.to_nat (Z.of_nat i + 1)) with (S i) by lia).
    rsimp. assert (Hb0 : d0 !! S i = Some b) by (rewrite <- cp_rest0 by lia; done).
    destruct (is_undef (b_val b)) eqn:Eu; cbn [negb].
    + replace (Z.of_nat i + 1) with (Z.of_nat (S i)) by lia.
      apply IH; [|done|lia]. eapply compacted_skip; eauto. unfold used. lia.
    + rewrite (aget_ok _ _ _ Hq). rsimp.
      destruct (compacted_move d0 p ht i j b q Hc) as (ht1 & E & Hc1 & hs1 & d1 & Er & L1 & L2);
        [unfold used; lia|done|done|]. rewrite E. rsimp. simpl in Er, Hc1.
      set (ht2 := if nInternalPointer ht1 =? Z.of_nat i + 1 then _ else _) in *.
      destruct (iter_step_ok ht2 eg ip (Z.of_nat i + 1) (Z.of_nat j) Hip)
        as (eg1 & ip1 & -> & Ho & Hip1 & Hn); [unfold HT_MAX_SIZE; lia|]. rsimp.
      replace (Z.of_nat i + 1) with (Z.of_nat (S i)) by lia.
      replace (Z.of_nat j + 1) with (Z.of_nat (S j)) by lia.
      assert (Eu2 : nNumUsed ht2 = nNumUsed ht) by (by rewrite Er).
      destruct (IH ht2 eg1 ip1 (S i) (S j) Hc1 Hip1) as (hs & d & m & eg' & Eq & Hre & Ho' & Hn');
        [unfold used; lia|].
      exists hs, d, m, eg'. rewrite Eq, Eu2. split; [by rewrite Er|].
      split; [|split; [by etrans|]].
      * unfold rehashed, used in *. rewrite Eu2 in Hre. rewrite Er in Hre. simpl in Hre.
        by rewrite L1, L2 in Hre.
      * intros Hin. destruct (Hn Hin) as [-> ->]. auto.
  - exists (arHash ht), (arData ht), j, eg.
    assert (Eui : Z.to_nat (nNumUsed ht) = S i) by lia.
    assert (Ep : nInternalPointer ht = move_pos d0 p).
    { rewrite cp_ptr0. destruct cp_pos0 as [->|(k & c & -> & ? & _)].
      - unfold move_pos. rewrite Z.eqb_refl. by destruct (_ <=? _).
      - zcases; [done|lia]. }
    rewrite <- Ep. split; [by destruct ht|]. split; [|by split].
    unfold rehashed, used. rewrite Eui. repeat split; done.
Qed.
Lemma compacted_start ht (i : nat) b :
  mask_ok ht n -> chains_ok n (arHash ht) (arData ht) i -> (i < used ht)%nat ->
  (used ht <= length (arData ht))%nat -> nNumUsed ht <= HT_MAX_SIZE ->
  (forall k, (k < i)%nat -> exists b, live (arData ht) k b) ->
  (forall k b, (k < used ht)%nat -> live (arData ht) k b -> 0 <= b_h b) ->
  position_ok ht (nInternalPointer ht) ->
  arData ht !! i = Some b -> is_undef (b_val b) = true ->
  compacted (arData ht) (nInternalPointer ht) ht i i.
Proof.
  intros Hm Hc Hi Hu Hmax Hfull Hh Hp Hb Eu.
  assert (Ec : contents (arData ht) (S i) = contents (arData ht) i).
  { rewrite (contents_S _ _ _ Hb). unfold is_live. rewrite Eu. apply app_nil_r. }
  split; try done; rewrite ?Ec; try done; [apply contents_full_length; [lia|done]|].
  destruct (Z.leb_spec (nInternalPointer ht) (Z.of_nat i)) as [Hle|]; [|done].
  symmetry. apply (move_pos_full _ _ i); [lia|done|].
  destruct Hp as [?|(k & c & E & _)]; [by left|]. right. exists k. split; [done|lia].
Qed.

Lemma rehash_holes_ok fuel ht eg (i : nat) :
  mask_ok ht n -> chains_ok n (arHash ht) (arData ht) i -> (i < used ht)%nat ->
  (used ht <= length (arData ht))%nat -> nNumUsed ht <= HT_MAX_SIZE ->
  (used ht - i <= fuel)%nat -> (forall k, (k < i)%nat -> exists b, live (arData ht) k b) ->
  (forall k b, (k < used ht)%nat -> live (arData ht) k b -> 0 <= b_h b) ->
  position_ok ht (nInternalPointer ht) ->
  exists hs d m eg', rehash_holes fuel ht eg (Z.of_nat i) =
    Ok (rebuilt hs d (Z.of_nat m) (move_pos (arData ht) (nInternalPointer ht)) ht, eg') /\
  rehashed (arData ht) ht hs d m /\ iters_only eg eg' /\ (nIteratorsCount ht = 0 -> eg' = eg).
Proof.
  revert ht i. induction fuel as [|fuel IH]; intros ht i Hm Hc Hi Hu Hmax Hf Hfull Hh Hp; [lia|].
  destruct (lookup_lt_is_Some_2 (arData ht) i ltac:(lia)) as [b Hb]. cbn [rehash_holes].
  unfold get_bucket. rewrite (aget_ok _ _ _ Hb). rsimp.
  destruct (is_undef (b_val b)) eqn:Eu.
  - set (ip := if nIteratorsCount ht =? 0 then None else _).
    assert (Hip : iter_pos_ok ip).
    { unfold ip. destruct (_ =? 0); [done|]. apply lower_pos_ge. }
    assert (Hcp : compacted (arData ht) (nInternalPointer ht) ht i i)
      by (eapply compacted_start; eauto).
    destruct (rehash_compact_ok (S (Z.to_nat (nNumUsed ht - Z.of_nat i))) _ _ ht eg ip i i Hcp Hip)
      as (hs & d & m & eg' & -> & Hr & Ho & Hn); [unfold used; lia|]. rsimp.
    exists hs, d, m, eg'. split; [done|]. split; [done|]. split; [done|].
    intros Hz. apply Hn. unfold ip. by rewrite Hz.
  - assert (Hlen : (i < length (arData ht))%nat) by lia.
    assert (Hl : live (arData ht) i b) by done.
    destruct (hash_link_ok ht n i b Hm (Hh _ _ Hi Hl) Hlen) as (head & Hhd & ->). rsimp.
    pose proof Hm as ((k & Hk & En) & _ & _). pose proof (pow2_range k Hk).
    pose proof (chains_ok_link ht n i b head ltac:(lia) Hc Hlen Eu Hhd) as Hc'.
    pose proof (linked_relinked ht n i b head Hb) as Hsame.
    assert (L1 : length (arHash (linked ht n i b head)) = length (arHash ht)) by apply length_insert.
    assert (L2 : length (arData (linked ht n i b head)) = length (arData ht)) by apply length_insert.
    assert (Hm1 : mask_ok (linked ht n i b head) n).
    { destruct Hm as (? & ? & ?). split; [done|]. split; [done|]. by rewrite L1. }
    set (ht1 := linked ht n i b head) in *. change (nNumUsed ht1) with (nNumUsed ht).
    assert (Hfull1 : forall k, (k < S i)%nat -> exists b, live (arData ht1) k b).
    { intros k' Hk'. destruct (decide (k' = i)) as [->|].
      - destruct (relinked_live _ _ _ _ Hsame Hl) as (c & ? & _). eauto.
      - destruct (Hfull k') as [c Hlc]; [lia|].
        destruct (relinked_live _ _ _ _ Hsame Hlc) as (c' & ? & _). eauto. }
    destruct (Z.ltb_spec (Z.of_nat i + 1) (nNumUsed ht)).
    + replace (Z.of_nat i + 1) with (Z.of_nat (S i)) by lia. unfold used in *.
      destruct (IH ht1 (S i) Hm1 Hc') as (hs & d & m & eg' & E & Hr & Ho & Hn); unfold used in *.
      * simpl. lia.
      * rewrite L2. simpl. lia.
      * done.
      * simpl. lia.
      * done.
      * intros k' c Hk' Hlc. destruct (relinked_live _ _ _ _ (relinked_sym _ _ Hsame) Hlc)
          as (c' & Hc2 & Eh). rewrite <- Eh. by eapply Hh.
      * destruct Hp as [Ep|(k' & c & Ep & Hk' & Hlc)]; [by left|]. right.
        destruct (relinked_live _ _ _ _ Hsame Hlc) as (c' & Hc2 & _). by exists k', c'.
      * exists hs, d, m, eg'. rewrite E.
        rewrite (relinked_move_pos _ _ (nInternalPointer ht) Hsame). split; [done|].
        split; [|by split]. unfold rehashed in Hr |- *. 
        rewrite L1, L2, <- (relinked_contents _ _ _ Hsame) in Hr. exact Hr.
    + assert (Eui : used ht = S i) by (unfold used in *; lia).
      exists (arHash ht1), (arData ht1), (S i), eg.
      assert (Hci : length (contents (arData ht) (S i)) = S i).
      { rewrite (relinked_contents _ _ _ Hsame). apply contents_full_length; [lia|done]. }
      assert (Ep : move_pos (arData ht) (nInternalPointer ht) = nInternalPointer ht).
      { rewrite (relinked_move_pos _ _ _ Hsame). apply (move_pos_full _ _ (S i)); [lia|done|].
        destruct Hp as [?|(k' & c & E & ? & _)]; [by left|]. right. exists k'. split; [done|lia]. }
      rewrite Ep. split; [|split; [|by split]].
      * repeat f_equal. replace (Z.of_nat (S i)) with (nNumUsed ht) by (unfold used in *; lia).
        by destruct ht.
      * unfold rehashed. rewrite Eui. repeat split; try done.
        by rewrite (relinked_contents _ _ _ Hsame).
Qed.
End Loops.

(** ** [zend_hash_rehash] *)
Lemma elems_contents_length ht : length (elems ht) = length (contents (arData ht) (used ht)).
Proof. unfold elems. by rewrite contents_elems, length_map. Qed.

Lemma mask_ok_reset ht n : mask_ok ht n -> mask_ok (HT_HASH_RESET ht) n /\
  arHash (HT_HASH_RESET ht) = replicate (Z.to_nat n) HT_INVALID_IDX.
Proof.
  intros ((k & Hk & ->) & Hm & Hl). pose proof (pow2_range k Hk).
  unfold HT_HASH_RESET. rewrite Hm, HT_HASH_SIZE_pow2 by done.
  split; [|done]. split; [by exists k|]. split; [done|]. simpl. rewrite length_replicate. lia.
Qed.

Lemma wf_live_hash ht : data_wf ht ->
  forall k b, (k < used ht)%nat -> live (arData ht) k b -> 0 <= b_h b.
Proof. intros Hwf k b Hk Hl. apply (wf_bucket _ Hwf k b Hk Hl). Qed.

(** An empty table has no live bucket. *)
Lemma wf_empty ht : data_wf ht -> nNumOfElements ht = 0 ->
  contents (arData ht) (used ht) = [] /\ nInternalPointer ht = HT_INVALID_IDX.
Proof.
  intros Hwf Hz. pose proof (wf_count _ Hwf) as Hc. rewrite Hz, elems_contents_length in Hc.
  assert (E : contents (arData ht) (used ht) = []) by (apply length_zero_iff_nil; lia).
  split; [done|]. destruct (wf_position _ Hwf) as [?|(k & b & _ & Hk & Hl)]; [done|].
  assert (Hin : clear_next b ∈ contents (arData ht) (used ht)) by (apply contents_in; eauto).
  rewrite E in Hin. set_solver.
Qed.

Lemma rehash_ok ht eg :
  data_wf ht -> f_initialized ht = true -> mask_ok ht (nTableSize ht) ->
  exists hs d m eg', zend_hash_rehash ht eg =
    Ok (rebuilt hs d (Z.of_nat m) (move_pos (arData ht) (nInternalPointer ht)) ht, eg') /\
  rehashed (nTableSize ht) (arData ht) ht hs d m /\ iters_only eg eg' /\
  (nIteratorsCount ht = 0 -> eg' = eg).
Proof.
  intros Hwf Hin Hm. destruct (mask_ok_reset ht _ Hm) as [Hm' Eh].
  pose proof (data_wf_size _ Hwf) as Hsz. destruct (data_wf_len _ Hwf) as [Hu _].
  pose proof (wf_used _ Hwf) as Hu'. pose proof (wf_count _ Hwf) as Hcnt.
  assert (Lh : length (replicate (Z.to_nat (nTableSize ht)) HT_INVALID_IDX) = length (arHash ht)).
  { rewrite length_replicate. destruct Hm as (_ & _ & ?). lia. }
  assert (Hc0 : chains_ok (nTableSize ht) (arHash (HT_HASH_RESET ht)) (arData ht) 0)
    by (rewrite Eh; apply chains_ok_reset; lia).
  unfold zend_hash_rehash. destruct (Z.eqb_spec (nNumOfElements ht) 0) as [Hz|Hz].
  { destruct (wf_empty _ Hwf Hz) as [Ec Ep]. rewrite Hin. exists (arHash (HT_HASH_RESET ht)), (arData ht), 0%nat, eg.
    assert (Em : move_pos (arData ht) (nInternalPointer ht) = nInternalPointer ht) by (by rewrite Ep).
    split; [rewrite Em; by destruct ht|]. split; [|by split].
    unfold rehashed. rewrite Ec, Eh. rewrite Eh in Hc0. do 4 (split; [done|]). done. }
  rewrite elems_contents_length in Hcnt. pose proof (contents_length_le (arData ht) (used ht)).
  assert (Hpos : (0 < used ht)%nat) by lia.
  unfold HT_IS_WITHOUT_HOLES. change (nNumUsed (HT_HASH_RESET ht)) with (nNumUsed ht).
  change (nNumOfElements (HT_HASH_RESET ht)) with (nNumOfElements ht).
  destruct (Z.eqb_spec (nNumUsed ht) (nNumOfElements ht)) as [Heq|_].
  - assert (Hfull : length (contents (arData ht) (used ht)) = used ht) by (unfold used in *; lia).
    pose proof (contents_full _ _ Hu Hfull) as Hlive.
    destruct (rehash_dense_ok (nTableSize ht) (S (Z.to_nat (nNumUsed ht))) (HT_HASH_RESET ht) 0)
      as (hs & d & E & L1 & Hc & L2 & Hr); try done; [unfold used; simpl; lia| |].
    { intros k Hk. destruct (Hlive k Hk) as [b Hb]. exists b. split; [done|].
      by eapply wf_live_hash. }
    change 0 with (Z.of_nat 0). rewrite E. rsimp. exists hs, d, (used ht), eg.
    split; [|split; [|by split]].
    + rewrite (move_pos_full _ _ (used ht)); [|lia|done|].
      * unfold used. rewrite Z2Nat.id by lia. by destruct ht.
      * destruct (wf_position _ Hwf) as [?|(k & b & ? & ? & _)]; [by left|]. right.
        exists k. split; [done|lia].
    + unfold rehashed. rewrite Hfull, L1, L2, Eh, Lh. repeat split; try done.
      by apply relinked_contents.
  - destruct (rehash_holes_ok (nTableSize ht) (S (Z.to_nat (nNumUsed ht))) (HT_HASH_RESET ht) eg 0)
      as (hs & d & m & eg' & E & Hr & Ho & Hn); try done.
    + unfold HT_MAX_SIZE in *. simpl. lia.
    + unfold used. simpl. lia.
    + intros; lia.
    + exact (wf_live_hash ht Hwf).
    + exact (wf_position _ Hwf).
    + change 0 with (Z.of_nat 0). rewrite E. exists hs, d, m, eg'. split; [by destruct ht|].
      split; [|done]. unfold rehashed in *. by rewrite Eh, Lh in Hr.
Qed.
