(* ===== verification/HashGrow.v ===== *)
(** * The ordered hash table: sizes, allocation, growth and conversions keep
    the invariant and the entries *)
From S2P Require Export HashRehash.

(** ** Table sizes *)

(** [y] has ones at the [w] positions up to [m] and zeros above. *)
Definition ones_below (m w y : Z) : Prop :=
  0 <= y /\ (forall i, m - w < i <= m -> 0 <= i -> Z.testbit y i = true) /\
  (forall i, m < i -> Z.testbit y i = false).

Lemma ones_below_step m w y :
  0 < w -> 0 <= m -> ones_below m w y -> ones_below m (2 * w) (Z.lor y (Z.shiftr y w)).
Proof.
  intros Hw Hm (H0 & H1 & H2). split; [|split].
  - apply Z.lor_nonneg. split; [done|]. by apply Z.shiftr_nonneg.
  - intros i Hi Hi0. rewrite Z.lor_spec, Z.shiftr_spec by lia.
    destruct (Z.ltb_spec (m - w) i); [by rewrite H1 by lia|].
    rewrite (H1 (i + w)) by lia. apply orb_true_r.
  - intros i Hi. rewrite Z.lor_spec, Z.shiftr_spec by lia. by rewrite !H2 by lia.
Qed.

Lemma ones_below_full m w y : 0 <= m -> m < w -> ones_below m w y -> y + 1 = 2 ^ (m + 1).
Proof.
  intros Hm Hw (H0 & H1 & H2). enough (y = Z.ones (m + 1)) as -> by (rewrite Z.ones_equiv; lia).
  apply Z.bits_inj'. intros i Hi. destruct (Z.ltb_spec i (m + 1)).
  - rewrite Z.ones_spec_low by lia. apply H1; lia.
  - rewrite Z.ones_spec_high by lia. apply H2; lia.
Qed.

Lemma round_up_pow2_log n :
  2 <= n <= 2 ^ 32 -> round_up_pow2 n = 2 ^ (Z.log2 (n - 1) + 1).
Proof.
  intros Hn. set (m := Z.log2 (n - 1)).
  assert (0 <= m) by apply Z.log2_nonneg. assert (m < 32) by (apply Z.log2_lt_pow2; lia).
  apply (ones_below_full m 32); [done|done|].
  assert (H1 : ones_below m 1 (n - 1)).
  { split; [lia|]. split.
    - intros i Hi _. replace i with m by lia. apply Z.bit_log2. lia.
    - intros i Hi. apply Z.bits_above_log2; lia. }
  do 4 (apply ones_below_step in H1; [|lia|done]; simpl in H1). 
  apply (ones_below_step m 16); [lia|done|exact H1].
Qed.

Lemma pow2_between n : 2 <= n ->
  2 ^ Z.log2 (n - 1) < n <= 2 ^ (Z.log2 (n - 1) + 1).
Proof.
  intros Hn. pose proof (Z.log2_spec (n - 1) ltac:(lia)) as H.
  unfold Z.succ in H. lia.
Qed.

Lemma check_size_ok n s : 0 <= n -> zend_hash_check_size n = Ok s ->
  (exists k, 3 <= k <= 31 /\ s = 2 ^ k) /\ n <= s.
Proof.
  intros Hn. unfold zend_hash_check_size, HT_MIN_SIZE, HT_MAX_SIZE.
  destruct (Z.ltb_spec n 8).
  - intros [= <-]. split; [exists 3; split; [lia|reflexivity]|]. change (round_up_pow2 8) with 8. lia.
  - destruct (Z.leb_spec (2 ^ 31) n); [discriminate|]. intros [= <-].
    rewrite round_up_pow2_log by lia. pose proof (pow2_between n ltac:(lia)).
    assert (3 - 1 <= Z.log2 (n - 1)) by (apply Z.log2_le_pow2; lia).
    assert (Z.log2 (n - 1) < 31) by (apply Z.log2_lt_pow2; lia).
    split; [|lia]. eexists. split; [|reflexivity]. lia.
Qed.

(** ** Tables with the same contents *)

(** The parts of a table that growing never changes. *)
Record same_table (ht ht' : HashTable) : Prop := mk_same_table {
  st_addr : ht_addr ht' = ht_addr ht;
  st_persistent : f_persistent ht' = f_persistent ht;
  st_protection : f_apply_protection ht' = f_apply_protection ht;
  st_apply : nApplyCount ht' = nApplyCount ht;
  st_iterators : nIteratorsCount ht' = nIteratorsCount ht;
  st_dtor : pDestructor ht' = pDestructor ht
}.

#[export] Instance same_table_preorder : PreOrder same_table.
Proof.
  split; [by intros x; split|]. intros x y z [] []. split; congruence.
Qed.

Lemma contents_eq_elems ht ht' :
  contents (arData ht') (used ht') = contents (arData ht) (used ht) -> elems ht' = elems ht.
Proof. intros H. unfold elems. rewrite !contents_elems. unfold used in H. by rewrite H. Qed.

Lemma contents_perm_elems ht ht' :
  contents (arData ht') (used ht') ≡ₚ contents (arData ht) (used ht) -> elems ht' ≡ₚ elems ht.
Proof. intros H. unfold elems. rewrite !contents_elems. unfold used in H. by rewrite H. Qed.

(** The same buckets, in any order and up to the links, in arrays of the right sizes. *)
Lemma data_wf_perm ht ht' :
  data_wf ht ->
  (exists k, 3 <= k <= 31 /\ nTableSize ht' = 2 ^ k) ->
  0 <= nNumUsed ht' <= nTableSize ht' ->
  Z.of_nat (length (arData ht')) = (if f_initialized ht' then nTableSize ht' else 0) ->
  (f_initialized ht' = false -> nNumUsed ht' = 0) ->
  contents (arData ht') (used ht') ≡ₚ contents (arData ht) (used ht) ->
  nNumOfElements ht' = nNumOfElements ht -> nNextFreeElement ht' = nNextFreeElement ht ->
  (HT_HAS_STATIC_KEYS_ONLY ht' = true -> HT_HAS_STATIC_KEYS_ONLY ht = true) ->
  position_ok ht' (nInternalPointer ht') ->
  data_wf ht'.
Proof.
  intros Hwf Hs Hu Hl Hi Hc Hn Hf Hst Hp. pose proof (contents_perm_elems _ _ Hc) as He.
  assert (Hk : (elems ht').*1 ≡ₚ (elems ht).*1) by (by rewrite He).
  split; try done.
  - rewrite Hn, He. apply Hwf.
  - rewrite Hk. apply Hwf.
  - refine (contents_forall_perm bucket_ok (arData ht) _ (used ht) _ _ Hc _); [done|apply Hwf].
  - intros H%Hst.
    assert (HP : forall i b, (i < used ht')%nat -> live (arData ht') i b ->
      match b_key b with Some s => zs_interned s = true | None => True end).
    { refine (contents_forall_perm (fun b => match b_key b with
        | Some s => zs_interned s = true | None => True end) (arData ht) _ (used ht) _ _ Hc _); [done|].
      intros i b Hlt Hb. destruct (b_key b) eqn:E; [|done]. by eapply (wf_static _ Hwf H). }
    intros i b s Hlt Hb E. specialize (HP i b Hlt Hb). by rewrite E in HP.
  - rewrite Hf. apply Hwf.
  - intros h Hh. rewrite Hf. apply (wf_next_free_keys _ Hwf). by rewrite <- Hk.
Qed.

Lemma data_wf_contents ht ht' :
  data_wf ht ->
  (exists k, 3 <= k <= 31 /\ nTableSize ht' = 2 ^ k) ->
  0 <= nNumUsed ht' <= nTableSize ht' ->
  Z.of_nat (length (arData ht')) = (if f_initialized ht' then nTableSize ht' else 0) ->
  (f_initialized ht' = false -> nNumUsed ht' = 0) ->
  contents (arData ht') (used ht') = contents (arData ht) (used ht) ->
  nNumOfElements ht' = nNumOfElements ht -> nNextFreeElement ht' = nNextFreeElement ht ->
  (HT_HAS_STATIC_KEYS_ONLY ht' = true -> HT_HAS_STATIC_KEYS_ONLY ht = true) ->
  position_ok ht' (nInternalPointer ht') ->
  data_wf ht'.
Proof.
  intros Hwf Hs Hu Hl Hi Hc Hn Hf Hst Hp. apply (data_wf_perm ht); try done. by rewrite Hc.
Qed.

(** A live position is moved to the same bucket. *)
Lemma move_pos_ok d d' n m p :
  (exists i b, p = Z.of_nat i /\ (i < n)%nat /\ live d i b) \/ p = HT_INVALID_IDX ->
  Z.of_nat n <= HT_MAX_SIZE ->
  contents d' m = contents d n -> m = length (contents d n) -> (m <= length d')%nat ->
  (exists i b, move_pos d p = Z.of_nat i /\ (i < m)%nat /\ live d' i b) \/
  move_pos d p = HT_INVALID_IDX.
Proof.
  intros Hp Hn Hc Hm Hl. unfold move_pos.
  destruct (Z.eqb_spec p HT_INVALID_IDX) as [|Hne]; [by right|]. left.
  destruct Hp as [(i & b & -> & Hi & Hb)|]; [|done]. rewrite Nat2Z.id.
  assert (Hlt : (length (contents d i) < m)%nat).
  { rewrite Hm, (contents_split d n i b Hb Hi), length_app. simpl. lia. }
  destruct (contents_full d' m Hl ltac:(congruence) _ Hlt) as [c Hc'].
  exists (length (contents d i)), c. done.
Qed.

Lemma position_or ht p : position_ok ht p <->
  (exists i b, p = Z.of_nat i /\ (i < used ht)%nat /\ live (arData ht) i b) \/ p = HT_INVALID_IDX.
Proof. unfold position_ok. tauto. Qed.

(** ** After a rehash *)
Record regrown (ht ht' : HashTable) (eg eg' : EG) : Prop := mk_regrown {
  rg_wf : ht_wf ht';
  rg_hashed : is_hashed ht' = true;
  rg_same : same_table ht ht';
  rg_contents : contents (arData ht') (used ht') = contents (arData ht) (used ht);
  rg_compact : nNumUsed ht' = nNumOfElements ht';
  rg_count : nNumOfElements ht' = nNumOfElements ht;
  rg_next : nNextFreeElement ht' = nNextFreeElement ht;
  rg_static : f_static_keys ht' = f_static_keys ht;
  rg_ptr : nInternalPointer ht' = move_pos (arData ht) (nInternalPointer ht);
  rg_iters : iters_only eg eg';
  rg_no_iters : nIteratorsCount ht = 0 -> eg' = eg
}.

Lemma rehash_regrown ht eg :
  data_wf ht -> is_hashed ht = true -> mask_ok ht (nTableSize ht) ->
  exists ht' eg', zend_hash_rehash ht eg = Ok (ht', eg') /\ regrown ht ht' eg eg' /\
    nTableSize ht' = nTableSize ht.
Proof.
  intros Hwf Hh Hm. pose proof Hh as [Hin Hpk]%andb_prop. apply negb_true_iff in Hpk.
  destruct (rehash_ok ht eg Hwf Hin Hm) as (hs & d & m & eg' & E & (L1 & L2 & Em & Ec & Hch) & Ho & Hn).
  destruct (data_wf_len _ Hwf) as [Hu Hmax]. pose proof (data_wf_size _ Hwf).
  pose proof (wf_used _ Hwf) as Hus. pose proof (contents_length_le (arData ht) (used ht)).
  set (ht' := rebuilt _ _ _ _ _) in E.
  assert (Hused : used ht' = m) by (unfold used; simpl; lia).
  assert (Hpos : position_ok ht' (nInternalPointer ht')).
  { apply position_or. rewrite Hused. simpl.
    apply (move_pos_ok _ d (used ht) m); [apply position_or, Hwf|unfold used; lia|done|done|lia]. }
  assert (Hwf' : data_wf ht').
  { apply (data_wf_contents ht); try done; simpl.
    - apply Hwf.
    - unfold used in *. lia.
    - rewrite L2. apply Hwf.
    - by rewrite Hin.
    - by rewrite Hused. }
  exists ht', eg'. split; [done|]. split; [|done]. split; try done.
  - split; [done|simpl; congruence|]. change (is_hashed ht') with (is_hashed ht). rewrite Hh.
    destruct Hm as (_ & Hmask & Hlen). split; simpl; [done|by rewrite L1|by rewrite Hused].
  - by rewrite Hused.
  - simpl. rewrite (wf_count _ Hwf), elems_contents_length. lia.
Qed.

(** ** Copying the used buckets to a new allocation *)
Lemma copy_used_length eg u size old :
  0 <= u <= size -> (Z.to_nat u <= length old)%nat ->
  Z.of_nat (length (copy_used eg u size old)) = size.
Proof.
  intros Hu Hl. unfold copy_used, malloc_buckets.
  rewrite length_app, length_take, length_replicate. lia.
Qed.

Lemma copy_used_lookup eg u size old i :
  (i < Z.to_nat u)%nat -> (Z.to_nat u <= length old)%nat ->
  copy_used eg u size old !! i = old !! i.
Proof.
  intros Hi Hl. unfold copy_used. rewrite lookup_app_l by (rewrite length_take; lia).
  by apply lookup_take_lt.
Qed.

(** [ht'] is [ht] with [size] buckets, the used ones copied. *)
Definition recopied (eg : EG) (size : Z) (ht ht' : HashTable) : Prop :=
  arData ht' = copy_used eg (nNumUsed ht) size (arData ht) /\
  nTableSize ht' = size /\ nNumUsed ht' = nNumUsed ht /\
  nNumOfElements ht' = nNumOfElements ht /\ nNextFreeElement ht' = nNextFreeElement ht /\
  nInternalPointer ht' = nInternalPointer ht /\ f_initialized ht' = true /\
  (HT_HAS_STATIC_KEYS_ONLY ht' = true -> HT_HAS_STATIC_KEYS_ONLY ht = true).

Lemma recopied_lookup eg size ht ht' i :
  data_wf ht -> recopied eg size ht ht' -> (i < used ht)%nat ->
  arData ht' !! i = arData ht !! i.
Proof.
  intros Hwf (-> & _) Hi. destruct (data_wf_len _ Hwf) as [Hu _].
  apply copy_used_lookup; [done|]. exact Hu.
Qed.

Lemma recopied_contents eg size ht ht' n :
  data_wf ht -> recopied eg size ht ht' -> (n <= used ht)%nat ->
  contents (arData ht') n = contents (arData ht) n.
Proof.
  intros Hwf Hr Hn. apply contents_ext. intros i Hi.
  rewrite (recopied_lookup eg size ht ht'); [done|done|done|lia].
Qed.

Lemma recopied_wf eg size ht ht' k :
  data_wf ht -> recopied eg size ht ht' -> 3 <= k <= 31 -> size = 2 ^ k -> nNumUsed ht <= size ->
  data_wf ht'.
Proof.
  intros Hwf Hr Hk Es Hle. pose proof Hr as (Ed & Esz & Eu & Ec & En & Ep & Ei & Est).
  pose proof (wf_used _ Hwf). destruct (data_wf_len _ Hwf) as [Hu _].
  assert (Eus : used ht' = used ht) by (unfold used; congruence).
  apply (data_wf_contents ht); try done.
  - exists k. split; [done|congruence].
  - rewrite Eu, Esz. lia.
  - rewrite Ei, Ed, Esz. apply copy_used_length; [lia|exact Hu].
  - by rewrite Ei.
  - rewrite Eus. by eapply recopied_contents.
  - rewrite Ep. destruct (wf_position _ Hwf) as [?|(i & b & ? & Hi & Hb)]; [by left|right].
    exists i, b. split; [done|]. rewrite Eus. split; [done|]. split; [|apply Hb].
    rewrite (recopied_lookup eg size ht); [apply Hb|done|done|done].
Qed.

(** A position keeps its rank whether or not the buckets have been copied. *)
Lemma recopied_move_pos eg size ht ht' :
  data_wf ht -> recopied eg size ht ht' ->
  move_pos (arData ht') (nInternalPointer ht) = move_pos (arData ht) (nInternalPointer ht).
Proof.
  intros Hwf Hr. destruct (wf_position _ Hwf) as [->|(i & b & -> & Hi & Hb)]; [done|].
  unfold move_pos. rewrite Nat2Z.id.
  rewrite (recopied_contents eg size ht ht'); [done|done|done|lia].
Qed.

Lemma recopied_regrown eg size ht ht1 k :
  data_wf ht -> recopied eg size ht ht1 -> same_table ht ht1 -> f_static_keys ht1 = f_static_keys ht ->
  3 <= k <= 31 -> size = 2 ^ k -> nNumUsed ht <= size ->
  is_hashed ht1 = true -> nTableMask ht1 = u32 (- size) ->
  arHash ht1 = malloc_hash eg (HT_HASH_SIZE (u32 (- size))) ->
  exists ht' eg', zend_hash_rehash ht1 eg = Ok (ht', eg') /\ regrown ht ht' eg eg' /\
    nTableSize ht' = size.
Proof.
  intros Hwf Hr Hsame Hst Hk Es Hle Hh Hmask Hhash.
  assert (Hwf1 : data_wf ht1) by (by eapply (recopied_wf eg size ht)).
  pose proof Hr as (Ed & Esz & Eu & Ec & En & Ep & Ei & Est).
  assert (Eus : used ht1 = used ht) by (unfold used; congruence).
  assert (Hm : mask_ok ht1 (nTableSize ht1)).
  { rewrite Esz. split; [exists k; split; [lia|done]|]. split; [done|].
    rewrite Hhash, Es, HT_HASH_SIZE_pow2 by lia. unfold malloc_hash. rewrite length_replicate.
    pose proof (pow2_range k). lia. }
  destruct (rehash_regrown ht1 eg Hwf1 Hh Hm) as (ht' & eg' & E & [] & Hsz).
  exists ht', eg'. split; [done|]. split; [|by rewrite Hsz]. split; try done.
  - by etrans.
  - rewrite rg_contents0, Eus. by eapply recopied_contents.
  - by rewrite rg_count0.
  - by rewrite rg_next0.
  - by rewrite rg_static0.
  - rewrite rg_ptr0, Ep. by eapply recopied_move_pos.
  - intros Hz. apply rg_no_iters0. by rewrite (st_iterators _ _ Hsame).
Qed.

(** ** Resizing and converting *)
Lemma realloc_and_rehash_ok ht k eg :
  ht_wf ht -> is_hashed ht = true -> 3 <= k <= 31 -> nTableSize ht <= 2 ^ k ->
  exists ht' eg', realloc_and_rehash ht (2 ^ k) eg = Ok (ht', eg') /\ regrown ht ht' eg eg' /\
    nTableSize ht' = 2 ^ k.
Proof.
  intros [Hwf _ _] Hh Hk Hle. pose proof (wf_used _ Hwf).
  apply (recopied_regrown eg (2 ^ k) ht _ k); try done.
  - repeat split; try done. apply andb_prop in Hh. apply Hh.
  - lia.
Qed.

Lemma packed_to_hash_data ht eg :
  data_wf ht -> f_initialized ht = true -> f_packed ht = true ->
  exists ht' eg', zend_hash_packed_to_hash ht eg = Ok (ht', eg') /\ regrown ht ht' eg eg' /\
    nTableSize ht' = nTableSize ht.
Proof.
  intros Hwf Hp Hpk. destruct (wf_size _ Hwf) as (k & Hk & Ek).
  pose proof (wf_used _ Hwf).
  apply (recopied_regrown eg (nTableSize ht) ht _ k); try done.
  - repeat split; try done. unfold HT_HAS_STATIC_KEYS_ONLY. by rewrite Hpk.
  - lia.
  - unfold is_hashed. simpl. by rewrite Hp.
Qed.

Lemma packed_to_hash_ok ht eg :
  ht_wf ht -> f_packed ht = true ->
  exists ht' eg', zend_hash_packed_to_hash ht eg = Ok (ht', eg') /\ regrown ht ht' eg eg' /\
    nTableSize ht' = nTableSize ht.
Proof. intros [Hwf Hp _] Hpk. by apply packed_to_hash_data; [|apply Hp|]. Qed.

(** Either there is room afterwards, or the table is at its maximal size and
    the allocation failure is reported. *)
Lemma if_full_do_resize_ok ht eg :
  ht_wf ht -> is_hashed ht = true ->
  (if_full_do_resize ht eg = Err Fatal /\ nTableSize ht = HT_MAX_SIZE /\ nNumUsed ht = HT_MAX_SIZE) \/
  exists ht' eg', if_full_do_resize ht eg = Ok (ht', eg') /\ nNumUsed ht' < nTableSize ht' /\
    ((ht' = ht /\ eg' = eg) \/ regrown ht ht' eg eg').
Proof.
  intros Hwf Hh. pose proof (wf_data _ Hwf) as Hd. pose proof (wf_used _ Hd) as Hu.
  pose proof (wf_count _ Hd) as Hc. rewrite elems_contents_length in Hc.
  pose proof (contents_length_le (arData ht) (used ht)) as Hle.
  pose proof (wf_repr _ Hwf) as Hr. rewrite Hh in Hr.
  assert (Hshift : 0 <= Z.shiftr (nNumOfElements ht) 5) by (apply Z.shiftr_nonneg; lia).
  unfold if_full_do_resize. destruct (Z.leb_spec (nTableSize ht) (nNumUsed ht)) as [Hfull|];
    [|right; exists ht, eg; eauto].
  assert (Hs32 : 0 <= nNumOfElements ht + Z.shiftr (nNumOfElements ht) 5 < 2 ^ 32).
  { rewrite Z.shiftr_div_pow2 in * by lia. pose proof (data_wf_size _ Hd) as Hsz.
    unfold HT_MAX_SIZE, used in *.
    assert (nNumOfElements ht / 2 ^ 5 <= 2 ^ 26) by (apply Z.div_le_upper_bound; lia). lia. }
  unfold zend_hash_do_resize. rewrite (u32_small _ Hs32).
  destruct (Z.ltb_spec (nNumOfElements ht + Z.shiftr (nNumOfElements ht) 5)
    (nNumUsed ht)) as [Hgarb|].
  - right. destruct (rehash_regrown ht eg Hd Hh) as (ht' & eg' & E & Hre & Hs).
    { pose proof (repr_mask _ Hwf) as Hm. by rewrite Hh in Hm. }
    exists ht', eg'. split; [done|]. split; [|by right].
    rewrite (rg_compact _ _ _ _ Hre), (rg_count _ _ _ _ Hre), Hs. lia.
  - destruct (wf_size _ Hd) as (k & Hk & Ek). unfold HT_MAX_SIZE.
    destruct (Z.ltb_spec (nTableSize ht) (2 ^ 31)) as [Hlt|].
    + right. assert (k < 31) by (apply (Z.pow_lt_mono_r_iff 2); lia).
      assert (E2 : nTableSize ht + nTableSize ht = 2 ^ (k + 1))
        by (rewrite Z.pow_add_r, Ek by lia; lia).
      rewrite E2. destruct (realloc_and_rehash_ok ht (k + 1) eg Hwf Hh) as (ht' & eg' & E & Hre & Hs);
        [lia|lia|]. exists ht', eg'. split; [done|]. split; [|by right].
      rewrite (rg_compact _ _ _ _ Hre), (rg_count _ _ _ _ Hre), Hs. unfold used in *. lia.
    + left. pose proof (data_wf_size _ Hd) as Hsz. unfold HT_MAX_SIZE in Hsz. split; [done|]. lia.
Qed.

(** ** Allocation *)
Lemma elems_unused ht : nNumUsed ht = 0 -> elems ht = [].
Proof. intros H. unfold elems. by rewrite H. Qed.

(** A fresh or emptied table with the right array sizes is well-formed. *)
Lemma data_wf_unused ht k :
  3 <= k <= 31 -> nTableSize ht = 2 ^ k -> nNumUsed ht = 0 -> nNumOfElements ht = 0 ->
  Z.of_nat (length (arData ht)) = (if f_initialized ht then nTableSize ht else 0) ->
  0 <= nNextFreeElement ht <= ZEND_LONG_MAX -> nInternalPointer ht = HT_INVALID_IDX ->
  data_wf ht.
Proof.
  intros Hk Ek Hu Hn Hl Hf Hp. pose proof (elems_unused _ Hu) as He.
  assert (Hus : used ht = 0%nat) by (unfold used; by rewrite Hu).
  assert (0 < 2 ^ k) by (apply Z.pow_pos_nonneg; lia).
  split; try done; rewrite ?He, ?Hus, ?Hn; try done; try (intros; lia).
  - by exists k.
  - constructor.
  - intros h Hh. simpl in Hh. set_solver.
  - by left.
Qed.

Lemma hash_init_ok self n dtor pers ht :
  0 <= n -> _zend_hash_init self n dtor pers = Ok ht ->
  ht_wf ht /\ elems ht = [] /\ f_initialized ht = false /\ n <= nTableSize ht.
Proof.
  intros Hn. unfold _zend_hash_init. intros H. inv_bind.
  destruct (check_size_ok n a Hn Ha) as ((k & Hk & Ek) & Hle).
  split; [|done]. split; [|done|split; try done; unfold used; simpl; intros; lia].
  by apply (data_wf_unused _ k).
Qed.

Lemma uninit_unused ht : data_wf ht -> f_initialized ht = false ->
  nNumUsed ht = 0 /\ nNumOfElements ht = 0 /\ elems ht = [] /\ nInternalPointer ht = HT_INVALID_IDX.
Proof.
  intros Hwf Hi. pose proof (wf_init_used _ Hwf Hi) as Hu. pose proof (elems_unused _ Hu) as He.
  pose proof (wf_count _ Hwf) as Hc. rewrite He in Hc. do 3 (split; [done|]).
  destruct (wf_position _ Hwf) as [?|(i & b & _ & H & _)]; [done|]. unfold used in H. lia.
Qed.

Lemma real_init_ok ht packed eg :
  ht_wf ht -> f_initialized ht = false ->
  let ht' := zend_hash_real_init_ex ht packed eg in
  ht_wf ht' /\ elems ht' = [] /\ f_initialized ht' = true /\ f_packed ht' = packed /\
  same_table ht ht' /\ nNextFreeElement ht' = nNextFreeElement ht /\
  nTableSize ht' = nTableSize ht /\ nNumUsed ht' = 0.
Proof.
  intros [Hwf Hp Hr] Hi. destruct (uninit_unused _ Hwf Hi) as (Hu & Hn & He & Hip).
  destruct (wf_size _ Hwf) as (k & Hk & Ek). pose proof (pow2_range k ltac:(lia)).
  assert (Hpk : f_packed ht = false) by (destruct (f_packed ht); [by rewrite Hp in Hi|done]).
  unfold is_hashed in Hr. rewrite Hi in Hr. simpl in Hr.
  intros ht'. assert (Hd : data_wf ht').
  { apply (data_wf_unused _ k); unfold ht'; destruct packed; try done; simpl;
      unfold malloc_buckets; rewrite ?length_replicate; first [lia | apply Hwf]. }
  assert (Eu : nNumUsed ht' = 0) by (unfold ht'; by destruct packed).
  split; [|unfold ht'; destruct packed; simpl; repeat split; try done; by apply elems_unused].
  split; [done|unfold ht'; by destruct packed|]. unfold ht' in *. destruct packed; simpl in *.
  - split; [apply Hr|done|]. unfold used. simpl. rewrite Hu. intros; lia.
  - unfold is_hashed. simpl. rewrite Hpk. simpl. split; simpl; [done| |].
    + rewrite Ek, HT_HASH_SIZE_pow2, length_replicate by lia. lia.
    + unfold used. simpl. rewrite Hu, Ek, HT_HASH_SIZE_pow2 by lia. apply chains_ok_reset. lia.
Qed.

Lemma check_init_ok ht packed eg :
  ht_wf ht -> let ht' := zend_hash_check_init ht packed eg in
  ht_wf ht' /\ elems ht' = elems ht /\ f_initialized ht' = true /\ same_table ht ht' /\
  nNextFreeElement ht' = nNextFreeElement ht /\ nTableSize ht' = nTableSize ht /\
  (f_initialized ht = true -> ht' = ht) /\
  (f_initialized ht = false -> f_packed ht' = packed /\ nNumUsed ht' = 0).
Proof.
  intros Hwf. unfold zend_hash_check_init. destruct (f_initialized ht) eqn:Ei; cbv zeta; cbn [negb].
  - do 3 (split; [done|]). split; [reflexivity|]. by repeat split.
  - destruct (real_init_ok ht packed eg Hwf Ei) as (H1 & H2 & H3 & H4 & H5 & H6 & H7 & H8).
    destruct (uninit_unused _ (wf_data _ Hwf) Ei) as (_ & _ & He & _).
    do 6 (split; [congruence || done|]). split; [done|]. done.
Qed.

(** [zend_hash_packed_grow] doubles the bucket array. *)
Lemma packed_grow_ok ht eg :
  ht_wf ht -> f_packed ht = true ->
  (zend_hash_packed_grow ht eg = Err Fatal /\ nTableSize ht = HT_MAX_SIZE) \/
  exists ht', zend_hash_packed_grow ht eg = Ok ht' /\ ht_wf ht' /\ recopied eg (2 * nTableSize ht) ht ht' /\
    elems ht' = elems ht /\ f_packed ht' = true /\ same_table ht ht' /\
    (forall i, (i < used ht)%nat -> arData ht' !! i = arData ht !! i).
Proof.
  intros [Hwf Hp Hr] Hpk. specialize (Hp Hpk). destruct (wf_size _ Hwf) as (k & Hk & Ek).
  pose proof (data_wf_size _ Hwf) as Hsz. pose proof (wf_used _ Hwf) as Hu.
  unfold is_hashed in Hr. rewrite Hpk, andb_false_r in Hr.
  unfold zend_hash_packed_grow, HT_MAX_SIZE in *. destruct (Z.leb_spec (2 ^ 31) (nTableSize ht)).
  { left. split; [done|]. lia. }
  right. assert (k < 31) by (apply (Z.pow_lt_mono_r_iff 2); lia).
  eexists. split; [reflexivity|]. set (ht' := set_arData _ _).
  assert (Hrc : recopied eg (2 * nTableSize ht) ht ht').
  { unfold recopied, ht'. simpl. replace (nTableSize ht + nTableSize ht) with (2 * nTableSize ht) by lia.
    repeat split; try done. }
  assert (Hd : data_wf ht').
  { apply (recopied_wf eg (2 * nTableSize ht) ht _ (k + 1)); try done; [lia| |lia].
    rewrite Z.pow_add_r by lia. lia. }
  split; [|split; [done|split; [|split; [done|split; [done|]]]]].
  - split; [done|done|]. unfold is_hashed. simpl. rewrite Hpk, andb_false_r.
    split; simpl; [apply Hr|apply Hr|]. intros i b Hi Hb.
    apply (wf_p_keys _ Hr); [done|]. unfold live in *.
    by rewrite <- (recopied_lookup eg _ ht ht' i Hwf Hrc Hi).
  - apply contents_eq_elems. by eapply recopied_contents.
  - intros i Hi. by eapply recopied_lookup.
Qed.

(** *** Properties *)

(** [zend_hash_check_size] rounds up to the least power of two that is
    at least 8 and the requested size, and refuses sizes from 2^31 on; the
    variant with [__builtin_clz] computes the same. *)
Theorem check_size_least n :
  0 <= n < 2 ^ 32 ->
  match zend_hash_check_size n with
  | Ok s => n < HT_MAX_SIZE /\ (exists k, 3 <= k <= 31 /\ s = 2 ^ k) /\ n <= s /\
      forall k, 3 <= k -> n <= 2 ^ k -> s <= 2 ^ k
  | Err e => e = Fatal /\ HT_MAX_SIZE <= n
  end /\
  (8 <= n < HT_MAX_SIZE -> zend_hash_check_size n = Ok (round_up_pow2_clz n)).
Proof.
  intros Hn. unfold HT_MAX_SIZE. split.
  - destruct (zend_hash_check_size n) as [s|e] eqn:E.
    + destruct (check_size_ok n s ltac:(lia) E) as [Hp Hle].
      unfold zend_hash_check_size, HT_MIN_SIZE, HT_MAX_SIZE in E.
      destruct (Z.ltb_spec n 8); [|destruct (Z.leb_spec (2 ^ 31) n); [discriminate|]];
        injection E as <-; (split; [lia|]); (split; [done|]); (split; [done|]); intros k Hk Hnk.
      * change (round_up_pow2 8) with (2 ^ 3). apply Z.pow_le_mono_r; lia.
      * rewrite round_up_pow2_log by lia. apply Z.pow_le_mono_r; [lia|].
        assert (Z.log2 (n - 1) < k) by (apply Z.log2_lt_pow2; lia). lia.
    + unfold zend_hash_check_size, HT_MIN_SIZE, HT_MAX_SIZE in E.
      destruct (Z.ltb_spec n 8); [discriminate|].
      destruct (Z.leb_spec (2 ^ 31) n); [by injection E as <-|discriminate].
  - intros H8. unfold zend_hash_check_size, HT_MIN_SIZE, HT_MAX_SIZE.
    destruct (Z.ltb_spec n 8); [lia|]. destruct (Z.leb_spec (2 ^ 31) n); [lia|].
    f_equal. rewrite round_up_pow2_log by lia. unfold round_up_pow2_clz, builtin_clz.
    set (m := Z.log2 (n - 1)). assert (0 <= m < 31).
    { split; [apply Z.log2_nonneg|apply Z.log2_lt_pow2; lia]. }
    assert (Ex : Z.lxor (31 - m) 31 = m).
    { assert (Hc : m = Z.of_nat (Z.to_nat m)) by lia. assert (Z.to_nat m < 31)%nat as Hlt by lia.
      rewrite Hc. revert Hlt. generalize (Z.to_nat m). clear. intros p Hp.
      do 31 (destruct p as [|p]; [reflexivity|]). lia. }
    rewrite Ex, Z.shiftl_mul_pow2, u32_small by
      (first [lia | split; [apply Z.mul_nonneg_nonneg; lia|];
       rewrite <- (Z.pow_succ_r 2) by lia; apply Z.pow_lt_mono_r; lia]).
    rewrite Z.pow_add_r by lia. lia.
Qed.

Lemma check_size_least_witness : zend_hash_check_size 9 = Ok 16 /\ round_up_pow2_clz 9 = 16.
Proof.
  assert (H : 0 <= 9 < 2 ^ 32) by lia. split; [reflexivity|].
  destruct (check_size_least 9 H) as [_ E]. specialize (E ltac:(unfold HT_MAX_SIZE; lia)).
  vm_compute in E. vm_compute. congruence.
Defined.

(** [zend_hash_rehash] compacts: the live buckets keep their order,
    keys and values, no hole is left, the hash part is rebuilt so that the
    invariant holds again, the internal pointer stays on its bucket, and of the
    executor state only iterator positions may change. *)
Theorem rehash_compacts ht eg :
  ht_wf ht -> is_hashed ht = true ->
  exists ht' eg', zend_hash_rehash ht eg = Ok (ht', eg') /\ ht_wf ht' /\
  elems ht' = elems ht /\ contents (arData ht') (used ht') = contents (arData ht) (used ht) /\
  nNumUsed ht' = nNumOfElements ht /\ nNumOfElements ht' = nNumOfElements ht /\
  nTableSize ht' = nTableSize ht /\ same_table ht ht' /\
  nInternalPointer ht' = move_pos (arData ht) (nInternalPointer ht) /\
  iters_only eg eg' /\ (nIteratorsCount ht = 0 -> eg' = eg).
Proof.
  intros Hwf Hh. pose proof (repr_mask _ Hwf) as Hm. rewrite Hh in Hm.
  destruct (rehash_regrown ht eg (wf_data _ Hwf) Hh Hm) as (ht' & eg' & E & [] & Hs).
  exists ht', eg'. do 2 (split; [done|]). split; [by apply contents_eq_elems|].
  split; [done|]. split; [congruence|]. done.
Qed.

Lemma rehash_compacts_witness :
  exists ht' eg', zend_hash_rehash sample_hash sample_eg = Ok (ht', eg') /\ ht_wf ht' /\
  nNumUsed ht' = 3 /\ nInternalPointer ht' = 0.
Proof.
  destruct (rehash_compacts sample_hash sample_eg sample_hash_wf) as
    (ht' & eg' & E & W & _ & _ & U & _ & _ & _ & P & _); [reflexivity|].
  exists ht', eg'. split; [exact E|]. split; [exact W|]. split; [exact U|]. rewrite P. reflexivity.
Defined.

(** When the bucket array is full, [ZEND_HASH_IF_FULL_DO_RESIZE] either
    compacts (enough holes) or doubles the table; afterwards there is room, the
    entries are the same and the invariant holds.  It fails only when all 2^31
    buckets of the largest table are used. *)
Theorem resize_makes_room ht eg :
  ht_wf ht -> is_hashed ht = true ->
  match if_full_do_resize ht eg with
  | Ok (ht', eg') => ht_wf ht' /\ elems ht' = elems ht /\ nNumUsed ht' < nTableSize ht' /\
      iters_only eg eg'
  | Err e => e = Fatal /\ nTableSize ht = HT_MAX_SIZE /\ nNumUsed ht = HT_MAX_SIZE
  end.
Proof.
  intros Hwf Hh. destruct (if_full_do_resize_ok ht eg Hwf Hh)
    as [(-> & ? & ?)|(ht' & eg' & -> & Hroom & [[-> ->]|Hg])]; [done| |].
  - split; [done|]. split; [done|]. split; [done|reflexivity].
  - split; [apply Hg|]. split; [apply contents_eq_elems, Hg|]. split; [done|apply Hg].
Qed.

Lemma resize_makes_room_witness :
  match if_full_do_resize sample_hash sample_eg with
  | Ok (ht', _) => nNumUsed ht' < nTableSize ht' | Err _ => False end.
Proof.
  pose proof (resize_makes_room sample_hash sample_eg sample_hash_wf eq_refl) as H.
  destruct (if_full_do_resize sample_hash sample_eg) as [[ht' eg']|e] eqn:E.
  - apply H.
  - vm_compute in E. discriminate E.
Defined.

(** [zend_hash_packed_to_hash] turns any packed table into a hashed one
    with the same entries in the same order, whatever its holes. *)
Theorem packed_to_hash_correct ht eg :
  ht_wf ht -> f_packed ht = true ->
  exists ht' eg', zend_hash_packed_to_hash ht eg = Ok (ht', eg') /\ ht_wf ht' /\
  is_hashed ht' = true /\ elems ht' = elems ht /\ nTableSize ht' = nTableSize ht /\
  nNextFreeElement ht' = nNextFreeElement ht /\ same_table ht ht' /\ iters_only eg eg'.
Proof.
  intros Hwf Hp. destruct (packed_to_hash_ok ht eg Hwf Hp) as (ht' & eg' & E & [] & Hs).
  exists ht', eg'. do 3 (split; [done|]). split; [by apply contents_eq_elems|]. done.
Qed.

Lemma packed_to_hash_correct_witness :
  exists ht' eg', zend_hash_packed_to_hash sample_packed sample_eg = Ok (ht', eg') /\
  is_hashed ht' = true /\ elems ht' = elems sample_packed.
Proof.
  destruct (packed_to_hash_correct sample_packed sample_eg sample_packed_wf eq_refl)
    as (ht' & eg' & E & _ & H & He & _).
  exists ht', eg'. split; [exact E|]. split; [exact H|exact He].
Defined.
