(* ===== verification/HashInsert.v ===== *)
(** * The ordered hash table: what an insertion, a replacement or a growth
    step does to the abstract table (lemmas shared by the update functions) *)
From S2P Require Export HashGrow.

(** ** Executor states *)

(** [eg'] is [eg] after the events [ev], with the cells [c]; iterators keep
    their table and may have moved. *)
Record eg_step (ev : list event) (c : gmap addr zval) (eg eg' : EG) : Prop := mk_eg_step {
  es_used : ht_iterators_used eg' = ht_iterators_used eg;
  es_iters : map it_ht (ht_iterators eg') = map it_ht (ht_iterators eg);
  es_cells : cells eg' = c;
  es_serial : next_serial eg' = next_serial eg;
  es_events : events eg' = ev ++ events eg
}.

Lemma eg_step_iters ev c eg eg1 eg' :
  iters_only eg eg1 -> eg_step ev c eg1 eg' -> eg_step ev c eg eg'.
Proof. intros (?&?&?&?&?&?&?) []. split; congruence. Qed.

Lemma eg_step_iters_r ev c eg eg1 eg' :
  eg_step ev c eg eg1 -> iters_only eg1 eg' -> eg_step ev c eg eg'.
Proof. intros [] (?&?&?&?&?&?&?). split; congruence. Qed.

Lemma eg_step_refl eg : eg_step [] (cells eg) eg eg.
Proof. by split. Qed.

Lemma eg_step_trans ev1 ev2 c1 c2 eg1 eg2 eg3 :
  eg_step ev1 c1 eg1 eg2 -> eg_step ev2 c2 eg2 eg3 -> eg_step (ev2 ++ ev1) c2 eg1 eg3.
Proof. intros [] []. split; try congruence. rewrite <- app_assoc. congruence. Qed.

Lemma iters_only_step eg eg' : iters_only eg eg' -> eg_step [] (cells eg) eg eg'.
Proof. intros H. eapply eg_step_iters_r; [apply eg_step_refl|done]. Qed.

Definition dtor_events (ht : HashTable) (v : zval) : list event :=
  if pDestructor ht then [EvDtor v] else [].
Definition addref_events (s : zend_string) : list event :=
  if zs_interned s then [] else [EvAddref s].

Lemma run_dtor_step ht v eg : eg_step (dtor_events ht v) (cells eg) eg (run_dtor ht v eg).
Proof. unfold run_dtor, dtor_events. by destruct (pDestructor ht). Qed.

Lemma addref_step s eg : eg_step (addref_events s) (cells eg) eg (zend_string_addref s eg).
Proof. unfold zend_string_addref, addref_events. by destruct (zs_interned s). Qed.

Lemma set_cell_step a v eg : eg_step [] (<[a := v]> (cells eg)) eg (set_cell eg a v).
Proof. by split. Qed.

(** ** The key under a position *)
Definition pos_key (ht : HashTable) (p : Z) : option hkey :=
  if p =? HT_INVALID_IDX then None else bkey <$> arData ht !! Z.to_nat p.

(** The internal pointer stays on its key; the first element added gets it
    when there was none. *)
Definition ptr_after_insert (ht : HashTable) (k : hkey) : option hkey :=
  match pos_key ht (nInternalPointer ht) with Some k' => Some k' | None => Some k end.

Lemma pos_key_in ht i : Z.of_nat i <> HT_INVALID_IDX ->
  pos_key ht (Z.of_nat i) = bkey <$> arData ht !! i.
Proof. intros H. unfold pos_key. by rewrite (proj2 (Z.eqb_neq _ _) H), Nat2Z.id. Qed.

Lemma contents_rank d n i b :
  live d i b -> (i < n)%nat ->
  contents d n !! length (contents d i) = Some (clear_next b).
Proof.
  intros Hb Hi. rewrite (contents_split d n i b Hb Hi).
  by rewrite lookup_app_r, Nat.sub_diag by lia.
Qed.

(** Full data: the [i]-th entry of the contents is the [i]-th bucket. *)
Lemma contents_full_lookup d n i :
  (n <= length d)%nat -> length (contents d n) = n -> (i < n)%nat ->
  contents d n !! i = clear_next <$> d !! i.
Proof.
  intros Hn Hf Hi. destruct (contents_full d n Hn Hf i Hi) as [b Hb].
  assert (Hl : length (contents d i) = i).
  { apply contents_full_length; [lia|]. intros j Hj. apply (contents_full d n Hn Hf). lia. }
  rewrite <- Hl at 1. rewrite (contents_rank d n i b Hb Hi). by rewrite (proj1 Hb).
Qed.

Lemma regrown_pos_key ht ht' eg eg' : data_wf ht -> regrown ht ht' eg eg' ->
  pos_key ht' (nInternalPointer ht') = pos_key ht (nInternalPointer ht).
Proof.
  intros Hwf Hr. destruct (data_wf_len _ Hwf) as [Hu Hmax].
  pose proof (data_wf_len _ (wf_data _ (rg_wf _ _ _ _ Hr))) as [Hu' Hmax'].
  pose proof (rg_ptr _ _ _ _ Hr) as Hp. rewrite Hp.
  destruct (wf_position _ Hwf) as [->|(i & b & -> & Hi & Hb)]; [done|].
  assert (Hne : forall j, (j < used ht)%nat -> Z.of_nat j <> HT_INVALID_IDX)
    by (unfold HT_INVALID_IDX, HT_MAX_SIZE in *; lia).
  pose proof (contents_length_le (arData ht) i).
  unfold move_pos. rewrite (proj2 (Z.eqb_neq _ _) (Hne _ Hi)), Nat2Z.id.
  rewrite !pos_key_in by (apply Hne; lia). rewrite (proj1 Hb).
  pose proof (contents_rank _ _ _ _ Hb Hi) as Hrank. rewrite <- (rg_contents _ _ _ _ Hr) in Hrank.
  assert (Hfull : length (contents (arData ht') (used ht')) = used ht').
  { pose proof (wf_count _ (wf_data _ (rg_wf _ _ _ _ Hr))) as Hc.
    rewrite elems_contents_length, <- (rg_compact _ _ _ _ Hr) in Hc. unfold used in *. lia. }
  rewrite contents_full_lookup in Hrank; [|done|done|].
  - destruct (arData ht' !! _) as [c|]; [|done]. simpl in *. injection Hrank as H1 H2 H3.
    unfold bkey. by rewrite H2, H3.
  - apply lookup_lt_Some in Hrank. lia.
Qed.

(** ** Replacing a value *)
Lemma read_bucket ht eg i b :
  live (arData ht) i b -> read_zval ht eg (ZV_BUCKET (Z.of_nat i)) = Ok (b_val b).
Proof. intros [Hb _]. simpl. unfold get_bucket. by rewrite (aget_ok _ _ _ Hb). Qed.

Lemma write_bucket ht eg i b v :
  live (arData ht) i b -> write_zval ht eg (ZV_BUCKET (Z.of_nat i)) v =
  Ok (set_arData (<[i := set_b_val v b]> (arData ht)) ht, eg).
Proof.
  intros [Hb _]. pose proof (lookup_lt_Some _ _ _ Hb) as Hl. simpl.
  unfold get_bucket, set_bucket. rewrite (aget_ok _ _ _ Hb). rsimp.
  by rewrite aset_ok by done.
Qed.

(** A live bucket after the update of bucket [i], and the bucket it was. *)
Lemma live_insert d i b v j c :
  live d i b -> is_undef v = false -> live (<[i := set_b_val v b]> d) j c ->
  exists c', live d j c' /\ b_h c = b_h c' /\ b_key c = b_key c' /\ b_next c = b_next c'.
Proof.
  intros [Hb Hu] Hv [Hc Huc]. pose proof (lookup_lt_Some _ _ _ Hb) as Hlt.
  destruct (decide (j = i)) as [->|].
  - rewrite list_lookup_insert_eq in Hc by done. injection Hc as <-. by exists b.
  - rewrite list_lookup_insert_ne in Hc by done. by exists c.
Qed.

Lemma live_insert_2 d i b v j c :
  live d i b -> is_undef v = false -> live d j c -> exists c',
  live (<[i := set_b_val v b]> d) j c' /\ bkey c' = bkey c.
Proof.
  intros [Hb Hu] Hv [Hc Huc]. pose proof (lookup_lt_Some _ _ _ Hb) as Hlt.
  destruct (decide (j = i)) as [->|].
  - exists (set_b_val v b). rewrite Hb in Hc. injection Hc as <-.
    split; [|done]. split; [by apply list_lookup_insert_eq|done].
  - exists c. split; [|done]. split; [by rewrite list_lookup_insert_ne|done].
Qed.

Lemma in_slot_insert n s d i b v j :
  live d i b -> is_undef v = false ->
  in_slot n s (<[i := set_b_val v b]> d) j = in_slot n s d j.
Proof.
  intros [Hb Hu] Hv. pose proof (lookup_lt_Some _ _ _ Hb). unfold in_slot.
  destruct (decide (j = i)) as [->|].
  - rewrite list_lookup_insert_eq, Hb by done. simpl. by rewrite Hu, Hv.
  - by rewrite list_lookup_insert_ne by done.
Qed.

Lemma al_update_keys k v l : al_find k l <> None -> (al_update k v l).*1 = l.*1.
Proof.
  induction l as [|[k' v'] l IH]; simpl; [done|]. case_decide; [by subst|].
  intros Hf. change (k' :: (al_update k v l).*1 = k' :: l.*1). by rewrite IH.
Qed.

Lemma al_update_length k v l : al_find k l <> None -> length (al_update k v l) = length l.
Proof.
  intros H. rewrite <- (length_fmap fst), al_update_keys by done. apply length_fmap.
Qed.

Lemma replace_wf ht i b v :
  ht_wf ht -> (i < used ht)%nat -> live (arData ht) i b -> is_undef v = false ->
  let ht' := set_arData (<[i := set_b_val v b]> (arData ht)) ht in
  ht_wf ht' /\ elems ht' = al_update (bkey b) v (elems ht) /\
  pos_key ht' (nInternalPointer ht') = pos_key ht (nInternalPointer ht).
Proof.
  intros [Hwf Hp Hr] Hi Hb Hv ht'. pose proof (wf_keys _ Hwf) as Hnd.
  assert (He : elems ht' = al_update (bkey b) v (elems ht)).
  { apply (elems_of_update (arData ht) (used ht) i b (set_b_val v b) Hnd Hb Hi Hv). done. }
  assert (Hfind : al_find (bkey b) (elems ht) <> None)
    by (by unfold elems; rewrite (elems_of_find _ _ i b Hnd Hb Hi)).
  assert (Hk : (elems ht').*1 = (elems ht).*1) by (by rewrite He, al_update_keys).
  split; [|split; [done|]].
  - split; [split|done|]; try done; simpl.
    + apply Hwf.
    + apply Hwf.
    + rewrite length_insert. apply Hwf.
    + apply Hwf.
    + rewrite He, al_update_length by done. apply Hwf.
    + by rewrite Hk.
    + intros j c Hj Hc. destruct (live_insert _ _ _ _ _ _ Hb Hv Hc) as (c' & Hc' & E1 & E2 & _).
      unfold bucket_ok. rewrite E1, E2. by apply (wf_bucket _ Hwf j c').
    + intros Hs j c s Hj Hc. destruct (live_insert _ _ _ _ _ _ Hb Hv Hc) as (c' & Hc' & _ & -> & _).
      by apply (wf_static _ Hwf Hs j c').
    + apply Hwf.
    + rewrite Hk. apply Hwf.
    + destruct (wf_position _ Hwf) as [?|(j & c & ? & Hj & Hc)]; [by left|right].
      destruct (live_insert_2 _ _ _ v _ _ Hb Hv Hc) as (c' & Hc' & _). by exists j, c'.
    + change (is_hashed ht') with (is_hashed ht). destruct (is_hashed ht); destruct Hr as [R1 R2 R3].
      * split; [done|done|]. intros s Hs. destruct (R3 s Hs) as (head & Hh & Hc).
        exists head. split; [done|]. change (used ht') with (used ht).
        rewrite (slot_list_ext _ _ _ (arData ht)) by (intros; by apply in_slot_insert).
        eapply chain_ext; [|done]. intros j Hj. simpl. destruct (decide (j = i)) as [->|].
        -- rewrite list_lookup_insert_eq by (by eapply lookup_lt_Some, Hb). by rewrite (proj1 Hb).
        -- by rewrite list_lookup_insert_ne.
      * split; [done|done|]. intros j c Hj Hc.
        destruct (live_insert _ _ _ _ _ _ Hb Hv Hc) as (c' & Hc' & -> & -> & _). by apply R3.
  - unfold pos_key. simpl. destruct (_ =? _); [done|].
    destruct (decide (Z.to_nat (nInternalPointer ht) = i)) as [->|].
    + rewrite list_lookup_insert_eq by (by eapply lookup_lt_Some, Hb). by rewrite (proj1 Hb).
    + by rewrite list_lookup_insert_ne.
Qed.

(** ** Adding an element behind the used ones *)

(** The table after the counters, the pointer, the flags and the next free
    index have been updated for the new bucket [b], before it is written. *)
Record booked (ht ht1 : HashTable) (b : Bucket) : Prop := mk_booked {
  bk_hash : arHash ht1 = arHash ht;
  bk_data : arData ht1 = arData ht;
  bk_mask : nTableMask ht1 = nTableMask ht;
  bk_size : nTableSize ht1 = nTableSize ht;
  bk_packed : f_packed ht1 = f_packed ht;
  bk_init : f_initialized ht1 = f_initialized ht;
  bk_same : same_table ht ht1;
  bk_used : nNumUsed ht1 = nNumUsed ht + 1;
  bk_count : nNumOfElements ht1 = nNumOfElements ht + 1;
  bk_ptr : nInternalPointer ht1 = nInternalPointer ht \/
    (nInternalPointer ht = HT_INVALID_IDX /\ nInternalPointer ht1 = nNumUsed ht);
  bk_static : f_static_keys ht1 = true -> f_static_keys ht = true /\
    forall s, b_key b = Some s -> zs_interned s = true;
  bk_next : nNextFreeElement ht <= nNextFreeElement ht1 <= ZEND_LONG_MAX;
  bk_next_key : forall h, bkey b = KInt h ->
    s64 h < nNextFreeElement ht1 \/ nNextFreeElement ht1 = ZEND_LONG_MAX
}.

Record inserted (ht ht1 ht' : HashTable) (b : Bucket) : Prop := mk_inserted {
  ins_wf : ht_wf ht';
  ins_elems : elems ht' = elems ht ++ [(bkey b, b_val b)];
  ins_same : same_table ht ht';
  ins_at : exists n, arData ht' !! used ht = Some (set_b_next n b);
  ins_old : forall i, (i < used ht)%nat -> arData ht' !! i = arData ht !! i;
  ins_ptr : nInternalPointer ht' = nInternalPointer ht1;
  ins_next : nNextFreeElement ht' = nNextFreeElement ht1;
  ins_used : used ht' = S (used ht)
}.

(** The data part of the invariant, for any data [d'] that agrees with the
    old one on the used buckets and ends with the new one. *)
Lemma insert_data_wf ht ht1 ht' b n :
  data_wf ht -> booked ht ht1 b -> nNumUsed ht < nTableSize ht -> f_initialized ht = true ->
  bucket_ok b -> is_undef (b_val b) = false -> al_find (bkey b) (elems ht) = None ->
  arData ht' = <[used ht := set_b_next n b]> (arData ht) ->
  nNumUsed ht' = nNumUsed ht1 -> nNumOfElements ht' = nNumOfElements ht1 ->
  nTableSize ht' = nTableSize ht1 -> f_initialized ht' = f_initialized ht1 ->
  f_packed ht' = f_packed ht1 -> f_static_keys ht' = f_static_keys ht1 ->
  nNextFreeElement ht' = nNextFreeElement ht1 -> nInternalPointer ht' = nInternalPointer ht1 ->
  (f_packed ht = true -> b_key b = None) ->
  data_wf ht' /\ elems ht' = elems ht ++ [(bkey b, b_val b)].
Proof.
  intros Hwf [] Hroom Hin Hok Hv Hnew Ed Eu Ec Es Ei Ep Est En Eptr Hpk.
  pose proof (wf_used _ Hwf) as Hu. pose proof (wf_data_len _ Hwf) as Hl. rewrite Hin in Hl.
  assert (Hlt : (used ht < length (arData ht))%nat) by (unfold used; lia).
  assert (Hus : used ht' = S (used ht)) by (unfold used; lia).
  assert (He : elems ht' = elems ht ++ [(bkey b, b_val b)]).
  { unfold elems. fold (used ht') (used ht). rewrite Hus, Ed. by rewrite elems_of_snoc. }
  assert (Hlive : forall i c, (i < used ht')%nat -> live (arData ht') i c ->
    (i = used ht /\ c = set_b_next n b) \/ ((i < used ht)%nat /\ live (arData ht) i c)).
  { intros i c Hi [Hc Huc]. rewrite Ed in Hc. destruct (decide (i = used ht)) as [->|].
    - rewrite list_lookup_insert_eq in Hc by done. injection Hc as <-. by left.
    - rewrite list_lookup_insert_ne in Hc by done. right. split; [lia|done]. }
  split; [|done]. split.
  - rewrite Es, bk_size0. apply Hwf.
  - rewrite Eu, Es. lia.
  - rewrite Ed, length_insert, Ei, bk_init0, Hin, Es. lia.
  - rewrite Ei, bk_init0, Hin. done.
  - rewrite He, length_app, Ec, bk_count0, (wf_count _ Hwf). simpl. lia.
  - rewrite He, fmap_app. apply NoDup_app. split; [apply Hwf|]. split; [|apply NoDup_singleton].
    intros k Hk. simpl. apply al_find_None in Hnew. set_solver.
  - intros i c Hi Hc. destruct (Hlive i c Hi Hc) as [[_ ->]|[? ?]]; [done|].
    by apply (wf_bucket _ Hwf i c).
  - intros Hs i c s Hi Hc Hk. unfold HT_HAS_STATIC_KEYS_ONLY in Hs. rewrite Ep, Est, bk_packed0 in Hs.
    destruct (Hlive i c Hi Hc) as [[_ ->]|[? ?]]; simpl in Hk.
    + apply orb_prop in Hs as [Hs|Hs]; [by rewrite Hpk in Hk|]. by apply bk_static0.
    + apply (wf_static _ Hwf) with i c; try done. unfold HT_HAS_STATIC_KEYS_ONLY.
      apply orb_prop in Hs as [->|Hs]; [done|]. destruct (bk_static0 Hs) as [-> _]. apply orb_true_r.
  - rewrite En. pose proof (wf_next_free _ Hwf). lia.
  - intros h Hh. rewrite He, fmap_app in Hh. apply elem_of_app in Hh as [Hh|Hh]; rewrite En.
    + destruct (wf_next_free_keys _ Hwf h Hh); [left|right]; lia.
    + apply list_elem_of_singleton in Hh. by apply bk_next_key0.
  - rewrite Eptr. unfold position_ok. rewrite Hus, Ed. destruct bk_ptr0 as [->|[_ ->]].
    + destruct (wf_position _ Hwf) as [?|(i & c & ? & Hi & Hc)]; [by left|right].
      exists i, c. split; [done|]. split; [lia|]. split; [|apply Hc].
      rewrite list_lookup_insert_ne by lia. apply Hc.
    + right. exists (used ht), (set_b_next n b). split; [unfold used; lia|]. split; [lia|].
      split; [by apply list_lookup_insert_eq|done].
Qed.

Lemma insert_hashed ht ht1 b :
  ht_wf ht -> is_hashed ht = true -> nNumUsed ht < nTableSize ht -> booked ht ht1 b ->
  bucket_ok b -> is_undef (b_val b) = false -> al_find (bkey b) (elems ht) = None ->
  exists ht', hash_link ht1 (nNumUsed ht) b = Ok ht' /\ inserted ht ht1 ht' b.
Proof.
  intros Hwf Hh Hroom Hbk Hok Hv Hnew. pose proof (wf_data _ Hwf) as Hd.
  pose proof (repr_mask _ Hwf) as Hm. rewrite Hh in Hm. pose proof Hbk as [].
  pose proof (wf_used _ Hd) as Hu. pose proof (wf_data_len _ Hd) as Hl.
  pose proof Hh as [Hin Hpk]%andb_prop. rewrite Hin in Hl. apply negb_true_iff in Hpk.
  assert (Hlt : (used ht < length (arData ht))%nat) by (unfold used; lia).
  assert (Eu : nNumUsed ht = Z.of_nat (used ht)) by (unfold used; lia).
  assert (Hm1 : mask_ok ht1 (nTableSize ht)).
  { destruct Hm as (? & ? & ?). split; [done|]. split; congruence. }
  pose proof (proj1 (proj1 Hok)) as Hbh.
  destruct (hash_link_ok ht1 _ (used ht) b Hm1 Hbh) as (head & Hhd & E); [by rewrite bk_data0|].
  rewrite Eu, E. eexists. split; [done|].
  pose proof Hm as ((k & Hk & En) & _ & _). pose proof (pow2_range k Hk).
  pose proof (wf_repr _ Hwf) as Hr. rewrite Hh in Hr.
  assert (Hch : chains_ok (nTableSize ht) (arHash ht1) (arData ht1) (used ht)).
  { rewrite bk_hash0, bk_data0. apply Hr. }
  pose proof (chains_ok_link ht1 (nTableSize ht) (used ht) b head ltac:(lia) Hch ltac:(by rewrite bk_data0) Hv Hhd)
    as Hch'. set (ht' := linked _ _ _ _ _) in *.
  destruct (insert_data_wf ht ht1 ht' b head) as [Hd' He]; try done.
  { simpl. by rewrite bk_data0. }
  { by rewrite Hpk. }
  split; try done.
  - split; [done|simpl; congruence|].
    assert (Eh' : is_hashed ht' = true)
      by (unfold is_hashed; simpl; by rewrite bk_init0, bk_packed0, Hin, Hpk).
    rewrite Eh'. split; simpl.
    + rewrite bk_mask0, bk_size0. apply Hr.
    + rewrite length_insert, bk_hash0, bk_size0. apply Hr.
    + replace (used ht') with (S (used ht)) by (unfold used; simpl; lia). by rewrite bk_size0.
  - etrans; [exact bk_same0|by split].
  - exists head. simpl. rewrite bk_data0. by apply list_lookup_insert_eq.
  - intros i Hi. simpl. rewrite bk_data0. by rewrite list_lookup_insert_ne by lia.
  - unfold used. simpl. lia.
Qed.

(** Where the internal pointer is afterwards. *)
Lemma inserted_ptr ht ht1 ht' b :
  data_wf ht -> inserted ht ht1 ht' b ->
  nInternalPointer ht1 =
    (if nInternalPointer ht =? HT_INVALID_IDX then nNumUsed ht else nInternalPointer ht) ->
  pos_key ht' (nInternalPointer ht') = ptr_after_insert ht (bkey b).
Proof.
  intros Hwf [] Hp. destruct (data_wf_len _ Hwf) as [Hu Hmax]. pose proof (wf_used _ Hwf).
  rewrite ins_ptr0, Hp. unfold ptr_after_insert.
  destruct (wf_position _ Hwf) as [->|(i & c & -> & Hi & Hc)].
  - rewrite Z.eqb_refl. replace (nNumUsed ht) with (Z.of_nat (used ht)) by (unfold used; lia).
    rewrite pos_key_in by (unfold HT_INVALID_IDX, HT_MAX_SIZE in *; lia).
    destruct ins_at0 as [n ->]. done.
  - assert (Hne : Z.of_nat i <> HT_INVALID_IDX) by (unfold HT_INVALID_IDX, HT_MAX_SIZE in *; lia).
    rewrite (proj2 (Z.eqb_neq _ _) Hne), !pos_key_in, ins_old0 by done.
    by rewrite (proj1 Hc).
Qed.

Lemma deref_inserted ht ht1 ht' b eg : data_wf ht -> inserted ht ht1 ht' b ->
  deref ht' eg (Some (ZV_BUCKET (nNumUsed ht))) = Some (b_val b).
Proof.
  intros Hwf Hi. simpl. fold (used ht). by destruct (ins_at _ _ _ _ Hi) as [n ->].
Qed.

(** A pointer to the bucket of a key, or to a cell. *)
Definition ptr_of (ht : HashTable) (loc : hkey + addr) (r : option zval_ptr) : Prop :=
  match r, loc with
  | Some (ZV_BUCKET i), inl k => exists n b, i = Z.of_nat n /\ (n < used ht)%nat /\
      live (arData ht) n b /\ bkey b = k
  | Some (ZV_CELL a), inr a' => a = a'
  | None, _ => True
  | _, _ => False
  end.

Lemma ptr_of_inserted ht ht1 ht' b : data_wf ht -> is_undef (b_val b) = false ->
  inserted ht ht1 ht' b -> ptr_of ht' (inl (bkey b)) (Some (ZV_BUCKET (nNumUsed ht))).
Proof.
  intros Hwf Hv Hi. pose proof (wf_used _ Hwf) as Hu. destruct (ins_at _ _ _ _ Hi) as [n Hn].
  assert (Hl : live (arData ht') (used ht) (set_b_next n b)) by done.
  exists (used ht), (set_b_next n b). split; [unfold used; lia|]. split; [rewrite (ins_used _ _ _ _ Hi); lia|].
  by split.
Qed.

(** *** The bookkeeping *)
Lemma room_u32 ht : data_wf ht -> nNumUsed ht < nTableSize ht ->
  u32 (nNumUsed ht + 1) = nNumUsed ht + 1 /\ u32 (nNumOfElements ht + 1) = nNumOfElements ht + 1.
Proof.
  intros Hwf Hr. pose proof (wf_used _ Hwf). pose proof (data_wf_size _ Hwf).
  pose proof (wf_count _ Hwf) as Hc. rewrite elems_contents_length in Hc.
  pose proof (contents_length_le (arData ht) (used ht)). unfold HT_MAX_SIZE, used in *.
  split; apply u32_small; lia.
Qed.

Lemma bucket_room ht : data_wf ht -> f_initialized ht = true -> nNumUsed ht < nTableSize ht ->
  exists p, aget (arData ht) (nNumUsed ht) = Ok p.
Proof.
  intros Hwf Hin Hr. pose proof (wf_used _ Hwf). pose proof (wf_data_len _ Hwf) as Hl.
  rewrite Hin in Hl.
  destruct (lookup_lt_is_Some_2 (arData ht) (Z.to_nat (nNumUsed ht)) ltac:(lia)) as [p Hp].
  exists p. apply aget_okZ; [lia|done].
Qed.

Lemma count_new_data ht : arData (count_new ht) = arData ht.
Proof. unfold count_new. simpl. by destruct (_ =? _). Qed.

Lemma count_new_static ht : f_static_keys (count_new ht) = f_static_keys ht.
Proof. unfold count_new. simpl. by destruct (_ =? _). Qed.

Lemma count_new_next ht st :
  set_nNextFreeElement (nNextFreeElement ht) (set_f_static_keys st (count_new ht)) =
  set_f_static_keys st (count_new ht).
Proof. unfold count_new. simpl. by destruct (_ =? _). Qed.

Lemma count_new_ptr ht : nInternalPointer (count_new ht) =
  if nInternalPointer ht =? HT_INVALID_IDX then nNumUsed ht else nInternalPointer ht.
Proof. unfold count_new. simpl. by destruct (_ =? _). Qed.

Lemma count_new_booked ht st nx b :
  data_wf ht -> nNumUsed ht < nTableSize ht ->
  (st = true -> f_static_keys ht = true /\ forall s, b_key b = Some s -> zs_interned s = true) ->
  nNextFreeElement ht <= nx <= ZEND_LONG_MAX ->
  (forall h, bkey b = KInt h -> s64 h < nx \/ nx = ZEND_LONG_MAX) ->
  booked ht (set_nNextFreeElement nx (set_f_static_keys st (count_new ht))) b.
Proof.
  intros Hwf Hr Hst Hnx Hk. destruct (room_u32 ht Hwf Hr) as [Hu Hc].
  pose proof (count_new_ptr ht) as Hp. unfold count_new in *. simpl in *.
  destruct (Z.eqb_spec (nInternalPointer ht) HT_INVALID_IDX); split; simpl; auto; by split.
Qed.
