(* ===== verification/HashUpdate.v ===== *)
(** * The ordered hash table: adding and updating by string key
    ([_zend_hash_add_or_update_i], its entry points, [_zend_hash_append]) *)
From Stdlib Require Import Strings.Byte.
From S2P Require Export HashInsert HashChain.

(** ** Operations *)

(** The key as the bucket stores it: [zend_string_hash_val(key)] has filled the
    hash of a key that is not interned. *)
Definition hash_key (key : zend_string) : zend_string :=
  if zs_interned key then key
  else mk_zend_string (zs_val key) (zs_serial key) (zend_string_hash_val key) false.

(** [if (!ZSTR_IS_INTERNED(key)) { zend_string_addref(key); ht->u.flags &=
    ~HASH_FLAG_STATIC_KEYS; .. }] *)
Definition own_key (ht : HashTable) (key : zend_string) (eg : EG) : HashTable * EG :=
  if zs_interned key then (ht, eg)
  else (set_f_static_keys false ht, zend_string_addref key eg).

(** [add_to_hash:] of [_zend_hash_add_or_update_i]. *)
Definition str_add_to_hash (ht : HashTable) (key : zend_string) (pData : zval) (eg : EG)
    : res (HashTable * EG * option zval_ptr) :=
  let idx := nNumUsed ht in
  let ht := count_new ht in
  let eg := zend_hash_iterators_update ht HT_INVALID_IDX idx eg in
  let! p := get_bucket ht idx in
  let (ht, eg) := own_key ht key eg in
  let key := hash_key key in
  let! ht := hash_link ht idx (mkBucket pData (b_next p) (zs_h key) (Some key)) in
  Ok (ht, eg, Some (ZV_BUCKET idx)).

(** The branch for a key that is in the table: which value is written, if any. *)
Definition str_found_target (eg : EG) (p : Bucket) (idx flag : Z) : res (option zval_ptr) :=
  if has_flag flag HASH_ADD then
    if negb (has_flag flag HASH_UPDATE_INDIRECT) then Ok None
    else match b_val p with
    | IS_INDIRECT a =>
        let! data := get_cell eg a in
        Ok (if negb (is_undef data) then None else Some (ZV_CELL a))
    | _ => Ok None
    end
  else
    Ok (Some (match b_val p with
              | IS_INDIRECT a =>
                  if has_flag flag HASH_UPDATE_INDIRECT then ZV_CELL a else ZV_BUCKET idx
              | _ => ZV_BUCKET idx
              end)).

(** [if (ht->pDestructor) ht->pDestructor(data); ZVAL_COPY_VALUE(data, pData);] *)
Definition destroy_and_copy (ht : HashTable) (data : zval_ptr) (pData : zval) (eg : EG)
    : res (HashTable * EG * option zval_ptr) :=
  let! v := read_zval ht eg data in
  let eg := run_dtor ht v eg in
  let! (ht, eg) := write_zval ht eg data pData in
  Ok (ht, eg, Some data).

Definition resize_and_str_add (ht : HashTable) (key : zend_string) (pData : zval) (eg : EG)
    : res (HashTable * EG * option zval_ptr) :=
  let! (ht, eg) := if_full_do_resize ht eg in
  str_add_to_hash ht key pData eg.

Definition _zend_hash_add_or_update_i (ht : HashTable) (key : zend_string) (pData : zval)
    (flag : Z) (eg : EG) : res (HashTable * EG * option zval_ptr) :=
  if negb (f_initialized ht) then
    str_add_to_hash (zend_hash_check_init ht false eg) key pData eg
  else if f_packed ht then
    let! (ht, eg) := zend_hash_packed_to_hash ht eg in
    resize_and_str_add ht key pData eg
  else if negb (has_flag flag HASH_ADD_NEW) then
    let! p := zend_hash_find_bucket ht key in
    match p with
    | Some idx =>
        let! b := get_bucket ht idx in
        let! data := str_found_target eg b idx flag in
        match data with
        | None => Ok (ht, eg, None)
        | Some data => destroy_and_copy ht data pData eg
        end
    | None => resize_and_str_add ht key pData eg
    end
  else resize_and_str_add ht key pData eg.

Definition _zend_hash_add_or_update := _zend_hash_add_or_update_i.

Definition _zend_hash_add (ht : HashTable) (key : zend_string) (pData : zval) (eg : EG) :=
  _zend_hash_add_or_update_i ht key pData HASH_ADD eg.

Definition _zend_hash_update (ht : HashTable) (key : zend_string) (pData : zval) (eg : EG) :=
  _zend_hash_add_or_update_i ht key pData HASH_UPDATE eg.

Definition _zend_hash_update_ind (ht : HashTable) (key : zend_string) (pData : zval) (eg : EG) :=
  _zend_hash_add_or_update_i ht key pData (Z.lor HASH_UPDATE HASH_UPDATE_INDIRECT) eg.

Definition _zend_hash_add_new (ht : HashTable) (key : zend_string) (pData : zval) (eg : EG) :=
  _zend_hash_add_or_update_i ht key pData HASH_ADD_NEW eg.

(** The [char *] variants allocate a key, and drop their reference to it. *)
Definition with_new_key (ht : HashTable) (str : list char) (pData : zval) (flag : Z)
    (drop : zend_string -> EG -> EG) (eg : EG) : res (HashTable * EG * option zval_ptr) :=
  let (key, eg) := zend_string_init str eg in
  let! (ht, eg, ret) := _zend_hash_add_or_update_i ht key pData flag eg in
  Ok (ht, drop key eg, ret).

Definition _zend_hash_str_add_or_update (ht : HashTable) (str : list char) (pData : zval)
    (flag : Z) (eg : EG) :=
  with_new_key ht str pData flag zend_string_release eg.

Definition _zend_hash_str_update (ht : HashTable) (str : list char) (pData : zval) (eg : EG) :=
  with_new_key ht str pData HASH_UPDATE zend_string_release eg.

Definition _zend_hash_str_update_ind (ht : HashTable) (str : list char) (pData : zval) (eg : EG) :=
  with_new_key ht str pData (Z.lor HASH_UPDATE HASH_UPDATE_INDIRECT) zend_string_release eg.

Definition _zend_hash_str_add (ht : HashTable) (str : list char) (pData : zval) (eg : EG) :=
  with_new_key ht str pData HASH_ADD zend_string_release eg.

Definition _zend_hash_str_add_new (ht : HashTable) (str : list char) (pData : zval) (eg : EG) :=
  with_new_key ht str pData HASH_ADD_NEW zend_string_delref eg.

Definition zend_hash_add_empty_element (ht : HashTable) (key : zend_string) (eg : EG) :=
  _zend_hash_add ht key IS_NULL eg.

Definition zend_hash_str_add_empty_element (ht : HashTable) (str : list char) (eg : EG) :=
  _zend_hash_str_add ht str IS_NULL eg.

(** The inline appends of [zend_hash.h]: no lookup, no growth, and the internal
    pointer is left alone. *)
Definition append_bucket (ht : HashTable) (key : zend_string) (v : zval) (eg : EG)
    : res (HashTable * EG * option zval_ptr) :=
  let idx := nNumUsed ht in
  let ht := set_nNumUsed (u32 (idx + 1)) ht in
  let! p := get_bucket ht idx in
  let (ht, eg) := own_key ht key eg in
  let key := hash_key key in
  let! ht := hash_link ht idx (mkBucket v (b_next p) (zs_h key) (Some key)) in
  let ht := set_nNumUsed (u32 (idx + 1)) ht in
  let ht := set_nNumOfElements (u32 (nNumOfElements ht + 1)) ht in
  Ok (ht, eg, Some (ZV_BUCKET idx)).

Definition _zend_hash_append (ht : HashTable) (key : zend_string) (zv : zval) (eg : EG) :=
  append_bucket ht key zv eg.

Definition _zend_hash_append_ptr (ht : HashTable) (key : zend_string) (ptr : addr) (eg : EG) :=
  append_bucket ht key (IS_PTR ptr) eg.

Definition _zend_hash_append_ind (ht : HashTable) (key : zend_string) (ptr : addr) (eg : EG)
    : res (HashTable * EG) :=
  let! (ht, eg, _) := append_bucket ht key (IS_INDIRECT ptr) eg in Ok (ht, eg).

(** ** Specification *)

(** What [flag] asks for a key [k] and a value [v], on the abstract table [l]
    and the cells [c]: the new table and cells, and whether a pointer (to a
    zval holding [v]) is returned. *)
Definition spec_put (flag : Z) (k : hkey) (v : zval) (l : alist) (c : gmap addr zval)
    : alist * gmap addr zval * bool :=
  match al_find k l with
  | None => (al_update k v l, c, true)
  | Some (IS_INDIRECT a) =>
      if has_flag flag HASH_UPDATE_INDIRECT then
        if has_flag flag HASH_ADD && negb (is_undef (default IS_UNDEF (c !! a))) then (l, c, false)
        else (l, <[a := v]> c, true)
      else if has_flag flag HASH_ADD then (l, c, false) else (al_update k v l, c, true)
  | Some _ => if has_flag flag HASH_ADD then (l, c, false) else (al_update k v l, c, true)
  end.

(** Where the value is written: in the cell behind an indirect entry, or in the
    bucket of the key. *)
Definition spec_loc (flag : Z) (k : hkey) (l : alist) : hkey + addr :=
  match al_find k l with
  | Some (IS_INDIRECT a) => if has_flag flag HASH_UPDATE_INDIRECT then inr a else inl k
  | _ => inl k
  end.

(** The zval that is overwritten. *)
Definition spec_old (flag : Z) (k : hkey) (l : alist) (c : gmap addr zval) : option zval :=
  match al_find k l with
  | Some (IS_INDIRECT a) =>
      Some (if has_flag flag HASH_UPDATE_INDIRECT then default IS_UNDEF (c !! a) else IS_INDIRECT a)
  | o => o
  end.

Definition cells_ok (ht : HashTable) (eg : EG) : Prop :=
  forall k a, (k, IS_INDIRECT a) ∈ elems ht -> is_Some (cells eg !! a).

Definition cells_okb (ht : HashTable) (eg : EG) : bool :=
  forallb (fun kv : hkey * zval =>
    match kv.2 with IS_INDIRECT a => isSome (cells eg !! a) | _ => true end) (elems ht).

Lemma cells_okb_sound ht eg : cells_okb ht eg = true -> cells_ok ht eg.
Proof.
  unfold cells_okb. rewrite forallb_forall. intros H k a Hin.
  specialize (H (k, IS_INDIRECT a)). rewrite <- list_elem_of_In in H. specialize (H Hin).
  simpl in H. destruct (cells eg !! a); [by eexists|done].
Qed.

(** A result of an update: the table is well-formed and has the entries [l],
    the cells are [c] after the events [ev], and the returned pointer holds
    [o] at [loc], the bucket of a key or a cell. *)
Record put_result (ht : HashTable) (eg : EG) (loc : hkey + addr) (l : alist) (c : gmap addr zval) (ev : list event)
    (o : option zval) (ht' : HashTable) (eg' : EG) (r : option zval_ptr) : Prop := mk_put_result {
  pr_wf : ht_wf ht';
  pr_elems : elems ht' = l;
  pr_same : same_table ht ht';
  pr_step : eg_step ev c eg eg';
  pr_ret : deref ht' eg' r = o;
  pr_loc : ptr_of ht' loc r
}.

Lemma put_result_after ht ht1 eg eg1 loc l c ev o ht' eg' r :
  same_table ht ht1 -> iters_only eg eg1 ->
  put_result ht1 eg1 loc l c ev o ht' eg' r -> put_result ht eg loc l c ev o ht' eg' r.
Proof. intros Hs Hi []. split; try done; [by etrans|by eapply eg_step_iters]. Qed.

(** ** Adding *)
Lemma hash_key_ok key : zend_string_ok key ->
  zs_val (hash_key key) = zs_val key /\ zs_interned (hash_key key) = zs_interned key /\
  zs_h (hash_key key) = zend_inline_hash_func (zs_val key) /\ zend_string_ok (hash_key key).
Proof.
  intros Hk. unfold hash_key. destruct (zs_interned key) eqn:Ei; simpl.
  - destruct Hk as [[_ ?]|Hk]; [congruence|]. do 3 (split; [done|]). by right.
  - rewrite hash_val_ok by done. do 3 (split; [done|]). by right.
Qed.

Lemma new_bucket_ok key v n : zend_string_ok key ->
  bucket_ok (mkBucket v n (zs_h (hash_key key)) (Some (hash_key key))) /\
  bkey (mkBucket v n (zs_h (hash_key key)) (Some (hash_key key))) = KStr (zs_val key).
Proof.
  intros Hk. destruct (hash_key_ok key Hk) as (E1 & _ & E2 & E3).
  unfold bucket_ok, bkey. simpl. rewrite E1, E2. pose proof (hash_func_range (zs_val key)).
  split; [split; [lia|done]|done].
Qed.

(** The table after the counters, the pointer and the key's flags. *)
Lemma own_key_spec ht key eg : exists st,
  own_key ht key eg = (set_f_static_keys st ht, zend_string_addref key eg) /\
  (st = true -> f_static_keys ht = true /\ zs_interned key = true).
Proof.
  unfold own_key, zend_string_addref. destruct (zs_interned key).
  - exists (f_static_keys ht). split; [by destruct ht|done].
  - exists false. done.
Qed.

(** [add_to_hash] appends one bucket with the caller's key. *)
Lemma str_add_inserted ht key v eg :
  ht_wf ht -> is_hashed ht = true -> nNumUsed ht < nTableSize ht -> zend_string_ok key ->
  is_undef v = false -> al_find (KStr (zs_val key)) (elems ht) = None ->
  exists ht1 ht' b eg', str_add_to_hash ht key v eg = Ok (ht', eg', Some (ZV_BUCKET (nNumUsed ht))) /\
  inserted ht ht1 ht' b /\ b_val b = v /\ b_key b = Some (hash_key key) /\
  b_h b = zend_inline_hash_func (zs_val key) /\
  nInternalPointer ht1 = (if nInternalPointer ht =? HT_INVALID_IDX then nNumUsed ht else nInternalPointer ht) /\
  eg' = zend_string_addref key (zend_hash_iterators_update (count_new ht) HT_INVALID_IDX (nNumUsed ht) eg).
Proof.
  intros Hwf Hh Hroom Hk Hv Hnew. pose proof (wf_data _ Hwf) as Hd. unfold str_add_to_hash.
  set (eg1 := zend_hash_iterators_update _ _ _ _).
  destruct (bucket_room ht Hd (proj1 (andb_prop _ _ Hh)) Hroom) as [p Hp].
  unfold get_bucket. rewrite (count_new_data ht), Hp. rsimp.
  destruct (own_key_spec (count_new ht) key eg1) as (st & -> & Hst).
  destruct (new_bucket_ok key v (b_next p) Hk) as [Hbok Hbk]. set (b := mkBucket v _ _ _) in *.
  destruct (hash_key_ok key Hk) as (_ & Eint & Ehash & _).
  assert (Hbook : booked ht (set_f_static_keys st (count_new ht)) b).
  { rewrite <- (count_new_next ht st). apply count_new_booked; try done.
    - intros Hs. destruct (Hst Hs) as [? Hi]. split; [by rewrite <- (count_new_static ht)|].
      intros s [= <-]. congruence.
    - pose proof (wf_next_free _ Hd). lia. }
  rewrite <- Hbk in Hnew.
  destruct (insert_hashed ht _ b Hwf Hh Hroom Hbook Hbok Hv Hnew) as (ht' & E & Hi).
  rewrite E. rsimp. eexists _, ht', b, _. split; [reflexivity|]. split; [exact Hi|].
  do 3 (split; [done|]). split; [apply count_new_ptr|done].
Qed.

Lemma str_add_ok ht key v eg :
  ht_wf ht -> is_hashed ht = true -> nNumUsed ht < nTableSize ht -> zend_string_ok key ->
  is_undef v = false -> al_find (KStr (zs_val key)) (elems ht) = None ->
  exists ht' eg' r, str_add_to_hash ht key v eg = Ok (ht', eg', r) /\
  put_result ht eg (inl (KStr (zs_val key))) (al_update (KStr (zs_val key)) v (elems ht)) (cells eg) (addref_events key)
    (Some v) ht' eg' r /\
  pos_key ht' (nInternalPointer ht') = ptr_after_insert ht (KStr (zs_val key)).
Proof.
  intros Hwf Hh Hroom Hk Hv Hnew. pose proof (wf_data _ Hwf) as Hd.
  destruct (str_add_inserted ht key v eg) as (ht1 & ht' & b & eg' & E & Hi & Ev & Ek & _ & Hptr & ->); try done.
  set (eg1 := zend_hash_iterators_update _ _ _ _) in *. rewrite E.
  assert (Hbk : bkey b = KStr (zs_val key)) by (unfold bkey; rewrite Ek; f_equal; apply (hash_key_ok key Hk)).
  rewrite <- Ev in Hv. rewrite <- Hbk in Hnew |- *.
  eexists ht', _, _. split; [reflexivity|]. split; [|by apply (inserted_ptr _ _ _ _ Hd Hi)].
  split; try apply Hi.
  - rewrite al_update_new by done. rewrite <- Ev. apply Hi.
  - apply (eg_step_iters _ _ _ eg1); [apply iterators_update_only|].
    assert (Ec : cells eg1 = cells eg) by (apply iterators_update_only).
    rewrite <- Ec. apply addref_step.
  - rewrite <- Ev. by apply (deref_inserted _ _ _ b _ Hd Hi).
  - by apply (ptr_of_inserted _ _ _ b Hd Hv Hi).
Qed.

(** The table could not grow: all [HT_MAX_SIZE] buckets hold elements. *)
Definition table_full (ht : HashTable) : Prop :=
  nTableSize ht = HT_MAX_SIZE /\ nNumUsed ht = HT_MAX_SIZE.

Lemma ptr_after_regrown ht ht' eg eg' k : data_wf ht -> regrown ht ht' eg eg' ->
  ptr_after_insert ht' k = ptr_after_insert ht k.
Proof. intros Hwf Hr. unfold ptr_after_insert. by rewrite (regrown_pos_key _ _ _ _ Hwf Hr). Qed.

Lemma regrown_elems ht ht' eg eg' : regrown ht ht' eg eg' -> elems ht' = elems ht.
Proof. intros Hr. apply contents_eq_elems, Hr. Qed.

(** Growing when full, then an addition [add] that is correct given room. *)
Lemma resize_then_ok ht eg k v ev (Q : HashTable -> Prop)
    (add : HashTable -> EG -> res (HashTable * EG * option zval_ptr)) :
  ht_wf ht -> is_hashed ht = true -> al_find k (elems ht) = None ->
  (forall ht1 eg1, ht_wf ht1 -> is_hashed ht1 = true -> nNumUsed ht1 < nTableSize ht1 ->
    elems ht1 = elems ht -> nNextFreeElement ht1 = nNextFreeElement ht ->
    exists ht' eg' r, add ht1 eg1 = Ok (ht', eg', r) /\
    put_result ht1 eg1 (inl k) (al_update k v (elems ht1)) (cells eg1) ev (Some v) ht' eg' r /\
    pos_key ht' (nInternalPointer ht') = ptr_after_insert ht1 k /\ Q ht') ->
  (table_full ht /\ (let! (ht, eg) := if_full_do_resize ht eg in add ht eg) = Err Fatal) \/
  exists ht' eg' r, (let! (ht, eg) := if_full_do_resize ht eg in add ht eg) = Ok (ht', eg', r) /\
  put_result ht eg (inl k) (al_update k v (elems ht)) (cells eg) ev (Some v) ht' eg' r /\
  pos_key ht' (nInternalPointer ht') = ptr_after_insert ht k /\ Q ht'.
Proof.
  intros Hwf Hh Hnew Hadd. pose proof (wf_data _ Hwf) as Hd.
  destruct (if_full_do_resize_ok ht eg Hwf Hh) as [(-> & ? & ?)|(ht1 & eg1 & -> & Hroom & Hg)];
    [by left|right]. rsimp. destruct Hg as [[-> ->]|Hg]; [by apply Hadd|].
  pose proof (regrown_elems _ _ _ _ Hg) as He.
  destruct (Hadd ht1 eg1 (rg_wf _ _ _ _ Hg) (rg_hashed _ _ _ _ Hg) Hroom He (rg_next _ _ _ _ Hg))
    as (ht' & eg' & r & -> & Hp & Hpos & HQ).
  exists ht', eg', r. split; [done|]. rewrite He in Hp.
  rewrite (proj1 (proj2 (rg_iters _ _ _ _ Hg))) in Hp.
  split; [|by rewrite Hpos, (ptr_after_regrown _ _ _ _ _ Hd Hg)].
  by apply (put_result_after _ _ _ _ _ _ _ _ _ _ _ _ (rg_same _ _ _ _ Hg) (rg_iters _ _ _ _ Hg)).
Qed.

Lemma resize_and_str_add_ok ht key v eg :
  ht_wf ht -> is_hashed ht = true -> zend_string_ok key -> is_undef v = false ->
  al_find (KStr (zs_val key)) (elems ht) = None ->
  (table_full ht /\ resize_and_str_add ht key v eg = Err Fatal) \/
  exists ht' eg' r, resize_and_str_add ht key v eg = Ok (ht', eg', r) /\
  put_result ht eg (inl (KStr (zs_val key))) (al_update (KStr (zs_val key)) v (elems ht)) (cells eg) (addref_events key)
    (Some v) ht' eg' r /\
  pos_key ht' (nInternalPointer ht') = ptr_after_insert ht (KStr (zs_val key)).
Proof.
  intros Hwf Hh Hk Hv Hnew. unfold resize_and_str_add.
  destruct (resize_then_ok ht eg (KStr (zs_val key)) v (addref_events key) (fun _ => True)
    (fun ht eg => str_add_to_hash ht key v eg)) as [?|(ht' & eg' & r & E & Hp & Hq & _)]; try done.
  - intros ht1 eg1 Hwf1 Hh1 Hroom1 He _.
    destruct (str_add_ok ht1 key v eg1) as (ht' & eg' & r & ? & ? & ?); try done; [by rewrite He|].
    by exists ht', eg', r.
  - by left.
  - right. by exists ht', eg', r.
Qed.

(** ** Updating an existing key *)
Lemma destroy_and_copy_bucket ht eg i b v :
  ht_wf ht -> (i < used ht)%nat -> live (arData ht) i b -> is_undef v = false ->
  exists ht' eg' r, destroy_and_copy ht (ZV_BUCKET (Z.of_nat i)) v eg = Ok (ht', eg', r) /\
  put_result ht eg (inl (bkey b)) (al_update (bkey b) v (elems ht)) (cells eg) (dtor_events ht (b_val b))
    (Some v) ht' eg' r /\
  pos_key ht' (nInternalPointer ht') = pos_key ht (nInternalPointer ht) /\
  nNextFreeElement ht' = nNextFreeElement ht /\ is_hashed ht' = is_hashed ht.
Proof.
  intros Hwf Hi Hb Hv. unfold destroy_and_copy. rewrite (read_bucket ht eg i b Hb). rsimp.
  rewrite (write_bucket _ _ i b v Hb). rsimp.
  destruct (replace_wf ht i b v Hwf Hi Hb Hv) as (H1 & H2 & H3).
  eexists _, _, _. split; [reflexivity|]. split; [|done]. split; try done.
  - apply run_dtor_step.
  - simpl. rewrite Nat2Z.id, list_lookup_insert_eq; [done|]. by eapply lookup_lt_Some, Hb.
  - exists i, (set_b_val v b). split; [done|]. split; [done|]. split; [|done]. split; [|done].
    simpl. apply list_lookup_insert_eq. by eapply lookup_lt_Some, Hb.
Qed.

Lemma destroy_and_copy_cell ht eg a w v :
  ht_wf ht -> cells eg !! a = Some w ->
  exists eg' r, destroy_and_copy ht (ZV_CELL a) v eg = Ok (ht, eg', r) /\
  put_result ht eg (inr a) (elems ht) (<[a := v]> (cells eg)) (dtor_events ht w) (Some v) ht eg' r.
Proof.
  intros Hwf Hc. unfold destroy_and_copy. simpl. unfold get_cell. rewrite Hc. rsimp.
  assert (Ec : cells (run_dtor ht w eg) = cells eg) by apply run_dtor_step.
  eexists _, _. split; [reflexivity|]. split; try done.
  - pose proof (run_dtor_step ht w eg) as [].
    split; simpl; try done. by rewrite Ec.
  - simpl. apply lookup_insert_eq.
Qed.

Lemma found_elem ht i b : (i < used ht)%nat -> live (arData ht) i b -> (bkey b, b_val b) ∈ elems ht.
Proof. intros Hi Hb. apply elems_of_in. exists i, b. done. Qed.

(** The branch for an existing key does what the specification says. *)
Lemma str_update_found ht eg i b flag v :
  ht_wf ht -> (i < used ht)%nat -> live (arData ht) i b -> is_undef v = false -> cells_ok ht eg ->
  let '(l', c', wrote) := spec_put flag (bkey b) v (elems ht) (cells eg) in
  exists ht' eg' r,
  (let! data := str_found_target eg b (Z.of_nat i) flag in
   match data with
   | None => Ok (ht, eg, None)
   | Some data => destroy_and_copy ht data v eg
   end) = Ok (ht', eg', r) /\
  put_result ht eg (spec_loc flag (bkey b) (elems ht)) l' c'
    (if wrote then dtor_events ht (default IS_UNDEF (spec_old flag (bkey b) (elems ht) (cells eg)))
     else [])
    (if wrote then Some v else None) ht' eg' r /\
  pos_key ht' (nInternalPointer ht') = pos_key ht (nInternalPointer ht) /\
  (wrote = false -> ht' = ht /\ eg' = eg /\ r = None).
Proof.
  intros Hwf Hi Hb Hv Hcells.
  assert (Ef : al_find (bkey b) (elems ht) = Some (b_val b))
    by (apply (elems_of_find _ _ i b); [apply Hwf|done|done]).
  assert (Hnone : forall loc, put_result ht eg loc (elems ht) (cells eg) [] None ht eg None).
  { by split. }
  pose proof (destroy_and_copy_bucket ht eg i b v Hwf Hi Hb Hv) as (ht1 & eg1 & r1 & E1 & P1 & Q1 & _).
  unfold spec_put, spec_old, spec_loc, str_found_target. rewrite Ef.
  destruct (b_val b) as [| | | | | | | | | | |a|] eqn:Ev;
    try (destruct (has_flag flag HASH_ADD); [destruct (has_flag flag HASH_UPDATE_INDIRECT)|];
         simpl; first [by exists ht, eg, None | by exists ht1, eg1, r1]).
  destruct (Hcells (bkey b) a) as [w Hw]; [rewrite <- Ev; by apply (found_elem ht i)|].
  destruct (destroy_and_copy_cell ht eg a w v Hwf Hw) as (eg2 & r2 & E2 & P2).
  unfold get_cell. rewrite Hw. simpl.
  destruct (has_flag flag HASH_ADD), (has_flag flag HASH_UPDATE_INDIRECT); simpl;
    try destruct (is_undef w); simpl;
    first [by exists ht, eg, None | by exists ht, eg2, r2 | by exists ht1, eg1, r1].
Qed.

(** ** The whole operation *)
Definition str_put_events (ht : HashTable) (key : zend_string) (flag : Z) (eg : EG) (wrote : bool)
    : list event :=
  let k := KStr (zs_val key) in
  match al_find k (elems ht) with
  | None => addref_events key
  | Some _ => if wrote
              then dtor_events ht (default IS_UNDEF (spec_old flag k (elems ht) (cells eg)))
              else []
  end.

Definition ptr_after_put (ht : HashTable) (k : hkey) : option hkey :=
  match al_find k (elems ht) with
  | None => ptr_after_insert ht k
  | Some _ => pos_key ht (nInternalPointer ht)
  end.

(** [m] is a correct outcome of putting [v] at [k] with [flag]. *)
Definition put_correct (ht : HashTable) (eg : EG) (flag : Z) (k : hkey) (v : zval)
    (evs : bool -> list event) (m : res (HashTable * EG * option zval_ptr)) : Prop :=
  (table_full ht /\ al_find k (elems ht) = None /\ m = Err Fatal) \/
  exists ht' eg' r, m = Ok (ht', eg', r) /\
  let '(l', c', wrote) := spec_put flag k v (elems ht) (cells eg) in
  put_result ht eg (spec_loc flag k (elems ht)) l' c' (evs wrote) (if wrote then Some v else None) ht' eg' r /\
  pos_key ht' (nInternalPointer ht') = ptr_after_put ht k /\
  (wrote = false -> ht' = ht /\ eg' = eg /\ r = None).

(** An addition that is correct is a correct outcome when the key is new. *)
Lemma put_correct_new ht eg flag k v evs m :
  al_find k (elems ht) = None ->
  (table_full ht /\ m = Err Fatal) \/
  (exists ht' eg' r, m = Ok (ht', eg', r) /\
   put_result ht eg (inl k) (al_update k v (elems ht)) (cells eg) (evs true) (Some v) ht' eg' r /\
   pos_key ht' (nInternalPointer ht') = ptr_after_insert ht k) ->
  put_correct ht eg flag k v evs m.
Proof.
  intros Hnew [[? ?]|(ht' & eg' & r & Hm & Hp & Hq)]; [by left|]. right.
  exists ht', eg', r. split; [done|]. unfold spec_put, spec_loc, ptr_after_put. rewrite Hnew. done.
Qed.

Lemma str_new_in_packed ht s : ht_wf ht -> is_hashed ht = false ->
  al_find (KStr s) (elems ht) = None.
Proof.
  intros Hwf Hh. apply elems_of_find_None. intros i b Hi Hb Hk.
  destruct (not_hashed_int ht (KStr s) i b Hwf Hh) as (h & ? & _); [|done]. by split.
Qed.

Lemma init_hash_ok ht packed eg : ht_wf ht -> f_initialized ht = false ->
  let ht' := zend_hash_check_init ht packed eg in
  ht_wf ht' /\ elems ht' = elems ht /\ elems ht = [] /\ is_hashed ht' = negb packed /\
  f_packed ht' = packed /\ same_table ht ht' /\ nNextFreeElement ht' = nNextFreeElement ht /\
  nNumUsed ht' = 0 /\ nNumUsed ht' < nTableSize ht' /\ nTableSize ht' = nTableSize ht /\
  forall k, ptr_after_insert ht' k = ptr_after_insert ht k.
Proof.
  intros Hwf Hi ht'. pose proof (check_init_ok ht packed eg Hwf) as H. cbv zeta in H. fold ht' in H.
  clearbody ht'. destruct H as (H1 & H2 & H3 & H4 & H5 & H6 & _ & H8).
  destruct (H8 Hi) as [Hp Hu]. destruct (uninit_unused _ (wf_data _ Hwf) Hi) as (_ & _ & He & Hptr).
  pose proof (data_wf_size _ (wf_data _ H1)) as Hsz.
  split; [done|]. split; [done|]. split; [done|].
  split; [unfold is_hashed; by rewrite H3, Hp|]. do 4 (split; [done|]). split; [lia|]. split; [done|].
  intros k. unfold ptr_after_insert. rewrite Hptr.
  assert (Hptr' : nInternalPointer ht' = HT_INVALID_IDX).
  { destruct (wf_position _ (wf_data _ H1)) as [?|(i & b & _ & Hlt & _)]; [done|].
    unfold used in Hlt. rewrite Hu in Hlt. simpl in Hlt. lia. }
  by rewrite Hptr'.
Qed.

Lemma str_put_after_convert ht key v eg flag :
  ht_wf ht -> f_packed ht = true -> zend_string_ok key -> is_undef v = false ->
  put_correct ht eg flag (KStr (zs_val key)) v (str_put_events ht key flag eg)
    (let! (ht, eg) := zend_hash_packed_to_hash ht eg in resize_and_str_add ht key v eg).
Proof.
  intros Hwf Hp Hk Hv. assert (Hh : is_hashed ht = false)
    by (unfold is_hashed; rewrite Hp; apply andb_false_r).
  pose proof (str_new_in_packed ht (zs_val key) Hwf Hh) as Hnew.
  apply put_correct_new; [done|].
  destruct (packed_to_hash_ok ht eg Hwf Hp) as (ht1 & eg1 & -> & Hg & Hsz). rsimp.
  pose proof (regrown_elems _ _ _ _ Hg) as He. pose proof (wf_used _ (wf_data _ Hwf)) as Hu.
  pose proof (data_wf_size _ (wf_data _ Hwf)) as Hs.
  destruct (resize_and_str_add_ok ht1 key v eg1) as [[[Hf1 Hf2] Hm]|(ht' & eg' & r & Hm & Hpr & Hq)];
    try apply Hg; try done; [by rewrite He| |].
  - left. split; [|done]. split; [congruence|].
    rewrite (rg_compact _ _ _ _ Hg), (rg_count _ _ _ _ Hg), (wf_count _ (wf_data _ Hwf)),
      elems_contents_length in Hf2.
    pose proof (contents_length_le (arData ht) (used ht)). unfold used in *. lia.
  - right. exists ht', eg', r. split; [done|].
    rewrite He, (proj1 (proj2 (rg_iters _ _ _ _ Hg))) in Hpr. unfold str_put_events. rewrite Hnew.
    split; [|by rewrite Hq, (ptr_after_regrown _ _ _ _ _ (wf_data _ Hwf) Hg)].
    by apply (put_result_after _ _ _ _ _ _ _ _ _ _ _ _ (rg_same _ _ _ _ Hg) (rg_iters _ _ _ _ Hg)).
Qed.

Lemma str_put_hashed ht key v eg flag :
  ht_wf ht -> is_hashed ht = true -> zend_string_ok key -> is_undef v = false ->
  al_find (KStr (zs_val key)) (elems ht) = None ->
  put_correct ht eg flag (KStr (zs_val key)) v (str_put_events ht key flag eg)
    (resize_and_str_add ht key v eg).
Proof.
  intros Hwf Hh Hk Hv Hnew. apply put_correct_new; [done|]. unfold str_put_events. rewrite Hnew.
  by apply resize_and_str_add_ok.
Qed.

Lemma add_or_update_ok ht key v flag eg :
  ht_wf ht -> zend_string_ok key -> is_undef v = false -> cells_ok ht eg ->
  (has_flag flag HASH_ADD_NEW = true -> al_find (KStr (zs_val key)) (elems ht) = None) ->
  put_correct ht eg flag (KStr (zs_val key)) v (str_put_events ht key flag eg)
    (_zend_hash_add_or_update_i ht key v flag eg).
Proof.
  intros Hwf Hk Hv Hcells Hnewflag. unfold _zend_hash_add_or_update_i.
  destruct (f_initialized ht) eqn:Ei; cbn [negb].
  2: { destruct (init_hash_ok ht false eg Hwf Ei) as (H1 & H2 & H3 & H4 & H5 & H6 & H7 & H8 & H9 & _ & H10).
    apply put_correct_new; [by rewrite H3|right].
    destruct (str_add_ok (zend_hash_check_init ht false eg) key v eg) as (ht' & eg' & r & E & Hp & Hq);
      try done; [by rewrite H2, H3|].
    exists ht', eg', r. split; [done|]. rewrite H2 in Hp. unfold str_put_events. rewrite H3 at 2.
    split; [|by rewrite Hq, H10]. by eapply put_result_after. }
  destruct (f_packed ht) eqn:Ep; [by apply str_put_after_convert|].
  assert (Hh : is_hashed ht = true) by (unfold is_hashed; by rewrite Ei, Ep).
  destruct (has_flag flag HASH_ADD_NEW) eqn:En; cbn [negb]; [apply str_put_hashed; auto|].
  destruct (find_bucket_ok ht key Hwf Hk) as (r & -> & Hr). rsimp.
  destruct r as [i|]; simpl.
  - destruct Hr as (b & Hi & Hb & Hkb). unfold get_bucket. rewrite (aget_ok _ _ _ (proj1 Hb)). rsimp.
    pose proof (str_update_found ht eg i b flag v Hwf Hi Hb Hv Hcells) as Hf. rewrite Hkb in Hf.
    assert (Efind : al_find (KStr (zs_val key)) (elems ht) = Some (b_val b)).
    { rewrite <- Hkb. apply (elems_of_find _ _ i b); [apply Hwf|done|done]. }
    right. unfold str_put_events, ptr_after_put. rewrite Efind.
    destruct (spec_put _ _ _ _ _) as [[l' c'] wrote]. exact Hf.
  - apply str_put_hashed; try done. apply elems_of_find_None. intros i b Hi Hb Hkb.
    apply (Hr i b). done.
Qed.

(** *** Properties *)

(** C1: For every flag, [_zend_hash_add_or_update_i] on a well-formed table keeps
    the table well-formed and does to its entries and to the cells behind
    [IS_INDIRECT] values what [spec_put] says: replace in place, append in
    insertion order, or refuse; the destructor runs exactly on the value
    replaced, a new key that is not interned gets one reference, the internal
    pointer stays on its key, and the returned pointer holds the new value.  The
    only error is the fatal one for a table of 2^31 elements. *)
Theorem add_or_update_correct ht key v flag eg :
  ht_wf ht -> zend_string_ok key -> is_undef v = false -> cells_ok ht eg ->
  (has_flag flag HASH_ADD_NEW = true -> al_find (KStr (zs_val key)) (elems ht) = None) ->
  put_correct ht eg flag (KStr (zs_val key)) v (str_put_events ht key flag eg)
    (_zend_hash_add_or_update_i ht key v flag eg).
Proof. apply add_or_update_ok. Qed.

Lemma add_or_update_correct_witness :
  put_correct sample_hash sample_eg HASH_UPDATE (KStr ["a"%byte]) (IS_LONG 2)
    (str_put_events sample_hash (sample_key ["a"%byte]) HASH_UPDATE sample_eg)
    (_zend_hash_add_or_update_i sample_hash (sample_key ["a"%byte]) (IS_LONG 2) HASH_UPDATE
       sample_eg).
Proof.
  apply (add_or_update_correct sample_hash (sample_key ["a"%byte])).
  - exact sample_hash_wf.
  - right. reflexivity.
  - reflexivity.
  - apply cells_okb_sound. vm_compute. reflexivity.
  - intros H. vm_compute in H. discriminate H.
Defined.
