(* ===== verification/HashIndex.v ===== *)
(** * The ordered hash table: adding and updating by integer key
    ([_zend_hash_index_add_or_update_i] and its entry points) *)
From S2P Require Export HashUpdate.

(** ** Operations *)

(** [if ((zend_long)h >= (zend_long)ht->nNextFreeElement) {
    ht->nNextFreeElement = h < ZEND_LONG_MAX ? h + 1 : ZEND_LONG_MAX; }] *)
Definition update_next_free (ht : HashTable) (h : Z) : HashTable :=
  if nNextFreeElement ht <=? s64 h then
    set_nNextFreeElement (if h <? ZEND_LONG_MAX then h + 1 else ZEND_LONG_MAX) ht
  else ht.

(** [add_to_hash:] *)
Definition index_add_to_hash (ht : HashTable) (h : Z) (pData : zval) (eg : EG)
    : res (HashTable * EG * option zval_ptr) :=
  let idx := nNumUsed ht in
  let ht := count_new ht in
  let eg := zend_hash_iterators_update ht HT_INVALID_IDX idx eg in
  let ht := update_next_free ht h in
  let! p := get_bucket ht idx in
  let! ht := hash_link ht idx (mkBucket pData (b_next p) h None) in
  Ok (ht, eg, Some (ZV_BUCKET idx)).

(** [while (q != p) { ZVAL_UNDEF(&q->val); q++; }] over [n] buckets. *)
Fixpoint undef_buckets (n : nat) (ht : HashTable) (q : Z) {struct n} : res HashTable :=
  match n with
  | O => Ok ht
  | S n =>
      let! b := get_bucket ht q in
      let! ht := set_bucket ht q (set_b_val IS_UNDEF b) in
      undef_buckets n ht (q + 1)
  end.

(** [add_to_packed:] *)
Definition add_to_packed (ht : HashTable) (h : Z) (pData : zval) (flag : Z) (eg : EG)
    : res (HashTable * EG * option zval_ptr) :=
  let both := Z.lor HASH_ADD_NEW HASH_ADD_NEXT in
  let! ht :=
    if Z.land flag both =? both then Ok (set_nNumUsed (u32 (h + 1)) ht)
    else if nNumUsed ht <=? h then
      let! ht := if nNumUsed ht <? h
                 then undef_buckets (Z.to_nat (h - nNumUsed ht)) ht (nNumUsed ht) else Ok ht in
      Ok (set_nNumUsed (u32 (h + 1)) ht)
    else Ok ht in
  let ht := set_nNumOfElements (u32 (nNumOfElements ht + 1)) ht in
  let ht := if nInternalPointer ht =? HT_INVALID_IDX then set_nInternalPointer (u32 h) ht else ht in
  let eg := zend_hash_iterators_update ht HT_INVALID_IDX (u32 h) eg in
  let ht := update_next_free ht h in
  let! p := get_bucket ht h in
  let! ht := set_bucket ht h (mkBucket pData (b_next p) h None) in
  Ok (ht, eg, Some (ZV_BUCKET h)).

Definition resize_and_index_add (ht : HashTable) (h : Z) (pData : zval) (eg : EG)
    : res (HashTable * EG * option zval_ptr) :=
  let! (ht, eg) := if_full_do_resize ht eg in
  index_add_to_hash ht h pData eg.

(** [convert_to_hash:] *)
Definition convert_to_hash (ht : HashTable) (h : Z) (pData : zval) (eg : EG)
    : res (HashTable * EG * option zval_ptr) :=
  let! (ht, eg) := zend_hash_packed_to_hash ht eg in
  resize_and_index_add ht h pData eg.

Definition _zend_hash_index_add_or_update_i (ht : HashTable) (h : Z) (pData : zval)
    (flag : Z) (eg : EG) : res (HashTable * EG * option zval_ptr) :=
  if negb (f_initialized ht) then
    let ht := zend_hash_check_init ht (h <? nTableSize ht) eg in
    if h <? nTableSize ht then add_to_packed ht h pData flag eg
    else index_add_to_hash ht h pData eg
  else if f_packed ht then
    if h <? nNumUsed ht then
      let! p := get_bucket ht h in
      if negb (is_undef (b_val p)) then
        if has_flag flag HASH_ADD then Ok (ht, eg, None)
        else destroy_and_copy ht (ZV_BUCKET h) pData eg
      else convert_to_hash ht h pData eg
    else if h <? nTableSize ht then add_to_packed ht h pData flag eg
    else if (Z.shiftr h 1 <? nTableSize ht)
            && (Z.shiftr (nTableSize ht) 1 <? nNumOfElements ht) then
      let! ht := zend_hash_packed_grow ht eg in
      add_to_packed ht h pData flag eg
    else convert_to_hash ht h pData eg
  else if negb (has_flag flag HASH_ADD_NEW) then
    let! p := zend_hash_index_find_bucket ht h in
    match p with
    | Some idx =>
        if has_flag flag HASH_ADD then Ok (ht, eg, None)
        else
          let! (ht, eg, ret) := destroy_and_copy ht (ZV_BUCKET idx) pData eg in
          Ok (update_next_free ht h, eg, ret)
    | None => resize_and_index_add ht h pData eg
    end
  else resize_and_index_add ht h pData eg.

Definition _zend_hash_index_add_or_update := _zend_hash_index_add_or_update_i.

Definition _zend_hash_index_add (ht : HashTable) (h : Z) (pData : zval) (eg : EG) :=
  _zend_hash_index_add_or_update_i ht h pData HASH_ADD eg.

Definition _zend_hash_index_add_new (ht : HashTable) (h : Z) (pData : zval) (eg : EG) :=
  _zend_hash_index_add_or_update_i ht h pData (Z.lor HASH_ADD HASH_ADD_NEW) eg.

Definition _zend_hash_index_update (ht : HashTable) (h : Z) (pData : zval) (eg : EG) :=
  _zend_hash_index_add_or_update_i ht h pData HASH_UPDATE eg.

Definition _zend_hash_next_index_insert (ht : HashTable) (pData : zval) (eg : EG) :=
  _zend_hash_index_add_or_update_i ht (u64 (nNextFreeElement ht)) pData
    (Z.lor HASH_ADD HASH_ADD_NEXT) eg.

Definition _zend_hash_next_index_insert_new (ht : HashTable) (pData : zval) (eg : EG) :=
  _zend_hash_index_add_or_update_i ht (u64 (nNextFreeElement ht)) pData
    (Z.lor (Z.lor HASH_ADD HASH_ADD_NEW) HASH_ADD_NEXT) eg.

Definition zend_hash_index_add_empty_element (ht : HashTable) (h : Z) (eg : EG) :=
  _zend_hash_index_add ht h IS_NULL eg.

(** ** Specification *)

(** An integer update on the abstract table: the new table, and whether a
    pointer is returned. *)
Definition spec_index_put (flag h : Z) (v : zval) (l : alist) : alist * bool :=
  match al_find (KInt h) l with
  | Some _ => if has_flag flag HASH_ADD then (l, false) else (al_update (KInt h) v l, true)
  | None => (al_update (KInt h) v l, true)
  end.

(** [nNextFreeElement] after a new integer key. *)
Definition spec_next (h next : Z) : Z :=
  if next <=? s64 h then if h <? ZEND_LONG_MAX then h + 1 else ZEND_LONG_MAX else next.

Definition index_put_events (ht : HashTable) (h : Z) (wrote : bool) : list event :=
  match al_find (KInt h) (elems ht) with
  | Some old => if wrote then dtor_events ht old else []
  | None => []
  end.

(** [m] is a correct outcome of putting [v] at the integer [h]. *)
Definition index_put_correct (ht : HashTable) (eg : EG) (flag h : Z) (v : zval)
    (m : res (HashTable * EG * option zval_ptr)) : Prop :=
  (nTableSize ht = HT_MAX_SIZE /\ al_find (KInt h) (elems ht) = None /\ m = Err Fatal) \/
  exists ht' eg' r, m = Ok (ht', eg', r) /\
  let '(l', wrote) := spec_index_put flag h v (elems ht) in
  put_result ht eg (inl (KInt h)) l' (cells eg) (index_put_events ht h wrote) (if wrote then Some v else None)
    ht' eg' r /\
  pos_key ht' (nInternalPointer ht') = ptr_after_put ht (KInt h) /\
  nNextFreeElement ht' = match al_find (KInt h) (elems ht) with
    | None => spec_next h (nNextFreeElement ht) | Some _ => nNextFreeElement ht end /\
  (wrote = false -> ht' = ht /\ eg' = eg /\ r = None).

(** ** Adding to a hashed table *)
Lemma spec_next_ok h next : 0 <= h < 2 ^ 64 -> 0 <= next <= ZEND_LONG_MAX ->
  next <= spec_next h next <= ZEND_LONG_MAX /\
  (s64 h < spec_next h next \/ spec_next h next = ZEND_LONG_MAX).
Proof.
  unfold spec_next, ZEND_LONG_MAX. intros Hh Hn. destruct (Z.leb_spec next (s64 h)) as [Hle|].
  - assert (h < 2 ^ 63).
    { destruct (Z.ltb_spec h (2 ^ 63)); [done|]. exfalso.
      assert (s64 h = h - 2 ^ 64); [|lia]. unfold s64.
      replace (h + 2 ^ 63) with ((h - 2 ^ 63) + 1 * 2 ^ 64) by lia.
      rewrite Z.mod_add, Z.mod_small; lia. }
    rewrite s64_small in * by lia. zcases; lia.
  - lia.
Qed.

Lemma update_next_free_eq ht h :
  update_next_free ht h = set_nNextFreeElement (spec_next h (nNextFreeElement ht)) ht.
Proof. unfold update_next_free, spec_next. destruct (_ <=? _); [done|by destruct ht]. Qed.

Lemma index_bucket_ok h v n : 0 <= h < 2 ^ 64 -> bucket_ok (mkBucket v n h None).
Proof. by split. Qed.

Lemma index_add_ok ht h v eg :
  ht_wf ht -> is_hashed ht = true -> nNumUsed ht < nTableSize ht -> 0 <= h < 2 ^ 64 ->
  is_undef v = false -> al_find (KInt h) (elems ht) = None ->
  exists ht' eg' r, index_add_to_hash ht h v eg = Ok (ht', eg', r) /\
  put_result ht eg (inl (KInt h)) (al_update (KInt h) v (elems ht)) (cells eg) [] (Some v) ht' eg' r /\
  pos_key ht' (nInternalPointer ht') = ptr_after_insert ht (KInt h) /\
  nNextFreeElement ht' = spec_next h (nNextFreeElement ht).
Proof.
  intros Hwf Hh Hroom Hr Hv Hnew. pose proof (wf_data _ Hwf) as Hd. unfold index_add_to_hash.
  set (eg1 := zend_hash_iterators_update _ _ _ _).
  destruct (bucket_room ht Hd (proj1 (andb_prop _ _ Hh)) Hroom) as [p Hp].
  rewrite update_next_free_eq. unfold get_bucket. cbn [arData set_nNextFreeElement].
  rewrite (count_new_data ht), Hp. rsimp.
  pose proof (index_bucket_ok h v (b_next p) Hr) as Hbok. set (b := mkBucket v _ _ _) in *.
  assert (En : nNextFreeElement (count_new ht) = nNextFreeElement ht)
    by (unfold count_new; simpl; by destruct (_ =? _)). rewrite En.
  destruct (spec_next_ok h _ Hr (wf_next_free _ Hd)) as [Hn1 Hn2].
  assert (Hbook : booked ht (set_nNextFreeElement (spec_next h (nNextFreeElement ht)) (count_new ht)) b).
  { assert (Es : count_new ht = set_f_static_keys (f_static_keys ht) (count_new ht))
      by (unfold count_new; simpl; by destruct (_ =? _)).
    rewrite Es. apply count_new_booked; try done. intros h' [= <-]. done. }
  destruct (insert_hashed ht _ b Hwf Hh Hroom Hbook Hbok Hv Hnew) as (ht' & E & Hi).
  rewrite E. rsimp. eexists ht', _, _. split; [reflexivity|]. split; [|split].
  - split; try apply Hi.
    + rewrite al_update_new by done. apply (ins_elems _ _ _ _ Hi).
    + apply iters_only_step, iterators_update_only.
    + by apply (deref_inserted _ _ _ b _ Hd Hi).
    + by apply (ptr_of_inserted _ _ _ b Hd Hv Hi).
  - apply (inserted_ptr _ _ _ _ Hd Hi). apply count_new_ptr.
  - pose proof (ins_next _ _ _ _ Hi) as ->. done.
Qed.

Lemma resize_and_index_add_ok ht h v eg :
  ht_wf ht -> is_hashed ht = true -> 0 <= h < 2 ^ 64 -> is_undef v = false ->
  al_find (KInt h) (elems ht) = None ->
  (table_full ht /\ resize_and_index_add ht h v eg = Err Fatal) \/
  exists ht' eg' r, resize_and_index_add ht h v eg = Ok (ht', eg', r) /\
  put_result ht eg (inl (KInt h)) (al_update (KInt h) v (elems ht)) (cells eg) [] (Some v) ht' eg' r /\
  pos_key ht' (nInternalPointer ht') = ptr_after_insert ht (KInt h) /\
  nNextFreeElement ht' = spec_next h (nNextFreeElement ht).
Proof.
  intros Hwf Hh Hr Hv Hnew. unfold resize_and_index_add.
  apply (resize_then_ok ht eg (KInt h) v []
    (fun ht' => nNextFreeElement ht' = spec_next h (nNextFreeElement ht))
    (fun ht eg => index_add_to_hash ht h v eg)); try done.
  intros ht1 eg1 Hwf1 Hh1 Hroom1 He <-. apply index_add_ok; try done. by rewrite He.
Qed.

(** ** Adding to a packed table *)
Lemma undef_buckets_ok n ht (q : nat) :
  (q + n <= length (arData ht))%nat -> exists d,
  undef_buckets n ht (Z.of_nat q) = Ok (set_arData d ht) /\ length d = length (arData ht) /\
  (forall i, (i < q \/ q + n <= i)%nat -> d !! i = arData ht !! i) /\
  (forall i b, (q <= i < q + n)%nat -> d !! i = Some b -> is_undef (b_val b) = true).
Proof.
  revert ht q. induction n as [|n IH]; intros ht q Hl.
  - exists (arData ht). split; [by destruct ht|]. split; [done|]. split; [done|]. intros; lia.
  - destruct (lookup_lt_is_Some_2 (arData ht) q ltac:(lia)) as [b Hb]. cbn [undef_buckets].
    unfold get_bucket, set_bucket. rewrite (aget_ok _ _ _ Hb). rsimp.
    rewrite aset_ok by lia. rsimp. replace (Z.of_nat q + 1) with (Z.of_nat (S q)) by lia.
    set (ht1 := set_arData _ ht).
    destruct (IH ht1 (S q)) as (d & -> & Hd & H1 & H2).
    { unfold ht1. simpl. rewrite length_insert. lia. }
    exists d. split; [done|]. split; [rewrite Hd; apply length_insert|]. split.
    + intros i Hi. rewrite H1 by lia. unfold ht1. simpl. by rewrite list_lookup_insert_ne by lia.
    + intros i c Hi Hc. destruct (decide (i = q)) as [->|]; [|apply (H2 i c); [lia|done]].
      rewrite H1 in Hc by lia. unfold ht1 in Hc. simpl in Hc.
      rewrite list_lookup_insert_eq in Hc by lia. by injection Hc as <-.
Qed.

Lemma contents_trim d n m :
  (m <= n)%nat -> (forall i b, (m <= i < n)%nat -> d !! i = Some b -> is_undef (b_val b) = true) ->
  contents d n = contents d m.
Proof.
  intros Hle H. induction n as [|n IH]; [by replace m with 0%nat by lia|].
  destruct (decide (m = S n)) as [->|]; [done|].
  rewrite <- IH by (lia || (intros; apply H with i; [lia|done])).
  destruct (d !! n) as [b|] eqn:E.
  - rewrite (contents_S d n b E). unfold is_live. rewrite (H n b) by (lia || done).
    by rewrite app_nil_r.
  - apply lookup_ge_None in E. unfold contents. by rewrite !firstn_all2 by lia.
Qed.

(** Undefined buckets up to [h] may be counted as used. *)
Lemma extend_used_wf ht d (h : nat) :
  ht_wf ht -> f_packed ht = true -> (used ht <= h)%nat -> Z.of_nat h <= nTableSize ht ->
  length d = length (arData ht) -> (forall i, (i < used ht)%nat -> d !! i = arData ht !! i) ->
  (forall i b, (used ht <= i < h)%nat -> d !! i = Some b -> is_undef (b_val b) = true) ->
  let ht' := set_nNumUsed (Z.of_nat h) (set_arData d ht) in
  ht_wf ht' /\ elems ht' = elems ht /\
  pos_key ht' (nInternalPointer ht') = pos_key ht (nInternalPointer ht).
Proof.
  intros [Hwf Hp Hr] Hpk Hle Hh Hl Hsame Hun ht'. pose proof (Hp Hpk) as Hin.
  destruct (data_wf_len _ Hwf) as [Hul Hmax].
  assert (Hus : used ht' = h) by (unfold used; simpl; lia).
  assert (Hc : contents (arData ht') (used ht') = contents (arData ht) (used ht)).
  { rewrite Hus. change (arData ht') with d. rewrite (contents_trim d h (used ht)) by done.
    apply contents_ext. intros i Hi. by rewrite Hsame. }
  assert (Hpos : nInternalPointer ht = HT_INVALID_IDX \/ exists i b, nInternalPointer ht = Z.of_nat i /\
    (i < used ht)%nat /\ live (arData ht) i b) by apply Hwf.
  assert (Hd : data_wf ht').
  { apply (data_wf_contents ht); try done; simpl.
    - apply Hwf.
    - lia.
    - rewrite Hl. apply Hwf.
    - by rewrite Hin.
    - destruct Hpos as [?|(i & b & ? & Hi & Hb)]; [by left|right]. exists i, b.
      rewrite Hus. split; [done|]. split; [lia|]. split; [|apply Hb]. simpl.
      by rewrite Hsame by done; apply Hb. }
  split; [|split; [by apply contents_eq_elems|]].
  - split; [done|done|]. change (is_hashed ht') with (is_hashed ht). unfold is_hashed in *.
    rewrite Hpk, andb_false_r in *. split; simpl; [apply (wf_p_mask _ Hr)|apply (wf_p_hash _ Hr)|].
    rewrite Hus. intros i b Hi [Hb Hu]. destruct (decide (i < used ht)%nat).
    + apply (wf_p_keys _ Hr); [done|]. split; [|done]. by rewrite <- Hsame.
    + exfalso. rewrite (Hun i b) in Hu by (lia || done). done.
  - simpl. destruct Hpos as [->|(i & b & -> & Hi & Hb)]; [done|].
    rewrite !pos_key_in by (unfold HT_INVALID_IDX, HT_MAX_SIZE in *; lia).
    change (arData ht') with d. by rewrite Hsame.
Qed.

(** Writing the bucket behind the used ones of a packed table. *)
Lemma insert_packed ht ht1 v n :
  ht_wf ht -> f_packed ht = true -> nNumUsed ht < nTableSize ht ->
  let b := mkBucket v n (nNumUsed ht) None in booked ht ht1 b -> is_undef v = false ->
  inserted ht ht1 (set_arData (<[used ht := b]> (arData ht1)) ht1) b.
Proof.
  intros [Hwf Hp Hr] Hpk Hroom b Hbk Hv. pose proof (Hp Hpk) as Hin. pose proof Hbk as [].
  pose proof (wf_used _ Hwf) as Hu. pose proof (data_wf_size _ Hwf) as Hsz. unfold HT_MAX_SIZE in Hsz.
  pose proof (wf_data_len _ Hwf) as Hl. rewrite Hin in Hl.
  assert (Hlt : (used ht < length (arData ht))%nat) by (unfold used; lia).
  set (ht' := set_arData _ ht1). unfold is_hashed in Hr. rewrite Hpk, andb_false_r in Hr.
  assert (Hnew : al_find (bkey b) (elems ht) = None).
  { apply elems_of_find_None. intros i c Hi Hc Hk. fold (used ht) in Hi.
    destruct (wf_p_keys _ Hr i c Hi Hc) as [E1 E2].
    unfold bkey in Hk. rewrite E2, E1 in Hk. injection Hk as Hk. unfold used in *. lia. }
  assert (Hok : bucket_ok b) by (apply index_bucket_ok; lia).
  assert (Ed : arData ht' = <[used ht := set_b_next n b]> (arData ht)).
  { unfold ht'. simpl. by rewrite bk_data. }
  destruct (insert_data_wf ht ht1 ht' b n) as [Hd' He]; try done.
  split; try done.
  - split; [done|simpl; congruence|]. unfold is_hashed. simpl.
    rewrite bk_packed, Hpk, andb_false_r. split; simpl.
    + rewrite bk_mask. apply (wf_p_mask _ Hr).
    + rewrite bk_hash. apply (wf_p_hash _ Hr).
    + intros i c Hi [Hc Huc]. rewrite bk_data in Hc. unfold used in Hi. simpl in Hi.
      destruct (decide (i = used ht)) as [->|].
      * rewrite list_lookup_insert_eq in Hc by done. injection Hc as <-. simpl.
        split; [unfold used; lia|done].
      * rewrite list_lookup_insert_ne in Hc by done.
        apply (wf_p_keys _ Hr); [unfold used in *; lia|done].
  - etrans; [exact bk_same|by split].
  - exists n. rewrite Ed. by apply list_lookup_insert_eq.
  - intros i Hi. rewrite Ed. by rewrite list_lookup_insert_ne by lia.
  - unfold used. simpl. lia.
Qed.

(** The first statement of [add_to_packed]: the buckets below [h] are
    undefined or used, and [h] is counted. *)
Definition packed_gap (ht : HashTable) (h flag : Z) : res HashTable :=
  let both := Z.lor HASH_ADD_NEW HASH_ADD_NEXT in
  if Z.land flag both =? both then Ok (set_nNumUsed (u32 (h + 1)) ht)
  else if nNumUsed ht <=? h then
    let! ht := if nNumUsed ht <? h
               then undef_buckets (Z.to_nat (h - nNumUsed ht)) ht (nNumUsed ht) else Ok ht in
    Ok (set_nNumUsed (u32 (h + 1)) ht)
  else Ok ht.

Definition appends_next (flag : Z) : bool :=
  let both := Z.lor HASH_ADD_NEW HASH_ADD_NEXT in Z.land flag both =? both.

Lemma packed_gap_ok ht h flag :
  ht_wf ht -> f_packed ht = true -> nNumUsed ht <= h < nTableSize ht ->
  (appends_next flag = true -> h = nNumUsed ht) ->
  exists mid, packed_gap ht h flag = Ok (set_nNumUsed (u32 (h + 1)) mid) /\
  ht_wf mid /\ nNumUsed mid = h /\ elems mid = elems ht /\ same_table ht mid /\
  f_packed mid = true /\ nTableSize mid = nTableSize ht /\
  nNextFreeElement mid = nNextFreeElement ht /\
  pos_key mid (nInternalPointer mid) = pos_key ht (nInternalPointer ht).
Proof.
  intros Hwf Hpk Hh Hboth. pose proof (wf_data _ Hwf) as Hd. pose proof (wf_used _ Hd) as Hu.
  pose proof (wf_data_len _ Hd) as Hl. rewrite (wf_packed_init _ Hwf Hpk) in Hl.
  unfold packed_gap. fold (appends_next flag). destruct (appends_next flag) eqn:Ef.
  { rewrite (Hboth eq_refl). exists ht. done. }
  destruct (Z.leb_spec (nNumUsed ht) h); [|lia].
  destruct (Z.ltb_spec (nNumUsed ht) h); [|exists ht; replace h with (nNumUsed ht) by lia; done].
  destruct (undef_buckets_ok (Z.to_nat (h - nNumUsed ht)) ht (used ht)) as (d & E & Hld & H1 & H2);
    [unfold used; lia|].
  replace (Z.of_nat (used ht)) with (nNumUsed ht) in E by (unfold used; lia). rewrite E. rsimp.
  destruct (extend_used_wf ht d (Z.to_nat h)) as (W & He & Hp); try done.
  - unfold used. lia.
  - lia.
  - intros i Hi. apply H1. lia.
  - intros i b Hi. apply H2. unfold used in *. lia.
  - rewrite Z2Nat.id in W, He, Hp by lia.
    exists (set_nNumUsed h (set_arData d ht)). repeat (split; [done|]). done.
Qed.

Lemma packed_counted mid h :
  nNumUsed mid = h -> 0 <= h < 2 ^ 32 ->
  let ht := set_nNumUsed (u32 (h + 1)) mid in
  let ht := set_nNumOfElements (u32 (nNumOfElements ht + 1)) ht in
  (if nInternalPointer ht =? HT_INVALID_IDX then set_nInternalPointer (u32 h) ht else ht) =
  count_new mid.
Proof. intros <- Hh. unfold count_new. simpl. by rewrite (u32_small (nNumUsed mid)). Qed.

Lemma add_to_packed_ok ht h v flag eg :
  ht_wf ht -> f_packed ht = true -> nNumUsed ht <= h < nTableSize ht -> is_undef v = false ->
  (appends_next flag = true -> h = nNumUsed ht) ->
  exists ht' eg' r, add_to_packed ht h v flag eg = Ok (ht', eg', r) /\
  put_result ht eg (inl (KInt h)) (elems ht ++ [(KInt h, v)]) (cells eg) [] (Some v) ht' eg' r /\
  pos_key ht' (nInternalPointer ht') = ptr_after_insert ht (KInt h) /\
  nNextFreeElement ht' = spec_next h (nNextFreeElement ht).
Proof.
  intros Hwf Hpk Hh Hv Hboth. pose proof (data_wf_size _ (wf_data _ Hwf)) as Hsz.
  pose proof (wf_used _ (wf_data _ Hwf)) as Hu. unfold HT_MAX_SIZE in Hsz.
  destruct (packed_gap_ok ht h flag Hwf Hpk Hh Hboth)
    as (mid & E & Wm & Um & Em & Sm & Pm & Zm & Nm & Qm).
  unfold add_to_packed. fold (packed_gap ht h flag). cbv zeta. rewrite E. rsimp.
  rewrite (packed_counted mid h Um) by lia. set (eg1 := zend_hash_iterators_update _ _ _ _).
  pose proof (wf_data _ Wm) as Hd. rewrite <- Um in *.
  destruct (bucket_room mid Hd (wf_packed_init _ Wm Pm) ltac:(lia)) as [p Hp].
  rewrite update_next_free_eq. unfold get_bucket, set_bucket. cbn [arData set_nNextFreeElement].
  rewrite (count_new_data mid), Hp. rsimp.
  assert (En : nNextFreeElement (count_new mid) = nNextFreeElement mid)
    by (unfold count_new; simpl; by destruct (_ =? _)). rewrite En.
  destruct (spec_next_ok (nNumUsed mid) _ ltac:(lia) (wf_next_free _ Hd)) as [Hn1 Hn2].
  assert (Hlt : (used mid < length (arData mid))%nat).
  { pose proof (wf_data_len _ Hd) as Hl. rewrite (wf_packed_init _ Wm Pm) in Hl. unfold used. lia. }
  rewrite aset_okZ by (unfold used in Hlt; lia). rsimp.
  assert (Hbook : booked mid (set_nNextFreeElement (spec_next (nNumUsed mid) (nNextFreeElement mid))
     (count_new mid)) (mkBucket v (b_next p) (nNumUsed mid) None)).
  { assert (Es : count_new mid = set_f_static_keys (f_static_keys mid) (count_new mid))
      by (unfold count_new; simpl; by destruct (_ =? _)).
    rewrite Es. apply count_new_booked; try done; [lia|]. intros h' [= <-]. done. }
  pose proof (insert_packed mid _ v (b_next p) Wm Pm ltac:(lia) Hbook Hv) as Hi.
  eexists _, _, _. split; [reflexivity|]. cbn [arData set_nNextFreeElement] in Hi.
  rewrite (count_new_data mid) in Hi. split; [|split].
  - rewrite <- Em. split; [apply Hi|apply (ins_elems _ _ _ _ Hi)| | | |].
    + etrans; [exact Sm|apply Hi].
    + apply iters_only_step, iterators_update_only.
    + by apply (deref_inserted _ _ _ _ _ Hd Hi).
    + exact (ptr_of_inserted _ _ _ (mkBucket v (b_next p) (nNumUsed mid) None) Hd Hv Hi).
  - etrans; [exact (inserted_ptr _ _ _ _ Hd Hi (count_new_ptr mid))|].
    unfold ptr_after_insert, bkey. simpl. by rewrite Qm.
  - etrans; [exact (ins_next _ _ _ _ Hi)|]. simpl. by rewrite Nm.
Qed.

(** ** The whole operation *)
Lemma index_put_correct_new ht eg flag h v m :
  al_find (KInt h) (elems ht) = None ->
  (nTableSize ht = HT_MAX_SIZE /\ m = Err Fatal) \/
  (exists ht' eg' r, m = Ok (ht', eg', r) /\
   put_result ht eg (inl (KInt h)) (al_update (KInt h) v (elems ht)) (cells eg) [] (Some v) ht' eg' r /\
   pos_key ht' (nInternalPointer ht') = ptr_after_insert ht (KInt h) /\
   nNextFreeElement ht' = spec_next h (nNextFreeElement ht)) ->
  index_put_correct ht eg flag h v m.
Proof.
  intros Hnew [[? ?]|(ht' & eg' & r & Hm & Hp & Hq & Hn)]; [by left|]. right.
  exists ht', eg', r. split; [done|].
  unfold spec_index_put, index_put_events, ptr_after_put. rewrite Hnew. done.
Qed.

Lemma packed_not_hashed ht : f_packed ht = true -> is_hashed ht = false.
Proof. intros H. unfold is_hashed. rewrite H. apply andb_false_r. Qed.

Lemma packed_key_pos ht h i b : ht_wf ht -> f_packed ht = true -> key_at ht (KInt h) i b ->
  h = Z.of_nat i.
Proof.
  intros Hwf Hp Hk.
  by destruct (not_hashed_int ht _ i b Hwf (packed_not_hashed _ Hp) Hk) as (h' & [= <-] & ->).
Qed.

Lemma packed_new ht h : ht_wf ht -> f_packed ht = true -> nNumUsed ht <= h ->
  al_find (KInt h) (elems ht) = None.
Proof.
  intros Hwf Hp Hh. apply elems_of_find_None. intros i b Hi Hb Hk.
  pose proof (packed_key_pos ht h i b Hwf Hp) as E. rewrite E in Hh by done. lia.
Qed.

Lemma convert_to_hash_ok ht h v flag eg :
  ht_wf ht -> f_packed ht = true -> 0 <= h < 2 ^ 64 -> is_undef v = false ->
  al_find (KInt h) (elems ht) = None ->
  index_put_correct ht eg flag h v (convert_to_hash ht h v eg).
Proof.
  intros Hwf Hp Hr Hv Hnew. apply index_put_correct_new; [done|]. unfold convert_to_hash.
  destruct (packed_to_hash_ok ht eg Hwf Hp) as (ht1 & eg1 & -> & Hg & Hsz). rsimp.
  pose proof (regrown_elems _ _ _ _ Hg) as He.
  destruct (resize_and_index_add_ok ht1 h v eg1) as
    [[[Hf1 _] Hm]|(ht' & eg' & r & Hm & Hpr & Hq & Hn)]; try apply Hg; try done; [by rewrite He| |].
  - left. split; [congruence|done].
  - right. exists ht', eg', r. split; [done|].
    rewrite He, (proj1 (proj2 (rg_iters _ _ _ _ Hg))) in Hpr.
    rewrite Hq, (ptr_after_regrown _ _ _ _ _ (wf_data _ Hwf) Hg), Hn, (rg_next _ _ _ _ Hg).
    split; [|done].
    by apply (put_result_after _ _ _ _ _ _ _ _ _ _ _ _ (rg_same _ _ _ _ Hg) (rg_iters _ _ _ _ Hg)).
Qed.

(** Adding past the used buckets of a packed table, possibly grown. *)
Lemma packed_put_ok ht ht1 h v flag eg :
  ht_wf ht -> al_find (KInt h) (elems ht) = None ->
  ht_wf ht1 -> elems ht1 = elems ht -> same_table ht ht1 ->
  nNextFreeElement ht1 = nNextFreeElement ht ->
  (forall k, ptr_after_insert ht1 k = ptr_after_insert ht k) ->
  f_packed ht1 = true -> nNumUsed ht1 <= h < nTableSize ht1 -> is_undef v = false ->
  (appends_next flag = true -> h = nNumUsed ht1) ->
  index_put_correct ht eg flag h v (add_to_packed ht1 h v flag eg).
Proof.
  intros Hwf Hnew Hwf1 He Hs Hn Hptr Hp Hh Hv Hf. apply index_put_correct_new; [done|right].
  destruct (add_to_packed_ok ht1 h v flag eg Hwf1 Hp Hh Hv Hf) as (ht' & eg' & r & E & Hpr & Hq & Hn').
  exists ht', eg', r. split; [done|]. rewrite al_update_new, <- He by done.
  rewrite Hq, Hptr, Hn', Hn. split; [|done].
  apply (put_result_after ht ht1 eg eg); [done|reflexivity|done].
Qed.

Lemma index_put_hashed ht h v eg flag :
  ht_wf ht -> is_hashed ht = true -> 0 <= h < 2 ^ 64 -> is_undef v = false ->
  al_find (KInt h) (elems ht) = None ->
  index_put_correct ht eg flag h v (resize_and_index_add ht h v eg).
Proof.
  intros Hwf Hh Hr Hv Hnew. apply index_put_correct_new; [done|].
  destruct (resize_and_index_add_ok ht h v eg Hwf Hh Hr Hv Hnew) as [[[? _] ?]|?]; [by left|by right].
Qed.

(** An existing key. *)
Lemma index_put_found ht eg h i b flag v :
  ht_wf ht -> key_at ht (KInt h) i b -> is_undef v = false ->
  index_put_correct ht eg flag h v
    (if has_flag flag HASH_ADD then Ok (ht, eg, None)
     else destroy_and_copy ht (ZV_BUCKET (Z.of_nat i)) v eg).
Proof.
  intros Hwf (Hi & Hb & Hk) Hv. right.
  assert (Ef : al_find (KInt h) (elems ht) = Some (b_val b)).
  { rewrite <- Hk. apply (elems_of_find _ _ i b); [apply Hwf|done|done]. }
  destruct (destroy_and_copy_bucket ht eg i b v Hwf Hi Hb Hv) as (ht' & eg' & r & E & Hp & Hq & Hn & _).
  unfold spec_index_put, index_put_events, ptr_after_put. rewrite Ef.
  destruct (has_flag flag HASH_ADD).
  - exists ht, eg, None. split; [done|]. split; [|done]. by split.
  - exists ht', eg', r. rewrite <- Hk. by split.
Qed.

(** [update_next_free] changes nothing for a key that is in the table. *)
Lemma update_next_free_id ht h : data_wf ht -> 0 <= h < 2 ^ 64 -> KInt h ∈ (elems ht).*1 ->
  update_next_free ht h = ht.
Proof.
  intros Hwf Hh Hin. unfold update_next_free.
  destruct (Z.leb_spec (nNextFreeElement ht) (s64 h)); [|done].
  destruct (wf_next_free_keys _ Hwf h Hin) as [?|E]; [lia|].
  assert (Hb : s64 h < 2 ^ 63) by apply s64_range.
  destruct (Z.ltb_spec h ZEND_LONG_MAX) as [Hlt|]; [|rewrite <- E; by destruct ht].
  unfold ZEND_LONG_MAX in *. rewrite s64_small in * by lia. lia.
Qed.

Lemma grown_ptr ht ht' eg size k : data_wf ht -> recopied eg size ht ht' ->
  (forall i, (i < used ht)%nat -> arData ht' !! i = arData ht !! i) ->
  ptr_after_insert ht' k = ptr_after_insert ht k.
Proof.
  intros Hwf (_ & _ & _ & _ & _ & Hp & _) Hl. destruct (data_wf_len _ Hwf) as [Hu Hmax].
  unfold ptr_after_insert. rewrite Hp.
  destruct (wf_position _ Hwf) as [->|(i & b & -> & Hi & Hb)]; [done|].
  rewrite !pos_key_in by (unfold HT_INVALID_IDX, HT_MAX_SIZE in *; lia). by rewrite Hl.
Qed.

Lemma index_put_packed ht h v flag eg :
  ht_wf ht -> f_packed ht = true -> 0 <= h < 2 ^ 64 -> is_undef v = false ->
  (appends_next flag = true -> h = nNumUsed ht) ->
  index_put_correct ht eg flag h v (_zend_hash_index_add_or_update_i ht h v flag eg).
Proof.
  intros Hwf Hp Hr Hv Hf. pose proof (wf_data _ Hwf) as Hd.
  unfold _zend_hash_index_add_or_update_i. rewrite (wf_packed_init _ Hwf Hp), Hp. cbn [negb].
  destruct (data_wf_len _ Hd) as [Hul _]. pose proof (wf_used _ Hd) as Hu.
  destruct (Z.ltb_spec h (nNumUsed ht)) as [Hlt|Hge].
  - destruct (lookup_lt_is_Some_2 (arData ht) (Z.to_nat h)) as [b Hb]; [unfold used in *; lia|].
    unfold get_bucket. rewrite (aget_okZ _ _ b) by (lia || done). rsimp.
    destruct (is_undef (b_val b)) eqn:Eu; cbn [negb].
    + apply convert_to_hash_ok; try done. apply elems_of_find_None. intros i c Hi Hc Hk.
      pose proof (packed_key_pos ht h i c Hwf Hp (conj Hi (conj Hc Hk))) as ->.
      rewrite Nat2Z.id in Hb. destruct Hc. congruence.
    + assert (Hk : key_at ht (KInt h) (Z.to_nat h) b).
      { pose proof (wf_repr _ Hwf) as Hrp. rewrite (packed_not_hashed _ Hp) in Hrp.
        assert (Hi : (Z.to_nat h < used ht)%nat) by (unfold used; lia).
        destruct (wf_p_keys _ Hrp _ b Hi (conj Hb Eu)) as [E1 E2].
        split; [done|]. split; [done|]. unfold bkey. rewrite E2, E1. f_equal. lia. }
      replace (ZV_BUCKET h) with (ZV_BUCKET (Z.of_nat (Z.to_nat h))) by (f_equal; lia).
      by apply (index_put_found ht eg h _ b).
  - pose proof (packed_new ht h Hwf Hp Hge) as Hnew.
    destruct (Z.ltb_spec h (nTableSize ht)); [by apply packed_put_ok|].
    destruct (Z.ltb_spec (Z.shiftr h 1) (nTableSize ht)) as [Hs|]; [|by apply convert_to_hash_ok].
    destruct (_ <? nNumOfElements ht); [|by apply convert_to_hash_ok]. cbn [andb].
    destruct (packed_grow_ok ht eg Hwf Hp) as [[-> Hm]|(ht1 & -> & W & Hrc & He & Hp1 & Hs1 & Hl)];
      [by left|]. rsimp.
    pose proof Hrc as (_ & Hz & Hu1 & _ & Hn1 & _).
    rewrite Z.shiftr_div_pow2 in Hs by lia. change (2 ^ 1) with 2 in Hs.
    apply packed_put_ok; try done; [by intros; eapply grown_ptr| |by rewrite Hu1].
    pose proof (Z.div_lt_upper_bound h 2 (nTableSize ht)). pose proof (Z_div_mod_eq_full h 2).
    pose proof (Z.mod_pos_bound h 2). lia.
Qed.

Lemma index_add_or_update_ok ht h v flag eg :
  ht_wf ht -> 0 <= h < 2 ^ 64 -> is_undef v = false ->
  (has_flag flag HASH_ADD_NEW = true -> al_find (KInt h) (elems ht) = None) ->
  (appends_next flag = true -> is_hashed ht = false -> h = nNumUsed ht) ->
  index_put_correct ht eg flag h v (_zend_hash_index_add_or_update_i ht h v flag eg).
Proof.
  intros Hwf Hr Hv Hnewflag Hf. destruct (f_packed ht) eqn:Ep.
  { apply index_put_packed; try done. intros Ha. apply Hf; [done|]. by apply packed_not_hashed. }
  unfold _zend_hash_index_add_or_update_i. rewrite Ep.
  destruct (f_initialized ht) eqn:Ei; cbn [negb].
  2: { destruct (init_hash_ok ht (h <? nTableSize ht) eg Hwf Ei)
         as (H1 & H2 & H3 & H4 & H5 & H6 & H7 & H8 & H9 & H10 & H11).
    rewrite H10. assert (Hnew : al_find (KInt h) (elems ht) = None) by (by rewrite H3).
    assert (Hu0 : nNumUsed ht = 0) by (apply (wf_init_used _ (wf_data _ Hwf) Ei)).
    destruct (Z.ltb_spec h (nTableSize ht)).
    - apply packed_put_ok; try done; [lia|]. intros Ha. rewrite H8, <- Hu0. apply Hf; [done|].
      unfold is_hashed. by rewrite Ei.
    - apply index_put_correct_new; [done|right].
      destruct (index_add_ok (zend_hash_check_init ht false eg) h v eg) as (ht' & eg' & r & E & P & Q & N);
        try done; [by rewrite H2|].
      exists ht', eg', r. rewrite H2 in P. rewrite Q, H11, N, H7. split; [done|]. split; [|done].
      by apply (put_result_after _ _ _ eg _ _ _ _ _ _ _ _ H6). }
  assert (Hh : is_hashed ht = true) by (unfold is_hashed; by rewrite Ei, Ep).
  destruct (has_flag flag HASH_ADD_NEW) eqn:En; cbn [negb]; [apply index_put_hashed; auto|].
  destruct (index_find_bucket_ok ht h Hwf Hh ltac:(lia)) as (r & -> & Hk). rsimp.
  destruct r as [i|]; simpl.
  - destruct Hk as (b & Hk). pose proof (index_put_found ht eg h i b flag v Hwf Hk Hv) as Hput.
    destruct (has_flag flag HASH_ADD); [done|].
    destruct Hput as [(_ & _ & E)|(ht' & eg' & r & E & Hput)]; [right|right]; rewrite E.
    { destruct (destroy_and_copy_bucket ht eg i b v Hwf) as (? & ? & ? & E' & _);
        [apply Hk|apply Hk|done|]. congruence. }
    rsimp. exists ht', eg', r.
    assert (Ef : al_find (KInt h) (elems ht) = Some (b_val b)).
    { destruct Hk as (Hi & Hb & <-). apply (elems_of_find _ _ i b); [apply Hwf|done|done]. }
    assert (Hin : KInt h ∈ (elems ht).*1).
    { destruct (decide (KInt h ∈ (elems ht).*1)) as [|Hn]; [done|].
      apply al_find_None in Hn. congruence. }
    destruct (spec_index_put flag h v (elems ht)) as [l' w] eqn:Es.
    destruct Hput as (P & Q). rewrite update_next_free_id; [done|apply P|done|].
    rewrite (pr_elems _ _ _ _ _ _ _ _ _ _ P). unfold spec_index_put in Es. rewrite Ef in Es.
    destruct (has_flag flag HASH_ADD); injection Es as <- _; [done|].
    rewrite al_update_keys; [done|congruence].
  - apply index_put_hashed; try done. apply elems_of_find_None. intros i b Hi Hb Hkb.
    by apply (Hk i b).
Qed.

(** *** Properties *)

(** C2: For every flag, [_zend_hash_index_add_or_update_i] on a well-formed
    table (not yet allocated, packed or hashed) replaces in place, appends, or
    refuses, converting a packed table when the key does not fit; the invariant,
    the internal pointer's key, the destructor calls and [nNextFreeElement] are as
    specified.  With [HASH_ADD_NEW] the key must be new, and with
    [HASH_ADD_NEW|HASH_ADD_NEXT] it must be just behind the used buckets of a
    packed table. *)
Theorem index_add_or_update_correct ht h v flag eg :
  ht_wf ht -> 0 <= h < 2 ^ 64 -> is_undef v = false ->
  (has_flag flag HASH_ADD_NEW = true -> al_find (KInt h) (elems ht) = None) ->
  (appends_next flag = true -> is_hashed ht = false -> h = nNumUsed ht) ->
  index_put_correct ht eg flag h v (_zend_hash_index_add_or_update_i ht h v flag eg).
Proof. apply index_add_or_update_ok. Qed.

Lemma index_add_or_update_correct_witness :
  index_put_correct sample_packed sample_eg HASH_ADD 1 IS_TRUE
    (_zend_hash_index_add_or_update_i sample_packed 1 IS_TRUE HASH_ADD sample_eg) /\
  index_put_correct sample_hash sample_eg HASH_UPDATE 7 IS_TRUE
    (_zend_hash_index_add_or_update_i sample_hash 7 IS_TRUE HASH_UPDATE sample_eg).
Proof.
  split.
  - apply (index_add_or_update_correct sample_packed); [exact sample_packed_wf|lia|reflexivity| |];
      intros H; discriminate H.
  - apply (index_add_or_update_correct sample_hash); [exact sample_hash_wf|lia|reflexivity| |];
      intros H; discriminate H.
Defined.

(** C27: [_zend_hash_next_index_insert] appends at [nNextFreeElement], which no
    element of the table uses, and advances it; only when the largest integer key
    is taken does it return [NULL], and then nothing changes. *)
Theorem next_index_insert_correct ht v eg :
  ht_wf ht -> is_undef v = false ->
  let n := nNextFreeElement ht in
  match _zend_hash_next_index_insert ht v eg with
  | Ok (ht', eg', Some r) => ht_wf ht' /\ elems ht' = elems ht ++ [(KInt n, v)] /\
      al_find (KInt n) (elems ht) = None /\ deref ht' eg' (Some r) = Some v /\
      nNextFreeElement ht' = Z.min (n + 1) ZEND_LONG_MAX
  | Ok (ht', eg', None) => ht' = ht /\ eg' = eg /\ n = ZEND_LONG_MAX /\
      al_find (KInt ZEND_LONG_MAX) (elems ht) <> None
  | Err e => e = Fatal /\ nTableSize ht = HT_MAX_SIZE
  end.
Proof.
  intros Hwf Hv n. pose proof (wf_next_free _ (wf_data _ Hwf)) as Hn. fold n in Hn.
  unfold ZEND_LONG_MAX in Hn. unfold _zend_hash_next_index_insert. fold n.
  rewrite u64_small by lia.
  destruct (al_find (KInt n) (elems ht)) as [w|] eqn:Ef.
  - assert (En : n = ZEND_LONG_MAX).
    { assert (Hin : KInt n ∈ (elems ht).*1).
      { destruct (decide (KInt n ∈ (elems ht).*1)) as [|Hni]; [done|].
        apply al_find_None in Hni. congruence. }
      destruct (wf_next_free_keys _ (wf_data _ Hwf) n Hin) as [Hlt|]; [|done].
      rewrite s64_small in Hlt by lia. fold n in Hlt. lia. }
    destruct (index_add_or_update_ok ht n v (Z.lor HASH_ADD HASH_ADD_NEXT) eg Hwf)
      as [(_ & E & _)|(ht' & eg' & r & E & Hp)]; try done; [lia|congruence|].
    unfold spec_index_put, index_put_events in Hp. rewrite Ef in Hp.
    destruct Hp as ([_ _ _ _ Hr] & _ & _ & Hsame). rewrite E.
    destruct (Hsame eq_refl) as (-> & -> & ->). rewrite <- En, Ef. done.
  - destruct (index_add_or_update_ok ht n v (Z.lor HASH_ADD HASH_ADD_NEXT) eg Hwf)
      as [(? & _ & ->)|(ht' & eg' & r & -> & Hp)]; try done; [lia|].
    unfold spec_index_put, index_put_events in Hp. rewrite Ef in Hp.
    destruct Hp as ([W He Hs Hst Hr] & _ & Hnx & _). destruct r as [r|]; [|done].
    rewrite al_update_new in He by done. repeat (split; [done|]). rewrite Hnx.
    unfold spec_next. fold n. rewrite s64_small by lia. unfold ZEND_LONG_MAX. zcases; lia.
Qed.

Lemma next_index_insert_correct_witness :
  match _zend_hash_next_index_insert sample_hash IS_TRUE sample_eg with
  | Ok (ht', _, Some _) => elems ht' = elems sample_hash ++ [(KInt 8, IS_TRUE)]
  | _ => False
  end.
Proof.
  pose proof (next_index_insert_correct sample_hash IS_TRUE sample_eg sample_hash_wf eq_refl) as H.
  destruct (_zend_hash_next_index_insert sample_hash IS_TRUE sample_eg) as [[[ht' eg'] [r|]]|e] eqn:E.
  - apply H.
  - vm_compute in E. discriminate E.
  - vm_compute in E. discriminate E.
Defined.
