(* ===== verification/HashDelete.v ===== *)
(** * The ordered hash table: deletion
    ([_zend_hash_del_el_ex], [_zend_hash_del_el], [zend_hash_del] and its variants) *)
From Stdlib Require Import Strings.Byte.
From S2P Require Export HashIndex.

(** ** Operations *)

(** [do { ht->nNumUsed--; } while (ht->nNumUsed > 0 &&
    Z_TYPE(ht->arData[ht->nNumUsed-1].val) == IS_UNDEF);] *)
Fixpoint trim_used (fuel : nat) (ht : HashTable) {struct fuel} : res HashTable :=
  match fuel with
  | O => Err OutOfFuel
  | S fuel =>
      let ht := set_nNumUsed (u32 (nNumUsed ht - 1)) ht in
      if 0 <? nNumUsed ht then
        let! b := get_bucket ht (nNumUsed ht - 1) in
        if is_undef (b_val b) then trim_used fuel ht else Ok ht
      else Ok ht
  end.

(** [while (1) { new_idx++; .. }]: the next live bucket. *)
Fixpoint next_live (fuel : nat) (ht : HashTable) (new_idx : Z) {struct fuel} : res Z :=
  match fuel with
  | O => Err OutOfFuel
  | S fuel =>
      let new_idx := u32 (new_idx + 1) in
      if nNumUsed ht <=? new_idx then Ok HT_INVALID_IDX
      else
        let! b := get_bucket ht new_idx in
        if negb (is_undef (b_val b)) then Ok new_idx else next_live fuel ht new_idx
  end.

(** Taking the bucket out of its collision chain. *)
Definition unlink (ht : HashTable) (p : Bucket) (prev : option Z) : res HashTable :=
  if negb (f_packed ht) then
    match prev with
    | Some j =>
        let! q := get_bucket ht j in
        set_bucket ht j (set_b_next (b_next p) q)
    | None => set_HT_HASH ht (hash_index (b_h p) (nTableMask ht)) (b_next p)
    end
  else Ok ht.

Definition _zend_hash_del_el_ex (ht : HashTable) (idx : Z) (prev : option Z) (eg : EG)
    : res (HashTable * EG) :=
  let! p := get_bucket ht idx in
  let! ht := unlink ht p prev in
  let! ht := if u32 (nNumUsed ht - 1) =? idx then trim_used (S (length (arData ht))) ht else Ok ht in
  let ht := set_nNumOfElements (u32 (nNumOfElements ht - 1)) ht in
  let! (ht, eg) :=
    if (nInternalPointer ht =? idx) || negb (nIteratorsCount ht =? 0) then
      let! new_idx := next_live (S (length (arData ht))) ht idx in
      let ht := if nInternalPointer ht =? idx then set_nInternalPointer new_idx ht else ht in
      Ok (ht, zend_hash_iterators_update ht idx new_idx eg)
    else Ok (ht, eg) in
  let eg := release_key (b_key p) eg in
  let! p := get_bucket ht idx in
  let! ht := set_bucket ht idx (set_b_val IS_UNDEF p) in
  Ok (ht, run_dtor ht (b_val p) eg).

(** [while (Z_NEXT(prev->val) != idx) { .. }] *)
Fixpoint find_prev (fuel : nat) (ht : HashTable) (i idx : Z) {struct fuel} : res Z :=
  match fuel with
  | O => Err OutOfFuel
  | S fuel =>
      let! prev := get_bucket ht i in
      if negb (b_next prev =? idx) then find_prev fuel ht (b_next prev) idx else Ok i
  end.

Definition _zend_hash_del_el (ht : HashTable) (idx : Z) (eg : EG) : res (HashTable * EG) :=
  let! prev :=
    if negb (f_packed ht) then
      let! p := get_bucket ht idx in
      let! i := HT_HASH ht (hash_index (b_h p) (nTableMask ht)) in
      if negb (i =? idx) then
        let! j := find_prev (S (length (arData ht))) ht i idx in Ok (Some j)
      else Ok None
    else Ok None in
  _zend_hash_del_el_ex ht idx prev eg.

Definition zend_hash_del_bucket (ht : HashTable) (idx : Z) (eg : EG) : res (HashTable * EG) :=
  _zend_hash_del_el ht idx eg.

(** The lookup loop of the delete functions: the matching bucket and the one
    before it in the chain. *)
Fixpoint del_loop (fuel : nat) (ht : HashTable) (matches : Bucket -> bool) (idx : Z)
    (prev : option Z) {struct fuel} : res (option (Z * option Z)) :=
  if idx =? HT_INVALID_IDX then Ok None
  else match fuel with
  | O => Err OutOfFuel
  | S fuel =>
      let! p := get_bucket ht idx in
      if matches p then Ok (Some (idx, prev))
      else del_loop fuel ht matches (b_next p) (Some idx)
  end.

Definition del_by (ht : HashTable) (matches : Bucket -> bool) (h : Z) : res (option (Z * option Z)) :=
  let! idx := HT_HASH ht (hash_index h (nTableMask ht)) in
  del_loop (find_fuel ht) ht matches idx None.

Definition zend_hash_del (ht : HashTable) (key : zend_string) (eg : EG) : res (HashTable * EG * Z) :=
  let h := zend_string_hash_val key in
  let! found := del_by ht (match_zstr key h) h in
  match found with
  | Some (idx, prev) =>
      let! (ht, eg) := _zend_hash_del_el_ex ht idx prev eg in Ok (ht, eg, SUCCESS)
  | None => Ok (ht, eg, FAILURE)
  end.

Definition zend_hash_str_del (ht : HashTable) (str : list char) (eg : EG)
    : res (HashTable * EG * Z) :=
  let h := zend_inline_hash_func str in
  let! found := del_by ht (match_str str h) h in
  match found with
  | Some (idx, prev) =>
      let! (ht, eg) := _zend_hash_del_el_ex ht idx prev eg in Ok (ht, eg, SUCCESS)
  | None => Ok (ht, eg, FAILURE)
  end.

(** Emptying the cell behind an [IS_INDIRECT] value: [zend_hash_del_ind] marks
    the cell undefined before it runs the destructor. *)
Definition del_indirect (ht : HashTable) (a : addr) (eg : EG) : res (HashTable * EG * Z) :=
  let! data := get_cell eg a in
  if is_undef data then Ok (ht, eg, FAILURE)
  else
    let eg := set_cell eg a IS_UNDEF in
    let eg := run_dtor ht data eg in
    Ok (set_f_has_empty_ind true ht, eg, SUCCESS).

Definition zend_hash_del_ind (ht : HashTable) (key : zend_string) (eg : EG)
    : res (HashTable * EG * Z) :=
  let h := zend_string_hash_val key in
  let! found := del_by ht (match_zstr key h) h in
  match found with
  | Some (idx, prev) =>
      let! p := get_bucket ht idx in
      match b_val p with
      | IS_INDIRECT a => del_indirect ht a eg
      | _ => let! (ht, eg) := _zend_hash_del_el_ex ht idx prev eg in Ok (ht, eg, SUCCESS)
      end
  | None => Ok (ht, eg, FAILURE)
  end.

(** Here the destructor gets the cell itself, which is undefined afterwards. *)
Definition str_del_indirect (ht : HashTable) (a : addr) (eg : EG) : res (HashTable * EG * Z) :=
  let! data := get_cell eg a in
  if is_undef data then Ok (ht, eg, FAILURE)
  else
    let eg := run_dtor ht data eg in
    let eg := set_cell eg a IS_UNDEF in
    Ok (set_f_has_empty_ind true ht, eg, SUCCESS).

Definition zend_hash_str_del_ind (ht : HashTable) (str : list char) (eg : EG)
    : res (HashTable * EG * Z) :=
  let h := zend_inline_hash_func str in
  let! found := del_by ht (match_str str h) h in
  match found with
  | Some (idx, prev) =>
      let! p := get_bucket ht idx in
      match b_val p with
      | IS_INDIRECT a => str_del_indirect ht a eg
      | _ => let! (ht, eg) := _zend_hash_del_el_ex ht idx prev eg in Ok (ht, eg, SUCCESS)
      end
  | None => Ok (ht, eg, FAILURE)
  end.

Definition zend_hash_index_del (ht : HashTable) (h : Z) (eg : EG) : res (HashTable * EG * Z) :=
  if f_packed ht then
    if h <? nNumUsed ht then
      let! p := get_bucket ht h in
      if negb (is_undef (b_val p)) then
        let! (ht, eg) := _zend_hash_del_el_ex ht h None eg in Ok (ht, eg, SUCCESS)
      else Ok (ht, eg, FAILURE)
    else Ok (ht, eg, FAILURE)
  else
    let! found := del_by ht (match_index h) h in
    match found with
    | Some (idx, prev) =>
        let! (ht, eg) := _zend_hash_del_el_ex ht idx prev eg in Ok (ht, eg, SUCCESS)
    | None => Ok (ht, eg, FAILURE)
    end.

(** ** The loops *)
Lemma trim_used_ok fuel ht (m : nat) :
  nNumUsed ht = Z.of_nat m -> (0 < m <= length (arData ht))%nat -> Z.of_nat m < 2 ^ 32 ->
  (m <= fuel)%nat -> exists m', trim_used fuel ht = Ok (set_nNumUsed (Z.of_nat m') ht) /\
  (m' < m)%nat /\
  (forall k b, (m' <= k < m - 1)%nat -> arData ht !! k = Some b -> is_undef (b_val b) = true).
Proof.
  revert ht m. induction fuel as [|fuel IH]; intros ht m Em Hm H32 Hf; [lia|].
  cbn [trim_used]. rewrite Em, u32_small by lia.
  set (ht1 := set_nNumUsed _ ht). change (nNumUsed ht1) with (Z.of_nat m - 1).
  destruct (Z.ltb_spec 0 (Z.of_nat m - 1)).
  - destruct (lookup_lt_is_Some_2 (arData ht) (m - 2)) as [b Hb]; [lia|].
    unfold get_bucket. rewrite (aget_okZ _ _ b); [|lia|].
    2: { change (arData ht1) with (arData ht). by replace (Z.to_nat _) with (m - 2)%nat by lia. }
    rsimp. destruct (is_undef (b_val b)) eqn:Eu.
    + destruct (IH ht1 (m - 1)%nat) as (m' & -> & Hlt & Hun); [simpl; lia|simpl; lia|lia|lia|].
      exists m'. split; [done|]. split; [lia|]. intros k c Hk Hc.
      destruct (decide (k = m - 2)%nat) as [->|]; [congruence|]. apply (Hun k c); [lia|done].
    + exists (m - 1)%nat. replace (Z.of_nat (m - 1)) with (Z.of_nat m - 1) by lia.
      split; [done|]. split; [lia|]. intros; lia.
  - exists 0%nat. unfold ht1. replace (Z.of_nat m - 1) with (Z.of_nat 0) by lia.
    split; [done|]. split; [lia|].
    intros; lia.
Qed.

(** The next live bucket after [i], if any. *)
Definition next_live_pos (d : list Bucket) (n i : nat) (r : Z) : Prop :=
  (r = HT_INVALID_IDX /\ forall j b, (i < j < n)%nat -> ~ live d j b) \/
  (exists j b, r = Z.of_nat j /\ (i < j < n)%nat /\ live d j b /\
    forall k c, (i < k < j)%nat -> ~ live d k c).

Lemma next_live_ok fuel ht (i : nat) :
  (used ht <= length (arData ht))%nat -> Z.of_nat (length (arData ht)) <= HT_MAX_SIZE ->
  (i < length (arData ht))%nat -> (used ht - i <= fuel)%nat -> (0 < fuel)%nat ->
  exists r, next_live fuel ht (Z.of_nat i) = Ok r /\ next_live_pos (arData ht) (used ht) i r.
Proof.
  intros Hu Hmax. unfold HT_MAX_SIZE in Hmax. revert i.
  induction fuel as [|fuel IH]; intros i Hi Hf Hpos; [lia|]. cbn [next_live].
  rewrite u32_small by lia. replace (Z.of_nat i + 1) with (Z.of_nat (S i)) by lia.
  destruct (Z.leb_spec (nNumUsed ht) (Z.of_nat (S i))).
  - exists HT_INVALID_IDX. split; [done|]. left. split; [done|]. unfold used. intros; lia.
  - destruct (lookup_lt_is_Some_2 (arData ht) (S i)) as [b Hb]; [unfold used in *; lia|].
    unfold get_bucket. rewrite (aget_ok _ _ _ Hb). rsimp.
    destruct (is_undef (b_val b)) eqn:Eu; cbn [negb].
    + destruct (IH (S i)) as (r & -> & Hr); [unfold used in *; lia|lia|unfold used in *; lia|].
      exists r. split; [done|].
      assert (Hno : forall c, ~ live (arData ht) (S i) c) by (intros c [Hc Hv]; congruence).
      destruct Hr as [[-> Hn]|(j & c & -> & Hj & Hc & Hn)]; [left|right].
      * split; [done|]. intros j c Hj. destruct (decide (j = S i)) as [->|]; [done|]. apply Hn. lia.
      * exists j, c. split; [done|]. split; [lia|]. split; [done|]. intros k e Hk.
        destruct (decide (k = S i)) as [->|]; [done|]. apply Hn. lia.
    + exists (Z.of_nat (S i)). split; [done|]. right. exists (S i), b.
      split; [done|]. split; [unfold used; lia|]. split; [done|]. intros; lia.
Qed.

(** A delete loop stops at the first match and knows its predecessor. *)
Definition last_of (l : list nat) (prev : option Z) : option Z :=
  match last l with Some j => Some (Z.of_nat j) | None => prev end.

Lemma last_of_cons i l prev : last_of (i :: l) prev = last_of l (Some (Z.of_nat i)).
Proof. unfold last_of. rewrite last_cons. by destruct (last l). Qed.

Lemma del_loop_chain ht f fuel head prev l :
  Z.of_nat (length (arData ht)) <= HT_MAX_SIZE -> chain (arData ht) head l ->
  (length l <= fuel)%nat -> exists r, del_loop fuel ht f head prev = Ok r /\
  match r with
  | None => forall i, i ∈ l -> test_at (arData ht) f i = false
  | Some (idx, pv) => exists l1 i l2, l = l1 ++ i :: l2 /\ idx = Z.of_nat i /\
      test_at (arData ht) f i = true /\ pv = last_of l1 prev
  end.
Proof.
  intros Hmax. revert fuel head prev. induction l as [|i l IH]; intros fuel head prev; simpl.
  - intros -> _. exists None. split; [by destruct fuel|]. set_solver.
  - intros (-> & b & Hb & Hc) Hf. destruct fuel as [|fuel]; [lia|]. cbn [del_loop].
    assert (i < length (arData ht))%nat by (by eapply lookup_lt_Some).
    unfold HT_MAX_SIZE in Hmax.
    destruct (Z.eqb_spec (Z.of_nat i) HT_INVALID_IDX) as [E|_];
      [unfold HT_INVALID_IDX in E; lia|].
    unfold get_bucket. rewrite (aget_ok _ _ _ Hb). rsimp.
    destruct (f b) eqn:Ef.
    + exists (Some (Z.of_nat i, prev)). split; [done|]. exists [], i, l.
      split; [done|]. split; [done|]. split; [|done]. unfold test_at. by rewrite Hb.
    + destruct (IH fuel (b_next b) (Some (Z.of_nat i)) Hc ltac:(lia)) as (r & -> & Hr).
      exists r. split; [done|]. destruct r as [[idx pv]|].
      * destruct Hr as (l1 & j & l2 & -> & -> & Ht & ->). exists (i :: l1), j, l2.
        by rewrite last_of_cons.
      * intros j [->|Hj]%elem_of_cons; [|by apply Hr]. unfold test_at. by rewrite Hb.
Qed.

Lemma find_prev_chain ht fuel (i : nat) l1 (j : nat) l2 :
  chain (arData ht) (Z.of_nat i) (i :: l1 ++ j :: l2) -> j ∉ l1 ->
  (length l1 < fuel)%nat -> exists r,
  find_prev fuel ht (Z.of_nat i) (Z.of_nat j) = Ok r /\ last_of (i :: l1) None = Some r.
Proof.
  revert fuel i. induction l1 as [|k l1 IH]; intros fuel i Hc Hj Hf;
    (destruct fuel as [|fuel]; [simpl in Hf; lia|]); cbn [find_prev];
    destruct Hc as (_ & b & Hb & Hc); unfold get_bucket; rewrite (aget_ok _ _ _ Hb); rsimp.
  - destruct Hc as (-> & _). rewrite Z.eqb_refl. by exists (Z.of_nat i).
  - pose proof Hc as (E & c & Hkc & _). rewrite E in *.
    assert (k <> j) by set_solver.
    destruct (Z.eqb_spec (Z.of_nat k) (Z.of_nat j)); [lia|]. cbn [negb].
    destruct (IH fuel k Hc) as (r & -> & Hr); [set_solver|simpl in Hf; lia|].
    exists r. split; [done|]. rewrite last_of_cons in Hr. by rewrite !last_of_cons.
Qed.

(** ** Unlinking *)
Definition without (i : nat) (l : list nat) : list nat :=
  List.filter (fun k => negb (Nat.eqb k i)) l.

Lemma without_notin i l : i ∉ l -> without i l = l.
Proof.
  unfold without. induction l as [|k l IH]; intros H; [done|]. simpl.
  destruct (Nat.eqb_spec k i); [set_solver|]. simpl. f_equal. apply IH. set_solver.
Qed.

Lemma without_mid i l1 l2 : NoDup (l1 ++ i :: l2) -> without i (l1 ++ i :: l2) = l1 ++ l2.
Proof.
  intros (H1 & H2 & [H3 H4]%NoDup_cons)%NoDup_app. unfold without.
  rewrite List.filter_app. simpl. rewrite Nat.eqb_refl. simpl.
  change (without i l1 ++ without i l2 = l1 ++ l2).
  rewrite !without_notin; [done|done|]. intros Hin. apply (H2 i Hin). set_solver.
Qed.

Lemma slot_list_NoDup n s d m : NoDup (slot_list n s d m).
Proof. unfold slot_list. apply NoDup_ListNoDup, List.NoDup_filter, NoDup_rev, seq_NoDup. Qed.

Lemma chain_skip d head l0 j i l2 b q :
  chain d head (l0 ++ j :: i :: l2) -> d !! i = Some b -> d !! j = Some q ->
  NoDup (l0 ++ j :: i :: l2) ->
  chain (<[j := set_b_next (b_next b) q]> d) head (l0 ++ j :: l2).
Proof.
  intros Hc Hb Hq. pose proof (lookup_lt_Some _ _ _ Hq) as Hlt. revert head Hc.
  induction l0 as [|k l0 IH]; intros head Hc Hnd; simpl in *.
  - apply NoDup_cons in Hnd as [Hj _]. destruct Hc as (-> & q' & Hq' & _ & b' & Hb' & Hc).
    rewrite Hb in Hb'. injection Hb' as <-. split; [done|].
    exists (set_b_next (b_next b) q). rewrite list_lookup_insert_eq by done. split; [done|].
    simpl. eapply chain_ext; [|exact Hc]. intros k Hk. rewrite list_lookup_insert_ne; [done|].
    set_solver.
  - apply NoDup_cons in Hnd as [Hk Hnd]. destruct Hc as (-> & c & Hck & Hc). split; [done|].
    exists c. rewrite list_lookup_insert_ne by set_solver. split; [done|]. by apply IH.
Qed.

(** The table after [unlink]: every chain has lost bucket [i] and nothing else. *)
Record unlinked (ht : HashTable) (i : nat) (hs : list Z) (d : list Bucket) : Prop := mk_unlinked {
  ul_links : relinked (arData ht) d;
  ul_len : length hs = length (arHash ht) /\ length d = length (arData ht);
  ul_at : d !! i = arData ht !! i;
  ul_chains : is_hashed ht = true -> forall s, 0 <= s < nTableSize ht -> exists head,
    hs !! Z.to_nat s = Some head /\
    chain d head (without i (slot_list (nTableSize ht) s (arData ht) (used ht)));
  ul_hash : is_hashed ht = false -> hs = arHash ht
}.

(** [prev] is what the loops find: the predecessor of [i] in its chain. *)
Definition prev_ok (ht : HashTable) (i : nat) (b : Bucket) (prev : option Z) : Prop :=
  is_hashed ht = true -> exists l1 l2,
  slot_list (nTableSize ht) (b_h b mod nTableSize ht) (arData ht) (used ht) = l1 ++ i :: l2 /\
  prev = last_of l1 None.

Lemma slot_other n s d m i b : live d i b -> b_h b mod n <> s -> i ∉ slot_list n s d m.
Proof.
  intros Hb Hs (_ & c & Hc & E)%slot_list_in%(fun H => conj (proj1 H) (in_slot_true _ _ _ _ (proj2 H))).
  destruct Hb, Hc. congruence.
Qed.

Lemma unlink_ok ht i b prev :
  ht_wf ht -> f_initialized ht = true -> (i < used ht)%nat -> live (arData ht) i b ->
  prev_ok ht i b prev -> exists hs d,
  unlink ht b prev = Ok (set_arHash hs (set_arData d ht)) /\ unlinked ht i hs d.
Proof.
  intros Hwf Hin Hi Hb Hprev. unfold unlink. destruct (f_packed ht) eqn:Ep; cbn [negb].
  { exists (arHash ht), (arData ht). split; [by destruct ht|]. split; try done.
    rewrite (packed_not_hashed _ Ep). done. }
  assert (Hh : is_hashed ht = true) by (unfold is_hashed; by rewrite Hin, Ep).
  destruct (Hprev Hh) as (l1 & l2 & El & ->).
  pose proof (repr_mask _ Hwf) as Hm. pose proof (wf_repr _ Hwf) as Hr. rewrite Hh in Hm, Hr.
  pose proof Hm as ((k & Hk & En) & _ & Hlen). pose proof (pow2_range k Hk).
  set (n := nTableSize ht) in *. destruct (bkey_hash ht i b (wf_data _ Hwf) Hi Hb) as [_ Hb0].
  pose proof (Z.mod_pos_bound (b_h b) n ltac:(lia)) as Hs.
  destruct (wf_h_chains _ Hr _ Hs) as (head & Hhd & Hch). fold n in Hch. rewrite El in Hch.
  pose proof (slot_list_NoDup n (b_h b mod n) (arData ht) (used ht)) as Hnd. rewrite El in Hnd.
  destruct l1 as [|j l1 _] using rev_ind.
  - rewrite (set_HT_HASH_slot ht n) by done.
    exists (<[Z.to_nat (b_h b mod n) := b_next b]> (arHash ht)), (arData ht).
    split; [by destruct ht|]. split; try done; [by rewrite length_insert| |by rewrite Hh].
    intros _ s Hss. fold n. destruct (decide (b_h b mod n = s)) as [<-|Hne].
    + exists (b_next b). rewrite list_lookup_insert_eq by lia. split; [done|].
      rewrite El, without_mid by done. simpl in Hch. destruct Hch as (_ & b' & Hb' & Hc).
      rewrite (proj1 Hb) in Hb'. by injection Hb' as <-.
    + destruct (wf_h_chains _ Hr _ Hss) as (head' & Hhd' & Hch'). exists head'.
      rewrite list_lookup_insert_ne by lia. split; [done|].
      rewrite without_notin by (by eapply slot_other). done.
  - unfold last_of. rewrite last_snoc. rewrite <- app_assoc in *. simpl in *.
    assert (Hjin : j ∈ slot_list n (b_h b mod n) (arData ht) (used ht)) by (rewrite El; set_solver).
    apply slot_list_in in Hjin as [Hju Hjs]. apply in_slot_true in Hjs as (q & Hq & Hqs).
    pose proof (lookup_lt_Some _ _ _ (proj1 Hq)) as Hjl.
    unfold get_bucket, set_bucket. rewrite (aget_ok _ _ _ (proj1 Hq)). rsimp.
    rewrite aset_ok by done. rsimp. set (d := <[j := _]> _).
    assert (Hji : j <> i) by (intros ->; apply NoDup_app in Hnd as (_ & _ & Hnd); apply NoDup_cons in Hnd as [Hnd _]; set_solver).
    exists (arHash ht), d. split; [by destruct ht|]. split; try done.
    + intros k'. unfold d. destruct (decide (k' = j)) as [->|]; [|by rewrite list_lookup_insert_ne].
      rewrite list_lookup_insert_eq by done. by rewrite (proj1 Hq).
    + unfold d. by rewrite length_insert.
    + unfold d. by rewrite list_lookup_insert_ne.
    + intros _ s Hss. fold n. destruct (decide (b_h b mod n = s)) as [<-|Hne].
      * exists head. split; [done|]. rewrite El.
        replace (l1 ++ j :: i :: l2) with ((l1 ++ [j]) ++ i :: l2) in * by (by rewrite <- app_assoc).
        rewrite without_mid by done. rewrite <- app_assoc in *.
        apply chain_skip with i; [done|apply Hb|apply Hq|done].
      * destruct (wf_h_chains _ Hr _ Hss) as (head' & Hhd' & Hch'). exists head'. split; [done|].
        rewrite without_notin by (by eapply slot_other). eapply chain_ext; [|exact Hch'].
        intros k' Hk'. unfold d. rewrite list_lookup_insert_ne; [done|]. intros ->.
        revert Hk'. eapply slot_other; [exact Hq|congruence].
Qed.

(** ** Deleting a bucket *)

(** The key behind [k], in order. *)
Fixpoint al_next (k : hkey) (l : alist) : option hkey :=
  match l with
  | [] => None
  | (k', _) :: l => if decide (k' = k) then fst <$> head l else al_next k l
  end.

Lemma al_next_app k l1 l2 : k ∉ l1.*1 -> al_next k (l1 ++ l2) = al_next k l2.
Proof.
  induction l1 as [|[k' v] l1 IH]; simpl; intros H; [done|].
  rewrite decide_False by set_solver. apply IH. set_solver.
Qed.

Definition release_events (k : option zend_string) : list event :=
  match k with
  | Some s => if zs_interned s then [] else [EvRelease s]
  | None => []
  end.

Lemma release_key_step k eg : eg_step (release_events k) (cells eg) eg (release_key k eg).
Proof. destruct k as [s|]; simpl; [|done]. unfold zend_string_release. by destruct (zs_interned s). Qed.

(** The internal pointer moves from a deleted element to the next one. *)
Definition ptr_after_delete (ht : HashTable) (k : hkey) : option hkey :=
  if decide (pos_key ht (nInternalPointer ht) = Some k) then al_next k (elems ht)
  else pos_key ht (nInternalPointer ht).

(** The table once bucket [i] is unlinked and undefined, in terms of its parts. *)
Record erased (ht ht' : HashTable) (i : nat) (hs : list Z) (d : list Bucket) (m : nat) : Prop := mk_erased {
  er_unlinked : unlinked ht i hs d;
  er_hash : arHash ht' = hs;
  er_data : exists b, d !! i = Some b /\ arData ht' = <[i := set_b_val IS_UNDEF b]> d;
  er_used : nNumUsed ht' = Z.of_nat m /\ (m <= used ht)%nat;
  er_trim : forall k b, (m <= k < used ht)%nat -> k <> i -> d !! k = Some b -> is_undef (b_val b) = true;
  er_count : nNumOfElements ht' = nNumOfElements ht - 1;
  er_same : same_table ht ht';
  er_size : nTableSize ht' = nTableSize ht /\ nTableMask ht' = nTableMask ht;
  er_flags : f_packed ht' = f_packed ht /\ f_initialized ht' = f_initialized ht /\
    f_static_keys ht' = f_static_keys ht;
  er_next : nNextFreeElement ht' = nNextFreeElement ht;
  er_ptr : if nInternalPointer ht =? Z.of_nat i
           then next_live_pos (arData ht) (used ht) i (nInternalPointer ht')
           else nInternalPointer ht' = nInternalPointer ht
}.

(** Buckets other than [i] only change links. *)
Lemma erased_lookup ht ht' i hs d m k : erased ht ht' i hs d m -> k <> i ->
  clear_next <$> arData ht' !! k = clear_next <$> arData ht !! k.
Proof.
  intros [Hu _ (b & Hb & ->) _ _ _ _ _ _ _ _] Hk. rewrite list_lookup_insert_ne by done.
  symmetry. apply (ul_links _ _ _ _ Hu).
Qed.

Lemma erased_at ht ht' i hs d m c : erased ht ht' i hs d m -> ~ live (arData ht') i c.
Proof.
  intros [_ _ (b & Hb & ->) _ _ _ _ _ _ _ _] [Hc Hu].
  rewrite list_lookup_insert_eq in Hc by (by eapply lookup_lt_Some). injection Hc as <-. done.
Qed.

Lemma clear_next_live d d' k b : clear_next <$> d' !! k = clear_next <$> d !! k -> live d' k b ->
  exists b', live d k b' /\ b_h b = b_h b' /\ b_key b = b_key b' /\ b_val b = b_val b'.
Proof.
  intros E [Hb Hu]. rewrite Hb in E. destruct (d !! k) as [b'|] eqn:Eb; [|done].
  injection E as E1 E2 E3. exists b'. split; [|done]. split; [done|]. congruence.
Qed.

Lemma erased_live ht ht' i hs d m k b : erased ht ht' i hs d m -> live (arData ht') k b ->
  k <> i /\ exists b', live (arData ht) k b' /\ b_h b = b_h b' /\ b_key b = b_key b' /\ b_val b = b_val b'.
Proof.
  intros He Hb. destruct (decide (k = i)) as [->|Hk]; [by destruct (erased_at _ _ _ _ _ _ _ He Hb)|].
  split; [done|]. apply (clear_next_live _ (arData ht')); [by eapply erased_lookup|done].
Qed.

(** Live buckets of the old table other than [i] are still counted and live. *)
Lemma erased_live_2 ht ht' i hs d m k b : erased ht ht' i hs d m -> live (arData ht) k b ->
  (k < used ht)%nat -> k <> i -> (k < m)%nat /\ exists b', live (arData ht') k b' /\ bkey b' = bkey b.
Proof.
  intros He Hb Hk Hne. pose proof (erased_lookup _ _ _ _ _ _ k He Hne) as E. symmetry in E.
  destruct (clear_next_live _ _ _ _ E Hb) as (b' & Hb' & E1 & E2 & E3). split.
  - destruct (decide (k < m)%nat) as [|Hge]; [done|]. exfalso.
    destruct (er_data _ _ _ _ _ _ He) as (c & Hc & Ed). destruct Hb' as [Hl Hu].
    rewrite Ed, list_lookup_insert_ne in Hl by done.
    rewrite (er_trim _ _ _ _ _ _ He k b') in Hu by (lia || done). done.
  - exists b'. split; [done|]. unfold bkey. by rewrite E1, E2.
Qed.

Lemma al_delete_sublist k l : al_delete k l `sublist_of` l.
Proof.
  induction l as [|[k' v] l IH]; simpl; [constructor|].
  case_decide; [by apply sublist_cons|by apply sublist_skip].
Qed.

Lemma al_delete_length k l : al_find k l <> None -> length l = S (length (al_delete k l)).
Proof.
  induction l as [|[k' v] l IH]; simpl; [done|]. case_decide; [done|].
  intros Hf. simpl. by rewrite <- IH.
Qed.

Lemma bucket_elem_clear b b' : clear_next b = clear_next b' -> bucket_elem b = bucket_elem b'.
Proof. destruct b, b'. unfold clear_next, set_b_next. simpl. by intros [= -> -> ->]. Qed.

Lemma erased_elems ht ht' i hs d m b :
  data_wf ht -> (i < used ht)%nat -> live (arData ht) i b -> erased ht ht' i hs d m ->
  elems ht' = al_delete (bkey b) (elems ht).
Proof.
  intros Hwf Hi Hb He. destruct (er_used _ _ _ _ _ _ He) as [Eu Hm].
  transitivity (elems_of (arData ht') (used ht)).
  { unfold elems. rewrite Eu, Nat2Z.id. symmetry. apply elems_of_trim; [done|]. intros k c Hk Hc.
    destruct (is_undef (b_val c)) eqn:Ec; [done|]. exfalso.
    destruct (erased_live _ _ _ _ _ _ k c He (conj Hc Ec)) as (Hne & c' & Hc' & _).
    destruct (erased_live_2 _ _ _ _ _ _ k c' He Hc') as [? _]; [lia|done|lia]. }
  transitivity (elems_of (<[i := set_b_val IS_UNDEF b]> (arData ht)) (used ht)).
  - apply elems_of_ext. intros k Hk. destruct (decide (k = i)) as [->|Hne].
    + rewrite list_lookup_insert_eq by (by eapply lookup_lt_Some, Hb).
      destruct (er_data _ _ _ _ _ _ He) as (c & Hc & ->).
      rewrite list_lookup_insert_eq by (by eapply lookup_lt_Some). done.
    + rewrite list_lookup_insert_ne by done.
      pose proof (erased_lookup _ _ _ _ _ _ k He Hne) as E.
      destruct (arData ht' !! k) as [c|], (arData ht !! k) as [c'|]; try done. simpl in *.
      f_equal. apply bucket_elem_clear. congruence.
  - apply (elems_of_delete (arData ht) (used ht)); try done. apply Hwf.
Qed.

Lemma erased_position ht ht' i hs d m : data_wf ht -> erased ht ht' i hs d m ->
  position_ok ht' (nInternalPointer ht').
Proof.
  intros Hwf He. pose proof (er_ptr _ _ _ _ _ _ He) as Hp. pose proof (er_used _ _ _ _ _ _ He) as [Eu _].
  assert (Hgo : forall k b, live (arData ht) k b -> (k < used ht)%nat -> k <> i ->
    position_ok ht' (Z.of_nat k)).
  { intros k b Hb Hk Hne. destruct (erased_live_2 _ _ _ _ _ _ k b He Hb Hk Hne) as [? (b' & ? & _)].
    right. exists k, b'. split; [done|]. split; [unfold used; lia|done]. }
  destruct (Z.eqb_spec (nInternalPointer ht) (Z.of_nat i)) as [E|Hne].
  - destruct Hp as [[-> _]|(j & b & -> & Hj & Hb & _)]; [by left|]. apply (Hgo j b); [done|lia|lia].
  - rewrite Hp. destruct (wf_position _ Hwf) as [->|(k & b & E & Hk & Hb)]; [by left|].
    rewrite E in *. apply (Hgo k b); [done|done|]. intros ->. done.
Qed.

Lemma in_slot_clear n s d d' k :
  clear_next <$> d' !! k = clear_next <$> d !! k -> in_slot n s d' k = in_slot n s d k.
Proof.
  intros E. unfold in_slot. destruct (d' !! k) as [b'|], (d !! k) as [b|]; try done.
  injection E as -> -> _. done.
Qed.

Lemma slot_list_without n s d d' i m :
  (forall k, (k < m)%nat -> in_slot n s d' k = negb (Nat.eqb k i) && in_slot n s d k) ->
  slot_list n s d' m = without i (slot_list n s d m).
Proof.
  induction m as [|m IH]; intros H; [done|].
  rewrite !slot_list_S, IH, H by (lia || (intros; apply H; lia)).
  unfold without. rewrite List.filter_app. f_equal.
  destruct (in_slot n s d m); simpl; destruct (Nat.eqb m i); done.
Qed.

Lemma erased_slots ht ht' i hs d m n s :
  erased ht ht' i hs d m ->
  slot_list n s (arData ht') m = without i (slot_list n s (arData ht) (used ht)).
Proof.
  intros He. destruct (er_used _ _ _ _ _ _ He) as [_ Hm].
  rewrite <- (slot_list_trim n s (arData ht') (used ht) m Hm).
  - apply slot_list_without. intros k Hk. destruct (Nat.eqb_spec k i) as [->|Hne]; simpl.
    + destruct (in_slot n s (arData ht') i) eqn:E; [|done].
      apply in_slot_true in E as (c & Hc & _). by destruct (erased_at _ _ _ _ _ _ _ He Hc).
    + apply in_slot_clear. by eapply erased_lookup.
  - intros k Hk. destruct (in_slot n s (arData ht') k) eqn:E; [|done].
    apply in_slot_true in E as (c & Hc & _).
    destruct (erased_live _ _ _ _ _ _ k c He Hc) as (Hne & c' & Hc' & _).
    destruct (erased_live_2 _ _ _ _ _ _ k c' He Hc') as [? _]; [lia|done|lia].
Qed.

Lemma erased_wf ht ht' i hs d m b :
  ht_wf ht -> f_initialized ht = true -> (i < used ht)%nat -> live (arData ht) i b ->
  erased ht ht' i hs d m -> ht_wf ht'.
Proof.
  intros [Hwf Hp Hr] Hin Hi Hb He. pose proof (erased_elems _ _ _ _ _ _ _ Hwf Hi Hb He) as Hel.
  pose proof He as [[Ul [Ll1 Ll2] Ua Uc Uh] Eh (c & Hc & Ed) [Eu Hm] Et Ec Es [Ez Ez'] (F1 & F2 & F3) En Ep].
  assert (Hus : used ht' = m) by (unfold used; rewrite Eu; lia).
  pose proof (wf_used _ Hwf) as Hu. pose proof (al_delete_sublist (bkey b) (elems ht)) as Hsub.
  assert (Hfind : al_find (bkey b) (elems ht) <> None).
  { unfold elems. rewrite (elems_of_find _ _ i b); [done|apply Hwf|done|done]. }
  assert (Hd : data_wf ht').
  { split.
    - rewrite Ez. apply Hwf.
    - rewrite Eu, Ez. unfold used in *. lia.
    - rewrite Ed, length_insert, Ll2, F2, Ez. apply Hwf.
    - rewrite F2, Hin. done.
    - rewrite Hel, Ec, (wf_count _ Hwf), (al_delete_length _ _ Hfind). lia.
    - rewrite Hel. eapply sublist_NoDup; [apply Hwf|by apply fmap_sublist].
    - intros k e Hk Hlk. destruct (erased_live _ _ _ _ _ _ _ _ He Hlk) as (_ & e' & Hl' & E1 & E2 & _).
      unfold bucket_ok. rewrite E1, E2. apply (wf_bucket _ Hwf k e'); [lia|done].
    - unfold HT_HAS_STATIC_KEYS_ONLY. rewrite F1, F3. intros Hst k e s Hk Hlk Hks.
      destruct (erased_live _ _ _ _ _ _ _ _ He Hlk) as (_ & e' & Hl' & _ & E2 & _).
      apply (wf_static _ Hwf Hst k e'); [lia|done|congruence].
    - rewrite En. apply Hwf.
    - rewrite En. intros h Hh. apply (wf_next_free_keys _ Hwf). rewrite Hel in Hh.
      eapply elem_of_sublist; [done|by apply fmap_sublist].
    - by eapply erased_position. }
  split; [done|by rewrite F1, F2|]. assert (Eih : is_hashed ht' = is_hashed ht)
    by (unfold is_hashed; by rewrite F1, F2).
  rewrite Eih. destruct (is_hashed ht) eqn:Eh'; destruct Hr as [R1 R2 R3].
  - split; [by rewrite Ez', Ez|by rewrite Eh, Ll1, Ez|].
    intros s Hs. rewrite Ez in *. destruct (Uc eq_refl s Hs) as (head & Hhd & Hch). exists head.
    rewrite Eh. split; [done|].
    rewrite Hus, (erased_slots _ _ _ _ _ _ (nTableSize ht) s He). eapply chain_ext; [|exact Hch]. intros k Hk. rewrite Ed.
    rewrite list_lookup_insert_ne; [done|]. intros <-. unfold without in Hk.
    apply list_elem_of_In, filter_In in Hk as [_ Hk]. by rewrite Nat.eqb_refl in Hk.
  - split; [by rewrite Ez'|rewrite Eh, (Uh eq_refl); done|].
    intros k e Hk Hlk. destruct (erased_live _ _ _ _ _ _ _ _ He Hlk) as (_ & e' & Hl' & E1 & E2 & _).
    rewrite E1, E2. apply R3; [lia|done].
Qed.

(** No live bucket between [i] and [m]. *)
Lemma elems_of_gap d i m b :
  live d i b -> (S i <= m)%nat -> (forall k c, (i < k < m)%nat -> ~ live d k c) ->
  elems_of d m = elems_of d i ++ [(bkey b, b_val b)].
Proof.
  intros Hb Hm Hno. rewrite (elems_of_trim d m (S i)); [|lia|].
  - rewrite (elems_of_S d i b (proj1 Hb)). by rewrite (live_elem _ _ _ Hb).
  - intros k c Hk Hc. destruct (is_undef (b_val c)) eqn:E; [done|].
    destruct (Hno k c); [lia|done].
Qed.

Lemma next_live_key d n i b r :
  NoDup (elems_of d n).*1 -> Z.of_nat n <= HT_MAX_SIZE -> live d i b -> (i < n)%nat ->
  next_live_pos d n i r ->
  al_next (bkey b) (elems_of d n) =
  (if r =? HT_INVALID_IDX then None else bkey <$> d !! Z.to_nat r).
Proof.
  intros Hnd Hmax Hb Hi Hr.
  assert (Hni : bkey b ∉ (elems_of d i).*1).
  { destruct (elems_of_split d n i b Hb Hi) as (l2 & E & _). rewrite E, fmap_app in Hnd.
    apply NoDup_app in Hnd as (_ & Hnd & _). intros Hin. apply (Hnd _ Hin). set_solver. }
  destruct Hr as [[-> Hno]|(j & c & -> & Hj & Hc & Hno)].
  - rewrite (elems_of_gap d i n b) by (lia || done). rewrite al_next_app by done. simpl. by rewrite decide_True.
  - rewrite (proj2 (Z.eqb_neq _ _)), Nat2Z.id, (proj1 Hc) by (unfold HT_INVALID_IDX, HT_MAX_SIZE in *; lia).
    destruct (elems_of_split d n j c Hc ltac:(lia)) as (l2 & E & _).
    rewrite E, (elems_of_gap d i j b) by (lia || done). rewrite <- app_assoc, al_next_app by done. simpl.
    by rewrite decide_True.
Qed.

Lemma erased_ptr_key ht ht' i hs d m b :
  ht_wf ht -> (i < used ht)%nat -> live (arData ht) i b -> erased ht ht' i hs d m ->
  pos_key ht' (nInternalPointer ht') = ptr_after_delete ht (bkey b).
Proof.
  intros Hwf Hi Hb He. pose proof (wf_data _ Hwf) as Hd. destruct (data_wf_len _ Hd) as [Hu Hmax].
  assert (Hne : forall k, (k < used ht)%nat -> Z.of_nat k <> HT_INVALID_IDX)
    by (unfold HT_INVALID_IDX, HT_MAX_SIZE in *; lia).
  assert (Hkey : forall k, k <> i -> (k < used ht)%nat ->
    bkey <$> arData ht' !! k = bkey <$> arData ht !! k).
  { intros k Hk _. pose proof (erased_lookup _ _ _ _ _ _ k He Hk) as E.
    destruct (arData ht' !! k), (arData ht !! k); try done. injection E as E1 E2 E3.
    unfold bkey. simpl. by rewrite E2, E3. }
  pose proof (er_ptr _ _ _ _ _ _ He) as Hp. unfold ptr_after_delete.
  destruct (Z.eqb_spec (nInternalPointer ht) (Z.of_nat i)) as [E|Hni].
  - rewrite E, pos_key_in, (proj1 Hb), decide_True by (done || by apply Hne).
    unfold elems. fold (used ht).
    rewrite (next_live_key (arData ht) (used ht) i b _ (wf_keys _ Hd) ltac:(lia) Hb Hi Hp). unfold pos_key.
    destruct (Z.eqb_spec (nInternalPointer ht') HT_INVALID_IDX); [done|].
    destruct Hp as [[? _]|(j & c & -> & Hj & _)]; [done|]. rewrite Nat2Z.id. apply Hkey; lia.
  - rewrite Hp. destruct (wf_position _ Hd) as [->|(k & c & E & Hk & Hc)]; [done|].
    rewrite E in *. rewrite !pos_key_in by (by apply Hne). rewrite Hkey by (lia || done).
    rewrite decide_False; [done|]. rewrite (proj1 Hc). intros [= Ek].
    apply Hni. f_equal. by apply (live_unique _ _ k i c b (wf_keys _ Hd)).
Qed.

Lemma next_live_pos_relinked d d' n m i r :
  relinked d d' -> (m <= n)%nat ->
  (forall k b, (m <= k < n)%nat -> k <> i -> d' !! k = Some b -> is_undef (b_val b) = true) ->
  next_live_pos d' m i r -> next_live_pos d n i r.
Proof.
  intros Hl Hm Hun Hr.
  assert (Hto : forall k b, (i < k < n)%nat -> live d k b -> (k < m)%nat /\ exists c, live d' k c).
  { intros k b Hk Hb. destruct (relinked_live _ _ _ _ Hl Hb) as (c & Hc & _).
    split; [|eauto]. destruct (decide (k < m)%nat) as [|Hge]; [done|]. destruct Hc as [Hc Hv].
    rewrite (Hun k c) in Hv by (lia || done). done. }
  destruct Hr as [[-> Hno]|(j & b & -> & Hj & Hb & Hno)]; [left|right].
  - split; [done|]. intros k b Hk Hb. destruct (Hto k b Hk Hb) as (? & c & Hc). by apply (Hno k c); [lia|].
  - destruct (relinked_live _ _ _ _ (relinked_sym _ _ Hl) Hb) as (c & Hc & _).
    exists j, c. split; [done|]. split; [lia|]. split; [done|]. intros k e Hk He.
    destruct (Hto k e ltac:(lia) He) as (? & f & Hf). by apply (Hno k f); [lia|].
Qed.

(** What a deletion of the entry [b] gives. *)
Record del_result (ht : HashTable) (eg : EG) (b : Bucket) (ht' : HashTable) (eg' : EG) : Prop :=
  mk_del_result {
  dr_wf : ht_wf ht';
  dr_elems : elems ht' = al_delete (bkey b) (elems ht);
  dr_same : same_table ht ht';
  dr_step : eg_step (dtor_events ht (b_val b) ++ release_events (b_key b)) (cells eg) eg eg';
  dr_ptr : pos_key ht' (nInternalPointer ht') = ptr_after_delete ht (bkey b);
  dr_next : nNextFreeElement ht' = nNextFreeElement ht;
  dr_shape : nTableSize ht' = nTableSize ht /\ f_packed ht' = f_packed ht /\
    f_initialized ht' = f_initialized ht;
  dr_erased : exists i hs d m, live (arData ht) i b /\ erased ht ht' i hs d m
}.

(** The statements between the unlinking and the release of the key. *)
Lemma del_counters ht i b hs d :
  ht_wf ht -> (i < used ht)%nat -> live (arData ht) i b -> unlinked ht i hs d ->
  let ht1 := set_arHash hs (set_arData d ht) in exists m,
  (if u32 (nNumUsed ht1 - 1) =? Z.of_nat i then trim_used (S (length (arData ht1))) ht1 else Ok ht1)
    = Ok (set_nNumUsed (Z.of_nat m) ht1) /\ (m <= used ht)%nat /\
  (forall k c, (m <= k < used ht)%nat -> k <> i -> d !! k = Some c -> is_undef (b_val c) = true).
Proof.
  intros Hwf Hi Hb [_ [_ Ld] _ _ _] ht1. destruct (data_wf_len _ (wf_data _ Hwf)) as [Hu Hmax].
  pose proof (wf_used _ (wf_data _ Hwf)) as Hu'. unfold HT_MAX_SIZE in Hmax.
  change (nNumUsed ht1) with (nNumUsed ht). rewrite u32_small by (unfold used in *; lia).
  destruct (Z.eqb_spec (nNumUsed ht - 1) (Z.of_nat i)) as [E|_].
  - destruct (trim_used_ok (S (length (arData ht1))) ht1 (used ht)) as (m & -> & Hm & Hun);
      try (unfold ht1; unfold used in *; simpl; rewrite ?Ld; lia).
    exists m. split; [done|]. split; [lia|]. intros k c Hk Hne Hc. apply (Hun k c); [|done].
    unfold used in *. lia.
  - exists (used ht). split; [|split; [lia|intros; lia]].
    unfold used. rewrite Z2Nat.id by lia. by destruct ht.
Qed.

Lemma del_el_ex_ok ht eg i b prev :
  ht_wf ht -> f_initialized ht = true -> (i < used ht)%nat -> live (arData ht) i b ->
  prev_ok ht i b prev -> exists ht' eg',
  _zend_hash_del_el_ex ht (Z.of_nat i) prev eg = Ok (ht', eg') /\ del_result ht eg b ht' eg'.
Proof.
  intros Hwf Hin Hi Hb Hprev. pose proof (wf_data _ Hwf) as Hd.
  destruct (data_wf_len _ Hd) as [Hul Hmax]. pose proof (lookup_lt_Some _ _ _ (proj1 Hb)) as Hil.
  unfold _zend_hash_del_el_ex. unfold get_bucket at 1. rewrite (aget_ok _ _ _ (proj1 Hb)). rsimp.
  destruct (unlink_ok ht i b prev Hwf Hin Hi Hb Hprev) as (hs & d & -> & Hun). rsimp.
  destruct (del_counters ht i b hs d Hwf Hi Hb Hun) as (m & E & Hm & Htrim).
  cbv zeta in E. rewrite E. rsimp. clear E. pose proof Hun as [Ulk [_ Ld] Uat _ _].
  set (ht2 := set_nNumOfElements _ _).
  assert (Hcnt : u32 (nNumOfElements ht - 1) = nNumOfElements ht - 1).
  { pose proof (wf_count _ Hd) as Hc. rewrite elems_contents_length in Hc.
    pose proof (contents_length_le (arData ht) (used ht)) as Hle.
    assert (Hin' : clear_next b ∈ contents (arData ht) (used ht)) by (apply contents_in; eauto).
    destruct (contents (arData ht) (used ht)); [set_solver|].
    unfold HT_MAX_SIZE in *. simpl in *. apply u32_small. lia. }
  assert (Hptr : exists ht3 eg3, (if (nInternalPointer ht2 =? Z.of_nat i) || negb (nIteratorsCount ht2 =? 0)
    then let! new_idx := next_live (S (length (arData ht2))) ht2 (Z.of_nat i) in
      let ht := if nInternalPointer ht2 =? Z.of_nat i then set_nInternalPointer new_idx ht2 else ht2 in
      Ok (ht, zend_hash_iterators_update ht (Z.of_nat i) new_idx eg) else Ok (ht2, eg)) = Ok (ht3, eg3) /\
    iters_only eg eg3 /\ exists r, ht3 = set_nInternalPointer r ht2 /\
    (if nInternalPointer ht =? Z.of_nat i then next_live_pos (arData ht) (used ht) i r
     else r = nInternalPointer ht)).
  { assert (Hm2 : used ht2 = m) by (unfold used; simpl; lia).
    change (nInternalPointer ht2) with (nInternalPointer ht).
    destruct (_ || _) eqn:Eor.
    - destruct (next_live_ok (S (length (arData ht2))) ht2 i) as (r & -> & Hr);
        rewrite ?Hm2; simpl; try lia. rsimp.
      eexists _, _. split; [reflexivity|]. split; [apply iterators_update_only|].
      rewrite Hm2 in Hr. apply (next_live_pos_relinked _ _ _ _ _ _ Ulk Hm Htrim) in Hr.
      destruct (_ =? Z.of_nat i); [by exists r|]. exists (nInternalPointer ht). by destruct ht.
    - apply orb_false_elim in Eor as [Eor _]. rewrite Eor. eexists _, _. split; [reflexivity|].
      split; [reflexivity|]. exists (nInternalPointer ht). by destruct ht. }
  destruct Hptr as (ht3 & eg3 & E3 & Hit & r & -> & Hr). cbv zeta in E3 |- *. rewrite E3. rsimp.
  clear E3.
  set (ht3 := set_nInternalPointer r ht2). unfold get_bucket, set_bucket.
  change (arData ht3) with d. rewrite (aget_ok d i b) by (rewrite Uat; apply Hb). rsimp.
  rewrite aset_ok by (by rewrite Ld). rsimp. set (ht4 := set_arData _ ht3).
  assert (He : erased ht ht4 i hs d m).
  { split; try done.
    - exists b. rewrite Uat. split; [apply Hb|done]. }
  eexists _, _. split; [reflexivity|]. split; try done.
  - by apply (erased_wf _ _ _ _ _ _ b Hwf Hin Hi Hb He).
  - by apply (erased_elems _ _ _ _ _ _ b Hd Hi Hb He).
  - change (dtor_events ht (b_val b)) with (dtor_events ht4 (b_val b)).
    eapply eg_step_iters; [exact Hit|].
    assert (Ec : cells eg3 = cells eg) by apply Hit. rewrite <- Ec.
    eapply eg_step_trans; [apply release_key_step|].
    assert (Ec' : cells (release_key (b_key b) eg3) = cells eg3) by apply release_key_step.
    rewrite <- Ec'. apply run_dtor_step.
  - by apply (erased_ptr_key _ _ _ _ _ _ b Hwf Hi Hb He).
  - by exists i, hs, d, m.
Qed.

(** ** The delete functions *)
Lemma del_by_ok ht f k :
  ht_wf ht -> tests_key ht f k -> 0 <= key_hash k ->
  (is_hashed ht = true \/ exists s, k = KStr s) ->
  exists r, del_by ht f (key_hash k) = Ok r /\
  match r with
  | None => key_pos ht k None
  | Some (idx, prev) => exists i b, idx = Z.of_nat i /\ key_at ht k i b /\ prev_ok ht i b prev
  end.
Proof.
  intros Hwf Ht Hh Hor. pose proof (repr_mask _ Hwf) as Hm. pose proof Hm as ((e & He & En) & _ & _).
  set (n := if is_hashed ht then nTableSize ht else 2) in *.
  pose proof (pow2_range e He). pose proof (Z.mod_pos_bound (key_hash k) n ltac:(lia)) as Hs.
  destruct (repr_slot ht _ Hwf Hs) as (head & Hhd & Hc). fold n in Hc.
  destruct (data_wf_len _ (wf_data _ Hwf)) as [Hu Hmax].
  unfold del_by. rewrite (HT_HASH_slot ht n), (aget_okZ _ _ head) by (done || lia). rsimp.
  set (l := if is_hashed ht then slot_list n _ _ _ else []) in Hc.
  destruct (del_loop_chain ht f (find_fuel ht) head None l Hmax Hc) as (r & -> & Hr).
  { unfold find_fuel, l. destruct (is_hashed ht); simpl; [|lia].
    pose proof (slot_list_length n (key_hash k mod n) (arData ht) (used ht)). lia. }
  exists r. split; [done|].
  assert (Hin : forall i b, key_at ht k i b -> i ∈ l /\ is_hashed ht = true /\ b_h b = key_hash k).
  { intros i b Hka. pose proof Hka as (Hi & Hl & Hk).
    destruct (bkey_hash ht i b (wf_data _ Hwf) Hi Hl) as [Hb _]. rewrite Hk in Hb.
    unfold l. destruct (is_hashed ht) eqn:Eh.
    - split; [|done]. apply slot_list_in. split; [done|]. rewrite <- Hb. by apply in_slot_live.
    - destruct Hor as [?|(s & ->)]; [done|].
      by destruct (not_hashed_int ht _ i b Hwf Eh Hka) as (h & ? & _). }
  assert (Hl : forall i, i ∈ l -> (i < used ht)%nat /\ exists b, live (arData ht) i b).
  { intros i. unfold l. destruct (is_hashed ht); [|set_solver].
    intros [? (b & ? & _)%in_slot_true]%slot_list_in. eauto. }
  destruct r as [[idx pv]|].
  - destruct Hr as (l1 & i & l2 & El & -> & Hf & ->). destruct (Hl i ltac:(rewrite El; set_solver)) as (Hi & b & Hb).
    exists i, b. split; [done|]. unfold test_at in Hf. rewrite (proj1 Hb), (Ht i b Hi Hb) in Hf.
    apply bool_decide_eq_true in Hf. assert (Hka : key_at ht k i b) by done. split; [done|].
    intros Eh. exists l1, l2. destruct (Hin i b Hka) as (_ & _ & ->). by unfold l, n in El; rewrite Eh in El.
  - intros i b Hka. destruct (Hin i b Hka) as [Hi' _]. specialize (Hr i Hi').
    destruct Hka as (Hi & Hb & Hk). unfold test_at in Hr.
    rewrite (proj1 Hb), (Ht i b Hi Hb) in Hr. by apply bool_decide_eq_false in Hr.
Qed.

(** [m] is a correct outcome of deleting [k]. *)
Definition del_correct (ht : HashTable) (eg : EG) (k : hkey) (m : res (HashTable * EG * Z)) : Prop :=
  match al_find k (elems ht) with
  | None => m = Ok (ht, eg, FAILURE)
  | Some v => exists ht' eg' i b, m = Ok (ht', eg', SUCCESS) /\
      key_at ht k i b /\ b_val b = v /\ del_result ht eg b ht' eg'
  end.

Lemma key_at_find ht k i b : data_wf ht -> key_at ht k i b ->
  al_find k (elems ht) = Some (b_val b).
Proof. intros Hwf (Hi & Hb & <-). apply (elems_of_find _ _ i b); [apply Hwf|done|done]. Qed.

Lemma key_none_find ht k : key_pos ht k None -> al_find k (elems ht) = None.
Proof. intros H. apply elems_of_find_None. intros i b Hi Hb Hk. by apply (H i b). Qed.

Lemma used_init ht i : data_wf ht -> (i < used ht)%nat -> f_initialized ht = true.
Proof.
  intros Hwf Hi. destruct (f_initialized ht) eqn:E; [done|].
  pose proof (wf_init_used _ Hwf E) as Hz. unfold used in Hi. lia.
Qed.

Lemma del_found ht eg k i b prev :
  ht_wf ht -> key_at ht k i b -> prev_ok ht i b prev ->
  del_correct ht eg k
    (let! (ht, eg) := _zend_hash_del_el_ex ht (Z.of_nat i) prev eg in Ok (ht, eg, SUCCESS)).
Proof.
  intros Hwf Hk Hp. unfold del_correct. rewrite (key_at_find ht k i b (wf_data _ Hwf) Hk).
  pose proof Hk as (Hi & Hb & _).
  destruct (del_el_ex_ok ht eg i b prev Hwf (used_init _ _ (wf_data _ Hwf) Hi) Hi Hb Hp)
    as (ht' & eg' & -> & Hr). exists ht', eg', i, b. done.
Qed.

Lemma del_by_correct ht eg f k :
  ht_wf ht -> tests_key ht f k -> 0 <= key_hash k ->
  (is_hashed ht = true \/ exists s, k = KStr s) ->
  del_correct ht eg k
    (let! found := del_by ht f (key_hash k) in
     match found with
     | Some (idx, prev) =>
         let! (ht, eg) := _zend_hash_del_el_ex ht idx prev eg in Ok (ht, eg, SUCCESS)
     | None => Ok (ht, eg, FAILURE)
     end).
Proof.
  intros Hwf Ht Hh Hor. destruct (del_by_ok ht f k Hwf Ht Hh Hor) as (r & -> & Hr). rsimp.
  destruct r as [[idx prev]|].
  - destruct Hr as (i & b & -> & Hk & Hp). by apply (del_found ht eg k i b prev).
  - unfold del_correct. by rewrite (key_none_find _ _ Hr).
Qed.

Lemma zend_hash_del_ok ht key eg : ht_wf ht -> zend_string_ok key ->
  del_correct ht eg (KStr (zs_val key)) (zend_hash_del ht key eg).
Proof.
  intros Hwf Hk. pose proof (hash_func_range (zs_val key)). unfold zend_hash_del.
  rewrite (hash_val_ok _ Hk). apply (del_by_correct ht eg _ (KStr (zs_val key)) Hwf);
    [by apply match_zstr_tests, Hwf|simpl; lia|eauto].
Qed.

Lemma zend_hash_str_del_ok ht str eg : ht_wf ht ->
  del_correct ht eg (KStr str) (zend_hash_str_del ht str eg).
Proof.
  intros Hwf. pose proof (hash_func_range str). apply (del_by_correct ht eg _ (KStr str) Hwf);
    [by apply match_str_tests, Hwf|simpl; lia|eauto].
Qed.

Lemma packed_live_key ht h b : ht_wf ht -> f_packed ht = true -> 0 <= h < nNumUsed ht ->
  live (arData ht) (Z.to_nat h) b -> key_at ht (KInt h) (Z.to_nat h) b.
Proof.
  intros Hwf Hp Hh Hb. pose proof (wf_repr _ Hwf) as Hrp. rewrite (packed_not_hashed _ Hp) in Hrp.
  assert (Hi : (Z.to_nat h < used ht)%nat) by (unfold used; lia).
  destruct (wf_p_keys _ Hrp _ b Hi Hb) as [E1 E2].
  split; [done|]. split; [done|]. unfold bkey. rewrite E2, E1. f_equal. lia.
Qed.

(** The packed branch: a bucket of a packed table at an integer key. *)
Lemma packed_bucket ht h : ht_wf ht -> f_packed ht = true -> 0 <= h < nNumUsed ht -> exists b,
  get_bucket ht h = Ok b /\
  (if is_undef (b_val b) then al_find (KInt h) (elems ht) = None
   else key_at ht (KInt h) (Z.to_nat h) b).
Proof.
  intros Hwf Hp Hh. destruct (data_wf_len _ (wf_data _ Hwf)) as [Hul _].
  destruct (lookup_lt_is_Some_2 (arData ht) (Z.to_nat h)) as [b Hb]; [unfold used in *; lia|].
  exists b. split; [apply aget_okZ; [lia|done]|]. destruct (is_undef (b_val b)) eqn:Eu.
  - apply elems_of_find_None. intros i c Hi Hc Hk.
    pose proof (packed_key_pos ht h i c Hwf Hp (conj Hi (conj Hc Hk))) as ->.
    rewrite Nat2Z.id in Hb. destruct Hc. congruence.
  - by apply packed_live_key.
Qed.

Lemma zend_hash_index_del_ok ht h eg : ht_wf ht -> 0 <= h ->
  del_correct ht eg (KInt h) (zend_hash_index_del ht h eg).
Proof.
  intros Hwf Hh. unfold zend_hash_index_del. destruct (f_packed ht) eqn:Ep.
  - destruct (Z.ltb_spec h (nNumUsed ht)).
    + destruct (packed_bucket ht h Hwf Ep ltac:(lia)) as (b & -> & Hb). rsimp.
      destruct (is_undef (b_val b)); cbn [negb]; [unfold del_correct; by rewrite Hb|].
      replace h with (Z.of_nat (Z.to_nat h)) at 2 by lia. apply del_found with b; try done.
      intros Eh. by rewrite (packed_not_hashed _ Ep) in Eh.
    + unfold del_correct. by rewrite packed_new.
  - destruct (is_hashed ht) eqn:Eh.
    + apply (del_by_correct ht eg _ (KInt h) Hwf); [by apply match_index_tests|done|by left].
    + assert (Ei : f_initialized ht = false)
        by (unfold is_hashed in Eh; rewrite Ep, andb_true_r in Eh; done).
      destruct (uninit_unused _ (wf_data _ Hwf) Ei) as (Hu & _ & He & _).
      unfold del_correct. rewrite He. simpl. unfold del_by.
      pose proof (repr_mask _ Hwf) as Hm. rewrite Eh in Hm.
      rewrite (HT_HASH_slot ht 2) by (done || lia).
      pose proof (wf_repr _ Hwf) as Hr. rewrite Eh in Hr. rewrite (wf_p_hash _ Hr).
      pose proof (Z.mod_pos_bound h 2). assert (h mod 2 = 0 \/ h mod 2 = 1) as [-> | ->] by lia; done.
Qed.

(** A correct outcome of the [_ind] variants: the cell behind an [IS_INDIRECT]
    value is emptied, and the entry stays. *)
Definition del_ind_correct (ht : HashTable) (eg : EG) (k : hkey) (m : res (HashTable * EG * Z))
    : Prop :=
  match al_find k (elems ht) with
  | Some (IS_INDIRECT a) =>
      let w := default IS_UNDEF (cells eg !! a) in
      if is_undef w then m = Ok (ht, eg, FAILURE)
      else exists eg', m = Ok (set_f_has_empty_ind true ht, eg', SUCCESS) /\
        eg_step (dtor_events ht w) (<[a := IS_UNDEF]> (cells eg)) eg eg'
  | _ => del_correct ht eg k m
  end.

Lemma del_ind_found ht eg k i b prev (ind : addr -> res (HashTable * EG * Z)) :
  ht_wf ht -> cells_ok ht eg -> key_at ht k i b -> prev_ok ht i b prev ->
  (forall a w, cells eg !! a = Some w ->
    if is_undef w then ind a = Ok (ht, eg, FAILURE)
    else exists eg', ind a = Ok (set_f_has_empty_ind true ht, eg', SUCCESS) /\
      eg_step (dtor_events ht w) (<[a := IS_UNDEF]> (cells eg)) eg eg') ->
  del_ind_correct ht eg k
    (let! p := get_bucket ht (Z.of_nat i) in
     match b_val p with
     | IS_INDIRECT a => ind a
     | _ => let! (ht, eg) := _zend_hash_del_el_ex ht (Z.of_nat i) prev eg in Ok (ht, eg, SUCCESS)
     end).
Proof.
  intros Hwf Hc Hk Hp Hind. pose proof Hk as (Hi & Hb & Ek).
  pose proof (del_found ht eg k i b prev Hwf Hk Hp) as Hdel.
  unfold get_bucket. rewrite (aget_ok _ _ _ (proj1 Hb)). rsimp.
  unfold del_ind_correct. rewrite (key_at_find ht k i b (wf_data _ Hwf) Hk).
  destruct (b_val b) as [| | | | | | | | | | |a|] eqn:Ev; try exact Hdel.
  destruct (Hc k a) as [w Hw]; [rewrite <- Ek, <- Ev; by apply (found_elem ht i)|].
  rewrite Hw. exact (Hind a w Hw).
Qed.

Lemma del_indirect_ok ht eg a w : cells eg !! a = Some w ->
  if is_undef w then del_indirect ht a eg = Ok (ht, eg, FAILURE)
  else exists eg', del_indirect ht a eg = Ok (set_f_has_empty_ind true ht, eg', SUCCESS) /\
    eg_step (dtor_events ht w) (<[a := IS_UNDEF]> (cells eg)) eg eg'.
Proof.
  intros Hw. unfold del_indirect, get_cell. rewrite Hw. rsimp. destruct (is_undef w); [done|].
  eexists. split; [reflexivity|]. pose proof (run_dtor_step ht w (set_cell eg a IS_UNDEF)) as [].
  by split.
Qed.

Lemma str_del_indirect_ok ht eg a w : cells eg !! a = Some w ->
  if is_undef w then str_del_indirect ht a eg = Ok (ht, eg, FAILURE)
  else exists eg', str_del_indirect ht a eg = Ok (set_f_has_empty_ind true ht, eg', SUCCESS) /\
    eg_step (dtor_events ht w) (<[a := IS_UNDEF]> (cells eg)) eg eg'.
Proof.
  intros Hw. unfold str_del_indirect, get_cell. rewrite Hw. rsimp. destruct (is_undef w); [done|].
  eexists. split; [reflexivity|]. pose proof (run_dtor_step ht w eg) as [].
  split; simpl; congruence.
Qed.

Lemma del_ind_none ht eg k : key_pos ht k None -> del_ind_correct ht eg k (Ok (ht, eg, FAILURE)).
Proof.
  intros H. unfold del_ind_correct, del_correct. by rewrite (key_none_find _ _ H).
Qed.

Lemma zend_hash_del_ind_ok ht key eg : ht_wf ht -> zend_string_ok key -> cells_ok ht eg ->
  del_ind_correct ht eg (KStr (zs_val key)) (zend_hash_del_ind ht key eg).
Proof.
  intros Hwf Hk Hc. pose proof (hash_func_range (zs_val key)). unfold zend_hash_del_ind.
  rewrite (hash_val_ok _ Hk).
  destruct (del_by_ok ht _ (KStr (zs_val key)) Hwf (match_zstr_tests ht key (wf_data _ Hwf)))
    as (r & E & Hr); [simpl; lia|eauto|]. simpl in E. rewrite E. rsimp.
  destruct r as [[idx prev]|]; [|by apply del_ind_none].
  destruct Hr as (i & b & -> & Hka & Hp).
  apply (del_ind_found ht eg _ i b prev (fun a => del_indirect ht a eg)); try done.
  intros a w. apply del_indirect_ok.
Qed.

Lemma zend_hash_str_del_ind_ok ht str eg : ht_wf ht -> cells_ok ht eg ->
  del_ind_correct ht eg (KStr str) (zend_hash_str_del_ind ht str eg).
Proof.
  intros Hwf Hc. pose proof (hash_func_range str). unfold zend_hash_str_del_ind.
  destruct (del_by_ok ht _ (KStr str) Hwf (match_str_tests ht str (wf_data _ Hwf)))
    as (r & E & Hr); [simpl; lia|eauto|]. simpl in E. rewrite E. rsimp.
  destruct r as [[idx prev]|]; [|by apply del_ind_none].
  destruct Hr as (i & b & -> & Hka & Hp).
  apply (del_ind_found ht eg _ i b prev (fun a => str_del_indirect ht a eg)); try done.
  intros a w. apply str_del_indirect_ok.
Qed.

(** [_zend_hash_del_el] finds the predecessor by walking the chain. *)
Lemma zend_hash_del_el_ok ht i b eg : ht_wf ht -> (i < used ht)%nat -> live (arData ht) i b ->
  exists ht' eg', _zend_hash_del_el ht (Z.of_nat i) eg = Ok (ht', eg') /\ del_result ht eg b ht' eg'.
Proof.
  intros Hwf Hi Hb. pose proof (used_init _ _ (wf_data _ Hwf) Hi) as Hin.
  destruct (data_wf_len _ (wf_data _ Hwf)) as [Hu Hmax].
  unfold _zend_hash_del_el. destruct (f_packed ht) eqn:Ep; cbn [negb]; rsimp.
  { apply del_el_ex_ok; try done. intros Eh. by rewrite (packed_not_hashed _ Ep) in Eh. }
  assert (Eh : is_hashed ht = true) by (unfold is_hashed; by rewrite Hin, Ep).
  pose proof (repr_mask _ Hwf) as Hm. pose proof (wf_repr _ Hwf) as Hr. rewrite Eh in Hm, Hr.
  pose proof Hm as ((k & Hk & En) & _ & _). pose proof (pow2_range k Hk).
  destruct (bkey_hash ht i b (wf_data _ Hwf) Hi Hb) as [_ Hb0].
  pose proof (Z.mod_pos_bound (b_h b) (nTableSize ht) ltac:(lia)) as Hs.
  destruct (wf_h_chains _ Hr _ Hs) as (head & Hhd & Hch).
  unfold get_bucket at 1. rewrite (aget_ok _ _ _ (proj1 Hb)). rsimp.
  rewrite (HT_HASH_slot ht (nTableSize ht)), (aget_okZ _ _ head) by (done || lia). rsimp.
  assert (Hl : i ∈ slot_list (nTableSize ht) (b_h b mod nTableSize ht) (arData ht) (used ht)).
  { apply slot_list_in. split; [done|]. by apply in_slot_live. }
  apply list_elem_of_split in Hl as (l1 & l2 & El).
  pose proof (slot_list_NoDup (nTableSize ht) (b_h b mod nTableSize ht) (arData ht) (used ht)) as Hnd.
  pose proof (slot_list_length (nTableSize ht) (b_h b mod nTableSize ht) (arData ht) (used ht)) as Hlen.
  rewrite El in Hch, Hnd, Hlen. destruct l1 as [|j l1].
  - destruct Hch as (-> & _). rewrite Z.eqb_refl. cbn [negb]. rsimp.
    apply del_el_ex_ok; try done. intros _. by exists [], l2.
  - pose proof Hch as (-> & _). apply NoDup_app in Hnd as (_ & Hnd & _).
    assert (Hji : j <> i) by (intros ->; apply (Hnd i); set_solver).
    destruct (Z.eqb_spec (Z.of_nat j) (Z.of_nat i)); [lia|]. cbn [negb].
    destruct (find_prev_chain ht (S (length (arData ht))) j l1 i l2 Hch) as (r & -> & Hr').
    { intros Hin'. apply (Hnd i); set_solver. }
    { rewrite length_app in Hlen. simpl in Hlen. lia. }
    rsimp. apply del_el_ex_ok; try done. intros _. by exists (j :: l1), l2.
Qed.

(** *** Properties *)

(** C6: Deleting by string or integer key removes exactly the entry of the key
    and keeps the order of the others; the bucket leaves its collision chain, the
    trailing holes are trimmed, the invariant holds again, the key's reference
    is released, the destructor runs once on the removed value, and an internal
    pointer on the entry moves to the next one.  An absent key is a failure that
    changes nothing. *)
Theorem del_entry_correct ht key h eg :
  ht_wf ht -> zend_string_ok key -> 0 <= h ->
  del_correct ht eg (KStr (zs_val key)) (zend_hash_del ht key eg) /\
  del_correct ht eg (KStr (zs_val key)) (zend_hash_str_del ht (zs_val key) eg) /\
  del_correct ht eg (KInt h) (zend_hash_index_del ht h eg).
Proof.
  intros Hwf Hk Hh. split; [by apply zend_hash_del_ok|]. split; [by apply zend_hash_str_del_ok|].
  by apply zend_hash_index_del_ok.
Qed.

Lemma del_entry_correct_witness :
  exists ht' eg', zend_hash_del sample_hash (sample_key ["a"%byte]) sample_eg = Ok (ht', eg', SUCCESS) /\
  ht_wf ht' /\ elems ht' = [(KInt 7, IS_INDIRECT 5%positive); (KStr ["a"; "b"]%byte, IS_TRUE)].
Proof.
  destruct (del_entry_correct sample_hash (sample_key ["a"%byte]) 0 sample_eg) as [H _].
  - exact sample_hash_wf.
  - right. reflexivity.
  - lia.
  - unfold del_correct in H. cbn [zs_val sample_key] in H.
    replace (al_find (KStr ["a"%byte]) (elems sample_hash)) with (Some (IS_LONG 1)) in H
      by (vm_compute; reflexivity).
    destruct H as (ht' & eg' & i & b & E & (_ & _ & Hk) & _ & R). exists ht', eg'.
    split; [exact E|]. split; [apply R|]. rewrite (dr_elems _ _ _ _ _ R), Hk.
    vm_compute. reflexivity.
Defined.

(** The [_ind] variants empty the cell that an [IS_INDIRECT] entry points to,
    keep the entry, flag the table, and fail when the cell is already empty; on
    other entries they delete as [zend_hash_del] does. *)
Theorem del_ind_entry_correct ht key eg :
  ht_wf ht -> zend_string_ok key -> cells_ok ht eg ->
  del_ind_correct ht eg (KStr (zs_val key)) (zend_hash_del_ind ht key eg) /\
  del_ind_correct ht eg (KStr (zs_val key)) (zend_hash_str_del_ind ht (zs_val key) eg).
Proof.
  intros Hwf Hk Hc. split; [by apply zend_hash_del_ind_ok|by apply zend_hash_str_del_ind_ok].
Qed.

Lemma del_ind_entry_correct_witness :
  del_ind_correct sample_hash sample_eg (KStr ["a"%byte])
    (zend_hash_del_ind sample_hash (sample_key ["a"%byte]) sample_eg).
Proof.
  refine (proj1 (del_ind_entry_correct sample_hash (sample_key ["a"%byte]) sample_eg _ _ _)).
  - exact sample_hash_wf.
  - right. reflexivity.
  - apply cells_okb_sound. vm_compute. reflexivity.
Defined.

(** [zend_hash_del_bucket] on a live bucket finds its predecessor by walking
    the chain, and deletes the entry. *)
Theorem del_bucket_correct ht i b eg :
  ht_wf ht -> (i < used ht)%nat -> live (arData ht) i b ->
  exists ht' eg', zend_hash_del_bucket ht (Z.of_nat i) eg = Ok (ht', eg') /\
  del_result ht eg b ht' eg'.
Proof. apply zend_hash_del_el_ok. Qed.

Lemma del_bucket_correct_witness : exists ht' eg' b,
  zend_hash_del_bucket sample_hash 3 sample_eg = Ok (ht', eg') /\
  del_result sample_hash sample_eg b ht' eg'.
Proof.
  destruct (arData sample_hash !! 3%nat) as [b|] eqn:E; [|vm_compute in E; discriminate E].
  assert (Hu : is_undef (b_val b) = false) by (vm_compute in E; injection E as <-; reflexivity).
  destruct (del_bucket_correct sample_hash 3 b sample_eg sample_hash_wf) as (ht' & eg' & H & R).
  - vm_compute. lia.
  - split; [exact E|exact Hu].
  - exists ht', eg', b. split; [exact H|exact R].
Defined.
