(* ===== verification/HashIter.v ===== *)
(** * The ordered hash table: positions and iteration
    ([zend_hash_internal_pointer_reset_ex] .. [zend_hash_get_current_data_ex],
    [zend_hash_minmax], [zend_array_count]) *)
From Stdlib Require Import Strings.Byte.
From S2P Require Export HashDelete.

(** ** Operations *)
Definition HASH_KEY_IS_STRING : Z := 1.
Definition HASH_KEY_IS_LONG : Z := 2.
Definition HASH_KEY_NON_EXISTENT : Z := 3.

(** [for (; idx < ht->nNumUsed; idx++) if (Z_TYPE(ht->arData[idx].val) != IS_UNDEF) ..]: the
    first live bucket from [idx] on. *)
Fixpoint first_live (fuel : nat) (ht : HashTable) (idx : Z) {struct fuel} : res (option Z) :=
  match fuel with
  | O => Err OutOfFuel
  | S fuel =>
      if idx <? nNumUsed ht then
        let! b := get_bucket ht idx in
        if negb (is_undef (b_val b)) then Ok (Some idx) else first_live fuel ht (idx + 1)
      else Ok None
  end.

(** [while (idx > 0) { idx--; if (Z_TYPE(ht->arData[idx].val) != IS_UNDEF) ..}] *)
Fixpoint prev_live (fuel : nat) (ht : HashTable) (idx : Z) {struct fuel} : res (option Z) :=
  match fuel with
  | O => Err OutOfFuel
  | S fuel =>
      if 0 <? idx then
        let idx := idx - 1 in
        let! b := get_bucket ht idx in
        if negb (is_undef (b_val b)) then Ok (Some idx) else prev_live fuel ht idx
      else Ok None
  end.

Definition pos_of (o : option Z) : Z := match o with Some p => p | None => HT_INVALID_IDX end.

(** The functions that move a position return its new value. *)
Definition zend_hash_internal_pointer_reset_ex (ht : HashTable) : res Z :=
  let! p := first_live (S (Z.to_nat (nNumUsed ht))) ht 0 in Ok (pos_of p).

Definition zend_hash_internal_pointer_end_ex (ht : HashTable) : res Z :=
  let! p := prev_live (S (Z.to_nat (nNumUsed ht))) ht (nNumUsed ht) in Ok (pos_of p).

Definition zend_hash_move_forward_ex (ht : HashTable) (pos : Z) : res (Z * Z) :=
  let idx := pos in
  if negb (idx =? HT_INVALID_IDX) then
    let! idx := next_live (S (length (arData ht))) ht idx in Ok (idx, SUCCESS)
  else Ok (pos, FAILURE).

Definition zend_hash_move_backwards_ex (ht : HashTable) (pos : Z) : res (Z * Z) :=
  let idx := pos in
  if negb (idx =? HT_INVALID_IDX) then
    let! p := prev_live (S (Z.to_nat idx)) ht idx in Ok (pos_of p, SUCCESS)
  else Ok (pos, FAILURE).

(** The key: the type, [*str_index] and [*num_index]. *)
Definition zend_hash_get_current_key_ex (ht : HashTable) (pos : Z)
    : res (Z * option zend_string * option Z) :=
  if negb (pos =? HT_INVALID_IDX) then
    let! p := get_bucket ht pos in
    match b_key p with
    | Some key => Ok (HASH_KEY_IS_STRING, Some key, None)
    | None => Ok (HASH_KEY_IS_LONG, None, Some (b_h p))
    end
  else Ok (HASH_KEY_NON_EXISTENT, None, None).

(** [ZVAL_STR_COPY] takes a reference to the key; [ZVAL_LONG] stores the
    unsigned index as a [zend_long]. *)
Definition zend_hash_get_current_key_zval_ex (ht : HashTable) (pos : Z) (eg : EG)
    : res (zval * EG) :=
  if pos =? HT_INVALID_IDX then Ok (IS_NULL, eg)
  else
    let! p := get_bucket ht pos in
    match b_key p with
    | Some key => Ok (IS_STRING key, zend_string_addref key eg)
    | None => Ok (IS_LONG (s64 (b_h p)), eg)
    end.

Definition zend_hash_get_current_key_type_ex (ht : HashTable) (pos : Z) : res Z :=
  if negb (pos =? HT_INVALID_IDX) then
    let! p := get_bucket ht pos in
    match b_key p with Some _ => Ok HASH_KEY_IS_STRING | None => Ok HASH_KEY_IS_LONG end
  else Ok HASH_KEY_NON_EXISTENT.

Definition zend_hash_get_current_data_ex (ht : HashTable) (pos : Z) : res (option zval_ptr) :=
  if negb (pos =? HT_INVALID_IDX) then
    let! p := get_bucket ht pos in Ok (Some (ZV_BUCKET pos))
  else Ok None.

(** ** [zend_array_count] *)
Definition undef_indirect (eg : EG) (v : zval) : res bool :=
  match v with
  | IS_INDIRECT a => let! data := get_cell eg a in Ok (is_undef data)
  | _ => Ok false
  end.

(** [ZEND_HASH_FOREACH_VAL] over the buckets [l]. *)
Fixpoint recalc_loop (eg : EG) (l : list Bucket) (num : Z) {struct l} : res Z :=
  match l with
  | [] => Ok num
  | p :: l =>
      if is_undef (b_val p) then recalc_loop eg l num
      else
        let! empty := undef_indirect eg (b_val p) in
        recalc_loop eg l (if empty then u32 (num - 1) else num)
  end.

Definition zend_array_recalc_elements (ht : HashTable) (eg : EG) : res Z :=
  recalc_loop eg (take (used ht) (arData ht)) (nNumOfElements ht).

(** [symbol_table] is the address of [EG(symbol_table)]. *)
Definition zend_array_count (ht : HashTable) (symbol_table : addr) (eg : EG)
    : res (HashTable * Z) :=
  if f_has_empty_ind ht then
    let! num := zend_array_recalc_elements ht eg in
    Ok (if nNumOfElements ht =? num then set_f_has_empty_ind false ht else ht, num)
  else if bool_decide (ht_addr ht = symbol_table) then
    let! num := zend_array_recalc_elements ht eg in Ok (ht, num)
  else Ok (ht, nNumOfElements ht).

(** ** [zend_hash_minmax], for a comparison function of the caller *)
Section MinMax.
Variable compar : Bucket -> Bucket -> Z.

Fixpoint minmax_loop (l : list (Z * Bucket)) (flag : bool) (r : Z * Bucket) {struct l} : Z * Bucket :=
  match l with
  | [] => r
  | (idx, p) :: l =>
      if is_undef (b_val p) then minmax_loop l flag r
      else if flag then
        minmax_loop l flag (if compar (snd r) p <? 0 then (idx, p) else r)
      else
        minmax_loop l flag (if 0 <? compar (snd r) p then (idx, p) else r)
  end.

Definition indexed (d : list Bucket) : list (Z * Bucket) :=
  zip (map Z.of_nat (seq 0 (length d))) d.

Definition zend_hash_minmax (ht : HashTable) (flag : bool) : res (option zval_ptr) :=
  if nNumOfElements ht =? 0 then Ok None
  else
    let! first := first_live (S (Z.to_nat (nNumUsed ht))) ht 0 in
    match first with
    | None => Ok None
    | Some idx =>
        let! p := get_bucket ht idx in
        let rest := drop (Z.to_nat idx) (take (used ht) (indexed (arData ht))) in
        Ok (Some (ZV_BUCKET (fst (minmax_loop rest flag (idx, p)))))
    end.
End MinMax.

(** ** The entries from a position on *)
Definition elems_from (d : list Bucket) (n i : nat) : alist := omap bucket_elem (drop i (take n d)).

Lemma elems_of_from d n i : (i <= n)%nat -> elems_of d n = elems_of d i ++ elems_from d n i.
Proof.
  intros Hi. unfold elems_of, elems_from. rewrite <- omap_app. f_equal.
  rewrite <- (take_drop i (take n d)) at 1. by rewrite take_take, Nat.min_l.
Qed.

Lemma elems_from_S d n i b : d !! i = Some b -> (i < n)%nat ->
  elems_from d n i = match bucket_elem b with Some e => [e] | None => [] end ++ elems_from d n (S i).
Proof.
  intros Hb Hi. unfold elems_from. rewrite (drop_S _ b i) by (by rewrite lookup_take_lt).
  simpl. by destruct (bucket_elem b).
Qed.

Lemma elems_from_live d n i b : live d i b -> (i < n)%nat ->
  elems_from d n i = (bkey b, b_val b) :: elems_from d n (S i).
Proof.
  intros Hb Hi. rewrite (elems_from_S d n i b (proj1 Hb) Hi). by rewrite (live_elem _ _ _ Hb).
Qed.

Lemma elems_from_end d n i : (n <= i)%nat -> elems_from d n i = [].
Proof. intros Hi. unfold elems_from. rewrite drop_ge; [done|]. rewrite length_take. lia. Qed.

Lemma elems_from_skip d n i j :
  (i <= j)%nat -> (forall k b, (i <= k < j)%nat -> ~ live d k b) ->
  elems_from d n i = elems_from d n j.
Proof.
  intros Hij. induction j as [|j IH]; intros Hno; [by replace i with 0%nat by lia|].
  destruct (decide (i = S j)) as [->|]; [done|]. rewrite IH; [|lia|intros; apply Hno; lia].
  destruct (decide (j < n)%nat) as [Hj|]; [|by rewrite !elems_from_end by lia].
  destruct (d !! j) as [b|] eqn:E.
  - rewrite (elems_from_S d n j b E Hj). unfold bucket_elem.
    destruct (is_undef (b_val b)) eqn:Eu; [done|]. by destruct (Hno j b); [lia|].
  - unfold elems_from. apply lookup_ge_None in E.
    rewrite !drop_ge; [done|rewrite length_take; lia|rewrite length_take; lia].
Qed.

Lemma elems_from_0 d n : elems_from d n 0 = elems_of d n.
Proof. done. Qed.

(** ** The loops *)
Definition first_live_pos (d : list Bucket) (n i : nat) (r : option Z) : Prop :=
  match r with
  | None => forall k b, (i <= k < n)%nat -> ~ live d k b
  | Some p => exists j b, p = Z.of_nat j /\ (i <= j < n)%nat /\ live d j b /\
      forall k c, (i <= k < j)%nat -> ~ live d k c
  end.

Lemma first_live_ok fuel ht (i : nat) :
  (used ht <= length (arData ht))%nat -> 0 <= nNumUsed ht -> (used ht - i < fuel)%nat ->
  exists r, first_live fuel ht (Z.of_nat i) = Ok r /\ first_live_pos (arData ht) (used ht) i r.
Proof.
  intros Hu H0. revert i. induction fuel as [|fuel IH]; intros i Hf; [lia|]. cbn [first_live].
  destruct (Z.ltb_spec (Z.of_nat i) (nNumUsed ht)).
  - destruct (lookup_lt_is_Some_2 (arData ht) i) as [b Hb]; [unfold used in *; lia|].
    unfold get_bucket. rewrite (aget_ok _ _ _ Hb). rsimp.
    destruct (is_undef (b_val b)) eqn:Eu; cbn [negb].
    + replace (Z.of_nat i + 1) with (Z.of_nat (S i)) by lia.
      destruct (IH (S i)) as (r & -> & Hr); [unfold used in *; lia|]. exists r. split; [done|].
      assert (Hno : forall c, ~ live (arData ht) i c) by (intros c [Hc Hv]; congruence).
      destruct r as [p|]; simpl in *.
      * destruct Hr as (j & c & -> & Hj & Hc & Hn). exists j, c. split; [done|]. split; [lia|].
        split; [done|]. intros k e Hk. destruct (decide (k = i)) as [->|]; [done|]. apply Hn. lia.
      * intros k c Hk. destruct (decide (k = i)) as [->|]; [done|]. apply Hr. lia.
    + exists (Some (Z.of_nat i)). split; [done|]. exists i, b. split; [done|].
      split; [unfold used; lia|]. split; [done|]. intros; lia.
  - exists None. split; [done|]. simpl. unfold used. intros; lia.
Qed.

Definition prev_live_pos (d : list Bucket) (i : nat) (r : option Z) : Prop :=
  match r with
  | None => forall k b, (k < i)%nat -> ~ live d k b
  | Some p => exists j b, p = Z.of_nat j /\ (j < i)%nat /\ live d j b /\
      forall k c, (j < k < i)%nat -> ~ live d k c
  end.

Lemma prev_live_ok fuel ht (i : nat) :
  (i <= length (arData ht))%nat -> (i < fuel)%nat ->
  exists r, prev_live fuel ht (Z.of_nat i) = Ok r /\ prev_live_pos (arData ht) i r.
Proof.
  revert i. induction fuel as [|fuel IH]; intros i Hi Hf; [lia|]. cbn [prev_live].
  destruct (Z.ltb_spec 0 (Z.of_nat i)); [|exists None; split; [done|]; simpl; intros; lia].
  destruct (lookup_lt_is_Some_2 (arData ht) (i - 1)) as [b Hb]; [lia|].
  replace (Z.of_nat i - 1) with (Z.of_nat (i - 1)) by lia.
  unfold get_bucket. rewrite (aget_ok _ _ _ Hb). rsimp.
  destruct (is_undef (b_val b)) eqn:Eu; cbn [negb].
  - destruct (IH (i - 1)%nat) as (r & -> & Hr); [lia|lia|]. exists r. split; [done|].
    assert (Hno : forall c, ~ live (arData ht) (i - 1) c) by (intros c [Hc Hv]; congruence).
    destruct r as [p|]; simpl in *.
    + destruct Hr as (j & c & -> & Hj & Hc & Hn). exists j, c. split; [done|]. split; [lia|].
      split; [done|]. intros k e Hk. destruct (decide (k = i - 1)%nat) as [->|]; [done|]. apply Hn. lia.
    + intros k c Hk. destruct (decide (k = i - 1)%nat) as [->|]; [done|]. apply Hr. lia.
  - exists (Some (Z.of_nat (i - 1))). split; [done|]. exists (i - 1)%nat, b. split; [done|].
    split; [lia|]. split; [done|]. intros; lia.
Qed.

(** ** Walking a table *)

(** The entry under a position, as the two [get_current] functions give it. *)
Definition current_entry (ht : HashTable) (eg : EG) (pos : Z) : res (hkey * zval) :=
  let! (ty, str, num) := zend_hash_get_current_key_ex ht pos in
  let! p := zend_hash_get_current_data_ex ht pos in
  match p with
  | Some p =>
      let! v := read_zval ht eg p in
      match str, num with
      | Some s, _ => Ok (KStr (zs_val s), v)
      | None, Some h => Ok (KInt h, v)
      | None, None => Err OutOfBounds
      end
  | None => Err OutOfBounds
  end.

(** A client's loop: [for (reset; (data = get_current_data); move) ..]. *)
Fixpoint walk (fuel : nat) (move : Z -> res (Z * Z)) (entry_at : Z -> res (hkey * zval))
    (pos : Z) {struct fuel} : res alist :=
  match fuel with
  | O => Err OutOfFuel
  | S fuel =>
      if pos =? HT_INVALID_IDX then Ok []
      else
        let! e := entry_at pos in
        let! (pos, _) := move pos in
        let! l := walk fuel move entry_at pos in
        Ok (e :: l)
  end.

Definition walk_forward (ht : HashTable) (eg : EG) : res alist :=
  let! pos := zend_hash_internal_pointer_reset_ex ht in
  walk (S (used ht)) (zend_hash_move_forward_ex ht) (current_entry ht eg) pos.

Definition walk_backward (ht : HashTable) (eg : EG) : res alist :=
  let! pos := zend_hash_internal_pointer_end_ex ht in
  walk (S (used ht)) (zend_hash_move_backwards_ex ht) (current_entry ht eg) pos.

Lemma walk_S fuel move entry_at pos :
  walk (S fuel) move entry_at pos =
  if pos =? HT_INVALID_IDX then Ok []
  else
    let! e := entry_at pos in
    let! (pos, _) := move pos in
    let! l := walk fuel move entry_at pos in
    Ok (e :: l).
Proof. done. Qed.

Lemma live_not_invalid ht i b : data_wf ht -> live (arData ht) i b ->
  Z.of_nat i <> HT_INVALID_IDX.
Proof.
  intros Hwf [Hb _]. apply lookup_lt_Some in Hb. destruct (data_wf_len _ Hwf) as [_ Hm].
  unfold HT_INVALID_IDX, HT_MAX_SIZE in *. lia.
Qed.

Lemma current_entry_ok ht eg i b : data_wf ht -> live (arData ht) i b ->
  current_entry ht eg (Z.of_nat i) = Ok (bkey b, b_val b).
Proof.
  intros Hwf Hb. pose proof (live_not_invalid _ _ _ Hwf Hb) as Hne. unfold current_entry,
    zend_hash_get_current_key_ex, zend_hash_get_current_data_ex, get_bucket, bkey.
  rewrite (proj2 (Z.eqb_neq _ _) Hne). cbn [negb]. rewrite (aget_ok _ _ _ (proj1 Hb)). rsimp.
  destruct (b_key b); rsimp; unfold read_zval, get_bucket; by rewrite (aget_ok _ _ _ (proj1 Hb)).
Qed.

Lemma walk_forward_from ht eg fuel (i : nat) b :
  data_wf ht -> (i < used ht)%nat -> live (arData ht) i b -> (used ht - i < fuel)%nat ->
  walk fuel (zend_hash_move_forward_ex ht) (current_entry ht eg) (Z.of_nat i) =
  Ok (elems_from (arData ht) (used ht) i).
Proof.
  intros Hwf. revert i b. induction fuel as [|fuel IH]; intros i b Hi Hb Hf; [lia|].
  destruct (data_wf_len _ Hwf) as [Hu Hm]. cbn [walk].
  pose proof (live_not_invalid _ _ _ Hwf Hb) as Hne. rewrite (proj2 (Z.eqb_neq _ _) Hne).
  rewrite (current_entry_ok ht eg i b Hwf Hb). rsimp. unfold zend_hash_move_forward_ex at 1.
  rewrite (proj2 (Z.eqb_neq _ _) Hne). cbn [negb].
  destruct (next_live_ok (S (length (arData ht))) ht i) as (r & -> & Hr); try lia. rsimp.
  rewrite (elems_from_live _ _ _ _ Hb Hi). destruct Hr as [[-> Hno]|(j & c & -> & Hj & Hc & Hno)].
  - rewrite (elems_from_skip _ _ (S i) (used ht)); [|lia|intros; apply Hno; lia].
    rewrite elems_from_end by lia. destruct fuel; [lia|done].
  - rewrite (IH j c); [|lia|done|lia]. rsimp.
    rewrite (elems_from_skip _ _ (S i) j); [done|lia|intros; apply Hno; lia].
Qed.

Lemma walk_backward_from ht eg fuel (i : nat) b :
  data_wf ht -> live (arData ht) i b -> (i < fuel)%nat ->
  walk (S fuel) (zend_hash_move_backwards_ex ht) (current_entry ht eg) (Z.of_nat i) =
  Ok (rev (elems_of (arData ht) (S i))).
Proof.
  intros Hwf. revert i b. induction fuel as [|fuel IH]; intros i b Hb Hf; [lia|].
  pose proof (lookup_lt_Some _ _ _ (proj1 Hb)) as Hil. rewrite walk_S.
  pose proof (live_not_invalid _ _ _ Hwf Hb) as Hne. rewrite (proj2 (Z.eqb_neq _ _) Hne).
  rewrite (current_entry_ok ht eg i b Hwf Hb). rsimp. unfold zend_hash_move_backwards_ex at 1.
  rewrite (proj2 (Z.eqb_neq _ _) Hne). cbn [negb].
  destruct (prev_live_ok (S (Z.to_nat (Z.of_nat i))) ht i) as (r & -> & Hr); [lia|lia|]. rsimp.
  rewrite (elems_of_S _ _ _ (proj1 Hb)), (live_elem _ _ _ Hb), rev_app_distr.
  destruct r as [p|]; cbn [pos_of].
  - destruct Hr as (j & c & -> & Hj & Hc & Hno).
    rewrite (IH j c Hc ltac:(lia)). rsimp.
    rewrite (elems_of_trim (arData ht) i (S j)); [done|lia|]. intros k e Hk He.
    destruct (is_undef (b_val e)) eqn:E; [done|]. by destruct (Hno k e); [lia|].
  - rewrite (elems_of_trim (arData ht) i 0); [done|lia|]. intros k e Hk He.
    destruct (is_undef (b_val e)) eqn:E; [done|]. by destruct (Hr k e); [lia|].
Qed.

Lemma walk_forward_ok ht eg : ht_wf ht -> walk_forward ht eg = Ok (elems ht).
Proof.
  intros [Hwf _ _]. destruct (data_wf_len _ Hwf) as [Hu _]. pose proof (wf_used _ Hwf).
  unfold walk_forward, zend_hash_internal_pointer_reset_ex.
  destruct (first_live_ok (S (Z.to_nat (nNumUsed ht))) ht 0) as (r & E & Hr);
    [lia|lia|unfold used; lia|].
  change (Z.of_nat 0) with 0 in E. rewrite E. rsimp. destruct r as [p|]; cbn [pos_of].
  - destruct Hr as (j & b & -> & Hj & Hb & Hno).
    rewrite (walk_forward_from ht eg _ j b Hwf); [|lia|done|lia].
    by rewrite <- (elems_from_skip _ _ 0 j) by (lia || done).
  - rewrite walk_S, Z.eqb_refl. f_equal. unfold elems. fold (used ht).
    rewrite <- elems_from_0, (elems_from_skip _ _ 0 (used ht)) by (lia || done).
    by rewrite elems_from_end.
Qed.

Lemma walk_backward_ok ht eg : ht_wf ht -> walk_backward ht eg = Ok (rev (elems ht)).
Proof.
  intros [Hwf _ _]. destruct (data_wf_len _ Hwf) as [Hu _]. pose proof (wf_used _ Hwf) as Hu0.
  unfold walk_backward, zend_hash_internal_pointer_end_ex.
  destruct (prev_live_ok (S (Z.to_nat (nNumUsed ht))) ht (used ht)) as (r & E & Hr);
    [lia|unfold used; lia|].
  replace (Z.of_nat (used ht)) with (nNumUsed ht) in E by (unfold used; lia).
  rewrite E. rsimp. destruct r as [p|]; cbn [pos_of].
  - destruct Hr as (j & b & -> & Hj & Hb & Hno).
    rewrite (walk_backward_from ht eg _ j b Hwf Hb) by lia. f_equal. f_equal.
    unfold elems. fold (used ht). symmetry. apply elems_of_trim; [lia|]. intros k e Hk He.
    destruct (is_undef (b_val e)) eqn:Ee; [done|]. by destruct (Hno k e); [lia|].
  - rewrite walk_S, Z.eqb_refl. unfold elems. fold (used ht).
    rewrite (elems_of_trim _ (used ht) 0); [done|lia|]. intros k e Hk He.
    destruct (is_undef (b_val e)) eqn:Ee; [done|]. by destruct (Hr k e); [lia|].
Qed.

(** *** Counting *)

(** Whether an entry counts: not an [IS_INDIRECT] to an empty cell. *)
Definition counts (eg : EG) (e : hkey * zval) : bool :=
  match snd e with
  | IS_INDIRECT a => negb (is_undef (default IS_UNDEF (cells eg !! a)))
  | _ => true
  end.

Lemma recalc_loop_ok eg l num :
  (forall k a, (k, IS_INDIRECT a) ∈ omap bucket_elem l -> is_Some (cells eg !! a)) ->
  Z.of_nat (length (omap bucket_elem l)) <= num < 2 ^ 32 ->
  recalc_loop eg l num =
  Ok (num - Z.of_nat (length (List.filter (fun e => negb (counts eg e)) (omap bucket_elem l)))).
Proof.
  revert num. induction l as [|p l IH]; intros num Hc Hn; [simpl; f_equal; lia|].
  cbn [recalc_loop]. destruct (is_undef (b_val p)) eqn:Eu.
  { assert (E : omap bucket_elem (p :: l) = omap bucket_elem l)
      by (simpl; unfold bucket_elem at 1; by rewrite Eu).
    rewrite E in *. by apply IH. }
  assert (E : omap bucket_elem (p :: l) = (bkey p, b_val p) :: omap bucket_elem l)
    by (simpl; unfold bucket_elem at 1; by rewrite Eu).
  rewrite E in *. cbn [length List.filter] in *. unfold counts at 1. cbn [snd].
  assert (Htl : forall k a, (k, IS_INDIRECT a) ∈ omap bucket_elem l -> is_Some (cells eg !! a))
    by (intros k a Hin; apply (Hc k a); by right).
  destruct (b_val p) as [| | | | | | | | | | |a|] eqn:Ev; cbn [undef_indirect rbind negb];
    try (apply IH; [done|lia]).
  destruct (Hc (bkey p) a) as [w Hw]; [by left|]. unfold get_cell. rewrite Hw. rsimp.
  change (default IS_UNDEF (Some w)) with w. rewrite negb_involutive.
  destruct (is_undef w); cbn [length]; [|apply IH; [done|lia]].
  rewrite u32_small by lia. rewrite IH by (done || lia). f_equal. lia.
Qed.

(** ** Minimum and maximum *)
Section MinMaxFacts.
Variable compar : Bucket -> Bucket -> Z.

(** [compar] orders buckets totally, as [qsort]'s convention asks. *)
Definition total_order : Prop :=
  (forall a, compar a a = 0) /\
  (forall a b c, compar a b <= 0 -> compar b c <= 0 -> compar a c <= 0) /\
  (forall a b, compar a b < 0 <-> 0 < compar b a).

(** [r] is at least (at most, for the minimum) [c]. *)
Definition dominates (flag : bool) (r c : Bucket) : Prop :=
  if flag then 0 <= compar r c else compar r c <= 0.

Lemma dominates_trans flag a b c :
  total_order -> dominates flag a b -> dominates flag b c -> dominates flag a c.
Proof.
  intros (H1 & H2 & H3). unfold dominates. destruct flag; [|apply H2]. intros Hab Hbc.
  assert (Hle : forall x y, 0 <= compar x y -> compar y x <= 0).
  { intros x y Hxy. destruct (Z.le_gt_cases (compar y x) 0) as [|Hgt]; [done|].
    apply Z.lt_gt, Z.gt_lt, H3 in Hgt. lia. }
  destruct (Z.le_gt_cases 0 (compar a c)) as [|Hlt]; [done|]. apply H3 in Hlt.
  pose proof (H2 c b a (Hle b c Hbc) (Hle a b Hab)). lia.
Qed.

Lemma minmax_loop_ok l flag r :
  total_order ->
  let s := minmax_loop compar l flag r in
  (s = r \/ (s ∈ l /\ is_undef (b_val (snd s)) = false)) /\
  dominates flag (snd s) (snd r) /\
  forall p, p ∈ l -> is_undef (b_val (snd p)) = false -> dominates flag (snd s) (snd p).
Proof.
  intros Ho. pose proof Ho as (H1 & _ & H3). revert r. induction l as [|[idx p] l IH]; intros r s.
  - split; [by left|]. split; [|intros q Hq; set_solver]. unfold dominates, s. simpl.
    rewrite H1. destruct flag; lia.
  - set (r' := if flag then if compar (snd r) p <? 0 then (idx, p) else r
               else if 0 <? compar (snd r) p then (idx, p) else r).
    assert (Es : s = if is_undef (b_val p) then minmax_loop compar l flag r
                     else minmax_loop compar l flag r').
    { unfold s, r'. simpl. by destruct (is_undef (b_val p)), flag. }
    clearbody s. destruct (is_undef (b_val p)) eqn:Eu.
    { destruct (IH r) as (A & B & C). rewrite <- Es in *. split; [set_solver|]. split; [done|].
      intros q [->|Hq]%elem_of_cons Hu; [simpl in Hu; congruence|auto]. }
    destruct (IH r') as (A & B & C). rewrite <- Es in *.
    assert (D : dominates flag (snd r') (snd r) /\ dominates flag (snd r') p).
    { unfold r', dominates. pose proof (H3 (snd r) p). pose proof (H3 p (snd r)).
      destruct flag; zcases; simpl; rewrite ?H1; lia. }
    split; [|split].
    + destruct A as [->|[? ?]]; [|right; set_solver]. unfold r'.
      destruct flag; zcases; (by left) || (right; set_solver).
    + by eapply dominates_trans, D.
    + intros q [->|Hq]%elem_of_cons Hu; [|auto]. simpl. by eapply dominates_trans, D.
Qed.
End MinMaxFacts.

Lemma indexed_lookup d i b : d !! i = Some b -> indexed d !! i = Some (Z.of_nat i, b).
Proof.
  intros Hb. unfold indexed. pose proof (lookup_lt_Some _ _ _ Hb).
  rewrite lookup_zip_Some. split; [|done]. by rewrite list_lookup_fmap, lookup_seq_lt.
Qed.

Lemma indexed_inv d i p : indexed d !! i = Some p -> d !! i = Some (snd p) /\ fst p = Z.of_nat i.
Proof.
  destruct p as [z b]. unfold indexed. rewrite lookup_zip_Some. intros [H1 H2].
  split; [done|]. rewrite list_lookup_fmap in H1. simpl.
  destruct (seq 0 (length d) !! i) as [k|] eqn:E; [|done]. apply lookup_seq in E as [-> _].
  simpl in H1. congruence.
Qed.

Lemma minmax_ok compar ht flag : ht_wf ht -> total_order compar ->
  match zend_hash_minmax compar ht flag with
  | Ok None => elems ht = []
  | Ok (Some p) => exists i b, p = ZV_BUCKET (Z.of_nat i) /\ (i < used ht)%nat /\
      live (arData ht) i b /\
      forall j c, (j < used ht)%nat -> live (arData ht) j c -> dominates compar flag b c
  | Err _ => False
  end.
Proof.
  intros [Hwf _ _] Ho. destruct (data_wf_len _ Hwf) as [Hu _]. pose proof (wf_used _ Hwf).
  unfold zend_hash_minmax. destruct (Z.eqb_spec (nNumOfElements ht) 0) as [Hz|Hnz].
  { pose proof (wf_count _ Hwf) as Hc. apply length_zero_iff_nil. lia. }
  destruct (first_live_ok (S (Z.to_nat (nNumUsed ht))) ht 0) as (r & E & Hr);
    [lia|lia|unfold used; lia|].
  change (Z.of_nat 0) with 0 in E. rewrite E. rsimp. destruct r as [p|].
  2: { unfold elems. fold (used ht). rewrite <- elems_from_0, (elems_from_skip _ _ 0 (used ht))
         by (lia || done). by rewrite elems_from_end. }
  destruct Hr as (i & b & -> & Hi & Hb & Hno). unfold get_bucket. rewrite (aget_ok _ _ _ (proj1 Hb)). rsimp.
  rewrite Nat2Z.id. set (l := drop i _).
  destruct (minmax_loop_ok compar l flag (Z.of_nat i, b) Ho) as (A & B & C).
  set (s := minmax_loop compar l flag (Z.of_nat i, b)) in *.
  assert (Hl : forall q, q ∈ l -> exists k, (i <= k < used ht)%nat /\ fst q = Z.of_nat k /\
    arData ht !! k = Some (snd q)).
  { intros q [k Hk]%list_elem_of_lookup. unfold l in Hk. rewrite lookup_drop in Hk.
    apply lookup_take_Some in Hk as [Hk Hlt]. apply indexed_inv in Hk as [H1 H2].
    exists (i + k)%nat. split; [lia|]. by split. }
  assert (Hs : exists k, (k < used ht)%nat /\ fst s = Z.of_nat k /\ live (arData ht) k (snd s)).
  { destruct A as [->|[Hin Hv]]; [exists i; split; [lia|]; by split|].
    destruct (Hl s Hin) as (k & Hk & E1 & E2). exists k. split; [lia|]. by split. }
  destruct Hs as (k & Hk & E1 & E2). exists k, (snd s). rewrite E1. split; [done|].
  split; [done|]. split; [done|]. intros j c Hj Hc.
  destruct (decide (i <= j)%nat) as [Hij|]; [|destruct (Hno j c); [lia|done]].
  apply (C (Z.of_nat j, c)); [|apply Hc]. apply list_elem_of_lookup. exists (j - i)%nat.
  unfold l. rewrite lookup_drop. replace (i + (j - i))%nat with j by lia.
  rewrite lookup_take_lt by done. by apply indexed_lookup, Hc.
Qed.

(** *** Properties *)

(** C28: A client that resets the position, reads key and data, and moves forward
    until the position is invalid sees exactly the entries of the table in
    insertion order; from the end backwards it sees them in reverse.  Both walks
    terminate, whatever the holes. *)
Theorem walk_enumerates ht eg :
  ht_wf ht -> walk_forward ht eg = Ok (elems ht) /\ walk_backward ht eg = Ok (rev (elems ht)).
Proof. intros Hwf. split; [by apply walk_forward_ok|by apply walk_backward_ok]. Qed.

Lemma walk_enumerates_witness :
  walk_backward sample_packed sample_eg =
  Ok [(KInt 2, IS_STRING (sample_key ["a"%byte])); (KInt 0, IS_LONG 10)].
Proof.
  destruct (walk_enumerates sample_packed sample_eg sample_packed_wf) as [_ ->].
  vm_compute. reflexivity.
Defined.

(** [zend_array_count] on a table with empty cells behind [IS_INDIRECT] (or on
    the symbol table) is the number of entries that have a value; when no cell is
    empty any more the flag is dropped.  Otherwise it is the number of entries. *)
Theorem array_count_correct ht symbol_table eg :
  ht_wf ht -> cells_ok ht eg ->
  exists ht', zend_array_count ht symbol_table eg = Ok (ht',
    Z.of_nat (length (if f_has_empty_ind ht || bool_decide (ht_addr ht = symbol_table)
                      then List.filter (counts eg) (elems ht) else elems ht))) /\
  ht_wf ht' /\ elems ht' = elems ht /\
  (f_has_empty_ind ht' = true -> f_has_empty_ind ht = true /\ List.filter (counts eg) (elems ht) <> elems ht).
Proof.
  intros Hwf Hc. pose proof (wf_data _ Hwf) as Hd. pose proof (wf_count _ Hd) as Hn.
  pose proof (data_wf_size _ Hd) as Hsz. pose proof (wf_used _ Hd) as Hu. unfold HT_MAX_SIZE in Hsz.
  pose proof (contents_length_le (arData ht) (used ht)) as Hle. rewrite <- elems_contents_length in Hle.
  assert (Hpart : (length (List.filter (counts eg) (elems ht)) +
    length (List.filter (fun e => negb (counts eg e)) (elems ht)) = length (elems ht))%nat)
    by apply List.filter_length.
  assert (Hr : zend_array_recalc_elements ht eg =
    Ok (Z.of_nat (length (List.filter (counts eg) (elems ht))))).
  { unfold zend_array_recalc_elements. rewrite recalc_loop_ok.
    - change (omap bucket_elem (take (used ht) (arData ht))) with (elems ht). f_equal. lia.
    - exact Hc.
    - change (omap bucket_elem (take (used ht) (arData ht))) with (elems ht).
      unfold used in *. lia. }
  unfold zend_array_count. rewrite Hr. destruct (f_has_empty_ind ht) eqn:Ef; simpl.
  - eexists. split; [reflexivity|]. rewrite Hn.
    destruct (Z.eqb_spec (Z.of_nat (length (elems ht)))
      (Z.of_nat (length (List.filter (counts eg) (elems ht))))) as [E|E].
    + split; [|split; [done|discriminate]]. eapply same_repr_wf; [|exact Hwf]. done.
    + split; [done|]. split; [done|]. intros _. split; [done|]. intros Eq. rewrite Eq in E. lia.
  - exists ht. destruct (bool_decide _); rsimp; rewrite ?Hn; (split; [done|]);
      (split; [done|]); (split; [done|]); by rewrite Ef.
Qed.

Lemma array_count_correct_witness :
  exists ht', zend_array_count sample_hash 1%positive
    (set_cell sample_eg 5%positive IS_UNDEF) = Ok (ht', 2).
Proof.
  destruct (array_count_correct sample_hash 1%positive (set_cell sample_eg 5%positive IS_UNDEF))
    as (ht' & E & _).
  - exact sample_hash_wf.
  - apply cells_okb_sound. vm_compute. reflexivity.
  - exists ht'. rewrite E. vm_compute. reflexivity.
Defined.

(** For a comparison function that orders buckets totally, [zend_hash_minmax]
    returns [NULL] only on an empty table and otherwise a live element that no
    other element exceeds (undercuts, for the minimum). *)
Theorem minmax_correct compar ht flag :
  ht_wf ht -> total_order compar ->
  match zend_hash_minmax compar ht flag with
  | Ok None => elems ht = []
  | Ok (Some p) => exists i b, p = ZV_BUCKET (Z.of_nat i) /\ (i < used ht)%nat /\
      live (arData ht) i b /\
      forall j c, (j < used ht)%nat -> live (arData ht) j c -> dominates compar flag b c
  | Err _ => False
  end.
Proof. apply minmax_ok. Qed.

Lemma minmax_correct_witness :
  match zend_hash_minmax (fun a b => b_h a - b_h b) sample_packed true with
  | Ok (Some p) => p = ZV_BUCKET 2 | _ => False end.
Proof.
  assert (Ho : total_order (fun a b => b_h a - b_h b)).
  { split; [intros a; lia|]. split; [intros a b c; lia|intros a b; lia]. }
  pose proof (minmax_correct (fun a b => b_h a - b_h b) sample_packed true sample_packed_wf Ho) as H.
  destruct (zend_hash_minmax (fun a b => b_h a - b_h b) sample_packed true) as [[p|]|e] eqn:E;
    vm_compute in E; [injection E as <-; reflexivity|discriminate E|discriminate E].
Defined.
