(* ===== verification/HashIterators.v ===== *)
(** * The ordered hash table: the executor's iterator slots
    ([zend_hash_iterator_add], [zend_hash_iterator_pos], [zend_hash_iterator_del])

    [EG(ht_iterators)] is an array of slots shared by all tables; a table counts
    its iterators in one byte, which sticks at 255.  The tables live in a store
    indexed by their address. *)
From S2P Require Export HashIter.

(** ** Operations *)
Abbreviation tables := (gmap addr HashTable).

Definition set_iterators (l : list HashTableIterator) (used : Z) (eg : EG) : EG :=
  mkEG l used (cells eg) (fresh_bucket eg) (fresh_idx eg) (next_serial eg) (events eg).

(** [if (EXPECTED(ht->u.v.nIteratorsCount != 255)) ht->u.v.nIteratorsCount++;] *)
Definition inc_iterators (ht : HashTable) : HashTable :=
  if negb (nIteratorsCount ht =? 255) then set_nIteratorsCount (u8 (nIteratorsCount ht + 1)) ht
  else ht.

(** [if (EXPECTED(iter->ht) && EXPECTED(iter->ht != HT_POISONED_PTR) &&
    EXPECTED(iter->ht->u.v.nIteratorsCount != 255)) iter->ht->u.v.nIteratorsCount--;] *)
Definition dec_count (ht : HashTable) : HashTable :=
  if negb (nIteratorsCount ht =? 255) then set_nIteratorsCount (u8 (nIteratorsCount ht - 1)) ht
  else ht.

Definition dec_iterators (tabs : tables) (it : HashTableIterator) : res tables :=
  match it_ht it with
  | HT_PTR a =>
      match tabs !! a with
      | Some ht => Ok (<[a := dec_count ht]> tabs)
      | None => Err OutOfBounds
      end
  | _ => Ok tabs
  end.

Definition get_table (tabs : tables) (a : addr) : res HashTable :=
  match tabs !! a with Some ht => Ok ht | None => Err OutOfBounds end.

(** The first slot with [iter->ht == NULL]. *)
Fixpoint free_slot (l : list HashTableIterator) : option nat :=
  match l with
  | [] => None
  | it :: l => if bool_decide (it_ht it = HT_NULL) then Some 0%nat else S <$> free_slot l
  end.

Definition zend_hash_iterator_add (tabs : tables) (a : addr) (pos : Z) (eg : EG)
    : res (tables * EG * Z) :=
  let! ht := get_table tabs a in
  let tabs := <[a := inc_iterators ht]> tabs in
  match free_slot (ht_iterators eg) with
  | Some i =>
      let idx := Z.of_nat i in
      let used := if ht_iterators_used eg <? idx + 1 then idx + 1 else ht_iterators_used eg in
      Ok (tabs, set_iterators (<[i := mkIter (HT_PTR a) pos]> (ht_iterators eg)) used eg, idx)
  | None =>
      let idx := Z.of_nat (length (ht_iterators eg)) in
      Ok (tabs, set_iterators
            (ht_iterators eg ++ mkIter (HT_PTR a) pos :: replicate 7 (mkIter HT_NULL 0))
            (idx + 1) eg, idx)
  end.

Definition zend_hash_iterator_pos (tabs : tables) (idx : Z) (a : addr) (eg : EG)
    : res (tables * EG * Z) :=
  let! iter := aget (ht_iterators eg) idx in
  let! ht := get_table tabs a in
  if it_pos iter =? HT_INVALID_IDX then Ok (tabs, eg, HT_INVALID_IDX)
  else if negb (bool_decide (it_ht iter = HT_PTR a)) then
    let! tabs := dec_iterators tabs iter in
    let! ht := get_table tabs a in
    let tabs := <[a := inc_iterators ht]> tabs in
    let! l := aset (ht_iterators eg) idx (mkIter (HT_PTR a) (nInternalPointer ht)) in
    Ok (tabs, set_ht_iterators l eg, nInternalPointer ht)
  else Ok (tabs, eg, it_pos iter).

(** [while (idx > 0 && EG(ht_iterators)[idx - 1].ht == NULL) idx--;] *)
Fixpoint trim_slots (fuel : nat) (l : list HashTableIterator) (idx : Z) {struct fuel} : res Z :=
  match fuel with
  | O => Err OutOfFuel
  | S fuel =>
      if 0 <? idx then
        let! it := aget l (idx - 1) in
        if bool_decide (it_ht it = HT_NULL) then trim_slots fuel l (idx - 1) else Ok idx
      else Ok idx
  end.

Definition zend_hash_iterator_del (tabs : tables) (idx : Z) (eg : EG) : res (tables * EG) :=
  let! iter := aget (ht_iterators eg) idx in
  let! tabs := dec_iterators tabs iter in
  let! l := aset (ht_iterators eg) idx (mkIter HT_NULL (it_pos iter)) in
  if idx =? ht_iterators_used eg - 1 then
    let! used := trim_slots (S (Z.to_nat idx)) l idx in
    Ok (tabs, set_iterators l used eg)
  else Ok (tabs, set_ht_iterators l eg).

(** ** Invariant: slots at or above [ht_iterators_used] are free, every slot in
    use points to a table, and each table's count is the number of its slots,
    unless it has stuck at 255. *)
Definition slots_of (a : addr) (l : list HashTableIterator) : nat :=
  length (List.filter (fun it => bool_decide (it_ht it = HT_PTR a)) l).

Definition count_ok (n : nat) (c : Z) : Prop :=
  c = 255 \/ (c = Z.of_nat n /\ c < 255).

Record iterators_wf (tabs : tables) (eg : EG) : Prop := mk_iterators_wf {
  iw_used : 0 <= ht_iterators_used eg <= Z.of_nat (length (ht_iterators eg));
  iw_free : forall i it, (Z.to_nat (ht_iterators_used eg) <= i)%nat ->
    ht_iterators eg !! i = Some it -> it_ht it = HT_NULL;
  iw_tables : forall i it a, ht_iterators eg !! i = Some it -> it_ht it = HT_PTR a ->
    is_Some (tabs !! a);
  iw_counts : forall a ht, tabs !! a = Some ht ->
    count_ok (slots_of a (ht_iterators eg)) (nIteratorsCount ht)
}.

Lemma slots_of_insert a l i it it' : l !! i = Some it ->
  (slots_of a (<[i := it']> l) + (if bool_decide (it_ht it = HT_PTR a) then 1 else 0) =
   slots_of a l + (if bool_decide (it_ht it' = HT_PTR a) then 1 else 0))%nat.
Proof.
  intros Hi. rewrite <- (take_drop_middle l i it Hi) at 2.
  rewrite insert_take_drop by (by eapply lookup_lt_Some). unfold slots_of.
  rewrite !List.filter_app, !length_app. simpl.
  do 2 destruct (bool_decide _); simpl; lia.
Qed.

Lemma slots_of_app a l1 l2 : slots_of a (l1 ++ l2) = (slots_of a l1 + slots_of a l2)%nat.
Proof. unfold slots_of. by rewrite List.filter_app, length_app. Qed.

Lemma inc_count_ok n ht : count_ok n (nIteratorsCount ht) ->
  count_ok (S n) (nIteratorsCount (inc_iterators ht)).
Proof.
  unfold count_ok, inc_iterators. intros H.
  destruct (Z.eqb_spec (nIteratorsCount ht) 255); simpl; [by left|].
  unfold u8. rewrite Z.mod_small by lia. lia.
Qed.

Lemma dec_count_ok n ht : count_ok (S n) (nIteratorsCount ht) ->
  count_ok n (nIteratorsCount (dec_count ht)).
Proof.
  unfold count_ok, dec_count. intros H.
  destruct (Z.eqb_spec (nIteratorsCount ht) 255); simpl; [by left|].
  unfold u8. rewrite Z.mod_small by lia. lia.
Qed.

Lemma free_slot_Some l i : free_slot l = Some i -> exists it, l !! i = Some it /\ it_ht it = HT_NULL.
Proof.
  revert i. induction l as [|it l IH]; intros i; simpl; [done|]. case_bool_decide as E.
  - intros [= <-]. by exists it.
  - destruct (free_slot l) as [j|]; [|done]. intros [= <-]. by apply IH.
Qed.

Lemma slots_replicate a n : slots_of a (replicate n (mkIter HT_NULL 0)) = 0%nat.
Proof. induction n as [|n IH]; [done|]. simpl. exact IH. Qed.

(** Operations change nothing of a table but its count of iterators. *)
Definition same_tables (tabs tabs' : tables) : Prop :=
  forall b, set_nIteratorsCount 0 <$> tabs' !! b = set_nIteratorsCount 0 <$> tabs !! b.

Lemma same_tables_insert (tabs : tables) a ht ht' : tabs !! a = Some ht ->
  set_nIteratorsCount 0 ht' = set_nIteratorsCount 0 ht -> same_tables tabs (<[a := ht']> tabs).
Proof.
  intros Ha E b. destruct (decide (a = b)) as [<-|Hb].
  - rewrite lookup_insert_eq, Ha. simpl. by rewrite E.
  - by rewrite lookup_insert_ne.
Qed.

Lemma inc_same ht : set_nIteratorsCount 0 (inc_iterators ht) = set_nIteratorsCount 0 ht.
Proof. unfold inc_iterators. by destruct (negb _). Qed.

Lemma dec_same ht : set_nIteratorsCount 0 (dec_count ht) = set_nIteratorsCount 0 ht.
Proof. unfold dec_count. by destruct (negb _). Qed.

(** Pointing a slot at table [a]: one more iterator of [a], provided that the
    slot belonged to no table. *)
Lemma counts_point (tabs : tables) l i it a ht pos :
  l !! i = Some it -> (forall b, it_ht it <> HT_PTR b) -> tabs !! a = Some ht ->
  (forall b htb, tabs !! b = Some htb -> count_ok (slots_of b l) (nIteratorsCount htb)) ->
  forall b htb, <[a := inc_iterators ht]> tabs !! b = Some htb ->
    count_ok (slots_of b (<[i := mkIter (HT_PTR a) pos]> l)) (nIteratorsCount htb).
Proof.
  intros Hi Hn Ha H b htb Hb.
  pose proof (slots_of_insert b l i it (mkIter (HT_PTR a) pos) Hi) as E. simpl in E.
  rewrite bool_decide_eq_false_2 in E by apply Hn.
  destruct (decide (a = b)) as [<-|Hab].
  - rewrite lookup_insert_eq in Hb. injection Hb as <-. rewrite bool_decide_eq_true_2 in E by done.
    replace (slots_of a _) with (S (slots_of a l)) by lia. apply inc_count_ok, H, Ha.
  - rewrite lookup_insert_ne in Hb by done. rewrite bool_decide_eq_false_2 in E by congruence.
    replace (slots_of b _) with (slots_of b l) by lia. by apply H.
Qed.

(** Taking the slot away from its table. *)
Lemma dec_iterators_ok tabs eg i it p :
  iterators_wf tabs eg -> ht_iterators eg !! i = Some it ->
  exists tabs', dec_iterators tabs it = Ok tabs' /\ same_tables tabs tabs' /\
    forall b htb, tabs' !! b = Some htb ->
      count_ok (slots_of b (<[i := mkIter HT_NULL p]> (ht_iterators eg))) (nIteratorsCount htb).
Proof.
  intros W Hi. unfold dec_iterators.
  assert (E : forall b, (slots_of b (<[i := mkIter HT_NULL p]> (ht_iterators eg)) +
    (if bool_decide (it_ht it = HT_PTR b) then 1 else 0) = slots_of b (ht_iterators eg))%nat).
  { intros b. rewrite (slots_of_insert b _ i it (mkIter HT_NULL p) Hi). simpl. lia. }
  destruct (it_ht it) as [| |a] eqn:Et.
  1,2: exists tabs; split_and!; [done|by intros b|]; intros b htb Hb; specialize (E b);
    rewrite bool_decide_eq_false_2 in E by done; rewrite Nat.add_0_r in E; rewrite E;
    by apply (iw_counts _ _ W).
  destruct (iw_tables _ _ W i it a Hi Et) as [ht Ha]. rewrite Ha.
  eexists. split_and!; [done|by eapply same_tables_insert, dec_same|].
  intros b htb Hb. specialize (E b). destruct (decide (a = b)) as [<-|Hab].
  - rewrite lookup_insert_eq in Hb. injection Hb as <-. rewrite bool_decide_eq_true_2 in E by done.
    apply dec_count_ok. rewrite <- Nat.add_1_r, E. by apply (iw_counts _ _ W).
  - rewrite lookup_insert_ne in Hb by done. rewrite bool_decide_eq_false_2 in E by congruence.
    rewrite Nat.add_0_r in E. rewrite E. by apply (iw_counts _ _ W).
Qed.

Lemma same_tables_some (tabs tabs' : tables) a : same_tables tabs tabs' ->
  is_Some (tabs !! a) -> is_Some (tabs' !! a).
Proof. intros E [ht Ha]. specialize (E a). rewrite Ha in E. by destruct (tabs' !! a). Qed.

(** Writing a slot leaves the free slots above [used] free and the tables known. *)
Lemma slots_wf_insert tabs tabs' eg i it used :
  iterators_wf tabs eg -> same_tables tabs tabs' ->
  (i < length (ht_iterators eg))%nat ->
  0 <= used <= Z.of_nat (length (ht_iterators eg)) ->
  (forall j jt, (Z.to_nat used <= j)%nat -> <[i := it]> (ht_iterators eg) !! j = Some jt ->
     it_ht jt = HT_NULL) ->
  (forall a, it_ht it = HT_PTR a -> is_Some (tabs !! a)) ->
  (forall b htb, tabs' !! b = Some htb ->
     count_ok (slots_of b (<[i := it]> (ht_iterators eg))) (nIteratorsCount htb)) ->
  iterators_wf tabs' (set_iterators (<[i := it]> (ht_iterators eg)) used eg).
Proof.
  intros W Hs Hi Hu Hf Ha Hc. constructor; simpl; [by rewrite length_insert|done| |done].
  intros j jt a Hj Hjt. apply (same_tables_some _ _ _ Hs).
  destruct (decide (i = j)) as [<-|Hij].
  - rewrite list_lookup_insert_eq in Hj by done. injection Hj as <-. by apply Ha.
  - rewrite list_lookup_insert_ne in Hj by done. by eapply iw_tables.
Qed.

Lemma iterator_add_ok tabs eg a pos : iterators_wf tabs eg -> is_Some (tabs !! a) ->
  exists tabs' eg' i, zend_hash_iterator_add tabs a pos eg = Ok (tabs', eg', Z.of_nat i) /\
    iterators_wf tabs' eg' /\ same_tables tabs tabs' /\
    ht_iterators eg' !! i = Some (mkIter (HT_PTR a) pos) /\
    (forall it, ht_iterators eg !! i = Some it -> it_ht it = HT_NULL) /\
    (forall j it, j <> i -> ht_iterators eg !! j = Some it -> ht_iterators eg' !! j = Some it).
Proof.
  intros W [ht Ha]. pose proof (iw_used _ _ W) as Hu.
  unfold zend_hash_iterator_add, get_table. rewrite Ha. rsimp.
  assert (Hs : same_tables tabs (<[a := inc_iterators ht]> tabs))
    by (by eapply same_tables_insert, inc_same).
  destruct (free_slot (ht_iterators eg)) as [i|] eqn:Ef.
  - destruct (free_slot_Some _ _ Ef) as (it & Hi & Hit).
    pose proof (lookup_lt_Some _ _ _ Hi) as Hl.
    do 2 eexists. exists i. split_and!; [done| |done| | |].
    + eapply slots_wf_insert; try done.
      * destruct (Z.ltb_spec (ht_iterators_used eg) (Z.of_nat i + 1)); lia.
      * intros j jt Hj Hjt.
        assert (i <> j /\ (Z.to_nat (ht_iterators_used eg) <= j)%nat) as [Hij Hju]
          by (destruct (Z.ltb_spec (ht_iterators_used eg) (Z.of_nat i + 1)); lia).
        rewrite list_lookup_insert_ne in Hjt by done. by eapply iw_free.
      * simpl. intros b [= <-]. by exists ht.
      * eapply counts_point; [done|by rewrite Hit|done|apply (iw_counts _ _ W)].
    + simpl. by apply list_lookup_insert_eq.
    + intros jt Hj. by simplify_eq.
    + intros j jt Hj Hjt. simpl. by rewrite list_lookup_insert_ne.
  - do 2 eexists. exists (length (ht_iterators eg)). split_and!; [done| |done| | |].
    + constructor; simpl.
      * rewrite length_app. simpl. lia.
      * intros j jt Hj Hjt. rewrite lookup_app_r in Hjt by lia.
        destruct (j - length (ht_iterators eg))%nat as [|n] eqn:En; [lia|].
        simpl in Hjt. by apply (lookup_replicate_1 7) in Hjt as [-> _].
      * intros j jt b Hj Hjt. apply (same_tables_some _ _ _ Hs).
        apply lookup_app_Some in Hj as [Hj|[_ Hj]]; [by eapply iw_tables|].
        destruct (j - length (ht_iterators eg))%nat as [|n]; simpl in Hj.
        -- injection Hj as <-. injection Hjt as <-. by exists ht.
        -- apply (lookup_replicate_1 7) in Hj as [-> _]. done.
      * intros b htb Hb. rewrite slots_of_app.
        change (slots_of b (?x :: ?l)) with (slots_of b ([x] ++ replicate 7 (mkIter HT_NULL 0))).
        rewrite slots_of_app, slots_replicate. unfold slots_of at 2. simpl.
        destruct (decide (a = b)) as [<-|Hab].
        -- rewrite lookup_insert_eq in Hb. injection Hb as <-.
           rewrite bool_decide_eq_true_2 by done. simpl. rewrite Nat.add_1_r.
           by apply inc_count_ok, (iw_counts _ _ W).
        -- rewrite lookup_insert_ne in Hb by done. rewrite bool_decide_eq_false_2 by congruence.
           simpl. rewrite Nat.add_0_r. by apply (iw_counts _ _ W).
    + simpl. by rewrite list_lookup_middle.
    + intros it Hi. apply lookup_lt_Some in Hi. lia.
    + intros j it Hj Hjt. simpl. by apply lookup_app_l_Some.
Qed.

(** The position read through a slot, and the slot afterwards. *)
Definition iterator_position (it : HashTableIterator) (a : addr) (ht : HashTable) : Z :=
  if it_pos it =? HT_INVALID_IDX then HT_INVALID_IDX
  else if bool_decide (it_ht it = HT_PTR a) then it_pos it else nInternalPointer ht.

Definition iterator_rebound (it : HashTableIterator) (a : addr) (ht : HashTable) : HashTableIterator :=
  if it_pos it =? HT_INVALID_IDX then it
  else if bool_decide (it_ht it = HT_PTR a) then it else mkIter (HT_PTR a) (nInternalPointer ht).

Lemma iterators_wf_same tabs tabs' eg eg' : iterators_wf tabs eg -> tabs' = tabs ->
  ht_iterators eg' = ht_iterators eg -> ht_iterators_used eg' = ht_iterators_used eg ->
  iterators_wf tabs' eg'.
Proof. intros [] -> E1 E2. by constructor; rewrite ?E1, ?E2. Qed.

Lemma iterator_pos_ok tabs eg a ht i it : iterators_wf tabs eg -> tabs !! a = Some ht ->
  ht_iterators eg !! i = Some it -> it_ht it <> HT_NULL ->
  exists tabs' eg',
    zend_hash_iterator_pos tabs (Z.of_nat i) a eg = Ok (tabs', eg', iterator_position it a ht) /\
    iterators_wf tabs' eg' /\ same_tables tabs tabs' /\
    ht_iterators eg' = <[i := iterator_rebound it a ht]> (ht_iterators eg).
Proof.
  intros W Ha Hi Hn. pose proof (lookup_lt_Some _ _ _ Hi) as Hl.
  unfold zend_hash_iterator_pos, iterator_position, iterator_rebound, get_table.
  rewrite (aget_ok _ _ _ Hi), Ha. rsimp.
  destruct (Z.eqb_spec (it_pos it) HT_INVALID_IDX).
  { do 2 eexists. split_and!; [done|done|by intros b|]. by rewrite list_insert_id. }
  case_bool_decide as Eh; simpl.
  { do 2 eexists. split_and!; [done|done|by intros b|]. by rewrite list_insert_id. }
  destruct (dec_iterators_ok tabs eg i it 0 W Hi) as (tabs1 & -> & Hs & Hc). rsimp.
  destruct (same_tables_some _ _ a Hs) as [ht1 Ha1]; [by exists ht|]. rewrite Ha1. rsimp.
  assert (Ep : nInternalPointer ht1 = nInternalPointer ht).
  { specialize (Hs a). rewrite Ha, Ha1 in Hs. simpl in Hs. by destruct ht, ht1; simplify_eq. }
  rewrite Ep, (aset_ok _ _ _ Hl). rsimp.
  assert (Hs' : same_tables tabs (<[a := inc_iterators ht1]> tabs1)).
  { intros b. rewrite <- (Hs b). revert b. eapply same_tables_insert; [done|apply inc_same]. }
  do 2 eexists. split_and!; [done| |done|done].
  eapply (slots_wf_insert tabs _ eg); try done.
  - apply (iw_used _ _ W).
  - intros j jt Hj Hjt. destruct (decide (i = j)) as [<-|Hij].
    + by rewrite (iw_free _ _ W i it Hj Hi) in Hn.
    + rewrite list_lookup_insert_ne in Hjt by done. by eapply iw_free.
  - simpl. intros b [= <-]. by exists ht.
  - rewrite <- (list_insert_insert_eq _ i _ (mkIter HT_NULL 0)).
    eapply counts_point; [by apply list_lookup_insert_eq|done|done|done].
Qed.

Lemma trim_slots_ok l n fuel : (n < fuel)%nat -> (n <= length l)%nat ->
  exists m, trim_slots fuel l (Z.of_nat n) = Ok (Z.of_nat m) /\ (m <= n)%nat /\
    (forall j it, (m <= j < n)%nat -> l !! j = Some it -> it_ht it = HT_NULL) /\
    (forall it, (0 < m)%nat -> l !! pred m = Some it -> it_ht it <> HT_NULL).
Proof.
  revert n. induction fuel as [|fuel IH]; intros n Hf Hn; [lia|]. simpl.
  destruct (Z.ltb_spec 0 (Z.of_nat n)) as [Hp|Hp].
  - destruct (lookup_lt_is_Some_2 l (pred n)) as [it Hit]; [lia|].
    replace (Z.of_nat n - 1) with (Z.of_nat (pred n)) by lia.
    rewrite (aget_ok _ _ _ Hit). rsimp. case_bool_decide as E.
    + destruct (IH (pred n)) as (m & -> & Hm & Hfree & Hlast); [lia|lia|].
      exists m. split_and!; [done|lia| |done]. intros j jt Hj Hjt.
      destruct (decide (j = pred n)) as [->|]; [by simplify_eq|]. apply (Hfree j jt); [lia|done].
    + exists n. split_and!; [done|lia|lia|]. intros jt _ Hjt. by simplify_eq.
  - exists n. split_and!; [done|lia|lia|lia].
Qed.

Lemma iterator_del_ok tabs eg i it : iterators_wf tabs eg ->
  ht_iterators eg !! i = Some it -> it_ht it <> HT_NULL ->
  exists tabs' eg', zend_hash_iterator_del tabs (Z.of_nat i) eg = Ok (tabs', eg') /\
    iterators_wf tabs' eg' /\ same_tables tabs tabs' /\
    ht_iterators eg' = <[i := mkIter HT_NULL (it_pos it)]> (ht_iterators eg) /\
    (Z.of_nat i = ht_iterators_used eg - 1 -> forall jt, (0 < Z.to_nat (ht_iterators_used eg'))%nat ->
       ht_iterators eg' !! pred (Z.to_nat (ht_iterators_used eg')) = Some jt -> it_ht jt <> HT_NULL).
Proof.
  intros W Hi Hn. pose proof (lookup_lt_Some _ _ _ Hi) as Hl. pose proof (iw_used _ _ W) as Hu.
  unfold zend_hash_iterator_del. rewrite (aget_ok _ _ _ Hi). rsimp.
  destruct (dec_iterators_ok tabs eg i it (it_pos it) W Hi) as (tabs1 & -> & Hs & Hc). rsimp.
  rewrite (aset_ok _ _ _ Hl). rsimp.
  assert (Hfree : forall u, (forall j jt, (u <= j < i)%nat ->
        <[i := mkIter HT_NULL (it_pos it)]> (ht_iterators eg) !! j = Some jt -> it_ht jt = HT_NULL) ->
    (u <= i)%nat -> ht_iterators_used eg - 1 <= Z.of_nat i ->
    forall j jt, (u <= j)%nat -> <[i := mkIter HT_NULL (it_pos it)]> (ht_iterators eg) !! j = Some jt ->
      it_ht jt = HT_NULL).
  { intros u Hlow Hui Hui' j jt Hj Hjt. destruct (decide (i = j)) as [<-|Hij].
    - rewrite list_lookup_insert_eq in Hjt by done. by injection Hjt as <-.
    - destruct (decide (j < i)%nat); [by apply (Hlow j)|].
      rewrite list_lookup_insert_ne in Hjt by done. apply (iw_free _ _ W j); [lia|done]. }
  destruct (Z.eqb_spec (Z.of_nat i) (ht_iterators_used eg - 1)) as [Ei|Ei].
  - destruct (trim_slots_ok (<[i := mkIter HT_NULL (it_pos it)]> (ht_iterators eg)) i
      (S (Z.to_nat (Z.of_nat i)))) as (m & Em & Hm & Hf & Hlast);
      [lia|rewrite length_insert; lia|]. rewrite Em. rsimp.
    do 2 eexists. split_and!; [done| |done|done|].
    + eapply slots_wf_insert; try done; [lia|].
      intros j jt Hj. apply (Hfree m); [exact Hf|lia|lia|lia].
    + intros _ jt Hp Hjt. simpl in Hp, Hjt. rewrite Nat2Z.id in Hp, Hjt. by apply Hlast.
  - do 2 eexists. split_and!; [done| |done|done|done].
    eapply (slots_wf_insert tabs tabs1 eg); try done.
    intros j jt Hj Hjt. destruct (decide (i = j)) as [<-|Hij].
    + rewrite list_lookup_insert_eq in Hjt by done. by injection Hjt as <-.
    + rewrite list_lookup_insert_ne in Hjt by done. by eapply iw_free.
Qed.

(** The executor's iterator slots stay consistent with the counts kept in the
    tables.  [zend_hash_iterator_add] returns a slot that was free and now holds the table and
    the position, growing the array when no slot is free; [zend_hash_iterator_pos] returns the
    stored position while the slot belongs to the given table and rebinds it, at the table's
    internal pointer, when it belongs to another; [zend_hash_iterator_del] frees the slot and
    trims the used part of the array to its last slot in use.  None of them touches another
    slot, or any field of a table besides its count of iterators. *)
Theorem iterator_slots_correct (tabs : tables) (eg : EG) (a : addr) (ht : HashTable) :
  iterators_wf tabs eg -> tabs !! a = Some ht ->
  (forall pos, exists tabs' eg' i,
    zend_hash_iterator_add tabs a pos eg = Ok (tabs', eg', Z.of_nat i) /\
    iterators_wf tabs' eg' /\ same_tables tabs tabs' /\
    ht_iterators eg' !! i = Some (mkIter (HT_PTR a) pos) /\
    (forall it, ht_iterators eg !! i = Some it -> it_ht it = HT_NULL) /\
    (forall j it, j <> i -> ht_iterators eg !! j = Some it -> ht_iterators eg' !! j = Some it)) /\
  (forall i it, ht_iterators eg !! i = Some it -> it_ht it <> HT_NULL ->
    (exists tabs' eg',
      zend_hash_iterator_pos tabs (Z.of_nat i) a eg = Ok (tabs', eg', iterator_position it a ht) /\
      iterators_wf tabs' eg' /\ same_tables tabs tabs' /\
      ht_iterators eg' = <[i := iterator_rebound it a ht]> (ht_iterators eg)) /\
    (exists tabs' eg', zend_hash_iterator_del tabs (Z.of_nat i) eg = Ok (tabs', eg') /\
      iterators_wf tabs' eg' /\ same_tables tabs tabs' /\
      ht_iterators eg' = <[i := mkIter HT_NULL (it_pos it)]> (ht_iterators eg) /\
      (Z.of_nat i = ht_iterators_used eg - 1 -> forall jt,
        (0 < Z.to_nat (ht_iterators_used eg'))%nat ->
        ht_iterators eg' !! pred (Z.to_nat (ht_iterators_used eg')) = Some jt ->
        it_ht jt <> HT_NULL))).
Proof.
  intros W Ha. split.
  - intros pos. apply iterator_add_ok; [done|by exists ht].
  - intros i it Hi Hn. split; [by apply iterator_pos_ok|by apply iterator_del_ok].
Qed.

(** Two tables, three slots in use of four; slot 1 is free and slot 2 poisoned. *)
Definition sample_tabs : tables :=
  {[ 1%positive := set_nIteratorsCount 1 sample_hash;
     2%positive := set_nIteratorsCount 0 sample_packed ]}.
Definition sample_slots : EG :=
  set_iterators [mkIter HT_NULL 0; mkIter HT_NULL 0; mkIter HT_POISONED_PTR 3;
                 mkIter (HT_PTR 1%positive) 2] 4 sample_eg.

Lemma sample_slots_wf : iterators_wf sample_tabs sample_slots.
Proof.
  constructor.
  - simpl. lia.
  - intros i it Hi H. apply lookup_lt_Some in H. simpl in *. lia.
  - intros i it a H E. simpl in H.
    destruct i as [|[|[|[|i]]]]; simpl in H; [..|done]; injection H as <-; simpl in E; try done.
    injection E as <-. by eexists.
  - intros a ht H. unfold sample_tabs in H. right.
    apply lookup_insert_Some in H as [[<- <-]|[_ H]]; [by vm_compute|].
    apply lookup_singleton_Some in H as [<- <-]. by vm_compute.
Qed.

Lemma iterator_slots_correct_witness :
  (exists tabs' eg', zend_hash_iterator_del sample_tabs 3 sample_slots = Ok (tabs', eg')) /\
  zend_hash_iterator_add sample_tabs 2%positive 7 sample_slots =
    Ok (<[2%positive := set_nIteratorsCount 1 sample_packed]> sample_tabs,
        set_iterators [mkIter (HT_PTR 2%positive) 7; mkIter HT_NULL 0; mkIter HT_POISONED_PTR 3;
                       mkIter (HT_PTR 1%positive) 2] 4 sample_eg, 0).
Proof.
  split; [|vm_compute; reflexivity].
  destruct (iterator_slots_correct sample_tabs sample_slots 1%positive (set_nIteratorsCount 1 sample_hash)
    sample_slots_wf eq_refl) as [_ H].
  destruct (H 3%nat (mkIter (HT_PTR 1%positive) 2) eq_refl ltac:(discriminate))
    as [_ (tabs' & eg' & E & _)].
  exists tabs', eg'. exact E.
Defined.
