(* ===== verification/HashDestroy.v ===== *)
(** * The ordered hash table: destruction and emptying
    ([zend_hash_destroy], [zend_array_destroy], [zend_hash_clean], [zend_symtable_clean])

    A destroyed table leaves an executor state: the events of its destructors,
    key releases and frees, and the iterators that referred to it poisoned. *)
From Stdlib Require Import Strings.Byte.
From S2P Require Export HashIterators.

(** ** Operations *)

(** The used buckets, [p = ht->arData] up to [p + ht->nNumUsed]. *)
Definition used_buckets (ht : HashTable) : res (list Bucket) :=
  if nNumUsed ht <=? Z.of_nat (length (arData ht)) then Ok (take (used ht) (arData ht))
  else Err OutOfBounds.

(** The loops [do { .. } while (++p != end)]: [check] tells whether the value
    is compared with [IS_UNDEF], [release] whether the key is released. *)
Fixpoint dtor_loop (dtor : zval -> EG -> EG) (check release : bool) (l : list Bucket) (eg : EG) : EG :=
  match l with
  | [] => eg
  | p :: l =>
      let eg :=
        if check && is_undef (b_val p) then eg
        else
          let eg := dtor (b_val p) eg in
          if release then release_key (b_key p) eg else eg in
      dtor_loop dtor check release l eg
  end.

Definition zend_hash_destroy (ht : HashTable) (eg : EG) : res EG :=
  if negb (nNumUsed ht =? 0) then
    let! l := used_buckets ht in
    let eg :=
      if pDestructor ht then
        if HT_HAS_STATIC_KEYS_ONLY ht then
          if HT_IS_WITHOUT_HOLES ht then dtor_loop (run_dtor ht) false false l eg
          else dtor_loop (run_dtor ht) true false l eg
        else if HT_IS_WITHOUT_HOLES ht then dtor_loop (run_dtor ht) false true l eg
        else dtor_loop (run_dtor ht) true true l eg
      else if negb (HT_HAS_STATIC_KEYS_ONLY ht) then dtor_loop (fun _ eg => eg) true true l eg
      else eg in
    let eg := zend_hash_iterators_remove ht eg in
    Ok (log (EvFree (ht_addr ht)) eg)
  else if negb (f_initialized ht) then Ok eg
  else Ok (log (EvFree (ht_addr ht)) eg).

(** [ptr_dtor] says that [ht->pDestructor] is [ZVAL_PTR_DTOR]. *)
Definition zend_array_destroy (ptr_dtor : bool) (ht : HashTable) (eg : EG) : res EG :=
  let! eg :=
    if negb (nNumUsed ht =? 0) then
      if negb ptr_dtor then zend_hash_destroy ht eg
      else
        let! l := used_buckets ht in
        let eg :=
          if HT_HAS_STATIC_KEYS_ONLY ht then dtor_loop i_zval_ptr_dtor false false l eg
          else if HT_IS_WITHOUT_HOLES ht then dtor_loop i_zval_ptr_dtor false true l eg
          else dtor_loop i_zval_ptr_dtor true true l eg in
        let eg := zend_hash_iterators_remove ht eg in
        Ok (log (EvFree (ht_addr ht)) eg)
    else if negb (f_initialized ht) then Ok eg
    else Ok (log (EvFree (ht_addr ht)) eg) in
  Ok (log (EvFreeTable (ht_addr ht)) eg).

(** The last four assignments of the two cleaning functions. *)
Definition reset_counters (ht : HashTable) : HashTable :=
  set_nInternalPointer HT_INVALID_IDX (set_nNextFreeElement 0
    (set_nNumOfElements 0 (set_nNumUsed 0 ht))).

Definition zend_hash_clean (ht : HashTable) (eg : EG) : res (HashTable * EG) :=
  let! (ht, eg) :=
    if negb (nNumUsed ht =? 0) then
      let! l := used_buckets ht in
      let eg :=
        if pDestructor ht then
          if HT_HAS_STATIC_KEYS_ONLY ht then
            if HT_IS_WITHOUT_HOLES ht then dtor_loop (run_dtor ht) false false l eg
            else dtor_loop (run_dtor ht) true false l eg
          else if HT_IS_WITHOUT_HOLES ht then dtor_loop (run_dtor ht) false true l eg
          else dtor_loop (run_dtor ht) true true l eg
        else if negb (HT_HAS_STATIC_KEYS_ONLY ht) then
          if HT_IS_WITHOUT_HOLES ht then dtor_loop (fun _ eg => eg) false true l eg
          else dtor_loop (fun _ eg => eg) true true l eg
        else eg in
      Ok (if negb (f_packed ht) then HT_HASH_RESET ht else ht, eg)
    else Ok (ht, eg) in
  Ok (reset_counters ht, eg).

Definition zend_symtable_clean (ht : HashTable) (eg : EG) : res (HashTable * EG) :=
  let! (ht, eg) :=
    if negb (nNumUsed ht =? 0) then
      let! l := used_buckets ht in
      let eg :=
        if HT_HAS_STATIC_KEYS_ONLY ht then dtor_loop i_zval_ptr_dtor false false l eg
        else if HT_IS_WITHOUT_HOLES ht then dtor_loop i_zval_ptr_dtor false true l eg
        else dtor_loop i_zval_ptr_dtor true true l eg in
      Ok (HT_HASH_RESET ht, eg)
    else Ok (ht, eg) in
  Ok (reset_counters ht, eg).

(** ** The loops give one destruction and one key release per entry, in order *)

(** The events of destroying the buckets [l], most recent first. *)
Definition bucket_events (dtor : zval -> list event) (l : list Bucket) : list event :=
  concat (map (fun b => release_events (b_key b) ++ dtor (b_val b)) (rev l)).

Definition ptr_dtor_events (v : zval) : list event := if refcounted v then [EvPtrDtor v] else [].

Lemma i_zval_ptr_dtor_step v eg : eg_step (ptr_dtor_events v) (cells eg) eg (i_zval_ptr_dtor v eg).
Proof. unfold i_zval_ptr_dtor, ptr_dtor_events. by destruct (refcounted v). Qed.

(** Why a loop may leave out the comparison or the release. *)
Definition check_ok (dtor : zval -> EG -> EG) (check release : bool) (l : list Bucket) : Prop :=
  check = true \/ (forall b, b ∈ l -> is_live b = true) \/
  (release = false /\ forall eg, dtor IS_UNDEF eg = eg).

Definition release_ok (release : bool) (l : list Bucket) : Prop :=
  release = true \/ forall b, b ∈ l -> is_live b = true -> release_events (b_key b) = [].

Lemma dtor_loop_ok dtor ev check release l eg :
  (forall v eg, eg_step (ev v) (cells eg) eg (dtor v eg)) ->
  check_ok dtor check release l -> release_ok release l ->
  eg_step (bucket_events ev (List.filter is_live l)) (cells eg) eg (dtor_loop dtor check release l eg).
Proof.
  intros Hd. revert eg. induction l as [|b l IH]; intros eg Hc Hr; [apply eg_step_refl|].
  cbn [dtor_loop List.filter].
  assert (Hc' : check_ok dtor check release l).
  { destruct Hc as [?|[H|?]]; [by left|right; left; intros; apply H; set_solver|by right; right]. }
  assert (Hr' : release_ok release l).
  { destruct Hr as [?|H]; [by left|right; intros; apply H; set_solver]. }
  assert (Hskip : is_live b = false ->
    (if check && is_undef (b_val b) then eg
     else if release then release_key (b_key b) (dtor (b_val b) eg) else dtor (b_val b) eg) = eg).
  { unfold is_live. intros Hu. apply negb_false_iff in Hu. destruct Hc as [->|[H|[-> H]]].
    - by rewrite Hu.
    - specialize (H b ltac:(set_solver)). unfold is_live in H. by rewrite Hu in H.
    - destruct (b_val b); try done. simpl. destruct check; [done|apply H]. }
  destruct (is_live b) eqn:Eb; [|cbv zeta; rewrite Hskip by done; by apply IH].
  assert (Hu : is_undef (b_val b) = false) by (by apply negb_true_iff).
  rewrite Hu, andb_false_r. cbv zeta.
  assert (Hone : eg_step (release_events (b_key b) ++ ev (b_val b)) (cells eg) eg
    (if release then release_key (b_key b) (dtor (b_val b) eg) else dtor (b_val b) eg)).
  { pose proof (Hd (b_val b) eg) as H1. pose proof (es_cells _ _ _ _ H1) as Ec.
    destruct Hr as [->|H].
    - eapply eg_step_trans; [exact H1|]. rewrite <- Ec. apply release_key_step.
    - rewrite (H b ltac:(set_solver) Eb). destruct release; [|done].
      rewrite <- (app_nil_l (ev _)). eapply eg_step_trans; [exact H1|].
      rewrite <- (H b ltac:(set_solver) Eb), <- Ec. apply release_key_step. }
  unfold bucket_events. cbn [rev]. rewrite map_app, concat_app. simpl. rewrite app_nil_r.
  eapply eg_step_trans; [exact Hone|].
  rewrite <- (es_cells _ _ _ _ Hone). by apply IH.
Qed.

(** ** The table's flags choose sufficient loops *)

(** The used live buckets of a table. *)
Definition live_buckets (ht : HashTable) : list Bucket :=
  List.filter is_live (take (used ht) (arData ht)).

Lemma used_buckets_ok ht : data_wf ht -> used_buckets ht = Ok (take (used ht) (arData ht)).
Proof.
  intros Hd. destruct (data_wf_len _ Hd) as [Hu _]. pose proof (wf_used _ Hd) as H.
  unfold used_buckets, used in *. by destruct (Z.leb_spec (nNumUsed ht) (Z.of_nat (length (arData ht)))); [|lia].
Qed.

Lemma in_used ht b : b ∈ take (used ht) (arData ht) ->
  exists i, (i < used ht)%nat /\ arData ht !! i = Some b.
Proof.
  intros Hb. apply list_elem_of_lookup in Hb as [i Hi]. exists i.
  apply lookup_take_Some in Hi as [? ?]. done.
Qed.

Lemma without_holes_live ht : data_wf ht -> HT_IS_WITHOUT_HOLES ht = true ->
  forall b, b ∈ take (used ht) (arData ht) -> is_live b = true.
Proof.
  intros Hd Hh b Hb. unfold HT_IS_WITHOUT_HOLES in Hh. zbool. destruct (data_wf_len _ Hd) as [Hu _].
  pose proof (wf_count _ Hd) as Hc. rewrite elems_contents_length in Hc.
  pose proof (wf_used _ Hd) as Hn.
  destruct (in_used _ _ Hb) as (i & Hi & Hbi).
  destruct (contents_full (arData ht) (used ht) Hu) with (i := i) as (c & Hc' & Hl);
    [unfold used in *; lia|done|]. rewrite Hbi in Hc'. injection Hc' as <-.
  unfold is_live. by rewrite Hl.
Qed.

Lemma static_keys_release ht : data_wf ht -> HT_HAS_STATIC_KEYS_ONLY ht = true ->
  release_ok false (take (used ht) (arData ht)).
Proof.
  intros Hd Hs. right. intros b Hb Hl. destruct (in_used _ _ Hb) as (i & Hi & Hbi).
  unfold release_events. destruct (b_key b) as [s|] eqn:Ek; [|done].
  rewrite (wf_static _ Hd Hs i b s Hi); [done| |done]. split; [done|].
  unfold is_live in Hl. by apply negb_true_iff in Hl.
Qed.

Section Loops.
Context (ht : HashTable) (Hd : data_wf ht).
Context (dtor : zval -> EG -> EG) (ev : zval -> list event).
Hypothesis Hdtor : forall v eg, eg_step (ev v) (cells eg) eg (dtor v eg).

(** The four loops of [zend_hash_destroy] and [zend_hash_clean]. *)
Lemma four_loops eg :
  eg_step (bucket_events ev (live_buckets ht)) (cells eg) eg
    (let l := take (used ht) (arData ht) in
     if HT_HAS_STATIC_KEYS_ONLY ht then
       if HT_IS_WITHOUT_HOLES ht then dtor_loop dtor false false l eg
       else dtor_loop dtor true false l eg
     else if HT_IS_WITHOUT_HOLES ht then dtor_loop dtor false true l eg
     else dtor_loop dtor true true l eg).
Proof.
  cbv zeta. pose proof (static_keys_release ht Hd) as Hs. pose proof (without_holes_live ht Hd) as Hh.
  destruct (HT_HAS_STATIC_KEYS_ONLY ht), (HT_IS_WITHOUT_HOLES ht); apply dtor_loop_ok;
    try done; try (by left); try (by apply Hs); right; left; by apply Hh.
Qed.

(** The three loops of [zend_array_destroy] and [zend_symtable_clean]. *)
Lemma three_loops eg : (forall eg, dtor IS_UNDEF eg = eg) ->
  eg_step (bucket_events ev (live_buckets ht)) (cells eg) eg
    (let l := take (used ht) (arData ht) in
     if HT_HAS_STATIC_KEYS_ONLY ht then dtor_loop dtor false false l eg
     else if HT_IS_WITHOUT_HOLES ht then dtor_loop dtor false true l eg
     else dtor_loop dtor true true l eg).
Proof.
  intros Hu. cbv zeta. pose proof (static_keys_release ht Hd) as Hs.
  pose proof (without_holes_live ht Hd) as Hh.
  destruct (HT_HAS_STATIC_KEYS_ONLY ht); [|destruct (HT_IS_WITHOUT_HOLES ht)];
    apply dtor_loop_ok; try done; try (by left); try (by apply Hs); right.
  - by right.
  - left. by apply Hh.
Qed.
End Loops.

Lemma no_dtor_step v eg : eg_step ((fun _ => []) v) (cells eg) eg ((fun (_ : zval) eg => eg) v eg).
Proof. apply eg_step_refl. Qed.

Lemma bucket_events_ext f g l : (forall v, f v = g v) -> bucket_events f l = bucket_events g l.
Proof.
  intros H. unfold bucket_events. f_equal. apply map_ext. intros b. by rewrite H.
Qed.

(** No key to release and no destructor: no event. *)
Lemma bucket_events_static ht : data_wf ht -> HT_HAS_STATIC_KEYS_ONLY ht = true ->
  bucket_events (fun _ => []) (live_buckets ht) = [].
Proof.
  intros Hd Hs. destruct (static_keys_release ht Hd Hs) as [?|H]; [done|].
  unfold bucket_events, live_buckets. apply concat_nil_Forall, Forall_forall. intros e He.
  apply list_elem_of_fmap in He as (b & -> & Hb). rewrite app_nil_r.
  apply list_elem_of_In, in_rev, List.filter_In in Hb as [Hb Hl].
  apply H; [by apply list_elem_of_In|done].
Qed.

(** ** The functions *)

(** Pointing the iterators of a destroyed table to [HT_POISONED_PTR]. *)
Definition poison (a : addr) (it : HashTableIterator) : HashTableIterator :=
  if bool_decide (it_ht it = HT_PTR a) then mkIter HT_POISONED_PTR (it_pos it) else it.

Lemma slots_of_0 a l i it : slots_of a l = 0%nat -> l !! i = Some it -> it_ht it <> HT_PTR a.
Proof.
  intros H Hi Hp. pose proof (slots_of_insert a l i it (mkIter HT_NULL 0) Hi) as E.
  rewrite bool_decide_eq_true_2 in E by done. simpl in E. lia.
Qed.

Lemma iterators_remove_ok tabs ht eg :
  iterators_wf tabs eg -> tabs !! ht_addr ht = Some ht ->
  ht_iterators (zend_hash_iterators_remove ht eg) = map (poison (ht_addr ht)) (ht_iterators eg).
Proof.
  intros W Ha. apply list_eq. intros i. rewrite list_lookup_fmap.
  unfold zend_hash_iterators_remove. destruct (Z.eqb_spec (nIteratorsCount ht) 0) as [Hz|Hz]; simpl.
  - destruct (ht_iterators eg !! i) as [it|] eqn:Ei; [|done]. simpl. unfold poison.
    rewrite bool_decide_eq_false_2; [done|].
    destruct (iw_counts _ _ W _ _ Ha) as [?|[? _]]; [lia|].
    eapply slots_of_0; [|done]. lia.
  - rewrite list_lookup_imap. destruct (ht_iterators eg !! i) as [it|] eqn:Ei; [|done]. simpl.
    unfold poison. destruct (Z.ltb_spec (Z.of_nat i) (ht_iterators_used eg)); [done|]. simpl.
    rewrite (iw_free _ _ W i it) by (lia || done). by rewrite bool_decide_eq_false_2.
Qed.

Lemma iterators_remove_same ht eg : events (zend_hash_iterators_remove ht eg) = events eg /\
  cells (zend_hash_iterators_remove ht eg) = cells eg.
Proof. unfold zend_hash_iterators_remove. by destruct (negb _). Qed.

Lemma live_buckets_unused ht : nNumUsed ht = 0 -> live_buckets ht = [].
Proof. intros H. unfold live_buckets, used. by rewrite H. Qed.

Lemma clean_loops ht eg : data_wf ht ->
  eg_step (bucket_events (dtor_events ht) (live_buckets ht)) (cells eg) eg
    (let l := take (used ht) (arData ht) in
     if pDestructor ht then
       if HT_HAS_STATIC_KEYS_ONLY ht then
         if HT_IS_WITHOUT_HOLES ht then dtor_loop (run_dtor ht) false false l eg
         else dtor_loop (run_dtor ht) true false l eg
       else if HT_IS_WITHOUT_HOLES ht then dtor_loop (run_dtor ht) false true l eg
       else dtor_loop (run_dtor ht) true true l eg
     else if negb (HT_HAS_STATIC_KEYS_ONLY ht) then
       if HT_IS_WITHOUT_HOLES ht then dtor_loop (fun _ eg => eg) false true l eg
       else dtor_loop (fun _ eg => eg) true true l eg
     else eg).
Proof.
  intros Hd. destruct (pDestructor ht) eqn:Ep; [by apply four_loops, run_dtor_step|].
  rewrite (bucket_events_ext _ (fun _ => [])) by (intros; unfold dtor_events; by rewrite Ep).
  pose proof (four_loops ht Hd (fun _ eg => eg) (fun _ => []) no_dtor_step eg) as H. cbv zeta in *.
  destruct (HT_HAS_STATIC_KEYS_ONLY ht) eqn:Es; simpl; [|done].
  rewrite bucket_events_static by done. apply eg_step_refl.
Qed.

Lemma destroy_loops ht eg : data_wf ht ->
  eg_step (bucket_events (dtor_events ht) (live_buckets ht)) (cells eg) eg
    (let l := take (used ht) (arData ht) in
     if pDestructor ht then
       if HT_HAS_STATIC_KEYS_ONLY ht then
         if HT_IS_WITHOUT_HOLES ht then dtor_loop (run_dtor ht) false false l eg
         else dtor_loop (run_dtor ht) true false l eg
       else if HT_IS_WITHOUT_HOLES ht then dtor_loop (run_dtor ht) false true l eg
       else dtor_loop (run_dtor ht) true true l eg
     else if negb (HT_HAS_STATIC_KEYS_ONLY ht) then dtor_loop (fun _ eg => eg) true true l eg
     else eg).
Proof.
  intros Hd. pose proof (clean_loops ht eg Hd) as H. cbv zeta in *.
  destruct (pDestructor ht) eqn:Ep; [done|].
  destruct (HT_HAS_STATIC_KEYS_ONLY ht); simpl; [done|].
  rewrite (bucket_events_ext _ (fun _ => [])) by (intros; unfold dtor_events; by rewrite Ep).
  apply dtor_loop_ok; [apply no_dtor_step|by left|by left].
Qed.

(** What a destruction with the value destructor [ev] leaves. *)
Record destroyed (ht : HashTable) (ev : zval -> list event) (frees : list event) (eg eg' : EG) : Prop :=
  mk_destroyed {
  de_events : events eg' = frees ++ bucket_events ev (live_buckets ht) ++ events eg;
  de_cells : cells eg' = cells eg;
  de_iters : map it_ht (ht_iterators eg') =
    map it_ht (if nNumUsed ht =? 0 then ht_iterators eg
               else map (poison (ht_addr ht)) (ht_iterators eg))
}.

(** Slots are counted by their tables alone. *)
Lemma slots_of_map a l l' : map it_ht l' = map it_ht l -> slots_of a l' = slots_of a l.
Proof.
  revert l'. induction l as [|it l IH]; intros [|it' l']; simpl; try done.
  intros [= E1 E2]. unfold slots_of in *. simpl. rewrite E1.
  destruct (bool_decide _); simpl; by rewrite (IH l').
Qed.

Lemma map_it_ht_lookup l l' i it : map it_ht l' = map it_ht l -> l' !! i = Some it ->
  exists it0, l !! i = Some it0 /\ it_ht it = it_ht it0.
Proof.
  intros E Hi. assert (H : it_ht <$> l' !! i = it_ht <$> l !! i)
    by (rewrite <- !list_lookup_fmap; by f_equal).
  rewrite Hi in H. destruct (l !! i) as [it0|]; simpl in H; [|done]. injection H as H. by exists it0.
Qed.

Lemma iterators_wf_step tabs eg eg' : iterators_wf tabs eg ->
  map it_ht (ht_iterators eg') = map it_ht (ht_iterators eg) ->
  ht_iterators_used eg' = ht_iterators_used eg -> iterators_wf tabs eg'.
Proof.
  intros W E Eu. assert (El : length (ht_iterators eg') = length (ht_iterators eg))
    by (by rewrite <- (length_map it_ht), E, length_map).
  constructor; rewrite ?Eu, ?El.
  - apply W.
  - intros i it Hi Hit. destruct (map_it_ht_lookup _ _ _ _ E Hit) as (it0 & H0 & ->).
    by apply (iw_free _ _ W i).
  - intros i it a Hit Ha. destruct (map_it_ht_lookup _ _ _ _ E Hit) as (it0 & H0 & E0).
    apply (iw_tables _ _ W i it0 a H0). by rewrite <- E0.
  - intros a ht Ha. rewrite (slots_of_map _ _ _ E). by apply W.
Qed.

Lemma poison_map a l l' : map it_ht l' = map it_ht l ->
  map it_ht (map (poison a) l') = map it_ht (map (poison a) l).
Proof.
  revert l'. induction l as [|it l IH]; intros [|it' l']; simpl; try done.
  intros [= E1 E2]. f_equal; [|by apply IH]. unfold poison. rewrite E1. by destruct (bool_decide _).
Qed.

(** The statements behind a destruction loop. *)
Lemma destroy_tail tabs ht eg eg1 ev : iterators_wf tabs eg -> tabs !! ht_addr ht = Some ht ->
  nNumUsed ht <> 0 ->
  eg_step (bucket_events ev (live_buckets ht)) (cells eg) eg eg1 ->
  destroyed ht ev [EvFree (ht_addr ht)] eg
    (log (EvFree (ht_addr ht)) (zend_hash_iterators_remove ht eg1)).
Proof.
  intros W Ha Hn [Hu Hi Hc _ He]. destruct (iterators_remove_same ht eg1) as [E1 E2].
  split; simpl.
  - by rewrite E1, He.
  - congruence.
  - rewrite (iterators_remove_ok tabs) by (done || by eapply iterators_wf_step).
    destruct (Z.eqb_spec (nNumUsed ht) 0); [done|]. by apply poison_map.
Qed.

Definition data_free (ht : HashTable) : list event :=
  if f_initialized ht then [EvFree (ht_addr ht)] else [].

Lemma destroyed_unused ht ev eg : nNumUsed ht = 0 ->
  destroyed ht ev (data_free ht) eg
    (if negb (f_initialized ht) then eg else log (EvFree (ht_addr ht)) eg).
Proof.
  intros Hz. unfold data_free. split; rewrite ?(live_buckets_unused _ Hz), ?Hz;
    by destruct (f_initialized ht).
Qed.

Lemma used_initialized ht : data_wf ht -> nNumUsed ht <> 0 -> data_free ht = [EvFree (ht_addr ht)].
Proof.
  intros Hd Hn. unfold data_free. destruct (f_initialized ht) eqn:E; [done|].
  by rewrite (wf_init_used _ Hd E) in Hn.
Qed.

Lemma zend_hash_destroy_ok tabs ht eg : ht_wf ht -> iterators_wf tabs eg ->
  tabs !! ht_addr ht = Some ht ->
  exists eg', zend_hash_destroy ht eg = Ok eg' /\
    destroyed ht (dtor_events ht) (data_free ht) eg eg'.
Proof.
  intros Hwf W Ha. pose proof (wf_data _ Hwf) as Hd. unfold zend_hash_destroy.
  destruct (Z.eqb_spec (nNumUsed ht) 0) as [Hz|Hz]; cbn [negb].
  - pose proof (destroyed_unused ht (dtor_events ht) eg Hz) as H.
    destruct (f_initialized ht); simpl in *; by eexists.
  - rewrite used_buckets_ok by done. rsimp. eexists. split; [done|].
    rewrite used_initialized by done. eapply destroy_tail; [done|done|done|by apply destroy_loops].
Qed.

Lemma zend_array_destroy_ok tabs ptr_dtor ht eg : ht_wf ht -> iterators_wf tabs eg ->
  tabs !! ht_addr ht = Some ht ->
  exists eg', zend_array_destroy ptr_dtor ht eg = Ok eg' /\
    destroyed ht (if ptr_dtor then ptr_dtor_events else dtor_events ht)
      (EvFreeTable (ht_addr ht) :: data_free ht) eg eg'.
Proof.
  intros Hwf W Ha. pose proof (wf_data _ Hwf) as Hd. unfold zend_array_destroy.
  assert (Hlog : forall ev fr eg', destroyed ht ev fr eg eg' ->
    destroyed ht ev (EvFreeTable (ht_addr ht) :: fr) eg (log (EvFreeTable (ht_addr ht)) eg')).
  { intros ev fr eg' []. split; try done. simpl. congruence. }
  destruct (Z.eqb_spec (nNumUsed ht) 0) as [Hz|Hz]; cbn [negb].
  - pose proof (destroyed_unused ht (if ptr_dtor then ptr_dtor_events else dtor_events ht) eg Hz) as H.
    destruct (f_initialized ht); simpl in *; eexists; (split; [done|]); by apply Hlog.
  - destruct ptr_dtor; cbn [negb].
    + rewrite used_buckets_ok by done. rsimp. eexists. split; [done|]. apply Hlog.
      rewrite used_initialized by done. eapply destroy_tail; [done|done|done|].
      apply (three_loops ht Hd _ _ i_zval_ptr_dtor_step eg). done.
    + destruct (zend_hash_destroy_ok tabs ht eg Hwf W Ha) as (eg' & -> & H). rsimp.
      eexists. split; [done|]. by apply Hlog.
Qed.

(** ** Emptying *)

(** What [zend_hash_clean] and [zend_symtable_clean] leave. *)
Record cleaned (ht : HashTable) (ev : zval -> list event) (eg : EG) (ht' : HashTable) (eg' : EG) : Prop :=
  mk_cleaned {
  cl_wf : ht_wf ht';
  cl_elems : elems ht' = [];
  cl_same : same_table ht ht';
  cl_shape : nTableSize ht' = nTableSize ht /\ f_packed ht' = f_packed ht /\
    f_initialized ht' = f_initialized ht;
  cl_next : nNextFreeElement ht' = 0;
  cl_ptr : nInternalPointer ht' = HT_INVALID_IDX;
  cl_step : eg_step (bucket_events ev (live_buckets ht)) (cells eg) eg eg'
}.

Lemma reset_wf ht hs : ht_wf ht ->
  (if is_hashed ht then Z.of_nat (length hs) = nTableSize ht /\ chains_ok (nTableSize ht) hs (arData ht) 0
   else hs = uninitialized_bucket) ->
  ht_wf (reset_counters (set_arHash hs ht)).
Proof.
  intros [Hd Hp Hr] Hh. pose proof (wf_size _ Hd) as (k & Hk & Ek). split.
  - apply (data_wf_unused _ k Hk); [done|done|done|apply Hd| |done]. unfold ZEND_LONG_MAX. simpl. lia.
  - done.
  - change (is_hashed (reset_counters _)) with (is_hashed ht). destruct (is_hashed ht).
    + destruct Hh. split; [apply Hr|done|done].
    + split; [apply Hr|done|]. unfold used. simpl. intros; lia.
Qed.

Lemma clean_result ht hs ev eg eg' : ht_wf ht ->
  (if is_hashed ht then Z.of_nat (length hs) = nTableSize ht /\ chains_ok (nTableSize ht) hs (arData ht) 0
   else hs = uninitialized_bucket) ->
  eg_step (bucket_events ev (live_buckets ht)) (cells eg) eg eg' ->
  cleaned ht ev eg (reset_counters (set_arHash hs ht)) eg'.
Proof. intros Hwf Hh Hs. split; try done. by apply reset_wf. Qed.

Lemma reset_hash ht : ht_wf ht -> is_hashed ht = true ->
  Z.of_nat (length (arHash (HT_HASH_RESET ht))) = nTableSize ht /\
  chains_ok (nTableSize ht) (arHash (HT_HASH_RESET ht)) (arData ht) 0.
Proof.
  intros Hwf Hh. pose proof (repr_mask _ Hwf) as Hm. rewrite Hh in Hm.
  destruct (mask_ok_reset _ _ Hm) as [(_ & _ & Hl) Ea]. split; [done|].
  rewrite Ea. apply chains_ok_reset. pose proof (data_wf_size _ (wf_data _ Hwf)). lia.
Qed.

Lemma clean_unused ht ev eg : ht_wf ht -> nNumUsed ht = 0 ->
  cleaned ht ev eg (reset_counters ht) eg.
Proof.
  intros Hwf Hz. replace ht with (set_arHash (arHash ht) ht) at 2 by (by destruct ht).
  apply clean_result; [done| |by rewrite live_buckets_unused by done; apply eg_step_refl].
  pose proof (wf_repr _ Hwf) as Hr. destruct (is_hashed ht); [|apply Hr].
  split; [apply Hr|]. pose proof (wf_h_chains _ Hr) as Hc. unfold used in Hc. by rewrite Hz in Hc.
Qed.

Lemma packed_is_not_hashed ht : ht_wf ht -> nNumUsed ht <> 0 -> is_hashed ht = negb (f_packed ht).
Proof.
  intros Hwf Hn. unfold is_hashed. destruct (f_initialized ht) eqn:E; [done|].
  by rewrite (wf_init_used _ (wf_data _ Hwf) E) in Hn.
Qed.

Lemma zend_hash_clean_ok ht eg : ht_wf ht -> exists ht' eg',
  zend_hash_clean ht eg = Ok (ht', eg') /\ cleaned ht (dtor_events ht) eg ht' eg'.
Proof.
  intros Hwf. unfold zend_hash_clean. destruct (Z.eqb_spec (nNumUsed ht) 0) as [Hz|Hz]; cbn [negb].
  - rsimp. do 2 eexists. split; [done|by apply clean_unused].
  - rewrite used_buckets_ok by apply Hwf. rsimp. do 2 eexists. split; [done|].
    pose proof (clean_loops ht eg (wf_data _ Hwf)) as Hl. cbv zeta in Hl.
    pose proof (packed_is_not_hashed _ Hwf Hz) as Hh.
    destruct (f_packed ht) eqn:Ep; cbn [negb] in *.
    + replace ht with (set_arHash (arHash ht) ht) at 2 by (by destruct ht).
      apply clean_result; [done| |done]. pose proof (wf_repr _ Hwf) as Hr.
      rewrite Hh in *. apply Hr.
    + apply (clean_result ht (arHash (HT_HASH_RESET ht))); [done| |done].
      rewrite Hh. by apply reset_hash.
Qed.

Lemma zend_symtable_clean_ok ht eg : ht_wf ht -> exists ht' eg',
  zend_symtable_clean ht eg = Ok (ht', eg') /\ cleaned ht ptr_dtor_events eg ht' eg'.
Proof.
  intros Hwf. unfold zend_symtable_clean. destruct (Z.eqb_spec (nNumUsed ht) 0) as [Hz|Hz]; cbn [negb].
  - rsimp. do 2 eexists. split; [done|by apply clean_unused].
  - rewrite used_buckets_ok by apply Hwf. rsimp. do 2 eexists. split; [done|].
    apply (clean_result ht (arHash (HT_HASH_RESET ht))); [done| |].
    + destruct (is_hashed ht) eqn:Eh; [by apply reset_hash|].
      pose proof (wf_repr _ Hwf) as Hr. rewrite Eh in Hr. unfold HT_HASH_RESET. simpl.
      by rewrite (wf_p_mask _ Hr).
    + by apply (three_loops ht (wf_data _ Hwf) _ _ i_zval_ptr_dtor_step eg).
Qed.

Lemma set_iterators_wf n ht : ht_wf ht -> ht_wf (set_nIteratorsCount n ht).
Proof. apply same_repr_wf. unfold same_repr. auto 20. Qed.

(** *** Properties *)

(** Destroying a table runs its destructor once on every entry, in order, and
    then releases the entry's key; the loops that skip the test for [IS_UNDEF] or the
    release do so only where it makes no difference.  The bucket memory is freed once when
    it was allocated (and the structure, by [zend_array_destroy]), and a non-empty
    table's iterators are poisoned, so none refers to the freed table. *)
Theorem destroy_correct (tabs : tables) (ht : HashTable) (eg : EG) (ptr_dtor : bool) :
  ht_wf ht -> iterators_wf tabs eg -> tabs !! ht_addr ht = Some ht ->
  (exists eg', zend_hash_destroy ht eg = Ok eg' /\
    destroyed ht (dtor_events ht) (data_free ht) eg eg') /\
  (exists eg', zend_array_destroy ptr_dtor ht eg = Ok eg' /\
    destroyed ht (if ptr_dtor then ptr_dtor_events else dtor_events ht)
      (EvFreeTable (ht_addr ht) :: data_free ht) eg eg').
Proof.
  intros Hwf W Ha. split; [by eapply zend_hash_destroy_ok|by eapply zend_array_destroy_ok].
Qed.

Definition counted_key (k : list char) : zend_string :=
  mk_zend_string k 1%N (zend_inline_hash_func k) false.

Lemma destroy_correct_witness : exists eg' eg'',
  zend_hash_destroy (set_nIteratorsCount 1 sample_hash) sample_slots = Ok eg' /\
  events eg' = [EvFree 1%positive; EvRelease (counted_key ["a"; "b"]%byte); EvDtor IS_TRUE;
    EvDtor (IS_INDIRECT 5%positive); EvRelease (counted_key ["a"%byte]); EvDtor (IS_LONG 1)] /\
  zend_array_destroy true (set_nIteratorsCount 1 sample_hash) sample_slots = Ok eg'' /\
  map it_ht (ht_iterators eg'') = [HT_NULL; HT_NULL; HT_POISONED_PTR; HT_POISONED_PTR].
Proof.
  pose proof (set_iterators_wf 1 sample_hash sample_hash_wf) as Hwf.
  destruct (destroy_correct sample_tabs (set_nIteratorsCount 1 sample_hash) sample_slots true
    Hwf sample_slots_wf eq_refl) as [(eg' & E & H) (eg'' & E' & H')].
  exists eg', eg''. rewrite (de_events _ _ _ _ _ H), (de_iters _ _ _ _ _ H').
  split; [exact E|]. split; [vm_compute; reflexivity|]. split; [exact E'|].
  vm_compute. reflexivity.
Defined.

(** [zend_hash_clean] and [zend_symtable_clean] leave a well-formed empty table of
    the same size and kind, whose next free index is 0 and whose position is invalid, after
    one destruction and key release per entry, in order. *)
Theorem clean_correct (ht : HashTable) (eg : EG) : ht_wf ht ->
  (exists ht' eg', zend_hash_clean ht eg = Ok (ht', eg') /\
    cleaned ht (dtor_events ht) eg ht' eg') /\
  (exists ht' eg', zend_symtable_clean ht eg = Ok (ht', eg') /\
    cleaned ht ptr_dtor_events eg ht' eg').
Proof. intros Hwf. split; [by apply zend_hash_clean_ok|by apply zend_symtable_clean_ok]. Qed.

Lemma clean_correct_witness : exists ht' eg',
  zend_hash_clean sample_hash sample_eg = Ok (ht', eg') /\ ht_wf ht' /\ elems ht' = [] /\
  events eg' = [EvRelease (counted_key ["a"; "b"]%byte); EvDtor IS_TRUE;
    EvDtor (IS_INDIRECT 5%positive); EvRelease (counted_key ["a"%byte]); EvDtor (IS_LONG 1)].
Proof.
  destruct (clean_correct sample_hash sample_eg sample_hash_wf) as [(ht' & eg' & E & H) _].
  exists ht', eg'. split; [exact E|]. split; [apply H|]. split; [apply H|].
  rewrite (es_events _ _ _ _ (cl_step _ _ _ _ _ H)). vm_compute. reflexivity.
Defined.

(** The iterators of a table without used buckets keep pointing to it when its
    memory is freed. *)
Theorem destroy_empty_keeps_iterators (ht : HashTable) (eg : EG) : nNumUsed ht = 0 ->
  exists eg', zend_array_destroy true ht eg = Ok eg' /\ ht_iterators eg' = ht_iterators eg /\
    EvFreeTable (ht_addr ht) ∈ events eg'.
Proof.
  intros Hz. unfold zend_array_destroy. rewrite Hz. simpl. destruct (f_initialized ht); simpl.
  all: eexists; split; [done|]; split; [done|]; simpl; set_solver.
Qed.
