(* ===== verification/Interned.v ===== *)
(** * Interned strings: [Zend/zend_string.c]

    Two hash tables hold one string per contents: the permanent one, filled
    while the engine starts, and one per request.  Interning returns the
    string that is already there, or puts the new one there, so that interned
    strings can be compared by address.  A string is in the tables as the key
    and as the value of its entry; [IS_STR_PERMANENT] is membership in the
    permanent table. *)
From Stdlib Require Import Strings.Byte.
From Stdlib Require Strings.String.
From S2P Require Export HashUpdate HashDestroy.

(** ** Data *)

(** The function [zend_new_interned_string] points to. *)
Inductive interned_handler := NEW_PERMANENT | NEW_REQUEST.

(** [CG_interned_strings] is [None] before the table of the first request is
    made and after a request has destroyed it: an access is then one to freed
    memory. *)
Record interned := mkInterned {
  interned_strings_permanent : HashTable;
  CG_interned_strings : option HashTable;
  new_handler : interned_handler
}.

Definition set_permanent (ht : HashTable) (st : interned) : interned :=
  mkInterned ht (CG_interned_strings st) (new_handler st).
Definition set_request (ht : option HashTable) (st : interned) : interned :=
  mkInterned (interned_strings_permanent st) ht (new_handler st).
Definition set_handler (h : interned_handler) (st : interned) : interned :=
  mkInterned (interned_strings_permanent st) (CG_interned_strings st) h.

Definition request_table (st : interned) : res HashTable :=
  match CG_interned_strings st with Some ht => Ok ht | None => Err OutOfBounds end.

(** ** Operations *)

Definition zend_init_interned_strings_ht (self : addr) (permanent : bool) (eg : EG) : res HashTable :=
  let! ht := _zend_hash_init self 1024 true permanent in
  Ok (zend_hash_real_init ht false eg).

(** [zend_string_hash_val (str)] leaves the hash in the string. *)
Definition with_hash (str : zend_string) : zend_string :=
  mk_zend_string (zs_val str) (zs_serial str) (zend_string_hash_val str) (zs_interned str).

(** The loop over a collision chain; it reads the key of an entry whose hash
    is equal. *)
Fixpoint lookup_loop (fuel : nat) (ht : HashTable) (str : list char) (h idx : Z) {struct fuel}
    : res (option zend_string) :=
  if idx =? HT_INVALID_IDX then Ok None
  else match fuel with
  | O => Err OutOfFuel
  | S fuel =>
      let! p := get_bucket ht idx in
      if b_h p =? h then
        match b_key p with
        | None => Err OutOfBounds
        | Some key =>
            if Nat.eqb (length (zs_val key)) (length str) && memeq (zs_val key) str
            then Ok (Some key)
            else lookup_loop fuel ht str h (b_next p)
        end
      else lookup_loop fuel ht str h (b_next p)
  end.

Definition zend_interned_string_ht_lookup (str : zend_string) (interned_strings : HashTable)
    : res (option zend_string) :=
  let h := zend_string_hash_val str in
  let! idx := HT_HASH interned_strings (hash_index h (nTableMask interned_strings)) in
  lookup_loop (find_fuel interned_strings) interned_strings (zs_val str) h idx.

Definition zend_add_interned_string (str : zend_string) (interned_strings : HashTable) (eg : EG)
    : res (zend_string * HashTable * EG) :=
  let str := mk_zend_string (zs_val str) (zs_serial str) (zs_h str) true in
  let! (ht, eg, _) := _zend_hash_add_new interned_strings str (IS_STRING str) eg in
  Ok (str, ht, eg).

Definition zend_interned_string_find_permanent (str : zend_string) (st : interned)
    : res (option zend_string) :=
  zend_interned_string_ht_lookup str (interned_strings_permanent st).

Definition zend_new_interned_string_permanent (str : zend_string) (st : interned) (eg : EG)
    : res (zend_string * interned * EG) :=
  if zs_interned str then Ok (str, st, eg)
  else
    let! ret := zend_interned_string_ht_lookup str (interned_strings_permanent st) in
    let str := with_hash str in
    match ret with
    | Some ret => Ok (ret, st, zend_string_release str eg)
    | None =>
        let! (str, ht, eg) := zend_add_interned_string str (interned_strings_permanent st) eg in
        Ok (str, set_permanent ht st, eg)
    end.

Definition zend_new_interned_string_request (str : zend_string) (st : interned) (eg : EG)
    : res (zend_string * interned * EG) :=
  if zs_interned str then Ok (str, st, eg)
  else
    let! ret := zend_interned_string_ht_lookup str (interned_strings_permanent st) in
    let str := with_hash str in
    match ret with
    | Some ret => Ok (ret, st, zend_string_release str eg)
    | None =>
        let! cg := request_table st in
        let! ret := zend_interned_string_ht_lookup str cg in
        match ret with
        | Some ret => Ok (ret, st, zend_string_release str eg)
        | None =>
            let! (str, ht, eg) := zend_add_interned_string str cg eg in
            Ok (str, set_request (Some ht) st, eg)
        end
    end.

(** The call through the pointer. *)
Definition zend_new_interned_string (str : zend_string) (st : interned) (eg : EG)
    : res (zend_string * interned * EG) :=
  match new_handler st with
  | NEW_PERMANENT => zend_new_interned_string_permanent str st eg
  | NEW_REQUEST => zend_new_interned_string_request str st eg
  end.

Definition zend_interned_strings_activate (self : addr) (st : interned) (eg : EG) : res interned :=
  let! ht := zend_init_interned_strings_ht self false eg in
  Ok (set_request (Some ht) st).

Definition zend_interned_strings_deactivate (st : interned) (eg : EG) : res (interned * EG) :=
  let! ht := request_table st in
  let! eg := zend_hash_destroy ht eg in
  Ok (set_request None st, eg).

(** Without a handler of the opcode cache ([interned_string_copy_storage] is
    NULL and [interned_string_request_handler] the function above). *)
Definition zend_interned_strings_switch_storage (st : interned) : interned :=
  set_handler NEW_REQUEST st.

(** *** Start-up *)

(** [str[i] = zend_new_interned_string_permanent(zend_string_init(s, len, 1))]
    for the strings of a list, in order. *)
Fixpoint intern_new (l : list (list char)) (st : interned) (eg : EG)
    : res (list zend_string * interned * EG) :=
  match l with
  | [] => Ok ([], st, eg)
  | s :: l =>
      let (str, eg) := zend_string_init s eg in
      let! (z, st, eg) := zend_new_interned_string_permanent str st eg in
      let! (zs, st, eg) := intern_new l st eg in
      Ok (z :: zs, st, eg)
  end.

Definition one_char_strings : list (list char) :=
  map (fun i => match of_N (N.of_nat i) with Some c => [c] | None => [] end) (seq 0 256).

(** [ZEND_KNOWN_STRINGS] *)
Module Known.
Import Strings.String.
Definition known_strings : list (list char) := map list_byte_of_string
  ["file"; "line"; "function"; "class"; "object"; "type"; "->"; "::"; "args"; "unknown"; "eval";
   "include"; "require"; "include_once"; "require_once"; "scalar"; "error_reporting"; "static";
   "this"; "value"; "key"; "__autoload"; "__invoke"; "previous"; "code"; "message"; "severity";
   "string"; "trace"; "scheme"; "host"; "port"; "user"; "pass"; "path"; "query"; "fragment";
   "NULL"; "boolean"; "integer"; "double"; "array"; "resource"; "resource (closed)"]%string.
End Known.

(** [zend_empty_string], [zend_one_char_string] and [zend_known_strings]. *)
Record known := mkKnown {
  zend_empty_string : zend_string;
  zend_one_char_string : list zend_string;
  zend_known_strings : list zend_string
}.

Definition zend_interned_strings_init (self : addr) (eg : EG) : res (known * interned * EG) :=
  let! perm := zend_init_interned_strings_ht self true eg in
  let st := mkInterned perm None NEW_PERMANENT in
  let (str, eg) := zend_string_init [] eg in
  let! (empty, st, eg) := zend_new_interned_string_permanent str st eg in
  let! (one, st, eg) := intern_new one_char_strings st eg in
  let! (names, st, eg) := intern_new Known.known_strings st eg in
  Ok (mkKnown empty one names, st, eg).

Definition zend_interned_strings_dtor (st : interned) (eg : EG) : res EG :=
  zend_hash_destroy (interned_strings_permanent st) eg.

(** ** The strings of a table *)

Definition strings (ht : HashTable) : list zend_string :=
  omap b_key (contents (arData ht) (used ht)).

Definition find_str (s : list char) (l : list zend_string) : option zend_string :=
  List.find (fun k => bool_decide (zs_val k = s)) l.

(** A table of interned strings: no entry is ever deleted, and every entry has
    its own interned key as value. *)
Record interned_ok (ht : HashTable) : Prop := mk_interned_ok {
  io_wf : ht_wf ht;
  io_hashed : is_hashed ht = true;
  io_dtor : pDestructor ht = true;
  io_iters : nIteratorsCount ht = 0;
  io_dense : used ht = length (strings ht);
  io_entry : forall b, b ∈ contents (arData ht) (used ht) ->
    exists k, b_key b = Some k /\ b_val b = IS_STRING k /\ zs_interned k = true
}.

(** The string that is put into a table for [str]. *)
Definition interned_as (str : zend_string) : zend_string :=
  mk_zend_string (zs_val str) (zs_serial str) (zend_inline_hash_func (zs_val str)) true.

Lemma find_str_Some s l k : find_str s l = Some k -> k ∈ l /\ zs_val k = s.
Proof. intros [H E]%find_some. apply list_elem_of_In in H. by apply bool_decide_eq_true in E. Qed.

Lemma find_str_None s l : find_str s l = None <-> s ∉ zs_val <$> l.
Proof.
  rewrite list_elem_of_fmap. split.
  - intros H (k & -> & Hk). eapply find_none in H; [|by apply list_elem_of_In].
    by apply bool_decide_eq_false in H.
  - intros H. destruct (find_str s l) as [k|] eqn:E; [|done].
    apply find_str_Some in E as [? <-]. destruct H. eauto.
Qed.

Lemma find_str_in l k : NoDup (zs_val <$> l) -> k ∈ l -> find_str (zs_val k) l = Some k.
Proof.
  induction l as [|k' l IH]; intros Hnd Hk; [set_solver|].
  rewrite fmap_cons in Hnd. apply NoDup_cons in Hnd as [Hn Hnd]. unfold find_str. simpl.
  case_bool_decide as E.
  - apply elem_of_cons in Hk as [->|Hk]; [done|]. destruct Hn. rewrite E.
    by apply (list_elem_of_fmap_2 zs_val).
  - apply elem_of_cons in Hk as [->|Hk]; [done|]. by apply IH.
Qed.

Lemma find_str_app s l1 l2 : find_str s (l1 ++ l2) =
  match find_str s l1 with Some k => Some k | None => find_str s l2 end.
Proof. unfold find_str. induction l1 as [|k l1 IH]; simpl; [done|]. by destruct (bool_decide _). Qed.

Section Table.
Context (ht : HashTable) (Hok : interned_ok ht).

Lemma strings_in k : k ∈ strings ht <-> exists i b, key_at ht (KStr (zs_val k)) i b /\ b_key b = Some k.
Proof.
  unfold strings. rewrite list_elem_of_omap. split.
  - intros (c & (i & b & Hi & Hb & ->)%contents_in & Ek). exists i, b. split; [|done].
    split; [done|]. split; [done|]. unfold bkey. simpl in Ek. by rewrite Ek.
  - intros (i & b & (Hi & Hb & _) & Ek). exists (clear_next b). split; [|done].
    apply contents_in. eauto.
Qed.

Lemma live_string i b : (i < used ht)%nat -> live (arData ht) i b ->
  exists k, b_key b = Some k /\ k ∈ strings ht /\ b_val b = IS_STRING k /\ zs_interned k = true.
Proof.
  intros Hi Hb. assert (Hc : clear_next b ∈ contents (arData ht) (used ht))
    by (apply contents_in; eauto).
  destruct (io_entry _ Hok _ Hc) as (k & Ek & Ev & Hn). exists k. simpl in *.
  split; [done|]. split; [|done]. apply list_elem_of_omap. eauto.
Qed.

Lemma strings_ok k : k ∈ strings ht ->
  zs_interned k = true /\ zs_h k = zend_inline_hash_func (zs_val k).
Proof.
  intros (i & b & (Hi & Hb & _) & Ek)%strings_in.
  destruct (live_string i b Hi Hb) as (k' & Ek' & _ & _ & Hn). simplify_eq.
  destruct (wf_bucket _ (wf_data _ (io_wf _ Hok)) i b Hi Hb) as [_ Hw]. rewrite Ek in Hw.
  destruct Hw as [[[_ ?]|?] _]; [congruence|done].
Qed.

Lemma strings_keys : KStr <$> (zs_val <$> strings ht) = (elems ht).*1.
Proof.
  unfold elems. fold (used ht). rewrite contents_elems. pose proof (io_entry _ Hok) as He.
  unfold strings. induction (contents _ _) as [|b l IH]; [done|].
  destruct (He b ltac:(set_solver)) as (k & Ek & _). simpl. rewrite Ek. simpl.
  unfold bkey. rewrite Ek. f_equal. apply IH. intros c Hc. apply He. set_solver.
Qed.

Lemma strings_NoDup : NoDup (zs_val <$> strings ht).
Proof. apply (NoDup_fmap_1 KStr). rewrite strings_keys. apply (io_wf _ Hok). Qed.

(** *** Lookup *)

Lemma lookup_loop_find str h fuel head l : chain (arData ht) head l ->
  (forall i b, i ∈ l -> arData ht !! i = Some b -> is_Some (b_key b)) ->
  lookup_loop fuel ht str h head =
  (let! r := find_loop fuel ht (match_str str h) head in
   match r with None => Ok None | Some i => let! b := get_bucket ht i in Ok (b_key b) end).
Proof.
  revert fuel head. induction l as [|i l IH]; intros fuel head.
  - intros -> _. by destruct fuel.
  - intros (-> & b & Hb & Hc) Hk. destruct fuel as [|fuel]; simpl; destruct (_ =? _); try done.
    unfold get_bucket. rewrite (aget_ok _ _ _ Hb). rsimp.
    destruct (Hk i b ltac:(set_solver) Hb) as [k Ek]. unfold match_str at 1. rewrite Ek.
    specialize (IH fuel (b_next b) Hc ltac:(intros j c Hj; apply Hk; set_solver)).
    destruct (b_h b =? h); [|exact IH]. simpl.
    destruct (Nat.eqb _ _ && _) eqn:Em; [|exact IH].
    simpl. unfold get_bucket. rewrite (aget_ok _ _ _ Hb). simpl. by rewrite Ek.
Qed.

Lemma lookup_ok str : zend_string_ok str ->
  zend_interned_string_ht_lookup str ht = Ok (find_str (zs_val str) (strings ht)).
Proof.
  intros Hs. pose proof (io_wf _ Hok) as Hwf. unfold zend_interned_string_ht_lookup.
  rewrite (hash_val_ok _ Hs). set (h := zend_inline_hash_func (zs_val str)).
  pose proof (hash_func_range (zs_val str)) as Hh. fold h in Hh.
  destruct (str_find_bucket_ok ht (zs_val str) Hwf) as (r & E & Hr). revert E.
  unfold zend_hash_str_find_bucket. fold h.
  pose proof (repr_mask _ Hwf) as Hm. rewrite (io_hashed _ Hok) in Hm.
  pose proof Hm as ((k & Hk & En) & _ & _). pose proof (pow2_range k Hk).
  set (n := nTableSize ht) in *. pose proof (Z.mod_pos_bound h n ltac:(lia)) as Hsl.
  destruct (repr_slot ht (h mod n) Hwf) as (head & Hhd & Hc); [by rewrite (io_hashed _ Hok)|].
  rewrite (io_hashed _ Hok) in Hc. rewrite (HT_HASH_slot ht n) by (done || lia).
  rewrite (aget_okZ _ _ head) by (lia || done). rsimp. intros E.
  rewrite (lookup_loop_find (zs_val str) h _ head _ Hc), E.
  - rsimp. destruct r as [i|]; simpl in *.
    + destruct Hr as (b & Hi & Hb & Hkey). unfold get_bucket. rewrite (aget_ok _ _ _ (proj1 Hb)).
      rsimp. destruct (live_string i b Hi Hb) as (s & Es & Hin & _). rewrite Es.
      unfold bkey in Hkey. rewrite Es in Hkey. injection Hkey as <-.
      by rewrite (find_str_in _ s strings_NoDup Hin).
    + destruct (find_str _ _) as [s|] eqn:Ef; [|done].
      apply find_str_Some in Ef as [(i & b & Hka & _)%strings_in Ev]. rewrite Ev in Hka.
      by destruct (Hr i b).
  - intros i b Hi Hb. apply slot_list_in in Hi as [Hi (c & Hc' & _)%in_slot_true].
    rewrite (proj1 Hc') in Hb. injection Hb as <-.
    destruct (live_string i c Hi Hc') as (s & -> & _). done.
Qed.
End Table.

(** *** Adding *)

Lemma inserted_contents ht ht1 ht' b : is_undef (b_val b) = false -> inserted ht ht1 ht' b ->
  contents (arData ht') (used ht') = contents (arData ht) (used ht) ++ [clear_next b].
Proof.
  intros Hv Hi. destruct (ins_at _ _ _ _ Hi) as [n Hn]. rewrite (ins_used _ _ _ _ Hi).
  rewrite (contents_S _ _ _ Hn). unfold is_live. simpl. rewrite Hv. simpl. f_equal.
  apply contents_ext. intros i Hlt. by rewrite (ins_old _ _ _ _ Hi i Hlt).
Qed.

Lemma regrown_interned ht ht' eg eg' : interned_ok ht -> regrown ht ht' eg eg' ->
  interned_ok ht' /\ strings ht' = strings ht /\ eg' = eg.
Proof.
  intros Hok Hg. pose proof (rg_contents _ _ _ _ Hg) as Ec. unfold strings. rewrite Ec.
  split; [|split; [done|by apply (rg_no_iters _ _ _ _ Hg), Hok]].
  pose proof (rg_same _ _ _ _ Hg) as Hs. split; [apply Hg|apply Hg| | | |].
  - by rewrite (st_dtor _ _ Hs), (io_dtor _ Hok).
  - by rewrite (st_iterators _ _ Hs), (io_iters _ Hok).
  - unfold strings. rewrite Ec. fold (strings ht). unfold used. rewrite (rg_compact _ _ _ _ Hg),
      (rg_count _ _ _ _ Hg), (wf_count _ (wf_data _ (io_wf _ Hok))), Nat2Z.id.
    by rewrite <- (length_fmap fst), <- (strings_keys _ Hok), !length_fmap.
  - rewrite Ec. apply Hok.
Qed.

Lemma inserted_interned ht ht1 ht' b k : interned_ok ht -> inserted ht ht1 ht' b ->
  b_val b = IS_STRING k -> b_key b = Some k -> zs_interned k = true ->
  interned_ok ht' /\ strings ht' = strings ht ++ [k].
Proof.
  intros Hok Hi Ev Ek Hk. pose proof (ins_same _ _ _ _ Hi) as Hs.
  assert (Hu : is_undef (b_val b) = false) by (by rewrite Ev).
  pose proof (inserted_contents _ _ _ _ Hu Hi) as Ec.
  unfold strings. rewrite Ec, omap_app. simpl. rewrite Ek. split; [|done].
  split; [apply Hi| | | | |].
  - destruct (is_hashed ht') eqn:E; [done|]. pose proof (ins_wf _ _ _ _ Hi) as Hwf.
    destruct (ins_at _ _ _ _ Hi) as [n Hn].
    destruct (not_hashed_int ht' (bkey b) (used ht) (set_b_next n b) Hwf E) as (h & Eh & _).
    { split; [rewrite (ins_used _ _ _ _ Hi); lia|done]. }
    unfold bkey in Eh. by rewrite Ek in Eh.
  - by rewrite (st_dtor _ _ Hs), (io_dtor _ Hok).
  - by rewrite (st_iterators _ _ Hs), (io_iters _ Hok).
  - unfold strings. rewrite Ec, omap_app, length_app. fold (strings ht). simpl. rewrite Ek. simpl.
    rewrite <- (io_dense _ Hok), (ins_used _ _ _ _ Hi). lia.
  - intros c Hc. rewrite Ec in Hc. apply elem_of_app in Hc as [Hc|Hc]; [by apply Hok|].
    apply list_elem_of_singleton in Hc as ->. by exists k.
Qed.

(** The table has its maximal size and no room. *)
Definition full (ht : HashTable) : Prop := Z.of_nat (length (strings ht)) = HT_MAX_SIZE.

Lemma add_string_ok ht str eg :
  interned_ok ht -> zs_h str = zend_inline_hash_func (zs_val str) ->
  find_str (zs_val str) (strings ht) = None ->
  (full ht /\ zend_add_interned_string str ht eg = Err Fatal) \/
  exists ht', zend_add_interned_string str ht eg = Ok (interned_as str, ht', eg) /\
    interned_ok ht' /\ strings ht' = strings ht ++ [interned_as str] /\ same_table ht ht'.
Proof.
  intros Hok Hh Hn. unfold zend_add_interned_string. rewrite Hh. fold (interned_as str).
  set (k := interned_as str). assert (Hk : zend_string_ok k) by (by right).
  pose proof (io_hashed _ Hok) as Hhash. pose proof Hhash as [Ein Epk]%andb_prop.
  apply negb_true_iff in Epk. unfold _zend_hash_add_new, _zend_hash_add_or_update_i.
  rewrite Ein, Epk. change (has_flag HASH_ADD_NEW HASH_ADD_NEW) with true. cbn [negb].
  unfold resize_and_str_add.
  destruct (if_full_do_resize_ok ht eg (io_wf _ Hok) Hhash)
    as [(-> & _ & Hu)|(ht1 & eg1 & -> & Hroom & Hg)]; [left|right]; rsimp.
  { split; [|done]. unfold full. rewrite <- (io_dense _ Hok), <- Hu. unfold used.
    apply Z2Nat.id. rewrite Hu. unfold HT_MAX_SIZE. lia. }
  assert (H1 : interned_ok ht1 /\ strings ht1 = strings ht /\ eg1 = eg /\ same_table ht ht1).
  { destruct Hg as [[-> ->]|Hg]; [done|]. pose proof (rg_same _ _ _ _ Hg).
    destruct (regrown_interned _ _ _ _ Hok Hg) as (? & ? & ?). done. }
  destruct H1 as (Hok1 & Es & -> & Hs).
  destruct (str_add_inserted ht1 k (IS_STRING k) eg (io_wf _ Hok1) (io_hashed _ Hok1) Hroom Hk eq_refl)
    as (ht2 & ht' & b & eg' & -> & Hi & Ev & Ek & _ & _ & ->).
  { apply al_find_None. rewrite <- (strings_keys _ Hok1), Es.
    intros (s & Ev & Hs')%list_elem_of_fmap. injection Ev as <-.
    by apply find_str_None in Hn. }
  destruct (inserted_interned ht1 ht2 ht' b k Hok1 Hi Ev Ek eq_refl) as [Hok' Es'].
  rsimp. exists ht'. split.
  - unfold zend_string_addref, zend_hash_iterators_update. simpl.
    replace (nIteratorsCount (count_new ht1)) with 0; [done|].
    rewrite <- (io_iters _ Hok1). unfold count_new. simpl. by destruct (_ =? _).
  - split; [done|]. split; [by rewrite Es', Es|]. etrans; [exact Hs|apply Hi].
Qed.

(** ** Both tables *)

Definition permanent_strings (st : interned) : list zend_string :=
  strings (interned_strings_permanent st).
Definition request_strings (st : interned) : list zend_string :=
  match CG_interned_strings st with Some ht => strings ht | None => [] end.

(** The interned strings, in the order in which they were interned. *)
Definition canonical (st : interned) : list zend_string := permanent_strings st ++ request_strings st.

(** While the engine starts there is no request string; later the request's
    table exists and has no string of the permanent one. *)
Record tables_ok (st : interned) : Prop := mk_tables_ok {
  to_perm : interned_ok (interned_strings_permanent st);
  to_req : forall ht, CG_interned_strings st = Some ht -> interned_ok ht;
  to_mode : match new_handler st with
    | NEW_PERMANENT => request_strings st = []
    | NEW_REQUEST => is_Some (CG_interned_strings st)
    end;
  to_distinct : NoDup (zs_val <$> canonical st)
}.

(** The table that takes the next new string. *)
Definition current_strings (st : interned) : list zend_string :=
  match new_handler st with NEW_PERMANENT => permanent_strings st | NEW_REQUEST => request_strings st end.

Lemma canonical_ok st k : tables_ok st -> k ∈ canonical st ->
  zs_interned k = true /\ zs_h k = zend_inline_hash_func (zs_val k).
Proof.
  intros Hok. unfold canonical, permanent_strings, request_strings.
  intros [Hk|Hk]%elem_of_app; [by apply (strings_ok _ (to_perm _ Hok))|].
  destruct (CG_interned_strings st) as [ht|] eqn:E; [|set_solver].
  by apply (strings_ok _ (to_req _ Hok _ E)).
Qed.

Lemma with_hash_ok str : zend_string_ok str ->
  zs_h (with_hash str) = zend_inline_hash_func (zs_val str) /\ zend_string_ok (with_hash str) /\
  interned_as (with_hash str) = interned_as str.
Proof. intros Hs. simpl. rewrite (hash_val_ok _ Hs). split; [done|]. split; [by right; simpl; rewrite (hash_val_ok _ Hs)|done]. Qed.

(** What interning a string does. *)
Record intern_result (str : zend_string) (st : interned) (eg : EG) (r : zend_string)
    (st' : interned) (eg' : EG) : Prop := mk_intern_result {
  ir_ok : tables_ok st';
  ir_handler : new_handler st' = new_handler st;
  ir_permanent : new_handler st = NEW_REQUEST ->
    interned_strings_permanent st' = interned_strings_permanent st;
  ir_found : if zs_interned str then r = str /\ st' = st /\ eg' = eg
    else match find_str (zs_val str) (canonical st) with
    | Some k => r = k /\ st' = st /\ eg' = log (EvRelease (with_hash str)) eg
    | None => r = interned_as str /\ canonical st' = canonical st ++ [r] /\ eg' = eg
    end
}.

Definition interns (str : zend_string) (st : interned) (eg : EG)
    (out : res (zend_string * interned * EG)) : Prop :=
  (Z.of_nat (length (current_strings st)) = HT_MAX_SIZE /\ out = Err Fatal) \/
  exists r st' eg', out = Ok (r, st', eg') /\ intern_result str st eg r st' eg'.

Lemma interns_known str st eg r eg' : tables_ok st ->
  (if zs_interned str then r = str /\ eg' = eg
   else find_str (zs_val str) (canonical st) = Some r /\ eg' = log (EvRelease (with_hash str)) eg) ->
  interns str st eg (Ok (r, st, eg')).
Proof.
  intros Hok H. right. exists r, st, eg'. split; [done|]. split; [done|done|done|].
  destruct (zs_interned str); [by destruct H|]. by destruct H as [-> ?].
Qed.

Lemma interns_new str st st' eg : tables_ok st -> zs_interned str = false ->
  find_str (zs_val str) (canonical st) = None ->
  interned_ok (interned_strings_permanent st') ->
  (forall ht, CG_interned_strings st' = Some ht -> interned_ok ht) ->
  match new_handler st with
  | NEW_PERMANENT => request_strings st' = []
  | NEW_REQUEST => is_Some (CG_interned_strings st') /\
      interned_strings_permanent st' = interned_strings_permanent st
  end ->
  new_handler st' = new_handler st -> canonical st' = canonical st ++ [interned_as str] ->
  interns str st eg (Ok (interned_as str, st', eg)).
Proof.
  intros Hok Hn Hf Hp Hr Hm Hh Hc. right. exists (interned_as str), st', eg. split; [done|].
  split; [|done| |by rewrite Hn, Hf].
  - split; [done|done| |].
    + rewrite Hh. destruct (new_handler st); [done|apply Hm].
    + rewrite Hc, fmap_app. apply NoDup_app. split; [apply Hok|]. split; [|apply NoDup_singleton].
      intros v Hv ->%list_elem_of_singleton. by apply find_str_None in Hf.
  - intros E. rewrite E in Hm. apply Hm.
Qed.

Lemma permanent_ok str st eg : tables_ok st -> new_handler st = NEW_PERMANENT ->
  zend_string_ok str -> interns str st eg (zend_new_interned_string_permanent str st eg).
Proof.
  intros Hok Hh Hs. unfold zend_new_interned_string_permanent.
  destruct (zs_interned str) eqn:En; [apply interns_known; [done|by rewrite En]|].
  pose proof (to_mode _ Hok) as Hm. rewrite Hh in Hm. pose proof (to_perm _ Hok) as Hp.
  assert (Ec : canonical st = permanent_strings st) by (unfold canonical; by rewrite Hm, app_nil_r).
  rewrite (lookup_ok _ Hp str Hs). rsimp. fold (permanent_strings st). rewrite <- Ec.
  destruct (with_hash_ok str Hs) as (Eh & _ & Ei).
  destruct (find_str (zs_val str) (canonical st)) as [k|] eqn:Ef.
  - apply interns_known; [done|]. unfold zend_string_release. simpl. by rewrite En.
  - destruct (add_string_ok (interned_strings_permanent st) (with_hash str) eg Hp Eh)
      as [[Hfull ->]|(ht' & -> & Hok' & Es & _)].
    + by rewrite <- Ef, Ec.
    + left. split; [|done]. unfold current_strings. by rewrite Hh.
    + rsimp. rewrite Ei in *. apply interns_new; try done.
      * apply Hok.
      * rewrite Hh. exact Hm.
      * unfold canonical, permanent_strings, request_strings in *. simpl. rewrite Es, Hm.
        by rewrite !app_nil_r.
Qed.

Lemma request_ok str st eg : tables_ok st -> new_handler st = NEW_REQUEST ->
  zend_string_ok str -> interns str st eg (zend_new_interned_string_request str st eg).
Proof.
  intros Hok Hh Hs. unfold zend_new_interned_string_request.
  destruct (zs_interned str) eqn:En; [apply interns_known; [done|by rewrite En]|].
  pose proof (to_mode _ Hok) as Hm. rewrite Hh in Hm. destruct Hm as [cg Ecg].
  pose proof (to_req _ Hok _ Ecg) as Hcg.
  destruct (with_hash_ok str Hs) as (Eh & Hs' & Ei).
  assert (Er : zend_string_release (with_hash str) eg = log (EvRelease (with_hash str)) eg)
    by (unfold zend_string_release; simpl; by rewrite En).
  pose proof (find_str_app (zs_val str) (permanent_strings st) (request_strings st)) as Ea.
  fold (canonical st) in Ea. unfold request_strings in Ea. rewrite Ecg in Ea.
  rewrite (lookup_ok _ (to_perm _ Hok) str Hs). rsimp. fold (permanent_strings st).
  destruct (find_str (zs_val str) (permanent_strings st)) as [k|] eqn:Ef.
  - apply interns_known; [done|]. by rewrite En, Er.
  - unfold request_table. rewrite Ecg. rsimp. rewrite (lookup_ok _ Hcg _ Hs'). rsimp.
    change (zs_val (with_hash str)) with (zs_val str).
    destruct (find_str (zs_val str) (strings cg)) as [k|] eqn:Eg.
    + apply interns_known; [done|]. by rewrite En, Er.
    + destruct (add_string_ok cg (with_hash str) eg Hcg Eh Eg)
        as [[Hfull ->]|(ht' & -> & Hok' & Es & _)].
      * left. split; [|done]. unfold current_strings, request_strings. by rewrite Hh, Ecg.
      * rsimp. rewrite Ei in *. apply interns_new; try done.
        -- apply Hok.
        -- by intros ht [= <-].
        -- rewrite Hh. done.
        -- unfold canonical, permanent_strings, request_strings in *. simpl. by rewrite Es, Ecg, app_assoc.
Qed.

Lemma new_interned_string_ok str st eg : tables_ok st -> zend_string_ok str ->
  interns str st eg (zend_new_interned_string str st eg).
Proof.
  intros Hok Hs. unfold zend_new_interned_string.
  destruct (new_handler st) eqn:E; [by apply permanent_ok|by apply request_ok].
Qed.

(** ** Sequences of strings *)

Fixpoint intern_all (l : list zend_string) (st : interned) (eg : EG)
    : res (list zend_string * interned * EG) :=
  match l with
  | [] => Ok ([], st, eg)
  | str :: l =>
      let! (r, st, eg) := zend_new_interned_string str st eg in
      let! (rs, st, eg) := intern_all l st eg in
      Ok (r :: rs, st, eg)
  end.

(** The specification: a list of strings with distinct contents. *)
Definition spec_intern (canon : list zend_string) (ev : list event) (str : zend_string)
    : zend_string * list zend_string * list event :=
  if zs_interned str then (str, canon, ev)
  else match find_str (zs_val str) canon with
  | Some k => (k, canon, EvRelease (with_hash str) :: ev)
  | None => (interned_as str, canon ++ [interned_as str], ev)
  end.

Fixpoint spec_all (canon : list zend_string) (ev : list event) (l : list zend_string)
    : list zend_string * list zend_string * list event :=
  match l with
  | [] => ([], canon, ev)
  | str :: l =>
      let '(r, canon, ev) := spec_intern canon ev str in
      let '(rs, canon, ev) := spec_all canon ev l in
      (r :: rs, canon, ev)
  end.

Lemma intern_result_spec str st eg r st' eg' : intern_result str st eg r st' eg' ->
  spec_intern (canonical st) (events eg) str = (r, canonical st', events eg').
Proof.
  intros [_ _ _ H]. unfold spec_intern. destruct (zs_interned str).
  - by destruct H as (-> & -> & ->).
  - destruct (find_str _ _); [by destruct H as (-> & -> & ->)|].
    destruct H as (-> & -> & ->). done.
Qed.

Lemma canonical_length st : tables_ok st -> Z.of_nat (length (canonical st)) =
  Z.of_nat (length (current_strings st)) + match new_handler st with
    NEW_PERMANENT => 0 | NEW_REQUEST => Z.of_nat (length (permanent_strings st)) end.
Proof.
  intros Hok. pose proof (to_mode _ Hok) as Hm. unfold canonical, current_strings.
  rewrite length_app. destruct (new_handler st); [rewrite Hm; simpl|]; lia.
Qed.

Lemma intern_result_length str st eg r st' eg' : tables_ok st -> intern_result str st eg r st' eg' ->
  (length (current_strings st') <= S (length (current_strings st)))%nat.
Proof.
  intros Hok H. pose proof (canonical_length _ Hok) as E.
  pose proof (canonical_length _ (ir_ok _ _ _ _ _ _ H)) as E'.
  rewrite (ir_handler _ _ _ _ _ _ H) in E'.
  assert (Hp : match new_handler st with NEW_PERMANENT => True
    | NEW_REQUEST => permanent_strings st' = permanent_strings st end).
  { destruct (new_handler st) eqn:Eh; [done|]. unfold permanent_strings.
    by rewrite (ir_permanent _ _ _ _ _ _ H Eh). }
  assert (Hl : (length (canonical st') <= S (length (canonical st)))%nat).
  { pose proof (ir_found _ _ _ _ _ _ H) as Hf. destruct (zs_interned str).
    - destruct Hf as (_ & -> & _). lia.
    - destruct (find_str _ _); [destruct Hf as (_ & -> & _); lia|].
      destruct Hf as (_ & -> & _). rewrite length_app. simpl. lia. }
  destruct (new_handler st); [lia|]. rewrite Hp in E'. lia.
Qed.

Lemma spec_intern_result canon ev str r canon' ev' :
  spec_intern canon ev str = (r, canon', ev') -> (zs_interned str = true -> str ∈ canon) ->
  zs_val r = zs_val str /\ r ∈ canon' /\ canon `prefix_of` canon'.
Proof.
  unfold spec_intern. destruct (zs_interned str); [intros [= <- <- <-] H; eauto|].
  destruct (find_str _ _) as [k|] eqn:Ef; intros [= <- <- <-] _.
  - apply find_str_Some in Ef as [? ?]. done.
  - split; [done|]. split; [set_solver|by apply prefix_app_r].
Qed.

(** The strings that may be interned: those that claim to be interned are. *)
Definition may_intern (canon : list zend_string) (str : zend_string) : Prop :=
  zend_string_ok str /\ (zs_interned str = true -> str ∈ canon).

Lemma may_intern_prefix c c' l : c `prefix_of` c' -> Forall (may_intern c) l -> Forall (may_intern c') l.
Proof.
  intros [c2 ->] Hl. eapply Forall_impl; [exact Hl|]. intros s [? H]. split; [done|].
  intros Hi. apply elem_of_app. auto.
Qed.

Lemma intern_all_ok l st eg : tables_ok st -> Forall (may_intern (canonical st)) l ->
  (HT_MAX_SIZE <= Z.of_nat (length (current_strings st) + length l) /\
   intern_all l st eg = Err Fatal) \/
  exists rs st' eg', intern_all l st eg = Ok (rs, st', eg') /\ tables_ok st' /\
    new_handler st' = new_handler st /\
    spec_all (canonical st) (events eg) l = (rs, canonical st', events eg') /\
    canonical st `prefix_of` canonical st' /\
    Forall2 (fun str r => zs_val r = zs_val str /\ r ∈ canonical st') l rs.
Proof.
  revert st eg. induction l as [|str l IH]; intros st eg Hok Hl; cbn [intern_all spec_all].
  { right. exists [], st, eg. do 5 (split; [done|]). constructor. }
  apply Forall_cons in Hl as [Hs Hl].
  destruct (new_interned_string_ok str st eg Hok (proj1 Hs)) as [[Hf ->]|(r & st1 & eg1 & -> & Hr)].
  { left. split; [simpl; lia|done]. }
  pose proof (intern_result_spec _ _ _ _ _ _ Hr) as Es.
  destruct (spec_intern_result _ _ _ _ _ _ Es (proj2 Hs)) as (Ev & Hin & Hpre).
  rsimp. destruct (IH st1 eg1 (ir_ok _ _ _ _ _ _ Hr)) as [[Hf ->]|(rs & st' & eg' & -> & Hok' & Hh & E & Hpre' & H2)].
  - by apply (may_intern_prefix (canonical st)).
  - left. split; [|done]. pose proof (intern_result_length _ _ _ _ _ _ Hok Hr). simpl. lia.
  - right. exists (r :: rs), st', eg'. rsimp. split; [done|]. split; [done|].
    split; [by rewrite Hh; apply Hr|]. rewrite Es, E. split; [done|]. split; [by etrans|].
    constructor; [|done]. split; [done|]. destruct Hpre' as [c ->]. set_solver.
Qed.

(** Comparing addresses is comparing contents. *)
Lemma same_ptr_canonical st r r' : tables_ok st -> r ∈ canonical st -> r' ∈ canonical st ->
  same_ptr r r' = bool_decide (zs_val r = zs_val r').
Proof.
  intros Hok Hr Hr'. case_bool_decide as E.
  - pose proof (find_str_in _ _ (to_distinct _ Hok) Hr) as F.
    rewrite E, (find_str_in _ _ (to_distinct _ Hok) Hr') in F. injection F as ->.
    by apply bool_decide_eq_true.
  - destruct (same_ptr r r') eqn:Es; [|done]. by apply same_ptr_val in Es.
Qed.

(** ** Start-up, and the strings of a request *)

Lemma init_table_ok self permanent eg : exists ht,
  zend_init_interned_strings_ht self permanent eg = Ok ht /\ interned_ok ht /\ strings ht = [] /\
  ht_addr ht = self.
Proof.
  unfold zend_init_interned_strings_ht.
  destruct (_zend_hash_init self 1024 true permanent) as [ht|] eqn:E; [|done]. rsimp.
  destruct (hash_init_ok self 1024 true permanent ht ltac:(lia) E) as (Hwf & _ & Hi & _).
  destruct (real_init_ok ht false eg Hwf Hi) as (H1 & _ & H3 & H4 & H5 & _ & _ & H8).
  injection E as <-. eexists. split; [done|]. unfold zend_hash_real_init.
  set (ht' := zend_hash_real_init_ex _ _ _) in *.
  assert (Hu : used ht' = 0%nat) by (unfold used; by rewrite H8).
  assert (Hs : strings ht' = []) by (unfold strings; by rewrite Hu).
  split; [|split; [done|by rewrite (st_addr _ _ H5)]].
  split; [done|unfold is_hashed; by rewrite H3, H4|by rewrite (st_dtor _ _ H5)| | |].
  - by rewrite (st_iterators _ _ H5).
  - by rewrite Hu, Hs.
  - rewrite Hu. set_solver.
Qed.

Lemma activate_ok self st eg : interned_ok (interned_strings_permanent st) -> exists st',
  zend_interned_strings_activate self st eg = Ok st' /\ tables_ok st' /\
  canonical st' = permanent_strings st /\ new_handler st' = new_handler st /\
  interned_strings_permanent st' = interned_strings_permanent st.
Proof.
  intros Hp. unfold zend_interned_strings_activate.
  destruct (init_table_ok self false eg) as (ht & -> & Hok & Hs & _). rsimp.
  eexists. split; [done|].
  assert (Ec : canonical (set_request (Some ht) st) = permanent_strings st)
    by (unfold canonical, request_strings; simpl; by rewrite Hs, app_nil_r).
  split; [|done]. split; [done|by intros ? [= <-]| |].
  - simpl. by destruct (new_handler st).
  - rewrite Ec. by apply strings_NoDup.
Qed.

Lemma interned_bucket_events ht : interned_ok ht ->
  bucket_events (dtor_events ht) (live_buckets ht) =
  rev (map (fun k => EvDtor (IS_STRING k)) (strings ht)).
Proof.
  intros Hok. unfold dtor_events. rewrite (io_dtor _ Hok).
  assert (Hc : contents (arData ht) (used ht) = map clear_next (live_buckets ht)).
  { unfold contents, live_buckets. induction (take _ _) as [|b l IH]; [done|]. simpl.
    change (is_live (clear_next b)) with (is_live b). destruct (is_live b); simpl; by rewrite IH. }
  pose proof (io_entry _ Hok) as He. unfold strings. rewrite Hc in *. clear Hc.
  induction (live_buckets ht) as [|b l IH]; [done|].
  destruct (He (clear_next b) ltac:(set_solver)) as (k & Ek & Ev & Hk). simpl in Ek, Ev |- *.
  rewrite Ek. simpl. change (list_omap _ _ b_key (map clear_next l)) with (omap b_key (map clear_next l)).
  rewrite <- IH by (intros c Hc'; apply He; set_solver).
  unfold bucket_events. simpl. rewrite map_app, concat_app. simpl. unfold release_events. by rewrite Ek, Ev, Hk.
Qed.

Lemma destroy_interned_ok ht eg : interned_ok ht -> exists eg', zend_hash_destroy ht eg = Ok eg' /\
  events eg' = EvFree (ht_addr ht) :: rev (map (fun k => EvDtor (IS_STRING k)) (strings ht)) ++ events eg.
Proof.
  intros Hok. pose proof (wf_data _ (io_wf _ Hok)) as Hd. rewrite <- (interned_bucket_events _ Hok).
  pose proof (destroy_loops ht eg Hd) as Hl. cbv zeta in Hl.
  pose proof (io_hashed _ Hok) as [Ein _]%andb_prop. unfold zend_hash_destroy.
  destruct (Z.eqb_spec (nNumUsed ht) 0) as [Hz|Hz]; cbn [negb].
  - rewrite Ein, (live_buckets_unused _ Hz). by eexists.
  - rewrite used_buckets_ok by done. rsimp. eexists. split; [done|].
    unfold zend_hash_iterators_remove. rewrite (io_iters _ Hok). simpl. f_equal.
    apply (es_events _ _ _ _ Hl).
Qed.

Lemma intern_new_ok l st eg : tables_ok st -> new_handler st = NEW_PERMANENT ->
  Z.of_nat (length (canonical st) + length l) < HT_MAX_SIZE -> exists rs st' eg',
  intern_new l st eg = Ok (rs, st', eg') /\ tables_ok st' /\ new_handler st' = NEW_PERMANENT /\
  map zs_val rs = l /\ (forall r, r ∈ rs -> r ∈ canonical st') /\
  canonical st `prefix_of` canonical st' /\
  (length (canonical st') <= length (canonical st) + length l)%nat.
Proof.
  revert st eg. induction l as [|s l IH]; intros st eg Hok Hh Hlen; cbn [intern_new].
  { exists [], st, eg. do 4 (split; [done|]). split; [set_solver|]. split; [done|simpl; lia]. }
  unfold zend_string_init. set (str := mk_zend_string _ _ _ _). set (eg1 := mkEG _ _ _ _ _ _ _).
  assert (Hs : zend_string_ok str) by (by left).
  pose proof (canonical_length _ Hok) as El. rewrite Hh in El. simpl in Hlen.
  destruct (permanent_ok str st eg1 Hok Hh Hs) as [[Hf _]|(r & st1 & eg2 & -> & Hr)]; [lia|].
  destruct (spec_intern_result _ _ _ _ _ _ (intern_result_spec _ _ _ _ _ _ Hr) ltac:(done))
    as (Ev & Hin & Hpre).
  pose proof (intern_result_length _ _ _ _ _ _ Hok Hr) as Hgrow.
  pose proof (canonical_length _ (ir_ok _ _ _ _ _ _ Hr)) as El'.
  rewrite (ir_handler _ _ _ _ _ _ Hr), Hh in El'.
  rsimp. destruct (IH st1 eg2 (ir_ok _ _ _ _ _ _ Hr)) as (rs & st' & eg' & -> & Hok' & Hh' & E & Hall & Hpre' & Hle).
  - by rewrite (ir_handler _ _ _ _ _ _ Hr).
  - lia.
  - rsimp. exists (r :: rs), st', eg'. do 3 (split; [done|]). split; [simpl; by rewrite Ev, E|].
    split; [|split; [by etrans|simpl; lia]].
    intros r' [->|?]%elem_of_cons; [|by apply Hall]. destruct Hpre' as [c ->]. set_solver.
Qed.

Lemma strings_init_ok self eg : exists k st eg',
  zend_interned_strings_init self eg = Ok (k, st, eg') /\ tables_ok st /\
  new_handler st = NEW_PERMANENT /\ zs_val (zend_empty_string k) = [] /\
  map zs_val (zend_one_char_string k) = one_char_strings /\
  map zs_val (zend_known_strings k) = Known.known_strings /\
  forall s, s ∈ zend_empty_string k :: zend_one_char_string k ++ zend_known_strings k ->
    s ∈ canonical st.
Proof.
  unfold zend_interned_strings_init.
  destruct (init_table_ok self true eg) as (perm & -> & Hp & Hs & _). rsimp.
  set (st0 := mkInterned perm None NEW_PERMANENT).
  assert (Ec : canonical st0 = []) by (unfold canonical, permanent_strings; simpl; by rewrite Hs).
  assert (Hok0 : tables_ok st0) by (split; [done|done|done|rewrite Ec; constructor]).
  destruct (intern_new_ok [[]] st0 eg Hok0 eq_refl) as (rs & st1 & eg1 & E & Hok1 & Hh1 & Ev & Hin & _ & Hl1);
    [rewrite Ec; unfold HT_MAX_SIZE; simpl; lia|].
  rewrite Ec in Hl1. cbn [intern_new zend_string_init] in E |- *.
  apply rbind_inv in E as ([[empty st1'] eg1'] & -> & E). cbn [rbind] in E |- *. injection E as <- -> ->.
  injection Ev as Ev. simpl in Hl1.
  destruct (intern_new_ok one_char_strings st1 eg1 Hok1 Hh1)
    as (one & st2 & eg2 & -> & Hok2 & Hh2 & Ev2 & Hin2 & Hpre2 & Hl2).
  { change (length one_char_strings) with 256%nat. unfold HT_MAX_SIZE. lia. }
  change (length one_char_strings) with 256%nat in Hl2. rsimp.
  destruct (intern_new_ok Known.known_strings st2 eg2 Hok2 Hh2)
    as (names & st3 & eg3 & -> & Hok3 & Hh3 & Ev3 & Hin3 & [c3 Hc3] & _).
  { change (length Known.known_strings) with 44%nat. unfold HT_MAX_SIZE. lia. }
  rsimp. exists (mkKnown empty one names), st3, eg3. do 6 (split; [done|]). simpl.
  destruct Hpre2 as [c2 Hc2]. intros s [->|[Hs'|Hs']%elem_of_app]%elem_of_cons.
  - rewrite Hc3, Hc2, !elem_of_app. left. left. apply Hin. set_solver.
  - rewrite Hc3. apply elem_of_app. left. by apply Hin2.
  - by apply Hin3.
Qed.

(** *** Properties *)

(** C20: Interning any sequence of strings, in the start-up phase as in a request, returns for each of
    them a string with its contents; equal contents give the same address and different ones
    different addresses.  The strings already interned stay; a new string is put into the current
    table or released when another one has its contents, exactly as the list specification
    [spec_all] says.  The only failure is a table of 2^31 strings. *)
Theorem interning_canonical l st eg : tables_ok st -> Forall (may_intern (canonical st)) l ->
  (HT_MAX_SIZE <= Z.of_nat (length (current_strings st) + length l) /\
   intern_all l st eg = Err Fatal) \/
  exists rs st' eg', intern_all l st eg = Ok (rs, st', eg') /\ tables_ok st' /\
    spec_all (canonical st) (events eg) l = (rs, canonical st', events eg') /\
    canonical st `prefix_of` canonical st' /\ map zs_val rs = map zs_val l /\
    forall i j r r', rs !! i = Some r -> rs !! j = Some r' ->
      same_ptr r r' = bool_decide (zs_val r = zs_val r').
Proof.
  intros Hok Hl. destruct (intern_all_ok l st eg Hok Hl)
    as [?|(rs & st' & eg' & E & Hok' & _ & Es & Hp & H2)]; [by left|right].
  exists rs, st', eg'. do 4 (split; [done|]). split.
  - clear -H2. induction H2 as [|s r l rs [E _] _ IH]; [done|]. simpl. by rewrite E, IH.
  - intros i j r r' Hi Hj. apply (same_ptr_canonical st'); [done| |].
    + destruct (Forall2_lookup_r _ _ _ _ _ H2 Hi) as (s & _ & _ & ?). done.
    + destruct (Forall2_lookup_r _ _ _ _ _ H2 Hj) as (s & _ & _ & ?). done.
Qed.

(** The start of the engine, at some address of the permanent table. *)
Definition sample_interned : interned :=
  match zend_init_interned_strings_ht 9%positive true sample_eg with
  | Ok ht => mkInterned ht None NEW_PERMANENT
  | Err _ => mkInterned sample_hash None NEW_PERMANENT
  end.

Lemma sample_interned_ok : tables_ok sample_interned /\ canonical sample_interned = [].
Proof.
  unfold sample_interned. destruct (init_table_ok 9%positive true sample_eg) as (ht & -> & Hok & Hs & _).
  assert (E : canonical (mkInterned ht None NEW_PERMANENT) = [])
    by (unfold canonical, permanent_strings; simpl; by rewrite Hs).
  split; [|done]. split; [done|done|done|rewrite E; constructor].
Qed.

Definition sample_text (s : list char) (serial : N) : zend_string := mk_zend_string s serial 0 false.

Lemma interning_canonical_witness : exists r1 r2 r3 st' eg',
  intern_all [sample_text ["a"%byte] 1; sample_text ["b"%byte] 2; sample_text ["a"%byte] 3]
    sample_interned sample_eg = Ok ([r1; r2; r3], st', eg') /\
  same_ptr r1 r3 = true /\ same_ptr r1 r2 = false.
Proof.
  set (l := [sample_text ["a"%byte] 1; sample_text ["b"%byte] 2; sample_text ["a"%byte] 3]).
  destruct (interning_canonical l sample_interned sample_eg) as [[_ E]|(rs & st' & eg' & E & _ & _ & _ & Ev & Hp)].
  - exact (proj1 sample_interned_ok).
  - rewrite (proj2 sample_interned_ok). repeat constructor; simpl; intros; discriminate.
  - vm_compute in E. discriminate E.
  - destruct rs as [|r1 [|r2 [|r3 [|]]]]; try discriminate Ev.
    exists r1, r2, r3, st', eg'. split; [exact E|].
    rewrite (Hp 0%nat 2%nat r1 r3 eq_refl eq_refl), (Hp 0%nat 1%nat r1 r2 eq_refl eq_refl).
    injection Ev as -> -> ->. split; reflexivity.
Defined.

(** The end of a request frees each of its strings once, in the order in which they were interned,
    then the table, and keeps the permanent strings; the next request starts with exactly those. *)
Theorem request_cycle_correct self st eg : tables_ok st -> new_handler st = NEW_REQUEST ->
  exists ht st1 eg1 st2, CG_interned_strings st = Some ht /\
    zend_interned_strings_deactivate st eg = Ok (st1, eg1) /\
    events eg1 = EvFree (ht_addr ht) :: rev (map (fun k => EvDtor (IS_STRING k)) (request_strings st))
      ++ events eg /\
    zend_interned_strings_activate self st1 eg1 = Ok st2 /\ tables_ok st2 /\
    new_handler st2 = NEW_REQUEST /\ canonical st2 = permanent_strings st /\
    interned_strings_permanent st2 = interned_strings_permanent st.
Proof.
  intros Hok Hh. pose proof (to_mode _ Hok) as Hm. rewrite Hh in Hm. destruct Hm as [ht E].
  destruct (destroy_interned_ok ht eg (to_req _ Hok _ E)) as (eg1 & Ed & He).
  destruct (activate_ok self (set_request None st) eg1 (to_perm _ Hok))
    as (st2 & Ea & Hok2 & Hc & Hh2 & Hp2).
  exists ht, (set_request None st), eg1, st2. split; [done|].
  unfold zend_interned_strings_deactivate, request_table, request_strings. rewrite E. rsimp.
  rewrite Ed. rsimp. split; [done|]. split; [done|]. split; [exact Ea|]. split; [done|].
  rewrite Hh2. done.
Qed.

(** The first request. *)
Definition sample_request : interned :=
  match zend_interned_strings_activate 8%positive sample_interned sample_eg with
  | Ok st => zend_interned_strings_switch_storage st
  | Err _ => sample_interned
  end.

Lemma switch_ok st : tables_ok st -> is_Some (CG_interned_strings st) ->
  tables_ok (zend_interned_strings_switch_storage st) /\
  canonical (zend_interned_strings_switch_storage st) = canonical st.
Proof. intros [] Ha. split; [by split|done]. Qed.

Lemma sample_request_ok : tables_ok sample_request.
Proof.
  unfold sample_request. destruct (activate_ok 8%positive sample_interned sample_eg) as (st & E & Hok & _).
  - apply (to_perm _ (proj1 sample_interned_ok)).
  - rewrite E. apply switch_ok; [done|]. unfold zend_interned_strings_activate in E. inv_bind. by eexists.
Qed.

Lemma request_cycle_correct_witness : exists st1 eg1 st2,
  zend_interned_strings_deactivate sample_request sample_eg = Ok (st1, eg1) /\
  zend_interned_strings_activate 8%positive st1 eg1 = Ok st2 /\ canonical st2 = [].
Proof.
  destruct (request_cycle_correct 8%positive sample_request sample_eg sample_request_ok)
    as (ht & st1 & eg1 & st2 & _ & E1 & _ & E2 & _ & _ & Hc & _).
  - vm_compute. reflexivity.
  - exists st1, eg1, st2. split; [exact E1|]. split; [exact E2|].
    rewrite Hc. vm_compute. reflexivity.
Defined.

(** At start-up the empty string, the 256 strings of one byte and the names the engine knows
    are interned; the tables of known strings hold them in order. *)
Theorem interned_strings_init_correct self eg : exists k st eg',
  zend_interned_strings_init self eg = Ok (k, st, eg') /\ tables_ok st /\
  zs_val (zend_empty_string k) = [] /\
  map zs_val (zend_one_char_string k) = one_char_strings /\
  map zs_val (zend_known_strings k) = Known.known_strings /\
  (forall s, s ∈ zend_empty_string k :: zend_one_char_string k ++ zend_known_strings k ->
    s ∈ permanent_strings st) /\
  exists eg'', zend_interned_strings_dtor st eg' = Ok eg''.
Proof.
  destruct (strings_init_ok self eg) as (k & st & eg' & E & Hok & Hh & H1 & H2 & H3 & H4).
  exists k, st, eg'. do 5 (split; [done|]). split.
  - intros s Hs. specialize (H4 s Hs). unfold canonical in H4. pose proof (to_mode _ Hok) as Hm.
    rewrite Hh in Hm. by rewrite Hm, app_nil_r in H4.
  - destruct (destroy_interned_ok _ eg' (to_perm _ Hok)) as (eg'' & Ed & _). by exists eg''.
Qed.
