(* ===== verification/HashApply.v ===== *)
(** * The ordered hash table: applying a callback to every element
    ([zend_hash_apply] and its variants, [zend_hash_graceful_destroy],
    [zend_hash_graceful_reverse_destroy])

    A callback is a function of its own state [S], of the element's value and
    of what the variant passes besides; it gives the new state, the value that
    it leaves in the element and the [ZEND_HASH_APPLY_*] result. *)
From Stdlib Require Import Strings.Byte.
From S2P Require Export HashDestroy.

Definition ZEND_HASH_APPLY_KEEP : Z := 0.
Definition ZEND_HASH_APPLY_REMOVE : Z := 1.
Definition ZEND_HASH_APPLY_STOP : Z := 2.

(** ** Operations *)

Definition HASH_PROTECT_RECURSION (ht : HashTable) : res HashTable :=
  if f_apply_protection ht then
    if 3 <=? nApplyCount ht then Err Fatal
    else Ok (set_nApplyCount (u8 (nApplyCount ht + 1)) ht)
  else Ok ht.

Definition HASH_UNPROTECT_RECURSION (ht : HashTable) : HashTable :=
  if f_apply_protection ht then set_nApplyCount (u8 (nApplyCount ht - 1)) ht else ht.

Section Apply.
Context {S : Type}.
Implicit Types f : S -> Bucket -> S * zval * Z.

(** The body of the loops: [true] when the callback has stopped the iteration. *)
Definition apply_one f (ht : HashTable) (idx : Z) (p : Bucket) (s : S) (eg : EG)
    : res (S * HashTable * EG * bool) :=
  let '(s, v, result) := f s p in
  let! ht := set_bucket ht idx (set_b_val v p) in
  let! (ht, eg) :=
    if has_flag result ZEND_HASH_APPLY_REMOVE then _zend_hash_del_el ht idx eg else Ok (ht, eg) in
  Ok (s, ht, eg, has_flag result ZEND_HASH_APPLY_STOP).

(** [for (idx = 0; idx < ht->nNumUsed; idx++)] *)
Fixpoint apply_forward (fuel : nat) f (ht : HashTable) (idx : Z) (s : S) (eg : EG) {struct fuel}
    : res (S * HashTable * EG) :=
  match fuel with
  | O => Err OutOfFuel
  | Datatypes.S fuel =>
      if idx <? nNumUsed ht then
        let! p := get_bucket ht idx in
        if is_undef (b_val p) then apply_forward fuel f ht (idx + 1) s eg
        else
          let! (s, ht, eg, stop) := apply_one f ht idx p s eg in
          if stop then Ok (s, ht, eg) else apply_forward fuel f ht (idx + 1) s eg
      else Ok (s, ht, eg)
  end.

(** [idx = ht->nNumUsed; while (idx > 0) { idx--; .. }] *)
Fixpoint apply_backward (fuel : nat) f (ht : HashTable) (idx : Z) (s : S) (eg : EG) {struct fuel}
    : res (S * HashTable * EG) :=
  match fuel with
  | O => Err OutOfFuel
  | Datatypes.S fuel =>
      if 0 <? idx then
        let idx := idx - 1 in
        let! p := get_bucket ht idx in
        if is_undef (b_val p) then apply_backward fuel f ht idx s eg
        else
          let! (s, ht, eg, stop) := apply_one f ht idx p s eg in
          if stop then Ok (s, ht, eg) else apply_backward fuel f ht idx s eg
      else Ok (s, ht, eg)
  end.

Definition zend_hash_apply (ht : HashTable) (apply_func : S -> zval -> S * zval * Z) (s : S) (eg : EG)
    : res (S * HashTable * EG) :=
  let! ht := HASH_PROTECT_RECURSION ht in
  let! (s, ht, eg) :=
    apply_forward (Datatypes.S (used ht)) (fun s p => apply_func s (b_val p)) ht 0 s eg in
  Ok (s, HASH_UNPROTECT_RECURSION ht, eg).

Definition zend_hash_apply_with_argument {A} (ht : HashTable)
    (apply_func : S -> zval -> A -> S * zval * Z) (argument : A) (s : S) (eg : EG)
    : res (S * HashTable * EG) :=
  let! ht := HASH_PROTECT_RECURSION ht in
  let! (s, ht, eg) :=
    apply_forward (Datatypes.S (used ht)) (fun s p => apply_func s (b_val p) argument) ht 0 s eg in
  Ok (s, HASH_UNPROTECT_RECURSION ht, eg).

(** [hash_key] is the pair of the bucket's [h] and [key]. *)
Definition zend_hash_apply_with_arguments {A} (ht : HashTable)
    (apply_func : S -> zval -> list A -> Z * option zend_string -> S * zval * Z) (args : list A)
    (s : S) (eg : EG) : res (S * HashTable * EG) :=
  let! ht := HASH_PROTECT_RECURSION ht in
  let! (s, ht, eg) :=
    apply_forward (Datatypes.S (used ht))
      (fun s p => apply_func s (b_val p) args (b_h p, b_key p)) ht 0 s eg in
  Ok (s, HASH_UNPROTECT_RECURSION ht, eg).

Definition zend_hash_reverse_apply (ht : HashTable) (apply_func : S -> zval -> S * zval * Z) (s : S)
    (eg : EG) : res (S * HashTable * EG) :=
  let! ht := HASH_PROTECT_RECURSION ht in
  let! (s, ht, eg) :=
    apply_backward (Datatypes.S (used ht)) (fun s p => apply_func s (b_val p)) ht (nNumUsed ht) s eg in
  Ok (s, HASH_UNPROTECT_RECURSION ht, eg).
End Apply.

(** The loops of the graceful destructions. *)
Fixpoint graceful_loop (fuel : nat) (ht : HashTable) (idx : Z) (eg : EG) {struct fuel}
    : res (HashTable * EG) :=
  match fuel with
  | O => Err OutOfFuel
  | S fuel =>
      if idx <? nNumUsed ht then
        let! p := get_bucket ht idx in
        if is_undef (b_val p) then graceful_loop fuel ht (idx + 1) eg
        else
          let! (ht, eg) := _zend_hash_del_el ht idx eg in
          graceful_loop fuel ht (idx + 1) eg
      else Ok (ht, eg)
  end.

Fixpoint graceful_reverse_loop (fuel : nat) (ht : HashTable) (idx : Z) (eg : EG) {struct fuel}
    : res (HashTable * EG) :=
  match fuel with
  | O => Err OutOfFuel
  | S fuel =>
      if 0 <? idx then
        let idx := idx - 1 in
        let! p := get_bucket ht idx in
        if is_undef (b_val p) then graceful_reverse_loop fuel ht idx eg
        else
          let! (ht, eg) := _zend_hash_del_el ht idx eg in
          graceful_reverse_loop fuel ht idx eg
      else Ok (ht, eg)
  end.

Definition zend_hash_graceful_destroy (ht : HashTable) (eg : EG) : res EG :=
  let! (ht, eg) := graceful_loop (S (used ht)) ht 0 eg in
  Ok (if f_initialized ht then log (EvFree (ht_addr ht)) eg else eg).

Definition zend_hash_graceful_reverse_destroy (ht : HashTable) (eg : EG) : res EG :=
  let! (ht, eg) := graceful_reverse_loop (S (used ht)) ht (nNumUsed ht) eg in
  Ok (if f_initialized ht then log (EvFree (ht_addr ht)) eg else eg).

(** ** Specification: a fold over the entries in the order of the walk *)

(** Callbacks read the key and the value of a bucket, not its chain link, and
    leave a value. *)
Definition callback_ok {S} (f : S -> Bucket -> S * zval * Z) : Prop :=
  (forall s b, f s b = f s (clear_next b)) /\
  (forall s b, is_live b = true -> is_undef (snd (fst (f s b))) = false).

(** The entries that the walk leaves, and the callback's last state. *)
Fixpoint apply_spec {S} (f : S -> Bucket -> S * zval * Z) (s : S) (l : list Bucket) : S * alist :=
  match l with
  | [] => (s, [])
  | b :: l =>
      let '(s, v, result) := f s b in
      let kept := if has_flag result ZEND_HASH_APPLY_REMOVE then [] else [(bkey b, v)] in
      if has_flag result ZEND_HASH_APPLY_STOP then (s, kept ++ map entry l)
      else let '(s, l') := apply_spec f s l in (s, kept ++ l')
  end.

(** ** The live buckets from an index on *)
Definition contents_from (d : list Bucket) (n i : nat) : list Bucket :=
  List.filter is_live (map clear_next (drop i (take n d))).

Lemma contents_from_S d n i : (i <= n)%nat ->
  contents_from d (S n) i =
  contents_from d n i ++ match d !! n with
                         | Some b => if is_live b then [clear_next b] else []
                         | None => []
                         end.
Proof.
  intros Hi. unfold contents_from. destruct (d !! n) as [b|] eqn:Hb.
  - rewrite (take_S_r _ _ _ Hb), drop_app_le, map_app, List.filter_app; [done|].
    rewrite length_take. apply lookup_lt_Some in Hb. lia.
  - apply lookup_ge_None in Hb. rewrite !take_ge, app_nil_r by lia. done.
Qed.

Lemma contents_from_end d n i : (n <= i)%nat -> contents_from d n i = [].
Proof. intros H. unfold contents_from. rewrite drop_ge; [done|]. rewrite length_take. lia. Qed.

Lemma contents_from_0 d n : contents_from d n 0 = contents d n.
Proof. done. Qed.

Lemma contents_from_cons d n i b : d !! i = Some b -> (i < n)%nat ->
  contents_from d n i = (if is_live b then [clear_next b] else []) ++ contents_from d n (S i).
Proof.
  intros Hb Hi. unfold contents_from. rewrite (drop_S _ b i) by (by rewrite lookup_take_lt).
  simpl. by destruct (is_live b) eqn:E; unfold is_live in *; simpl; rewrite E.
Qed.

Lemma contents_from_ext d d' n i :
  (forall k, (i <= k < n)%nat -> clear_next <$> d' !! k = clear_next <$> d !! k) ->
  contents_from d' n i = contents_from d n i.
Proof.
  induction n as [|n IH]; intros H; [done|].
  destruct (decide (i <= n)%nat) as [Hi|]; [|by rewrite !contents_from_end by lia].
  rewrite !contents_from_S by done. rewrite IH by (intros; apply H; lia). f_equal.
  specialize (H n ltac:(lia)). destruct (d' !! n) as [c|], (d !! n) as [c'|]; try done.
  destruct c, c'. simpl in H. by injection H as -> -> ->.
Qed.

Lemma contents_from_trim d m n i : (m <= n)%nat ->
  (forall k b, (m <= k < n)%nat -> d !! k = Some b -> is_live b = false) ->
  contents_from d n i = contents_from d m i.
Proof.
  intros Hm. induction Hm as [|n Hm IH]; intros H; [done|].
  destruct (decide (i <= n)%nat) as [Hi|]; [|by rewrite !contents_from_end by lia].
  rewrite contents_from_S, IH by (try done; intros k b Hk; apply H; lia).
  destruct (d !! n) as [b|] eqn:Hb; [|by rewrite app_nil_r].
  rewrite (H n b) by (lia || done). by rewrite app_nil_r.
Qed.

(** ** One step *)

(** The entries after the step at a live bucket, and the frame: other buckets
    only change links, and buckets that stop being used are dead. *)
Record step_result (ht : HashTable) (i : nat) (b : Bucket) (v : zval) (remove : bool) (ht' : HashTable)
    : Prop := mk_step_result {
  sr_wf : ht_wf ht';
  sr_elems : elems ht' = if remove then al_delete (bkey b) (elems ht) else al_update (bkey b) v (elems ht);
  sr_same : same_table ht ht';
  sr_init : f_initialized ht' = f_initialized ht;
  sr_len : length (arData ht') = length (arData ht);
  sr_other : forall k, k <> i -> clear_next <$> arData ht' !! k = clear_next <$> arData ht !! k;
  sr_used : (used ht' <= used ht)%nat;
  sr_trim : forall k c, (used ht' <= k < used ht)%nat -> arData ht' !! k = Some c -> is_live c = false
}.

Lemma not_live d i c : ~ live d i c -> d !! i = Some c -> is_live c = false.
Proof.
  intros H Hc. unfold is_live. destruct (is_undef (b_val c)) eqn:E; [done|]. by destruct H.
Qed.

Lemma del_step ht eg i b ht' eg' : ht_wf ht -> (i < used ht)%nat -> live (arData ht) i b ->
  del_result ht eg b ht' eg' -> step_result ht i b (b_val b) true ht'.
Proof.
  intros Hwf Hi Hb [Dw De Ds _ _ _ [_ [_ Di]] (j & hs & d & m & Hj & He)].
  assert (j = i) as ->.
  { destruct (er_used _ _ _ _ _ _ He) as [Eu Hm].
    destruct (decide (j = i)) as [|Hne]; [done|]. exfalso.
    destruct (erased_live_2 _ _ _ _ _ _ i b He Hb Hi ltac:(done)) as (Him & b' & Hb' & Ek).
    assert (Hin : bkey b ∈ (elems ht').*1).
    { apply elems_of_key. exists i, b'. split_and!; [unfold used in *; lia|done|done]. }
    rewrite De in Hin. apply (al_find_None (bkey b) (al_delete (bkey b) (elems ht))); [|done].
    apply al_find_None. intros Hin2. revert Hin2.
    pose proof (wf_keys _ (wf_data _ Hwf)) as Hnd.
    clear -Hnd. induction (elems ht) as [|[k v] l IH]; simpl in *; [set_solver|].
    apply NoDup_cons in Hnd as [Hk Hnd]. case_decide as E; [by subst|]. simpl.
    rewrite elem_of_cons. intros [?|?]; [by subst|by apply IH]. }
  destruct (er_used _ _ _ _ _ _ He) as [Eu Hm]. pose proof (er_unlinked _ _ _ _ _ _ He) as Hun.
  assert (Hus : used ht' = m) by (unfold used; lia).
  split; try done.
  - destruct (er_data _ _ _ _ _ _ He) as (c & Hc & ->). rewrite length_insert. apply Hun.
  - intros k Hk. by eapply erased_lookup.
  - lia.
  - rewrite Hus. intros k c Hk Hc. destruct (decide (k = i)) as [->|Hki].
    { eapply not_live; [by eapply erased_at|done]. }
    destruct (er_data _ _ _ _ _ _ He) as (c' & Hc' & Ed). rewrite Ed in Hc.
    rewrite list_lookup_insert_ne in Hc by done. unfold is_live.
    by rewrite (er_trim _ _ _ _ _ _ He k c Hk Hki Hc).
Qed.

Lemma replace_step ht i b v : ht_wf ht -> (i < used ht)%nat -> live (arData ht) i b ->
  is_undef v = false ->
  step_result ht i b v false (set_arData (<[i := set_b_val v b]> (arData ht)) ht).
Proof.
  intros Hwf Hi Hb Hv. destruct (replace_wf ht i b v Hwf Hi Hb Hv) as (Hw & He & _).
  split; try done.
  - simpl. by rewrite length_insert.
  - intros k Hk. simpl. by rewrite list_lookup_insert_ne.
  - intros k c Hk. unfold used in *. simpl in Hk. lia.
Qed.

Lemma al_delete_update k v l : al_delete k (al_update k v l) = al_delete k l.
Proof.
  induction l as [|[k' v'] l IH]; simpl.
  - by rewrite decide_True.
  - case_decide; simpl; [by subst; rewrite decide_True|]. rewrite decide_False by done. by rewrite IH.
Qed.

Lemma step_trans ht ht1 ht2 i b v v' : used ht1 = used ht -> step_result ht i b v false ht1 ->
  step_result ht1 i (set_b_val v b) v' true ht2 -> step_result ht i b v' true ht2.
Proof.
  intros Hu [W1 E1 S1 I1 L1 O1 U1 T1] [W2 E2 S2 I2 L2 O2 U2 T2].
  assert (Hk : bkey (set_b_val v b) = bkey b) by done.
  split; try done.
  - by rewrite E2, E1, Hk, al_delete_update.
  - by etransitivity.
  - congruence.
  - lia.
  - intros k Hki. by rewrite O2, O1.
  - lia.
  - intros k c Hk'. apply T2. lia.
Qed.

Lemma apply_one_ok {S} (f : S -> Bucket -> S * zval * Z) ht i b s s' v r eg :
  ht_wf ht -> (i < used ht)%nat -> live (arData ht) i b ->
  f s b = (s', v, r) -> is_undef v = false ->
  exists ht' eg', apply_one f ht (Z.of_nat i) b s eg =
    Ok (s', ht', eg', has_flag r ZEND_HASH_APPLY_STOP) /\
  step_result ht i b v (has_flag r ZEND_HASH_APPLY_REMOVE) ht'.
Proof.
  intros Hwf Hi Hb Hf Hv. unfold apply_one. rewrite Hf. unfold set_bucket at 1.
  rewrite aset_ok by (by eapply lookup_lt_Some, Hb). rsimp.
  pose proof (replace_step ht i b v Hwf Hi Hb Hv) as H1.
  destruct (has_flag r ZEND_HASH_APPLY_REMOVE); rsimp; [|by do 2 eexists].
  assert (Hb1 : live (arData (set_arData (<[i := set_b_val v b]> (arData ht)) ht)) i (set_b_val v b)).
  { split; [|done]. simpl. apply list_lookup_insert_eq. by eapply lookup_lt_Some, Hb. }
  destruct (zend_hash_del_el_ok _ i _ eg (sr_wf _ _ _ _ _ _ H1) Hi Hb1) as (ht' & eg' & -> & Hd).
  rsimp. do 2 eexists. split; [done|].
  eapply (step_trans ht _ ht' i b v); [|done|]; [done|].
  exact (del_step _ _ _ _ _ _ (sr_wf _ _ _ _ _ _ H1) Hi Hb1 Hd).
Qed.

Lemma al_update_mid k v v0 l1 l2 : k ∉ l1.*1 ->
  al_update k v (l1 ++ (k, v0) :: l2) = l1 ++ (k, v) :: l2.
Proof.
  intros H. rewrite al_update_app by done. simpl. by rewrite decide_True.
Qed.

Lemma al_delete_mid k v0 l1 l2 : k ∉ l1.*1 ->
  al_delete k (l1 ++ (k, v0) :: l2) = l1 ++ l2.
Proof.
  intros H. rewrite al_delete_app by done. simpl. by rewrite decide_True.
Qed.

(** The step in the middle of the entries. *)
Lemma step_elems ht i b v remove ht' l1 l2 : ht_wf ht -> step_result ht i b v remove ht' ->
  elems ht = l1 ++ entry b :: l2 ->
  elems ht' = l1 ++ (if remove then [] else [(bkey b, v)]) ++ l2.
Proof.
  intros Hwf Hs He. pose proof (wf_keys _ (wf_data _ Hwf)) as Hnd. rewrite He in Hnd.
  rewrite fmap_app in Hnd. apply NoDup_app in Hnd as (_ & Hnd & _).
  assert (Hn : bkey b ∉ l1.*1).
  { intros Hin. apply (Hnd _ Hin). simpl. set_solver. }
  rewrite (sr_elems _ _ _ _ _ _ Hs), He. unfold entry.
  destruct remove; [by apply al_delete_mid|by apply al_update_mid].
Qed.

(** ** The loops *)
Section Loops.
Context {S : Type} (f : S -> Bucket -> S * zval * Z) (Hf : callback_ok f).

Lemma bucket_at ht i : ht_wf ht -> (i < used ht)%nat -> exists b, arData ht !! i = Some b.
Proof.
  intros Hwf Hi. destruct (data_wf_len _ (wf_data _ Hwf)) as [Hu _].
  apply lookup_lt_is_Some_2. lia.
Qed.

Lemma live_of d i b : d !! i = Some b -> is_live b = true -> live d i b.
Proof. intros Hb Hl. split; [done|]. by apply negb_true_iff. Qed.

Lemma callback_live b s s' v r : is_live b = true -> f s b = (s', v, r) -> is_undef v = false.
Proof. intros Hl E. pose proof (proj2 Hf s b Hl) as H. by rewrite E in H. Qed.

(** Behind the bucket of a step nothing changes. *)
Lemma step_behind ht i b v remove ht' : step_result ht i b v remove ht' ->
  contents_from (arData ht') (used ht') (Datatypes.S i) = contents_from (arData ht) (used ht) (Datatypes.S i).
Proof.
  intros Hs. rewrite <- (contents_from_trim (arData ht') (used ht') (used ht)).
  - apply contents_from_ext. intros k Hk. apply (sr_other _ _ _ _ _ _ Hs). lia.
  - apply Hs.
  - apply Hs.
Qed.

Lemma apply_forward_ok fuel ht (i : nat) s eg l : ht_wf ht ->
  elems ht = l ++ map entry (contents_from (arData ht) (used ht) i) ->
  (used ht - i < fuel)%nat ->
  exists ht' eg', let '(s', l') := apply_spec f s (contents_from (arData ht) (used ht) i) in
    apply_forward fuel f ht (Z.of_nat i) s eg = Ok (s', ht', eg') /\
    ht_wf ht' /\ elems ht' = l ++ l' /\ same_table ht ht' /\ f_initialized ht' = f_initialized ht.
Proof.
  revert ht i s eg l. induction fuel as [|fuel IH]; intros ht i s eg l Hwf He Hfu; [lia|].
  cbn [apply_forward]. pose proof (wf_used _ (wf_data _ Hwf)) as Hn.
  destruct (Z.ltb_spec (Z.of_nat i) (nNumUsed ht)) as [Hi|Hi].
  2: { rewrite contents_from_end in * by (unfold used; lia). simpl in *. exists ht, eg. by split_and!. }
  assert (Hiu : (i < used ht)%nat) by (unfold used; lia).
  destruct (bucket_at ht i Hwf Hiu) as [b Hb]. unfold get_bucket at 1. rewrite (aget_ok _ _ _ Hb). rsimp.
  replace (Z.of_nat i + 1) with (Z.of_nat (Datatypes.S i)) by lia.
  destruct (is_live b) eqn:El; rewrite (contents_from_cons _ _ i b Hb Hiu), El in *; unfold is_live in El.
  2: { apply negb_false_iff in El. rewrite El. apply IH; [done|done|lia]. }
  apply negb_true_iff in El. rewrite El. cbn [app apply_spec].
  rewrite <- (proj1 Hf). destruct (f s b) as [[s1 v] r] eqn:Ef.
  assert (Hl : live (arData ht) i b) by done.
  assert (Hv : is_undef v = false) by (eapply callback_live; [|done]; unfold is_live; by rewrite El).
  destruct (apply_one_ok f ht i b s s1 v r eg Hwf Hiu Hl Ef Hv) as (ht1 & eg1 & E1 & Hs).
  rewrite E1. rsimp. clear E1.
  pose proof (step_elems _ _ _ _ _ _ _ _ Hwf Hs He) as He1. rewrite <- (step_behind _ _ _ _ _ _ Hs) in He1 |- *.
  destruct (has_flag r ZEND_HASH_APPLY_STOP).
  - exists ht1, eg1. split_and!; [done|apply Hs|done|apply Hs|apply Hs].
  - rewrite app_assoc in He1.
    destruct (IH ht1 (Datatypes.S i) s1 eg1 _ (sr_wf _ _ _ _ _ _ Hs) He1) as (ht2 & eg2 & H2).
    { pose proof (sr_used _ _ _ _ _ _ Hs). lia. }
    destruct (apply_spec f s1 _) as [s2 l2]. destruct H2 as (-> & Hw2 & He2 & Hst & Hin).
    exists ht2, eg2. split_and!; [done|done|by rewrite He2, app_assoc|by etransitivity; [apply Hs|]|].
    by rewrite Hin; apply Hs.
Qed.

(** Before the bucket of a step nothing changes. *)
Lemma step_before ht i b v remove ht' : step_result ht i b v remove ht' ->
  contents (arData ht') i = contents (arData ht) i.
Proof.
  intros Hs. rewrite <- !contents_from_0. apply contents_from_ext.
  intros k Hk. apply (sr_other _ _ _ _ _ _ Hs). lia.
Qed.

Lemma contents_entries d i b l : d !! i = Some b ->
  map entry (contents d (Datatypes.S i)) ++ l =
  map entry (contents d i) ++ (if is_live b then [entry b] else []) ++ l.
Proof.
  intros Hb. rewrite (contents_S _ _ _ Hb), map_app, <- app_assoc. by destruct (is_live b).
Qed.

Lemma apply_backward_ok fuel ht (i : nat) s eg l : ht_wf ht -> (i <= length (arData ht))%nat ->
  elems ht = map entry (contents (arData ht) i) ++ l ->
  (forall k c, (used ht <= k < i)%nat -> arData ht !! k = Some c -> is_live c = false) ->
  (i < fuel)%nat ->
  exists ht' eg', let '(s', l') := apply_spec f s (rev (contents (arData ht) i)) in
    apply_backward fuel f ht (Z.of_nat i) s eg = Ok (s', ht', eg') /\
    ht_wf ht' /\ elems ht' = rev l' ++ l /\ same_table ht ht' /\ f_initialized ht' = f_initialized ht.
Proof.
  revert ht i s eg l. induction fuel as [|fuel IH]; intros ht i s eg l Hwf Hil He Hd Hfu; [lia|].
  cbn [apply_backward]. destruct (Z.ltb_spec 0 (Z.of_nat i)) as [Hi|Hi].
  2: { replace i with 0%nat in * by lia. simpl in *. exists ht, eg. by split_and!. }
  destruct i as [|i]; [lia|]. replace (Z.of_nat (Datatypes.S i) - 1) with (Z.of_nat i) by lia.
  destruct (lookup_lt_is_Some_2 (arData ht) i) as [b Hb]; [lia|].
  unfold get_bucket at 1. rewrite (aget_ok _ _ _ Hb). rsimp.
  rewrite (contents_entries _ _ _ _ Hb) in He. rewrite (contents_S _ _ _ Hb).
  destruct (is_live b) eqn:El.
  2: { unfold is_live in El. apply negb_false_iff in El. rewrite El, app_nil_r.
       apply IH; [done|lia|done|intros k c Hk; apply Hd; lia|lia]. }
  rewrite rev_app_distr. cbn [rev app apply_spec].
  assert (Hiu : (i < used ht)%nat).
  { destruct (decide (i < used ht)%nat); [done|]. by rewrite (Hd i b) in El by (lia || done). }
  pose proof (live_of _ _ _ Hb El) as Hl. rewrite (proj2 Hl), <- (proj1 Hf).
  destruct (f s b) as [[s1 v] r] eqn:Ef.
  destruct (apply_one_ok f ht i b s s1 v r eg Hwf Hiu Hl Ef (callback_live _ _ _ _ _ El Ef))
    as (ht1 & eg1 & E1 & Hs).
  rewrite E1. rsimp. clear E1.
  pose proof (step_elems _ _ _ _ _ _ _ _ Hwf Hs He) as He1.
  rewrite <- (step_before _ _ _ _ _ _ Hs) in He1 |- *.
  destruct (has_flag r ZEND_HASH_APPLY_STOP).
  - exists ht1, eg1. split_and!; [done|apply Hs| |apply Hs|apply Hs].
    rewrite He1, rev_app_distr, <- map_rev, rev_involutive, <- app_assoc. f_equal.
    by destruct (has_flag r _).
  - assert (Hd1 : forall k c, (used ht1 <= k < i)%nat -> arData ht1 !! k = Some c -> is_live c = false).
    { intros k c Hk. apply (sr_trim _ _ _ _ _ _ Hs). lia. }
    assert (Hl1 : (i <= length (arData ht1))%nat) by (rewrite (sr_len _ _ _ _ _ _ Hs); lia).
    destruct (IH ht1 i s1 eg1 _ (sr_wf _ _ _ _ _ _ Hs) Hl1 He1 Hd1 ltac:(lia)) as (ht2 & eg2 & H2).
    destruct (apply_spec f s1 _) as [s2 l2]. destruct H2 as (-> & Hw2 & He2 & Hst & Hin).
    exists ht2, eg2. split_and!; [done|done| |by etransitivity; [apply Hs|]|by rewrite Hin; apply Hs].
    rewrite He2, rev_app_distr, <- app_assoc. f_equal. by destruct (has_flag r _).
Qed.
End Loops.

(** ** The functions *)

(** Under protection, a table in its third nested application is a fatal error. *)
Definition too_deep (ht : HashTable) : bool := f_apply_protection ht && (3 <=? nApplyCount ht).

(** The result of an application in the given order, or the fatal error. *)
Definition apply_correct_for {S} (ht : HashTable) (f : S -> Bucket -> S * zval * Z) (s : S)
    (order : forall A, list A -> list A) (m : res (S * HashTable * EG)) : Prop :=
  if too_deep ht then m = Err Fatal
  else exists ht' eg', let '(s', l') := apply_spec f s (order _ (contents (arData ht) (used ht))) in
    m = Ok (s', ht', eg') /\ ht_wf ht' /\ elems ht' = order _ l' /\ same_table ht ht'.

Lemma protect_wf n ht : ht_wf ht -> ht_wf (set_nApplyCount n ht).
Proof. apply same_repr_wf. unfold same_repr. auto 20. Qed.

Lemma HASH_PROTECT_ok ht : 0 <= nApplyCount ht ->
  HASH_PROTECT_RECURSION ht = (if too_deep ht then Err Fatal
    else Ok (if f_apply_protection ht then set_nApplyCount (nApplyCount ht + 1) ht else ht)).
Proof.
  intros H. unfold HASH_PROTECT_RECURSION, too_deep. destruct (f_apply_protection ht); [|done]. simpl.
  destruct (Z.leb_spec 3 (nApplyCount ht)); [done|]. unfold u8. by rewrite Z.mod_small by lia.
Qed.

Lemma unprotect_ok ht ht1 : 0 <= nApplyCount ht -> too_deep ht = false ->
  same_table (if f_apply_protection ht then set_nApplyCount (nApplyCount ht + 1) ht else ht) ht1 ->
  ht_wf ht1 ->
  ht_wf (HASH_UNPROTECT_RECURSION ht1) /\ elems (HASH_UNPROTECT_RECURSION ht1) = elems ht1 /\
  same_table ht (HASH_UNPROTECT_RECURSION ht1).
Proof.
  intros Hn Hd Hs Hwf. unfold HASH_UNPROTECT_RECURSION, too_deep in *.
  assert (Ep : f_apply_protection ht1 = f_apply_protection ht)
    by (rewrite (st_protection _ _ Hs); by destruct (f_apply_protection ht) eqn:E).
  rewrite Ep. destruct (f_apply_protection ht) eqn:Ef; [|done]. simpl in Hd. zbool.
  split_and!; [by apply protect_wf|done|]. destruct Hs. simpl in *. split; simpl; try done.
  unfold u8. rewrite Z.mod_small by lia. lia.
Qed.

Lemma too_deep_next ht : elems (if f_apply_protection ht then set_nApplyCount (nApplyCount ht + 1) ht else ht)
  = elems ht.
Proof. by destruct (f_apply_protection ht). Qed.

Section Functions.
Context {S : Type} (f : S -> Bucket -> S * zval * Z) (Hf : callback_ok f).
Context (ht : HashTable) (Hwf : ht_wf ht) (Hn : 0 <= nApplyCount ht).

(** The three forward applications have this body. *)
Lemma forward_correct s eg :
  apply_correct_for ht f s (fun _ l => l)
    (let! ht := HASH_PROTECT_RECURSION ht in
     let! (s, ht, eg) := apply_forward (Datatypes.S (used ht)) f ht 0 s eg in
     Ok (s, HASH_UNPROTECT_RECURSION ht, eg)).
Proof.
  unfold apply_correct_for. rewrite HASH_PROTECT_ok by done. destruct (too_deep ht) eqn:Ed; [done|]. rsimp.
  set (ht0 := if f_apply_protection ht then _ else ht).
  assert (H0 : ht_wf ht0 /\ arData ht0 = arData ht /\ used ht0 = used ht).
  { unfold ht0. destruct (f_apply_protection ht); [|done]. by split; [apply protect_wf|]. }
  destruct H0 as (W0 & Ea & Eu).
  destruct (apply_forward_ok f Hf (Datatypes.S (used ht0)) ht0 0 s eg [] W0) as (ht1 & eg1 & H1).
  { rewrite contents_from_0. unfold elems. by rewrite contents_elems. }
  { lia. }
  rewrite contents_from_0, Ea, Eu in H1. rewrite Eu.
  destruct (apply_spec f s (contents (arData ht) (used ht))) as [s1 l1].
  destruct H1 as (E1 & W1 & El & Hs & _). change 0 with (Z.of_nat 0). rewrite E1. rsimp.
  destruct (unprotect_ok ht ht1 Hn Ed Hs W1) as (Wu & Eu1 & Hsu).
  do 2 eexists. split_and!; [done|done|by rewrite Eu1|done].
Qed.

Lemma backward_correct s eg :
  apply_correct_for ht f s (@rev)
    (let! ht := HASH_PROTECT_RECURSION ht in
     let! (s, ht, eg) := apply_backward (Datatypes.S (used ht)) f ht (nNumUsed ht) s eg in
     Ok (s, HASH_UNPROTECT_RECURSION ht, eg)).
Proof.
  unfold apply_correct_for. rewrite HASH_PROTECT_ok by done. destruct (too_deep ht) eqn:Ed; [done|]. rsimp.
  set (ht0 := if f_apply_protection ht then _ else ht).
  assert (H0 : ht_wf ht0 /\ arData ht0 = arData ht /\ nNumUsed ht0 = nNumUsed ht).
  { unfold ht0. destruct (f_apply_protection ht); [|done]. by split; [apply protect_wf|]. }
  destruct H0 as (W0 & Ea & Eu). pose proof (wf_used _ (wf_data _ Hwf)) as Hu.
  assert (Eus : used ht0 = used ht) by (unfold used; by rewrite Eu).
  destruct (apply_backward_ok f Hf (Datatypes.S (used ht0)) ht0 (used ht0) s eg [] W0) as (ht1 & eg1 & H1).
  { apply (data_wf_len _ (wf_data _ W0)). }
  { unfold elems. rewrite app_nil_r. by rewrite contents_elems. }
  { intros; lia. }
  { lia. }
  rewrite Ea, Eus in H1. rewrite Eus.
  replace (nNumUsed ht0) with (Z.of_nat (used ht)) by (unfold used; lia).
  destruct (apply_spec f s (rev (contents (arData ht) (used ht)))) as [s1 l1].
  destruct H1 as (E1 & W1 & El & Hs & _). rewrite E1. rsimp.
  destruct (unprotect_ok ht ht1 Hn Ed Hs W1) as (Wu & Eu1 & Hsu).
  do 2 eexists. split_and!; [done|done|by rewrite Eu1, El, app_nil_r|done].
Qed.
End Functions.

(** ** Graceful destruction *)

(** The events of deleting the buckets [l] one after the other, most recent first. *)
Definition del_events (ht : HashTable) (l : list Bucket) : list event :=
  concat (map (fun b => dtor_events ht (b_val b) ++ release_events (b_key b)) (rev l)).

Lemma del_events_cons ht b l :
  del_events ht (b :: l) = del_events ht l ++ dtor_events ht (b_val b) ++ release_events (b_key b).
Proof. unfold del_events. cbn [rev]. rewrite map_app, concat_app. simpl. by rewrite app_nil_r. Qed.

Lemma del_events_same ht ht' l : pDestructor ht' = pDestructor ht -> del_events ht' l = del_events ht l.
Proof.
  intros E. unfold del_events. f_equal. apply map_ext. intros b. unfold dtor_events. by rewrite E.
Qed.

(** A deletion followed by the deletions of [l]. *)
Lemma del_events_step ht eg eg1 eg2 b l c ht1 ht2 : del_result ht eg b ht1 eg1 ->
  eg_step (del_events ht1 l) c eg1 eg2 -> cells eg1 = c -> same_table ht1 ht2 ->
  eg_step (del_events ht (clear_next b :: l)) (cells eg) eg eg2 /\ same_table ht ht2.
Proof.
  intros Hd H2 Ec Hs. pose proof (dr_same _ _ _ _ _ Hd) as Hs1.
  split; [|by etransitivity]. rewrite del_events_cons, <- (del_events_same ht ht1 l) by apply Hs1.
  pose proof (dr_step _ _ _ _ _ Hd) as H1. eapply eg_step_trans; [exact H1|].
  rewrite <- (es_cells _ _ _ _ H1), Ec. done.
Qed.

Lemma graceful_loop_ok fuel ht (i : nat) eg : ht_wf ht -> (used ht - i < fuel)%nat ->
  exists ht' eg', graceful_loop fuel ht (Z.of_nat i) eg = Ok (ht', eg') /\
    eg_step (del_events ht (contents_from (arData ht) (used ht) i)) (cells eg) eg eg' /\
    same_table ht ht' /\ f_initialized ht' = f_initialized ht.
Proof.
  revert ht i eg. induction fuel as [|fuel IH]; intros ht i eg Hwf Hfu; [lia|]. cbn [graceful_loop].
  pose proof (wf_used _ (wf_data _ Hwf)) as Hn.
  destruct (Z.ltb_spec (Z.of_nat i) (nNumUsed ht)) as [Hi|Hi].
  2: { rewrite contents_from_end by (unfold used; lia). do 2 eexists. by split_and!. }
  assert (Hiu : (i < used ht)%nat) by (unfold used; lia).
  destruct (bucket_at ht i Hwf Hiu) as [b Hb]. unfold get_bucket at 1. rewrite (aget_ok _ _ _ Hb). rsimp.
  replace (Z.of_nat i + 1) with (Z.of_nat (S i)) by lia. rewrite (contents_from_cons _ _ i b Hb Hiu).
  destruct (is_live b) eqn:El.
  2: { unfold is_live in El. apply negb_false_iff in El. rewrite El. apply IH; [done|lia]. }
  pose proof (live_of _ _ _ Hb El) as Hl. rewrite (proj2 Hl).
  destruct (zend_hash_del_el_ok ht i b eg Hwf Hiu Hl) as (ht1 & eg1 & -> & Hd). rsimp.
  pose proof (del_step _ _ _ _ _ _ Hwf Hiu Hl Hd) as Hs. rewrite <- (step_behind _ _ _ _ _ _ Hs).
  destruct (IH ht1 (S i) eg1 (dr_wf _ _ _ _ _ Hd)) as (ht2 & eg2 & -> & He & Hs2 & Hi2).
  { pose proof (sr_used _ _ _ _ _ _ Hs). lia. }
  destruct (del_events_step _ _ _ _ _ _ _ _ _ Hd He eq_refl Hs2) as [He' Hs'].
  do 2 eexists. split_and!; [done|done|done|]. rewrite Hi2. apply Hs.
Qed.

Lemma graceful_reverse_loop_ok fuel ht (i : nat) eg : ht_wf ht -> (i <= length (arData ht))%nat ->
  (forall k c, (used ht <= k < i)%nat -> arData ht !! k = Some c -> is_live c = false) ->
  (i < fuel)%nat ->
  exists ht' eg', graceful_reverse_loop fuel ht (Z.of_nat i) eg = Ok (ht', eg') /\
    eg_step (del_events ht (rev (contents (arData ht) i))) (cells eg) eg eg' /\
    same_table ht ht' /\ f_initialized ht' = f_initialized ht.
Proof.
  revert ht i eg. induction fuel as [|fuel IH]; intros ht i eg Hwf Hil Hdd Hfu; [lia|].
  cbn [graceful_reverse_loop]. destruct (Z.ltb_spec 0 (Z.of_nat i)) as [Hi|Hi].
  2: { replace i with 0%nat by lia. do 2 eexists. by split_and!. }
  destruct i as [|i]; [lia|]. replace (Z.of_nat (S i) - 1) with (Z.of_nat i) by lia.
  destruct (lookup_lt_is_Some_2 (arData ht) i) as [b Hb]; [lia|].
  unfold get_bucket at 1. rewrite (aget_ok _ _ _ Hb). rsimp. rewrite (contents_S _ _ _ Hb).
  destruct (is_live b) eqn:El.
  2: { unfold is_live in El. apply negb_false_iff in El. rewrite El, app_nil_r.
       apply IH; [done|lia|intros k c Hk; apply Hdd; lia|lia]. }
  rewrite rev_app_distr. cbn [rev app].
  assert (Hiu : (i < used ht)%nat).
  { destruct (decide (i < used ht)%nat); [done|]. by rewrite (Hdd i b) in El by (lia || done). }
  pose proof (live_of _ _ _ Hb El) as Hl. rewrite (proj2 Hl).
  destruct (zend_hash_del_el_ok ht i b eg Hwf Hiu Hl) as (ht1 & eg1 & -> & Hd). rsimp.
  pose proof (del_step _ _ _ _ _ _ Hwf Hiu Hl Hd) as Hs. rewrite <- (step_before _ _ _ _ _ _ Hs).
  destruct (IH ht1 i eg1 (dr_wf _ _ _ _ _ Hd)) as (ht2 & eg2 & -> & He & Hs2 & Hi2);
    [rewrite (sr_len _ _ _ _ _ _ Hs); lia|intros k c Hk; apply (sr_trim _ _ _ _ _ _ Hs); lia|lia|].
  destruct (del_events_step _ _ _ _ _ _ _ _ _ Hd He eq_refl Hs2) as [He' Hs'].
  do 2 eexists. split_and!; [done|done|done|]. rewrite Hi2. apply Hs.
Qed.

(** A callback that never leaves an undefined value in a live element. *)
Definition defines {S} (g : S -> zval -> S * zval * Z) : Prop :=
  forall s v, is_undef v = false -> is_undef (snd (fst (g s v))) = false.

Lemma callback_ok_value {S} (g : S -> zval -> S * zval * Z) : defines g ->
  callback_ok (fun s p => g s (b_val p)).
Proof. intros H. split; [done|]. intros s b Hb. apply H. by apply negb_true_iff. Qed.

(** *** Properties *)

(** C31: Applying a callback visits the entries in order (in reverse order for
    [zend_hash_reverse_apply]), each once, until the callback asks to stop; it stores the
    value the callback leaves, deletes exactly the entries for which the callback answers
    [ZEND_HASH_APPLY_REMOVE] while the walk goes on, keeps the invariant, and restores the
    protection count.  A protected table that is already in three applications is the
    fatal error of [HASH_PROTECT_RECURSION]. *)
Theorem apply_correct {S A : Type} (ht : HashTable) (s : S) (eg : EG) (arg : A) (args : list A)
    (g : S -> zval -> S * zval * Z) (g1 : S -> zval -> A -> S * zval * Z)
    (g2 : S -> zval -> list A -> Z * option zend_string -> S * zval * Z) :
  ht_wf ht -> 0 <= nApplyCount ht ->
  defines g -> defines (fun s v => g1 s v arg) -> (forall k, defines (fun s v => g2 s v args k)) ->
  apply_correct_for ht (fun s p => g s (b_val p)) s (fun _ l => l) (zend_hash_apply ht g s eg) /\
  apply_correct_for ht (fun s p => g s (b_val p)) s (@rev) (zend_hash_reverse_apply ht g s eg) /\
  apply_correct_for ht (fun s p => g1 s (b_val p) arg) s (fun _ l => l)
    (zend_hash_apply_with_argument ht g1 arg s eg) /\
  apply_correct_for ht (fun s p => g2 s (b_val p) args (b_h p, b_key p)) s (fun _ l => l)
    (zend_hash_apply_with_arguments ht g2 args s eg).
Proof.
  intros Hwf Hn H H1 H2. split_and!.
  - apply forward_correct; [by apply callback_ok_value|done|done].
  - apply backward_correct; [by apply callback_ok_value|done|done].
  - apply forward_correct; [by apply (callback_ok_value (fun s v => g1 s v arg))|done|done].
  - apply forward_correct; [|done|done]. split; [done|]. intros s' b Hb.
    apply (H2 (b_h b, b_key b) s' (b_val b)). by apply negb_true_iff.
Qed.

(** Add up and drop the integers, replace strings by null, stop at [true]. *)
Definition sum_callback (s : Z) (v : zval) : Z * zval * Z :=
  match v with
  | IS_LONG n => (s + n, v, ZEND_HASH_APPLY_REMOVE)
  | IS_STRING _ => (s, IS_NULL, ZEND_HASH_APPLY_KEEP)
  | IS_TRUE => (s, IS_FALSE, ZEND_HASH_APPLY_STOP)
  | v => (s, v, ZEND_HASH_APPLY_KEEP)
  end.

Lemma sum_callback_defines : defines sum_callback.
Proof. intros s v H. by destruct v. Qed.

Lemma apply_correct_witness : exists ht' eg' ht'' eg'',
  zend_hash_apply sample_packed sum_callback 5 sample_eg = Ok (15, ht', eg') /\
  ht_wf ht' /\ elems ht' = [(KInt 2, IS_NULL)] /\
  zend_hash_reverse_apply sample_packed sum_callback 5 sample_eg = Ok (15, ht'', eg'').
Proof.
  destruct (apply_correct sample_packed 5 sample_eg tt [] sum_callback (fun s v _ => sum_callback s v)
    (fun s v _ _ => sum_callback s v) sample_packed_wf ltac:(vm_compute; discriminate)
    sum_callback_defines sum_callback_defines (fun _ => sum_callback_defines))
    as ((ht' & eg' & E & W & El & _) & (ht'' & eg'' & E' & _) & _).
  exists ht', eg', ht'', eg''. split; [exact E|]. split; [exact W|]. split; [exact El|exact E'].
Defined.

(** A graceful destruction deletes the entries one by one, from the first to
    the last or from the last to the first, on a table that is well-formed all the while: each
    key is released and each value destroyed once, in that order, and then the bucket
    memory is freed if there is any. *)
Theorem graceful_destroy_correct (ht : HashTable) (eg : EG) : ht_wf ht ->
  (exists eg', zend_hash_graceful_destroy ht eg = Ok eg' /\
    events eg' = data_free ht ++ del_events ht (contents (arData ht) (used ht)) ++ events eg /\
    cells eg' = cells eg) /\
  (exists eg', zend_hash_graceful_reverse_destroy ht eg = Ok eg' /\
    events eg' = data_free ht ++ del_events ht (rev (contents (arData ht) (used ht))) ++ events eg /\
    cells eg' = cells eg).
Proof.
  intros Hwf. pose proof (wf_used _ (wf_data _ Hwf)) as Hu.
  assert (Hend : forall ht' eg1 ev, same_table ht ht' -> f_initialized ht' = f_initialized ht ->
    eg_step ev (cells eg) eg eg1 -> exists eg',
    (let! (ht, eg) := Ok (ht', eg1) in
     Ok (if f_initialized ht then log (EvFree (ht_addr ht)) eg else eg)) = Ok eg' /\
    events eg' = data_free ht ++ ev ++ events eg /\ cells eg' = cells eg).
  { intros ht' eg1 ev Hs Hi [_ _ Hc _ He]. rsimp. eexists. split; [done|]. unfold data_free.
    rewrite Hi, (st_addr _ _ Hs). destruct (f_initialized ht); simpl; by rewrite He. }
  split; unfold zend_hash_graceful_destroy, zend_hash_graceful_reverse_destroy.
  - destruct (graceful_loop_ok (S (used ht)) ht 0 eg Hwf) as (ht' & eg1 & E & He & Hs & Hi); [lia|].
    change 0 with (Z.of_nat 0). rewrite E. by apply Hend.
  - destruct (graceful_reverse_loop_ok (S (used ht)) ht (used ht) eg Hwf) as (ht' & eg1 & E & He & Hs & Hi);
      [apply (data_wf_len _ (wf_data _ Hwf))|intros; lia|lia|].
    replace (nNumUsed ht) with (Z.of_nat (used ht)) by (unfold used; lia). rewrite E. by apply Hend.
Qed.

Lemma graceful_destroy_correct_witness : exists eg', zend_hash_graceful_destroy sample_hash sample_eg = Ok eg' /\
  events eg' = [EvFree 1%positive; EvDtor IS_TRUE; EvRelease (counted_key ["a"; "b"]%byte);
    EvDtor (IS_INDIRECT 5%positive); EvDtor (IS_LONG 1); EvRelease (counted_key ["a"%byte])].
Proof.
  destruct (graceful_destroy_correct sample_hash sample_eg sample_hash_wf) as [(eg' & E & He & _) _].
  exists eg'. split; [exact E|]. rewrite He. vm_compute. reflexivity.
Defined.
