(* ===== verification/HashDup.v ===== *)
(** * The ordered hash table: duplication ([zend_array_dup])

    References ([zend_reference]) live in a heap [refs] of reference counts and
    values, which the duplication reads; the counts it adds are events.  A count
    of 1 stays 1 while the elements are copied, since the only value whose
    count grows is one that the table itself holds. *)
From Stdlib Require Import Strings.Byte.
From S2P Require Export HashApply.

Abbreviation reference_heap := (gmap addr (Z * zval)).

(** ** Operations *)
Section Dup.
Context (refs : reference_heap).

(** The [do { .. } while (0)] block of [zend_array_dup_element]. *)
Definition dup_value (source : addr) (data : zval) (eg : EG) : res (zval * EG) :=
  if refcounted data then
    match data with
    | IS_REFERENCE r =>
        match refs !! r with
        | Some (refcount, v) =>
            if (refcount =? 1) && negb (bool_decide (v = IS_ARRAY source)) then
              if refcounted v then Ok (v, log (EvAddrefVal v) eg) else Ok (v, eg)
            else Ok (data, log (EvAddrefVal data) eg)
        | None => Err OutOfBounds
        end
    | _ => Ok (data, log (EvAddrefVal data) eg)
    end
  else Ok (data, eg).

(** The value to copy, or [None] for an element to leave out. *)
Definition dup_data (packed with_holes : bool) (data : zval) (eg : EG) : res (option zval) :=
  if with_holes then
    let! data := match data with
                 | IS_INDIRECT a => if negb packed then get_cell eg a else Ok data
                 | _ => Ok data
                 end in
    Ok (if is_undef data then None else Some data)
  else if negb packed then
    match data with
    | IS_INDIRECT a =>
        let! data := get_cell eg a in Ok (if is_undef data then None else Some data)
    | _ => Ok (Some data)
    end
  else Ok (Some data).

(** [q] is an index into the target's buckets; [idx] is the index to chain. *)
Definition zend_array_dup_element (source target : HashTable) (idx : Z) (p : Bucket) (q : Z)
    (packed static_keys with_holes : bool) (eg : EG) : res (bool * HashTable * EG) :=
  let! data := dup_data packed with_holes (b_val p) eg in
  match data with
  | None => Ok (false, target, eg)
  | Some data =>
      let! (v, eg) := dup_value (ht_addr source) data eg in
      let! old := get_bucket target q in
      if packed then
        let! target := set_bucket target q (mkBucket v (b_next old) (b_h p) None) in
        Ok (true, target, eg)
      else
        let eg := match b_key p with
                  | Some key => if negb static_keys then zend_string_addref key eg else eg
                  | None => eg
                  end in
        let nIndex := hash_index (b_h p) (nTableMask target) in
        let! head := HT_HASH target nIndex in
        let! target := set_bucket target q (mkBucket v head (b_h p) (b_key p)) in
        let! target := set_HT_HASH target nIndex idx in
        Ok (true, target, eg)
  end.

Fixpoint zend_array_dup_packed_elements (fuel : nat) (source target : HashTable) (i : Z)
    (with_holes : bool) (eg : EG) {struct fuel} : res (HashTable * EG) :=
  match fuel with
  | O => Err OutOfFuel
  | S fuel =>
      let! p := get_bucket source i in
      let! (copied, target, eg) := zend_array_dup_element source target 0 p i true true with_holes eg in
      let! target :=
        if negb copied && with_holes then
          let! q := get_bucket target i in set_bucket target i (set_b_val IS_UNDEF q)
        else Ok target in
      if i + 1 <? nNumUsed source then
        zend_array_dup_packed_elements fuel source target (i + 1) with_holes eg
      else Ok (target, eg)
  end.

(** The inner loop, once an element has been left out: [while (p != end)]. *)
Fixpoint dup_compact (fuel : nat) (source target : HashTable) (idx target_idx q : Z)
    (static_keys with_holes : bool) (eg : EG) {struct fuel} : res (HashTable * EG * Z) :=
  match fuel with
  | O => Err OutOfFuel
  | S fuel =>
      if idx <? nNumUsed source then
        let! p := get_bucket source idx in
        let! (copied, target, eg) :=
          zend_array_dup_element source target target_idx p q false static_keys with_holes eg in
        if copied then
          let target := if nInternalPointer source =? idx
                        then set_nInternalPointer target_idx target else target in
          dup_compact fuel source target (idx + 1) (target_idx + 1) (q + 1) static_keys with_holes eg
        else dup_compact fuel source target (idx + 1) target_idx q static_keys with_holes eg
      else Ok (target, eg, target_idx)
  end.

(** [q] advances with [idx] until an element is left out. *)
Fixpoint zend_array_dup_elements (fuel : nat) (source target : HashTable) (idx : Z)
    (static_keys with_holes : bool) (eg : EG) {struct fuel} : res (HashTable * EG * Z) :=
  match fuel with
  | O => Err OutOfFuel
  | S fuel =>
      let! p := get_bucket source idx in
      let! (copied, target, eg) :=
        zend_array_dup_element source target idx p idx false static_keys with_holes eg in
      if negb copied then dup_compact fuel source target (idx + 1) idx idx static_keys with_holes eg
      else if idx + 1 <? nNumUsed source then
        zend_array_dup_elements fuel source target (idx + 1) static_keys with_holes eg
      else Ok (target, eg, idx + 1)
  end.

(** [while (Z_TYPE(target->arData[idx].val) == IS_UNDEF) idx++;] *)
Fixpoint skip_undef (fuel : nat) (ht : HashTable) (idx : Z) {struct fuel} : res Z :=
  match fuel with
  | O => Err OutOfFuel
  | S fuel =>
      let! b := get_bucket ht idx in
      if is_undef (b_val b) then skip_undef fuel ht (idx + 1) else Ok idx
  end.

(** [if (target->nNumOfElements > 0 && target->nInternalPointer == HT_INVALID_IDX)] the
    pointer goes to the first element. *)
Definition point_to_first (ht : HashTable) : res HashTable :=
  if (0 <? nNumOfElements ht) && (nInternalPointer ht =? HT_INVALID_IDX) then
    let! idx := skip_undef (S (length (arData ht))) ht 0 in
    Ok (set_nInternalPointer idx ht)
  else Ok ht.

(** The fields that every duplicate has: size, destructor and flags. *)
Definition dup_header (self : addr) (source : HashTable) (packed initialized static_keys : bool)
    (apply_count : Z) : HashTable :=
  mkHashTable self false true packed initialized static_keys (f_has_empty_ind source)
    apply_count (nIteratorsCount source) (nTableMask source) [] [] (nNumUsed source)
    (nNumOfElements source) (nTableSize source) (nInternalPointer source)
    (nNextFreeElement source) true.

(** [emalloc(HT_SIZE(target))] *)
Definition dup_alloc (eg : EG) (ht : HashTable) : HashTable :=
  set_arHash (malloc_hash eg (HT_HASH_SIZE (nTableMask ht)))
    (set_arData (malloc_buckets eg (nTableSize ht)) ht).

(** [self] is the address of the new table; [immutable] is the flag
    [IS_ARRAY_IMMUTABLE] of the source. *)
Definition zend_array_dup (self : addr) (immutable : bool) (source : HashTable) (eg : EG)
    : res (HashTable * EG) :=
  if nNumUsed source =? 0 then
    Ok (set_nTableMask HT_MIN_MASK (set_nNumUsed 0 (set_nNumOfElements 0 (set_nNextFreeElement 0
          (set_nInternalPointer HT_INVALID_IDX (set_arHash uninitialized_bucket
            (dup_header self source false false true 0)))))), eg)
  else if immutable then
    let target := dup_header self source (f_packed source) (f_initialized source)
                    (f_static_keys source) (nApplyCount source) in
    let target := set_arHash (arHash source)
      (set_arData (copy_used eg (nNumUsed source) (nTableSize source) (arData source)) target) in
    let! target := point_to_first target in
    Ok (target, eg)
  else if f_packed source then
    let target := dup_alloc eg (dup_header self source true (f_initialized source)
                                  (f_static_keys source) 0) in
    let target := HT_HASH_RESET_PACKED target in
    let! (target, eg) :=
      if HT_IS_WITHOUT_HOLES target then
        zend_array_dup_packed_elements (S (used source)) source target 0 false eg
      else zend_array_dup_packed_elements (S (used source)) source target 0 true eg in
    let! target := point_to_first target in
    Ok (target, eg)
  else
    let target := dup_alloc eg (dup_header self source false (f_initialized source)
                                  (f_static_keys source) 0) in
    let target := HT_HASH_RESET target in
    let! (target, eg, idx) :=
      if HT_HAS_STATIC_KEYS_ONLY target then
        if HT_IS_WITHOUT_HOLES source then
          zend_array_dup_elements (S (used source)) source target 0 true false eg
        else zend_array_dup_elements (S (used source)) source target 0 true true eg
      else if HT_IS_WITHOUT_HOLES source then
        zend_array_dup_elements (S (used source)) source target 0 false false eg
      else zend_array_dup_elements (S (used source)) source target 0 false true eg in
    let target := set_nNumOfElements idx (set_nNumUsed idx target) in
    Ok (if (0 <? idx) && (nInternalPointer target =? HT_INVALID_IDX)
        then set_nInternalPointer 0 target else target, eg).
End Dup.

(** ** Specification *)
Section Spec.
Context (refs : reference_heap) (source : HashTable) (eg0 : EG).

(** A reference held by the table alone is replaced by its value, unless that
    is the table itself. *)
Definition dup_val (v : zval) : zval :=
  match v with
  | IS_REFERENCE r =>
      match refs !! r with
      | Some (refcount, w) =>
          if (refcount =? 1) && negb (bool_decide (w = IS_ARRAY (ht_addr source))) then w else v
      | None => v
      end
  | _ => v
  end.

(** Indirect elements of hashed tables are followed; empty ones are left out. *)
Definition data_of (packed : bool) (v : zval) : option zval :=
  let v := match v with
           | IS_INDIRECT a => if negb packed then default IS_UNDEF (cells eg0 !! a) else v
           | _ => v
           end in
  if is_undef v then None else Some v.

Definition dup_bucket (packed : bool) (b : Bucket) : option Bucket :=
  match data_of packed (b_val b) with
  | Some d => Some (mkBucket (dup_val d) 0 (b_h b) (b_key b))
  | None => None
  end.

Definition dup_entry (packed : bool) (e : hkey * zval) : option (hkey * zval) :=
  match data_of packed (snd e) with Some d => Some (fst e, dup_val d) | None => None end.

(** The references taken for a copied element: its value's, then its key's. *)
Definition addref_val (v : zval) : list event := if refcounted v then [EvAddrefVal v] else [].
Definition addref_key (k : option zend_string) : list event :=
  match k with Some s => addref_events s | None => [] end.

Definition dup_bucket_events (packed : bool) (b : Bucket) : list event :=
  match data_of packed (b_val b) with
  | Some d => addref_key (b_key b) ++ addref_val (dup_val d)
  | None => []
  end.

Definition dup_events (packed : bool) (l : list Bucket) : list event :=
  concat (map (dup_bucket_events packed) (rev l)).

(** The references and cells behind the elements exist and hold values. *)
Definition ref_ok (v : zval) : Prop :=
  forall r, v = IS_REFERENCE r -> exists n w, refs !! r = Some (n, w) /\ is_undef w = false.

Definition refs_ok : Prop :=
  forall k v, (k, v) ∈ elems source -> ref_ok v /\
  forall a w, v = IS_INDIRECT a -> cells eg0 !! a = Some w -> ref_ok w.

(** ** One element *)
Lemma dup_val_live v : ref_ok v -> is_undef v = false -> is_undef (dup_val v) = false.
Proof.
  intros Hr Hv. destruct v; try done. simpl. destruct (Hr _ eq_refl) as (n & w & -> & Hw).
  by destruct (_ && _).
Qed.

Lemma dup_value_ok v eg : ref_ok v -> is_undef v = false -> exists eg',
  dup_value refs (ht_addr source) v eg = Ok (dup_val v, eg') /\
  eg_step (addref_val (dup_val v)) (cells eg) eg eg'.
Proof.
  intros Hr Hv. unfold dup_value, addref_val. destruct v; try done; simpl;
    try (eexists; split; [reflexivity|apply eg_step_refl]);
    try (eexists; split; [reflexivity|by split]).
  - destruct (zs_interned str); simpl; eexists; split; try reflexivity; [apply eg_step_refl|by split].
  - destruct (Hr _ eq_refl) as (n & w & -> & Hw). destruct (_ && _); simpl.
    + destruct (refcounted w); eexists; split; try reflexivity; [by split|apply eg_step_refl].
    + eexists. split; [reflexivity|by split].
Qed.

Definition cell_ok (v : zval) : Prop := forall a, v = IS_INDIRECT a -> is_Some (cells eg0 !! a).

Lemma dup_data_ok packed with_holes v eg : cells eg = cells eg0 -> cell_ok v ->
  with_holes = true \/ is_undef v = false ->
  dup_data packed with_holes v eg = Ok (data_of packed v).
Proof.
  intros Ec Hc Hor. unfold dup_data, data_of.
  destruct v; try (destruct with_holes, packed; simpl; by destruct Hor as [?|?]).
  destruct (Hc _ eq_refl) as [w Hw]. destruct with_holes, packed; simpl; try done;
    unfold get_cell; rewrite Ec, Hw; done.
Qed.

(** The zval of a copied element is a value. *)
Lemma data_of_ok packed v d : cell_ok v -> ref_ok v ->
  (forall a w, v = IS_INDIRECT a -> cells eg0 !! a = Some w -> ref_ok w) ->
  data_of packed v = Some d -> ref_ok d /\ is_undef d = false.
Proof.
  intros Hc Hr Hi. unfold data_of. destruct (match v with IS_INDIRECT _ => _ | _ => _ end) as [] eqn:E;
    simpl; try done; intros [= <-]; (split; [|done]); rewrite <- E; destruct v; try done;
    destruct (Hc _ eq_refl) as [w Hw]; destruct packed; simpl; rewrite ?Hw; try done; simpl; by eapply Hi.
Qed.
End Spec.

(** ** The loops *)
Section Elements.
Context (refs : reference_heap) (source : HashTable) (eg0 : EG).
Context (Hwf : ht_wf source) (Hcells : cells_ok source eg0) (Hrefs : refs_ok refs source eg0).

(** Everything read from a used bucket of the source is there. *)
Definition readable (b : Bucket) : Prop :=
  cell_ok eg0 (b_val b) /\ ref_ok refs (b_val b) /\
  forall a w, b_val b = IS_INDIRECT a -> cells eg0 !! a = Some w -> ref_ok refs w.

Lemma source_readable i b : (i < used source)%nat -> arData source !! i = Some b -> readable b.
Proof.
  intros Hi Hb. destruct (is_undef (b_val b)) eqn:Eu.
  - unfold readable, cell_ok, ref_ok. by destruct (b_val b).
  - assert (Hin : (bkey b, b_val b) ∈ elems source).
    { apply elems_of_in. exists i, b. by split_and!. }
    destruct (Hrefs _ _ Hin) as [Hr Hi']. split; [|by split].
    intros a Ea. apply (Hcells (bkey b)). by rewrite <- Ea.
Qed.

Definition kept (packed : bool) (i : nat) : list Bucket :=
  omap (dup_bucket refs source eg0 packed) (take i (arData source)).

Lemma kept_S packed i b : arData source !! i = Some b ->
  kept packed (S i) = kept packed i ++
    match dup_bucket refs source eg0 packed b with Some b' => [b'] | None => [] end.
Proof. intros Hb. unfold kept. by rewrite (take_S_r _ _ _ Hb), omap_snoc. Qed.

Lemma dup_bucket_live packed b b' : readable b -> dup_bucket refs source eg0 packed b = Some b' ->
  is_live b' = true /\ b_h b' = b_h b /\ b_key b' = b_key b /\ is_undef (b_val b) = false /\
  clear_next b' = b'.
Proof.
  intros (Hc & Hr & Hi). unfold dup_bucket. destruct (data_of eg0 packed (b_val b)) as [d|] eqn:Ed; [|done].
  intros [= <-]. destruct (data_of_ok refs eg0 packed _ _ Hc Hr Hi Ed) as [Hrd Hud].
  unfold is_live. simpl. rewrite (dup_val_live refs source d Hrd Hud). split_and!; try done.
  unfold data_of in Ed. by destruct (b_val b).
Qed.

Lemma dup_events_snoc packed i b : arData source !! i = Some b ->
  dup_events refs source eg0 packed (take (S i) (arData source)) =
  dup_bucket_events refs source eg0 packed b ++
  dup_events refs source eg0 packed (take i (arData source)).
Proof.
  intros Hb. unfold dup_events. by rewrite (take_S_r _ _ _ Hb), rev_app_distr.
Qed.

(** The element function, on a target whose bucket [q] is free. *)
Lemma dup_element_none ht idx b q packed static_keys with_holes eg :
  readable b -> cells eg = cells eg0 -> with_holes = true \/ is_undef (b_val b) = false ->
  dup_bucket refs source eg0 packed b = None ->
  zend_array_dup_element refs source ht idx b q packed static_keys with_holes eg = Ok (false, ht, eg).
Proof.
  intros (Hc & _) Ec Hor Hn. unfold zend_array_dup_element.
  rewrite (dup_data_ok eg0) by done. rsimp. unfold dup_bucket in Hn.
  by destruct (data_of eg0 packed (b_val b)).
Qed.

Lemma dup_element_packed ht b b' (q : nat) with_holes eg :
  readable b -> cells eg = cells eg0 -> with_holes = true \/ is_undef (b_val b) = false ->
  dup_bucket refs source eg0 true b = Some b' -> b_key b = None -> (q < length (arData ht))%nat ->
  exists n eg', zend_array_dup_element refs source ht 0 b (Z.of_nat q) true true with_holes eg =
    Ok (true, set_arData (<[q := set_b_next n b']> (arData ht)) ht, eg') /\
  eg_step (dup_bucket_events refs source eg0 true b) (cells eg) eg eg'.
Proof.
  intros (Hc & Hr & Hi) Ec Hor Hb' Hk Hq. unfold zend_array_dup_element.
  rewrite (dup_data_ok eg0) by done. rsimp. unfold dup_bucket, dup_bucket_events in *.
  destruct (data_of eg0 true (b_val b)) as [d|] eqn:Ed; [|done]. injection Hb' as <-.
  destruct (data_of_ok refs eg0 true _ _ Hc Hr Hi Ed) as [Hrd Hud].
  destruct (dup_value_ok refs source d eg Hrd Hud) as (eg' & -> & Hs). rsimp.
  destruct (lookup_lt_is_Some_2 (arData ht) q Hq) as [old Hold].
  unfold get_bucket, set_bucket. rewrite (aget_ok _ _ _ Hold). rsimp.
  rewrite aset_ok by done. rsimp. rewrite Hk.
  exists (b_next old), eg'. split; [done|]. exact Hs.
Qed.

Lemma dup_element_hashed ht b b' (q : nat) static_keys with_holes eg n :
  readable b -> cells eg = cells eg0 -> with_holes = true \/ is_undef (b_val b) = false ->
  dup_bucket refs source eg0 false b = Some b' ->
  (static_keys = true -> addref_key (b_key b) = []) ->
  mask_ok ht n -> 0 <= b_h b -> (q < length (arData ht))%nat ->
  exists head eg', arHash ht !! Z.to_nat (b_h b mod n) = Some head /\
  zend_array_dup_element refs source ht (Z.of_nat q) b (Z.of_nat q) false static_keys with_holes eg =
    Ok (true, linked ht n q b' head, eg') /\
  eg_step (dup_bucket_events refs source eg0 false b) (cells eg) eg eg'.
Proof.
  intros (Hc & Hr & Hi) Ec Hor Hb' Hst Hm Hh Hq. unfold zend_array_dup_element.
  rewrite (dup_data_ok eg0) by done. rsimp. unfold dup_bucket, dup_bucket_events in *.
  destruct (data_of eg0 false (b_val b)) as [d|] eqn:Ed; [|done]. injection Hb' as <-.
  destruct (data_of_ok refs eg0 false _ _ Hc Hr Hi Ed) as [Hrd Hud].
  destruct (dup_value_ok refs source d eg Hrd Hud) as (eg1 & -> & Hs). rsimp.
  set (b' := mkBucket (dup_val refs source d) 0 (b_h b) (b_key b)).
  destruct (hash_link_ok ht n q b' Hm Hh Hq) as (head & Hhd & El). unfold hash_link in El.
  destruct (lookup_lt_is_Some_2 (arData ht) q Hq) as [old Hold].
  unfold get_bucket at 1. rewrite (aget_ok _ _ _ Hold). rsimp.
  set (eg2 := match b_key b with Some key => _ | None => _ end).
  exists head, eg2. split; [done|]. split.
  - simpl in El. destruct (HT_HASH ht (hash_index (b_h b) (nTableMask ht))) as [hd|] eqn:Eh; [|done].
    simpl in El |- *. change (set_b_next hd b') with (mkBucket (dup_val refs source d) hd (b_h b) (b_key b)) in El.
    destruct (set_bucket ht (Z.of_nat q) _) as [ht1|]; [|done]. simpl in El |- *.
    destruct (set_HT_HASH ht1 _ _) as [ht2|]; [|done]. simpl. by injection El as ->.
  - pose proof (es_cells _ _ _ _ Hs) as Ec1. eapply eg_step_trans; [exact Hs|]. rewrite <- Ec1.
    unfold eg2, addref_key in *. destruct (b_key b) as [s|]; [|apply eg_step_refl].
    destruct static_keys; simpl; [|apply addref_step]. rewrite Hst by done. apply eg_step_refl.
Qed.

(** Packed tables keep every element at its index. *)
Definition copied_at (b : Bucket) (c : option Bucket) : Prop :=
  match dup_bucket refs source eg0 true b with
  | Some b' => exists n, c = Some (set_b_next n b')
  | None => exists c', c = Some c' /\ is_live c' = false
  end.

Definition packed_rel (i : nat) (d : list Bucket) : Prop :=
  forall k b, (k < i)%nat -> arData source !! k = Some b -> copied_at b (d !! k).

Lemma packed_rel_S i d b c : arData source !! i = Some b -> (i < length d)%nat ->
  packed_rel i d -> copied_at b (Some c) -> packed_rel (S i) (<[i := c]> d).
Proof.
  intros Hb Hi Hr Hc k b' Hk Hb'. destruct (decide (k = i)) as [->|Hne].
  - rewrite list_lookup_insert_eq by done. by simplify_eq.
  - rewrite list_lookup_insert_ne by done. apply Hr; [lia|done].
Qed.

Lemma dup_packed_ok fuel ht (i : nat) with_holes eg :
  f_packed source = true -> cells eg = cells eg0 ->
  (with_holes = false -> forall k b, (k < used source)%nat -> arData source !! k = Some b ->
     is_undef (b_val b) = false) ->
  (used source <= length (arData ht))%nat -> (i < used source)%nat -> (used source - i <= fuel)%nat ->
  packed_rel i (arData ht) ->
  exists d eg', zend_array_dup_packed_elements refs fuel source ht (Z.of_nat i) with_holes eg =
    Ok (set_arData d ht, eg') /\ length d = length (arData ht) /\ packed_rel (used source) d /\
  eg_step (dup_events refs source eg0 true (drop i (take (used source) (arData source)))) (cells eg) eg eg'.
Proof.
  intros Hp. revert ht i eg. induction fuel as [|fuel IH]; intros ht i eg Ec Hh Hl Hi Hf Hr; [lia|].
  cbn [zend_array_dup_packed_elements].
  destruct (bucket_at source i Hwf Hi) as [b Hb]. unfold get_bucket at 1.
  rewrite (aget_ok _ _ _ Hb). rsimp. pose proof (source_readable i b Hi Hb) as Hrd.
  assert (Hor : with_holes = true \/ is_undef (b_val b) = false)
    by (destruct with_holes; [by left|right; by eapply Hh]).
  pose proof (wf_used _ (wf_data _ Hwf)) as Hu.
  (* the element *)
  assert (Hstep : exists d1 eg1,
    (let! (copied, target, eg) :=
       zend_array_dup_element refs source ht 0 b (Z.of_nat i) true true with_holes eg in
     let! target :=
       if negb copied && with_holes then
         let! q := get_bucket target (Z.of_nat i) in set_bucket target (Z.of_nat i) (set_b_val IS_UNDEF q)
       else Ok target in Ok (target, eg)) = Ok (set_arData d1 ht, eg1) /\
    length d1 = length (arData ht) /\ packed_rel (S i) d1 /\
    eg_step (dup_bucket_events refs source eg0 true b) (cells eg) eg eg1).
  { destruct (dup_bucket refs source eg0 true b) as [b'|] eqn:Ed.
    - assert (Hkey : b_key b = None).
      { destruct (dup_bucket_live true b b' Hrd Ed) as (_ & _ & _ & Hl' & _).
        pose proof (wf_repr _ Hwf) as R. rewrite (packed_not_hashed _ Hp) in R.
        by apply (wf_p_keys _ R i b Hi). }
      destruct (dup_element_packed ht b b' i with_holes eg Hrd Ec Hor Ed Hkey ltac:(lia))
        as (n & eg1 & -> & Hs). rsimp. cbn [negb andb]. rsimp.
      eexists _, eg1. split; [done|]. split; [by rewrite length_insert|]. split; [|done].
      apply (packed_rel_S i _ b); [done|lia|done|]. unfold copied_at. rewrite Ed. by exists n.
    - rewrite (dup_element_none ht 0 b (Z.of_nat i) true true with_holes eg Hrd Ec Hor Ed). rsimp.
      assert (with_holes = true) as ->.
      { destruct Hor as [?|Hu']; [done|]. exfalso. unfold dup_bucket, data_of in Ed.
        destruct (b_val b); done. }
      cbn [negb andb]. destruct (lookup_lt_is_Some_2 (arData ht) i ltac:(lia)) as [old Hold].
      unfold get_bucket, set_bucket. rewrite (aget_ok _ _ _ Hold). rsimp. rewrite aset_ok by lia. rsimp.
      eexists _, eg. split; [done|]. split; [by rewrite length_insert|]. split.
      + apply (packed_rel_S i _ b); [done|lia|done|]. unfold copied_at. rewrite Ed. by eexists.
      + unfold dup_bucket_events. unfold dup_bucket in Ed.
        destruct (data_of eg0 true (b_val b)); [done|]. apply eg_step_refl. }
  destruct Hstep as (d1 & eg1 & E1 & L1 & R1 & S1).
  destruct (zend_array_dup_element _ _ _ _ _ _ _ _ _ _) as [[[copied ht1] eg1']|]; [|done]. simpl in E1 |- *.
  destruct (if negb copied && with_holes then _ else Ok ht1) as [ht2|]; [|done]. simpl in E1 |- *.
  injection E1 as -> ->. rewrite (drop_S _ b i) by (by rewrite lookup_take_lt).
  assert (Ev : forall l, dup_events refs source eg0 true (b :: l) =
    dup_events refs source eg0 true l ++ dup_bucket_events refs source eg0 true b).
  { intros l. unfold dup_events. cbn [rev]. rewrite map_app, concat_app. simpl. by rewrite app_nil_r. }
  rewrite Ev. pose proof (es_cells _ _ _ _ S1) as Ec1.
  destruct (Z.ltb_spec (Z.of_nat i + 1) (nNumUsed source)) as [Hlt|Hge].
  - replace (Z.of_nat i + 1) with (Z.of_nat (S i)) by lia.
    destruct (IH (set_arData d1 ht) (S i) eg1) as (d & eg' & -> & L & R & S');
      [congruence|done|simpl; lia|unfold used; lia|lia|done|].
    exists d, eg'. split; [done|]. split; [by rewrite L|]. split; [done|].
    eapply eg_step_trans; [exact S1|]. by rewrite <- Ec1.
  - exists d1, eg1. split; [done|]. split; [done|]. replace (used source) with (S i) by (unfold used in *; lia).
    split; [done|]. rewrite drop_ge by (rewrite length_take; lia). done.
Qed.

(** Hashed tables are compacted: the target's first [j] buckets are the copies of
    the kept ones among the source's first [i], and are chained. *)
Record filled (ht0 : HashTable) (i j : nat) (ht : HashTable) : Prop := mk_filled {
  fi_count : j = length (kept false i);
  fi_contents : contents (arData ht) j = kept false i;
  fi_len : Z.of_nat (length (arData ht)) = nTableSize source;
  fi_mask : mask_ok ht (nTableSize source);
  fi_chains : chains_ok (nTableSize source) (arHash ht) (arData ht) j;
  fi_frame : exists hs d p, ht = set_nInternalPointer p (set_arHash hs (set_arData d ht0))
}.

(** The pointer follows its element to the element's new index. *)
Definition ptr_inv (i : nat) (ptr : Z) : Prop :=
  (nInternalPointer source = HT_INVALID_IDX -> ptr = HT_INVALID_IDX) /\
  forall p b, nInternalPointer source = Z.of_nat p -> live (arData source) p b ->
    dup_bucket refs source eg0 false b <> None ->
    ptr = if decide (p < i)%nat then Z.of_nat (length (kept false p)) else Z.of_nat p.

Lemma kept_length i : (length (kept false i) <= i)%nat.
Proof.
  unfold kept. rewrite omap_length_le, length_take. lia.
Qed.

Lemma filled_pointer ht0 i j ht p : filled ht0 i j ht -> filled ht0 i j (set_nInternalPointer p ht).
Proof. intros [? ? ? ? ? (hs & d & q & ->)]. split; try done. by exists hs, d, p. Qed.

Lemma filled_skip ht0 i j ht b : filled ht0 i j ht -> arData source !! i = Some b ->
  dup_bucket refs source eg0 false b = None -> filled ht0 (S i) j ht.
Proof. intros [] Hb Hn. split; try done; by rewrite (kept_S _ _ _ Hb), Hn, app_nil_r. Qed.

Lemma filled_link ht0 i j ht b b' head : filled ht0 i j ht -> arData source !! i = Some b ->
  readable b -> dup_bucket refs source eg0 false b = Some b' -> (j < length (arData ht))%nat ->
  arHash ht !! Z.to_nat (b_h b mod nTableSize source) = Some head ->
  filled ht0 (S i) (S j) (linked ht (nTableSize source) j b' head).
Proof.
  intros [Fc Fd Fl Fm Fch (hs & d & p & Ff)] Hb Hrd Ed Hj Hhd.
  destruct (dup_bucket_live false b b' Hrd Ed) as (Hl & Eh & Ek & _ & Ecn).
  pose proof (data_wf_size _ (wf_data _ Hwf)) as Hsz. split.
  - rewrite (kept_S _ _ _ Hb), Ed, length_app. simpl. lia.
  - rewrite (contents_S _ _ (set_b_next head b')) by (simpl; by apply list_lookup_insert_eq).
    rewrite (kept_S _ _ _ Hb), Ed. f_equal.
    + rewrite <- Fd. apply contents_ext. intros k Hk. simpl. by rewrite list_lookup_insert_ne by lia.
    + replace (is_live (set_b_next head b')) with true by (symmetry; exact Hl). f_equal. exact Ecn.
  - simpl. by rewrite length_insert.
  - destruct Fm as (Fk & Fmk & Flen). split; [done|]. split; [done|]. simpl. by rewrite length_insert.
  - apply chains_ok_link; [lia|done|done|by apply negb_true_iff|by rewrite Eh].
  - rewrite Ff. by eexists _, _, p.
Qed.

Section HashedLoops.
Context (static_keys with_holes : bool) (ht0 : HashTable).
Hypothesis Hholes : with_holes = false -> forall k b, (k < used source)%nat ->
  arData source !! k = Some b -> is_undef (b_val b) = false.
Hypothesis Hstatic : static_keys = true -> forall k b, (k < used source)%nat ->
  live (arData source) k b -> addref_key (b_key b) = [].
Hypothesis Hhashed : is_hashed source = true.

(** What the loops have still to read. *)
Definition todo (i : nat) : list Bucket := drop i (take (used source) (arData source)).

Lemma todo_cons i b : arData source !! i = Some b -> (i < used source)%nat ->
  todo i = b :: todo (S i).
Proof. intros Hb Hi. unfold todo. by rewrite (drop_S _ b i) by (by rewrite lookup_take_lt). Qed.

Lemma dup_events_cons packed b l : dup_events refs source eg0 packed (b :: l) =
  dup_events refs source eg0 packed l ++ dup_bucket_events refs source eg0 packed b.
Proof. unfold dup_events. cbn [rev]. rewrite map_app, concat_app. simpl. by rewrite app_nil_r. Qed.

(** One element: left out, or appended. *)
Lemma dup_step ht (i j : nat) b eg : cells eg = cells eg0 -> (i < used source)%nat ->
  arData source !! i = Some b -> filled ht0 i j ht ->
  exists copied ht' eg',
  zend_array_dup_element refs source ht (Z.of_nat j) b (Z.of_nat j) false static_keys with_holes eg =
    Ok (copied, ht', eg') /\
  eg_step (dup_bucket_events refs source eg0 false b) (cells eg) eg eg' /\
  filled ht0 (S i) (if copied then S j else j) ht' /\ nInternalPointer ht' = nInternalPointer ht /\
  copied = isSome (dup_bucket refs source eg0 false b).
Proof.
  intros Ec Hi Hb Hfi. pose proof (source_readable i b Hi Hb) as Hrd.
  assert (Hor : with_holes = true \/ is_undef (b_val b) = false)
    by (destruct with_holes; [by left|right; by eapply Hholes]).
  pose proof (wf_used _ (wf_data _ Hwf)) as Hu. pose proof (fi_len _ _ _ _ Hfi) as Hlen.
  assert (Hj : (j < length (arData ht))%nat).
  { pose proof (kept_length i). pose proof (fi_count _ _ _ _ Hfi). unfold used in *. lia. }
  destruct (dup_bucket refs source eg0 false b) as [b'|] eqn:Ed; simpl.
  - destruct (dup_bucket_live false b b' Hrd Ed) as (_ & Eh & _ & Hl & _).
    assert (Hlive : live (arData source) i b) by done.
    destruct (bkey_hash source i b (wf_data _ Hwf) Hi Hlive) as [_ Hb0].
    destruct (dup_element_hashed ht b b' j static_keys with_holes eg (nTableSize source) Hrd Ec Hor Ed)
      as (head & eg' & Hhd & E & Hs).
    + intros Es. by eapply Hstatic.
    + apply (fi_mask _ _ _ _ Hfi).
    + done.
    + done.
    + exists true, (linked ht (nTableSize source) j b' head), eg'. split; [done|]. split; [done|].
      split; [|done]. by apply (filled_link ht0 i j ht b).
  - exists false, ht, eg. split; [by apply dup_element_none|]. split.
    + unfold dup_bucket_events. unfold dup_bucket in Ed.
      destruct (data_of eg0 false (b_val b)); [done|]. apply eg_step_refl.
    + split; [|done]. by apply (filled_skip ht0 i j ht b).
Qed.

Lemma dup_compact_ok fuel ht (i j : nat) eg : cells eg = cells eg0 ->
  (used source - i < fuel)%nat -> filled ht0 i j ht -> ptr_inv i (nInternalPointer ht) ->
  (i <= used source)%nat ->
  exists ht' j' eg',
  dup_compact refs fuel source ht (Z.of_nat i) (Z.of_nat j) (Z.of_nat j) static_keys with_holes eg =
    Ok (ht', eg', Z.of_nat j') /\
  eg_step (dup_events refs source eg0 false (todo i)) (cells eg) eg eg' /\
  filled ht0 (used source) j' ht' /\ ptr_inv (used source) (nInternalPointer ht').
Proof.
  revert ht i j eg. induction fuel as [|fuel IH]; intros ht i j eg Ec Hf Hfi Hp Hiu; [lia|].
  cbn [dup_compact]. pose proof (wf_used _ (wf_data _ Hwf)) as Hu.
  destruct (Z.ltb_spec (Z.of_nat i) (nNumUsed source)) as [Hi|Hi].
  2: { assert (i = used source) as -> by (unfold used in *; lia). exists ht, j, eg.
       split; [done|]. split; [|by split]. unfold todo.
       rewrite drop_ge by (rewrite length_take; lia). apply eg_step_refl. }
  assert (Hi' : (i < used source)%nat) by (unfold used; lia).
  destruct (bucket_at source i Hwf Hi') as [b Hb]. unfold get_bucket. rewrite (aget_ok _ _ _ Hb). rsimp.
  destruct (dup_step ht i j b eg Ec Hi' Hb Hfi) as (copied & ht1 & eg1 & -> & Hs & Hfi1 & Hp1 & Hcp). rsimp.
  rewrite (todo_cons i b Hb Hi'), dup_events_cons. pose proof (es_cells _ _ _ _ Hs) as Ec1.
  replace (Z.of_nat i + 1) with (Z.of_nat (S i)) by lia.
  assert (Hend : forall ht' j' eg', eg_step (dup_events refs source eg0 false (todo (S i))) (cells eg1) eg1 eg' ->
    filled ht0 (used source) j' ht' /\ ptr_inv (used source) (nInternalPointer ht') ->
    eg_step (dup_events refs source eg0 false (todo (S i)) ++ dup_bucket_events refs source eg0 false b)
      (cells eg) eg eg' /\ filled ht0 (used source) j' ht' /\ ptr_inv (used source) (nInternalPointer ht')).
  { intros ht' j' eg' H1 H2. split; [|done]. eapply eg_step_trans; [exact Hs|]. by rewrite <- Ec1. }
  destruct copied.
  - replace (Z.of_nat j + 1) with (Z.of_nat (S j)) by lia.
    set (ht2 := if nInternalPointer source =? Z.of_nat i then set_nInternalPointer (Z.of_nat j) ht1 else ht1).
    assert (Hp2 : ptr_inv (S i) (nInternalPointer ht2)).
    { destruct Hp as [Hpi Hpl]. unfold ht2. split.
      - intros E. rewrite E. destruct (Z.eqb_spec HT_INVALID_IDX (Z.of_nat i)) as [E'|_].
        + unfold HT_INVALID_IDX in E'. pose proof (data_wf_size _ (wf_data _ Hwf)). unfold HT_MAX_SIZE in *. lia.
        + rewrite Hp1. by apply Hpi.
      - intros p c Ep Hc Hk. rewrite Ep. destruct (Z.eqb_spec (Z.of_nat p) (Z.of_nat i)) as [E'|Hne].
        + apply Nat2Z.inj in E' as ->. simpl. rewrite decide_True by lia.
          by rewrite (fi_count _ _ _ _ Hfi).
        + rewrite Hp1, (Hpl p c) by done. destruct (decide (p < i)%nat), (decide (p < S i)%nat); try done; lia. }
    assert (Hfi2 : filled ht0 (S i) (S j) ht2).
    { unfold ht2. destruct (_ =? _); [by apply filled_pointer|done]. }
    destruct (IH ht2 (S i) (S j) eg1) as (ht' & j' & eg' & -> & H); [congruence|lia|done|done|lia|].
    exists ht', j', eg'. split; [done|]. by apply Hend; apply H.
  - assert (Hp2 : ptr_inv (S i) (nInternalPointer ht1)).
    { destruct Hp as [Hpi Hpl]. rewrite Hp1. split; [done|]. intros p c Ep Hc Hk.
      rewrite (Hpl p c) by done. destruct (decide (p = i)) as [->|].
      - destruct Hc as [Hc _]. rewrite Hb in Hc. injection Hc as <-.
        by destruct (dup_bucket refs source eg0 false b).
      - destruct (decide (p < i)%nat), (decide (p < S i)%nat); try done; lia. }
    destruct (IH ht1 (S i) j eg1) as (ht' & j' & eg' & -> & H); [congruence|lia|done|done|lia|].
    exists ht', j', eg'. split; [done|]. by apply Hend; apply H.
Qed.

(** As long as nothing is left out, indices agree. *)
Lemma kept_full i p : length (kept false i) = i -> (p <= i)%nat -> length (kept false p) = p.
Proof.
  intros Hi Hp. unfold kept in *. rewrite <- (take_drop p (arData source)), take_app in Hi.
  rewrite take_take, Nat.min_r, omap_app, length_app in Hi by lia.
  pose proof (omap_length_le (dup_bucket refs source eg0 false)
    (take (i - length (take p (arData source))) (drop p (arData source)))) as H2.
  pose proof (omap_length_le (dup_bucket refs source eg0 false) (take p (arData source))) as H1.
  rewrite !length_take, ?length_drop in *. lia.
Qed.

Lemma ptr_inv_full i : length (kept false i) = i -> ptr_inv i (nInternalPointer source).
Proof.
  intros Hi. split; [done|]. intros p b -> _ _. case_decide; [|done].
  by rewrite (kept_full i p Hi) by lia.
Qed.

Lemma dup_elements_ok fuel ht (i : nat) eg : cells eg = cells eg0 ->
  (used source - i < fuel)%nat -> filled ht0 i i ht -> nInternalPointer ht = nInternalPointer source ->
  (i < used source)%nat ->
  exists ht' j' eg',
  zend_array_dup_elements refs fuel source ht (Z.of_nat i) static_keys with_holes eg =
    Ok (ht', eg', Z.of_nat j') /\
  eg_step (dup_events refs source eg0 false (todo i)) (cells eg) eg eg' /\
  filled ht0 (used source) j' ht' /\ ptr_inv (used source) (nInternalPointer ht').
Proof.
  revert ht i eg. induction fuel as [|fuel IH]; intros ht i eg Ec Hf Hfi Hp Hi; [lia|].
  cbn [zend_array_dup_elements]. pose proof (wf_used _ (wf_data _ Hwf)) as Hu.
  destruct (bucket_at source i Hwf Hi) as [b Hb]. unfold get_bucket. rewrite (aget_ok _ _ _ Hb). rsimp.
  destruct (dup_step ht i i b eg Ec Hi Hb Hfi) as (copied & ht1 & eg1 & -> & Hs & Hfi1 & Hp1 & Hcp). rsimp.
  rewrite (todo_cons i b Hb Hi), dup_events_cons. pose proof (es_cells _ _ _ _ Hs) as Ec1.
  replace (Z.of_nat i + 1) with (Z.of_nat (S i)) by lia.
  assert (Hend : forall ht' j' eg', eg_step (dup_events refs source eg0 false (todo (S i))) (cells eg1) eg1 eg' ->
    filled ht0 (used source) j' ht' /\ ptr_inv (used source) (nInternalPointer ht') ->
    eg_step (dup_events refs source eg0 false (todo (S i)) ++ dup_bucket_events refs source eg0 false b)
      (cells eg) eg eg' /\ filled ht0 (used source) j' ht' /\ ptr_inv (used source) (nInternalPointer ht')).
  { intros ht' j' eg' H1 H2. split; [|done]. eapply eg_step_trans; [exact Hs|]. by rewrite <- Ec1. }
  destruct copied; cbn [negb].
  - destruct (Z.ltb_spec (Z.of_nat (S i)) (nNumUsed source)) as [Hlt|Hge].
    + destruct (IH ht1 (S i) eg1) as (ht' & j' & eg' & -> & H); [congruence|lia|done|congruence|unfold used; lia|].
      exists ht', j', eg'. split; [done|]. by apply Hend; apply H.
    + exists ht1, (S i), eg1. split; [done|]. assert (Eu : used source = S i) by (unfold used in *; lia).
      apply Hend; [|rewrite Eu; split; [done|]].
      * unfold todo. rewrite drop_ge by (rewrite length_take; lia). apply eg_step_refl.
      * rewrite Hp1, Hp. apply ptr_inv_full. by rewrite <- (fi_count _ _ _ _ Hfi1).
  - destruct (dup_compact_ok fuel ht1 (S i) i eg1) as (ht' & j' & eg' & -> & H).
    + congruence.
    + lia.
    + done.
    + rewrite Hp1, Hp. pose proof (ptr_inv_full i) as Hpi.
      destruct Hpi as [Hp2 Hp3]; [by rewrite <- (fi_count _ _ _ _ Hfi)|]. split; [done|].
      intros p c Epp Hc Hk. rewrite (Hp3 p c Epp Hc Hk).
      destruct (decide (p = i)) as [->|].
      * destruct Hc as [Hc _]. rewrite Hb in Hc. injection Hc as <-.
        by destruct (dup_bucket refs source eg0 false b).
      * destruct (decide (p < i)%nat), (decide (p < S i)%nat); try done; lia.
    + lia.
    + exists ht', j', eg'. split; [done|]. by apply Hend; apply H.
Qed.
End HashedLoops.
End Elements.

(** ** Results *)

(** What identifies a bucket. *)
Definition hkb (b : Bucket) : Z * option zend_string := (b_h b, b_key b).

(** A table that holds some of the keys of a well-formed one, in the same order. *)
Lemma data_wf_sub ht ht' :
  data_wf ht -> (exists k, 3 <= k <= 31 /\ nTableSize ht' = 2 ^ k) ->
  0 <= nNumUsed ht' <= nTableSize ht' ->
  Z.of_nat (length (arData ht')) = (if f_initialized ht' then nTableSize ht' else 0) ->
  (f_initialized ht' = false -> nNumUsed ht' = 0) ->
  map hkb (contents (arData ht') (used ht')) `sublist_of` map hkb (contents (arData ht) (used ht)) ->
  nNumOfElements ht' = Z.of_nat (length (contents (arData ht') (used ht'))) ->
  nNextFreeElement ht' = nNextFreeElement ht ->
  (HT_HAS_STATIC_KEYS_ONLY ht' = true -> HT_HAS_STATIC_KEYS_ONLY ht = true) ->
  position_ok ht' (nInternalPointer ht') -> data_wf ht'.
Proof.
  intros Hd Hs Hu Hl Hi Hc Hn Hf Hst Hp.
  assert (Ek : forall h, (elems h).*1 =
    map (fun p : Z * option zend_string => bkey (mkBucket IS_UNDEF 0 (fst p) (snd p)))
      (map hkb (contents (arData h) (used h)))).
  { intros h. unfold elems. rewrite contents_elems.
    change (fst <$> map entry (contents (arData h) (Z.to_nat (nNumUsed h)))) with
      (map fst (map entry (contents (arData h) (used h)))). by rewrite !map_map. }
  assert (Hsub : (elems ht').*1 `sublist_of` (elems ht).*1).
  { rewrite !Ek. by apply (fmap_sublist _). }
  assert (Hin : forall i b, (i < used ht')%nat -> live (arData ht') i b ->
    exists j c, (j < used ht)%nat /\ live (arData ht) j c /\ hkb c = hkb b).
  { intros i b Hlt Hb.
    assert (Hm : hkb (clear_next b) ∈ map hkb (contents (arData ht) (used ht))).
    { eapply elem_of_sublist; [|exact Hc]. apply (list_elem_of_fmap_2 hkb).
      apply contents_in. by exists i, b. }
    apply list_elem_of_fmap in Hm as (c' & Ec & Hc').
    apply contents_in in Hc' as (j & c & Hj & Hlc & ->). by exists j, c. }
  split; try done.
  - rewrite Hn, elems_contents_length. done.
  - eapply sublist_NoDup; [apply Hd|exact Hsub].
  - intros i b Hlt Hb. destruct (Hin i b Hlt Hb) as (j & c & Hj & Hlc & [= E1 E2]).
    pose proof (wf_bucket _ Hd j c Hj Hlc) as H. unfold bucket_ok in *. by rewrite E1, E2 in H.
  - intros Hs' i b s Hlt Hb Hk. destruct (Hin i b Hlt Hb) as (j & c & Hj & Hlc & [= E1 E2]).
    apply (wf_static _ Hd (Hst Hs') j c); [done|done|congruence].
  - rewrite Hf. apply Hd.
  - rewrite Hf. intros h Hh. apply (wf_next_free_keys _ Hd). by eapply elem_of_sublist.
Qed.

(** The first element, when there is one. *)
Lemma skip_undef_ok fuel ht (i j : nat) b : (j < length (arData ht))%nat -> (i <= j)%nat ->
  live (arData ht) j b -> (j - i < fuel)%nat ->
  exists k c, skip_undef fuel ht (Z.of_nat i) = Ok (Z.of_nat k) /\ live (arData ht) k c /\ (i <= k <= j)%nat /\
    forall m c', (i <= m < k)%nat -> arData ht !! m = Some c' -> is_live c' = false.
Proof.
  revert i. induction fuel as [|fuel IH]; intros i Hj Hi Hb Hf; [lia|]. cbn [skip_undef].
  destruct (lookup_lt_is_Some_2 (arData ht) i) as [b0 Hb0]; [lia|].
  unfold get_bucket. rewrite (aget_ok _ _ _ Hb0). rsimp.
  destruct (is_undef (b_val b0)) eqn:Eu.
  - destruct (decide (i = j)) as [->|].
    { destruct Hb as [Hb Hb']. rewrite Hb0 in Hb. injection Hb as <-. congruence. }
    replace (Z.of_nat i + 1) with (Z.of_nat (S i)) by lia.
    destruct (IH (S i)) as (k & c & -> & Hc & Hk & Hbef); [done|lia|done|lia|].
    exists k, c. split_and!; [done|done|lia|lia|]. intros m c' Hm Hc'.
    destruct (decide (m = i)) as [->|].
    + rewrite Hb0 in Hc'. injection Hc' as <-. unfold is_live. by rewrite Eu.
    + apply (Hbef m c'); [lia|done].
  - exists i, b0. split_and!; [done|done|lia|lia|intros; lia].
Qed.

(** The pointer's key after [point_to_first]. *)
Definition first_if_none (o : option hkey) (l : alist) : option hkey :=
  match o with Some k => Some k | None => fst <$> head l end.

Lemma live_pos_key ht i b : Z.of_nat (length (arData ht)) <= HT_MAX_SIZE -> live (arData ht) i b ->
  pos_key ht (Z.of_nat i) = Some (bkey b).
Proof.
  intros Hm [Hb Hu]. pose proof (lookup_lt_Some _ _ _ Hb). unfold HT_MAX_SIZE in Hm.
  rewrite pos_key_in by (unfold HT_INVALID_IDX; lia). by rewrite Hb.
Qed.

Lemma point_to_first_ok ht : Z.of_nat (length (arData ht)) <= HT_MAX_SIZE ->
  (used ht <= length (arData ht))%nat ->
  nNumOfElements ht = Z.of_nat (length (elems ht)) -> position_ok ht (nInternalPointer ht) ->
  exists p, point_to_first ht = Ok (set_nInternalPointer p ht) /\ position_ok ht p /\
    pos_key ht p = first_if_none (pos_key ht (nInternalPointer ht)) (elems ht).
Proof.
  intros Hm Hu Hn Hp. unfold point_to_first.
  destruct (Z.eqb_spec (nInternalPointer ht) HT_INVALID_IDX) as [Ep|Ep].
  2: { rewrite andb_false_r. exists (nInternalPointer ht). split; [by destruct ht|]. split; [done|].
       destruct Hp as [?|(i & b & E & Hi & Hb)]; [done|]. rewrite E, (live_pos_key ht i b Hm Hb). done. }
  rewrite andb_true_r. rewrite Ep. unfold pos_key at 2. rewrite Z.eqb_refl. cbn [first_if_none].
  destruct (elems ht) as [|[k v] l] eqn:El.
  { rewrite Hn. simpl. exists HT_INVALID_IDX. split; [rewrite <- Ep; by destruct ht|].
    split; [by left|]. done. }
  rewrite Hn. cbn [length]. destruct (Z.ltb_spec 0 (Z.of_nat (S (length l)))); [|lia].
  assert (Hin : (k, v) ∈ elems ht) by (rewrite El; set_solver).
  apply elems_of_in in Hin as (j & b & Hj & Hb & Hkb & Hvb).
  destruct (skip_undef_ok (S (length (arData ht))) ht 0 j b) as (i & c & E & Hc & Hi & Hbef);
    [unfold used in *; lia|lia|done|unfold used in *; lia|].
  change 0 with (Z.of_nat 0). rewrite E. rsimp. exists (Z.of_nat i). split; [done|]. split.
  - right. exists i, c. split_and!; [done|unfold used in *; lia|done].
  - rewrite (live_pos_key ht i c Hm Hc). unfold first_if_none. simpl. f_equal.
    assert (Ef : elems_from (arData ht) (used ht) 0 = elems ht) by apply elems_from_0.
    rewrite (elems_from_skip _ _ 0 i) in Ef.
    + rewrite (elems_from_live _ _ _ _ Hc) in Ef by (unfold used in *; lia). rewrite El in Ef. by injection Ef.
    + lia.
    + intros m c' Hm' [Hc' Hu']. specialize (Hbef m c' Hm' Hc'). unfold is_live in Hbef. by rewrite Hu' in Hbef.
Qed.

(** ** The function *)
Section Duplicate.
Context (refs : reference_heap) (source : HashTable) (eg : EG).
Context (Hwf : ht_wf source) (Hcells : cells_ok source eg) (Hrefs : refs_ok refs source eg).

(** The entries of the duplicate. *)
Definition dup_elems (immutable : bool) : alist :=
  if nNumUsed source =? 0 then []
  else if immutable then elems source
  else omap (dup_entry refs source eg (f_packed source)) (elems source).

(** The events of the duplication. *)
Definition dup_all_events (immutable : bool) : list event :=
  if (nNumUsed source =? 0) || immutable then []
  else dup_events refs source eg (f_packed source) (take (used source) (arData source)).

(** The pointed element is not an empty indirect one. *)
Definition pointer_kept : Prop :=
  forall p b, nInternalPointer source = Z.of_nat p -> live (arData source) p b ->
  dup_bucket refs source eg (f_packed source) b <> None.

(** A duplicate of the table. *)
Record duplicate (self : addr) (immutable : bool) (target : HashTable) (eg' : EG) : Prop := mk_duplicate {
  du_wf : ht_wf target;
  du_elems : elems target = dup_elems immutable;
  du_ptr : pos_key target (nInternalPointer target) =
    if nNumUsed source =? 0 then None
    else first_if_none (pos_key source (nInternalPointer source)) (elems target);
  du_next : nNextFreeElement target = if nNumUsed source =? 0 then 0 else nNextFreeElement source;
  du_own : ht_addr target = self /\ f_persistent target = false /\ f_apply_protection target = true /\
    pDestructor target = true /\ nTableSize target = nTableSize source;
  du_step : eg_step (dup_all_events immutable) (cells eg) eg eg'
}.

Lemma kept_elems packed i : (i <= used source)%nat ->
  map entry (kept refs source eg packed i) =
  omap (dup_entry refs source eg packed) (elems_of (arData source) i).
Proof.
  induction i as [|i IH]; intros Hi; [done|].
  destruct (bucket_at source i Hwf ltac:(lia)) as [b Hb].
  rewrite (kept_S _ _ _ _ _ _ Hb), map_app, IH, (elems_of_S _ _ _ Hb), omap_app by lia. f_equal.
  unfold dup_bucket, bucket_elem, dup_entry.
  destruct (is_undef (b_val b)) eqn:Eu; simpl.
  - assert (data_of eg packed (b_val b) = None) as -> by (unfold data_of; by destruct (b_val b)). done.
  - destruct (data_of eg packed (b_val b)); done.
Qed.

Lemma kept_sublist packed i : (i <= used source)%nat ->
  map hkb (kept refs source eg packed i) `sublist_of` map hkb (contents (arData source) i).
Proof.
  induction i as [|i IH]; intros Hi; [constructor|].
  destruct (bucket_at source i Hwf ltac:(lia)) as [b Hb].
  rewrite (kept_S _ _ _ _ _ _ Hb), (contents_S _ _ _ Hb), !map_app. apply sublist_app; [apply IH; lia|].
  pose proof (source_readable refs source eg Hcells Hrefs i b ltac:(lia) Hb) as Hrd.
  destruct (dup_bucket refs source eg packed b) as [b'|] eqn:Ed; [|apply sublist_nil_l].
  destruct (dup_bucket_live refs source eg packed b b' Hrd Ed) as (_ & E1 & E2 & Hl & _).
  unfold is_live. rewrite Hl. simpl. unfold hkb. simpl. rewrite E1, E2. done.
Qed.

Lemma dup_empty self immutable : nNumUsed source = 0 ->
  exists target, zend_array_dup refs self immutable source eg = Ok (target, eg) /\
  duplicate self immutable target eg.
Proof.
  intros Hz. pose proof (wf_size _ (wf_data _ Hwf)) as (k & Hk & Ek).
  unfold zend_array_dup. rewrite Hz. simpl. eexists. split; [reflexivity|].
  split; unfold dup_elems, dup_all_events; rewrite ?Hz; try done.
  - split; [|done|].
    + by apply (data_wf_unused _ k Hk).
    + split; [done|done|]. unfold used. simpl. intros; lia.
Qed.

(** The bounds that the table sizes give. *)
Lemma dup_bounds : Z.of_nat (used source) <= nTableSize source /\ nTableSize source <= HT_MAX_SIZE.
Proof.
  pose proof (wf_used _ (wf_data _ Hwf)). pose proof (data_wf_size _ (wf_data _ Hwf)). unfold used. lia.
Qed.

Lemma dup_immutable self : nNumUsed source <> 0 ->
  exists target, zend_array_dup refs self true source eg = Ok (target, eg) /\
  duplicate self true target eg.
Proof.
  intros Hz. pose proof (wf_data _ Hwf) as Hd. pose proof (wf_size _ Hd) as (k & Hk & Ek).
  destruct dup_bounds as [Hu Hsz]. destruct (data_wf_len _ Hd) as [Hul _].
  unfold zend_array_dup. destruct (Z.eqb_spec (nNumUsed source) 0); [done|].
  set (t := set_arHash _ _).
  assert (Hin : f_initialized source = true).
  { destruct (f_initialized source) eqn:E; [done|]. by rewrite (wf_init_used _ Hd E) in Hz. }
  assert (Hr : recopied eg (nTableSize source) source t) by done.
  pose proof (recopied_wf eg _ source t k Hd Hr Hk Ek (proj2 (wf_used _ Hd))) as Ht.
  assert (Ec : contents (arData t) (used t) = contents (arData source) (used source))
    by (apply (recopied_contents eg (nTableSize source) source t); done).
  assert (Ee : elems t = elems source) by (by apply contents_eq_elems).
  destruct (data_wf_len _ Ht) as [Hut Hmt].
  destruct (point_to_first_ok t Hmt Hut) as (p & E & Hp & Hk'); [apply Ht|apply Ht|].
  rewrite E. rsimp. eexists. split; [reflexivity|].
  assert (Hlk : forall i, (i < used source)%nat -> arData source !! i = arData t !! i)
    by (intros i Hi; symmetry; by apply (recopied_lookup eg (nTableSize source) source t)).
  split; unfold dup_elems, dup_all_events; destruct (Z.eqb_spec (nNumUsed source) 0); try done.
  - split; [by destruct Ht; split|exact (wf_packed_init _ Hwf)|].
    change (is_hashed (set_nInternalPointer p t)) with (is_hashed source).
    pose proof (wf_repr _ Hwf) as R. destruct (is_hashed source); destruct R as [R1 R2 R3].
    + split; [done|done|]. change (chains_ok (nTableSize source) (arHash source) (arData t) (used source)).
      by eapply chains_ok_ext.
    + split; [done|done|]. intros i b Hi Hb. apply R3; [exact Hi|]. destruct Hb as [Hb ?].
      split; [|done]. rewrite Hlk by exact Hi. exact Hb.
  - transitivity (pos_key t p); [done|]. rewrite Hk'.
    change (elems (set_nInternalPointer p t)) with (elems t). f_equal.
    destruct (wf_position _ Hd) as [Ei|(i & b & Ei & Hi & Hb)]; change (nInternalPointer t) with (nInternalPointer source).
    + by rewrite Ei.
    + rewrite Ei. unfold pos_key. rewrite Nat2Z.id. by rewrite Hlk.
Qed.

Lemma packed_contents d i : (i <= used source)%nat -> packed_rel refs source eg i d ->
  contents d i = kept refs source eg true i.
Proof.
  induction i as [|i IH]; intros Hi Hr; [done|].
  destruct (bucket_at source i Hwf ltac:(lia)) as [b Hb].
  rewrite (kept_S _ _ _ _ _ _ Hb), <- IH; [|lia|intros k c Hk; apply Hr; lia].
  specialize (Hr i b ltac:(lia) Hb). unfold copied_at in Hr.
  pose proof (source_readable refs source eg Hcells Hrefs i b ltac:(lia) Hb) as Hrd.
  destruct (dup_bucket refs source eg true b) as [b'|] eqn:Ed.
  - destruct Hr as [n Hd]. destruct (dup_bucket_live refs source eg true b b' Hrd Ed) as (Hl & _ & _ & _ & Ec).
    rewrite (contents_S _ _ _ Hd). f_equal.
    replace (is_live (set_b_next n b')) with true by (symmetry; exact Hl). f_equal. exact Ec.
  - destruct Hr as (c & Hd & Hl). rewrite (contents_S _ _ _ Hd), Hl. done.
Qed.

(** In a packed table everything is kept, so the pointer's element is. *)
Lemma dup_bucket_packed b : is_live b = true -> dup_bucket refs source eg true b <> None.
Proof.
  unfold is_live, dup_bucket, data_of. intros Hl. apply negb_true_iff in Hl. by destruct (b_val b).
Qed.

Lemma kept_packed_length i : (i <= used source)%nat ->
  length (kept refs source eg true i) = length (contents (arData source) i).
Proof.
  induction i as [|i IH]; intros Hi; [done|].
  destruct (bucket_at source i Hwf ltac:(lia)) as [b Hb].
  rewrite (kept_S _ _ _ _ _ _ Hb), (contents_S _ _ _ Hb), !length_app, IH by lia. f_equal.
  destruct (is_live b) eqn:El.
  - pose proof (dup_bucket_packed b El). by destruct (dup_bucket refs source eg true b).
  - unfold is_live in El. apply negb_false_iff in El. unfold dup_bucket, data_of. by destruct (b_val b).
Qed.

Lemma initialized_used : nNumUsed source <> 0 -> f_initialized source = true.
Proof.
  intros Hz. destruct (f_initialized source) eqn:E; [done|].
  by rewrite (wf_init_used _ (wf_data _ Hwf) E) in Hz.
Qed.

Lemma packed_target_wf self d : f_packed source = true -> nNumUsed source <> 0 ->
  Z.of_nat (length d) = nTableSize source -> packed_rel refs source eg (used source) d ->
  ht_wf (set_arData d (HT_HASH_RESET_PACKED (dup_alloc eg (dup_header self source true
    (f_initialized source) (f_static_keys source) 0)))).
Proof.
  intros Hp Hz Hl Hr. pose proof (wf_data _ Hwf) as Hd. set (t := set_arData _ _).
  pose proof (packed_contents d (used source) ltac:(lia) Hr) as Ec.
  pose proof (initialized_used Hz) as Hin. destruct dup_bounds as [Hu Hsz].
  pose proof (wf_repr _ Hwf) as R. rewrite (packed_not_hashed _ Hp) in R.
  assert (Hkeep : forall i b, (i < used source)%nat -> live (arData source) i b ->
    exists c, live d i c /\ hkb c = hkb b).
  { intros i b Hi [Hb Hub]. specialize (Hr i b Hi Hb). unfold copied_at in Hr.
    pose proof (source_readable refs source eg Hcells Hrefs i b Hi Hb) as Hrd.
    assert (Hl' : is_live b = true) by (unfold is_live; by rewrite Hub).
    destruct (dup_bucket refs source eg true b) as [b'|] eqn:Ed; [|by destruct (dup_bucket_packed b Hl')].
    destruct Hr as [n Hn]. destruct (dup_bucket_live refs source eg true b b' Hrd Ed) as (Hb' & E1 & E2 & _).
    exists (set_b_next n b'). split; [split; [done|by apply negb_true_iff]|]. unfold hkb. simpl. congruence. }
  assert (Hback : forall i c, (i < used source)%nat -> live d i c ->
    exists b, live (arData source) i b /\ hkb c = hkb b).
  { intros i c Hi Hc. destruct (bucket_at source i Hwf Hi) as [b Hb].
    destruct (is_undef (b_val b)) eqn:Eu.
    - specialize (Hr i b Hi Hb). unfold copied_at in Hr.
      assert (dup_bucket refs source eg true b = None) as E.
      { unfold dup_bucket, data_of. by destruct (b_val b). }
      rewrite E in Hr. destruct Hr as (c' & Hc' & Hl'). destruct Hc as [Hc Hu']. rewrite Hc in Hc'.
      injection Hc' as <-. unfold is_live in Hl'. by rewrite Hu' in Hl'.
    - destruct (Hkeep i b Hi (conj Hb Eu)) as (c' & Hc' & E). exists b. split; [done|].
      destruct Hc as [Hc _], Hc' as [Hc' _]. rewrite Hc in Hc'. by injection Hc' as <-. }
  split.
  - apply (data_wf_sub source); try done.
    + apply Hd.
    + apply Hd.
    + simpl. by rewrite Hin.
    + simpl. by rewrite Hin.
    + change (arData t) with d. change (used t) with (used source). rewrite Ec.
      apply kept_sublist. lia.
    + change (arData t) with d. change (used t) with (used source).
      change (nNumOfElements t) with (nNumOfElements source).
      by rewrite (wf_count _ Hd), Ec, kept_packed_length, elems_contents_length.
    + intros _. unfold HT_HAS_STATIC_KEYS_ONLY. by rewrite Hp.
    + destruct (wf_position _ Hd) as [?|(i & b & Ei & Hi & Hb)]; [by left|right].
      destruct (Hkeep i b Hi Hb) as (c & Hc & _). by exists i, c.
  - done.
  - change (is_hashed t) with (f_initialized source && negb true). rewrite andb_false_r.
    split; [exact (wf_p_mask _ R)|done|]. intros i c Hi Hc.
    destruct (Hback i c Hi Hc) as (b & Hb & [= -> ->]). by apply (wf_p_keys _ R).
Qed.

Lemma packed_pos_key d t : f_packed source = true -> packed_rel refs source eg (used source) d ->
  arData t = d -> nInternalPointer t = nInternalPointer source ->
  pos_key t (nInternalPointer t) = pos_key source (nInternalPointer source).
Proof.
  intros Hp Hr Ed Ept. rewrite Ept. destruct dup_bounds as [Hu Hsz].
  destruct (wf_position _ (wf_data _ Hwf)) as [->|(i & b & -> & Hi & [Hb Hub])]; [done|].
  unfold pos_key. rewrite Nat2Z.id, Ed, Hb. specialize (Hr i b Hi Hb). unfold copied_at in Hr.
  pose proof (source_readable refs source eg Hcells Hrefs i b Hi Hb) as Hrd.
  destruct (dup_bucket refs source eg true b) as [b'|] eqn:E.
  - destruct Hr as [n ->]. destruct (dup_bucket_live refs source eg true b b' Hrd E) as (_ & E1 & E2 & _).
    destruct (_ =? _); [done|]. simpl. unfold bkey. simpl. by rewrite E1, E2.
  - exfalso. apply (dup_bucket_packed b); [unfold is_live; by rewrite Hub|done].
Qed.

Lemma dup_packed self : nNumUsed source <> 0 -> f_packed source = true ->
  exists target eg', zend_array_dup refs self false source eg = Ok (target, eg') /\
  duplicate self false target eg'.
Proof.
  intros Hz Hp. pose proof (wf_data _ Hwf) as Hd. destruct dup_bounds as [Hu Hsz].
  unfold zend_array_dup. destruct (Z.eqb_spec (nNumUsed source) 0); [done|]. rewrite Hp.
  set (t0 := HT_HASH_RESET_PACKED _).
  assert (Hpos : (0 < used source)%nat) by (pose proof (wf_used _ Hd); unfold used; lia).
  assert (L0 : Z.of_nat (length (arData t0)) = nTableSize source).
  { simpl. unfold malloc_buckets. rewrite length_replicate. lia. }
  assert (Hloop : exists d eg', (if HT_IS_WITHOUT_HOLES t0
      then zend_array_dup_packed_elements refs (S (used source)) source t0 0 false eg
      else zend_array_dup_packed_elements refs (S (used source)) source t0 0 true eg) = Ok (set_arData d t0, eg') /\
    length d = length (arData t0) /\ packed_rel refs source eg (used source) d /\
    eg_step (dup_events refs source eg true (take (used source) (arData source))) (cells eg) eg eg').
  { assert (H : forall h, (h = false -> HT_IS_WITHOUT_HOLES source = true) -> exists d eg',
      zend_array_dup_packed_elements refs (S (used source)) source t0 0 h eg = Ok (set_arData d t0, eg') /\
      length d = length (arData t0) /\ packed_rel refs source eg (used source) d /\
      eg_step (dup_events refs source eg true (take (used source) (arData source))) (cells eg) eg eg').
    { intros h Hh. apply (dup_packed_ok refs source eg Hwf Hcells Hrefs (S (used source)) t0 0 h eg Hp eq_refl);
        try lia; [|intros k b Hk; lia].
      intros -> k b Hk Hb. pose proof (without_holes_live source Hd (Hh eq_refl) b) as Hl.
      unfold is_live in Hl. apply negb_true_iff, Hl. apply list_elem_of_lookup. exists k.
      by rewrite lookup_take_lt. }
    change (HT_IS_WITHOUT_HOLES t0) with (HT_IS_WITHOUT_HOLES source).
    destruct (HT_IS_WITHOUT_HOLES source); by apply H. }
  destruct Hloop as (d & eg' & -> & L & R & S1). rsimp. set (t := set_arData d t0).
  assert (Ht : ht_wf t) by (apply packed_target_wf; [done|done|lia|done]).
  destruct (data_wf_len _ (wf_data _ Ht)) as [Hut Hmt].
  destruct (point_to_first_ok t Hmt Hut) as (p & E & Hpp & Hk); [apply Ht|apply Ht|].
  rewrite E. rsimp. do 2 eexists. split; [reflexivity|].
  split; unfold dup_elems, dup_all_events; destruct (Z.eqb_spec (nNumUsed source) 0); try done.
  - destruct Ht as [Htd Htp Htr]. split; [by destruct Htd; split|exact Htp|].
    change (is_hashed (set_nInternalPointer p t)) with (is_hashed t).
    destruct (is_hashed t); destruct Htr; by split.
  - rewrite Hp. change (elems (set_nInternalPointer p t)) with (elems_of d (used source)).
    rewrite contents_elems, (packed_contents d (used source)), kept_elems by (lia || done). done.
  - transitivity (pos_key t p); [done|]. rewrite Hk. f_equal. by apply (packed_pos_key d).
  - by rewrite Hp.
Qed.

Lemma kept_lookup p b b' : (p < used source)%nat -> arData source !! p = Some b ->
  dup_bucket refs source eg false b = Some b' ->
  kept refs source eg false (used source) !! length (kept refs source eg false p) = Some b'.
Proof.
  intros Hp Hb Ed.
  assert (H : forall m, exists l, kept refs source eg false (S p + m) = kept refs source eg false (S p) ++ l).
  { intros m. unfold kept. rewrite <- (take_drop (S p) (take (S p + m) (arData source))).
    rewrite take_take, Nat.min_l by lia. rewrite omap_app. by eexists. }
  destruct (H (used source - S p)%nat) as [l El].
  replace (S p + (used source - S p))%nat with (used source) in El by lia.
  rewrite El, (kept_S _ _ _ _ _ _ Hb), Ed, <- app_assoc. by rewrite lookup_app_r, Nat.sub_diag by lia.
Qed.

(** The pointer behind the loops. *)
Lemma hashed_pointer ht0 ht j : pointer_kept -> is_hashed source = true ->
  filled refs source eg ht0 (used source) j ht -> ptr_inv refs source eg (used source) (nInternalPointer ht) ->
  (nInternalPointer ht = HT_INVALID_IDX /\ pos_key source (nInternalPointer source) = None) \/
  exists i c, nInternalPointer ht = Z.of_nat i /\ (i < j)%nat /\ live (arData ht) i c /\
    pos_key source (nInternalPointer source) = Some (bkey c).
Proof.
  intros Hk Hh [Fc Fd Fl _ _ _] [Hi Hl]. apply andb_prop in Hh as [_ Hnp]. apply negb_true_iff in Hnp.
  destruct dup_bounds as [Hu Hsz]. pose proof (wf_data _ Hwf) as Hd.
  destruct (wf_position _ Hd) as [E|(p & b & E & Hp & Hb)]; [left; split; [by apply Hi|by rewrite E]|right].
  pose proof (Hk p b E Hb) as Hkb. rewrite Hnp in Hkb. rewrite (Hl p b E Hb Hkb), decide_True by done.
  destruct (dup_bucket refs source eg false b) as [b'|] eqn:Ed; [|done].
  pose proof (kept_lookup p b b' Hp (proj1 Hb) Ed) as Hlk. rewrite <- Fd in Hlk.
  assert (Hlt : (length (kept refs source eg false p) < j)%nat).
  { apply lookup_lt_Some in Hlk. by rewrite Fd, <- Fc in Hlk. }
  assert (Hjl : (j <= length (arData ht))%nat).
  { pose proof (kept_length refs source eg (used source)). lia. }
  assert (Hfull : length (contents (arData ht) j) = j) by congruence.
  destruct (contents_full _ _ Hjl Hfull _ Hlt) as [c Hc].
  rewrite (contents_full_lookup _ _ _ Hjl Hfull Hlt), (proj1 Hc) in Hlk. simpl in Hlk.
  exists (length (kept refs source eg false p)), c. do 3 (split; [done|]).
  rewrite E. rewrite (live_pos_key source p b) by (apply (data_wf_len _ Hd) || done). f_equal.
  pose proof (source_readable refs source eg Hcells Hrefs p b Hp (proj1 Hb)) as Hrd.
  destruct (dup_bucket_live refs source eg false b b' Hrd Ed) as (_ & E1 & E2 & _).
  injection Hlk as Hlk. unfold bkey. rewrite <- E1, <- E2, <- Hlk. done.
Qed.

Lemma static_no_addref : HT_HAS_STATIC_KEYS_ONLY source = true -> forall k b, (k < used source)%nat ->
  live (arData source) k b -> addref_key (b_key b) = [].
Proof.
  intros Hs k b Hk Hb. unfold addref_key, addref_events. destruct (b_key b) as [s|] eqn:E; [|done].
  by rewrite (wf_static _ (wf_data _ Hwf) Hs k b s Hk Hb E).
Qed.

Lemma hashed_loops ht0 : is_hashed source = true -> f_static_keys ht0 = f_static_keys source ->
  f_packed ht0 = false -> f_packed source = false -> filled refs source eg ht0 0 0 ht0 ->
  nInternalPointer ht0 = nInternalPointer source -> (0 < used source)%nat ->
  exists ht' j' eg',
    (if HT_HAS_STATIC_KEYS_ONLY ht0 then
       if HT_IS_WITHOUT_HOLES source then
         zend_array_dup_elements refs (S (used source)) source ht0 0 true false eg
       else zend_array_dup_elements refs (S (used source)) source ht0 0 true true eg
     else if HT_IS_WITHOUT_HOLES source then
       zend_array_dup_elements refs (S (used source)) source ht0 0 false false eg
     else zend_array_dup_elements refs (S (used source)) source ht0 0 false true eg) =
    Ok (ht', eg', Z.of_nat j') /\
    eg_step (dup_events refs source eg false (take (used source) (arData source))) (cells eg) eg eg' /\
    filled refs source eg ht0 (used source) j' ht' /\
    ptr_inv refs source eg (used source) (nInternalPointer ht').
Proof.
  intros Hh Est Ep Eps Hf Hptr Hu. pose proof (wf_data _ Hwf) as Hd.
  assert (Hs : HT_HAS_STATIC_KEYS_ONLY ht0 = HT_HAS_STATIC_KEYS_ONLY source)
    by (unfold HT_HAS_STATIC_KEYS_ONLY; by rewrite Est, Ep, Eps).
  assert (H : forall st h, (st = true -> HT_HAS_STATIC_KEYS_ONLY source = true) ->
    (h = false -> HT_IS_WITHOUT_HOLES source = true) -> exists ht' j' eg',
    zend_array_dup_elements refs (S (used source)) source ht0 0 st h eg = Ok (ht', eg', Z.of_nat j') /\
    eg_step (dup_events refs source eg false (take (used source) (arData source))) (cells eg) eg eg' /\
    filled refs source eg ht0 (used source) j' ht' /\
    ptr_inv refs source eg (used source) (nInternalPointer ht')).
  { intros st h Hst Hh'.
    apply (dup_elements_ok refs source eg Hwf Hcells Hrefs st h ht0) with (i := 0%nat) (ht := ht0);
      try done; try lia.
    - intros -> k b Hk Hb. pose proof (without_holes_live source Hd (Hh' eq_refl) b) as Hl.
      unfold is_live in Hl. apply negb_true_iff, Hl. apply list_elem_of_lookup. exists k.
      by rewrite lookup_take_lt.
    - intros Hs'. by apply static_no_addref, Hst. }
  rewrite Hs. destruct (HT_HAS_STATIC_KEYS_ONLY source), (HT_IS_WITHOUT_HOLES source); by apply H.
Qed.

Lemma hashed_start self : is_hashed source = true -> f_packed source = false ->
  filled refs source eg (HT_HASH_RESET (dup_alloc eg (dup_header self source false
    (f_initialized source) (f_static_keys source) 0))) 0 0
    (HT_HASH_RESET (dup_alloc eg (dup_header self source false (f_initialized source) (f_static_keys source) 0))).
Proof.
  intros Hh Hp. destruct dup_bounds as [Hu Hsz].
  pose proof (repr_mask _ Hwf) as Hm. rewrite Hh in Hm. set (t := dup_alloc _ _).
  assert (Hmt : mask_ok t (nTableSize source)).
  { destruct Hm as ((k & Hk & Ek) & Hmk & _). split; [by exists k|]. split; [done|].
    simpl. unfold malloc_hash. rewrite Hmk, Ek, HT_HASH_SIZE_pow2, length_replicate by done.
    pose proof (pow2_range k Hk). lia. }
  destruct (mask_ok_reset t _ Hmt) as [Hmr Ear]. split; try done.
  - simpl. unfold malloc_buckets. rewrite length_replicate. lia.
  - rewrite Ear. apply chains_ok_reset. lia.
  - exists (arHash (HT_HASH_RESET t)), (arData t), (nInternalPointer t). done.
Qed.

(** The target behind the loops. *)
Definition hashed_target (ht : HashTable) (idx : Z) : HashTable :=
  let target := set_nNumOfElements idx (set_nNumUsed idx ht) in
  if (0 <? idx) && (nInternalPointer target =? HT_INVALID_IDX)
  then set_nInternalPointer 0 target else target.

Lemma hashed_target_ok self ht j : nNumUsed source <> 0 -> is_hashed source = true ->
  f_packed source = false -> pointer_kept ->
  filled refs source eg (HT_HASH_RESET (dup_alloc eg (dup_header self source false
    (f_initialized source) (f_static_keys source) 0))) (used source) j ht ->
  ptr_inv refs source eg (used source) (nInternalPointer ht) ->
  ht_wf (hashed_target ht (Z.of_nat j)) /\
  elems (hashed_target ht (Z.of_nat j)) = omap (dup_entry refs source eg false) (elems source) /\
  pos_key (hashed_target ht (Z.of_nat j)) (nInternalPointer (hashed_target ht (Z.of_nat j))) =
    first_if_none (pos_key source (nInternalPointer source)) (elems (hashed_target ht (Z.of_nat j))).
Proof.
  intros Hz Hh Hp Hk Hf Hptr. pose proof (wf_data _ Hwf) as Hd. destruct dup_bounds as [Hu Hsz].
  pose proof (hashed_pointer _ ht j Hk Hh Hf Hptr) as Hpos. pose proof Hf as [Fc Fd Fl Fm Fch Ff].
  pose proof (kept_length refs source eg (used source)) as Hkl.
  assert (Hjl : (j <= length (arData ht))%nat) by lia.
  assert (Hfull : length (contents (arData ht) j) = j) by congruence.
  set (t := set_nNumOfElements (Z.of_nat j) (set_nNumUsed (Z.of_nat j) ht)).
  assert (Hus : used t = j) by (unfold used; simpl; lia).
  assert (Ht : exists p, hashed_target ht (Z.of_nat j) = set_nInternalPointer p t /\ position_ok t p /\
    pos_key t p = first_if_none (pos_key source (nInternalPointer source)) (elems t)).
  { unfold hashed_target. fold t. change (nInternalPointer t) with (nInternalPointer ht).
    assert (Hlive0 : (0 < j)%nat -> exists c, live (arData ht) 0 c) by (by apply contents_full).
    assert (Hml : Z.of_nat (length (arData t)) <= HT_MAX_SIZE) by (simpl; lia).
    destruct Hpos as [[E En]|(i & c & E & Hi & Hc & Ek)].
    - rewrite E, Z.eqb_refl, andb_true_r, En. unfold elems. rewrite contents_elems.
      change (Z.to_nat (nNumUsed t)) with (used t). rewrite Hus. change (arData t) with (arData ht).
      destruct (Z.ltb_spec 0 (Z.of_nat j)) as [Hj|Hj].
      + destruct (Hlive0 ltac:(lia)) as [c Hc]. exists 0. split; [done|]. split.
        * right. exists 0%nat, c. rewrite Hus. split_and!; [done|lia|exact Hc].
        * change 0 with (Z.of_nat 0). rewrite (live_pos_key t 0 c Hml Hc).
          rewrite (contents_split (arData ht) j 0 c Hc) by lia. done.
      + exists HT_INVALID_IDX. split; [by rewrite <- E; destruct ht|]. split; [by left|].
        replace j with 0%nat by lia. done.
    - rewrite E. destruct (Z.eqb_spec (Z.of_nat i) HT_INVALID_IDX) as [E'|_].
      { unfold HT_INVALID_IDX, HT_MAX_SIZE in *. lia. }
      rewrite andb_false_r. exists (Z.of_nat i). split; [by rewrite <- E; destruct ht|]. split.
      + right. exists i, c. rewrite Hus. by split.
      + by rewrite (live_pos_key t i c Hml Hc), Ek. }
  destruct Ht as (p & -> & Hpp & Hpk). destruct Ff as (hs & d & q & Ff).
  assert (Hin : f_initialized t = true) by (unfold t; rewrite Ff; by apply initialized_used).
  assert (Hnp : f_packed t = false) by (unfold t; by rewrite Ff).
  assert (Hts : nTableSize t = nTableSize source) by (unfold t; by rewrite Ff).
  split_and!.
  - split; [|intros _; exact Hin|].
    + apply (data_wf_sub source); try done; simpl.
      * change (nTableSize ht) with (nTableSize t). rewrite Hts. apply Hd.
      * change (nTableSize ht) with (nTableSize t). rewrite Hts. lia.
      * change (f_initialized ht) with (f_initialized t). by rewrite Hin, Fl, <- Hts.
      * change (f_initialized ht) with (f_initialized t). by rewrite Hin.
      * change (used (set_nInternalPointer p t)) with (used t). rewrite Hus, Fd. apply kept_sublist. lia.
      * change (used (set_nInternalPointer p t)) with (used t). by rewrite Hus, Hfull.
      * by rewrite Ff.
      * unfold HT_HAS_STATIC_KEYS_ONLY. simpl. rewrite Ff. simpl. by rewrite Hp.
    + change (is_hashed (set_nInternalPointer p t)) with (is_hashed t).
      unfold is_hashed. rewrite Hin, Hnp. simpl. pose proof (repr_mask _ Hwf) as Hms. rewrite Hh in Hms.
      destruct Fm as (_ & Fmk & Flen). split; simpl.
      * change (nTableSize ht) with (nTableSize t). by rewrite Hts.
      * change (nTableSize ht) with (nTableSize t). by rewrite Hts.
      * change (nTableSize ht) with (nTableSize t). change (used (set_nInternalPointer p t)) with (used t).
        by rewrite Hts, Hus.
  - change (elems (set_nInternalPointer p t)) with (elems_of (arData ht) (used t)).
    rewrite contents_elems, Hus, Fd, kept_elems by lia. done.
  - exact Hpk.
Qed.

Lemma dup_hashed self : nNumUsed source <> 0 -> f_packed source = false -> pointer_kept ->
  exists target eg', zend_array_dup refs self false source eg = Ok (target, eg') /\
  duplicate self false target eg'.
Proof.
  intros Hz Hp Hk. pose proof (wf_data _ Hwf) as Hd.
  assert (Hh : is_hashed source = true) by (rewrite packed_is_not_hashed, Hp by done; done).
  unfold zend_array_dup. destruct (Z.eqb_spec (nNumUsed source) 0); [done|]. rewrite Hp.
  set (t0 := HT_HASH_RESET _). assert (Hpos : (0 < used source)%nat)
    by (pose proof (wf_used _ Hd); unfold used; lia).
  destruct (hashed_loops t0 Hh eq_refl eq_refl Hp (hashed_start self Hh Hp) eq_refl Hpos)
    as (ht & j & eg' & -> & Hs & Hf & Hptr). rsimp.
  destruct (hashed_target_ok self ht j Hz Hh Hp Hk Hf Hptr) as (Hw & He & Hpk).
  exists (hashed_target ht (Z.of_nat j)), eg'. split; [done|].
  assert (Hfr : exists hs d p, hashed_target ht (Z.of_nat j) = set_nInternalPointer p
    (set_nNumOfElements (Z.of_nat j) (set_nNumUsed (Z.of_nat j) (set_arHash hs (set_arData d t0))))).
  { destruct (fi_frame _ _ _ _ _ _ _ Hf) as (hs & d & p & ->). unfold hashed_target.
    destruct (_ && _); [exists hs, d, 0|exists hs, d, p]; reflexivity. }
  destruct Hfr as (hs & d & p & Hfr).
  split; unfold dup_elems, dup_all_events; rewrite ?Hp; destruct (Z.eqb_spec (nNumUsed source) 0); try done.
  - by rewrite Hfr.
  - by rewrite Hfr.
Qed.
End Duplicate.

(** *** Properties *)

(** C29: [zend_array_dup] gives a fresh well-formed table with the source's entries in
    order: a packed table keeps its indices and holes, a hashed one is compacted and
    re-chained; indirect entries are replaced by their cells and left out when these are
    empty, and a reference held by the array alone by its value.  Each copied value and
    key gains one reference; nothing else of the executor changes, and an immutable array is
    copied as it is.  The internal pointer stays on its element, or goes to the first one. *)
Theorem array_dup_correct (refs : reference_heap) (self : addr) (immutable : bool) (source : HashTable)
    (eg : EG) :
  ht_wf source -> cells_ok source eg -> refs_ok refs source eg ->
  immutable = true \/ pointer_kept refs source eg ->
  exists target eg', zend_array_dup refs self immutable source eg = Ok (target, eg') /\
  duplicate refs source eg self immutable target eg'.
Proof.
  intros Hwf Hc Hr Hk. destruct (Z.eq_dec (nNumUsed source) 0) as [Hz|Hz].
  - destruct (dup_empty refs source eg Hwf self immutable Hz) as (t & E & Hd). by exists t, eg.
  - destruct immutable.
    + destruct (dup_immutable refs source eg Hwf self Hz) as (t & E & Hd). by exists t, eg.
    + destruct Hk as [?|Hk]; [done|]. destruct (f_packed source) eqn:Hp.
      * by apply dup_packed.
      * by apply dup_hashed.
Qed.

Lemma array_dup_correct_witness : exists target eg',
  zend_array_dup ∅ 9%positive false sample_hash sample_eg = Ok (target, eg') /\ ht_wf target /\
  elems target = [(KStr ["a"%byte], IS_LONG 1); (KInt 7, IS_LONG 50);
                  (KStr ["a"; "b"]%byte, IS_TRUE)] /\
  nNumUsed target = 3 /\
  events eg' = [EvAddref (counted_key ["a"; "b"]%byte); EvAddref (counted_key ["a"%byte])].
Proof.
  assert (Hr : refs_ok ∅ sample_hash sample_eg).
  { intros k v Hin.
    assert (El : elems sample_hash = [(KStr ["a"%byte], IS_LONG 1); (KInt 7, IS_INDIRECT 5%positive);
      (KStr ["a"; "b"]%byte, IS_TRUE)]) by (vm_compute; reflexivity).
    rewrite El, !elem_of_cons, elem_of_nil in Hin. clear El.
    destruct Hin as [[= -> ->]|[[= -> ->]|[[= -> ->]|[]]]];
      (split; [intros r E; discriminate E|intros a w [= <-] E; vm_compute in E; injection E as <-];
       try (intros r E'; discriminate E')). }
  assert (Hk : pointer_kept ∅ sample_hash sample_eg).
  { intros p b Ep Hb. change (nInternalPointer sample_hash) with (Z.of_nat 0) in Ep.
    apply Nat2Z.inj in Ep as <-. destruct Hb as [Hb _]. vm_compute in Hb. injection Hb as <-.
    vm_compute. discriminate. }
  destruct (array_dup_correct ∅ 9%positive false sample_hash sample_eg sample_hash_wf
    ltac:(apply cells_okb_sound; vm_compute; reflexivity) Hr (or_intror Hk)) as (t & eg' & E & H).
  exists t, eg'. split; [exact E|]. split; [apply H|].
  rewrite (du_elems _ _ _ _ _ _ _ H), (es_events _ _ _ _ (du_step _ _ _ _ _ _ _ H)).
  split; [vm_compute; reflexivity|]. split; [|vm_compute; reflexivity].
  vm_compute in E. injection E as <- _. reflexivity.
Defined.

(** Without [pointer_kept] the duplicate's internal pointer can point behind its used
    buckets; and a duplicate starts with the source's count of iterators. *)
Example dup_pointer_escapes : exists target eg',
  let source := set_nIteratorsCount 1 (set_nInternalPointer 2 sample_hash) in
  zend_array_dup ∅ 9%positive false source (set_cell sample_eg 5%positive IS_UNDEF) = Ok (target, eg') /\
  nInternalPointer target = 2 /\ nNumUsed target = 2 /\ nIteratorsCount target = 1.
Proof. do 2 eexists. split; [vm_compute; reflexivity|]. vm_compute. auto. Qed.
