(* ===== verification/HashMerge.v ===== *)
(** * The ordered hash table: copying one table into another
    ([zend_hash_copy], [_zend_hash_merge], [zend_hash_merge_ex])

    The source and the target are different tables, so the source's buckets
    stay what they are while the target changes. *)
From Stdlib Require Import Strings.Byte.
From S2P Require Export HashDup.

(** ** Operations *)

(** [if (pCopyConstructor) pCopyConstructor(t);]: the constructor rewrites the
    entry. *)
Definition copy_constructor := option (zval -> EG -> zval * EG).

Definition call_copy_constructor (pCopyConstructor : copy_constructor) (ht : HashTable)
    (t : zval_ptr) (eg : EG) : res (HashTable * EG) :=
  match pCopyConstructor with
  | None => Ok (ht, eg)
  | Some f =>
      let! v := read_zval ht eg t in
      let (v, eg) := f v eg in
      write_zval ht eg t v
  end.

(** One element of [zend_hash_copy]; [new_entry] is used without a test. *)
Definition copy_element (pCopyConstructor : copy_constructor) (setTargetPointer : bool)
    (source target : HashTable) (idx : Z) (p : Bucket) (eg : EG) : res (HashTable * EG) :=
  if is_undef (b_val p) then Ok (target, eg)
  else
    let target := if setTargetPointer && (nInternalPointer source =? idx)
                  then set_nInternalPointer HT_INVALID_IDX target else target in
    let! data := match b_val p with
                 | IS_INDIRECT a => get_cell eg a
                 | v => Ok v
                 end in
    if is_undef data then Ok (target, eg)
    else
      let! (target, eg, new_entry) :=
        match b_key p with
        | Some key => _zend_hash_update target key data eg
        | None => _zend_hash_index_update target (b_h p) data eg
        end in
      match new_entry with
      | Some t => call_copy_constructor pCopyConstructor target t eg
      | None => match pCopyConstructor with None => Ok (target, eg) | Some _ => Err OutOfBounds end
      end.

(** The loops over the source's buckets, with a body [f]. *)
Fixpoint for_each_bucket (f : Z -> Bucket -> HashTable -> EG -> res (HashTable * EG))
    (l : list Bucket) (idx : Z) (target : HashTable) (eg : EG) {struct l} : res (HashTable * EG) :=
  match l with
  | [] => Ok (target, eg)
  | p :: l =>
      let! (target, eg) := f idx p target eg in
      for_each_bucket f l (idx + 1) target eg
  end.

Definition zend_hash_copy (target source : HashTable) (pCopyConstructor : copy_constructor) (eg : EG)
    : res (HashTable * EG) :=
  let setTargetPointer := nInternalPointer target =? HT_INVALID_IDX in
  let! l := used_buckets source in
  let! (target, eg) := for_each_bucket
    (fun idx p target eg => copy_element pCopyConstructor setTargetPointer source target idx p eg)
    l 0 target eg in
  let! target := point_to_first target in
  Ok (target, eg).

(** One element of [_zend_hash_merge]. *)
Definition merge_element (pCopyConstructor : copy_constructor) (overwrite : bool)
    (p : Bucket) (target : HashTable) (eg : EG) : res (HashTable * EG) :=
  if is_undef (b_val p) then Ok (target, eg)
  else
    let! empty := undef_indirect eg (b_val p) in
    if empty then Ok (target, eg)
    else
      let! (target, eg, t) :=
        match b_key p with
        | Some key =>
            _zend_hash_add_or_update_i target key (b_val p)
              (if overwrite then Z.lor HASH_UPDATE HASH_UPDATE_INDIRECT
               else Z.lor HASH_ADD HASH_UPDATE_INDIRECT) eg
        | None =>
            if overwrite then _zend_hash_index_update target (b_h p) (b_val p) eg
            else _zend_hash_index_add target (b_h p) (b_val p) eg
        end in
      match t with
      | Some t => call_copy_constructor pCopyConstructor target t eg
      | None => Ok (target, eg)
      end.

(** [if (target->nNumOfElements > 0)] the pointer goes to the first element. *)
Definition rewind (ht : HashTable) : res HashTable :=
  if 0 <? nNumOfElements ht then
    let! idx := skip_undef (S (length (arData ht))) ht 0 in
    Ok (set_nInternalPointer idx ht)
  else Ok ht.

Definition _zend_hash_merge (target source : HashTable) (pCopyConstructor : copy_constructor)
    (overwrite : bool) (eg : EG) : res (HashTable * EG) :=
  let! l := used_buckets source in
  let! (target, eg) := for_each_bucket
    (fun _ p target eg => merge_element pCopyConstructor overwrite p target eg) l 0 target eg in
  let! target := rewind target in
  Ok (target, eg).

(** The merge checker reads the target, the value and the key; [pParam] is its
    environment.  An accepted element must have a string key. *)
Definition zend_hash_replace_checker_wrapper (target : HashTable) (source_data : zval) (p : Bucket)
    (merge_checker_func : HashTable -> zval -> Z * option zend_string -> bool) : bool :=
  merge_checker_func target source_data (b_h p, b_key p).

Definition merge_ex_element (pCopyConstructor : copy_constructor)
    (pMergeSource : HashTable -> zval -> Z * option zend_string -> bool)
    (p : Bucket) (target : HashTable) (eg : EG) : res (HashTable * EG) :=
  if is_undef (b_val p) then Ok (target, eg)
  else if zend_hash_replace_checker_wrapper target (b_val p) p pMergeSource then
    match b_key p with
    | None => Err OutOfBounds
    | Some key =>
        let! (target, eg, t) := _zend_hash_update target key (b_val p) eg in
        match t with
        | Some t => call_copy_constructor pCopyConstructor target t eg
        | None => Ok (target, eg)
        end
    end
  else Ok (target, eg).

Definition zend_hash_merge_ex (target source : HashTable) (pCopyConstructor : copy_constructor)
    (pMergeSource : HashTable -> zval -> Z * option zend_string -> bool) (eg : EG)
    : res (HashTable * EG) :=
  let! l := used_buckets source in
  let! (target, eg) := for_each_bucket
    (fun _ p target eg => merge_ex_element pCopyConstructor pMergeSource p target eg) l 0 target eg in
  let! target := rewind target in
  Ok (target, eg).

(** ** Specification: a fold of [spec_put] over the source's entries *)

(** The constructor as a function of the value. *)
Definition constructs (pCopyConstructor : copy_constructor) (cv : zval -> zval) : Prop :=
  (forall v, is_undef v = false -> is_undef (cv v) = false) /\
  (forall v a, cv v = IS_INDIRECT a -> v = IS_INDIRECT a) /\
  match pCopyConstructor with
  | None => forall v, cv v = v
  | Some f => forall v eg, fst (f v eg) = cv v /\ cells (snd (f v eg)) = cells eg
  end.

Abbreviation cell_map := (gmap addr zval).

(** What one entry asks for: the key, the value, and the flags for string and
    for integer keys. *)
Definition put_one (cv : zval -> zval) (flag : Z) (k : hkey) (v : zval) (st : alist * cell_map)
    : alist * cell_map :=
  fst (spec_put flag k (cv v) (fst st) (snd st)).

Definition spec_copy_one (cv : zval -> zval) (st : alist * cell_map) (e : hkey * zval) : alist * cell_map :=
  let data := match snd e with
              | IS_INDIRECT a => default IS_UNDEF (snd st !! a)
              | v => v
              end in
  if is_undef data then st else put_one cv HASH_UPDATE (fst e) data st.

Definition merge_flag (overwrite : bool) (k : hkey) : Z :=
  match k with
  | KStr _ => if overwrite then Z.lor HASH_UPDATE HASH_UPDATE_INDIRECT
              else Z.lor HASH_ADD HASH_UPDATE_INDIRECT
  | KInt _ => if overwrite then HASH_UPDATE else HASH_ADD
  end.

Definition spec_merge_one (cv : zval -> zval) (overwrite : bool) (st : alist * cell_map) (e : hkey * zval)
    : alist * cell_map :=
  let empty := match snd e with
               | IS_INDIRECT a => is_undef (default IS_UNDEF (snd st !! a))
               | _ => false
               end in
  if empty then st else put_one cv (merge_flag overwrite (fst e)) (fst e) (snd e) st.

(** ** Constructing the entry behind a returned pointer *)
Lemma al_update_update k v w l : al_update k w (al_update k v l) = al_update k w l.
Proof.
  induction l as [|[k' u] l IH]; simpl; [by rewrite decide_True|].
  case_decide; simpl; [by subst; rewrite decide_True|]. rewrite decide_False by done. by rewrite IH.
Qed.

Lemma al_update_same k v l : al_find k l = Some v -> al_update k v l = l.
Proof.
  induction l as [|[k' u] l IH]; simpl; [done|]. case_decide; [intros [= ->]; by subst|].
  intros Hf. by rewrite IH.
Qed.

(** Writing [v] at a location. *)
Definition put_at (loc : hkey + addr) (v : zval) (st : alist * cell_map) : alist * cell_map :=
  match loc with
  | inl k => (al_update k v (fst st), snd st)
  | inr a => (fst st, <[a := v]> (snd st))
  end.

Lemma spec_put_wrote flag k v w l c : snd (spec_put flag k v l c) = snd (spec_put flag k w l c).
Proof.
  unfold spec_put. destruct (al_find k l) as [u|]; [|done].
  destruct u; repeat (match goal with |- context [if ?b then _ else _] => destruct b end); done.
Qed.

Lemma spec_put_again flag k v w l c : snd (spec_put flag k v l c) = true ->
  put_at (spec_loc flag k l) w (fst (spec_put flag k v l c)) = fst (spec_put flag k w l c).
Proof.
  unfold spec_put, spec_loc. destruct (al_find k l) as [u|]; simpl; [|intros _; by rewrite al_update_update].
  destruct u; repeat (match goal with |- context [if ?b then _ else _] => destruct b end); simpl; try done;
    intros _; by rewrite ?al_update_update, ?insert_insert_eq.
Qed.

Lemma spec_put_refused flag k v l c : snd (spec_put flag k v l c) = false ->
  fst (spec_put flag k v l c) = (l, c).
Proof.
  unfold spec_put. destruct (al_find k l) as [u|]; simpl; [|done].
  destruct u; repeat (match goal with |- context [if ?b then _ else _] => destruct b end); done.
Qed.

Section Constructor.
Context (pcc : copy_constructor) (cv : zval -> zval) (Hcc : constructs pcc cv).

Lemma constructor_ok ht0 eg0 loc l c ev v ht eg t :
  put_result ht0 eg0 loc l c ev (Some v) ht eg (Some t) -> is_undef v = false ->
  exists ht' eg', call_copy_constructor pcc ht t eg = Ok (ht', eg') /\ ht_wf ht' /\
    same_table ht0 ht' /\ (elems ht', cells eg') = put_at loc (cv v) (l, c).
Proof.
  intros [Hwf He Hs [_ _ Hc _ _] Hr Hl] Hv. destruct Hcc as (Hlive & _ & Hf).
  destruct t as [i|a]; destruct loc as [k|a']; simpl in Hl; try done.
  - destruct Hl as (n & b & -> & Hn & Hb & Hk). simpl in Hr. rewrite Nat2Z.id, (proj1 Hb) in Hr.
    simpl in Hr. injection Hr as Hr.
    unfold call_copy_constructor. destruct pcc as [f|].
    + rewrite (read_bucket ht eg n b Hb). rsimp. destruct (f (b_val b) eg) as [w eg1] eqn:Ef.
      destruct (Hf (b_val b) eg) as [Hw Hc1]. rewrite Ef in Hw, Hc1. simpl in Hw, Hc1. subst w.
      rewrite Hr. assert (Hvw : is_undef (cv v) = false) by (by apply Hlive).
      rewrite (write_bucket ht eg1 n b (cv v) Hb).
      destruct (replace_wf ht n b (cv v) Hwf Hn Hb Hvw) as (W & E & _).
      do 2 eexists. split; [done|]. split; [done|]. split.
      * etransitivity; [exact Hs|]. by split.
      * rewrite E, He, Hk. simpl. congruence.
    + do 2 eexists. split; [done|]. split; [done|]. split; [done|]. rewrite Hf. simpl.
      rewrite al_update_same; [congruence|]. rewrite <- He, <- Hk, <- Hr.
      apply (elems_of_find _ _ n b); [apply Hwf|done|done].
  - subst a'. simpl in Hr. unfold call_copy_constructor. destruct pcc as [f|].
    + simpl. unfold get_cell. rewrite Hr. rsimp. destruct (f v eg) as [w eg1] eqn:Ef.
      destruct (Hf v eg) as [Hw Hc1]. rewrite Ef in Hw, Hc1. simpl in Hw, Hc1. subst w.
      do 2 eexists. split; [done|]. split; [done|]. split; [done|]. simpl. rewrite He, Hc1. congruence.
    + do 2 eexists. split; [done|]. split; [done|]. split; [done|]. rewrite Hf. simpl.
      rewrite He. f_equal. rewrite <- Hc. symmetry. by apply insert_id.
Qed.

(** A put, then the constructor. *)
Lemma put_construct ht eg flag k v evs loc m :
  (exists ht' eg' r, m = Ok (ht', eg', r) /\
   let '(l', c', wrote) := spec_put flag k v (elems ht) (cells eg) in
   put_result ht eg loc l' c' (evs wrote) (if wrote then Some v else None) ht' eg' r /\
   (wrote = false -> r = None)) ->
  loc = spec_loc flag k (elems ht) -> is_undef v = false ->
  exists ht' eg' r, m = Ok (ht', eg', r) /\
  match r with
  | Some t => snd (spec_put flag k v (elems ht) (cells eg)) = true /\
      exists ht'' eg'', call_copy_constructor pcc ht' t eg' = Ok (ht'', eg'') /\ ht_wf ht'' /\
      same_table ht ht'' /\ (elems ht'', cells eg'') = put_one cv flag k v (elems ht, cells eg)
  | None => snd (spec_put flag k v (elems ht) (cells eg)) = false /\ ht_wf ht' /\ same_table ht ht' /\
      (elems ht', cells eg') = put_one cv flag k v (elems ht, cells eg)
  end.
Proof.
  intros (ht' & eg' & r & -> & Hp) -> Hv. exists ht', eg', r. split; [done|].
  pose proof (spec_put_again flag k v (cv v) (elems ht) (cells eg)) as Hag.
  pose proof (spec_put_refused flag k (cv v) (elems ht) (cells eg)) as Href.
  pose proof (spec_put_wrote flag k v (cv v) (elems ht) (cells eg)) as Hwr.
  pose proof (spec_put_refused flag k v (elems ht) (cells eg)) as Href'.
  unfold put_one. cbn [fst snd] in *.
  destruct (spec_put flag k v (elems ht) (cells eg)) as [[l' c'] wrote]. cbn [fst snd] in *.
  destruct Hp as [Hp Hnone]. destruct wrote.
  - destruct r as [t|]; [|by pose proof (pr_ret _ _ _ _ _ _ _ _ _ _ Hp)]. split; [done|].
    destruct (constructor_ok _ _ _ _ _ _ v _ _ t Hp Hv) as (ht'' & eg'' & E & W & S & El).
    exists ht'', eg''. split_and!; [done|done|done|]. by rewrite El, Hag.
  - destruct r as [t|].
    { by specialize (Hnone eq_refl). }
    split; [done|]. destruct Hp as [Hwf He Hs [_ _ Hc _ _] _ _]. split; [done|]. split; [done|].
    rewrite Href by congruence. specialize (Href' eq_refl). congruence.
Qed.
End Constructor.

(** ** One element *)

(** Cells of the indirect entries. *)
Definition cells_ok_l (l : alist) (c : cell_map) : Prop :=
  forall k a, (k, IS_INDIRECT a) ∈ l -> is_Some (c !! a).

Definition cells_grow (c c' : cell_map) : Prop := forall a, is_Some (c !! a) -> is_Some (c' !! a).

#[export] Instance cells_grow_preorder : PreOrder cells_grow.
Proof. split; [by intros c a|]. intros c1 c2 c3 H1 H2 a H. auto. Qed.

Lemma al_update_in k v l k' v' : (k', v') ∈ al_update k v l -> (k', v') = (k, v) \/ (k', v') ∈ l.
Proof.
  induction l as [|[k1 u] l IH]; simpl; [set_solver|]. case_decide; subst.
  - rewrite !elem_of_cons. intros [?|?]; [by left|by right; right].
  - rewrite !elem_of_cons. intros [?|?]; [by right; left|]. destruct IH; [done|by left|by right; right].
Qed.

Lemma put_one_cells cv flag k v l c :
  (forall a, cv v = IS_INDIRECT a -> is_Some (c !! a)) -> cells_ok_l l c ->
  cells_ok_l (fst (put_one cv flag k v (l, c))) (snd (put_one cv flag k v (l, c))) /\
  cells_grow c (snd (put_one cv flag k v (l, c))).
Proof.
  intros Hv Hl. unfold put_one. cbn [fst snd].
  assert (Hupd : cells_ok_l (al_update k (cv v) l) c).
  { intros k' a Hin. apply al_update_in in Hin as [[= <- E]|Hin]; [by apply Hv|by eapply Hl]. }
  assert (Hins : forall a, cells_ok_l l (<[a := cv v]> c) /\ cells_grow c (<[a := cv v]> c)).
  { intros a. assert (Hg : cells_grow c (<[a := cv v]> c)).
    { intros a' Ha. destruct (decide (a = a')) as [<-|]; [by rewrite lookup_insert_eq|].
      by rewrite lookup_insert_ne. }
    split; [|done]. intros k' a' Hin. by apply Hg, (Hl k'). }
  unfold spec_put. destruct (al_find k l) as [u|]; [|by split].
  destruct u; repeat (match goal with |- context [if ?b then _ else _] => destruct b end); simpl;
    try (by split); apply Hins.
Qed.

Lemma spec_index_as_put flag h v l c : has_flag flag HASH_UPDATE_INDIRECT = false ->
  spec_put flag (KInt h) v l c = (fst (spec_index_put flag h v l), c, snd (spec_index_put flag h v l)) /\
  spec_loc flag (KInt h) l = inl (KInt h).
Proof.
  intros Hf. unfold spec_put, spec_index_put, spec_loc. rewrite Hf.
  destruct (al_find (KInt h) l) as [u|]; [|done]. destruct u; by destruct (has_flag flag HASH_ADD).
Qed.

(** What a correct step of a loop gives: the fatal error of a table of maximal
    size, or the specified entries and cells. *)
Definition step_correct (ht : HashTable) (eg : EG) (st : alist * cell_map)
    (m : res (HashTable * EG)) : Prop :=
  (nTableSize ht = HT_MAX_SIZE /\ m = Err Fatal) \/
  exists ht' eg', m = Ok (ht', eg') /\ ht_wf ht' /\ same_table ht ht' /\ (elems ht', cells eg') = st /\
    cells_ok_l (elems ht') (cells eg') /\ cells_grow (cells eg) (cells eg').

Section Element.
Context (pcc : copy_constructor) (cv : zval -> zval) (Hcc : constructs pcc cv).

(** The put of a string or an integer key, as the elements of the loops do it. *)
Definition put_key (flag : Z) (target : HashTable) (p : Bucket) (v : zval) (eg : EG) :=
  match b_key p with
  | Some key => _zend_hash_add_or_update_i target key v flag eg
  | None => _zend_hash_index_add_or_update_i target (b_h p) v flag eg
  end.

Definition plain_flag (flag : Z) : Prop :=
  has_flag flag HASH_ADD_NEW = false /\ appends_next flag = false.

Lemma put_key_ok flag ht p v eg : ht_wf ht -> cells_ok ht eg -> bucket_ok p -> is_undef v = false ->
  plain_flag flag -> (b_key p = None -> has_flag flag HASH_UPDATE_INDIRECT = false) ->
  (nTableSize ht = HT_MAX_SIZE /\ put_key flag ht p v eg = Err Fatal) \/
  exists evs ht' eg' r, put_key flag ht p v eg = Ok (ht', eg', r) /\
   let '(l', c', wrote) := spec_put flag (bkey p) v (elems ht) (cells eg) in
   put_result ht eg (spec_loc flag (bkey p) (elems ht)) l' c' (evs wrote)
     (if wrote then Some v else None) ht' eg' r /\ (wrote = false -> r = None).
Proof.
  intros Hwf Hc [Hh Hk] Hv [Hn Ha] Hind. unfold put_key, bkey. destruct (b_key p) as [key|].
  - destruct Hk as [Hk Hhk].
    destruct (add_or_update_ok ht key v flag eg Hwf Hk Hv Hc) as [[[? _] [_ E]]|(ht' & eg' & r & E & H)];
      [by rewrite Hn|by left|right].
    exists (str_put_events ht key flag eg), ht', eg', r. split; [done|].
    destruct (spec_put flag _ v (elems ht) (cells eg)) as [[l' c'] wrote]. destruct H as (H & _ & H').
    split; [done|]. intros Hw. by apply H'.
  - destruct (index_add_or_update_ok ht (b_h p) v flag eg Hwf Hh Hv) as [[? [_ E]]|(ht' & eg' & r & E & H)];
      [by rewrite Hn|by rewrite Ha|by left|right].
    destruct (spec_index_as_put flag (b_h p) v (elems ht) (cells eg) (Hind eq_refl)) as [Es El].
    exists (index_put_events ht (b_h p)), ht', eg', r. split; [done|]. rewrite Es, El.
    destruct (spec_index_put flag (b_h p) v (elems ht)) as [l' wrote]. destruct H as (H & _ & _ & H').
    split; [done|]. intros Hw. by apply H'.
Qed.

(** The put and the constructor; [lenient] loops test the pointer first. *)
Lemma put_element_ok flag ht p v eg (none : HashTable -> EG -> res (HashTable * EG)) :
  ht_wf ht -> cells_ok ht eg -> bucket_ok p -> is_undef v = false -> plain_flag flag ->
  (b_key p = None -> has_flag flag HASH_UPDATE_INDIRECT = false) ->
  (forall a, v = IS_INDIRECT a -> is_Some (cells eg !! a)) ->
  (snd (spec_put flag (bkey p) v (elems ht) (cells eg)) = false -> forall ht eg, none ht eg = Ok (ht, eg)) ->
  step_correct ht eg (put_one cv flag (bkey p) v (elems ht, cells eg))
    (let! (target, eg, t) := put_key flag ht p v eg in
     match t with
     | Some t => call_copy_constructor pcc target t eg
     | None => none target eg
     end).
Proof.
  intros Hwf Hc Hb Hv Hf Hi Ha Hnone.
  destruct (put_key_ok flag ht p v eg Hwf Hc Hb Hv Hf Hi) as [[? ->]|(evs & H)]; [by left|right].
  assert (Hcl : cells_ok_l (elems ht) (cells eg)) by exact Hc.
  destruct (put_construct pcc cv Hcc ht eg flag (bkey p) v evs _ _ H eq_refl Hv)
    as (ht1 & eg1 & r & -> & Hr). rsimp.
  destruct (put_one_cells cv flag (bkey p) v (elems ht) (cells eg)) as [Hc1 Hc2]; [|done|].
  { intros a E. apply Ha. by apply (proj1 (proj2 Hcc)). }
  destruct r as [t|].
  - destruct Hr as (_ & ht2 & eg2 & -> & W & S & E). exists ht2, eg2. rewrite <- E in Hc1, Hc2. by split_and!.
  - destruct Hr as (Hw & W & S & E). rewrite (Hnone Hw). exists ht1, eg1. rewrite <- E in Hc1, Hc2. by split_and!.
Qed.
End Element.

(** ** The loops *)

(** The outcome of a whole loop over [l]: the fold of the specification, or the
    fatal error at an element, from a table of maximal size. *)
Definition loop_correct (spec : alist * cell_map -> hkey * zval -> alist * cell_map) (l : list Bucket)
    (ht : HashTable) (eg : EG) (m : res (HashTable * EG)) : Prop :=
  (m = Err Fatal /\ exists l1 b l2 ht1 eg1, l = l1 ++ b :: l2 /\ ht_wf ht1 /\
     (elems ht1, cells eg1) = fold_left spec (omap bucket_elem l1) (elems ht, cells eg) /\
     nTableSize ht1 = HT_MAX_SIZE) \/
  exists ht' eg', m = Ok (ht', eg') /\ ht_wf ht' /\ same_table ht ht' /\
    (elems ht', cells eg') = fold_left spec (omap bucket_elem l) (elems ht, cells eg) /\
    cells_grow (cells eg) (cells eg').

Lemma for_each_ok (f : Z -> Bucket -> HashTable -> EG -> res (HashTable * EG)) spec (P : cell_map -> Prop) l :
  (forall st e c', P (snd st) -> cells_grow (snd st) c' -> snd (spec st e) = c' -> P c') ->
  (forall b ht eg idx, b ∈ l -> is_live b = false -> f idx b ht eg = Ok (ht, eg)) ->
  (forall b ht eg idx, b ∈ l -> is_live b = true -> ht_wf ht -> cells_ok ht eg ->
     P (cells eg) ->
     step_correct ht eg (spec (elems ht, cells eg) (bkey b, b_val b)) (f idx b ht eg)) ->
  forall ht eg idx, ht_wf ht -> cells_ok ht eg -> P (cells eg) ->
  loop_correct spec l ht eg (for_each_bucket f l idx ht eg).
Proof.
  intros Hpres. induction l as [|b l IH]; intros Hdead Hlive ht eg idx Hwf Hc Hg.
  { right. exists ht, eg. by split_and!. }
  assert (IH' := IH (fun b' ht eg i H => Hdead b' ht eg i (list_elem_of_further _ _ _ H))
                    (fun b' ht eg i H => Hlive b' ht eg i (list_elem_of_further _ _ _ H))). clear IH.
  cbn [for_each_bucket]. destruct (is_live b) eqn:El.
  - destruct (Hlive b ht eg idx (list_elem_of_here _ _) El Hwf Hc Hg)
      as [[Hm ->]|(ht1 & eg1 & -> & W & S & E & Hc1 & Hg1)]; rsimp.
    + left. split; [done|]. exists [], b, l, ht, eg. by split_and!.
    + assert (Hel : bucket_elem b = Some (bkey b, b_val b)).
      { unfold bucket_elem. unfold is_live in El. apply negb_true_iff in El. by rewrite El. }
      assert (Hfold : forall l', fold_left spec (omap bucket_elem (b :: l')) (elems ht, cells eg) =
        fold_left spec (omap bucket_elem l') (elems ht1, cells eg1)).
      { intros l'. cbn. rewrite Hel. cbn. by rewrite E. }
      assert (Hp1 : P (cells eg1)).
      { apply (Hpres (elems ht, cells eg) (bkey b, b_val b)); [done|done|]. by rewrite <- E. }
      destruct (IH' ht1 eg1 (idx + 1) W Hc1 Hp1)
        as [[-> (l1 & b' & l2 & ht2 & eg2 & -> & W2 & E2 & M2)]|(ht2 & eg2 & -> & W2 & S2 & E2 & G2)].
      * left. split; [done|]. exists (b :: l1), b', l2, ht2, eg2. split_and!; try done. by rewrite Hfold.
      * right. exists ht2, eg2. split_and!; [done|done|by etransitivity| |by etransitivity]. by rewrite Hfold.
  - rewrite (Hdead b ht eg idx (list_elem_of_here _ _) El). rsimp.
    assert (Hel : bucket_elem b = None).
    { unfold bucket_elem. unfold is_live in El. apply negb_false_iff in El. by rewrite El. }
    assert (Hfold : forall l' st, fold_left spec (omap bucket_elem (b :: l')) st =
      fold_left spec (omap bucket_elem l') st) by (intros l' st; cbn; by rewrite Hel).
    destruct (IH' ht eg (idx + 1) Hwf Hc Hg)
      as [[-> (l1 & b' & l2 & ht2 & eg2 & -> & W2 & E2 & M2)]|(ht2 & eg2 & -> & W2 & S2 & E2 & G2)].
    + left. split; [done|]. exists (b :: l1), b', l2, ht2, eg2. split_and!; try done. by rewrite Hfold.
    + right. exists ht2, eg2. split_and!; try done. by rewrite Hfold.
Qed.

(** The final move of the pointer. *)
Lemma pointer_wf ht p : ht_wf ht -> position_ok ht p -> ht_wf (set_nInternalPointer p ht).
Proof.
  intros [Hd Hp Hr] Hpp. split; [by destruct Hd; split|done|].
  change (is_hashed (set_nInternalPointer p ht)) with (is_hashed ht). destruct (is_hashed ht); destruct Hr; by split.
Qed.

Lemma point_to_first_wf ht : ht_wf ht -> exists ht', point_to_first ht = Ok ht' /\ ht_wf ht' /\
  same_table ht ht' /\ elems ht' = elems ht /\
  pos_key ht' (nInternalPointer ht') = first_if_none (pos_key ht (nInternalPointer ht)) (elems ht).
Proof.
  intros Hwf. destruct (data_wf_len _ (wf_data _ Hwf)) as [Hu Hm].
  destruct (point_to_first_ok ht Hm Hu) as (p & E & Hp & Hk); [apply Hwf|apply Hwf|].
  exists (set_nInternalPointer p ht). split; [done|]. split; [by apply pointer_wf|].
  split; [by split|]. split; [done|]. exact Hk.
Qed.

Lemma rewind_wf ht : ht_wf ht -> exists ht', rewind ht = Ok ht' /\ ht_wf ht' /\
  same_table ht ht' /\ elems ht' = elems ht /\
  pos_key ht' (nInternalPointer ht') = fst <$> head (elems ht).
Proof.
  intros Hwf. pose proof (wf_count _ (wf_data _ Hwf)) as Hn.
  assert (Hi : position_ok ht HT_INVALID_IDX) by (by left).
  destruct (point_to_first_wf _ (pointer_wf ht _ Hwf Hi)) as (ht' & E & W & S & El & Hk).
  assert (Hst : same_table ht ht') by (etransitivity; [|exact S]; by split).
  exists ht'. split; [|by split_and!].
  rewrite <- E. unfold rewind, point_to_first. cbn [nInternalPointer nNumOfElements set_nInternalPointer].
  rewrite Z.eqb_refl, andb_true_r.
  destruct (Z.ltb_spec 0 (nNumOfElements ht)) as [Hp|Hp].
  - assert (Hs : forall n i, skip_undef n (set_nInternalPointer HT_INVALID_IDX ht) i = skip_undef n ht i).
      { induction n as [|n IH]; intros i; [done|]. simpl. change (get_bucket (set_nInternalPointer _ ht) i)
          with (get_bucket ht i). destruct (get_bucket ht i); simpl; [|done]. by rewrite IH. }
      rewrite Hs. cbn [arData set_nInternalPointer]. by destruct (skip_undef _ ht 0).
  - f_equal. destruct (wf_position _ (wf_data _ Hwf)) as [Ep|(i & b & _ & Hi' & Hb)];
        [rewrite <- Ep; by destruct ht|]. exfalso.
      assert (Hin : (bkey b, b_val b) ∈ elems ht) by (by apply (found_elem ht i)).
      destruct (elems ht); [set_solver|]. simpl in Hn. lia.
Qed.

(** ** The functions *)
Section Functions.
Context (pcc : copy_constructor) (cv : zval -> zval) (Hcc : constructs pcc cv).
Context (source : HashTable) (eg0 : EG) (Hsrc : ht_wf source) (Hcells : cells_ok source eg0).

(** The source's used buckets, in the loop, where the cells have only grown. *)
Lemma source_bucket b eg : b ∈ take (used source) (arData source) -> is_live b = true ->
  cells_grow (cells eg0) (cells eg) ->
  bucket_ok b /\ is_undef (b_val b) = false /\ (forall a, b_val b = IS_INDIRECT a -> is_Some (cells eg !! a)).
Proof.
  intros Hb Hl Hg. destruct (in_used _ _ Hb) as (i & Hi & Hbi). unfold is_live in Hl. apply negb_true_iff in Hl.
  assert (Hlive : live (arData source) i b) by done. split; [by apply (wf_bucket _ (wf_data _ Hsrc) i)|].
  split; [done|]. intros a Ea. apply Hg, (Hcells (bkey b)). rewrite <- Ea. by apply (found_elem source i).
Qed.

Lemma copy_element_ok set_pointer ht idx b eg : b ∈ take (used source) (arData source) ->
  is_live b = true -> ht_wf ht -> cells_ok ht eg -> cells eg = cells eg0 ->
  (forall a a', cells eg0 !! a = Some (IS_INDIRECT a') -> is_Some (cells eg0 !! a')) ->
  step_correct ht eg (spec_copy_one cv (elems ht, cells eg) (bkey b, b_val b))
    (copy_element pcc set_pointer source ht idx b eg).
Proof.
  intros Hb Hl Hwf Hc Ec Hcl.
  destruct (source_bucket b eg Hb Hl) as (Hbk & Hu & Hind); [by rewrite Ec|].
  unfold copy_element. rewrite Hu. set (ht1 := if set_pointer && _ then _ else ht).
  assert (H1 : ht_wf ht1 /\ same_table ht ht1 /\ elems ht1 = elems ht /\ nTableSize ht1 = nTableSize ht).
  { unfold ht1. destruct (_ && _); [|done]. split; [|by split]. apply pointer_wf; [done|by left]. }
  destruct H1 as (W1 & S1 & E1 & T1).
  assert (Hdata : exists d, match b_val b with IS_INDIRECT a => get_cell eg a | v => Ok v end = Ok d /\
    match b_val b with IS_INDIRECT a => default IS_UNDEF (cells eg !! a) | v => v end = d /\
    forall a, d = IS_INDIRECT a -> is_Some (cells eg !! a)).
  { destruct (b_val b) as [| | | | | | | | | | |a|] eqn:Ev; try (eexists; split; [done|]; split; done).
    destruct (Hind a eq_refl) as [w Hw]. exists w. unfold get_cell. rewrite Hw. split; [done|].
    split; [done|]. intros a' ->. rewrite Ec. rewrite Ec in Hw. by eapply Hcl. }
  destruct Hdata as (d & -> & Ed & Hd). rsimp. unfold spec_copy_one. cbn [fst snd]. rewrite Ed.
  destruct (is_undef d) eqn:Eud.
  - right. exists ht1, eg. rewrite E1. by split_and!.
  - assert (Hc1 : cells_ok ht1 eg) by (unfold cells_ok; by rewrite E1).
    pose proof (put_element_ok pcc cv Hcc HASH_UPDATE ht1 b d eg
      (fun t e => match pcc with None => Ok (t, e) | Some _ => Err OutOfBounds end)
      W1 Hc1 Hbk Eud (conj eq_refl eq_refl) (fun _ => eq_refl) Hd) as Hput.
    unfold step_correct in *. rewrite <- E1, <- T1.
    destruct Hput as [[M E]|(ht' & eg' & E & W & S & Es & C & G)].
    + intros Hw. exfalso. unfold spec_put in Hw. destruct (al_find (bkey b) (elems ht1)) as [u|]; [|done].
      by destruct u.
    + left. split; [done|]. unfold put_key in E. by destruct (b_key b).
    + right. exists ht', eg'. split; [|split_and!; try done; by etransitivity].
      unfold put_key in E. by destruct (b_key b).
Qed.

Lemma merge_element_ok overwrite ht b eg : b ∈ take (used source) (arData source) ->
  is_live b = true -> ht_wf ht -> cells_ok ht eg -> cells_grow (cells eg0) (cells eg) ->
  step_correct ht eg (spec_merge_one cv overwrite (elems ht, cells eg) (bkey b, b_val b))
    (merge_element pcc overwrite b ht eg).
Proof.
  intros Hb Hl Hwf Hc Hg. destruct (source_bucket b eg Hb Hl Hg) as (Hbk & Hu & Hind).
  unfold merge_element, spec_merge_one. rewrite Hu. cbn [fst snd].
  assert (He : undef_indirect eg (b_val b) = Ok (match b_val b with
    | IS_INDIRECT a => is_undef (default IS_UNDEF (cells eg !! a)) | _ => false end)).
  { unfold undef_indirect. destruct (b_val b) as [| | | | | | | | | | |a|]; try done.
    destruct (Hind a eq_refl) as [w Hw]. unfold get_cell. by rewrite Hw. }
  rewrite He. rsimp. destruct (match b_val b with IS_INDIRECT _ => _ | _ => _ end).
  { right. exists ht, eg. by split_and!. }
  assert (Hpl : plain_flag (merge_flag overwrite (bkey b)))
    by (unfold bkey; destruct (b_key b), overwrite; by split).
  assert (Hni : b_key b = None -> has_flag (merge_flag overwrite (bkey b)) HASH_UPDATE_INDIRECT = false)
    by (unfold bkey; intros ->; by destruct overwrite).
  pose proof (put_element_ok pcc cv Hcc (merge_flag overwrite (bkey b)) ht b (b_val b) eg
    (fun t e => Ok (t, e)) Hwf Hc Hbk Hu Hpl Hni Hind (fun _ _ _ => eq_refl)) as Hput.
  unfold put_key, bkey in *. destruct (b_key b); [done|]. by destruct overwrite.
Qed.

Lemma merge_ex_element_ok check chk ht b eg : b ∈ take (used source) (arData source) ->
  is_live b = true -> ht_wf ht -> cells_ok ht eg -> cells_grow (cells eg0) (cells eg) ->
  check ht (b_val b) (b_h b, b_key b) = chk (bkey b) (b_val b) ->
  (b_key b = None -> chk (bkey b) (b_val b) = false) ->
  step_correct ht eg (if chk (bkey b) (b_val b)
                      then put_one cv HASH_UPDATE (bkey b) (b_val b) (elems ht, cells eg)
                      else (elems ht, cells eg))
    (merge_ex_element pcc check b ht eg).
Proof.
  intros Hb Hl Hwf Hc Hg Hchk Hnk. destruct (source_bucket b eg Hb Hl Hg) as (Hbk & Hu & Hind).
  unfold merge_ex_element, zend_hash_replace_checker_wrapper. rewrite Hu, Hchk.
  destruct (chk (bkey b) (b_val b)) eqn:Ek.
  - pose proof (put_element_ok pcc cv Hcc HASH_UPDATE ht b (b_val b) eg
      (fun t e => Ok (t, e)) Hwf Hc Hbk Hu (conj eq_refl eq_refl) (fun _ => eq_refl) Hind
      (fun _ _ _ => eq_refl)) as Hput.
    unfold put_key in Hput. destruct (b_key b); [exact Hput|]. by specialize (Hnk eq_refl).
  - right. exists ht, eg. by split_and!.
Qed.
End Functions.

Lemma dead_undef b : is_live b = false -> is_undef (b_val b) = true.
Proof. apply negb_false_iff. Qed.

(** A whole function: the loop, then the pointer. *)
Definition copy_correct (spec : alist * cell_map -> hkey * zval -> alist * cell_map)
    (final : alist -> option hkey -> Prop)
    (target source : HashTable) (eg : EG) (m : res (HashTable * EG)) : Prop :=
  (m = Err Fatal /\ exists l1 b l2 ht1 eg1,
     take (used source) (arData source) = l1 ++ b :: l2 /\ ht_wf ht1 /\
     (elems ht1, cells eg1) = fold_left spec (omap bucket_elem l1) (elems target, cells eg) /\
     nTableSize ht1 = HT_MAX_SIZE) \/
  exists ht' eg', m = Ok (ht', eg') /\ ht_wf ht' /\ same_table target ht' /\
    (elems ht', cells eg') = fold_left spec (elems source) (elems target, cells eg) /\
    final (elems ht') (pos_key ht' (nInternalPointer ht')).

(** The loop and the final move of the pointer. *)
Lemma loop_then_ok spec source target eg m (last : HashTable -> res HashTable) final :
  loop_correct spec (take (used source) (arData source)) target eg m ->
  (forall ht, ht_wf ht -> exists ht', last ht = Ok ht' /\ ht_wf ht' /\ same_table ht ht' /\
    elems ht' = elems ht /\ final (elems ht) (pos_key ht' (nInternalPointer ht'))) ->
  copy_correct spec final target source eg
    (let! (target, eg) := m in let! target := last target in Ok (target, eg)).
Proof.
  intros [[-> H]|(ht & eg1 & -> & W & S & E & _)] Hlast; rsimp; [by left|right].
  destruct (Hlast ht W) as (ht' & -> & W' & S' & E' & Ho). rsimp.
  exists ht', eg1. split; [done|]. split; [done|]. split; [by etransitivity|]. rewrite E'. by split.
Qed.

(** Where the pointer ends: somewhere, or on the first entry. *)
Definition on_some_entry (l : alist) (p : option hkey) : Prop := l <> [] -> p <> None.
Definition on_first_entry (l : alist) (p : option hkey) : Prop := p = fst <$> head l.

(** *** Properties *)

(** Copying a table into another is, on the entries and on the cells, the fold of the
    update with each of the source's entries in order: an indirect entry is followed and left
    out when its cell is empty, an existing key is overwritten in place, and a new one is
    appended; every copied value goes through the copy constructor.  The only failure is
    the fatal error of a target of 2^31 buckets. *)
Theorem hash_copy_correct (pcc : copy_constructor) (cv : zval -> zval) (target source : HashTable) (eg : EG) :
  constructs pcc cv -> ht_wf source -> ht_wf target -> cells_ok source eg -> cells_ok target eg ->
  (forall a a', cells eg !! a = Some (IS_INDIRECT a') -> is_Some (cells eg !! a')) ->
  copy_correct (spec_copy_one cv) on_some_entry target source eg (zend_hash_copy target source pcc eg).
Proof.
  intros Hcc Hs Ht Hcs Hct Hcl. unfold zend_hash_copy. rewrite used_buckets_ok by apply Hs. rsimp.
  apply (loop_then_ok _ _ _ _ _ point_to_first).
  - apply (for_each_ok _ _ (fun c => c = cells eg)); try done.
    + intros st e c' Hst _ <-. unfold spec_copy_one. destruct (is_undef _); [done|].
      unfold put_one, spec_put. destruct (al_find _ _) as [u|]; [|done]. by destruct u.
    + intros b ht eg1 idx _ Hl. unfold copy_element. by rewrite dead_undef.
    + intros b ht eg1 idx Hb Hl W C E. by apply (copy_element_ok pcc cv Hcc source eg Hs Hcs).
  - intros ht W. destruct (point_to_first_wf ht W) as (ht' & E & W' & S & El & Hk).
    exists ht'. do 4 (split; [done|]). intros Hne. rewrite Hk. unfold first_if_none.
    destruct (pos_key ht _); [done|]. by destruct (elems ht).
Qed.

Lemma hash_copy_correct_witness :
  copy_correct (spec_copy_one (fun v => v)) on_some_entry sample_packed sample_hash sample_eg
    (zend_hash_copy sample_packed sample_hash None sample_eg) /\
  fst (fold_left (spec_copy_one (fun v => v)) (elems sample_hash) (elems sample_packed, cells sample_eg)) =
    [(KInt 0, IS_LONG 10); (KInt 2, IS_STRING (sample_key ["a"%byte])); (KStr ["a"%byte], IS_LONG 1);
     (KInt 7, IS_LONG 50); (KStr ["a"; "b"]%byte, IS_TRUE)].
Proof.
  split; [|vm_compute; reflexivity].
  apply (hash_copy_correct None (fun v => v) sample_packed sample_hash sample_eg).
  - split; [done|]. split; done.
  - exact sample_hash_wf.
  - exact sample_packed_wf.
  - apply cells_okb_sound. vm_compute. reflexivity.
  - apply cells_okb_sound. vm_compute. reflexivity.
  - intros a a' H. simpl in H. apply lookup_insert_Some in H as [[_ H]|[_ H]]; [discriminate H|].
    apply lookup_insert_Some in H as [[_ H]|[_ H]]; [discriminate H|]. by rewrite lookup_empty in H.
Defined.

(** C30: Merging a table into another is, on the entries and on the cells, the fold of the
    put of each of the source's entries, in order: with [overwrite], existing entries are
    replaced (string keys through their indirect cell), otherwise they are kept, and only a string
    key whose cell is empty is filled.  Source entries with an empty cell are left out, and the
    target's pointer goes to its first entry.  [zend_hash_merge_ex] is the same fold for
    the entries that the checker accepts. *)
Theorem hash_merge_correct (pcc : copy_constructor) (cv : zval -> zval) (target source : HashTable)
    (overwrite : bool) (check : HashTable -> zval -> Z * option zend_string -> bool)
    (chk : hkey -> zval -> bool) (eg : EG) :
  constructs pcc cv -> ht_wf source -> ht_wf target -> cells_ok source eg -> cells_ok target eg ->
  (forall ht b, check ht (b_val b) (b_h b, b_key b) = chk (bkey b) (b_val b)) ->
  (forall h v, chk (KInt h) v = false) ->
  copy_correct (spec_merge_one cv overwrite) on_first_entry target source eg
    (_zend_hash_merge target source pcc overwrite eg) /\
  copy_correct (fun st e => if chk (fst e) (snd e) then put_one cv HASH_UPDATE (fst e) (snd e) st else st)
    on_first_entry target source eg (zend_hash_merge_ex target source pcc check eg).
Proof.
  intros Hcc Hs Ht Hcs Hct Hchk Hint.
  assert (Hrw : forall ht, ht_wf ht -> exists ht', rewind ht = Ok ht' /\ ht_wf ht' /\ same_table ht ht' /\
    elems ht' = elems ht /\ on_first_entry (elems ht) (pos_key ht' (nInternalPointer ht'))).
  { intros ht W. destruct (rewind_wf ht W) as (ht' & ? & ? & ? & ? & ?). by exists ht'. }
  unfold _zend_hash_merge, zend_hash_merge_ex. rewrite used_buckets_ok by apply Hs. rsimp.
  split; apply (loop_then_ok _ _ _ _ _ rewind); try done;
    apply (for_each_ok _ _ (fun c => cells_grow (cells eg) c)); try done.
  - intros st e c' H1 H2 _. by etransitivity.
  - intros b ht eg1 idx _ Hl. unfold merge_element. by rewrite dead_undef.
  - intros b ht eg1 idx Hb Hl W C G. by apply (merge_element_ok pcc cv Hcc source eg Hs Hcs).
  - intros st e c' H1 H2 _. by etransitivity.
  - intros b ht eg1 idx _ Hl. unfold merge_ex_element. by rewrite dead_undef.
  - intros b ht eg1 idx Hb Hl W C G. cbn [fst snd].
    apply (merge_ex_element_ok pcc cv Hcc source eg Hs Hcs); try done.
    unfold bkey. intros ->. apply Hint.
Qed.

(** A constructor that turns integers into null. *)
Definition nulls (v : zval) : zval := match v with IS_LONG _ => IS_NULL | v => v end.

Lemma hash_merge_correct_witness :
  copy_correct (spec_merge_one nulls false) on_first_entry sample_hash sample_packed sample_eg
    (_zend_hash_merge sample_hash sample_packed (Some (fun v eg => (nulls v, eg))) false sample_eg) /\
  fst (fold_left (spec_merge_one nulls false) (elems sample_packed) (elems sample_hash, cells sample_eg)) =
    [(KStr ["a"%byte], IS_LONG 1); (KInt 7, IS_INDIRECT 5%positive); (KStr ["a"; "b"]%byte, IS_TRUE);
     (KInt 0, IS_NULL); (KInt 2, IS_STRING (sample_key ["a"%byte]))].
Proof.
  split; [|vm_compute; reflexivity].
  refine (proj1 (hash_merge_correct (Some (fun v eg => (nulls v, eg))) nulls sample_hash sample_packed false
    (fun _ _ _ => false) (fun _ _ => false) sample_eg _ sample_packed_wf sample_hash_wf _ _ _ _)).
  - split; [intros []; done|]. split; [intros [] a; done|]. done.
  - apply cells_okb_sound. vm_compute. reflexivity.
  - apply cells_okb_sound. vm_compute. reflexivity.
  - reflexivity.
  - reflexivity.
Defined.
