(* ===== verification/ZendSort.v ===== *)
(** * Sorting ([Zend/zend_sort.c])

    The arrays of [siz]-byte elements are lists, the pointers into them are
    indices.  [cmp] is the comparison, of which the code only asks whether it
    is positive; [swp] gives what the two elements become when they are
    swapped, which may be less than the whole elements. *)
From Stdlib Require Import Sorting.Permutation.
From S2P Require Export Prelude.

(** ** Operations *)
Section Sort.
Context {E : Type} (cmp : E -> E -> Z) (swp : E -> E -> E * E).

(** [cmp(i, j) > 0] *)
Definition cmp_gt (l : list E) (i j : Z) : res bool :=
  let! a := aget l i in
  let! b := aget l j in
  Ok (0 <? cmp a b).

(** [swp(i, j)] *)
Definition swp_at (l : list E) (i j : Z) : res (list E) :=
  let! a := aget l i in
  let! b := aget l j in
  let (a, b) := swp a b in
  let! l := aset l i a in
  aset l j b.

Definition zend_sort_2 (l : list E) (a b : Z) : res (list E) :=
  let! gt := cmp_gt l a b in
  if gt then swp_at l a b else Ok l.

Definition zend_sort_3 (l : list E) (a b c : Z) : res (list E) :=
  let! gt := cmp_gt l a b in
  if negb gt then
    let! gt := cmp_gt l b c in
    if negb gt then Ok l
    else
      let! l := swp_at l b c in
      let! gt := cmp_gt l a b in
      if gt then swp_at l a b else Ok l
  else
    let! gt := cmp_gt l c b in
    if negb gt then swp_at l a c
    else
      let! l := swp_at l a b in
      let! gt := cmp_gt l b c in
      if gt then swp_at l b c else Ok l.

Definition zend_sort_4 (l : list E) (a b c d : Z) : res (list E) :=
  let! l := zend_sort_3 l a b c in
  let! gt := cmp_gt l c d in
  if gt then
    let! l := swp_at l c d in
    let! gt := cmp_gt l b c in
    if gt then
      let! l := swp_at l b c in
      let! gt := cmp_gt l a b in
      if gt then swp_at l a b else Ok l
    else Ok l
  else Ok l.

Definition zend_sort_5 (l : list E) (a b c d e : Z) : res (list E) :=
  let! l := zend_sort_4 l a b c d in
  let! gt := cmp_gt l d e in
  if gt then
    let! l := swp_at l d e in
    let! gt := cmp_gt l c d in
    if gt then
      let! l := swp_at l c d in
      let! gt := cmp_gt l b c in
      if gt then
        let! l := swp_at l b c in
        let! gt := cmp_gt l a b in
        if gt then swp_at l a b else Ok l
      else Ok l
    else Ok l
  else Ok l.

(** [while (j != start) { j -= siz; if (!(cmp(j, i) > 0)) { j += siz; break; } }] *)
Fixpoint find_linear (fuel : nat) (l : list E) (start i j : Z) {struct fuel} : res Z :=
  match fuel with
  | O => Err OutOfFuel
  | S fuel =>
      if negb (j =? start) then
        let j := j - 1 in
        let! gt := cmp_gt l j i in
        if negb gt then Ok (j + 1) else find_linear fuel l start i j
      else Ok j
  end.

(** [for (k = i; k > j; k -= siz) swp(k, k - siz);] *)
Fixpoint shift_down (fuel : nat) (l : list E) (k j : Z) {struct fuel} : res (list E) :=
  match fuel with
  | O => Err OutOfFuel
  | S fuel =>
      if j <? k then
        let! l := swp_at l k (k - 1) in
        shift_down fuel l (k - 1) j
      else Ok l
  end.

(** [do { j -= siz2; .. } while (1);] *)
Fixpoint find_pairs (fuel : nat) (l : list E) (start i j : Z) {struct fuel} : res Z :=
  match fuel with
  | O => Err OutOfFuel
  | S fuel =>
      let j := j - 2 in
      let! gt := cmp_gt l j i in
      if negb gt then
        let j := j + 1 in
        let! gt := cmp_gt l j i in
        if negb gt then Ok (j + 1) else Ok j
      else if j =? start then Ok j
      else if j =? start + 1 then
        let j := j - 1 in
        let! gt := cmp_gt l i j in
        if gt then Ok (j + 1) else Ok j
      else find_pairs fuel l start i j
  end.

(** The two [for] loops over [i], up to [sentry] and up to [end]. *)
Fixpoint insert_loop (fuel : nat) (find : list E -> Z -> Z -> res Z) (l : list E) (i limit : Z)
    {struct fuel} : res (list E) :=
  match fuel with
  | O => Err OutOfFuel
  | S fuel =>
      if i <? limit then
        let j := i - 1 in
        let! gt := cmp_gt l j i in
        if negb gt then insert_loop fuel find l (i + 1) limit
        else
          let! j := find l i j in
          let! l := shift_down (S (Z.to_nat i)) l i j in
          insert_loop fuel find l (i + 1) limit
      else Ok l
  end.

Definition zend_insert_sort (l : list E) (base nmemb : Z) : res (list E) :=
  if (nmemb =? 0) || (nmemb =? 1) then Ok l
  else if nmemb =? 2 then zend_sort_2 l base (base + 1)
  else if nmemb =? 3 then zend_sort_3 l base (base + 1) (base + 2)
  else if nmemb =? 4 then zend_sort_4 l base (base + 1) (base + 2) (base + 3)
  else if nmemb =? 5 then zend_sort_5 l base (base + 1) (base + 2) (base + 3) (base + 4)
  else
    let start := base in
    let fin := start + nmemb in
    let sentry := start + 6 in
    let fuel := S (Z.to_nat nmemb) in
    let! l := insert_loop fuel (fun l i j => find_linear (S (Z.to_nat j)) l start i j) l (start + 1) sentry in
    insert_loop fuel (fun l i j => find_pairs (S (Z.to_nat j)) l start i j) l sentry fin.

(** [while (cmp(pivot, i) > 0) { i += siz; if (i == j) goto done; }]: the new
    [i], and whether the loop has jumped to [done]. *)
Fixpoint scan_up (fuel : nat) (l : list E) (pivot i j : Z) {struct fuel} : res (Z * bool) :=
  match fuel with
  | O => Err OutOfFuel
  | S fuel =>
      let! gt := cmp_gt l pivot i in
      if gt then
        let i := i + 1 in
        if i =? j then Ok (i, true) else scan_up fuel l pivot i j
      else Ok (i, false)
  end.

(** [while (cmp(j, pivot) > 0) { j -= siz; if (j == i) goto done; }] *)
Fixpoint scan_down (fuel : nat) (l : list E) (pivot i j : Z) {struct fuel} : res (Z * bool) :=
  match fuel with
  | O => Err OutOfFuel
  | S fuel =>
      let! gt := cmp_gt l j pivot in
      if gt then
        let j := j - 1 in
        if j =? i then Ok (j, true) else scan_down fuel l pivot i j
      else Ok (j, false)
  end.

(** The partitioning loop, up to [done]. *)
Fixpoint partition_loop (fuel : nat) (l : list E) (pivot i j : Z) {struct fuel} : res (list E * Z) :=
  match fuel with
  | O => Err OutOfFuel
  | S fuel =>
      let! (i, stop) := scan_up (S (Z.to_nat (j - i))) l pivot i j in
      if stop then Ok (l, i)
      else
        let j := j - 1 in
        if j =? i then Ok (l, i)
        else
          let! (j, stop) := scan_down (S (Z.to_nat (j - i))) l pivot i j in
          if stop then Ok (l, i)
          else
            let! l := swp_at l i j in
            let i := i + 1 in
            if i =? j then Ok (l, i) else partition_loop fuel l pivot i j
  end.

(** The [while (1)] loop continues on one part, after a call on the other. *)
Fixpoint zend_sort_rec (fuel : nat) (l : list E) (base nmemb : Z) {struct fuel} : res (list E) :=
  match fuel with
  | O => Err OutOfFuel
  | S fuel =>
      if nmemb <=? 16 then zend_insert_sort l base nmemb
      else
        let start := base in
        let fin := start + nmemb in
        let offset := Z.shiftr nmemb 1 in
        let pivot := start + offset in
        let! l :=
          if negb (Z.shiftr nmemb 10 =? 0) then
            let delta := Z.shiftr offset 1 in
            zend_sort_5 l start (start + delta) pivot (pivot + delta) (fin - 1)
          else zend_sort_3 l start pivot (fin - 1) in
        let! l := swp_at l (start + 1) pivot in
        let pivot := start + 1 in
        let i := pivot + 1 in
        let j := fin - 1 in
        let! (l, i) := partition_loop (S (Z.to_nat nmemb)) l pivot i j in
        let! l := swp_at l pivot (i - 1) in
        if (i - 1) - start <? fin - i then
          let! l := zend_sort_rec fuel l start (i - start - 1) in
          zend_sort_rec fuel l i (fin - i)
        else
          let! l := zend_sort_rec fuel l i (fin - i) in
          zend_sort_rec fuel l start (i - start - 1)
  end.

Definition zend_sort (l : list E) (base nmemb : Z) : res (list E) :=
  zend_sort_rec (S (Z.to_nat nmemb)) l base nmemb.

(** ** [zend_qsort]

    [for (; seg1 < seg2 && compare(begin, seg1) > 0; seg1 += siz);] *)
Fixpoint qsort_up (fuel : nat) (l : list E) (begin seg1 seg2 : Z) {struct fuel} : res Z :=
  match fuel with
  | O => Err OutOfFuel
  | S fuel =>
      if seg1 <? seg2 then
        let! gt := cmp_gt l begin seg1 in
        if gt then qsort_up fuel l begin (seg1 + 1) seg2 else Ok seg1
      else Ok seg1
  end.

(** [for (; seg2 >= seg1 && compare(seg2, begin) > 0; seg2 -= siz);] *)
Fixpoint qsort_down (fuel : nat) (l : list E) (begin seg1 seg2 : Z) {struct fuel} : res Z :=
  match fuel with
  | O => Err OutOfFuel
  | S fuel =>
      if seg1 <=? seg2 then
        let! gt := cmp_gt l seg2 begin in
        if gt then qsort_down fuel l begin seg1 (seg2 - 1) else Ok seg2
      else Ok seg2
  end.

(** The inner [while (1)] loop: the array and [seg2] when it breaks. *)
Fixpoint qsort_partition (fuel : nat) (l : list E) (begin seg1 seg2 : Z) {struct fuel} : res (list E * Z) :=
  match fuel with
  | O => Err OutOfFuel
  | S fuel =>
      let! seg1 := qsort_up (S (Z.to_nat (seg2 - seg1))) l begin seg1 seg2 in
      let! seg2 := qsort_down (S (S (Z.to_nat (seg2 - seg1)))) l begin seg1 seg2 in
      if seg2 <=? seg1 then Ok (l, seg2)
      else
        let! l := swp_at l seg1 seg2 in
        qsort_partition fuel l begin (seg1 + 1) (seg2 - 1)
  end.

Definition QSORT_STACK_SIZE : Z := 64.

(** The array and the segments [(begin_stack[k], end_stack[k])], [k < loop],
    that are waiting, the top first; a push past the stacks' size is an error. *)
Definition qsort_push (stk : list (Z * Z)) (seg : Z * Z) : res (list (Z * Z)) :=
  if QSORT_STACK_SIZE <=? Z.of_nat (length stk) then Err OutOfBounds else Ok (seg :: stk).

(** [while (begin < end)], and the [for] loop around it that pops a segment. *)
Fixpoint qsort_loop (fuel : nat) (l : list E) (begin fin : Z) (stk : list (Z * Z)) {struct fuel}
    : res (list E) :=
  match fuel with
  | O => Err OutOfFuel
  | S fuel =>
      if begin <? fin then
        let offset := Z.shiftr (fin - begin) 1 in
        let! l := swp_at l begin (begin + offset) in
        let! (l, seg2) := qsort_partition (S (Z.to_nat (fin - begin))) l begin (begin + 1) fin in
        let! l := swp_at l begin seg2 in
        if seg2 - begin <=? fin - seg2 then
          let! stk := if seg2 + 1 <? fin then qsort_push stk (seg2 + 1, fin) else Ok stk in
          qsort_loop fuel l begin (seg2 - 1) stk
        else
          let! stk := if begin <? seg2 - 1 then qsort_push stk (begin, seg2 - 1) else Ok stk in
          qsort_loop fuel l (seg2 + 1) fin stk
      else
        match stk with
        | [] => Ok l
        | (begin, fin) :: stk => qsort_loop fuel l begin fin stk
        end
  end.

Definition zend_qsort (l : list E) (base nmemb : Z) : res (list E) :=
  qsort_loop (S (2 * Z.to_nat nmemb)) l base (base + nmemb - 1) [].
End Sort.

(** ** What the comparison and the swap must satisfy

    [cmp] looks at the part [pay] of an element, [swp] exchanges the parts
    [pay] and leaves the parts [rest] in place. *)
Record exchanges {E P R} (cmp : E -> E -> Z) (swp : E -> E -> E * E)
    (cmpP : P -> P -> Z) (pay : E -> P) (rest : E -> R) : Prop := {
  ex_cmp a b : cmp a b = cmpP (pay a) (pay b);
  ex_fst a b : pay (fst (swp a b)) = pay b;
  ex_snd a b : pay (snd (swp a b)) = pay a;
  ex_rest_fst a b : rest (fst (swp a b)) = rest a;
  ex_rest_snd a b : rest (snd (swp a b)) = rest b;
}.

(** "Not greater" is a total preorder. *)
Record ordering {P} (cmpP : P -> P -> Z) : Prop := {
  or_asym a b : 0 < cmpP a b -> ~ 0 < cmpP b a;
  or_trans a b c : ~ 0 < cmpP a b -> ~ 0 < cmpP b c -> ~ 0 < cmpP a c;
}.

(** ** Runs of swaps *)
Section SortFacts.
Context {E P R : Type} `{Inhabited E}.
Context (cmp : E -> E -> Z) (swp : E -> E -> E * E).
Context (cmpP : P -> P -> Z) (pay : E -> P) (rest : E -> R).
Context (EX : exchanges cmp swp cmpP pay rest).

Definition pget (l : list E) (i : Z) : P := pay (l !!! Z.to_nat i).
Definition gtb (x y : P) : bool := 0 <? cmpP x y.
Definition le (x y : P) : Prop := ~ 0 < cmpP x y.
Abbreviation len l := (Z.of_nat (length l)).

Lemma gtb_false x y : gtb x y = false -> le x y.
Proof. unfold gtb, le. intros ?. zbool. lia. Qed.

Lemma gtb_true (O : ordering cmpP) x y : gtb x y = true -> le y x.
Proof. unfold gtb, le. intros ?. zbool. by apply (or_asym _ O). Qed.

Lemma le_refl (O : ordering cmpP) x : le x x.
Proof. intros Hx. exact (or_asym _ O x x Hx Hx). Qed.

Lemma aget_total (l : list E) i : 0 <= i < len l -> aget l i = Ok (l !!! Z.to_nat i).
Proof.
  intros Hi. apply aget_okZ; [lia|]. apply list_lookup_lookup_total_lt. lia.
Qed.

Lemma cmp_gt_ok l i j : 0 <= i < len l -> 0 <= j < len l ->
  cmp_gt cmp l i j = Ok (gtb (pget l i) (pget l j)).
Proof.
  intros Hi Hj. unfold cmp_gt. rewrite (aget_total l i) by done. rsimp.
  rewrite (aget_total l j) by done. rsimp. by rewrite (ex_cmp _ _ _ _ _ EX).
Qed.

Lemma total_insert (l : list E) i x k : 0 <= i < len l -> 0 <= k ->
  <[Z.to_nat i := x]> l !!! Z.to_nat k = if k =? i then x else l !!! Z.to_nat k.
Proof.
  intros Hi Hk. zcases.
  - subst. apply list_lookup_total_insert_eq. lia.
  - apply list_lookup_total_insert_ne. lia.
Qed.

Lemma swp_at_ok l i j : 0 <= i < len l -> 0 <= j < len l ->
  exists l', swp_at swp l i j = Ok l' /\ length l' = length l /\
    forall k, 0 <= k -> pget l' k = if k =? j then pget l i else if k =? i then pget l j else pget l k.
Proof.
  intros Hi Hj. unfold swp_at. rewrite (aget_total l i) by done. rsimp.
  rewrite (aget_total l j) by done. rsimp.
  pose proof (ex_fst _ _ _ _ _ EX (l !!! Z.to_nat i) (l !!! Z.to_nat j)) as H1.
  pose proof (ex_snd _ _ _ _ _ EX (l !!! Z.to_nat i) (l !!! Z.to_nat j)) as H2.
  destruct (swp _ _) as [x y]. simpl in H1, H2.
  rewrite aset_okZ by done. rsimp. rewrite aset_okZ by (rewrite length_insert; done).
  eexists. split; [done|]. rewrite !length_insert. split; [done|].
  intros k Hk. unfold pget. rewrite total_insert by (rewrite ?length_insert; done).
  rewrite total_insert by done. zcases; subst; done.
Qed.

(** [l'] is reached from [l] by swaps of elements of [a .. b - 1]. *)
Inductive swaps (a b : Z) : list E -> list E -> Prop :=
| swaps_refl l : swaps a b l l
| swaps_step l l1 l2 i j :
    a <= i < b -> a <= j < b -> swp_at swp l i j = Ok l1 -> swaps a b l1 l2 -> swaps a b l l2.

Lemma swaps_trans a b l l1 l2 : swaps a b l l1 -> swaps a b l1 l2 -> swaps a b l l2.
Proof.
  induction 1 as [|l l0 l1' i j]; intros; [done|].
  apply (swaps_step _ _ _ l0 _ i j); auto.
Qed.

Lemma swaps_one a b l l1 i j :
  a <= i < b -> a <= j < b -> swp_at swp l i j = Ok l1 -> swaps a b l l1.
Proof. intros. apply (swaps_step _ _ _ l1 _ i j); auto using swaps_refl. Qed.

Lemma swaps_mono a b a' b' l l' : swaps a b l l' -> a' <= a -> b <= b' -> swaps a' b' l l'.
Proof.
  induction 1 as [|l l1 l2 i j]; intros; [apply swaps_refl|].
  apply (swaps_step _ _ _ l1 _ i j); [lia | lia | done | auto].
Qed.

Lemma swp_at_inv l i j l' : swp_at swp l i j = Ok l' ->
  exists x y, l !! Z.to_nat i = Some x /\ l !! Z.to_nat j = Some y /\ 0 <= i < len l /\ 0 <= j < len l /\
    l' = <[Z.to_nat j := snd (swp x y)]> (<[Z.to_nat i := fst (swp x y)]> l).
Proof.
  unfold swp_at, rbind. intros Hs.
  destruct (aget l i) as [x|] eqn:Ei; [|done]. destruct (aget l j) as [y|] eqn:Ej; [|done].
  apply aget_inv in Ei as (n & -> & Hn). apply aget_inv in Ej as (m & -> & Hm).
  pose proof (lookup_lt_Some _ _ _ Hn). pose proof (lookup_lt_Some _ _ _ Hm).
  destruct (swp x y) as [x' y'] eqn:Ex. rewrite aset_ok in Hs by done.
  rewrite aset_ok in Hs by (rewrite length_insert; done). injection Hs as <-.
  exists x, y. rewrite !Nat2Z.id, Ex. repeat split; first [done | lia].
Qed.

Lemma swaps_length a b l l' : swaps a b l l' -> length l' = length l.
Proof.
  induction 1 as [|l l1 l2 i j _ _ Hs _ IH]; [done|]. rewrite IH.
  apply swp_at_inv in Hs as (x & y & _ & _ & _ & _ & ->). by rewrite !length_insert.
Qed.

Lemma swaps_frame a b l l' : 0 <= a -> swaps a b l l' ->
  forall n : nat, ~ a <= Z.of_nat n < b -> l' !! n = l !! n.
Proof.
  intros Ha. induction 1 as [|l l1 l2 i j Hi Hj Hs _ IH]; intros n Hn; [done|]. rewrite IH by done.
  apply swp_at_inv in Hs as (x & y & _ & _ & _ & _ & ->).
  rewrite !list_lookup_insert_ne by lia. done.
Qed.

Lemma swaps_rest a b l l' : swaps a b l l' -> map rest l' = map rest l.
Proof.
  induction 1 as [|l l1 l2 i j Hi Hj Hs _ IH]; [done|]. rewrite IH.
  apply swp_at_inv in Hs as (x & y & Hx & Hy & _ & _ & ->).
  change (rest <$> <[Z.to_nat j := (swp x y).2]> (<[Z.to_nat i := (swp x y).1]> l) = rest <$> l).
  rewrite !list_fmap_insert, (ex_rest_fst _ _ _ _ _ EX), (ex_rest_snd _ _ _ _ _ EX).
  rewrite !list_insert_id; [done | by rewrite list_lookup_fmap, Hx|].
  rewrite list_insert_id; by rewrite list_lookup_fmap, ?Hx, ?Hy.
Qed.

Lemma swaps_perm a b l l' : swaps a b l l' -> Permutation (map pay l') (map pay l).
Proof.
  induction 1 as [|l l1 l2 i j Hi Hj Hs _ IH]; [done|]. rewrite IH.
  apply swp_at_inv in Hs as (x & y & Hx & Hy & _ & _ & ->).
  change (Permutation (pay <$> <[Z.to_nat j := (swp x y).2]> (<[Z.to_nat i := (swp x y).1]> l)) (pay <$> l)).
  rewrite !list_fmap_insert, (ex_fst _ _ _ _ _ EX), (ex_snd _ _ _ _ _ EX).
  apply Permutation_insert_swap; by rewrite list_lookup_fmap, ?Hx, ?Hy.
Qed.

(** A property of all the elements of a range that contains the swapped one survives. *)
Lemma swaps_all (Q : P -> Prop) a b a' b' l l' : 0 <= a' -> a' <= a -> b <= b' -> swaps a b l l' ->
  (forall k, a' <= k < b' -> Q (pget l k)) -> forall k, a' <= k < b' -> Q (pget l' k).
Proof.
  intros Ha' Ha Hb. induction 1 as [|l l1 l2 i j Hi Hj Hs _ IH]; intros HQ; [done|]. apply IH.
  intros k Hk. apply swp_at_inv in Hs as (x & y & Hx & Hy & Hil & Hjl & ->).
  assert (Hxi : pget l i = pay x) by (unfold pget; by rewrite (list_lookup_total_correct _ _ _ Hx)).
  assert (Hyj : pget l j = pay y) by (unfold pget; by rewrite (list_lookup_total_correct _ _ _ Hy)).
  unfold pget. rewrite !total_insert by (rewrite ?length_insert; lia).
  zcases; subst.
  - rewrite (ex_snd _ _ _ _ _ EX), <- Hxi. apply HQ. lia.
  - rewrite (ex_fst _ _ _ _ _ EX), <- Hyj. apply HQ. lia.
  - apply HQ. lia.
Qed.

Lemma swaps_out a b l l' k : 0 <= a -> swaps a b l l' -> 0 <= k < len l -> ~ a <= k < b ->
  pget l' k = pget l k.
Proof.
  intros Ha Hs Hk Hn. unfold pget.
  pose proof (swaps_frame _ _ _ _ Ha Hs (Z.to_nat k) ltac:(lia)) as Hf.
  by rewrite !list_lookup_total_alt, Hf.
Qed.


(** ** Runs on the elements [a .. b - 1]

    [reaches a b l m Q]: the run [m] succeeds, has only swapped elements of
    the range, and leaves an array with the property [Q]. *)
Definition reaches (a b : Z) (l : list E) (m : res (list E)) (Q : list E -> Prop) : Prop :=
  exists l', m = Ok l' /\ swaps a b l l' /\ Q l'.

Lemma reaches_ret a b l (Q : list E -> Prop) : Q l -> reaches a b l (Ok l) Q.
Proof. intros HQ. exists l. split; [done|]. split; [apply swaps_refl | done]. Qed.

Lemma reaches_bind a b l m k (Q1 Q : list E -> Prop) :
  reaches a b l m Q1 ->
  (forall l1, swaps a b l l1 -> length l1 = length l -> Q1 l1 -> reaches a b l1 (k l1) Q) ->
  reaches a b l (rbind m k) Q.
Proof.
  intros (l1 & -> & Hs & HQ) Hk. rsimp.
  destruct (Hk l1 Hs (swaps_length _ _ _ _ Hs) HQ) as (l2 & E2 & Hs2 & HQ2).
  exists l2. split; [done|]. split; [by apply (swaps_trans _ _ _ l1) | done].
Qed.

Lemma reaches_mono a b a' b' l m (Q Q' : list E -> Prop) :
  reaches a b l m Q -> a' <= a -> b <= b' ->
  (forall l', swaps a b l l' -> length l' = length l -> Q l' -> Q' l') -> reaches a' b' l m Q'.
Proof.
  intros (l1 & -> & Hs & HQ) Ha Hb HQ'. exists l1. split; [done|].
  split; [by apply (swaps_mono a b) | apply HQ'; [done | by apply (swaps_length a b) | done]].
Qed.

Lemma reaches_swp a b l i j (Q : list E -> Prop) :
  0 <= a -> b <= len l -> a <= i < b -> a <= j < b ->
  (forall l1, length l1 = length l ->
     (forall k, 0 <= k -> pget l1 k = if k =? j then pget l i else if k =? i then pget l j else pget l k) -> Q l1) ->
  reaches a b l (swp_at swp l i j) Q.
Proof.
  intros Ha Hb Hi Hj HQ. destruct (swp_at_ok l i j) as (l1 & E1 & Hlen & Hg); [lia | lia |].
  exists l1. split; [done|]. split; [by apply (swaps_one _ _ _ _ i j) | by apply HQ].
Qed.

(** One comparison: the goal's run continues on either answer. *)
Ltac sort_cmp :=
  match goal with
  | |- context [cmp_gt _ ?l ?i ?j] =>
      rewrite (cmp_gt_ok l i j) by lia; rsimp;
      let G := fresh "G" in destruct (gtb (pget l i) (pget l j)) eqn:G; cbn [negb]
  end.

(** The values of the given positions after the swaps so far. *)
Ltac sort_values :=
  repeat match goal with
  | Hg : (forall k, 0 <= k -> pget ?l1 k = _) |- context [pget ?l1 ?k] => rewrite (Hg k) by lia
  | Hg : (forall k, 0 <= k -> pget ?l1 k = _), G : context [pget ?l1 ?k] |- _ => rewrite (Hg k) in G by lia
  end.

Ltac sort_tests :=
  repeat match goal with
  | |- context [?a =? ?b] => first [rewrite (Z.eqb_refl a) | rewrite (proj2 (Z.eqb_neq a b)) by lia]
  | G : context [?a =? ?b] |- _ =>
      first [rewrite (Z.eqb_refl a) in G | rewrite (proj2 (Z.eqb_neq a b)) in G by lia]
  end.

Lemma reaches_swp_then a b l i j k (Q : list E -> Prop) :
  0 <= a -> b <= len l -> a <= i < b -> a <= j < b ->
  (forall l1, length l1 = length l ->
     (forall k, 0 <= k -> pget l1 k = if k =? j then pget l i else if k =? i then pget l j else pget l k) ->
     reaches a b l1 (k l1) Q) ->
  reaches a b l (rbind (swp_at swp l i j) k) Q.
Proof.
  intros Ha Hb Hi Hj HQ. eapply reaches_bind.
  - by apply (reaches_swp a b l i j _ Ha Hb Hi Hj (fun l1 Hl Hk => conj Hl Hk)).
  - intros l1 _ _ [Hl Hk]. by apply HQ.
Qed.

Ltac sort_step :=
  first [ sort_cmp
        | apply reaches_swp_then; [lia | lia | lia | lia |]; intros ? ? ?
        | apply reaches_swp; [lia | lia | lia | lia |]; intros ? ? ?
        | apply reaches_ret ].

Section Networks.
Context (a b : Z) (Ha : 0 <= a).

Lemma zend_sort_3_ok l x y z : b <= len l -> a <= x -> x < y -> y < z -> z < b ->
  reaches a b l (zend_sort_3 cmp swp l x y z) (fun l' =>
    (forall k, 0 <= k -> k <> x -> k <> y -> k <> z -> pget l' k = pget l k) /\
    (ordering cmpP -> le (pget l' x) (pget l' y) /\ le (pget l' y) (pget l' z))).
Proof.
  intros Hl Hx Hxy Hyz Hz. unfold zend_sort_3.
  repeat sort_step; (split; [intros k Hk ???; sort_values; sort_tests; done|]).
  all: intros O; sort_values; sort_tests.
  all: split; auto using gtb_false, gtb_true.
Qed.

Lemma zend_sort_2_ok l x y : b <= len l -> a <= x -> x < y -> y < b ->
  reaches a b l (zend_sort_2 cmp swp l x y) (fun l' => ordering cmpP -> le (pget l' x) (pget l' y)).
Proof.
  intros Hl Hx Hxy Hy. unfold zend_sort_2. repeat sort_step; intros O; sort_values; sort_tests.
  all: auto using gtb_false, gtb_true.
Qed.

Lemma zend_sort_4_ok l x y z u : b <= len l -> a <= x -> x < y -> y < z -> z < u -> u < b ->
  reaches a b l (zend_sort_4 cmp swp l x y z u) (fun l' =>
    (forall k, 0 <= k -> k <> x -> k <> y -> k <> z -> k <> u -> pget l' k = pget l k) /\
    (ordering cmpP -> le (pget l' x) (pget l' y) /\ le (pget l' y) (pget l' z) /\ le (pget l' z) (pget l' u))).
Proof.
  intros Hl Hx Hxy Hyz Hzu Hu. unfold zend_sort_4.
  eapply reaches_bind; [by apply zend_sort_3_ok; lia|]. intros l1 _ Hlen [Hf Hc].
  repeat sort_step; (split; [intros k Hk ????; sort_values; sort_tests; auto|]).
  all: intros O; destruct (Hc O); sort_values; sort_tests.
  all: repeat split; auto using gtb_false, gtb_true.
Qed.

Lemma zend_sort_5_ok l x y z u v : b <= len l -> a <= x -> x < y -> y < z -> z < u -> u < v -> v < b ->
  reaches a b l (zend_sort_5 cmp swp l x y z u v) (fun l' =>
    ordering cmpP -> le (pget l' x) (pget l' y) /\ le (pget l' y) (pget l' z) /\
      le (pget l' z) (pget l' u) /\ le (pget l' u) (pget l' v)).
Proof.
  intros Hl Hx Hxy Hyz Hzu Huv Hv. unfold zend_sort_5.
  eapply reaches_bind; [by apply zend_sort_4_ok; lia|]. intros l1 _ Hlen [Hf Hc].
  repeat sort_step; intros O; destruct (Hc O) as (? & ? & ?); sort_values; sort_tests.
  all: repeat split; auto using gtb_false, gtb_true.
Qed.
End Networks.

(** ** Insertion sort *)

(** The elements of [a .. b - 1] are in order. *)
Definition sorted (l : list E) (a b : Z) : Prop :=
  forall i j, a <= i -> i <= j -> j < b -> le (pget l i) (pget l j).

(** Consecutive pairs are enough. *)
Lemma sorted_step (O : ordering cmpP) l a b :
  (forall i, a <= i -> i + 1 < b -> le (pget l i) (pget l (i + 1))) -> sorted l a b.
Proof.
  intros Hs i j Hi Hij. replace j with (i + Z.of_nat (Z.to_nat (j - i))) by lia.
  induction (Z.to_nat (j - i)) as [|n IH]; intros Hj.
  - rewrite Z.add_0_r. by apply le_refl.
  - apply (or_trans _ O _ (pget l (i + Z.of_nat n))); [apply IH; lia|].
    replace (i + Z.of_nat (S n)) with (i + Z.of_nat n + 1) by lia. apply Hs; lia.
Qed.

(** Where the insertion places the element [x] of the sorted [start .. i - 1]. *)
Definition place_of (l : list E) (start i : Z) (x : P) (j : Z) : Prop :=
  start <= j <= i /\
  (ordering cmpP -> sorted l start i ->
     (forall k, start <= k < j -> le (pget l k) x) /\ (forall k, j <= k < i -> le x (pget l k))).

Lemma place_of_intro l start i x j : start <= j -> j < i ->
  (ordering cmpP -> le x (pget l j)) ->
  (j = start \/ (ordering cmpP -> le (pget l (j - 1)) x)) -> place_of l start i x j.
Proof.
  intros Hs Hi Hg Hl. split; [lia|]. intros O So. split; intros k Hk.
  - destruct Hl as [-> | Hl]; [lia|]. apply (or_trans _ O _ (pget l (j - 1))); [apply So; lia | exact (Hl O)].
  - apply (or_trans _ O _ (pget l j)); [by apply Hg | apply So; lia].
Qed.

Lemma find_linear_ok l start i : 0 <= start -> i < len l -> forall fuel j,
  start <= j < i -> (Z.to_nat j < fuel)%nat -> gtb (pget l j) (pget l i) = true ->
  exists j', find_linear cmp fuel l start i j = Ok j' /\ place_of l start i (pget l i) j'.
Proof.
  intros Hs Hi. induction fuel as [|fuel IH]; intros j Hj Hf G; [lia|]. simpl.
  destruct (Z.eqb_spec j start) as [->|Hne]; simpl.
  - exists start. split; [done|]. apply place_of_intro; [lia | lia | intros O; by apply gtb_true | by left].
  - sort_cmp; [by apply IH; [lia | lia |]|].
    exists (j - 1 + 1). split; [done|]. replace (j - 1 + 1) with j by lia.
    apply place_of_intro; [lia | lia | intros O; by apply gtb_true | right; intros _; by apply gtb_false].
Qed.

Lemma find_pairs_ok l start i : 0 <= start -> i < len l -> forall fuel j,
  start + 2 <= j < i -> (Z.to_nat j < fuel)%nat -> gtb (pget l j) (pget l i) = true ->
  exists j', find_pairs cmp fuel l start i j = Ok j' /\ place_of l start i (pget l i) j'.
Proof.
  intros Hs Hi. induction fuel as [|fuel IH]; intros j Hj Hf G; [lia|]. simpl.
  sort_cmp.
  - destruct (Z.eqb_spec (j - 2) start) as [He|Hne].
    { eexists. split; [done|]. apply place_of_intro; [lia | lia | intros O; by apply gtb_true | by left]. }
    destruct (Z.eqb_spec (j - 2) (start + 1)) as [He|Hne1]; [|by apply IH; [lia | lia |]].
    sort_cmp; (eexists; split; [done|]).
    + apply place_of_intro; [lia | lia | | right].
      * intros O. replace (j - 2 - 1 + 1) with (j - 2) by lia. by apply gtb_true.
      * intros O. replace (j - 2 - 1 + 1 - 1) with (j - 2 - 1) by lia. by apply gtb_true.
    + apply place_of_intro; [lia | lia | intros O; by apply gtb_false | left; lia].
  - sort_cmp; (eexists; split; [done|]).
    + apply place_of_intro; [lia | lia | intros O; by apply gtb_true | right; intros _].
      replace (j - 2 + 1 - 1) with (j - 2) by lia. by apply gtb_false.
    + replace (j - 2 + 1 + 1) with j by lia.
      apply place_of_intro; [lia | lia | intros O; by apply gtb_true | right; intros _].
      replace (j - 1) with (j - 2 + 1) by lia. by apply gtb_false.
Qed.

(** [shift_down] puts the element at [k] before those of [j .. k - 1]. *)
Lemma shift_down_ok a b j : 0 <= a -> a <= j -> forall fuel l1 k,
  b <= len l1 -> j <= k < b -> (Z.to_nat (k - j) < fuel)%nat ->
  reaches a b l1 (shift_down swp fuel l1 k j) (fun l' =>
    forall m, 0 <= m -> pget l' m = if m =? j then pget l1 k
                                 else if (j <? m) && (m <=? k) then pget l1 (m - 1) else pget l1 m).
Proof.
  intros Ha Hj. induction fuel as [|fuel IH]; intros l1 k Hl Hk Hf; [lia|]. simpl.
  destruct (Z.ltb_spec j k) as [Hlt|Hge].
  - apply reaches_swp_then; [lia | lia | lia | lia|]. intros l2 Hl2 Hg.
    apply (reaches_mono a b _ _ _ _ _ _ (IH l2 (k - 1) ltac:(lia) ltac:(lia) ltac:(lia))); [lia | lia|].
    intros l' _ _ Hg'. intros m Hm. rewrite Hg' by done.
    zcases; simpl; subst; try lia; rewrite Hg by lia; zcases; try lia; try done.
    f_equal. lia.
  - apply reaches_ret. intros m Hm. replace k with j by lia. zcases; subst; simpl; try lia; done.
Qed.

(** After the insertion one more element is in place. *)
Lemma inserted_sorted l l' start i j : 0 <= start -> start <= i ->
  place_of l start i (pget l i) j ->
  (forall m, 0 <= m -> pget l' m = if m =? j then pget l i
                                 else if (j <? m) && (m <=? i) then pget l (m - 1) else pget l m) ->
  ordering cmpP -> sorted l start i -> sorted l' start (i + 1).
Proof.
  intros Hs Hi [Hj Hp] Hg O So. destruct (Hp O So) as [Hbefore Hafter].
  apply sorted_step; [done|]. intros k Hk Hki. rewrite !Hg by lia.
  destruct (Z.lt_trichotomy k j) as [Hkj | [-> | Hkj]]; zcases; simpl; try lia.
  - apply Hbefore. lia.
  - apply So; lia.
  - replace (j + 1 - 1) with j by lia. apply Hafter. lia.
  - replace (k + 1 - 1) with (k - 1 + 1) by lia. apply So; lia.
Qed.

Lemma insert_loop_ok find start i0 limit N : 0 <= start -> start < i0 -> limit <= N ->
  (forall l i, len l = N -> i0 <= i < limit -> gtb (pget l (i - 1)) (pget l i) = true ->
     exists j, find l i (i - 1) = Ok j /\ place_of l start i (pget l i) j) ->
  forall fuel l i, len l = N -> i0 <= i -> i <= limit -> (Z.to_nat (limit - i) < fuel)%nat ->
  reaches start limit l (insert_loop cmp swp fuel find l i limit) (fun l' =>
    ordering cmpP -> sorted l start i -> sorted l' start limit).
Proof.
  intros Hs Hi0 Hlim Hfind. induction fuel as [|fuel IH]; intros l i Hl Hi Hil Hf; [lia|]. cbn [insert_loop].
  destruct (Z.ltb_spec i limit) as [Hlt|Hge].
  2:{ apply reaches_ret. intros _. by replace i with limit by lia. }
  sort_cmp.
  - destruct (Hfind l i Hl ltac:(lia) G) as (j & -> & Hp). rsimp. destruct (proj1 Hp).
    eapply reaches_bind; [apply (shift_down_ok start limit j); lia|]. intros l1 _ Hl1 Hg.
    apply (reaches_mono _ _ _ _ _ _ _ _ (IH l1 (i + 1) ltac:(lia) ltac:(lia) ltac:(lia) ltac:(lia))); [lia | lia|].
    intros l' _ _ Hso O So. apply Hso; [done|]. by apply (inserted_sorted l l1 start i j); try lia.
  - apply (reaches_mono _ _ _ _ _ _ _ _ (IH l (i + 1) ltac:(lia) ltac:(lia) ltac:(lia) ltac:(lia))); [lia | lia|].
    intros l' _ _ Hso O So. apply Hso; [done|]. apply sorted_step; [done|]. intros k Hk Hki.
    destruct (decide (k + 1 = i)) as [<-|]; [|apply So; lia].
    replace (k + 1 - 1) with k in G by lia. by apply gtb_false.
Qed.

Lemma sorted_one (O : ordering cmpP) l a b : b <= a + 1 -> sorted l a b.
Proof. intros Hb. apply sorted_step; [done | lia]. Qed.

Lemma sorted_chain2 (O : ordering cmpP) l a : le (pget l a) (pget l (a + 1)) -> sorted l a (a + 2).
Proof. intros H1. apply sorted_step; [done|]. intros i Hi Hi2. by replace i with a by lia. Qed.

Lemma zend_insert_sort_ok l base n : 0 <= base -> 0 <= n -> base + n <= len l ->
  reaches base (base + n) l (zend_insert_sort cmp swp l base n) (fun l' =>
    ordering cmpP -> sorted l' base (base + n)).
Proof.
  intros Hb Hn Hl. unfold zend_insert_sort.
  destruct (Z.eqb_spec n 0) as [->|H0]; cbn [orb].
  { apply reaches_ret. intros O. apply sorted_one; [done | lia]. }
  destruct (Z.eqb_spec n 1) as [->|H1].
  { apply reaches_ret. intros O. apply sorted_one; [done | lia]. }
  destruct (Z.eqb_spec n 2) as [->|H2].
  { eapply reaches_mono; [apply (zend_sort_2_ok base (base + 2)); lia | lia | lia|].
    intros l' _ _ Hc O. by apply sorted_chain2, Hc. }
  destruct (Z.eqb_spec n 3) as [->|H3].
  { eapply reaches_mono; [apply (zend_sort_3_ok base (base + 3)); lia | lia | lia|].
    intros l' _ _ [_ Hc] O. destruct (Hc O). apply sorted_step; [done|]. intros i Hi Hi3.
    assert (i = base \/ i = base + 1) as [-> | ->] by lia; rewrite <- ?Z.add_assoc; done. }
  destruct (Z.eqb_spec n 4) as [->|H4].
  { eapply reaches_mono; [apply (zend_sort_4_ok base (base + 4)); lia | lia | lia|].
    intros l' _ _ [_ Hc] O. destruct (Hc O) as (? & ? & ?). apply sorted_step; [done|]. intros i Hi Hi3.
    assert (i = base \/ i = base + 1 \/ i = base + 2) as [-> | [-> | ->]] by lia; rewrite <- ?Z.add_assoc; done. }
  destruct (Z.eqb_spec n 5) as [->|H5].
  { eapply reaches_mono; [apply (zend_sort_5_ok base (base + 5)); lia | lia | lia|].
    intros l' _ _ Hc O. destruct (Hc O) as (? & ? & ? & ?). apply sorted_step; [done|]. intros i Hi Hi3.
    assert (i = base \/ i = base + 1 \/ i = base + 2 \/ i = base + 3) as [-> | [-> | [-> | ->]]] by lia;
      rewrite <- ?Z.add_assoc; done. }
  apply (reaches_bind _ _ _ _ _ (fun l' => ordering cmpP -> sorted l' base (base + 6))).
  - eapply reaches_mono; [apply (insert_loop_ok _ base (base + 1) (base + 6) (len l)); try lia | lia | lia|].
    + intros l1 i Hl1 Hi G. apply find_linear_ok; [lia | lia | lia | lia | done].
    + intros l' _ _ Hso O. apply Hso; [done|]. by apply sorted_one; [|lia].
  - intros l1 _ Hl1 So.
    eapply reaches_mono; [apply (insert_loop_ok _ base (base + 6) (base + n) (len l)); try lia | lia | lia|].
    + intros l2 i Hl2 Hi G. apply find_pairs_ok; [lia | lia | lia | lia | done].
    + intros l' _ _ Hso O. by apply Hso, So.
Qed.

(** ** Quicksort *)
Lemma scan_up_ok l pv j : 0 <= pv < len l -> j <= len l -> forall fuel i,
  0 <= i < j -> (Z.to_nat (j - i) < fuel)%nat ->
  exists i' stop, scan_up cmp fuel l pv i j = Ok (i', stop) /\ i <= i' <= j /\
    (if stop then i' = j else i' < j /\ le (pget l pv) (pget l i')) /\
    (ordering cmpP -> forall k, i <= k < i' -> le (pget l k) (pget l pv)).
Proof.
  intros Hpv Hj. induction fuel as [|fuel IH]; intros i Hi Hf; [lia|]. simpl.
  sort_cmp.
  - assert (Hle : ordering cmpP -> le (pget l i) (pget l pv)) by (intros O; by apply gtb_true).
    destruct (Z.eqb_spec (i + 1) j) as [He|Hne].
    + exists (i + 1), true. split; [done|]. split; [lia|]. split; [done|].
      intros O k Hk. replace k with i by lia. auto.
    + destruct (IH (i + 1) ltac:(lia) ltac:(lia)) as (i' & stop & -> & Hi' & Hstop & Hall).
      exists i', stop. split; [done|]. split; [lia|]. split; [done|].
      intros O k Hk. destruct (decide (k = i)) as [->|]; [auto|]. apply Hall; [done | lia].
  - exists i, false. split; [done|]. split; [lia|]. split; [|intros; lia].
    split; [lia | by apply gtb_false].
Qed.

Lemma scan_down_ok l pv i : 0 <= pv < len l -> 0 <= i -> forall fuel j,
  i < j < len l -> (Z.to_nat (j - i) < fuel)%nat ->
  exists j' stop, scan_down cmp fuel l pv i j = Ok (j', stop) /\ i <= j' <= j /\
    (if stop then j' = i else i < j' /\ le (pget l j') (pget l pv)) /\
    (ordering cmpP -> forall k, j' < k <= j -> le (pget l pv) (pget l k)).
Proof.
  intros Hpv Hi. induction fuel as [|fuel IH]; intros j Hj Hf; [lia|]. simpl.
  sort_cmp.
  - assert (Hle : ordering cmpP -> le (pget l pv) (pget l j)) by (intros O; by apply gtb_true).
    destruct (Z.eqb_spec (j - 1) i) as [He|Hne].
    + exists (j - 1), true. split; [done|]. split; [lia|]. split; [done|].
      intros O k Hk. replace k with j by lia. auto.
    + destruct (IH (j - 1) ltac:(lia) ltac:(lia)) as (j' & stop & -> & Hj' & Hstop & Hall).
      exists j', stop. split; [done|]. split; [lia|]. split; [done|].
      intros O k Hk. destruct (decide (k = j)) as [->|]; [auto|]. apply Hall; [done | lia].
  - exists j, false. split; [done|]. split; [lia|]. split; [|intros; lia].
    split; [lia | by apply gtb_false].
Qed.

(** [lo .. i - 1] is not greater than [p], [j .. hi - 1] not smaller. *)
Definition split_at (l : list E) (lo i j hi : Z) (p : P) : Prop :=
  (forall k, lo <= k < i -> le (pget l k) p) /\ (forall k, j <= k < hi -> le p (pget l k)).

Lemma partition_loop_ok pv lo hi : 0 <= pv < lo -> forall fuel l i j,
  hi <= len l -> lo <= i -> i < j -> j < hi \/ j = hi -> (Z.to_nat (j - i) < fuel)%nat ->
  exists l' i', partition_loop cmp swp fuel l pv i j = Ok (l', i') /\ swaps lo hi l l' /\ i <= i' <= j /\
    (ordering cmpP -> split_at l lo i j hi (pget l pv) -> split_at l' lo i' i' hi (pget l pv)).
Proof.
  intros Hpv. induction fuel as [|fuel IH]; intros l i j Hhi Hi Hij Hj Hf; [lia|]. cbn [partition_loop].
  destruct (scan_up_ok l pv j ltac:(lia) ltac:(lia) (S (Z.to_nat (j - i))) i ltac:(lia) ltac:(lia))
    as (i1 & stop & -> & Hi1 & Hstop & Hup). rsimp.
  destruct stop.
  { exists l, i1. split; [done|]. split; [apply swaps_refl|]. split; [lia|]. intros O [Hlo Hhig].
    split; intros k Hk; [|apply Hhig; lia].
    destruct (Z.lt_ge_cases k i); [apply Hlo; lia | apply Hup; [done | lia]]. }
  destruct Hstop as [Hi1j Hpi1].
  destruct (Z.eqb_spec (j - 1) i1) as [He|Hne].
  { exists l, i1. split; [done|]. split; [apply swaps_refl|]. split; [lia|]. intros O [Hlo Hhig].
    split; intros k Hk.
    - destruct (Z.lt_ge_cases k i); [apply Hlo; lia | apply Hup; [done | lia]].
    - destruct (decide (k = i1)) as [->|]; [done | apply Hhig; lia]. }
  destruct (scan_down_ok l pv i1 ltac:(lia) ltac:(lia) (S (Z.to_nat (j - 1 - i1))) (j - 1) ltac:(lia) ltac:(lia))
    as (j1 & stop & -> & Hj1 & Hstop & Hdown). rsimp.
  assert (Hlow : ordering cmpP -> split_at l lo i j hi (pget l pv) -> split_at l lo i1 (j1 + 1) hi (pget l pv)).
  { intros O [Hlo Hhig]. split; intros k Hk.
    - destruct (Z.lt_ge_cases k i); [apply Hlo; lia | apply Hup; [done | lia]].
    - destruct (Z.lt_ge_cases k j); [apply Hdown; [done | lia] | apply Hhig; lia]. }
  destruct stop.
  { subst j1. exists l, i1. split; [done|]. split; [apply swaps_refl|]. split; [lia|].
    intros O Hs. destruct (Hlow O Hs) as [Hlo Hhig]. split; intros k Hk; [by apply Hlo|].
    destruct (decide (k = i1)) as [->|]; [done | apply Hhig; lia]. }
  destruct Hstop as [Hj1i Hpj1].
  destruct (swp_at_ok l i1 j1 ltac:(lia) ltac:(lia)) as (l1 & E1 & Hl1 & Hg). rewrite E1. rsimp.
  assert (Hs1 : swaps lo hi l l1) by (apply (swaps_one _ _ _ _ i1 j1); [lia | lia | done]).
  assert (Hmid : ordering cmpP -> split_at l lo i j hi (pget l pv) -> split_at l1 lo (i1 + 1) j1 hi (pget l pv)).
  { intros O Hs. destruct (Hlow O Hs) as [Hlo Hhig].
    split; intros k Hk; rewrite Hg by lia; zcases; subst; try lia; try done; [apply Hlo | apply Hhig]; lia. }
  destruct (Z.eqb_spec (i1 + 1) j1) as [<-|Hne1].
  { exists l1, (i1 + 1). repeat split; [done | lia | lia | by apply Hmid | by apply Hmid]. }
  destruct (IH l1 (i1 + 1) j1 ltac:(lia) ltac:(lia) ltac:(lia) ltac:(lia) ltac:(lia))
    as (l2 & i2 & -> & Hs2 & Hi2 & Hq).
  exists l2, i2. split; [done|]. split; [by apply (swaps_trans _ _ _ l1)|]. split; [lia|].
  intros O Hs. rewrite (swaps_out lo hi l l1 pv) in Hq by (done || lia). by apply Hq, Hmid.
Qed.

(** A property of the elements of a range survives swaps inside or outside of it. *)
Lemma range_kept (Q : P -> Prop) a b c d l l' : swaps c d l l' -> 0 <= a -> 0 <= c -> b <= len l ->
  d <= a \/ b <= c \/ a <= c /\ d <= b ->
  (forall k, a <= k < b -> Q (pget l k)) -> forall k, a <= k < b -> Q (pget l' k).
Proof.
  intros Hs Ha Hc Hb [Hd | [Hd | [Hd1 Hd2]]] HQ k Hk.
  - rewrite (swaps_out c d l l') by (done || lia). by apply HQ.
  - rewrite (swaps_out c d l l') by (done || lia). by apply HQ.
  - by apply (swaps_all Q c d a b l l').
Qed.

Lemma sorted_kept a b c d l l' : swaps c d l l' -> 0 <= a -> 0 <= c -> b <= len l ->
  d <= a \/ b <= c -> sorted l a b -> sorted l' a b.
Proof.
  intros Hs Ha Hc Hb Hd So i j Hi Hij Hj.
  rewrite !(swaps_out c d l l') by (done || lia). by apply So.
Qed.

Lemma split_kept a m b c d p l l' : swaps c d l l' -> 0 <= a -> 0 <= c -> a <= m -> m < b -> b <= len l ->
  (a <= c /\ d <= m) \/ (m + 1 <= c /\ d <= b) ->
  split_at l a m (m + 1) b p -> split_at l' a m (m + 1) b p.
Proof.
  intros Hs Ha Hc Hm Hmb Hb Hd [Hlo Hhi]. split.
  - apply (range_kept (fun x => le x p) a m c d l); [done | lia | lia | lia | lia | done].
  - apply (range_kept (fun x => le p x) (m + 1) b c d l); [done | lia | lia | lia | lia | done].
Qed.

Lemma joined_sorted (O : ordering cmpP) l a m b : a <= m -> m < b ->
  split_at l a m (m + 1) b (pget l m) -> sorted l a m -> sorted l (m + 1) b -> sorted l a b.
Proof.
  intros Ha Hb [Hlo Hhi] S1 S2. apply sorted_step; [done|]. intros i Hi Hib.
  destruct (Z.lt_trichotomy i m) as [Hlt | [-> | Hgt]]; [|apply Hhi; lia | apply S2; lia].
  destruct (decide (i + 1 = m)) as [<-|]; [apply Hlo; lia | apply S1; lia].
Qed.

(** Sorting both sides of the pivot, in either order. *)
Section Sides.
Context (l : list E) (a m b : Z) (Ha : 0 <= a) (Hm : a <= m) (Hmb : m < b) (Hb : b <= len l).
Context (Hsp : ordering cmpP -> split_at l a m (m + 1) b (pget l m)).

Lemma sides_left_right l1 l2 :
  swaps a m l l1 -> (ordering cmpP -> sorted l1 a m) ->
  swaps (m + 1) b l1 l2 -> (ordering cmpP -> sorted l2 (m + 1) b) ->
  swaps a b l l2 /\ (ordering cmpP -> sorted l2 a b).
Proof.
  intros Hs1 So1 Hs2 So2. pose proof (swaps_length _ _ _ _ Hs1) as Hl1. split.
  { apply (swaps_trans _ _ _ l1); [apply (swaps_mono a m) | apply (swaps_mono (m + 1) b)]; done || lia. }
  intros O. apply (joined_sorted O _ _ m); [done | done | | | by apply So2].
  - rewrite (swaps_out (m + 1) b l1 l2), (swaps_out a m l l1) by (done || lia).
    apply (split_kept a m b (m + 1) b _ l1); try done || lia.
    apply (split_kept a m b a m _ l); auto; lia.
  - apply (sorted_kept a m (m + 1) b l1); try done || lia. by apply So1.
Qed.

Lemma sides_right_left l1 l2 :
  swaps (m + 1) b l l1 -> (ordering cmpP -> sorted l1 (m + 1) b) ->
  swaps a m l1 l2 -> (ordering cmpP -> sorted l2 a m) ->
  swaps a b l l2 /\ (ordering cmpP -> sorted l2 a b).
Proof.
  intros Hs1 So1 Hs2 So2. pose proof (swaps_length _ _ _ _ Hs1) as Hl1. split.
  { apply (swaps_trans _ _ _ l1); [apply (swaps_mono (m + 1) b) | apply (swaps_mono a m)]; done || lia. }
  intros O. apply (joined_sorted O _ _ m); [done | done | | by apply So2 |].
  - rewrite (swaps_out a m l1 l2), (swaps_out (m + 1) b l l1) by (done || lia).
    apply (split_kept a m b a m _ l1); try done || lia.
    apply (split_kept a m b (m + 1) b _ l); auto; lia.
  - apply (sorted_kept (m + 1) b a m l1); try done || lia. by apply So1.
Qed.

Lemma sort_sides f g :
  (forall l1, length l1 = length l -> reaches a m l1 (f l1) (fun l' => ordering cmpP -> sorted l' a m)) ->
  (forall l1, length l1 = length l ->
     reaches (m + 1) b l1 (g l1) (fun l' => ordering cmpP -> sorted l' (m + 1) b)) ->
  reaches a b l (rbind (f l) g) (fun l' => ordering cmpP -> sorted l' a b) /\
  reaches a b l (rbind (g l) f) (fun l' => ordering cmpP -> sorted l' a b).
Proof.
  intros Hf Hg.
  destruct (Hf l eq_refl) as (l1 & E1 & Hs1 & So1).
  destruct (Hg l1 (swaps_length _ _ _ _ Hs1)) as (l2 & E2 & Hs2 & So2).
  destruct (Hg l eq_refl) as (l3 & E3 & Hs3 & So3).
  destruct (Hf l3 (swaps_length _ _ _ _ Hs3)) as (l4 & E4 & Hs4 & So4).
  split; [rewrite E1; rsimp; exists l2 | rewrite E3; rsimp; exists l4]; (split; [done|]).
  - by apply (sides_left_right l1).
  - by apply (sides_right_left l3).
Qed.
End Sides.

(** The choice of the pivot, and its move to [start + 1]. *)
Lemma choose_pivot_ok l start n : 0 <= start -> 16 < n -> start + n <= len l ->
  let offset := Z.shiftr n 1 in
  let pivot := start + offset in
  reaches start (start + n) l
    (let! l :=
       if negb (Z.shiftr n 10 =? 0) then
         let delta := Z.shiftr offset 1 in
         zend_sort_5 cmp swp l start (start + delta) pivot (pivot + delta) (start + n - 1)
       else zend_sort_3 cmp swp l start pivot (start + n - 1) in
     swp_at swp l (start + 1) pivot)
    (fun l' => ordering cmpP -> le (pget l' start) (pget l' (start + 1)) /\
                 le (pget l' (start + 1)) (pget l' (start + n - 1))).
Proof.
  intros Hs Hn Hl offset pivot.
  assert (Hoff : offset = n / 2) by (unfold offset; rewrite Z.shiftr_div_pow2 by lia; done).
  assert (Hp : start + 8 <= pivot /\ pivot + 1 < start + n) by (unfold pivot; rewrite Hoff; Z.to_euclidean_division_equations; lia).
  assert (Hpiv : pivot = start + n / 2) by (unfold pivot; by rewrite Hoff). clearbody pivot.
  apply (reaches_bind _ _ _ _ _ (fun l' => ordering cmpP ->
    le (pget l' start) (pget l' pivot) /\ le (pget l' pivot) (pget l' (start + n - 1)))).
  - destruct (Z.eqb_spec (Z.shiftr n 10) 0) as [He|Hne]; cbn [negb].
    + eapply reaches_mono; [apply (zend_sort_3_ok start (start + n)); lia | lia | lia|].
      intros l' _ _ [_ Hc] O. by apply Hc.
    + rewrite Z.shiftr_div_pow2 in Hne by lia. change (2 ^ 10) with 1024 in Hne. cbv zeta.
      assert (Z.shiftr offset 1 = n / 2 / 2) as -> by (rewrite Hoff, Z.shiftr_div_pow2 by lia; done).
      assert (Hd : 0 < n / 2 / 2 < n / 2 /\ n / 2 + n / 2 / 2 < n - 1) by (Z.to_euclidean_division_equations; lia).
      eapply reaches_mono; [apply (zend_sort_5_ok start (start + n)); lia | lia | lia|].
      intros l' _ _ Hc O. destruct (Hc O) as (H1 & H2 & H3 & H4).
      split; [exact (or_trans _ O _ _ _ H1 H2) | exact (or_trans _ O _ _ _ H3 H4)].
  - intros l1 _ Hl1 Hc. apply reaches_swp; [lia | lia | lia | lia|].
    intros l2 Hl2 Hg O. destruct (Hc O) as [Hc1 Hc2]. sort_values. sort_tests. done.
Qed.

Lemma reaches_bind2 a b l (m : res (list E)) (k k' : list E -> res (list E)) (Q1 Q : list E -> Prop) :
  reaches a b l (rbind m k) Q1 ->
  (forall l1, swaps a b l l1 -> length l1 = length l -> Q1 l1 -> reaches a b l1 (k' l1) Q) ->
  reaches a b l (rbind m (fun l => rbind (k l) k')) Q.
Proof.
  intros Hm Hk. destruct m as [l0|e]; [|destruct Hm as (? & ? & _); done].
  by apply (reaches_bind a b l (k l0) k' Q1).
Qed.

Lemma reaches_from a b l l1 m (Q : list E -> Prop) : swaps a b l l1 -> reaches a b l1 m Q -> reaches a b l m Q.
Proof.
  intros Hs (l2 & E2 & Hs2 & HQ). exists l2. split; [done|]. split; [by apply (swaps_trans _ _ _ l1) | done].
Qed.

Lemma zend_sort_rec_ok : forall fuel l start n,
  0 <= start -> 0 <= n -> start + n <= len l -> (Z.to_nat n < fuel)%nat ->
  reaches start (start + n) l (zend_sort_rec cmp swp fuel l start n) (fun l' =>
    ordering cmpP -> sorted l' start (start + n)).
Proof.
  induction fuel as [|fuel IH]; intros l start n Hs Hn Hl Hf; [lia|]. cbn [zend_sort_rec].
  destruct (Z.leb_spec n 16) as [Hle|Hgt]; [by apply zend_insert_sort_ok|].
  eapply reaches_bind2; [apply choose_pivot_ok; lia|]. intros l1 _ Hl1 Hc.
  destruct (partition_loop_ok (start + 1) (start + 2) (start + n) ltac:(lia) (S (Z.to_nat n)) l1
              (start + 1 + 1) (start + n - 1)) as (l2 & i & -> & Hs2 & Hi & Hq); try lia.
  rsimp. pose proof (swaps_length _ _ _ _ Hs2) as Hl2.
  apply (reaches_from _ _ _ l2); [apply (swaps_mono _ _ _ _ _ _ Hs2); lia|].
  apply reaches_swp_then; [lia | lia | lia | lia|]. intros l3 Hl3 Hg.
  assert (Hsp : ordering cmpP -> split_at l3 start (i - 1) (i - 1 + 1) (start + n) (pget l3 (i - 1))).
  { intros O. destruct (Hc O) as [Hc1 Hc2].
    assert (Hout : forall k, start <= k < start + 2 -> pget l2 k = pget l1 k).
    { intros k Hk. apply (swaps_out (start + 2) (start + n)); [lia | done | lia | lia]. }
    destruct (Hq O) as [Hlo Hhi].
    { split; intros k Hk; [lia|]. by replace k with (start + n - 1) by lia. }
    rewrite <- (Hout (start + 1)) in Hlo, Hhi by lia.
    split; intros k Hk; rewrite (Hg (i - 1)), Z.eqb_refl, (Hg k) by lia.
    - zcases; try lia.
      + apply Hlo. lia.
      + destruct (decide (k = start)) as [->|]; [rewrite !Hout by lia; done | apply Hlo; lia].
    - zcases; try lia. apply Hhi. lia. }
  destruct (sort_sides l3 start (i - 1) (start + n) ltac:(lia) ltac:(lia) ltac:(lia) ltac:(lia) Hsp
              (fun l => zend_sort_rec cmp swp fuel l start (i - start - 1))
              (fun l => zend_sort_rec cmp swp fuel l i (start + n - i))) as [H1 H2].
  - intros l4 Hl4. replace (i - 1) with (start + (i - start - 1)) by lia. apply IH; lia.
  - intros l4 Hl4. replace (i - 1 + 1) with i by lia.
    pose proof (IH l4 i (start + n - i) ltac:(lia) ltac:(lia) ltac:(lia) ltac:(lia)) as IH4.
    replace (i + (start + n - i)) with (start + n) in IH4 by lia. done.
  - destruct (_ <? _); done.
Qed.

Lemma zend_sort_ok l base n : 0 <= base -> 0 <= n -> base + n <= len l ->
  reaches base (base + n) l (zend_sort cmp swp l base n) (fun l' =>
    ordering cmpP -> sorted l' base (base + n)).
Proof. intros. apply zend_sort_rec_ok; lia. Qed.

(** ** [zend_qsort] *)
Lemma qsort_up_ok l pv seg2 : 0 <= pv < len l -> seg2 <= len l -> forall fuel seg1,
  0 <= seg1 -> (Z.to_nat (seg2 - seg1) < fuel)%nat ->
  exists s, qsort_up cmp fuel l pv seg1 seg2 = Ok s /\ seg1 <= s <= Z.max seg1 seg2 /\
    (s < seg2 -> le (pget l pv) (pget l s)) /\
    (ordering cmpP -> forall k, seg1 <= k < s -> le (pget l k) (pget l pv)).
Proof.
  intros Hpv Hl. induction fuel as [|fuel IH]; intros seg1 Hs Hf; [lia|]. simpl.
  destruct (Z.ltb_spec seg1 seg2) as [Hlt|Hge]; [|by exists seg1; repeat split; try lia].
  sort_cmp.
  - destruct (IH (seg1 + 1) ltac:(lia) ltac:(lia)) as (s & -> & Hs' & Hstop & Hall).
    exists s. split; [done|]. split; [lia|]. split; [done|]. intros O k Hk.
    destruct (decide (k = seg1)) as [->|]; [by apply gtb_true | apply Hall; [done | lia]].
  - exists seg1. split; [done|]. split; [lia|]. split; [|intros; lia]. intros _. by apply gtb_false.
Qed.

Lemma qsort_down_ok l pv seg1 : 0 <= pv < len l -> 0 <= seg1 -> forall fuel seg2,
  seg1 - 1 <= seg2 < len l -> (Z.to_nat (seg2 - seg1 + 1) < fuel)%nat ->
  exists s, qsort_down cmp fuel l pv seg1 seg2 = Ok s /\ seg1 - 1 <= s <= seg2 /\
    (seg1 <= s -> le (pget l s) (pget l pv)) /\
    (ordering cmpP -> forall k, s < k <= seg2 -> le (pget l pv) (pget l k)).
Proof.
  intros Hpv Hl. induction fuel as [|fuel IH]; intros seg2 Hs Hf; [lia|]. simpl.
  destruct (Z.leb_spec seg1 seg2) as [Hle|Hgt]; [|by exists seg2; repeat split; try lia].
  sort_cmp.
  - destruct (IH (seg2 - 1) ltac:(lia) ltac:(lia)) as (s & -> & Hs' & Hstop & Hall).
    exists s. split; [done|]. split; [lia|]. split; [done|]. intros O k Hk.
    destruct (decide (k = seg2)) as [->|]; [by apply gtb_true | apply Hall; [done | lia]].
  - exists seg2. split; [done|]. split; [lia|]. split; [|intros; lia]. intros _. by apply gtb_false.
Qed.

Lemma qsort_partition_ok pv fin : 0 <= pv -> forall fuel l seg1 seg2,
  fin < len l -> pv < seg1 -> seg1 - 1 <= seg2 <= fin -> (Z.to_nat (seg2 - seg1 + 1) < fuel)%nat ->
  exists l' s, qsort_partition cmp swp fuel l pv seg1 seg2 = Ok (l', s) /\
    swaps (pv + 1) (fin + 1) l l' /\ seg1 - 1 <= s <= seg2 /\
    (ordering cmpP -> split_at l (pv + 1) seg1 (seg2 + 1) (fin + 1) (pget l pv) ->
       split_at l' (pv + 1) (s + 1) (s + 1) (fin + 1) (pget l pv)).
Proof.
  intros Hpv. induction fuel as [|fuel IH]; intros l seg1 seg2 Hl H1 H2 Hf; [lia|]. cbn [qsort_partition].
  destruct (qsort_up_ok l pv seg2 ltac:(lia) ltac:(lia) (S (Z.to_nat (seg2 - seg1))) seg1 ltac:(lia) ltac:(lia))
    as (s1 & -> & Hs1 & Hstop1 & Hup). rsimp.
  destruct (qsort_down_ok l pv s1 ltac:(lia) ltac:(lia) (S (S (Z.to_nat (seg2 - s1)))) seg2 ltac:(lia) ltac:(lia))
    as (s2 & -> & Hs2 & Hstop2 & Hdown). rsimp.
  assert (Hmid : ordering cmpP -> split_at l (pv + 1) seg1 (seg2 + 1) (fin + 1) (pget l pv) ->
                 split_at l (pv + 1) s1 (s2 + 1) (fin + 1) (pget l pv)).
  { intros O [Hlo Hhi]. split; intros k Hk.
    - destruct (Z.lt_ge_cases k seg1); [apply Hlo; lia | apply Hup; [done | lia]].
    - destruct (Z.le_gt_cases k seg2); [apply Hdown; [done | lia] | apply Hhi; lia]. }
  destruct (Z.leb_spec s2 s1) as [Hbreak|Hgo].
  - exists l, s2. split; [done|]. split; [apply swaps_refl|]. split; [lia|].
    intros O Hsp. destruct (Hmid O Hsp) as [Hlo Hhi]. split; [|done]. intros k Hk.
    destruct (decide (k = s1)) as [->|]; [|apply Hlo; lia].
    replace s1 with s2 in * by lia. apply Hstop2. lia.
  - destruct (swp_at_ok l s1 s2 ltac:(lia) ltac:(lia)) as (l1 & E1 & Hl1 & Hg). rewrite E1. rsimp.
    assert (Hsw : swaps (pv + 1) (fin + 1) l l1) by (apply (swaps_one _ _ _ _ s1 s2); [lia | lia | done]).
    destruct (IH l1 (s1 + 1) (s2 - 1) ltac:(lia) ltac:(lia) ltac:(lia) ltac:(lia))
      as (l2 & s & -> & Hs2' & Hs & Hq).
    exists l2, s. split; [done|]. split; [by apply (swaps_trans _ _ _ l1)|]. split; [lia|].
    intros O Hsp. destruct (Hmid O Hsp) as [Hlo Hhi].
    rewrite (swaps_out (pv + 1) (fin + 1) l l1 pv) in Hq by (done || lia). apply Hq; [done|].
    replace (s2 - 1 + 1) with s2 by lia.
    split; intros k Hk; rewrite Hg by lia; zcases; subst; try lia.
    + apply Hstop2. lia.
    + apply Hlo. lia.
    + apply Hstop1. lia.
    + apply Hhi. lia.
Qed.

(** The loop goes on with the segment on top of the stacks. *)
Definition qsort_next (fuel : nat) (l : list E) (stk : list (Z * Z)) : res (list E) :=
  match stk with
  | [] => Ok l
  | (begin, fin) :: stk => qsort_loop cmp swp fuel l begin fin stk
  end.

(** Partitioning [begin .. fin] around the element at [seg2]. *)
Lemma qsort_split_ok l begin fin : 0 <= begin -> begin < fin -> fin < len l ->
  exists l1 l2 l3 m,
    swp_at swp l begin (begin + Z.shiftr (fin - begin) 1) = Ok l1 /\
    qsort_partition cmp swp (S (Z.to_nat (fin - begin))) l1 begin (begin + 1) fin = Ok (l2, m) /\
    swp_at swp l2 begin m = Ok l3 /\ begin <= m <= fin /\ swaps begin (fin + 1) l l3 /\
    (ordering cmpP -> split_at l3 begin m (m + 1) (fin + 1) (pget l3 m)).
Proof.
  intros Hb Hf Hl. rewrite Z.shiftr_div_pow2 by lia. change (2 ^ 1) with 2.
  assert (Ho : 0 <= (fin - begin) / 2 <= fin - begin) by (Z.to_euclidean_division_equations; lia).
  destruct (swp_at_ok l begin (begin + (fin - begin) / 2) ltac:(lia) ltac:(lia)) as (l1 & E1 & Hl1 & _).
  destruct (qsort_partition_ok begin fin Hb (S (Z.to_nat (fin - begin))) l1 (begin + 1) fin
              ltac:(lia) ltac:(lia) ltac:(lia) ltac:(lia)) as (l2 & m & E2 & Hs2 & Hm & Hq).
  pose proof (swaps_length _ _ _ _ Hs2) as Hl2.
  destruct (swp_at_ok l2 begin m ltac:(lia) ltac:(lia)) as (l3 & E3 & Hl3 & Hg).
  exists l1, l2, l3, m. split; [done|]. split; [done|]. split; [done|]. split; [lia|]. split.
  - apply (swaps_step _ _ _ l1 _ begin (begin + (fin - begin) / 2)); [lia | lia | done |].
    apply (swaps_trans _ _ _ l2); [apply (swaps_mono (begin + 1) (fin + 1)); done || lia|].
    apply (swaps_one _ _ _ _ begin m); [lia | lia | done].
  - intros O. destruct (Hq O) as [Hlo Hhi]; [split; intros; lia|].
    rewrite <- (swaps_out (begin + 1) (fin + 1) l1 l2 begin) in Hlo, Hhi by (done || lia).
    split; intros k Hk; rewrite (Hg m), Z.eqb_refl, (Hg k) by lia; zcases; try lia.
    + apply Hlo. lia.
    + apply Hlo. lia.
    + apply Hhi. lia.
Qed.

Lemma qsort_push_ok stk seg : Z.of_nat (length stk) < 64 -> qsort_push stk seg = Ok (seg :: stk).
Proof. intros Hs. unfold qsort_push, QSORT_STACK_SIZE. zcases; [lia | done]. Qed.

(** A side that the code pushes: it pops it when the other side is sorted. *)
Lemma qsort_waiting (b : bool) n begin fin stk :
  n * 2 ^ Z.of_nat (length stk) < 2 ^ 64 -> 2 <= n ->
  exists stk', (if b then qsort_push stk (begin, fin) else Ok stk) = Ok stk' /\
    stk' = (if b then (begin, fin) :: stk else stk) /\
    Z.of_nat (length stk') <= Z.of_nat (length stk) + 1.
Proof.
  intros Hn H2. destruct b; (eexists; split; [|split; [reflexivity|simpl; lia]]); [|done].
  apply qsort_push_ok. destruct (Z.lt_ge_cases (Z.of_nat (length stk)) 64) as [|Hge]; [done|].
  pose proof (Z.pow_le_mono_r 2 64 (Z.of_nat (length stk)) ltac:(lia) Hge). nia.
Qed.

Lemma pow_half n d d' k : 0 <= d -> 0 <= d' <= d + 1 -> 0 <= k -> 2 * k < n ->
  n * 2 ^ d < 2 ^ 64 -> k * 2 ^ d' < 2 ^ 64.
Proof.
  intros Hd Hd' Hk Hkn Hn. pose proof (Z.pow_le_mono_r 2 d' (d + 1) ltac:(lia) ltac:(lia)) as Hp.
  rewrite Z.pow_add_r in Hp by lia. change (2 ^ 1) with 2 in Hp.
  pose proof (Z.pow_pos_nonneg 2 d ltac:(lia) Hd). nia.
Qed.

(** The loop on a segment of [n] elements sorts it and goes on with the
    stacks as they were, in at most [2 * n + 1] iterations. *)
Definition seg_sorts (n : nat) : Prop :=
  forall l begin fin stk, Z.of_nat n = fin - begin + 1 -> 0 <= begin -> fin < len l ->
  Z.of_nat n * 2 ^ Z.of_nat (length stk) < 2 ^ 64 ->
  exists k l', (k <= 2 * n + 1)%nat /\
    (forall fuel, qsort_loop cmp swp (k + fuel) l begin fin stk = qsort_next fuel l' stk) /\
    swaps begin (fin + 1) l l' /\ (ordering cmpP -> sorted l' begin (fin + 1)).

(** The side that may have been pushed. *)
Lemma qsort_second n l begin fin stk : seg_sorts n ->
  Z.of_nat n = fin - begin + 1 -> 0 <= begin -> fin < len l ->
  Z.of_nat n * 2 ^ Z.of_nat (length stk) < 2 ^ 64 ->
  exists k l', (k <= 2 * n + 1)%nat /\
    (forall fuel, qsort_next (k + fuel) l (if begin <? fin then (begin, fin) :: stk else stk)
                  = qsort_next fuel l' stk) /\
    swaps begin (fin + 1) l l' /\ (ordering cmpP -> sorted l' begin (fin + 1)).
Proof.
  intros Hseg Hn Hb Hf Hd. destruct (Z.ltb_spec begin fin); [by apply Hseg|].
  exists 0%nat, l. split; [lia|]. split; [done|]. split; [apply swaps_refl|].
  intros O. apply sorted_one; [done | lia].
Qed.

(** One iteration on a segment of two elements or more. *)
Lemma qsort_loop_step l begin fin stk : 0 <= begin -> begin < fin -> fin < len l ->
  (fin - begin + 1) * 2 ^ Z.of_nat (length stk) < 2 ^ 64 ->
  exists l3 m, begin <= m <= fin /\ swaps begin (fin + 1) l l3 /\
    (ordering cmpP -> split_at l3 begin m (m + 1) (fin + 1) (pget l3 m)) /\
    forall fuel, qsort_loop cmp swp (S fuel) l begin fin stk =
      if m - begin <=? fin - m then
        qsort_loop cmp swp fuel l3 begin (m - 1) (if m + 1 <? fin then (m + 1, fin) :: stk else stk)
      else qsort_loop cmp swp fuel l3 (m + 1) fin (if begin <? m - 1 then (begin, m - 1) :: stk else stk).
Proof.
  intros Hb Hlt Hf Hd.
  destruct (qsort_split_ok l begin fin Hb Hlt Hf) as (l1 & l2 & l3 & m & E1 & E2 & E3 & Hm & Hs3 & Hsp).
  exists l3, m. split; [done|]. split; [done|]. split; [done|]. intros fuel.
  cbn [qsort_loop]. rewrite (proj2 (Z.ltb_lt _ _) Hlt), E1. rsimp. rewrite E2. rsimp. rewrite E3. rsimp.
  destruct (_ <=? _).
  - destruct (qsort_waiting (m + 1 <? fin) _ (m + 1) fin stk Hd ltac:(lia)) as (stk' & -> & -> & _). done.
  - destruct (qsort_waiting (begin <? m - 1) _ begin (m - 1) stk Hd ltac:(lia)) as (stk' & -> & -> & _). done.
Qed.

Lemma qsort_seg_ok n : seg_sorts n.
Proof.
  induction n as [n IH] using lt_wf_ind. intros l begin fin stk Hn Hb Hf Hd.
  destruct (Z.ltb_spec begin fin) as [Hlt|Hge].
  2:{ exists 1%nat, l. split; [lia|]. split.
      { intros fuel. cbn [Nat.add qsort_loop]. by rewrite (proj2 (Z.ltb_ge _ _) Hge). }
      split; [apply swaps_refl|]. intros O. apply sorted_one; [done | lia]. }
  rewrite Hn in Hd.
  destruct (qsort_loop_step l begin fin stk Hb Hlt Hf Hd) as (l3 & m & Hm & Hs3 & Hsp & Hstep).
  pose proof (swaps_length _ _ _ _ Hs3) as Hl3.
  assert (Hdep : forall (b : bool) x, Z.of_nat (length (if b then x :: stk else stk : list (Z * Z)))
                                   <= Z.of_nat (length stk) + 1) by (intros [] ?; simpl; lia).
  destruct (Z_of_nat_complete (m - begin) ltac:(lia)) as (nl & Hnl).
  destruct (Z_of_nat_complete (fin - m) ltac:(lia)) as (nr & Hnr).
  destruct (Z.leb_spec (m - begin) (fin - m)) as [Hle|Hgt].
  - destruct (IH nl ltac:(lia) l3 begin (m - 1) (if m + 1 <? fin then (m + 1, fin) :: stk else stk))
      as (k1 & l4 & Hk1 & E1 & Hs4 & So4); [lia | lia | lia | |].
    { apply (pow_half (fin - begin + 1) (Z.of_nat (length stk)));
        [lia | split; [lia | apply Hdep] | lia | lia | exact Hd]. }
    pose proof (swaps_length _ _ _ _ Hs4) as Hl4.
    destruct (qsort_second nr l4 (m + 1) fin stk) as (k2 & l5 & Hk2 & E2 & Hs5 & So5); [apply IH; lia | lia | lia | lia | |].
    { pose proof (Z.pow_pos_nonneg 2 (Z.of_nat (length stk))). nia. }
    exists (S (k1 + k2)), l5. split; [lia|]. split.
    { intros fuel. cbn [Nat.add]. rewrite Hstep, <- Nat.add_assoc, E1. apply E2. }
    replace (m - 1 + 1) with m in * by lia.
    destruct (sides_left_right l3 begin m (fin + 1) ltac:(lia) ltac:(lia) ltac:(lia) ltac:(lia) Hsp l4 l5) as [H1 H2]; try done.
    split; [by apply (swaps_trans _ _ _ l3) | done].
  - destruct (IH nr ltac:(lia) l3 (m + 1) fin (if begin <? m - 1 then (begin, m - 1) :: stk else stk))
      as (k1 & l4 & Hk1 & E1 & Hs4 & So4); [lia | lia | lia | |].
    { apply (pow_half (fin - begin + 1) (Z.of_nat (length stk)));
        [lia | split; [lia | apply Hdep] | lia | lia | exact Hd]. }
    pose proof (swaps_length _ _ _ _ Hs4) as Hl4.
    destruct (qsort_second nl l4 begin (m - 1) stk) as (k2 & l5 & Hk2 & E2 & Hs5 & So5); [apply IH; lia | lia | lia | lia | |].
    { pose proof (Z.pow_pos_nonneg 2 (Z.of_nat (length stk))). nia. }
    exists (S (k1 + k2)), l5. split; [lia|]. split.
    { intros fuel. cbn [Nat.add]. rewrite Hstep, <- Nat.add_assoc, E1. apply E2. }
    replace (m - 1 + 1) with m in * by lia.
    destruct (sides_right_left l3 begin m (fin + 1) ltac:(lia) ltac:(lia) ltac:(lia) ltac:(lia) Hsp l4 l5) as [H1 H2]; try done.
    split; [by apply (swaps_trans _ _ _ l3) | done].
Qed.

Lemma zend_qsort_ok l base n : 0 <= base -> 0 <= n < 2 ^ 64 -> base + n <= len l ->
  reaches base (base + n) l (zend_qsort cmp swp l base n) (fun l' =>
    ordering cmpP -> sorted l' base (base + n)).
Proof.
  intros Hb Hn Hl.
  destruct (qsort_seg_ok (Z.to_nat n) l base (base + n - 1) []) as (k & l' & Hk & Erun & Hs & So);
    [lia | lia | lia | simpl length; change (2 ^ Z.of_nat 0) with 1; lia |].
  replace (base + n - 1 + 1) with (base + n) in * by lia. exists l'. split; [|done].
  unfold zend_qsort. replace (S (2 * Z.to_nat n)) with (k + (S (2 * Z.to_nat n) - k))%nat by lia. apply Erun.
Qed.
End SortFacts.

(** ** Properties *)

(** What a sort of the [n] elements from [base] on leaves: the parts [pay] are
    permuted, the parts [rest] and the elements outside the range stay; when
    the comparison is an ordering, no element is greater than a later one. *)
Record sort_result {E P R} (cmp : E -> E -> Z) (cmpP : P -> P -> Z) (pay : E -> P) (rest : E -> R)
    (l : list E) (base n : Z) (l' : list E) : Prop := {
  sr_perm : Permutation (map pay l') (map pay l);
  sr_rest : map rest l' = map rest l;
  sr_frame k : ~ base <= Z.of_nat k < base + n -> l' !! k = l !! k;
  sr_sorted : ordering cmpP -> forall i j x y, base <= i -> i <= j -> j < base + n ->
    aget l' i = Ok x -> aget l' j = Ok y -> ~ 0 < cmp x y;
}.

Section SortProperties.
Context {E P R : Type} (cmp : E -> E -> Z) (swp : E -> E -> E * E).
Context (cmpP : P -> P -> Z) (pay : E -> P) (rest : E -> R).

Lemma reaches_result `{Inhabited E} l base n m : exchanges cmp swp cmpP pay rest -> 0 <= base ->
  reaches swp base (base + n) l m (fun l' => ordering cmpP -> sorted cmpP pay l' base (base + n)) ->
  exists l', m = Ok l' /\ sort_result cmp cmpP pay rest l base n l'.
Proof.
  intros EX Hb (l' & -> & Hs & So). exists l'. split; [done|]. split.
  - by apply (swaps_perm cmp swp cmpP pay rest EX base (base + n)).
  - by apply (swaps_rest cmp swp cmpP pay rest EX base (base + n)).
  - by apply (swaps_frame swp base (base + n)).
  - intros O i j x y Hi Hij Hj Ex Ey. rewrite (ex_cmp _ _ _ _ _ EX).
    apply aget_inv in Ex as (i' & -> & Hx). apply aget_inv in Ey as (j' & -> & Hy).
    pose proof (So O _ _ Hi Hij Hj) as Hle. unfold le, pget in Hle. rewrite !Nat2Z.id in Hle.
    by rewrite (list_lookup_total_correct _ _ _ Hx), (list_lookup_total_correct _ _ _ Hy) in Hle.
Qed.

Lemma sort_nothing base n (l : list E) : l = [] -> 0 <= base -> base + n <= Z.of_nat (length l) -> 0 <= n ->
  base = 0 /\ n = 0 /\ sort_result cmp cmpP pay rest l 0 0 l.
Proof.
  intros -> Hb Hn Hn0. simpl in Hn. split; [lia|]. split; [lia|]. split; try done. intros. lia.
Qed.

(** C32: [zend_sort] on any range of an array ends, stays inside the
    range and only exchanges elements, whatever the comparison answers; when
    the comparison is a total preorder the range is sorted afterwards. *)
Theorem zend_sort_correct l base n : exchanges cmp swp cmpP pay rest ->
  0 <= base -> 0 <= n -> base + n <= Z.of_nat (length l) ->
  exists l', zend_sort cmp swp l base n = Ok l' /\ sort_result cmp cmpP pay rest l base n l'.
Proof.
  intros EX Hb Hn Hl. destruct l as [|x l].
  - destruct (sort_nothing base n [] eq_refl Hb Hl Hn) as (-> & -> & Hr). by exists [].
  - pose (populate x : Inhabited E). apply reaches_result; [done | done|].
    by apply (zend_sort_ok cmp swp cmpP pay rest EX).
Qed.

(** The same for [zend_insert_sort]: the sorting networks up to
    five elements, the linear search for the first six and the search in
    steps of two after them. *)
Theorem zend_insert_sort_correct l base n : exchanges cmp swp cmpP pay rest ->
  0 <= base -> 0 <= n -> base + n <= Z.of_nat (length l) ->
  exists l', zend_insert_sort cmp swp l base n = Ok l' /\ sort_result cmp cmpP pay rest l base n l'.
Proof.
  intros EX Hb Hn Hl. destruct l as [|x l].
  - destruct (sort_nothing base n [] eq_refl Hb Hl Hn) as (-> & -> & Hr). by exists [].
  - pose (populate x : Inhabited E). apply reaches_result; [done | done|].
    by apply (zend_insert_sort_ok cmp swp cmpP pay rest EX).
Qed.

(** C33: The same for [zend_qsort], whose 64-entry stacks of waiting
    segments never overflow for an array that fits the address space. *)
Theorem zend_qsort_correct l base n : exchanges cmp swp cmpP pay rest ->
  0 <= base -> 0 <= n < 2 ^ 64 -> base + n <= Z.of_nat (length l) ->
  exists l', zend_qsort cmp swp l base n = Ok l' /\ sort_result cmp cmpP pay rest l base n l'.
Proof.
  intros EX Hb Hn Hl. destruct l as [|x l].
  - destruct (sort_nothing base n [] eq_refl Hb Hl ltac:(lia)) as (-> & -> & Hr). by exists [].
  - pose (populate x : Inhabited E). apply reaches_result; [done | done|].
    by apply (zend_qsort_ok cmp swp cmpP pay rest EX).
Qed.
End SortProperties.

(** ** Witnesses *)
Definition sample_cmp (a b : Z * Z) : Z := a.1 - b.1.
Definition sample_swp (a b : Z * Z) : (Z * Z) * (Z * Z) := ((b.1, a.2), (a.1, b.2)).
Definition sample_array : list (Z * Z) :=
  map (fun i => ((i * 7 + 3) mod 11, i)) (seqZ 0 20).

Lemma sample_exchanges : exchanges sample_cmp sample_swp Z.sub fst snd.
Proof. by split. Qed.

Lemma sub_ordering : ordering Z.sub.
Proof. split; lia. Qed.

Lemma zend_sort_correct_witness :
  exists l', zend_sort sample_cmp sample_swp sample_array 1 18 = Ok l' /\
    sort_result sample_cmp Z.sub fst snd sample_array 1 18 l'.
Proof. apply zend_sort_correct; [apply sample_exchanges | lia | lia | vm_compute; discriminate]. Defined.

Lemma zend_insert_sort_correct_witness :
  exists l', zend_insert_sort sample_cmp sample_swp sample_array 2 9 = Ok l' /\
    sort_result sample_cmp Z.sub fst snd sample_array 2 9 l'.
Proof. apply zend_insert_sort_correct; [apply sample_exchanges | lia | lia | vm_compute; discriminate]. Defined.

Lemma zend_qsort_correct_witness :
  exists l', zend_qsort sample_cmp sample_swp sample_array 0 20 = Ok l' /\
    sort_result sample_cmp Z.sub fst snd sample_array 0 20 l'.
Proof. apply zend_qsort_correct; [apply sample_exchanges | lia | lia | vm_compute; discriminate]. Defined.

(** Equal elements may change places: the insertion sort is not stable on
    more than five elements, when the new element equals the first one. *)
Example insert_sort_not_stable :
  let l := [(1, 0); (2, 1); (3, 2); (4, 3); (5, 4); (6, 5); (1, 6)] in
  zend_insert_sort sample_cmp (fun a b => (b, a)) l 0 7 =
    Ok [(1, 6); (1, 0); (2, 1); (3, 2); (4, 3); (5, 4); (6, 5)].
Proof. vm_compute. reflexivity. Qed.
