(* ===== verification/SortFunc.v ===== *)
(** * The interface of a sort ([sort_func_t], [Zend/zend_types.h])

    [zend_hash_sort_ex] takes the sort as an argument.  [SortFunc] is what it
    relies on: the result of [ZendSort.sort_result], and that a run only
    depends on what the comparison and the swap do on the elements of the
    array.  [zend_sort], [zend_insert_sort] and [zend_qsort] are instances. *)
From S2P Require Export ZendSort.

Definition sort_func (E : Type) : Type :=
  (E -> E -> Z) -> (E -> E -> E * E) -> list E -> Z -> Z -> res (list E).

(** Two pairs of a comparison and a swap that agree on the elements with the
    property [ok], which the swap preserves. *)
Record agree {E} (ok : E -> Prop) (cmp1 cmp2 : E -> E -> Z) (swp1 swp2 : E -> E -> E * E) : Prop := {
  ag_cmp a b : ok a -> ok b -> cmp1 a b = cmp2 a b;
  ag_swp a b : ok a -> ok b -> swp1 a b = swp2 a b;
  ag_ok a b : ok a -> ok b -> ok (fst (swp2 a b)) /\ ok (snd (swp2 a b));
}.

Class SortFunc {E} (sort : sort_func E) : Prop := {
  sort_spec {P R : Type} cmp swp (cmpP : P -> P -> Z) (pay : E -> P) (rest : E -> R) l base n :
    exchanges cmp swp cmpP pay rest -> 0 <= base -> 0 <= n < 2 ^ 64 -> base + n <= Z.of_nat (length l) ->
    exists l', sort cmp swp l base n = Ok l' /\ sort_result cmp cmpP pay rest l base n l';
  sort_agree ok cmp1 cmp2 swp1 swp2 l post base n l' :
    agree ok cmp1 cmp2 swp1 swp2 -> Forall ok l ->
    sort cmp2 swp2 l base n = Ok l' -> sort cmp1 swp1 (l ++ post) base n = Ok (l' ++ post);
}.

(** ** Runs that agree

    [l2] is sorted with [cmp2] and [swp2]; the same run with [cmp1] and [swp1]
    on [l2 ++ post] does the same and leaves [post] alone. *)
Section Agree.
Context {E : Type} (ok : E -> Prop) (cmp1 cmp2 : E -> E -> Z) (swp1 swp2 : E -> E -> E * E).
Context (AG : agree ok cmp1 cmp2 swp1 swp2) (post : list E).

(** Whatever the second run returns, the first one returns. *)
Definition follows {A} (m1 m2 : res A) : Prop := forall a, m2 = Ok a -> m1 = Ok a.

Definition same (m1 m2 : res (list E)) : Prop :=
  forall l, m2 = Ok l -> m1 = Ok (l ++ post) /\ Forall ok l.

Definition same_at (m1 m2 : res (list E * Z)) : Prop :=
  forall l i, m2 = Ok (l, i) -> m1 = Ok (l ++ post, i) /\ Forall ok l.

Lemma same_ret l : Forall ok l -> same (Ok (l ++ post)) (Ok l).
Proof. by intros H l' [= <-]. Qed.

Lemma same_at_ret l i : Forall ok l -> same_at (Ok (l ++ post, i)) (Ok (l, i)).
Proof. by intros H ? ? [= <- <-]. Qed.

Lemma same_bind m1 m2 k1 k2 : same m1 m2 -> (forall l, Forall ok l -> same (k1 (l ++ post)) (k2 l)) ->
  same (rbind m1 k1) (rbind m2 k2).
Proof. intros Hm Hk l'. destruct m2 as [l|e]; [|done]. destruct (Hm l eq_refl) as [-> Hl]. by apply Hk. Qed.

Lemma same_bind_at m1 m2 k1 k2 : same m1 m2 -> (forall l, Forall ok l -> same_at (k1 (l ++ post)) (k2 l)) ->
  same_at (rbind m1 k1) (rbind m2 k2).
Proof. intros Hm Hk l' i. destruct m2 as [l|e]; [|done]. destruct (Hm l eq_refl) as [-> Hl]. by apply Hk. Qed.

Lemma same_at_bind m1 m2 k1 k2 : same_at m1 m2 ->
  (forall l i, Forall ok l -> same (k1 (l ++ post, i)) (k2 (l, i))) -> same (rbind m1 k1) (rbind m2 k2).
Proof.
  intros Hm Hk l'. destruct m2 as [[l i]|e]; [|done]. destruct (Hm l i eq_refl) as [-> Hl]. by apply Hk.
Qed.

(** The same answer to a question, then runs that agree. *)
Lemma same_ask {A} (m1 m2 : res A) k1 k2 : follows m1 m2 -> (forall a, same (k1 a) (k2 a)) ->
  same (rbind m1 k1) (rbind m2 k2).
Proof. intros Hm Hk l'. destruct m2 as [a|e]; [|done]. rewrite (Hm a eq_refl). apply Hk. Qed.

Lemma same_ask_at {A} (m1 m2 : res A) k1 k2 : follows m1 m2 -> (forall a, same_at (k1 a) (k2 a)) ->
  same_at (rbind m1 k1) (rbind m2 k2).
Proof. intros Hm Hk l' i. destruct m2 as [a|e]; [|done]. rewrite (Hm a eq_refl). apply Hk. Qed.

Lemma follows_refl {A} (m : res A) : follows m m.
Proof. by intros a. Qed.

Lemma follows_bind {A B} (m1 m2 : res A) (k1 k2 : A -> res B) : follows m1 m2 ->
  (forall a, follows (k1 a) (k2 a)) -> follows (rbind m1 k1) (rbind m2 k2).
Proof. intros Hm Hk b. destruct m2 as [a|e]; [|done]. rewrite (Hm a eq_refl). apply Hk. Qed.

Lemma aget_post l i x : aget l i = Ok x -> aget (l ++ post) i = Ok x.
Proof.
  intros Hx. apply aget_inv in Hx as (n & -> & Hn). apply aget_ok. by apply lookup_app_l_Some.
Qed.

Lemma aset_same l i x : Forall ok l -> ok x -> same (aset (l ++ post) i x) (aset l i x).
Proof.
  intros Hl Hx l'. unfold aset. rewrite length_app.
  destruct ((i <? 0) || (Z.of_nat (length l) <=? i)) eqn:E1; [done|]. intros [= <-].
  apply orb_false_elim in E1 as [E1 E2]. zbool.
  rewrite (proj2 (Z.ltb_ge _ _)), (proj2 (Z.leb_gt _ _)) by lia. simpl.
  rewrite insert_app_l by lia. split; [done|]. by apply Forall_insert.
Qed.

Lemma aget_Forall l i x : Forall ok l -> aget l i = Ok x -> ok x.
Proof. intros Hl Hx. apply aget_inv in Hx as (n & _ & Hn). by eapply Forall_lookup_1. Qed.

Lemma cmp_gt_same l i j : Forall ok l -> follows (cmp_gt cmp1 (l ++ post) i j) (cmp_gt cmp2 l i j).
Proof.
  intros Hl b. unfold cmp_gt. destruct (aget l i) as [x|] eqn:Ex; [|done]. simpl.
  destruct (aget l j) as [y|] eqn:Ey; [|done]. rewrite (aget_post _ _ _ Ex), (aget_post _ _ _ Ey). simpl.
  rewrite (ag_cmp _ _ _ _ _ AG); eauto using aget_Forall.
Qed.

Lemma swp_at_same l i j : Forall ok l -> same (swp_at swp1 (l ++ post) i j) (swp_at swp2 l i j).
Proof.
  intros Hl. unfold swp_at. destruct (aget l i) as [x|] eqn:Ex; [|done].
  destruct (aget l j) as [y|] eqn:Ey; [|done]. rewrite (aget_post _ _ _ Ex), (aget_post _ _ _ Ey). simpl.
  assert (Hx : ok x) by eauto using aget_Forall. assert (Hy : ok y) by eauto using aget_Forall.
  rewrite (ag_swp _ _ _ _ _ AG) by done. destruct (ag_ok _ _ _ _ _ AG x y Hx Hy).
  destruct (swp2 x y) as [x' y']. simpl in *. apply same_bind; [by apply aset_same|].
  intros l1 Hl1. by apply aset_same.
Qed.

(** Follow both runs: they take the same branches. *)
Ltac same_step :=
  match goal with
  | |- forall _, Forall ok _ -> same _ _ => intros ? ?
  | |- forall _ : bool, _ => intros []; cbn [negb]
  | |- same (Ok _) (Ok _) => apply same_ret; assumption
  | |- same (swp_at _ _ _ _) _ => apply swp_at_same; assumption
  | |- same (rbind (swp_at _ _ _ _) _) _ => apply same_bind; [apply swp_at_same; assumption|]
  | |- same (rbind (cmp_gt _ _ _ _) _) _ => apply same_ask; [apply cmp_gt_same; assumption|]
  end.

Lemma zend_sort_2_same l a b : Forall ok l ->
  same (zend_sort_2 cmp1 swp1 (l ++ post) a b) (zend_sort_2 cmp2 swp2 l a b).
Proof. intros Hl. unfold zend_sort_2. repeat same_step. Qed.

Lemma zend_sort_3_same l a b c : Forall ok l ->
  same (zend_sort_3 cmp1 swp1 (l ++ post) a b c) (zend_sort_3 cmp2 swp2 l a b c).
Proof. intros Hl. unfold zend_sort_3. repeat same_step. Qed.

Lemma zend_sort_4_same l a b c d : Forall ok l ->
  same (zend_sort_4 cmp1 swp1 (l ++ post) a b c d) (zend_sort_4 cmp2 swp2 l a b c d).
Proof.
  intros Hl. unfold zend_sort_4. apply same_bind; [by apply zend_sort_3_same|]. repeat same_step.
Qed.

Lemma zend_sort_5_same l a b c d e : Forall ok l ->
  same (zend_sort_5 cmp1 swp1 (l ++ post) a b c d e) (zend_sort_5 cmp2 swp2 l a b c d e).
Proof.
  intros Hl. unfold zend_sort_5. apply same_bind; [by apply zend_sort_4_same|]. repeat same_step.
Qed.

(** *** The searches *)
Ltac follow_cmp := apply follows_bind; [by apply cmp_gt_same|]; intros []; cbn [negb].

Lemma find_linear_same fuel l start i j : Forall ok l ->
  follows (find_linear cmp1 fuel (l ++ post) start i j) (find_linear cmp2 fuel l start i j).
Proof.
  intros Hl. revert j. induction fuel as [|fuel IH]; intros j; [done|]. simpl.
  destruct (negb _); [|apply follows_refl]. follow_cmp; [done | apply follows_refl].
Qed.

Lemma find_pairs_same fuel l start i j : Forall ok l ->
  follows (find_pairs cmp1 fuel (l ++ post) start i j) (find_pairs cmp2 fuel l start i j).
Proof.
  intros Hl. revert j. induction fuel as [|fuel IH]; intros j; [done|]. simpl. follow_cmp.
  - destruct (_ =? _); [apply follows_refl|]. destruct (_ =? _); [|done]. follow_cmp; apply follows_refl.
  - follow_cmp; apply follows_refl.
Qed.

Lemma scan_up_same fuel l pivot i j : Forall ok l ->
  follows (scan_up cmp1 fuel (l ++ post) pivot i j) (scan_up cmp2 fuel l pivot i j).
Proof.
  intros Hl. revert i. induction fuel as [|fuel IH]; intros i; [done|]. simpl.
  follow_cmp; [|apply follows_refl]. destruct (_ =? _); [apply follows_refl | done].
Qed.

Lemma scan_down_same fuel l pivot i j : Forall ok l ->
  follows (scan_down cmp1 fuel (l ++ post) pivot i j) (scan_down cmp2 fuel l pivot i j).
Proof.
  intros Hl. revert j. induction fuel as [|fuel IH]; intros j; [done|]. simpl.
  follow_cmp; [|apply follows_refl]. destruct (_ =? _); [apply follows_refl | done].
Qed.

Lemma qsort_up_same fuel l begin seg1 seg2 : Forall ok l ->
  follows (qsort_up cmp1 fuel (l ++ post) begin seg1 seg2) (qsort_up cmp2 fuel l begin seg1 seg2).
Proof.
  intros Hl. revert seg1. induction fuel as [|fuel IH]; intros seg1; [done|]. simpl.
  destruct (_ <? _); [|apply follows_refl]. follow_cmp; [done | apply follows_refl].
Qed.

Lemma qsort_down_same fuel l begin seg1 seg2 : Forall ok l ->
  follows (qsort_down cmp1 fuel (l ++ post) begin seg1 seg2) (qsort_down cmp2 fuel l begin seg1 seg2).
Proof.
  intros Hl. revert seg2. induction fuel as [|fuel IH]; intros seg2; [done|]. simpl.
  destruct (_ <=? _); [|apply follows_refl]. follow_cmp; [done | apply follows_refl].
Qed.

(** *** The sorts *)
Lemma shift_down_same fuel l k j : Forall ok l ->
  same (shift_down swp1 fuel (l ++ post) k j) (shift_down swp2 fuel l k j).
Proof.
  revert l k. induction fuel as [|fuel IH]; intros l k Hl; [done|]. simpl.
  destruct (_ <? _); [|by apply same_ret]. apply same_bind; [by apply swp_at_same|]. auto.
Qed.

Lemma insert_loop_same fuel find1 find2 l i limit :
  (forall l i j, Forall ok l -> follows (find1 (l ++ post) i j) (find2 l i j)) -> Forall ok l ->
  same (insert_loop cmp1 swp1 fuel find1 (l ++ post) i limit) (insert_loop cmp2 swp2 fuel find2 l i limit).
Proof.
  intros Hf. revert l i. induction fuel as [|fuel IH]; intros l i Hl; [done|]. cbn [insert_loop].
  destruct (_ <? _); [|by apply same_ret].
  apply same_ask; [by apply cmp_gt_same|]. intros []; cbn [negb]; [|auto].
  apply same_ask; [by apply Hf|]. intros j. apply same_bind; [by apply shift_down_same|]. auto.
Qed.

Lemma zend_insert_sort_same l base n : Forall ok l ->
  same (zend_insert_sort cmp1 swp1 (l ++ post) base n) (zend_insert_sort cmp2 swp2 l base n).
Proof.
  intros Hl. unfold zend_insert_sort. destruct (_ || _); [by apply same_ret|].
  destruct (_ =? _); [by apply zend_sort_2_same|]. destruct (_ =? _); [by apply zend_sort_3_same|].
  destruct (_ =? _); [by apply zend_sort_4_same|]. destruct (_ =? _); [by apply zend_sort_5_same|].
  apply same_bind.
  - apply insert_loop_same; [|done]. intros. by apply find_linear_same.
  - intros l1 Hl1. apply insert_loop_same; [|done]. intros. by apply find_pairs_same.
Qed.

Lemma partition_loop_same fuel l pivot i j : Forall ok l ->
  same_at (partition_loop cmp1 swp1 fuel (l ++ post) pivot i j) (partition_loop cmp2 swp2 fuel l pivot i j).
Proof.
  revert l i j. induction fuel as [|fuel IH]; intros l i j Hl; [done|]. cbn [partition_loop].
  apply same_ask_at; [by apply scan_up_same|]. intros [i1 []]; [by apply same_at_ret|].
  destruct (_ =? _); [by apply same_at_ret|].
  apply same_ask_at; [by apply scan_down_same|]. intros [j1 []]; [by apply same_at_ret|].
  apply same_bind_at; [by apply swp_at_same|]. intros l1 Hl1.
  destruct (_ =? _); [by apply same_at_ret | by apply IH].
Qed.

Lemma zend_sort_rec_same fuel l base n : Forall ok l ->
  same (zend_sort_rec cmp1 swp1 fuel (l ++ post) base n) (zend_sort_rec cmp2 swp2 fuel l base n).
Proof.
  revert l base n. induction fuel as [|fuel IH]; intros l base n Hl; [done|]. cbn [zend_sort_rec].
  destruct (_ <=? _); [by apply zend_insert_sort_same|]. apply same_bind.
  { destruct (negb _); [by apply zend_sort_5_same | by apply zend_sort_3_same]. }
  intros l1 Hl1. apply same_bind; [by apply swp_at_same|]. intros l2 Hl2.
  apply same_at_bind; [by apply partition_loop_same|]. intros l3 i Hl3.
  apply same_bind; [by apply swp_at_same|]. intros l4 Hl4.
  destruct (_ <? _); (apply same_bind; [by apply IH | auto]).
Qed.

Lemma qsort_partition_same fuel l begin seg1 seg2 : Forall ok l ->
  same_at (qsort_partition cmp1 swp1 fuel (l ++ post) begin seg1 seg2)
    (qsort_partition cmp2 swp2 fuel l begin seg1 seg2).
Proof.
  revert l seg1 seg2. induction fuel as [|fuel IH]; intros l seg1 seg2 Hl; [done|]. cbn [qsort_partition].
  apply same_ask_at; [by apply qsort_up_same|]. intros s1.
  apply same_ask_at; [by apply qsort_down_same|]. intros s2.
  destruct (_ <=? _); [by apply same_at_ret|]. apply same_bind_at; [by apply swp_at_same|]. auto.
Qed.

Lemma qsort_loop_same fuel l begin fin stk : Forall ok l ->
  same (qsort_loop cmp1 swp1 fuel (l ++ post) begin fin stk) (qsort_loop cmp2 swp2 fuel l begin fin stk).
Proof.
  revert l begin fin stk. induction fuel as [|fuel IH]; intros l begin fin stk Hl; [done|]. cbn [qsort_loop].
  destruct (_ <? _).
  - apply same_bind; [by apply swp_at_same|]. intros l1 Hl1.
    apply same_at_bind; [by apply qsort_partition_same|]. intros l2 m Hl2.
    apply same_bind; [by apply swp_at_same|]. intros l3 Hl3.
    destruct (_ <=? _); (apply same_ask; [apply follows_refl | intros stk'; by apply IH]).
  - destruct stk as [|[b f] stk]; [by apply same_ret | by apply IH].
Qed.
End Agree.

(** ** The instances *)
#[export] Instance zend_sort_SortFunc {E} : SortFunc (@zend_sort E).
Proof.
  split.
  - intros P R cmp swp cmpP pay rest l base n EX Hb Hn Hl. apply zend_sort_correct; [done | done | lia | done].
  - intros ok cmp1 cmp2 swp1 swp2 l post base n l' AG Hl E1.
    by apply (zend_sort_rec_same ok cmp1 cmp2 swp1 swp2 AG post _ l base n Hl).
Qed.

#[export] Instance zend_insert_sort_SortFunc {E} : SortFunc (@zend_insert_sort E).
Proof.
  split.
  - intros P R cmp swp cmpP pay rest l base n EX Hb Hn Hl.
    apply zend_insert_sort_correct; [done | done | lia | done].
  - intros ok cmp1 cmp2 swp1 swp2 l post base n l' AG Hl E1.
    by apply (zend_insert_sort_same ok cmp1 cmp2 swp1 swp2 AG post l base n Hl).
Qed.

#[export] Instance zend_qsort_SortFunc {E} : SortFunc (@zend_qsort E).
Proof.
  split.
  - intros P R cmp swp cmpP pay rest l base n EX Hb Hn Hl. by apply zend_qsort_correct.
  - intros ok cmp1 cmp2 swp1 swp2 l post base n l' AG Hl E1.
    by apply (qsort_loop_same ok cmp1 cmp2 swp1 swp2 AG post _ l base (base + n - 1) [] Hl).
Qed.
