(* ===== verification/HashSort.v ===== *)
(** * The ordered hash table: sorting and comparing ([Zend/zend_hash.c])

    The sort is any [SortFunc]; the comparison of two buckets is an argument.
    [memcmp] is the sign of the first difference: the code only returns it. *)
From S2P Require Export SortFunc HashApply.

(** ** Operations *)

(** [ZVAL_COPY_VALUE] leaves the chain link [Z_NEXT] in place. *)
Definition zend_hash_bucket_swap (p q : Bucket) : Bucket * Bucket :=
  (mkBucket (b_val q) (b_next p) (b_h q) (b_key q),
   mkBucket (b_val p) (b_next q) (b_h p) (b_key p)).

Definition zend_hash_bucket_renum_swap (p q : Bucket) : Bucket * Bucket :=
  (set_b_val (b_val q) p, set_b_val (b_val p) q).

Definition zend_hash_bucket_packed_swap (p q : Bucket) : Bucket * Bucket :=
  (mkBucket (b_val q) (b_next p) (b_h q) (b_key p),
   mkBucket (b_val p) (b_next q) (b_h p) (b_key q)).

(** [for (j = 0, i = 0; j < ht->nNumUsed; j++)]: the live buckets are moved to
    the front. *)
Fixpoint sort_compact (fuel : nat) (d : list Bucket) (j i num_used : Z) {struct fuel} : res (list Bucket * Z) :=
  match fuel with
  | O => Err OutOfFuel
  | S fuel =>
      if j <? num_used then
        let! p := aget d j in
        if is_undef (b_val p) then sort_compact fuel d (j + 1) i num_used
        else
          let! d := if negb (i =? j) then aset d i p else Ok d in
          sort_compact fuel d (j + 1) (i + 1) num_used
      else Ok (d, i)
  end.

(** [for (j = 0; j < i; j++) { p->h = j; if (p->key) { .. } }] *)
Fixpoint sort_renumber (fuel : nat) (d : list Bucket) (j i : Z) (eg : EG) {struct fuel} : res (list Bucket * EG) :=
  match fuel with
  | O => Err OutOfFuel
  | S fuel =>
      if j <? i then
        let! p := aget d j in
        let eg := release_key (b_key p) eg in
        let! d := aset d j (mkBucket (b_val p) (b_next p) j None) in
        sort_renumber fuel d (j + 1) i eg
      else Ok (d, eg)
  end.

(** The end of a renumbering sort of a hashed table: the buckets are copied to
    an allocation with a packed hash part. *)
Definition sort_to_packed (ht : HashTable) (eg : EG) : HashTable :=
  let data := copy_used eg (nNumUsed ht) (nTableSize ht) (arData ht) in
  HT_HASH_RESET_PACKED
    (set_arData data (set_nTableMask HT_MIN_MASK (set_f_static_keys true (set_f_packed true ht)))).

Definition zend_hash_sort_ex (sort : sort_func Bucket) (ht : HashTable) (compar : Bucket -> Bucket -> Z)
    (renumber : bool) (eg : EG) : res (HashTable * EG) :=
  if negb (1 <? nNumOfElements ht) && negb (renumber && (0 <? nNumOfElements ht)) then Ok (ht, eg)
  else
    let! (d, i) :=
      if HT_IS_WITHOUT_HOLES ht then Ok (arData ht, nNumUsed ht)
      else sort_compact (S (Z.to_nat (nNumUsed ht))) (arData ht) 0 0 (nNumUsed ht) in
    let! d := sort compar
                (if renumber then zend_hash_bucket_renum_swap
                 else if f_packed ht then zend_hash_bucket_packed_swap else zend_hash_bucket_swap) d 0 i in
    let ht := set_nInternalPointer 0 (set_nNumUsed i (set_arData d ht)) in
    let! (ht, eg) :=
      if renumber then
        let! (d, eg) := sort_renumber (S (Z.to_nat i)) (arData ht) 0 i eg in
        Ok (set_nNextFreeElement i (set_arData d ht), eg)
      else Ok (ht, eg) in
    if f_packed ht then
      if negb renumber then zend_hash_packed_to_hash ht eg else Ok (ht, eg)
    else
      if renumber then Ok (sort_to_packed ht eg, eg) else zend_hash_rehash ht eg.

(** ** The live buckets, with their links *)
Definition alive (d : list Bucket) (n : nat) : list Bucket := List.filter is_live (take n d).

Lemma alive_contents d n : contents d n = map clear_next (alive d n).
Proof.
  unfold contents, alive. induction (take n d) as [|b l IH]; [done|]. simpl.
  change (is_live (clear_next b)) with (is_live b). destruct (is_live b); simpl; by rewrite IH.
Qed.

Lemma alive_S d n b : d !! n = Some b -> alive d (S n) = alive d n ++ (if is_live b then [b] else []).
Proof.
  intros H. unfold alive. rewrite (take_S_r _ _ b H), List.filter_app. simpl. by destruct (is_live b).
Qed.

Lemma alive_length d n : (length (alive d n) <= n)%nat.
Proof. unfold alive. etrans; [apply filter_length_le|]. rewrite length_take. lia. Qed.

Lemma alive_live d n : Forall (fun b => is_live b = true) (alive d n).
Proof.
  apply Forall_forall. intros b Hb%list_elem_of_In. apply filter_In in Hb. apply Hb.
Qed.

(** An array whose first [m] buckets are live. *)
Lemma contents_front d m l : take m d = l -> length l = m -> Forall (fun b => is_live b = true) l ->
  contents d m = map clear_next l.
Proof.
  intros Ht Hm Hl. rewrite alive_contents. f_equal. unfold alive. rewrite Ht. clear Ht Hm.
  induction Hl as [|b l Hb Hl IH]; [done|]. simpl. by rewrite Hb, IH.
Qed.

Lemma filter_full {A} (f : A -> bool) l : length (List.filter f l) = length l -> List.filter f l = l.
Proof.
  induction l as [|x l IH]; [done|]. simpl. destruct (f x); simpl.
  - intros H. f_equal. apply IH. lia.
  - pose proof (filter_length_le f l). lia.
Qed.

Lemma sort_compact_ok d0 u : (u <= length d0)%nat -> forall fuel d j i,
  length d = length d0 -> (i <= j)%nat -> (j <= u)%nat -> (u - j < fuel)%nat ->
  take i d = alive d0 j -> i = length (alive d0 j) -> (forall k, (j <= k)%nat -> d !! k = d0 !! k) ->
  exists d', sort_compact fuel d (Z.of_nat j) (Z.of_nat i) (Z.of_nat u)
               = Ok (d', Z.of_nat (length (alive d0 u))) /\
    length d' = length d0 /\ take (length (alive d0 u)) d' = alive d0 u.
Proof.
  intros Hu. induction fuel as [|fuel IH]; intros d j i Hl Hij Hju Hf Ht Hi Hk; [lia|]. simpl.
  destruct (Z.ltb_spec (Z.of_nat j) (Z.of_nat u)) as [Hlt|Hge].
  2:{ assert (j = u) as -> by lia. subst i. by exists d. }
  destruct (lookup_lt_is_Some_2 d j ltac:(lia)) as [p Hp]. rewrite (aget_ok _ _ _ Hp). rsimp.
  pose proof Hp as Hp0. rewrite Hk in Hp0 by lia. pose proof (alive_S d0 j p Hp0) as Ha.
  unfold is_live in Ha. replace (Z.of_nat j + 1) with (Z.of_nat (S j)) by lia.
  destruct (is_undef (b_val p)) eqn:Eu; simpl in Ha.
  - rewrite app_nil_r in Ha. apply IH; try lia; try congruence. intros k Hkj. apply Hk. lia.
  - replace (Z.of_nat i + 1) with (Z.of_nat (S i)) by lia.
    assert (Hd : (if negb (Z.of_nat i =? Z.of_nat j) then aset d (Z.of_nat i) p else Ok d)
                 = Ok (<[i := p]> d)).
    { destruct (Z.eqb_spec (Z.of_nat i) (Z.of_nat j)) as [He|He]; simpl.
      - assert (i = j) as -> by lia. by rewrite list_insert_id.
      - apply aset_ok. lia. }
    rewrite Hd. rsimp. apply IH; try lia.
    + by rewrite length_insert.
    + rewrite take_insert_S by lia. by rewrite Ha, Ht.
    + rewrite Ha, length_app. simpl. lia.
    + intros k Hkj. rewrite list_lookup_insert_ne by lia. apply Hk. lia.
Qed.

Definition compact_run (ht : HashTable) : res (list Bucket * Z) :=
  if HT_IS_WITHOUT_HOLES ht then Ok (arData ht, nNumUsed ht)
  else sort_compact (S (Z.to_nat (nNumUsed ht))) (arData ht) 0 0 (nNumUsed ht).

Lemma compact_run_ok ht : data_wf ht ->
  exists d m, compact_run ht = Ok (d, Z.of_nat m) /\ length d = length (arData ht) /\
    Z.of_nat m = nNumOfElements ht /\ take m d = alive (arData ht) (used ht) /\
    m = length (alive (arData ht) (used ht)).
Proof.
  intros Hwf. pose proof (wf_count _ Hwf) as Hc. rewrite elems_contents_length, alive_contents, length_map in Hc.
  pose proof (wf_used _ Hwf) as Hu. destruct (data_wf_len _ Hwf) as [Hul _].
  unfold compact_run, HT_IS_WITHOUT_HOLES. destruct (Z.eqb_spec (nNumUsed ht) (nNumOfElements ht)) as [He|He].
  - exists (arData ht), (used ht). unfold used in *. split; [f_equal; f_equal; lia|]. split; [done|]. split; [lia|].
    split; [|lia]. symmetry. apply filter_full. fold (alive (arData ht) (Z.to_nat (nNumUsed ht))).
    rewrite length_take. lia.
  - destruct (sort_compact_ok (arData ht) (used ht) Hul (S (Z.to_nat (nNumUsed ht))) (arData ht) 0 0)
      as (d & E & Hl & Ht); try done; [lia | unfold used; lia |].
    exists d, (length (alive (arData ht) (used ht))).
    change (Z.of_nat 0) with 0 in E. replace (Z.of_nat (used ht)) with (nNumUsed ht) in E by (unfold used; lia).
    split; [exact E|]. split; [done|]. split; [lia|]. done.
Qed.

(** ** The sorted buckets *)

(** No element is greater than a later one. *)
Definition in_order {A} (cmp : A -> A -> Z) (l : list A) : Prop :=
  forall i j x y, (i <= j)%nat -> l !! i = Some x -> l !! j = Some y -> ~ 0 < cmp x y.

Lemma sort_result_in_order {E P R} cmp (cmpP : P -> P -> Z) (pay : E -> P) (rest : E -> R) l l' n :
  sort_result cmp cmpP pay rest l 0 n l' -> n = Z.of_nat (length l') -> ordering cmpP -> in_order cmp l'.
Proof.
  intros Hr -> O i j x y Hij Hx Hy. pose proof (lookup_lt_Some _ _ _ Hy).
  apply (sr_sorted _ _ _ _ _ _ _ _ Hr O (Z.of_nat i) (Z.of_nat j)); [lia | lia | lia | by apply aget_ok..].
Qed.

(** The comparison does not look at the chain links. *)
Definition ignores_link (compar : Bucket -> Bucket -> Z) : Prop :=
  forall a b, compar a b = compar (clear_next a) (clear_next b).

Lemma bucket_swap_exchanges compar : ignores_link compar ->
  exchanges compar zend_hash_bucket_swap compar clear_next b_next.
Proof. intros Hc. by split. Qed.

Lemma renum_swap_exchanges compar cmpV : (forall a b, compar a b = cmpV (b_val a) (b_val b)) ->
  exchanges compar zend_hash_bucket_renum_swap cmpV b_val (fun b => (b_h b, b_key b)).
Proof. intros Hc. by split. Qed.

(** On buckets without string keys the packed swap is the full swap. *)
Lemma packed_swap_agree compar :
  agree (fun b => b_key b = None) compar compar zend_hash_bucket_packed_swap zend_hash_bucket_swap.
Proof.
  split; [done| |by split]. intros a b Ha Hb. unfold zend_hash_bucket_packed_swap, zend_hash_bucket_swap.
  by rewrite Ha, Hb.
Qed.

Lemma agree_refl {E} (cmp : E -> E -> Z) swp : agree (fun _ => True) cmp cmp swp swp.
Proof. by split. Qed.

Section Sorts.
Context (sort : sort_func Bucket) `{SF : !SortFunc sort}.

Lemma sort_keep_ok compar packed d al : ignores_link compar ->
  take (length al) d = al -> Z.of_nat (length al) < 2 ^ 64 ->
  (packed = true -> Forall (fun b => b_key b = None) al) ->
  exists l', sort compar (if packed then zend_hash_bucket_packed_swap else zend_hash_bucket_swap)
               d 0 (Z.of_nat (length al)) = Ok (l' ++ drop (length al) d) /\
    length l' = length al /\ Permutation (map clear_next l') (map clear_next al) /\
    (ordering compar -> in_order compar l').
Proof.
  intros Hc Ht Hm Hk.
  destruct (sort_spec compar zend_hash_bucket_swap compar clear_next b_next al 0 (Z.of_nat (length al))
              (bucket_swap_exchanges _ Hc)) as (l' & E & Hr); [lia | lia | lia |].
  assert (Hl : length l' = length al).
  { rewrite <- (length_map b_next l'), (sr_rest _ _ _ _ _ _ _ _ Hr). apply length_map. }
  exists l'. split; [|split; [done|]].
  - rewrite <- (take_drop (length al) d) at 1. rewrite Ht. destruct packed.
    + apply (sort_agree _ _ _ _ _ _ _ _ _ _ (packed_swap_agree compar) (Hk eq_refl) E).
    + apply (sort_agree _ _ _ _ _ _ _ _ _ _ (agree_refl compar _) ltac:(by apply Forall_forall) E).
  - split; [apply Hr|]. intros O. apply (sort_result_in_order _ _ _ _ _ _ _ Hr); [by rewrite Hl | done].
Qed.

Lemma in_order_map {A B} (f : A -> B) cmp cmpB l : (forall a b, cmp a b = cmpB (f a) (f b)) ->
  in_order cmp l -> in_order cmpB (map f l).
Proof.
  intros Hc Ho i j x y Hij Hx Hy. rewrite list_lookup_fmap in Hx, Hy.
  destruct (l !! i) as [a|] eqn:Ea; [|done]. destruct (l !! j) as [b|] eqn:Eb; [|done].
  injection Hx as <-. injection Hy as <-. rewrite <- Hc. by apply (Ho i j).
Qed.

Lemma sort_renum_ok compar cmpV d al : (forall a b, compar a b = cmpV (b_val a) (b_val b)) ->
  take (length al) d = al -> Z.of_nat (length al) < 2 ^ 64 ->
  exists l', sort compar zend_hash_bucket_renum_swap d 0 (Z.of_nat (length al)) = Ok (l' ++ drop (length al) d) /\
    length l' = length al /\ Permutation (map b_val l') (map b_val al) /\ map b_key l' = map b_key al /\
    (ordering cmpV -> in_order cmpV (map b_val l')).
Proof.
  intros Hc Ht Hm.
  destruct (sort_spec compar zend_hash_bucket_renum_swap cmpV b_val (fun b => (b_h b, b_key b)) al 0
              (Z.of_nat (length al)) (renum_swap_exchanges _ _ Hc)) as (l' & E & Hr); [lia | lia | lia |].
  assert (Hl : length l' = length al).
  { rewrite <- (length_map (fun b => (b_h b, b_key b)) l'), (sr_rest _ _ _ _ _ _ _ _ Hr). apply length_map. }
  exists l'. split; [|split; [done|]].
  - rewrite <- (take_drop (length al) d) at 1. rewrite Ht.
    apply (sort_agree _ _ _ _ _ _ _ _ _ _ (agree_refl compar _) ltac:(by apply Forall_forall) E).
  - split; [apply Hr|]. split.
    + pose proof (sr_rest _ _ _ _ _ _ _ _ Hr) as He. apply (f_equal (map snd)) in He.
      rewrite !map_map in He. exact He.
    + intros O. apply (in_order_map b_val compar); [done|].
      apply (sort_result_in_order _ _ _ _ _ _ _ Hr); [by rewrite Hl | done].
Qed.
End Sorts.

(** ** Sorting that keeps the keys *)
Section SortKeep.
Context (sort : sort_func Bucket) `{SF : !SortFunc sort}.
Context (ht : HashTable) (Hwf : ht_wf ht) (compar : Bucket -> Bucket -> Z) (Hc : ignores_link compar).

(** The table between the sort and the rebuilding of the hash part. *)
Definition sorted_table (d : list Bucket) (i : Z) : HashTable :=
  set_nInternalPointer 0 (set_nNumUsed i (set_arData d ht)).

Lemma live_keys_packed : f_packed ht = true ->
  Forall (fun b => b_key b = None) (alive (arData ht) (used ht)).
Proof.
  intros Hp. pose proof (wf_repr _ Hwf) as Hr. unfold is_hashed in Hr. rewrite Hp, andb_false_r in Hr.
  apply Forall_forall. intros b Hb%list_elem_of_In. apply filter_In in Hb as [Hb Hl].
  apply list_elem_of_In, list_elem_of_lookup in Hb as [i Hi]. apply lookup_take_Some in Hi as [Hi Hn].
  apply (wf_p_keys _ Hr i b Hn). split; [done|]. unfold is_live in Hl. by apply negb_true_iff in Hl.
Qed.

Lemma sorted_run : exists d m l,
  compact_run ht = Ok (d, Z.of_nat m) /\ m = length l /\ Z.of_nat m = nNumOfElements ht /\
  sort compar (if f_packed ht then zend_hash_bucket_packed_swap else zend_hash_bucket_swap) d 0 (Z.of_nat m)
    = Ok (l ++ drop m d) /\ length d = length (arData ht) /\ (m <= length d)%nat /\
  Permutation (map clear_next l) (contents (arData ht) (used ht)) /\
  Forall (fun b => is_live b = true) l /\ (ordering compar -> in_order compar l).
Proof.
  pose proof (wf_data _ Hwf) as Hd. destruct (compact_run_ok ht Hd) as (d & m & E & Hl & Hm & Ht & Hml).
  pose proof (data_wf_size _ Hd) as Hsz. destruct (data_wf_len _ Hd) as [Hul Hmax].
  pose proof (alive_length (arData ht) (used ht)) as Hal.
  destruct (sort_keep_ok sort compar (f_packed ht) d (alive (arData ht) (used ht)) Hc)
    as (l & Es & Hll & Hp & Ho); [by rewrite <- Hml | unfold HT_MAX_SIZE in *; lia | apply live_keys_packed |].
  exists d, m, l. subst m. split; [done|]. split; [done|]. split; [done|].
  split; [done|]. split; [done|]. split; [lia|]. rewrite alive_contents. split; [done|]. split; [|done].
  assert (Hf : Forall (fun b => is_live b = true) (map clear_next l)).
  { rewrite Hp. apply Forall_fmap. by apply alive_live. }
  by apply Forall_fmap in Hf.
Qed.

(** It satisfies the invariant of the bucket array. *)
Lemma sorted_table_wf d m l : m = length l -> Z.of_nat m = nNumOfElements ht -> (0 < m)%nat ->
  length d = length (arData ht) -> (m <= length d)%nat ->
  Permutation (map clear_next l) (contents (arData ht) (used ht)) ->
  Forall (fun b => is_live b = true) l ->
  let ht1 := sorted_table (l ++ drop m d) (Z.of_nat m) in
  data_wf ht1 /\ used ht1 = m /\ contents (arData ht1) m = map clear_next l.
Proof.
  intros Hm Hn Hpos Hd Hmd Hp Hl ht1. pose proof (wf_data _ Hwf) as Hdw.
  pose proof (wf_used _ Hdw) as Hus. pose proof (wf_count _ Hdw) as Hcnt.
  rewrite elems_contents_length in Hcnt. pose proof (contents_length_le (arData ht) (used ht)) as Hle.
  assert (Hu1 : used ht1 = m) by (unfold used; simpl; lia).
  assert (Hc1 : contents (arData ht1) m = map clear_next l).
  { apply contents_front; [|done|done]. simpl. rewrite Hm. by apply take_app_length. }
  split; [|done]. apply (data_wf_perm ht); try done; simpl.
  - apply Hdw.
  - unfold used in *. lia.
  - rewrite length_app, length_drop, <- Hm, <- (wf_data_len _ Hdw). lia.
  - intros Hi. pose proof (wf_init_used _ Hdw Hi). unfold used in *. lia.
  - rewrite Hu1. simpl in Hc1. rewrite Hc1. exact Hp.
  - right. destruct l as [|b l]; [simpl in *; lia|]. exists 0%nat, b. split; [done|]. rewrite Hu1.
    split; [done|]. split; [done|]. apply Forall_inv in Hl. unfold is_live in Hl.
    by apply negb_true_iff in Hl.
Qed.
End SortKeep.

Section SortKeepCorrect.
Context (sort : sort_func Bucket) `{SF : !SortFunc sort}.

(** C34: [zend_hash_sort_ex] without renumbering, with any sort function
    that meets the interface: it succeeds, keeps the entries (keys with their
    values) and the invariant, and orders the entries when the comparison is a
    total preorder.  A table of two or more entries is hashed afterwards, also
    when it was packed, and its internal pointer is on the first entry. *)
Theorem sort_keeps_entries ht compar eg : ht_wf ht -> ignores_link compar ->
  exists ht' eg', zend_hash_sort_ex sort ht compar false eg = Ok (ht', eg') /\
    ht_wf ht' /\ same_table ht ht' /\ elems ht' ≡ₚ elems ht /\
    nNumOfElements ht' = nNumOfElements ht /\ nNextFreeElement ht' = nNextFreeElement ht /\
    iters_only eg eg' /\
    (ordering compar -> in_order compar (contents (arData ht') (used ht'))) /\
    (1 < nNumOfElements ht -> is_hashed ht' = true /\ nInternalPointer ht' = 0).
Proof.
  intros Hwf Hc. pose proof (wf_data _ Hwf) as Hd. pose proof (wf_count _ Hd) as Hcnt.
  rewrite elems_contents_length in Hcnt.
  unfold zend_hash_sort_ex. rewrite andb_true_r. destruct (Z.ltb_spec 1 (nNumOfElements ht)) as [Hgt|Hle]; cbn [negb].
  2:{ exists ht, eg. do 7 (split; [done || reflexivity|]). split; [|lia].
      intros O i j x y Hij Hx Hy. pose proof (lookup_lt_Some _ _ _ Hx). pose proof (lookup_lt_Some _ _ _ Hy).
      assert (i = j) as -> by lia. assert (x = y) as -> by congruence. intros Hg. exact (or_asym _ O _ _ Hg Hg). }
  fold (compact_run ht).
  destruct (sorted_run sort ht Hwf compar Hc) as (d & m & l & -> & Hm & Hn & Es & Hdl & Hmd & Hp & Hl & Ho). rsimp.
  rewrite Es. rsimp.
  destruct (sorted_table_wf ht Hwf d m l Hm Hn ltac:(lia) Hdl Hmd Hp Hl) as (Hwf1 & Hu1 & Hc1).
  fold (sorted_table ht (l ++ drop m d) (Z.of_nat m)). set (ht1 := sorted_table _ _ _) in *.
  change (f_packed ht1) with (f_packed ht).
  assert (Hst : same_table ht ht1) by (by split).
  assert (Hin : f_initialized ht = true).
  { destruct (f_initialized ht) eqn:Ei; [done|]. pose proof (wf_init_used _ Hd Ei) as Hu0.
    pose proof (contents_length_le (arData ht) (used ht)). unfold used in *. lia. }
  assert (Hrun : exists ht' eg',
    (if f_packed ht then zend_hash_packed_to_hash ht1 eg else zend_hash_rehash ht1 eg) = Ok (ht', eg') /\
    regrown ht1 ht' eg eg').
  { pose proof (repr_mask _ Hwf) as Hmask. destruct (f_packed ht) eqn:Ep.
    - destruct (packed_to_hash_data ht1 eg) as (ht' & eg' & E & Hr & _); eauto.
    - assert (Hh : is_hashed ht = true) by (unfold is_hashed; by rewrite Hin, Ep).
      rewrite Hh in Hmask. destruct (rehash_regrown ht1 eg) as (ht' & eg' & E & Hr & _); eauto. }
  destruct Hrun as (ht' & eg' & -> & []). exists ht', eg'. split; [done|]. split; [done|].
  split; [by etrans|]. rewrite Hu1, Hc1 in rg_contents. split.
  { apply contents_perm_elems. by rewrite rg_contents. }
  split; [done|]. split; [done|]. split; [done|]. split; [|by rewrite rg_ptr].
  intros O. rewrite rg_contents. by apply (in_order_map clear_next compar compar); [|apply Ho].
Qed.
End SortKeepCorrect.

(** ** Sorting with new keys *)
Definition renum_bucket (j : nat) (b : Bucket) : Bucket := mkBucket (b_val b) (b_next b) (Z.of_nat j) None.

Fixpoint renum (j : nat) (l : list Bucket) : list Bucket :=
  match l with
  | [] => []
  | b :: l => renum_bucket j b :: renum (S j) l
  end.

Definition release_keys (ks : list (option zend_string)) (eg : EG) : EG :=
  foldl (fun eg k => release_key k eg) eg ks.

(** The values of a list, at the keys [j], [j + 1], ... *)
Fixpoint list_elems (j : nat) (vs : list zval) : alist :=
  match vs with
  | [] => []
  | v :: vs => (KInt (Z.of_nat j), v) :: list_elems (S j) vs
  end.

Lemma renum_length j l : length (renum j l) = length l.
Proof. revert j. induction l as [|b l IH]; intros j; simpl; [done|]. by rewrite IH. Qed.

Lemma renum_lookup j l i : renum j l !! i = renum_bucket (j + i) <$> l !! i.
Proof.
  revert j i. induction l as [|b l IH]; intros j i; [done|]. destruct i as [|i]; simpl.
  - by rewrite Nat.add_0_r.
  - rewrite IH. by replace (S j + i)%nat with (j + S i)%nat by lia.
Qed.

Lemma list_elems_lookup j vs i : list_elems j vs !! i = (fun v => (KInt (Z.of_nat (j + i)), v)) <$> vs !! i.
Proof.
  revert j i. induction vs as [|v vs IH]; intros j i; [done|]. destruct i as [|i]; simpl.
  - by rewrite Nat.add_0_r.
  - rewrite IH. by replace (S j + i)%nat with (j + S i)%nat by lia.
Qed.

Lemma list_elems_length j vs : length (list_elems j vs) = length vs.
Proof. revert j. induction vs as [|v vs IH]; intros j; simpl; [done|]. by rewrite IH. Qed.

Lemma list_elems_keys j vs : NoDup (list_elems j vs).*1 /\
  forall k, k ∈ (list_elems j vs).*1 -> exists i, k = KInt (Z.of_nat i) /\ (j <= i < j + length vs)%nat.
Proof.
  assert (Hin : forall vs j k, k ∈ (list_elems j vs).*1 ->
    exists i, k = KInt (Z.of_nat i) /\ (j <= i < j + length vs)%nat).
  { clear. intros vs j k Hk. apply list_elem_of_lookup in Hk as [i Hi].
    rewrite list_lookup_fmap, list_elems_lookup in Hi. destruct (vs !! i) as [v|] eqn:Ev; [|done].
    injection Hi as <-. apply lookup_lt_Some in Ev. exists (j + i)%nat. split; [done | lia]. }
  split; [|apply Hin]. revert j. induction vs as [|v vs IH]; intros j; simpl; [constructor|].
  constructor; [|apply IH]. intros Hk. apply Hin in Hk as (i & [= Hi] & Hi'). lia.
Qed.

Lemma sort_renumber_ok rest : forall l fuel pre j,
  j = length pre -> (length l < fuel)%nat -> forall eg,
  sort_renumber fuel (pre ++ l ++ rest) (Z.of_nat j) (Z.of_nat (j + length l)) eg
    = Ok (pre ++ renum j l ++ rest, release_keys (map b_key l) eg).
Proof.
  induction l as [|b l IH]; intros fuel pre j Hj Hf eg; (destruct fuel as [|fuel]; [simpl in Hf; lia|]); simpl.
  - rewrite Nat.add_0_r, Z.ltb_irrefl. done.
  - rewrite (proj2 (Z.ltb_lt _ _)) by lia.
    rewrite (aget_ok _ j b) by (rewrite Hj; by apply list_lookup_middle). rsimp.
    rewrite aset_ok by (rewrite length_app; simpl; lia). rsimp.
    rewrite Hj, insert_app_r_alt, Nat.sub_diag by lia. simpl. rewrite <- Hj.
    replace (Z.of_nat j + 1) with (Z.of_nat (S j)) by lia.
    replace (j + S (length l))%nat with (S j + length l)%nat by lia.
    change (pre ++ mkBucket (b_val b) (b_next b) (Z.of_nat j) None :: l ++ rest)
      with (pre ++ [renum_bucket j b] ++ (l ++ rest)). rewrite app_assoc, IH.
    + by rewrite <- app_assoc.
    + rewrite length_app. simpl. lia.
    + simpl in Hf. lia.
Qed.

(** A packed table with the renumbered buckets [l] in front. *)
Lemma renumbered_wf ht l rest :
  (exists k, 3 <= k <= 31 /\ nTableSize ht = 2 ^ k) -> f_initialized ht = true -> f_packed ht = true ->
  nTableMask ht = HT_MIN_MASK -> arHash ht = uninitialized_bucket ->
  arData ht = renum 0 l ++ rest -> Z.of_nat (length (arData ht)) = nTableSize ht -> (0 < length l)%nat ->
  nNumUsed ht = Z.of_nat (length l) -> nNumOfElements ht = Z.of_nat (length l) ->
  nNextFreeElement ht = Z.of_nat (length l) -> nInternalPointer ht = 0 ->
  Forall (fun b => is_live b = true) l ->
  ht_wf ht /\ elems ht = list_elems 0 (map b_val l).
Proof.
  intros Hs Hi Hp Hm Hh Ed Hlen Hpos Hu Hn Hnf Hip Hl.
  assert (Hus : used ht = length l) by (unfold used; lia).
  assert (Hlk : forall i b, (i < used ht)%nat -> live (arData ht) i b ->
    b_h b = Z.of_nat i /\ b_key b = None).
  { intros i b Hi' [Hb _]. rewrite Ed, lookup_app_l, renum_lookup in Hb by (rewrite renum_length; lia).
    destruct (l !! i) as [b0|]; [|done]. injection Hb as <-. done. }
  assert (He : elems ht = list_elems 0 (map b_val l)).
  { unfold elems, elems_of. fold (used ht). rewrite Hus, Ed.
    rewrite take_app_length' by (by rewrite renum_length). clear -Hl. generalize 0%nat.
    induction Hl as [|b l Hb Hl IH]; intros j; [done|]. simpl. unfold bucket_elem at 1. simpl. unfold is_live in Hb.
    apply negb_true_iff in Hb. rewrite Hb. f_equal. apply IH. }
  assert (Hmax : Z.of_nat (length l) <= 2 ^ 31).
  { destruct Hs as (k & Hk & Ek). pose proof (pow2_range k ltac:(lia)) as Hr.
    rewrite Ed, length_app, renum_length in Hlen. lia. }
  split; [|done]. destruct (list_elems_keys 0 (map b_val l)) as [Hnd Hkeys].
  split; [|done|unfold is_hashed; rewrite Hp, andb_false_r; by split].
  split; try done.
  - rewrite Hu, <- Hlen, Ed, length_app, renum_length. lia.
  - by rewrite Hi.
  - by rewrite Hi.
  - by rewrite He, Hn, list_elems_length, length_map.
  - by rewrite He.
  - intros i b Hi' Hb. destruct (Hlk i b Hi' Hb) as [Eh Ek]. split; [lia|]. by rewrite Ek.
  - intros _ i b s Hi' Hb Es. destruct (Hlk i b Hi' Hb) as [_ Ek]. congruence.
  - unfold ZEND_LONG_MAX. lia.
  - intros h Hk. left. rewrite He in Hk. apply Hkeys in Hk as (i & [= ->] & Hi'). rewrite length_map in Hi'.
    rewrite s64_small; lia.
  - right. destruct l as [|b l]; [simpl in *; lia|]. exists 0%nat, (renum_bucket 0 b). split; [done|].
    split; [lia|]. rewrite Ed. split; [done|]. apply Forall_inv in Hl. unfold is_live in Hl. simpl.
    by apply negb_true_iff in Hl.
Qed.

(** The table after the keys have been replaced, as code for packed and for
    hashed tables leaves it. *)
Definition renum_table (ht : HashTable) (d : list Bucket) (i : Z) : HashTable :=
  set_nNextFreeElement i (set_arData d (sorted_table ht d i)).

Lemma renumber_finish ht l rest eg : ht_wf ht -> (0 < length l)%nat ->
  Z.of_nat (length l) = nNumOfElements ht -> (length l + length rest)%nat = length (arData ht) ->
  Forall (fun b => is_live b = true) l ->
  let ht1 := renum_table ht (renum 0 l ++ rest) (Z.of_nat (length l)) in
  let ht' := if f_packed ht then ht1 else sort_to_packed ht1 eg in
  ht_wf ht' /\ same_table ht ht' /\ f_packed ht' = true /\ elems ht' = list_elems 0 (map b_val l) /\
  nNumUsed ht' = nNumOfElements ht /\ nNumOfElements ht' = nNumOfElements ht /\
  nNextFreeElement ht' = nNumOfElements ht /\ nInternalPointer ht' = 0.
Proof.
  intros Hwf Hpos Hn Hlen Hl ht1 ht'. pose proof (wf_data _ Hwf) as Hd. pose proof (wf_repr _ Hwf) as Hr.
  pose proof (wf_count _ Hd) as Hcnt. rewrite elems_contents_length in Hcnt.
  pose proof (contents_length_le (arData ht) (used ht)) as Hle.
  assert (Hin : f_initialized ht = true).
  { destruct (f_initialized ht) eqn:Ei; [done|]. pose proof (wf_init_used _ Hd Ei). unfold used in *. lia. }
  pose proof (wf_data_len _ Hd) as Hsz. rewrite Hin in Hsz. rewrite <- Hn.
  unfold is_hashed in Hr. rewrite Hin in Hr. destruct (f_packed ht) eqn:Ep; simpl in Hr.
  - destruct (renumbered_wf ht' l rest) as [Hw He]; try done; simpl; try apply Hd; try apply Hr.
    rewrite length_app, renum_length. lia.
  - destruct (renumbered_wf ht' l (malloc_buckets eg (nTableSize ht - Z.of_nat (length l)))) as [Hw He];
      try done; simpl; try apply Hd.
    + unfold copy_used. f_equal. rewrite Nat2Z.id. apply take_app_length'. by rewrite renum_length.
    + apply copy_used_length; [lia|]. rewrite length_app, renum_length. lia.
Qed.

Section SortRenumber.
Context (sort : sort_func Bucket) `{SF : !SortFunc sort}.

(** [zend_hash_sort_ex] with renumbering, for a comparison of
    values: the result is the list of the values, in order when the comparison
    is a total preorder, at the keys 0, 1, ..., as a well-formed packed table;
    every string key is released once and the next free element is the number
    of entries. *)
Theorem sort_renumbers ht compar cmpV eg : ht_wf ht ->
  (forall a b, compar a b = cmpV (b_val a) (b_val b)) -> 0 < nNumOfElements ht ->
  exists ht' vs, zend_hash_sort_ex sort ht compar true eg
      = Ok (ht', release_keys (map b_key (contents (arData ht) (used ht))) eg) /\
    ht_wf ht' /\ same_table ht ht' /\ f_packed ht' = true /\
    elems ht' = list_elems 0 vs /\ vs ≡ₚ (elems ht).*2 /\ (ordering cmpV -> in_order cmpV vs) /\
    nNumUsed ht' = nNumOfElements ht /\ nNumOfElements ht' = nNumOfElements ht /\
    nNextFreeElement ht' = nNumOfElements ht /\ nInternalPointer ht' = 0.
Proof.
  intros Hwf Hc Hpos. pose proof (wf_data _ Hwf) as Hd.
  destruct (compact_run_ok ht Hd) as (d & m & E & Hdl & Hn & Ht & Hm).
  destruct (data_wf_len _ Hd) as [Hul Hmax].
  pose proof (alive_length (arData ht) (used ht)) as Hal.
  unfold zend_hash_sort_ex. rewrite (proj2 (Z.ltb_lt 0 _) Hpos), andb_false_r.
  fold (compact_run ht). rewrite E. rsimp.
  destruct (sort_renum_ok sort compar cmpV d (alive (arData ht) (used ht)) Hc)
    as (l & Es & Hl & Hv & Hk & Ho); [by rewrite <- Hm | unfold HT_MAX_SIZE in *; lia |].
  rewrite <- Hm in Es, Hl. rewrite Es. rsimp.
  pose proof (sort_renumber_ok (drop m d) l (S (Z.to_nat (Z.of_nat m))) [] 0 eq_refl ltac:(lia) eg) as Er.
  rewrite Hl in Er. simpl app in Er. change (Z.of_nat 0) with 0 in Er. change (0 + m)%nat with m in Er.
  cbn [arData set_nInternalPointer set_nNumUsed set_arData]. rewrite Er. rsimp.
  rewrite Hk, alive_contents, map_map. change (map (fun b => b_key (clear_next b))) with (map b_key).
  assert (Hlive : Forall (fun b => is_live b = true) l).
  { assert (Hf : Forall (fun v => negb (is_undef v) = true) (map b_val l)).
    { rewrite Hv. apply Forall_fmap. apply alive_live. }
    by apply Forall_fmap in Hf. }
  set (eg' := release_keys _ eg).
  destruct (renumber_finish ht l (drop m d) eg' Hwf) as (H1 & H2 & H3 & H4 & H5); [lia | lia | | done |].
  { rewrite length_drop. lia. }
  rewrite Hl in *. exists (if f_packed ht then renum_table ht (renum 0 l ++ drop m d) (Z.of_nat m)
    else sort_to_packed (renum_table ht (renum 0 l ++ drop m d) (Z.of_nat m)) eg'), (map b_val l).
  split.
  { change (f_packed (set_nNextFreeElement _ _)) with (f_packed ht). by destruct (f_packed ht). }
  repeat (split; [done|]). split; [|done].
  rewrite Hv. unfold elems. rewrite contents_elems, alive_contents. fold (used ht).
  rewrite map_map. change (list_fmap _ _ snd) with (map (@snd hkey zval)). by rewrite map_map.
Qed.
End SortRenumber.

(** ** Witnesses *)
Definition sample_compar (a b : Bucket) : Z :=
  match b_val a, b_val b with IS_LONG x, IS_LONG y => x - y | _, _ => 0 end.
Definition sample_cmpV (v w : zval) : Z :=
  match v, w with IS_LONG x, IS_LONG y => x - y | _, _ => 0 end.

Lemma sort_keeps_entries_witness :
  exists ht' eg', zend_hash_sort_ex zend_sort sample_hash sample_compar false sample_eg = Ok (ht', eg') /\
    ht_wf ht'.
Proof.
  destruct (sort_keeps_entries zend_sort sample_hash sample_compar sample_eg sample_hash_wf ltac:(by intros [] []))
    as (ht' & eg' & E & Hw & _).
  exists ht', eg'. split; [exact E | exact Hw].
Defined.

Lemma sort_renumbers_witness :
  exists ht' vs eg', zend_hash_sort_ex zend_insert_sort sample_hash sample_compar true sample_eg = Ok (ht', eg') /\
    f_packed ht' = true /\ elems ht' = list_elems 0 vs.
Proof.
  destruct (sort_renumbers zend_insert_sort sample_hash sample_compar sample_cmpV sample_eg sample_hash_wf
              ltac:(done) ltac:(vm_compute; reflexivity)) as (ht' & vs & E & _ & _ & Hp & He & _).
  exists ht', vs. eexists. split; [exact E|]. split; [exact Hp | exact He].
Defined.
