(* ===== verification/HashCompare.v ===== *)
(** * The ordered hash table: comparing two tables ([zend_hash_compare])

    [compar] compares two values.  [memcmp] is modelled by the sign of the
    first difference: its magnitude is not specified, and the code returns it. *)
From S2P Require Export HashApply.

(** ** Operations *)
Fixpoint memcmp (s1 s2 : list char) {struct s1} : Z :=
  match s1, s2 with
  | c1 :: s1, c2 :: s2 => if uchar c1 =? uchar c2 then memcmp s1 s2 else if uchar c1 <? uchar c2 then -1 else 1
  | _, _ => 0
  end.

(** [p1->h > p2->h ? 1 : -1] and the like. *)
Definition larger (a b : Z) : Z := if b <? a then 1 else -1.

(** The keys of two buckets, in an ordered comparison; 0 to go on. *)
Definition compare_keys (p1 p2 : Bucket) : Z :=
  match b_key p1, b_key p2 with
  | None, None => if negb (b_h p1 =? b_h p2) then larger (b_h p1) (b_h p2) else 0
  | Some k1, Some k2 =>
      let len1 := Z.of_nat (length (zs_val k1)) in
      let len2 := Z.of_nat (length (zs_val k2)) in
      if negb (len1 =? len2) then larger len1 len2 else memcmp (zs_val k1) (zs_val k2)
  | Some _, None => 1
  | None, Some _ => -1
  end.

(** [while (1) { .. if (Z_TYPE(p2->val) != IS_UNDEF) break; idx2++; }] *)
Fixpoint skip_to_live (fuel : nat) (ht : HashTable) (idx : Z) {struct fuel} : res Z :=
  match fuel with
  | O => Err OutOfFuel
  | S fuel =>
      let! p := get_bucket ht idx in
      if is_undef (b_val p) then skip_to_live fuel ht (idx + 1) else Ok idx
  end.

(** [if (Z_TYPE_P(pData) == IS_INDIRECT) pData = Z_INDIRECT_P(pData);] *)
Definition follow_indirect (eg : EG) (v : zval) : res zval :=
  match v with IS_INDIRECT a => get_cell eg a | _ => Ok v end.

Section Compare.
Context (compar : zval -> zval -> Z).

(** The end of the loop body: the two values. *)
Definition compare_values (eg : EG) (pData1 pData2 : zval) : res Z :=
  let! pData1 := follow_indirect eg pData1 in
  let! pData2 := follow_indirect eg pData2 in
  if is_undef pData1 then Ok (if negb (is_undef pData2) then -1 else 0)
  else if is_undef pData2 then Ok 1
  else Ok (compar pData1 pData2).

Fixpoint compare_loop (fuel : nat) (ht1 ht2 : HashTable) (ordered : bool) (idx1 idx2 : Z) (eg : EG)
    {struct fuel} : res Z :=
  match fuel with
  | O => Err OutOfFuel
  | S fuel =>
      if idx1 <? nNumUsed ht1 then
        let! p1 := get_bucket ht1 idx1 in
        if is_undef (b_val p1) then compare_loop fuel ht1 ht2 ordered (idx1 + 1) idx2 eg
        else if ordered then
          let! idx2 := skip_to_live (S (length (arData ht2))) ht2 idx2 in
          let! p2 := get_bucket ht2 idx2 in
          let result := compare_keys p1 p2 in
          if negb (result =? 0) then Ok result
          else
            let! result := compare_values eg (b_val p1) (b_val p2) in
            if negb (result =? 0) then Ok result
            else compare_loop fuel ht1 ht2 ordered (idx1 + 1) (idx2 + 1) eg
        else
          let! pData2 := match b_key p1 with
                         | None => zend_hash_index_find ht2 (b_h p1)
                         | Some key => zend_hash_find ht2 key
                         end in
          match pData2 with
          | None => Ok 1
          | Some ptr =>
              let! v2 := read_zval ht2 eg ptr in
              let! result := compare_values eg (b_val p1) v2 in
              if negb (result =? 0) then Ok result
              else compare_loop fuel ht1 ht2 ordered (idx1 + 1) idx2 eg
          end
      else Ok 0
  end.

Definition zend_hash_compare_impl (ht1 ht2 : HashTable) (ordered : bool) (eg : EG) : res Z :=
  if negb (nNumOfElements ht1 =? nNumOfElements ht2) then
    Ok (larger (nNumOfElements ht1) (nNumOfElements ht2))
  else compare_loop (S (Z.to_nat (nNumUsed ht1))) ht1 ht2 ordered 0 0 eg.

(** [ht1] and [ht2] may be the same table: its counter is then raised twice. *)
Definition zend_hash_compare (ht1 ht2 : HashTable) (ordered : bool) (eg : EG)
    : res (Z * HashTable * HashTable) :=
  let alias := bool_decide (ht_addr ht1 = ht_addr ht2) in
  let! ht1 := HASH_PROTECT_RECURSION ht1 in
  let! ht2 := HASH_PROTECT_RECURSION (if alias then ht1 else ht2) in
  let ht1 := if alias then ht2 else ht1 in
  let! result := zend_hash_compare_impl ht1 ht2 ordered eg in
  let ht1 := HASH_UNPROTECT_RECURSION ht1 in
  let ht2 := HASH_UNPROTECT_RECURSION (if alias then ht1 else ht2) in
  Ok (result, if alias then ht2 else ht1, ht2).
End Compare.

(** ** Specification on association lists *)
Definition key_cmp (k1 k2 : hkey) : Z :=
  match k1, k2 with
  | KInt h1, KInt h2 => if h1 =? h2 then 0 else larger h1 h2
  | KStr s1, KStr s2 =>
      if Nat.eqb (length s1) (length s2) then memcmp s1 s2
      else larger (Z.of_nat (length s1)) (Z.of_nat (length s2))
  | KStr _, KInt _ => 1
  | KInt _, KStr _ => -1
  end.

(** The first non-zero result. *)
Definition or_else (r s : Z) : Z := if r =? 0 then s else r.

Section Spec.
Context (compar : zval -> zval -> Z) (eg : EG).

Definition target (v : zval) : zval :=
  match v with IS_INDIRECT a => default IS_UNDEF (cells eg !! a) | _ => v end.

Definition value_cmp (v1 v2 : zval) : Z :=
  match is_undef (target v1), is_undef (target v2) with
  | true, true => 0
  | true, false => -1
  | false, true => 1
  | false, false => compar (target v1) (target v2)
  end.

Fixpoint ordered_cmp (l1 l2 : alist) : Z :=
  match l1, l2 with
  | (k1, v1) :: l1, (k2, v2) :: l2 => or_else (key_cmp k1 k2) (or_else (value_cmp v1 v2) (ordered_cmp l1 l2))
  | _, _ => 0
  end.

Fixpoint keyed_cmp (l1 l2 : alist) : Z :=
  match l1 with
  | (k1, v1) :: l1 =>
      match al_find k1 l2 with
      | None => 1
      | Some v2 => or_else (value_cmp v1 v2) (keyed_cmp l1 l2)
      end
  | [] => 0
  end.

Definition alist_cmp (ordered : bool) (l1 l2 : alist) : Z :=
  if Nat.eqb (length l1) (length l2) then if ordered then ordered_cmp l1 l2 else keyed_cmp l1 l2
  else larger (Z.of_nat (length l1)) (Z.of_nat (length l2)).
End Spec.

(** ** Facts *)
Lemma memcmp_zero s1 s2 : length s1 = length s2 -> memcmp s1 s2 = 0 <-> s1 = s2.
Proof.
  revert s2. induction s1 as [|c1 s1 IH]; intros [|c2 s2] Hl; simpl in *; try done.
  destruct (Z.eqb_spec (uchar c1) (uchar c2)) as [Hc|Hc].
  - apply uchar_inj in Hc as ->. rewrite IH by lia. split; [by intros -> | by intros [= ->]].
  - split; [destruct (_ <? _); lia|]. intros [= -> _]. done.
Qed.

Lemma larger_nonzero a b : larger a b <> 0.
Proof. unfold larger. destruct (_ <? _); lia. Qed.

Lemma key_cmp_zero k1 k2 : key_cmp k1 k2 = 0 <-> k1 = k2.
Proof.
  destruct k1 as [h1|s1], k2 as [h2|s2]; simpl; try (split; lia || done).
  - destruct (Z.eqb_spec h1 h2) as [->|Hh]; [done|]. split; [by intros ?%larger_nonzero | by intros [= ->]].
  - destruct (Nat.eqb_spec (length s1) (length s2)) as [Hl|Hl].
    + rewrite memcmp_zero by done. split; [by intros -> | by intros [= ->]].
    + split; [by intros ?%larger_nonzero | by intros [= ->]].
Qed.

Lemma compare_keys_spec p1 p2 : compare_keys p1 p2 = key_cmp (bkey p1) (bkey p2).
Proof.
  unfold compare_keys, bkey. destruct (b_key p1) as [k1|], (b_key p2) as [k2|]; simpl; try done.
  - destruct (Nat.eqb_spec (length (zs_val k1)) (length (zs_val k2))) as [->|Hl].
    + by rewrite Z.eqb_refl.
    + by rewrite (proj2 (Z.eqb_neq _ _)) by lia.
  - by destruct (_ =? _).
Qed.

Lemma or_else_zero r s : or_else r s = 0 <-> r = 0 /\ s = 0.
Proof. unfold or_else. destruct (Z.eqb_spec r 0); lia. Qed.

(** The result is zero exactly for equal keys with equal values. *)
Lemma ordered_cmp_zero compar eg l1 l2 : length l1 = length l2 ->
  ordered_cmp compar eg l1 l2 = 0 <->
  Forall2 (fun e1 e2 => e1.1 = e2.1 /\ value_cmp compar eg e1.2 e2.2 = 0) l1 l2.
Proof.
  revert l2. induction l1 as [|[k1 v1] l1 IH]; intros [|[k2 v2] l2] Hl; simpl in *; try done.
  rewrite !or_else_zero, key_cmp_zero, IH, Forall2_cons by lia. simpl. tauto.
Qed.

Lemma keyed_cmp_zero compar eg l1 l2 :
  keyed_cmp compar eg l1 l2 = 0 <->
  forall k v, (k, v) ∈ l1 -> exists w, al_find k l2 = Some w /\ value_cmp compar eg v w = 0.
Proof.
  induction l1 as [|[k1 v1] l1 IH]; simpl; [split; [set_solver | done]|].
  destruct (al_find k1 l2) as [v2|] eqn:E.
  - rewrite or_else_zero, IH. split.
    + intros [Hv Hl] k v Hin. apply elem_of_cons in Hin as [[= -> ->]|Hin]; eauto.
    + intros Hl. split.
      * destruct (Hl k1 v1 ltac:(set_solver)) as (w & Ew & Hw). congruence.
      * intros k v Hin. apply Hl. set_solver.
  - split; [lia|]. intros Hl. destruct (Hl k1 v1 ltac:(set_solver)) as (w & Ew & _). congruence.
Qed.

(** The entries from a position on. *)
Definition elems_from (d : list Bucket) (n i : nat) : alist := omap bucket_elem (drop i (take n d)).

Lemma suffix_end d n i : (n <= i)%nat -> elems_from d n i = [].
Proof. intros H. unfold elems_from. by rewrite drop_ge by (rewrite length_take; lia). Qed.

Lemma elems_from_cons d n i b : d !! i = Some b -> (i < n)%nat ->
  elems_from d n i = match bucket_elem b with Some e => [e] | None => [] end ++ elems_from d n (S i).
Proof.
  intros Hb Hi. unfold elems_from.
  rewrite (drop_S _ b i) by (by rewrite lookup_take_lt). simpl. by destruct (bucket_elem b).
Qed.

Lemma skip_to_live_ok ht e l : (used ht <= length (arData ht))%nat -> forall fuel i,
  elems_from (arData ht) (used ht) i = e :: l -> (used ht - i <= fuel)%nat ->
  exists j b, skip_to_live fuel ht (Z.of_nat i) = Ok (Z.of_nat j) /\ (j < used ht)%nat /\
    live (arData ht) j b /\ e = (bkey b, b_val b) /\ elems_from (arData ht) (used ht) (S j) = l.
Proof.
  intros Hu. induction fuel as [|fuel IH]; intros i He Hf.
  { rewrite suffix_end in He by lia. done. }
  destruct (Nat.lt_ge_cases i (used ht)) as [Hi|Hi]; [|by rewrite suffix_end in He by lia].
  destruct (lookup_lt_is_Some_2 (arData ht) i ltac:(lia)) as [b Hb]. simpl.
  unfold get_bucket. rewrite (aget_ok _ _ _ Hb). rsimp.
  rewrite (elems_from_cons _ _ _ _ Hb Hi) in He. unfold bucket_elem in He.
  destruct (is_undef (b_val b)) eqn:Eu; simpl in He.
  - replace (Z.of_nat i + 1) with (Z.of_nat (S i)) by lia. apply IH; [done | lia].
  - injection He as <- <-. exists i, b. done.
Qed.

Section Loop.
Context (compar : zval -> zval -> Z) (eg : EG) (ht1 ht2 : HashTable).
Context (Hwf1 : ht_wf ht1) (Hwf2 : ht_wf ht2) (Hc1 : cells_ok ht1 eg) (Hc2 : cells_ok ht2 eg).

Lemma follow_indirect_ok ht k v : cells_ok ht eg -> (k, v) ∈ elems ht -> follow_indirect eg v = Ok (target eg v).
Proof.
  intros Hc Hin. destruct v as [| | | | | | | | | | |a|]; try done. simpl. unfold get_cell.
  by destruct (Hc k a Hin) as [w ->].
Qed.

Lemma compare_values_ok k1 v1 k2 v2 : (k1, v1) ∈ elems ht1 -> (k2, v2) ∈ elems ht2 ->
  compare_values compar eg v1 v2 = Ok (value_cmp compar eg v1 v2).
Proof.
  intros H1 H2. unfold compare_values, value_cmp.
  rewrite (follow_indirect_ok ht1 k1 v1 Hc1 H1). rsimp. rewrite (follow_indirect_ok ht2 k2 v2 Hc2 H2). rsimp.
  by destruct (is_undef (target eg v1)), (is_undef (target eg v2)).
Qed.

Lemma live_in_elems ht i b : (i < used ht)%nat -> live (arData ht) i b -> (bkey b, b_val b) ∈ elems ht.
Proof. intros Hi Hb. apply elems_of_in. by exists i, b. Qed.

Lemma ordered_loop_ok : forall fuel i1 i2, (i1 <= used ht1)%nat -> (used ht1 - i1 < fuel)%nat ->
  length (elems_from (arData ht1) (used ht1) i1) = length (elems_from (arData ht2) (used ht2) i2) ->
  compare_loop compar fuel ht1 ht2 true (Z.of_nat i1) (Z.of_nat i2) eg =
    Ok (ordered_cmp compar eg (elems_from (arData ht1) (used ht1) i1) (elems_from (arData ht2) (used ht2) i2)).
Proof.
  destruct (data_wf_len _ (wf_data _ Hwf1)) as [Hu1 _]. destruct (data_wf_len _ (wf_data _ Hwf2)) as [Hu2 _].
  pose proof (wf_used _ (wf_data _ Hwf1)) as Hn1.
  induction fuel as [|fuel IH]; intros i1 i2 Hi1 Hf Hl; [lia|]. cbn [compare_loop].
  destruct (Z.ltb_spec (Z.of_nat i1) (nNumUsed ht1)) as [Hlt|Hge].
  2:{ rewrite (suffix_end _ _ i1) by (unfold used; lia). done. }
  assert (Hi1' : (i1 < used ht1)%nat) by (unfold used; lia).
  destruct (lookup_lt_is_Some_2 (arData ht1) i1 ltac:(lia)) as [p1 Hp1].
  unfold get_bucket at 1. rewrite (aget_ok _ _ _ Hp1). rsimp.
  pose proof (elems_from_cons _ _ _ _ Hp1 Hi1') as He1. unfold bucket_elem in He1.
  replace (Z.of_nat i1 + 1) with (Z.of_nat (S i1)) by lia.
  destruct (is_undef (b_val p1)) eqn:Eu; simpl in He1.
  { rewrite He1 in *. apply IH; [lia | lia | done]. }
  rewrite He1 in Hl. destruct (elems_from (arData ht2) (used ht2) i2) as [|e2 l2] eqn:E2; [done|].
  destruct (skip_to_live_ok ht2 e2 l2 Hu2 (S (length (arData ht2))) i2 E2 ltac:(lia))
    as (j & p2 & -> & Hj & Hp2 & -> & El2). rsimp.
  unfold get_bucket. rewrite (aget_ok _ _ _ (proj1 Hp2)). rsimp.
  rewrite compare_keys_spec, He1. simpl. unfold or_else at 1.
  destruct (Z.eqb_spec (key_cmp (bkey p1) (bkey p2)) 0); simpl; [|done].
  rewrite (compare_values_ok (bkey p1) _ (bkey p2)) by (eapply live_in_elems; done).
  rsimp. unfold or_else. destruct (_ =? 0); simpl; [|done].
  replace (Z.of_nat j + 1) with (Z.of_nat (S j)) by lia.
  rewrite IH; [by rewrite El2 | lia | lia | rewrite El2; simpl in Hl; lia].
Qed.

(** The value found for a key of the first table. *)
Lemma find_key_ok i b : (i < used ht1)%nat -> live (arData ht1) i b ->
  exists r, match b_key b with
            | None => zend_hash_index_find ht2 (b_h b)
            | Some key => zend_hash_find ht2 key
            end = Ok (ZV_BUCKET <$> (Z.of_nat <$> r)) /\ key_pos ht2 (bkey b) r.
Proof.
  intros Hi Hb. destruct (wf_bucket _ (wf_data _ Hwf1) i b Hi Hb) as [Hh Hk]. unfold bkey.
  destruct (b_key b) as [key|].
  - destruct Hk as [Hk _]. destruct (find_bucket_ok ht2 key Hwf2 Hk) as (r & E & Hr).
    exists r. unfold zend_hash_find. rewrite E. done.
  - apply index_find_ok; [done | lia].
Qed.

Lemma keyed_loop_ok : forall fuel i1, (i1 <= used ht1)%nat -> (used ht1 - i1 < fuel)%nat ->
  compare_loop compar fuel ht1 ht2 false (Z.of_nat i1) 0 eg =
    Ok (keyed_cmp compar eg (elems_from (arData ht1) (used ht1) i1) (elems ht2)).
Proof.
  destruct (data_wf_len _ (wf_data _ Hwf1)) as [Hu1 _]. pose proof (wf_used _ (wf_data _ Hwf1)) as Hn1.
  induction fuel as [|fuel IH]; intros i1 Hi1 Hf; [lia|]. cbn [compare_loop].
  destruct (Z.ltb_spec (Z.of_nat i1) (nNumUsed ht1)) as [Hlt|Hge].
  2:{ rewrite (suffix_end _ _ i1) by (unfold used; lia). done. }
  assert (Hi1' : (i1 < used ht1)%nat) by (unfold used; lia).
  destruct (lookup_lt_is_Some_2 (arData ht1) i1 ltac:(lia)) as [p1 Hp1].
  unfold get_bucket at 1. rewrite (aget_ok _ _ _ Hp1). rsimp.
  rewrite (elems_from_cons _ _ _ _ Hp1 Hi1'). unfold bucket_elem.
  replace (Z.of_nat i1 + 1) with (Z.of_nat (S i1)) by lia.
  destruct (is_undef (b_val p1)) eqn:Eu; [apply IH; lia|].
  assert (Hlive : live (arData ht1) i1 p1) by done.
  destruct (find_key_ok i1 p1 Hi1' Hlive) as (r & -> & Hr). rsimp. cbn [app keyed_cmp].
  pose proof (key_pos_find ht2 _ _ eg (wf_data _ Hwf2) Hr) as Ef. rewrite <- Ef.
  destruct r as [j|]; simpl; [|done]. destruct Hr as (b2 & Hj & Hb2 & Hk2).
  unfold get_bucket. rewrite (aget_ok _ _ _ (proj1 Hb2)), Nat2Z.id, (proj1 Hb2). simpl.
  rewrite (compare_values_ok (bkey p1) _ (bkey b2)) by (eapply live_in_elems; done).
  rsimp. unfold or_else. destruct (_ =? 0); simpl; [|done]. apply IH; lia.
Qed.

Lemma compare_impl_ok ordered : zend_hash_compare_impl compar ht1 ht2 ordered eg =
  Ok (alist_cmp compar eg ordered (elems ht1) (elems ht2)).
Proof.
  unfold zend_hash_compare_impl, alist_cmp.
  rewrite (wf_count _ (wf_data _ Hwf1)), (wf_count _ (wf_data _ Hwf2)).
  destruct (Nat.eqb_spec (length (elems ht1)) (length (elems ht2))) as [Hl|Hl].
  - rewrite Hl, Z.eqb_refl. cbn [negb]. destruct ordered.
    + rewrite (ordered_loop_ok _ 0 0); [done | lia | unfold used; lia |]. exact Hl.
    + apply (keyed_loop_ok _ 0); unfold used; lia.
  - by rewrite (proj2 (Z.eqb_neq _ _)) by lia.
Qed.
End Loop.

(** ** Properties *)

(** The table while it is protected. *)
Definition raised (ht : HashTable) : HashTable :=
  if f_apply_protection ht then set_nApplyCount (nApplyCount ht + 1) ht else ht.

Lemma unprotect_raised ht : 0 <= nApplyCount ht -> too_deep ht = false ->
  HASH_UNPROTECT_RECURSION (raised ht) = ht.
Proof.
  intros Hn Hd. unfold HASH_UNPROTECT_RECURSION, raised, too_deep in *.
  destruct (f_apply_protection ht) eqn:Ep; [|by rewrite Ep]. simpl in *. rewrite Ep. zbool.
  unfold u8. rewrite Z.mod_small by lia. replace (nApplyCount ht + 1 - 1) with (nApplyCount ht) by lia.
  by destruct ht.
Qed.

Lemma raised_same ht : same_repr ht (raised ht).
Proof. unfold raised. destruct (f_apply_protection ht); unfold same_repr; auto 20. Qed.

Lemma raised_wf ht : ht_wf ht -> ht_wf (raised ht).
Proof. apply same_repr_wf, raised_same. Qed.

Lemma raised_elems ht : elems (raised ht) = elems ht.
Proof. unfold raised. by destruct (f_apply_protection ht). Qed.

Lemma raised_count ht : 0 <= nApplyCount ht -> 0 <= nApplyCount (raised ht).
Proof. unfold raised. destruct (f_apply_protection ht); simpl; lia. Qed.

Lemma raised_cells ht eg : cells_ok ht eg -> cells_ok (raised ht) eg.
Proof. intros Hc k a. rewrite raised_elems. apply Hc. Qed.

(** Whether one of the two protections is refused. *)
Definition compare_too_deep (ht1 ht2 : HashTable) : bool :=
  too_deep ht1 || too_deep (if bool_decide (ht_addr ht1 = ht_addr ht2) then raised ht1 else ht2).

(** C35: [zend_hash_compare] on two tables, or on a table and itself:
    the fatal error of the nesting limit, or the comparison of the two lists
    of entries, with the recursion counters restored.  The result of the
    ordered comparison is 0 exactly when the tables have the same keys in the
    same order with equal values; of the other one exactly when they have the
    same number of entries and each key of the first table has an equal value
    in the second. *)
Theorem compare_correct compar ht1 ht2 ordered eg :
  ht_wf ht1 -> ht_wf ht2 -> cells_ok ht1 eg -> cells_ok ht2 eg ->
  0 <= nApplyCount ht1 -> 0 <= nApplyCount ht2 -> (ht_addr ht1 = ht_addr ht2 -> ht1 = ht2) ->
  zend_hash_compare compar ht1 ht2 ordered eg =
    (if compare_too_deep ht1 ht2 then Err Fatal
     else Ok (alist_cmp compar eg ordered (elems ht1) (elems ht2), ht1, ht2)) /\
  (alist_cmp compar eg ordered (elems ht1) (elems ht2) = 0 <->
   length (elems ht1) = length (elems ht2) /\
   if ordered then
     Forall2 (fun e1 e2 => e1.1 = e2.1 /\ value_cmp compar eg e1.2 e2.2 = 0) (elems ht1) (elems ht2)
   else
     forall k v, (k, v) ∈ elems ht1 ->
       exists w, al_find k (elems ht2) = Some w /\ value_cmp compar eg v w = 0).
Proof.
  intros Hwf1 Hwf2 Hc1 Hc2 Hn1 Hn2 Halias. split.
  - unfold zend_hash_compare, compare_too_deep. rewrite HASH_PROTECT_ok by done. fold (raised ht1).
    destruct (too_deep ht1) eqn:Ed1; [done|]. rsimp. cbn [orb].
    assert (Ha : ht_addr (raised ht1) = ht_addr ht1) by (unfold raised; by destruct (f_apply_protection ht1)).
    case_bool_decide as Ea.
    + specialize (Halias Ea) as <-. pose proof (raised_count ht1 Hn1) as Hr.
      rewrite HASH_PROTECT_ok by done. fold (raised (raised ht1)).
      destruct (too_deep (raised ht1)) eqn:Ed2; [done|]. rsimp.
      rewrite compare_impl_ok by auto using raised_wf, raised_cells. rsimp.
      by rewrite !unprotect_raised, !raised_elems by done.
    + rewrite HASH_PROTECT_ok by done. fold (raised ht2). destruct (too_deep ht2) eqn:Ed2; [done|]. rsimp.
      rewrite compare_impl_ok by auto using raised_wf, raised_cells. rsimp.
      by rewrite !unprotect_raised, !raised_elems by done.
  - unfold alist_cmp. destruct (Nat.eqb_spec (length (elems ht1)) (length (elems ht2))) as [Hl|Hl].
    + destruct ordered; [rewrite ordered_cmp_zero by done | rewrite keyed_cmp_zero]; tauto.
    + split; [by intros ?%larger_nonzero | tauto].
Qed.

Lemma compare_correct_witness :
  zend_hash_compare (fun v w => if decide (v = w) then 0 else 1) sample_hash sample_hash true sample_eg
    = Ok (0, sample_hash, sample_hash).
Proof.
  assert (Hc : cells_ok sample_hash sample_eg) by (apply cells_okb_sound; vm_compute; reflexivity).
  destruct (compare_correct (fun v w => if decide (v = w) then 0 else 1) sample_hash sample_hash true sample_eg
              sample_hash_wf sample_hash_wf Hc Hc) as [-> _]; [vm_compute; discriminate .. | done |].
  vm_compute. reflexivity.
Defined.
