(* ===== verification/Numeric.v ===== *)
(** * Integers as strings and back: [_zend_handle_numeric_str]
    ([Zend/zend_hash.h], [Zend/zend_hash.c]), [zend_long_to_str]
    ([Zend/zend_operators.c], [Zend/zend_operators.h])

    Array keys that are canonical decimal integers are integer keys.  A key is
    read as a C string: the bytes and the terminating NUL. *)
From Stdlib Require Import Strings.Byte.
From S2P Require Export Prelude ZendString.

(** ** Parsing *)

(** [*(key + i)] *)
Definition char_at (key : list char) (i : Z) : res Z :=
  let! c := aget (key ++ [x00]) i in Ok (schar c).

Definition MAX_LENGTH_OF_LONG : Z := 20.

(** The loop over the digits: [None] is the result 0, [Some idx] the result 1. *)
Fixpoint numeric_loop (fuel : nat) (key : list char) (length : Z) (minus : bool) (tmp idx : Z) {struct fuel}
    : res (option Z) :=
  match fuel with
  | O => Err OutOfFuel
  | S fuel =>
      let tmp := tmp + 1 in
      if tmp =? length then
        if minus then
          if ZEND_LONG_MAX <? u64 (idx - 1) then Ok None else Ok (Some (u64 (0 - idx)))
        else if ZEND_LONG_MAX <? idx then Ok None
        else Ok (Some idx)
      else
        let! c := char_at key tmp in
        if (c <=? 57) && (48 <=? c) then
          numeric_loop fuel key length minus tmp (u64 (u64 (idx * 10) + u64 (c - 48)))
        else Ok None
  end.

Definition _zend_handle_numeric_str_ex (key : list char) : res (option Z) :=
  let length := Z.of_nat (length key) in
  let! c0 := char_at key 0 in
  let minus := c0 =? 45 in
  let tmp := if minus then 1 else 0 in
  let! c := char_at key tmp in
  if ((c =? 48) && (1 <? length)) || (MAX_LENGTH_OF_LONG - 1 <? length - tmp) then Ok None
  else numeric_loop (S (Datatypes.length key)) key length minus tmp (u64 (c - 48)).

Definition _zend_handle_numeric_str (key : list char) : res (option Z) :=
  let! c := char_at key 0 in
  if 57 <? c then Ok None
  else if c <? 48 then
    if negb (c =? 45) then Ok None
    else
      let! c := char_at key 1 in
      if (57 <? c) || (c <? 48) then Ok None else _zend_handle_numeric_str_ex key
  else _zend_handle_numeric_str_ex key.

(** ** Printing *)

(** [(char) n + '0'] for a digit. *)
Definition digit_char (n : Z) : char :=
  match of_N (Z.to_N (n + 48)) with Some c => c | None => x00 end.

(** The bytes from [buf] on are [acc]; [room] bytes are left in front of it. *)
Fixpoint zend_print_ulong_to_buf (room : nat) (num : Z) (acc : list char) {struct room} : res (list char) :=
  match room with
  | O => Err OutOfBounds
  | S room =>
      let acc := digit_char (num mod 10) :: acc in
      let num := num / 10 in
      if 0 <? num then zend_print_ulong_to_buf room num acc else Ok acc
  end.

(** The bytes that are still free once [acc] has been written are those that
    [acc] does not use. *)
Definition zend_print_long_to_buf (room : nat) (num : Z) : res (list char) :=
  if num <? 0 then
    let! result := zend_print_ulong_to_buf room (u64 (u64 (Z.lnot (u64 num)) + 1)) [] in
    if (length result <? room)%nat then Ok (x2d :: result) else Err OutOfBounds
  else zend_print_ulong_to_buf room num [].

(** [char buf[MAX_LENGTH_OF_LONG + 1]], with the NUL in the last byte.  The
    result is the one-character string of a digit, or the text to allocate. *)
Definition zend_long_to_chars (num : Z) : res (list char) :=
  if u64 num <=? 9 then Ok [digit_char num]
  else zend_print_long_to_buf (Z.to_nat MAX_LENGTH_OF_LONG) num.

(** ** Decimal numbers *)
Definition digit_of (c : char) : Z := schar c - 48.
Definition is_digit (c : char) : bool := (schar c <=? 57) && (48 <=? schar c).

(** The number that a list of digits writes, after the digits of [n]. *)
Definition decimal (n : Z) (ds : list char) : Z := foldl (fun n c => n * 10 + digit_of c) n ds.

Lemma decimal_app n ds es : decimal n (ds ++ es) = decimal (decimal n ds) es.
Proof. apply foldl_app. Qed.

Lemma is_digit_range c : is_digit c = true -> 0 <= digit_of c <= 9.
Proof. unfold is_digit, digit_of. intros. zbool. lia. Qed.

Lemma digit_char_ok n : 0 <= n <= 9 -> is_digit (digit_char n) = true /\ digit_of (digit_char n) = n /\
  schar (digit_char n) = n + 48.
Proof.
  intros H. assert (In n (seqZ 0 10)) as Hn.
  { apply list_elem_of_In, elem_of_seqZ. lia. }
  simpl in Hn. repeat (destruct Hn as [<-|Hn]; [repeat split; reflexivity|]). done.
Qed.

Lemma schar_uchar c d : schar c = schar d -> c = d.
Proof.
  unfold schar, s8. intros H. pose proof (uchar_range c). pose proof (uchar_range d). apply uchar_inj.
  destruct (Z.lt_ge_cases (uchar c) 128), (Z.lt_ge_cases (uchar d) 128).
  - rewrite !Z.mod_small in H by lia. lia.
  - rewrite (Z.mod_small (uchar c + _)) in H by lia.
    replace (uchar d + 2 ^ 7) with (uchar d - 128 + 1 * 2 ^ 8) in H by lia.
    rewrite Z.mod_add, Z.mod_small in H; lia.
  - rewrite (Z.mod_small (uchar d + _)) in H by lia.
    replace (uchar c + 2 ^ 7) with (uchar c - 128 + 1 * 2 ^ 8) in H by lia.
    rewrite Z.mod_add, Z.mod_small in H; lia.
  - replace (uchar c + 2 ^ 7) with (uchar c - 128 + 1 * 2 ^ 8) in H by lia.
    replace (uchar d + 2 ^ 7) with (uchar d - 128 + 1 * 2 ^ 8) in H by lia.
    rewrite !Z.mod_add, !Z.mod_small in H; lia.
Qed.

Lemma digit_char_of c : is_digit c = true -> digit_char (digit_of c) = c.
Proof.
  intros H. pose proof (is_digit_range c H) as Hr. apply schar_uchar.
  destruct (digit_char_ok _ Hr) as (_ & _ & ->). unfold digit_of. lia.
Qed.

Lemma decimal_nonneg n ds : 0 <= n -> forallb is_digit ds = true ->
  n * 10 ^ Z.of_nat (length ds) <= decimal n ds < (n + 1) * 10 ^ Z.of_nat (length ds).
Proof.
  revert n. induction ds as [|c ds IH]; intros n Hn Hd; [simpl; lia|].
  cbn [forallb] in Hd. apply andb_prop in Hd as [Hc Hd]. pose proof (is_digit_range c Hc).
  specialize (IH (n * 10 + digit_of c) ltac:(lia) Hd). cbn [length].
  rewrite Nat2Z.inj_succ, Z.pow_succ_r by lia.
  pose proof (Z.pow_pos_nonneg 10 (Z.of_nat (length ds)) ltac:(lia) ltac:(lia)).
  change (decimal n (c :: ds)) with (decimal (n * 10 + digit_of c) ds). nia.
Qed.

(** ** Canonical texts *)

(** [ds] is the decimal text of [n], without leading zeros. *)
Record canonical (n : Z) (ds : list char) : Prop := {
  cn_digits : forallb is_digit ds = true;
  cn_value : decimal 0 ds = n;
  cn_nonempty : ds <> [];
  cn_lead : forall es, ds = x30 :: es -> es = [];
}.

Lemma canonical_bounds n ds : canonical n ds -> 0 <= n < 10 ^ Z.of_nat (length ds) /\
  (n <> 0 -> 10 ^ Z.of_nat (pred (length ds)) <= n).
Proof.
  intros [Hd <- Hne Hlead]. destruct ds as [|c ds]; [done|].
  pose proof (decimal_nonneg 0 (c :: ds) ltac:(lia) Hd) as Hb. split; [lia|]. intros Hn0.
  cbn [forallb] in Hd. apply andb_prop in Hd as [Hc Hd]. pose proof (is_digit_range c Hc).
  change (decimal 0 (c :: ds)) with (decimal (0 * 10 + digit_of c) ds) in *. cbn [length pred].
  pose proof (decimal_nonneg (0 * 10 + digit_of c) ds ltac:(lia) Hd).
  destruct (Z.eq_dec (digit_of c) 0) as [Hz|].
  - assert (c = x30) as -> by (apply schar_uchar; unfold digit_of in Hz; change (schar x30) with 48; lia).
    rewrite (Hlead ds eq_refl) in Hn0. done.
  - pose proof (Z.pow_pos_nonneg 10 (Z.of_nat (length ds)) ltac:(lia) ltac:(lia)). nia.
Qed.

Lemma decimal_inj ds es n m : 0 <= n -> 0 <= m -> length ds = length es ->
  forallb is_digit ds = true -> forallb is_digit es = true ->
  decimal n ds = decimal m es -> n = m /\ ds = es.
Proof.
  revert es n m. induction ds as [|c ds IH]; intros [|d es] n m Hn Hm Hl Hd He E; try done.
  cbn [forallb] in Hd, He. apply andb_prop in Hd as [Hc Hd]. apply andb_prop in He as [Hc' He].
  pose proof (is_digit_range c Hc). pose proof (is_digit_range d Hc'). simpl in Hl.
  destruct (IH es (n * 10 + digit_of c) (m * 10 + digit_of d)) as [E1 ->]; try done; try lia.
  split; [lia|]. f_equal. apply schar_uchar. unfold digit_of in *. lia.
Qed.

Lemma canonical_zero l : canonical 0 l -> length l = 1%nat.
Proof.
  destruct l as [|c l]; intros [Hd Hv Hne Hl]; [done|]. destruct l as [|c2 l]; [done|]. exfalso.
  cbn [forallb] in Hd. apply andb_prop in Hd as [Hc Hd]. pose proof (is_digit_range c Hc).
  change (decimal (0 * 10 + digit_of c) (c2 :: l) = 0) in Hv.
  pose proof (decimal_nonneg (0 * 10 + digit_of c) (c2 :: l) ltac:(lia) Hd).
  pose proof (Z.pow_pos_nonneg 10 (Z.of_nat (length (c2 :: l))) ltac:(lia) ltac:(lia)).
  assert (c = x30) as ->; [|by specialize (Hl _ eq_refl)].
  apply schar_uchar. unfold digit_of in *. change (schar x30) with 48. nia.
Qed.

Lemma canonical_unique n ds es : canonical n ds -> canonical n es -> ds = es.
Proof.
  intros Hd He. destruct (canonical_bounds _ _ Hd) as [Bd Ld]. destruct (canonical_bounds _ _ He) as [Be Le].
  assert (Hlen : length ds = length es).
  { destruct (Z.eq_dec n 0) as [->|Hn].
    - by rewrite !canonical_zero.
    - specialize (Ld Hn). specialize (Le Hn).
      destruct (Nat.lt_trichotomy (length ds) (length es)) as [Hlt|[?|Hlt]]; [exfalso|done|exfalso].
      + pose proof (Z.pow_le_mono_r 10 (Z.of_nat (length ds)) (Z.of_nat (pred (length es)))). lia.
      + pose proof (Z.pow_le_mono_r 10 (Z.of_nat (length es)) (Z.of_nat (pred (length ds)))). lia. }
  destruct Hd as [Hd1 Hd2 _ _], He as [He1 He2 _ _].
  eapply (decimal_inj ds es 0 0); try done; try lia.
Qed.

(** *** Printing *)
Lemma print_ulong_ok : forall room num acc, (0 < room)%nat -> 0 <= num < 10 ^ Z.of_nat room ->
  exists ds, zend_print_ulong_to_buf room num acc = Ok (ds ++ acc) /\ canonical num ds /\
    forall k : nat, (0 < k)%nat -> num < 10 ^ Z.of_nat k -> (length ds <= k)%nat.
Proof.
  induction room as [|room IH]; intros num acc Hr Hn; [lia|]. cbn [zend_print_ulong_to_buf].
  pose proof (Z.mod_pos_bound num 10 ltac:(lia)) as Hm. pose proof (Z.div_mod num 10 ltac:(lia)) as Hdm.
  destruct (digit_char_ok (num mod 10) ltac:(lia)) as (Hd & Hv & Hs).
  destruct (Z.ltb_spec 0 (num / 10)) as [Hlt|Hge].
  - rewrite Nat2Z.inj_succ, Z.pow_succ_r in Hn by lia.
    destruct (IH (num / 10) (digit_char (num mod 10) :: acc)) as (ds & -> & [Hds Hval Hne Hlead] & Hlen).
    { destruct room; [|lia]. simpl in Hn. lia. }
    { split; [lia|]. apply Z.div_lt_upper_bound; lia. }
    exists (ds ++ [digit_char (num mod 10)]). split; [by rewrite <- app_assoc|]. split.
    + split.
      * by rewrite forallb_app, Hds; simpl; rewrite Hd.
      * rewrite decimal_app, Hval. unfold decimal. simpl. lia.
      * by destruct ds.
      * intros es He. destruct ds as [|c ds]; [done|]. injection He as -> He.
        specialize (Hlead ds eq_refl) as ->. exfalso. unfold decimal in Hval. simpl in Hval.
        change (digit_of x30) with 0 in Hval. lia.
    + intros k Hk Hnk. rewrite length_app. simpl. destruct k as [|k]; [lia|].
      rewrite Nat2Z.inj_succ, Z.pow_succ_r in Hnk by lia.
      assert (num / 10 < 10 ^ Z.of_nat k) by (apply Z.div_lt_upper_bound; lia).
      destruct k as [|k]; [simpl in *; lia|]. specialize (Hlen (S k) ltac:(lia) ltac:(done)). lia.
  - exists [digit_char (num mod 10)]. split; [done|]. assert (num / 10 = 0) by (pose proof (Z.div_pos num 10); lia).
    split; [|intros; simpl; lia]. split; [simpl; by rewrite Hd | | done |].
    + unfold decimal. simpl. lia.
    + intros es [= _ <-]. done.
Qed.

(** The text of a [zend_long]. *)
Definition canonical_long (n : Z) (key : list char) : Prop :=
  if n <? 0 then exists ds, key = x2d :: ds /\ canonical (- n) ds else canonical n key.

Lemma canonical_long_unique n k1 k2 : canonical_long n k1 -> canonical_long n k2 -> k1 = k2.
Proof.
  unfold canonical_long. destruct (_ <? _); [|apply canonical_unique].
  intros (d1 & -> & H1) (d2 & -> & H2). f_equal. by apply (canonical_unique (- n)).
Qed.

Lemma negate_u64 n : - 2 ^ 63 <= n < 0 -> u64 (u64 (Z.lnot (u64 n)) + 1) = - n.
Proof.
  intros Hn. assert (E : u64 n = n + 2 ^ 64).
  { unfold u64. replace n with (n + 2 ^ 64 + (-1) * 2 ^ 64) at 1 by lia.
    rewrite Z.mod_add, Z.mod_small; lia. }
  rewrite E. unfold Z.lnot. assert (E2 : u64 (Z.pred (- (n + 2 ^ 64))) = - n - 1).
  { unfold u64. replace (Z.pred (- (n + 2 ^ 64))) with (- n - 1 + (-1) * 2 ^ 64) by lia.
    rewrite Z.mod_add, Z.mod_small; lia. }
  rewrite E2. rewrite u64_small; lia.
Qed.

Lemma canonical_digit n : 0 <= n <= 9 -> canonical n [digit_char n].
Proof.
  intros Hn. destruct (digit_char_ok n Hn) as (Hd & Hv & _). split; [simpl; by rewrite Hd | | done |].
  - unfold decimal. simpl. lia.
  - by intros es [= _ <-].
Qed.

Lemma long_to_chars_ok n : - 2 ^ 63 <= n < 2 ^ 63 ->
  exists key, zend_long_to_chars n = Ok key /\ canonical_long n key /\ (length key <= 20)%nat.
Proof.
  intros Hn. unfold zend_long_to_chars, canonical_long, zend_print_long_to_buf.
  destruct (Z.ltb_spec n 0) as [Hneg|Hpos].
  - destruct (Z.leb_spec (u64 n) 9) as [Hle|Hgt].
    { exfalso. assert (E : u64 n = n + 2 ^ 64); [|lia]. unfold u64.
      replace n with (n + 2 ^ 64 + (-1) * 2 ^ 64) at 1 by lia. rewrite Z.mod_add, Z.mod_small; lia. }
    rewrite negate_u64 by lia. change (Z.to_nat MAX_LENGTH_OF_LONG) with 20%nat.
    destruct (print_ulong_ok 20 (- n) [] ltac:(lia)) as (ds & -> & Hc & Hlen); [simpl Z.of_nat; lia|].
    rewrite app_nil_r. rsimp. specialize (Hlen 19%nat ltac:(lia) ltac:(simpl Z.of_nat; lia)).
    rewrite (proj2 (Nat.ltb_lt _ _)) by lia. eexists. split; [done|]. split; [by exists ds | simpl; lia].
  - rewrite u64_small by lia. destruct (Z.leb_spec n 9) as [Hle|Hgt].
    + exists [digit_char n]. split; [done|]. split; [by apply canonical_digit | simpl; lia].
    + change (Z.to_nat MAX_LENGTH_OF_LONG) with 20%nat.
      destruct (print_ulong_ok 20 n [] ltac:(lia)) as (ds & -> & Hc & Hlen); [simpl Z.of_nat; lia|].
      rewrite app_nil_r. exists ds. split; [done|]. split; [done|].
      apply Hlen; [lia|simpl Z.of_nat; lia].
Qed.

(** *** Parsing *)
Lemma char_at_ok key (i : nat) c : key !! i = Some c -> char_at key (Z.of_nat i) = Ok (schar c).
Proof. intros H. unfold char_at. by rewrite (aget_ok _ i c) by (by apply lookup_app_l_Some). Qed.

(** What the end of the loop returns for the number [n]. *)
Definition numeric_result (minus : bool) (n : Z) : option Z :=
  if minus then if ZEND_LONG_MAX <? n - 1 then None else Some (u64 (- n))
  else if ZEND_LONG_MAX <? n then None else Some n.

Lemma numeric_loop_ok key minus : forall rest fuel pre n,
  key = pre ++ rest -> pre <> [] -> (length rest < fuel)%nat ->
  0 <= n -> (minus = true -> 0 < n) -> (n + 1) * 10 ^ Z.of_nat (length rest) <= 10 ^ 19 ->
  numeric_loop fuel key (Z.of_nat (length key)) minus (Z.of_nat (length pre) - 1) n =
    Ok (if forallb is_digit rest then numeric_result minus (decimal n rest) else None).
Proof.
  induction rest as [|c rest IH]; intros fuel pre n Hk Hpre Hf Hn Hmin Hmax; (destruct fuel as [|fuel]; [simpl in Hf; lia|]);
    cbn [numeric_loop]; replace (Z.of_nat (length pre) - 1 + 1) with (Z.of_nat (length pre)) by lia.
  - subst key. rewrite app_nil_r, Z.eqb_refl. simpl in *. unfold numeric_result.
    destruct minus; [|by destruct (_ <? _)]. specialize (Hmin eq_refl). rewrite u64_small by lia.
    replace (0 - n) with (- n) by lia. by destruct (_ <? _).
  - rewrite (proj2 (Z.eqb_neq _ _)) by (subst key; rewrite length_app; simpl; lia).
    rewrite (char_at_ok key (length pre) c) by (subst key; by apply list_lookup_middle). rsimp.
    cbn [forallb length] in *. change ((schar c <=? 57) && (48 <=? schar c)) with (is_digit c).
    destruct (is_digit c) eqn:Ec; [|done]. pose proof (is_digit_range c Ec) as Hr. unfold digit_of in Hr.
    rewrite Nat2Z.inj_succ, Z.pow_succ_r in Hmax by lia.
    pose proof (Z.pow_pos_nonneg 10 (Z.of_nat (length rest)) ltac:(lia) ltac:(lia)) as Hp.
    assert (Hn10 : n * 10 + 10 <= 10 ^ 19) by nia.
    rewrite (u64_small (n * 10)), (u64_small (schar c - 48)), u64_small by lia.
    replace (Z.of_nat (length pre)) with (Z.of_nat (length (pre ++ [c])) - 1) by (rewrite length_app; simpl; lia).
    rewrite (IH fuel (pre ++ [c])); [done | by rewrite <- app_assoc | by destruct pre | simpl in Hf; lia | lia | intros Hm; specialize (Hmin Hm); lia |].
    nia.
Qed.

Lemma s64_u64_neg n : 0 < n <= 2 ^ 63 -> s64 (u64 (- n)) = - n.
Proof.
  intros Hn. assert (E : u64 (- n) = 2 ^ 64 - n).
  { unfold u64. replace (- n) with (2 ^ 64 - n + (-1) * 2 ^ 64) by lia. rewrite Z.mod_add, Z.mod_small; lia. }
  rewrite E. unfold s64. replace (2 ^ 64 - n + 2 ^ 63) with (2 ^ 63 - n + 1 * 2 ^ 64) by lia.
  rewrite Z.mod_add, Z.mod_small; lia.
Qed.

Lemma u64_s64 idx : 0 <= idx < 2 ^ 64 -> u64 (s64 idx) = idx.
Proof.
  intros H. destruct (Z.lt_ge_cases idx (2 ^ 63)).
  - rewrite s64_small, u64_small; lia.
  - assert (E : s64 idx = idx - 2 ^ 64).
    { unfold s64. replace (idx + 2 ^ 63) with (idx - 2 ^ 63 + 1 * 2 ^ 64) by lia.
      rewrite Z.mod_add, Z.mod_small; lia. }
    rewrite E. unfold u64. replace (idx - 2 ^ 64) with (idx + (-1) * 2 ^ 64) by lia.
    rewrite Z.mod_add, Z.mod_small; lia.
Qed.

(** The tests of [_zend_handle_numeric_str_ex] in front of the loop. *)
Definition refused (minus : bool) (ds : list char) : bool :=
  match ds with
  | c :: rest => ((schar c =? 48) && (minus || negb (Nat.eqb (length rest) 0))) || (19 <? length ds)%nat
  | [] => true
  end.

Definition sign (minus : bool) : list char := if minus then [x2d] else [].

Lemma handle_ex_ok minus c rest : is_digit c = true ->
  _zend_handle_numeric_str_ex (sign minus ++ c :: rest) =
    Ok (if refused minus (c :: rest) then None
        else if forallb is_digit rest then numeric_result minus (decimal 0 (c :: rest)) else None).
Proof.
  intros Hc. pose proof (is_digit_range c Hc) as Hr. unfold digit_of in Hr. unfold _zend_handle_numeric_str_ex.
  set (key := sign minus ++ c :: rest).
  assert (H0 : exists c0, char_at key 0 = Ok c0 /\ (c0 =? 45) = minus).
  { destruct minus; (eexists; split; [by apply (char_at_ok key 0)|]); [done|]. apply Z.eqb_neq. lia. }
  destruct H0 as (c0 & -> & Ec0). rsimp. rewrite Ec0.
  assert (Htmp : (if minus then 1 else 0) = Z.of_nat (length (sign minus ++ [c])) - 1) by (by destruct minus).
  assert (H1 : char_at key (if minus then 1 else 0) = Ok (schar c)).
  { destruct minus; [by apply (char_at_ok key 1) | by apply (char_at_ok key 0)]. }
  rewrite H1. rsimp.
  assert (Hlen : Z.of_nat (length key) - (if minus then 1 else 0) = Z.of_nat (length (c :: rest)))
    by (unfold key; destruct minus; simpl; lia).
  rewrite Hlen.
  assert (Href : ((schar c =? 48) && (1 <? Z.of_nat (length key)))
                 || (MAX_LENGTH_OF_LONG - 1 <? Z.of_nat (length (c :: rest))) = refused minus (c :: rest)).
  { unfold refused, MAX_LENGTH_OF_LONG. f_equal.
    - f_equal. unfold key. destruct minus; simpl orb.
      + apply Z.ltb_lt. simpl. lia.
      + destruct (Nat.eqb_spec (length rest) 0); simpl negb; [apply Z.ltb_ge | apply Z.ltb_lt]; simpl; lia.
    - destruct (Nat.ltb_spec 19 (length (c :: rest))); [apply Z.ltb_lt | apply Z.ltb_ge]; lia. }
  rewrite Href. destruct (refused minus (c :: rest)) eqn:Er; [done|].
  apply orb_false_elim in Er as [Ez El]. apply Nat.ltb_ge in El. cbn [length] in El.
  rewrite (u64_small (schar c - 48)) by lia. rewrite Htmp.
  rewrite (numeric_loop_ok key minus rest _ (sign minus ++ [c])); [done | | by destruct minus | | lia | |].
  - unfold key. by rewrite <- app_assoc.
  - unfold key. rewrite length_app. simpl. lia.
  - intros ->. rewrite andb_true_r in Ez. zbool. lia.
  - pose proof (Z.pow_le_mono_r 10 (Z.of_nat (length rest)) 18 ltac:(lia) ltac:(lia)). nia.
Qed.

Lemma numeric_result_ok minus ds idx : forallb is_digit ds = true -> refused minus ds = false ->
  numeric_result minus (decimal 0 ds) = Some idx <->
  0 <= idx < 2 ^ 64 /\ canonical_long (s64 idx) (sign minus ++ ds).
Proof.
  intros Hd Hr. destruct ds as [|c rest]; [done|]. pose proof Hr as [Hz Hl]%orb_false_elim.
  apply Nat.ltb_ge in Hl. pose proof Hd as Hd'. cbn [forallb] in Hd'. apply andb_prop in Hd' as [Hc _].
  assert (Hcan : canonical (decimal 0 (c :: rest)) (c :: rest)).
  { split; try done. intros es [= -> ->]. change (schar x30 =? 48) with true in Hz. simpl in Hz.
    apply orb_false_elim in Hz as [_ Hz]. apply negb_false_iff, Nat.eqb_eq in Hz. by destruct es. }
  set (n := decimal 0 (c :: rest)) in *. destruct (canonical_bounds _ _ Hcan) as [[Hn0 Hn1] _].
  assert (Hneg : minus = true -> 0 < n).
  { intros ->. rewrite andb_true_r in Hz. zbool. pose proof (is_digit_range c Hc) as Hcr.
    destruct (Z.eq_dec n 0) as [E|]; [|lia]. exfalso.
    cbn [forallb] in Hd. apply andb_prop in Hd as [_ Hd].
    pose proof (decimal_nonneg (0 * 10 + digit_of c) rest ltac:(lia) Hd) as Hb.
    change (decimal (0 * 10 + digit_of c) rest) with n in Hb. unfold digit_of in *.
    pose proof (Z.pow_pos_nonneg 10 (Z.of_nat (length rest)) ltac:(lia) ltac:(lia)). nia. }
  unfold numeric_result, ZEND_LONG_MAX. split.
  - destruct minus; simpl sign.
    + specialize (Hneg eq_refl). destruct (Z.ltb_spec (2 ^ 63 - 1) (n - 1)); [done|]. intros [= <-].
      split; [apply u64_range|]. rewrite s64_u64_neg by lia. unfold canonical_long.
      rewrite (proj2 (Z.ltb_lt _ _)) by lia. exists (c :: rest). by rewrite Z.opp_involutive.
    + destruct (Z.ltb_spec (2 ^ 63 - 1) n); [done|]. intros [= <-]. split; [lia|].
      rewrite s64_small by lia. unfold canonical_long. by rewrite (proj2 (Z.ltb_ge _ _)) by lia.
  - intros [Hidx Hk]. pose proof (s64_range idx) as Hrange. unfold canonical_long in Hk.
    rewrite <- (u64_s64 idx Hidx). set (m := s64 idx) in *. destruct minus; simpl sign in Hk.
    + destruct (Z.ltb_spec m 0).
      * destruct Hk as (ds & [= <-] & Hm). assert (n = - m) as -> by (exact (cn_value _ _ Hm)).
        rewrite (proj2 (Z.ltb_ge _ _)) by lia. by rewrite Z.opp_involutive.
      * exfalso. pose proof (cn_digits _ _ Hk) as Hx. simpl in Hx. done.
    + destruct (Z.ltb_spec m 0).
      * destruct Hk as (ds & [= -> _] & _). done.
      * assert (n = m) as -> by (exact (cn_value _ _ Hk)). rewrite (proj2 (Z.ltb_ge _ _)) by lia.
        by rewrite u64_small by lia.
Qed.

(** A canonical text passes the tests. *)
Lemma canonical_not_refused m minus c rest : - 2 ^ 63 <= m < 2 ^ 63 -> is_digit c = true ->
  canonical_long m (sign minus ++ c :: rest) ->
  refused minus (c :: rest) = false /\ forallb is_digit rest = true.
Proof.
  intros Hm Hc Hk. unfold canonical_long in Hk.
  assert (H : exists n, canonical n (c :: rest) /\ 0 <= n <= 2 ^ 63 /\ (minus = true -> 0 < n)).
  { destruct (Z.ltb_spec m 0), minus; simpl sign in Hk.
    - destruct Hk as (ds & [= <-] & Hk). exists (- m). split; [done | lia].
    - destruct Hk as (ds & [= -> <-] & Hk). done.
    - pose proof (cn_digits _ _ Hk). done.
    - exists m. split; [done | lia]. }
  destruct H as (n & Hcan & Hn & Hmin). pose proof (cn_digits _ _ Hcan) as Hd. cbn [forallb] in Hd.
  apply andb_prop in Hd as [_ Hd]. split; [|done]. unfold refused. apply orb_false_intro.
  - destruct (Z.eqb_spec (schar c) 48) as [Ez|]; [|done].
    assert (c = x30) as -> by (by apply schar_uchar). pose proof (cn_lead _ _ Hcan rest eq_refl) as ->.
    simpl. rewrite orb_false_r. destruct minus; [|done]. specialize (Hmin eq_refl).
    pose proof (cn_value _ _ Hcan) as Hv. change (0 = n) in Hv. lia.
  - apply Nat.ltb_ge. destruct (canonical_bounds _ _ Hcan) as [_ Hl]. cbn [length pred] in *.
    destruct (Nat.le_gt_cases (length rest) 18) as [|Hgt]; [lia|]. exfalso.
    assert (n <> 0) by (intros ->; pose proof (canonical_zero _ Hcan) as Hz; simpl in Hz; lia).
    pose proof (Z.pow_le_mono_r 10 19 (Z.of_nat (length rest)) ltac:(lia) ltac:(lia)). lia.
Qed.

(** *** The key test *)
Lemma handle_numeric_ok key : exists r, _zend_handle_numeric_str key = Ok r /\
  forall idx, r = Some idx <-> 0 <= idx < 2 ^ 64 /\ canonical_long (s64 idx) key.
Proof.
  assert (Hdig : forall minus c rest, key = sign minus ++ c :: rest -> is_digit c = true ->
    exists r, _zend_handle_numeric_str_ex key = Ok r /\
      forall idx, r = Some idx <-> 0 <= idx < 2 ^ 64 /\ canonical_long (s64 idx) key).
  { intros minus c rest -> Hc. rewrite handle_ex_ok by done. eexists. split; [done|]. intros idx.
    destruct (refused minus (c :: rest)) eqn:Er.
    { split; [done|]. intros [Hi Hk]. apply canonical_not_refused in Hk as [Hk _]; [congruence | apply s64_range | done]. }
    destruct (forallb is_digit rest) eqn:Ed.
    - apply numeric_result_ok; [simpl; by rewrite Hc | done].
    - split; [done|]. intros [Hi Hk]. apply canonical_not_refused in Hk as [_ Hk]; [congruence | apply s64_range | done]. }
  assert (Hno : (forall n, ~ canonical_long n key) -> exists r, @Ok (option Z) None = Ok r /\
      forall idx, r = Some idx <-> 0 <= idx < 2 ^ 64 /\ canonical_long (s64 idx) key).
  { intros Hn. exists None. split; [done|]. intros idx. split; [done|]. intros [_ Hk]. by apply Hn in Hk. }
  assert (Hhead : forall n, canonical_long n key -> match key with
    | c :: rest => is_digit c = true \/ (c = x2d /\ match rest with d :: _ => is_digit d = true | [] => False end)
    | [] => False end).
  { intros n Hk. unfold canonical_long in Hk. destruct (n <? 0).
    - destruct Hk as (ds & -> & Hc). right. split; [done|]. destruct ds as [|d ds]; [by apply (cn_nonempty _ _ Hc)|].
      pose proof (cn_digits _ _ Hc) as Hd. simpl in Hd. by apply andb_prop in Hd as [Hd _].
    - destruct key as [|c ds]; [by destruct (cn_nonempty _ _ Hk)|]. left.
      pose proof (cn_digits _ _ Hk) as Hd. simpl in Hd. by apply andb_prop in Hd as [Hd _]. }
  unfold _zend_handle_numeric_str. destruct key as [|c rest].
  { change (char_at [] 0) with (@Ok Z 0). apply Hno. intros n Hk. by apply Hhead in Hk. }
  rewrite (char_at_ok _ 0 c) by done. rsimp.
  destruct (Z.ltb_spec 57 (schar c)) as [Hgt|Hle].
  { apply Hno. intros n Hk. apply Hhead in Hk as [Hk | [-> _]]; [|done]. unfold is_digit in Hk. zbool. lia. }
  destruct (Z.ltb_spec (schar c) 48) as [Hlt|Hge].
  2:{ apply (Hdig false c rest); [done|]. unfold is_digit.
      by rewrite (proj2 (Z.leb_le _ _)), (proj2 (Z.leb_le _ _)) by lia. }
  destruct (Z.eqb_spec (schar c) 45) as [Em|Em]; cbn [negb].
  2:{ apply Hno. intros n Hk. apply Hhead in Hk as [Hk | [-> _]]; [|by apply Em]. unfold is_digit in Hk. zbool. lia. }
  assert (c = x2d) as -> by (by apply schar_uchar). destruct rest as [|d rest].
  { change (char_at [x2d] 1) with (@Ok Z 0). apply Hno. intros n Hk. by apply Hhead in Hk as [Hk | [_ Hk]]. }
  rewrite (char_at_ok _ 1 d) by done. rsimp.
  destruct ((57 <? schar d) || (schar d <? 48)) eqn:Ed.
  - apply Hno. intros n Hk. apply Hhead in Hk as [Hk | [_ Hk]]; [done|]. unfold is_digit in Hk. zbool.
    apply orb_prop in Ed as [Ed | Ed]; zbool; lia.
  - apply orb_false_elim in Ed as [Ed1 Ed2]. zbool. apply (Hdig true d rest); [done|]. unfold is_digit.
    by rewrite (proj2 (Z.leb_le _ _)), (proj2 (Z.leb_le _ _)) by lia.
Qed.


Lemma canonical_long_chars n key : - 2 ^ 63 <= n < 2 ^ 63 ->
  canonical_long n key <-> zend_long_to_chars n = Ok key.
Proof.
  intros Hn. destruct (long_to_chars_ok n Hn) as (k & E & Hk & _). rewrite E. split.
  - intros H. f_equal. by apply (canonical_long_unique n).
  - by intros [= <-].
Qed.

Lemma s64_u64 n : - 2 ^ 63 <= n < 2 ^ 63 -> s64 (u64 n) = n.
Proof.
  intros Hn. destruct (Z.lt_ge_cases n 0).
  - replace n with (- - n) by lia. rewrite s64_u64_neg; lia.
  - rewrite u64_small, s64_small; lia.
Qed.

(** ** Properties *)

(** C38: A key is taken for an integer exactly when it is the text that
    [zend_long_to_str] writes for some [zend_long], and then it is that
    integer: no leading zeros, no "-0", nothing outside the 64-bit range, for
    any bytes.  The test never reads past the NUL. *)
Theorem numeric_key_iff key : exists r, _zend_handle_numeric_str key = Ok r /\
  forall idx, r = Some idx <-> 0 <= idx < 2 ^ 64 /\ zend_long_to_chars (s64 idx) = Ok key.
Proof.
  destruct (handle_numeric_ok key) as (r & E & Hr). exists r. split; [done|]. intros idx. rewrite Hr.
  by rewrite canonical_long_chars by apply s64_range.
Qed.

(** C39: Writing a [zend_long] never leaves the buffer of 21 bytes, and
    reading the text as a key gives the same integer back. *)
Theorem long_to_str_roundtrip n : - 2 ^ 63 <= n < 2 ^ 63 ->
  exists key, zend_long_to_chars n = Ok key /\ (length key <= 20)%nat /\
    _zend_handle_numeric_str key = Ok (Some (u64 n)).
Proof.
  intros Hn. destruct (long_to_chars_ok n Hn) as (key & E & Hk & Hl). exists key. split; [done|]. split; [done|].
  destruct (handle_numeric_ok key) as (r & -> & Hr). f_equal. apply Hr. split; [apply u64_range|].
  by rewrite s64_u64.
Qed.

Lemma long_to_str_roundtrip_witness : exists key, zend_long_to_chars (- 2 ^ 63) = Ok key /\
  _zend_handle_numeric_str key = Ok (Some (2 ^ 63)).
Proof.
  destruct (long_to_str_roundtrip (- 2 ^ 63) ltac:(lia)) as (key & E & _ & H).
  exists key. split; [exact E | exact H].
Defined.
