(* ===== verification/Symtable.v ===== *)
(** * Symbol tables ([Zend/zend_hash.h]): string keys that are integers

    The [zend_symtable_*] functions use the integer key for a string that is a
    canonical integer ([Numeric]).  The [_ind] lookups follow indirect entries
    and take an empty cell for a missing entry. *)
From Stdlib Require Import Strings.Byte.
From S2P Require Export Numeric HashMerge.

(** ** Lookups through indirect entries *)

(** [(zv && Z_TYPE_P(zv) == IS_INDIRECT) ? (non-empty target or NULL) : zv] *)
Definition indirect_result (ht : HashTable) (eg : EG) (zv : option zval_ptr) : res (option zval_ptr) :=
  match zv with
  | None => Ok None
  | Some p =>
      let! v := read_zval ht eg p in
      match v with
      | IS_INDIRECT a => let! w := get_cell eg a in Ok (if negb (is_undef w) then Some (ZV_CELL a) else None)
      | _ => Ok (Some p)
      end
  end.

(** [zv && (Z_TYPE_P(zv) != IS_INDIRECT || non-empty target)] *)
Definition indirect_exists (ht : HashTable) (eg : EG) (zv : option zval_ptr) : res bool :=
  match zv with
  | None => Ok false
  | Some p =>
      let! v := read_zval ht eg p in
      match v with
      | IS_INDIRECT a => let! w := get_cell eg a in Ok (negb (is_undef w))
      | _ => Ok true
      end
  end.

Definition zend_hash_find_ind (ht : HashTable) (key : zend_string) (eg : EG) : res (option zval_ptr) :=
  let! zv := zend_hash_find ht key in indirect_result ht eg zv.

Definition zend_hash_exists_ind (ht : HashTable) (key : zend_string) (eg : EG) : res bool :=
  let! zv := zend_hash_find ht key in indirect_exists ht eg zv.

Definition zend_hash_str_find_ind (ht : HashTable) (str : list char) (eg : EG) : res (option zval_ptr) :=
  let! zv := zend_hash_str_find ht str in indirect_result ht eg zv.

Definition zend_hash_str_exists_ind (ht : HashTable) (str : list char) (eg : EG) : res bool :=
  let! zv := zend_hash_str_find ht str in indirect_exists ht eg zv.

(** ** The operations

    [if (ZEND_HANDLE_NUMERIC(key, idx)) num(idx) else str] *)
Definition by_key {A} (str : list char) (num : Z -> res A) (other : res A) : res A :=
  let! idx := _zend_handle_numeric_str str in
  match idx with Some idx => num idx | None => other end.

Definition zend_symtable_add_new (ht : HashTable) (key : zend_string) (pData : zval) (eg : EG) :=
  by_key (zs_val key) (fun idx => _zend_hash_index_add_new ht idx pData eg) (_zend_hash_add_new ht key pData eg).

Definition zend_symtable_update (ht : HashTable) (key : zend_string) (pData : zval) (eg : EG) :=
  by_key (zs_val key) (fun idx => _zend_hash_index_update ht idx pData eg) (_zend_hash_update ht key pData eg).

Definition zend_symtable_update_ind (ht : HashTable) (key : zend_string) (pData : zval) (eg : EG) :=
  by_key (zs_val key) (fun idx => _zend_hash_index_update ht idx pData eg) (_zend_hash_update_ind ht key pData eg).

Definition zend_symtable_del (ht : HashTable) (key : zend_string) (eg : EG) :=
  by_key (zs_val key) (fun idx => zend_hash_index_del ht idx eg) (zend_hash_del ht key eg).

Definition zend_symtable_del_ind (ht : HashTable) (key : zend_string) (eg : EG) :=
  by_key (zs_val key) (fun idx => zend_hash_index_del ht idx eg) (zend_hash_del_ind ht key eg).

Definition zend_symtable_find (ht : HashTable) (key : zend_string) :=
  by_key (zs_val key) (fun idx => zend_hash_index_find ht idx) (zend_hash_find ht key).

Definition zend_symtable_find_ind (ht : HashTable) (key : zend_string) (eg : EG) :=
  by_key (zs_val key) (fun idx => zend_hash_index_find ht idx) (zend_hash_find_ind ht key eg).

Definition zend_symtable_exists (ht : HashTable) (key : zend_string) :=
  by_key (zs_val key) (fun idx => zend_hash_index_exists ht idx) (zend_hash_exists ht key).

Definition zend_symtable_exists_ind (ht : HashTable) (key : zend_string) (eg : EG) :=
  by_key (zs_val key) (fun idx => zend_hash_index_exists ht idx) (zend_hash_exists_ind ht key eg).

Definition zend_symtable_str_update (ht : HashTable) (str : list char) (pData : zval) (eg : EG) :=
  by_key str (fun idx => _zend_hash_index_update ht idx pData eg) (_zend_hash_str_update ht str pData eg).

Definition zend_symtable_str_update_ind (ht : HashTable) (str : list char) (pData : zval) (eg : EG) :=
  by_key str (fun idx => _zend_hash_index_update ht idx pData eg) (_zend_hash_str_update_ind ht str pData eg).

Definition zend_symtable_str_del (ht : HashTable) (str : list char) (eg : EG) :=
  by_key str (fun idx => zend_hash_index_del ht idx eg) (zend_hash_str_del ht str eg).

Definition zend_symtable_str_del_ind (ht : HashTable) (str : list char) (eg : EG) :=
  by_key str (fun idx => zend_hash_index_del ht idx eg) (zend_hash_str_del_ind ht str eg).

Definition zend_symtable_str_find (ht : HashTable) (str : list char) :=
  by_key str (fun idx => zend_hash_index_find ht idx) (zend_hash_str_find ht str).

Definition zend_symtable_str_exists (ht : HashTable) (str : list char) :=
  by_key str (fun idx => zend_hash_index_exists ht idx) (zend_hash_str_exists ht str).

(** ** Keys *)

(** The key that a string stands for. *)
Definition sym_key (str : list char) : hkey :=
  match _zend_handle_numeric_str str with
  | Ok (Some idx) => KInt idx
  | _ => KStr str
  end.

Lemma by_key_ok {A} str (num : Z -> res A) other (Q : hkey -> res A -> Prop) :
  (forall idx, 0 <= idx < 2 ^ 64 -> sym_key str = KInt idx -> Q (KInt idx) (num idx)) ->
  (sym_key str = KStr str -> Q (KStr str) other) -> Q (sym_key str) (by_key str num other).
Proof.
  unfold by_key, sym_key. destruct (handle_numeric_ok str) as (r & -> & Hr). rsimp. intros Hn Ho.
  destruct r as [idx|]; [|by apply Ho]. destruct (proj1 (Hr idx) eq_refl) as [Hi _]. by apply Hn.
Qed.

(** The entry of a key, through an indirect one. *)
Definition ind_entry (eg : EG) (v : option zval) : option zval :=
  match v with
  | Some (IS_INDIRECT a) => if is_undef (default IS_UNDEF (cells eg !! a)) then None else cells eg !! a
  | _ => v
  end.

Section Lookup.
Context (ht : HashTable) (eg : EG) (Hwf : ht_wf ht).

(** A pointer to the bucket of a key, or none. *)
Lemma zend_hash_find_ok key : zend_string_ok key -> exists r,
  zend_hash_find ht key = Ok (ZV_BUCKET <$> (Z.of_nat <$> r)) /\ key_pos ht (KStr (zs_val key)) r.
Proof.
  intros Hk. destruct (find_bucket_ok ht key Hwf Hk) as (r & E & Hr). exists r. split; [|done].
  unfold zend_hash_find. by rewrite E.
Qed.

Lemma zend_hash_str_find_ok str : exists r,
  zend_hash_str_find ht str = Ok (ZV_BUCKET <$> (Z.of_nat <$> r)) /\ key_pos ht (KStr str) r.
Proof.
  destruct (str_find_bucket_ok ht str Hwf) as (r & E & Hr). exists r. split; [|done].
  unfold zend_hash_str_find. by rewrite E.
Qed.

Definition finds (k : hkey) (m : res (option zval_ptr)) : Prop :=
  exists r, m = Ok r /\ deref ht eg r = al_find k (elems ht).
Definition finds_ind (k : hkey) (m : res (option zval_ptr)) : Prop :=
  exists r, m = Ok r /\ deref ht eg r = ind_entry eg (al_find k (elems ht)).

Lemma finds_pos k m r : m = Ok (ZV_BUCKET <$> (Z.of_nat <$> r)) -> key_pos ht k r -> finds k m.
Proof. intros -> Hr. eexists. split; [done|]. by apply key_pos_find; [apply Hwf|]. Qed.

Context (Hc : cells_ok ht eg).

Lemma indirect_ok k r : key_pos ht k r ->
  finds_ind k (indirect_result ht eg (ZV_BUCKET <$> (Z.of_nat <$> r))) /\
  indirect_exists ht eg (ZV_BUCKET <$> (Z.of_nat <$> r)) = Ok (isSome (ind_entry eg (al_find k (elems ht)))).
Proof.
  intros Hr. pose proof (key_pos_find ht k r eg (wf_data _ Hwf) Hr) as E. unfold finds_ind. rewrite <- E.
  destruct r as [i|]; simpl; [|split; [by exists None | done]].
  destruct Hr as (b & Hi & [Hb Hu] & Hk). unfold get_bucket. rewrite (aget_ok _ _ _ Hb), Nat2Z.id, Hb. simpl.
  destruct (b_val b) as [| | | | | | | | | | |a|] eqn:Ev; try done;
    try (split; [eexists; split; [done|]; simpl; by rewrite Nat2Z.id, Hb, <- Ev | done]).
  assert (Hin : (k, IS_INDIRECT a) ∈ elems ht).
  { apply elems_of_in. exists i, b. split; [done|]. split; [split; [done | by rewrite Ev]|]. by split. }
  destruct (Hc k a Hin) as [w Ew]. simpl. unfold get_cell. rewrite Ew. simpl. split.
  - eexists. split; [done|]. by destruct (is_undef w).
  - by destruct (is_undef w).
Qed.
End Lookup.

(** The symbol-table lookups are the lookups of the entry of
    [sym_key]; the [_ind] ones see through indirect entries under string keys. *)
Theorem symtable_find_correct ht key eg : ht_wf ht -> zend_string_ok key -> cells_ok ht eg ->
  let k := sym_key (zs_val key) in
  let v := al_find k (elems ht) in
  let ind := match k with KInt _ => v | KStr _ => ind_entry eg v end in
  finds ht eg k (zend_symtable_find ht key) /\ finds ht eg k (zend_symtable_str_find ht (zs_val key)) /\
  zend_symtable_exists ht key = Ok (isSome v) /\ zend_symtable_str_exists ht (zs_val key) = Ok (isSome v) /\
  (exists r, zend_symtable_find_ind ht key eg = Ok r /\ deref ht eg r = ind) /\
  zend_symtable_exists_ind ht key eg = Ok (isSome ind).
Proof.
  intros Hwf Hk Hc k v ind. subst ind v k.
  destruct (zend_hash_find_ok ht Hwf key Hk) as (r1 & E1 & Hr1).
  destruct (zend_hash_str_find_ok ht Hwf (zs_val key)) as (r2 & E2 & Hr2).
  destruct (indirect_ok ht eg Hwf Hc _ _ Hr1) as [Hi1 Hi2].
  split; [|split; [|split; [|split; [|split]]]].
  - apply (by_key_ok (zs_val key) _ _ (finds ht eg)); [|intros _; by apply (finds_pos ht eg Hwf _ _ r1)].
    intros idx Hi _. destruct (index_find_ok ht idx Hwf ltac:(lia)) as (r & E & Hr). by apply (finds_pos ht eg Hwf _ _ r).
  - apply (by_key_ok (zs_val key) _ _ (finds ht eg)); [|intros _; by apply (finds_pos ht eg Hwf _ _ r2)].
    intros idx Hi _. destruct (index_find_ok ht idx Hwf ltac:(lia)) as (r & E & Hr). by apply (finds_pos ht eg Hwf _ _ r).
  - apply (by_key_ok (zs_val key) _ _ (fun k m => m = Ok (isSome (al_find k (elems ht))))).
    + intros idx Hi _. apply index_exists_ok; [done | lia].
    + intros _. unfold zend_hash_exists, zend_hash_find in *. destruct (zend_hash_find_bucket ht key); [|done].
      simpl in *. injection E1 as E1. rewrite (elems_key_pos ht _ r1 Hwf Hr1).
      by destruct a, r1.
  - apply (by_key_ok (zs_val key) _ _ (fun k m => m = Ok (isSome (al_find k (elems ht))))).
    + intros idx Hi _. apply index_exists_ok; [done | lia].
    + intros _. unfold zend_hash_str_exists, zend_hash_str_find in *. destruct (zend_hash_str_find_bucket _ _ _); [|done].
      simpl in *. injection E2 as E2. rewrite (elems_key_pos ht _ r2 Hwf Hr2).
      by destruct a, r2.
  - apply (by_key_ok (zs_val key) _ _ (fun k m => exists r, m = Ok r /\
      deref ht eg r = match k with KInt _ => al_find k (elems ht) | KStr _ => ind_entry eg (al_find k (elems ht)) end)).
    + intros idx Hi _. destruct (index_find_ok ht idx Hwf ltac:(lia)) as (r & E & Hr).
      by apply (finds_pos ht eg Hwf _ _ r).
    + intros _. unfold zend_hash_find_ind. rewrite E1. exact Hi1.
  - apply (by_key_ok (zs_val key) _ _ (fun k m => m = Ok (isSome
      match k with KInt _ => al_find k (elems ht) | KStr _ => ind_entry eg (al_find k (elems ht)) end))).
    + intros idx Hi _. apply index_exists_ok; [done | lia].
    + intros _. unfold zend_hash_exists_ind. rewrite E1. exact Hi2.
Qed.

(** ** Writes *)

(** The outcome of a write with [flag] at [k], whatever the events. *)
Definition put_outcome (ht : HashTable) (eg : EG) (flag : Z) (k : hkey) (v : zval)
    (m : res (HashTable * EG * option zval_ptr)) : Prop :=
  (nTableSize ht = HT_MAX_SIZE /\ al_find k (elems ht) = None /\ m = Err Fatal) \/
  exists ht' eg' r, m = Ok (ht', eg', r) /\ ht_wf ht' /\ same_table ht ht' /\
    (elems ht', cells eg', isSome r) = spec_put flag k v (elems ht) (cells eg) /\
    (isSome r = true -> deref ht' eg' r = Some v).

Lemma put_correct_outcome ht eg flag k v evs m : put_correct ht eg flag k v evs m -> put_outcome ht eg flag k v m.
Proof.
  intros [[[? _] [? ?]]|(ht' & eg' & r & -> & H)]; [by left|right]. exists ht', eg', r. split; [done|].
  destruct (spec_put flag k v (elems ht) (cells eg)) as [[l' c'] wrote]. destruct H as ([] & _ & Hw).
  split; [done|]. split; [done|]. rewrite pr_elems, (es_cells _ _ _ _ pr_step).
  destruct wrote.
  - destruct r as [p|]; [done|]. done.
  - destruct (Hw eq_refl) as (_ & _ & ->). done.
Qed.

Lemma index_put_outcome ht eg flag h v m : has_flag flag HASH_UPDATE_INDIRECT = false ->
  index_put_correct ht eg flag h v m -> put_outcome ht eg flag (KInt h) v m.
Proof.
  intros Hf [[? [? ?]]|(ht' & eg' & r & -> & H)]; [by left|right]. exists ht', eg', r. split; [done|].
  rewrite (proj1 (spec_index_as_put flag h v (elems ht) (cells eg) Hf)).
  destruct (spec_index_put flag h v (elems ht)) as [l' wrote]. destruct H as ([] & _ & _ & Hw). simpl.
  split; [done|]. split; [done|]. rewrite pr_elems, (es_cells _ _ _ _ pr_step).
  destruct wrote.
  - destruct r as [p|]; [done|]. done.
  - destruct (Hw eq_refl) as (_ & _ & ->). done.
Qed.

(** The variants that allocate the key and drop it again. *)
Lemma with_new_key_ok ht str v flag drop eg : ht_wf ht -> is_undef v = false -> cells_ok ht eg ->
  (has_flag flag HASH_ADD_NEW = true -> al_find (KStr str) (elems ht) = None) ->
  (forall s eg, cells (drop s eg) = cells eg) ->
  put_outcome ht eg flag (KStr str) v (with_new_key ht str v flag drop eg).
Proof.
  intros Hwf Hv Hc Hn Hd. unfold with_new_key, zend_string_init. set (key := mk_zend_string _ _ _ _).
  set (eg1 := mkEG _ _ _ _ _ _ _).
  assert (Hk : zend_string_ok key) by (by left).
  pose proof (add_or_update_ok ht key v flag eg1 Hwf Hk Hv Hc Hn) as H.
  apply put_correct_outcome in H as [(? & ? & ->)|(ht' & eg' & r & -> & W & S & E & Hr)]; [by left|right].
  rsimp. exists ht', (drop key eg'), r. split; [done|]. split; [done|]. split; [done|].
  rewrite Hd. split; [exact E|]. intros Hs. specialize (Hr Hs). destruct r as [[i|a]|]; simpl in *; [done | | done].
  by rewrite Hd.
Qed.

Lemma release_cells s eg : cells (zend_string_release s eg) = cells eg.
Proof. unfold zend_string_release. by destruct (zs_interned s). Qed.

Lemma delref_cells s eg : cells (zend_string_delref s eg) = cells eg.
Proof. unfold zend_string_delref. by destruct (zs_interned s). Qed.

#[export] Hint Resolve release_cells delref_cells : php.

(** The writes that take the bytes of a key ([_zend_hash_str_*])
    write as the ones that take a string; [_zend_hash_str_add_new] needs a new
    key, as the caller promises. *)
Theorem str_put_correct ht str v flag eg : ht_wf ht -> is_undef v = false -> cells_ok ht eg ->
  has_flag flag HASH_ADD_NEW = false ->
  put_outcome ht eg flag (KStr str) v (_zend_hash_str_add_or_update ht str v flag eg) /\
  put_outcome ht eg HASH_UPDATE (KStr str) v (_zend_hash_str_update ht str v eg) /\
  put_outcome ht eg (Z.lor HASH_UPDATE HASH_UPDATE_INDIRECT) (KStr str) v (_zend_hash_str_update_ind ht str v eg) /\
  put_outcome ht eg HASH_ADD (KStr str) v (_zend_hash_str_add ht str v eg) /\
  put_outcome ht eg HASH_ADD (KStr str) IS_NULL (zend_hash_str_add_empty_element ht str eg) /\
  (al_find (KStr str) (elems ht) = None ->
   put_outcome ht eg HASH_ADD_NEW (KStr str) v (_zend_hash_str_add_new ht str v eg)).
Proof.
  intros Hwf Hv Hc Hf. repeat split; try (intros Hnew); apply with_new_key_ok; try done; auto with php.
  by rewrite Hf.
Qed.

Lemma str_put_correct_witness :
  put_outcome sample_hash sample_eg HASH_ADD (KStr ["z"%byte]) IS_TRUE
    (_zend_hash_str_add_new sample_hash ["z"%byte] IS_TRUE sample_eg) \/
  put_outcome sample_hash sample_eg HASH_UPDATE (KStr ["z"%byte]) IS_TRUE
    (_zend_hash_str_update sample_hash ["z"%byte] IS_TRUE sample_eg).
Proof.
  right. destruct (str_put_correct sample_hash ["z"%byte] IS_TRUE HASH_UPDATE sample_eg sample_hash_wf) as (_ & H & _).
  - reflexivity.
  - apply cells_okb_sound. vm_compute. reflexivity.
  - reflexivity.
  - exact H.
Defined.

(** C40: The symbol-table writes write at [sym_key]; an [_ind] update
    goes through an indirect entry under a string key only. *)
Theorem symtable_put_correct ht key v eg :
  ht_wf ht -> zend_string_ok key -> is_undef v = false -> cells_ok ht eg ->
  let k := sym_key (zs_val key) in
  let ind := match k with KInt _ => HASH_UPDATE | KStr _ => Z.lor HASH_UPDATE HASH_UPDATE_INDIRECT end in
  put_outcome ht eg HASH_UPDATE k v (zend_symtable_update ht key v eg) /\
  put_outcome ht eg HASH_UPDATE k v (zend_symtable_str_update ht (zs_val key) v eg) /\
  put_outcome ht eg ind k v (zend_symtable_update_ind ht key v eg) /\
  put_outcome ht eg ind k v (zend_symtable_str_update_ind ht (zs_val key) v eg) /\
  (al_find k (elems ht) = None ->
   put_outcome ht eg (match k with KInt _ => Z.lor HASH_ADD HASH_ADD_NEW | KStr _ => HASH_ADD_NEW end) k v
     (zend_symtable_add_new ht key v eg)).
Proof.
  intros Hwf Hk Hv Hc k ind. subst ind k.
  set (spec := fun flag_of k (m : res (HashTable * EG * option zval_ptr)) => put_outcome ht eg (flag_of k) k v m).
  split; [|split; [|split; [|split]]].
  - apply (by_key_ok _ _ _ (spec (fun _ => HASH_UPDATE))).
    + intros idx Hi _. apply index_put_outcome; [done|]. by apply index_add_or_update_ok.
    + intros _. eapply put_correct_outcome, add_or_update_ok; done.
  - apply (by_key_ok _ _ _ (spec (fun _ => HASH_UPDATE))).
    + intros idx Hi _. apply index_put_outcome; [done|]. by apply index_add_or_update_ok.
    + intros _. apply with_new_key_ok; try done; auto with php.
  - apply (by_key_ok _ _ _ (spec (fun k => match k with KInt _ => HASH_UPDATE | KStr _ => Z.lor HASH_UPDATE HASH_UPDATE_INDIRECT end))).
    + intros idx Hi _. apply index_put_outcome; [done|]. by apply index_add_or_update_ok.
    + intros _. eapply put_correct_outcome, add_or_update_ok; done.
  - apply (by_key_ok _ _ _ (spec (fun k => match k with KInt _ => HASH_UPDATE | KStr _ => Z.lor HASH_UPDATE HASH_UPDATE_INDIRECT end))).
    + intros idx Hi _. apply index_put_outcome; [done|]. by apply index_add_or_update_ok.
    + intros _. apply with_new_key_ok; try done; auto with php.
  - intros Hnew.
    apply (by_key_ok _ _ _ (spec (fun k => match k with KInt _ => Z.lor HASH_ADD HASH_ADD_NEW | KStr _ => HASH_ADD_NEW end))).
    + intros idx Hi Hs. apply index_put_outcome; [done|]. rewrite Hs in Hnew. by apply index_add_or_update_ok.
    + intros Hs. rewrite Hs in Hnew. eapply put_correct_outcome, add_or_update_ok; done.
Qed.

(** The symbol-table deletions delete at [sym_key]. *)
Theorem symtable_del_correct ht key eg : ht_wf ht -> zend_string_ok key -> cells_ok ht eg ->
  let k := sym_key (zs_val key) in
  let del_ind := match k with KInt _ => del_correct ht eg k | KStr _ => del_ind_correct ht eg k end in
  del_correct ht eg k (zend_symtable_del ht key eg) /\
  del_correct ht eg k (zend_symtable_str_del ht (zs_val key) eg) /\
  del_ind (zend_symtable_del_ind ht key eg) /\ del_ind (zend_symtable_str_del_ind ht (zs_val key) eg).
Proof.
  intros Hwf Hk Hc k del_ind. subst del_ind k.
  set (ind := fun k m => match k with KInt _ => del_correct ht eg k m | KStr _ => del_ind_correct ht eg k m end).
  assert (Hint : forall idx, 0 <= idx < 2 ^ 64 -> del_correct ht eg (KInt idx) (zend_hash_index_del ht idx eg)).
  { intros idx Hi. apply zend_hash_index_del_ok; [done | lia]. }
  split; [|split; [|split]].
  - apply (by_key_ok _ _ _ (del_correct ht eg)); intros; auto using zend_hash_del_ok.
  - apply (by_key_ok _ _ _ (del_correct ht eg)); intros; auto using zend_hash_str_del_ok.
  - pose proof (by_key_ok (zs_val key) (fun idx => zend_hash_index_del ht idx eg) (zend_hash_del_ind ht key eg) ind) as H.
    destruct (sym_key (zs_val key)); (apply H; intros; [by apply Hint|by apply zend_hash_del_ind_ok]).
  - pose proof (by_key_ok (zs_val key) (fun idx => zend_hash_index_del ht idx eg)
      (zend_hash_str_del_ind ht (zs_val key) eg) ind) as H.
    destruct (sym_key (zs_val key)); (apply H; intros; [by apply Hint|by apply zend_hash_str_del_ind_ok]).
Qed.

(** The sample table read and written through numeric and other keys. *)
Lemma symtable_find_correct_witness :
  exists r, zend_symtable_find_ind sample_hash (sample_key ["a"%byte]) sample_eg = Ok r /\
    deref sample_hash sample_eg r = ind_entry sample_eg (al_find (KStr ["a"%byte]) (elems sample_hash)).
Proof.
  destruct (symtable_find_correct sample_hash (sample_key ["a"%byte]) sample_eg sample_hash_wf) as (_ & _ & _ & _ & H & _).
  - right. reflexivity.
  - apply cells_okb_sound. vm_compute. reflexivity.
  - exact H.
Defined.

Lemma symtable_put_correct_witness :
  put_outcome sample_hash sample_eg HASH_UPDATE (KInt 12) IS_TRUE
    (zend_symtable_update sample_hash (sample_key ["1"%byte; "2"%byte]) IS_TRUE sample_eg).
Proof.
  destruct (symtable_put_correct sample_hash (sample_key ["1"%byte; "2"%byte]) IS_TRUE sample_eg sample_hash_wf) as [H _].
  - right. reflexivity.
  - reflexivity.
  - apply cells_okb_sound. vm_compute. reflexivity.
  - exact H.
Defined.

Lemma symtable_del_correct_witness :
  del_correct sample_hash sample_eg (KInt 12) (zend_symtable_del sample_hash (sample_key ["1"%byte; "2"%byte]) sample_eg).
Proof.
  destruct (symtable_del_correct sample_hash (sample_key ["1"%byte; "2"%byte]) sample_eg sample_hash_wf) as [H _].
  - right. reflexivity.
  - apply cells_okb_sound. vm_compute. reflexivity.
  - exact H.
Defined.
