(* ===== verification/MemStr.v ===== *)
(** * Substring search: [zend_memnstr], [zend_memnrstr] and what they call
    ([Zend/zend_operators.h], [Zend/zend_operators.c])

    The text [[haystack, end)] is a list of bytes and a pointer into it is an
    offset from [haystack], which may lie outside of the text as long as it is
    not read.  Short texts are searched with [memchr], long ones with a table
    of shifts (Sunday's algorithm). *)
From Stdlib Require Import Strings.Byte.
From S2P Require Export Prelude ZendString.

(** ** What the C library does *)

(** [memchr (p, c, n)] *)
Fixpoint memchr_from (hay : list char) (c : char) (p : Z) (n : nat) {struct n} : res (option Z) :=
  match n with
  | O => Ok None
  | S n =>
      let! d := aget hay p in
      if bool_decide (d = c) then Ok (Some p) else memchr_from hay c (p + 1) n
  end.

Definition memchr (hay : list char) (c : char) (p n : Z) : res (option Z) :=
  memchr_from hay c p (Z.to_nat n).

(** [memcmp (needle, p, n) == 0] *)
Fixpoint memcmp_eq (hay needle : list char) (p : Z) (n : nat) {struct n} : res bool :=
  match n, needle with
  | O, _ => Ok true
  | S _, [] => Err OutOfBounds
  | S n, c :: needle =>
      let! d := aget hay p in
      if bool_decide (d = c) then memcmp_eq hay needle (p + 1) n else Ok false
  end.

(** ** [zend_memrchr] *)

(** The loop over [e], from [s + n - 1] down to [s]. *)
Fixpoint memrchr_loop (s : list char) (c : char) (n : nat) {struct n} : res (option Z) :=
  match n with
  | O => Ok None
  | S n =>
      let e := Z.of_nat n in
      let! d := aget s e in
      if bool_decide (d = c) then Ok (Some e) else memrchr_loop s c n
  end.

Definition zend_memrchr (s : list char) (c : char) (n : Z) : res (option Z) :=
  if n <=? 0 then Ok None else memrchr_loop s c (Z.to_nat n).

(** ** The table of shifts *)

(** [for (i = 0; i < needle_len; i++) td[needle[i]] = (int)needle_len - i] *)
Fixpoint td_forward (td : list Z) (needle : list char) (needle_len i : Z) {struct needle} : res (list Z) :=
  match needle with
  | [] => Ok td
  | c :: needle =>
      let! td := aset td (uchar c) (u32 (u64 (u64 (s32 needle_len) - i))) in
      td_forward td needle needle_len (i + 1)
  end.

(** [for (i = needle_len - 1; i >= 0; i--) td[needle[i]] = i + 1] with [n = i + 1] *)
Fixpoint td_reverse (td : list Z) (needle : list char) (n : nat) {struct n} : res (list Z) :=
  match n with
  | O => Ok td
  | S i =>
      let! c := aget needle (Z.of_nat i) in
      let! td := aset td (uchar c) (u32 (Z.of_nat i + 1)) in
      td_reverse td needle i
  end.

Definition zend_memnstr_ex_pre (needle : list char) (needle_len : Z) (reverse : bool) : res (list Z) :=
  let td := replicate 256 (u32 (u64 (needle_len + 1))) in
  if reverse then td_reverse td needle (Z.to_nat (s32 (u64 (needle_len - 1)) + 1))
  else td_forward td needle needle_len 0.

(** ** Search with the table *)

(** [for (i = 0; i < needle_len; i++) if (needle[i] != p[i]) break;] returns
    whether [i == needle_len] afterwards. *)
Fixpoint match_at (hay needle : list char) (p : Z) {struct needle} : res bool :=
  match needle with
  | [] => Ok true
  | c :: needle =>
      let! d := aget hay p in
      if bool_decide (c = d) then match_at hay needle (p + 1) else Ok false
  end.

Fixpoint memnstr_ex_loop (fuel : nat) (td : list Z) (hay needle : list char) (needle_len last p : Z)
    {struct fuel} : res (option Z) :=
  match fuel with
  | O => Err OutOfFuel
  | S fuel =>
      if p <=? last then
        let! found := match_at hay needle p in
        if found : bool then Ok (Some p)
        else if p =? last then Ok None
        else
          let! c := aget hay (p + needle_len) in
          let! d := aget td (uchar c) in
          memnstr_ex_loop fuel td hay needle needle_len last (p + d)
      else Ok None
  end.

Definition zend_memnstr_ex (hay needle : list char) (needle_len : Z) : res (option Z) :=
  let end_ := Z.of_nat (length hay) in
  if (needle_len =? 0) || (end_ =? 0) then Ok None
  else
    let! td := zend_memnstr_ex_pre needle needle_len false in
    memnstr_ex_loop (S (length hay)) td hay needle needle_len (end_ - needle_len) 0.

Fixpoint memnrstr_ex_loop (fuel : nat) (td : list Z) (hay needle : list char) (p : Z)
    {struct fuel} : res (option Z) :=
  match fuel with
  | O => Err OutOfFuel
  | S fuel =>
      if 0 <=? p then
        let! found := match_at hay needle p in
        if found : bool then Ok (Some p)
        else if p =? 0 then Ok None
        else
          let! c := aget hay (p - 1) in
          let! d := aget td (uchar c) in
          memnrstr_ex_loop fuel td hay needle (p - d)
      else Ok None
  end.

Definition zend_memnrstr_ex (hay needle : list char) (needle_len : Z) : res (option Z) :=
  let end_ := Z.of_nat (length hay) in
  if (needle_len =? 0) || (end_ =? 0) then Ok None
  else
    let! td := zend_memnstr_ex_pre needle needle_len true in
    memnrstr_ex_loop (S (length hay)) td hay needle (end_ - needle_len).

(** ** Search with [memchr] *)
Fixpoint memnstr_loop (fuel : nat) (hay needle : list char) (needle_len : Z) (c0 ne : char) (last p : Z)
    {struct fuel} : res (option Z) :=
  match fuel with
  | O => Err OutOfFuel
  | S fuel =>
      if p <=? last then
        let! o := memchr hay c0 p (last - p + 1) in
        match o with
        | None => Ok None
        | Some p =>
            let! d := aget hay (p + needle_len - 1) in
            let! found := if bool_decide (ne = d)
                          then memcmp_eq hay needle p (Z.to_nat (needle_len - 1)) else Ok false in
            if found : bool then Ok (Some p)
            else memnstr_loop fuel hay needle needle_len c0 ne last (p + 1)
        end
      else Ok None
  end.

Definition zend_memnstr (hay needle : list char) : res (option Z) :=
  let needle_len := Z.of_nat (length needle) in
  let off_p := Z.of_nat (length hay) in
  let! ne := aget needle (needle_len - 1) in
  let! c0 := aget needle 0 in
  if needle_len =? 1 then memchr hay c0 0 off_p
  else if off_p <? needle_len then Ok None
  else if (off_p <? 1024) || (needle_len <? 9) then
    memnstr_loop (S (length hay)) hay needle needle_len c0 ne (off_p - needle_len) 0
  else zend_memnstr_ex hay needle needle_len.

(** [do .. while (p-- >= haystack)]; the null pointer that [zend_memrchr]
    returns is below [haystack]. *)
Fixpoint memnrstr_loop (fuel : nat) (hay needle : list char) (needle_len : Z) (c0 ne : char) (p : Z)
    {struct fuel} : res (option Z) :=
  match fuel with
  | O => Err OutOfFuel
  | S fuel =>
      let! o := zend_memrchr hay c0 (u64 (p + 1)) in
      match o with
      | None => Ok None
      | Some p =>
          let! d := aget hay (p + needle_len - 1) in
          let! found := if bool_decide (ne = d)
                        then memcmp_eq hay needle p (Z.to_nat (needle_len - 1)) else Ok false in
          if found : bool then Ok (Some p)
          else if 0 <=? p then memnrstr_loop fuel hay needle needle_len c0 ne (p - 1)
          else Ok None
      end
  end.

Definition zend_memnrstr (hay needle : list char) : res (option Z) :=
  let needle_len := Z.of_nat (length needle) in
  let off_p := Z.of_nat (length hay) in
  let! ne := aget needle (needle_len - 1) in
  let! c0 := aget needle 0 in
  if needle_len =? 1 then zend_memrchr hay c0 off_p
  else if off_p <? needle_len then Ok None
  else if (off_p <? 1024) || (needle_len <? 3) then
    memnrstr_loop (S (length hay)) hay needle needle_len c0 ne (off_p - needle_len)
  else zend_memnrstr_ex hay needle needle_len.

(** ** Occurrences *)
Definition occurs (hay needle : list char) (p : Z) : Prop :=
  0 <= p /\ needle `prefix_of` drop (Z.to_nat p) hay.

(** [o] is the first (the last) place where [needle] occurs, if there is one. *)
Definition first_occurrence (hay needle : list char) (o : option Z) : Prop :=
  match o with
  | Some p => occurs hay needle p /\ forall q, q < p -> ~ occurs hay needle q
  | None => forall q, ~ occurs hay needle q
  end.

Definition last_occurrence (hay needle : list char) (o : option Z) : Prop :=
  match o with
  | Some p => occurs hay needle p /\ forall q, p < q -> ~ occurs hay needle q
  | None => forall q, ~ occurs hay needle q
  end.

#[export] Instance occurs_dec hay needle p : Decision (occurs hay needle p).
Proof. unfold occurs. apply _. Defined.

Lemma occurs_lookup hay needle p :
  occurs hay needle p <->
  0 <= p /\ forall i c, needle !! i = Some c -> hay !! (Z.to_nat p + i)%nat = Some c.
Proof.
  unfold occurs. split; intros [Hp H]; (split; [done|]).
  - intros i c Hi. rewrite <- lookup_drop. by eapply prefix_lookup_Some.
  - revert needle H. generalize (drop (Z.to_nat p) hay), (lookup_drop hay (Z.to_nat p)).
    intros l Hl needle H. assert (Hc : forall i c, needle !! i = Some c -> l !! i = Some c).
    { intros i c Hi. rewrite Hl. by apply H. }
    clear H Hl. revert l Hc. induction needle as [|c needle IH]; intros l Hc; [apply prefix_nil|].
    pose proof (Hc 0%nat c eq_refl) as H0. destruct l as [|d l]; [done|]. injection H0 as ->.
    apply prefix_cons, IH. intros i e Hi. apply (Hc (S i) e Hi).
Qed.

Lemma occurs_range hay needle p : occurs hay needle p -> needle <> [] ->
  0 <= p <= Z.of_nat (length hay) - Z.of_nat (length needle).
Proof.
  intros [Hp H] Hn. apply prefix_length in H. rewrite length_drop in H.
  destruct needle; [done|]. simpl in *. lia.
Qed.

Lemma occurs_char hay needle p i c : occurs hay needle p -> needle !! i = Some c ->
  hay !! Z.to_nat (p + Z.of_nat i) = Some c.
Proof.
  intros [Hp H]%occurs_lookup Hi. rewrite <- (H i c Hi). f_equal. lia.
Qed.

Lemma occurs_cons hay c needle p : 0 <= p ->
  occurs hay (c :: needle) p <-> hay !! Z.to_nat p = Some c /\ occurs hay needle (p + 1).
Proof.
  intros Hp. rewrite !occurs_lookup. split.
  - intros [_ H]. split; [rewrite <- (H 0%nat c eq_refl); f_equal; lia|]. split; [lia|].
    intros i d Hi. rewrite <- (H (S i) d Hi). f_equal. lia.
  - intros [H0 [_ H]]. split; [done|]. intros [|i] d Hi; simpl in Hi.
    + injection Hi as <-. rewrite <- H0. f_equal. lia.
    + rewrite <- (H i d Hi). f_equal. lia.
Qed.

Lemma occurs_nil hay p : 0 <= p -> occurs hay [] p.
Proof. split; [done | apply prefix_nil]. Qed.

Lemma aget_range {A} (l : list A) i : 0 <= i < Z.of_nat (length l) ->
  exists x, aget l i = Ok x /\ l !! Z.to_nat i = Some x.
Proof.
  intros Hi. destruct (lookup_lt_is_Some_2 l (Z.to_nat i)) as [x Hx]; [lia|].
  exists x. split; [|done]. apply aget_okZ; [lia|done].
Qed.

(** Both ways to compare decide [occurs]. *)
Lemma match_at_spec hay needle p : 0 <= p -> p + Z.of_nat (length needle) <= Z.of_nat (length hay) ->
  match_at hay needle p = Ok (bool_decide (occurs hay needle p)).
Proof.
  revert p. induction needle as [|c needle IH]; intros p Hp Hl; simpl.
  - by rewrite (bool_decide_eq_true_2 _ (occurs_nil hay p Hp)).
  - simpl in Hl. destruct (aget_range hay p) as (d & -> & Hd); [lia|]. rsimp.
    rewrite IH by lia. rewrite (bool_decide_ext _ _ (occurs_cons hay c needle p Hp)), Hd.
    destruct (bool_decide_reflect (c = d)) as [->|Hn]; f_equal.
    + apply bool_decide_ext. naive_solver.
    + symmetry. apply bool_decide_eq_false. naive_solver.
Qed.

Lemma memcmp_eq_spec hay needle p n : 0 <= p -> (n <= length needle)%nat ->
  p + Z.of_nat n <= Z.of_nat (length hay) ->
  memcmp_eq hay needle p n = Ok (bool_decide (occurs hay (take n needle) p)).
Proof.
  revert p n. induction needle as [|c needle IH]; intros p [|n] Hp Hn Hl; simpl in *; try lia;
    try by rewrite (bool_decide_eq_true_2 _ (occurs_nil hay p Hp)).
  destruct (aget_range hay p) as (d & -> & Hd); [lia|]. rsimp.
  rewrite IH by lia. rewrite (bool_decide_ext _ _ (occurs_cons hay c _ p Hp)), Hd.
  destruct (bool_decide_reflect (d = c)) as [->|Hc]; f_equal.
  + apply bool_decide_ext. naive_solver.
  + symmetry. apply bool_decide_eq_false. naive_solver.
Qed.

Lemma occurs_snoc hay needle c p : 0 <= p ->
  occurs hay (needle ++ [c]) p <->
  occurs hay needle p /\ hay !! Z.to_nat (p + Z.of_nat (length needle)) = Some c.
Proof.
  revert p. induction needle as [|d needle IH]; intros p Hp; simpl.
  - rewrite occurs_cons by done. rewrite Z.add_0_r. split; intros [H ?].
    + split; [by apply occurs_nil | done].
    + split; [done | apply occurs_nil; lia].
  - rewrite !occurs_cons, IH by lia.
    replace (p + 1 + Z.of_nat (length needle)) with (p + Z.of_nat (S (length needle))) by lia. tauto.
Qed.

(** Comparing the last byte first and then the others is comparing them all. *)
Lemma last_then_rest hay needle ne p : aget needle (Z.of_nat (length needle) - 1) = Ok ne ->
  0 <= p -> p + Z.of_nat (length needle) <= Z.of_nat (length hay) -> 
  (let! d := aget hay (p + Z.of_nat (length needle) - 1) in
   if bool_decide (ne = d) then memcmp_eq hay needle p (Z.to_nat (Z.of_nat (length needle) - 1)) else Ok false)
  = Ok (bool_decide (occurs hay needle p)).
Proof.
  intros Hne Hp Hl. apply aget_inv in Hne as (n & Hn & Hne).
  assert (n = pred (length needle)) as -> by lia.
  destruct (exists_last (l := needle)) as (l & c & ->). { by intros ->. }
  rewrite length_app in *. simpl in *.
  replace (pred (length l + 1)) with (length l) in Hne by lia.
  rewrite lookup_app_r, Nat.sub_diag in Hne by lia. injection Hne as <-.
  destruct (aget_range hay (p + Z.of_nat (length l + 1) - 1)) as (d & -> & Hd); [lia|]. rsimp.
  rewrite memcmp_eq_spec by (rewrite ?length_app; simpl; lia).
  rewrite take_app_le, take_ge by lia.
  rewrite (bool_decide_ext _ _ (occurs_snoc hay l c p Hp)).
  replace (p + Z.of_nat (length l)) with (p + Z.of_nat (length l + 1) - 1) by lia. rewrite Hd.
  destruct (bool_decide_reflect (c = d)) as [->|Hc]; f_equal.
  - apply bool_decide_ext. naive_solver.
  - symmetry. apply bool_decide_eq_false. naive_solver.
Qed.

(** ** The loops *)
Lemma memchr_spec hay c p n : 0 <= p -> p + Z.of_nat n <= Z.of_nat (length hay) ->
  exists o, memchr_from hay c p n = Ok o /\
  match o with
  | Some q => p <= q < p + Z.of_nat n /\ hay !! Z.to_nat q = Some c /\
              forall r, p <= r < q -> hay !! Z.to_nat r <> Some c
  | None => forall r, p <= r < p + Z.of_nat n -> hay !! Z.to_nat r <> Some c
  end.
Proof.
  revert p. induction n as [|n IH]; intros p Hp Hn; simpl; [by exists None; split; [|lia]|].
  destruct (aget_range hay p) as (d & -> & Hd); [lia|]. rsimp. case_bool_decide as Hc.
  - subst d. exists (Some p). repeat split; [lia|lia|done|]. intros r ?. lia.
  - destruct (IH (p + 1)) as (o & -> & Ho); [lia|lia|]. exists o. split; [done|].
    assert (Hn' : forall r, p = r -> hay !! Z.to_nat r <> Some c) by (intros r <-; congruence).
    destruct o as [q|].
    + destruct Ho as (Hq & Hqc & Ho). repeat split; [lia|lia|done|]. intros r Hr.
      destruct (Z.eq_dec p r); [by apply Hn' | apply Ho; lia].
    + intros r Hr. destruct (Z.eq_dec p r); [by apply Hn' | apply Ho; lia].
Qed.

Lemma zend_memrchr_spec s c n : n <= Z.of_nat (length s) ->
  exists o, zend_memrchr s c n = Ok o /\
  match o with
  | Some q => 0 <= q < n /\ s !! Z.to_nat q = Some c /\
              forall r, q < r < n -> s !! Z.to_nat r <> Some c
  | None => forall r, 0 <= r < n -> s !! Z.to_nat r <> Some c
  end.
Proof.
  intros Hn. unfold zend_memrchr. zcases; [by exists None; split; [|lia]|].
  rewrite <- (Z2Nat.id n) in * by lia. rewrite Nat2Z.id.
  generalize dependent (Z.to_nat n). clear n. intros n Hn Hpos.
  clear Hpos. induction n as [|n IH]; simpl; [by exists None; split; [|lia]|].
  destruct (aget_range s (Z.of_nat n)) as (d & -> & Hd); [lia|]. rsimp. case_bool_decide as Hc.
  - subst d. exists (Some (Z.of_nat n)). repeat split; [lia|lia|done|]. intros r ?. lia.
  - destruct IH as (o & -> & Ho); [lia|]. exists o. split; [done|].
    assert (Hn' : forall r, Z.of_nat n = r -> s !! Z.to_nat r <> Some c) by (intros r <-; congruence).
    destruct o as [q|].
    + destruct Ho as (Hq & Hqc & Ho). repeat split; [lia|lia|done|]. intros r Hr.
      destruct (Z.eq_dec (Z.of_nat n) r); [by apply Hn' | apply Ho; lia].
    + intros r Hr. destruct (Z.eq_dec (Z.of_nat n) r); [by apply Hn' | apply Ho; lia].
Qed.

(** A place whose first byte is not that of [needle] is no occurrence. *)
Lemma occurs_head hay needle c0 q : aget needle 0 = Ok c0 -> occurs hay needle q ->
  0 <= q /\ hay !! Z.to_nat q = Some c0.
Proof.
  intros (n & Hn & Hc)%aget_inv Ho. assert (n = 0%nat) as -> by lia.
  split; [apply Ho|]. pose proof (occurs_char _ _ _ _ _ Ho Hc) as H. by rewrite Z.add_0_r in H.
Qed.

Lemma occurs_one hay needle c0 q : length needle = 1%nat -> aget needle 0 = Ok c0 ->
  occurs hay needle q <-> 0 <= q /\ hay !! Z.to_nat q = Some c0.
Proof.
  intros Hl Hc. split; [by apply occurs_head|]. intros [Hq H].
  destruct needle as [|c [|]]; try done. injection Hc as ->.
  apply occurs_cons; [done|]. split; [done | apply occurs_nil; lia].
Qed.

(** A table of shifts with every shift between [lo] and [hi]. *)
Definition shifts (lo hi : Z) (td : list Z) : Prop :=
  length td = 256%nat /\ Forall (fun v => lo <= v <= hi) td.

Lemma shifts_get lo hi td c : shifts lo hi td ->
  exists d, aget td (uchar c) = Ok d /\ td !! Z.to_nat (uchar c) = Some d /\ lo <= d <= hi.
Proof.
  intros [Hl Hf]. pose proof (uchar_range c).
  destruct (aget_range td (uchar c)) as (d & H1 & H2); [lia|].
  exists d. split_and!; [done|done| |]; apply (Forall_lookup_1 _ _ _ _ Hf H2).
Qed.

Lemma shifts_set lo hi lo' td c v : shifts lo hi td -> lo' <= v <= hi -> lo' <= lo ->
  aset td (uchar c) v = Ok (<[Z.to_nat (uchar c) := v]> td) /\
  shifts lo' hi (<[Z.to_nat (uchar c) := v]> td).
Proof.
  intros [Hl Hf] Hv Hlo. pose proof (uchar_range c). split; [apply aset_okZ; lia|].
  split; [by rewrite length_insert|]. apply Forall_insert; [|done].
  eapply Forall_impl; [done|]. simpl. lia.
Qed.

Lemma uchar_nat_inj c d : Z.to_nat (uchar c) = Z.to_nat (uchar d) -> c = d.
Proof. intros H. pose proof (uchar_range c). pose proof (uchar_range d). apply uchar_inj. lia. Qed.

(** Each further byte of the needle lowers the shift of its value. *)
Lemma td_forward_spec needle td i n : i + Z.of_nat (length needle) = n -> 0 <= i -> n < 2 ^ 31 ->
  shifts (n - i + 1) (n + 1) td ->
  exists td', td_forward td needle n i = Ok td' /\ shifts 1 (n + 1) td' /\
    (forall c d e, td !! Z.to_nat (uchar c) = Some d -> td' !! Z.to_nat (uchar c) = Some e -> e <= d) /\
    (forall j c e, needle !! j = Some c -> td' !! Z.to_nat (uchar c) = Some e -> e <= n - i - Z.of_nat j).
Proof.
  revert td i. induction needle as [|c needle IH]; intros td i Hi H0 Hn Htd; simpl in *.
  - exists td. split; [done|]. replace (n - i + 1) with 1 in Htd by lia.
    split; [done|]. split; [|by intros j c e Hc; rewrite lookup_nil in Hc]. intros c d e. by intros -> [= ->].
  - rewrite s32_small, (u64_small n), (u64_small (n - i)), u32_small by lia.
    destruct (shifts_set (n - i + 1) (n + 1) (n - (i + 1) + 1) td c (n - i)) as [-> Hs]; [done|lia|lia|].
    rsimp. destruct (IH _ (i + 1) ltac:(lia) ltac:(lia) Hn Hs) as (td' & -> & Hs' & Hle & Hc').
    exists td'. split; [done|]. split; [done|].
    assert (Hlen : (Z.to_nat (uchar c) < length td)%nat)
      by (destruct Htd as [-> _]; pose proof (uchar_range c); lia).
    split.
    + intros a d e Hd He. destruct (decide (c = a)) as [->|Hne].
      * specialize (Hle a (n - i) e (list_lookup_insert_eq _ _ _ Hlen) He).
        destruct Htd as [_ Hf]. eapply Forall_lookup_1 in Hd; [|done]. simpl in Hd. lia.
      * apply (Hle a d e); [|done]. rewrite list_lookup_insert_ne; [done|].
        intros E. by apply Hne, uchar_nat_inj.
    + intros [|j] a e Ha He; simpl in Ha.
      * injection Ha as ->. specialize (Hle a (n - i) e (list_lookup_insert_eq _ _ _ Hlen) He). lia.
      * specialize (Hc' j a e Ha He). lia.
Qed.

Lemma td_reverse_spec needle td n N : (n <= length needle)%nat -> Z.of_nat n <= N -> N < 2 ^ 31 ->
  shifts (Z.of_nat n + 1) (N + 1) td ->
  exists td', td_reverse td needle n = Ok td' /\ shifts 1 (N + 1) td' /\
    (forall c d e, td !! Z.to_nat (uchar c) = Some d -> td' !! Z.to_nat (uchar c) = Some e -> e <= d) /\
    (forall j c e, (j < n)%nat -> needle !! j = Some c -> td' !! Z.to_nat (uchar c) = Some e ->
      e <= Z.of_nat j + 1).
Proof.
  revert td. induction n as [|n IH]; intros td Hn HN Hb Htd; simpl.
  - exists td. split; [done|]. split; [done|]. split; [|lia]. intros c d e. by intros -> [= ->].
  - destruct (aget_range needle (Z.of_nat n)) as (c & -> & Hc); [lia|]. rewrite Nat2Z.id in Hc. rsimp.
    rewrite u32_small by lia.
    destruct (shifts_set (Z.of_nat (S n) + 1) (N + 1) (Z.of_nat n + 1) td c (Z.of_nat n + 1)) as [-> Hs];
      [done|lia|lia|].
    rsimp. destruct (IH _ ltac:(lia) ltac:(lia) Hb Hs) as (td' & -> & Hs' & Hle & Hc').
    exists td'. split; [done|]. split; [done|].
    assert (Hlen : (Z.to_nat (uchar c) < length td)%nat)
      by (destruct Htd as [-> _]; pose proof (uchar_range c); lia).
    split.
    + intros a d e Hd He. destruct (decide (c = a)) as [->|Hne].
      * specialize (Hle a _ e (list_lookup_insert_eq _ _ _ Hlen) He).
        destruct Htd as [_ Hf]. eapply Forall_lookup_1 in Hd; [|done]. simpl in Hd. lia.
      * apply (Hle a d e); [|done]. rewrite list_lookup_insert_ne; [done|].
        intros E. by apply Hne, uchar_nat_inj.
    + intros j a e Hj Ha He. destruct (decide (j = n)) as [->|].
      * assert (a = c) as -> by congruence. apply (Hle c _ e (list_lookup_insert_eq _ _ _ Hlen) He).
      * apply (Hc' j a e); [lia|done|done].
Qed.

Section Search.
Context (hay needle : list char) (c0 ne : char).
Abbreviation n := (Z.of_nat (length needle)).
Abbreviation last := (Z.of_nat (length hay) - n).
Context (Hc0 : aget needle 0 = Ok c0) (Hne : aget needle (n - 1) = Ok ne).

Lemma needle_nonempty : 1 <= n.
Proof using Hc0. clear Hne ne. apply aget_inv in Hc0 as (k & Hk & H). apply lookup_lt_Some in H. lia. Qed.

Lemma occurs_bounds q : occurs hay needle q -> 0 <= q <= last.
Proof using Hc0.
  clear Hne ne. intros Ho. apply (occurs_range _ _ _ Ho). pose proof needle_nonempty. intros E. rewrite E in *. simpl in *. lia.
Qed.

(** Nothing before [p] (nothing after [p]) and [p] beyond the text: nothing at all. *)
Lemma none_first p : (forall q, q < p -> ~ occurs hay needle q) -> last < p ->
  first_occurrence hay needle None.
Proof using Hc0.
  clear Hne ne. intros Hb Hp q Ho. pose proof (occurs_bounds q Ho). apply (Hb q); [lia|done].
Qed.

Lemma none_last p : (forall q, p < q -> ~ occurs hay needle q) -> p < 0 ->
  last_occurrence hay needle None.
Proof using Hc0. clear Hne ne. intros Ha Hp q Ho. pose proof (occurs_bounds q Ho). apply (Ha q); [lia|done]. Qed.

Lemma memnstr_ex_loop_spec fuel td p :
  shifts 1 (n + 1) td ->
  (forall j c e, needle !! j = Some c -> td !! Z.to_nat (uchar c) = Some e -> e <= n - Z.of_nat j) ->
  0 <= p -> last + 1 - p < Z.of_nat fuel -> (0 < fuel)%nat ->
  (forall q, q < p -> ~ occurs hay needle q) ->
  exists o, memnstr_ex_loop fuel td hay needle n last p = Ok o /\ first_occurrence hay needle o.
Proof using Hc0. clear Hne ne.
  intros Htd Hsh. revert p. induction fuel as [|fuel IH]; intros p Hp Hf Hf0 Hb; [lia|]. simpl.
  pose proof needle_nonempty as Hn.
  destruct (Z.leb_spec p last) as [Hl|Hl]; [|exists None; split; [done | by apply (none_first p)]].
  rewrite match_at_spec by lia. rsimp. case_bool_decide as Ho; [by exists (Some p)|].
  assert (Hb' : forall q, q < p + 1 -> ~ occurs hay needle q).
  { intros q Hq. destruct (Z.eq_dec q p) as [->|]; [done | apply Hb; lia]. }
  destruct (Z.eqb_spec p last) as [E|E]; [exists None; split; [done | apply (none_first (p + 1)); [done|lia]]|].
  destruct (aget_range hay (p + n)) as (c & -> & Hc); [lia|]. rsimp.
  destruct (shifts_get _ _ _ c Htd) as (d & -> & Hd & Hd'). rsimp.
  apply IH; [lia|lia|lia|]. intros q Hq Hoq. destruct (Z.lt_ge_cases p q) as [Hpq|]; [|by apply (Hb' q); [lia|]].
  (* the byte after the window is one of the needle *)
  destruct (lookup_lt_is_Some_2 needle (Z.to_nat (p + n - q))) as [a Ha]; [lia|].
  pose proof (occurs_char _ _ _ _ _ Hoq Ha) as Hc'.
  replace (q + Z.of_nat (Z.to_nat (p + n - q))) with (p + n) in Hc' by lia.
  assert (a = c) as -> by congruence. specialize (Hsh _ _ _ Ha Hd). lia.
Qed.

Lemma memnrstr_ex_loop_spec fuel td p :
  shifts 1 (n + 1) td ->
  (forall j c e, needle !! j = Some c -> td !! Z.to_nat (uchar c) = Some e -> e <= Z.of_nat j + 1) ->
  p <= last -> p + 1 < Z.of_nat fuel -> (0 < fuel)%nat ->
  (forall q, p < q -> ~ occurs hay needle q) ->
  exists o, memnrstr_ex_loop fuel td hay needle p = Ok o /\ last_occurrence hay needle o.
Proof using Hc0. clear Hne ne.
  intros Htd Hsh. revert p. induction fuel as [|fuel IH]; intros p Hp Hf Hf0 Hb; [lia|].
  cbn [memnrstr_ex_loop].
  pose proof needle_nonempty as Hn.
  destruct (Z.leb_spec 0 p) as [Hl|Hl]; [|exists None; split; [done | by apply (none_last p)]].
  rewrite match_at_spec by lia. rsimp. case_bool_decide as Ho; [by exists (Some p)|].
  assert (Hb' : forall q, p - 1 < q -> ~ occurs hay needle q).
  { intros q Hq. destruct (Z.eq_dec q p) as [->|]; [done | apply Hb; lia]. }
  destruct (Z.eqb_spec p 0) as [E|E]; [exists None; split; [done | apply (none_last (p - 1)); [done|lia]]|].
  destruct (aget_range hay (p - 1)) as (c & -> & Hc); [lia|]. rsimp.
  destruct (shifts_get _ _ _ c Htd) as (d & -> & Hd & Hd'). rsimp.
  apply IH; [lia|lia|lia|]. intros q Hq Hoq. destruct (Z.lt_ge_cases q p) as [Hpq|]; [|by apply (Hb' q); [lia|]].
  pose proof (occurs_bounds _ Hoq).
  destruct (lookup_lt_is_Some_2 needle (Z.to_nat (p - 1 - q))) as [a Ha]; [lia|].
  pose proof (occurs_char _ _ _ _ _ Hoq Ha) as Hc'.
  replace (q + Z.of_nat (Z.to_nat (p - 1 - q))) with (p - 1) in Hc' by lia.
  assert (a = c) as -> by congruence. specialize (Hsh _ _ _ Ha Hd). lia.
Qed.

Lemma zend_memnstr_ex_spec : n < 2 ^ 31 ->
  exists o, zend_memnstr_ex hay needle n = Ok o /\ first_occurrence hay needle o.
Proof using Hc0. clear Hne ne.
  intros Hb. pose proof needle_nonempty as Hn. unfold zend_memnstr_ex.
  assert (Hb0 : forall q, q < 0 -> ~ occurs hay needle q) by (intros q Hq [? _]; lia).
  destruct (Z.eqb_spec n 0) as [En|_]; [lia|].
  destruct (Z.eqb_spec (Z.of_nat (length hay)) 0) as [Eh|_]; cbn [orb]; [exists None; split; [done|apply (none_first 0); [done|lia]]|].
  unfold zend_memnstr_ex_pre; cbv zeta. rewrite u64_small, u32_small by lia.
  destruct (td_forward_spec needle (replicate 256 (n + 1)) 0 n) as (td & -> & Hs & _ & Hsh); [lia|lia|lia| |].
  { split; [apply length_replicate|]. apply Forall_replicate. lia. }
  rsimp. apply memnstr_ex_loop_spec; [done| |lia|lia|lia|done].
  intros j c e H1 H2. specialize (Hsh j c e H1 H2). lia.
Qed.

Lemma zend_memnrstr_ex_spec : n < 2 ^ 31 ->
  exists o, zend_memnrstr_ex hay needle n = Ok o /\ last_occurrence hay needle o.
Proof using Hc0. clear Hne ne.
  intros Hb. pose proof needle_nonempty as Hn. unfold zend_memnrstr_ex.
  assert (Hb0 : forall q, last < q -> ~ occurs hay needle q)
    by (intros q Hq Ho; pose proof (occurs_bounds q Ho); lia).
  destruct (Z.eqb_spec n 0) as [En|_]; [lia|].
  destruct (Z.eqb_spec (Z.of_nat (length hay)) 0) as [Eh|_]; cbn [orb]; [exists None; split; [done|apply (none_last last); [done|lia]]|].
  unfold zend_memnstr_ex_pre; cbv zeta. rewrite (u64_small (n + 1)), u32_small, u64_small, s32_small by lia.
  replace (Z.to_nat (n - 1 + 1)) with (length needle) by lia.
  destruct (td_reverse_spec needle (replicate 256 (n + 1)) (length needle) n) as (td & -> & Hs & _ & Hsh);
    [lia|lia|lia| |].
  { split; [apply length_replicate|]. apply Forall_replicate. lia. }
  rsimp. apply memnrstr_ex_loop_spec; [done| |lia|lia|lia|done].
  intros j c e H1 H2. apply (Hsh j c e); [by eapply lookup_lt_Some|done|done].
Qed.

Lemma memnstr_loop_spec fuel p :
  0 <= p -> last + 1 - p < Z.of_nat fuel -> (0 < fuel)%nat ->
  (forall q, q < p -> ~ occurs hay needle q) ->
  exists o, memnstr_loop fuel hay needle n c0 ne last p = Ok o /\ first_occurrence hay needle o.
Proof using Hc0 Hne.
  revert p. induction fuel as [|fuel IH]; intros p Hp Hf Hf0 Hb; [lia|]. cbn [memnstr_loop].
  pose proof needle_nonempty as Hn.
  destruct (Z.leb_spec p last) as [Hl|Hl]; [|exists None; split; [done | by apply (none_first p)]].
  unfold memchr. destruct (memchr_spec hay c0 p (Z.to_nat (last - p + 1))) as (o & -> & Ho); [lia|lia|]. rsimp.
  assert (Hskip : forall q, (forall r, p <= r < q -> hay !! Z.to_nat r <> Some c0) ->
            forall r, r < q -> ~ occurs hay needle r).
  { intros q Hq r Hr Hor. destruct (Z.lt_ge_cases r p); [by apply (Hb r)|].
    destruct (occurs_head hay needle c0 r Hc0 Hor) as [_ Hh]. by apply (Hq r ltac:(lia)). }
  destruct o as [q|].
  - destruct Ho as (Hq & _ & Ho). rewrite <- rbind_assoc.
    rewrite (last_then_rest hay needle ne q) by (try lia; done). rsimp.
    case_bool_decide as Hoq; [exists (Some q); split; [done|split; [done | by apply Hskip]]|].
    apply IH; [lia|lia|lia|]. intros r Hr. destruct (Z.eq_dec r q) as [->|]; [done|].
    apply (Hskip q Ho). lia.
  - exists None. split; [done|]. apply (none_first (last + 1)); [|lia].
    apply Hskip. intros r Hr. apply Ho. lia.
Qed.

Lemma memnrstr_loop_spec fuel p : Z.of_nat (length hay) < 2 ^ 63 ->
  - 1 <= p <= last -> p + 1 < Z.of_nat fuel ->
  (forall q, p < q -> ~ occurs hay needle q) ->
  exists o, memnrstr_loop fuel hay needle n c0 ne p = Ok o /\ last_occurrence hay needle o.
Proof using Hc0 Hne.
  intros Hh. revert p. induction fuel as [|fuel IH]; intros p Hp Hf Hb; [lia|]. cbn [memnrstr_loop].
  pose proof needle_nonempty as Hn. rewrite u64_small by lia.
  destruct (zend_memrchr_spec hay c0 (p + 1)) as (o & -> & Ho); [lia|]. rsimp.
  assert (Hskip : forall q, - 1 <= q -> (forall r, q < r < p + 1 -> hay !! Z.to_nat r <> Some c0) ->
            forall r, q < r -> ~ occurs hay needle r).
  { intros q Hq0 Hq r Hr Hor. destruct (Z.lt_ge_cases p r); [by apply (Hb r)|].
    destruct (occurs_head hay needle c0 r Hc0 Hor) as [_ Hh']. by apply (Hq r ltac:(lia)). }
  destruct o as [q|].
  - destruct Ho as (Hq & _ & Ho). rewrite <- rbind_assoc.
    rewrite (last_then_rest hay needle ne q) by (try lia; done). rsimp.
    case_bool_decide as Hoq; [exists (Some q); split; [done|split; [done | apply Hskip; [lia|done]]]|].
    destruct (Z.leb_spec 0 q); [|lia].
    apply IH; [lia|lia|]. intros r Hr. destruct (Z.eq_dec r q) as [->|]; [done|].
    apply (Hskip q); [lia|done|lia].
  - exists None. split; [done|]. apply (none_last (-1)); [|lia].
    apply Hskip; [lia|]. intros r Hr. apply Ho. lia.
Qed.
End Search.

(** *** Properties *)

(** C24: Whichever way it searches, [zend_memnstr] returns the first place where
    the needle occurs, and reads nothing outside of the text and the needle. *)
Theorem zend_memnstr_correct hay needle :
  1 <= Z.of_nat (length needle) < 2 ^ 31 ->
  exists o, zend_memnstr hay needle = Ok o /\ first_occurrence hay needle o.
Proof.
  intros Hn. destruct (aget_range needle 0) as (c0 & Hc0 & _); [lia|].
  destruct (aget_range needle (Z.of_nat (length needle) - 1)) as (ne & Hne & _); [lia|].
  unfold zend_memnstr. rewrite Hne, Hc0. rsimp.
  assert (Hb0 : forall q, q < 0 -> ~ occurs hay needle q) by (intros q Hq [? _]; lia).
  destruct (Z.eqb_spec (Z.of_nat (length needle)) 1) as [E|E].
  - unfold memchr. rewrite Nat2Z.id.
    destruct (memchr_spec hay c0 0 (length hay)) as (o & -> & Ho); [lia|lia|]. exists o. split; [done|].
    assert (H1 : forall q, occurs hay needle q <-> 0 <= q /\ hay !! Z.to_nat q = Some c0)
      by (intros; apply occurs_one; [lia|done]).
    destruct o as [q|]; simpl.
    + split; [apply H1; split; [lia|apply Ho]|]. intros r Hr [? Hh]%H1. eapply Ho; [|done]. lia.
    + intros r Hor. pose proof (occurs_bounds hay needle c0 Hc0 r Hor). apply H1 in Hor as [? Hh].
      eapply Ho; [|done]. lia.
  - destruct (Z.ltb_spec (Z.of_nat (length hay)) (Z.of_nat (length needle))).
    { exists None. split; [done|]. apply (none_first hay needle c0 Hc0 0); [done|lia]. }
    destruct ((_ <? 1024) || _); [apply memnstr_loop_spec; [done|done|lia|lia|lia|done]|].
    apply (zend_memnstr_ex_spec hay needle c0); [done|lia].
Qed.

(** [zend_memnrstr] returns the last such place. *)
Theorem zend_memnrstr_correct hay needle :
  1 <= Z.of_nat (length needle) < 2 ^ 31 -> Z.of_nat (length hay) < 2 ^ 63 ->
  exists o, zend_memnrstr hay needle = Ok o /\ last_occurrence hay needle o.
Proof.
  intros Hn Hh. destruct (aget_range needle 0) as (c0 & Hc0 & _); [lia|].
  destruct (aget_range needle (Z.of_nat (length needle) - 1)) as (ne & Hne & _); [lia|].
  unfold zend_memnrstr. rewrite Hne, Hc0. rsimp.
  pose proof (occurs_bounds hay needle c0 Hc0) as Hob.
  destruct (Z.eqb_spec (Z.of_nat (length needle)) 1) as [E|E].
  - destruct (zend_memrchr_spec hay c0 (Z.of_nat (length hay))) as (o & -> & Ho); [lia|].
    exists o. split; [done|].
    assert (H1 : forall q, occurs hay needle q <-> 0 <= q /\ hay !! Z.to_nat q = Some c0)
      by (intros; apply occurs_one; [lia|done]).
    destruct o as [q|]; simpl.
    + split; [apply H1; split; [lia|apply Ho]|]. intros r Hr Hor. pose proof (Hob r Hor).
      apply H1 in Hor as [? Hh']. eapply Ho; [|done]. lia.
    + intros r Hor. pose proof (Hob r Hor). apply H1 in Hor as [? Hh']. eapply Ho; [|done]. lia.
  - assert (Hb0 : forall q, Z.of_nat (length hay) - Z.of_nat (length needle) < q -> ~ occurs hay needle q)
      by (intros q Hq Ho; pose proof (Hob q Ho); lia).
    destruct (Z.ltb_spec (Z.of_nat (length hay)) (Z.of_nat (length needle))).
    { exists None. split; [done|]. intros q Ho. pose proof (Hob q Ho). lia. }
    destruct ((_ <? 1024) || _); [apply memnrstr_loop_spec; [done|done|done|lia|lia|done]|].
    apply (zend_memnrstr_ex_spec hay needle c0); [done|lia].
Qed.

(** *** Witnesses *)
Lemma zend_memnstr_correct_witness :
  exists o, zend_memnstr [x61; x62; x61; x62; x63] [x61; x62; x63] = Ok o /\
            first_occurrence [x61; x62; x61; x62; x63] [x61; x62; x63] o.
Proof. apply (zend_memnstr_correct [x61; x62; x61; x62; x63] [x61; x62; x63]). split; reflexivity || discriminate. Defined.

Lemma zend_memnrstr_correct_witness :
  exists o, zend_memnrstr [x61; x62; x61; x62; x63] [x61; x62] = Ok o /\
            last_occurrence [x61; x62; x61; x62; x63] [x61; x62] o.
Proof.
  apply (zend_memnrstr_correct [x61; x62; x61; x62; x63] [x61; x62]); [split; reflexivity || discriminate | reflexivity].
Defined.


(** A long text is searched with the table of shifts. *)
Example memnstr_long :
  let needle := [x62; x61; x62; x61; x62; x61; x62; x61; x63; x62] in
  zend_memnstr (replicate 1100 x61 ++ needle ++ needle) needle = Ok (Some 1100) /\
  zend_memnrstr (replicate 1100 x61 ++ needle ++ needle) needle = Ok (Some 1110).
Proof. vm_compute. done. Qed.
