(* ===== verification/StrCmp.v ===== *)
(** * Comparison and lower case of byte strings ([Zend/zend_operators.c])

    The binary safe comparisons [zend_binary_strcmp] and its variants, and the
    ASCII lower-case conversions.  A string is the list of its bytes. *)
From Stdlib Require Import Strings.Byte.
From S2P Require Export MemStr.

(** ** Lower case *)
Definition tolower_map : list Z :=
  [ 0; 1; 2; 3; 4; 5; 6; 7; 8; 9; 10; 11; 12; 13; 14; 15;
    16; 17; 18; 19; 20; 21; 22; 23; 24; 25; 26; 27; 28; 29; 30; 31;
    32; 33; 34; 35; 36; 37; 38; 39; 40; 41; 42; 43; 44; 45; 46; 47;
    48; 49; 50; 51; 52; 53; 54; 55; 56; 57; 58; 59; 60; 61; 62; 63;
    64; 97; 98; 99; 100; 101; 102; 103; 104; 105; 106; 107; 108; 109; 110; 111;
    112; 113; 114; 115; 116; 117; 118; 119; 120; 121; 122; 91; 92; 93; 94; 95;
    96; 97; 98; 99; 100; 101; 102; 103; 104; 105; 106; 107; 108; 109; 110; 111;
    112; 113; 114; 115; 116; 117; 118; 119; 120; 121; 122; 123; 124; 125; 126; 127;
    128; 129; 130; 131; 132; 133; 134; 135; 136; 137; 138; 139; 140; 141; 142; 143;
    144; 145; 146; 147; 148; 149; 150; 151; 152; 153; 154; 155; 156; 157; 158; 159;
    160; 161; 162; 163; 164; 165; 166; 167; 168; 169; 170; 171; 172; 173; 174; 175;
    176; 177; 178; 179; 180; 181; 182; 183; 184; 185; 186; 187; 188; 189; 190; 191;
    192; 193; 194; 195; 196; 197; 198; 199; 200; 201; 202; 203; 204; 205; 206; 207;
    208; 209; 210; 211; 212; 213; 214; 215; 216; 217; 218; 219; 220; 221; 222; 223;
    224; 225; 226; 227; 228; 229; 230; 231; 232; 233; 234; 235; 236; 237; 238; 239;
    240; 241; 242; 243; 244; 245; 246; 247; 248; 249; 250; 251; 252; 253; 254; 255].

Definition zend_tolower_ascii (c : char) : res Z := aget tolower_map (uchar c).

(** The byte that a value is stored as. *)
Definition char_of (z : Z) : char :=
  match of_N (Z.to_N (u8 z)) with Some c => c | None => x00 end.

(** [while (p < end) { *p = zend_tolower_ascii( *p); p++; }] *)
Fixpoint zend_str_tolower (str : list char) : res (list char) :=
  match str with
  | [] => Ok []
  | c :: str =>
      let! d := zend_tolower_ascii c in
      let! rest := zend_str_tolower str in
      Ok (char_of d :: rest)
  end.

(** The bytes written to [dest], the terminating NUL included. *)
Definition zend_str_tolower_copy (source : list char) : res (list char) :=
  let! result := zend_str_tolower source in Ok (result ++ [x00]).

Definition zend_str_tolower_dup (source : list char) : res (list char) := zend_str_tolower_copy source.

(** [None] is the null pointer: nothing to do.  [before] is the part of the
    source in front of [p]. *)
Fixpoint tolower_dup_loop (before p : list char) {struct p} : res (option (list char)) :=
  match p with
  | [] => Ok None
  | c :: q =>
      let! d := zend_tolower_ascii c in
      if uchar c =? d then tolower_dup_loop (before ++ [c]) q
      else
        let! r := zend_str_tolower p in
        Ok (Some (before ++ r ++ [x00]))
  end.

Definition zend_str_tolower_dup_ex (source : list char) : res (option (list char)) :=
  tolower_dup_loop [] source.

(** ** Comparison *)

(** [memcmp] of the C library: the bytes are compared as [unsigned char]. *)
Fixpoint memcmp (s1 s2 : list char) (n : nat) {struct n} : res Z :=
  match n, s1, s2 with
  | O, _, _ => Ok 0
  | S n, c1 :: s1, c2 :: s2 =>
      if uchar c1 =? uchar c2 then memcmp s1 s2 n else Ok (uchar c1 - uchar c2)
  | S _, _, _ => Err OutOfBounds
  end.

(** [same] says whether the two pointers are equal. *)
Definition zend_binary_strcmp (same : bool) (s1 : list char) (len1 : Z) (s2 : list char) (len2 : Z) : res Z :=
  if same then Ok 0
  else
    let! retval := memcmp s1 s2 (Z.to_nat (Z.min len1 len2)) in
    if retval =? 0 then Ok (s32 (u64 (len1 - len2))) else Ok retval.

Definition zend_binary_strncmp (same : bool) (s1 : list char) (len1 : Z) (s2 : list char) (len2 : Z)
    (length : Z) : res Z :=
  if same then Ok 0
  else
    let! retval := memcmp s1 s2 (Z.to_nat (Z.min length (Z.min len1 len2))) in
    if retval =? 0 then Ok (s32 (u64 (Z.min length len1 - Z.min length len2))) else Ok retval.

(** [while (len--) ..]: [None] when no difference has been found. *)
Fixpoint casecmp_loop (s1 s2 : list char) (len : nat) {struct len} : res (option Z) :=
  match len, s1, s2 with
  | O, _, _ => Ok None
  | S len, c1 :: s1, c2 :: s2 =>
      let! c1 := zend_tolower_ascii c1 in
      let! c2 := zend_tolower_ascii c2 in
      if c1 =? c2 then casecmp_loop s1 s2 len else Ok (Some (c1 - c2))
  | S _, _, _ => Err OutOfBounds
  end.

Definition zend_binary_strcasecmp (same : bool) (s1 : list char) (len1 : Z) (s2 : list char) (len2 : Z) : res Z :=
  if same then Ok 0
  else
    let! o := casecmp_loop s1 s2 (Z.to_nat (Z.min len1 len2)) in
    match o with Some d => Ok d | None => Ok (s32 (u64 (len1 - len2))) end.

Definition zend_binary_strncasecmp (same : bool) (s1 : list char) (len1 : Z) (s2 : list char) (len2 : Z)
    (length : Z) : res Z :=
  if same then Ok 0
  else
    let! o := casecmp_loop s1 s2 (Z.to_nat (Z.min length (Z.min len1 len2))) in
    match o with
    | Some d => Ok d
    | None => Ok (s32 (u64 (Z.min length len1 - Z.min length len2)))
    end.

(** ** What they mean *)

(** Lexicographic order of the bytes; a proper prefix is smaller. *)
Fixpoint lex (s1 s2 : list Z) : comparison :=
  match s1, s2 with
  | [], [] => Eq
  | [], _ :: _ => Lt
  | _ :: _, [] => Gt
  | c1 :: s1, c2 :: s2 => match c1 ?= c2 with Eq => lex s1 s2 | r => r end
  end.

Definition lower (c : Z) : Z := if (65 <=? c) && (c <=? 90) then c + 32 else c.

Definition lengths (s1 s2 : list char) : Prop :=
  Z.of_nat (length s1) < 2 ^ 31 /\ Z.of_nat (length s2) < 2 ^ 31.

(** ** Facts *)
Lemma tolower_ascii_spec c : zend_tolower_ascii c = Ok (lower (uchar c)).
Proof. destruct c; reflexivity. Qed.

Lemma lower_range z : 0 <= z < 256 -> 0 <= lower z < 256.
Proof. unfold lower. zcases; simpl; lia. Qed.

Lemma uchar_char_of z : 0 <= z < 256 -> uchar (char_of z) = z.
Proof.
  intros H. unfold char_of, uchar, u8. rewrite Z.mod_small by lia.
  destruct (of_N (Z.to_N z)) as [c|] eqn:E.
  - apply to_of_N in E. rewrite E. lia.
  - apply of_N_None_iff in E. lia.
Qed.

(** [zend_str_tolower] maps every byte, whatever the text. *)
Lemma str_tolower_spec s : exists s', zend_str_tolower s = Ok s' /\ map uchar s' = map lower (map uchar s).
Proof.
  induction s as [|c s (s' & IH & Hs)]; simpl; [by exists []|].
  rewrite tolower_ascii_spec, IH. rsimp. eexists. split; [done|]. simpl.
  rewrite Hs, uchar_char_of; [done|]. apply lower_range, uchar_range.
Qed.

Lemma uchars_inj s1 s2 : map uchar s1 = map uchar s2 -> s1 = s2.
Proof.
  revert s2. induction s1 as [|c s1 IH]; intros [|d s2] [=]; [done|].
  f_equal; [by apply uchar_inj | by apply IH].
Qed.

(** The order of two strings is that of their common length, then that of
    their lengths. *)
Lemma lex_lengths s1 s2 :
  lex s1 s2 = match lex (take (Nat.min (length s1) (length s2)) s1)
                        (take (Nat.min (length s1) (length s2)) s2) with
              | Eq => Z.of_nat (length s1) ?= Z.of_nat (length s2)
              | r => r
              end.
Proof.
  revert s2. induction s1 as [|c s1 IH]; intros [|d s2]; [done..|]. cbn [lex length Nat.min take].
  destruct (c ?= d); [|done..]. rewrite IH. destruct (lex _ _); [|done..].
  symmetry. rewrite !Nat2Z.inj_succ. destruct (Z.compare_spec (Z.of_nat (length s1)) (Z.of_nat (length s2)));
    [apply Z.compare_eq_iff|apply Z.compare_lt_iff|apply Z.compare_gt_iff]; lia.
Qed.

Lemma memcmp_spec s1 s2 n : (n <= length s1)%nat -> (n <= length s2)%nat ->
  exists r, memcmp s1 s2 n = Ok r /\ (r ?= 0) = lex (take n (map uchar s1)) (take n (map uchar s2)).
Proof.
  revert s1 s2. induction n as [|n IH]; intros [|c s1] [|d s2] H1 H2; simpl in *; try lia;
    try by exists 0.
  destruct (Z.eqb_spec (uchar c) (uchar d)) as [E|E].
  - rewrite E, Z.compare_refl. apply IH; lia.
  - eexists. split; [done|]. destruct (Z.compare_spec (uchar c) (uchar d));
      [done|apply Z.compare_lt_iff|apply Z.compare_gt_iff]; lia.
Qed.

Lemma casecmp_spec s1 s2 n : (n <= length s1)%nat -> (n <= length s2)%nat ->
  exists o, casecmp_loop s1 s2 n = Ok o /\
  let r := lex (take n (map lower (map uchar s1))) (take n (map lower (map uchar s2))) in
  match o with Some d => (d ?= 0) = r /\ r <> Eq | None => r = Eq end.
Proof.
  revert s1 s2. induction n as [|n IH]; intros [|c s1] [|d s2] H1 H2; simpl in *; try lia;
    try by exists None.
  rewrite !tolower_ascii_spec. rsimp.
  destruct (Z.eqb_spec (lower (uchar c)) (lower (uchar d))) as [E|E].
  - rewrite E, Z.compare_refl. apply IH; lia.
  - eexists. split; [done|]. simpl.
    destruct (Z.compare_spec (lower (uchar c)) (lower (uchar d))); [done|split;[|done]..];
      [apply Z.compare_lt_iff|apply Z.compare_gt_iff]; lia.
Qed.

(** The difference of two lengths as an [int]. *)
Lemma length_difference a b : 0 <= a < 2 ^ 31 -> 0 <= b < 2 ^ 31 ->
  s32 (u64 (a - b)) = a - b.
Proof.
  intros Ha Hb. unfold s32, u64.
  destruct (Z.lt_ge_cases (a - b) 0).
  - replace (a - b) with (a - b + 2 ^ 64 + (-1) * 2 ^ 64) at 1 by lia.
    rewrite Z.mod_add, (Z.mod_small (a - b + 2 ^ 64)) by lia.
    replace (a - b + 2 ^ 64 + 2 ^ 31) with (a - b + 2 ^ 31 + 2 ^ 32 * 2 ^ 32) by lia.
    rewrite Z.mod_add, Z.mod_small; lia.
  - rewrite (Z.mod_small (a - b)), Z.mod_small; lia.
Qed.

Lemma compare_diff a b : (a - b ?= 0) = (a ?= b).
Proof. destruct (Z.compare_spec a b); [apply Z.compare_eq_iff|apply Z.compare_lt_iff|apply Z.compare_gt_iff]; lia. Qed.

Lemma lex_refl s : lex s s = Eq.
Proof. induction s as [|c s IH]; simpl; [done|]. by rewrite Z.compare_refl. Qed.

Lemma lex_eq s1 s2 : lex s1 s2 = Eq <-> s1 = s2.
Proof.
  split; [|intros ->; apply lex_refl]. revert s2.
  induction s1 as [|c s1 IH]; intros [|d s2]; simpl; try done.
  destruct (Z.compare_spec c d) as [->| |]; try done. intros H. f_equal. by apply IH.
Qed.

Lemma lex_antisym s1 s2 : lex s2 s1 = CompOpp (lex s1 s2).
Proof.
  revert s2. induction s1 as [|c s1 IH]; intros [|d s2]; simpl; try done.
  rewrite (Z.compare_antisym c d). destruct (c ?= d); simpl; [apply IH|done..].
Qed.

Lemma lex_trans s1 s2 s3 : lex s1 s2 = Lt -> lex s2 s3 = Lt -> lex s1 s3 = Lt.
Proof.
  revert s2 s3. induction s1 as [|c s1 IH]; intros [|d s2] [|e s3]; simpl; try done.
  destruct (Z.compare_spec c d), (Z.compare_spec d e); try done; intros H1 H2; subst.
  - rewrite Z.compare_refl. by eapply IH.
  - by rewrite (proj2 (Z.compare_lt_iff d e)).
  - by rewrite (proj2 (Z.compare_lt_iff c e)).
  - rewrite (proj2 (Z.compare_lt_iff c e)); [done|lia].
Qed.

Lemma take_uchars n s : take n (map uchar s) = map uchar (take n s).
Proof. apply firstn_map. Qed.

(** Comparing [m] bytes and then the numbers of bytes [n1] and [n2], of which
    [m] is the smaller, is comparing the first [n1] bytes with the first [n2]. *)
Lemma lex_prefixes (f : Z -> Z) s1 s2 n1 n2 :
  (n1 <= length s1)%nat -> (n2 <= length s2)%nat ->
  lex (map f (map uchar (take n1 s1))) (map f (map uchar (take n2 s2))) =
  match lex (take (Nat.min n1 n2) (map f (map uchar s1))) (take (Nat.min n1 n2) (map f (map uchar s2))) with
  | Eq => Z.of_nat n1 ?= Z.of_nat n2
  | r => r
  end.
Proof.
  intros H1 H2. rewrite lex_lengths, !length_map, !length_take.
  rewrite (Nat.min_l n1), (Nat.min_l n2) by lia.
  rewrite !firstn_map, !take_take.
  by replace (Nat.min (Nat.min n1 n2) n1) with (Nat.min n1 n2) by lia;
     replace (Nat.min (Nat.min n1 n2) n2) with (Nat.min n1 n2) by lia.
Qed.

(** *** Properties *)

(** [zend_binary_strcmp] has the sign of the lexicographic order of the bytes;
    in particular it is 0 exactly for equal strings. *)
Theorem zend_binary_strcmp_correct same s1 s2 :
  lengths s1 s2 -> (same = true -> s1 = s2) ->
  exists r, zend_binary_strcmp same s1 (Z.of_nat (length s1)) s2 (Z.of_nat (length s2)) = Ok r /\
  (r ?= 0) = lex (map uchar s1) (map uchar s2) /\ (r = 0 <-> s1 = s2).
Proof.
  intros [Hl1 Hl2] Hs.
  assert (exists r, zend_binary_strcmp same s1 (Z.of_nat (length s1)) s2 (Z.of_nat (length s2)) = Ok r /\
    (r ?= 0) = lex (map uchar s1) (map uchar s2)) as (r & Hr & Hc).
  { unfold zend_binary_strcmp. destruct same.
    { rewrite (Hs eq_refl), lex_refl. by exists 0. }
    rewrite lex_lengths, !length_map, <- Nat2Z.inj_min, Nat2Z.id.
    destruct (memcmp_spec s1 s2 (Nat.min (length s1) (length s2))) as (r & -> & <-); [lia..|]. rsimp.
    destruct (Z.eqb_spec r 0) as [->|Hr].
    - eexists. split; [done|]. rewrite length_difference by lia. apply compare_diff.
    - exists r. split; [done|]. by destruct (Z.compare_spec r 0). }
  exists r. split; [done|]. split; [done|]. rewrite <- (Z.compare_eq_iff r 0), Hc, lex_eq.
  split; [apply uchars_inj | by intros ->].
Qed.

(** C36: [zend_binary_strncasecmp] has the sign of the order of what
    [zend_str_tolower] makes of the first [n] bytes of the strings. *)
Theorem zend_binary_strncasecmp_correct same s1 s2 n :
  lengths s1 s2 -> (same = true -> s1 = s2) -> 0 <= n ->
  exists l1 l2 r,
  zend_str_tolower (take (Z.to_nat n) s1) = Ok l1 /\ zend_str_tolower (take (Z.to_nat n) s2) = Ok l2 /\
  zend_binary_strncasecmp same s1 (Z.of_nat (length s1)) s2 (Z.of_nat (length s2)) n = Ok r /\
  (r ?= 0) = lex (map uchar l1) (map uchar l2).
Proof.
  intros [Hl1 Hl2] Hs Hn.
  destruct (str_tolower_spec (take (Z.to_nat n) s1)) as (l1 & E1 & H1).
  destruct (str_tolower_spec (take (Z.to_nat n) s2)) as (l2 & E2 & H2).
  exists l1, l2. rewrite H1, H2. clear H1 H2.
  assert (Ht : forall s : list char, take (Z.to_nat n) s = take (Nat.min (Z.to_nat n) (length s)) s).
  { intros s. destruct (Nat.le_ge_cases (Z.to_nat n) (length s)); [by rewrite Nat.min_l|].
    by rewrite Nat.min_r, !take_ge. }
  rewrite (Ht s1), (Ht s2) in *. clear Ht.
  unfold zend_binary_strncasecmp. destruct same.
  { rewrite (Hs eq_refl) in *. rewrite lex_refl. by exists 0. }
  rewrite lex_prefixes by lia.
  set (n1 := Nat.min (Z.to_nat n) (length s1)) in *. set (n2 := Nat.min (Z.to_nat n) (length s2)) in *.
  replace (Z.to_nat (Z.min n (Z.min (Z.of_nat (length s1)) (Z.of_nat (length s2)))))
    with (Nat.min n1 n2) by lia.
  replace (Z.min n (Z.of_nat (length s1))) with (Z.of_nat n1) by lia.
  replace (Z.min n (Z.of_nat (length s2))) with (Z.of_nat n2) by lia.
  destruct (casecmp_spec s1 s2 (Nat.min n1 n2)) as ([d|] & -> & Ho); [lia..| |]; cbn beta zeta iota in Ho; rsimp.
  - destruct Ho as [Ho Hn']. exists d. split; [done|]. split; [done|]. split; [done|]. rewrite Ho.
    by destruct (lex _ _).
  - eexists. split; [done|]. split; [done|]. split; [done|]. rewrite Ho, length_difference by lia.
    apply compare_diff.
Qed.

(** The versions without a limit are those with a limit that is no smaller
    than the lengths. *)
Lemma zend_binary_strcasecmp_limit same s1 s2 len1 len2 n : len1 <= n -> len2 <= n ->
  zend_binary_strcasecmp same s1 len1 s2 len2 = zend_binary_strncasecmp same s1 len1 s2 len2 n.
Proof.
  intros H1 H2. unfold zend_binary_strcasecmp, zend_binary_strncasecmp.
  by rewrite (Z.min_r n (Z.min _ _)), (Z.min_r n len1), (Z.min_r n len2) by lia.
Qed.

Lemma zend_binary_strcmp_limit same s1 s2 len1 len2 n : len1 <= n -> len2 <= n ->
  zend_binary_strcmp same s1 len1 s2 len2 = zend_binary_strncmp same s1 len1 s2 len2 n.
Proof.
  intros H1 H2. unfold zend_binary_strcmp, zend_binary_strncmp.
  by rewrite (Z.min_r n (Z.min _ _)), (Z.min_r n len1), (Z.min_r n len2) by lia.
Qed.

(** [zend_str_tolower_dup_ex] returns a null pointer for a text that is in
    lower case already, and otherwise what [zend_str_tolower_dup] returns. *)
Lemma tolower_dup_ex_spec s :
  exists s', zend_str_tolower s = Ok s' /\
  zend_str_tolower_dup_ex s = if bool_decide (s' = s) then Ok None else
    let! d := zend_str_tolower_dup s in Ok (Some d).
Proof.
  unfold zend_str_tolower_dup_ex, zend_str_tolower_dup, zend_str_tolower_copy.
  destruct (str_tolower_spec s) as (s' & E & Hs). exists s'. split; [done|]. rewrite E. rsimp.
  change (Ok (Some (s' ++ [x00]))) with (Ok (Some ([] ++ s' ++ [x00]))).
  generalize (@nil char) as before. revert s' E Hs.
  induction s as [|c s IH]; intros s' E Hs before; simpl in *; inv_bind; [done|].
  rewrite tolower_ascii_spec in *. injection Ha as <-. simpl in Hs. injection Hs as _ Hs. rsimp.
  rewrite Ha0. rsimp.
  pose proof (uchar_range c). pose proof (lower_range _ H).
  destruct (Z.eqb_spec (uchar c) (lower (uchar c))) as [Ec|Ec].
  - assert (Ecc : char_of (lower (uchar c)) = c) by (apply uchar_inj; by rewrite uchar_char_of, <- Ec).
    rewrite Ecc, (IH a0 Ha0 Hs). rewrite <- app_assoc. simpl. case_bool_decide as H1; case_bool_decide as H2;
      try done; congruence.
  - case_bool_decide as H1; [|done]. exfalso. injection H1 as H1 _. apply Ec.
    by rewrite <- H1 at 1; rewrite uchar_char_of.
Qed.

(** The bound on the lengths is needed: the difference of the lengths is
    truncated to an [int], so that a string of 2^32 bytes equals the empty
    one. *)
Lemma strcmp_truncates s : Z.of_nat (length s) = 2 ^ 32 ->
  zend_binary_strcmp false [] 0 s (Z.of_nat (length s)) = Ok 0.
Proof. intros ->. reflexivity. Qed.

(** *** Witnesses *)
Lemma zend_binary_strcmp_correct_witness :
  exists r, zend_binary_strcmp false [x61] 1 [x61; x00] 2 = Ok r /\
  (r ?= 0) = lex (map uchar [x61]) (map uchar [x61; x00]) /\ (r = 0 <-> [x61] = [x61; x00]).
Proof. apply (zend_binary_strcmp_correct false [x61] [x61; x00]); [split; reflexivity | discriminate]. Defined.

Lemma zend_binary_strncasecmp_correct_witness :
  exists l1 l2 r,
  zend_str_tolower [x41; x62] = Ok l1 /\ zend_str_tolower [x61; x42] = Ok l2 /\
  zend_binary_strncasecmp false [x41; x62; x63] 3 [x61; x42] 2 2 = Ok r /\
  (r ?= 0) = lex (map uchar l1) (map uchar l2).
Proof.
  apply (zend_binary_strncasecmp_correct false [x41; x62; x63] [x61; x42] 2); [split; reflexivity|discriminate|discriminate].
Defined.
