(* ===== verification/Levenshtein.v ===== *)
(** * Edit distance: [ext/standard/levenshtein.c]

    [reference_levdist] fills a table of prefix distances row by row, keeping
    two rows.  Its result is the least cost of a script of insertions,
    replacements and deletions that turns one string into the other. *)
From Stdlib Require Import Strings.Byte.
From S2P Require Export Prelude ZendString.

(** ** The program *)

Definition LEVENSHTEIN_MAX_LENGTH : Z := 255.

Section Costs.
Context (cost_ins cost_rep cost_del : Z).

(** [for (i2 = 0; i2 <= l2; i2++) p1[i2] = i2 * cost_ins;] with [n] rounds left. *)
Fixpoint first_row (n : nat) (p1 : list Z) (i2 : Z) {struct n} : res (list Z) :=
  match n with
  | O => Ok p1
  | S n =>
      let! p1 := aset p1 i2 (s64 (i2 * cost_ins)) in
      first_row n p1 (i2 + 1)
  end.

(** The inner loop, for the byte [c] of the first string, with [n] rounds left. *)
Fixpoint next_row (n : nat) (c : char) (s2 : list char) (p1 p2 : list Z) (i2 : Z) {struct n}
    : res (list Z) :=
  match n with
  | O => Ok p2
  | S n =>
      let! x := aget p1 i2 in
      let! d := aget s2 i2 in
      let c0 := s64 (x + (if bool_decide (c = d) then 0 else cost_rep)) in
      let! y := aget p1 (i2 + 1) in
      let c1 := s64 (y + cost_del) in
      let c0 := if c1 <? c0 then c1 else c0 in
      let! z := aget p2 i2 in
      let c2 := s64 (z + cost_ins) in
      let c0 := if c2 <? c0 then c2 else c0 in
      let! p2 := aset p2 (i2 + 1) c0 in
      next_row n c s2 p1 p2 (i2 + 1)
  end.

(** The outer loop with [n] rounds left; it returns the two rows. *)
Fixpoint rows (n : nat) (s1 s2 : list char) (p1 p2 : list Z) (i1 : Z) {struct n}
    : res (list Z * list Z) :=
  match n with
  | O => Ok (p1, p2)
  | S n =>
      let! x := aget p1 0 in
      let! p2 := aset p2 0 (s64 (x + cost_del)) in
      let! c := aget s1 i1 in
      let! p2 := next_row (length s2) c s2 p1 p2 0 in
      rows n s1 s2 p2 p1 (i1 + 1)
  end.

(** [junk] is what the fresh rows hold. *)
Definition reference_levdist (s1 s2 : list char) (junk : Z) : res Z :=
  let l1 := Z.of_nat (length s1) in
  let l2 := Z.of_nat (length s2) in
  if l1 =? 0 then Ok (s64 (u64 (l2 * cost_ins)))
  else if l2 =? 0 then Ok (s64 (u64 (l1 * cost_del)))
  else if (LEVENSHTEIN_MAX_LENGTH <? l1) || (LEVENSHTEIN_MAX_LENGTH <? l2) then Ok (-1)
  else
    let p1 := replicate (S (length s2)) junk in
    let p2 := replicate (S (length s2)) junk in
    let! p1 := first_row (S (length s2)) p1 0 in
    let! (p1, p2) := rows (length s1) s1 s2 p1 p2 0 in
    aget p1 l2.
End Costs.

(** The two warnings of the function, most recent first in the results below. *)
Inductive lev_warning := GENERAL_NOT_THERE | STRINGS_TOO_LONG.

Definition custom_levdist (str1 str2 : list char) : Z * list lev_warning :=
  (-1, [GENERAL_NOT_THERE]).

(** The arguments behind the two strings, by [ZEND_NUM_ARGS ()]. *)
Inductive lev_args :=
| LEV_2
| LEV_3
| LEV_5 (cost_ins cost_rep cost_del : Z).

(** [PHP_FUNCTION(levenshtein)] after its parameters have been parsed. *)
Definition levenshtein (str1 str2 : list char) (args : lev_args) (junk : Z)
    : res (Z * list lev_warning) :=
  let! (distance, w) :=
    match args with
    | LEV_2 => let! d := reference_levdist 1 1 1 str1 str2 junk in Ok (d, [])
    | LEV_5 ci cr cd => let! d := reference_levdist ci cr cd str1 str2 junk in Ok (d, [])
    | LEV_3 => Ok (custom_levdist str1 str2)
    end in
  Ok (distance,
    match args with
    | LEV_3 => w
    | _ => if distance <? 0 then STRINGS_TOO_LONG :: w else w
    end).

(** ** Edit scripts *)

(** [edits s t k]: a script of total cost [k], carried out from left to right,
    turns [s] into [t]. *)
Inductive edits (ci cr cd : Z) : list char -> list char -> Z -> Prop :=
| ed_nil : edits ci cr cd [] [] 0
| ed_ins s t b k : edits ci cr cd s t k -> edits ci cr cd s (t ++ [b]) (k + ci)
| ed_del s t a k : edits ci cr cd s t k -> edits ci cr cd (s ++ [a]) t (k + cd)
| ed_keep s t a k : edits ci cr cd s t k -> edits ci cr cd (s ++ [a]) (t ++ [a]) k
| ed_rep s t a b k : a <> b -> edits ci cr cd s t k -> edits ci cr cd (s ++ [a]) (t ++ [b]) (k + cr).

Section Scripts.
Context (ci cr cd : Z).

(** The least cost. *)
Definition best (s t : list char) (d : Z) : Prop := edits ci cr cd s t d /\ forall k, edits ci cr cd s t k -> d <= k.

Lemma best_unique s t d d' : best s t d -> best s t d' -> d = d'.
Proof. intros [H1 H2] [H3 H4]. specialize (H2 _ H3). specialize (H4 _ H1). lia. Qed.

(** The last operation of a script. *)
Lemma edits_last s t k : edits ci cr cd s t k ->
  (s = [] /\ t = [] /\ k = 0) \/
  (exists t' b k', t = t' ++ [b] /\ k = k' + ci /\ edits ci cr cd s t' k') \/
  (exists s' a k', s = s' ++ [a] /\ k = k' + cd /\ edits ci cr cd s' t k') \/
  exists s' t' a b k', s = s' ++ [a] /\ t = t' ++ [b] /\
    k = k' + (if bool_decide (a = b) then 0 else cr) /\ edits ci cr cd s' t' k'.
Proof.
  intros [|s' t' b k' H|s' t' a k' H|s' t' a k' H|s' t' a b k' Hab H].
  - by left.
  - right; left. eauto 10.
  - right; right; left. eauto 10.
  - do 3 right. exists s', t', a, a, k'. rewrite bool_decide_eq_true_2 by done.
    split; [done|]. split; [done|]. split; [lia|done].
  - do 3 right. exists s', t', a, b, k'. by rewrite bool_decide_eq_false_2.
Qed.

Lemma edits_same_or_rep s t a b k : edits ci cr cd s t k ->
  edits ci cr cd (s ++ [a]) (t ++ [b]) (k + if bool_decide (a = b) then 0 else cr).
Proof.
  intros H. case_bool_decide as E; [|by apply ed_rep].
  subst. rewrite Z.add_0_r. by apply ed_keep.
Qed.

Lemma best_nil_l t : best [] t (Z.of_nat (length t) * ci).
Proof.
  induction t as [|b t [IH IH']] using rev_ind.
  - split; [apply ed_nil|]. intros k H.
    destruct (edits_last _ _ _ H) as [(_ & _ & ->)|[(t' & b & k' & E & _)|[(s' & a & k' & E & _)|(s' & t' & a & b & k' & E & _)]]];
      [done|by destruct t'|by destruct s'|by destruct s'].
  - rewrite length_app. simpl.
    replace (Z.of_nat (length t + 1) * ci) with (Z.of_nat (length t) * ci + ci) by lia.
    split; [by apply ed_ins|]. intros k H.
    destruct (edits_last _ _ _ H) as [(_ & E & _)|[(t' & b' & k' & E & -> & Hk)|[(s' & a & k' & E & _)|(s' & t' & a & b' & k' & E & _)]]].
    + by destruct t.
    + apply app_inj_tail in E as [<- _]. specialize (IH' _ Hk). lia.
    + by destruct s'.
    + by destruct s'.
Qed.

Lemma best_nil_r s : best s [] (Z.of_nat (length s) * cd).
Proof.
  induction s as [|a s [IH IH']] using rev_ind; [apply best_nil_l|].
  rewrite length_app. simpl.
  replace (Z.of_nat (length s + 1) * cd) with (Z.of_nat (length s) * cd + cd) by lia.
  split; [by apply ed_del|]. intros k H.
  destruct (edits_last _ _ _ H) as [(E & _)|[(t' & b' & k' & E & _)|[(s' & a' & k' & E & -> & Hk)|(s' & t' & a' & b' & k' & _ & E & _)]]].
  - by destruct s.
  - by destruct t'.
  - apply app_inj_tail in E as [<- _]. specialize (IH' _ Hk). lia.
  - by destruct t'.
Qed.

Lemma min_of_three a b c :
  (if c <? (if b <? a then b else a) then c else if b <? a then b else a) = Z.min (Z.min a b) c.
Proof. destruct (Z.ltb_spec b a); zcases; lia. Qed.

(** The recurrence of the table. *)
Lemma best_step s t a b d0 d1 d2 :
  best s t d0 -> best s (t ++ [b]) d1 -> best (s ++ [a]) t d2 ->
  best (s ++ [a]) (t ++ [b])
    (Z.min (Z.min (d0 + if bool_decide (a = b) then 0 else cr) (d1 + cd)) (d2 + ci)).
Proof.
  intros [H0 L0] [H1 L1] [H2 L2]. split.
  - destruct (Z.min_spec (Z.min (d0 + if bool_decide (a = b) then 0 else cr) (d1 + cd)) (d2 + ci))
      as [[_ ->]|[_ ->]]; [|by apply ed_ins].
    destruct (Z.min_spec (d0 + if bool_decide (a = b) then 0 else cr) (d1 + cd))
      as [[_ ->]|[_ ->]]; [by apply edits_same_or_rep|by apply ed_del].
  - intros k H.
    destruct (edits_last _ _ _ H) as [(E & _)|[(t' & b' & k' & E & -> & Hk)|[(s' & a' & k' & E & -> & Hk)|(s' & t' & a' & b' & k' & E & E' & -> & Hk)]]].
    + by destruct s.
    + apply app_inj_tail in E as [<- _]. specialize (L2 _ Hk). lia.
    + apply app_inj_tail in E as [<- _]. specialize (L1 _ Hk). lia.
    + apply app_inj_tail in E as [<- <-]. apply app_inj_tail in E' as [<- <-].
      specialize (L0 _ Hk). lia.
Qed.

Lemma edits_bound m s t k : Z.abs ci <= m -> Z.abs cr <= m -> Z.abs cd <= m -> edits ci cr cd s t k ->
  Z.abs k <= (Z.of_nat (length s) + Z.of_nat (length t)) * m.
Proof. intros ? ? ?. induction 1; rewrite ?length_app; simpl; nia. Qed.
End Scripts.

(** ** The table *)

Section Table.
Context (ci cr cd m : Z) (s1 s2 : list char).
Hypothesis Hci : Z.abs ci <= m.
Hypothesis Hcr : Z.abs cr <= m.
Hypothesis Hcd : Z.abs cd <= m.
Hypothesis Hm : (Z.of_nat (length s1) + Z.of_nat (length s2) + 1) * m < 2 ^ 63.

(** The first [n] entries of a row are the distances from the first [i] bytes. *)
Definition row_ok (i n : nat) (p : list Z) : Prop :=
  length p = S (length s2) /\ forall j, (j < n)%nat -> exists d,
    p !! j = Some d /\ best ci cr cd (take i s1) (take j s2) d.

Lemma best_range i j d e : (i <= length s1)%nat -> (j <= length s2)%nat ->
  best ci cr cd (take i s1) (take j s2) d -> Z.abs e <= m -> s64 (d + e) = d + e.
Proof.
  intros Hi Hj [H _] He. apply s64_small.
  pose proof (edits_bound _ _ _ m _ _ _ Hci Hcr Hcd H) as Hb. rewrite !length_take, !Nat.min_l in Hb by lia.
  assert (0 <= m) by lia.
  assert ((Z.of_nat i + Z.of_nat j) * m <= (Z.of_nat (length s1) + Z.of_nat (length s2)) * m)
    by (apply Z.mul_le_mono_nonneg_r; lia).
  lia.
Qed.

Lemma row_set i n p d : row_ok i n p -> (n <= length s2)%nat ->
  best ci cr cd (take i s1) (take n s2) d ->
  exists p', aset p (Z.of_nat n) d = Ok p' /\ row_ok i (S n) p'.
Proof.
  intros [Hl Hr] Hn Hd. rewrite aset_okZ by lia. eexists. split; [done|]. rewrite Nat2Z.id. split.
  - by rewrite length_insert.
  - intros j Hj. destruct (decide (j = n)) as [->|].
    + exists d. by rewrite list_lookup_insert_eq by lia.
    + rewrite list_lookup_insert_ne by done. apply Hr. lia.
Qed.

Lemma row_get i n j p : row_ok i n p -> (j < n)%nat -> exists d,
  aget p (Z.of_nat j) = Ok d /\ best ci cr cd (take i s1) (take j s2) d.
Proof. intros [_ Hr] Hj. destruct (Hr j Hj) as (d & Hd & Hb). exists d. by rewrite (aget_ok _ _ _ Hd). Qed.

Lemma first_row_ok n i2 p : (n + i2 = S (length s2))%nat -> row_ok 0 i2 p ->
  exists p', first_row ci n p (Z.of_nat i2) = Ok p' /\ row_ok 0 (S (length s2)) p'.
Proof.
  revert i2 p. induction n as [|n IH]; intros i2 p Hn Hp; simpl.
  - exists p. split; [done|]. by replace (S (length s2)) with i2 by lia.
  - assert (E : s64 (Z.of_nat i2 * ci) = Z.of_nat i2 * ci) by (apply s64_small; nia).
    rewrite E. destruct (row_set 0 i2 p (Z.of_nat i2 * ci) Hp ltac:(lia)) as (p' & -> & Hp').
    { replace (Z.of_nat i2) with (Z.of_nat (length (take i2 s2))); [apply best_nil_l|].
      rewrite length_take. lia. }
    rsimp. replace (Z.of_nat i2 + 1) with (Z.of_nat (S i2)) by lia. apply IH; [lia|done].
Qed.

Lemma next_row_ok n i c p1 p2 i2 : (i < length s1)%nat -> s1 !! i = Some c ->
  (n + i2 = length s2)%nat -> row_ok i (S (length s2)) p1 -> row_ok (S i) (S i2) p2 ->
  exists p', next_row ci cr cd n c s2 p1 p2 (Z.of_nat i2) = Ok p' /\
    row_ok (S i) (S (length s2)) p'.
Proof.
  intros Hi Hc. revert p2 i2. induction n as [|n IH]; intros p2 i2 Hn Hp1 Hp2; simpl.
  { exists p2. split; [done|]. by replace (length s2) with i2 by lia. }
  destruct (lookup_lt_is_Some_2 s2 i2 ltac:(lia)) as [d Hd].
  destruct (row_get i _ i2 p1 Hp1 ltac:(lia)) as (x & -> & Hx). rsimp.
  rewrite (aget_ok _ _ _ Hd). rsimp.
  replace (Z.of_nat i2 + 1) with (Z.of_nat (S i2)) by lia.
  destruct (row_get i _ (S i2) p1 Hp1 ltac:(lia)) as (y & -> & Hy). rsimp.
  destruct (row_get (S i) _ i2 p2 Hp2 ltac:(lia)) as (z & -> & Hz). rsimp.
  rewrite (best_range i i2 x) by (lia || done || (case_bool_decide; lia)).
  rewrite (best_range i (S i2) y) by (lia || done).
  rewrite (best_range (S i) i2 z) by (lia || done).
  rewrite (take_S_r _ _ _ Hd) in Hy. rewrite (take_S_r _ _ _ Hc) in Hz.
  pose proof (best_step _ _ _ _ _ _ _ _ _ _ Hx Hy Hz) as Hb.
  rewrite <- (take_S_r _ _ _ Hd), <- (take_S_r _ _ _ Hc) in Hb.
  destruct (row_set (S i) (S i2) p2 _ Hp2 ltac:(lia) Hb) as (p' & E & Hp').
  rewrite min_of_three, E. rsimp. apply IH; [lia|done|done].
Qed.

Lemma rows_ok n i1 p1 p2 : (n + i1 = length s1)%nat -> row_ok i1 (S (length s2)) p1 ->
  length p2 = S (length s2) ->
  exists p q, rows ci cr cd n s1 s2 p1 p2 (Z.of_nat i1) = Ok (p, q) /\
    row_ok (length s1) (S (length s2)) p.
Proof.
  revert i1 p1 p2. induction n as [|n IH]; intros i1 p1 p2 Hn Hp1 Hp2; cbn [rows].
  { exists p1, p2. split; [done|]. by replace (length s1) with i1 by lia. }
  destruct (lookup_lt_is_Some_2 s1 i1 ltac:(lia)) as [c Hc].
  destruct (row_get i1 _ 0 p1 Hp1 ltac:(lia)) as (x & Ex & Hx). change (Z.of_nat 0) with 0 in Ex. rewrite Ex. rsimp.
  rewrite (best_range i1 0 x) by (lia || done).
  assert (H0 : best ci cr cd (take (S i1) s1) (take 0 s2) (x + cd)).
  { pose proof (best_nil_r ci cr cd (take i1 s1)) as E.
    rewrite (best_unique _ _ _ _ _ _ _ Hx E). simpl.
    replace (Z.of_nat (length (take i1 s1)) * cd + cd) with (Z.of_nat (length (take (S i1) s1)) * cd)
      by (rewrite !length_take; nia). apply best_nil_r. }
  destruct (row_set (S i1) 0 p2 (x + cd)) as (p2' & E2 & Hp2'); [split; [done|intros; lia]|lia|done|].
  change (Z.of_nat 0) with 0 in E2. rewrite E2. rsimp. rewrite (aget_ok _ _ _ Hc). rsimp.
  destruct (next_row_ok (length s2) i1 c p1 p2' 0 ltac:(lia) Hc ltac:(lia) Hp1 Hp2') as (p' & En & Hp').
  change (Z.of_nat 0) with 0 in En. rewrite En. rsimp. replace (Z.of_nat i1 + 1) with (Z.of_nat (S i1)) by lia.
  apply IH; [lia|done|apply Hp1].
Qed.
End Table.

Lemma levdist_table ci cr cd m s1 s2 junk : Z.abs ci <= m -> Z.abs cr <= m -> Z.abs cd <= m ->
  (Z.of_nat (length s1) + Z.of_nat (length s2) + 1) * m < 2 ^ 63 -> exists d,
  (let! p1 := first_row ci (S (length s2)) (replicate (S (length s2)) junk) 0 in
   let! (p1, _) := rows ci cr cd (length s1) s1 s2 p1 (replicate (S (length s2)) junk) 0 in
   aget p1 (Z.of_nat (length s2))) = Ok d /\ best ci cr cd s1 s2 d.
Proof.
  intros Hci Hcr Hcd Hm.
  assert (Hrep : row_ok ci cr cd s1 s2 0 0 (replicate (S (length s2)) junk))
    by (split; [by rewrite length_replicate|intros; lia]).
  destruct (first_row_ok ci cr cd m s1 s2 Hci Hcr Hcd Hm (S (length s2)) 0 _ ltac:(lia) Hrep) as (p1 & E1 & H1).
  change (Z.of_nat 0) with 0 in E1. rewrite E1. rsimp.
  destruct (rows_ok ci cr cd m s1 s2 Hci Hcr Hcd Hm (length s1) 0 p1 (replicate (S (length s2)) junk))
    as (p & q & E & Hp); [lia|done|by rewrite length_replicate|].
  change (Z.of_nat 0) with 0 in E. rewrite E. rsimp.
  destruct (row_get _ _ _ _ _ _ _ (length s2) p Hp ltac:(lia)) as (d & Ed & Hd).
  exists d. split; [done|]. by rewrite !firstn_all in Hd.
Qed.

(** Where the limit does not apply, the result is the least cost. *)
Lemma levdist_best ci cr cd m s1 s2 junk :
  Z.abs ci <= m -> Z.abs cr <= m -> Z.abs cd <= m ->
  (Z.of_nat (length s1) + Z.of_nat (length s2) + 1) * m < 2 ^ 63 ->
  ~ (s1 <> [] /\ s2 <> [] /\
    (LEVENSHTEIN_MAX_LENGTH < Z.of_nat (length s1) \/ LEVENSHTEIN_MAX_LENGTH < Z.of_nat (length s2))) ->
  exists d, reference_levdist ci cr cd s1 s2 junk = Ok d /\ best ci cr cd s1 s2 d.
Proof.
  intros Hci Hcr Hcd Hm Hlong. unfold reference_levdist.
  assert (Hs : forall n c, (n <= length s1 + length s2)%nat -> Z.abs c <= m ->
    s64 (u64 (Z.of_nat n * c)) = Z.of_nat n * c).
  { intros n c Hn Hc. unfold u64, s64. rewrite Z.add_mod_idemp_l by lia. apply s64_small. nia. }
  destruct s1 as [|a s1'].
  { eexists. rewrite Hs by (simpl; lia). split; [done|]. apply best_nil_l. }
  destruct s2 as [|b s2'].
  { eexists. rewrite (Hs (length (a :: s1')) cd) by (done || lia).
    split; [done|]. apply (best_nil_r ci cr cd (a :: s1')). }
  set (s1 := a :: s1') in *. set (s2 := b :: s2') in *.
  destruct (Z.eqb_spec (Z.of_nat (length s1)) 0) as [E|_]; [unfold s1 in E; simpl in E; lia|].
  destruct (Z.eqb_spec (Z.of_nat (length s2)) 0) as [E|_]; [unfold s2 in E; simpl in E; lia|].
  destruct (Z.ltb_spec LEVENSHTEIN_MAX_LENGTH (Z.of_nat (length s1))) as [H|_]; [destruct Hlong; auto|].
  destruct (Z.ltb_spec LEVENSHTEIN_MAX_LENGTH (Z.of_nat (length s2))) as [H|_]; [destruct Hlong; auto|].
  by apply (levdist_table ci cr cd m).
Qed.

(** ** The distance with unit costs *)

Definition unit_edits : list char -> list char -> Z -> Prop := edits 1 1 1.

Lemma unit_edits_nonneg s t k : unit_edits s t k -> 0 <= k.
Proof. induction 1; lia. Qed.

Lemma unit_edits_refl s : unit_edits s s 0.
Proof. induction s using rev_ind; by constructor. Qed.

Lemma unit_edits_zero s t k : unit_edits s t k -> k = 0 -> s = t.
Proof.
  induction 1 as [|? ? ? ? H|? ? ? ? H| |? ? ? ? ? ? H]; intros E; try done;
    try (apply unit_edits_nonneg in H; lia). by rewrite IHedits.
Qed.

Lemma unit_edits_sym s t k : unit_edits s t k -> unit_edits t s k.
Proof. induction 1; by constructor; auto. Qed.

(** Scripts can be carried out one after the other, at no more than the sum. *)
Lemma unit_edits_trans n s t u k l : (length s + length t + length u <= n)%nat ->
  unit_edits s t k -> unit_edits t u l -> exists j, unit_edits s u j /\ j <= k + l.
Proof.
  revert s t u k l. induction n as [n IH] using lt_wf_ind. intros s t u k l Hn H1 H2.
  assert (Hrec : forall s' t' u' k' l', (length s' + length t' + length u' < n)%nat ->
    unit_edits s' t' k' -> unit_edits t' u' l' -> exists j, unit_edits s' u' j /\ j <= k' + l')
    by (intros; eapply IH; eauto).
  clear IH. destruct (edits_last _ _ _ _ _ _ H2)
    as [(-> & -> & ->)|[(u' & b & l' & -> & -> & H2')|[(t' & a & l' & -> & -> & H2')|(t' & u' & a & b & l' & -> & -> & -> & H2')]]];
    rewrite ?length_app in Hn; simpl in Hn.
  - exists k. split; [done|lia].
  - destruct (Hrec s t u' k l' ltac:(lia) H1 H2') as (j & Hj & ?).
    exists (j + 1). split; [by apply ed_ins|lia].
  - destruct (edits_last _ _ _ _ _ _ H1)
      as [(_ & E & _)|[(t'' & b & k' & E & -> & H1')|[(s' & x & k' & -> & -> & H1')|(s' & t'' & x & b & k' & -> & E & -> & H1')]]];
      try (apply app_inj_tail in E as [<- <-]); rewrite ?length_app in Hn; simpl in Hn.
    + by destruct t'.
    + destruct (Hrec s t' u k' l' ltac:(lia) H1' H2') as (j & Hj & ?). exists j. split; [done|lia].
    + destruct (Hrec s' (t' ++ [a]) u k' (l' + 1)) as (j & Hj & ?);
        [rewrite ?length_app; simpl; lia|done|done|]. exists (j + 1). split; [by apply ed_del|lia].
    + destruct (Hrec s' t' u k' l' ltac:(lia) H1' H2') as (j & Hj & ?).
      exists (j + 1). split; [by apply ed_del|]. case_bool_decide; lia.
  - destruct (edits_last _ _ _ _ _ _ H1)
      as [(_ & E & _)|[(t'' & b' & k' & E & -> & H1')|[(s' & x & k' & -> & -> & H1')|(s' & t'' & x & b' & k' & -> & E & -> & H1')]]];
      try (apply app_inj_tail in E as [<- <-]); rewrite ?length_app in Hn; simpl in Hn.
    + by destruct t'.
    + destruct (Hrec s t' u' k' l' ltac:(lia) H1' H2') as (j & Hj & ?).
      exists (j + 1). split; [by apply ed_ins|]. case_bool_decide; lia.
    + destruct (Hrec s' (t' ++ [a]) (u' ++ [b]) k' (l' + if bool_decide (a = b) then 0 else 1)) as (j & Hj & ?);
        [rewrite ?length_app; simpl; lia|done|done|]. exists (j + 1). split; [by apply ed_del|lia].
    + destruct (Hrec s' t' u' k' l' ltac:(lia) H1' H2') as (j & Hj & ?).
      exists (j + if bool_decide (x = b) then 0 else 1). split; [by apply edits_same_or_rep|].
      repeat case_bool_decide; subst; first [lia | congruence].
Qed.

(** *** Properties *)

(** C21: For strings of at most 255 bytes (or an empty one), and costs that cannot overflow,
    [reference_levdist] returns the least cost of a script of insertions, deletions and replacements
    that turns the first string into the second, whatever the rows held before; for longer
    strings it returns -1. *)
Theorem reference_levdist_correct ci cr cd m s1 s2 junk :
  Z.abs ci <= m -> Z.abs cr <= m -> Z.abs cd <= m ->
  (Z.of_nat (length s1) + Z.of_nat (length s2) + 1) * m < 2 ^ 63 ->
  if bool_decide (s1 <> [] /\ s2 <> [] /\
    (LEVENSHTEIN_MAX_LENGTH < Z.of_nat (length s1) \/ LEVENSHTEIN_MAX_LENGTH < Z.of_nat (length s2)))
  then reference_levdist ci cr cd s1 s2 junk = Ok (-1)
  else exists d, reference_levdist ci cr cd s1 s2 junk = Ok d /\
    edits ci cr cd s1 s2 d /\ forall k, edits ci cr cd s1 s2 k -> d <= k.
Proof.
  intros Hci Hcr Hcd Hm. case_bool_decide as Hlong; [|by apply (levdist_best ci cr cd m)].
  destruct Hlong as (H1 & H2 & H). unfold reference_levdist.
  destruct s1 as [|a s1]; [done|]. destruct s2 as [|b s2]; [done|]. simpl (_ =? 0).
  destruct H as [H|H]; apply Z.ltb_lt in H; rewrite H; [done|by rewrite orb_true_r].
Qed.

Definition kitten : list char := [x6b; x69; x74; x74; x65; x6e]%byte.
Definition sitting : list char := [x73; x69; x74; x74; x69; x6e; x67]%byte.

Lemma reference_levdist_correct_witness :
  exists d, reference_levdist 1 1 1 kitten sitting 77 = Ok d /\ d = 3 /\
    forall k, edits 1 1 1 kitten sitting k -> d <= k.
Proof.
  pose proof (reference_levdist_correct 1 1 1 1 kitten sitting 77 ltac:(lia) ltac:(lia) ltac:(lia)
    eq_refl) as H.
  rewrite bool_decide_eq_false_2 in H by (vm_compute; intuition discriminate).
  destruct H as (d & E & _ & Hd). exists d. split; [exact E|]. split; [|exact Hd].
  vm_compute in E. congruence.
Defined.

(** With two arguments, on strings of at most 255 bytes, [levenshtein] is a metric and gives no
    warning. *)
Theorem levenshtein_metric s t u junk : Z.of_nat (length s) <= 255 -> Z.of_nat (length t) <= 255 ->
  Z.of_nat (length u) <= 255 -> exists st ts tu su,
  levenshtein s t LEV_2 junk = Ok (st, []) /\ levenshtein t s LEV_2 junk = Ok (ts, []) /\
  levenshtein t u LEV_2 junk = Ok (tu, []) /\ levenshtein s u LEV_2 junk = Ok (su, []) /\
  0 <= st /\ (st = 0 <-> s = t) /\ st = ts /\ su <= st + tu.
Proof.
  assert (Hd : forall a b, Z.of_nat (length a) <= 255 -> Z.of_nat (length b) <= 255 -> exists d,
    levenshtein a b LEV_2 junk = Ok (d, []) /\ best 1 1 1 a b d).
  { intros a b Ha Hb.
    destruct (levdist_best 1 1 1 1 a b junk) as (d & E & He); [lia..|unfold LEVENSHTEIN_MAX_LENGTH; lia|].
    exists d. unfold levenshtein. rewrite E. rsimp.
    pose proof (unit_edits_nonneg _ _ _ (proj1 He)). destruct (Z.ltb_spec d 0); [lia|]. done. }
  intros Hs Ht Hu. destruct (Hd s t Hs Ht) as (st & E1 & [H1 L1]), (Hd t s Ht Hs) as (ts & E2 & [H2 L2]),
    (Hd t u Ht Hu) as (tu & E3 & [H3 L3]), (Hd s u Hs Hu) as (su & E4 & [H4 L4]).
  exists st, ts, tu, su. do 4 (split; [done|]). split; [by eapply unit_edits_nonneg|]. split; [|split].
  - split; [by apply unit_edits_zero|]. intros ->. pose proof (L1 _ (unit_edits_refl t)).
    pose proof (unit_edits_nonneg _ _ _ H1). lia.
  - pose proof (L1 _ (unit_edits_sym _ _ _ H2)). pose proof (L2 _ (unit_edits_sym _ _ _ H1)). lia.
  - destruct (unit_edits_trans _ s t u st tu (le_n _) H1 H3) as (j & Hj & ?).
    pose proof (L4 _ Hj). lia.
Qed.

(** Negative costs make the caller report strings that are too long. *)
Example negative_costs_warn :
  levenshtein [x61]%byte [x62]%byte (LEV_5 1 (-1) 1) 0 = Ok (-1, [STRINGS_TOO_LONG]).
Proof. reflexivity. Qed.

(** An empty string is not subject to the limit. *)
Example empty_is_not_limited :
  levenshtein [] (replicate 300 x61%byte) LEV_2 0 = Ok (300, []).
Proof. vm_compute. reflexivity. Qed.
