(* ===== verification/Increment.v ===== *)
(** * The increment of strings: [increment_string]
    ([Zend/zend_operators.c])

    [++] on a string that is not a number counts its last letters and digits
    up, each in its own alphabet, as in ["Az"], ["zZ9"], ["a-9"].  The
    function works on a copy unless the string is not shared; the model has
    the bytes before and after. *)
From Stdlib Require Import Strings.Byte.
From S2P Require Export StrCmp Numeric.

Inductive last_class := NUMERIC | UPPER_CASE | LOWER_CASE.

#[export] Instance last_class_eq_dec : EqDecision last_class.
Proof. solve_decision. Defined.

(** The tests of the loop, on [ch] as an [int]. *)
Definition class_of (ch : Z) : option last_class :=
  if (97 <=? ch) && (ch <=? 122) then Some LOWER_CASE
  else if (65 <=? ch) && (ch <=? 90) then Some UPPER_CASE
  else if (48 <=? ch) && (ch <=? 57) then Some NUMERIC
  else None.

(** The first and the last character of a class. *)
Definition class_min (k : last_class) : Z :=
  match k with LOWER_CASE => 97 | UPPER_CASE => 65 | NUMERIC => 48 end.
Definition class_max (k : last_class) : Z :=
  match k with LOWER_CASE => 122 | UPPER_CASE => 90 | NUMERIC => 57 end.

(** [do .. while (pos-- > 0)]: the string, [carry] and [last]. *)
Fixpoint increment_loop (s : list char) (pos : nat) (last : last_class) {struct pos}
    : res (list char * bool * last_class) :=
  let! c := aget s (Z.of_nat pos) in
  let ch := schar c in
  match class_of ch with
  | None => Ok (s, false, last)
  | Some k =>
      if ch =? class_max k then
        let! s := aset s (Z.of_nat pos) (char_of (class_min k)) in
        match pos with
        | O => Ok (s, true, k)
        | S pos => increment_loop s pos k
        end
      else
        let! s := aset s (Z.of_nat pos) (char_of (ch + 1)) in
        Ok (s, false, k)
  end.

(** The character put in front when the carry leaves the string. *)
Definition carry_char (last : last_class) : char :=
  match last with NUMERIC => x31 | UPPER_CASE => x41 | LOWER_CASE => x61 end.

Definition increment_string (s : list char) : res (list char) :=
  match s with
  | [] => Ok [x31]
  | _ =>
      let! (s, carry, last) := increment_loop s (length s - 1) NUMERIC in
      Ok (if carry : bool then carry_char last :: s else s)
  end.

(** ** What it counts *)

Definition class (c : char) : option last_class := class_of (schar c).

(** The number of characters of the class of [c], and the place of [c] among them. *)
Definition radix (c : char) : Z :=
  match class c with Some k => class_max k - class_min k + 1 | None => 1 end.
Definition place (c : char) : Z :=
  match class c with Some k => schar c - class_min k | None => 0 end.

(** A text of letters and digits as a number whose digits have the radix of
    their class, and how many such texts there are. *)
Definition value (t : list char) : Z := foldl (fun v c => v * radix c + place c) 0 t.
Definition texts (t : list char) : Z := foldl (fun v c => v * radix c) 1 t.

Definition alnum (c : char) : bool := isSome (class c).

(** The class of the first character. *)
Definition head_class (t : list char) : last_class :=
  match t with
  | [] => NUMERIC
  | c :: _ => match class c with Some k => k | None => NUMERIC end
  end.

(** ** Facts *)

(** All that is needed of a byte, checked for each of them. *)
Definition byte_check (c : char) : bool :=
  match class c with
  | None => true
  | Some k =>
      (class_min k <=? schar c) && (schar c <=? class_max k)
      && bool_decide (class (char_of (class_min k)) = Some k) && (place (char_of (class_min k)) =? 0)
      && ((class_max k <=? schar c)
          || bool_decide (class (char_of (schar c + 1)) = Some k)
             && (place (char_of (schar c + 1)) =? place c + 1))
  end.

Lemma byte_checked c : byte_check c = true.
Proof. destruct c; reflexivity. Qed.

Lemma class_char c k : class c = Some k ->
  class_min k <= schar c <= class_max k /\
  class (char_of (class_min k)) = Some k /\ place (char_of (class_min k)) = 0 /\
  (schar c < class_max k -> class (char_of (schar c + 1)) = Some k /\
     place (char_of (schar c + 1)) = place c + 1).
Proof.
  intros E. pose proof (byte_checked c) as H. unfold byte_check in H. rewrite E in H.
  apply andb_prop in H as [H H4]. apply andb_prop in H as [H H3].
  apply andb_prop in H as [H H2]. apply bool_decide_eq_true in H2. zbool.
  split; [lia|]. split; [done|]. split; [lia|]. intros Hlt.
  apply orb_prop in H4 as [H4|H4]; [zbool; lia|].
  apply andb_prop in H4 as [H4 H5]. apply bool_decide_eq_true in H4. zbool. done.
Qed.

Lemma radix_class c d : class c = class d -> radix c = radix d.
Proof. unfold radix. by intros ->. Qed.

Lemma place_range c : 0 <= place c < radix c.
Proof.
  unfold place, radix. destruct (class c) as [k|] eqn:E; [|lia].
  destruct (class_char c k E) as (H & _). lia.
Qed.

Lemma value_snoc t c : value (t ++ [c]) = value t * radix c + place c.
Proof. unfold value. by rewrite foldl_app. Qed.

Lemma texts_snoc t c : texts (t ++ [c]) = texts t * radix c.
Proof. unfold texts. by rewrite foldl_app. Qed.

Lemma value_range t : 0 <= value t < texts t.
Proof.
  induction t as [|c t IH] using rev_ind; [done|]. rewrite value_snoc, texts_snoc.
  pose proof (place_range c). nia.
Qed.

Lemma texts_classes t u : Forall2 (fun c d => class c = class d) t u -> texts t = texts u.
Proof.
  unfold texts. generalize 1. intros v H. revert v.
  induction H as [|c d t u Hc _ IH]; intros v; simpl; [done|]. by rewrite (radix_class c d Hc).
Qed.

Lemma aget_mid {A} (p w : list A) c : aget (p ++ c :: w) (Z.of_nat (length p)) = Ok c.
Proof. apply aget_ok. by rewrite lookup_app_r, Nat.sub_diag. Qed.

Lemma aset_mid {A} (p w : list A) c d : aset (p ++ c :: w) (Z.of_nat (length p)) d = Ok (p ++ d :: w).
Proof.
  rewrite aset_ok by (rewrite length_app; simpl; lia).
  by rewrite insert_app_r_alt, Nat.sub_diag by done.
Qed.

(** One step of the loop, at the last character of [p ++ t ++ [c]]. *)
Lemma increment_loop_step p c w k k0 n : class c = Some k -> n = length p ->
  increment_loop (p ++ c :: w) n k0 =
  if schar c =? class_max k then
    match n with
    | O => Ok (p ++ char_of (class_min k) :: w, true, k)
    | S n => increment_loop (p ++ char_of (class_min k) :: w) n k
    end
  else Ok (p ++ char_of (schar c + 1) :: w, false, k).
Proof.
  intros Ek ->. unfold class in Ek.
  destruct (length p) eqn:El; cbn [increment_loop]; rewrite <- El, aget_mid; rsimp;
    rewrite Ek, !aset_mid; rsimp; done.
Qed.

Lemma increment_loop_stop p c w k0 : class c = None ->
  increment_loop (p ++ c :: w) (length p) k0 = Ok (p ++ c :: w, false, k0).
Proof.
  intros Ek. unfold class in Ek.
  destruct (length p) eqn:El; cbn [increment_loop]; rewrite <- El, aget_mid; rsimp; by rewrite Ek.
Qed.

Abbreviation same_classes := (Forall2 (fun c d => class c = class d)).

Lemma same_classes_refl t : same_classes t t.
Proof. induction t; by constructor. Qed.

(** Counting up the letters and digits [t] between [p] and [w], where [p] is
    empty or ends in another character. *)
Lemma increment_loop_spec p t w k0 :
  forallb alnum t = true -> (forall p' c, p = p' ++ [c] -> alnum c = false) -> t <> [] ->
  exists t' k, same_classes t t' /\ value t' = (value t + 1) mod texts t /\
  increment_loop (p ++ t ++ w) (length p + length t - 1) k0 =
    Ok (p ++ t' ++ w, bool_decide (p = [] /\ value t + 1 = texts t), k) /\
  (value t + 1 = texts t -> p = [] -> k = head_class t).
Proof.
  intros Ht Hp. revert w k0. induction t as [|c t IH] using rev_ind; intros w k0; [done|]. intros _.
  rewrite forallb_app in Ht. apply andb_prop in Ht as [Ht Hc]. cbn [forallb] in Hc.
  rewrite andb_true_r in Hc. unfold alnum in Hc.
  destruct (class c) as [k|] eqn:Ek; [|done]. destruct (class_char c k Ek) as (Hr & Hmin & Hpmin & Hsucc).
  pose proof (value_range t) as Hv. pose proof (place_range c) as Hplr.
  assert (Hrad : radix c = class_max k - class_min k + 1) by (unfold radix; by rewrite Ek).
  assert (Hpl : place c = schar c - class_min k) by (unfold place; by rewrite Ek).
  rewrite value_snoc, texts_snoc. rewrite length_app. cbn [length].
  replace (length p + (length t + 1) - 1)%nat with (length (p ++ t)) by (rewrite length_app; lia).
  rewrite <- (app_assoc t). cbn [app]. rewrite (app_assoc p t), (increment_loop_step _ c w k) by done.
  destruct (Z.eqb_spec (schar c) (class_max k)) as [Emax|Emax].
  2: { (* no carry *)
    destruct (Hsucc ltac:(lia)) as [Hk Hpl'].
    exists (t ++ [char_of (schar c + 1)]), k. split; [|split; [|split]].
    - apply Forall2_app; [apply same_classes_refl|]. constructor; [by rewrite Hk|constructor].
    - rewrite value_snoc, Hpl', Z.mod_small by nia.
      rewrite <- (radix_class c) by (by rewrite Hk). lia.
    - rewrite bool_decide_eq_false_2 by (intros [_ H]; nia). by rewrite <- !app_assoc.
    - intros H. nia. }
  assert (Hrest : exists t' k', same_classes t t' /\ value t' = (value t + 1) mod texts t /\
    match length (p ++ t) with
    | O => Ok ((p ++ t) ++ char_of (class_min k) :: w, true, k)
    | S n => increment_loop ((p ++ t) ++ char_of (class_min k) :: w) n k
    end = Ok (p ++ t' ++ char_of (class_min k) :: w, bool_decide (p = [] /\ value t + 1 = texts t), k') /\
    (value t + 1 = texts t -> p = [] -> k' = head_class (t ++ [c]))).
  { destruct t as [|c0 t0].
    - exists [], k. split; [constructor|]. split; [done|]. rewrite app_nil_r. cbn [head_class app].
      rewrite Ek. split; [|done]. destruct p as [|d p0] eqn:Ep using rev_ind; [done|].
      rewrite length_app, Nat.add_comm. cbn [length Nat.add]. rewrite <- app_assoc. cbn [app].
      rewrite increment_loop_stop; [rewrite bool_decide_eq_false_2; [done|]; intros [H _]; by destruct p0|].
      specialize (Hp p0 d eq_refl). unfold alnum in Hp. by destruct (class d).
    - destruct (IH Ht (char_of (class_min k) :: w) k ltac:(done)) as (t' & k' & Hs & Hvt & Hl & Hk).
      exists t', k'. split; [done|]. split; [done|]. split; [|done].
      rewrite <- Hl, <- app_assoc. rewrite length_app.
      replace (length p + length (c0 :: t0))%nat with (S (length p + length (c0 :: t0) - 1)) by (simpl; lia).
      cbn [Nat.sub]. by rewrite Nat.sub_0_r. }
  destruct Hrest as (t' & k' & Hs & Hvt & -> & Hk).
  exists (t' ++ [char_of (class_min k)]), k'.
  assert (Hiff : value t * radix c + place c + 1 = texts t * radix c <-> value t + 1 = texts t) by nia.
  split; [|split; [|split]].
  - apply Forall2_app; [done|]. constructor; [by rewrite Hmin|constructor].
  - rewrite value_snoc, Hpmin, Z.add_0_r, Hvt, <- (radix_class c) by (by rewrite Hmin).
    rewrite <- Z.mul_mod_distr_r by lia. f_equal. lia.
  - rewrite <- app_assoc. repeat f_equal. apply bool_decide_ext. by rewrite Hiff.
  - rewrite Hiff. exact Hk.
Qed.

(** Among the texts with given classes, the value determines the text. *)
Lemma value_inj t u : forallb alnum t = true -> same_classes t u -> value t = value u -> t = u.
Proof.
  intros Ha Hs. revert Ha. induction t as [|c t IH] using rev_ind in u, Hs |- *; intros Ha Hv.
  { by apply Forall2_nil_inv_l in Hs. }
  apply Forall2_app_inv_l in Hs as (u0 & u1 & Hs & Hc & ->).
  apply Forall2_cons_inv_l in Hc as (d & u2 & Hc & Hn & ->). apply Forall2_nil_inv_l in Hn as ->.
  rewrite forallb_app in Ha. apply andb_prop in Ha as [Ha Hac]. cbn [forallb] in Hac.
  rewrite !value_snoc, (radix_class c d Hc) in Hv.
  pose proof (place_range c). pose proof (place_range d). rewrite (radix_class c d Hc) in *.
  destruct (Z.div_mod_unique (radix d) (value t) (value u0) (place c) (place d)) as [E1 E2]; [lia..|].
  rewrite (IH u0 Hs Ha E1). f_equal. f_equal. apply schar_uchar.
  unfold place, alnum in *. rewrite <- Hc in *. destruct (class c); [lia|done].
Qed.

(** *** Properties *)

(** C37: The last letters and digits [t] of a string are counted up by one, as a
    number written with the characters of their classes; when they were at the
    last one, a character is put in front if they are the whole string, and
    otherwise the carry is dropped.  A string that ends in another character
    does not change, and the empty string becomes ["1"]. *)
Theorem increment_string_correct p t :
  forallb alnum t = true -> (forall p' c, p = p' ++ [c] -> alnum c = false) ->
  exists t', same_classes t t' /\ value t' = (value t + 1) mod texts t /\
  increment_string (p ++ t) =
    Ok (if decide (p = [] /\ value t + 1 = texts t) then carry_char (head_class t) :: t' else p ++ t').
Proof.
  intros Ha Hp. destruct (decide (t = [])) as [->|Ht].
  - exists []. split; [constructor|]. split; [done|]. rewrite app_nil_r.
    destruct p as [|d p0] eqn:Ep using rev_ind; [by rewrite decide_True|].
    rewrite decide_False by (intros [H _]; by destruct p0). unfold increment_string.
    specialize (Hp p0 d eq_refl). unfold alnum in Hp. destruct (class d) eqn:Ed; [done|].
    destruct (p0 ++ [d]) as [|c s] eqn:Es; [by destruct p0|]. rewrite <- Es, length_app. cbn [length].
    rewrite Nat.add_sub, increment_loop_stop by done. done.
  - destruct (increment_loop_spec p t [] NUMERIC Ha Hp Ht) as (t' & k & Hs & Hv & Hl & Hk).
    exists t'. split; [done|]. split; [done|]. rewrite !app_nil_r, <- length_app in Hl.
    unfold increment_string. destruct (p ++ t) as [|c s] eqn:E; [by destruct p|]. rewrite Hl. rsimp.
    destruct (decide _) as [[-> Hc]|Hn].
    + rewrite bool_decide_eq_true_2 by done. by rewrite Hk.
    + by rewrite bool_decide_eq_false_2.
Qed.

(** *** Witnesses *)

(** ["zZ9"] is followed by ["aaA0"], and ["a-z9"] by ["a-a0"]. *)
Lemma increment_string_correct_witness :
  exists t', same_classes [x7a; x5a; x39] t' /\
  value t' = (value [x7a; x5a; x39] + 1) mod texts [x7a; x5a; x39] /\
  increment_string ([] ++ [x7a; x5a; x39]) =
    Ok (if decide ([] = @nil char /\ value [x7a; x5a; x39] + 1 = texts [x7a; x5a; x39])
        then carry_char (head_class [x7a; x5a; x39]) :: t' else [] ++ t').
Proof.
  apply (increment_string_correct [] [x7a; x5a; x39]); [reflexivity | intros p' c H; destruct p'; discriminate].
Defined.

Example increment_carry : increment_string [x7a; x5a; x39] = Ok [x61; x61; x41; x30].
Proof. reflexivity. Qed.

Example increment_dropped : increment_string [x61; x2d; x7a; x39] = Ok [x61; x2d; x61; x30].
Proof. reflexivity. Qed.
