(* ===== verification/Operators.v ===== *)
(** * Arithmetic of numbers ([Zend/zend_operators.c], [Zend/zend_operators.h],
    [Zend/zend_multiply.h])

    The operators on operands that are numbers: the first cases of the
    [switch (TYPE_PAIR(..))] of each operator, and what follows the conversion
    of the operands to integers in the integer operators.  Conversions of
    other operands are not modelled.  A [double] is a binary64 number of the
    Standard Library; [pow] of the C library is an argument. *)
From Stdlib Require Import Floats.SpecFloat.
From S2P Require Export Prelude.

(** A [zval] of type [IS_LONG] or [IS_DOUBLE]. *)
Inductive number :=
| Long (lval : Z)
| Double (dval : spec_float).

Definition double_of_long (z : Z) : spec_float := binary_normalize 53 1024 z 0 false.
Definition dadd : spec_float -> spec_float -> spec_float := SFadd 53 1024.
Definition dsub : spec_float -> spec_float -> spec_float := SFsub 53 1024.
Definition dmul : spec_float -> spec_float -> spec_float := SFmul 53 1024.
Definition ddiv : spec_float -> spec_float -> spec_float := SFdiv 53 1024.

(** [(double) n] of an operand. *)
Definition to_dval (n : number) : spec_float :=
  match n with Long l => double_of_long l | Double d => d end.

Definition LONG_SIGN_MASK : Z := - 2 ^ 63.

(** ** Addition and subtraction *)
Definition fast_long_add_function (op1 op2 : Z) : number :=
  let sum := s64 (op1 + op2) in
  if (Z.land op1 LONG_SIGN_MASK =? Z.land op2 LONG_SIGN_MASK)
     && negb (Z.land op1 LONG_SIGN_MASK =? Z.land sum LONG_SIGN_MASK)
  then Double (dadd (double_of_long op1) (double_of_long op2))
  else Long sum.

(** Which operand, if any, [result] is: the portable subtraction writes the
    result before it has read the operands for the last time. *)
Inductive alias := Separate | IsOp1 | IsOp2.

Definition fast_long_sub_function (result_is : alias) (op1 op2 : Z) : number :=
  let result := s64 (op1 - op2) in
  let op1 := match result_is with IsOp1 => result | _ => op1 end in
  let op2 := match result_is with IsOp2 => result | _ => op2 end in
  if negb (Z.land op1 LONG_SIGN_MASK =? Z.land op2 LONG_SIGN_MASK)
     && negb (Z.land op1 LONG_SIGN_MASK =? Z.land result LONG_SIGN_MASK)
  then Double (dsub (double_of_long op1) (double_of_long op2))
  else Long result.

Definition fast_long_increment_function (op1 : Z) : number :=
  if op1 =? ZEND_LONG_MAX then Double (dadd (double_of_long ZEND_LONG_MAX) (double_of_long 1))
  else Long (op1 + 1).

Definition fast_long_decrement_function (op1 : Z) : number :=
  if op1 =? ZEND_LONG_MIN then Double (dsub (double_of_long ZEND_LONG_MIN) (double_of_long 1))
  else Long (op1 - 1).

Definition add_function (op1 op2 : number) : number :=
  match op1, op2 with
  | Long l1, Long l2 => fast_long_add_function l1 l2
  | Long l1, Double d2 => Double (dadd (double_of_long l1) d2)
  | Double d1, Long l2 => Double (dadd d1 (double_of_long l2))
  | Double d1, Double d2 => Double (dadd d1 d2)
  end.

Definition sub_function (result_is : alias) (op1 op2 : number) : number :=
  match op1, op2 with
  | Long l1, Long l2 => fast_long_sub_function result_is l1 l2
  | Long l1, Double d2 => Double (dsub (double_of_long l1) d2)
  | Double d1, Long l2 => Double (dsub d1 (double_of_long l2))
  | Double d1, Double d2 => Double (dsub d1 d2)
  end.

Definition increment_function (op1 : number) : number :=
  match op1 with
  | Long l => fast_long_increment_function l
  | Double d => Double (dadd d (double_of_long 1))
  end.

Definition decrement_function (op1 : number) : number :=
  match op1 with
  | Long l => fast_long_decrement_function l
  | Double d => Double (dsub d (double_of_long 1))
  end.

(** ** Multiplication and powers *)

(** [__builtin_smull_overflow]: [None] when the product overflows. *)
Definition smull_overflow (a b : Z) : option Z :=
  if (ZEND_LONG_MIN <=? a * b) && (a * b <=? ZEND_LONG_MAX) then Some (a * b) else None.

(** [Long] with [lval], or [Double] with [dval] when [usedval] is set. *)
Definition ZEND_SIGNED_MULTIPLY_LONG (a b : Z) : number :=
  match smull_overflow a b with
  | Some lval => Long lval
  | None => Double (dmul (double_of_long a) (double_of_long b))
  end.

Definition mul_function (op1 op2 : number) : number :=
  match op1, op2 with
  | Long l1, Long l2 => ZEND_SIGNED_MULTIPLY_LONG l1 l2
  | Long l1, Double d2 => Double (dmul (double_of_long l1) d2)
  | Double d1, Long l2 => Double (dmul d1 (double_of_long l2))
  | Double d1, Double d2 => Double (dmul d1 d2)
  end.

Section Pow.
Context (pow : spec_float -> spec_float -> spec_float).

(** [while (i >= 1) ..] *)
Fixpoint pow_loop (fuel : nat) (l1 l2 i : Z) {struct fuel} : res number :=
  match fuel with
  | O => Err OutOfFuel
  | S fuel =>
      if 1 <=? i then
        if negb (Z.rem i 2 =? 0) then
          let i := i - 1 in
          match ZEND_SIGNED_MULTIPLY_LONG l1 l2 with
          | Long l1 => pow_loop fuel l1 l2 i
          | Double dval => Ok (Double (dmul dval (pow (double_of_long l2) (double_of_long i))))
          end
        else
          let i := Z.quot i 2 in
          match ZEND_SIGNED_MULTIPLY_LONG l2 l2 with
          | Long l2 => pow_loop fuel l1 l2 i
          | Double dval => Ok (Double (dmul (double_of_long l1) (pow dval (double_of_long i))))
          end
      else Ok (Long l1)
  end.

Definition pow_function (op1 op2 : number) : res number :=
  match op1, op2 with
  | Long l, Long i =>
      if 0 <=? i then
        if i =? 0 then Ok (Long 1)
        else if l =? 0 then Ok (Long 0)
        else pow_loop 128 1 l i
      else Ok (Double (pow (double_of_long l) (double_of_long i)))
  | _, _ => Ok (Double (pow (to_dval op1) (to_dval op2)))
  end.
End Pow.

(** ** Division *)

(** [d == 0] *)
Definition is_zero (d : spec_float) : bool := SFeqb d (double_of_long 0).

(** The result, and whether the warning "Division by zero" was raised. *)
Definition div_function (op1 op2 : number) : number * bool :=
  match op1, op2 with
  | Long l1, Long l2 =>
      if l2 =? 0 then (Double (ddiv (double_of_long l1) (double_of_long l2)), true)
      else if (l2 =? -1) && (l1 =? ZEND_LONG_MIN) then
        (Double (ddiv (double_of_long ZEND_LONG_MIN) (double_of_long (-1))), false)
      else if Z.rem l1 l2 =? 0 then (Long (Z.quot l1 l2), false)
      else (Double (ddiv (double_of_long l1) (double_of_long l2)), false)
  | Double d1, Long l2 => (Double (ddiv d1 (double_of_long l2)), l2 =? 0)
  | Long l1, Double d2 => (Double (ddiv (double_of_long l1) d2), is_zero d2)
  | Double d1, Double d2 => (Double (ddiv d1 d2), is_zero d2)
  end.

(** ** The integer operators, once their operands are integers *)

Inductive arith_error := DivisionByZeroError | ArithmeticError.

Definition mod_function (op1_lval op2_lval : Z) : Z + arith_error :=
  if op2_lval =? 0 then inr DivisionByZeroError
  else if op2_lval =? -1 then inl 0
  else inl (Z.rem op1_lval op2_lval).

Definition shift_left_function (op1_lval op2_lval : Z) : Z + arith_error :=
  if 64 <=? u64 op2_lval then
    if 0 <? op2_lval then inl 0 else inr ArithmeticError
  else inl (s64 (Z.shiftl op1_lval op2_lval)).

Definition shift_right_function (op1_lval op2_lval : Z) : Z + arith_error :=
  if 64 <=? u64 op2_lval then
    if 0 <? op2_lval then inl (if op1_lval <? 0 then -1 else 0) else inr ArithmeticError
  else inl (Z.shiftr op1_lval op2_lval).

(** ** Facts *)
Definition is_long (z : Z) : Prop := ZEND_LONG_MIN <= z <= ZEND_LONG_MAX.

#[export] Instance is_long_dec z : Decision (is_long z).
Proof. unfold is_long. apply _. Defined.

(** The sign bit of a [zend_long]. *)
Lemma sign_bit z : is_long z -> Z.land z LONG_SIGN_MASK = if z <? 0 then LONG_SIGN_MASK else 0.
Proof.
  unfold is_long, ZEND_LONG_MIN, ZEND_LONG_MAX, LONG_SIGN_MASK. intros H.
  change (- 2 ^ 63) with (Z.lnot (Z.ones 63)).
  rewrite <- Z.ldiff_land, Z.ldiff_ones_r, Z.shiftr_div_pow2, Z.shiftl_mul_pow2 by lia.
  destruct (Z.ltb_spec z 0).
  - replace (z / 2 ^ 63) with (-1); [done|]. apply (Z.div_unique z (2 ^ 63) (-1) (z + 2 ^ 63)); lia.
  - rewrite Z.div_small by lia. done.
Qed.

Lemma s64_long z : is_long (s64 z).
Proof. unfold is_long, ZEND_LONG_MIN, ZEND_LONG_MAX. pose proof (s64_range z). lia. Qed.

Lemma s64_over z : 2 ^ 63 <= z < 3 * 2 ^ 63 -> s64 z = z - 2 ^ 64.
Proof.
  intros H. unfold s64. replace (z + 2 ^ 63) with (z - 2 ^ 64 + 2 ^ 63 + 1 * 2 ^ 64) by lia.
  rewrite Z.mod_add, Z.mod_small; lia.
Qed.

Lemma s64_under z : - 3 * 2 ^ 63 <= z < - 2 ^ 63 -> s64 z = z + 2 ^ 64.
Proof.
  intros H. unfold s64. replace (z + 2 ^ 63) with (z + 2 ^ 64 + 2 ^ 63 + (-1) * 2 ^ 64) by lia.
  rewrite Z.mod_add, Z.mod_small; lia.
Qed.

(** ** Overflow *)

Ltac longs :=
  unfold is_long, ZEND_LONG_MIN, ZEND_LONG_MAX, LONG_SIGN_MASK in *.

(** The signs of two operands and of a result, in a goal about sign bits. *)
Ltac by_signs a b :=
  destruct (Z.ltb_spec a 0), (Z.ltb_spec b 0);
  match goal with |- context [?c <? 0] => destruct (Z.ltb_spec c 0) end;
  first [lia | reflexivity].

(** The tests on the sign bits detect exactly the overflow. *)
Lemma fast_long_add_spec a b : is_long a -> is_long b ->
  fast_long_add_function a b =
  if decide (is_long (a + b)) then Long (a + b)
  else Double (dadd (double_of_long a) (double_of_long b)).
Proof.
  intros Ha Hb. unfold fast_long_add_function.
  rewrite (sign_bit a Ha), (sign_bit b Hb), (sign_bit _ (s64_long _)).
  destruct (Z.lt_ge_cases (a + b) (2 ^ 63)), (Z.lt_ge_cases (a + b) (- 2 ^ 63)); longs.
  - rewrite (s64_under (a + b)) by lia. rewrite decide_False by lia. by_signs a b.
  - rewrite (s64_small (a + b)) by lia. rewrite decide_True by lia. by_signs a b.
  - lia.
  - rewrite (s64_over (a + b)) by lia. rewrite decide_False by lia. by_signs a b.
Qed.

Lemma fast_long_sub_spec a b : is_long a -> is_long b ->
  fast_long_sub_function Separate a b =
  if decide (is_long (a - b)) then Long (a - b)
  else Double (dsub (double_of_long a) (double_of_long b)).
Proof.
  intros Ha Hb. unfold fast_long_sub_function.
  rewrite (sign_bit a Ha), (sign_bit b Hb), (sign_bit _ (s64_long _)).
  destruct (Z.lt_ge_cases (a - b) (2 ^ 63)), (Z.lt_ge_cases (a - b) (- 2 ^ 63)); longs.
  - rewrite (s64_under (a - b)) by lia. rewrite decide_False by lia. by_signs a b.
  - rewrite (s64_small (a - b)) by lia. rewrite decide_True by lia. by_signs a b.
  - lia.
  - rewrite (s64_over (a - b)) by lia. rewrite decide_False by lia. by_signs a b.
Qed.

(** When the result is one of the operands, the portable code misses an
    overflow, or takes a result for one. *)
Lemma sub_into_operand :
  fast_long_sub_function IsOp1 ZEND_LONG_MIN 1 = Long ZEND_LONG_MAX /\
  fast_long_sub_function IsOp2 1 2 = Double (double_of_long 2).
Proof. split; reflexivity. Qed.

Lemma multiply_spec a b :
  ZEND_SIGNED_MULTIPLY_LONG a b =
  if decide (is_long (a * b)) then Long (a * b)
  else Double (dmul (double_of_long a) (double_of_long b)).
Proof.
  unfold ZEND_SIGNED_MULTIPLY_LONG, smull_overflow. longs.
  zcases; simpl; try lia; first [exfalso; lia | rewrite decide_True by lia | rewrite decide_False by lia]; done.
Qed.

(** ** Powers *)

(** A power grows with its exponent, in absolute value. *)
Lemma abs_pow_ge a n : a <> 0 -> 1 <= n -> Z.abs a <= Z.abs (a ^ n).
Proof.
  intros Ha Hn. rewrite Z.abs_pow.
  rewrite <- (Z.pow_1_r (Z.abs a)) at 1. apply Z.pow_le_mono_r; lia.
Qed.

Lemma not_long_abs z : ~ is_long z -> 2 ^ 63 <= Z.abs z.
Proof. longs. lia. Qed.

(** A factor that overflows makes the product overflow, except for [2 ^ 63]
    itself, which a negative factor brings back. *)
Lemma product_overflows a b : 2 ^ 63 < Z.abs a -> b <> 0 -> ~ is_long (a * b).
Proof.
  intros Ha Hb H. assert (Z.abs a * 1 <= Z.abs a * Z.abs b) by (apply Z.mul_le_mono_nonneg_l; lia).
  rewrite <- Z.abs_mul in *. longs. lia.
Qed.

Lemma square_not_2_63 a : a * a <> 2 ^ 63.
Proof.
  intros H. rewrite <- Z.abs_square in H. pose proof (Z.abs_nonneg a).
  destruct (Z.le_gt_cases (Z.abs a) 3037000499) as [Ha|Ha].
  - pose proof (Z.mul_le_mono_nonneg _ _ _ _ H0 Ha H0 Ha). lia.
  - assert (Hb : 3037000500 <= Z.abs a) by lia.
    pose proof (Z.mul_le_mono_nonneg 3037000500 _ 3037000500 _ ltac:(lia) Hb ltac:(lia) Hb). lia.
Qed.

(** The two ways in which the loop gives up: the power does not fit. *)
Lemma odd_step_overflows l1 l2 i : ~ is_long (l1 * l2) -> l2 <> 0 -> 1 <= i -> i mod 2 = 1 ->
  ~ is_long (l1 * l2 ^ i).
Proof.
  intros Ho H2 Hi Hodd. replace i with (Z.succ (i - 1)) by lia.
  rewrite Z.pow_succ_r, Z.mul_assoc by lia.
  assert (Hpos : 0 < l2 ^ (i - 1)).
  { assert (Hev : Z.Even (i - 1)) by (exists (i / 2); pose proof (Z.div_mod i 2); lia).
    rewrite Z.pow_even_abs by done. apply Z.pow_pos_nonneg; lia. }
  destruct (Z.eq_dec (l1 * l2) (2 ^ 63)) as [E|E].
  - rewrite E. longs. nia.
  - apply product_overflows; [|lia]. longs. lia.
Qed.

Lemma even_step_overflows l1 l2 i : ~ is_long (l2 * l2) -> l1 <> 0 -> l2 <> 0 -> 1 <= i ->
  ~ is_long (l1 * (l2 * l2) ^ i).
Proof.
  intros Ho H1 H2 Hi. replace i with (Z.succ (i - 1)) by lia.
  rewrite Z.pow_succ_r, Z.mul_assoc, (Z.mul_comm l1), <- Z.mul_assoc by lia.
  apply product_overflows.
  - pose proof (not_long_abs _ Ho). pose proof (square_not_2_63 l2).
    pose proof (Z.square_nonneg l2). lia.
  - apply Z.neq_mul_0. split; [done|]. apply Z.pow_nonzero; [|lia]. by apply Z.neq_mul_0.
Qed.

Section PowFacts.
Context (pow : spec_float -> spec_float -> spec_float).

(** The loop computes [l1 * l2 ^ i] when that fits, and a [double] otherwise,
    in at most two steps for each bit of [i]. *)
Lemma pow_loop_spec fuel k l1 l2 i :
  is_long l1 -> is_long l2 -> l1 <> 0 -> l2 <> 0 -> 0 <= i < 2 ^ k -> 0 <= k ->
  2 * k + i mod 2 < Z.of_nat fuel ->
  exists r, pow_loop pow fuel l1 l2 i = Ok r /\
  if decide (is_long (l1 * l2 ^ i)) then r = Long (l1 * l2 ^ i) else exists d, r = Double d.
Proof.
  revert k l1 l2 i. induction fuel as [|fuel IH]; intros k l1 l2 i H1 H2 N1 N2 Hi Hk Hf; [pose proof (Z.mod_pos_bound i 2); lia|].
  cbn [pow_loop]. destruct (Z.leb_spec 1 i) as [Hi1|Hi1].
  2: { assert (i = 0) as -> by lia. eexists. split; [done|]. by rewrite Z.pow_0_r, Z.mul_1_r, decide_True. }
  assert (Hmod : 0 <= i mod 2 < 2) by (apply Z.mod_pos_bound; lia).
  rewrite Z.rem_mod_nonneg, Z.quot_div_nonneg by lia.
  destruct (Z.eqb_spec (i mod 2) 0) as [Hm|Hm]; cbn [negb]; rewrite multiply_spec.
  - pose proof (Z.div_mod i 2 ltac:(lia)) as Hdm.
    replace (l2 ^ i) with ((l2 * l2) ^ (i / 2)).
    2: { rewrite <- Z.pow_2_r, <- Z.pow_mul_r by lia. f_equal. lia. }
    destruct (decide (is_long (l2 * l2))) as [Hl|Hl].
    + apply (IH (k - 1)); [done|done|done|by apply Z.neq_mul_0| |..].
      * split; [lia|]. assert (2 ^ k = 2 * 2 ^ (k - 1)); [|lia].
        rewrite <- Z.pow_succ_r; [f_equal; lia|]. destruct (Z.eq_dec k 0) as [->|]; lia.
      * destruct (Z.eq_dec k 0) as [->|]; lia.
      * pose proof (Z.mod_pos_bound (i / 2) 2). lia.
    + eexists. split; [done|]. rewrite decide_False by (apply even_step_overflows; [done|done|done|lia]). by eexists.
  - destruct (decide (is_long (l1 * l2))) as [Hl|Hl].
    + assert (Hi' : (i - 1) mod 2 = 0).
      { rewrite Zminus_mod. replace (i mod 2) with 1 by lia. done. }
      replace (l1 * l2 ^ i) with (l1 * l2 * l2 ^ (i - 1)).
      * apply (IH k); [done|done|by apply Z.neq_mul_0|done|lia|done|lia].
      * replace i with (Z.succ (i - 1)) at 2 by lia. rewrite Z.pow_succ_r by lia. lia.
    + eexists. split; [done|]. rewrite decide_False by (apply odd_step_overflows; [done|done|lia|lia]). by eexists.
Qed.

End PowFacts.

(** A quotient is a [zend_long], except [ZEND_LONG_MIN / -1]. *)
Lemma quot_long a b : is_long a -> b <> 0 -> b <> -1 -> is_long (Z.quot a b).
Proof.
  intros Ha Hb Hb1. destruct (Z.eq_dec b 1) as [->|]; [by rewrite Z.quot_1_r|].
  assert (H2 : 2 * Z.abs (Z.quot a b) <= Z.abs a); [|longs; lia].
  rewrite <- Z.quot_abs by done. rewrite Z.quot_div_nonneg by lia.
  pose proof (Z.mul_div_le (Z.abs a) (Z.abs b) ltac:(lia)).
  pose proof (Z.div_pos (Z.abs a) (Z.abs b) ltac:(lia) ltac:(lia)). nia.
Qed.

(** *** Properties *)

(** C26: Sum, difference and product of two integers, and an integer plus or minus
    one: the exact integer when it is a [zend_long], and otherwise the
    [double] operation on the operands. *)
Theorem long_arithmetic_exact a b : is_long a -> is_long b ->
  let exact z d := if decide (is_long z) then Long z else Double d in
  add_function (Long a) (Long b) = exact (a + b) (dadd (double_of_long a) (double_of_long b)) /\
  sub_function Separate (Long a) (Long b) = exact (a - b) (dsub (double_of_long a) (double_of_long b)) /\
  mul_function (Long a) (Long b) = exact (a * b) (dmul (double_of_long a) (double_of_long b)) /\
  increment_function (Long a) = exact (a + 1) (dadd (double_of_long a) (double_of_long 1)) /\
  decrement_function (Long a) = exact (a - 1) (dsub (double_of_long a) (double_of_long 1)).
Proof.
  intros Ha Hb. cbv zeta. cbn [add_function sub_function mul_function increment_function decrement_function].
  rewrite fast_long_add_spec, fast_long_sub_spec, multiply_spec by done.
  split; [done|]. split; [done|]. split; [done|].
  unfold fast_long_increment_function, fast_long_decrement_function.
  split; zcases; subst; longs; first [rewrite decide_True by lia | rewrite decide_False by lia]; done.
Qed.

(** C18: The power of two integers with a non-negative exponent: the exact integer
    whenever it is a [zend_long], and a [double] otherwise; the loop ends. *)
Theorem pow_function_exact pow a n : is_long a -> is_long n -> 0 <= n ->
  exists r, pow_function pow (Long a) (Long n) = Ok r /\
  if decide (is_long (a ^ n)) then r = Long (a ^ n) else exists d, r = Double d.
Proof.
  intros Ha Hn H0. unfold pow_function.
  destruct (Z.leb_spec 0 n); [|lia]. destruct (Z.eqb_spec n 0) as [->|Hn0]; [by eexists|].
  destruct (Z.eqb_spec a 0) as [->|Ha0].
  { rewrite Z.pow_0_l by lia. by eexists. }
  destruct (pow_loop_spec pow 128 63 1 a n) as (r & Hr & H1); try done; [longs; lia| |].
  - pose proof (Z.mod_pos_bound n 2). lia.
  - rewrite Z.mul_1_l in H1. by exists r.
Qed.

(** Quotient and remainder: the remainder is that of the truncated division
    whatever the operands, the quotient is an integer exactly when the
    division leaves no remainder and the result is a [zend_long], and a
    divisor of zero is reported. *)
Theorem div_mod_correct a b : is_long a -> is_long b ->
  match mod_function a b with
  | inl r => b <> 0 /\ r = Z.rem a b /\
      div_function (Long a) (Long b) =
        (if decide (r = 0 /\ is_long (Z.quot a b)) then Long (Z.quot a b)
         else Double (ddiv (double_of_long a) (double_of_long b)), false)
  | inr e => b = 0 /\ e = DivisionByZeroError /\ snd (div_function (Long a) (Long b)) = true
  end.
Proof.
  intros Ha Hb. unfold mod_function, div_function.
  destruct (Z.eqb_spec b 0) as [->|Hb0]; [done|].
  destruct (Z.eqb_spec b (-1)) as [->|Hb1]; cbn [andb].
  - assert (Hr : Z.rem a (-1) = 0) by (transitivity (Z.rem a 1); [apply (Z.rem_opp_r a 1); lia | apply Z.rem_1_r]).
    assert (Hq : Z.quot a (-1) = - a) by (transitivity (- Z.quot a 1); [apply (Z.quot_opp_r a 1); lia | by rewrite Z.quot_1_r]).
    rewrite Hr, Hq. split; [done|]. split; [done|].
    destruct (Z.eqb_spec a ZEND_LONG_MIN) as [->|Hm].
    + rewrite decide_False; [done|]. intros [_ H]. longs. lia.
    + rewrite decide_True; [done|]. split; [done|]. longs. lia.
  - split; [done|]. split; [done|]. pose proof (quot_long a b Ha Hb0 Hb1) as Hq.
    destruct (Z.eqb_spec (Z.rem a b) 0); [by rewrite decide_True|]. rewrite decide_False; [done|]. by intros [? _].
Qed.

(** Shifts by any non-negative number of bits are the arithmetical ones, on 64
    bits; shifts by a negative number are refused. *)
Theorem shift_correct a n : is_long a -> is_long n ->
  shift_left_function a n = (if decide (n < 0) then inr ArithmeticError else inl (s64 (a * 2 ^ n))) /\
  shift_right_function a n = (if decide (n < 0) then inr ArithmeticError else inl (a / 2 ^ n)).
Proof.
  intros Ha Hn. unfold shift_left_function, shift_right_function.
  destruct (decide (n < 0)) as [Hlt|Hge].
  - assert (Hu : 64 <= u64 n).
    { unfold u64. replace n with (n + 2 ^ 64 + (-1) * 2 ^ 64) by lia.
      rewrite Z.mod_add by lia. longs. rewrite Z.mod_small; lia. }
    destruct (Z.leb_spec 64 (u64 n)); [|lia]. by destruct (Z.ltb_spec 0 n); [lia|].
  - rewrite u64_small by (longs; lia). rewrite Z.shiftl_mul_pow2, Z.shiftr_div_pow2 by lia.
    destruct (Z.leb_spec 64 n) as [Hbig|]; [|done]. destruct (Z.ltb_spec 0 n); [|lia].
    assert (Hp : 2 ^ 64 <= 2 ^ n) by (apply Z.pow_le_mono_r; lia).
    split; f_equal.
    + replace n with (64 + (n - 64)) by lia. rewrite Z.pow_add_r by lia. symmetry. unfold s64.
      replace (a * (2 ^ 64 * 2 ^ (n - 64)) + 2 ^ 63) with (2 ^ 63 + a * 2 ^ (n - 64) * 2 ^ 64) by lia.
      rewrite Z.mod_add by lia. done.
    + longs. destruct (Z.ltb_spec a 0).
      * apply (Z.div_unique a (2 ^ n) (-1) (a + 2 ^ n)); lia.
      * rewrite Z.div_small; lia.
Qed.

(** *** Witnesses *)
Lemma long_arithmetic_exact_witness :
  let a := ZEND_LONG_MAX in let b := 2 in
  let exact z d := if decide (is_long z) then Long z else Double d in
  add_function (Long a) (Long b) = exact (a + b) (dadd (double_of_long a) (double_of_long b)) /\
  sub_function Separate (Long a) (Long b) = exact (a - b) (dsub (double_of_long a) (double_of_long b)) /\
  mul_function (Long a) (Long b) = exact (a * b) (dmul (double_of_long a) (double_of_long b)) /\
  increment_function (Long a) = exact (a + 1) (dadd (double_of_long a) (double_of_long 1)) /\
  decrement_function (Long a) = exact (a - 1) (dsub (double_of_long a) (double_of_long 1)).
Proof. apply (long_arithmetic_exact ZEND_LONG_MAX 2); split; discriminate. Defined.

Lemma pow_function_exact_witness :
  exists r, pow_function (fun x _ => x) (Long (-2)) (Long 63) = Ok r /\
  if decide (is_long ((-2) ^ 63)) then r = Long ((-2) ^ 63) else exists d, r = Double d.
Proof. apply (pow_function_exact (fun x _ => x) (-2) 63); [split; discriminate..|discriminate]. Defined.

Lemma div_mod_correct_witness :
  match mod_function ZEND_LONG_MIN (-1) with
  | inl r => -1 <> 0 /\ r = Z.rem ZEND_LONG_MIN (-1) /\
      div_function (Long ZEND_LONG_MIN) (Long (-1)) =
        (if decide (r = 0 /\ is_long (Z.quot ZEND_LONG_MIN (-1))) then Long (Z.quot ZEND_LONG_MIN (-1))
         else Double (ddiv (double_of_long ZEND_LONG_MIN) (double_of_long (-1))), false)
  | inr e => -1 = 0 /\ e = DivisionByZeroError /\
      snd (div_function (Long ZEND_LONG_MIN) (Long (-1))) = true
  end.
Proof. apply (div_mod_correct ZEND_LONG_MIN (-1)); split; discriminate. Defined.

Lemma shift_correct_witness :
  shift_left_function 3 63 = (if decide (63 < 0) then inr ArithmeticError else inl (s64 (3 * 2 ^ 63))) /\
  shift_right_function 3 63 = (if decide (63 < 0) then inr ArithmeticError else inl (3 / 2 ^ 63)).
Proof. apply (shift_correct 3 63); split; discriminate. Defined.

(** The largest power of two that is an integer, and the next one. *)
Example pow_boundary :
  pow_function (fun x _ => x) (Long (-2)) (Long 63) = Ok (Long ZEND_LONG_MIN) /\
  (exists d, pow_function (fun x _ => x) (Long 2) (Long 63) = Ok (Double d)).
Proof. split; [reflexivity | eexists; reflexivity]. Qed.
