(* ===== verification/SmartStr.v ===== *)
(** * Growing strings: [smart_str] ([Zend/zend_smart_str.c],
    [Zend/zend_smart_str.h])

    A [smart_str] is a string under construction: the string object with its
    length, and the number [a] of bytes it has room for.  The buffer has one
    byte more, for the terminating NUL; a byte that has not been written yet
    is [None].  A source that is appended is given by its bytes, so that it is
    not the destination itself. *)
From Stdlib Require Import Strings.Byte.
From S2P Require Export StrCmp Numeric.

Record string_buf := mk_string_buf { sb_len : Z; sb_val : list (option char) }.
Record smart_str := mk_smart_str { ss_s : option string_buf; ss_a : Z }.

(** [smart_str s = {0}] *)
Definition smart_str_empty : smart_str := mk_smart_str None 0.

Definition _ZSTR_HEADER_SIZE : Z := 24.
Definition ZEND_MM_OVERHEAD : Z := 0.
Definition SMART_STR_OVERHEAD : Z := ZEND_MM_OVERHEAD + _ZSTR_HEADER_SIZE.
Definition SMART_STR_PAGE : Z := 4096.
Definition SMART_STR_START_SIZE : Z := 256 - SMART_STR_OVERHEAD - 1.

(** In [size_t]. *)
Definition SMART_STR_NEW_SIZE (len : Z) : Z :=
  u64 (Z.land (u64 (len + SMART_STR_OVERHEAD + SMART_STR_PAGE)) (Z.lnot (SMART_STR_PAGE - 1))
       - SMART_STR_OVERHEAD - 1).

(** A buffer of [size] bytes whose first [keep] ones are those of [val]. *)
Definition resized (val : list (option char)) (keep size : Z) : list (option char) :=
  let kept := take (Z.to_nat (Z.min keep size)) val in
  kept ++ replicate (Z.to_nat size - length kept) None.

(** [zend_string_alloc], then [ZSTR_LEN = 0] *)
Definition string_alloc (a : Z) : string_buf := mk_string_buf 0 (replicate (Z.to_nat (a + 1)) None).

Definition smart_str_erealloc (str : smart_str) (len : Z) : smart_str :=
  match ss_s str with
  | None =>
      let a := if len <? SMART_STR_START_SIZE then SMART_STR_START_SIZE else SMART_STR_NEW_SIZE len in
      mk_smart_str (Some (string_alloc a)) a
  | Some s =>
      let a := SMART_STR_NEW_SIZE len in
      mk_smart_str (Some (mk_string_buf (sb_len s) (resized (sb_val s) (sb_len s + 1) (a + 1)))) a
  end.

Definition smart_str_realloc (str : smart_str) (len : Z) : smart_str :=
  match ss_s str with
  | None =>
      let a := if len <? SMART_STR_START_SIZE then SMART_STR_START_SIZE else SMART_STR_NEW_SIZE len in
      mk_smart_str (Some (string_alloc a)) a
  | Some s =>
      let a := SMART_STR_NEW_SIZE len in
      mk_smart_str (Some (mk_string_buf (sb_len s)
        (resized (sb_val s) (Z.of_nat (length (sb_val s))) (a + 1)))) a
  end.

(** The new length and the string that has room for it. *)
Definition smart_str_alloc (str : smart_str) (len : Z) (persistent : bool) : Z * smart_str :=
  let do_realloc len := if persistent then smart_str_realloc str len else smart_str_erealloc str len in
  match ss_s str with
  | None => (len, do_realloc len)
  | Some s =>
      let len := u64 (len + sb_len s) in
      if ss_a str <=? len then (len, do_realloc len) else (len, str)
  end.

Definition smart_str_free (str : smart_str) : smart_str := mk_smart_str None 0.

Definition smart_str_0 (str : smart_str) : res smart_str :=
  match ss_s str with
  | None => Ok str
  | Some s =>
      let! val := aset (sb_val s) (sb_len s) (Some x00) in
      Ok (mk_smart_str (Some (mk_string_buf (sb_len s) val)) (ss_a str))
  end.

Definition smart_str_get_len (str : smart_str) : Z :=
  match ss_s str with Some s => sb_len s | None => 0 end.

(** The string, or [None] for the shared empty string. *)
Definition smart_str_extract (str : smart_str) : res (option string_buf * smart_str) :=
  match ss_s str with
  | Some _ =>
      let! str := smart_str_0 str in
      Ok (ss_s str, mk_smart_str None (ss_a str))
  | None => Ok (None, str)
  end.

(** The string object after [smart_str_alloc]; it is never null. *)
Definition the_string (str : smart_str) : res string_buf :=
  match ss_s str with Some s => Ok s | None => Err OutOfBounds end.

Definition smart_str_appendc_ex (dest : smart_str) (ch : char) (persistent : bool) : res smart_str :=
  let (new_len, dest) := smart_str_alloc dest 1 persistent in
  let! s := the_string dest in
  let! val := aset (sb_val s) (new_len - 1) (Some ch) in
  Ok (mk_smart_str (Some (mk_string_buf new_len val)) (ss_a dest)).

(** [memcpy (val + pos, str, len)], byte by byte; also [*res++ = c; ..]. *)
Fixpoint put (val : list (option char)) (pos : Z) (str : list char) {struct str} : res (list (option char)) :=
  match str with
  | [] => Ok val
  | c :: str => let! val := aset val pos (Some c) in put val (pos + 1) str
  end.

Definition smart_str_appendl_ex (dest : smart_str) (str : list char) (len : Z) (persistent : bool) : res smart_str :=
  let (new_len, dest) := smart_str_alloc dest len persistent in
  let! s := the_string dest in
  let! val := put (sb_val s) (sb_len s) str in
  Ok (mk_smart_str (Some (mk_string_buf new_len val)) (ss_a dest)).

Definition smart_str_append_ex (dest : smart_str) (src : zend_string) (persistent : bool) : res smart_str :=
  smart_str_appendl_ex dest (zs_val src) (Z.of_nat (length (zs_val src))) persistent.

(** [src] is the string of the other [smart_str], if it has one. *)
Definition smart_str_append_smart_str_ex (dest : smart_str) (src : option zend_string) (persistent : bool)
    : res smart_str :=
  match src with
  | Some s => if negb (Z.of_nat (length (zs_val s)) =? 0) then smart_str_append_ex dest s persistent else Ok dest
  | None => Ok dest
  end.

(** [char buf[32]], the last byte of which is the NUL. *)
Definition smart_str_append_long_ex (dest : smart_str) (num : Z) (persistent : bool) : res smart_str :=
  let! result := zend_print_long_to_buf 31 num in
  smart_str_appendl_ex dest result (Z.of_nat (length result)) persistent.

Definition smart_str_append_unsigned_ex (dest : smart_str) (num : Z) (persistent : bool) : res smart_str :=
  let! result := zend_print_ulong_to_buf 31 num [] in
  smart_str_appendl_ex dest result (Z.of_nat (length result)) persistent.

Definition smart_str_setl (dest : smart_str) (src : list char) (len : Z) : res smart_str :=
  smart_str_appendl_ex (smart_str_free dest) src len false.

(** ** Escapes *)

(** The characters that have an escape of their own. *)
Definition named_escape (c : Z) : bool :=
  (c =? 10) || (c =? 13) || (c =? 9) || (c =? 12) || (c =? 11) || (c =? 92) || (c =? 27).

(** The loop works on [char], which is signed, and adds to [len]. *)
Fixpoint zend_compute_escaped_string_len (s : list char) (len : Z) {struct s} : Z :=
  match s with
  | [] => len
  | c :: s =>
      let c := schar c in
      zend_compute_escaped_string_len s
        (if named_escape c then u64 (len + 1)
         else if (c <? 32) || (126 <? c) then u64 (len + 3) else len)
  end.

Definition hex_digit (n : Z) : char := if n <? 10 then char_of (n + 48) else char_of (n + 65 - 10).

(** The bytes that one turn of the loop writes for the [unsigned char] [c]. *)
Definition escape_writes (c : Z) : list char :=
  if (c <? 32) || (c =? 92) || (126 <? c) then
    x5c :: (if c =? 10 then [x6e]
            else if c =? 13 then [x72]
            else if c =? 9 then [x74]
            else if c =? 12 then [x66]
            else if c =? 11 then [x76]
            else if c =? 92 then [x5c]
            else if c =? 27 then [x65]
            else [x78; hex_digit (Z.shiftr c 4); hex_digit (Z.land c 15)])
  else [char_of c].

Fixpoint escape_loop (val : list (option char)) (res_ : Z) (s : list char) {struct s} : res (list (option char)) :=
  match s with
  | [] => Ok val
  | c :: s =>
      let w := escape_writes (uchar c) in
      let! val := put val res_ w in
      escape_loop val (res_ + Z.of_nat (length w)) s
  end.

Definition smart_str_append_escaped (str : smart_str) (s : list char) (l : Z) : res smart_str :=
  let len := zend_compute_escaped_string_len s l in
  let str := snd (smart_str_alloc str len false) in
  let! b := the_string str in
  let! val := escape_loop (sb_val b) (sb_len b) s in
  Ok (mk_smart_str (Some (mk_string_buf (u64 (sb_len b + len)) val)) (ss_a str)).

(** What [smart_str_append_escaped] appends. *)
Definition escape (s : list char) : list char := flat_map (fun c => escape_writes (uchar c)) s.

(** Reading an escaped text back. *)
Definition unhex (c : char) : option Z :=
  let c := uchar c in
  if (48 <=? c) && (c <=? 57) then Some (c - 48)
  else if (65 <=? c) && (c <=? 70) then Some (c - 65 + 10) else None.

Definition unname (c : char) : option char :=
  match c with
  | x6e => Some x0a | x72 => Some x0d | x74 => Some x09 | x66 => Some x0c
  | x76 => Some x0b | x5c => Some x5c | x65 => Some x1b | _ => None
  end.

Fixpoint unescape (fuel : nat) (t : list char) {struct fuel} : option (list char) :=
  match fuel, t with
  | _, [] => Some []
  | O, _ => None
  | S fuel, x5c :: x78 :: h :: l :: t =>
      match unhex h, unhex l, unescape fuel t with
      | Some h, Some l, Some s => Some (char_of (h * 16 + l) :: s)
      | _, _, _ => None
      end
  | S fuel, x5c :: c :: t =>
      match unname c, unescape fuel t with Some d, Some s => Some (d :: s) | _, _ => None end
  | S fuel, c :: t => match unescape fuel t with Some s => Some (c :: s) | None => None end
  end.

Definition printable (c : char) : bool := (32 <=? uchar c) && (uchar c <=? 126).

(** ** The content of a [smart_str] *)
Record buffer_holds (s : string_buf) (a : Z) (b : list char) : Prop := {
  bh_len : sb_len s = Z.of_nat (length b);
  bh_fits : Z.of_nat (length b) <= a < 2 ^ 63;
  bh_size : Z.of_nat (length (sb_val s)) = a + 1;
  bh_bytes : take (length b) (sb_val s) = map Some b;
}.

Definition holds (str : smart_str) (b : list char) : Prop :=
  match ss_s str with Some s => buffer_holds s (ss_a str) b | None => b = [] end.

(** ** Facts *)
Lemma holds_empty : holds smart_str_empty [].
Proof. done. Qed.

Lemma new_size_room len : 0 <= len < 2 ^ 62 -> len <= SMART_STR_NEW_SIZE len < 2 ^ 63.
Proof.
  intros H. unfold SMART_STR_NEW_SIZE, SMART_STR_OVERHEAD, SMART_STR_PAGE, ZEND_MM_OVERHEAD, _ZSTR_HEADER_SIZE.
  rewrite (u64_small (len + _ + _)) by lia. change (Z.lnot (4096 - 1)) with (Z.lnot (Z.ones 12)).
  rewrite <- Z.ldiff_land, Z.ldiff_ones_r, Z.shiftr_div_pow2, Z.shiftl_mul_pow2 by lia.
  set (x := len + (0 + 24) + 4096). pose proof (Z.div_mod x (2 ^ 12) ltac:(lia)).
  pose proof (Z.mod_pos_bound x (2 ^ 12) ltac:(lia)). rewrite u64_small; lia.
Qed.

Lemma alloc_room str b n persistent : holds str b -> 0 <= n -> Z.of_nat (length b) + n < 2 ^ 62 ->
  exists s a, smart_str_alloc str n persistent = (Z.of_nat (length b) + n, mk_smart_str (Some s) a) /\
  buffer_holds s a b /\ Z.of_nat (length b) + n <= a.
Proof.
  destruct str as [[s|] a]; unfold holds; cbn [ss_s ss_a]; intros Hb Hn Hlt; unfold smart_str_alloc; cbn [ss_s ss_a].
  - destruct Hb as [H1 H2 H3 H4]. rewrite H1, u64_small, Z.add_comm by lia.
    destruct (Z.leb_spec a (Z.of_nat (length b) + n)) as [Hle|]; [|exists s, a; split; [done|]; split; [by split|lia]].
    pose proof (new_size_room (Z.of_nat (length b) + n) ltac:(lia)) as Hns.
    assert (Hres : forall keep, Z.of_nat (length b) <= keep ->
      buffer_holds (mk_string_buf (sb_len s) (resized (sb_val s) keep
        (SMART_STR_NEW_SIZE (Z.of_nat (length b) + n) + 1))) (SMART_STR_NEW_SIZE (Z.of_nat (length b) + n)) b).
    { intros keep Hk. unfold resized. split; cbn [sb_len sb_val]; [done|lia| |].
      - rewrite length_app, length_replicate, length_take. lia.
      - rewrite take_app_le by (rewrite length_take; lia).
        rewrite take_take, Nat.min_l by lia. done. }
    destruct persistent.
    + unfold smart_str_realloc. cbn [ss_s]. do 2 eexists. split; [reflexivity|].
      split; [|lia]. apply Hres. lia.
    + unfold smart_str_erealloc. cbn [ss_s]. do 2 eexists. split; [reflexivity|].
      split; [|lia]. apply Hres. lia.
  - subst b. cbn [length] in *. change (Z.of_nat 0) with 0 in *. rewrite Z.add_0_l in *.
    pose proof (new_size_room n ltac:(lia)) as Hns.
    assert (Hres : forall a, n <= a < 2 ^ 63 -> buffer_holds (string_alloc a) a []).
    { intros a' Ha. split; cbn; [done|lia| |done]. rewrite length_replicate. lia. }
    assert (Ha : n <= (if n <? SMART_STR_START_SIZE then SMART_STR_START_SIZE else SMART_STR_NEW_SIZE n) < 2 ^ 63).
    { destruct (Z.ltb_spec n SMART_STR_START_SIZE) as [Hs|]; [|done].
      change SMART_STR_START_SIZE with 231 in *. lia. }
    by destruct persistent; do 2 eexists; (split; [reflexivity|]); (split; [by apply Hres | apply Ha]).
Qed.

Lemma put_app val pos s t :
  put val pos (s ++ t) = (let! val := put val pos s in put val (pos + Z.of_nat (length s)) t).
Proof.
  revert val pos. induction s as [|c s IH]; intros val pos; cbn [put app].
  - cbn. by rewrite Z.add_0_r.
  - destruct (aset val pos (Some c)); cbn [rbind]; [|done]. rewrite IH. destruct (put _ _ s); cbn [rbind]; [|done].
    f_equal. simpl length. lia.
Qed.

Lemma put_spec val b s : take (length b) val = map Some b -> (length b + length s <= length val)%nat ->
  exists val', put val (Z.of_nat (length b)) s = Ok val' /\ length val' = length val /\
  take (length (b ++ s)) val' = map Some (b ++ s).
Proof.
  revert val b. induction s as [|c s IH]; intros val b Hb Hl; cbn [put].
  - exists val. by rewrite app_nil_r.
  - cbn [length] in Hl. rewrite aset_ok by lia. rsimp.
    destruct (IH (<[length b:=Some c]> val) (b ++ [c])) as (val' & E & Hl' & Ht).
    + rewrite length_app, map_app, <- Hb. cbn [length map]. rewrite Nat.add_comm. cbn [Nat.add].
      apply take_insert_S. lia.
    + rewrite length_insert, length_app. simpl. lia.
    + rewrite length_app, Nat2Z.inj_add in E. cbn [length] in E. change (Z.of_nat 1) with 1 in E. rewrite E. exists val'.
      rewrite Hl', length_insert. rewrite <- app_assoc in Ht. done.
Qed.

Lemma put_holds s a b t : buffer_holds s a b -> Z.of_nat (length b) + Z.of_nat (length t) <= a ->
  exists val', put (sb_val s) (sb_len s) t = Ok val' /\
  buffer_holds (mk_string_buf (Z.of_nat (length b) + Z.of_nat (length t)) val') a (b ++ t).
Proof.
  intros [H1 H2 H3 H4] Hl. destruct (put_spec (sb_val s) b t H4) as (val' & E & Hlen & Ht); [lia|].
  rewrite H1. exists val'. split; [done|].
  split; cbn [sb_len sb_val]; rewrite ?length_app in *; [lia|lia|lia|done].
Qed.

(** Appending keeps what was there and never writes past the buffer. *)
Lemma appendl_holds str b s persistent : holds str b ->
  Z.of_nat (length b) + Z.of_nat (length s) < 2 ^ 62 ->
  exists str', smart_str_appendl_ex str s (Z.of_nat (length s)) persistent = Ok str' /\ holds str' (b ++ s).
Proof.
  intros Hb Hl. unfold smart_str_appendl_ex.
  destruct (alloc_room str b (Z.of_nat (length s)) persistent Hb) as (z & a & -> & Hz & Ha); [lia|done|].
  cbn [the_string ss_s ss_a rbind]. destruct (put_holds z a b s Hz Ha) as (val' & -> & Hv). rsimp.
  by eexists.
Qed.

Lemma appendc_holds str b c persistent : holds str b -> Z.of_nat (length b) + 1 < 2 ^ 62 ->
  exists str', smart_str_appendc_ex str c persistent = Ok str' /\ holds str' (b ++ [c]).
Proof.
  intros Hb Hl. unfold smart_str_appendc_ex.
  destruct (alloc_room str b 1 persistent Hb) as (z & a & -> & Hz & Ha); [lia|done|].
  cbn [the_string ss_s ss_a rbind]. destruct (put_holds z a b [c] Hz Ha) as (val' & E & Hv).
  cbn [put] in E. pose proof (bh_len _ _ _ Hz) as Hlen. rewrite Hlen in E.
  replace (Z.of_nat (length b) + 1 - 1) with (Z.of_nat (length b)) by lia.
  inv_bind. rewrite Ha0. rsimp. by eexists.
Qed.

Lemma escape_loop_put val pos s : escape_loop val pos s = put val pos (escape s).
Proof.
  revert val pos. induction s as [|c s IH]; intros val pos; cbn [escape_loop]; [done|].
  unfold escape. cbn [flat_map]. rewrite put_app. destruct (put val pos _); cbn [rbind]; [apply IH|done].
Qed.

(** The length that is computed beforehand is the number of bytes written. *)
Lemma escape_writes_length c :
  Z.of_nat (length (escape_writes (uchar c))) = zend_compute_escaped_string_len [c] 1.
Proof. destruct c; reflexivity. Qed.

Lemma escape_writes_small c : (1 <= length (escape_writes (uchar c)) <= 4)%nat.
Proof. destruct c; vm_compute; split; repeat constructor. Qed.

Lemma compute_step c s len : 0 <= len < 2 ^ 63 ->
  zend_compute_escaped_string_len (c :: s) len =
  zend_compute_escaped_string_len s (len + (Z.of_nat (length (escape_writes (uchar c))) - 1)).
Proof.
  intros H. rewrite escape_writes_length. cbn [zend_compute_escaped_string_len]. f_equal.
  destruct (named_escape (schar c)); [|destruct ((_ <? _) || (_ <? _))]; rewrite ?u64_small by lia; lia.
Qed.

Lemma escaped_length s len : 0 <= len -> len + 3 * Z.of_nat (length s) < 2 ^ 63 ->
  zend_compute_escaped_string_len s len = len + (Z.of_nat (length (escape s)) - Z.of_nat (length s)).
Proof.
  revert len. induction s as [|c s IH]; intros len H0 H; [simpl; lia|].
  cbn [length] in H. pose proof (escape_writes_small c).
  rewrite compute_step, IH by lia. unfold escape. cbn [flat_map length]. rewrite length_app. lia.
Qed.

Lemma escape_length_bound s : (length s <= length (escape s) <= 4 * length s)%nat.
Proof.
  induction s as [|c s IH]; [simpl; lia|]. unfold escape in *. cbn [flat_map length]. rewrite length_app.
  pose proof (escape_writes_small c). lia.
Qed.

Lemma append_escaped_holds str b s : holds str b ->
  Z.of_nat (length b) + Z.of_nat (length (escape s)) < 2 ^ 62 -> Z.of_nat (length s) < 2 ^ 60 ->
  exists str', smart_str_append_escaped str s (Z.of_nat (length s)) = Ok str' /\ holds str' (b ++ escape s).
Proof.
  intros Hb Hl Hs. unfold smart_str_append_escaped. rewrite escaped_length by lia.
  replace (Z.of_nat (length s) + _) with (Z.of_nat (length (escape s))) by lia.
  destruct (alloc_room str b (Z.of_nat (length (escape s))) false Hb) as (z & a & -> & Hz & Ha); [lia|done|].
  cbn [snd the_string ss_s ss_a rbind]. rewrite escape_loop_put.
  destruct (put_holds z a b (escape s) Hz Ha) as (val' & -> & Hv). rsimp.
  pose proof (bh_len _ _ _ Hz) as Hlen. rewrite Hlen, u64_small by lia. by eexists.
Qed.

(** Reading back what was written for one byte. *)
Lemma unescape_step c t fuel : unescape (S fuel) (escape_writes (uchar c) ++ t) =
  match unescape fuel t with Some s => Some (c :: s) | None => None end.
Proof. destruct c; reflexivity. Qed.

Lemma unescape_escape s fuel : (length s <= fuel)%nat -> unescape fuel (escape s) = Some s.
Proof.
  revert fuel. induction s as [|c s IH]; intros [|fuel] H; cbn [length] in H; try done; try lia.
  unfold escape. cbn [flat_map]. rewrite unescape_step. unfold escape in IH. by rewrite IH by lia.
Qed.

(** ** Sequences of operations *)
Inductive ss_op :=
| AppendC (ch : char)
| AppendL (s : list char)
| AppendLong (n : Z)
| AppendUnsigned (n : Z)
| AppendEscaped (s : list char)
| SetL (s : list char).

Definition run_op (persistent : bool) (op : ss_op) (str : smart_str) : res smart_str :=
  match op with
  | AppendC ch => smart_str_appendc_ex str ch persistent
  | AppendL s => smart_str_appendl_ex str s (Z.of_nat (length s)) persistent
  | AppendLong n => smart_str_append_long_ex str n persistent
  | AppendUnsigned n => smart_str_append_unsigned_ex str n persistent
  | AppendEscaped s => smart_str_append_escaped str s (Z.of_nat (length s))
  | SetL s => smart_str_setl str s (Z.of_nat (length s))
  end.

Fixpoint run_ops (persistent : bool) (ops : list ss_op) (str : smart_str) : res smart_str :=
  match ops with
  | [] => Ok str
  | op :: ops => let! str := run_op persistent op str in run_ops persistent ops str
  end.

(** What an operation does to the text. *)
Inductive effect : ss_op -> list char -> list char -> Prop :=
| EffC ch b : effect (AppendC ch) b (b ++ [ch])
| EffL s b : effect (AppendL s) b (b ++ s)
| EffLong n t b : canonical_long n t -> effect (AppendLong n) b (b ++ t)
| EffUnsigned n t b : canonical n t -> effect (AppendUnsigned n) b (b ++ t)
| EffEscaped s t b : unescape (length s) t = Some s -> forallb printable t = true ->
    effect (AppendEscaped s) b (b ++ t)
| EffSet s b : effect (SetL s) b s.

Inductive effects : list ss_op -> list char -> list char -> Prop :=
| EffNil b : effects [] b b
| EffCons op ops b b' b'' : effect op b b' -> effects ops b' b'' -> effects (op :: ops) b b''.

(** The arguments are in range; the most bytes that an operation adds. *)
Definition op_ok (op : ss_op) : Prop :=
  match op with
  | AppendLong n => - 2 ^ 63 <= n < 2 ^ 63
  | AppendUnsigned n => 0 <= n < 2 ^ 64
  | _ => True
  end.

Definition op_size (op : ss_op) : Z :=
  match op with
  | AppendC _ => 1
  | AppendL s | SetL s => Z.of_nat (length s)
  | AppendLong _ | AppendUnsigned _ => 31
  | AppendEscaped s => 4 * Z.of_nat (length s)
  end.

Definition total_size (ops : list ss_op) : Z := foldr (fun op n => op_size op + n) 0 ops.

Lemma op_size_nonneg op : 0 <= op_size op.
Proof. destruct op; cbn [op_size]; lia. Qed.

Lemma total_size_nonneg ops : 0 <= total_size ops.
Proof. induction ops as [|op ops IH]; simpl; [lia|]. pose proof (op_size_nonneg op). unfold total_size in *. lia. Qed.

Lemma print_long_31 n : - 2 ^ 63 <= n < 2 ^ 63 ->
  exists t, zend_print_long_to_buf 31 n = Ok t /\ canonical_long n t /\ (length t <= 31)%nat.
Proof.
  intros Hn. unfold zend_print_long_to_buf, canonical_long. destruct (Z.ltb_spec n 0) as [Hneg|Hpos].
  - rewrite negate_u64 by lia.
    destruct (print_ulong_ok 31 (- n) [] ltac:(lia)) as (ds & -> & Hc & Hlen); [simpl Z.of_nat; lia|].
    rewrite app_nil_r. rsimp. specialize (Hlen 19%nat ltac:(lia) ltac:(simpl Z.of_nat; lia)).
    rewrite (proj2 (Nat.ltb_lt _ _)) by lia. eexists. split; [done|]. split; [by exists ds | simpl; lia].
  - destruct (print_ulong_ok 31 n [] ltac:(lia)) as (ds & -> & Hc & Hlen); [simpl Z.of_nat; lia|].
    rewrite app_nil_r. exists ds. split; [done|]. split; [done|].
    specialize (Hlen 19%nat ltac:(lia) ltac:(simpl Z.of_nat; lia)). lia.
Qed.

Lemma escape_printable s : forallb printable (escape s) = true.
Proof.
  induction s as [|c s IH]; [done|]. unfold escape in *. cbn [flat_map].
  rewrite forallb_app, IH, andb_true_r. destruct c; reflexivity.
Qed.

Lemma run_op_correct persistent op str b : holds str b -> op_ok op ->
  Z.of_nat (length b) + op_size op < 2 ^ 60 ->
  exists str' b', run_op persistent op str = Ok str' /\ effect op b b' /\ holds str' b' /\
  Z.of_nat (length b') <= Z.of_nat (length b) + op_size op.
Proof.
  intros Hb Hok Hl. destruct op as [ch|s|n|n|s|s]; cbn [op_ok op_size run_op] in *.
  - destruct (appendc_holds str b ch persistent Hb) as (str' & E & H); [lia|].
    exists str', (b ++ [ch]). split; [done|]. split; [constructor|]. rewrite length_app. simpl. split; [done|lia].
  - destruct (appendl_holds str b s persistent Hb) as (str' & E & H); [lia|].
    exists str', (b ++ s). split; [done|]. split; [constructor|]. rewrite length_app. split; [done|lia].
  - destruct (print_long_31 n Hok) as (t & E & Hc & Ht). unfold smart_str_append_long_ex. rewrite E. rsimp.
    destruct (appendl_holds str b t persistent Hb) as (str' & E' & H); [lia|].
    exists str', (b ++ t). split; [done|]. split; [by constructor|]. rewrite length_app. split; [done|lia].
  - destruct (print_ulong_ok 31 n [] ltac:(lia)) as (t & E & Hc & Ht); [simpl Z.of_nat; lia|].
    rewrite app_nil_r in E. specialize (Ht 31%nat ltac:(lia) ltac:(simpl Z.of_nat; lia)).
    unfold smart_str_append_unsigned_ex. rewrite E. rsimp.
    destruct (appendl_holds str b t persistent Hb) as (str' & E' & H); [lia|].
    exists str', (b ++ t). split; [done|]. split; [by constructor|]. rewrite length_app. split; [done|lia].
  - pose proof (escape_length_bound s).
    destruct (append_escaped_holds str b s Hb) as (str' & E & H'); [lia..|].
    exists str', (b ++ escape s). split; [done|].
    split; [constructor; [by apply unescape_escape | apply escape_printable]|].
    rewrite length_app. split; [done|lia].
  - destruct (appendl_holds smart_str_empty [] s false holds_empty) as (str' & E & H); [simpl; lia|].
    exists str', s. split; [done|]. split; [constructor|]. split; [done|lia].
Qed.

Lemma run_ops_correct persistent ops str b : holds str b -> Forall op_ok ops ->
  Z.of_nat (length b) + total_size ops < 2 ^ 60 ->
  exists str' b', run_ops persistent ops str = Ok str' /\ effects ops b b' /\ holds str' b' /\
  Z.of_nat (length b') <= Z.of_nat (length b) + total_size ops.
Proof.
  intros Hb Hok. revert str b Hb. induction Hok as [|op ops Ho _ IH]; intros str b Hb Hl; cbn [run_ops].
  - exists str, b. split; [done|]. split; [constructor|]. split; [done|]. simpl. lia.
  - cbn [total_size foldr] in Hl. fold (total_size ops) in Hl.
    pose proof (total_size_nonneg ops). pose proof (op_size_nonneg op).
    destruct (run_op_correct persistent op str b Hb Ho) as (str1 & b1 & -> & He & Hb1 & Hl1); [lia|]. rsimp.
    destruct (IH str1 b1 Hb1) as (str2 & b2 & E & He2 & Hb2 & Hl2); [lia|].
    exists str2, b2. split; [done|]. split; [by econstructor|]. split; [done|].
    cbn [total_size foldr]. fold (total_size ops). lia.
Qed.

Lemma extract_holds str b : holds str b ->
  exists o str', smart_str_extract str = Ok (o, str') /\ holds str' [] /\
  match o with
  | Some s => sb_len s = Z.of_nat (length b) /\ take (S (length b)) (sb_val s) = map Some (b ++ [x00])
  | None => b = []
  end.
Proof.
  unfold holds, smart_str_extract, smart_str_0. destruct (ss_s str) as [s|] eqn:E; intros Hb.
  - destruct Hb as [H1 H2 H3 H4]. rewrite H1, aset_ok by lia. rsimp.
    do 2 eexists. split; [reflexivity|]. split; [done|]. cbn [ss_s sb_len sb_val]. split; [done|].
    rewrite map_app, <- H4. apply take_insert_S. lia.
  - exists None, str. split; [done|]. by rewrite E.
Qed.

(** *** Properties *)

(** C25: Any sequence of appends and assignments to an empty [smart_str] leaves the
    text that the operations say, with numbers in their canonical decimal form
    and escaped texts printable and readable back; no write is outside of the
    buffer, and the extracted string is the text with a NUL after it. *)
Theorem smart_str_correct persistent ops :
  Forall op_ok ops -> total_size ops < 2 ^ 60 ->
  exists str b, run_ops persistent ops smart_str_empty = Ok str /\ effects ops [] b /\
  smart_str_get_len str = Z.of_nat (length b) /\
  exists o str', smart_str_extract str = Ok (o, str') /\ holds str' [] /\
  match o with
  | Some s => sb_len s = Z.of_nat (length b) /\ take (S (length b)) (sb_val s) = map Some (b ++ [x00])
  | None => b = []
  end.
Proof.
  intros Hok Hl. destruct (run_ops_correct persistent ops smart_str_empty [] holds_empty Hok) as
    (str & b & E & He & Hb & _); [simpl; lia|].
  exists str, b. split; [done|]. split; [done|]. split; [|by apply extract_holds].
  unfold holds, smart_str_get_len in *. destruct (ss_s str) as [s|]; [apply Hb | by subst b].
Qed.

(** *** Witnesses *)
Definition sample_ops : list ss_op :=
  [AppendL [x61; x62]; AppendLong (-12); AppendC x2c; AppendEscaped [x0a; xff; x41]; AppendUnsigned 0].

Lemma smart_str_correct_witness :
  exists str b, run_ops false sample_ops smart_str_empty = Ok str /\ effects sample_ops [] b /\
  smart_str_get_len str = Z.of_nat (length b) /\
  exists o str', smart_str_extract str = Ok (o, str') /\ holds str' [] /\
  match o with
  | Some s => sb_len s = Z.of_nat (length b) /\ take (S (length b)) (sb_val s) = map Some (b ++ [x00])
  | None => b = []
  end.
Proof.
  apply (smart_str_correct false sample_ops); [|reflexivity].
  repeat constructor; discriminate.
Defined.

(** The text of the sample: [ab-12,\n\xFFA0]. *)
Example sample_text :
  (let! str := run_ops false sample_ops smart_str_empty in
   let! (o, _) := smart_str_extract str in
   Ok (match o with Some s => take 15 (sb_val s) | None => [] end)) =
  Ok (map Some [x61; x62; x2d; x31; x32; x2c; x5c; x6e; x5c; x78; x46; x46; x41; x30; x00]).
Proof. vm_compute. reflexivity. Qed.
