(* ===== verification/Llist.v ===== *)
(** * Doubly linked lists: [zend_llist] ([Zend/zend_llist.c],
    [Zend/zend_llist.h])

    The elements of a list are in a heap and are linked in both directions;
    they hold a copy of the data.  The heap maps the address of an element to
    its contents; freeing removes it.  [destroyed] records the data for which
    the destructor of a list has been called. *)
From stdpp Require Export gmap.
From S2P Require Export SortFunc.

Definition pointer : Type := option positive.

Record zend_llist_element (D : Type) := mk_element { next : pointer; prev : pointer; data : D }.
Arguments mk_element {D}.
Arguments next {D}.
Arguments prev {D}.
Arguments data {D}.

Record zend_llist := mk_llist {
  l_head : pointer;
  l_tail : pointer;
  l_count : Z;
  l_dtor : bool;           (* is there a destructor *)
  l_traverse_ptr : pointer
}.

(** What the lists need of [pemalloc]: an address that is not in use. *)
Class Malloc (D : Type) := malloc : gmap positive (zend_llist_element D) -> positive.
Class MallocLaws D `{Malloc D} : Prop := malloc_fresh h : h !! malloc h = None.

Section Operations.
Context {D : Type} `{Malloc D}.

Record state := mk_state { heap : gmap positive (zend_llist_element D); destroyed : list D }.

Definition load (st : state) (p : positive) : res (zend_llist_element D) :=
  match heap st !! p with Some e => Ok e | None => Err OutOfBounds end.
Definition store (p : positive) (e : zend_llist_element D) (st : state) : state :=
  mk_state (<[p := e]> (heap st)) (destroyed st).
Definition free (p : positive) (st : state) : state := mk_state (delete p (heap st)) (destroyed st).
Definition destroy (d : D) (st : state) : state := mk_state (heap st) (destroyed st ++ [d]).

Definition set_next (n : pointer) (e : zend_llist_element D) := mk_element n (prev e) (data e).
Definition set_prev (p : pointer) (e : zend_llist_element D) := mk_element (next e) p (data e).
Definition set_data (d : D) (e : zend_llist_element D) := mk_element (next e) (prev e) d.

Definition set_head (p : pointer) (l : zend_llist) :=
  mk_llist p (l_tail l) (l_count l) (l_dtor l) (l_traverse_ptr l).
Definition set_tail (p : pointer) (l : zend_llist) :=
  mk_llist (l_head l) p (l_count l) (l_dtor l) (l_traverse_ptr l).
Definition set_count (n : Z) (l : zend_llist) :=
  mk_llist (l_head l) (l_tail l) n (l_dtor l) (l_traverse_ptr l).

(** [p->next = n] and [p->prev = n] *)
Definition write_next (p : positive) (n : pointer) (st : state) : res state :=
  let! e := load st p in Ok (store p (set_next n e) st).
Definition write_prev (p : positive) (n : pointer) (st : state) : res state :=
  let! e := load st p in Ok (store p (set_prev n e) st).

Definition zend_llist_init (dtor : bool) (l : zend_llist) : zend_llist :=
  mk_llist None None 0 dtor (l_traverse_ptr l).

Definition zend_llist_add_element (st : state) (l : zend_llist) (element : D) : res (state * zend_llist) :=
  let tmp := malloc (heap st) in
  let st := store tmp (mk_element None (l_tail l) element) st in
  let! (st, l) := match l_tail l with
                  | Some t => let! st := write_next t (Some tmp) st in Ok (st, l)
                  | None => Ok (st, set_head (Some tmp) l)
                  end in
  let l := set_tail (Some tmp) l in
  Ok (st, set_count (u64 (l_count l + 1)) l).

Definition zend_llist_prepend_element (st : state) (l : zend_llist) (element : D) : res (state * zend_llist) :=
  let tmp := malloc (heap st) in
  let st := store tmp (mk_element (l_head l) None element) st in
  let! (st, l) := match l_head l with
                  | Some t => let! st := write_prev t (Some tmp) st in Ok (st, l)
                  | None => Ok (st, set_tail (Some tmp) l)
                  end in
  let l := set_head (Some tmp) l in
  Ok (st, set_count (u64 (l_count l + 1)) l).

(** [if (l->dtor) l->dtor (data)] *)
Definition call_dtor (l : zend_llist) (d : D) (st : state) : state :=
  if l_dtor l then destroy d st else st.

Definition DEL_LLIST_ELEMENT (st : state) (current : positive) (l : zend_llist) : res (state * zend_llist) :=
  let! c := load st current in
  let! (st, l) := match prev c with
                  | Some p => let! st := write_next p (next c) st in Ok (st, l)
                  | None => Ok (st, set_head (next c) l)
                  end in
  let! c := load st current in
  let! (st, l) := match next c with
                  | Some n => let! st := write_prev n (prev c) st in Ok (st, l)
                  | None => Ok (st, set_tail (prev c) l)
                  end in
  let! c := load st current in
  let st := call_dtor l (data c) st in
  let st := free current st in
  Ok (st, set_count (u64 (l_count l - 1)) l).

(** [compare] is applied to the data and the element that is searched. *)
Fixpoint del_element_loop (fuel : nat) (compare : D -> bool) (st : state) (current : pointer) (l : zend_llist)
    {struct fuel} : res (state * zend_llist) :=
  match fuel with
  | O => Err OutOfFuel
  | S fuel =>
      match current with
      | None => Ok (st, l)
      | Some p =>
          let! c := load st p in
          if compare (data c) then DEL_LLIST_ELEMENT st p l
          else del_element_loop fuel compare st (next c) l
      end
  end.

(** One more than the number of elements in the heap. *)
Definition heap_fuel (st : state) : nat := S (size (heap st)).

Definition zend_llist_del_element (st : state) (l : zend_llist) (compare : D -> bool) : res (state * zend_llist) :=
  del_element_loop (heap_fuel st) compare st (l_head l) l.

Fixpoint destroy_loop (fuel : nat) (st : state) (current : pointer) (l : zend_llist) {struct fuel} : res state :=
  match fuel with
  | O => Err OutOfFuel
  | S fuel =>
      match current with
      | None => Ok st
      | Some p =>
          let! c := load st p in
          let st := call_dtor l (data c) st in
          destroy_loop fuel (free p st) (next c) l
      end
  end.

Definition zend_llist_destroy (st : state) (l : zend_llist) : res (state * zend_llist) :=
  let! st := destroy_loop (heap_fuel st) st (l_head l) l in
  Ok (st, set_count 0 l).

Definition zend_llist_clean (st : state) (l : zend_llist) : res (state * zend_llist) :=
  let! (st, l) := zend_llist_destroy st l in
  Ok (st, set_head None (set_tail None l)).

Definition zend_llist_remove_tail (st : state) (l : zend_llist) : res (state * zend_llist) :=
  match l_tail l with
  | None => Ok (st, l)
  | Some old_tail =>
      let! t := load st old_tail in
      let! (st, l) := match prev t with
                      | Some p => let! st := write_next p None st in Ok (st, l)
                      | None => Ok (st, set_head None l)
                      end in
      let! t := load st old_tail in
      let l := set_tail (prev t) l in
      let l := set_count (u64 (l_count l - 1)) l in
      let st := call_dtor l (data t) st in
      Ok (free old_tail st, l)
  end.

Fixpoint copy_loop (fuel : nat) (st : state) (dst : zend_llist) (ptr : pointer) {struct fuel}
    : res (state * zend_llist) :=
  match fuel with
  | O => Err OutOfFuel
  | S fuel =>
      match ptr with
      | None => Ok (st, dst)
      | Some p =>
          let! e := load st p in
          let! (st, dst) := zend_llist_add_element st dst (data e) in
          let! e := load st p in
          copy_loop fuel st dst (next e)
      end
  end.

Definition zend_llist_copy (st : state) (dst src : zend_llist) : res (state * zend_llist) :=
  let dst := zend_llist_init (l_dtor src) dst in
  copy_loop (heap_fuel st) st dst (l_head src).

(** A callback may change the data it is given; [A] is its own state. *)
Fixpoint apply_with_del_loop {A} (fuel : nat) (func : A -> D -> A * D * bool) (st : state) (element : pointer)
    (l : zend_llist) (a : A) {struct fuel} : res (state * zend_llist * A) :=
  match fuel with
  | O => Err OutOfFuel
  | S fuel =>
      match element with
      | None => Ok (st, l, a)
      | Some p =>
          let! e := load st p in
          let '(a, d, del) := func a (data e) in
          let st := store p (set_data d e) st in
          let! (st, l) := if del : bool then DEL_LLIST_ELEMENT st p l else Ok (st, l) in
          apply_with_del_loop fuel func st (next e) l a
      end
  end.

Definition zend_llist_apply_with_del {A} (st : state) (l : zend_llist) (func : A -> D -> A * D * bool) (a : A)
    : res (state * zend_llist * A) :=
  apply_with_del_loop (heap_fuel st) func st (l_head l) l a.

(** Also [zend_llist_apply_with_argument] and [.._with_arguments], whose
    callbacks have the arguments in [func]. *)
Fixpoint apply_loop {A} (fuel : nat) (func : A -> D -> A * D) (st : state) (element : pointer) (a : A)
    {struct fuel} : res (state * A) :=
  match fuel with
  | O => Err OutOfFuel
  | S fuel =>
      match element with
      | None => Ok (st, a)
      | Some p =>
          let! e := load st p in
          let '(a, d) := func a (data e) in
          let st := store p (set_data d e) st in
          let! e := load st p in
          apply_loop fuel func st (next e) a
      end
  end.

Definition zend_llist_apply {A} (st : state) (l : zend_llist) (func : A -> D -> A * D) (a : A) : res (state * A) :=
  apply_loop (heap_fuel st) func st (l_head l) a.

(** ** Sorting

    The array holds the pointers to the elements; they are paired here with
    the data they point to, which the sort only reads. *)
Fixpoint collect_loop (fuel : nat) (st : state) (element : pointer) {struct fuel} : res (list (positive * D)) :=
  match fuel with
  | O => Err OutOfFuel
  | S fuel =>
      match element with
      | None => Ok []
      | Some p =>
          let! e := load st p in
          let! rest := collect_loop fuel st (next e) in
          Ok ((p, data e) :: rest)
      end
  end.

Definition zend_llist_swap (p q : positive * D) : (positive * D) * (positive * D) := (q, p).

(** [elements[i]->prev = elements[i-1]; elements[i-1]->next = elements[i]] for
    the rest of the array; the last element is returned. *)
Fixpoint relink_loop (st : state) (before : positive) (elements : list (positive * D)) {struct elements}
    : res (state * positive) :=
  match elements with
  | [] => Ok (st, before)
  | (p, _) :: elements =>
      let! st := write_prev p (Some before) st in
      let! st := write_next before (Some p) st in
      relink_loop st p elements
  end.

(** The array has room for [l_count] pointers and is sorted at that length. *)
Definition zend_llist_sort (st : state) (l : zend_llist) (comp_func : D -> D -> Z) : res (state * zend_llist) :=
  if l_count l <=? 0 then Ok (st, l)
  else
    let! elements := collect_loop (heap_fuel st) st (l_head l) in
    if negb (Z.of_nat (length elements) =? l_count l) then Err OutOfBounds
    else
      let! elements := zend_sort (fun a b => comp_func (snd a) (snd b)) zend_llist_swap elements 0 (l_count l) in
      match elements with
      | [] => Err OutOfBounds
      | (p, _) :: rest =>
          let l := set_head (Some p) l in
          let! st := write_prev p None st in
          let! (st, last) := relink_loop st p rest in
          let! st := write_next last None st in
          Ok (st, set_tail (Some last) l)
      end.

(** ** Traversal: the new position and the data there. *)
Definition zend_llist_count (l : zend_llist) : Z := l_count l.

Definition data_at (st : state) (current : pointer) : res (option D) :=
  match current with
  | Some p => let! e := load st p in Ok (Some (data e))
  | None => Ok None
  end.

Definition zend_llist_get_first_ex (st : state) (l : zend_llist) : res (pointer * option D) :=
  let! d := data_at st (l_head l) in Ok (l_head l, d).

Definition zend_llist_get_last_ex (st : state) (l : zend_llist) : res (pointer * option D) :=
  let! d := data_at st (l_tail l) in Ok (l_tail l, d).

Definition zend_llist_get_next_ex (st : state) (current : pointer) : res (pointer * option D) :=
  match current with
  | Some p => let! e := load st p in let! d := data_at st (next e) in Ok (next e, d)
  | None => Ok (None, None)
  end.

Definition zend_llist_get_prev_ex (st : state) (current : pointer) : res (pointer * option D) :=
  match current with
  | Some p => let! e := load st p in let! d := data_at st (prev e) in Ok (prev e, d)
  | None => Ok (None, None)
  end.
End Operations.
Arguments state : clear implicits.

(** ** The shape of a list in the heap *)
Section Shape.
Context {D : Type}.
Implicit Types (h F : gmap positive (zend_llist_element D)) (xs ys : list (positive * D)).

(** The first address of a segment that is followed by [n], and the last one
    of a segment that follows [p]. *)
Definition hd_ptr xs (n : pointer) : pointer := match xs with [] => n | (a, _) :: _ => Some a end.
Fixpoint last_ptr (p : pointer) xs : pointer := match xs with [] => p | (a, _) :: xs => last_ptr (Some a) xs end.

(** The elements [xs], linked in both directions, between [p] and [n]. *)
Fixpoint dseg h (p : pointer) xs (n : pointer) : Prop :=
  match xs with
  | [] => True
  | (a, d) :: xs => h !! a = Some (mk_element (hd_ptr xs n) p d) /\ dseg h (Some a) xs n
  end.

Lemma hd_ptr_app xs ys n : hd_ptr (xs ++ ys) n = hd_ptr xs (hd_ptr ys n).
Proof. by destruct xs as [|[a d] xs]. Qed.

Lemma last_ptr_app p xs ys : last_ptr p (xs ++ ys) = last_ptr (last_ptr p xs) ys.
Proof. revert p. induction xs as [|[a d] xs IH]; intros p; simpl; [done|apply IH]. Qed.

Lemma dseg_app h p xs ys n :
  dseg h p (xs ++ ys) n <-> dseg h p xs (hd_ptr ys n) /\ dseg h (last_ptr p xs) ys n.
Proof.
  revert p. induction xs as [|[a d] xs IH]; intros p; simpl; [tauto|]. rewrite IH, hd_ptr_app. tauto.
Qed.

Lemma dseg_frame h h' p xs n : (forall a, a ∈ xs.*1 -> h' !! a = h !! a) -> dseg h p xs n -> dseg h' p xs n.
Proof.
  revert p. induction xs as [|[a d] xs IH]; intros p Hf; simpl; [done|]. intros [Ha Hs].
  split; [rewrite <- Ha; apply Hf; constructor|]. apply IH; [|done]. intros b Hb. apply Hf. by constructor.
Qed.

Lemma dseg_insert h p xs n a e : a ∉ xs.*1 -> dseg h p xs n -> dseg (<[a := e]> h) p xs n.
Proof. intros Ha. apply dseg_frame. intros b Hb. apply lookup_insert_ne. by intros ->. Qed.

Lemma dseg_delete h p xs n a : a ∉ xs.*1 -> dseg h p xs n -> dseg (delete a h) p xs n.
Proof. intros Ha. apply dseg_frame. intros b Hb. apply lookup_delete_ne. by intros ->. Qed.

Lemma dseg_lookup h p xs ys a d n : dseg h p (xs ++ (a, d) :: ys) n ->
  h !! a = Some (mk_element (hd_ptr ys n) (last_ptr p xs) d).
Proof. rewrite dseg_app. simpl. tauto. Qed.

(** Changing the forward link of the last element, the backward link of the
    first one. *)
Lemma dseg_set_next h p xs a d m n : a ∉ xs.*1 -> dseg h p (xs ++ [(a, d)]) m ->
  dseg (<[a := mk_element n (last_ptr p xs) d]> h) p (xs ++ [(a, d)]) n.
Proof.
  intros Ha. rewrite !dseg_app. simpl. intros (H1 & _ & _). split; [by apply dseg_insert|].
  by rewrite lookup_insert_eq.
Qed.

Lemma dseg_set_prev h p q xs a d n : a ∉ xs.*1 -> dseg h p ((a, d) :: xs) n ->
  dseg (<[a := mk_element (hd_ptr xs n) q d]> h) q ((a, d) :: xs) n.
Proof.
  intros Ha. simpl. intros [_ Hs]. rewrite lookup_insert_eq. split; [done|]. by apply dseg_insert.
Qed.

(** The list [l] has the elements [xs]; the rest of the heap is [F]. *)
Record llist_at h (l : zend_llist) xs F : Prop := {
  la_head : l_head l = hd_ptr xs None;
  la_tail : l_tail l = last_ptr None xs;
  la_count : l_count l = Z.of_nat (length xs);
  la_nodup : NoDup xs.*1;
  la_seg : dseg h None xs None;
  la_rest a : a ∉ xs.*1 -> h !! a = F !! a;
  la_apart a : a ∈ xs.*1 -> F !! a = None;
}.

Lemma last_ptr_None xs p : last_ptr p xs = None -> xs = [] /\ p = None.
Proof.
  revert p. induction xs as [|[a d] xs IH]; intros p; simpl; [done|]. intros H. by apply IH in H as [_ ?].
Qed.

Lemma size_rest h l xs F : llist_at h l xs F -> size h = (length xs + size F)%nat.
Proof.
  intros [_ _ _ Hnd Hs Hr Ha]. revert Hnd Hs Hr Ha. generalize (@None positive) at 1 as p.
  intros p. revert h F p. induction xs as [|[a d] xs IH]; intros h F p Hnd Hs Hr Ha.
  - simpl. f_equal. apply map_eq. intros i. apply Hr. apply not_elem_of_nil.
  - cbn in Hnd. apply NoDup_cons in Hnd as [Hn Hnd]. destruct Hs as [Hl Hs].
    rewrite <- (insert_delete_id h a _ Hl), map_size_insert_None by apply lookup_delete_eq.
    simpl. f_equal. apply (IH _ _ (Some a)); [done|by apply dseg_delete| |].
    + intros b Hb. destruct (decide (b = a)) as [->|Hba].
      * rewrite lookup_delete_eq. symmetry. apply Ha. constructor.
      * rewrite lookup_delete_ne by done. apply Hr. cbn. rewrite not_elem_of_cons. done.
    + intros b Hb. apply Ha. cbn. by right.
Qed.
End Shape.

(** ** The operations on that shape *)
Section OperationFacts.
Context {D : Type} `{ML : MallocLaws D}.
Implicit Types (st : state D) (xs : list (positive * D)) (F : gmap positive (zend_llist_element D)).

Lemma dseg_present (h : gmap positive (zend_llist_element D)) p xs n a :
  dseg h p xs n -> a ∈ xs.*1 -> exists e, h !! a = Some e.
Proof.
  revert p. induction xs as [|[b d] xs IH]; intros p; cbn; [by intros _ ?%elem_of_nil|].
  intros [Hb Hs]. rewrite elem_of_cons. intros [->|Ha]; [by eexists | by eapply IH].
Qed.

Lemma fresh_apart (h : gmap positive (zend_llist_element D)) p xs n :
  dseg h p xs n -> malloc h ∉ xs.*1.
Proof. intros Hs Ha. destruct (dseg_present h p xs n _ Hs Ha) as [e He]. by rewrite malloc_fresh in He. Qed.

Lemma write_next_ok st p n e : heap st !! p = Some e ->
  write_next p n st = Ok (store p (set_next n e) st).
Proof. intros E. unfold write_next, load. by rewrite E. Qed.

Lemma write_prev_ok st p n e : heap st !! p = Some e ->
  write_prev p n st = Ok (store p (set_prev n e) st).
Proof. intros E. unfold write_prev, load. by rewrite E. Qed.

Lemma load_ok st p e : heap st !! p = Some e -> load st p = Ok e.
Proof. intros E. unfold load. by rewrite E. Qed.

(** The first half of an unlinking: the element before [a] points to what
    follows it, or the list starts there. *)
Lemma unlink_prev st l xs1 a d xs2 n : NoDup (xs1 ++ (a, d) :: xs2).*1 ->
  dseg (heap st) None (xs1 ++ (a, d) :: xs2) n -> l_head l = hd_ptr (xs1 ++ (a, d) :: xs2) n ->
  exists st', match last_ptr None xs1 with
              | Some p => let! st := write_next p (hd_ptr xs2 n) st in Ok (st, l)
              | None => Ok (st, set_head (hd_ptr xs2 n) l)
              end = Ok (st', set_head (hd_ptr (xs1 ++ xs2) n) l) /\
  dseg (heap st') None xs1 (hd_ptr xs2 n) /\ destroyed st' = destroyed st /\
  (forall b, b ∉ xs1.*1 -> heap st' !! b = heap st !! b).
Proof.
  intros Hnd Hs Hh. destruct xs1 as [|[p dp] ys] eqn:E using rev_ind.
  - exists st. split; [done|]. split; [done|]. split; [done|]. done.
  - clear IHys. rewrite last_ptr_app. cbn [last_ptr].
    rewrite dseg_app in Hs. destruct Hs as [Hs _]. cbn [hd_ptr] in Hs.
    pose proof (dseg_lookup _ _ _ [] _ _ _ Hs) as Hp. cbn [hd_ptr] in Hp.
    rewrite (write_next_ok _ _ _ _ Hp). rsimp. eexists. split.
    { do 2 f_equal. rewrite <- app_assoc, hd_ptr_app in *. cbn [app hd_ptr] in *. rewrite <- Hh. by destruct l. }
    split; [|split; [done|]].
    + cbn [heap store]. unfold set_next. cbn [prev data]. eapply dseg_set_next; [|done].
      rewrite !fmap_app, <- app_assoc in Hnd. apply NoDup_app in Hnd as (_ & Hd & _).
      intros Hin. apply (Hd _ Hin). cbn. constructor.
    + intros b Hb. cbn. apply lookup_insert_ne. intros ->. apply Hb. rewrite fmap_app. cbn.
      apply elem_of_app. right. constructor.
Qed.

(** The second half. *)
Lemma unlink_next st l xs1 a d xs2 : a ∉ xs2.*1 -> NoDup xs2.*1 ->
  dseg (heap st) (Some a) xs2 None -> l_tail l = last_ptr (last_ptr None xs1) ((a, d) :: xs2) ->
  exists st', match hd_ptr xs2 None with
              | Some n => let! st := write_prev n (last_ptr None xs1) st in Ok (st, l)
              | None => Ok (st, set_tail (last_ptr None xs1) l)
              end = Ok (st', set_tail (last_ptr None (xs1 ++ xs2)) l) /\
  dseg (heap st') (last_ptr None xs1) xs2 None /\ destroyed st' = destroyed st /\
  (forall b, b ∉ xs2.*1 -> heap st' !! b = heap st !! b).
Proof.
  intros Ha Hnd Hs Ht. rewrite last_ptr_app. destruct xs2 as [|[n dn] xs2].
  - exists st. done.
  - cbn [hd_ptr]. pose proof Hs as [Hn _]. rewrite (write_prev_ok _ _ _ _ Hn). rsimp. eexists. split.
    { do 2 f_equal. cbn [last_ptr] in *. rewrite <- Ht. by destruct l. }
    cbn in Hnd. apply NoDup_cons in Hnd as [Hnn Hnd].
    split; [|split; [done|]].
    + cbn [heap store]. unfold set_prev. cbn [next data]. by eapply dseg_set_prev.
    + intros b Hb. cbn. apply lookup_insert_ne. intros ->. apply Hb. cbn. constructor.
Qed.

Definition dtor_log (l : zend_llist) (ds : list D) : list D := if l_dtor l then ds else [].

Lemma call_dtor_heap l d st : heap (call_dtor l d st) = heap st.
Proof. unfold call_dtor. by destruct (l_dtor l). Qed.

Lemma call_dtor_log l d st : destroyed (call_dtor l d st) = destroyed st ++ dtor_log l [d].
Proof. unfold call_dtor, dtor_log. destruct (l_dtor l); [done|]. by rewrite app_nil_r. Qed.

Lemma nodup_middle xs1 a (d : D) xs2 : NoDup (xs1 ++ (a, d) :: xs2).*1 ->
  (a ∉ xs1.*1) /\ (a ∉ xs2.*1) /\ NoDup xs1.*1 /\ NoDup xs2.*1 /\ NoDup (xs1 ++ xs2).*1 /\
  (forall b, b ∈ xs1.*1 -> b ∉ xs2.*1).
Proof.
  rewrite !fmap_app, fmap_cons. cbn [fst]. rewrite !NoDup_app, NoDup_cons. setoid_rewrite not_elem_of_cons.
  intros (H1 & H2 & H3 & H4).
  assert (a ∉ xs1.*1) by (intros Ha; by destruct (H2 a Ha)).
  split_and!; try done; intros b Hb; apply (H2 b Hb).
Qed.

Lemma add_element_correct st l xs F d : llist_at (heap st) l xs F -> Z.of_nat (length xs) < 2 ^ 63 ->
  exists st' l', zend_llist_add_element st l d = Ok (st', l') /\
  llist_at (heap st') l' (xs ++ [(malloc (heap st), d)]) F /\
  destroyed st' = destroyed st /\ l_dtor l' = l_dtor l.
Proof.
  intros [Hh Ht Hc Hnd Hs Hr Ha] Hl. unfold zend_llist_add_element.
  pose proof (fresh_apart _ _ _ _ Hs) as Hf. set (a := malloc (heap st)) in *.
  assert (HFa : F !! a = None) by (rewrite <- Hr by done; apply malloc_fresh).
  assert (Hlast : exists st', match l_tail l with
      | Some t => let! st := write_next t (Some a) (store a (mk_element None (l_tail l) d) st) in Ok (st, l)
      | None => Ok (store a (mk_element None (l_tail l) d) st, set_head (Some a) l)
      end = Ok (st', set_head (hd_ptr (xs ++ [(a, d)]) None) l) /\
      dseg (heap st') None xs (Some a) /\ heap st' !! a = Some (mk_element None (last_ptr None xs) d) /\
      destroyed st' = destroyed st /\
      (forall b, b ∉ xs.*1 -> b <> a -> heap st' !! b = heap st !! b)).
  { rewrite Ht. destruct xs as [|[p dp] ys] eqn:E using rev_ind.
    - eexists. split; [done|]. split; [done|]. split; [by apply lookup_insert_eq|]. split; [done|].
      intros b _ Hb. by apply lookup_insert_ne.
    - clear IHys. rewrite last_ptr_app. cbn [last_ptr].
      pose proof (dseg_lookup _ _ _ [] _ _ _ Hs) as Hp. cbn [hd_ptr] in Hp.
      assert (Hpa : a <> p) by (intros ->; apply Hf; rewrite fmap_app; apply elem_of_app; right; constructor).
      rewrite (write_next_ok _ p _ (mk_element None (last_ptr None ys) dp))
        by (cbn; by rewrite lookup_insert_ne).
      rsimp. eexists. split.
      { do 2 f_equal. rewrite <- app_assoc, hd_ptr_app in *. cbn [app hd_ptr] in *. rewrite <- Hh. by destruct l. }
      cbn [heap store destroyed]. unfold set_next. cbn [prev data].
      split; [|split; [|split; [done|]]].
      + eapply dseg_set_next; [|by apply dseg_insert].
        rewrite fmap_app in Hnd. apply NoDup_app in Hnd as (_ & Hd & _).
        intros Hin. apply (Hd _ Hin). constructor.
      + rewrite lookup_insert_ne by done. by apply lookup_insert_eq.
      + intros b Hb Hba. rewrite !lookup_insert_ne; [done|done|]. intros ->. apply Hb. rewrite fmap_app.
        apply elem_of_app. right. constructor. }
  destruct Hlast as (st' & -> & Hs' & Ha' & Hd' & Hr'). rsimp.
  eexists _, _. split; [reflexivity|]. split; [|done].
  split; cbn [set_count set_tail set_head l_head l_tail l_count].
  - done.
  - by rewrite last_ptr_app.
  - rewrite Hc, u64_small, length_app by lia. simpl. lia.
  - rewrite fmap_app, NoDup_app. split; [done|]. split; [|apply NoDup_singleton].
    intros b Hb. cbn. rewrite list_elem_of_singleton. by intros ->.
  - rewrite dseg_app. done.
  - intros b. rewrite fmap_app, elem_of_app. cbn. rewrite list_elem_of_singleton. intros Hb.
    rewrite Hr' by tauto. apply Hr. tauto.
  - intros b. rewrite fmap_app, elem_of_app. cbn. rewrite list_elem_of_singleton. intros [Hb| ->]; [by apply Ha|done].
Qed.

Lemma prepend_element_correct st l xs F d : llist_at (heap st) l xs F -> Z.of_nat (length xs) < 2 ^ 63 ->
  exists st' l', zend_llist_prepend_element st l d = Ok (st', l') /\
  llist_at (heap st') l' ((malloc (heap st), d) :: xs) F /\
  destroyed st' = destroyed st /\ l_dtor l' = l_dtor l.
Proof.
  intros [Hh Ht Hc Hnd Hs Hr Ha] Hl. unfold zend_llist_prepend_element.
  pose proof (fresh_apart _ _ _ _ Hs) as Hf. set (a := malloc (heap st)) in *.
  assert (HFa : F !! a = None) by (rewrite <- Hr by done; apply malloc_fresh).
  assert (Hfirst : exists st', match l_head l with
      | Some t => let! st := write_prev t (Some a) (store a (mk_element (l_head l) None d) st) in Ok (st, l)
      | None => Ok (store a (mk_element (l_head l) None d) st, set_tail (Some a) l)
      end = Ok (st', set_tail (last_ptr (Some a) xs) l) /\
      dseg (heap st') (Some a) xs None /\ heap st' !! a = Some (mk_element (hd_ptr xs None) None d) /\
      destroyed st' = destroyed st /\
      (forall b, b ∉ xs.*1 -> b <> a -> heap st' !! b = heap st !! b)).
  { rewrite Hh. destruct xs as [|[p dp] ys].
    - eexists. split; [done|]. split; [done|]. split; [by apply lookup_insert_eq|]. split; [done|].
      intros b _ Hb. by apply lookup_insert_ne.
    - cbn [hd_ptr]. pose proof Hs as [Hp _].
      assert (Hpa : a <> p) by (intros ->; apply Hf; constructor).
      rewrite (write_prev_ok _ p _ (mk_element (hd_ptr ys None) None dp)) by (cbn; by rewrite lookup_insert_ne).
      rsimp. eexists. split.
      { do 2 f_equal. cbn [last_ptr] in *. rewrite <- Ht. by destruct l. }
      cbn [heap store destroyed]. unfold set_prev. cbn [next data].
      cbn in Hnd. apply NoDup_cons in Hnd as [Hnp _].
      split; [|split; [|split; [done|]]].
      + eapply dseg_set_prev; [done|]. apply dseg_insert; [exact Hf|]. exact Hs.
      + rewrite lookup_insert_ne by done. by apply lookup_insert_eq.
      + intros b Hb Hba. rewrite !lookup_insert_ne; [done|done|]. intros ->. apply Hb. constructor. }
  destruct Hfirst as (st' & -> & Hs' & Ha' & Hd' & Hr'). rsimp.
  eexists _, _. split; [reflexivity|]. split; [|done].
  split; cbn [set_count set_tail set_head l_head l_tail l_count].
  - done.
  - done.
  - rewrite Hc, u64_small by lia. simpl length. lia.
  - cbn. by apply NoDup_cons.
  - done.
  - intros b [Hb1 Hb2]%not_elem_of_cons. rewrite Hr' by done. by apply Hr.
  - intros b [->|Hb]%elem_of_cons; [done|by apply Ha].
Qed.

(** Unlinking and freeing an element removes it from the list. *)
Lemma del_llist_element_correct st l xs1 a d xs2 F : llist_at (heap st) l (xs1 ++ (a, d) :: xs2) F ->
  Z.of_nat (length (xs1 ++ (a, d) :: xs2)) < 2 ^ 63 ->
  exists st' l', DEL_LLIST_ELEMENT st a l = Ok (st', l') /\ llist_at (heap st') l' (xs1 ++ xs2) F /\
  destroyed st' = destroyed st ++ dtor_log l [d] /\ l_dtor l' = l_dtor l.
Proof.
  intros [Hh Ht Hc Hnd Hs Hr Ha] Hl. destruct (nodup_middle _ _ _ _ Hnd) as (N1 & N2 & N3 & N4 & N5 & N6).
  pose proof (dseg_lookup _ _ _ _ _ _ _ Hs) as He. unfold DEL_LLIST_ELEMENT.
  rewrite (load_ok _ _ _ He). rsimp. cbn [prev next].
  destruct (unlink_prev st l xs1 a d xs2 None Hnd Hs Hh) as (st1 & -> & Hs1 & Hd1 & Hr1). rsimp.
  assert (He1 : heap st1 !! a = Some (mk_element (hd_ptr xs2 None) (last_ptr None xs1) d)) by (by rewrite Hr1).
  rewrite (load_ok _ _ _ He1). rsimp. cbn [prev next].
  apply dseg_app in Hs as [_ [_ Hs2]].
  destruct (unlink_next st1 (set_head (hd_ptr (xs1 ++ xs2) None) l) xs1 a d xs2 N2 N4) as (st2 & -> & Hs2' & Hd2 & Hr2).
  { eapply dseg_frame; [|exact Hs2]. intros b Hb. apply Hr1. intros Hb'. by apply (N6 b). }
  { cbn [set_head l_tail]. by rewrite Ht, last_ptr_app. }
  rsimp. rewrite (load_ok _ _ (mk_element (hd_ptr xs2 None) (last_ptr None xs1) d)) by (by rewrite Hr2). rsimp.
  eexists _, _. split; [reflexivity|]. cbn [free heap destroyed data]. rewrite call_dtor_heap, call_dtor_log.
  split; [|by rewrite Hd2, Hd1].
  split; cbn [set_count set_tail set_head l_head l_tail l_count].
  - done.
  - done.
  - rewrite Hc, !length_app in *. cbn [length] in *. rewrite u64_small by lia. lia.
  - done.
  - apply dseg_delete; [rewrite fmap_app, elem_of_app; tauto|]. rewrite dseg_app. split; [|done].
    eapply dseg_frame; [|exact Hs1]. intros b Hb. apply Hr2. by apply N6.
  - intros b. rewrite fmap_app, elem_of_app. intros Hb. destruct (decide (b = a)) as [->|Hba].
    + rewrite lookup_delete_eq. symmetry. apply Ha. rewrite fmap_app, elem_of_app. right. constructor.
    + rewrite lookup_delete_ne by done. rewrite Hr2, Hr1 by tauto. apply Hr. rewrite fmap_app, elem_of_app. cbn.
      rewrite elem_of_cons. tauto.
  - intros b Hb. apply Ha. rewrite fmap_app, elem_of_app in *. cbn. rewrite elem_of_cons. tauto.
Qed.

Lemma remove_tail_correct st l xs F : llist_at (heap st) l xs F -> Z.of_nat (length xs) < 2 ^ 63 ->
  exists st' l' gone, zend_llist_remove_tail st l = Ok (st', l') /\
  llist_at (heap st') l' (removelast xs) F /\ gone = drop (length xs - 1) xs.*2 /\
  destroyed st' = destroyed st ++ dtor_log l gone /\ l_dtor l' = l_dtor l.
Proof.
  intros [Hh Ht Hc Hnd Hs Hr Ha] Hl. unfold zend_llist_remove_tail. rewrite Ht.
  destruct xs as [|[a d] ys] eqn:E using rev_ind.
  { exists st, l, []. split; [done|]. split; [by split|]. split; [done|]. split; [|done].
    unfold dtor_log. destruct (l_dtor l); by rewrite app_nil_r. }
  clear IHys E. rewrite last_ptr_app. cbn [last_ptr]. rewrite removelast_last, fmap_app, length_app, Nat.add_sub.
  destruct (nodup_middle _ _ _ [] Hnd) as (N1 & _ & N3 & _).
  pose proof (dseg_lookup _ _ _ [] _ _ _ Hs) as He. cbn [hd_ptr] in He.
  rewrite (load_ok _ _ _ He). rsimp. cbn [prev].
  destruct (unlink_prev st l ys a d [] None Hnd Hs Hh) as (st1 & E1 & Hs1 & Hd1 & Hr1).
  cbn [hd_ptr] in E1. rewrite E1. clear E1. rsimp. rewrite app_nil_r.
  rewrite (load_ok _ _ (mk_element None (last_ptr None ys) d)) by (by rewrite Hr1). rsimp. cbn [prev data].
  eexists _, _, [d]. split; [reflexivity|]. cbn [free heap destroyed]. rewrite call_dtor_heap, call_dtor_log, Hd1.
  split; [|split; [by rewrite drop_app_length' by (by rewrite length_fmap)|]; split; [done|done]].
  split; cbn [set_count set_tail set_head l_head l_tail l_count].
  - done.
  - done.
  - rewrite Hc, !length_app in *. cbn [length] in *. rewrite u64_small by lia. lia.
  - done.
  - by apply dseg_delete.
  - intros b Hb. destruct (decide (b = a)) as [->|Hba].
    + rewrite lookup_delete_eq. symmetry. apply Ha. rewrite fmap_app, elem_of_app. right. constructor.
    + rewrite lookup_delete_ne, Hr1 by done. apply Hr. rewrite fmap_app, elem_of_app. cbn.
      rewrite list_elem_of_singleton. tauto.
  - intros b Hb. apply Ha. rewrite fmap_app, elem_of_app. by left.
Qed.

(** What the loops compute on the list of the data. *)
Fixpoint del_first {B} (f : B -> bool) (ds : list B) : list B * list B :=
  match ds with
  | [] => ([], [])
  | d :: ds => if f d then (ds, [d]) else let '(ds', gone) := del_first f ds in (d :: ds', gone)
  end.

Fixpoint del_some {A} (func : A -> D -> A * D * bool) (a : A) (ds : list D) : A * list D * list D :=
  match ds with
  | [] => (a, [], [])
  | d :: ds =>
      let '(a, d, del) := func a d in
      let '(a, kept, gone) := del_some func a ds in
      if del : bool then (a, kept, d :: gone) else (a, d :: kept, gone)
  end.

Fixpoint map_all {A} (func : A -> D -> A * D) (a : A) (ds : list D) : A * list D :=
  match ds with
  | [] => (a, [])
  | d :: ds =>
      let '(a, d) := func a d in
      let '(a, ds) := map_all func a ds in
      (a, d :: ds)
  end.

Lemma dtor_log_nil l : dtor_log l [] = [].
Proof. unfold dtor_log. by destruct (l_dtor l). Qed.

Lemma dtor_log_app l ds es : dtor_log l (ds ++ es) = dtor_log l ds ++ dtor_log l es.
Proof. unfold dtor_log. by destruct (l_dtor l). Qed.

Lemma dtor_log_same l l' ds : l_dtor l' = l_dtor l -> dtor_log l' ds = dtor_log l ds.
Proof. unfold dtor_log. by intros ->. Qed.

Lemma fuel_enough st l xs F : llist_at (heap st) l xs F -> (length xs < heap_fuel st)%nat.
Proof. intros Hl. unfold heap_fuel. rewrite (size_rest _ _ _ _ Hl). lia. Qed.

Lemma at_current st l xs1 a d xs2 F : llist_at (heap st) l (xs1 ++ (a, d) :: xs2) F ->
  load st a = Ok (mk_element (hd_ptr xs2 None) (last_ptr None xs1) d).
Proof. intros Hl. apply load_ok. by apply (dseg_lookup _ _ _ _ _ _ _ (la_seg _ _ _ _ Hl)). Qed.

Lemma llist_empty (h F : gmap positive (zend_llist_element D)) l : l_head l = None -> l_tail l = None ->
  l_count l = 0 -> (forall a, h !! a = F !! a) -> llist_at h l [] F.
Proof. intros Hh Ht Hc Hr. split; try done; [by apply NoDup_nil | by intros a ?%elem_of_nil]. Qed.

Lemma del_element_loop_correct fuel f st l xs1 xs2 F : llist_at (heap st) l (xs1 ++ xs2) F ->
  Z.of_nat (length (xs1 ++ xs2)) < 2 ^ 63 -> (length xs2 < fuel)%nat ->
  exists st' l' xs', del_element_loop fuel f st (hd_ptr xs2 None) l = Ok (st', l') /\
  llist_at (heap st') l' (xs1 ++ xs') F /\ xs'.*2 = fst (del_first f xs2.*2) /\
  destroyed st' = destroyed st ++ dtor_log l (snd (del_first f xs2.*2)) /\ l_dtor l' = l_dtor l.
Proof.
  revert xs1 xs2. induction fuel as [|fuel IH]; intros xs1 [|[a d] xs2] Hl Hn Hf; cbn [length] in Hf; try lia.
  - exists st, l, []. cbn. by rewrite dtor_log_nil, !app_nil_r in *.
  - cbn [del_element_loop hd_ptr]. rewrite (at_current _ _ _ _ _ _ _ Hl). rsimp. cbn [data next].
    cbn [fmap list_fmap snd del_first]. destruct (f d) eqn:Ef.
    + destruct (del_llist_element_correct st l xs1 a d xs2 F Hl Hn) as (st' & l' & -> & Hl' & Hd & Hc).
      exists st', l', xs2. done.
    + destruct (IH (xs1 ++ [(a, d)]) xs2) as (st' & l' & xs' & -> & Hl' & Hx & Hd & Hc);
        [by rewrite <- app_assoc|by rewrite <- app_assoc|lia|].
      exists st', l', ((a, d) :: xs'). rewrite <- app_assoc in Hl'. split; [done|]. split; [done|].
      change ((a, d) :: xs').*2 with (d :: xs'.*2). rewrite Hx.
      change (list_fmap _ _ snd xs2) with (xs2.*2).
      destruct (del_first f xs2.*2) as [ds gone]. done.
Qed.

Lemma destroy_loop_correct fuel st p xs l : NoDup xs.*1 -> dseg (heap st) p xs None -> (length xs < fuel)%nat ->
  exists st', destroy_loop fuel st (hd_ptr xs None) l = Ok st' /\
  destroyed st' = destroyed st ++ dtor_log l xs.*2 /\
  (forall a, a ∈ xs.*1 -> heap st' !! a = None) /\ (forall a, a ∉ xs.*1 -> heap st' !! a = heap st !! a).
Proof.
  revert st p xs. induction fuel as [|fuel IH]; intros st p [|[a d] xs] Hnd Hs Hf; cbn [length] in Hf; try lia.
  - exists st. cbn. rewrite dtor_log_nil, app_nil_r. split; [done|]. split; [done|]. split; [|done].
    by intros a ?%elem_of_nil.
  - cbn [destroy_loop hd_ptr]. destruct Hs as [Ha Hs]. rewrite (load_ok _ _ _ Ha). rsimp. cbn [data next].
    cbn in Hnd. apply NoDup_cons in Hnd as [Hna Hnd].
    destruct (IH (free a (call_dtor l d st)) (Some a) xs Hnd) as (st' & -> & Hd & Hin & Hout); [|lia|].
    { cbn [free heap]. rewrite call_dtor_heap. by apply dseg_delete. }
    exists st'. split; [done|]. cbn [free heap destroyed] in *. rewrite call_dtor_heap in Hout.
    rewrite Hd, call_dtor_log, <- app_assoc, <- dtor_log_app. split; [done|].
    split; intros b; cbn; [intros [->|Hb]%elem_of_cons|intros [H1 H2]%not_elem_of_cons].
    + rewrite Hout by done. apply lookup_delete_eq.
    + by apply Hin.
    + rewrite Hout by done. by apply lookup_delete_ne.
Qed.

Lemma llist_clean_correct st l xs F : llist_at (heap st) l xs F ->
  exists st' l', zend_llist_clean st l = Ok (st', l') /\ llist_at (heap st') l' [] F /\
  destroyed st' = destroyed st ++ dtor_log l xs.*2 /\ l_dtor l' = l_dtor l.
Proof.
  intros Hl. pose proof (fuel_enough _ _ _ _ Hl) as Hf. destruct Hl as [Hh Ht Hc Hnd Hs Hr Ha].
  unfold zend_llist_clean, zend_llist_destroy. rewrite Hh.
  destruct (destroy_loop_correct (heap_fuel st) st None xs l Hnd Hs Hf) as (st' & -> & Hd & Hin & Hout). rsimp.
  eexists _, _. split; [reflexivity|]. split; [|done]. apply llist_empty; [done..|].
  intros a. destruct (decide (a ∈ xs.*1)) as [Hx|Hx]; [rewrite Hin, Ha; done|]. rewrite Hout by done. by apply Hr.
Qed.

Lemma copy_loop_correct fuel st dst ys F p xs : llist_at (heap st) dst ys F -> dseg F p xs None ->
  Z.of_nat (length ys + length xs) < 2 ^ 63 -> (length xs < fuel)%nat ->
  exists st' dst' zs, copy_loop fuel st dst (hd_ptr xs None) = Ok (st', dst') /\
  llist_at (heap st') dst' (ys ++ zs) F /\ zs.*2 = xs.*2 /\ destroyed st' = destroyed st /\ l_dtor dst' = l_dtor dst.
Proof.
  revert st dst ys p xs. induction fuel as [|fuel IH]; intros st dst ys p [|[a d] xs] Hl Hs Hn Hf;
    cbn [length] in Hf; try lia.
  - exists st, dst, []. by rewrite app_nil_r.
  - cbn [copy_loop hd_ptr]. destruct Hs as [Ha Hs].
    assert (Hin : forall st dst ys, llist_at (heap st) dst ys F -> heap st !! a = F !! a).
    { intros st0 dst0 ys0 Hl0. apply (la_rest _ _ _ _ Hl0). intros Hy.
      by rewrite (la_apart _ _ _ _ Hl0 _ Hy) in Ha. }
    rewrite (load_ok _ _ _ (eq_trans (Hin _ _ _ Hl) Ha)). rsimp. cbn [data].
    destruct (add_element_correct st dst ys F d Hl) as (st1 & dst1 & -> & Hl1 & Hd1 & Hc1); [lia|]. rsimp.
    rewrite (load_ok _ _ _ (eq_trans (Hin _ _ _ Hl1) Ha)). rsimp. cbn [next].
    destruct (IH st1 dst1 _ (Some a) xs Hl1 Hs) as (st2 & dst2 & zs & -> & Hl2 & Hz & Hd2 & Hc2).
    + rewrite length_app. cbn [length] in *. lia.
    + lia.
    + exists st2, dst2, ((malloc (heap st), d) :: zs). rewrite <- app_assoc in Hl2. split; [done|]. split; [done|].
      cbn. change (list_fmap _ _ snd) with (fmap (M := list) (@snd positive D)). by rewrite Hz, Hd2, Hc2.
Qed.

(** A copy has the same data, in elements of its own; the source is part of
    the rest of the heap, which does not change. *)
Lemma zend_llist_copy_correct st dst src xs F : llist_at (heap st) src xs F -> Z.of_nat (length xs) < 2 ^ 63 ->
  exists st' dst' zs, zend_llist_copy st dst src = Ok (st', dst') /\
  llist_at (heap st') dst' zs (heap st) /\ zs.*2 = xs.*2 /\ destroyed st' = destroyed st /\ l_dtor dst' = l_dtor src.
Proof.
  intros Hl Hn. unfold zend_llist_copy. rewrite (la_head _ _ _ _ Hl).
  apply (copy_loop_correct (heap_fuel st) st (zend_llist_init (l_dtor src) dst) [] (heap st) None xs);
    [|apply (la_seg _ _ _ _ Hl)|done|].
  - by apply llist_empty.
  - by apply (fuel_enough st src xs F).
Qed.
End OperationFacts.

(** * Lists refine sequences: callbacks, sorting, traversal and whole runs

    The rest of the operations of [Llist.v] on the shape of a list, and the
    theorem that any sequence of operations does to the data what the
    corresponding functions do to a Rocq list. *)

Section Callbacks.
Context {D : Type} `{ML : MallocLaws D}.
Implicit Types (st : state D) (xs : list (positive * D)) (F : gmap positive (zend_llist_element D)).

(** Writing back the data of an element. *)
Lemma set_data_correct st l xs1 a d d' xs2 F : llist_at (heap st) l (xs1 ++ (a, d) :: xs2) F ->
  llist_at (heap (store a (set_data d' (mk_element (hd_ptr xs2 None) (last_ptr None xs1) d)) st)) l
    (xs1 ++ (a, d') :: xs2) F.
Proof.
  intros [Hh Ht Hc Hnd Hs Hr Ha]. destruct (nodup_middle _ _ _ _ Hnd) as (N1 & N2 & _).
  assert (Efst : (xs1 ++ (a, d') :: xs2).*1 = (xs1 ++ (a, d) :: xs2).*1) by (by rewrite !fmap_app).
  split; rewrite ?Efst; try done.
  - by rewrite Hh, !hd_ptr_app.
  - by rewrite Ht, !last_ptr_app.
  - by rewrite Hc, !length_app.
  - cbn [heap store]. apply dseg_app in Hs as [Hs1 [_ Hs2]]. rewrite dseg_app. split; [by apply dseg_insert|].
    cbn [dseg]. split; [apply lookup_insert_eq | by apply dseg_insert].
  - intros b Hb. cbn [heap store]. rewrite lookup_insert_ne; [by apply Hr|]. intros ->. apply Hb.
    rewrite fmap_app, elem_of_app. right. constructor.
Qed.

Lemma apply_loop_correct {A} fuel (func : A -> D -> A * D) st l xs1 xs2 F a :
  llist_at (heap st) l (xs1 ++ xs2) F -> (length xs2 < fuel)%nat ->
  exists st' xs', apply_loop fuel func st (hd_ptr xs2 None) a = Ok (st', fst (map_all func a xs2.*2)) /\
  llist_at (heap st') l (xs1 ++ xs') F /\ xs'.*2 = snd (map_all func a xs2.*2) /\ destroyed st' = destroyed st.
Proof.
  revert st xs1 xs2 a. induction fuel as [|fuel IH]; intros st xs1 [|[p d] xs2] a Hl Hf; cbn [length] in Hf; try lia.
  - by exists st, [].
  - cbn [apply_loop hd_ptr]. rewrite (at_current _ _ _ _ _ _ _ Hl). rsimp. cbn [data].
    change ((p, d) :: xs2).*2 with (d :: xs2.*2). cbn [map_all]. destruct (func a d) as [a' d'].
    pose proof (set_data_correct st l xs1 p d d' xs2 F Hl) as Hl'.
    rewrite (at_current _ _ _ _ _ _ _ Hl'). rsimp. cbn [next].
    destruct (IH _ (xs1 ++ [(p, d')]) xs2 a' ltac:(by rewrite <- app_assoc) ltac:(lia))
      as (st' & xs' & -> & Hl2 & Hx & Hd).
    exists st', ((p, d') :: xs'). rewrite <- app_assoc in Hl2. change ((p, d') :: xs').*2 with (d' :: xs'.*2).
    rewrite Hx. destruct (map_all func a' xs2.*2) as [a2 ds]. done.
Qed.

Lemma apply_with_del_loop_correct {A} fuel (func : A -> D -> A * D * bool) st l xs1 xs2 F a :
  llist_at (heap st) l (xs1 ++ xs2) F -> Z.of_nat (length (xs1 ++ xs2)) < 2 ^ 63 -> (length xs2 < fuel)%nat ->
  exists st' l' xs' a', apply_with_del_loop fuel func st (hd_ptr xs2 None) l a = Ok (st', l', a') /\
  llist_at (heap st') l' (xs1 ++ xs') F /\
  del_some func a xs2.*2 = (a', xs'.*2, snd (del_some func a xs2.*2)) /\
  destroyed st' = destroyed st ++ dtor_log l (snd (del_some func a xs2.*2)) /\ l_dtor l' = l_dtor l.
Proof.
  revert st l xs1 xs2 a. induction fuel as [|fuel IH]; intros st l xs1 [|[p d] xs2] a Hl Hn Hf;
    cbn [length] in Hf; try lia.
  - exists st, l, [], a. cbn. by rewrite dtor_log_nil, !app_nil_r in *.
  - cbn [apply_with_del_loop hd_ptr]. rewrite (at_current _ _ _ _ _ _ _ Hl). rsimp. cbn [data next].
    change ((p, d) :: xs2).*2 with (d :: xs2.*2). cbn [del_some]. destruct (func a d) as [[a' d'] [|]].
    + pose proof (set_data_correct st l xs1 p d d' xs2 F Hl) as Hl'.
      destruct (del_llist_element_correct _ l xs1 p d' xs2 F Hl') as (st1 & l1 & -> & Hl1 & Hd1 & Hc1).
      { rewrite length_app in *. done. }
      rsimp. destruct (IH st1 l1 xs1 xs2 a' Hl1) as (st2 & l2 & xs' & a2 & -> & Hl2 & Hx & Hd2 & Hc2);
        [rewrite length_app in *; cbn [length] in *; lia|lia|].
      exists st2, l2, xs', a2. rewrite Hx in *. cbn [snd] in *.
      rewrite Hd2, Hd1, (dtor_log_same l l1), <- app_assoc, <- dtor_log_app by done. by rewrite Hc2.
    + pose proof (set_data_correct st l xs1 p d d' xs2 F Hl) as Hl'. rsimp.
      destruct (IH _ l (xs1 ++ [(p, d')]) xs2 a' ltac:(by rewrite <- app_assoc)) as
        (st2 & l2 & xs' & a2 & -> & Hl2 & Hx & Hd2 & Hc2);
        [rewrite <- app_assoc, length_app in *; done|lia|].
      exists st2, l2, ((p, d') :: xs'), a2. rewrite <- app_assoc in Hl2. rewrite Hx in *. done.
Qed.
End Callbacks.

(** ** Sorting *)
Section Sorting.
Context {D : Type} `{ML : MallocLaws D}.
Implicit Types (st : state D) (xs : list (positive * D)) (F : gmap positive (zend_llist_element D)).

Lemma collect_loop_correct fuel st p xs : dseg (heap st) p xs None -> (length xs < fuel)%nat ->
  collect_loop fuel st (hd_ptr xs None) = Ok xs.
Proof.
  revert p xs. induction fuel as [|fuel IH]; intros p [|[a d] xs] Hs Hf; cbn [length] in Hf; try lia; [done|].
  cbn [collect_loop hd_ptr]. destruct Hs as [Ha Hs]. rewrite (load_ok _ _ _ Ha). rsimp. cbn [next data].
  by rewrite (IH (Some a) xs Hs) by lia.
Qed.

(** The elements of [xs] are in the heap, with any links. *)
Definition unlinked (h : gmap positive (zend_llist_element D)) xs : Prop :=
  forall a d, (a, d) ∈ xs -> exists n p, h !! a = Some (mk_element n p d).

Lemma relink_loop_correct st before db m q xs :
  NoDup (before :: xs.*1) -> heap st !! before = Some (mk_element m q db) -> unlinked (heap st) xs ->
  exists st' last n, relink_loop st before xs = Ok (st', last) /\ Some last = last_ptr (Some before) xs /\
  dseg (heap st') q ((before, db) :: xs) n /\ destroyed st' = destroyed st /\
  (forall b, b ∉ before :: xs.*1 -> heap st' !! b = heap st !! b).
Proof.
  revert st before db m q. induction xs as [|[a d] xs IH]; intros st before db m q Hnd Hb Hu.
  - exists st, before, m. done.
  - cbn [relink_loop]. destruct (Hu a d) as (n0 & p0 & Ha); [constructor|].
    apply NoDup_cons in Hnd as [[Hba Hbx]%not_elem_of_cons Hnd]. pose proof Hnd as [Hax _]%NoDup_cons.
    rewrite (write_prev_ok _ _ _ _ Ha). rsimp.
    rewrite (write_next_ok _ before _ (mk_element m q db)) by (cbn; by rewrite lookup_insert_ne). rsimp.
    unfold set_next, set_prev. cbn [prev next data].
    destruct (IH (store before (mk_element (Some a) q db) (store a (mk_element n0 (Some before) d) st)) a d n0 (Some before))
      as (st' & last & n & -> & Hlast & Hs & Hd & Hr); [done| | |].
    + cbn. rewrite lookup_insert_ne by done. apply lookup_insert_eq.
    + intros b e Hbe. assert (Hbx' : b ∈ xs.*1) by (apply list_elem_of_fmap; by exists (b, e)).
      destruct (Hu b e) as (n1 & p1 & E1); [by constructor|]. exists n1, p1. cbn.
      rewrite !lookup_insert_ne; [done|intros ->; by apply Hax|intros ->; by apply Hbx].
    + exists st', last, n. split; [done|]. split; [done|]. split; [|split; [done|]].
      * cbn [dseg]. split; [|exact Hs]. rewrite Hr; [apply lookup_insert_eq|].
        by apply not_elem_of_cons.
      * intros b [Hb1 Hb2]%not_elem_of_cons. rewrite Hr by exact Hb2. cbn.
        apply not_elem_of_cons in Hb2 as [Hb2 _]. by rewrite !lookup_insert_ne.
Qed.

(** The last element points nowhere. *)
Lemma close_list st last n xs : NoDup xs.*1 -> dseg (heap st) None xs n -> Some last = last_ptr None xs ->
  exists st', write_next last None st = Ok st' /\ dseg (heap st') None xs None /\
  destroyed st' = destroyed st /\ (forall b, b ∉ xs.*1 -> heap st' !! b = heap st !! b).
Proof.
  intros Hnd Hs Hl. destruct xs as [|[b e] zs] eqn:Ez using rev_ind; [done|]. clear IHzs Ez.
  rewrite last_ptr_app in Hl. injection Hl as ->.
  pose proof (dseg_lookup _ _ _ [] _ _ _ Hs) as Eb. cbn [hd_ptr] in Eb.
  rewrite (write_next_ok _ _ _ _ Eb). eexists. split; [done|]. unfold set_next. cbn [prev data heap store].
  destruct (nodup_middle _ _ _ [] Hnd) as (Hbz & _). split; [by eapply dseg_set_next|]. split; [done|].
  intros c Hcz. apply lookup_insert_ne. intros ->. apply Hcz. rewrite fmap_app, elem_of_app. right. constructor.
Qed.

Lemma swap_exchanges (comp : D -> D -> Z) :
  exchanges (fun a b : positive * D => comp (snd a) (snd b)) zend_llist_swap
    (fun a b => comp (snd a) (snd b)) (fun x => x) (fun _ => tt).
Proof. by split. Qed.

(** Sorting permutes the elements; when the comparison is a total preorder,
    their data are in order. *)
Lemma zend_llist_sort_correct st l xs F comp : llist_at (heap st) l xs F -> Z.of_nat (length xs) < 2 ^ 63 ->
  exists st' l' ys, zend_llist_sort st l comp = Ok (st', l') /\ llist_at (heap st') l' ys F /\
  Permutation xs ys /\ destroyed st' = destroyed st /\ l_dtor l' = l_dtor l /\
  (ordering comp -> forall (i j : nat) d e, (i <= j)%nat -> ys.*2 !! i = Some d -> ys.*2 !! j = Some e ->
    ~ 0 < comp d e).
Proof.
  intros Hl Hn. pose proof (fuel_enough _ _ _ _ Hl) as Hf. pose proof Hl as [Hh Ht Hc Hnd Hs Hr Ha].
  unfold zend_llist_sort. destruct (Z.leb_spec (l_count l) 0) as [H0|H0].
  { destruct xs as [|x xs]; [|simpl in Hc; lia]. by exists st, l, []. }
  rewrite Hh, (collect_loop_correct _ _ _ _ Hs Hf). rsimp. rewrite Hc, Z.eqb_refl. cbn [negb].
  destruct (zend_sort_correct (fun a b : positive * D => comp (snd a) (snd b)) zend_llist_swap
    (fun a b => comp (snd a) (snd b)) (fun x => x) (fun _ => tt) xs 0 (Z.of_nat (length xs)) (swap_exchanges comp))
    as (ys & -> & [Hp _ _ Hsort]); [lia..|]. rsimp. rewrite !map_id in Hp.
  assert (Hnd' : NoDup ys.*1) by (by rewrite (fmap_Permutation fst _ _ Hp)).
  assert (Hin : forall a, a ∈ ys.*1 <-> a ∈ xs.*1) by (intros a; by rewrite (fmap_Permutation fst _ _ Hp)).
  assert (Hu : unlinked (heap st) ys).
  { intros a d Hx. rewrite Hp in Hx. apply list_elem_of_split in Hx as (x1 & x2 & ->).
    do 2 eexists. by apply (dseg_lookup _ _ _ _ _ _ _ Hs). }
  destruct ys as [|[a d] ys]; [apply Permutation_length in Hp; simpl in Hp; lia|].
  destruct (Hu a d) as (n0 & p0 & E0); [constructor|]. rewrite (write_prev_ok _ _ _ _ E0). rsimp.
  unfold set_prev. cbn [next data].
  destruct (relink_loop_correct (store a (mk_element n0 None d) st) a d n0 None ys)
    as (st1 & last & n & -> & Hlast & Hs1 & Hd1 & Hr1); [done|apply lookup_insert_eq| |].
  { intros b e Hbe. destruct (Hu b e) as (n1 & p1 & E1); [by constructor|]. exists n1, p1. cbn.
    rewrite lookup_insert_ne; [done|]. intros ->. apply NoDup_cons in Hnd' as [Hax _]. apply Hax.
    apply list_elem_of_fmap. by exists (b, e). }
  rsimp.
  destruct (close_list st1 last n ((a, d) :: ys)) as (st2 & -> & Hs2 & Hd2 & Hr2); [done..|]. rsimp.
  eexists _, _, _. split; [reflexivity|]. split; [|split; [by symmetry|split; [by rewrite Hd2, Hd1|split; [done|]]]].
  - split; cbn [set_tail set_head l_head l_tail l_count]; [done|by rewrite Hlast| |done|done| |].
    + by rewrite Hc, (Permutation_length Hp).
    + intros b Hb. rewrite Hr2 by done. rewrite Hr1 by done. cbn. rewrite lookup_insert_ne.
      * apply Hr. by rewrite <- Hin.
      * intros ->. apply Hb. constructor.
    + intros b Hb. apply Ha. by apply Hin.
  - intros Hord i j x y Hij Hi Hj. rewrite list_lookup_fmap in Hi, Hj.
    apply fmap_Some in Hi as ([? ?] & Hi & ->). apply fmap_Some in Hj as ([? ?] & Hj & ->).
    assert (Ho : ordering (fun a b : positive * D => comp (snd a) (snd b))).
    { split; [intros u v; apply (or_asym _ Hord) | intros u v w; apply (or_trans _ Hord)]. }
    pose proof (lookup_lt_Some _ _ _ Hj). apply Permutation_length in Hp.
    eapply (Hsort Ho (Z.of_nat i) (Z.of_nat j)); [lia|lia|lia|by apply aget_ok|by apply aget_ok].
Qed.
End Sorting.

(** ** Traversal and whole runs *)
Section Runs.
Context {D : Type} `{ML : MallocLaws D}.
Implicit Types (st : state D) (xs : list (positive * D)) (F : gmap positive (zend_llist_element D)).

(** What a traversal with [step] from a position reads. *)
Fixpoint walk (fuel : nat) (step : pointer -> res (pointer * option D)) (at_ : pointer * option D)
    {struct fuel} : res (list D) :=
  match fuel, at_ with
  | _, (_, None) => Ok []
  | O, _ => Err OutOfFuel
  | S fuel, (pos, Some d) =>
      let! next := step pos in
      let! ds := walk fuel step next in
      Ok (d :: ds)
  end.

Definition forward st (l : zend_llist) : res (list D) :=
  let! first := zend_llist_get_first_ex st l in
  walk (heap_fuel st) (zend_llist_get_next_ex st) first.

Definition backward st (l : zend_llist) : res (list D) :=
  let! last := zend_llist_get_last_ex st l in
  walk (heap_fuel st) (zend_llist_get_prev_ex st) last.

Lemma walk_forward fuel st p xs : dseg (heap st) p xs None -> (length xs < fuel)%nat ->
  (let! d := data_at st (hd_ptr xs None) in
   walk fuel (zend_llist_get_next_ex st) (hd_ptr xs None, d)) = Ok xs.*2.
Proof.
  revert p xs. induction fuel as [|fuel IH]; intros p [|[a d] xs] Hs Hf; cbn [length] in Hf; try lia; [done|].
  destruct Hs as [Ha Hs]. cbn [hd_ptr data_at]. rewrite (load_ok _ _ _ Ha). rsimp.
  cbn [walk data zend_llist_get_next_ex]. rewrite (load_ok _ _ _ Ha). rsimp. cbn [next].
  rewrite rbind_assoc. rsimp. specialize (IH _ xs Hs ltac:(lia)).
  destruct (data_at st (hd_ptr xs None)) as [o|]; [|done]. cbn [rbind] in IH |- *. by rewrite IH.
Qed.

Lemma walk_backward fuel st xs n : dseg (heap st) None xs n -> (length xs < fuel)%nat ->
  (let! d := data_at st (last_ptr None xs) in
   walk fuel (zend_llist_get_prev_ex st) (last_ptr None xs, d)) = Ok (rev xs.*2).
Proof.
  revert fuel n. induction xs as [|[a d] xs IH] using rev_ind; intros [|fuel] n Hs Hf;
    rewrite ?length_app in Hf; cbn [length] in Hf; try lia; [done|].
  pose proof (dseg_lookup _ _ _ [] _ _ _ Hs) as Ha. apply dseg_app in Hs as [Hs _].
  rewrite last_ptr_app, fmap_app, rev_app_distr. cbn [last_ptr data_at]. rewrite (load_ok _ _ _ Ha). rsimp.
  cbn [walk data zend_llist_get_prev_ex]. rewrite (load_ok _ _ _ Ha). rsimp. cbn [prev].
  rewrite rbind_assoc. rsimp. specialize (IH fuel _ Hs ltac:(lia)).
  destruct (data_at st (last_ptr None xs)) as [o|]; [|done]. cbn [rbind] in IH |- *. by rewrite IH.
Qed.

Lemma traversals_correct st l xs F : llist_at (heap st) l xs F ->
  forward st l = Ok xs.*2 /\ backward st l = Ok (rev xs.*2).
Proof.
  intros Hl. pose proof (fuel_enough _ _ _ _ Hl) as Hf. destruct Hl as [Hh Ht _ _ Hs _ _].
  unfold forward, backward, zend_llist_get_first_ex, zend_llist_get_last_ex. rewrite Hh, Ht, !rbind_assoc.
  split; [by apply (walk_forward _ st None) | by apply (walk_backward _ st xs None)].
Qed.

(** The operations, with callbacks that have no state of their own. *)
Inductive llist_op :=
| OpAdd (d : D)
| OpPrepend (d : D)
| OpDel (compare : D -> bool)
| OpRemoveTail
| OpApply (func : D -> D)
| OpApplyWithDel (func : D -> D * bool)
| OpSort (comp : D -> D -> Z)
| OpClean.

Definition run_llist_op (op : llist_op) (st : state D) (l : zend_llist) : res (state D * zend_llist) :=
  match op with
  | OpAdd d => zend_llist_add_element st l d
  | OpPrepend d => zend_llist_prepend_element st l d
  | OpDel f => zend_llist_del_element st l f
  | OpRemoveTail => zend_llist_remove_tail st l
  | OpApply func => let! (st, _) := zend_llist_apply st l (fun _ d => (tt, func d)) tt in Ok (st, l)
  | OpApplyWithDel func =>
      let! (st, l, _) := zend_llist_apply_with_del st l (fun _ d => (tt, fst (func d), snd (func d))) tt in
      Ok (st, l)
  | OpSort comp => zend_llist_sort st l comp
  | OpClean => zend_llist_clean st l
  end.

Fixpoint run_llist_ops (ops : list llist_op) (st : state D) (l : zend_llist) : res (state D * zend_llist) :=
  match ops with
  | [] => Ok (st, l)
  | op :: ops => let! (st, l) := run_llist_op op st l in run_llist_ops ops st l
  end.

(** What an operation does to the data, and the data it gives up, in order. *)
Definition op_effect (op : llist_op) (ds ds' gone : list D) : Prop :=
  match op with
  | OpAdd d => ds' = ds ++ [d] /\ gone = []
  | OpPrepend d => ds' = d :: ds /\ gone = []
  | OpDel f => (ds', gone) = del_first f ds
  | OpRemoveTail => ds' = removelast ds /\ gone = drop (length ds - 1) ds
  | OpApply func => ds' = map func ds /\ gone = []
  | OpApplyWithDel func =>
      ds' = map fst (filter (fun x => snd x = false) (map func ds)) /\
      gone = map fst (filter (fun x => snd x = true) (map func ds))
  | OpSort comp => Permutation ds ds' /\ gone = [] /\
      (ordering comp -> forall (i j : nat) d e, (i <= j)%nat -> ds' !! i = Some d -> ds' !! j = Some e ->
        ~ 0 < comp d e)
  | OpClean => ds' = [] /\ gone = ds
  end.

Inductive op_effects : list llist_op -> list D -> list D -> list D -> Prop :=
| op_effects_nil ds : op_effects [] ds ds []
| op_effects_cons op ops ds1 ds2 ds3 gone1 gone2 :
    op_effect op ds1 ds2 gone1 -> op_effects ops ds2 ds3 gone2 ->
    op_effects (op :: ops) ds1 ds3 (gone1 ++ gone2).

Lemma map_all_pure (func : D -> D) ds : map_all (fun (_ : unit) d => (tt, func d)) tt ds = (tt, map func ds).
Proof. induction ds as [|d ds IH]; simpl; [done|]. by rewrite IH. Qed.

Lemma del_some_pure (func : D -> D * bool) ds :
  del_some (fun (_ : unit) d => (tt, fst (func d), snd (func d))) tt ds =
  (tt, map fst (filter (fun x => snd x = false) (map func ds)),
       map fst (filter (fun x => snd x = true) (map func ds))).
Proof.
  induction ds as [|d ds IH]; cbn [del_some map]; [done|]. rewrite IH, !filter_cons.
  by destruct (func d) as [d' [|]].
Qed.

Lemma del_first_length (f : D -> bool) ds : (length (fst (del_first f ds)) <= length ds)%nat.
Proof.
  induction ds as [|d ds IH]; simpl; [done|]. destruct (f d); simpl; [lia|].
  destruct (del_first f ds). simpl in *. lia.
Qed.

Lemma removelast_fmap {A B} (g : A -> B) (l : list A) : g <$> removelast l = removelast (g <$> l).
Proof. induction l as [|x [|y l] IH]; [done..|]. cbn in *. by rewrite IH. Qed.

Lemma op_effect_length op ds ds' gone : op_effect op ds ds' gone -> (length ds' <= S (length ds))%nat.
Proof.
  destruct op as [d|d|f| |f|f|c|]; cbn [op_effect].
  - intros [-> _]. rewrite length_app. simpl. lia.
  - intros [-> _]. done.
  - intros E. pose proof (del_first_length f ds) as Hl. rewrite <- E in Hl. simpl in Hl. lia.
  - intros [-> _]. destruct ds as [|x ds] using rev_ind; [simpl; lia|]. rewrite removelast_last, length_app. lia.
  - intros [-> _]. rewrite length_map. lia.
  - intros [-> _]. rewrite length_map. etransitivity; [apply length_filter|]. rewrite length_map. lia.
  - intros [Hp _]. apply Permutation_length in Hp. lia.
  - intros [-> _]. simpl. lia.
Qed.

Lemma run_llist_op_correct op st l xs F : llist_at (heap st) l xs F -> Z.of_nat (length xs) < 2 ^ 63 ->
  exists st' l' xs' gone, run_llist_op op st l = Ok (st', l') /\ llist_at (heap st') l' xs' F /\
  op_effect op xs.*2 xs'.*2 gone /\ destroyed st' = destroyed st ++ dtor_log l gone /\ l_dtor l' = l_dtor l.
Proof.
  intros Hl Hn. pose proof (fuel_enough _ _ _ _ Hl) as Hf. pose proof (la_head _ _ _ _ Hl) as Hh.
  destruct op as [d|d|f| |f|f|c|]; cbn [run_llist_op op_effect].
  - destruct (add_element_correct st l xs F d Hl Hn) as (st' & l' & -> & Hl' & Hd & Hc).
    exists st', l', (xs ++ [(malloc (heap st), d)]), []. rewrite dtor_log_nil, app_nil_r, fmap_app. done.
  - destruct (prepend_element_correct st l xs F d Hl Hn) as (st' & l' & -> & Hl' & Hd & Hc).
    exists st', l', ((malloc (heap st), d) :: xs), []. rewrite dtor_log_nil, app_nil_r. done.
  - unfold zend_llist_del_element. rewrite Hh.
    destruct (del_element_loop_correct (heap_fuel st) f st l [] xs F Hl Hn Hf) as (st' & l' & xs' & -> & Hl' & Hx & Hd & Hc).
    exists st', l', xs', (snd (del_first f xs.*2)). rewrite Hx. split; [done|]. split; [done|].
    split; [by destruct (del_first f xs.*2)|done].
  - destruct (remove_tail_correct st l xs F Hl Hn) as (st' & l' & gone & -> & Hl' & -> & Hd & Hc).
    eexists _, _, _, _. split; [done|]. split; [done|]. rewrite removelast_fmap, length_fmap. done.
  - unfold zend_llist_apply. rewrite Hh.
    destruct (apply_loop_correct (heap_fuel st) (fun _ d => (tt, f d)) st l [] xs F tt Hl Hf)
      as (st' & xs' & -> & Hl' & Hx & Hd). rsimp. rewrite map_all_pure in Hx.
    exists st', l, xs', []. by rewrite dtor_log_nil, app_nil_r.
  - unfold zend_llist_apply_with_del. rewrite Hh.
    destruct (apply_with_del_loop_correct (heap_fuel st) (fun _ d => (tt, fst (f d), snd (f d))) st l [] xs F tt Hl Hn Hf)
      as (st' & l' & xs' & [] & -> & Hl' & Hx & Hd & Hc). rsimp. rewrite del_some_pure in Hx, Hd. injection Hx as Hx.
    eexists st', l', xs', _. done.
  - destruct (zend_llist_sort_correct st l xs F c Hl Hn) as (st' & l' & ys & -> & Hl' & Hp & Hd & Hc & Ho).
    exists st', l', ys, []. rewrite dtor_log_nil, app_nil_r. split; [done|]. split; [done|]. split; [|done].
    split; [by apply fmap_Permutation|done].
  - destruct (llist_clean_correct st l xs F Hl) as (st' & l' & -> & Hl' & Hd & Hc).
    by exists st', l', [], xs.*2.
Qed.

Lemma run_llist_ops_correct ops st l xs F : llist_at (heap st) l xs F ->
  Z.of_nat (length xs) + Z.of_nat (length ops) < 2 ^ 63 ->
  exists st' l' xs' gone, run_llist_ops ops st l = Ok (st', l') /\ llist_at (heap st') l' xs' F /\
  op_effects ops xs.*2 xs'.*2 gone /\ destroyed st' = destroyed st ++ dtor_log l gone /\ l_dtor l' = l_dtor l.
Proof.
  revert st l xs. induction ops as [|op ops IH]; intros st l xs Hl Hn; cbn [run_llist_ops length] in *.
  - exists st, l, xs, []. rewrite dtor_log_nil, app_nil_r. split_and!; try done. constructor.
  - destruct (run_llist_op_correct op st l xs F Hl) as (st1 & l1 & xs1 & g1 & -> & Hl1 & He1 & Hd1 & Hc1); [lia|]. rsimp.
    pose proof (op_effect_length _ _ _ _ He1) as Hlen. rewrite !length_fmap in Hlen.
    destruct (IH st1 l1 xs1 Hl1) as (st2 & l2 & xs2 & g2 & -> & Hl2 & He2 & Hd2 & Hc2); [lia|].
    exists st2, l2, xs2, (g1 ++ g2). split; [done|]. split; [done|]. split; [by econstructor|].
    rewrite Hd2, Hd1, dtor_log_app, (dtor_log_same l l1), app_assoc by done. by rewrite Hc2.
Qed.
End Runs.
Arguments llist_op : clear implicits.

(** *** Properties *)

(** C19: Any sequence of operations on a new list ends without an access to freed
    or unknown memory and does to the data what it does to a Rocq list:
    forward and backward traversals read the data in order and in reverse, the
    count is their number, the destructor has been called for the data that
    went away, in order, and only the elements of the list are still
    allocated. *)
Theorem zend_llist_correct {D} `{ML : MallocLaws D} (ops : list (llist_op D)) dtor l0 :
  Z.of_nat (length ops) < 2 ^ 63 ->
  exists st l ds gone, run_llist_ops ops (mk_state ∅ []) (zend_llist_init dtor l0) = Ok (st, l) /\
  op_effects ops [] ds gone /\ forward st l = Ok ds /\ backward st l = Ok (rev ds) /\
  zend_llist_count l = Z.of_nat (length ds) /\ destroyed st = (if dtor then gone else []) /\
  size (heap st) = length ds.
Proof.
  intros Hn. destruct (run_llist_ops_correct ops (mk_state ∅ []) (zend_llist_init dtor l0) [] ∅) as
    (st & l & xs & gone & E & Hl & He & Hd & _); [by apply llist_empty|simpl; lia|].
  exists st, l, xs.*2, gone. destruct (traversals_correct st l xs ∅ Hl) as [Hf Hb].
  rewrite length_fmap, (size_rest _ _ _ _ Hl), map_size_empty, Nat.add_0_r.
  split_and!; try done. apply (la_count _ _ _ _ Hl).
Qed.

(** *** Witnesses *)

#[local] Instance first_free : Malloc Z := fun h => fresh (dom h : gset positive).
#[local] Instance first_free_laws : MallocLaws Z.
Proof.
  intros h. apply (not_elem_of_dom (D := gset positive)). unfold malloc, first_free. apply is_fresh.
Qed.

Definition sample_list_ops : list (llist_op Z) :=
  [OpAdd 3; OpAdd 1; OpPrepend 7; OpSort Z.sub; OpDel (Z.eqb 3); OpAdd 9; OpApplyWithDel (fun d => (d + 1, d =? 1));
   OpRemoveTail].

Lemma zend_llist_correct_witness :
  exists st l ds gone, run_llist_ops sample_list_ops (mk_state ∅ []) (zend_llist_init true (mk_llist None None 0 false None))
    = Ok (st, l) /\
  op_effects sample_list_ops [] ds gone /\ forward st l = Ok ds /\ backward st l = Ok (rev ds) /\
  zend_llist_count l = Z.of_nat (length ds) /\ destroyed st = gone /\ size (heap st) = length ds.
Proof. apply (zend_llist_correct sample_list_ops true (mk_llist None None 0 false None)). reflexivity. Defined.

(** After them the list is [8], and 3, 2 and 10 have been destroyed. *)
Example sample_run :
  (let! (st, l) := run_llist_ops sample_list_ops (mk_state ∅ []) (zend_llist_init true (mk_llist None None 0 false None)) in
   let! ds := forward st l in Ok (ds, destroyed st)) = Ok ([8], [3; 2; 10]).
Proof. vm_compute. reflexivity. Qed.
