(* ===== verification/Stack.v ===== *)
(** * Stacks: [zend_stack] and [zend_ptr_stack] ([Zend/zend_stack.c],
    [Zend/zend_ptr_stack.c], [Zend/zend_ptr_stack.h])

    A stack is an array that grows by blocks.  A slot that has not been
    written is [None].  The model has the calls in which the number of
    elements stays below the range of [int]. *)
From S2P Require Export Prelude.

Section Stacks.
Context {D : Type}.

(** A slot that is read must have been written. *)
Definition slot_get (elements : list (option D)) (i : Z) : res D :=
  let! o := aget elements i in
  match o with Some d => Ok d | None => Err OutOfBounds end.

(** The array with room for [n] slots; the old slots keep their contents. *)
Definition grown (elements : list (option D)) (n : Z) : list (option D) :=
  elements ++ replicate (Z.to_nat n - length elements) None.

(** ** [zend_stack] *)
Definition STACK_BLOCK_SIZE : Z := 16.

(** [elements] is [None] for the null pointer. *)
Record zend_stack := mk_stack { top : Z; max : Z; elements : option (list (option D)) }.

Definition zend_stack_init : zend_stack := mk_stack 0 0 None.

(** The slots; a null pointer has none. *)
Definition slots (stack : zend_stack) : list (option D) :=
  match elements stack with Some l => l | None => [] end.

(** The place of the element and the stack. *)
Definition zend_stack_push (stack : zend_stack) (element : D) : res (Z * zend_stack) :=
  let stack := if max stack <=? top stack then
                 let max := max stack + STACK_BLOCK_SIZE in
                 mk_stack (top stack) max (Some (grown (slots stack) max))
               else stack in
  let! l := aset (slots stack) (top stack) (Some element) in
  Ok (top stack, mk_stack (top stack + 1) (max stack) (Some l)).

Definition zend_stack_top (stack : zend_stack) : res (option D) :=
  if 0 <? top stack then let! d := slot_get (slots stack) (top stack - 1) in Ok (Some d) else Ok None.

Definition zend_stack_del_top (stack : zend_stack) : zend_stack :=
  mk_stack (top stack - 1) (max stack) (elements stack).

Definition zend_stack_is_empty (stack : zend_stack) : bool := top stack =? 0.

Definition zend_stack_destroy (stack : zend_stack) : zend_stack := mk_stack (top stack) (max stack) None.

Definition zend_stack_count (stack : zend_stack) : Z := top stack.

(** The loop over [i], upwards or downwards, for [n] more elements; the
    function says whether to stop.  Also [zend_stack_apply_with_argument]. *)
Fixpoint stack_apply_loop {A} (n : nat) (up : bool) (i : Z) (func : A -> D -> A * bool) (stack : zend_stack) (a : A)
    {struct n} : res A :=
  match n with
  | O => Ok a
  | S n =>
      let! d := slot_get (slots stack) i in
      let '(a, stop) := func a d in
      if stop : bool then Ok a else stack_apply_loop n up (if up then i + 1 else i - 1) func stack a
  end.

Definition zend_stack_apply {A} (stack : zend_stack) (topdown : bool) (func : A -> D -> A * bool) (a : A) : res A :=
  if topdown then stack_apply_loop (Z.to_nat (top stack)) false (top stack - 1) func stack a
  else stack_apply_loop (Z.to_nat (top stack)) true 0 func stack a.

(** [func] is applied to all elements, from the bottom to the top. *)
Definition zend_stack_clean {A} (stack : zend_stack) (func : option (A -> D -> A)) (free_elements : bool) (a : A)
    : res (zend_stack * A) :=
  let! a := match func with
            | Some func => stack_apply_loop (Z.to_nat (top stack)) true 0 (fun a d => (func a d, false)) stack a
            | None => Ok a
            end in
  Ok (if free_elements then mk_stack 0 0 None else stack, a).

(** ** [zend_ptr_stack] *)
Definition PTR_STACK_BLOCK_SIZE : Z := 64.

(** [p_top_element] is an offset from [p_elements]. *)
Record zend_ptr_stack := mk_ptr_stack {
  p_top : Z;
  p_max : Z;
  p_elements : list (option D);
  p_top_element : Z
}.

Definition zend_ptr_stack_init : zend_ptr_stack := mk_ptr_stack 0 0 [] 0.

(** [do max += PTR_STACK_BLOCK_SIZE; while (top + count > max)] *)
Fixpoint resize_loop (fuel : nat) (needed max : Z) {struct fuel} : res Z :=
  match fuel with
  | O => Err OutOfFuel
  | S fuel =>
      let max := max + PTR_STACK_BLOCK_SIZE in
      if max <? needed then resize_loop fuel needed max else Ok max
  end.

Definition ZEND_PTR_STACK_RESIZE_IF_NEEDED (stack : zend_ptr_stack) (count : Z) : res zend_ptr_stack :=
  if p_max stack <? p_top stack + count then
    let! max := resize_loop (Z.to_nat count) (p_top stack + count) (p_max stack) in
    Ok (mk_ptr_stack (p_top stack) max (grown (p_elements stack) max) (p_top stack))
  else Ok stack.

(** [stack->top++; *(stack->top_element++) = elem] for each element. *)
Fixpoint push_loop (stack : zend_ptr_stack) (elems : list D) {struct elems} : res zend_ptr_stack :=
  match elems with
  | [] => Ok stack
  | elem :: elems =>
      let! l := aset (p_elements stack) (p_top_element stack) (Some elem) in
      push_loop (mk_ptr_stack (p_top stack + 1) (p_max stack) l (p_top_element stack + 1)) elems
  end.

(** Also [zend_ptr_stack_2_push] and [zend_ptr_stack_3_push]. *)
Definition zend_ptr_stack_n_push (stack : zend_ptr_stack) (elems : list D) : res zend_ptr_stack :=
  let! stack := ZEND_PTR_STACK_RESIZE_IF_NEEDED stack (Z.of_nat (length elems)) in
  push_loop stack elems.

Definition zend_ptr_stack_push (stack : zend_ptr_stack) (ptr : D) : res zend_ptr_stack :=
  let! stack := ZEND_PTR_STACK_RESIZE_IF_NEEDED stack 1 in
  let! l := aset (p_elements stack) (p_top_element stack) (Some ptr) in
  Ok (mk_ptr_stack (p_top stack + 1) (p_max stack) l (p_top_element stack + 1)).

Definition zend_ptr_stack_pop (stack : zend_ptr_stack) : res (D * zend_ptr_stack) :=
  let! d := slot_get (p_elements stack) (p_top_element stack - 1) in
  Ok (d, mk_ptr_stack (p_top stack - 1) (p_max stack) (p_elements stack) (p_top_element stack - 1)).

(** The elements in the order in which they are popped.  Also
    [zend_ptr_stack_2_pop] and [zend_ptr_stack_3_pop]. *)
Fixpoint zend_ptr_stack_n_pop (stack : zend_ptr_stack) (count : nat) {struct count} : res (list D * zend_ptr_stack) :=
  match count with
  | O => Ok ([], stack)
  | S count =>
      let! (d, stack) := zend_ptr_stack_pop stack in
      let! (ds, stack) := zend_ptr_stack_n_pop stack count in
      Ok (d :: ds, stack)
  end.

Definition zend_ptr_stack_top (stack : zend_ptr_stack) : res D := slot_get (p_elements stack) (p_top stack - 1).

(** [while (--i >= 0) func (elements[i])] with [i = n] before. *)
Fixpoint zend_ptr_stack_apply_loop {A} (n : nat) (stack : zend_ptr_stack) (func : A -> D -> A) (a : A)
    {struct n} : res A :=
  match n with
  | O => Ok a
  | S i =>
      let! d := slot_get (p_elements stack) (Z.of_nat i) in
      zend_ptr_stack_apply_loop i stack func (func a d)
  end.

Definition zend_ptr_stack_apply {A} (stack : zend_ptr_stack) (func : A -> D -> A) (a : A) : res A :=
  zend_ptr_stack_apply_loop (Z.to_nat (p_top stack)) stack func a.

(** [freed] is what [pefree] does to the caller's state. *)
Definition zend_ptr_stack_clean {A} (stack : zend_ptr_stack) (func freed : A -> D -> A) (free_elements : bool) (a : A)
    : res (zend_ptr_stack * A) :=
  let! a := zend_ptr_stack_apply stack func a in
  let! a := if free_elements then zend_ptr_stack_apply_loop (Z.to_nat (p_top stack)) stack freed a else Ok a in
  Ok (mk_ptr_stack 0 (p_max stack) (p_elements stack) 0, a).

Definition zend_ptr_stack_num_elements (stack : zend_ptr_stack) : Z := p_top stack.
End Stacks.
Arguments zend_stack : clear implicits.
Arguments zend_ptr_stack : clear implicits.

(** ** What the stacks hold *)
Section Contents.
Context {D : Type}.

(** The first slots are the elements, from the bottom to the top. *)
Definition filled (l : list (option D)) (n : Z) (ds : list D) : Prop :=
  n = Z.of_nat (length ds) /\ take (length ds) l = map Some ds.

Record stack_holds (s : zend_stack D) (ds : list D) : Prop := {
  sh_filled : filled (slots s) (top s) ds;
  sh_max : Z.of_nat (length (slots s)) = max s;
  sh_null : elements s = None -> max s = 0;
}.

Record ptr_stack_holds (s : zend_ptr_stack D) (ds : list D) : Prop := {
  ph_filled : filled (p_elements s) (p_top s) ds;
  ph_max : Z.of_nat (length (p_elements s)) = p_max s;
  ph_top : p_top_element s = p_top s;
}.

Lemma filled_length l n ds : filled l n ds -> (length ds <= length l)%nat.
Proof. intros [_ H]. apply (f_equal length) in H. rewrite length_take, length_map in H. lia. Qed.

Lemma filled_get l n ds i d : filled l n ds -> ds !! i = Some d -> slot_get l (Z.of_nat i) = Ok d.
Proof.
  intros [_ H] Hi. pose proof (lookup_lt_Some _ _ _ Hi). unfold slot_get.
  rewrite (aget_ok l i (Some d)); [done|].
  rewrite <- (lookup_take_lt l (length ds)), H by done. rewrite list_lookup_fmap. by rewrite Hi.
Qed.

Lemma filled_set l n ds d : filled l n ds -> (length ds < length l)%nat ->
  exists l', aset l n (Some d) = Ok l' /\ filled l' (n + 1) (ds ++ [d]) /\ length l' = length l.
Proof.
  intros [-> H] Hl. rewrite aset_ok by done. eexists. split; [done|]. split; [|apply length_insert].
  split; [rewrite length_app; simpl; lia|]. rewrite length_app, map_app, <- H, Nat.add_comm.
  by apply take_insert_S.
Qed.

Lemma filled_grown l n ds m : filled l n ds -> filled (grown l m) n ds.
Proof.
  intros Hf. pose proof (filled_length _ _ _ Hf). destruct Hf as [-> H']. split; [done|].
  unfold grown. by rewrite take_app_le.
Qed.

Lemma length_grown (l : list (option D)) m : Z.of_nat (length l) <= m -> Z.of_nat (length (grown l m)) = m.
Proof. intros H. unfold grown. rewrite length_app, length_replicate. lia. Qed.

Lemma filled_pop l n ds d : filled l n (ds ++ [d]) -> filled l (n - 1) ds /\ slot_get l (n - 1) = Ok d.
Proof.
  intros Hf. pose proof (filled_get l n (ds ++ [d]) (length ds) d Hf) as Hg.
  rewrite lookup_app_r, Nat.sub_diag in Hg by done. specialize (Hg eq_refl).
  destruct Hf as [-> H]. rewrite length_app in *. cbn [length] in *.
  replace (Z.of_nat (length ds + 1) - 1) with (Z.of_nat (length ds)) by lia. split; [|done].
  split; [done|]. rewrite map_app in H. apply (f_equal (take (length ds))) in H.
  rewrite take_take, Nat.min_l in H by lia. rewrite H, take_app_le by (by rewrite length_map).
  apply take_ge. by rewrite length_map.
Qed.

(** *** [zend_stack] *)
Lemma stack_init_holds : stack_holds zend_stack_init [].
Proof. by split. Qed.

Lemma stack_push_holds s ds d : stack_holds s ds ->
  exists s', zend_stack_push s d = Ok (Z.of_nat (length ds), s') /\ stack_holds s' (ds ++ [d]).
Proof.
  intros [Hf Hm Hn]. unfold zend_stack_push. pose proof (filled_length _ _ _ Hf) as Hl.
  assert (Hroom : exists s1, (if max s <=? top s then
      mk_stack (top s) (max s + STACK_BLOCK_SIZE) (Some (grown (slots s) (max s + STACK_BLOCK_SIZE))) else s) = s1 /\
      filled (slots s1) (top s1) ds /\ Z.of_nat (length (slots s1)) = max s1 /\ (length ds < length (slots s1))%nat).
  { destruct Hf as [Ht Hf]. unfold STACK_BLOCK_SIZE. destruct (Z.leb_spec (max s) (top s)).
    - eexists. split; [done|]. cbn [slots elements top max].
      pose proof (length_grown (slots s) (max s + 16)) as Hg. split; [by apply filled_grown|]. lia.
    - exists s. split; [done|]. split; [done|]. lia. }
  destruct Hroom as (s1 & -> & Hf1 & Hm1 & Hl1).
  destruct (filled_set _ _ _ d Hf1 Hl1) as (l' & -> & Hf2 & Hl2). rsimp.
  eexists. split; [rewrite (proj1 Hf1) at 1; reflexivity|]. split; cbn [slots elements top max]; [done|lia|done].
Qed.

Lemma stack_top_holds s ds : stack_holds s ds -> zend_stack_top s = Ok (last ds).
Proof.
  intros [Hf _ _]. unfold zend_stack_top. destruct ds as [|d ds] using rev_ind.
  - destruct Hf as [-> _]. done.
  - destruct (filled_pop _ _ _ _ Hf) as [_ ->]. destruct Hf as [-> _]. rewrite length_app, last_snoc.
    cbn [length]. destruct (Z.ltb_spec 0 (Z.of_nat (length ds + 1))); [done|lia].
Qed.

Lemma stack_del_top_holds s ds d : stack_holds s (ds ++ [d]) -> stack_holds (zend_stack_del_top s) ds.
Proof. intros [Hf Hm Hn]. split; cbn [zend_stack_del_top slots elements top max]; [by apply (filled_pop _ _ _ d)|done|done]. Qed.

(** A function over the elements that may stop. *)
Fixpoint fold_until {A} (func : A -> D -> A * bool) (a : A) (ds : list D) : A :=
  match ds with
  | [] => a
  | d :: ds => let '(a, stop) := func a d in if stop : bool then a else fold_until func a ds
  end.

Lemma stack_apply_up {A} (func : A -> D -> A * bool) s ds es a : filled (slots s) (top s) (ds ++ es) ->
  stack_apply_loop (length es) true (Z.of_nat (length ds)) func s a = Ok (fold_until func a es).
Proof.
  revert ds a. induction es as [|e es IH]; intros ds a Hf; cbn [stack_apply_loop length fold_until]; [done|].
  rewrite (filled_get _ _ _ (length ds) e Hf) by (by rewrite lookup_app_r, Nat.sub_diag). rsimp.
  destruct (func a e) as [a' [|]]; [done|].
  replace (Z.of_nat (length ds) + 1) with (Z.of_nat (length (ds ++ [e]))) by (rewrite length_app; simpl; lia).
  apply IH. by rewrite <- app_assoc.
Qed.

Lemma stack_apply_down {A} (func : A -> D -> A * bool) s ds es a : filled (slots s) (top s) (ds ++ es) ->
  stack_apply_loop (length ds) false (Z.of_nat (length ds) - 1) func s a = Ok (fold_until func a (rev ds)).
Proof.
  revert es a. induction ds as [|d ds IH] using rev_ind; intros es a Hf; [done|].
  rewrite length_app, Nat.add_comm, rev_app_distr. cbn [stack_apply_loop length fold_until rev app Nat.add].
  replace (Z.of_nat (S (length ds)) - 1) with (Z.of_nat (length ds)) by lia.
  rewrite (filled_get _ _ _ (length ds) d Hf)
    by (rewrite <- app_assoc, lookup_app_r, Nat.sub_diag by done; done). rsimp.
  destruct (func a d) as [a' [|]]; [done|]. apply (IH (d :: es)). by rewrite <- app_assoc in Hf.
Qed.
End Contents.

(** *** [zend_ptr_stack] *)
Section PtrContents.
Context {D : Type}.
Implicit Types (s : zend_ptr_stack D) (ds es : list D).

Lemma resize_loop_ok fuel needed m : m < needed -> needed - m <= Z.of_nat fuel ->
  exists m', resize_loop fuel needed m = Ok m' /\ needed <= m' /\ m <= m'.
Proof.
  unfold PTR_STACK_BLOCK_SIZE. revert m. induction fuel as [|fuel IH]; intros m Hm Hf; [lia|].
  cbn [resize_loop]. unfold PTR_STACK_BLOCK_SIZE. destruct (Z.ltb_spec (m + 64) needed).
  - destruct (IH (m + 64)) as (m' & -> & ? & ?); [lia|lia|]. exists m'. split; [done|lia].
  - exists (m + 64). split; [done|lia].
Qed.

(** Room for [count] more elements. *)
Lemma resize_holds s ds count : ptr_stack_holds s ds -> 0 <= count ->
  exists s', ZEND_PTR_STACK_RESIZE_IF_NEEDED s count = Ok s' /\ ptr_stack_holds s' ds /\
  Z.of_nat (length ds) + count <= Z.of_nat (length (p_elements s')).
Proof.
  intros [Hf Hm Ht] Hc. unfold ZEND_PTR_STACK_RESIZE_IF_NEEDED. pose proof (filled_length _ _ _ Hf) as Hl.
  pose proof (proj1 Hf) as Htop. destruct (Z.ltb_spec (p_max s) (p_top s + count)) as [Hlt|Hge].
  - destruct (resize_loop_ok (Z.to_nat count) (p_top s + count) (p_max s)) as (m & -> & Hm1 & Hm2); [done|lia|].
    rsimp. eexists. split; [done|]. pose proof (length_grown (p_elements s) m ltac:(lia)) as Hg.
    split; [|cbn [p_elements]; lia].
    split; cbn [p_elements p_top p_max p_top_element]; [by apply filled_grown|done|done].
  - exists s. split; [done|]. split; [done|]. lia.
Qed.

Lemma push_loop_holds s ds es : ptr_stack_holds s ds ->
  Z.of_nat (length ds) + Z.of_nat (length es) <= Z.of_nat (length (p_elements s)) ->
  exists s', push_loop s es = Ok s' /\ ptr_stack_holds s' (ds ++ es).
Proof.
  revert s ds. induction es as [|e es IH]; intros s ds Hs Hl; cbn [push_loop length] in *.
  - exists s. by rewrite app_nil_r.
  - destruct Hs as [Hf Hm Ht]. rewrite Ht.
    destruct (filled_set _ _ _ e Hf) as (l' & -> & Hf' & Hl'); [lia|]. rsimp.
    destruct (IH (mk_ptr_stack (p_top s + 1) (p_max s) l' (p_top s + 1)) (ds ++ [e])) as (s' & -> & Hs').
    + split; cbn [p_elements p_top p_max p_top_element]; [done|lia|done].
    + rewrite length_app. cbn [p_elements length]. lia.
    + exists s'. by rewrite <- app_assoc in Hs'.
Qed.

Lemma n_push_holds s ds es : ptr_stack_holds s ds ->
  exists s', zend_ptr_stack_n_push s es = Ok s' /\ ptr_stack_holds s' (ds ++ es).
Proof.
  intros Hs. unfold zend_ptr_stack_n_push.
  destruct (resize_holds s ds (Z.of_nat (length es)) Hs) as (s1 & -> & Hs1 & Hl); [lia|]. rsimp.
  by apply push_loop_holds.
Qed.

(** One push is a push of one. *)
Lemma push_n_push s d : zend_ptr_stack_push s d = zend_ptr_stack_n_push s [d].
Proof. done. Qed.

Lemma pop_holds s ds d : ptr_stack_holds s (ds ++ [d]) ->
  exists s', zend_ptr_stack_pop s = Ok (d, s') /\ ptr_stack_holds s' ds.
Proof.
  intros [Hf Hm Ht]. unfold zend_ptr_stack_pop. rewrite Ht. destruct (filled_pop _ _ _ _ Hf) as [Hf' ->]. rsimp.
  eexists. split; [done|]. by split.
Qed.

Lemma n_pop_holds s ds es : ptr_stack_holds s (ds ++ es) ->
  exists s', zend_ptr_stack_n_pop s (length es) = Ok (rev es, s') /\ ptr_stack_holds s' ds.
Proof.
  revert s. induction es as [|e es IH] using rev_ind; intros s Hs.
  - exists s. by rewrite app_nil_r in Hs.
  - rewrite length_app, Nat.add_comm, rev_app_distr. cbn [length Nat.add zend_ptr_stack_n_pop rev app].
    rewrite app_assoc in Hs. destruct (pop_holds s _ _ Hs) as (s1 & -> & Hs1). rsimp.
    destruct (IH s1 Hs1) as (s2 & -> & Hs2). rsimp. by exists s2.
Qed.

Lemma ptr_apply_ok {A} (func : A -> D -> A) s ds a : ptr_stack_holds s ds ->
  zend_ptr_stack_apply_loop (Z.to_nat (p_top s)) s func a = Ok (foldl func a (rev ds)).
Proof.
  intros [Hf _ _]. rewrite (proj1 Hf), Nat2Z.id.
  assert (Hg : forall es fs a, ds = es ++ fs ->
    zend_ptr_stack_apply_loop (length es) s func a = Ok (foldl func a (rev es))).
  2: { apply (Hg ds [] a). by rewrite app_nil_r. }
  intros es. induction es as [|e es IH] using rev_ind; intros fs b ->; [done|].
  rewrite length_app, Nat.add_comm, rev_app_distr. cbn [length Nat.add zend_ptr_stack_apply_loop rev app foldl].
  rewrite (filled_get _ _ _ (length es) e Hf) by (rewrite <- app_assoc, lookup_app_r, Nat.sub_diag by done; done).
  rsimp. apply (IH (e :: fs)). by rewrite <- app_assoc.
Qed.

(** Sequences of operations, and what they do to the elements; [None] when an
    operation pops more than there is. *)
Inductive ptr_op := PPush (d : D) | PNPush (ds : list D) | PPop | PNPop (count : nat) | PClean (free_elements : bool).

Definition run_ptr_op (op : ptr_op) s : res (list D * zend_ptr_stack D) :=
  match op with
  | PPush d => let! s := zend_ptr_stack_push s d in Ok ([], s)
  | PNPush ds => let! s := zend_ptr_stack_n_push s ds in Ok ([], s)
  | PPop => let! (d, s) := zend_ptr_stack_pop s in Ok ([d], s)
  | PNPop count => zend_ptr_stack_n_pop s count
  | PClean free_elements =>
      let! (s, out) := zend_ptr_stack_clean s (fun out d => out ++ [d]) (fun out _ => out) free_elements [] in
      Ok (out, s)
  end.

Fixpoint run_ptr_ops (ops : list ptr_op) s : res (list D * zend_ptr_stack D) :=
  match ops with
  | [] => Ok ([], s)
  | op :: ops =>
      let! (out, s) := run_ptr_op op s in
      let! (outs, s) := run_ptr_ops ops s in
      Ok (out ++ outs, s)
  end.

(** The elements that come out, and those that stay. *)
Definition ptr_effect (op : ptr_op) ds : option (list D * list D) :=
  match op with
  | PPush d => Some ([], ds ++ [d])
  | PNPush es => Some ([], ds ++ es)
  | PPop => match last ds with Some d => Some ([d], removelast ds) | None => None end
  | PNPop count =>
      if decide (count <= length ds)%nat then
        Some (rev (drop (length ds - count) ds), take (length ds - count) ds)
      else None
  | PClean _ => Some (rev ds, [])
  end.

Fixpoint ptr_effects (ops : list ptr_op) ds : option (list D * list D) :=
  match ops with
  | [] => Some ([], ds)
  | op :: ops =>
      match ptr_effect op ds with
      | Some (out, ds) => match ptr_effects ops ds with Some (outs, ds) => Some (out ++ outs, ds) | None => None end
      | None => None
      end
  end.

Lemma run_ptr_op_correct op s ds out ds' : ptr_stack_holds s ds -> ptr_effect op ds = Some (out, ds') ->
  exists s', run_ptr_op op s = Ok (out, s') /\ ptr_stack_holds s' ds'.
Proof.
  intros Hs. destruct op as [d|es| |count|fr]; cbn [ptr_effect run_ptr_op].
  - intros [= <- <-]. rewrite push_n_push. destruct (n_push_holds s ds [d] Hs) as (s' & -> & Hs'). rsimp. by exists s'.
  - intros [= <- <-]. destruct (n_push_holds s ds es Hs) as (s' & -> & Hs'). rsimp. by exists s'.
  - destruct ds as [|d ds] using rev_ind; [done|]. rewrite last_snoc, removelast_last. intros [= <- <-].
    destruct (pop_holds s ds d Hs) as (s' & -> & Hs'). rsimp. by exists s'.
  - destruct (decide _) as [Hc|]; [|done]. intros [= <- <-].
    rewrite <- (take_drop (length ds - count) ds) in Hs.
    destruct (n_pop_holds s _ _ Hs) as (s' & E & Hs'). rewrite length_drop in E.
    replace (length ds - (length ds - count))%nat with count in E by lia. by exists s'.
  - intros [= <- <-]. unfold zend_ptr_stack_clean, zend_ptr_stack_apply.
    rewrite (ptr_apply_ok _ s ds _ Hs). rsimp.
    assert (Hout : forall o, foldl (fun out d => out ++ [d]) o (rev ds) = o ++ rev ds).
    { generalize (rev ds). intros l. induction l as [|x l IH]; intros o; simpl; [by rewrite app_nil_r|].
      by rewrite IH, <- app_assoc. }
    rewrite Hout. destruct Hs as [Hf Hm Ht]. eexists. split.
    + destruct fr; [|reflexivity]. rewrite (ptr_apply_ok _ s ds) by (by split). rsimp.
      do 3 f_equal. clear. generalize (rev ds) at 2. intros l. induction l; done.
    + split; cbn [p_elements p_top p_max p_top_element]; [by split|done|done].
Qed.

Lemma run_ptr_ops_correct ops s ds outs ds' : ptr_stack_holds s ds -> ptr_effects ops ds = Some (outs, ds') ->
  exists s', run_ptr_ops ops s = Ok (outs, s') /\ ptr_stack_holds s' ds'.
Proof.
  revert s ds outs. induction ops as [|op ops IH]; intros s ds outs Hs; cbn [ptr_effects run_ptr_ops].
  - intros [= <- <-]. by exists s.
  - destruct (ptr_effect op ds) as [[out ds1]|] eqn:E1; [|done].
    destruct (ptr_effects ops ds1) as [[outs1 ds2]|] eqn:E2; [|done]. intros [= <- <-].
    destruct (run_ptr_op_correct op s ds out ds1 Hs E1) as (s1 & -> & Hs1). rsimp.
    destruct (IH s1 ds1 outs1 Hs1 E2) as (s2 & -> & Hs2). rsimp. by exists s2.
Qed.
End PtrContents.
Arguments ptr_op : clear implicits.

(** *** Properties *)


(** A [zend_stack] with the elements [ds]: a push returns the place of the new
    element, the top is the last element, the loops visit the elements in both
    directions until they are told to stop. *)
Lemma zend_stack_correct {D} (s : zend_stack D) ds : stack_holds s ds ->
  (forall d, exists s', zend_stack_push s d = Ok (Z.of_nat (length ds), s') /\ stack_holds s' (ds ++ [d])) /\
  zend_stack_top s = Ok (last ds) /\ zend_stack_count s = Z.of_nat (length ds) /\
  zend_stack_is_empty s = bool_decide (ds = []) /\
  (forall d ds0, ds = ds0 ++ [d] -> stack_holds (zend_stack_del_top s) ds0) /\
  (forall A (func : A -> D -> A * bool) a,
     zend_stack_apply s false func a = Ok (fold_until func a ds) /\
     zend_stack_apply s true func a = Ok (fold_until func a (rev ds))).
Proof.
  intros Hs. pose proof (proj1 (sh_filled _ _ Hs)) as Ht.
  split; [intros d; by apply stack_push_holds|]. split; [by apply stack_top_holds|]. split; [done|]. split.
  { unfold zend_stack_is_empty. rewrite Ht. destruct ds; [done|]. rewrite bool_decide_eq_false_2 by done.
    simpl. done. }
  split; [intros d ds0 ->; by apply (stack_del_top_holds s ds0 d)|].
  intros A func a. unfold zend_stack_apply. rewrite Ht, Nat2Z.id. pose proof (sh_filled _ _ Hs) as Hf. split.
  - by apply (stack_apply_up func s [] ds).
  - apply (stack_apply_down func s ds []). by rewrite app_nil_r.
Qed.

(** *** Witnesses *)
Definition sample_ptr_ops : list (ptr_op Z) := [PPush 1; PNPush [2; 3; 4]; PPop; PNPop 2; PPush 5].

