(* ===== verification/GcData.v ===== *)
(** * The cycle collector: data and traversal ([Zend/zend_gc.h], [Zend/zend_gc.c])

    A counted structure ([zend_refcounted]) has a reference count, the 16-bit
    word [gc_info] (two bits of colour, fourteen of a buffer address) and a
    body.  Of a value the collector sees whether it is undefined, counted, or an
    indirection to another slot; of an object, what its [get_gc] handler
    returns: a table of values and possibly the hash table of its properties. *)
From S2P Require Export HashData.
From stdpp Require Export relations.

#[global] Open Scope Z_scope.

(** ** Values and counted structures *)
Inductive gval :=
| GV_UNDEF
| GV_PLAIN
| GV_COUNTED (counted : addr)
| GV_INDIRECT (zv : addr).

#[export] Instance gval_eq_dec : EqDecision gval.
Proof. solve_decision. Defined.

(** [get_gc(&tmp, &zv, &n)]: the table of [n] values, and the used buckets of
    the returned hash table. *)
Record gc_view := mkView {
  gc_table : list gval;
  gc_ht : option (list gval)
}.

#[export] Instance gc_view_eq_dec : EqDecision gc_view.
Proof. solve_decision. Defined.

(** [has_dtor_obj], [has_free_obj], [get_gc]: the handlers that are not NULL;
    [std_dtor_obj]: [dtor_obj] is [zend_objects_destroy_object];
    [ce_destructor]: the class has a destructor. *)
Record zend_object := mkObject {
  handle : Z;
  obj_destructor_called : bool;
  obj_free_called : bool;
  has_dtor_obj : bool;
  std_dtor_obj : bool;
  ce_destructor : bool;
  has_free_obj : bool;
  get_gc : option gc_view
}.

#[export] Instance zend_object_eq_dec : EqDecision zend_object.
Proof. solve_decision. Defined.

(** [GC_TYPE] and what the structure holds; [T_NULL] is a destroyed one. *)
Inductive gc_body :=
| T_OBJECT (obj : zend_object)
| T_ARRAY (used : list gval)
| T_REFERENCE (val : gval)
| T_OTHER
| T_NULL.

#[export] Instance gc_body_eq_dec : EqDecision gc_body.
Proof. solve_decision. Defined.

Record refcounted := mkCounted {
  gc_refcount : Z;
  gc_info : Z;
  body : gc_body
}.

#[export] Instance refcounted_eq_dec : EqDecision refcounted.
Proof. solve_decision. Defined.

Abbreviation heap := (gmap addr refcounted).

(** What a collection reads and never writes: the slots behind indirections
    and the address of [EG(symbol_table)]. *)
Record genv := mkEnv {
  slots : gmap addr gval;
  symbol_table : addr
}.

(** ** Colours and addresses *)
Definition GC_COLOR : Z := 0xc000.
Definition GC_BLACK : Z := 0x0000.
Definition GC_WHITE : Z := 0x8000.
Definition GC_GREY : Z := 0x4000.
Definition GC_PURPLE : Z := 0xc000.

Definition GC_ADDRESS (v : Z) : Z := Z.land v (Z.lnot GC_COLOR).
Definition GC_INFO_GET_COLOR (v : Z) : Z := Z.land v GC_COLOR.
Definition GC_INFO_SET_ADDRESS (v a : Z) : Z := Z.lor (Z.land v GC_COLOR) a.
Definition GC_INFO_SET_COLOR (v c : Z) : Z := Z.lor (Z.land v (Z.lnot GC_COLOR)) c.
Definition GC_INFO_SET_BLACK (v : Z) : Z := Z.land v (Z.lnot GC_COLOR).
Definition GC_INFO_SET_PURPLE (v : Z) : Z := Z.lor v GC_COLOR.

Definition GC_REF_GET_COLOR (o : refcounted) : Z := GC_INFO_GET_COLOR (gc_info o).

(** ** Accesses through a pointer *)
Definition get_counted (h : heap) (ref : addr) : res refcounted :=
  match h !! ref with Some o => Ok o | None => Err OutOfBounds end.

Definition set_info (i : Z) (o : refcounted) : refcounted := mkCounted (gc_refcount o) i (body o).
Definition set_refcount (n : Z) (o : refcounted) : refcounted := mkCounted n (gc_info o) (body o).

Definition color_of (h : heap) (ref : addr) : res Z :=
  let! o := get_counted h ref in Ok (GC_REF_GET_COLOR o).

Definition GC_REF_SET_COLOR (ref : addr) (c : Z) (h : heap) : res heap :=
  let! o := get_counted h ref in Ok (<[ref := set_info (GC_INFO_SET_COLOR (gc_info o) c) o]> h).

Definition GC_REF_SET_BLACK (ref : addr) (h : heap) : res heap :=
  let! o := get_counted h ref in Ok (<[ref := set_info (GC_INFO_SET_BLACK (gc_info o)) o]> h).

(** [GC_REFCOUNT(ref) += d] *)
Definition add_refcount (d : Z) (ref : addr) (h : heap) : res heap :=
  let! o := get_counted h ref in Ok (<[ref := set_refcount (u32 (gc_refcount o + d)) o]> h).

(** ** The traversal every phase performs

    The last counted value is found from the end, the ones before it are
    visited in order, and the last is visited by the [goto tail_call]. *)
Definition counted (v : gval) : option addr :=
  match v with GV_COUNTED r => Some r | _ => None end.

(** [if (Z_TYPE_P(zv) == IS_INDIRECT) zv = Z_INDIRECT_P(zv)] *)
Definition follow (env : genv) (v : gval) : res gval :=
  match v with
  | GV_INDIRECT c => match slots env !! c with Some w => Ok w | None => Err OutOfBounds end
  | _ => Ok v
  end.

Fixpoint ht_values (env : genv) (used : list gval) : res (list gval) :=
  match used with
  | [] => Ok []
  | v :: used => let! w := follow env v in let! l := ht_values env used in Ok (w :: l)
  end.

(** The number of values before the last counted one, [None] if none is
    counted: [while (1) { end--; if (Z_REFCOUNTED_P(end)) break; if (p == end) return; }] *)
Fixpoint last_counted (l : list gval) (n : nat) {struct n} : option nat :=
  match n with
  | O => None
  | S n => match l !! n with
           | Some (GV_COUNTED _) => Some n
           | _ => last_counted l n
           end
  end.

Section Traverse.
Context {A : Type} (child : A -> addr -> res A).

(** [while (zv != end) { if (Z_REFCOUNTED_P(zv)) child; zv++; }] *)
Fixpoint visit_each (l : list gval) (s : A) : res A :=
  match l with
  | [] => Ok s
  | v :: l =>
      let! s := match counted v with Some r => child s r | None => Ok s end in
      visit_each l s
  end.

Definition visit_values (l : list gval) (s : A) : res A :=
  match last_counted l (length l) with
  | None => Ok s
  | Some n =>
      let! s := visit_each (take n l) s in
      match l !! n with
      | Some (GV_COUNTED r) => child s r
      | _ => Err OutOfBounds
      end
  end.

Definition visit_ht (env : genv) (used : list gval) (s : A) : res A :=
  if (length used =? 0)%nat then Ok s
  else let! l := ht_values env used in visit_values l s.

Definition visit_object (env : genv) (view : gc_view) (s : A) : res A :=
  match gc_ht view with
  | None => if (length (gc_table view) =? 0)%nat then Ok s else visit_values (gc_table view) s
  | Some used => let! s := visit_each (gc_table view) s in visit_ht env used s
  end.

(** The dispatch on the type; [at_table] is done at the symbol table. *)
Definition visit_counted (env : genv) (at_table : A -> res A) (ref : addr) (b : gc_body) (s : A) : res A :=
  match b with
  | T_OBJECT obj =>
      if negb (obj_free_called obj) then
        match get_gc obj with Some view => visit_object env view s | None => Ok s end
      else Ok s
  | T_ARRAY used => if bool_decide (ref = symbol_table env) then at_table s else visit_ht env used s
  | T_REFERENCE v => match v with GV_COUNTED r => child s r | _ => Ok s end
  | T_OTHER | T_NULL => Ok s
  end.

(** The traversal as a fold over the counted structures it meets. *)
Fixpoint fold_res (l : list addr) (s : A) : res A :=
  match l with
  | [] => Ok s
  | r :: l => let! s := child s r in fold_res l s
  end.
End Traverse.

(** What the traversal of a structure meets. *)
Definition kids_of (env : genv) (ref : addr) (b : gc_body) : res (list addr) :=
  match b with
  | T_OBJECT obj =>
      if negb (obj_free_called obj) then
        match get_gc obj with
        | Some view =>
            match gc_ht view with
            | None => Ok (omap counted (gc_table view))
            | Some used =>
                let! l := ht_values env used in Ok (omap counted (gc_table view) ++ omap counted l)
            end
        | None => Ok []
        end
      else Ok []
  | T_ARRAY used =>
      if bool_decide (ref = symbol_table env) then Ok []
      else let! l := ht_values env used in Ok (omap counted l)
  | T_REFERENCE v => match v with GV_COUNTED r => Ok [r] | _ => Ok [] end
  | T_OTHER | T_NULL => Ok []
  end.

(** ** Lemmas on the traversal *)
Section TraverseFacts.
Context {A : Type} (child : A -> addr -> res A).

Lemma fold_res_app l1 l2 s :
  fold_res child (l1 ++ l2) s = let! s := fold_res child l1 s in fold_res child l2 s.
Proof.
  revert s. induction l1 as [|r l1 IH]; intros s; simpl; [done|].
  destruct (child s r); simpl; [apply IH | done].
Qed.

Lemma visit_each_fold l s : visit_each child l s = fold_res child (omap counted l) s.
Proof.
  revert s. induction l as [|v l IH]; intros s; simpl; [done|].
  destruct (counted v); simpl; [|apply IH]. destruct (child s a); simpl; [apply IH | done].
Qed.

Lemma last_counted_ok l n : (n <= length l)%nat ->
  match last_counted l n with
  | None => omap counted (take n l) = []
  | Some k => exists r, l !! k = Some (GV_COUNTED r) /\
      omap counted (take n l) = omap counted (take k l) ++ [r]
  end.
Proof.
  induction n as [|n IH]; intros Hn; simpl; [done|].
  destruct (lookup_lt_is_Some_2 l n Hn) as [v Hv]. rewrite Hv, (take_S_r _ _ _ Hv), omap_snoc.
  specialize (IH ltac:(lia)).
  destruct v as [| |r|c]; simpl; try (rewrite app_nil_r; exact IH). by exists r.
Qed.

Lemma visit_values_fold l s : visit_values child l s = fold_res child (omap counted l) s.
Proof.
  unfold visit_values. pose proof (last_counted_ok l (length l) (le_n _)) as H.
  rewrite take_ge in H by lia. destruct (last_counted l (length l)) as [k|].
  - destruct H as (r & Hr & ->). rewrite Hr, fold_res_app, visit_each_fold. simpl.
    destruct (fold_res child _ s); simpl; [|done]. by destruct (child a r).
  - by rewrite H.
Qed.

Lemma visit_counted_fold env at_table ref b s l :
  kids_of env ref b = Ok l -> (forall used, b = T_ARRAY used -> ref <> symbol_table env) ->
  visit_counted child env at_table ref b s = fold_res child l s.
Proof.
  intros Hk Hst. destruct b as [obj|used|v| |]; simpl in *.
  - destruct (obj_free_called obj); simpl in *; [by injection Hk as <-|].
    destruct (get_gc obj) as [[table [used|]]|]; [| |by injection Hk as <-]; unfold visit_object; simpl in *.
    + destruct (ht_values env used) as [vals|] eqn:E; [|done]. injection Hk as <-.
      rewrite fold_res_app, visit_each_fold. destruct (fold_res child _ s); simpl; [|done].
      unfold visit_ht. destruct used; simpl; [by injection E as <-|]. simpl in E. rewrite E. apply visit_values_fold.
    + injection Hk as <-. destruct table; simpl; [done|]. apply (visit_values_fold (g :: table)).
  - specialize (Hst used eq_refl). rewrite bool_decide_eq_false_2 in * by done.
    destruct (ht_values env used) as [vals|] eqn:E; [|done]. injection Hk as <-.
    unfold visit_ht. destruct used; simpl; [by injection E as <-|]. simpl in E. rewrite E. apply visit_values_fold.
  - destruct v; injection Hk as <-; simpl; try done. by destruct (child s counted0).
  - by injection Hk as <-.
  - by injection Hk as <-.
Qed.
End TraverseFacts.
