(* ===== verification/ObjectStore.v ===== *)
(** * The objects store ([Zend/zend_objects_API.h], [Zend/zend_objects_API.c])

    An object is known by its handle, an index into [object_buckets].  A bucket
    is a word: the object's address while the object is alive, the address with
    the lowest bit set while it is being freed, and afterwards the number of the
    next free bucket, shifted and with the lowest bit set.  [store_wf] says that
    the free list runs through buckets below [top] and ends with -1. *)
From S2P Require Export GcData.

(** ** The words of the buckets *)

(** Objects are aligned; [obj_word] is the address of one. *)
Definition obj_word (x : addr) : Z := 8 * Z.pos x.
Definition word_obj (w : Z) : addr := Z.to_pos (w / 8).

Definition OBJ_BUCKET_INVALID : Z := Z.shiftl 1 0.
Definition IS_OBJ_VALID (w : Z) : bool := Z.land w OBJ_BUCKET_INVALID =? 0.
Definition SET_OBJ_INVALID (w : Z) : Z := Z.lor w OBJ_BUCKET_INVALID.
Definition GET_OBJ_BUCKET_NUMBER (w : Z) : Z := s32 (Z.shiftr (s64 w) 1).
Definition SET_OBJ_BUCKET_NUMBER (n : Z) : Z := Z.lor (u64 (Z.shiftl (u64 n) 1)) OBJ_BUCKET_INVALID.

(** ** The store

    [no_reuse] is the flag [EG_FLAGS_OBJECT_STORE_NO_REUSE]; a bucket is [None]
    until it is written. *)
Record zend_objects_store := mkStore {
  object_buckets : option (list (option Z));
  top : Z;
  store_size : Z;
  free_list_head : Z;
  no_reuse : bool
}.

Definition set_buckets (x : option (list (option Z))) (s : zend_objects_store) : zend_objects_store :=
  mkStore x (top s) (store_size s) (free_list_head s) (no_reuse s).
Definition set_free_list_head (x : Z) (s : zend_objects_store) : zend_objects_store :=
  mkStore (object_buckets s) (top s) (store_size s) x (no_reuse s).
Definition set_top (x : Z) (s : zend_objects_store) : zend_objects_store :=
  mkStore (object_buckets s) x (store_size s) (free_list_head s) (no_reuse s).
Definition set_no_reuse (x : bool) (s : zend_objects_store) : zend_objects_store :=
  mkStore (object_buckets s) (top s) (store_size s) (free_list_head s) x.

Definition buckets (s : zend_objects_store) : res (list (option Z)) :=
  match object_buckets s with Some l => Ok l | None => Err OutOfBounds end.

Definition get_bucket (handle : Z) (s : zend_objects_store) : res Z :=
  let! l := buckets s in
  let! b := aget l handle in
  match b with Some w => Ok w | None => Err OutOfBounds end.

Definition set_bucket (handle w : Z) (s : zend_objects_store) : res zend_objects_store :=
  let! l := buckets s in
  let! l := aset l handle (Some w) in
  Ok (set_buckets (Some l) s).

Definition zend_objects_store_init (init_size : Z) (s : zend_objects_store) : res zend_objects_store :=
  set_bucket 0 0 (mkStore (Some (replicate (Z.to_nat init_size) None)) 1 init_size (-1) (no_reuse s)).

Definition zend_objects_store_destroy (s : zend_objects_store) : zend_objects_store := set_buckets None s.

(** [if (objects_store.top == objects_store.size)]: twice the buckets *)
Definition store_grow (s : zend_objects_store) : res zend_objects_store :=
  if top s =? store_size s then
    let new_size := u32 (2 * store_size s) in
    let! l := buckets s in
    Ok (mkStore (Some (take (Z.to_nat new_size) l ++ replicate (Z.to_nat new_size - length l) None)) (top s) new_size
          (free_list_head s) (no_reuse s))
  else Ok s.

(** The handle of a new object. *)
Definition new_handle (s : zend_objects_store) : res (Z * zend_objects_store) :=
  if negb (free_list_head s =? -1) && negb (no_reuse s) then
    let handle := free_list_head s in
    let! w := get_bucket handle s in
    Ok (handle, set_free_list_head (GET_OBJ_BUCKET_NUMBER w) s)
  else
    let! s := store_grow s in
    Ok (s32 (top s), set_top (u32 (top s + 1)) s).

Definition store_put (x : addr) (s : zend_objects_store) : res (Z * zend_objects_store) :=
  let! (handle, s) := new_handle s in
  let! s := set_bucket handle (obj_word x) s in
  Ok (handle, s).

Definition ZEND_OBJECTS_STORE_ADD_TO_FREE_LIST (handle : Z) (s : zend_objects_store) : res zend_objects_store :=
  let! s := set_bucket handle (SET_OBJ_BUCKET_NUMBER (free_list_head s)) s in
  Ok (set_free_list_head handle s).

(** ** Lemmas on the words *)
Lemma obj_word_valid x : IS_OBJ_VALID (obj_word x) = true.
Proof.
  unfold IS_OBJ_VALID, obj_word, OBJ_BUCKET_INVALID. change (Z.shiftl 1 0) with (Z.ones 1).
  rewrite Z.land_ones by lia. apply Z.eqb_eq. replace (8 * Z.pos x) with (4 * Z.pos x * 2 ^ 1) by lia. by apply Z.mod_mul.
Qed.

Lemma word_obj_word x : word_obj (obj_word x) = x.
Proof. unfold word_obj, obj_word. rewrite Z.mul_comm, Z.div_mul by lia. done. Qed.

Lemma obj_word_inj x y : obj_word x = obj_word y -> x = y.
Proof. unfold obj_word. lia. Qed.

Lemma lor_1_invalid w : IS_OBJ_VALID (Z.lor w OBJ_BUCKET_INVALID) = false.
Proof.
  unfold IS_OBJ_VALID, OBJ_BUCKET_INVALID. change (Z.shiftl 1 0) with 1. apply Z.eqb_neq. intros E.
  assert (T : Z.testbit (Z.land (Z.lor w 1) 1) 0 = false) by (rewrite E; apply Z.bits_0).
  rewrite Z.land_spec, Z.lor_spec in T. change (Z.testbit 1 0) with true in T. by rewrite orb_true_r in T.
Qed.

Lemma lor_double k : 0 <= k -> Z.lor (2 * k) 1 = 2 * k + 1.
Proof. by destruct k. Qed.

Lemma u64_double n : u64 (Z.shiftl (u64 n) 1) = 2 * (n mod 2 ^ 63).
Proof.
  rewrite Z.shiftl_mul_pow2 by lia. unfold u64. rewrite Zmult_mod_idemp_l.
  change (2 ^ 64) with (2 * 2 ^ 63). change (2 ^ 1) with 2. rewrite (Z.mul_comm n 2). by apply Z.mul_mod_distr_l.
Qed.

(** The number of a free bucket is read back. *)
Lemma bucket_number n : - 2 ^ 31 <= n < 2 ^ 31 -> GET_OBJ_BUCKET_NUMBER (SET_OBJ_BUCKET_NUMBER n) = n.
Proof.
  intros Hn. unfold GET_OBJ_BUCKET_NUMBER, SET_OBJ_BUCKET_NUMBER, OBJ_BUCKET_INVALID. change (Z.shiftl 1 0) with 1.
  pose proof (Z.mod_pos_bound n (2 ^ 63) ltac:(lia)). rewrite u64_double, lor_double by lia.
  assert (E : s64 (2 * (n mod 2 ^ 63) + 1) = 2 * n + 1).
  { unfold s64. pose proof (Z.div_mod n (2 ^ 63) ltac:(lia)). symmetry.
    assert (Hd : 2 * n + 1 + 2 ^ 63 = (2 * (n mod 2 ^ 63) + 1 + 2 ^ 63) mod 2 ^ 64); [|lia].
    apply (Zmod_unique _ _ (- (n / 2 ^ 63))); lia. }
  rewrite E, Z.shiftr_div_pow2 by lia. change (2 ^ 1) with 2.
  replace (2 * n + 1) with (1 + n * 2) by lia. rewrite Z.div_add by lia. by apply s32_small.
Qed.

(** ** The invariant *)

(** The free list from [p] runs through the buckets [fl]. *)
Fixpoint free_chain (s : zend_objects_store) (p : Z) (fl : list Z) : Prop :=
  match fl with
  | [] => p = -1
  | h :: fl => p = h /\ exists n, get_bucket h s = Ok (SET_OBJ_BUCKET_NUMBER n) /\ - 2 ^ 31 <= n < 2 ^ 31 /\ free_chain s n fl
  end.

Record store_wf (s : zend_objects_store) (fl : list Z) : Prop := {
  sw_buckets : exists l, object_buckets s = Some l /\ Z.of_nat (length l) = store_size s;
  sw_top : 1 <= top s <= store_size s;
  sw_size : store_size s < 2 ^ 30;
  sw_free : free_chain s (free_list_head s) fl;
  sw_range h : h ∈ fl -> 1 <= h < top s;
  sw_nodup : NoDup fl
}.

(** The bucket of a live object. *)
Definition live_at (s : zend_objects_store) (h : Z) (x : addr) : Prop := 1 <= h < top s /\ get_bucket h s = Ok (obj_word x).

Lemma get_set s h w s' k : set_bucket h w s = Ok s' -> 0 <= h -> 0 <= k -> get_bucket k s' = if k =? h then Ok w else get_bucket k s.
Proof.
  unfold set_bucket, get_bucket, buckets. destruct (object_buckets s) as [l|]; [|done]. rsimp.
  unfold aset. intros H Hh Hk. destruct ((h <? 0) || (Z.of_nat (length l) <=? h)) eqn:E; [done|]. injection H as <-. cbn [object_buckets set_buckets].
  rsimp. unfold aget. apply orb_false_iff in E as [E1 E2]. zbool.
  destruct (Z.ltb_spec k 0); [lia|]. destruct (Z.eqb_spec k h) as [->|Hne].
  - rewrite list_lookup_insert_eq by lia. done.
  - rewrite list_lookup_insert_ne by lia. done.
Qed.

Lemma set_bucket_ok s h w : (exists l, object_buckets s = Some l /\ Z.of_nat (length l) = store_size s) -> 0 <= h < store_size s ->
  exists s', set_bucket h w s = Ok s' /\ top s' = top s /\ free_list_head s' = free_list_head s /\ no_reuse s' = no_reuse s /\
    store_size s' = store_size s /\ (exists l, object_buckets s' = Some l /\ Z.of_nat (length l) = store_size s').
Proof.
  intros (l & E & Hl) Hh. unfold set_bucket, buckets. rewrite E. rsimp. rewrite aset_okZ by lia. rsimp. eexists.
  split; [done|]. do 4 (split; [done|]). eexists. split; [done|]. cbn. by rewrite length_insert.
Qed.

Lemma free_frame s s' p fl : (forall h, h ∈ fl -> get_bucket h s' = get_bucket h s) -> free_chain s p fl -> free_chain s' p fl.
Proof.
  revert p. induction fl as [|h fl IH]; intros p H; simpl; [done|]. intros (-> & n & E & Hn & C). split; [done|].
  exists n. rewrite H by left. split; [done|]. split; [done|]. apply IH; [|done]. intros k Hk. apply H. by right.
Qed.

Lemma chain_number s p fl h : free_chain s p fl -> h ∈ fl -> exists n, get_bucket h s = Ok (SET_OBJ_BUCKET_NUMBER n).
Proof.
  revert p. induction fl as [|a fl IH]; intros p C Hin; [by apply not_elem_of_nil in Hin|]. destruct C as (_ & n & Ga & _ & C).
  apply elem_of_cons in Hin as [->|Hin]; [by exists n | by apply (IH n)].
Qed.

(** A free handle is not that of a live object. *)
Lemma free_not_live s fl h x : store_wf s fl -> live_at s h x -> h ∉ fl.
Proof.
  intros W [_ Hg] Hin. destruct (chain_number _ _ _ _ (sw_free _ _ W) Hin) as [n E]. rewrite E in Hg. injection Hg as Hg.
  pose proof (lor_1_invalid (u64 (Z.shiftl (u64 n) 1))) as Hi. unfold SET_OBJ_BUCKET_NUMBER in Hg.
  by rewrite Hg, obj_word_valid in Hi.
Qed.

Lemma free_head_range s fl : store_wf s fl -> - 2 ^ 31 <= free_list_head s < 2 ^ 31.
Proof.
  intros W. pose proof (sw_free _ _ W) as C. destruct fl as [|h fl]; simpl in C; [lia|]. destruct C as (-> & _).
  pose proof (sw_range _ _ W h ltac:(left)). pose proof (sw_top _ _ W). pose proof (sw_size _ _ W). lia.
Qed.

(** A write to a bucket that is not on the free list. *)
Lemma set_bucket_wf s fl h w : store_wf s fl -> 1 <= h < top s -> h ∉ fl ->
  exists s', set_bucket h w s = Ok s' /\ store_wf s' fl /\ top s' = top s /\ free_list_head s' = free_list_head s /\ no_reuse s' = no_reuse s /\
    forall k, 0 <= k -> get_bucket k s' = if k =? h then Ok w else get_bucket k s.
Proof.
  intros W Hh Hn. pose proof (sw_top _ _ W). destruct (set_bucket_ok s h w (sw_buckets _ _ W)) as (s' & E & E1 & E2 & E3 & E4 & E5); [lia|].
  exists s'. split; [done|]. pose proof (fun k => get_set s h w s' k E ltac:(lia)) as G. split; [|done]. split.
  - done.
  - lia.
  - rewrite E4. apply W.
  - rewrite E2. apply (free_frame s); [|apply W]. intros k Hk. pose proof (sw_range _ _ W k Hk). rewrite G by lia.
    destruct (Z.eqb_spec k h); [by subst | done].
  - rewrite E1. apply W.
  - apply W.
Qed.

Lemma add_free_wf s fl h : store_wf s fl -> 1 <= h < top s -> h ∉ fl ->
  exists s', ZEND_OBJECTS_STORE_ADD_TO_FREE_LIST h s = Ok s' /\ store_wf s' (h :: fl) /\ top s' = top s /\ no_reuse s' = no_reuse s /\
    forall k, 0 <= k -> k <> h -> get_bucket k s' = get_bucket k s.
Proof.
  intros W Hh Hn. unfold ZEND_OBJECTS_STORE_ADD_TO_FREE_LIST. pose proof (free_head_range _ _ W) as Hr.
  destruct (set_bucket_wf s fl h (SET_OBJ_BUCKET_NUMBER (free_list_head s)) W Hh Hn) as (s' & -> & W' & E1 & E2 & E3 & G).
  rsimp. eexists. split; [done|]. assert (Hoth : forall k, 0 <= k -> k <> h -> get_bucket k s' = get_bucket k s).
  { intros k H0 Hne. rewrite G by done. by rewrite (proj2 (Z.eqb_neq _ _) Hne). }
  split; [|done]. destruct W'. split; try done; cbn [set_free_list_head top free_list_head].
  - split; [done|]. exists (free_list_head s). split; [|split; [done|]].
    + change (get_bucket h s' = Ok (SET_OBJ_BUCKET_NUMBER (free_list_head s))). rewrite G by lia. by rewrite Z.eqb_refl.
    + rewrite <- E2. apply (free_frame s'); [done|]. by rewrite E2 in sw_free0 |- *.
  - intros k [->|Hk]%elem_of_cons; [lia | by apply sw_range0].
  - by constructor.
Qed.

(** ** A new object *)
Lemma store_grow_ok s fl : store_wf s fl -> store_size s < 2 ^ 29 ->
  exists s', store_grow s = Ok s' /\ store_wf s' fl /\ top s' = top s /\ top s' < store_size s' /\ no_reuse s' = no_reuse s /\
    free_list_head s' = free_list_head s /\ (forall k, 1 <= k < top s -> get_bucket k s' = get_bucket k s) /\
    store_size s' = if top s =? store_size s then 2 * store_size s else store_size s.
Proof.
  intros W Hsz. destruct (sw_buckets _ _ W) as (l & E & Hl). pose proof (sw_top _ _ W) as Ht. unfold store_grow.
  destruct (Z.eqb_spec (top s) (store_size s)) as [Ef|Ef]; [|exists s; split; [done|]; split; [done|]; split; [done|]; split; [lia|]; done].
  unfold buckets. rewrite E. rsimp. rewrite u32_small by lia. rewrite take_ge by lia. eexists. split; [done|].
  set (s' := mkStore _ _ _ _ _). assert (G : forall k, 1 <= k < top s -> get_bucket k s' = get_bucket k s).
  { intros k Hk. unfold get_bucket, buckets. cbn [s' object_buckets]. rewrite E. rsimp. unfold aget. destruct (k <? 0); [done|].
    by rewrite lookup_app_l by lia. }
  split; [|split; [done|]; split; [cbn; lia|]; split; [done|]; split; [done|]; split; [exact G | done]].
  split; cbn [s' top store_size free_list_head object_buckets].
  - eexists. split; [done|]. rewrite length_app, length_replicate. lia.
  - lia.
  - lia.
  - apply (free_frame s); [|apply W]. intros h Hh. apply G. by apply (sw_range _ _ W).
  - apply W.
  - apply W.
Qed.

(** A handle from the end of the store, which is doubled when it is full. *)
Definition handle_from_end (s s' : zend_objects_store) (fl fl' : list Z) (h : Z) : Prop :=
  h = top s /\ top s' = top s + 1 /\ fl' = fl /\
  store_size s' = if top s =? store_size s then 2 * store_size s else store_size s.

(** The handle of a new object is the head of the free list, and the rest of
    the list stays; it comes from the end when the list is empty or freed
    handles are not reused. *)
Definition takes_handle (s s' : zend_objects_store) (fl fl' : list Z) (h : Z) : Prop :=
  no_reuse s' = no_reuse s /\
  match fl with
  | k :: rest =>
      if no_reuse s then handle_from_end s s' fl fl' h
      else h = k /\ fl' = rest /\ top s' = top s /\ store_size s' = store_size s
  | [] => handle_from_end s s' fl fl' h
  end.

Lemma takes_handle_cases s s' fl fl' h : store_wf s fl -> takes_handle s s' fl fl' h ->
  (h ∈ fl \/ h = top s) /\ top s <= top s' /\ h < top s' /\ (h ∉ fl') /\ 1 <= h.
Proof.
  intros W [_ H]. pose proof (sw_top _ _ W) as Ht. assert (Hend : handle_from_end s s' fl fl' h ->
    (h ∈ fl \/ h = top s) /\ top s <= top s' /\ h < top s' /\ (h ∉ fl') /\ 1 <= h).
  { intros (-> & E & -> & _). split; [by right|]. split; [lia|]. split; [lia|]. split; [|lia].
    intros Hin. apply (sw_range _ _ W) in Hin. lia. }
  destruct fl as [|k rest]; [by apply Hend|]. destruct (no_reuse s); [by apply Hend|]. destruct H as (-> & -> & E & _).
  pose proof (sw_range _ _ W k ltac:(left)). pose proof (sw_nodup _ _ W) as N. inversion_clear N.
  split; [left; left|]. split; [lia|]. split; [lia|]. split; [done | lia].
Qed.

(** The handle is free, and the buckets of the others stay. *)
Lemma new_handle_ok s fl : store_wf s fl -> store_size s < 2 ^ 29 ->
  exists h s' fl', new_handle s = Ok (h, s') /\ store_wf s' fl' /\ takes_handle s s' fl fl' h /\
    forall k, 1 <= k < top s -> get_bucket k s' = get_bucket k s.
Proof.
  intros W Hsz. unfold new_handle, takes_handle. pose proof (sw_free _ _ W) as C. pose proof (sw_top _ _ W) as Ht.
  assert (Hend : exists h s' fl', (let! s := store_grow s in Ok (s32 (top s), set_top (u32 (top s + 1)) s)) = Ok (h, s') /\ store_wf s' fl' /\
    (no_reuse s' = no_reuse s /\ handle_from_end s s' fl fl' h) /\ forall k, 1 <= k < top s -> get_bucket k s' = get_bucket k s).
  { destruct (store_grow_ok s fl W Hsz) as (s' & -> & W' & E1 & Hlt & E3 & E4 & G & E5). rsimp.
    pose proof (sw_size _ _ W'). rewrite s32_small, u32_small by lia. exists (top s'), (set_top (top s' + 1) s'), fl.
    split; [done|]. split; [|split; [split; [done|] | exact G]].
    - destruct W'. split; try done; cbn [set_top top store_size]; [lia | by apply (free_frame s') |].
      intros h Hh. apply sw_range0 in Hh. lia.
    - split; [done|]. split; [cbn; lia|]. by split. }
  destruct fl as [|h fl]; simpl in C.
  { rewrite C. exact Hend. }
  destruct (no_reuse s) eqn:Er; [by rewrite andb_false_r|]. rewrite andb_true_r. destruct C as (Eh & n & G & Hn & C).
  pose proof (sw_range _ _ W h ltac:(left)) as Hh. rewrite Eh. destruct (Z.eqb_spec h (-1)); [lia|]. cbn [negb].
  rewrite G. rsimp. exists h, (set_free_list_head n s), fl. rewrite bucket_number by done. split; [done|].
  pose proof (sw_nodup _ _ W) as N. inversion_clear N as [|? ? Nh N']. split; [|done].
  destruct W. split; try done; [by apply (free_frame s)|]. intros k Hk. apply sw_range0. by right.
Qed.

Lemma store_put_ok s fl x : store_wf s fl -> store_size s < 2 ^ 29 ->
  exists h s' fl', store_put x s = Ok (h, s') /\ store_wf s' fl' /\ takes_handle s s' fl fl' h /\ live_at s' h x /\ (h ∉ fl') /\
    (forall k y, live_at s k y -> k <> h /\ live_at s' k y).
Proof.
  intros W Hsz. unfold store_put. destruct (new_handle_ok s fl W Hsz) as (h & s1 & fl' & -> & W1 & Htk & G). rsimp.
  destruct (takes_handle_cases _ _ _ _ _ W Htk) as (Hfree & Htop & Hh & Hn & H1).
  destruct (set_bucket_ok s1 h (obj_word x) (sw_buckets _ _ W1)) as (s2 & E & F1 & F2 & F3 & F4 & _); [pose proof (sw_top _ _ W1); lia|].
  destruct (set_bucket_wf s1 fl' h (obj_word x) W1 (conj H1 Hh) Hn) as (s' & E' & W' & E1 & E2 & E3 & G').
  rewrite E in E'. injection E' as <-. rewrite E. rsimp. exists h, s2, fl'.
  assert (Hlive : forall k y, live_at s k y -> k <> h).
  { intros k y Hl ->. destruct Hfree as [Hin|Hin]; [by apply (free_not_live s fl h y W Hl) | destruct Hl; lia]. }
  split; [done|]. split; [done|]. split; [|split; [|split; [done|]]].
  - destruct Htk as [Hr Hm]. unfold takes_handle, handle_from_end in *. rewrite E3, E1, F4. done.
  - split; [lia | rewrite G' by lia; by rewrite Z.eqb_refl].
  - intros k y Hl. pose proof (Hlive k y Hl) as Hne. split; [done|]. destruct Hl as [Hk Hg].
    split; [lia|]. rewrite G' by lia. rewrite (proj2 (Z.eqb_neq _ _) Hne). by rewrite G.
Qed.
