(* ===== verification/GcGraph.v ===== *)
(** * The cycle collector: the object graph and depth-first traversals

    The heap as a graph: [kids] is what the traversal of a structure meets.
    [dfs_ok] is the one induction behind marking grey, scanning black and
    collecting white: each colours what it enters and moves the reference counts
    of what it meets by one. *)
From S2P Require Export ObjectStore.

(** ** Colour words *)
Lemma color_set v c : Z.land c GC_COLOR = c -> GC_INFO_GET_COLOR (GC_INFO_SET_COLOR v c) = c.
Proof.
  intros Hc. unfold GC_INFO_GET_COLOR, GC_INFO_SET_COLOR. rewrite Z.land_lor_distr_l, Hc.
  rewrite <- Z.land_assoc, (Z.land_comm (Z.lnot _)), Z.land_lnot_diag, Z.land_0_r. apply Z.lor_0_l.
Qed.

Lemma color_set_black v : GC_INFO_SET_BLACK v = GC_INFO_SET_COLOR v GC_BLACK.
Proof. unfold GC_INFO_SET_BLACK, GC_INFO_SET_COLOR, GC_BLACK. by rewrite Z.lor_0_r. Qed.

Lemma address_set v c : Z.land c GC_COLOR = c -> GC_ADDRESS (GC_INFO_SET_COLOR v c) = GC_ADDRESS v.
Proof.
  intros Hc. unfold GC_ADDRESS, GC_INFO_SET_COLOR. rewrite Z.land_lor_distr_l, <- Z.land_assoc, Z.land_diag.
  rewrite <- Hc, <- Z.land_assoc, Z.land_lnot_diag, Z.land_0_r. apply Z.lor_0_r.
Qed.

(** ** Occurrences *)
Fixpoint occ (x : addr) (l : list addr) : Z :=
  match l with
  | [] => 0
  | y :: l => (if bool_decide (y = x) then 1 else 0) + occ x l
  end.

Lemma occ_app x l1 l2 : occ x (l1 ++ l2) = occ x l1 + occ x l2.
Proof. induction l1 as [|y l1 IH]; simpl; [done | rewrite IH; lia]. Qed.

Lemma occ_nonneg x l : 0 <= occ x l.
Proof. induction l as [|y l IH]; simpl; [lia | case_bool_decide; lia]. Qed.

Lemma occ_notin x l : x ∉ l -> occ x l = 0.
Proof.
  induction l as [|y l IH]; intros H; simpl; [done|]. apply not_elem_of_cons in H as [H1 H2].
  rewrite bool_decide_eq_false_2 by done. rewrite IH by done. done.
Qed.

Lemma occ_in x l : x ∈ l -> 0 < occ x l.
Proof.
  induction l as [|y l IH]; intros H; simpl; [by apply not_elem_of_nil in H|]. pose proof (occ_nonneg x l).
  apply elem_of_cons in H as [->|H]; [rewrite bool_decide_eq_true_2 by done; lia|].
  specialize (IH H). case_bool_decide; lia.
Qed.

Lemma occ_perm x l1 l2 : l1 ≡ₚ l2 -> occ x l1 = occ x l2.
Proof. induction 1; simpl; lia. Qed.

(** ** Heaps as graphs *)
Definition col (h : heap) (x : addr) : Z := match h !! x with Some o => GC_REF_GET_COLOR o | None => GC_BLACK end.
Definition rc (h : heap) (x : addr) : Z := match h !! x with Some o => gc_refcount o | None => 0 end.
Definition info (h : heap) (x : addr) : Z := match h !! x with Some o => gc_info o | None => 0 end.
Definition addr_of (h : heap) (x : addr) : Z := GC_ADDRESS (info h x).

Definition kids (env : genv) (h : heap) (x : addr) : list addr :=
  match h !! x with
  | Some o => match kids_of env x (body o) with Ok l => l | Err _ => [] end
  | None => []
  end.

(** Every value met is allocated, and the symbol table is an array. *)
Record heap_ok (env : genv) (h : heap) : Prop := mkHeapOk {
  ho_kids : forall x o, h !! x = Some o -> exists l, kids_of env x (body o) = Ok l /\ forall r, r ∈ l -> is_Some (h !! r);
  ho_table : forall o, h !! symbol_table env = Some o -> exists used, body o = T_ARRAY used;
  ho_count : forall x, 0 <= rc h x < 2 ^ 32
}.

Section Graph.
Context (env : genv) (h0 : heap) (Hok : heap_ok env h0).
Abbreviation K := (kids env h0).

(** Heaps that differ from [h0] in counts and [gc_info] only. *)
Record like (h : heap) : Prop := mkLike {
  lk_body : forall x, body <$> h !! x = body <$> h0 !! x;
  lk_count : forall x, 0 <= rc h x < 2 ^ 32
}.

Lemma like_refl : like h0.
Proof. split; [done | apply Hok]. Qed.

Definition in_heap (x : addr) : Prop := is_Some (h0 !! x).

Lemma like_lookup h x : like h -> in_heap x -> exists o, h !! x = Some o.
Proof.
  intros [Hb _] [o0 H0]. specialize (Hb x). rewrite H0 in Hb. destruct (h !! x) as [o|]; [by exists o | done].
Qed.

Lemma like_kids h x o : like h -> h !! x = Some o -> kids_of env x (body o) = Ok (K x).
Proof.
  intros [Hb _] Hx. specialize (Hb x). rewrite Hx in Hb. unfold kids. destruct (h0 !! x) as [o0|] eqn:E0; [|done].
  injection Hb as Hb. destruct (ho_kids _ _ Hok x o0 E0) as (l & Hl & _). rewrite Hb, Hl. done.
Qed.

Lemma kids_in x z : z ∈ K x -> in_heap x /\ in_heap z.
Proof.
  unfold kids. intros Hz. destruct (h0 !! x) as [o0|] eqn:E0; [|by apply not_elem_of_nil in Hz].
  destruct (ho_kids _ _ Hok x o0 E0) as (l & Hl & Hr). rewrite Hl in Hz. split; [by eexists | by apply Hr].
Qed.

Lemma kids_table : K (symbol_table env) = [].
Proof.
  unfold kids. destruct (h0 !! _) as [o|] eqn:E; [|done]. destruct (ho_table _ _ Hok o E) as [used Hu].
  rewrite Hu. simpl. by rewrite bool_decide_eq_true_2.
Qed.

(** ** The primitive updates *)
Lemma get_counted_ok h x o : h !! x = Some o -> get_counted h x = Ok o.
Proof. intros H. unfold get_counted. by rewrite H. Qed.

(** [h'] is [h] with the colour of [x] set to [c]. *)
Record recoloured (x : addr) (c : Z) (h h' : heap) : Prop := mkRecoloured {
  rl_like : like h';
  rl_col : forall y, col h' y = if bool_decide (y = x) then c else col h y;
  rl_rc : forall y, rc h' y = rc h y;
  rl_addr : forall y, addr_of h' y = addr_of h y
}.

Lemma recolour h x o c : like h -> h !! x = Some o -> Z.land c GC_COLOR = c ->
  recoloured x c h (<[x := set_info (GC_INFO_SET_COLOR (gc_info o) c) o]> h).
Proof.
  intros Hl Ho Hc.
  assert (Hrc : forall y, rc (<[x := set_info (GC_INFO_SET_COLOR (gc_info o) c) o]> h) y = rc h y).
  { intros y. unfold rc. destruct (decide (x = y)) as [<-|Hn]; [by rewrite lookup_insert_eq, Ho | by rewrite lookup_insert_ne]. }
  split; [split| |done|].
  - intros y. destruct (decide (x = y)) as [<-|Hn].
    + rewrite lookup_insert_eq. rewrite <- (lk_body _ Hl), Ho. done.
    + rewrite lookup_insert_ne by done. apply Hl.
  - intros y. rewrite Hrc. apply Hl.
  - intros y. unfold col. destruct (decide (x = y)) as [<-|Hn].
    + rewrite lookup_insert_eq, bool_decide_eq_true_2 by done. by apply color_set.
    + rewrite lookup_insert_ne, bool_decide_eq_false_2 by done. done.
  - intros y. unfold addr_of, info. destruct (decide (x = y)) as [<-|Hn].
    + rewrite lookup_insert_eq, Ho. by apply address_set.
    + by rewrite lookup_insert_ne.
Qed.

Lemma set_color_ok h x c : like h -> in_heap x -> Z.land c GC_COLOR = c ->
  exists h', GC_REF_SET_COLOR x c h = Ok h' /\ recoloured x c h h'.
Proof.
  intros Hl Hx Hc. destruct (like_lookup h x Hl Hx) as [o Ho]. unfold GC_REF_SET_COLOR.
  rewrite (get_counted_ok _ _ _ Ho). eexists. split; [done|]. by apply recolour.
Qed.

Lemma set_black_ok h x : like h -> in_heap x ->
  exists h', GC_REF_SET_BLACK x h = Ok h' /\ recoloured x GC_BLACK h h'.
Proof.
  intros Hl Hx. destruct (like_lookup h x Hl Hx) as [o Ho]. unfold GC_REF_SET_BLACK.
  rewrite (get_counted_ok _ _ _ Ho). rsimp. rewrite color_set_black. eexists. split; [done|]. by apply recolour.
Qed.

Lemma color_of_ok h x : like h -> in_heap x -> color_of h x = Ok (col h x).
Proof.
  intros Hl Hx. destruct (like_lookup h x Hl Hx) as [o Ho]. unfold color_of, col.
  by rewrite (get_counted_ok _ _ _ Ho), Ho.
Qed.

(** [h'] is [h] with the count of [x] moved by [d]. *)
Record recounted (x : addr) (d : Z) (h h' : heap) : Prop := mkRecounted {
  rn_like : like h';
  rn_info : forall y, info h' y = info h y;
  rn_col : forall y, col h' y = col h y;
  rn_rc : forall y, in_heap y -> rc h' y = u32 (rc h y + d * (if bool_decide (y = x) then 1 else 0))
}.

Lemma add_refcount_ok h x d : like h -> in_heap x ->
  exists h', add_refcount d x h = Ok h' /\ recounted x d h h'.
Proof.
  intros Hl Hx. destruct (like_lookup h x Hl Hx) as [o Ho]. unfold add_refcount.
  rewrite (get_counted_ok _ _ _ Ho). eexists. split; [done|].
  assert (Hrc : forall y, rc (<[x := set_refcount (u32 (gc_refcount o + d)) o]> h) y =
    u32 (rc h y + d * (if bool_decide (y = x) then 1 else 0))).
  { intros y. unfold rc. destruct (decide (x = y)) as [<-|Hn].
    - rewrite lookup_insert_eq, Ho, bool_decide_eq_true_2 by done. simpl. f_equal. lia.
    - rewrite lookup_insert_ne, bool_decide_eq_false_2 by done. pose proof (lk_count _ Hl y) as H.
      unfold rc in H. rewrite Z.mul_0_r, Z.add_0_r, u32_small; [done | exact H]. }
  split; [split| | |].
  - intros y. destruct (decide (x = y)) as [<-|Hn].
    + rewrite lookup_insert_eq. rewrite <- (lk_body _ Hl), Ho. done.
    + rewrite lookup_insert_ne by done. apply Hl.
  - intros y. rewrite Hrc. apply u32_range.
  - intros y. unfold info. destruct (decide (x = y)) as [<-|Hn]; [by rewrite lookup_insert_eq, Ho | by rewrite lookup_insert_ne].
  - intros y. unfold col. destruct (decide (x = y)) as [<-|Hn]; [by rewrite lookup_insert_eq, Ho | by rewrite lookup_insert_ne].
  - intros y _. apply Hrc.
Qed.
End Graph.

(** * The cycle collector: the induction behind its depth-first traversals *)

Lemma u32_add_l a b : u32 (u32 a + b) = u32 (a + b).
Proof. unfold u32. apply Zplus_mod_idemp_l. Qed.

Section Dfs.
Context (env : genv) (h0 : heap).
Abbreviation K := (kids env h0).
Abbreviation table := (symbol_table env).

Definition edge (x y : addr) : Prop := y ∈ K x.

(** A traversal of states [A]: [visit] enters what is [todo], with the colour
    it has, and then moves the count of each kid by [d] and visits it. *)
Context {A : Type} (hp : A -> heap) (Inv : A -> Prop) (R : A -> list addr -> A -> Prop).
Context (todo : addr -> Z -> bool) (d : Z).
Context (enter skip bump : A -> addr -> res A) (visit : nat -> A -> addr -> res A).
Abbreviation is_todo s x := (todo x (col (hp s) x)).

Record entered (s : A) (r : addr) (s' : A) : Prop := mkEntered {
  en_inv : Inv s';
  en_R : R s [r] s';
  en_rc : forall y, rc (hp s') y = rc (hp s) y;
  en_col : forall y, y <> r -> col (hp s') y = col (hp s) y;
  en_done : is_todo s' r = false
}.

Record skipped (s s' : A) : Prop := mkSkipped {
  sk_inv : Inv s';
  sk_R : R s [] s';
  sk_rc : forall y, rc (hp s') y = rc (hp s) y;
  sk_col : forall y, col (hp s') y = col (hp s) y \/ (y = table /\ col (hp s') y = GC_BLACK)
}.

Record bumped (s : A) (r : addr) (s' : A) : Prop := mkBumped {
  bu_inv : Inv s';
  bu_R : R s [] s';
  bu_rc : forall y, in_heap h0 y -> rc (hp s') y = u32 (rc (hp s) y + d * (if bool_decide (y = r) then 1 else 0));
  bu_col : forall y, col (hp s') y = col (hp s) y
}.

Record dfs_ops : Prop := mkDfsOps {
  op_table : todo table GC_BLACK = false;
  op_count : forall s y, Inv s -> 0 <= rc (hp s) y < 2 ^ 32;
  op_kids : forall x z, z ∈ K x -> in_heap h0 x /\ in_heap h0 z;
  op_R_refl : forall s, R s [] s;
  op_R_trans : forall s1 v1 s2 v2 s3, R s1 v1 s2 -> R s2 v2 s3 -> R s1 (v1 ++ v2) s3;
  op_enter : forall s r, Inv s -> in_heap h0 r -> is_todo s r = true -> exists s', enter s r = Ok s' /\ entered s r s';
  op_skip : forall s r, Inv s -> in_heap h0 r -> is_todo s r = false -> exists s', skip s r = Ok s' /\ skipped s s';
  op_bump : forall s r, Inv s -> in_heap h0 r -> exists s', bump s r = Ok s' /\ bumped s r s';
  op_visit : forall fuel s r, Inv s -> in_heap h0 r -> visit (S fuel) s r =
    if is_todo s r then let! s := enter s r in fold_res (fun s r => let! s := bump s r in visit fuel s r) (K r) s
    else skip s r
}.
Context (ops : dfs_ops).

(** What a traversal from [l] did: it entered [vs]; the counts of [lb] and of
    the kids of [vs] have moved. *)
Record run (s : A) (lb l : list addr) (s' : A) (vs : list addr) : Prop := mkRun {
  rn_inv : Inv s';
  rn_R : R s vs s';
  rn_counts : forall y, in_heap h0 y -> rc (hp s') y = u32 (rc (hp s) y + d * (occ y lb + occ y (flat_map K vs)));
  rn_nodup : NoDup vs;
  rn_todo : forall y, y ∈ vs -> is_todo s y = true /\ in_heap h0 y;
  rn_done : forall y, y ∈ vs -> is_todo s' y = false;
  rn_cols : forall y, y ∉ vs -> col (hp s') y = col (hp s) y \/ (y = table /\ col (hp s') y = GC_BLACK);
  rn_finished : forall y, y ∈ l -> is_todo s' y = false;
  rn_kids : forall y z, y ∈ vs -> z ∈ K y -> is_todo s' z = false;
  rn_reach : forall y, y ∈ vs -> exists r, r ∈ l /\ rtc edge r y
}.

Lemma run_kept s lb l s' vs y : run s lb l s' vs -> is_todo s y = false -> is_todo s' y = false.
Proof.
  intros H Hy. destruct (decide (y ∈ vs)) as [Hin|Hn]; [by apply (rn_done _ _ _ _ _ H)|].
  destruct (rn_cols _ _ _ _ _ H y Hn) as [->|[-> ->]]; [done | apply ops].
Qed.

Lemma run_nil s : Inv s -> run s [] [] s [].
Proof.
  intros Hi. split; try done; try (by intros y ?%not_elem_of_nil); [apply ops| |constructor|by left|].
  - intros y _. simpl. rewrite Z.mul_0_r, Z.add_0_r. symmetry. apply u32_small. by apply (op_count ops).
  - by intros y z ?%not_elem_of_nil.
Qed.

Lemma run_trans s lb1 l1 s1 vs1 lb2 l2 s2 vs2 :
  run s lb1 l1 s1 vs1 -> run s1 lb2 l2 s2 vs2 -> run s (lb1 ++ lb2) (l1 ++ l2) s2 (vs1 ++ vs2).
Proof.
  intros H1 H2. split.
  - apply H2.
  - eapply (op_R_trans ops); [apply H1 | apply H2].
  - intros y Hy. rewrite (rn_counts _ _ _ _ _ H2 y Hy), (rn_counts _ _ _ _ _ H1 y Hy), u32_add_l.
    rewrite flat_map_app, !occ_app. f_equal. lia.
  - apply NoDup_app. split; [apply H1|]. split; [|apply H2]. intros y Hy1 Hy2.
    apply (rn_done _ _ _ _ _ H1) in Hy1. apply (rn_todo _ _ _ _ _ H2) in Hy2 as [Hy2 _]. congruence.
  - intros y [Hy|Hy]%elem_of_app; [by apply (rn_todo _ _ _ _ _ H1)|].
    apply (rn_todo _ _ _ _ _ H2) in Hy as [Hy Hh]. split; [|done].
    destruct (is_todo s y) eqn:E; [done|]. by rewrite (run_kept _ _ _ _ _ _ H1 E) in Hy.
  - intros y [Hy|Hy]%elem_of_app; [|by apply H2]. eapply run_kept, (rn_done _ _ _ _ _ H1 _ Hy). exact H2.
  - intros y [Hy1 Hy2]%not_elem_of_app. destruct (rn_cols _ _ _ _ _ H2 y Hy2) as [->|?]; [by apply H1 | by right].
  - intros y [Hy|Hy]%elem_of_app; [|by apply (rn_finished _ _ _ _ _ H2)]. eapply run_kept, (rn_finished _ _ _ _ _ H1 _ Hy). exact H2.
  - intros y z [Hy|Hy]%elem_of_app Hz; [|by apply (rn_kids _ _ _ _ _ H2 y)]. eapply run_kept, (rn_kids _ _ _ _ _ H1 _ _ Hy Hz). exact H2.
  - intros y [Hy|Hy]%elem_of_app.
    + destruct (rn_reach _ _ _ _ _ H1 y Hy) as (r & ? & ?). exists r. by rewrite elem_of_app; auto.
    + destruct (rn_reach _ _ _ _ _ H2 y Hy) as (r & ? & ?). exists r. by rewrite elem_of_app; auto.
Qed.

Lemma run_skip s r s' : is_todo s r = false -> skipped s s' -> run s [] [r] s' [].
Proof.
  intros Hr []. split; try done; try (by intros y ?%not_elem_of_nil).
  - intros y _. simpl. rewrite sk_rc0, Z.mul_0_r, Z.add_0_r. symmetry. apply u32_small. rewrite <- sk_rc0.
    by apply (op_count ops).
  - constructor.
  - intros y ->%list_elem_of_singleton. destruct (sk_col0 r) as [->|[-> ->]]; [done | apply ops].
  - by intros y z ?%not_elem_of_nil.
Qed.

Lemma run_bump s r s1 l s2 vs : bumped s r s1 -> run s1 [] l s2 vs -> run s [r] l s2 vs.
Proof.
  intros [] H. assert (Ht : forall y, is_todo s y = is_todo s1 y) by (intros y; by rewrite bu_col0).
  split; try apply H.
  - apply (op_R_trans ops _ [] _ vs _ bu_R0), H.
  - intros y Hy. rewrite (rn_counts _ _ _ _ _ H y Hy), bu_rc0, u32_add_l by done. f_equal. simpl.
    rewrite (bool_decide_ext (y = r) (r = y)) by done. lia.
  - intros y Hy. rewrite Ht. by apply H.
  - intros y Hy. rewrite <- bu_col0. by apply H.
Qed.

Lemma run_enter s r s1 s2 vs : in_heap h0 r -> is_todo s r = true -> entered s r s1 ->
  run s1 (K r) (K r) s2 vs -> run s [] [r] s2 (r :: vs).
Proof.
  intros Hh Hr [] H. assert (Hn : r ∉ vs).
  { intros Hin. apply (rn_todo _ _ _ _ _ H) in Hin as [Hin _]. congruence. }
  split.
  - apply H.
  - apply (op_R_trans ops _ [r] _ vs _ en_R0), H.
  - intros y Hy. rewrite (rn_counts _ _ _ _ _ H y Hy), en_rc0. simpl. by rewrite occ_app.
  - constructor; [done | apply H].
  - intros y [->|Hy]%elem_of_cons; [done|]. destruct (rn_todo _ _ _ _ _ H y Hy) as [Ht ?]. split; [|done].
    rewrite en_col0 in Ht; [done|]. by intros ->.
  - intros y [->|Hy]%elem_of_cons; [|by apply H]. eapply run_kept, en_done0. exact H.
  - intros y [Hy1 Hy2]%not_elem_of_cons. rewrite <- en_col0 by done. by apply H.
  - intros y ->%list_elem_of_singleton. eapply run_kept, en_done0. exact H.
  - intros y z [->|Hy]%elem_of_cons Hz; [by apply (rn_finished _ _ _ _ _ H) | by apply (rn_kids _ _ _ _ _ H y)].
  - intros y [->|Hy]%elem_of_cons; exists r; (split; [by apply list_elem_of_singleton|]); [done|].
    destruct (rn_reach _ _ _ _ _ H y Hy) as (r' & Hr' & Hp). by apply rtc_l with r'.
Qed.

(** ** Termination and the result *)
Definition todos (s : A) : gset addr := filter (fun x => is_todo s x = true) (dom h0).

Lemma todos_run s lb l s' vs : run s lb l s' vs -> todos s' ⊆ todos s.
Proof.
  intros H y. unfold todos. rewrite !elem_of_filter. intros [Hy ?]. split; [|done].
  destruct (is_todo s y) eqn:E; [done|]. by rewrite (run_kept _ _ _ _ _ _ H E) in Hy.
Qed.

Lemma todos_entered s r s' : in_heap h0 r -> is_todo s r = true -> entered s r s' -> (size (todos s') < size (todos s))%nat.
Proof.
  intros Hh Hr []. apply subset_size. split.
  - intros y. unfold todos. rewrite !elem_of_filter. intros [Hy ?]. split; [|done].
    destruct (decide (y = r)) as [->|Hn]; [done|]. by rewrite <- en_col0.
  - intros Hs. specialize (Hs r). unfold todos in Hs. rewrite !elem_of_filter in Hs.
    destruct Hs as [Hs _]; [split; [done | by apply elem_of_dom]|]. congruence.
Qed.

Lemma todos_bumped s r s' : bumped s r s' -> todos s' = todos s.
Proof. intros []. unfold todos. apply set_eq. intros y. rewrite !elem_of_filter. by rewrite bu_col0. Qed.

Lemma dfs_list fuel :
  (forall s r, Inv s -> in_heap h0 r -> (size (todos s) < fuel)%nat ->
    exists s' vs, visit fuel s r = Ok s' /\ run s [] [r] s' vs) ->
  forall l s, Inv s -> (forall r, r ∈ l -> in_heap h0 r) -> (size (todos s) < fuel)%nat ->
  exists s' vs, fold_res (fun s r => let! s := bump s r in visit fuel s r) l s = Ok s' /\ run s l l s' vs.
Proof.
  intros IH l. induction l as [|r l IHl]; intros s Hi Hl Hf; simpl.
  { exists s, []. split; [done | by apply run_nil]. }
  destruct (op_bump ops s r Hi ltac:(apply Hl; left)) as (s1 & E1 & H1). rewrite E1. rsimp.
  rewrite <- (todos_bumped _ _ _ H1) in Hf.
  destruct (IH s1 r (bu_inv _ _ _ H1) ltac:(apply Hl; left) Hf) as (s2 & vs1 & E2 & H2). rewrite E2. rsimp.
  destruct (IHl s2 (rn_inv _ _ _ _ _ H2)) as (s3 & vs2 & E3 & H3).
  { intros z Hz. apply Hl. by right. }
  { eapply Nat.le_lt_trans, Hf. apply subseteq_size, (todos_run _ _ _ _ _ H2). }
  exists s3, (vs1 ++ vs2). split; [done|]. apply (run_trans _ [r] [r] _ _ l l _ _ (run_bump _ _ _ _ _ _ H1 H2) H3).
Qed.

Theorem dfs_ok fuel : forall s r, Inv s -> in_heap h0 r -> (size (todos s) < fuel)%nat ->
  exists s' vs, visit fuel s r = Ok s' /\ run s [] [r] s' vs.
Proof.
  induction fuel as [|fuel IH]; intros s r Hi Hr Hf; [lia|]. rewrite (op_visit ops) by done.
  destruct (is_todo s r) eqn:Et.
  - destruct (op_enter ops s r Hi Hr Et) as (s1 & E1 & H1). rewrite E1. rsimp.
    pose proof (todos_entered _ _ _ Hr Et H1).
    destruct (dfs_list fuel IH (K r) s1 (en_inv _ _ _ H1)) as (s2 & vs & E2 & H2);
      [intros z Hz; by apply (op_kids ops) in Hz as [_ ?] | lia|].
    exists s2, (r :: vs). split; [done|]. by eapply run_enter.
  - destruct (op_skip ops s r Hi Hr Et) as (s1 & E1 & H1). exists s1, []. split; [done|]. by apply run_skip.
Qed.
End Dfs.

(** * The cycle collector: marking and scanning ([gc_mark_grey],
    [gc_scan_black] and [gc_scan] of [Zend/zend_gc.c])

    Fuel is the depth of the recursion, tail calls included: one more than the
    number of structures that may still be entered is enough. *)

(** ** Definitions *)
Fixpoint gc_scan_black (fuel : nat) (env : genv) (h : heap) (ref : addr) {struct fuel} : res heap :=
  match fuel with
  | O => Err OutOfFuel
  | S fuel =>
      let! h := GC_REF_SET_BLACK ref h in
      let! o := get_counted h ref in
      let child h r :=
        let! h := add_refcount 1 r h in
        let! c := color_of h r in
        if negb (c =? GC_BLACK) then gc_scan_black fuel env h r else Ok h in
      visit_counted child env (fun h => Ok h) ref (body o) h
  end.

Fixpoint gc_mark_grey (fuel : nat) (env : genv) (h : heap) (ref : addr) {struct fuel} : res heap :=
  match fuel with
  | O => Err OutOfFuel
  | S fuel =>
      let! c := color_of h ref in
      if negb (c =? GC_GREY) then
        let! h := GC_REF_SET_COLOR ref GC_GREY h in
        let! o := get_counted h ref in
        let child h r := let! h := add_refcount (-1) r h in gc_mark_grey fuel env h r in
        visit_counted child env (GC_REF_SET_BLACK ref) ref (body o) h
      else Ok h
  end.

Fixpoint gc_scan (fuel : nat) (env : genv) (h : heap) (ref : addr) {struct fuel} : res heap :=
  match fuel with
  | O => Err OutOfFuel
  | S fuel =>
      let! c := color_of h ref in
      if c =? GC_GREY then
        let! o := get_counted h ref in
        if 0 <? gc_refcount o then gc_scan_black (S (size h)) env h ref
        else
          let! h := GC_REF_SET_COLOR ref GC_WHITE h in
          visit_counted (gc_scan fuel env) env (GC_REF_SET_BLACK ref) ref (body o) h
      else Ok h
  end.

(** ** Marking and scanning black as traversals *)
Section Mark.
Context (env : genv) (h0 : heap) (Hok : heap_ok env h0).
Abbreviation K := (kids env h0).
Abbreviation table := (symbol_table env).

(** The addresses in [gc_info] are kept. *)
Definition same_addresses (h : heap) (vs : list addr) (h' : heap) : Prop := forall y, addr_of h' y = addr_of h y.

Lemma visit_like {A} (child : A -> addr -> res A) at_table h r o s : like h0 h -> h !! r = Some o ->
  visit_counted child env at_table r (body o) s =
    if bool_decide (r = table) then at_table s else fold_res child (K r) s.
Proof.
  intros Hl Ho. pose proof (like_kids _ _ Hok h r o Hl Ho) as Hk. case_bool_decide as Hr.
  - subst r. pose proof (lk_body _ _ Hl table) as Hb. rewrite Ho in Hb.
    destruct (h0 !! table) as [o0|] eqn:E; [|done]. injection Hb as Hb.
    destruct (ho_table _ _ Hok o0 E) as [used Hu]. rewrite Hb, Hu. simpl. by rewrite bool_decide_eq_true_2.
  - by apply visit_counted_fold.
Qed.

(** *** [gc_mark_grey] *)
Definition mark_todo (x : addr) (c : Z) : bool := negb (c =? GC_GREY) && negb (bool_decide (x = table)).
Definition mark_skip (h : heap) (r : addr) : res heap :=
  if col h r =? GC_GREY then Ok h
  else let! h := GC_REF_SET_COLOR r GC_GREY h in GC_REF_SET_BLACK r h.

Lemma recoloured_entered todo (r : addr) c h h' : recoloured h0 r c h h' -> todo r c = false ->
  entered id (like h0) same_addresses todo h r h'.
Proof.
  intros [Hlike Hcol Hrc Haddr] Ht. split; try done.
  - intros y Hn. unfold id. rewrite Hcol. by rewrite bool_decide_eq_false_2.
  - unfold id. rewrite Hcol. by rewrite bool_decide_eq_true_2.
Qed.

Lemma bump_ok d h r : like h0 h -> in_heap h0 r ->
  exists h', add_refcount d r h = Ok h' /\ bumped h0 id (like h0) same_addresses d h r h'.
Proof.
  intros Hl Hr. destruct (add_refcount_ok h0 h r d Hl Hr) as (h' & E & [Hlk Hinfo ? ?]). exists h'. split; [done|].
  split; try done. intros y. unfold addr_of. by rewrite Hinfo.
Qed.

Lemma addresses_trans h1 (v1 : list addr) h2 (v2 : list addr) h3 :
  same_addresses h1 v1 h2 -> same_addresses h2 v2 h3 -> same_addresses h1 (v1 ++ v2) h3.
Proof. intros H1 H2 y. by rewrite H2. Qed.

Lemma mark_ops : dfs_ops env h0 id (like h0) same_addresses mark_todo (-1)
  (fun h r => GC_REF_SET_COLOR r GC_GREY h) mark_skip (fun h r => add_refcount (-1) r h)
  (fun fuel => gc_mark_grey fuel env).
Proof.
  split.
  - unfold mark_todo. by rewrite (bool_decide_eq_true_2 (table = table)), andb_false_r.
  - intros h y Hl. apply Hl.
  - intros x z. by apply kids_in.
  - done.
  - apply addresses_trans.
  - intros h r Hl Hr Ht. destruct (set_color_ok h0 h r GC_GREY Hl Hr eq_refl) as (h' & E & H). exists h'.
    split; [done|]. by apply (recoloured_entered _ r GC_GREY).
  - intros h r Hl Hr Ht. unfold mark_skip. unfold id in *. destruct (col h r =? GC_GREY) eqn:Ec.
    { exists h. split; [done|]. split; [done|done|done|by left]. }
    unfold mark_todo in Ht. rewrite Ec in Ht. simpl in Ht. apply negb_false_iff, bool_decide_eq_true_1 in Ht. subst r.
    destruct (set_color_ok h0 h table GC_GREY Hl Hr eq_refl) as (h1 & E1 & [L1 C1 R1 A1]). rewrite E1. rsimp.
    destruct (set_black_ok h0 h1 table L1 Hr) as (h2 & E2 & [L2 C2 R2 A2]). exists h2. split; [done|].
    split; [done | | |].
    + intros y. by rewrite A2.
    + intros y. unfold id. by rewrite R2.
    + intros y. unfold id. rewrite C2, C1. case_bool_decide; [right | left]; done.
  - intros h r. apply bump_ok.
  - intros fuel h r Hl Hr. cbn [gc_mark_grey]. rewrite (color_of_ok h0) by done. rsimp.
    unfold mark_todo, mark_skip, id. destruct (col h r =? GC_GREY) eqn:Ec; simpl; [done|].
    destruct (set_color_ok h0 h r GC_GREY Hl Hr eq_refl) as (h1 & E1 & H1). rewrite E1. rsimp.
    destruct (like_lookup _ _ _ (rl_like _ _ _ _ _ H1) Hr) as [o Ho]. rewrite (get_counted_ok _ _ _ Ho). rsimp.
    rewrite (visit_like _ _ _ _ _ _ (rl_like _ _ _ _ _ H1) Ho). by case_bool_decide.
Qed.

(** *** [gc_scan_black] *)
Definition black_todo (x : addr) (c : Z) : bool := negb (c =? GC_BLACK).
Definition scan_black_if (fuel : nat) (h : heap) (r : addr) : res heap :=
  let! c := color_of h r in if negb (c =? GC_BLACK) then gc_scan_black fuel env h r else Ok h.

Lemma black_ops : dfs_ops env h0 id (like h0) same_addresses black_todo 1
  (fun h r => GC_REF_SET_BLACK r h) (fun h _ => Ok h) (fun h r => add_refcount 1 r h) scan_black_if.
Proof.
  split.
  - done.
  - intros h y Hl. apply Hl.
  - intros x z. by apply kids_in.
  - done.
  - apply addresses_trans.
  - intros h r Hl Hr Ht. destruct (set_black_ok h0 h r Hl Hr) as (h' & E & H). exists h'.
    split; [done|]. by apply (recoloured_entered _ r GC_BLACK).
  - intros h r Hl Hr Ht. exists h. split; [done|]. split; [done|done|done|by left].
  - intros h r. apply bump_ok.
  - intros fuel h r Hl Hr. unfold scan_black_if at 1. rewrite (color_of_ok h0) by done. rsimp.
    unfold black_todo, id. destruct (col h r =? GC_BLACK) eqn:Ec; simpl; [done|].
    destruct (set_black_ok h0 h r Hl Hr) as (h1 & E1 & H1). rewrite E1. rsimp.
    destruct (like_lookup _ _ _ (rl_like _ _ _ _ _ H1) Hr) as [o Ho]. rewrite (get_counted_ok _ _ _ Ho). rsimp.
    rewrite (visit_like _ _ _ _ _ _ (rl_like _ _ _ _ _ H1) Ho). case_bool_decide as Ht; [|done].
    subst r. by rewrite kids_table.
Qed.
End Mark.
