(* ===== verification/GcScan.v ===== *)
(** * The cycle collector: what marking and scanning decide

    [mark_all] and [scan_all] are the loops of [gc_mark_roots] and
    [gc_scan_roots] over the list of candidates.  After them a structure is
    white exactly when it is reachable from a candidate and no structure outside
    the reachable part, and nothing else, keeps it alive. *)
From S2P Require Export GcGraph.

(** ** The loops over the candidates *)
Fixpoint mark_all (env : genv) (refs : list addr) (h : heap) : res heap :=
  match refs with
  | [] => Ok h
  | r :: refs =>
      let! c := color_of h r in
      let! h := if c =? GC_PURPLE then gc_mark_grey (S (size h)) env h r else Ok h in
      mark_all env refs h
  end.

Fixpoint scan_all (env : genv) (refs : list addr) (h : heap) : res heap :=
  match refs with
  | [] => Ok h
  | r :: refs => let! h := gc_scan (S (size h)) env h r in scan_all env refs h
  end.

Section Scan.
Context (env : genv) (h0 : heap) (Hok : heap_ok env h0).
Abbreviation K := (kids env h0).
Abbreviation table := (symbol_table env).
Abbreviation reaches := (rtc (edge env h0)).

Lemma like_size h : like h0 h -> size h = size h0.
Proof.
  intros Hl. rewrite <- !(size_dom (D := gset addr)). f_equal. apply set_eq. intros x. rewrite !elem_of_dom.
  pose proof (lk_body _ _ Hl x) as Hb. destruct (h !! x), (h0 !! x); try done; split; by eexists.
Qed.

Lemma todos_size {A} (hp : A -> heap) todo s : (size (todos h0 hp todo s) <= size h0)%nat.
Proof. rewrite <- (size_dom (D := gset addr) h0). apply subseteq_size. unfold todos. set_solver. Qed.

(** ** Marking *)
Abbreviation mark_run := (run env h0 id (like h0) same_addresses (mark_todo env) (-1)).

Lemma mark_grey_ok h r : like h0 h -> in_heap h0 r ->
  exists h' vs, gc_mark_grey (S (size h)) env h r = Ok h' /\ mark_run h [] [r] h' vs.
Proof.
  intros Hl Hr. rewrite (like_size h Hl). apply (dfs_ok env h0 id (like h0) same_addresses (mark_todo env) (-1)
    _ _ _ (fun fuel => gc_mark_grey fuel env) (mark_ops env h0 Hok)); [done | done|].
  pose proof (todos_size id (mark_todo env) h). lia.
Qed.

Lemma mark_grey_table h fuel : like h0 h -> in_heap h0 table -> col h table <> GC_GREY ->
  exists h', gc_mark_grey (S fuel) env h table = Ok h' /\ col h' table = GC_BLACK.
Proof.
  intros Hl Ht Hc.
  rewrite (op_visit _ _ _ _ _ _ _ _ _ _ _ (mark_ops env h0 Hok)) by done.
  unfold mark_todo at 1. rewrite (bool_decide_eq_true_2 (table = table)), andb_false_r by done.
  unfold mark_skip. rewrite (proj2 (Z.eqb_neq _ _) Hc).
  destruct (set_color_ok h0 h table GC_GREY Hl Ht eq_refl) as (h1 & E1 & []). rewrite E1. rsimp.
  destruct (set_black_ok h0 h1 table rl_like Ht) as (h2 & E2 & []). exists h2. split; [done|].
  rewrite rl_col0. by rewrite bool_decide_eq_true_2.
Qed.

(** The colour of a candidate while the candidates are marked. *)
Definition candidate_color (h : heap) (r : addr) : Prop :=
  col h r = GC_PURPLE \/ col h r = GC_GREY \/ (r = table /\ col h r = GC_BLACK).

Lemma mark_all_ok l h : like h0 h -> (forall r, r ∈ l -> in_heap h0 r /\ candidate_color h r) ->
  exists h' vs, mark_all env l h = Ok h' /\ mark_run h [] l h' vs /\
    (table ∈ l -> col h table <> GC_GREY -> col h' table = GC_BLACK).
Proof.
  revert h. induction l as [|r l IH]; intros h Hl Hr; cbn [mark_all].
  { exists h, []. split; [done|]. split; [|by intros ?%not_elem_of_nil]. by apply (run_nil _ _ _ _ _ _ _ _ _ _ _ (mark_ops env h0 Hok)). }
  destruct (Hr r ltac:(left)) as [Hin Hc]. rewrite (color_of_ok h0) by done. rsimp.
  assert (exists h1 vs, (if col h r =? GC_PURPLE then gc_mark_grey (S (size h)) env h r else Ok h) = Ok h1 /\
    mark_run h [] [r] h1 vs /\ (table = r -> col h table <> GC_GREY -> col h1 table = GC_BLACK)) as (h1 & vs1 & E1 & H1 & Ht1).
  { destruct Hc as [Hc|Hc].
    - rewrite Hc. simpl. destruct (mark_grey_ok h r Hl Hin) as (h1 & vs & E & H). exists h1, vs.
      split; [done|]. split; [done|]. intros <- Hg. destruct (mark_grey_table h (size h) Hl Hin Hg) as (h1' & E' & Ht).
      congruence.
    - rewrite (proj2 (Z.eqb_neq (col h r) GC_PURPLE)) by (destruct Hc as [->|[_ ->]]; done). exists h, []. split; [done|].
      split; [|intros <- Hg; destruct Hc as [?|[_ ?]]; done].
      apply (run_skip _ _ _ _ _ _ _ _ _ _ _ (mark_ops env h0 Hok)).
      + unfold mark_todo, id. destruct Hc as [->|[-> _]]; [done|]. by rewrite (bool_decide_eq_true_2 (table = table)), andb_false_r.
      + split; [done|done|done|by left]. }
  rewrite E1. rsimp. destruct (IH h1) as (h2 & vs2 & -> & H2 & Ht2).
  { apply H1. }
  { intros x Hx. destruct (Hr x ltac:(by right)) as [Hxi Hxc]. split; [done|]. unfold candidate_color.
    destruct (decide (x ∈ vs1)) as [Hv|Hv].
    - pose proof (rn_done _ _ _ _ _ _ _ _ _ _ _ _ H1 x Hv) as Hd. apply (rn_todo _ _ _ _ _ _ _ _ _ _ _ _ H1) in Hv as [Hv _].
      unfold mark_todo, id in *. apply andb_prop in Hv as [_ Hn]. rewrite Hn, andb_true_r in Hd. zbool. auto.
    - destruct (rn_cols _ _ _ _ _ _ _ _ _ _ _ _ H1 x Hv) as [E|[-> E]]; unfold id in E; rewrite E; auto. }
  exists h2, (vs1 ++ vs2). split; [done|]. split; [by apply (run_trans _ _ _ _ _ _ _ _ _ _ _ (mark_ops env h0 Hok) _ [] [r] _ _ [] l _ _ H1 H2)|].
  intros Ht Hg. assert (Hcols : col h1 table = col h table \/ col h1 table = GC_BLACK).
  { destruct (decide (table ∈ vs1)) as [Hv|Hv].
    - apply (rn_todo _ _ _ _ _ _ _ _ _ _ _ _ H1) in Hv as [Hv _]. unfold mark_todo in Hv.
      by rewrite (bool_decide_eq_true_2 (table = table)), andb_false_r in Hv.
    - destruct (rn_cols _ _ _ _ _ _ _ _ _ _ _ _ H1 table Hv) as [E|[_ E]]; [by left | by right]. }
  apply elem_of_cons in Ht as [Ht|Ht].
  - specialize (Ht1 Ht Hg). destruct (decide (table ∈ vs2)) as [Hv|Hv].
    + apply (rn_todo _ _ _ _ _ _ _ _ _ _ _ _ H2) in Hv as [Hv _]. unfold mark_todo in Hv.
      by rewrite (bool_decide_eq_true_2 (table = table)), andb_false_r in Hv.
    + destruct (rn_cols _ _ _ _ _ _ _ _ _ _ _ _ H2 table Hv) as [E|[_ E]]; [|done]. unfold id in E. by rewrite E.
  - apply Ht2; [done|]. destruct Hcols as [ -> | -> ]; done.
Qed.

(** The heap after [gc_mark_roots]: the structures of [M] are grey. *)
Record marked (roots : list addr) (h : heap) (M : list addr) : Prop := mkMarked {
  mk_like : like h0 h;
  mk_addr : forall x, addr_of h x = addr_of h0 x;
  mk_nodup : NoDup M;
  mk_in : forall x, x ∈ M -> in_heap h0 x /\ x <> table;
  mk_rc : forall x, in_heap h0 x -> rc h x = u32 (rc h0 x - occ x (flat_map K M));
  mk_grey : forall x, x ∈ M -> col h x = GC_GREY;
  mk_black : forall x, x ∉ M -> col h x = GC_BLACK;
  mk_kids : forall x z, x ∈ M -> z ∈ K x -> z ∈ M \/ z = table;
  mk_roots : forall r, r ∈ roots -> r ∈ M \/ r = table;
  mk_reach : forall x, x ∈ M -> exists r, r ∈ roots /\ reaches r x
}.

(** Candidates are purple, everything else is black. *)
Definition candidates (roots : list addr) : Prop :=
  (forall r, r ∈ roots -> in_heap h0 r /\ col h0 r = GC_PURPLE) /\
  (forall x, x ∉ roots -> col h0 x = GC_BLACK).

Lemma mark_all_marked roots : candidates roots -> exists h M, mark_all env roots h0 = Ok h /\ marked roots h M.
Proof.
  intros [Hp Hb]. destruct (mark_all_ok roots h0 (like_refl _ _ Hok)) as (h & M & E & H & Ht).
  { intros r Hr. destruct (Hp r Hr) as [Hi Hc]. split; [done | by left]. }
  exists h, M. split; [done|]. destruct H. unfold id in *.
  assert (Hg : forall x, x ∈ M -> col h x = GC_GREY /\ x <> table).
  { intros x Hx. pose proof (rn_done x Hx) as Hd. destruct (rn_todo x Hx) as [Hy _]. unfold mark_todo in *.
    apply andb_prop in Hy as [_ Hn]. rewrite Hn, andb_true_r in Hd. apply negb_true_iff, bool_decide_eq_false_1 in Hn.
    zbool. done. }
  assert (Hf : forall x, mark_todo env x (col h x) = false -> x ∈ M \/ x = table).
  { intros x Hx. destruct (decide (x ∈ M)) as [|Hn]; [by left|]. right. destruct (decide (x = table)) as [|Hnt]; [done|].
    unfold mark_todo in Hx. rewrite (bool_decide_eq_false_2 (x = table)), andb_true_r in Hx by done. zbool.
    destruct (rn_cols x Hn) as [Ex|[? _]]; [|done]. destruct (decide (x ∈ roots)) as [Hr|Hr].
    - destruct (Hp x Hr) as [_ Ep]. rewrite Hx, Ep in Ex. discriminate Ex.
    - rewrite Hx, (Hb x Hr) in Ex. discriminate Ex. }
  split; try done.
  - intros x Hx. split; [by apply rn_todo | by apply Hg].
  - intros x Hx. by apply Hg.
  - intros x Hx. destruct (decide (x ∈ roots)) as [Hr|Hr].
    + destruct (Hf x (rn_finished x Hr)) as [|Et]; [done|subst x]. apply Ht; [done|]. destruct (Hp _ Hr) as [_ ->]. done.
    + destruct (rn_cols x Hx) as [ -> | [_ -> ] ]; [by apply Hb | done].
  - intros x z Hx Hz. by apply Hf, (rn_kids x).
  - intros r Hr. by apply Hf, rn_finished.
Qed.
(** ** Scanning *)
Section Scanned.
Context (roots : list addr) (hM : heap) (M : list addr) (HM : marked roots hM M).

(** The references counted in [h0] are at least those the heap holds. *)
Context (Hcounts : forall x, in_heap h0 x -> occ x (flat_map K (elements (dom h0))) <= rc h0 x).

(** The structures of [M] that are not black. *)
Definition dark (h : heap) : list addr := filter (fun y => col h y <> GC_BLACK) M.

(** Something outside [M] refers to [z]. *)
Definition held (z : addr) : Prop := z ∈ M /\ occ z (flat_map K M) < rc h0 z.
Definition lives (x : addr) : Prop := exists z, held z /\ reaches z x.

Record scanning (h : heap) : Prop := mkScanning {
  sc_like : like h0 h;
  sc_addr : forall x, addr_of h x = addr_of h0 x;
  sc_rc : forall x, in_heap h0 x -> rc h x = rc h0 x - occ x (flat_map K (dark h));
  sc_closed : forall x z, x ∈ M -> col h x = GC_BLACK -> z ∈ K x -> col h z = GC_BLACK;
  sc_white : forall x, x ∈ M -> col h x = GC_WHITE -> rc h x = 0;
  sc_col : forall x, x ∈ M -> col h x = GC_GREY \/ col h x = GC_WHITE \/ col h x = GC_BLACK;
  sc_out : forall x, x ∉ M -> col h x = GC_BLACK;
  sc_lives : forall x, x ∈ M -> col h x = GC_BLACK -> lives x
}.

(** From [h] to [h']: nothing turns grey, and the kids of what turned white
    are not grey. *)
Record scanned (h h' : heap) : Prop := mkScanned {
  sd_state : scanning h';
  sd_grey : forall x, col h x <> GC_GREY -> col h' x <> GC_GREY;
  sd_kids : forall x z, x ∈ M -> col h x = GC_GREY -> col h' x = GC_WHITE -> z ∈ K x -> col h' z <> GC_GREY
}.

Lemma scanned_refl h : scanning h -> scanned h h.
Proof. intros H. split; [done|done|]. intros x z _ -> [=]. Qed.

Lemma scanned_trans h1 h2 h3 : scanned h1 h2 -> scanned h2 h3 -> scanned h1 h3.
Proof.
  intros [S1 G1 W1] [S2 G2 W2]. split; [done|auto|]. intros x z Hx Hg Hw Hz.
  destruct (sc_col _ S1 x Hx) as [E|[E|E]]; [by eapply W2 | by eapply G2, W1 |].
  apply G2. rewrite (sc_closed _ S1 x z Hx E Hz). discriminate.
Qed.

Lemma occ_sub x l : NoDup l -> (forall y, y ∈ l -> y ∈ M) -> occ x (flat_map K l) <= occ x (flat_map K M).
Proof.
  intros Hn Hs. assert (l ⊆+ M) as [k Hk]%submseteq_Permutation by (by apply NoDup_submseteq).
  rewrite (occ_perm x (flat_map K M) (flat_map K (l ++ k))) by (by apply Permutation_flat_map).
  rewrite flat_map_app, occ_app. pose proof (occ_nonneg x (flat_map K k)). lia.
Qed.

Lemma occ_marked x : in_heap h0 x -> occ x (flat_map K M) <= rc h0 x.
Proof.
  intros Hx. etransitivity; [|by apply Hcounts].
  assert (M ⊆+ elements (dom h0)) as [k Hk]%submseteq_Permutation.
  { apply NoDup_submseteq; [apply HM|]. intros y Hy. apply elem_of_elements, elem_of_dom. by apply (mk_in _ _ _ HM). }
  rewrite (occ_perm x (flat_map K (elements (dom h0))) (flat_map K (M ++ k))) by (by apply Permutation_flat_map).
  rewrite flat_map_app, occ_app. pose proof (occ_nonneg x (flat_map K k)). lia.
Qed.

Lemma dark_in h y : y ∈ dark h <-> col h y <> GC_BLACK /\ y ∈ M.
Proof. unfold dark. by rewrite list_elem_of_filter. Qed.

Lemma dark_nodup h : NoDup (dark h).
Proof. apply NoDup_filter, HM. Qed.

Lemma dark_ext h h' : (forall y, y ∈ M -> col h y = GC_BLACK <-> col h' y = GC_BLACK) -> dark h = dark h'.
Proof.
  intros H. unfold dark. clear HM Hcounts. induction M as [|y l IH]; [done|]. rewrite !filter_cons, IH.
  - destruct (H y ltac:(left)). repeat case_decide; tauto.
  - intros z Hz. apply H. by right.
Qed.

(** A structure that is not black is referred to from structures that are not. *)
Lemma dark_only h x : scanning h -> x ∈ M -> col h x <> GC_BLACK ->
  occ x (flat_map K (dark h)) = occ x (flat_map K M).
Proof.
  intros S Hx Hc. assert (M ≡ₚ dark h ++ filter (fun y => col h y = GC_BLACK) M) as Hp.
  { rewrite Permutation_app_comm. symmetry. apply filter_app_complement. }
  rewrite (occ_perm x (flat_map K M) _ (Permutation_flat_map K Hp)), flat_map_app, occ_app.
  rewrite (occ_notin x (flat_map K (filter (fun y => col h y = GC_BLACK) M))); [lia|].
  intros [y [Hy1 Hy2]]%list_elem_of_In%in_flat_map. apply list_elem_of_In, list_elem_of_filter in Hy1 as [Hb Hy].
  apply list_elem_of_In in Hy2. apply Hc. by eapply (sc_closed _ S y).
Qed.

Lemma marked_scanning : scanning hM.
Proof.
  assert (Hd : dark hM = M).
  { unfold dark. pose proof (mk_grey _ _ _ HM) as Hg. clear HM Hcounts. induction M as [|y l IH]; [done|].
    rewrite filter_cons_True, IH; [done | intros z Hz; apply Hg; by right|].
    rewrite (Hg y ltac:(left)). discriminate. }
  split.
  - apply HM.
  - apply HM.
  - intros x Hx. rewrite (mk_rc _ _ _ HM x Hx), Hd. apply u32_small.
    pose proof (occ_marked x Hx). pose proof (occ_nonneg x (flat_map K M)). pose proof (ho_count _ _ Hok x). lia.
  - intros x z Hx Hc. rewrite (mk_grey _ _ _ HM x Hx) in Hc. discriminate Hc.
  - intros x Hx Hc. rewrite (mk_grey _ _ _ HM x Hx) in Hc. discriminate Hc.
  - intros x Hx. left. by apply HM.
  - apply HM.
  - intros x Hx Hc. rewrite (mk_grey _ _ _ HM x Hx) in Hc. discriminate Hc.
Qed.
(** *** [gc_scan_black] from a structure that is referred to from outside *)
Abbreviation black_run := (run env h0 id (like h0) same_addresses black_todo 1).

Lemma scan_black_run h x : like h0 h -> in_heap h0 x -> col h x <> GC_BLACK ->
  exists h' vs, gc_scan_black (S (size h)) env h x = Ok h' /\ black_run h [] [x] h' vs.
Proof.
  intros Hl Hx Hc.
  destruct (dfs_ok env h0 id (like h0) same_addresses black_todo 1 _ _ _ (scan_black_if env)
    (black_ops env h0 Hok) (S (size h)) h x Hl Hx) as (h' & vs & E & H).
  - rewrite (like_size h Hl). pose proof (todos_size id black_todo h). lia.
  - exists h', vs. split; [|done]. unfold scan_black_if in E. rewrite (color_of_ok h0) in E by done.
    cbn [rbind] in E. by rewrite (proj2 (Z.eqb_neq _ _) Hc) in E.
Qed.

Lemma held_of h x : scanning h -> x ∈ M -> col h x <> GC_BLACK -> 0 < rc h x -> held x.
Proof.
  intros S Hx Hc Hr. split; [done|]. rewrite (sc_rc _ S x) in Hr by (by apply (mk_in _ _ _ HM)).
  rewrite (dark_only h x S Hx Hc) in Hr. lia.
Qed.

(** The run blackens [vs]; these leave the dark part. *)
Section Blackened.
Context (h h' : heap) (x : addr) (vs : list addr).
Context (S : scanning h) (Hh : held x) (H : black_run h [] [x] h' vs).

Lemma blackened_col y : col h' y = if bool_decide (y ∈ vs) then GC_BLACK else col h y.
Proof.
  case_bool_decide as Hy.
  - pose proof (rn_done _ _ _ _ _ _ _ _ _ _ _ _ H y Hy) as Hd. unfold black_todo, id in Hd. by zbool.
  - destruct (rn_cols _ _ _ _ _ _ _ _ _ _ _ _ H y Hy) as [E|[-> E]]; [done|]. unfold id in E. rewrite E.
    symmetry. apply (sc_out _ S). intros Hin. by apply (mk_in _ _ _ HM) in Hin as [_ ?].
Qed.

Lemma blackened_in y : y ∈ vs -> y ∈ M /\ col h y <> GC_BLACK /\ lives y.
Proof.
  intros Hy. destruct (rn_todo _ _ _ _ _ _ _ _ _ _ _ _ H y Hy) as [Ht _]. unfold black_todo, id in Ht. zbool.
  split; [|split; [done|]].
  - destruct (decide (y ∈ M)) as [|Hn]; [done|]. by rewrite (sc_out _ S y Hn) in Ht.
  - destruct (rn_reach _ _ _ _ _ _ _ _ _ _ _ _ H y Hy) as (r & ->%list_elem_of_singleton & Hp). by exists x.
Qed.

Lemma blackened_dark : dark h ≡ₚ vs ++ dark h'.
Proof.
  apply NoDup_Permutation; [apply dark_nodup | |].
  - apply NoDup_app. split; [apply H|]. split; [|apply dark_nodup]. intros y Hy. rewrite dark_in, blackened_col.
    rewrite bool_decide_eq_true_2 by done. tauto.
  - intros y. rewrite elem_of_app, !dark_in, blackened_col. case_bool_decide as Hy; [|tauto].
    pose proof (blackened_in y Hy). tauto.
Qed.

Lemma blackened_closed y z : y ∈ vs -> z ∈ K y -> col h' z = GC_BLACK.
Proof.
  intros Hy Hz. pose proof (rn_kids _ _ _ _ _ _ _ _ _ _ _ _ H y z Hy Hz) as Hk. unfold black_todo, id in Hk. by zbool.
Qed.

Lemma blackened_moved y : in_heap h0 y -> rc h' y = u32 (rc h y + occ y (flat_map K vs)).
Proof.
  intros Hy. pose proof (rn_counts _ _ _ _ _ _ _ _ _ _ _ _ H y Hy) as E. unfold id in E. rewrite E. f_equal. simpl. lia.
Qed.

Lemma blackened_rc y : in_heap h0 y -> rc h' y = rc h0 y - occ y (flat_map K (dark h')).
Proof.
  intros Hy. rewrite blackened_moved, (sc_rc _ S y Hy) by done.
  rewrite (occ_perm y _ _ (Permutation_flat_map K blackened_dark)), flat_map_app, occ_app.
  rewrite u32_small; [lia|].
  pose proof (occ_nonneg y (flat_map K (dark h'))). pose proof (occ_marked y Hy). pose proof (ho_count _ _ Hok y).
  pose proof (occ_sub y (dark h') (dark_nodup h') (fun z Hz => proj2 (proj1 (dark_in h' z) Hz))).
  lia.
Qed.

Lemma blackened_scanned : scanned h h' /\ col h' x = GC_BLACK.
Proof.
  split; [|pose proof (rn_finished _ _ _ _ _ _ _ _ _ _ _ _ H x ltac:(left)) as Hd; unfold black_todo, id in Hd; by zbool].
  split; [split| |].
  - apply H.
  - intros y. etransitivity; [apply (rn_R _ _ _ _ _ _ _ _ _ _ _ _ H y) | apply S].
  - apply blackened_rc.
  - intros y z Hy Hc Hz. destruct (decide (y ∈ vs)) as [Hv|Hv]; [by eapply blackened_closed|].
    rewrite blackened_col in Hc |- *. rewrite (bool_decide_eq_false_2 (y ∈ vs)) in Hc by done.
    case_bool_decide; [done|]. by eapply (sc_closed _ S).
  - intros y Hy Hw. assert (Hv : y ∉ vs) by (intros Hv; rewrite blackened_col, bool_decide_eq_true_2 in Hw; done).
    pose proof Hw as Hw'. rewrite blackened_col, bool_decide_eq_false_2 in Hw by done.
    rewrite blackened_moved, (sc_white _ S y Hy Hw) by (by apply (mk_in _ _ _ HM)). rewrite occ_notin; [done|].
    intros [z [Hz1 Hz2]]%list_elem_of_In%in_flat_map. apply list_elem_of_In in Hz1, Hz2.
    rewrite (blackened_closed z y Hz1 Hz2) in Hw'. discriminate Hw'.
  - intros y Hy. rewrite blackened_col. case_bool_decide; [auto | by apply S].
  - intros y Hy. rewrite blackened_col. case_bool_decide; [done | by apply S].
  - intros y Hy. rewrite blackened_col. case_bool_decide as Hv; [intros _; by apply blackened_in | by apply S].
  - intros y. rewrite blackened_col. by case_bool_decide.
  - intros y z _ Hg Hw. rewrite blackened_col, Hg in Hw. by case_bool_decide.
Qed.
End Blackened.

(** *** [gc_scan] *)
Definition greys (h : heap) : gset addr := filter (fun y => col h y = GC_GREY) (dom h0).

Lemma greys_scanned h h' : scanned h h' -> greys h' ⊆ greys h.
Proof.
  intros S y. unfold greys. rewrite !elem_of_filter. intros [Hy ?]. split; [|done].
  destruct (decide (col h y = GC_GREY)) as [|Hn]; [done|]. by apply (sd_grey _ _ S) in Hn.
Qed.

Lemma whiten_ok h h1 x : scanning h -> x ∈ M -> col h x = GC_GREY -> rc h x = 0 ->
  recoloured h0 x GC_WHITE h h1 -> scanning h1.
Proof.
  intros S Hx Hg Hr [].
  assert (Hd : dark h = dark h1).
  { apply dark_ext. intros y Hy. rewrite rl_col. case_bool_decide as Ey; [subst y; rewrite Hg|]; done. }
  assert (Hb : forall y, col h1 y = GC_BLACK <-> col h y = GC_BLACK).
  { intros y. rewrite rl_col. case_bool_decide as Ey; [subst y; rewrite Hg|]; done. }
  split.
  - done.
  - intros y. rewrite rl_addr. apply S.
  - intros y Hy. rewrite rl_rc, <- Hd. by apply S.
  - intros y z Hy. rewrite !Hb. by apply S.
  - intros y Hy. rewrite rl_rc, rl_col. case_bool_decide as Ey; [by subst y | by apply S].
  - intros y Hy. rewrite rl_col. case_bool_decide; [auto | by apply S].
  - intros y Hy. apply Hb. by apply S.
  - intros y Hy. rewrite Hb. by apply S.
Qed.

Lemma scan_each_ok fuel :
  (forall h r, scanning h -> in_heap h0 r -> (size (greys h) < fuel)%nat ->
    exists h', gc_scan fuel env h r = Ok h' /\ scanned h h' /\ col h' r <> GC_GREY) ->
  forall l h, scanning h -> (forall r, r ∈ l -> in_heap h0 r) -> (size (greys h) < fuel)%nat ->
  exists h', fold_res (gc_scan fuel env) l h = Ok h' /\ scanned h h' /\ forall r, r ∈ l -> col h' r <> GC_GREY.
Proof.
  intros IH l. induction l as [|r l IHl]; intros h S Hl Hf; cbn [fold_res].
  { exists h. split; [done|]. split; [by apply scanned_refl|]. by intros r ?%not_elem_of_nil. }
  destruct (IH h r S ltac:(apply Hl; left) Hf) as (h1 & E1 & S1 & G1). rewrite E1. rsimp.
  destruct (IHl h1 (sd_state _ _ S1)) as (h2 & E2 & S2 & G2).
  { intros z Hz. apply Hl. by right. }
  { eapply Nat.le_lt_trans, Hf. apply subseteq_size, greys_scanned, S1. }
  exists h2. split; [done|]. split; [by eapply scanned_trans|]. intros z [->|Hz]%elem_of_cons; [|by apply G2].
  by apply (sd_grey _ _ S2).
Qed.

Lemma gc_scan_ok fuel : forall h r, scanning h -> in_heap h0 r -> (size (greys h) < fuel)%nat ->
  exists h', gc_scan fuel env h r = Ok h' /\ scanned h h' /\ col h' r <> GC_GREY.
Proof.
  induction fuel as [|fuel IH]; intros h r S Hr Hf; [lia|]. cbn [gc_scan].
  pose proof (sc_like _ S) as Hl. rewrite (color_of_ok h0) by done. rsimp.
  destruct (Z.eqb_spec (col h r) GC_GREY) as [Hg|Hg].
  2: { exists h. split; [done|]. split; [by apply scanned_refl | done]. }
  assert (Hm : r ∈ M).
  { destruct (decide (r ∈ M)) as [|Hn]; [done|]. by rewrite (sc_out _ S r Hn) in Hg. }
  destruct (like_lookup _ _ _ Hl Hr) as [o Ho]. rewrite (get_counted_ok _ _ _ Ho). rsimp.
  assert (Eo : gc_refcount o = rc h r) by (unfold rc; by rewrite Ho). rewrite Eo.
  assert (Hnb : col h r <> GC_BLACK) by (by rewrite Hg).
  destruct (Z.ltb_spec 0 (rc h r)) as [Hc|Hc].
  { destruct (scan_black_run h r Hl Hr Hnb) as (h' & vs & E & H). exists h'. split; [done|].
    destruct (blackened_scanned h h' r vs S (held_of h r S Hm Hnb Hc) H) as [Hs Hb]. split; [done|]. by rewrite Hb. }
  pose proof (lk_count _ _ Hl r). destruct (set_color_ok h0 h r GC_WHITE Hl Hr eq_refl) as (h1 & E1 & H1).
  rewrite E1. rsimp.
  assert (S1 : scanning h1) by (apply (whiten_ok h h1 r); [done|done|done|lia|done]).
  destruct H1 as [L1 C1 _ _]. assert (Hw : col h1 r = GC_WHITE) by (by rewrite C1, bool_decide_eq_true_2).
  destruct (like_lookup _ _ _ L1 Hr) as [o1 Ho1].
  replace (body o) with (body o1).
  2: { pose proof (lk_body _ _ Hl r) as B0. pose proof (lk_body _ _ L1 r) as B1. rewrite Ho in B0. rewrite Ho1, <- B0 in B1.
       simpl in B1. congruence. }
  rewrite (visit_like _ _ Hok _ _ _ _ _ _ L1 Ho1), bool_decide_eq_false_2 by (by apply (mk_in _ _ _ HM)).
  destruct (scan_each_ok fuel IH (K r) h1 S1) as (h2 & E2 & S2 & G2).
  { intros z Hz. by apply (kids_in _ _ Hok) in Hz as [_ ?]. }
  { enough (size (greys h1) < size (greys h))%nat by lia. apply subset_size. unfold greys. split.
    - intros y. rewrite !elem_of_filter, C1. case_bool_decide; [by intros [? _] | done].
    - intros Hs. specialize (Hs r). rewrite !elem_of_filter, Hw in Hs.
      destruct Hs as [Hs _]; [split; [done | by apply elem_of_dom] | done]. }
  exists h2. split; [done|]. split; [split|].
  - apply S2.
  - intros y Hy. apply (sd_grey _ _ S2). rewrite C1. by case_bool_decide.
  - intros y z Hy Hyg Hyw Hz. destruct (decide (y = r)) as [->|Hn]; [by apply G2|].
    eapply (sd_kids _ _ S2 y); try done. by rewrite C1, bool_decide_eq_false_2.
  - apply (sd_grey _ _ S2). by rewrite Hw.
Qed.

Lemma scan_all_ok l : forall h, scanning h -> (forall r, r ∈ l -> in_heap h0 r) ->
  exists h', scan_all env l h = Ok h' /\ scanned h h' /\ forall r, r ∈ l -> col h' r <> GC_GREY.
Proof.
  induction l as [|r l IH]; intros h S Hl; cbn [scan_all].
  { exists h. split; [done|]. split; [by apply scanned_refl|]. by intros r ?%not_elem_of_nil. }
  destruct (gc_scan_ok (Datatypes.S (size h)) h r S ltac:(apply Hl; left)) as (h1 & E1 & S1 & G1).
  { rewrite (like_size h (sc_like _ S)), <- (size_dom (D := gset addr) h0).
    enough (size (greys h) <= size (dom h0 : gset addr))%nat by lia. apply subseteq_size. unfold greys. set_solver. }
  rewrite E1. rsimp. destruct (IH h1 (sd_state _ _ S1)) as (h2 & E2 & S2 & G2); [intros z Hz; apply Hl; by right|].
  exists h2. split; [done|]. split; [by eapply scanned_trans|]. intros z [->|Hz]%elem_of_cons; [|by apply G2].
  by apply (sd_grey _ _ S2).
Qed.

(** After the scan: a structure of [M] is black if it lives and white
    otherwise. *)
Record sorted_out (h : heap) : Prop := mkSortedOut {
  so_scanning : scanning h;
  so_white : forall x, col h x = GC_WHITE <-> x ∈ M /\ ~ lives x;
  so_black : forall x, col h x = GC_WHITE \/ col h x = GC_BLACK
}.

Lemma reaches_not_grey h r x : scanned hM h -> col h r <> GC_GREY -> reaches r x -> r ∈ M \/ r = table -> col h x <> GC_GREY.
Proof.
  intros Sd Hr Hp. induction Hp as [|r y x He Hp IH]; [done|]. intros Hm.
  destruct Hm as [Hm|Ht]; [|subst r; unfold edge in He; rewrite (kids_table _ _ Hok) in He; by apply not_elem_of_nil in He].
  apply IH; [|by apply (mk_kids _ _ _ HM r)].
  destruct (sc_col _ (sd_state _ _ Sd) r Hm) as [E|[E|E]]; [done | |].
  - apply (sd_kids _ _ Sd r); [done | by apply HM | done | done].
  - rewrite (sc_closed _ (sd_state _ _ Sd) r y Hm E He). discriminate.
Qed.

Lemma lives_black h x : scanning h -> (forall y, y ∈ M -> col h y <> GC_GREY) -> lives x -> col h x = GC_BLACK.
Proof.
  intros S Hg (z & [Hz Hh] & Hp).
  assert (Hb : col h z = GC_BLACK).
  { destruct (sc_col _ S z Hz) as [E|[E|E]]; [by apply Hg in E | | done].
    pose proof (sc_white _ S z Hz E) as H0. rewrite (sc_rc _ S z) in H0 by (by apply (mk_in _ _ _ HM)).
    rewrite (dark_only h z S Hz) in H0 by (by rewrite E). lia. }
  clear Hh. induction Hp as [|z y x He Hp IH]; [done|].
  assert (Hy : col h y = GC_BLACK) by (by eapply (sc_closed _ S)).
  destruct (mk_kids _ _ _ HM z y Hz He) as [Hm| ->]; [by apply IH|].
  inversion Hp as [|? ? ? He']; subst; [done|]. unfold edge in He'. rewrite (kids_table _ _ Hok) in He'.
  by apply not_elem_of_nil in He'.
Qed.

Lemma scan_all_sorted : (forall r, r ∈ roots -> in_heap h0 r) -> exists h, scan_all env roots hM = Ok h /\ sorted_out h.
Proof.
  intros Hr. destruct (scan_all_ok roots hM marked_scanning Hr) as (h & E & Sd & G). exists h. split; [done|].
  pose proof (sd_state _ _ Sd) as S.
  assert (Hng : forall y, y ∈ M -> col h y <> GC_GREY).
  { intros y Hy. destruct (mk_reach _ _ _ HM y Hy) as (r & Hr1 & Hp).
    apply (reaches_not_grey h r y Sd); [by apply G | done | by apply HM]. }
  split; [done| |].
  - intros x. split.
    + intros Hw. assert (Hx : x ∈ M).
      { destruct (decide (x ∈ M)) as [|Hn]; [done|]. rewrite (sc_out _ S x Hn) in Hw. discriminate Hw. }
      split; [done|]. intros Hlv. rewrite (lives_black h x S Hng Hlv) in Hw. discriminate Hw.
    + intros [Hx Hn]. destruct (sc_col _ S x Hx) as [E'|[E'|E']]; [by apply Hng in E' | done |].
      destruct Hn. by apply (sc_lives _ S).
  - intros x. destruct (decide (x ∈ M)) as [Hx|Hx]; [|right; by apply S].
    destruct (sc_col _ S x Hx) as [E'|E']; [by apply Hng in E' | done].
Qed.
End Scanned.
End Scan.
