(* ===== verification/GcRoots.v ===== *)
(** * The cycle collector: the buffer of possible roots ([Zend/zend_gc.c])

    The entries ([gc_root_buffer]) live in the preallocated array [buf] and in
    the additional buffers; the links of an entry are kept per field.  [roots]
    and [to_free] head two rings, and [LOCAL], on the stack of
    [zend_gc_collect_cycles], a third; the unused entries are chained by [prev]. *)
From S2P Require Export GcScan.

(** ** Entries and globals *)
Inductive rootp :=
| ROOTS
| TO_FREE
| BUF (i : Z)
| ADD (b i : Z)
| LOCAL.

#[export] Instance rootp_eq_dec : EqDecision rootp.
Proof. solve_decision. Defined.

Definition rootp_code (p : rootp) : Z * Z * Z :=
  match p with ROOTS => (0, 0, 0) | TO_FREE => (1, 0, 0) | BUF i => (2, i, 0) | ADD b i => (3, b, i)
  | LOCAL => (4, 0, 0) end.
Definition rootp_decode (c : Z * Z * Z) : rootp :=
  match c with
  | (0, _, _) => ROOTS
  | (1, _, _) => TO_FREE
  | (2, i, _) => BUF i
  | (4, _, _) => LOCAL
  | (_, b, i) => ADD b i
  end.

#[export] Instance rootp_countable : Countable rootp.
Proof. by refine (inj_countable' rootp_code rootp_decode _); intros []. Defined.

(** The fields of the entries: memory that was never written is absent. *)
Record links := mkLinks {
  rb_next : gmap rootp rootp;
  rb_prev : gmap rootp (option rootp);
  rb_ref : gmap rootp addr
}.

Definition GC_ROOT_BUFFER_MAX_ENTRIES : Z := 10001.
Definition GC_NUM_ADDITIONAL_ENTRIES : Z := (4096 - 0 - 8 * 2) / 32.

(** [first_unused] and [last_unused] are indices into [buf], [None] for NULL;
    [additional] holds the [used] field of each additional buffer, the latest
    first: [ADD b i] is entry [i] of the buffer with [b] buffers below it. *)
Record zend_gc_globals := mkGlobals {
  gc_enabled : bool;
  gc_active : bool;
  gc_full : bool;
  buf : bool;
  lk : links;
  unused : option rootp;
  first_unused : option Z;
  last_unused : option Z;
  next_to_free : option rootp;
  additional : list Z;
  gc_runs : Z;
  collected : Z
}.

(** The state of the collector with the heap it works on and [EG(objects_store)]. *)
Record GC := mkGC {
  hp : heap;
  gg : zend_gc_globals;
  objects : zend_objects_store
}.

(** Field updates. *)
Definition set_hp (x : heap) (g : GC) : GC := mkGC x (gg g) (objects g).
Definition set_gg (x : zend_gc_globals) (g : GC) : GC := mkGC (hp g) x (objects g).
Definition on_gg (f : zend_gc_globals -> zend_gc_globals) (g : GC) : GC := mkGC (hp g) (f (gg g)) (objects g).
Definition set_objects (x : zend_objects_store) (g : GC) : GC := mkGC (hp g) (gg g) x.
Definition set_active (x : bool) (g : zend_gc_globals) : zend_gc_globals :=
  mkGlobals (gc_enabled g) x (gc_full g) (buf g) (lk g) (unused g) (first_unused g) (last_unused g) (next_to_free g)
    (additional g) (gc_runs g) (collected g).
Definition set_lk (x : links) (g : zend_gc_globals) : zend_gc_globals :=
  mkGlobals (gc_enabled g) (gc_active g) (gc_full g) (buf g) x (unused g) (first_unused g) (last_unused g)
    (next_to_free g) (additional g) (gc_runs g) (collected g).
Definition set_unused (x : option rootp) (g : zend_gc_globals) : zend_gc_globals :=
  mkGlobals (gc_enabled g) (gc_active g) (gc_full g) (buf g) (lk g) x (first_unused g) (last_unused g)
    (next_to_free g) (additional g) (gc_runs g) (collected g).
Definition set_first_unused (x : option Z) (g : zend_gc_globals) : zend_gc_globals :=
  mkGlobals (gc_enabled g) (gc_active g) (gc_full g) (buf g) (lk g) (unused g) x (last_unused g)
    (next_to_free g) (additional g) (gc_runs g) (collected g).
Definition set_next_to_free (x : option rootp) (g : zend_gc_globals) : zend_gc_globals :=
  mkGlobals (gc_enabled g) (gc_active g) (gc_full g) (buf g) (lk g) (unused g) (first_unused g) (last_unused g)
    x (additional g) (gc_runs g) (collected g).
Definition set_additional (x : list Z) (g : zend_gc_globals) : zend_gc_globals :=
  mkGlobals (gc_enabled g) (gc_active g) (gc_full g) (buf g) (lk g) (unused g) (first_unused g) (last_unused g)
    (next_to_free g) x (gc_runs g) (collected g).
Definition set_gc_runs (x : Z) (g : zend_gc_globals) : zend_gc_globals :=
  mkGlobals (gc_enabled g) (gc_active g) (gc_full g) (buf g) (lk g) (unused g) (first_unused g) (last_unused g)
    (next_to_free g) (additional g) x (collected g).

(** Accesses to the fields of an entry. *)
Definition set_next (p : rootp) (x : rootp) (l : links) : links := mkLinks (<[p := x]> (rb_next l)) (rb_prev l) (rb_ref l).
Definition set_prev (p : rootp) (x : option rootp) (l : links) : links :=
  mkLinks (rb_next l) (<[p := x]> (rb_prev l)) (rb_ref l).
Definition set_ref (p : rootp) (x : addr) (l : links) : links := mkLinks (rb_next l) (rb_prev l) (<[p := x]> (rb_ref l)).

Definition field {K A} `{Countable K} (m : gmap K A) (p : K) : res A :=
  match m !! p with Some x => Ok x | None => Err OutOfBounds end.
Definition deref_root (p : option rootp) : res rootp := match p with Some p => Ok p | None => Err OutOfBounds end.

(** [newRoot - GC_G(buf)] *)
Definition buf_index (p : rootp) : res Z := match p with BUF i => Ok i | _ => Err OutOfBounds end.

(** ** Lists of entries *)

(** [root->next->prev = root->prev; root->prev->next = root->next;] *)
Definition unlink_root (root : rootp) (l : links) : res links :=
  let! n := field (rb_next l) root in
  let! p := field (rb_prev l) root in
  let l := set_prev n p l in
  let! p := deref_root p in
  let! n := field (rb_next l) root in
  Ok (set_next p n l).

Definition gc_remove_from_roots (root : rootp) (g : zend_gc_globals) : res zend_gc_globals :=
  let! l := unlink_root root (lk g) in
  let l := set_prev root (unused g) l in
  Ok (set_unused (Some root) (set_lk l g)).

Definition gc_remove_from_additional_roots (root : rootp) (g : zend_gc_globals) : res zend_gc_globals :=
  let! l := unlink_root root (lk g) in Ok (set_lk l g).

(** [root->next = GC_G(roots).next; root->prev = &GC_G(roots);
     GC_G(roots).next->prev = root; GC_G(roots).next = root;] *)
Definition link_root (root : rootp) (l : links) : res links :=
  let! f := field (rb_next l) ROOTS in
  let l := set_next root f l in
  let l := set_prev root (Some ROOTS) l in
  let! f := field (rb_next l) ROOTS in
  let l := set_prev f (Some root) l in
  Ok (set_next ROOTS root l).

(** ** Construction *)
Definition reset_lists (l : links) : links :=
  set_prev TO_FREE (Some TO_FREE) (set_next TO_FREE TO_FREE (set_prev ROOTS (Some ROOTS) (set_next ROOTS ROOTS l))).

Definition gc_globals_ctor_ex (g : zend_gc_globals) : zend_gc_globals :=
  mkGlobals false false (gc_full g) false (reset_lists (lk g)) None (first_unused g) (last_unused g) None [] 0 0.

Definition gc_reset (g : zend_gc_globals) : zend_gc_globals :=
  mkGlobals (gc_enabled g) (gc_active g) false (buf g) (reset_lists (lk g)) None
    (if buf g then Some 1 else None) (if buf g then last_unused g else None) (next_to_free g) [] 0 0.

Definition gc_init (g : zend_gc_globals) : zend_gc_globals :=
  if negb (buf g) && gc_enabled g then
    gc_reset (mkGlobals (gc_enabled g) (gc_active g) (gc_full g) true (lk g) (unused g) (first_unused g)
                (Some GC_ROOT_BUFFER_MAX_ENTRIES) (next_to_free g) (additional g) (gc_runs g) (collected g))
  else g.

Definition root_buffer_dtor (g : zend_gc_globals) : zend_gc_globals :=
  if buf g then
    mkGlobals (gc_enabled g) (gc_active g) (gc_full g) false (lk g) (unused g) (first_unused g) (last_unused g)
      (next_to_free g) (additional g) (gc_runs g) (collected g)
  else g.

(** ** [gc_possible_root]

    [collect] is the collector behind the pointer [gc_collect_cycles], and
    [dtor_func] is [zval_dtor_func]; [unclean_shutdown] is [CG(unclean_shutdown)]. *)
Section PossibleRoot.
Context (collect : GC -> res GC) (dtor_func : addr -> GC -> res GC) (unclean_shutdown : bool).

(** The entry is written and put in front of the roots. *)
Definition record_root (ref : addr) (newRoot : rootp) (g : GC) : res GC :=
  let! o := get_counted (hp g) ref in
  let! i := buf_index newRoot in
  let g := set_hp (<[ref := set_info (Z.lor i GC_PURPLE) o]> (hp g)) g in
  let! l := link_root newRoot (set_ref newRoot ref (lk (gg g))) in
  Ok (on_gg (set_lk l) g).

Definition gc_possible_root (ref : addr) (g : GC) : res GC :=
  if unclean_shutdown || gc_active (gg g) then Ok g
  else match unused (gg g) with
  | Some newRoot =>
      let! p := field (rb_prev (lk (gg g))) newRoot in
      record_root ref newRoot (on_gg (set_unused p) g)
  | None =>
      if negb (bool_decide (first_unused (gg g) = last_unused (gg g))) then
        match first_unused (gg g) with
        | Some i => record_root ref (BUF i) (on_gg (set_first_unused (Some (i + 1))) g)
        | None => Err OutOfBounds
        end
      else if negb (gc_enabled (gg g)) then Ok g
      else
        let! h := add_refcount 1 ref (hp g) in
        let! g := collect (set_hp h g) in
        let! h := add_refcount (-1) ref (hp g) in
        let g := set_hp h g in
        let! o := get_counted (hp g) ref in
        if gc_refcount o =? 0 then dtor_func ref g
        else if negb (gc_info o =? 0) then Ok g
        else match unused (gg g) with
        | None => Ok g
        | Some newRoot =>
            let! p := field (rb_prev (lk (gg g))) newRoot in
            record_root ref newRoot (on_gg (set_unused p) g)
        end
  end.
End PossibleRoot.

(** ** [gc_remove_from_buffer] *)

(** The additional buffers from the latest on; [n] are left. *)
Fixpoint find_additional (l : links) (adds : list Z) (a : Z) (ref : addr) : res rootp :=
  match adds with
  | [] => Err OutOfBounds
  | used :: adds =>
      let idx := u32 (a - GC_ROOT_BUFFER_MAX_ENTRIES) in
      if idx <? used then
        let root := ADD (Z.of_nat (length adds)) idx in
        let! r := field (rb_ref l) root in
        if bool_decide (r = ref) then Ok root else find_additional l adds a ref
      else find_additional l adds a ref
  end.

Definition gc_find_additional_buffer (ref : addr) (g : GC) : res rootp :=
  let! o := get_counted (hp g) ref in
  find_additional (lk (gg g)) (additional (gg g)) (GC_ADDRESS (gc_info o)) ref.

Definition gc_remove_from_buffer (ref : addr) (g : GC) : res GC :=
  let! o := get_counted (hp g) ref in
  let! (root, gl) :=
    if GC_ADDRESS (gc_info o) <? GC_ROOT_BUFFER_MAX_ENTRIES then
      let root := BUF (GC_ADDRESS (gc_info o)) in
      let! gl := gc_remove_from_roots root (gg g) in Ok (root, gl)
    else
      let! root := gc_find_additional_buffer ref g in
      let! gl := gc_remove_from_additional_roots root (gg g) in Ok (root, gl) in
  let h := <[ref := set_info 0 o]> (hp g) in
  if bool_decide (next_to_free gl = Some root) then
    let! n := field (rb_next (lk gl)) root in Ok (mkGC h (set_next_to_free (Some n) gl) (objects g))
  else Ok (mkGC h gl (objects g)).

(** [GC_REMOVE_FROM_BUFFER] *)
Definition GC_REMOVE_FROM_BUFFER (ref : addr) (g : GC) : res GC :=
  let! o := get_counted (hp g) ref in
  if negb (GC_ADDRESS (gc_info o) =? 0) then gc_remove_from_buffer ref g else Ok g.

(** [gc_check_possible_root]: [collectable] is the flag [GC_COLLECTABLE], which
    arrays and objects have, destroyed ones too. *)
Definition collectable (b : gc_body) : bool := match b with T_OBJECT _ | T_ARRAY _ | T_NULL => true | _ => false end.

Definition GC_MAY_LEAK (o : refcounted) : bool := (gc_info o =? 0) && collectable (body o).

Definition gc_check_possible_root collect dtor_func unclean (ref : addr) (g : GC) : res GC :=
  let! o := get_counted (hp g) ref in
  let check ref := 
    let! o := get_counted (hp g) ref in
    if GC_MAY_LEAK o then gc_possible_root collect dtor_func unclean ref g else Ok g in
  match body o with
  | T_REFERENCE v => match v with GV_COUNTED r => check r | _ => Ok g end
  | _ => check ref
  end.
