(* ===== verification/GcCollect.v ===== *)
(** * The cycle collector: rings of buffer entries

    [ring l h xs]: from the head [h], [next] runs through [xs] and back to [h],
    and [prev] runs the other way. *)
From S2P Require Export GcRoots.

Section Ring.
Implicit Types (l : links) (a z x h : rootp) (xs : list rootp).

(** [next] leads from [a] through [xs] to [z], and [prev] back. *)
Fixpoint segment l a xs z : Prop :=
  match xs with
  | [] => rb_next l !! a = Some z /\ rb_prev l !! z = Some (Some a)
  | x :: xs => rb_next l !! a = Some x /\ rb_prev l !! x = Some (Some a) /\ segment l x xs z
  end.

Definition ring l h xs : Prop := segment l h xs h /\ NoDup (h :: xs).

Lemma segment_app l a xs1 x xs2 z :
  segment l a (xs1 ++ x :: xs2) z <-> segment l a xs1 x /\ segment l x xs2 z.
Proof. revert a. induction xs1 as [|y xs1 IH]; intros a; simpl; [tauto|]. rewrite IH. tauto. Qed.

Lemma segment_next l a xs z : segment l a xs z -> rb_next l !! a = Some (hd z xs).
Proof. destruct xs; simpl; tauto. Qed.

Lemma last_default (x : rootp) xs a b : List.last (x :: xs) a = List.last (x :: xs) b.
Proof. revert x. induction xs as [|y xs IH]; intros x; [done|]. apply (IH y). Qed.

Lemma segment_prev l a xs z : segment l a xs z -> rb_prev l !! z = Some (Some (List.last xs a)).
Proof.
  revert a. induction xs as [|x xs IH]; intros a; simpl; [tauto|]. intros (_ & _ & H). apply IH in H.
  rewrite H. destruct xs as [|y xs]; [done|]. do 2 f_equal. apply (last_default y).
Qed.

(** A segment reads [next] on [a :: xs] and [prev] on [xs ++ [z]]. *)
Lemma segment_frame l l' a xs z : segment l a xs z ->
  (forall p, p = a \/ p ∈ xs -> rb_next l' !! p = rb_next l !! p) ->
  (forall p, p ∈ xs \/ p = z -> rb_prev l' !! p = rb_prev l !! p) -> segment l' a xs z.
Proof.
  revert a. induction xs as [|x xs IH]; intros a; simpl.
  - intros [H1 H2] Hn Hp. rewrite (Hn a), (Hp z) by auto. done.
  - intros (H1 & H2 & H3) Hn Hp. rewrite (Hn a), (Hp x) by (rewrite ?elem_of_cons; auto). split; [done|]. split; [done|].
    apply IH; [done| |].
    + intros p Hq. apply Hn. rewrite elem_of_cons. destruct Hq; auto.
    + intros p Hq. apply Hp. rewrite elem_of_cons. destruct Hq; auto.
Qed.

Lemma last_in xs x a : List.last (x :: xs) a ∈ x :: xs.
Proof.
  revert x. induction xs as [|y xs IH]; intros x; [simpl; left|]. change (List.last (x :: y :: xs) a) with (List.last (y :: xs) a).
  right. apply IH.
Qed.

Lemma last_cases xs a : List.last xs a = a \/ List.last xs a ∈ xs.
Proof. destruct xs as [|x xs]; [by left | right; apply last_in]. Qed.

Lemma hd_cases xs z : hd z xs = z \/ hd z xs ∈ xs.
Proof. destruct xs; simpl; [by left | right; left]. Qed.
(** ** Removing an entry *)
Lemma segment_relink l a xs1 x xs2 z : segment l a xs1 x -> segment l x xs2 z ->
  NoDup (a :: xs1 ++ x :: xs2) -> z ∉ xs1 ++ xs2 ->
  segment (set_next (List.last xs1 a) (hd z xs2) (set_prev (hd z xs2) (Some (List.last xs1 a)) l)) a (xs1 ++ xs2) z.
Proof.
  revert a. induction xs1 as [|b xs1 IH]; intros a S1 S2 Hn Hz.
  - simpl in *. destruct xs2 as [|y ys]; simpl.
    { by rewrite !lookup_insert_eq. }
    rewrite !lookup_insert_eq. split; [done|]. split; [done|]. destruct S2 as (_ & _ & S2).
    inversion_clear Hn as [|? ? Ha Hn']. inversion_clear Hn' as [|? ? Hx Hy]. inversion_clear Hy as [|? ? Hy' _].
    rewrite !not_elem_of_cons in *. destruct Ha as (? & ? & ?), Hz as [Hz1 Hz2].
    apply (segment_frame l); [done| |]; simpl; intros p Hp; apply lookup_insert_ne.
    + intros ->. destruct Hp as [?|?]; auto.
    + intros ->. destruct Hp as [?|?]; auto.
  - simpl in S1. destruct S1 as (N1 & P1 & S1). simpl in Hn. inversion_clear Hn as [|? ? Ha Hn'].
    simpl in Hz. apply not_elem_of_cons in Hz as [Hzb Hz].
    specialize (IH b S1 S2 Hn' Hz).
    rewrite (last_default b xs1 a b). replace (List.last (b :: xs1) b) with (List.last xs1 b)
      by (destruct xs1 as [|c ?]; [done | apply (last_default c)]).
    simpl. split; [|split; [|exact IH]].
    + rewrite lookup_insert_ne; [done|]. intros E. apply Ha. rewrite <- E.
      rewrite app_comm_cons, elem_of_app. left. rewrite elem_of_cons. destruct (last_cases xs1 b) as [->|?]; auto.
    + rewrite lookup_insert_ne; [done|]. intros E. inversion_clear Hn' as [|? ? Hb _].
      destruct (hd_cases xs2 z) as [Ez|Ez]; rewrite E in Ez; [by apply Hzb|].
      apply Hb. rewrite elem_of_app, elem_of_cons. auto.
Qed.

(** What an operation on the ring [h :: xs] leaves alone. *)
Record links_frame l l' (touched : list rootp) : Prop := mkFrame {
  lf_ref : rb_ref l' = rb_ref l;
  lf_next : forall p, p ∉ touched -> rb_next l' !! p = rb_next l !! p;
  lf_prev : forall p, p ∉ touched -> rb_prev l' !! p = rb_prev l !! p
}.

Lemma unlink_root_ok l h xs1 x xs2 : ring l h (xs1 ++ x :: xs2) ->
  exists l', unlink_root x l = Ok l' /\ ring l' h (xs1 ++ xs2) /\ links_frame l l' (h :: xs1 ++ xs2) /\
    rb_next l !! x = Some (hd h xs2).
Proof.
  intros [S Hn]. apply segment_app in S as [S1 S2]. unfold unlink_root, field.
  pose proof (segment_next _ _ _ _ S2) as N. pose proof (segment_prev _ _ _ _ S1) as P. rewrite N. rsimp. rewrite P. rsimp.
  cbn [deref_root rbind set_prev rb_next]. rewrite N. rsimp. eexists. split; [done|].
  assert (Hh : (h ∉ xs1 ++ xs2) /\ NoDup (xs1 ++ xs2)).
  { inversion_clear Hn as [|? ? Hh Hd]. rewrite elem_of_app, elem_of_cons in Hh. rewrite elem_of_app.
    apply NoDup_app in Hd as (D1 & D2 & D3). inversion_clear D3. split; [tauto|]. apply NoDup_app.
    split; [done|]. split; [|done]. intros y Hy1 Hy2. apply (D2 y Hy1). by right. }
  split; [|split; [|done]].
  - split; [|constructor; apply Hh]. apply (segment_relink l h xs1 x xs2 h S1 S2 Hn), Hh.
  - split; [done| |]; intros p Hp; apply not_elem_of_cons in Hp as [Hp1 Hp2]; apply lookup_insert_ne; intros <-.
    + destruct (last_cases xs1 h) as [E|E]; [done|]. apply Hp2, elem_of_app. auto.
    + destruct (hd_cases xs2 h) as [E|E]; [done|]. apply Hp2, elem_of_app. auto.
Qed.

(** ** Putting an entry in front *)
Lemma link_root_ok l xs x : ring l ROOTS xs -> x ∉ ROOTS :: xs ->
  exists l', link_root x l = Ok l' /\ ring l' ROOTS (x :: xs) /\ links_frame l l' (x :: ROOTS :: xs).
Proof.
  intros [S Hn] Hx. unfold link_root, field. pose proof (segment_next _ _ _ _ S) as N. rewrite N. rsimp.
  cbn [set_prev set_next rb_next]. apply not_elem_of_cons in Hx as [Hx1 Hx2].
  rewrite lookup_insert_ne, N by done. rsimp. eexists. split; [done|].
  assert (Hr : ROOTS ∉ xs) by (by inversion_clear Hn).
  split; [split|].
  - simpl. rewrite !lookup_insert_eq. split; [done|].
    assert (Hh : hd ROOTS xs <> x) by (destruct (hd_cases xs ROOTS) as [-> | Hh]; [congruence | intros <-; done]).
    rewrite (lookup_insert_ne _ (hd ROOTS xs)), lookup_insert_eq by done. split; [done|].
    destruct xs as [|y ys]; simpl in *.
    + rewrite lookup_insert_ne, !lookup_insert_eq by done. done.
    + destruct S as (S1 & S2 & S3). rewrite not_elem_of_cons in Hr. destruct Hr as [Hry Hr].
      rewrite not_elem_of_cons in Hx2. destruct Hx2 as [Hxy Hx2].
      inversion_clear Hn as [|? ? _ Hd]. inversion_clear Hd as [|? ? Hy _].
      rewrite (lookup_insert_ne _ ROOTS), lookup_insert_eq, lookup_insert_eq by done. split; [done|]. split; [done|].
      apply (segment_frame l); [done| |]; simpl; intros p Hp.
      * rewrite !lookup_insert_ne; [done| |]; intros <-; destruct Hp; auto.
      * rewrite !lookup_insert_ne; [done| |]; intros <-; destruct Hp; auto.
  - constructor; [by rewrite not_elem_of_cons; auto|]. by constructor; [|inversion_clear Hn].
  - split; [done| |]; intros p Hp; rewrite !not_elem_of_cons in Hp; destruct Hp as (P1 & P2 & P3); simpl.
    + by rewrite !lookup_insert_ne.
    + rewrite !lookup_insert_ne; [done | done|]. intros <-. destruct (hd_cases xs ROOTS) as [E|E]; auto.
Qed.
End Ring.

(** * The cycle collector: the phases over the root buffer ([gc_mark_roots],
    [gc_scan_roots], [gc_add_garbage], [gc_collect_white],
    [gc_collect_roots] of [Zend/zend_gc.c]) *)

(** ** The loops over the roots; fuel is the number of entries *)
Fixpoint mark_roots_loop (fuel : nat) (env : genv) (l : links) (current : rootp) (h : heap) {struct fuel} : res heap :=
  match fuel with
  | O => Err OutOfFuel
  | S fuel =>
      if bool_decide (current = ROOTS) then Ok h
      else
        let! ref := field (rb_ref l) current in
        let! c := color_of h ref in
        let! h := if c =? GC_PURPLE then gc_mark_grey (S (size h)) env h ref else Ok h in
        let! n := field (rb_next l) current in
        mark_roots_loop fuel env l n h
  end.

Definition gc_mark_roots (env : genv) (g : GC) : res GC :=
  let l := lk (gg g) in
  let! current := field (rb_next l) ROOTS in
  let! h := mark_roots_loop (S (size (rb_next l))) env l current (hp g) in
  Ok (set_hp h g).

Fixpoint scan_roots_loop (fuel : nat) (env : genv) (l : links) (current : rootp) (h : heap) {struct fuel} : res heap :=
  match fuel with
  | O => Err OutOfFuel
  | S fuel =>
      if bool_decide (current = ROOTS) then Ok h
      else
        let! ref := field (rb_ref l) current in
        let! h := gc_scan (S (size h)) env h ref in
        let! n := field (rb_next l) current in
        scan_roots_loop fuel env l n h
  end.

Definition gc_scan_roots (env : genv) (g : GC) : res GC :=
  let l := lk (gg g) in
  let! current := field (rb_next l) ROOTS in
  let! h := scan_roots_loop (S (size (rb_next l))) env l current (hp g) in
  Ok (set_hp h g).

(** ** Collecting the white structures *)

(** The entry of a new piece of garbage, and its number. *)
Definition garbage_entry (g : zend_gc_globals) : res (rootp * Z * zend_gc_globals) :=
  match unused g with
  | Some b =>
      let! p := field (rb_prev (lk g)) b in
      let! i := buf_index b in
      Ok (b, i, set_unused p g)
  | None =>
      if negb (bool_decide (first_unused g = last_unused g)) then
        match first_unused g with
        | Some i => Ok (BUF i, i, set_first_unused (Some (i + 1)) g)
        | None => Err OutOfBounds
        end
      else
        let adds :=
          match additional g with
          | [] => [0]
          | used :: _ => if used =? GC_NUM_ADDITIONAL_ENTRIES then 0 :: additional g else additional g
          end in
        match adds with
        | [] => Err OutOfBounds
        | used :: below =>
            Ok (ADD (Z.of_nat (length below)) used, GC_ROOT_BUFFER_MAX_ENTRIES + used,
                set_additional (u32 (used + 1) :: below) g)
        end
  end.

Definition gc_add_garbage (ref : addr) (g : GC) : res GC :=
  let! (b, i, gl) := garbage_entry (gg g) in
  let! o := get_counted (hp g) ref in
  let! l := link_root b (set_ref b ref (lk gl)) in
  Ok (mkGC (<[ref := set_info i o]> (hp g)) (set_lk l gl) (objects g)).

Definition GC_HAS_DESTRUCTORS : Z := 1.

(** [if (Z_TYPE_P(zv) != IS_UNDEF) count++] *)
Definition plain_count (v : gval) : Z := match v with GV_UNDEF => 0 | _ => 1 end.

(** The backward search for the last counted value, counting the others; what
    it tests is [tested v] for the value [v] it stands on. *)
Fixpoint count_back (tested : gval -> gval) (l : list gval) (n : nat) (count : Z) {struct n} : Z * option nat :=
  match n with
  | O => (count, None)
  | S n => match l !! n with
           | Some (GV_COUNTED _) => (count, Some n)
           | Some v => count_back tested l n (count + plain_count (tested v))
           | None => (count, None)
           end
  end.

Section CountingTraverse.
Context {A : Type} (child : A -> addr -> res (A * Z)).

Fixpoint collect_each (l : list gval) (s : A) (count : Z) : res (A * Z) :=
  match l with
  | [] => Ok (s, count)
  | v :: l =>
      match counted v with
      | Some r => let! (s, n) := child s r in collect_each l s (count + n)
      | None => collect_each l s (count + plain_count v)
      end
  end.

Definition collect_values (tested : gval -> gval) (l : list gval) (s : A) (count : Z) : res (A * Z) :=
  match count_back tested l (length l) count with
  | (count, None) => Ok (s, count)
  | (count, Some n) =>
      let! (s, count) := collect_each (take n l) s count in
      match l !! n with
      | Some (GV_COUNTED r) => let! (s, n) := child s r in Ok (s, count + n)
      | _ => Err OutOfBounds
      end
  end.

Definition collect_ht (env : genv) (used : list gval) (s : A) (count : Z) : res (A * Z) :=
  if (length used =? 0)%nat then Ok (s, count)
  else let! l := ht_values env used in collect_values (fun v => v) l s count.

(** The search in an object's table tests the type of [zv], its first value,
    whatever value [end] stands on. *)
Definition collect_object (env : genv) (view : gc_view) (s : A) (count : Z) : res (A * Z) :=
  match gc_ht view with
  | None =>
      match gc_table view with
      | [] => Ok (s, count)
      | first :: _ => collect_values (fun _ => first) (gc_table view) s count
      end
  | Some used => let! (s, count) := collect_each (gc_table view) s count in collect_ht env used s count
  end.
End CountingTraverse.

(** [obj->handlers->dtor_obj && (obj->handlers->dtor_obj != zend_objects_destroy_object
     || obj->ce->destructor != NULL)] *)
Definition has_destructor (obj : zend_object) : bool :=
  has_dtor_obj obj && (negb (std_dtor_obj obj) || ce_destructor obj).

(** [if (!GC_INFO(ref)) gc_add_garbage(ref);] *)
Definition add_if_new (ref : addr) (g : GC) : res GC :=
  let! o := get_counted (hp g) ref in
  if gc_info o =? 0 then gc_add_garbage ref g else Ok g.

Definition add_ref (ref : addr) (g : GC) : res GC :=
  let! h := add_refcount 1 ref (hp g) in Ok (set_hp h g).

(** The state is the collector and [*flags]; the number is the result. *)
Fixpoint gc_collect_white (fuel : nat) (env : genv) (s : GC * Z) (ref : addr) {struct fuel} : res (GC * Z * Z) :=
  match fuel with
  | O => Err OutOfFuel
  | S fuel =>
      let '(g, flags) := s in
      let! c := color_of (hp g) ref in
      if c =? GC_WHITE then
        let! h := GC_REF_SET_BLACK ref (hp g) in
        let g := set_hp h g in
        let! o := get_counted h ref in
        let count := match body o with T_REFERENCE _ => 0 | _ => 1 end in
        let child s r := let! g := add_ref r (fst s) in gc_collect_white fuel env (g, snd s) r in
        match body o with
        | T_OBJECT obj =>
            if negb (obj_free_called obj) then
              match get_gc obj with
              | Some view =>
                  let! g := add_if_new ref g in
                  let flags := if has_destructor obj then Z.lor flags GC_HAS_DESTRUCTORS else flags in
                  collect_object child env view (g, flags) count
              | None => Ok (g, flags, count)
              end
            else Ok (g, flags, count)
        | T_ARRAY used =>
            let! g := add_if_new ref g in
            collect_ht child env used (g, flags) count
        | T_REFERENCE v =>
            match v with
            | GV_COUNTED r => let! (s, n) := child (g, flags) r in Ok (s, count + n)
            | _ => Ok (g, flags, count)
            end
        | T_OTHER | T_NULL => Ok (g, flags, count)
        end
      else Ok (g, flags, 0)
  end.

(** ** [gc_collect_roots] *)

(** [remove non-garbage from the list] *)
Fixpoint remove_black (fuel : nat) (current : rootp) (g : GC) {struct fuel} : res GC :=
  match fuel with
  | O => Err OutOfFuel
  | S fuel =>
      if bool_decide (current = ROOTS) then Ok g
      else
        let! next := field (rb_next (lk (gg g))) current in
        let! ref := field (rb_ref (lk (gg g))) current in
        let! o := get_counted (hp g) ref in
        let! g :=
          if GC_REF_GET_COLOR o =? GC_BLACK then
            let! gl :=
              if GC_ADDRESS (gc_info o) <? GC_ROOT_BUFFER_MAX_ENTRIES then gc_remove_from_roots current (gg g)
              else gc_remove_from_additional_roots current (gg g) in
            Ok (mkGC (<[ref := set_info 0 o]> (hp g)) gl (objects g))
          else Ok g in
        remove_black fuel next g
  end.

Fixpoint collect_roots_loop (fuel : nat) (env : genv) (current : rootp) (s : GC * Z) (count : Z) {struct fuel}
    : res (GC * Z * Z) :=
  match fuel with
  | O => Err OutOfFuel
  | S fuel =>
      if bool_decide (current = ROOTS) then Ok (s, count)
      else
        let! ref := field (rb_ref (lk (gg (fst s)))) current in
        let! c := color_of (hp (fst s)) ref in
        let! (s, count) :=
          if c =? GC_WHITE then
            let! (s, n) := gc_collect_white (S (size (hp (fst s)))) env s ref in Ok (s, count + n)
          else Ok (s, count) in
        let! next := field (rb_next (lk (gg (fst s)))) current in
        collect_roots_loop fuel env next s count
  end.

(** [relink remaining roots into list to free] *)
Definition relink_roots (l : links) : res links :=
  let! first := field (rb_next l) ROOTS in
  if negb (bool_decide (first = ROOTS)) then
    let! tf := field (rb_next l) TO_FREE in
    let! l :=
      if bool_decide (tf = TO_FREE) then
        let! n := field (rb_next l) ROOTS in
        let l := set_next TO_FREE n l in
        let! p := field (rb_prev l) ROOTS in
        let l := set_prev TO_FREE p l in
        let! n := field (rb_next l) TO_FREE in
        let l := set_prev n (Some TO_FREE) l in
        let! p := field (rb_prev l) TO_FREE in
        let! p := deref_root p in
        Ok (set_next p TO_FREE l)
      else
        let! p := field (rb_prev l) TO_FREE in
        let! p := deref_root p in
        let! n := field (rb_next l) ROOTS in
        let l := set_next p n l in
        let! n := field (rb_next l) ROOTS in
        let! p := field (rb_prev l) TO_FREE in
        let l := set_prev n p l in
        let! q := field (rb_prev l) ROOTS in
        let! q := deref_root q in
        let l := set_next q TO_FREE l in
        let! q := field (rb_prev l) ROOTS in
        Ok (set_prev TO_FREE q l) in
    Ok (set_prev ROOTS (Some ROOTS) (set_next ROOTS ROOTS l))
  else Ok l.

Definition gc_collect_roots (env : genv) (g : GC) (flags : Z) : res (GC * Z * Z) :=
  let! current := field (rb_next (lk (gg g))) ROOTS in
  let! g := remove_black (S (size (rb_next (lk (gg g))))) current g in
  let! current := field (rb_next (lk (gg g))) ROOTS in
  let! (s, count) := collect_roots_loop (S (size (rb_next (lk (gg g))))) env current (g, flags) 0 in
  let '(g, flags) := s in
  let! l := relink_roots (lk (gg g)) in
  Ok (on_gg (set_lk l) g, flags, count).
