(* ===== verification/GcBuffer.v ===== *)
(** * The cycle collector: the invariant of the root buffer

    [bufs_ok g xs ts us]: the entries of the array and of the additional buffers
    are the members of the ring of roots [xs], of the ring to free [ts], of the
    chain of unused entries [us], or lost; no entry is in two of them. *)
From S2P Require Export GcCollect.

(** The number an entry has in [gc_info]. *)
Definition entry_index (p : rootp) : Z :=
  match p with BUF i => i | ADD b i => GC_ROOT_BUFFER_MAX_ENTRIES + i | _ => 0 end.

Fixpoint unused_chain (l : links) (p : option rootp) (us : list rootp) : Prop :=
  match us with
  | [] => p = None
  | u :: us => p = Some u /\ exists q, rb_prev l !! u = Some q /\ unused_chain l q us
  end.

(** An entry handed out before. *)
Definition valid_entry (g : zend_gc_globals) (p : rootp) : Prop :=
  match p with
  | BUF i => exists f, first_unused g = Some f /\ 1 <= i < f
  | ADD b i => exists n used, b = Z.of_nat n /\ rev (additional g) !! n = Some used /\ 0 <= i < used
  | _ => False
  end.

Definition in_buf (p : rootp) : Prop := match p with BUF _ => True | _ => False end.

Record bufs_ok (g : zend_gc_globals) (xs ts us : list rootp) : Prop := mkBufsOk {
  bo_size : exists f, first_unused g = Some f /\ last_unused g = Some GC_ROOT_BUFFER_MAX_ENTRIES /\
    1 <= f <= GC_ROOT_BUFFER_MAX_ENTRIES;
  bo_roots : ring (lk g) ROOTS xs;
  bo_free : ring (lk g) TO_FREE ts;
  bo_unused : unused_chain (lk g) (unused g) us;
  bo_valid : forall p, p ∈ xs ++ ts ++ us -> valid_entry g p;
  bo_buf : forall p, p ∈ us -> in_buf p;
  bo_nodup : NoDup (xs ++ ts ++ us);
  bo_add : Forall (fun used => 0 < used <= GC_NUM_ADDITIONAL_ENTRIES) (additional g)
}.

(** Every entry of an additional buffer is on the list [xs]. *)
Definition in_add (p : rootp) : Prop := match p with ADD _ _ => True | _ => False end.
Definition adds_listed (g : zend_gc_globals) (xs : list rootp) : Prop := forall p, in_add p -> valid_entry g p -> p ∈ xs.

Lemma no_adds g xs : additional g = [] -> adds_listed g xs.
Proof. intros E [| |i|b i|] Ha Hv; try done. destruct Hv as (n & used & _ & Hn & _). by rewrite E in Hn. Qed.

(** ** Frames *)
Lemma unused_frame l l' p us : unused_chain l p us -> (forall u, u ∈ us -> rb_prev l' !! u = rb_prev l !! u) ->
  unused_chain l' p us.
Proof.
  revert p. induction us as [|u us IH]; intros p; simpl; [done|]. intros (-> & q & Hq & H) Hf. split; [done|].
  exists q. split; [by rewrite Hf by left | apply IH; [done|]]. intros v Hv. apply Hf. by right.
Qed.

Lemma ring_frame l l' h xs touched : ring l h xs -> links_frame l l' touched ->
  (forall p, p ∈ touched -> p <> h /\ p ∉ xs) -> ring l' h xs.
Proof.
  intros [S N] F H. split; [|done]. apply (segment_frame l); [done| |]; intros p Hp.
  - apply F. intros Ht. destruct (H p Ht), Hp; auto.
  - apply F. intros Ht. destruct (H p Ht), Hp; auto.
Qed.

Lemma head_not_valid g p : valid_entry g p -> p <> ROOTS /\ p <> TO_FREE.
Proof. destruct p; simpl; try done; by split. Qed.

Lemma valid_index g p : Forall (fun used => 0 < used <= GC_NUM_ADDITIONAL_ENTRIES) (additional g) ->
  (exists f, first_unused g = Some f /\ 1 <= f <= GC_ROOT_BUFFER_MAX_ENTRIES) ->
  valid_entry g p -> 1 <= entry_index p < 2 ^ 14.
Proof.
  intros Ha (f & Hf & Hr) Hv. unfold GC_ROOT_BUFFER_MAX_ENTRIES, GC_NUM_ADDITIONAL_ENTRIES in *.
  destruct p as [| |i|b i|]; simpl in *; try done.
  - destruct Hv as (f' & E & ?). rewrite Hf in E. injection E as <-. lia.
  - destruct Hv as (n & used & _ & Hn & Hi). apply list_elem_of_lookup_2, list_elem_of_In, in_rev, list_elem_of_In in Hn.
    rewrite Forall_forall in Ha. specialize (Ha _ Hn). unfold GC_ROOT_BUFFER_MAX_ENTRIES.
    assert (((4096 - 0 - 8 * 2) / 32) = 127) as E by reflexivity. lia.
Qed.

(** ** Taking an entry and putting it in front of the roots *)
Record taken (g : zend_gc_globals) (xs ts : list rootp) (b : rootp) (i : Z) (g' : zend_gc_globals) (us' : list rootp) : Prop := mkTaken {
  tk_index : i = entry_index b;
  tk_fresh : b ∉ xs ++ ts ++ us';
  tk_valid : valid_entry g' b;
  tk_old : forall p, in_add p -> valid_entry g' p -> valid_entry g p \/ p = b;
  tk_links : lk g' = lk g;
  tk_ok : bufs_ok g' xs ts us'
}.

Lemma rev_lookup_cons {A} (l : list A) x n y : rev l !! n = Some y -> rev (x :: l) !! n = Some y.
Proof. intros H. simpl. rewrite lookup_app_l; [done|]. by apply lookup_lt_Some in H. Qed.

Lemma taken_unused g xs ts us b p : bufs_ok g xs ts us -> unused g = Some b -> rb_prev (lk g) !! b = Some p ->
  exists i us', b = BUF i /\ us = b :: us' /\ taken g xs ts b i (set_unused p g) us'.
Proof.
  intros H Hu Hp. pose proof (bo_unused _ _ _ _ H) as C. destruct us as [|u us]; simpl in C; [congruence|].
  destruct C as (Eu & q & Hq & C). rewrite Hu in Eu. injection Eu as <-. rewrite Hp in Hq. injection Hq as <-.
  pose proof (bo_buf _ _ _ _ H b ltac:(left)) as Hb. destruct b as [| |i| |]; try done. exists i, us.
  pose proof (bo_nodup _ _ _ _ H) as N. rewrite app_assoc in N. apply NoDup_app in N as (N1 & N2 & N3).
  inversion_clear N3 as [|? ? N4 N5]. split; [done|]. split; [done|]. split; [done | | |by intros q _ Hq'; left|done|].
  - rewrite app_assoc, elem_of_app. intros [Hin|Hin]; [|done]. apply (N2 _ Hin). left.
  - apply (bo_valid _ _ _ _ H (BUF i)). rewrite !elem_of_app. right. right. left.
  - split; try apply H; try done.
    + intros v Hv. apply (bo_valid _ _ _ _ H v). rewrite !elem_of_app, elem_of_cons in *. tauto.
    + intros v Hv. apply H. by right.
    + rewrite app_assoc. apply NoDup_app. split; [done|]. split; [|done]. intros v Hv Hv2. apply (N2 v Hv). by right.
Qed.

Lemma valid_first g f p : first_unused g = Some f -> valid_entry g p -> valid_entry (set_first_unused (Some (f + 1)) g) p.
Proof.
  intros Hf. destruct p; simpl; try done. intros (f' & E & ?). rewrite Hf in E. injection E as <-. exists (f + 1).
  split; [done | lia].
Qed.

Lemma taken_first g xs ts us f : bufs_ok g xs ts us -> first_unused g = Some f -> first_unused g <> last_unused g ->
  taken g xs ts (BUF f) f (set_first_unused (Some (f + 1)) g) us.
Proof.
  intros H Hf Hn. destruct (bo_size _ _ _ _ H) as (f' & E & El & Hr). rewrite Hf in E. injection E as <-.
  rewrite Hf, El in Hn. assert (f <> GC_ROOT_BUFFER_MAX_ENTRIES) by congruence.
  split; [done | | | |done|].
  - intros Hin. apply (bo_valid _ _ _ _ H) in Hin as (f' & E & ?). rewrite Hf in E. injection E as <-. lia.
  - exists (f + 1). split; [done | lia].
  - intros [| |i|b i|] ? Hp; try done. by left.
  - split; try apply H.
    + exists (f + 1). split; [done|]. split; [done | lia].
    + intros p Hp. by apply valid_first, H.
Qed.

(** A buffer with room is on top of the additional buffers. *)
Definition room (adds : list Z) : list Z :=
  match adds with
  | [] => [0]
  | used :: _ => if used =? GC_NUM_ADDITIONAL_ENTRIES then 0 :: adds else adds
  end.

Lemma room_ok adds : Forall (fun used => 0 < used <= GC_NUM_ADDITIONAL_ENTRIES) adds ->
  exists used below, room adds = used :: below /\ 0 <= used < GC_NUM_ADDITIONAL_ENTRIES /\
    Forall (fun used => 0 < used <= GC_NUM_ADDITIONAL_ENTRIES) below /\
    forall n x, rev adds !! n = Some x -> exists y, rev (used + 1 :: below) !! n = Some y /\ x <= y.
Proof.
  assert (HN : GC_NUM_ADDITIONAL_ENTRIES = 127) by reflexivity.
  intros H. destruct adds as [|u adds]; simpl.
  { exists 0, []. split; [done|]. split; [lia|]. split; [done|]. by intros n x. }
  apply Forall_cons in H as [Hu H]. destruct (Z.eqb_spec u GC_NUM_ADDITIONAL_ENTRIES) as [E|E].
  - exists 0, (u :: adds). split; [done|]. split; [lia|]. split; [by constructor|]. intros n x Hx. exists x.
    split; [|lia]. by apply (rev_lookup_cons (u :: adds)).
  - exists u, adds. split; [done|]. split; [lia|]. split; [done|]. intros n x Hx. simpl.
    apply lookup_app_Some in Hx as [Hx|[Hl Hx]].
    + exists x. split; [by apply lookup_app_l_Some | lia].
    + apply list_lookup_singleton_Some in Hx as [Hn <-]. exists (u + 1). split; [|lia].
      rewrite lookup_app_r by done. by rewrite Hn.
Qed.

(** The entries of the buffer with one more in use. *)
Lemma room_old g used below b i : room (additional g) = used :: below -> 0 <= used ->
  valid_entry (set_additional (used + 1 :: below) g) (ADD b i) ->
  valid_entry g (ADD b i) \/ ADD b i = ADD (Z.of_nat (length below)) used.
Proof.
  intros Hr Hu (n & x & -> & Hn & Hi). cbn [set_additional additional rev] in Hn. apply lookup_snoc_Some in Hn as [[Hl Hn]|[Hl Hx]].
  - left. exists n, x. split; [done|]. split; [|done]. destruct (additional g) as [|u adds]; simpl in Hr; [by injection Hr as <- <-|].
    destruct (u =? GC_NUM_ADDITIONAL_ENTRIES); injection Hr as <- <-; [done|]. simpl. by apply lookup_app_l_Some.
  - rewrite length_rev in Hl. subst n x. destruct (Z.eq_dec i used) as [->|Hne]; [by right|]. left.
    destruct (additional g) as [|u adds] eqn:Ea; simpl in Hr; [injection Hr as <- <-; lia|].
    destruct (u =? GC_NUM_ADDITIONAL_ENTRIES); injection Hr as <- <-; [lia|]. exists (length adds), u. split; [done|].
    split; [|lia]. rewrite Ea. simpl. rewrite lookup_app_r by (by rewrite length_rev). by rewrite length_rev, Nat.sub_diag.
Qed.

Lemma taken_additional g xs ts us used below : bufs_ok g xs ts us -> room (additional g) = used :: below ->
  taken g xs ts (ADD (Z.of_nat (length below)) used) (GC_ROOT_BUFFER_MAX_ENTRIES + used)
    (set_additional (u32 (used + 1) :: below) g) us.
Proof.
  intros H Hr. destruct (room_ok _ (bo_add _ _ _ _ H)) as (u & bl & E & Hu & Hb & Hv). rewrite Hr in E.
  injection E as <- <-. assert (HN : GC_NUM_ADDITIONAL_ENTRIES = 127) by reflexivity. rewrite u32_small by lia.
  assert (Hva : forall p, valid_entry g p -> valid_entry (set_additional (used + 1 :: below) g) p).
  { intros [| |i|b i|]; simpl; try done. intros (n & x & -> & Hn & Hi). destruct (Hv n x Hn) as (y & Hy & ?).
    exists n, y. split; [done|]. split; [exact Hy | lia]. }
  split; [done | | | |done|].
  - intros Hin. apply (bo_valid _ _ _ _ H) in Hin as (n & x & En & Hn & Hi). apply Nat2Z.inj in En as <-.
    destruct (additional g) as [|u adds]; simpl in *; [done|].
    destruct (u =? GC_NUM_ADDITIONAL_ENTRIES) eqn:Eu; injection Hr as <- <-.
    + apply lookup_lt_Some in Hn. rewrite length_app, length_rev in Hn. simpl in Hn. lia.
    + rewrite lookup_app_r in Hn by (rewrite length_rev; done). rewrite length_rev, Nat.sub_diag in Hn. simpl in Hn.
      injection Hn as <-. lia.
  - exists (length below), (used + 1). split; [done|]. split; [|lia]. simpl.
    rewrite lookup_app_r by (by rewrite length_rev). by rewrite length_rev, Nat.sub_diag.
  - intros [| |i|b i|] Ha; try done. apply (room_old g); [done | lia].
  - split; try apply H.
    + intros p Hp. by apply Hva, H.
    + constructor; [lia | done].
Qed.

Lemma garbage_entry_ok g xs ts us : bufs_ok g xs ts us ->
  exists b i g' us', garbage_entry g = Ok (b, i, g') /\ taken g xs ts b i g' us'.
Proof.
  intros H. unfold garbage_entry. destruct (unused g) as [b|] eqn:Eu.
  - pose proof (bo_unused _ _ _ _ H) as C. destruct us as [|u us]; simpl in C; [congruence|].
    destruct C as (Ec & q & Hq & C). rewrite Eu in Ec. injection Ec as <-.
    destruct (taken_unused g xs ts (b :: us) b q H Eu Hq) as (i & us' & -> & _ & T).
    unfold field. rewrite Hq. rsimp. by exists (BUF i), i, (set_unused q g), us'.
  - case_bool_decide as Ef; simpl.
    + fold (room (additional g)). destruct (room_ok _ (bo_add _ _ _ _ H)) as (used & below & Er & _).
      rewrite Er. do 4 eexists. split; [done|]. by eapply taken_additional.
    + destruct (bo_size _ _ _ _ H) as (f & E & _). rewrite E. do 4 eexists. split; [done|]. by eapply taken_first.
Qed.

Lemma link_entry_ok g xs ts us b ref : bufs_ok g xs ts us -> b ∉ xs ++ ts ++ us -> valid_entry g b ->
  exists l, link_root b (set_ref b ref (lk g)) = Ok l /\ bufs_ok (set_lk l g) (b :: xs) ts us /\
    rb_ref l = <[b := ref]> (rb_ref (lk g)).
Proof.
  intros H Hb Hv. destruct (head_not_valid _ _ Hv) as [B1 B2].
  rewrite !not_elem_of_app in Hb. destruct Hb as (Hx & Ht & Hu).
  assert (R0 : ring (set_ref b ref (lk g)) ROOTS xs).
  { destruct (bo_roots _ _ _ _ H) as [S N]. split; [|done]. by apply (segment_frame (lk g)). }
  destruct (link_root_ok _ xs b R0) as (l & E & R & F); [by rewrite not_elem_of_cons|].
  exists l. split; [done|]. split; [|by rewrite (lf_ref _ _ _ F)].
  assert (Hroots : forall p, p ∈ xs ++ ts ++ us -> p <> ROOTS /\ p <> TO_FREE).
  { intros p Hp. by apply (head_not_valid g), H. }
  assert (N : NoDup (xs ++ ts ++ us)) by apply H. pose proof N as N0. apply NoDup_app in N as (N1 & N2 & N3).
  split; simpl.
  - apply H.
  - exact R.
  - eapply ring_frame; [| exact F |].
    + destruct (bo_free _ _ _ _ H) as [S Nt]. split; [|done]. by apply (segment_frame (lk g)).
    + intros p. rewrite !elem_of_cons. intros [->|[->|Hp]]; [done| |].
      * split; [done|]. intros Hin. destruct (Hroots ROOTS); [rewrite !elem_of_app; auto | done].
      * split; [apply Hroots; rewrite !elem_of_app; auto|]. intros Hin. apply (N2 p Hp), elem_of_app. auto.
  - eapply unused_frame; [apply H|]. intros u Hin. rewrite (lf_prev _ _ _ F u); [done|].
    rewrite !not_elem_of_cons. split; [congruence|]. split; [apply Hroots; rewrite !elem_of_app; auto|].
    intros Hxu. apply (N2 u Hxu), elem_of_app. auto.
  - intros p [->|Hp]%elem_of_cons; [done | by apply H].
  - apply H.
  - constructor; [rewrite !elem_of_app; tauto | done].
  - apply H.
Qed.
