(* ===== verification/GcWhite.v ===== *)
(** * The cycle collector: collecting the white structures as a traversal *)
From S2P Require Export GcBuffer.

(** ** The counting traversal without its count *)
Definition drop_count {A} (m : res (A * Z)) : res A := let! (s, _) := m in Ok s.

Section Drop.
Context {A : Type} (child : A -> addr -> res (A * Z)).
Abbreviation visit := (fun s r => drop_count (child s r)).

Lemma drop_each l s count : drop_count (collect_each child l s count) = visit_each visit l s.
Proof.
  revert s count. induction l as [|v l IH]; intros s count; simpl; [done|].
  destruct (counted v) as [r|]; simpl; [|apply IH]. unfold drop_count. destruct (child s r) as [[s' n]|]; simpl; [apply IH | done].
Qed.

Lemma count_back_last tested l n count : (n <= length l)%nat -> snd (count_back tested l n count) = last_counted l n.
Proof.
  revert count. induction n as [|n IH]; intros count Hn; simpl; [done|].
  destruct (lookup_lt_is_Some_2 l n Hn) as [v ->]. destruct v; simpl; auto with lia.
Qed.

Lemma drop_values tested l s count : drop_count (collect_values child tested l s count) = visit_values visit l s.
Proof.
  unfold collect_values, visit_values. pose proof (count_back_last tested l (length l) count (le_n _)) as E.
  destruct (count_back tested l (length l) count) as [count' o]. simpl in E. subst o.
  destruct (last_counted l (length l)) as [n|]; [|done].
  rewrite <- (drop_each (take n l) s count'). unfold drop_count.
  destruct (collect_each child (take n l) s count') as [[s' c]|]; simpl; [|done].
  destruct (l !! n) as [[| |r|]|]; simpl; try done. by destruct (child s' r) as [[? ?]|].
Qed.

Lemma drop_ht env used s count : drop_count (collect_ht child env used s count) = visit_ht visit env used s.
Proof.
  unfold collect_ht, visit_ht. destruct (length used =? 0)%nat; [done|].
  destruct (ht_values env used); simpl; [apply drop_values | done].
Qed.

Lemma drop_object env view s count : drop_count (collect_object child env view s count) = visit_object visit env view s.
Proof.
  unfold collect_object, visit_object. destruct (gc_ht view) as [used|].
  - rewrite <- (drop_each (gc_table view) s count). unfold drop_count at 1 2.
    destruct (collect_each child (gc_table view) s count) as [[s' c]|]; simpl; [apply drop_ht | done].
  - destruct (gc_table view) as [|first t]; simpl; [done|]. apply (drop_values _ (first :: t)).
Qed.
End Drop.

(** ** [gc_info] words *)
Lemma address_small i : 0 <= i < 2 ^ 14 -> GC_INFO_GET_COLOR i = GC_BLACK /\ GC_ADDRESS i = i.
Proof.
  intros Hi. assert (E : Z.land i (Z.ones 14) = i) by (rewrite Z.land_ones by lia; by apply Z.mod_small).
  unfold GC_INFO_GET_COLOR, GC_ADDRESS. split.
  - rewrite <- E, <- Z.land_assoc. change (Z.land (Z.ones 14) GC_COLOR) with 0. apply Z.land_0_r.
  - rewrite <- E at 1. rewrite <- Z.land_assoc. change (Z.land (Z.ones 14) (Z.lnot GC_COLOR)) with (Z.ones 14). done.
Qed.

Lemma address_idem v : GC_ADDRESS (GC_ADDRESS v) = GC_ADDRESS v /\ GC_INFO_GET_COLOR (GC_ADDRESS v) = GC_BLACK.
Proof.
  unfold GC_ADDRESS, GC_INFO_GET_COLOR. rewrite <- !Z.land_assoc, Z.land_diag. split; [done|].
  rewrite (Z.land_comm (Z.lnot _)), Z.land_lnot_diag. apply Z.land_0_r.
Qed.

Lemma col_info h x : col h x = GC_INFO_GET_COLOR (info h x).
Proof. unfold col, info. by destruct (h !! x). Qed.

Lemma Forall2_weaken {A B} (P Q : A -> B -> Prop) l k : Forall2 P l k ->
  (forall x y, x ∈ l -> y ∈ k -> P x y -> Q x y) -> Forall2 Q l k.
Proof.
  induction 1 as [|x y l k Hp F IH]; intros H; constructor.
  - apply H; [left | left | done].
  - apply IH. intros a b Ha Hb. apply H; by right.
Qed.

(** ** The roots and what they refer to *)
Record rooted (h : heap) (l : links) (xs : list rootp) (rs : list addr) : Prop := mkRooted {
  rt_refs : Forall2 (fun p r => rb_ref l !! p = Some r /\ addr_of h r = entry_index p) xs rs;
  rt_nodup : NoDup rs;
  rt_all : forall x, addr_of h x <> 0 -> x ∈ rs
}.

Definition roots_are (g : GC) (xs : list rootp) (rs : list addr) : Prop :=
  exists us, bufs_ok (gg g) xs [] us /\ rooted (hp g) (lk (gg g)) xs rs /\ adds_listed (gg g) xs.

Lemma rooted_addr h l xs rs r : rooted h l xs rs -> r ∈ rs -> exists p, p ∈ xs /\ rb_ref l !! p = Some r /\ addr_of h r = entry_index p.
Proof.
  intros H Hr. pose proof (rt_refs _ _ _ _ H) as F. apply list_elem_of_lookup in Hr as [i Hi].
  destruct (Forall2_lookup_r _ _ _ _ _ F Hi) as (p & Hp & ? & ?). exists p. split; [|done]. by eapply list_elem_of_lookup_2.
Qed.

Lemma rooted_nonzero h g xs ts us rs r : bufs_ok g xs ts us -> rooted h (lk g) xs rs -> r ∈ rs -> addr_of h r <> 0.
Proof.
  intros B Rt Hr. destruct (rooted_addr _ _ _ _ _ Rt Hr) as (p & Hp & _ & ->).
  destruct (valid_index g p (bo_add _ _ _ _ B)); [|apply (bo_valid _ _ _ _ B), elem_of_app; by left|lia].
  destruct (bo_size _ _ _ _ B) as (f & ? & _ & ?). by exists f.
Qed.

Lemma rooted_ext h h' l xs rs : rooted h l xs rs -> (forall x, addr_of h' x = addr_of h x) -> rooted h' l xs rs.
Proof.
  intros [F N A] E. split; [|done|].
  - eapply Forall2_impl; [exact F|]. intros p r [? ?]. by rewrite E.
  - intros x. rewrite E. apply A.
Qed.

(** Writing [gc_info]. *)
Lemma info_write (h : heap) r o i y : info (<[r := set_info i o]> h) y = if bool_decide (y = r) then i else info h y.
Proof.
  unfold info. destruct (decide (r = y)) as [<-|Hn].
  - by rewrite lookup_insert_eq, bool_decide_eq_true_2.
  - by rewrite lookup_insert_ne, bool_decide_eq_false_2.
Qed.

Lemma rc_write (h : heap) r o i y : h !! r = Some o -> rc (<[r := set_info i o]> h) y = rc h y.
Proof.
  intros Ho. unfold rc. destruct (decide (r = y)) as [<-|Hn]; [by rewrite lookup_insert_eq, Ho | by rewrite lookup_insert_ne].
Qed.

Lemma taken_range g xs ts b i g' us' : taken g xs ts b i g' us' -> 1 <= i < 2 ^ 14.
Proof.
  intros T. rewrite (tk_index _ _ _ _ _ _ _ T). apply (valid_index g').
  - apply (tk_ok _ _ _ _ _ _ _ T).
  - destruct (bo_size _ _ _ _ (tk_ok _ _ _ _ _ _ _ T)) as (f & ? & _ & ?). by exists f.
  - apply T.
Qed.

(** The taken entry is linked for [r], whose word becomes [w]. *)
Lemma enlist_ok g xs us b i gl us' r o w rs : bufs_ok (gg g) xs [] us -> rooted (hp g) (lk (gg g)) xs rs -> adds_listed (gg g) xs ->
  taken (gg g) xs [] b i gl us' -> addr_of (hp g) r = 0 -> GC_ADDRESS w = i ->
  exists l, link_root b (set_ref b r (lk gl)) = Ok l /\
    roots_are (mkGC (<[r := set_info w o]> (hp g)) (set_lk l gl) (objects g)) (b :: xs) (r :: rs).
Proof.
  intros B Rt Ad T Ha Hw.
  destruct (link_entry_ok gl xs [] us' b r (tk_ok _ _ _ _ _ _ _ T) (tk_fresh _ _ _ _ _ _ _ T) (tk_valid _ _ _ _ _ _ _ T)) as (l & El & B' & Er).
  exists l. split; [done|]. exists us'. split; [exact B'|]. pose proof Rt as [F N A].
  assert (Ad' : adds_listed (set_lk l gl) (b :: xs)).
  { intros p Hp Hv. apply elem_of_cons. destruct (tk_old _ _ _ _ _ _ _ T p Hp Hv) as [?|?]; auto. }
  split; [|done].
  assert (Hb : forall p, p ∈ xs -> p <> b) by (intros p Hp ->; apply (tk_fresh _ _ _ _ _ _ _ T), elem_of_app; by left).
  assert (Hx : forall x, x ∈ rs -> x <> r) by (intros x Hx ->; by apply (rooted_nonzero _ _ _ _ _ _ _ B Rt Hx)).
  split.
  - constructor.
    + simpl. rewrite Er, lookup_insert_eq. split; [done|]. unfold addr_of. simpl. rewrite info_write, bool_decide_eq_true_2 by done.
      by rewrite <- (tk_index _ _ _ _ _ _ _ T).
    + apply (Forall2_weaken _ _ _ _ F). intros p x Hp Hxr [H1 H2].
      simpl. rewrite Er, lookup_insert_ne by (intros E'; by apply (Hb p)). rewrite (tk_links _ _ _ _ _ _ _ T).
      split; [done|]. unfold addr_of. simpl. by rewrite info_write, bool_decide_eq_false_2 by (by apply Hx).
  - constructor; [|done]. intros Hin. by apply (Hx r).
  - intros x. unfold addr_of. simpl. rewrite info_write. case_bool_decide as Ex; [subst x; left|].
    intros Hx'. right. by apply A.
Qed.

Section White.
Context (env : genv) (h0 : heap) (Hok : heap_ok env h0).
Abbreviation K := (kids env h0).
Abbreviation table := (symbol_table env).
Definition body0 (x : addr) : gc_body := match h0 !! x with Some o => body o | None => T_NULL end.

(** What [gc_collect_white] puts on the list, and what has a destructor. *)
Definition collects (b : gc_body) : bool :=
  match b with
  | T_OBJECT obj => negb (obj_free_called obj) && isSome (get_gc obj)
  | T_ARRAY _ => true
  | _ => false
  end.
Definition destructs (b : gc_body) : bool :=
  match b with T_OBJECT obj => collects b && has_destructor obj | _ => false end.

Definition collect_enter (s : GC * Z) (r : addr) : res (GC * Z) :=
  let '(g, flags) := s in
  let! h := GC_REF_SET_BLACK r (hp g) in
  let g := set_hp h g in
  let! o := get_counted h r in
  let! g := if collects (body o) then add_if_new r g else Ok g in
  Ok (g, if destructs (body o) then Z.lor flags GC_HAS_DESTRUCTORS else flags).

Definition collect_bump (s : GC * Z) (r : addr) : res (GC * Z) :=
  let! g := add_ref r (fst s) in Ok (g, snd s).

Definition collect_visit (fuel : nat) (s : GC * Z) (r : addr) : res (GC * Z) := drop_count (gc_collect_white fuel env s r).

Abbreviation heap_of := (fun s : GC * Z => hp (fst s)).

Lemma fold_res_ext {A} (f f' : A -> addr -> res A) l s : (forall s r, f s r = f' s r) -> fold_res f l s = fold_res f' l s.
Proof.
  intros E. revert s. induction l as [|r l IH]; intros s; simpl; [done|]. rewrite E. destruct (f' s r); simpl; auto.
Qed.

Lemma drop_const {A} (s : A) n : drop_count (Ok (s, n)) = Ok s.
Proof. done. Qed.

Lemma collect_visit_eq fuel s r : like h0 (heap_of s) -> in_heap h0 r -> r <> table ->
  collect_visit (S fuel) s r =
    if col (heap_of s) r =? GC_WHITE then
      let! s := collect_enter s r in fold_res (fun s r => let! s := collect_bump s r in collect_visit fuel s r) (K r) s
    else Ok s.
Proof.
  destruct s as [g flags]. simpl. intros Hl Hr Ht. unfold collect_visit at 1. cbn [gc_collect_white].
  rewrite (color_of_ok h0) by done. rsimp. destruct (col (hp g) r =? GC_WHITE); [|done].
  destruct (set_black_ok h0 (hp g) r Hl Hr) as (h1 & E1 & [L1 _ _ _]). unfold collect_enter. rewrite E1. rsimp.
  destruct (like_lookup _ _ _ L1 Hr) as [o Ho]. rewrite (get_counted_ok _ _ _ Ho). rsimp.
  set (child := fun s r => let! g0 := add_ref r (fst s) in gc_collect_white fuel env (g0, snd s) r).
  assert (Hc : forall s r, drop_count (child s r) = let! s := collect_bump s r in collect_visit fuel s r).
  { intros s x. unfold child, collect_bump. by destruct (add_ref x (fst s)). }
  pose proof (visit_like env h0 Hok (fun s r => drop_count (child s r)) (fun s => Ok s) h1 r o) as Hv.
  rewrite bool_decide_eq_false_2 in Hv by done.
  assert (Hf : forall s, visit_counted (fun s r => drop_count (child s r)) env (fun s => Ok s) r (body o) s =
    fold_res (fun s r => let! s := collect_bump s r in collect_visit fuel s r) (K r) s).
  { intros s. rewrite (Hv s L1 Ho). by apply fold_res_ext. }
  clear Hv. destruct (body o) as [obj|used|v| |] eqn:Eb; simpl.
  - destruct (obj_free_called obj) eqn:Ef; simpl; [rewrite <- Hf; simpl; by rewrite Ef|].
    destruct (get_gc obj) as [view|] eqn:Eg; simpl; [|rewrite <- Hf; simpl; by rewrite Ef, Eg].
    destruct (add_if_new r (set_hp h1 g)) as [g2|]; simpl; [|done]. rewrite <- Hf. simpl. rewrite Ef, Eg. simpl.
    apply (drop_object child).
  - destruct (add_if_new r (set_hp h1 g)) as [g2|]; simpl; [|done]. rewrite <- Hf. simpl.
    rewrite bool_decide_eq_false_2 by done. apply (drop_ht child).
  - rewrite <- Hf. simpl. destruct v as [| |x|]; try done.
    unfold child. cbn [fst snd]. destruct (add_ref x _) as [g2|]; [|done]. rsimp.
    by destruct (gc_collect_white fuel env (g2, flags) x) as [[? ?]|].
  - by rewrite <- Hf.
  - by rewrite <- Hf.
Qed.
(** ** The state a collection keeps *)
Record white_inv (s : GC * Z) : Prop := mkWhiteInv {
  wi_like : like h0 (heap_of s);
  wi_table : col (heap_of s) table <> GC_WHITE;
  wi_roots : exists xs rs, roots_are (fst s) xs rs
}.

(** A structure that gets an entry when it is collected in [s]. *)
Definition is_new (s : GC * Z) (x : addr) : bool := collects (body0 x) && (addr_of (heap_of s) x =? 0).

Record white_step (s : GC * Z) (vs : list addr) (s' : GC * Z) : Prop := mkWhiteStep {
  ws_info : forall y, y ∉ vs -> info (heap_of s') y = info (heap_of s) y;
  ws_white : forall y, y ∈ vs -> col (heap_of s) y = GC_WHITE /\ col (heap_of s') y = GC_BLACK;
  ws_addr : forall y, y ∈ vs -> is_new s y = false -> addr_of (heap_of s') y = addr_of (heap_of s) y;
  ws_roots : forall xs rs, roots_are (fst s) xs rs ->
    exists new, roots_are (fst s') (new ++ xs) (rev (List.filter (is_new s) vs) ++ rs);
  ws_flags : Z.testbit (snd s') 0 = Z.testbit (snd s) 0 || existsb (fun x => destructs (body0 x)) vs
}.

Lemma white_step_refl s : white_step s [] s.
Proof.
  split; try done; try (by intros y ?%not_elem_of_nil); [by intros xs rs Hr; exists []|]. simpl. by rewrite orb_false_r.
Qed.

Lemma filter_ext_in_b (f f' : addr -> bool) l : (forall x, x ∈ l -> f x = f' x) -> List.filter f l = List.filter f' l.
Proof. intros H. apply filter_ext_in. intros x Hx. apply H. by apply list_elem_of_In. Qed.

Lemma white_step_trans s1 v1 s2 v2 s3 : white_step s1 v1 s2 -> white_step s2 v2 s3 -> white_step s1 (v1 ++ v2) s3.
Proof.
  intros H1 H2. assert (Hd : forall y, y ∈ v2 -> y ∉ v1).
  { intros y Hy Hy1. destruct (ws_white _ _ _ H2 y Hy) as [E _]. destruct (ws_white _ _ _ H1 y Hy1) as [_ E'].
    rewrite E in E'. discriminate E'. }
  assert (Ha : forall y, y ∉ v1 -> addr_of (heap_of s2) y = addr_of (heap_of s1) y).
  { intros y Hy. unfold addr_of. by rewrite (ws_info _ _ _ H1). }
  assert (Hn : forall y, y ∉ v1 -> is_new s2 y = is_new s1 y) by (intros y Hy; unfold is_new; by rewrite Ha).
  split.
  - intros y [Hy1 Hy2]%not_elem_of_app. by rewrite (ws_info _ _ _ H2), (ws_info _ _ _ H1).
  - intros y [Hy|Hy]%elem_of_app.
    + destruct (ws_white _ _ _ H1 y Hy) as [E1 E2]. split; [done|].
      destruct (decide (y ∈ v2)) as [Hy2|Hy2]; [by apply (ws_white _ _ _ H2)|].
      rewrite col_info, (ws_info _ _ _ H2) by done. by rewrite <- col_info.
    + destruct (ws_white _ _ _ H2 y Hy) as [E1 E2]. split; [|done].
      rewrite col_info, <- (ws_info _ _ _ H1) by (by apply Hd). by rewrite <- col_info.
  - intros y [Hy|Hy]%elem_of_app Hf.
    + rewrite <- (ws_addr _ _ _ H1 y Hy Hf). unfold addr_of. rewrite (ws_info _ _ _ H2); [done|]. intros Hy2. by apply (Hd y).
    + rewrite <- Ha by (by apply Hd). apply (ws_addr _ _ _ H2); [done|]. rewrite Hn; auto.
  - intros xs rs Hr. destruct (ws_roots _ _ _ H1 _ _ Hr) as (n1 & Hr1). destruct (ws_roots _ _ _ H2 _ _ Hr1) as (n2 & Hr2).
    exists (n2 ++ n1). rewrite <- app_assoc. rewrite List.filter_app, rev_app_distr, <- app_assoc.
    rewrite <- (filter_ext_in_b (is_new s2)) by (intros x Hx; by apply Hn, Hd). done.
  - rewrite (ws_flags _ _ _ H2), (ws_flags _ _ _ H1), existsb_app. by rewrite orb_assoc.
Qed.

Lemma body0_like h x o : like h0 h -> h !! x = Some o -> body0 x = body o.
Proof.
  intros Hl Ho. pose proof (lk_body _ _ Hl x) as Hb. rewrite Ho in Hb. unfold body0. destruct (h0 !! x); [|done].
  by injection Hb.
Qed.

Lemma write_info h r o i : like h0 h -> h !! r = Some o ->
  like h0 (<[r := set_info i o]> h) /\ (forall y, info (<[r := set_info i o]> h) y = if bool_decide (y = r) then i else info h y) /\
  (forall y, rc (<[r := set_info i o]> h) y = rc h y).
Proof.
  intros Hl Ho. split; [split|split].
  - intros y. destruct (decide (r = y)) as [<-|Hn].
    + rewrite lookup_insert_eq. rewrite <- (lk_body _ _ Hl), Ho. done.
    + rewrite lookup_insert_ne by done. apply Hl.
  - intros y. rewrite rc_write by done. apply Hl.
  - intros y. apply info_write.
  - intros y. by apply rc_write.
Qed.

Lemma add_garbage_ok g r o xs rs : hp g !! r = Some o -> addr_of (hp g) r = 0 -> roots_are g xs rs ->
  exists g' i b, gc_add_garbage r g = Ok g' /\ hp g' = <[r := set_info i o]> (hp g) /\ 1 <= i < 2 ^ 14 /\
    roots_are g' (b :: xs) (r :: rs).
Proof.
  intros Ho Ha (us & B & Rt & Ad). destruct (garbage_entry_ok _ _ _ _ B) as (b & i & gl & us' & E & T).
  pose proof (taken_range _ _ _ _ _ _ _ T) as Hi.
  destruct (enlist_ok g xs us b i gl us' r o i rs B Rt Ad T Ha (proj2 (address_small i ltac:(lia)))) as (l & El & R).
  unfold gc_add_garbage. rewrite E. rsimp. rewrite (get_counted_ok _ _ _ Ho). rsimp. rewrite El. rsimp.
  by eexists _, i, b.
Qed.

(** *** Entering a structure *)
Lemma black_heap h r : like h0 h -> in_heap h0 r -> exists o, 
  GC_REF_SET_BLACK r h = Ok (<[r := set_info (GC_ADDRESS (gc_info o)) o]> h) /\ h !! r = Some o /\ GC_ADDRESS (gc_info o) = addr_of h r.
Proof.
  intros Hl Hr. destruct (like_lookup _ _ _ Hl Hr) as [o Ho]. exists o. unfold GC_REF_SET_BLACK.
  rewrite (get_counted_ok _ _ _ Ho). split; [done|]. split; [done|]. unfold addr_of, info. by rewrite Ho.
Qed.

Lemma testbit_lor_flag (flags : Z) (b : bool) : Z.testbit (if b then Z.lor flags GC_HAS_DESTRUCTORS else flags) 0 = Z.testbit flags 0 || b.
Proof. destruct b; [by rewrite Z.lor_spec | by rewrite orb_false_r]. Qed.

(** [r] has become black with the word [i]. *)
Lemma entered_step s r g flags i : r <> table -> white_inv s -> col (heap_of s) r = GC_WHITE ->
  like h0 (hp g) -> (forall y, info (hp g) y = if bool_decide (y = r) then i else info (heap_of s) y) ->
  (forall y, rc (hp g) y = rc (heap_of s) y) -> GC_INFO_GET_COLOR i = GC_BLACK ->
  (is_new s r = false -> GC_ADDRESS i = addr_of (heap_of s) r) ->
  (forall xs rs, roots_are (fst s) xs rs -> exists new, roots_are g (new ++ xs) ((if is_new s r then [r] else []) ++ rs)) ->
  Z.testbit flags 0 = Z.testbit (snd s) 0 || destructs (body0 r) ->
  entered (fun s : GC * Z => hp (fst s)) white_inv white_step (fun _ c => c =? GC_WHITE) s r (g, flags).
Proof.
  intros Ht Hi Hw Hl Hinfo Hrc Hb Ha Hroots Hfl.
  assert (Hcol : forall y, y <> r -> col (hp g) y = col (heap_of s) y).
  { intros y Hy. rewrite !col_info, Hinfo. by rewrite bool_decide_eq_false_2. }
  assert (Hr : col (hp g) r = GC_BLACK) by (rewrite col_info, Hinfo; by rewrite bool_decide_eq_true_2).
  split; simpl; [split|split| | |].
  - done.
  - simpl. rewrite Hcol by done. apply Hi.
  - destruct (wi_roots _ Hi) as (xs & rs & Hrs). destruct (Hroots _ _ Hrs) as [new Hnew]. by do 2 eexists.
  - intros y Hy. simpl. rewrite Hinfo. rewrite bool_decide_eq_false_2; [done|]. intros ->. apply Hy. left.
  - intros y ->%list_elem_of_singleton. done.
  - intros y ->%list_elem_of_singleton Hn. rewrite <- Ha by done. unfold addr_of. simpl. rewrite Hinfo.
    by rewrite bool_decide_eq_true_2.
  - intros xs rs Hrs. simpl. specialize (Hroots xs rs Hrs). by destruct (is_new s r).
  - cbn [snd existsb]. rewrite Hfl. by rewrite orb_false_r.
  - done.
  - done.
  - by rewrite Hr.
Qed.

Lemma collect_enter_ok s r : white_inv s -> in_heap h0 r -> col (heap_of s) r = GC_WHITE -> exists s',
  collect_enter s r = Ok s' /\ entered (fun s : GC * Z => hp (fst s)) white_inv white_step (fun _ c => c =? GC_WHITE) s r s'.
Proof.
  intros Hi Hr Hw. assert (Ht : r <> table) by (intros ->; by apply (wi_table _ Hi)).
  destruct s as [g flags]. simpl in *. pose proof (wi_like _ Hi) as Hl. simpl in Hl.
  destruct (black_heap (hp g) r Hl Hr) as (o & E & Ho & Ea). rewrite E. rsimp. set (h1 := <[r := _]> (hp g)).
  destruct (write_info (hp g) r o (GC_ADDRESS (gc_info o)) Hl Ho) as (L1 & I1 & C1). fold h1 in L1, I1, C1.
  assert (Ho1 : h1 !! r = Some (set_info (GC_ADDRESS (gc_info o)) o)) by apply lookup_insert_eq.
  rewrite (get_counted_ok _ _ _ Ho1). rsimp.
  pose proof (body0_like _ _ _ Hl Ho) as Hbody. cbn [body set_info]. rewrite <- Hbody.
  assert (Hnew : is_new (g, flags) r = collects (body0 r) && (gc_info (set_info (GC_ADDRESS (gc_info o)) o) =? 0)).
  { unfold is_new. simpl. by rewrite Ea. }
  assert (Hsame : forall xs rs, roots_are g xs rs -> roots_are (set_hp h1 g) xs rs).
  { intros xs rs (us & B & Rt & Ad). exists us. split; [done|]. split; [|done]. apply (rooted_ext (hp g)); [done|].
    intros x. unfold addr_of. simpl. rewrite I1. case_bool_decide as Ex; [|done]. subst x.
    rewrite (proj1 (address_idem _)). apply Ea. }
  assert (Hplain : is_new (g, flags) r = false -> exists s', (let! g0 := Ok (set_hp h1 g) in
     Ok (g0, if destructs (body0 r) then Z.lor flags GC_HAS_DESTRUCTORS else flags)) = Ok s' /\
     entered (fun s : GC * Z => hp (fst s)) white_inv white_step (fun _ c => c =? GC_WHITE) (g, flags) r s').
  { intros Hf. rsimp. eexists. split; [done|]. apply (entered_step _ _ _ _ (GC_ADDRESS (gc_info o))); try done.
    - apply address_idem.
    - intros _. simpl. rewrite (proj1 (address_idem _)). apply Ea.
    - intros xs rs Hrs. rewrite Hf. exists []. by apply Hsame.
    - apply testbit_lor_flag. }
  destruct (collects (body0 r)) eqn:Ec; [|by apply Hplain].
  unfold add_if_new. cbn [hp set_hp]. rewrite (get_counted_ok _ _ _ Ho1). rsimp.
  destruct (gc_info (set_info (GC_ADDRESS (gc_info o)) o) =? 0) eqn:Ez; [|by apply Hplain].
  destruct (wi_roots _ Hi) as (xs0 & rs0 & Hrs0).
  assert (Ha1 : addr_of h1 r = 0).
  { unfold addr_of. rewrite I1, bool_decide_eq_true_2 by done. rewrite (proj1 (address_idem _)). zbool. done. }
  destruct (add_garbage_ok (set_hp h1 g) r _ xs0 rs0 Ho1 Ha1 (Hsame _ _ Hrs0)) as (g' & i & b0 & Eg & Eh & Hir & Hroots0).
  rewrite Eg. rsimp. eexists. split; [done|]. simpl in Eh.
  destruct (write_info h1 r _ i L1 Ho1) as (L2 & I2 & C2). rewrite <- Eh in L2, I2, C2.
  apply (entered_step _ _ _ _ i); try done.
  - intros y. rewrite I2. case_bool_decide as Ey; [done|]. rewrite I1. by rewrite bool_decide_eq_false_2.
  - intros y. by rewrite C2, C1.
  - apply address_small. lia.
  - rewrite Hnew. simpl. done.
  - intros xs rs Hrs. rewrite Hnew. simpl.
    destruct (add_garbage_ok (set_hp h1 g) r _ xs rs Ho1 Ha1 (Hsame _ _ Hrs)) as (g'' & i' & b & Eg' & _ & _ & Hr').
    exists [b]. rewrite Eg in Eg'. injection Eg' as ->. exact Hr'.
  - apply testbit_lor_flag.
Qed.

Lemma collect_bump_ok s r : white_inv s -> in_heap h0 r -> exists s',
  collect_bump s r = Ok s' /\ bumped h0 (fun s : GC * Z => hp (fst s)) white_inv white_step 1 s r s'.
Proof.
  intros Hi Hr. destruct s as [g flags]. pose proof (wi_like _ Hi) as Hl. simpl in Hl. unfold collect_bump, add_ref. simpl.
  destruct (add_refcount_ok h0 (hp g) r 1 Hl Hr) as (h' & E & []). rewrite E. rsimp. eexists. split; [done|].
  assert (Hroots : forall xs rs, roots_are g xs rs -> roots_are (set_hp h' g) xs rs).
  { intros xs rs (us & B & Rt & Ad). exists us. split; [done|]. split; [|done]. apply (rooted_ext (hp g)); [done|]. intros x.
    unfold addr_of. simpl. by rewrite rn_info. }
  split; simpl; [split|split| |]; simpl; try done; try (by intros y ?%not_elem_of_nil).
  - rewrite rn_col. apply Hi.
  - destruct (wi_roots _ Hi) as (xs & rs & Hrs). exists xs, rs. by apply Hroots.
  - intros xs rs Hrs. exists []. by apply Hroots.
  - by rewrite orb_false_r.
Qed.

Lemma collect_ops : dfs_ops env h0 (fun s : GC * Z => hp (fst s)) white_inv white_step (fun _ c => c =? GC_WHITE) 1
  collect_enter (fun s _ => Ok s) collect_bump collect_visit.
Proof.
  split.
  - done.
  - intros s y Hi. apply (wi_like _ Hi).
  - intros x z. by apply kids_in.
  - apply white_step_refl.
  - apply white_step_trans.
  - intros s r Hi Hr Hw. apply Z.eqb_eq in Hw. by apply collect_enter_ok.
  - intros s r Hi Hr Hw. exists s. split; [done|]. split; [done | apply white_step_refl | done | by left].
  - apply collect_bump_ok.
  - intros fuel s r Hi Hr. destruct (decide (r = table)) as [->|Hn].
    + pose proof (wi_table _ Hi) as Hc. rewrite (proj2 (Z.eqb_neq _ _) Hc). destruct s as [g flags].
      unfold collect_visit. cbn [gc_collect_white]. rewrite (color_of_ok h0); [|apply Hi|done]. rsimp. simpl in Hc.
      by rewrite (proj2 (Z.eqb_neq _ _) Hc).
    + apply collect_visit_eq; [apply Hi | done | done].
Qed.
End White.
