(* ===== verification/GcPhases.v ===== *)
(** * The cycle collector: the phases of a collection

    The loops of [gc_mark_roots], [gc_scan_roots] and [gc_collect_roots]
    follow the ring of roots, and what they leave is described against the
    heap before the collection. *)
From S2P Require Export GcWhite.

(** ** Lengths of rings and the fuel of the loops *)
Lemma segment_dom l a xs z p : segment l a xs z -> p = a \/ p ∈ xs -> is_Some (rb_next l !! p).
Proof.
  revert a. induction xs as [|x xs IH]; intros a; simpl.
  - intros [H _] [->|Hp]; [by eexists | by apply not_elem_of_nil in Hp].
  - intros (H & _ & S) [->|[->|Hp]%elem_of_cons]; [by eexists | apply (IH x S); auto | apply (IH x S); auto].
Qed.

Lemma ring_size l h xs : ring l h xs -> (length xs < size (rb_next l))%nat.
Proof.
  intros [S N]. rewrite <- (size_dom (D := gset rootp)). 
  assert (E : size (list_to_set (h :: xs) : gset rootp) = length (h :: xs)) by (by apply size_list_to_set).
  simpl in E. rewrite <- Nat.le_succ_l, <- E. apply subseteq_size. intros p.
  rewrite elem_of_union, elem_of_singleton, elem_of_list_to_set, elem_of_dom. by apply segment_dom with (z := h).
Qed.

(** ** Marking and scanning follow the ring *)
Section Loops.
Context (env : genv) (l : links).

Definition refs_along (xs : list rootp) (rs : list addr) : Prop := Forall2 (fun p r => rb_ref l !! p = Some r) xs rs.

Lemma field_ok {A} (m : gmap rootp A) p x : m !! p = Some x -> field m p = Ok x.
Proof. intros H. unfold field. by rewrite H. Qed.

Lemma mark_roots_follow xs : forall a rs h fuel, segment l a xs ROOTS -> ROOTS ∉ xs -> refs_along xs rs ->
  (length xs < fuel)%nat -> mark_roots_loop fuel env l (hd ROOTS xs) h = mark_all env rs h.
Proof.
  induction xs as [|x xs IH]; intros a rs h fuel S Hn F Hf; inversion F as [|? r ? rs' Hr F' E1 E2]; subst;
    (destruct fuel as [|fuel]; [simpl in Hf; lia|]); cbn [mark_roots_loop mark_all hd].
  - by rewrite bool_decide_eq_true_2.
  - destruct S as (_ & _ & S). apply not_elem_of_cons in Hn as [Hx Hn]. rewrite bool_decide_eq_false_2 by congruence.
    rewrite (field_ok _ _ _ Hr), (field_ok _ _ _ (segment_next _ _ _ _ S)). rsimp.
    destruct (color_of h r) as [c|]; [|done]. cbn [rbind].
    destruct (if c =? GC_PURPLE then gc_mark_grey (Datatypes.S (size h)) env h r else Ok h) as [h'|]; [|done]. cbn [rbind].
    apply (IH x); [done|done|done|simpl in Hf; lia].
Qed.

Lemma scan_roots_follow xs : forall a rs h fuel, segment l a xs ROOTS -> ROOTS ∉ xs -> refs_along xs rs ->
  (length xs < fuel)%nat -> scan_roots_loop fuel env l (hd ROOTS xs) h = scan_all env rs h.
Proof.
  induction xs as [|x xs IH]; intros a rs h fuel S Hn F Hf; inversion F as [|? r ? rs' Hr F' E1 E2]; subst;
    (destruct fuel as [|fuel]; [simpl in Hf; lia|]); cbn [scan_roots_loop scan_all hd].
  - by rewrite bool_decide_eq_true_2.
  - destruct S as (_ & _ & S). apply not_elem_of_cons in Hn as [Hx Hn]. rewrite bool_decide_eq_false_2 by congruence.
    rewrite (field_ok _ _ _ Hr), (field_ok _ _ _ (segment_next _ _ _ _ S)). rsimp.
    destruct (gc_scan (Datatypes.S (size h)) env h r) as [h'|]; [|done]. cbn [rbind].
    apply (IH x); [done|done|done|simpl in Hf; lia].
Qed.
End Loops.

Lemma rooted_along h l xs rs : rooted h l xs rs -> refs_along l xs rs.
Proof. intros [F _ _]. eapply Forall2_impl; [exact F|]. by intros p r [? _]. Qed.

Lemma ring_roots l xs : ring l ROOTS xs -> ROOTS ∉ xs.
Proof. intros [_ N]. by inversion_clear N. Qed.

Lemma gc_mark_roots_eq env g xs rs us : bufs_ok (gg g) xs [] us -> refs_along (lk (gg g)) xs rs ->
  gc_mark_roots env g = let! h := mark_all env rs (hp g) in Ok (set_hp h g).
Proof.
  intros B F. unfold gc_mark_roots. destruct (bo_roots _ _ _ _ B) as [S N].
  rewrite (field_ok _ _ _ (segment_next _ _ _ _ S)). rsimp.
  pose proof (ring_size _ _ _ (bo_roots _ _ _ _ B)).
  rewrite (mark_roots_follow env _ xs ROOTS rs) by (first [done | by apply ring_roots with (l := lk (gg g)), B | lia]). done.
Qed.

Lemma gc_scan_roots_eq env g xs rs us : bufs_ok (gg g) xs [] us -> refs_along (lk (gg g)) xs rs ->
  gc_scan_roots env g = let! h := scan_all env rs (hp g) in Ok (set_hp h g).
Proof.
  intros B F. unfold gc_scan_roots. destruct (bo_roots _ _ _ _ B) as [S N].
  rewrite (field_ok _ _ _ (segment_next _ _ _ _ S)). rsimp.
  pose proof (ring_size _ _ _ (bo_roots _ _ _ _ B)).
  rewrite (scan_roots_follow env _ xs ROOTS rs) by (first [done | by apply ring_roots with (l := lk (gg g)), B | lia]). done.
Qed.

(** ** Removing an entry from the roots *)
Definition remove_entry (x : rootp) (g : zend_gc_globals) : res zend_gc_globals :=
  if entry_index x <? GC_ROOT_BUFFER_MAX_ENTRIES then gc_remove_from_roots x g
  else gc_remove_from_additional_roots x g.

Record removed (g : zend_gc_globals) (x : rootp) (xs ts us : list rootp) (g' : zend_gc_globals) : Prop := mkRemoved {
  rm_ok : bufs_ok g' xs ts us;
  rm_ref : rb_ref (lk g') = rb_ref (lk g);
  rm_next : rb_next (lk g') !! x = rb_next (lk g) !! x;
  rm_to_free : next_to_free g' = next_to_free g;
  rm_additional : additional g' = additional g
}.

Lemma buf_test g x : (exists f, first_unused g = Some f /\ 1 <= f <= GC_ROOT_BUFFER_MAX_ENTRIES) -> valid_entry g x ->
  (entry_index x <? GC_ROOT_BUFFER_MAX_ENTRIES) = match x with BUF _ => true | _ => false end.
Proof.
  intros (f & Hf & ?) Hv. destruct x as [| |i|b i|]; simpl in *; try done.
  - destruct Hv as (f' & E & ?). rewrite Hf in E. injection E as <-. apply Z.ltb_lt. lia.
  - destruct Hv as (n & used & _ & _ & ?). apply Z.ltb_ge. lia.
Qed.

Lemma remove_entry_ok g xs1 x xs2 ts us : bufs_ok g (xs1 ++ x :: xs2) ts us ->
  exists g' us', remove_entry x g = Ok g' /\ removed g x (xs1 ++ xs2) ts us' g'.
Proof.
  intros B. destruct (unlink_root_ok _ _ _ _ _ (bo_roots _ _ _ _ B)) as (l & E & R & F & Hnext).
  assert (Hv : valid_entry g x) by (apply (bo_valid _ _ _ _ B); rewrite !elem_of_app, elem_of_cons; auto).
  assert (Hall : forall p, p ∈ xs1 ++ x :: xs2 -> p <> ROOTS /\ p <> TO_FREE).
  { intros p Hp. apply (head_not_valid g), (bo_valid _ _ _ _ B), elem_of_app. by left. }
  assert (Hsub : forall p, p ∈ xs1 ++ xs2 -> p ∈ xs1 ++ x :: xs2).
  { intros p. rewrite !elem_of_app, elem_of_cons. tauto. }
  pose proof (bo_nodup _ _ _ _ B) as N. apply NoDup_app in N as (N1 & N2 & N3).
  assert (Hperm : xs1 ++ x :: xs2 ≡ₚ x :: (xs1 ++ xs2)) by (symmetry; apply Permutation_middle).
  assert (Hx : x ∉ xs1 ++ xs2) by (rewrite Hperm in N1; by inversion_clear N1).
  assert (Hxx : x ∉ ROOTS :: xs1 ++ xs2).
  { rewrite not_elem_of_cons. split; [|done]. apply Hall. by rewrite elem_of_app, elem_of_cons; auto. }
  assert (Hts : ring l TO_FREE ts).
  { eapply ring_frame; [apply B | exact F |]. intros p [->|Hp]%elem_of_cons.
    - split; [done|]. intros Hin. destruct (head_not_valid g ROOTS) as [? _]; [|done].
      apply (bo_valid _ _ _ _ B). rewrite !elem_of_app. auto.
    - split; [by apply Hall, Hsub|]. intros Hin. apply (N2 p (Hsub p Hp)), elem_of_app. by left. }
  assert (Hus : unused_chain l (unused g) us).
  { eapply unused_frame; [apply B|]. intros u Hu. apply (lf_prev _ _ _ F). rewrite not_elem_of_cons. split.
    - apply (head_not_valid g), (bo_valid _ _ _ _ B). rewrite !elem_of_app. auto.
    - intros Hin. apply (N2 u (Hsub u Hin)), elem_of_app. by right. }
  assert (Hnd : NoDup ((xs1 ++ xs2) ++ ts ++ us)).
  { apply NoDup_app. split; [rewrite Hperm in N1; by inversion_clear N1|]. split; [|done].
    intros p Hp. by apply N2, Hsub. }
  assert (Hval : forall p, p ∈ (xs1 ++ xs2) ++ ts ++ us -> valid_entry g p).
  { intros p Hp. apply (bo_valid _ _ _ _ B). rewrite elem_of_app in Hp |- *. destruct Hp as [Hp|Hp]; auto. }
  unfold remove_entry. rewrite (buf_test g) by (first [done | destruct (bo_size _ _ _ _ B) as (f & ? & _ & ?); by exists f]).
  destruct x as [| |i|b i|]; try done.
  - unfold gc_remove_from_roots. rewrite E. rsimp. eexists. exists (BUF i :: us). split; [done|].
    assert (Hi : BUF i ∉ ts ++ us) by (apply N2; rewrite elem_of_app, elem_of_cons; auto).
    split; simpl; [split; simpl | by rewrite (lf_ref _ _ _ F) | by rewrite (lf_next _ _ _ F) | done | done].
    + apply B.
    + destruct R as [S NR]. split; [|done]. apply (segment_frame l); [done|done|]. intros p Hp. apply lookup_insert_ne.
      intros <-. apply Hxx. rewrite elem_of_cons. tauto.
    + destruct Hts as [S NR]. split; [|done]. apply (segment_frame l); [done|done|]. intros p Hp. apply lookup_insert_ne.
      intros <-. destruct Hp as [Hp|Hp]; [|done]. apply Hi, elem_of_app. by left.
    + split; [done|]. exists (unused g). rewrite lookup_insert_eq. split; [done|].
      eapply unused_frame; [exact Hus|]. intros u Hu. apply lookup_insert_ne. intros <-. apply Hi, elem_of_app. by right.
    + intros p. rewrite !elem_of_app, elem_of_cons. intros [Hp|[Hp|[->|Hp]]]; [| |done|]; apply Hval; rewrite !elem_of_app; auto.
    + intros p [->|Hp]%elem_of_cons; [done | by apply B].
    + assert (Ep : (xs1 ++ xs2) ++ ts ++ BUF i :: us ≡ₚ BUF i :: ((xs1 ++ xs2) ++ ts ++ us)).
      { rewrite app_assoc, <- Permutation_middle. by rewrite <- app_assoc. }
      rewrite Ep. constructor; [|done]. rewrite elem_of_app. tauto.
    + apply B.
  - unfold gc_remove_from_additional_roots. rewrite E. rsimp. eexists. exists us. split; [done|].
    split; simpl; [|by rewrite (lf_ref _ _ _ F) | by rewrite (lf_next _ _ _ F) | done | done]. by split; try apply B.
Qed.

(** ** [gc_collect_roots], first loop: the black roots leave the list *)
Section Phases.
Context (env : genv) (h0 : heap) (Hok : heap_ok env h0).
Abbreviation K := (kids env h0).
Abbreviation table := (symbol_table env).

Definition not_black (h : heap) (r : addr) : bool := negb (col h r =? GC_BLACK).

(** The words of [rs] that are black have been reset. *)
Record unlisted (h : heap) (rs : list addr) (h' : heap) : Prop := mkUnlisted {
  ul_like : like h0 h';
  ul_col : forall y, col h' y = col h y;
  ul_rc : forall y, rc h' y = rc h y;
  ul_addr : forall y, addr_of h' y = if bool_decide (y ∈ rs) && (col h y =? GC_BLACK) then 0 else addr_of h y
}.

Lemma unlist_one h r o : like h0 h -> h !! r = Some o -> col h r = GC_BLACK -> unlisted h [r] (<[r := set_info 0 o]> h).
Proof.
  intros Hl Ho Hc. destruct (write_info h0 h r o 0 Hl Ho) as (L & I & C).
  assert (Hcol : forall y, col (<[r := set_info 0 o]> h) y = col h y).
  { intros y. rewrite !col_info, I. case_bool_decide as Ey; [|done]. subst y. rewrite col_info in Hc. by rewrite Hc. }
  split; [done|done|done|]. intros y. unfold addr_of. rewrite I. case_bool_decide as Ey.
  - subst y. rewrite bool_decide_eq_true_2 by left. by rewrite Hc.
  - rewrite bool_decide_eq_false_2; [done|]. by rewrite list_elem_of_singleton.
Qed.

Lemma unlist_none h r : like h0 h -> col h r <> GC_BLACK -> unlisted h [r] h.
Proof.
  intros Hl Hc. split; [done|done|done|]. intros y. case_bool_decide as Ey; [|done].
  apply list_elem_of_singleton in Ey as ->. by rewrite (proj2 (Z.eqb_neq _ _) Hc).
Qed.

Lemma unlisted_trans h1 l1 h2 l2 h3 : unlisted h1 l1 h2 -> unlisted h2 l2 h3 -> unlisted h1 (l1 ++ l2) h3.
Proof.
  intros H1 H2. split.
  - apply H2.
  - intros y. by rewrite (ul_col _ _ _ H2), (ul_col _ _ _ H1).
  - intros y. by rewrite (ul_rc _ _ _ H2), (ul_rc _ _ _ H1).
  - intros y. rewrite (ul_addr _ _ _ H2), (ul_addr _ _ _ H1), (ul_col _ _ _ H1).
    destruct (col h1 y =? GC_BLACK); [|by rewrite !andb_false_r]. rewrite !andb_true_r.
    repeat case_bool_decide; set_solver.
Qed.

Lemma remove_black_ok : forall xs rs g xs0 rs0 us fuel, like h0 (hp g) ->
  bufs_ok (gg g) (xs0 ++ xs) [] us -> rooted (hp g) (lk (gg g)) (xs0 ++ xs) (rs0 ++ rs) -> length xs0 = length rs0 ->
  (length xs < fuel)%nat -> additional (gg g) = [] ->
  exists g' xs', remove_black fuel (hd ROOTS xs) g = Ok g' /\ unlisted (hp g) rs (hp g') /\
    roots_are g' (xs0 ++ xs') (rs0 ++ List.filter (not_black (hp g)) rs).
Proof.
  induction xs as [|x xs IH]; intros rs g xs0 rs0 us fuel Hl B Rt Hlen Hf Had; (destruct fuel as [|fuel]; [simpl in Hf; lia|]).
  - pose proof (Forall2_length _ _ _ (rt_refs _ _ _ _ Rt)) as HL. rewrite !length_app in HL. simpl in HL.
    assert (rs = []) as -> by (destruct rs; [done | simpl in HL; lia]).
    exists g, []. split; [done|]. split; [|exists us; split; [done|]; split; [done | by apply no_adds]].
    split; [done|done|done|]. intros y. by rewrite bool_decide_eq_false_2 by (apply not_elem_of_nil).
  - destruct (Forall2_app_inv _ _ _ _ _ Hlen (rt_refs _ _ _ _ Rt)) as [F1 F2].
    inversion F2 as [|? r ? rs' [Hr Ha] F2' E1 E2]; subst. clear F2.
    assert (Hnz : addr_of (hp g) r <> 0).
    { apply (rooted_nonzero _ _ _ _ _ _ _ B Rt). rewrite elem_of_app, elem_of_cons. auto. }
    destruct (hp g !! r) as [o|] eqn:Ho; [|by unfold addr_of, info in Hnz; rewrite Ho in Hnz].
    assert (Eo : GC_ADDRESS (gc_info o) = entry_index x) by (rewrite <- Ha; unfold addr_of, info; by rewrite Ho).
    assert (Ec : GC_REF_GET_COLOR o = col (hp g) r) by (unfold col; by rewrite Ho).
    destruct (bo_roots _ _ _ _ B) as [S _]. apply segment_app in S as [_ S].
    cbn [remove_black hd]. rewrite bool_decide_eq_false_2.
    2: { apply (head_not_valid (gg g)), (bo_valid _ _ _ _ B). rewrite !elem_of_app, elem_of_cons. auto. }
    rewrite (field_ok _ _ _ (segment_next _ _ _ _ S)), (field_ok _ _ _ Hr). rsimp. rewrite (get_counted_ok _ _ _ Ho). rsimp.
    rewrite Eo, Ec. cbn [List.filter]. unfold not_black at 1. destruct (Z.eqb_spec (col (hp g) r) GC_BLACK) as [Hb|Hb].
    + fold (remove_entry x (gg g)). destruct (remove_entry_ok _ _ _ _ _ _ B) as (gl & us' & E & []). rewrite E. rsimp.
      pose proof (unlist_one _ _ _ Hl Ho Hb) as U. set (h1 := <[r := set_info 0 o]> (hp g)) in *.
      pose proof (rt_nodup _ _ _ _ Rt) as N. assert (Hperm : rs0 ++ r :: rs' ≡ₚ r :: (rs0 ++ rs')) by (symmetry; apply Permutation_middle).
      rewrite Hperm in N. inversion_clear N as [|? ? Hnr N'].
      assert (Haddr : forall y, y <> r -> addr_of h1 y = addr_of (hp g) y).
      { intros y Hy. rewrite (ul_addr _ _ _ U), bool_decide_eq_false_2; [done|]. by rewrite list_elem_of_singleton. }
      destruct (IH rs' (mkGC h1 gl (objects g)) xs0 rs0 us' fuel (ul_like _ _ _ U) rm_ok0) as (g' & xs' & E' & U' & R').
      { split; [|done|].
        - apply (Forall2_weaken (fun p q => rb_ref (lk (gg g)) !! p = Some q /\ addr_of (hp g) q = entry_index p)).
          + by apply Forall2_app.
          + intros p q _ Hq [Hp1 Hp2]. simpl. rewrite rm_ref0, Haddr; [done|]. by intros ->.
        - intros y Hy. destruct (decide (y = r)) as [->|Hny].
          + rewrite (ul_addr _ _ _ U), bool_decide_eq_true_2, Hb in Hy by left. done.
          + rewrite Haddr in Hy by done. apply (rt_all _ _ _ _ Rt) in Hy. rewrite Hperm in Hy.
            apply elem_of_cons in Hy as [|]; done. }
      { done. } { simpl in Hf. lia. } { simpl. by rewrite rm_additional0. }
      exists g', xs'. split; [exact E'|]. split; [exact (unlisted_trans _ [r] _ rs' _ U U')|]. simpl.
      rewrite (filter_ext_in_b (not_black (hp g)) (not_black h1)); [exact R'|].
      intros y _. unfold not_black. by rewrite (ul_col _ _ _ U).
    + rsimp. destruct (IH rs' g (xs0 ++ [x]) (rs0 ++ [r]) us fuel Hl) as (g' & xs' & E' & U' & R').
      { by rewrite <- app_assoc. } { by rewrite <- !app_assoc. } { rewrite !length_app. simpl. lia. } { simpl in Hf. lia. } { done. }
      exists g', (x :: xs'). split; [exact E'|].
      split; [exact (unlisted_trans _ [r] _ rs' _ (unlist_none _ _ Hl Hb) U')|]. simpl. by rewrite <- !app_assoc in R'.
Qed.
(** ** Second loop: every white root is collected *)
Abbreviation white_run := (run env h0 (fun s : GC * Z => hp (fst s)) (white_inv env h0) (white_step h0) (fun _ c => c =? GC_WHITE) 1).

Lemma collect_white_run s r : white_inv env h0 s -> in_heap h0 r -> exists s' n vs,
  gc_collect_white (S (size (hp (fst s)))) env s r = Ok (s', n) /\ white_run s [] [r] s' vs.
Proof.
  intros Hi Hr. destruct (dfs_ok env h0 (fun s : GC * Z => hp (fst s)) (white_inv env h0) (white_step h0) (fun _ c => c =? GC_WHITE) 1
    _ _ _ (collect_visit env) (collect_ops env h0 Hok) (S (size (hp (fst s)))) s r Hi Hr) as (s' & vs & E & H).
  - rewrite (like_size h0 _ (wi_like _ _ _ Hi)). pose proof (todos_size env h0 Hok (fun s : GC * Z => hp (fst s)) (fun _ c => c =? GC_WHITE) s). lia.
  - unfold collect_visit, drop_count in E. destruct (gc_collect_white _ env s r) as [[s1 n]|]; [|done].
    injection E as ->. by exists s', n, vs.
Qed.

Lemma collect_loop_ok : forall xs rs s xs0 rs0 count fuel, white_inv env h0 s -> (forall r, r ∈ rs -> in_heap h0 r) ->
  roots_are (fst s) (xs0 ++ xs) (rs0 ++ rs) -> length xs0 = length rs0 -> (length xs < fuel)%nat ->
  exists s' n vs, collect_roots_loop fuel env (hd ROOTS xs) s count = Ok (s', n) /\ white_run s [] rs s' vs.
Proof.
  induction xs as [|x xs IH]; intros rs s xs0 rs0 count fuel Hi Hin (us & B & Rt & Ad) Hlen Hf; (destruct fuel as [|fuel]; [simpl in Hf; lia|]).
  - pose proof (Forall2_length _ _ _ (rt_refs _ _ _ _ Rt)) as HL. rewrite !length_app in HL. simpl in HL.
    assert (rs = []) as -> by (destruct rs; [done | simpl in HL; lia]). exists s, count, []. split; [done|].
    by apply (run_nil _ _ _ _ _ _ _ _ _ _ _ (collect_ops env h0 Hok)).
  - destruct (Forall2_app_inv _ _ _ _ _ Hlen (rt_refs _ _ _ _ Rt)) as [F1 F2].
    inversion F2 as [|? r ? rs' [Hr Ha] F2' E1 E2]; subst. clear F2.
    cbn [collect_roots_loop hd]. rewrite bool_decide_eq_false_2.
    2: { apply (head_not_valid (gg (fst s))), (bo_valid _ _ _ _ B). rewrite !elem_of_app, elem_of_cons. auto. }
    rewrite (field_ok _ _ _ Hr). rsimp. rewrite (color_of_ok h0) by (first [apply Hi | apply Hin; left]). rsimp.
    assert (exists s1 n1 vs1, (if col (hp (fst s)) r =? GC_WHITE then
        let! (s, n) := gc_collect_white (S (size (hp (fst s)))) env s r in Ok (s, count + n) else Ok (s, count)) = Ok (s1, n1) /\
      white_run s [] [r] s1 vs1) as (s1 & n1 & vs1 & E & H).
    { destruct (col (hp (fst s)) r =? GC_WHITE) eqn:Ec.
      - destruct (collect_white_run s r Hi ltac:(apply Hin; left)) as (s1 & n & vs & E & H). rewrite E. rsimp.
        by exists s1, (count + n), vs.
      - exists s, count, []. split; [done|]. apply (run_skip _ _ _ _ _ _ _ _ _ _ _ (collect_ops env h0 Hok)); [done|].
        split; [done | apply white_step_refl | done | by left]. }
    rewrite E. rsimp.
    destruct (ws_roots _ _ _ _ (rn_R _ _ _ _ _ _ _ _ _ _ _ _ H) _ _ (ex_intro _ us (conj B (conj Rt Ad)))) as (new & us1 & B1 & Rt1 & Ad1).
    set (rn := rev (List.filter (is_new h0 s) vs1)) in *.
    assert (HL : length (new ++ xs0 ++ [x]) = length (rn ++ rs0 ++ [r])).
    { pose proof (Forall2_length _ _ _ (rt_refs _ _ _ _ Rt1)) as HL. pose proof (Forall2_length _ _ _ F2') as HL2.
      rewrite !length_app in HL |- *. simpl in *. lia. }
    assert (B1' : bufs_ok (gg (fst s1)) ((new ++ xs0) ++ x :: xs) [] us1) by (by rewrite <- app_assoc).
    destruct (bo_roots _ _ _ _ B1') as [S _]. apply segment_app in S as [_ S].
    rewrite (field_ok _ _ _ (segment_next _ _ _ _ S)). rsimp.
    destruct (IH rs' s1 (new ++ xs0 ++ [x]) (rn ++ rs0 ++ [r]) n1 fuel (rn_inv _ _ _ _ _ _ _ _ _ _ _ _ H)) as (s2 & n2 & vs2 & E2' & H2).
    { intros y Hy. apply Hin. by right. }
    { exists us1. rewrite <- !app_assoc. simpl. by split. }
    { done. } { simpl in Hf. lia. }
    exists s2, n2, (vs1 ++ vs2). split; [done|].
    apply (run_trans _ _ _ _ _ _ _ _ _ _ _ (collect_ops env h0 Hok) _ [] [r] _ _ [] rs' _ _ H H2).
Qed.
End Phases.

(** ** The remaining roots become the list to free *)
Lemma segment_retail l a xs z w : segment l a xs z -> NoDup (a :: xs) -> w ∉ a :: xs ->
  segment (set_next (List.last xs a) w (set_prev w (Some (List.last xs a)) l)) a xs w.
Proof.
  revert a. induction xs as [|x xs IH]; intros a S N Hw.
  - simpl. by rewrite !lookup_insert_eq.
  - simpl in S. destruct S as (S1 & S2 & S3). inversion_clear N as [|? ? Na N']. apply not_elem_of_cons in Hw as [Hwa Hw].
    specialize (IH x S3 N' Hw). rewrite (last_default x xs a x).
    replace (List.last (x :: xs) x) with (List.last xs x) by (destruct xs as [|y ?]; [done | apply (last_default y)]).
    simpl. split; [|split; [|exact IH]].
    + rewrite lookup_insert_ne; [done|]. intros <-. apply Na. rewrite elem_of_cons. destruct (last_cases xs x) as [->|?]; auto.
    + rewrite lookup_insert_ne; [done|]. intros <-. apply Hw. left.
Qed.

Lemma relink_roots_ok l xs : ring l ROOTS xs -> ring l TO_FREE [] -> TO_FREE ∉ xs ->
  exists l', relink_roots l = Ok l' /\ ring l' ROOTS [] /\ ring l' TO_FREE xs /\ rb_ref l' = rb_ref l /\
    forall p, p ∉ ROOTS :: TO_FREE :: xs -> rb_prev l' !! p = rb_prev l !! p.
Proof.
  intros [S N] [[T1 T2] _] Hx. unfold relink_roots. rewrite (field_ok _ _ _ (segment_next _ _ _ _ S)). rsimp.
  destruct xs as [|x xs]; simpl.
  - exists l. split; [done|]. split; [by split|]. split; [|done]. split; [by split|]. constructor; [apply not_elem_of_nil | constructor].
  - pose proof N as Nr. inversion_clear Nr as [|? ? Hr Nx]. pose proof Nx as Nx'. inversion_clear Nx' as [|? ? Hxx Nxs].
    rewrite not_elem_of_cons in Hr, Hx. destruct Hr as [Hrx Hr], Hx as [Htx Ht].
    rewrite bool_decide_eq_false_2 by congruence. cbn [negb]. rewrite (field_ok _ _ _ T1). rsimp.
    rewrite bool_decide_eq_true_2 by done. pose proof (segment_prev _ _ _ _ S) as P. simpl in S. destruct S as (S1 & S2 & S).
    cbn [hd rbind set_next rb_prev rb_next]. rewrite (field_ok _ _ _ P). rsimp.
    cbn [set_prev rb_next]. rewrite (field_ok _ TO_FREE x) by apply lookup_insert_eq. rsimp.
    cbn [set_prev set_next rb_prev rb_next]. rewrite (field_ok _ TO_FREE (Some (List.last (x :: xs) ROOTS))).
    2: { rewrite lookup_insert_ne by congruence. apply lookup_insert_eq. }
    cbn [rbind deref_root]. eexists. split; [done|].
    set (last := List.last (x :: xs) ROOTS). assert (Hlast : last = List.last xs x).
    { unfold last. destruct xs as [|y ?]; [done | apply (last_default y)]. }
    assert (Hlin : last = x \/ last ∈ xs) by (rewrite Hlast; apply last_cases).
    assert (Hlr : last <> ROOTS /\ last <> TO_FREE) by (destruct Hlin as [->|Hl]; split; congruence).
    split; [|split; [|split]]; simpl.
    + split; [simpl; by rewrite !lookup_insert_eq|]. constructor; [apply not_elem_of_nil | constructor].
    + split; [|constructor; [by rewrite not_elem_of_cons | done]].
      assert (G : segment (set_next last TO_FREE (set_prev TO_FREE (Some last) l)) x xs TO_FREE).
      { rewrite Hlast. apply (segment_retail l x xs ROOTS TO_FREE S Nx). by rewrite not_elem_of_cons. }
      simpl. split; [|split].
      * rewrite lookup_insert_ne by done. rewrite lookup_insert_ne by tauto. apply lookup_insert_eq.
      * rewrite lookup_insert_ne by done. apply lookup_insert_eq.
      * apply (segment_frame _ _ _ _ _ G); simpl; intros p Hp.
        -- rewrite lookup_insert_ne by (intros <-; destruct Hp; congruence).
           destruct (decide (p = last)) as [->|Hpl]; [by rewrite !lookup_insert_eq|].
           rewrite !(lookup_insert_ne _ last) by congruence. apply lookup_insert_ne. intros <-; destruct Hp; congruence.
        -- rewrite lookup_insert_ne by (intros <-; destruct Hp; congruence).
           rewrite lookup_insert_ne by (intros <-; destruct Hp; congruence). done.
    + done.
    + intros p. rewrite !not_elem_of_cons. intros (P1 & P2 & P3 & P4). by rewrite !lookup_insert_ne.
Qed.
