(* ===== verification/GcCycles.v ===== *)
(** * The cycle collector: what a collection finds

    [garbage]: the structures reachable from the candidates that nothing but
    other garbage keeps alive.  After marking and scanning exactly these are
    white; after [gc_collect_roots] every count and colour is as before and the
    list to free holds the garbage that is to be destroyed. *)
From S2P Require Export GcPhases.

Section Garbage.
Context (env : genv) (h0 : heap).
Abbreviation K := (kids env h0).
Abbreviation table := (symbol_table env).
Abbreviation reaches := (rtc (edge env h0)).

(** Reachable from a candidate. *)
Definition reached (rs : list addr) (x : addr) : Prop := x <> table /\ exists r, r ∈ rs /\ reaches r x.

(** More references than the reached structures hold. *)
Definition kept (rs : list addr) (z : addr) : Prop :=
  exists M, NoDup M /\ (forall y, y ∈ M <-> reached rs y) /\ z ∈ M /\ occ z (flat_map K M) < rc h0 z.

Definition garbage (rs : list addr) (x : addr) : Prop := reached rs x /\ ~ exists z, kept rs z /\ reaches z x.

(** Every reference the heap holds is counted. *)
Definition counts_ok : Prop := forall x, in_heap h0 x -> occ x (flat_map K (elements (dom h0))) <= rc h0 x.

Context (Hok : heap_ok env h0) (Hcounts : counts_ok).
Context (rs : list addr) (Hcand : candidates h0 rs).

Section Marked.
Context (hM : heap) (M : list addr) (HM : marked env h0 rs hM M).

Lemma marked_reached x : x ∈ M <-> reached rs x.
Proof.
  split.
  - intros Hx. split; [by apply (mk_in _ _ _ _ _ HM) | by apply (mk_reach _ _ _ _ _ HM)].
  - intros (Hx & r & Hr & Hp). pose proof (mk_roots _ _ _ _ _ HM r Hr) as Hm. clear Hr. revert Hm.
    induction Hp as [x|r y x He Hp IH]; intros [Hm|Ht]; try done.
    + apply IH; [done|]. by apply (mk_kids _ _ _ _ _ HM r).
    + subst r. unfold edge in He. rewrite (kids_table _ _ Hok) in He. by apply not_elem_of_nil in He.
Qed.

Lemma held_kept z : held env h0 M z <-> kept rs z.
Proof.
  split.
  - intros [Hz Ho]. exists M. split; [apply HM|]. split; [apply marked_reached|]. by split.
  - intros (M' & N & HM' & Hz & Ho). assert (Hp : M' ≡ₚ M).
    { apply NoDup_Permutation; [done | apply HM|]. intros y. by rewrite HM', marked_reached. }
    split; [by rewrite <- Hp|]. by rewrite <- (occ_perm z _ _ (Permutation_flat_map K Hp)).
Qed.

Lemma garbage_marked x : garbage rs x <-> x ∈ M /\ ~ lives env h0 M x.
Proof.
  unfold garbage, lives. rewrite marked_reached. split; intros [Hx Hn]; (split; [done|]); intros (z & Hz & Hp); apply Hn;
    exists z; (split; [|done]); by apply held_kept.
Qed.

(** Black propagates from the reached part. *)
Lemma black_forward h x y : sorted_out env h0 M h -> x ∈ M \/ x = table -> col h x = GC_BLACK -> reaches x y -> col h y = GC_BLACK.
Proof.
  intros S Hx Hc Hp. induction Hp as [x|x z y He Hp IH]; [done|]. destruct Hx as [Hx| ->].
  - apply IH; [by apply (mk_kids _ _ _ _ _ HM x)|]. by eapply (sc_closed _ _ _ _ (so_scanning _ _ _ _ S)).
  - unfold edge in He. rewrite (kids_table _ _ Hok) in He. by apply not_elem_of_nil in He.
Qed.
End Marked.

(** *** Garbage is unreachable *)

(** A structure that something outside the heap refers to. *)
Definition external (z : addr) : Prop := in_heap h0 z /\ occ z (flat_map K (elements (dom h0))) < rc h0 z.

Lemma occ_split x M y : NoDup (y :: M) -> (forall z, z ∈ y :: M -> in_heap h0 z) ->
  occ x (flat_map K M) + occ x (K y) <= occ x (flat_map K (elements (dom h0))).
Proof.
  intros N Hin. assert (y :: M ⊆+ elements (dom h0)) as [k Hk]%submseteq_Permutation.
  { apply NoDup_submseteq; [done|]. intros z Hz. by apply elem_of_elements, elem_of_dom, Hin. }
  rewrite (occ_perm x _ _ (Permutation_flat_map K Hk)). simpl. rewrite flat_map_app, !occ_app.
  pose proof (occ_nonneg x (flat_map K k)). lia.
Qed.

(** A reference from outside the reached part keeps its target. *)
Lemma outside_keeps hM M y x : marked env h0 rs hM M -> y ∉ M -> x ∈ K y -> x ∈ M -> kept rs x.
Proof.
  intros HM Hy Hx Hm. apply (held_kept hM M HM). split; [done|].
  pose proof (kids_in _ _ Hok _ _ Hx) as [Hyi Hxi]. pose proof (occ_in x (K y) Hx).
  assert (occ x (flat_map K M) + occ x (K y) <= occ x (flat_map K (elements (dom h0)))).
  { apply occ_split; [constructor; [done | apply HM]|]. intros z [->|Hz]%elem_of_cons; [done|]. by apply (mk_in _ _ _ _ _ HM). }
  specialize (Hcounts x Hxi). lia.
Qed.

Lemma external_not_garbage z x : external z -> reaches z x -> ~ garbage rs x.
Proof.
  destruct (mark_all_marked env h0 Hok rs Hcand) as (hM & M & _ & HM). intros [Hz Ho] Hp Hg.
  pose proof Hg as [Hr Hn]. apply (marked_reached hM M HM) in Hr.
  assert (Hbase : reaches z x -> z ∈ M -> False).
  { intros _ Hzm. apply Hn. exists z. split; [|done]. apply (held_kept hM M HM). split; [done|].
    assert (occ z (flat_map K M) <= occ z (flat_map K (elements (dom h0)))).
    { assert (M ⊆+ elements (dom h0)) as [k Hk]%submseteq_Permutation.
      { apply NoDup_submseteq; [apply HM|]. intros y Hy. apply elem_of_elements, elem_of_dom. by apply (mk_in _ _ _ _ _ HM). }
      rewrite (occ_perm z (flat_map K (elements (dom h0))) _ (Permutation_flat_map K Hk)), flat_map_app, occ_app.
      pose proof (occ_nonneg z (flat_map K k)). lia. }
    lia. }
  destruct (decide (z ∈ M)) as [Hzm|Hzm]; [by apply Hbase|]. clear Hbase Ho Hz.
  induction Hp as [x|z y x He Hp IH]; [done|].
  destruct (decide (y ∈ M)) as [Hym|Hym]; [|by apply IH].
  apply Hn. exists y. split; [|done]. by apply (outside_keeps hM M z y HM).
Qed.

Lemma garbage_closed_back x y : garbage rs x -> x ∈ K y -> garbage rs y.
Proof.
  destruct (mark_all_marked env h0 Hok rs Hcand) as (hM & M & _ & HM). intros Hg Hx.
  pose proof Hg as [Hr Hn]. pose proof Hr as Hm. apply (marked_reached hM M HM) in Hm.
  destruct (decide (y ∈ M)) as [Hy|Hy].
  - split; [by apply (marked_reached hM M HM)|]. intros (z & Hz & Hp). apply Hn. exists z. split; [done|].
    etransitivity; [exact Hp | by apply rtc_once].
  - destruct Hn. exists x. split; [|done]. by apply (outside_keeps hM M y x HM).
Qed.
End Garbage.

(** * The cycle collector: one collection up to the list to free *)

(** A heap and a buffer between collections: every reference is counted, the
    candidates are in the buffer and purple, everything else is black. *)
Record gc_state (env : genv) (g : GC) (rs : list addr) : Prop := mkGcState {
  gs_heap : heap_ok env (hp g);
  gs_counts : counts_ok env (hp g);
  gs_candidates : candidates (hp g) rs;
  gs_roots : exists xs, roots_are g xs rs;
  gs_additional : additional (gg g) = []
}.

(** What [gc_collect_roots] hands over: the list to free. *)
Definition to_free_is (g : GC) (fs : list addr) : Prop :=
  exists ps us, bufs_ok (gg g) [] ps us /\ rooted (hp g) (lk (gg g)) ps fs /\ adds_listed (gg g) ps.

Lemma relink_ok g xs us : bufs_ok g xs [] us ->
  exists l, relink_roots (lk g) = Ok l /\ bufs_ok (set_lk l g) [] xs us /\ rb_ref l = rb_ref (lk g).
Proof.
  intros B. assert (Hv : forall p, p ∈ xs ++ us -> p <> ROOTS /\ p <> TO_FREE).
  { intros p Hp. by apply (head_not_valid g), B. }
  destruct (relink_roots_ok (lk g) xs (bo_roots _ _ _ _ B) (bo_free _ _ _ _ B)) as (l & E & R & T & Hr & Hp).
  { intros Hin. destruct (Hv TO_FREE); [rewrite elem_of_app; auto | done]. }
  exists l. split; [done|]. split; [|done]. pose proof (bo_nodup _ _ _ _ B) as N. split; simpl; try apply B; try done.
  eapply unused_frame; [apply B|]. intros u Hu. apply Hp. rewrite !not_elem_of_cons.
  destruct (Hv u) as [? ?]; [rewrite elem_of_app; auto|]. split; [done|]. split; [done|]. intros Hx.
  apply NoDup_app in N as (_ & N & _). by apply (N u Hx).
Qed.

Section Collection.
Context (env : genv) (g : GC) (rs : list addr) (G : gc_state env g rs).
Abbreviation h0 := (hp g).
Abbreviation K := (kids env h0).
Abbreviation table := (symbol_table env).
Abbreviation reaches := (rtc (edge env h0)).

Lemma mark_and_scan : exists hM M hS, gc_mark_roots env g = Ok (set_hp hM g) /\ marked env h0 rs hM M /\
  gc_scan_roots env (set_hp hM g) = Ok (set_hp hS g) /\ sorted_out env h0 M hS.
Proof.
  destruct G as [Hok Hco Hca (xs & us & B & Rt & _) _]. destruct (mark_all_marked env h0 Hok rs Hca) as (hM & M & EM & HM).
  destruct (scan_all_sorted env h0 Hok rs hM M HM Hco) as (hS & ES & S); [intros r Hr; by apply Hca|].
  exists hM, M, hS. rewrite (gc_mark_roots_eq env g xs rs us B (rooted_along _ _ _ _ Rt)), EM.
  rewrite (gc_scan_roots_eq env (set_hp hM g) xs rs us B (rooted_along _ _ _ _ Rt)). simpl. by rewrite ES.
Qed.

(** The white structures of a scanned heap, as the last phase finds them. *)
Section White.
Context (hM : heap) (M : list addr) (HM : marked env h0 rs hM M) (hS : heap) (S : sorted_out env h0 M hS).

Lemma white_dark x : x ∈ dark M hS <-> col hS x = GC_WHITE.
Proof.
  rewrite dark_in. split.
  - intros [Hc Hx]. destruct (so_black _ _ _ _ S x); done.
  - intros Hc. rewrite Hc. split; [done|]. by apply (so_white _ _ _ _ S) in Hc as [? _].
Qed.

Lemma white_path x y : x ∈ M \/ x = table -> reaches x y -> col hS y = GC_WHITE -> col hS x = GC_WHITE.
Proof.
  intros Hx Hp Hy. destruct (so_black _ _ _ _ S x) as [|Hb]; [done|].
  rewrite (black_forward env h0 (gs_heap _ _ _ G) rs hM M HM hS x y S Hx Hb Hp) in Hy. discriminate Hy.
Qed.

(** A traversal that finished the white roots has collected all white ones. *)
Lemma white_collected (vs : list addr) y : col hS y = GC_WHITE ->
  (forall r, r ∈ rs -> col hS r = GC_WHITE -> r ∈ vs) ->
  (forall a b, a ∈ vs -> b ∈ K a -> col hS b = GC_WHITE -> b ∈ vs) -> y ∈ vs.
Proof.
  intros Hy Hr Hk. pose proof Hy as Hm. apply (so_white _ _ _ _ S) in Hm as [Hm _].
  destruct (mk_reach _ _ _ _ _ HM y Hm) as (r & Hrr & Hp).
  assert (Hrv : r ∈ vs).
  { apply Hr; [done|]. apply (white_path r y); [by apply (mk_roots _ _ _ _ _ HM) | done | done]. }
  pose proof (mk_roots _ _ _ _ _ HM r Hrr) as Hma. clear Hrr Hr Hm. revert Hma Hrv.
  induction Hp as [a|a b y He Hp IH]; [done|]. intros Hma Ha.
  assert (Hmb : b ∈ M \/ b = table).
  { destruct Hma as [Hma| ->]; [by apply (mk_kids _ _ _ _ _ HM a)|]. unfold edge in He.
    rewrite (kids_table _ _ (gs_heap _ _ _ G)) in He. by apply not_elem_of_nil in He. }
  apply IH; try done. apply (Hk a); [done|done|]. by apply (white_path b y).
Qed.

(** *** What the collection of the white roots leaves *)
Section Collected.
Context (gB : GC) (xsB : list rootp) (rsB : list addr) (U : unlisted h0 hS rs (hp gB)) (RB : roots_are gB xsB rsB).
Context (HrsB : forall r, r ∈ rsB <-> r ∈ rs /\ col hS r = GC_WHITE).
Context (s' : GC * Z) (vs : list addr).
Context (H : run env h0 (fun s : GC * Z => hp (fst s)) (white_inv env h0) (white_step h0) (fun _ c => c =? GC_WHITE) 1
  (gB, 0) [] rsB s' vs).

Lemma col_listed x : col (hp gB) x = col hS x.
Proof. apply U. Qed.

Lemma collected_white x : x ∈ vs <-> col hS x = GC_WHITE.
Proof.
  pose proof (rn_R _ _ _ _ _ _ _ _ _ _ _ _ H) as W. split.
  - intros Hx. destruct (ws_white _ _ _ _ W x Hx) as [Hw _]. simpl in Hw. by rewrite col_listed in Hw.
  - assert (Hfin : forall a, col hS a = GC_WHITE -> (col (hp (fst s')) a =? GC_WHITE) = false -> a ∈ vs).
    { intros a Ha Hf. destruct (decide (a ∈ vs)) as [|Hn]; [done|].
      rewrite col_info, (ws_info _ _ _ _ W a Hn), <- col_info in Hf. simpl in Hf. rewrite col_listed, Ha in Hf. done. }
    intros Hx. apply white_collected; [done | |].
    + intros r Hr Hw. apply Hfin; [done|]. apply (rn_finished _ _ _ _ _ _ _ _ _ _ _ _ H). by apply HrsB.
    + intros a b Ha Hb Hw. apply Hfin; [done|]. by apply (rn_kids _ _ _ _ _ _ _ _ _ _ _ _ H a).
Qed.

Lemma collected_black x : col (hp (fst s')) x = GC_BLACK.
Proof.
  pose proof (rn_R _ _ _ _ _ _ _ _ _ _ _ _ H) as W. destruct (decide (x ∈ vs)) as [Hx|Hx]; [by apply (ws_white _ _ _ _ W)|].
  rewrite col_info, (ws_info _ _ _ _ W x Hx), <- col_info. simpl. rewrite col_listed.
  destruct (so_black _ _ _ _ S x) as [Hw|]; [|done]. by apply collected_white in Hw.
Qed.

Lemma collected_counts x : in_heap h0 x -> rc (hp (fst s')) x = rc h0 x.
Proof.
  intros Hx. pose proof (rn_counts _ _ _ _ _ _ _ _ _ _ _ _ H x Hx) as E. cbn [fst hp] in E. rewrite E, (ul_rc _ _ _ _ U).
  rewrite (sc_rc _ _ _ _ (so_scanning _ _ _ _ S) x Hx). assert (Hp : vs ≡ₚ dark M hS).
  { apply NoDup_Permutation; [apply H | apply (dark_nodup env h0 rs hM M HM)|]. intros y. by rewrite collected_white, white_dark. }
  rewrite (occ_perm x _ _ (Permutation_flat_map K Hp)). cbn [occ].
  set (n := occ x _). replace (rc h0 x - n + 1 * (0 + n)) with (rc h0 x) by lia.
  apply u32_small, (ho_count _ _ (gs_heap _ _ _ G)).
Qed.

Lemma collected_list : exists xs fs, roots_are (fst s') xs fs /\
  forall x, x ∈ fs <-> col hS x = GC_WHITE /\ (x ∈ rs \/ collects (body0 h0 x) = true).
Proof.
  pose proof (rn_R _ _ _ _ _ _ _ _ _ _ _ _ H) as W. destruct (ws_roots _ _ _ _ W xsB rsB RB) as [new R].
  eexists _, _. split; [exact R|]. intros x.
  rewrite elem_of_app, list_elem_of_In, <- in_rev, filter_In, <- list_elem_of_In, collected_white, HrsB.
  unfold is_new. rewrite andb_true_iff. split; [tauto|]. intros [Hw [Hr|Hc]]; [tauto|].
  destruct (Z.eqb_spec (addr_of (hp gB) x) 0) as [Ea|Ea]; [left; simpl; by rewrite Ea | right].
  destruct RB as (us & _ & Rt & _). apply (rt_all _ _ _ _ Rt), HrsB in Ea. tauto.
Qed.

Lemma collected_flags : Z.testbit (snd s') 0 = true <-> exists x, col hS x = GC_WHITE /\ destructs (body0 h0 x) = true.
Proof.
  rewrite (ws_flags _ _ _ _ (rn_R _ _ _ _ _ _ _ _ _ _ _ _ H)). simpl. rewrite existsb_exists. split.
  - intros (x & Hx & Hd). apply list_elem_of_In, collected_white in Hx. by exists x.
  - intros (x & Hx & Hd). exists x. split; [by apply list_elem_of_In, collected_white | done].
Qed.
End Collected.

(** *** [gc_collect_roots] *)
Lemma collect_roots_ok : exists g' flags count, gc_collect_roots env (set_hp hS g) 0 = Ok (g', flags, count) /\
  like h0 (hp g') /\ (forall x, col (hp g') x = GC_BLACK) /\ (forall x, in_heap h0 x -> rc (hp g') x = rc h0 x) /\
  (exists fs, to_free_is g' fs /\ forall x, x ∈ fs <-> col hS x = GC_WHITE /\ (x ∈ rs \/ collects (body0 h0 x) = true)) /\
  (Z.testbit flags 0 = true <-> exists x, col hS x = GC_WHITE /\ destructs (body0 h0 x) = true).
Proof.
  pose proof (gs_heap _ _ _ G) as Hok. pose proof (so_scanning _ _ _ _ S) as Sc.
  destruct (gs_roots _ _ _ G) as (xs & us & B & Rt & Ad). unfold gc_collect_roots. cbn [set_hp gg].
  assert (RtS : rooted hS (lk (gg g)) xs rs) by (by apply (rooted_ext h0); [|apply Sc]).
  destruct (bo_roots _ _ _ _ B) as [Sg _]. rewrite (field_ok _ _ _ (segment_next _ _ _ _ Sg)). rsimp.
  destruct (remove_black_ok env h0 Hok xs rs (set_hp hS g) [] [] us (Datatypes.S (size (rb_next (lk (gg g))))))
    as (gB & xsB & EB & U & RB); [apply Sc | exact B | exact RtS | done | | apply (gs_additional _ _ _ G) |].
  { pose proof (ring_size _ _ _ (bo_roots _ _ _ _ B)). lia. }
  rewrite EB. rsimp. cbn [app hp set_hp] in RB, U. set (rsB := List.filter (not_black hS) rs) in *.
  assert (HrsB : forall r, r ∈ rsB <-> r ∈ rs /\ col hS r = GC_WHITE).
  { intros r. unfold rsB. rewrite !list_elem_of_In, filter_In. unfold not_black.
    destruct (so_black _ _ _ _ S r) as [E|E]; rewrite E; split; intros [? ?]; done. }
  pose proof RB as (usB & BB & RtB & AdB). destruct (bo_roots _ _ _ _ BB) as [SgB _].
  rewrite (field_ok _ _ _ (segment_next _ _ _ _ SgB)). rsimp.
  assert (Wi : white_inv env h0 (gB, 0)).
  { split; simpl; [apply U | | by exists xsB, rsB]. rewrite (ul_col _ _ _ _ U).
    intros Hw. apply (so_white _ _ _ _ S) in Hw as [Hw _]. by apply (mk_in _ _ _ _ _ HM) in Hw as [_ ?]. }
  destruct (collect_loop_ok env h0 Hok xsB rsB (gB, 0) [] [] 0 (Datatypes.S (size (rb_next (lk (gg gB)))))
    Wi) as (s' & n & vs & EC & H).
  { intros r [Hr _]%HrsB. by apply (gs_candidates _ _ _ G). }
  { by exists usB. } { done. } { pose proof (ring_size _ _ _ (bo_roots _ _ _ _ BB)). lia. }
  rewrite EC. rsimp. destruct s' as [gC flags].
  edestruct collected_list as (xsC & fs & (usC & BC & RtC & AdC) & Hfs); [eassumption..|].
  destruct (relink_ok _ _ _ BC) as (l & El & BF & Er). simpl in El. rewrite El. rsimp. do 3 eexists. split; [done|].
  split; [apply (rn_inv _ _ _ _ _ _ _ _ _ _ _ _ H)|].
  split; [eapply (collected_black _ _ U HrsB (gC, flags)); eassumption|].
  split; [eapply (collected_counts _ _ U HrsB (gC, flags)); eassumption|].
  split; [|eapply (collected_flags _ _ U HrsB (gC, flags)); eassumption].
  exists fs. split; [|done]. exists xsC, usC. split; [exact BF|]. destruct RtC as [F N A]. split; [|done]. split; [|done|done].
  cbn [on_gg set_lk lk gg hp] in *. rewrite Er. done.
Qed.
End White.
End Collection.
