(* ===== verification/GcDestroy.v ===== *)
(** * The cycle collector: destroying the garbage

    [zend_gc_collect_cycles] of [Zend/zend_gc.c], with the release of values
    ([Zend/zend_variables.h], [Zend/zend_variables.c]), of arrays
    ([zend_array_destroy]) and of objects ([zend_objects_store_del]).  Freed
    memory is absent from the heap, so a use after free is [Err OutOfBounds].
    The keys of arrays are strings that the collector does not look at; their
    release is left out. *)
From S2P Require Export GcCycles.

(** ** Code behind function pointers

    [free_obj_values]: the values that the handler [free_obj] of an object
    releases, in order ([zend_object_std_dtor]: the dynamic properties, then the
    declared ones); [dtor_obj]: the handler of that name, which may run a
    destructor of the program; [other_dtor]: the release of a string, a resource
    or a constant expression. *)
Class Handlers := {
  free_obj_values : zend_object -> list gval;
  dtor_obj : addr -> GC -> res GC;
  other_dtor : addr -> GC -> res GC
}.

Definition efree (ref : addr) (g : GC) : res GC :=
  let! _ := get_counted (hp g) ref in Ok (set_hp (delete ref (hp g)) g).

Definition set_body (ref : addr) (b : gc_body) (g : GC) : res GC :=
  let! o := get_counted (hp g) ref in
  Ok (set_hp (<[ref := mkCounted (gc_refcount o) (gc_info o) b]> (hp g)) g).

Definition add_rc (d : Z) (ref : addr) (g : GC) : res GC :=
  let! h := add_refcount d ref (hp g) in Ok (set_hp h g).

Definition on_objects (f : zend_objects_store -> res zend_objects_store) (g : GC) : res GC :=
  let! s := f (objects g) in Ok (set_objects s g).

(** [GC_FLAGS(obj) |= IS_OBJ_DESTRUCTOR_CALLED], [... IS_OBJ_FREE_CALLED] *)
Definition set_destructor_called (o : zend_object) : zend_object :=
  mkObject (handle o) true (obj_free_called o) (has_dtor_obj o) (std_dtor_obj o) (ce_destructor o) (has_free_obj o) (get_gc o).
Definition set_free_called (o : zend_object) : zend_object :=
  mkObject (handle o) (obj_destructor_called o) true (has_dtor_obj o) (std_dtor_obj o) (ce_destructor o) (has_free_obj o) (get_gc o).
Definition set_handle (h : Z) (o : zend_object) : zend_object :=
  mkObject h (obj_destructor_called o) (obj_free_called o) (has_dtor_obj o) (std_dtor_obj o) (ce_destructor o) (has_free_obj o) (get_gc o).

Definition the_object (ref : addr) (g : GC) : res zend_object :=
  let! o := get_counted (hp g) ref in
  match body o with T_OBJECT obj => Ok obj | _ => Err OutOfBounds end.

Definition zend_objects_store_put (ref : addr) (g : GC) : res GC :=
  let! obj := the_object ref g in
  let! (h, s) := store_put ref (objects g) in
  set_body ref (T_OBJECT (set_handle h obj)) (set_objects s g).

(** ** Releasing values *)
Section Release.
Context {H : Handlers} (collect : GC -> res GC) (unclean_shutdown : bool).

(** [if (!(GC_FLAGS(obj) & IS_OBJ_DESTRUCTOR_CALLED)) { ... }] *)
Definition call_destructor (ref : addr) (obj : zend_object) (g : GC) : res GC :=
  if obj_destructor_called obj then Ok g
  else
    let! g := set_body ref (T_OBJECT (set_destructor_called obj)) g in
    if has_destructor obj then
      let! g := add_rc 1 ref g in
      let! g := dtor_obj ref g in
      add_rc (-1) ref g
    else Ok g.

Section Destructors.
Context (dtor_func : addr -> GC -> res GC).

Definition i_zval_ptr_dtor (v : gval) (g : GC) : res GC :=
  match v with
  | GV_COUNTED ref =>
      let! g := add_rc (-1) ref g in
      let! o := get_counted (hp g) ref in
      if gc_refcount o =? 0 then dtor_func ref g
      else gc_check_possible_root collect dtor_func unclean_shutdown ref g
  | _ => Ok g
  end.

(** The loop over the used buckets, or over the properties. *)
Fixpoint dtor_values (l : list gval) (g : GC) : res GC :=
  match l with
  | [] => Ok g
  | v :: l => let! g := i_zval_ptr_dtor v g in dtor_values l g
  end.

(** [zend_array_destroy]; [used] are the values of the used buckets. *)
Definition array_destroy (ref : addr) (used : list gval) (g : GC) : res GC :=
  let! g := GC_REMOVE_FROM_BUFFER ref g in
  let! o := get_counted (hp g) ref in
  let g := set_hp (<[ref := mkCounted (gc_refcount o) GC_WHITE T_NULL]> (hp g)) g in
  let! g := dtor_values used g in
  efree ref g.

(** [if (!(GC_FLAGS(obj) & IS_OBJ_FREE_CALLED)) { ... }]: the flags of a
    structure whose type is [IS_NULL] already are not read again. *)
Definition call_free_obj (ref : addr) (obj : zend_object) (g : GC) : res GC :=
  if obj_free_called obj then Ok g
  else
    let! o := get_counted (hp g) ref in
    let! g := match body o with T_OBJECT obj => set_body ref (T_OBJECT (set_free_called obj)) g | _ => Ok g end in
    if has_free_obj obj then
      let! g := add_rc 1 ref g in
      let! g := dtor_values (free_obj_values obj) g in
      add_rc (-1) ref g
    else Ok g.

Definition zend_objects_store_del (ref : addr) (obj : zend_object) (g : GC) : res GC :=
  match object_buckets (objects g) with
  | None => Ok g
  | Some _ =>
      let! w := get_bucket (handle obj) (objects g) in
      if IS_OBJ_VALID w then
        let! o := get_counted (hp g) ref in
        if gc_refcount o =? 0 then
          let! g := call_destructor ref obj g in
          let! o := get_counted (hp g) ref in
          if gc_refcount o =? 0 then
            let! obj := the_object ref g in
            let! g := on_objects (set_bucket (handle obj) (SET_OBJ_INVALID (obj_word ref))) g in
            let! g := call_free_obj ref obj g in
            let! g := GC_REMOVE_FROM_BUFFER ref g in
            let! g := efree ref g in
            on_objects (ZEND_OBJECTS_STORE_ADD_TO_FREE_LIST (handle obj)) g
          else Ok g
        else add_rc (-1) ref g
      else Ok g
  end.
End Destructors.

Fixpoint _zval_dtor_func (fuel : nat) (ref : addr) (g : GC) {struct fuel} : res GC :=
  match fuel with
  | O => Err OutOfFuel
  | S fuel =>
      let! o := get_counted (hp g) ref in
      match body o with
      | T_OTHER => other_dtor ref g
      | T_ARRAY used => array_destroy (_zval_dtor_func fuel) ref used g
      | T_OBJECT obj => zend_objects_store_del (_zval_dtor_func fuel) ref obj g
      | T_REFERENCE v => let! g := i_zval_ptr_dtor (_zval_dtor_func fuel) v g in efree ref g
      | T_NULL => Ok g
      end
  end.

(** ** The list to free *)

(** [Copy global to_free list into local list] *)
Definition take_to_free (l : links) : res links :=
  let! n := field (rb_next l) TO_FREE in
  let l := set_next LOCAL n l in
  let! p := field (rb_prev l) TO_FREE in
  let l := set_prev LOCAL p l in
  let! n := field (rb_next l) LOCAL in
  let l := set_prev n (Some LOCAL) l in
  let! p := field (rb_prev l) LOCAL in
  let! p := deref_root p in
  let l := set_next p LOCAL l in
  Ok (set_prev TO_FREE (Some TO_FREE) (set_next TO_FREE TO_FREE l)).

(** [current = GC_G(next_to_free)] *)
Definition next_current (g : GC) : res rootp := deref_root (next_to_free (gg g)).

(** [GC_G(next_to_free) = current->next] *)
Definition step_to_free (current : rootp) (g : GC) : res GC :=
  let! n := field (rb_next (lk (gg g))) current in
  Ok (on_gg (set_next_to_free (Some n)) g).

(** [Remember reference counters before calling destructors]: the field
    [refcount] of the entries is the map [saved]. *)
Fixpoint remember_refcounts (fuel : nat) (current : rootp) (saved : gmap rootp Z) (g : GC) {struct fuel} : res (gmap rootp Z) :=
  match fuel with
  | O => Err OutOfFuel
  | S fuel =>
      if bool_decide (current = LOCAL) then Ok saved
      else
        let! ref := field (rb_ref (lk (gg g))) current in
        let! o := get_counted (hp g) ref in
        let! n := field (rb_next (lk (gg g))) current in
        remember_refcounts fuel n (<[current := gc_refcount o]> saved) g
  end.

(** [Call destructors] *)
Fixpoint call_destructors (fuel : nat) (current : rootp) (g : GC) {struct fuel} : res GC :=
  match fuel with
  | O => Err OutOfFuel
  | S fuel =>
      if bool_decide (current = LOCAL) then Ok g
      else
        let! p := field (rb_ref (lk (gg g))) current in
        let! g := step_to_free current g in
        let! o := get_counted (hp g) p in
        let! g := match body o with T_OBJECT obj => call_destructor p obj g | _ => Ok g end in
        let! current := next_current g in
        call_destructors fuel current g
  end.

Fixpoint gc_remove_nested_data_from_buffer (fuel : nat) (env : genv) (ref : addr) (root : option rootp) (g : GC) {struct fuel} : res GC :=
  match fuel with
  | O => Err OutOfFuel
  | S fuel =>
      let! o := get_counted (hp g) ref in
      if isSome root || (negb (GC_ADDRESS (gc_info o) =? 0) && (GC_REF_GET_COLOR o =? GC_BLACK)) then
        let! g :=
          match root with
          | Some root =>
              let! r := field (rb_ref (lk (gg g))) root in
              let! o' := get_counted (hp g) r in
              let! gl :=
                if GC_ADDRESS (gc_info o') <? GC_ROOT_BUFFER_MAX_ENTRIES then gc_remove_from_roots root (gg g)
                else gc_remove_from_additional_roots root (gg g) in
              Ok (mkGC (<[ref := set_info 0 o]> (hp g)) gl (objects g))
          | None => GC_REMOVE_FROM_BUFFER ref g
          end in
        let child g r := gc_remove_nested_data_from_buffer fuel env r None g in
        match body o with
        | T_ARRAY used => visit_ht child env used g
        | b => visit_counted child env (fun g => Ok g) ref b g
        end
      else Ok g
  end.

(** [Remove values captured in destructors] *)
Fixpoint remove_captured (fuel : nat) (env : genv) (saved : gmap rootp Z) (current : rootp) (g : GC) {struct fuel} : res GC :=
  match fuel with
  | O => Err OutOfFuel
  | S fuel =>
      if bool_decide (current = LOCAL) then Ok g
      else
        let! g := step_to_free current g in
        let! ref := field (rb_ref (lk (gg g))) current in
        let! o := get_counted (hp g) ref in
        let! n := field saved current in
        let! g :=
          if n <? gc_refcount o then gc_remove_nested_data_from_buffer (S (size (hp g))) env ref (Some current) g else Ok g in
        let! current := next_current g in
        remove_captured fuel env saved current g
  end.

(** One piece of garbage loses what it holds. *)
Definition destroy_zval (ref : addr) (g : GC) : res GC :=
  let dtor_func := _zval_dtor_func (S (size (hp g))) in
  let! o := get_counted (hp g) ref in
  match body o with
  | T_OBJECT obj =>
      let! g := on_objects (set_bucket (handle obj) (SET_OBJ_INVALID (obj_word ref))) g in
      let! g := set_body ref T_NULL g in
      let! g := call_free_obj dtor_func ref obj g in
      on_objects (ZEND_OBJECTS_STORE_ADD_TO_FREE_LIST (handle obj)) g
  | T_ARRAY used =>
      let! g := set_body ref T_NULL g in
      dtor_values dtor_func used g
  | _ => Ok g
  end.

(** [Destroy zvals] *)
Fixpoint destroy_zvals (fuel : nat) (current : rootp) (g : GC) {struct fuel} : res GC :=
  match fuel with
  | O => Err OutOfFuel
  | S fuel =>
      if bool_decide (current = LOCAL) then Ok g
      else
        let! p := field (rb_ref (lk (gg g))) current in
        let! g := step_to_free current g in
        let! g := destroy_zval p g in
        let! current := next_current g in
        destroy_zvals fuel current g
  end.

(** [Free objects]: an entry of the array becomes unused. *)
Fixpoint free_objects (fuel : nat) (current : rootp) (g : GC) {struct fuel} : res GC :=
  match fuel with
  | O => Err OutOfFuel
  | S fuel =>
      if bool_decide (current = LOCAL) then Ok g
      else
        let! next := field (rb_next (lk (gg g))) current in
        let! p := field (rb_ref (lk (gg g))) current in
        let g :=
          match current with
          | BUF _ => on_gg (fun gl => set_unused (Some current) (set_lk (set_prev current (unused gl) (lk gl)) gl)) g
          | _ => g
          end in
        let! g := efree p g in
        free_objects fuel next g
  end.

(** The additional buffers above the [n] of the snapshot. *)
Fixpoint free_additional (n : nat) (adds : list Z) : res (list Z) :=
  if (length adds =? n)%nat then Ok adds
  else match adds with [] => Err OutOfBounds | _ :: below => free_additional n below end.

Definition set_collected (x : Z) (g : zend_gc_globals) : zend_gc_globals :=
  mkGlobals (gc_enabled g) (gc_active g) (gc_full g) (buf g) (lk g) (unused g) (first_unused g) (last_unused g)
    (next_to_free g) (additional g) (gc_runs g) x.

Definition ring_fuel (g : GC) : nat := S (size (rb_next (lk (gg g)))).

(** [if (gc_flags & GC_HAS_DESTRUCTORS) { ... }] *)
Definition run_destructors (env : genv) (g : GC) : res GC :=
  let! first := field (rb_next (lk (gg g))) LOCAL in
  let! saved := remember_refcounts (ring_fuel g) first ∅ g in
  let! g := call_destructors (ring_fuel g) first g in
  let! first := field (rb_next (lk (gg g))) LOCAL in
  remove_captured (ring_fuel g) env saved first g.

(** From the list to free on. *)
Definition free_garbage (env : genv) (flags count : Z) (snapshot : nat) (g : GC) : res (GC * Z) :=
  let! l := take_to_free (lk (gg g)) in
  let g := on_gg (set_lk l) g in
  let orig_next_to_free := next_to_free (gg g) in
  let! g := if negb (Z.land flags GC_HAS_DESTRUCTORS =? 0) then run_destructors env g else Ok g in
  let g := on_gg (set_active true) g in
  let! first := field (rb_next (lk (gg g))) LOCAL in
  let! g := destroy_zvals (ring_fuel g) first g in
  let! first := field (rb_next (lk (gg g))) LOCAL in
  let! g := free_objects (ring_fuel g) first g in
  let! adds := free_additional snapshot (additional (gg g)) in
  let g := on_gg (fun gl => set_active false (set_next_to_free orig_next_to_free
             (set_collected (u32 (collected gl + count)) (set_additional adds gl)))) g in
  Ok (g, count).

Definition zend_gc_collect_cycles (env : genv) (g : GC) : res (GC * Z) :=
  let! first := field (rb_next (lk (gg g))) ROOTS in
  if bool_decide (first = ROOTS) then Ok (g, 0)
  else if gc_active (gg g) then Ok (g, 0)
  else
    let g := on_gg (fun gl => set_active true (set_gc_runs (u32 (gc_runs gl + 1)) gl)) g in
    let! g := gc_mark_roots env g in
    let! g := gc_scan_roots env g in
    let snapshot := length (additional (gg g)) in
    let! (g, flags, count) := gc_collect_roots env g 0 in
    let g := on_gg (set_active false) g in
    let! first := field (rb_next (lk (gg g))) TO_FREE in
    if bool_decide (first = TO_FREE) then Ok (g, 0)
    else free_garbage env flags count snapshot g.
End Release.
