(* ===== verification/ObjectLoops.v ===== *)
(** * The objects store: loops over the objects ([Zend/zend_objects_API.h], [Zend/zend_objects_API.c])

    At the end of a request the destructors of all objects are called, unless a
    fatal error has marked them as called. *)
From S2P Require Export GcDestroy.

Section Loops.
Context {H : Handlers} (collect : GC -> res GC) (unclean_shutdown : bool).

(** ** Releasing and putting an object *)
Definition zend_object_store_ctor_failed (ref : addr) (g : GC) : res GC :=
  let! obj := the_object ref g in set_body ref (T_OBJECT (set_destructor_called obj)) g.

Definition zend_object_release (fuel : nat) (ref : addr) (g : GC) : res GC :=
  let! g := add_rc (-1) ref g in
  let! o := get_counted (hp g) ref in
  if gc_refcount o =? 0 then
    let! obj := the_object ref g in
    zend_objects_store_del collect unclean_shutdown (_zval_dtor_func collect unclean_shutdown fuel) ref obj g
  else if GC_MAY_LEAK o then gc_possible_root collect (_zval_dtor_func collect unclean_shutdown (S fuel)) unclean_shutdown ref g
  else Ok g.

(** ** The loops *)
Fixpoint mark_destructed_from (n : nat) (i : Z) (g : GC) : res GC :=
  match n with
  | O => Ok g
  | S n =>
      let! w := get_bucket i (objects g) in
      let! g := if IS_OBJ_VALID w then zend_object_store_ctor_failed (word_obj w) g else Ok g in
      mark_destructed_from n (i + 1) g
  end.

Definition zend_objects_store_mark_destructed (g : GC) : res GC :=
  if isSome (object_buckets (objects g)) && (1 <? top (objects g)) then mark_destructed_from (Z.to_nat (top (objects g) - 1)) 1 g
  else Ok g.

(** A destructor may create objects, so [top] is read in each round. *)
Fixpoint call_destructors_from (fuel : nat) (i : Z) (g : GC) {struct fuel} : res GC :=
  match fuel with
  | O => Err OutOfFuel
  | S fuel =>
      if i <? top (objects g) then
        let! w := get_bucket i (objects g) in
        let! g :=
          if IS_OBJ_VALID w then let! obj := the_object (word_obj w) g in call_destructor (word_obj w) obj g else Ok g in
        call_destructors_from fuel (u32 (i + 1)) g
      else Ok g
  end.

Definition zend_objects_store_call_destructors (fuel : nat) (g : GC) : res GC :=
  let g := set_objects (set_no_reuse true (objects g)) g in
  if 1 <? top (objects g) then call_destructors_from fuel 1 g else Ok g.

(** [std_free_obj]: the handler [free_obj] is [zend_object_std_dtor], which a
    fast shutdown does not call.  The last bucket comes first. *)
Context (std_free_obj : zend_object -> bool).

Definition free_storage (fuel : nat) (fast_shutdown : bool) (ref : addr) (obj : zend_object) (g : GC) : res GC :=
  if fast_shutdown && std_free_obj obj then
    if obj_free_called obj then Ok g else set_body ref (T_OBJECT (set_free_called obj)) g
  else call_free_obj collect unclean_shutdown (_zval_dtor_func collect unclean_shutdown fuel) ref obj g.

Fixpoint free_storage_from (n fuel : nat) (fast_shutdown : bool) (g : GC) : res GC :=
  match n with
  | O => Ok g
  | S n =>
      let! w := get_bucket (Z.of_nat (S n)) (objects g) in
      let! g :=
        if IS_OBJ_VALID w then let! obj := the_object (word_obj w) g in free_storage fuel fast_shutdown (word_obj w) obj g
        else Ok g in
      free_storage_from n fuel fast_shutdown g
  end.

Definition zend_objects_store_free_object_storage (fuel : nat) (fast_shutdown : bool) (g : GC) : res GC :=
  if top (objects g) <=? 1 then Ok g else free_storage_from (Z.to_nat (top (objects g) - 1)) fuel fast_shutdown g.

(** ** What the store refers to *)

(** The buckets below [top] are written, and a valid one is that of an object. *)
Record objects_ok (g : GC) : Prop := mkObjectsOk {
  ok_written h : 1 <= h < top (objects g) -> exists w, get_bucket h (objects g) = Ok w /\
    (IS_OBJ_VALID w = true -> exists x o obj, w = obj_word x /\ hp g !! x = Some o /\ body o = T_OBJECT obj);
  ok_top : top (objects g) < 2 ^ 31;
  ok_buckets : isSome (object_buckets (objects g)) = true
}.

(** The object of a bucket from [i] to [j]. *)
Definition in_buckets (g : GC) (i j : Z) (x : addr) : Prop := exists h, i <= h < j /\ get_bucket h (objects g) = Ok (obj_word x).

Definition mark (o : refcounted) : refcounted :=
  match body o with T_OBJECT obj => mkCounted (gc_refcount o) (gc_info o) (T_OBJECT (set_destructor_called obj)) | _ => o end.

Lemma mark_twice o : mark (mark o) = mark o.
Proof. unfold mark. destruct o as [n i [obj|used|v| |]]; done. Qed.

(** [g'] is [g] with the objects of the buckets from [i] to [j] marked. *)
Record marked_between (g : GC) (i j : Z) (g' : GC) : Prop := mkMarkedBetween {
  mb_gg : gg g' = gg g;
  mb_objects : objects g' = objects g;
  mb_in x : in_buckets g i j x -> hp g' !! x = mark <$> hp g !! x;
  mb_out x : ~ in_buckets g i j x -> hp g' !! x = hp g !! x
}.

Lemma marked_objects_ok g i j g' : marked_between g i j g' -> (forall x, in_buckets g i j x \/ ~ in_buckets g i j x) -> objects_ok g -> objects_ok g'.
Proof.
  intros M Hdec [a b c]. split; rewrite ?(mb_objects _ _ _ _ M); [|done|done]. intros h Hh. destruct (a h Hh) as (w & Hw & Hv). exists w.
  split; [done|]. intros V. destruct (Hv V) as (x & o & obj & -> & Ho & Eb). destruct (Hdec x) as [Hin|Hin].
  - exists x, (mark o), (set_destructor_called obj). rewrite (mb_in _ _ _ _ M x Hin), Ho. split; [done|]. split; [done|]. unfold mark. by rewrite Eb.
  - exists x, o, obj. by rewrite (mb_out _ _ _ _ M x Hin).
Qed.

Lemma bucket_decidable g i j x : in_buckets g i j x \/ ~ in_buckets g i j x.
Proof.
  assert (Hd : forall n, in_buckets g i (i + Z.of_nat n) x \/ ~ in_buckets g i (i + Z.of_nat n) x).
  { induction n as [|n [IH|IH]]; [right; intros (h & ? & _); lia | left; destruct IH as (h & ? & ?); exists h; split; [lia | done] |].
    assert (get_bucket (i + Z.of_nat n) (objects g) = Ok (obj_word x) \/ get_bucket (i + Z.of_nat n) (objects g) <> Ok (obj_word x)) as [E|E]; [|left; exists (i + Z.of_nat n); split; [lia | done]|].
    { destruct (get_bucket _ _) as [w|]; [|by right]. destruct (Z.eq_dec w (obj_word x)) as [->|Hn]; [by left | right; by intros [= ?]]. }
    right. intros (h & Hh & Eh). destruct (Z.eq_dec h (i + Z.of_nat n)) as [->|]; [done|]. apply IH. exists h. split; [lia | done]. }
  destruct (Z.le_gt_cases i j); [|right; intros (h & ? & _); lia]. specialize (Hd (Z.to_nat (j - i))). replace (i + Z.of_nat (Z.to_nat (j - i))) with j in Hd by lia. done.
Qed.

Lemma mark_from_ok n : forall i g, objects_ok g -> 1 <= i -> i + Z.of_nat n = top (objects g) ->
  exists g', mark_destructed_from n i g = Ok g' /\ marked_between g i (top (objects g)) g'.
Proof.
  induction n as [|n IH]; intros i g Hok Hi Hn; cbn [mark_destructed_from].
  { exists g. split; [done|]. split; try done. intros x (h & Hh & _). lia. }
  destruct (ok_written _ Hok i ltac:(lia)) as (w & Hw & Hv). rewrite Hw. rsimp. destruct (IS_OBJ_VALID w) eqn:V.
  - destruct (Hv eq_refl) as (x & o & obj & -> & Ho & Eb). rewrite word_obj_word. unfold zend_object_store_ctor_failed, the_object, set_body.
    rewrite (get_counted_ok _ _ _ Ho). rsimp. rewrite Eb. rsimp. set (g1 := set_hp _ g).
    assert (M1 : marked_between g i (i + 1) g1).
    { split; try done.
      - intros y (h & Hh & Ey). assert (h = i) as -> by lia. assert (Exy : obj_word x = obj_word y) by congruence.
        apply obj_word_inj in Exy. subst y.
        cbn [g1 set_hp hp]. rewrite lookup_insert_eq, Ho. simpl. unfold mark. by rewrite Eb.
      - intros y Hy. cbn [g1 set_hp hp]. apply lookup_insert_ne. intros <-. apply Hy. exists i. split; [lia | done]. }
    destruct (IH (i + 1) g1) as (g' & E & M); [by apply (marked_objects_ok g i (i + 1)); [| apply bucket_decidable|] | lia | cbn [g1 set_hp objects]; lia |].
    exists g'. split; [exact E|]. destruct M as [m1 m2 m3 m4], M1 as [k1 k2 k3 k4]. split; [done|done| |].
    + intros y (h & Hh & Ey). destruct (bucket_decidable g i (i + 1) y) as [Hy|Hy], (bucket_decidable g (i + 1) (top (objects g)) y) as [Hz|Hz].
      * rewrite (m3 y Hz), (k3 y Hy). destruct (hp g !! y); simpl; [by rewrite mark_twice | done].
      * by rewrite (m4 y Hz), (k3 y Hy).
      * by rewrite (m3 y Hz), (k4 y Hy).
      * destruct (Z.eq_dec h i); [destruct Hy; exists h; split; [lia | done] | destruct Hz; exists h; split; [lia | done]].
    + intros y Hy. rewrite m4, k4; [done | |]; intros (h & Hh & Ey); apply Hy; exists h; (split; [|done]).
      * lia.
      * cbn [g1 set_hp objects] in Hh. lia.
  - rsimp. destruct (IH (i + 1) g Hok) as (g' & E & M); [lia | lia |]. exists g'. split; [exact E|]. destruct M as [m1 m2 m3 m4].
    split; [done|done| |].
    + intros y (h & Hh & Ey). apply m3. exists h. split; [|done]. assert (h <> i); [|lia]. intros ->.
      assert (Ew : w = obj_word y) by congruence. by rewrite Ew, obj_word_valid in V.
    + intros y Hy. apply m4. intros (h & Hh & Ey). apply Hy. exists h. split; [lia | done].
Qed.

Lemma mark_destructed_ok g : objects_ok g -> exists g', zend_objects_store_mark_destructed g = Ok g' /\ marked_between g 1 (top (objects g)) g'.
Proof.
  intros Hok. unfold zend_objects_store_mark_destructed. rewrite (ok_buckets _ Hok). simpl. destruct (Z.ltb_spec 1 (top (objects g))) as [Ht|Ht].
  - apply mark_from_ok; [done | lia | lia].
  - exists g. split; [done|]. split; try done. intros x (h & Hh & _). lia.
Qed.

(** Where every object is marked no destructor runs. *)
Definition all_marked (g : GC) : Prop := forall h, 1 <= h < top (objects g) -> exists w, get_bucket h (objects g) = Ok w /\
  (IS_OBJ_VALID w = true -> exists o obj, hp g !! word_obj w = Some o /\ body o = T_OBJECT obj /\ obj_destructor_called obj = true).

Lemma call_marked fuel : forall i g, all_marked g -> top (objects g) < 2 ^ 31 -> 1 <= i -> (Z.to_nat (top (objects g) - i) < fuel)%nat ->
  call_destructors_from fuel i g = Ok g.
Proof.
  induction fuel as [|fuel IH]; intros i g Ha Ht Hi Hf; [lia|]. cbn [call_destructors_from]. destruct (Z.ltb_spec i (top (objects g))) as [Hl|]; [|done].
  destruct (Ha i ltac:(lia)) as (w & Hw & Hv). rewrite Hw. rsimp. rewrite u32_small by lia. destruct (IS_OBJ_VALID w); [|rsimp; apply IH; [done | done | lia | lia]].
  destruct (Hv eq_refl) as (o & obj & Ho & Eb & Ed). unfold the_object. rewrite (get_counted_ok _ _ _ Ho). rsimp. rewrite Eb. rsimp.
  unfold call_destructor. rewrite Ed. rsimp. apply IH; [done | done | lia | lia].
Qed.

Lemma marked_all g g' : objects_ok g -> marked_between g 1 (top (objects g)) g' -> all_marked g'.
Proof.
  intros Hok M h. rewrite (mb_objects _ _ _ _ M). intros Hh. destruct (ok_written _ Hok h Hh) as (w & Hw & Hv). exists w. split; [done|].
  intros V. destruct (Hv V) as (x & o & obj & -> & Ho & Eb). rewrite word_obj_word. exists (mark o), (set_destructor_called obj).
  rewrite (mb_in _ _ _ _ M) by (by exists h). rewrite Ho. split; [done|]. unfold mark. by rewrite Eb.
Qed.
End Loops.

(** Releasing an object is releasing a value that holds it. *)
Lemma object_release_agrees {H : Handlers} collect unclean fuel ref g o obj : hp g !! ref = Some o -> body o = T_OBJECT obj ->
  zend_object_release collect unclean fuel ref g = i_zval_ptr_dtor collect unclean (_zval_dtor_func collect unclean (S fuel)) (GV_COUNTED ref) g.
Proof.
  intros Ho Eb. unfold zend_object_release, i_zval_ptr_dtor, add_rc, add_refcount. rewrite (get_counted_ok _ _ _ Ho). rsimp.
  set (o' := set_refcount _ o). set (g1 := set_hp _ g). assert (Ho' : hp g1 !! ref = Some o') by apply lookup_insert_eq.
  rewrite (get_counted_ok _ _ _ Ho'). rsimp. unfold the_object. cbn [_zval_dtor_func]. unfold gc_check_possible_root.
  rewrite (get_counted_ok _ _ _ Ho'). rsimp. change (body o') with (body o). rewrite Eb. rsimp. done.
Qed.

(** After [zend_objects_store_mark_destructed] every object of the store
    has the flag of called destructors and nothing else has changed; calling
    the destructors afterwards runs no destructor and only forbids the reuse of
    handles. *)
Theorem marked_objects_not_destructed {H : Handlers} g fuel : objects_ok g -> top (objects g) <= Z.of_nat fuel ->
  exists g', zend_objects_store_mark_destructed g = Ok g' /\ marked_between g 1 (top (objects g)) g' /\
    zend_objects_store_call_destructors fuel g' = Ok (set_objects (set_no_reuse true (objects g')) g').
Proof.
  intros Hok Hf. destruct (mark_destructed_ok g Hok) as (g' & E & M). exists g'. split; [exact E|]. split; [exact M|].
  unfold zend_objects_store_call_destructors. set (g1 := set_objects _ g'). destruct (1 <? top (objects g1)) eqn:E1; [|done].
  pose proof (mb_objects _ _ _ _ M) as Eo. assert (Et : top (objects g1) = top (objects g)) by (cbn; by rewrite Eo).
  apply call_marked; [| rewrite Et; apply Hok | lia | rewrite Et; lia].
  exact (marked_all g g' Hok M).
Qed.

(** C16: [zend_objects_store_put] takes the handle of the object from the head
    of the free list and leaves the rest of the list, or, when the list is
    empty or the store is in shutdown ([EG_FLAGS_OBJECT_STORE_NO_REUSE]), from
    the end of the store, which it doubles when it is full; no other object has
    this handle, and the other objects keep theirs. *)
Theorem zend_objects_store_put_correct ref g obj fl : the_object ref g = Ok obj -> store_wf (objects g) fl -> store_size (objects g) < 2 ^ 29 ->
  exists h g' fl', zend_objects_store_put ref g = Ok g' /\ the_object ref g' = Ok (set_handle h obj) /\
    (forall x, x <> ref -> hp g' !! x = hp g !! x) /\ takes_handle (objects g) (objects g') fl fl' h /\
    store_wf (objects g') fl' /\ live_at (objects g') h ref /\ (h ∉ fl') /\
    forall k x, live_at (objects g) k x -> k <> h /\ live_at (objects g') k x.
Proof.
  intros Eobj W Hsz. destruct (store_put_ok (objects g) fl ref W Hsz) as (h & s & fl' & E & W' & Htk & Hl & Hn & Hk).
  unfold zend_objects_store_put. rewrite Eobj, E. rsimp. unfold the_object, get_counted in Eobj.
  destruct (hp g !! ref) as [o|] eqn:Ho; [|done]. unfold set_body, get_counted. cbn [set_objects hp]. rewrite Ho. rsimp.
  do 3 eexists. split; [done|]. cbn [set_hp hp objects]. split; [by unfold the_object, get_counted; cbn [set_hp hp]; rewrite lookup_insert_eq|].
  split; [intros x Hx; by apply lookup_insert_ne|]. split; [exact Htk|]. split; [exact W'|]. split; [exact Hl|]. by split.
Qed.
