(* ===== verification/GcRelease.v ===== *)
(** * The cycle collector: releasing the references of garbage

    While garbage is destroyed, the list to free hangs on the stack of
    [zend_gc_collect_cycles].  The structures on it that are done are husks of
    type [IS_NULL]; what a release brings to zero is destroyed at once and
    leaves the list. *)
From S2P Require Export GcDestroy.

(** ** The buffer with its local list *)
Record local_bufs (g : zend_gc_globals) (ps us : list rootp) : Prop := mkLocal {
  lb_bufs : bufs_ok g [] [] us;
  lb_ring : ring (lk g) LOCAL ps;
  lb_valid : forall p, p ∈ ps -> valid_entry g p;
  lb_nodup : NoDup (ps ++ us)
}.

Lemma valid_not_local g p : valid_entry g p -> p <> LOCAL.
Proof. by destruct p. Qed.

Lemma empty_ring_frame l l' h touched : ring l h [] -> links_frame l l' touched -> h ∉ touched -> ring l' h [].
Proof.
  intros R F Hh. apply (ring_frame _ _ _ _ _ R F). intros p Hp. split; [by intros ->|]. apply not_elem_of_nil.
Qed.

Lemma take_to_free_ok g p ps us : bufs_ok g [] (p :: ps) us ->
  exists l, take_to_free (lk g) = Ok l /\ local_bufs (set_lk l g) (p :: ps) us /\ rb_ref l = rb_ref (lk g).
Proof.
  intros B. assert (Hv : forall q, q ∈ (p :: ps) ++ us -> q <> ROOTS /\ q <> TO_FREE /\ q <> LOCAL).
  { intros q Hq. apply (bo_valid _ _ _ _ B) in Hq. split; [|split]; [apply (head_not_valid _ _ Hq).. | by apply (valid_not_local g)]. }
  assert (Hp : p <> ROOTS /\ p <> TO_FREE /\ p <> LOCAL) by (apply Hv, elem_of_app; left; left).
  assert (Hva : forall q, q ∈ (p :: ps) ++ us -> valid_entry g q) by apply (bo_valid _ _ _ _ B).
  assert (Hnd : NoDup ((p :: ps) ++ us)) by apply (bo_nodup _ _ _ _ B).
  destruct (bo_free _ _ _ _ B) as [S N]. inversion_clear N as [|? ? Nt Np]. inversion_clear Np as [|? ? Npp Nps].
  pose proof (segment_prev _ _ _ _ S) as P. simpl in S. destruct S as (S1 & S2 & S).
  set (last := List.last (p :: ps) TO_FREE) in *.
  assert (Hlast : last = List.last ps p) by (unfold last; destruct ps as [|y ?]; [done | apply (last_default y)]).
  assert (Hlin : last ∈ p :: ps).
  { rewrite Hlast, elem_of_cons. destruct (last_cases ps p); [by left | by right]. }
  assert (Hl : last <> ROOTS /\ last <> TO_FREE /\ last <> LOCAL) by (apply Hv, elem_of_app; by left).
  unfold take_to_free. rewrite (field_ok _ _ _ S1). rsimp. cbn [set_next rb_prev]. rewrite (field_ok _ _ _ P). rsimp.
  cbn [set_prev set_next rb_next]. rewrite (field_ok _ LOCAL p) by apply lookup_insert_eq. rsimp. cbn [set_prev set_next rb_prev].
  rewrite (field_ok _ LOCAL (Some last)) by (rewrite lookup_insert_ne by tauto; apply lookup_insert_eq). rsimp. cbn [deref_root rbind].
  eexists. split; [done|]. split; [|done]. split.
  - split; simpl; try apply B.
    + destruct (bo_roots _ _ _ _ B) as [[R1 R2] _]. split; [|constructor; [apply not_elem_of_nil | constructor]]. simpl.
      rewrite !lookup_insert_ne by (done || tauto || (apply not_eq_sym; tauto)). done.
    + split; [|constructor; [apply not_elem_of_nil | constructor]]. simpl. by rewrite !lookup_insert_eq.
    + apply (unused_frame (lk g)); [apply B|]. intros u Hu. simpl.
      assert (u <> p) by (intros ->; apply NoDup_app in Hnd as (_ & N & _); apply (N p); [left | done]).
      destruct (Hv u) as (? & ? & ?); [apply elem_of_app; by right|]. by rewrite !lookup_insert_ne by done.
    + intros q Hq. apply (Hva q), elem_of_app. by right.
    + by apply NoDup_app in Hnd as (_ & _ & N).
  - split; [|constructor; [|by constructor]].
    2: { intros Hin. destruct (Hv LOCAL) as (_ & _ & ?); [apply elem_of_app; by left | done]. }
    assert (G : segment (set_next last LOCAL (set_prev LOCAL (Some last) (lk g))) p ps LOCAL).
    { rewrite Hlast. apply (segment_retail (lk g) p ps TO_FREE LOCAL S); [by constructor|].
      intros Hin. destruct (Hv LOCAL) as (_ & _ & ?); [apply elem_of_app; by left | done]. }
    assert (Hn : forall q, q = p \/ q ∈ ps -> q <> TO_FREE /\ q <> LOCAL).
    { intros q Hq. destruct (Hv q) as (_ & ? & ?); [|done]. apply elem_of_app. left. by apply elem_of_cons. }
    split; simpl.
    + rewrite lookup_insert_ne by done. rewrite lookup_insert_ne by tauto. apply lookup_insert_eq.
    + split; [rewrite lookup_insert_ne by (apply not_eq_sym; tauto); apply lookup_insert_eq|]. apply (segment_frame _ _ _ _ _ G); simpl; intros q Hq.
      * apply Hn in Hq as [? ?]. rewrite lookup_insert_ne by done.
        destruct (decide (q = last)) as [->|Hql]; [by rewrite !lookup_insert_eq | by rewrite !(lookup_insert_ne _ last), lookup_insert_ne].
      * assert (Hqp : q <> p) by (intros ->; destruct Hq; [done | tauto]). assert (q <> TO_FREE) by (destruct Hq as [Hq| ->]; [by apply Hn; right | done]).
        rewrite (lookup_insert_ne _ TO_FREE) by congruence. rewrite (lookup_insert_ne _ p) by congruence.
        destruct (decide (q = LOCAL)) as [->|]; [by rewrite !lookup_insert_eq | by rewrite !lookup_insert_ne by congruence].
  - intros q Hq. apply (Hva q), elem_of_app. by left.
  - done.
Qed.

(** What the removal of the entry [x] leaves. *)
Record dropped (g : zend_gc_globals) (x : rootp) (ps us : list rootp) (g' : zend_gc_globals) : Prop := mkDropped {
  dr_ok : local_bufs g' ps us;
  dr_ref : rb_ref (lk g') = rb_ref (lk g);
  dr_next : rb_next (lk g') !! x = rb_next (lk g) !! x;
  dr_to_free : next_to_free g' = next_to_free g;
  dr_active : gc_active g' = gc_active g;
  dr_additional : additional g' = additional g
}.

Lemma remove_local_ok g ps1 x ps2 us : local_bufs g (ps1 ++ x :: ps2) us ->
  exists g' us', remove_entry x g = Ok g' /\ dropped g x (ps1 ++ ps2) us' g'.
Proof.
  intros [B R V N]. destruct (unlink_root_ok _ _ _ _ _ R) as (l & E & R' & F & Hnext).
  assert (Hv : valid_entry g x) by (apply V; rewrite elem_of_app, elem_of_cons; auto).
  assert (Hsub : forall p, p ∈ ps1 ++ ps2 -> p ∈ ps1 ++ x :: ps2).
  { intros p. rewrite !elem_of_app, elem_of_cons. tauto. }
  assert (Hperm : (ps1 ++ x :: ps2) ++ us ≡ₚ x :: (ps1 ++ ps2) ++ us) by (rewrite <- Permutation_middle; done).
  rewrite Hperm in N. inversion_clear N as [|? ? Nx N']. pose proof N' as N0. apply NoDup_app in N0 as (_ & Nd & _).
  rewrite not_elem_of_app in Nx. destruct Nx as [Nx Nu].
  assert (Ht : forall p, p ∈ LOCAL :: ps1 ++ ps2 -> p <> ROOTS /\ p <> TO_FREE).
  { intros p [->|Hp]%elem_of_cons; [done|]. by apply (head_not_valid g), V, Hsub. }
  assert (Hus : unused_chain l (unused g) us).
  { eapply unused_frame; [apply B|]. intros u Hu. apply (lf_prev _ _ _ F). rewrite not_elem_of_cons. split.
    - apply (valid_not_local g), (bo_valid _ _ _ _ B). by rewrite !elem_of_app; auto.
    - intros Hin. by apply (Nd u). }
  assert (Hro : ring l ROOTS [] /\ ring l TO_FREE []).
  { split; (eapply empty_ring_frame; [apply B | exact F |]); intros Hin; by apply Ht in Hin as []. }
  destruct Hro as [Hr Hf]. unfold remove_entry.
  rewrite (buf_test g) by (first [done | destruct (bo_size _ _ _ _ B) as (f & ? & _ & ?); by exists f]).
  destruct x as [| |i|b i|]; try done.
  - unfold gc_remove_from_roots. rewrite E. rsimp. eexists. exists (BUF i :: us). split; [done|].
    split; simpl; [|by rewrite (lf_ref _ _ _ F) | | done..].
    2: { rewrite (lf_next _ _ _ F); [done|]. by rewrite not_elem_of_cons. }
    split; simpl.
    + split; simpl; [apply B| | | | | | |].
      * destruct Hr as [S Nr]. split; [|done]. apply (segment_frame l); [done|done|]. intros p Hp. apply lookup_insert_ne. intros <-. destruct Hp as [Hp|?]; [by apply not_elem_of_nil in Hp | done].
      * destruct Hf as [S Nr]. split; [|done]. apply (segment_frame l); [done|done|]. intros p Hp. apply lookup_insert_ne. intros <-. destruct Hp as [Hp|?]; [by apply not_elem_of_nil in Hp | done].
      * split; [done|]. exists (unused g). rewrite lookup_insert_eq. split; [done|].
        eapply unused_frame; [exact Hus|]. intros u Hu. apply lookup_insert_ne. by intros <-.
      * intros p [->|Hp]%elem_of_cons; [done|]. by apply (bo_valid _ _ _ _ B p).
      * intros p [->|Hp]%elem_of_cons; [done|]. by apply (bo_buf _ _ _ _ B p).
      * constructor; [done|]. by apply (bo_nodup _ _ _ _ B).
      * apply B.
    + destruct R' as [S Nr]. split; [|done]. apply (segment_frame l); [done|done|]. intros p Hp. apply lookup_insert_ne.
      intros <-. by destruct Hp.
    + intros p Hp. by apply V, Hsub.
    + assert (Ep : (ps1 ++ ps2) ++ BUF i :: us ≡ₚ BUF i :: (ps1 ++ ps2) ++ us) by (by rewrite Permutation_middle).
      rewrite Ep. constructor; [|done]. rewrite elem_of_app. tauto.
  - unfold gc_remove_from_additional_roots. rewrite E. rsimp. eexists. exists us. split; [done|].
    split; simpl; [|by rewrite (lf_ref _ _ _ F) | | done..].
    2: { rewrite (lf_next _ _ _ F); [done|]. by rewrite not_elem_of_cons. }
    split; [by split; try apply B | done | | done]. intros p Hp. by apply V, Hsub.
Qed.

(** The entries of the additional buffers: written, each for another structure. *)
Record adds_ok (g : zend_gc_globals) : Prop := mkAddsOk {
  ad_ref p : in_add p -> valid_entry g p -> is_Some (rb_ref (lk g) !! p);
  ad_inj p q r : in_add p -> in_add q -> valid_entry g p -> valid_entry g q ->
    rb_ref (lk g) !! p = Some r -> rb_ref (lk g) !! q = Some r -> p = q
}.

Lemma adds_same g g' : rb_ref (lk g') = rb_ref (lk g) -> additional g' = additional g -> adds_ok g -> adds_ok g'.
Proof.
  intros Er Ea [R I]. assert (Hv : forall p, in_add p -> valid_entry g' p -> valid_entry g p).
  { intros [| |i|b i|]; try done. cbn. by rewrite Ea. }
  split; rewrite Er; [auto|]. intros p q r Hp Hq Hvp Hvq. apply I; auto.
Qed.

(** The search through the additional buffers finds the entry. *)
Lemma find_additional_ok g b i r : adds_ok g -> valid_entry g (ADD b i) -> i < 2 ^ 14 -> rb_ref (lk g) !! ADD b i = Some r ->
  find_additional (lk g) (additional g) (GC_ROOT_BUFFER_MAX_ENTRIES + i) r = Ok (ADD b i).
Proof.
  intros [R I] Hv Hi Hr. pose proof Hv as (n & used & -> & Hn & Hu).
  assert (Hsuf : forall adds pre, additional g = pre ++ adds -> (n < length adds)%nat ->
    find_additional (lk g) adds (GC_ROOT_BUFFER_MAX_ENTRIES + i) r = Ok (ADD (Z.of_nat n) i)).
  2: { apply (Hsuf (additional g) []); [done|]. apply lookup_lt_Some in Hn. by rewrite length_rev in Hn. }
  induction adds as [|u below IH]; intros pre Ea Hl; simpl in Hl; [lia|]. cbn [find_additional].
  replace (GC_ROOT_BUFFER_MAX_ENTRIES + i - GC_ROOT_BUFFER_MAX_ENTRIES) with i by lia. rewrite u32_small by lia.
  assert (Hlk : rev (additional g) !! length below = Some u).
  { rewrite Ea, rev_app_distr. simpl. rewrite <- app_assoc, lookup_app_r by (by rewrite length_rev). by rewrite length_rev, Nat.sub_diag. }
  assert (Hnext : n <> length below -> find_additional (lk g) below (GC_ROOT_BUFFER_MAX_ENTRIES + i) r = Ok (ADD (Z.of_nat n) i)).
  { intros Hne. apply (IH (pre ++ [u])); [by rewrite <- app_assoc | lia]. }
  destruct (Z.ltb_spec i u) as [Hlt|Hge].
  - assert (Hva : valid_entry g (ADD (Z.of_nat (length below)) i)) by (exists (length below), u; split; [done|]; split; [done | lia]).
    destruct (R (ADD (Z.of_nat (length below)) i) Logic.I Hva) as [r' Hr']. rewrite (field_ok _ _ _ Hr'). rsimp. case_bool_decide as E.
    + subst r'. f_equal. exact (I (ADD (Z.of_nat (length below)) i) (ADD (Z.of_nat n) i) r Logic.I Logic.I Hva Hv Hr' Hr).
    + apply Hnext. intros ->. rewrite Hr in Hr'. by injection Hr'.
  - apply Hnext. intros ->. rewrite Hn in Hlk. injection Hlk as ->. lia.
Qed.

(** ** The handlers of the garbage *)

(** Strings and the like are freed, and what [free_obj] releases does not depend
    on whether the destructor has been called. *)
Class HandlersOk `{Handlers} : Prop := {
  other_frees : forall x g, other_dtor x g = efree x g;
  free_obj_flag : forall obj, free_obj_values (set_destructor_called obj) = free_obj_values obj
}.

(** The values that [free_obj] releases are those that [get_gc] shows. *)
Definition frees_shown `{Handlers} (env : genv) (x : addr) (obj : zend_object) : Prop := forall l,
  kids_of env x (T_OBJECT obj) = Ok l -> obj_free_called obj = false ->
  if has_free_obj obj then omap counted (free_obj_values obj) ≡ₚ l else l = [].

Lemma shown_flag `{HandlersOk} env x obj : frees_shown env x obj -> frees_shown env x (set_destructor_called obj).
Proof. intros Hs l Hl Hf. specialize (Hs l Hl Hf). simpl. by rewrite free_obj_flag. Qed.

Definition direct (v : gval) : bool := match v with GV_INDIRECT _ => false | _ => true end.
Definition handle_of (b : gc_body) : option Z := match b with T_OBJECT obj => Some (handle obj) | _ => None end.
Definition listable (b : gc_body) : bool := match b with T_OBJECT _ | T_ARRAY _ => true | _ => false end.

Lemma direct_values env used : forallb direct used = true -> ht_values env used = Ok used.
Proof.
  induction used as [|v used IH]; [done|]. cbn [forallb ht_values]. intros [Hv Hu]%andb_prop. rewrite IH by done. by destruct v.
Qed.

Section Phase.
Context {H : Handlers} (env : genv) (h0 : heap) (Hok : heap_ok env h0) {L : HandlersOk}.
Abbreviation K := (kids env h0).
Abbreviation table := (symbol_table env).
Abbreviation body0 := (body0 h0).

(** The garbage: it refers to itself only, and has the shape of PHP's values. *)
Record waste (Gs : list addr) : Prop := mkWaste {
  wa_nodup : NoDup Gs;
  wa_in x : x ∈ Gs -> in_heap h0 x /\ x <> table;
  wa_closed x y : x ∈ Gs -> x ∈ K y -> y ∈ Gs;
  wa_count x : x ∈ Gs -> rc h0 x = occ x (flat_map K Gs);
  wa_other y : y ∉ Gs -> y ∈ flat_map K Gs -> occ y (flat_map K Gs) < rc h0 y;
  wa_array x used : x ∈ Gs -> body0 x = T_ARRAY used -> forallb direct used = true;
  wa_ref x r v : x ∈ Gs -> body0 x = T_REFERENCE (GV_COUNTED r) -> body0 r <> T_REFERENCE v;
  wa_null x : x ∈ Gs -> body0 x <> T_NULL;
  wa_quiet x : x ∈ Gs -> forall g, dtor_obj x g = Ok g;
  wa_frees x obj : x ∈ Gs -> body0 x = T_OBJECT obj -> frees_shown env x obj
}.
Context (Gs : list addr) (Waste : waste Gs).

(** References from outside the garbage. *)
Definition base (y : addr) : Z := rc h0 y - occ y (flat_map K Gs).

(** [A]: garbage that still holds its references; [N]: the husks, at the entries
    [ds]; [Ts]: the rest of the list, at the entries [ts]; [W]: references that
    are being released; [fl]: the free handles. *)
Record phase (s : GC) (A N Ts W : list addr) (ds ts us : list rootp) (fl : list Z) : Prop := mkPhase {
  ph_bufs : local_bufs (gg s) (ds ++ ts) us;
  ph_adds : adds_ok (gg s);
  ph_done : Forall2 (fun p r => rb_ref (lk (gg s)) !! p = Some r /\ addr_of (hp s) r = entry_index p) ds N;
  ph_todo : Forall2 (fun p r => rb_ref (lk (gg s)) !! p = Some r /\ addr_of (hp s) r = entry_index p) ts Ts;
  ph_all x : addr_of (hp s) x <> 0 -> x ∈ N ++ Ts;
  ph_listed : NoDup (N ++ Ts);
  ph_next : next_to_free (gg s) = Some (hd LOCAL ts);
  ph_active : gc_active (gg s) = true;
  ph_nodup : NoDup (A ++ N);
  ph_garbage x : x ∈ A ++ N \/ x ∈ Ts -> x ∈ Gs;
  ph_collects x : x ∈ A -> collects (body0 x) = true -> x ∈ Ts;
  ph_kinds x : x ∈ Ts -> listable (body0 x) = true;
  ph_alive x : x ∈ A \/ x ∉ Gs -> body <$> hp s !! x = body <$> h0 !! x;
  ph_husk x : x ∈ N -> body <$> hp s !! x = Some T_NULL;
  ph_info y : y ∉ Gs -> info (hp s) y = info h0 y;
  ph_count y : y ∈ A \/ y ∉ Gs -> rc (hp s) y = base y + occ y (flat_map K A ++ W);
  ph_gone y : y ∈ Gs -> y ∉ A ++ N -> occ y (flat_map K A ++ W) = 0;
  ph_bound y : occ y (flat_map K A ++ W) <= occ y (flat_map K Gs);
  ph_store : store_wf (objects s) fl;
  ph_handles x h : x ∈ A \/ x ∉ Gs -> handle_of (body0 x) = Some h -> live_at (objects s) h x
}.

(** What a release did: [A'] are left of [A]. *)
Record released (s : GC) (A N Ts : list addr) (fl : list Z) (s' : GC) (A' Ts' : list addr) (fl' : list Z) : Prop := mkReleased {
  re_alive x : x ∈ A' -> x ∈ A;
  re_frame y : y ∈ Gs -> y ∉ A ++ N -> hp s' !! y = hp s !! y;
  re_keep x : x ∈ Ts -> x ∉ A \/ x ∈ A' -> x ∈ Ts';
  re_sub x : x ∈ Ts' -> x ∈ Ts;
  re_left x : x ∈ Ts' -> x ∈ A -> x ∈ A';
  re_gone x : x ∈ Gs -> x ∈ A -> x ∉ A' ++ N -> hp s' !! x = None;
  re_free h : h ∈ fl' <-> h ∈ fl \/ exists x, x ∈ A /\ (x ∉ A') /\ handle_of (body0 x) = Some h;
  re_top : top (objects s') = top (objects s)
}.

Lemma released_refl s A N Ts fl : released s A N Ts fl s A Ts fl.
Proof.
  split; try done.
  - intros x _ Hx Hn. destruct Hn. apply elem_of_app. by left.
  - intros h. split; [by left|]. intros [?|(x & ? & ? & _)]; done.
Qed.

Lemma released_trans s1 A1 N Ts1 fl1 s2 A2 Ts2 fl2 s3 A3 Ts3 fl3 :
  released s1 A1 N Ts1 fl1 s2 A2 Ts2 fl2 -> released s2 A2 N Ts2 fl2 s3 A3 Ts3 fl3 -> released s1 A1 N Ts1 fl1 s3 A3 Ts3 fl3.
Proof.
  intros [a1 b1 c1 d1 e1 i1 f1 g1] [a2 b2 c2 d2 e2 i2 f2 g2]. split; [.. | by rewrite g2].
  - auto.
  - intros y Hy Hn. rewrite b2; [by apply b1 | done|]. rewrite not_elem_of_app in *. destruct Hn. auto.
  - intros x Hx Hc. apply c2; [apply c1; [done|]|]; destruct Hc as [?|?]; auto.
  - auto.
  - intros x Hx Hc. apply e2; [done|]. apply e1; auto.
  - intros x Hg Hx Hn. destruct (decide (x ∈ A2)) as [H2|H2]; [by apply i2|].
    assert (x ∉ A2 ++ N) by (rewrite not_elem_of_app in *; tauto). rewrite b2 by done. by apply i1.
  - intros h. rewrite f2, f1. split.
    + intros [[?|(x & ? & ? & ?)]|(x & ? & ? & ?)]; naive_solver.
    + intros [?|(x & H1 & H2 & H3)]; [auto|]. destruct (decide (x ∈ A2)); [right; by exists x | left; right; by exists x].
Qed.

Lemma base_nonneg y : 0 <= base y.
Proof.
  unfold base. destruct (decide (y ∈ Gs)) as [Hy|Hy]; [rewrite (wa_count _ Waste y Hy); lia|].
  destruct (decide (y ∈ flat_map K Gs)) as [Hk|Hk]; [pose proof (wa_other _ Waste y Hy Hk); lia|].
  rewrite (occ_notin _ _ Hk). pose proof (ho_count _ _ Hok y). lia.
Qed.

Lemma base_garbage y : y ∈ Gs -> base y = 0.
Proof. intros Hy. unfold base. rewrite (wa_count _ Waste y Hy). lia. Qed.

Lemma phase_range s A N Ts W ds ts us fl y : phase s A N Ts W ds ts us fl -> y ∈ A \/ y ∉ Gs -> 0 <= rc (hp s) y < 2 ^ 32.
Proof.
  intros P Hy. rewrite (ph_count _ _ _ _ _ _ _ _ _ P y Hy). pose proof (base_nonneg y). pose proof (ph_bound _ _ _ _ _ _ _ _ _ P y).
  pose proof (occ_nonneg y (flat_map K A ++ W)). pose proof (ho_count _ _ Hok y). unfold base in *. lia.
Qed.

(** ** One cell *)
Lemma phase_ext s s' A N Ts W ds ts us fl : phase s A N Ts W ds ts us fl -> gg s' = gg s -> objects s' = objects s ->
  (forall y, y ∈ A \/ y ∉ Gs -> hp s' !! y = hp s !! y) -> (forall y, y ∈ N -> body <$> hp s' !! y = body <$> hp s !! y) ->
  (forall y, addr_of (hp s') y = addr_of (hp s) y) -> phase s' A N Ts W ds ts us fl.
Proof.
  intros P Eg Eo Hy Hn Ha. destruct P. split; rewrite ?Eg, ?Eo; try done.
  - eapply Forall2_impl; [exact ph_done0|]. intros p r. by rewrite Ha.
  - eapply Forall2_impl; [exact ph_todo0|]. intros p r. by rewrite Ha.
  - intros x. rewrite Ha. auto.
  - intros x Hx. rewrite Hy; auto.
  - intros x Hx. rewrite Hn; auto.
  - intros y Hi. unfold info. rewrite Hy; [|auto]. by apply ph_info0.
  - intros y Hi. unfold rc. rewrite Hy by done. by apply ph_count0.
Qed.

(** A write to a cell that is not alive. *)
Lemma phase_cell s h r A N Ts W ds ts us fl : phase s A N Ts W ds ts us fl -> r ∈ Gs -> r ∉ A ->
  (forall y, y <> r -> h !! y = hp s !! y) -> addr_of h r = addr_of (hp s) r -> (r ∈ N -> body <$> h !! r = Some T_NULL) ->
  phase (set_hp h s) A N Ts W ds ts us fl.
Proof.
  intros P Hr Hn Hy Ha Hb. apply (phase_ext _ _ _ _ _ _ _ _ _ _ P); [done | done | | |]; cbn [set_hp hp].
  - intros y Hyy. apply Hy. intros ->. by destruct Hyy.
  - intros y Hyn. destruct (decide (y = r)) as [->|Hne]; [|by rewrite Hy].
    rewrite Hb by done. by rewrite (ph_husk _ _ _ _ _ _ _ _ _ P r Hyn).
  - intros y. destruct (decide (y = r)) as [->|Hne]; [done|]. unfold addr_of, info. by rewrite Hy.
Qed.

Lemma pending_in s A N Ts r W ds ts us fl : phase s A N Ts (r :: W) ds ts us fl -> r ∈ A \/ r ∈ N \/ r ∉ Gs.
Proof.
  intros P. destruct (decide (r ∈ A ++ N)) as [Hin|Hin]; [rewrite elem_of_app in Hin; tauto|].
  right. right. intros Hg. pose proof (ph_gone _ _ _ _ _ _ _ _ _ P r Hg Hin) as E.
  rewrite occ_app in E. pose proof (occ_nonneg r (flat_map K A)). pose proof (occ_in r (r :: W) ltac:(left)). lia.
Qed.

Lemma referred_in s A N Ts W ds ts us fl y : phase s A N Ts W ds ts us fl -> in_heap h0 y ->
  y ∈ A \/ y ∈ N \/ y ∉ Gs -> is_Some (hp s !! y).
Proof.
  intros P [o0 H0] [Hy|[Hy|Hy]].
  - pose proof (ph_alive _ _ _ _ _ _ _ _ _ P y (or_introl Hy)) as Hb. rewrite H0 in Hb. destruct (hp s !! y); [by eexists | done].
  - pose proof (ph_husk _ _ _ _ _ _ _ _ _ P y Hy) as Hb. destruct (hp s !! y); [by eexists | done].
  - pose proof (ph_alive _ _ _ _ _ _ _ _ _ P y (or_intror Hy)) as Hb. rewrite H0 in Hb. destruct (hp s !! y); [by eexists | done].
Qed.

Lemma pending_heap s A N Ts r W ds ts us fl : phase s A N Ts (r :: W) ds ts us fl -> in_heap h0 r /\ 0 < occ r (flat_map K Gs).
Proof.
  intros P. assert (Ho : 0 < occ r (flat_map K Gs)).
  { pose proof (ph_bound _ _ _ _ _ _ _ _ _ P r) as E. rewrite occ_app in E. pose proof (occ_nonneg r (flat_map K A)).
    pose proof (occ_in r (r :: W) ltac:(left)). lia. }
  split; [|done]. destruct (decide (r ∈ flat_map K Gs)) as [Hin|Hn]; [|rewrite (occ_notin _ _ Hn) in Ho; lia].
  apply list_elem_of_In, in_flat_map in Hin as (x & _ & Hx). by apply list_elem_of_In, (kids_in _ _ Hok) in Hx as [_ ?].
Qed.

(** A reference is taken off its target. *)
Lemma phase_dec s A N Ts r W ds ts us fl : phase s A N Ts (r :: W) ds ts us fl ->
  exists o, hp s !! r = Some o /\
    let o' := set_refcount (u32 (gc_refcount o - 1)) o in let s1 := set_hp (<[r := o']> (hp s)) s in
    add_rc (-1) r s = Ok s1 /\ phase s1 A N Ts W ds ts us fl /\ (r ∉ Gs -> 0 < gc_refcount o').
Proof.
  intros P. pose proof (pending_in _ _ _ _ _ _ _ _ _ _ P) as Hr. destruct (pending_heap _ _ _ _ _ _ _ _ _ _ P) as [Hh Hocc0].
  destruct (referred_in _ _ _ _ _ _ _ _ _ r P Hh Hr) as [o Ho]. exists o. split; [done|]. cbv zeta.
  unfold add_rc, add_refcount. rewrite (get_counted_ok _ _ _ Ho). cbn [rbind]. replace (gc_refcount o + -1) with (gc_refcount o - 1) by lia.
  split; [done|]. assert (Hocc : forall y, occ y (flat_map K A ++ r :: W) = (if bool_decide (r = y) then 1 else 0) + occ y (flat_map K A ++ W)).
  { intros y. rewrite !occ_app. cbn [occ]. lia. }
  assert (Hcnt : r ∈ A \/ r ∉ Gs -> u32 (gc_refcount o - 1) = base r + occ r (flat_map K A ++ W)).
  { intros Hra. pose proof (ph_count _ _ _ _ _ _ _ _ _ P r Hra) as Hc. pose proof (phase_range _ _ _ _ _ _ _ _ _ r P Hra) as Hb.
    rewrite Hocc, bool_decide_eq_true_2 in Hc by done. unfold rc in Hc, Hb. rewrite Ho in Hc, Hb.
    pose proof (base_nonneg r). pose proof (occ_nonneg r (flat_map K A ++ W)). rewrite u32_small by lia. lia. }
  split.
  2: { intros Hg. cbn. rewrite Hcnt by auto. pose proof (occ_nonneg r (flat_map K A ++ W)). unfold base.
       destruct (decide (r ∈ flat_map K Gs)) as [Hin|Hn]; [pose proof (wa_other _ Waste r Hg Hin); lia|].
       rewrite (occ_notin _ _ Hn) in Hocc0. lia. }
  set (h := <[r := _]> (hp s)). assert (Hinfo : forall y, info h y = info (hp s) y).
  { intros y. unfold info, h. destruct (decide (r = y)) as [<-|Hn]; [by rewrite lookup_insert_eq, Ho | by rewrite lookup_insert_ne]. }
  assert (Hbody : forall y, body <$> h !! y = body <$> hp s !! y).
  { intros y. unfold h. destruct (decide (r = y)) as [<-|Hn]; [by rewrite lookup_insert_eq, Ho | by rewrite lookup_insert_ne]. }
  destruct P. split; try done; cbn [set_hp hp gg objects].
  - eapply Forall2_impl; [exact ph_done0|]. intros p x. unfold addr_of. by rewrite Hinfo.
  - eapply Forall2_impl; [exact ph_todo0|]. intros p x. unfold addr_of. by rewrite Hinfo.
  - intros x. unfold addr_of. rewrite Hinfo. apply ph_all0.
  - intros x Hx. rewrite Hbody. auto.
  - intros x Hx. rewrite Hbody. auto.
  - intros y Hy. rewrite Hinfo. auto.
  - intros y Hy. destruct (decide (r = y)) as [<-|Hn].
    + rewrite <- Hcnt by done. unfold rc, h. by rewrite lookup_insert_eq.
    + pose proof (ph_count0 y Hy) as Ey. rewrite Hocc, bool_decide_eq_false_2 in Ey by done. unfold rc, h. by rewrite lookup_insert_ne.
  - intros y Hy Hn. pose proof (ph_gone0 y Hy Hn) as Ey. rewrite Hocc in Ey. pose proof (occ_nonneg y (flat_map K A ++ W)).
    case_bool_decide; lia.
  - intros y. pose proof (ph_bound0 y) as Ey. rewrite Hocc in Ey. case_bool_decide; lia.
Qed.

Lemma phase_perm s A N Ts W W' ds ts us fl : W ≡ₚ W' -> phase s A N Ts W ds ts us fl -> phase s A N Ts W' ds ts us fl.
Proof.
  intros HW P. assert (Ho : forall y, occ y (flat_map K A ++ W') = occ y (flat_map K A ++ W)).
  { intros y. rewrite !occ_app. by rewrite (occ_perm y _ _ HW). }
  destruct P. split; try done; intros y; rewrite Ho; auto.
Qed.

(** What is alive starts to lose its references. *)
Lemma phase_drop s A A' N Ts W ds ts us fl r : phase s A N Ts W ds ts us fl -> A ≡ₚ r :: A' -> rc (hp s) r = 0 ->
  phase s A' N Ts (K r ++ W) ds ts us fl /\ r ∈ Gs /\ (r ∉ A' ++ N).
Proof.
  intros P HA Hz. assert (HrA : r ∈ A) by (rewrite HA; left). assert (Hg : r ∈ Gs) by (apply P; left; apply elem_of_app; by left).
  pose proof (ph_nodup _ _ _ _ _ _ _ _ _ P) as Nd. rewrite HA in Nd. simpl in Nd. inversion_clear Nd as [|? ? Nr Nd'].
  assert (Hocc : forall y, occ y (flat_map K A' ++ K r ++ W) = occ y (flat_map K A ++ W)).
  { intros y. rewrite (occ_app y (flat_map K A)), (occ_perm y _ _ (Permutation_flat_map K HA)). cbn [flat_map]. rewrite !occ_app. lia. }
  assert (Hsub : forall x, x ∈ A' -> x ∈ A) by (intros x Hx; rewrite HA; by right).
  assert (Hsub' : forall x, x ∈ A' ++ N -> x ∈ A ++ N) by (intros x; rewrite !elem_of_app; intros [?|?]; auto).
  split; [|done]. destruct P. split; try done.
  - intros x [Hx|Hx]; [apply ph_garbage0; left; auto | auto].
  - intros x Hx. apply ph_collects0. auto.
  - intros x [Hx|Hx]; auto.
  - intros y [Hy|Hy]; rewrite Hocc; auto.
  - intros y Hy Hn. rewrite Hocc. destruct (decide (y ∈ A ++ N)) as [Hin|Hin]; [|auto].
    assert (y = r) as ->.
    { rewrite HA, !elem_of_app, elem_of_cons in Hin. rewrite elem_of_app in Hn. tauto. }
    rewrite (ph_count0 r), (base_garbage r Hg) in Hz by (by left). lia.
  - intros y. rewrite Hocc. auto.
  - intros x h [Hx|Hx]; eauto.
Qed.

(** ** Leaving the list *)

(** The word of [r] is reset and its entry is gone. *)
Lemma phase_leave s A N T1 r T2 W ds t1 x t2 us fl o gl us' : phase s A N (T1 ++ r :: T2) W ds (t1 ++ x :: t2) us fl ->
  length t1 = length T1 -> r ∈ Gs -> r ∉ A ++ N -> hp s !! r = Some o ->
  local_bufs gl (ds ++ t1 ++ t2) us' -> rb_ref (lk gl) = rb_ref (lk (gg s)) -> additional gl = additional (gg s) ->
  gc_active gl = true -> next_to_free gl = Some (hd LOCAL (t1 ++ t2)) ->
  phase (mkGC (<[r := set_info 0 o]> (hp s)) gl (objects s)) A N (T1 ++ T2) W ds (t1 ++ t2) us' fl.
Proof.
  intros P Hlen Hg Hn Ho B Er Ea Eact En. assert (Haddr : forall y, y <> r -> addr_of (<[r := set_info 0 o]> (hp s)) y = addr_of (hp s) y).
  { intros y Hy. unfold addr_of. rewrite info_write. by rewrite bool_decide_eq_false_2. }
  pose proof (ph_listed _ _ _ _ _ _ _ _ _ P) as Nd. assert (Hp : N ++ T1 ++ r :: T2 ≡ₚ r :: N ++ T1 ++ T2).
  { by rewrite <- !Permutation_middle. }
  rewrite Hp in Nd. inversion_clear Nd as [|? ? Nr Nd']. rewrite not_elem_of_app in Hn. destruct Hn as [HnA HnN].
  assert (HrT : forall y, y ∈ T1 ++ T2 -> y <> r) by (intros y Hy ->; apply Nr, elem_of_app; by right).
  destruct (Forall2_app_inv _ _ _ _ _ Hlen (ph_todo _ _ _ _ _ _ _ _ _ P)) as [F1 F2]. inversion F2 as [|? ? ? ? Hx F2']; subst.
  assert (Hsub : forall y, y ∈ T1 ++ T2 -> y ∈ T1 ++ r :: T2) by (intros y; rewrite !elem_of_app, elem_of_cons; tauto).
  destruct P. split; cbn [hp gg objects]; try done.
  - by apply (adds_same (gg s)).
  - apply (Forall2_weaken _ _ _ _ ph_done0). intros p y _ Hy [H1 H2]. rewrite Er, Haddr; [done|]. by intros ->.
  - apply (Forall2_weaken (fun p r => rb_ref (lk (gg s)) !! p = Some r /\ addr_of (hp s) r = entry_index p)); [by apply Forall2_app|].
    intros p y _ Hy [H1 H2]. rewrite Er, Haddr by (by apply HrT). done.
  - intros y Hy. destruct (decide (y = r)) as [->|Hne].
    + unfold addr_of in Hy. rewrite info_write, bool_decide_eq_true_2 in Hy by done. done.
    + rewrite Haddr in Hy by done. apply ph_all0 in Hy. rewrite Hp, elem_of_cons in Hy. by destruct Hy.
  - intros y [Hy|Hy]; [apply ph_garbage0; by left | apply ph_garbage0; right; auto].
  - intros y Hy Hc. pose proof (ph_collects0 y Hy Hc) as Hin. rewrite elem_of_app, elem_of_cons in Hin. rewrite elem_of_app.
    assert (y <> r) by (by intros ->). tauto.
  - intros y Hy. apply ph_kinds0. auto.
  - intros y Hy. rewrite lookup_insert_ne; [auto|]. intros <-. by destruct Hy.
  - intros y Hy. rewrite lookup_insert_ne; [auto|]. by intros <-.
  - intros y Hy. rewrite info_write, bool_decide_eq_false_2; [auto|]. by intros ->.
  - intros y Hy. rewrite rc_write by done. auto.
Qed.

Lemma remove_gone s A N Ts W ds ts us fl r o : phase s A N Ts W ds ts us fl -> r ∈ Gs -> r ∉ A ++ N -> hp s !! r = Some o ->
  exists s1 Ts1 ts1 us1 i, GC_REMOVE_FROM_BUFFER r s = Ok s1 /\ phase s1 A N Ts1 W ds ts1 us1 fl /\
    (forall x, x ∈ Ts1 <-> x ∈ Ts /\ x <> r) /\ hp s1 = <[r := set_info i o]> (hp s) /\ GC_ADDRESS i = 0 /\ objects s1 = objects s.
Proof.
  intros P Hg Hn Ho. assert (Ea : addr_of (hp s) r = GC_ADDRESS (gc_info o)) by (unfold addr_of, info; by rewrite Ho).
  pose proof (ph_bufs _ _ _ _ _ _ _ _ _ P) as Lb. pose proof (lb_bufs _ _ _ Lb) as B.
  assert (Hf : exists f, first_unused (gg s) = Some f /\ 1 <= f <= GC_ROOT_BUFFER_MAX_ENTRIES).
  { destruct (bo_size _ _ _ _ B) as (f & ? & _ & ?). by exists f. }
  assert (Hval : forall p, p ∈ ds ++ ts -> 1 <= entry_index p < 2 ^ 14).
  { intros p Hp. apply (valid_index (gg s)); [apply (bo_add _ _ _ _ B) | done | by apply (lb_valid _ _ _ Lb)]. }
  unfold GC_REMOVE_FROM_BUFFER. rewrite (get_counted_ok _ _ _ Ho). rsimp. destruct (Z.eqb_spec (GC_ADDRESS (gc_info o)) 0) as [Ez|Enz].
  { exists s, Ts, ts, us, (gc_info o). split; [done|]. split; [done|]. split; [|split; [|done]].
    - intros x. split; [|tauto]. intros Hx. split; [done|]. intros ->.
      pose proof (ph_todo _ _ _ _ _ _ _ _ _ P) as F. apply list_elem_of_lookup in Hx as [k Hk].
      destruct (Forall2_lookup_r _ _ _ _ _ F Hk) as (p & Hp & _ & E). specialize (Hval p). rewrite <- E, Ea, Ez in Hval.
      destruct Hval; [apply elem_of_app; right; by eapply list_elem_of_lookup_2 | lia].
    - symmetry. apply insert_id. rewrite Ho. by destruct o. }
  cbn [negb]. assert (HrT : r ∈ Ts).
  { rewrite <- Ea in Enz. apply (ph_all _ _ _ _ _ _ _ _ _ P) in Enz. rewrite elem_of_app in Hn, Enz. tauto. }
  apply list_elem_of_split in HrT as (T1 & T2 & ->).
  pose proof (ph_todo _ _ _ _ _ _ _ _ _ P) as F. apply Forall2_app_inv_r in F as (t1 & t' & F1 & F2 & ->).
  inversion F2 as [|x ? t2 ? [Hr Hx] F2' E1 E2]; subst. clear F2. rewrite Ea in Hx.
  pose proof Lb as Lb'. rewrite app_assoc in Lb'. destruct (remove_local_ok _ _ _ _ _ Lb') as (gl & us' & E & [D1 D2 D3 D4 D5 D6]).
  rewrite <- app_assoc in D1. assert (Hvx : valid_entry (gg s) x).
  { apply (lb_valid _ _ _ Lb). rewrite !elem_of_app, elem_of_cons. auto. }
  assert (Hlen : length t1 = length T1) by (by apply Forall2_length in F1).
  assert (Efound : gc_remove_from_buffer r s = let h := <[r := set_info 0 o]> (hp s) in
    if bool_decide (next_to_free gl = Some x) then let! n := field (rb_next (lk gl)) x in Ok (mkGC h (set_next_to_free (Some n) gl) (objects s))
    else Ok (mkGC h gl (objects s))).
  { unfold gc_remove_from_buffer. rewrite (get_counted_ok _ _ _ Ho). rsimp. unfold remove_entry in E. rewrite Hx.
    rewrite (buf_test _ _ Hf Hvx) in E |- *. destruct x as [| |i|b i|]; try done.
    - cbn [entry_index]. rewrite E. done.
    - unfold gc_find_additional_buffer. rewrite (get_counted_ok _ _ _ Ho). rsimp. rewrite Hx. cbn [entry_index].
      assert (Hi : i < 2 ^ 14).
      { specialize (Hval (ADD b i)). cbn [entry_index] in Hval. unfold GC_ROOT_BUFFER_MAX_ENTRIES in Hval.
        destruct Hval; [rewrite !elem_of_app, elem_of_cons; auto | lia]. }
      rewrite (find_additional_ok _ _ _ _ (ph_adds _ _ _ _ _ _ _ _ _ P) Hvx Hi Hr). rsimp. rewrite E. done. }
  rewrite Efound. cbv zeta. pose proof (ph_next _ _ _ _ _ _ _ _ _ P) as Hnext.
  assert (Hin : forall y, y ∈ T1 ++ T2 <-> y ∈ T1 ++ r :: T2 /\ y <> r).
  { intros y. pose proof (ph_listed _ _ _ _ _ _ _ _ _ P) as Nd. apply NoDup_app in Nd as (_ & _ & Nd).
    rewrite <- Permutation_middle in Nd. inversion_clear Nd as [|? ? Nr _]. rewrite elem_of_app in *. rewrite !elem_of_app, elem_of_cons.
    split; [|tauto]. intros Hy. split; [tauto|]. intros ->. tauto. }
  assert (Hact : gc_active gl = true) by (rewrite D5; apply P).
  pose proof (phase_leave s A N T1 r T2 W ds t1 x t2 us fl o) as Hleave.
  destruct (lb_ring _ _ _ Lb') as [Sg Nd]. apply segment_app in Sg as [_ Sg].
  case_bool_decide as Ehd; rewrite D4, Hnext in Ehd.
  - assert (t1 = []) as ->.
    { destruct t1 as [|y t1]; [done|]. exfalso. injection Ehd as Ehd. simpl in Ehd. subst y. inversion_clear Nd as [|? ? _ Nd'].
      rewrite <- app_assoc in Nd'. apply NoDup_app in Nd' as (_ & _ & Nd'). simpl in Nd'. inversion_clear Nd' as [|? ? Nx _].
      apply Nx, elem_of_app. right. left. }
    rewrite (field_ok _ x (hd LOCAL t2)) by (rewrite D3; apply (segment_next _ _ _ _ Sg)). rsimp.
    eexists _, (T1 ++ T2), t2, us', 0. split; [done|]. split; [|done]. apply (Hleave (set_next_to_free (Some (hd LOCAL t2)) gl) us'); try done.
    destruct D1 as [B1 R1 V1 N1]. split; [destruct B1; by split | done..].
  - eexists _, (T1 ++ T2), (t1 ++ t2), us', 0. split; [done|]. split; [|done]. apply (Hleave gl us'); try done.
    rewrite D4, Hnext. destruct t1 as [|y t1]; [done|]. done.
Qed.

(** ** The objects store *)

(** A handle that is neither free nor that of an object. *)
Record free_slot (s : GC) (A : list addr) (h : Z) (fl : list Z) : Prop := mkFreeSlot {
  fs_range : 1 <= h < top (objects s);
  fs_free : h ∉ fl;
  fs_unused x : x ∈ A \/ x ∉ Gs -> handle_of (body0 x) <> Some h
}.

Lemma handles_frame s A N Ts W ds ts us fl st fl' : phase s A N Ts W ds ts us fl -> store_wf st fl' -> top st = top (objects s) ->
  (forall x h, x ∈ A \/ x ∉ Gs -> handle_of (body0 x) = Some h -> get_bucket h st = get_bucket h (objects s)) ->
  phase (set_objects st s) A N Ts W ds ts us fl'.
Proof.
  intros P W' Et Hk. destruct P. split; try done. cbn [set_objects objects]. intros x h Hx Hh.
  destruct (ph_handles0 x h Hx Hh) as [Hr Hg]. split; [by rewrite Et | by rewrite (Hk x h)].
Qed.

Lemma phase_bucket s A N Ts W ds ts us fl h w : phase s A N Ts W ds ts us fl -> free_slot s A h fl ->
  exists s', on_objects (set_bucket h w) s = Ok s' /\ phase s' A N Ts W ds ts us fl /\ free_slot s' A h fl /\
    hp s' = hp s /\ gg s' = gg s /\ top (objects s') = top (objects s).
Proof.
  intros P [F1 F2 F3]. destruct (set_bucket_wf _ _ h w (ph_store _ _ _ _ _ _ _ _ _ P) F1 F2) as (st & E & W' & Et & _ & _ & G).
  unfold on_objects. rewrite E. rsimp. eexists. split; [done|]. split; [|split; [by split; [rewrite <- Et in F1| |] | done]].
  apply (handles_frame s _ _ _ _ _ _ _ fl); try done. intros x k Hx Hk. destruct (ph_handles _ _ _ _ _ _ _ _ _ P x k Hx Hk) as [Hr _].
  rewrite G by lia. destruct (Z.eqb_spec k h) as [->|]; [|done]. by apply F3 in Hk.
Qed.

Lemma phase_free_handle s A N Ts W ds ts us fl h : phase s A N Ts W ds ts us fl -> free_slot s A h fl ->
  exists s', on_objects (ZEND_OBJECTS_STORE_ADD_TO_FREE_LIST h) s = Ok s' /\ phase s' A N Ts W ds ts us (h :: fl) /\
    hp s' = hp s /\ gg s' = gg s /\ top (objects s') = top (objects s).
Proof.
  intros P [F1 F2 F3]. destruct (add_free_wf _ _ h (ph_store _ _ _ _ _ _ _ _ _ P) F1 F2) as (st & E & W' & Et & _ & G).
  unfold on_objects. rewrite E. rsimp. eexists. split; [done|]. split; [|done].
  apply (handles_frame s _ _ _ _ _ _ _ fl); try done. intros x k Hx Hk. destruct (ph_handles _ _ _ _ _ _ _ _ _ P x k Hx Hk) as [Hr _].
  apply G; [lia|]. intros ->. by apply F3 in Hk.
Qed.

(** The handle of an object that is no longer alive. *)
Lemma dropped_handle s A A' N Ts W ds ts us fl r h : phase s A N Ts W ds ts us fl -> A ≡ₚ r :: A' ->
  handle_of (body0 r) = Some h -> free_slot s A' h fl /\ get_bucket h (objects s) = Ok (obj_word r).
Proof.
  intros P HA Hh. assert (Hr : r ∈ A) by (rewrite HA; left). destruct (ph_handles _ _ _ _ _ _ _ _ _ P r h (or_introl Hr) Hh) as [H1 H2].
  split; [|done]. split; [done | by apply (free_not_live (objects s) fl h r (ph_store _ _ _ _ _ _ _ _ _ P)) |].
  intros x Hx Hk. destruct (ph_handles _ _ _ _ _ _ _ _ _ P x h) as [_ H3]; [|done|].
  - destruct Hx as [Hx|Hx]; [left; rewrite HA; by right | by right].
  - assert (H4 : obj_word r = obj_word x) by congruence. apply obj_word_inj in H4. subst x. pose proof (ph_nodup _ _ _ _ _ _ _ _ _ P) as Nd.
    rewrite HA in Nd. inversion_clear Nd as [|? ? Nr _]. destruct Hx as [Hx|Hx].
    + apply Nr, elem_of_app. by left.
    + apply Hx, P. left. apply elem_of_app. by left.
Qed.

Lemma free_slot_later s A N Ts fl s' A' Ts' fl' h : free_slot s A h fl -> released s A N Ts fl s' A' Ts' fl' -> free_slot s' A' h fl'.
Proof.
  intros [F1 F2 F3] R. split.
  - by rewrite (re_top _ _ _ _ _ _ _ _ _ R).
  - rewrite (re_free _ _ _ _ _ _ _ _ _ R). intros [?|(x & Hx & _ & Hk)]; [done|]. by apply (F3 x); [left|].
  - intros x [Hx|Hx]; apply F3; [left; by apply (re_alive _ _ _ _ _ _ _ _ _ R) | by right].
Qed.

(** ** Writes to the structure being destroyed *)
Record touched (r : addr) (s s' : GC) : Prop := mkTouched {
  to_gg : gg s' = gg s;
  to_objects : objects s' = objects s;
  to_other y : y <> r -> hp s' !! y = hp s !! y;
  to_cell : exists o o', hp s !! r = Some o /\ hp s' !! r = Some o' /\ gc_info o' = gc_info o /\ (body o = T_NULL -> body o' = T_NULL)
}.

Lemma touched_refl r s o : hp s !! r = Some o -> touched r s s.
Proof. intros Ho. split; try done. by exists o, o. Qed.

Lemma touched_trans r s1 s2 s3 : touched r s1 s2 -> touched r s2 s3 -> touched r s1 s3.
Proof.
  intros [a1 b1 c1 (o & o2 & H1 & H2 & H3 & H4)] [a2 b2 c2 (o2' & o3 & H5 & H6 & H7 & H8)]. split.
  - by rewrite a2.
  - by rewrite b2.
  - intros y Hy. by rewrite c2, c1.
  - rewrite H2 in H5. injection H5 as <-. exists o, o3. split; [done|]. split; [done|]. split; [congruence | auto].
Qed.

Lemma touch r o o' s : hp s !! r = Some o -> gc_info o' = gc_info o -> (body o = T_NULL -> body o' = T_NULL) ->
  touched r s (set_hp (<[r := o']> (hp s)) s).
Proof.
  intros Ho Hi Hb. split; try done; cbn [set_hp hp].
  - intros y Hy. by apply lookup_insert_ne.
  - exists o, o'. by rewrite lookup_insert_eq.
Qed.

Lemma add_rc_touch d r o s : hp s !! r = Some o ->
  add_rc d r s = Ok (set_hp (<[r := set_refcount (u32 (gc_refcount o + d)) o]> (hp s)) s).
Proof. intros Ho. unfold add_rc, add_refcount. by rewrite (get_counted_ok _ _ _ Ho). Qed.

Lemma set_body_touch r b o s : hp s !! r = Some o ->
  set_body r b s = Ok (set_hp (<[r := mkCounted (gc_refcount o) (gc_info o) b]> (hp s)) s).
Proof. intros Ho. unfold set_body. by rewrite (get_counted_ok _ _ _ Ho). Qed.

(** ** A destructor that does nothing *)

(** The flag [IS_OBJ_DESTRUCTOR_CALLED] may have been set. *)
Definition flag_of (o o' : refcounted) : Prop := gc_refcount o' = gc_refcount o /\ gc_info o' = gc_info o /\
  (body o' = body o \/ exists obj, body o = T_OBJECT obj /\ body o' = T_OBJECT (set_destructor_called obj)).

Lemma call_destructor_ok r obj s o : (forall g, dtor_obj r g = Ok g) -> hp s !! r = Some o -> body o = T_OBJECT obj ->
  0 <= gc_refcount o < 2 ^ 32 ->
  exists s1 o1, call_destructor r obj s = Ok s1 /\ touched r s s1 /\ hp s1 !! r = Some o1 /\ flag_of o o1.
Proof.
  intros Hq Ho Eb Hr. unfold call_destructor. destruct (obj_destructor_called obj).
  { exists s, o. split; [done|]. split; [by eapply touched_refl|]. split; [done|]. by do 2 (split; [done|]); left. }
  rewrite (set_body_touch _ _ _ _ Ho). rsimp. set (o1 := mkCounted _ _ _). set (s1 := set_hp _ s).
  assert (T1 : touched r s s1) by (apply (touch r o); [done | done | by rewrite Eb]). assert (H1 : hp s1 !! r = Some o1) by apply lookup_insert_eq.
  assert (F1 : flag_of o o1) by (do 2 (split; [done|]); right; by exists obj). destruct (has_destructor obj); [|by exists s1, o1].
  rewrite (add_rc_touch 1 r o1 s1 H1). rsimp. set (s2 := set_hp _ s1). rewrite Hq. rsimp.
  assert (H2 : hp s2 !! r = Some (set_refcount (u32 (gc_refcount o1 + 1)) o1)) by apply lookup_insert_eq.
  rewrite (add_rc_touch (-1) r _ s2 H2). set (o3 := set_refcount _ (set_refcount _ _)). set (s3 := set_hp _ s2).
  exists s3, o3. split; [done|]. split.
  { apply (touched_trans r s s1 s3 T1), (touched_trans r s1 s2 s3); [by apply (touch r o1 _ s1 H1) | by apply (touch r _ o3 s2 H2)]. }
  split; [apply lookup_insert_eq|]. split; [|exact (proj2 F1)]. unfold o3, o1. cbn [set_refcount gc_refcount]. rewrite u32_add_l.
  replace (gc_refcount o + 1 + -1) with (gc_refcount o) by lia. by apply u32_small.
Qed.

Lemma phase_touch s s' A N Ts W ds ts us fl r : phase s A N Ts W ds ts us fl -> r ∈ Gs -> r ∉ A -> touched r s s' ->
  phase s' A N Ts W ds ts us fl.
Proof.
  intros P Hr Hn [Eg Eo Hy (o & o' & Ho & Ho' & Hi & Hb)]. apply (phase_ext _ _ _ _ _ _ _ _ _ _ P); [done | done | | |].
  - intros y Hyy. apply Hy. intros ->. by destruct Hyy.
  - intros y Hyn. destruct (decide (y = r)) as [->|Hne]; [|by rewrite Hy].
    pose proof (ph_husk _ _ _ _ _ _ _ _ _ P r Hyn) as E. rewrite Ho in E. injection E as E. rewrite Ho, Ho'. simpl. by rewrite E, Hb.
  - intros y. unfold addr_of, info. destruct (decide (y = r)) as [->|Hne]; [by rewrite Ho, Ho', Hi | by rewrite Hy].
Qed.

(** ** What a release ends with *)

(** What is alive and not on the list is referred to. *)
Definition pos (s : GC) (A Ts : list addr) : Prop := forall x, x ∈ A -> x ∉ Ts -> 0 < rc (hp s) x.

Definition ends (m : res GC) (s : GC) (A N Ts W : list addr) (ds : list rootp) (fl : list Z) : Prop :=
  exists s' A' Ts' ts' us' fl', m = Ok s' /\ phase s' A' N Ts' W ds ts' us' fl' /\ pos s' A' Ts' /\
    released s A N Ts fl s' A' Ts' fl'.

(** The destruction of [r]: [s1], [s2] before and after its values are released. *)
Lemma released_drop s A A' N Ts fl r s1 Ts1 s2 A2 Ts2 fl2 s' Ts' fl' : A ≡ₚ r :: A' -> NoDup A ->
  released s1 A' N Ts1 fl s2 A2 Ts2 fl2 ->
  (forall y, y ∈ Gs -> y <> r -> hp s1 !! y = hp s !! y) -> (forall y, y ∈ Gs -> y <> r -> hp s' !! y = hp s2 !! y) ->
  (forall x, x <> r -> x ∈ Ts1 <-> x ∈ Ts) -> (forall x, x ∈ Ts' <-> x ∈ Ts2 /\ x <> r) ->
  (forall h, h ∈ fl' <-> h ∈ fl2 \/ handle_of (body0 r) = Some h) ->
  top (objects s1) = top (objects s) -> top (objects s') = top (objects s2) -> hp s' !! r = None ->
  released s A N Ts fl s' A2 Ts' fl'.
Proof.
  intros HA Nd R H1 H2 HT1 HT2 Hf Et1 Et2 Hdel. destruct R as [a b c d e i f g].
  rewrite HA in Nd. inversion_clear Nd as [|? ? Nr _].
  assert (HinA : forall x, x ∈ A <-> x = r \/ x ∈ A') by (intros x; by rewrite HA, elem_of_cons).
  assert (Hr2 : r ∉ A2) by auto. split.
  - intros x Hx. apply HinA. auto.
  - intros y Hy Hn. rewrite elem_of_app, HinA in Hn. assert (y <> r) by tauto.
    rewrite H2 by done. rewrite b; [by rewrite H1 | done | rewrite elem_of_app; tauto].
  - intros x Hx Hc. assert (x <> r) by (intros ->; destruct Hc as [Hc|Hc]; [apply Hc, HinA; by left | done]).
    apply HT2. split; [|done]. apply c; [by apply HT1|]. rewrite HinA in Hc. tauto.
  - intros x Hx. apply HT2 in Hx as [Hx Hne]. apply HT1; auto.
  - intros x Hx Hc. apply HT2 in Hx as [Hx Hne]. apply e; [done|]. apply HinA in Hc. tauto.
  - intros x Hg Hx Hn. destruct (decide (x = r)) as [->|Hne]; [done|]. rewrite H2 by done. apply i; [done| |done].
    apply HinA in Hx. tauto.
  - intros h. rewrite Hf, f. split.
    + intros [[?|(x & ? & ? & ?)]|Hh]; [by left | right; exists x; rewrite HinA; auto | right; exists r; rewrite HinA; auto].
    + intros [?|(x & Hx & Hn & Hh)]; [auto|]. apply HinA in Hx as [->|Hx]; [by right|]. left. right. by exists x.
  - by rewrite Et2, g.
Qed.

(** ** Releasing one structure *)

Lemma delete_gone s A N Ts W ds ts us fl r : phase s A N Ts W ds ts us fl -> r ∈ Gs -> r ∉ A ++ N -> is_Some (hp s !! r) ->
  addr_of (hp s) r = 0 ->
  exists s', efree r s = Ok s' /\ s' = set_hp (delete r (hp s)) s /\ phase s' A N Ts W ds ts us fl.
Proof.
  intros P Hg Hn [o Ho] Ha. unfold efree. rewrite (get_counted_ok _ _ _ Ho). rsimp. eexists. split; [done|]. split; [done|].
  rewrite not_elem_of_app in Hn. destruct Hn as [Hn Hn']. apply (phase_cell s _ r); try done.
  - intros y Hy. by apply lookup_delete_ne.
  - rewrite Ha. unfold addr_of, info. by rewrite lookup_delete_eq.
Qed.

(** What is not on the list has no entry. *)
Lemma unlisted_addr s A N Ts W ds ts us fl r : phase s A N Ts W ds ts us fl -> r ∉ N ++ Ts -> addr_of (hp s) r = 0.
Proof. intros P Hn. destruct (Z.eq_dec (addr_of (hp s) r) 0) as [|Hne]; [done|]. by apply (ph_all _ _ _ _ _ _ _ _ _ P) in Hne. Qed.

Lemma alive_body s A N Ts W ds ts us fl r o : phase s A N Ts W ds ts us fl -> r ∈ A \/ r ∉ Gs -> hp s !! r = Some o -> body o = body0 r.
Proof.
  intros P Hr Ho. pose proof (ph_alive _ _ _ _ _ _ _ _ _ P r Hr) as E. rewrite Ho in E. unfold GcWhite.body0.
  destruct (h0 !! r); [by injection E | done].
Qed.

Lemma released_length s A N Ts W ds ts us fl s' A' Ts' fl' : phase s' A' N Ts' W ds ts us fl' -> released s A N Ts fl s' A' Ts' fl' ->
  (length A' <= length A)%nat.
Proof.
  intros P R. apply submseteq_length, NoDup_submseteq; [|apply R]. pose proof (ph_nodup _ _ _ _ _ _ _ _ _ P) as Nd.
  by apply NoDup_app in Nd as [? _].
Qed.

(** ** The release of values *)
Section Values.
Context (collect : GC -> res GC) (unclean : bool).

(** A destructor of structures that is right for [n] of them. *)
Record dtor_spec (n : nat) (f : addr -> GC -> res GC) : Prop := mkDtorSpec {
  ds_alive s A A' N Ts W ds ts us fl r : phase s A N Ts W ds ts us fl -> A ≡ₚ r :: A' -> rc (hp s) r = 0 -> pos s A' Ts ->
    (length A <= n)%nat -> ends (f r s) s A N Ts W ds fl;
  ds_husk s r o : hp s !! r = Some o -> body o = T_NULL -> f r s = Ok s
}.

(** While a collection runs, no root is recorded. *)
Lemma check_root_idle f s A N Ts W ds ts us fl r o : phase s A N Ts W ds ts us fl -> hp s !! r = Some o ->
  r ∈ A \/ r ∈ N \/ r ∉ Gs -> gc_check_possible_root collect f unclean r s = Ok s.
Proof.
  intros P Ho Hr. assert (Hidle : forall x, gc_possible_root collect f unclean x s = Ok s).
  { intros x. unfold gc_possible_root. by rewrite (ph_active _ _ _ _ _ _ _ _ _ P), orb_true_r. }
  assert (Hif : forall x o, hp s !! x = Some o -> (let! o := get_counted (hp s) x in
    if GC_MAY_LEAK o then gc_possible_root collect f unclean x s else Ok s) = Ok s).
  { intros x o' Hx. rewrite (get_counted_ok _ _ _ Hx). rsimp. rewrite Hidle. by destruct (GC_MAY_LEAK o'). }
  unfold gc_check_possible_root. rewrite (get_counted_ok _ _ _ Ho). rsimp.
  destruct (body o) as [obj|used|v| |] eqn:Eb; rewrite ?Hidle; try by destruct (GC_MAY_LEAK o). destruct v as [| |x|c]; try done.
  assert (Hr' : r ∈ A \/ r ∉ Gs).
  { destruct Hr as [?|[Hn|?]]; [by left | | by right]. pose proof (ph_husk _ _ _ _ _ _ _ _ _ P r Hn) as E. rewrite Ho in E.
    injection E as E. congruence. }
  pose proof (alive_body _ _ _ _ _ _ _ _ _ r o P Hr' Ho) as Eb0. rewrite Eb in Eb0.
  assert (Hx : x ∈ K r).
  { unfold kids. unfold GcWhite.body0 in Eb0. destruct (h0 !! r) as [o0|]; [|done]. rewrite <- Eb0. simpl. left. }
  destruct (referred_in _ _ _ _ _ _ _ _ _ x P) as [o' Ho']; [by apply (kids_in env h0 Hok) in Hx as [_ ?] | | by eapply Hif].
  destruct Hr' as [HrA|HrG].
  - destruct (decide (x ∈ A ++ N)) as [Hin|Hin]; [rewrite elem_of_app in Hin; tauto|]. right. right. intros Hg.
    pose proof (ph_gone _ _ _ _ _ _ _ _ _ P x Hg Hin) as E. rewrite occ_app in E. pose proof (occ_nonneg x W).
    assert (0 < occ x (flat_map K A)); [|lia]. apply occ_in, list_elem_of_In, in_flat_map. exists r. by rewrite <- !list_elem_of_In.
  - right. right. intros Hg. by apply HrG, (wa_closed _ Waste x).
Qed.

Lemma ptr_dtor_ok n f : dtor_spec n f -> forall s A N Ts r W ds ts us fl, phase s A N Ts (r :: W) ds ts us fl -> pos s A Ts ->
  (length A <= n)%nat -> ends (i_zval_ptr_dtor collect unclean f (GV_COUNTED r) s) s A N Ts W ds fl.
Proof.
  intros F s A N Ts r W ds ts us fl P Hpos Hn. pose proof (pending_in _ _ _ _ _ _ _ _ _ _ P) as Hr.
  destruct (phase_dec _ _ _ _ _ _ _ _ _ _ P) as (o & Ho & E & P1 & Hsurv). cbn [i_zval_ptr_dtor]. rewrite E. rsimp.
  set (o' := set_refcount _ o) in *. set (s1 := set_hp _ s) in *. cbv zeta in *.
  assert (Ho' : hp s1 !! r = Some o') by apply lookup_insert_eq. rewrite (get_counted_ok _ _ _ Ho'). rsimp.
  assert (R1 : released s A N Ts fl s1 A Ts fl).
  { destruct (released_refl s A N Ts fl) as [a b c d e i g h]. split; try done.
    - intros y Hy Hny. unfold s1. cbn [set_hp hp]. apply lookup_insert_ne. intros <-. rewrite elem_of_app in Hny. tauto.
    - intros x _ Hx Hnx. destruct Hnx. apply elem_of_app. by left. }
  assert (Hpos1 : forall x, x <> r -> x ∈ A -> x ∉ Ts -> 0 < rc (hp s1) x).
  { intros x Hx. replace (rc (hp s1) x) with (rc (hp s) x); [apply Hpos|]. unfold rc, s1. cbn [set_hp hp]. by rewrite lookup_insert_ne. }
  assert (Erc : rc (hp s1) r = gc_refcount o') by (unfold rc; by rewrite Ho').
  destruct (Z.eqb_spec (gc_refcount o') 0) as [Ez|Enz].
  - destruct Hr as [HrA|[HrN|HrG]]; [| |apply Hsurv in HrG; lia].
    + apply elem_of_Permutation in HrA as [A' HA].
      destruct (ds_alive _ _ F s1 A A' N Ts W ds ts us fl r P1 HA) as (s' & A2 & Ts2 & ts2 & us2 & fl2 & E2 & P2 & Q2 & R2); [by rewrite Erc | | done |].
      * intros x Hx. pose proof (ph_nodup _ _ _ _ _ _ _ _ _ P1) as Nd. rewrite HA in Nd. simpl in Nd. inversion_clear Nd as [|? ? Nr _].
        apply Hpos1; [|rewrite HA; by right]. intros ->. apply Nr, elem_of_app. by left.
      * do 6 eexists. split; [exact E2|]. split; [exact P2|]. split; [exact Q2|]. eapply released_trans; [exact R1 | exact R2].
    + pose proof (ph_husk _ _ _ _ _ _ _ _ _ P1 r HrN) as Eb. rewrite Ho' in Eb. injection Eb as Eb.
      rewrite (ds_husk _ _ F s1 r o' Ho' Eb). do 6 eexists. split; [done|]. split; [exact P1|]. split; [|exact R1].
      intros x Hx. apply Hpos1; [|done]. intros ->. pose proof (ph_nodup _ _ _ _ _ _ _ _ _ P1) as Nd. apply NoDup_app in Nd as (_ & Nd & _).
      by apply (Nd r).
  - rewrite (check_root_idle f s1 A N Ts W ds ts us fl r o' P1 Ho' Hr). do 6 eexists. split; [done|]. split; [exact P1|]. split; [|exact R1].
    intros x Hx Hnx. destruct (decide (x = r)) as [->|Hne]; [|by apply Hpos1].
    pose proof (phase_range _ _ _ _ _ _ _ _ _ r P1 (or_introl Hx)). lia.
Qed.

(** The values in turn. *)
Lemma dtor_values_ok n f : dtor_spec n f -> forall l s A N Ts W ds ts us fl, phase s A N Ts (omap counted l ++ W) ds ts us fl ->
  pos s A Ts -> (length A <= n)%nat -> ends (dtor_values collect unclean f l s) s A N Ts W ds fl.
Proof.
  intros F l. induction l as [|v l IH]; intros s A N Ts W ds ts us fl P Hpos Hn.
  { do 6 eexists. split; [done|]. split; [exact P|]. split; [exact Hpos | apply released_refl]. }
  cbn [dtor_values]. assert (Hv : (exists r, v = GV_COUNTED r) \/ (counted v = None /\ i_zval_ptr_dtor collect unclean f v s = Ok s)).
  { destruct v as [| |r|c]; [by right | by right | left; by exists r | by right]. }
  destruct Hv as [[r ->]|[Hv E]].
  - destruct (ptr_dtor_ok n f F s A N Ts r (omap counted l ++ W) ds ts us fl) as (s1 & A1 & Ts1 & ts1 & us1 & fl1 & E & P1 & Q1 & R1); try done.
    rewrite E. rsimp. destruct (IH s1 A1 N Ts1 W ds ts1 us1 fl1) as (s2 & A2 & Ts2 & ts2 & us2 & fl2 & E2 & P2 & Q2 & R2); try done.
    { pose proof (released_length _ _ _ _ _ _ _ _ _ _ _ _ _ P1 R1). lia. }
    do 6 eexists. split; [exact E2|]. split; [exact P2|]. split; [exact Q2|]. eapply released_trans; [exact R1 | exact R2].
  - rewrite E. rsimp. apply (IH s A N Ts W ds ts us fl); try done. simpl in P. by rewrite Hv in P.
Qed.

(** *** Releasing the properties of an object *)
Lemma pos_touch r s s' A Ts : r ∉ A -> touched r s s' -> pos s A Ts -> pos s' A Ts.
Proof. intros Hr T Hp x Hx Hnx. unfold rc. rewrite (to_other _ _ _ T); [by apply Hp | by intros ->]. Qed.

(** [call_free_obj] releases what the collector saw. *)
Lemma free_obj_ok n f : dtor_spec n f -> forall s A N Ts W ds ts us fl r obj o, phase s A N Ts (K r ++ W) ds ts us fl -> pos s A Ts ->
  (length A <= n)%nat -> r ∈ Gs -> r ∉ A -> hp s !! r = Some o -> kids_of env r (T_OBJECT obj) = Ok (K r) ->
  frees_shown env r obj ->
  exists s1 s2 s' A' Ts' ts' us' fl', call_free_obj collect unclean f r obj s = Ok s' /\ phase s' A' N Ts' W ds ts' us' fl' /\
    pos s' A' Ts' /\ touched r s s1 /\ released s1 A N Ts fl s2 A' Ts' fl' /\ touched r s2 s'.
Proof.
  intros F s A N Ts W ds ts us fl r obj o P Hpos Hn Hg HrA Ho Ek Hfrees. unfold call_free_obj. destruct (obj_free_called obj) eqn:Ef.
  { simpl in Ek. rewrite Ef in Ek. injection Ek as Ek. rewrite <- Ek in P. exists s, s, s, A, Ts, ts, us, fl.
    pose proof (touched_refl r s o Ho). pose proof (released_refl s A N Ts fl). done. }
  rewrite (get_counted_ok _ _ _ Ho). rsimp. pose proof (Hfrees (K r) Ek Ef) as Hshown.
  assert (exists s0 o0, match body o with T_OBJECT obj => set_body r (T_OBJECT (set_free_called obj)) s | _ => Ok s end = Ok s0 /\
    touched r s s0 /\ hp s0 !! r = Some o0) as (s0 & o0 & E0 & T0 & Ho0).
  { destruct (body o) as [obj'|used|v| |] eqn:Eb; try (exists s, o; split; [done|]; split; [by eapply touched_refl | done]).
    rewrite (set_body_touch _ _ _ _ Ho). do 2 eexists. split; [done|]. split; [apply (touch r o); [done|done|by rewrite Eb] | apply lookup_insert_eq]. }
  rewrite E0. rsimp. pose proof (phase_touch _ _ _ _ _ _ _ _ _ _ r P Hg HrA T0) as P0. pose proof (pos_touch _ _ _ _ _ HrA T0 Hpos) as Q0.
  destruct (has_free_obj obj).
  2: { rewrite Hshown in P0. exists s0, s0, s0, A, Ts, ts, us, fl. pose proof (touched_refl r s0 o0 Ho0). pose proof (released_refl s0 A N Ts fl). done. }
  rewrite (add_rc_touch 1 r o0 s0 Ho0). rsimp. set (s1 := set_hp _ s0).
  assert (T1 : touched r s0 s1) by (by apply (touch r o0)).
  pose proof (phase_touch _ _ _ _ _ _ _ _ _ _ r P0 Hg HrA T1) as P1. pose proof (pos_touch _ _ _ _ _ HrA T1 Q0) as Q1.
  destruct (dtor_values_ok n f F (free_obj_values obj) s1 A N Ts W ds ts us fl) as (s2 & A2 & Ts2 & ts2 & us2 & fl2 & E & P2 & Q2 & R2); [|done|done|].
  { eapply phase_perm; [|exact P1]. by rewrite Hshown. }
  rewrite E. rsimp. assert (HrA2 : r ∉ A2) by (intros Hin; by apply HrA, (re_alive _ _ _ _ _ _ _ _ _ R2)).
  assert (exists o2, hp s2 !! r = Some o2) as [o2 Ho2].
  { destruct (decide (r ∈ N)) as [HrN|HrN].
    - pose proof (ph_husk _ _ _ _ _ _ _ _ _ P2 r HrN) as Eb. destruct (hp s2 !! r); [by eexists | done].
    - rewrite (re_frame _ _ _ _ _ _ _ _ _ R2); [|done|rewrite not_elem_of_app; done]. destruct (to_cell _ _ _ T1) as (? & o2 & _ & ? & _). by exists o2. }
  rewrite (add_rc_touch (-1) r o2 s2 Ho2). set (s3 := set_hp _ s2). assert (T3 : touched r s2 s3) by (by apply (touch r o2)).
  exists s1, s2, s3, A2, Ts2, ts2, us2, fl2. split; [done|]. split; [by eapply phase_touch|]. split; [by eapply pos_touch|].
  split; [by eapply touched_trans | done].
Qed.

(** ** Destruction by type *)
Section Destroy.
Context (n : nat) (f : addr -> GC -> res GC) (F : dtor_spec n f).
Context (s : GC) (A A' N Ts W : list addr) (ds ts us : list rootp) (fl : list Z) (r : addr) (o : refcounted).
Context (P : phase s A N Ts W ds ts us fl) (HA : A ≡ₚ r :: A') (Hz : rc (hp s) r = 0) (Hpos : pos s A' Ts).
Context (Hn : (length A <= S n)%nat) (Ho : hp s !! r = Some o).

Lemma dying_alive : r ∈ A.
Proof. rewrite HA. left. Qed.

Lemma dying_nodup : NoDup A.
Proof. pose proof (ph_nodup _ _ _ _ _ _ _ _ _ P) as Nd. by apply NoDup_app in Nd as [? _]. Qed.

Lemma dying_length : (length A' <= n)%nat.
Proof. rewrite (Permutation_length HA) in Hn. simpl in Hn. lia. Qed.

Lemma dying_body : body o = body0 r.
Proof. exact (alive_body _ _ _ _ _ _ _ _ _ r o P (or_introl dying_alive) Ho). Qed.

Lemma dying_kids : kids_of env r (body o) = Ok (K r).
Proof.
  rewrite dying_body. destruct (phase_drop _ _ _ _ _ _ _ _ _ _ _ P HA Hz) as (_ & Hg & _). destruct (wa_in _ Waste r Hg) as [[o0 H0] _].
  unfold kids, GcWhite.body0. rewrite H0. destruct (ho_kids _ _ Hok r o0 H0) as (l & El & _). by rewrite El.
Qed.

Lemma dying_gone A2 Ts2 s1 Ts1 s2 fl2 : released s1 A' N Ts1 fl s2 A2 Ts2 fl2 -> r ∉ A2 ++ N.
Proof.
  intros R. destruct (phase_drop _ _ _ _ _ _ _ _ _ _ _ P HA Hz) as (_ & _ & Hn'). rewrite not_elem_of_app in *. destruct Hn' as [H1 H2].
  split; [|done]. intros Hin. by apply H1, (re_alive _ _ _ _ _ _ _ _ _ R).
Qed.

(** The memory is freed when the references are gone. *)
Lemma free_last s1 Ts1 s2 A2 Ts2 ts2 us2 fl2 : released s1 A' N Ts1 fl s2 A2 Ts2 fl2 -> phase s2 A2 N Ts2 W ds ts2 us2 fl2 ->
  pos s2 A2 Ts2 -> (forall y, y ∈ Gs -> y <> r -> hp s1 !! y = hp s !! y) -> (forall x, x <> r -> x ∈ Ts1 <-> x ∈ Ts) -> r ∉ Ts1 ->
  is_Some (hp s1 !! r) -> handle_of (body0 r) = None -> top (objects s1) = top (objects s) -> ends (efree r s2) s A N Ts W ds fl.
Proof.
  intros R P2 Q2 H1 HT Hr1 Hs Hh Et. destruct (phase_drop _ _ _ _ _ _ _ _ _ _ _ P HA Hz) as (_ & Hg & Hn').
  pose proof (dying_gone _ _ _ _ _ _ R) as Hn2. assert (Hr2 : r ∉ Ts2) by (intros Hin; by apply Hr1, (re_sub _ _ _ _ _ _ _ _ _ R)).
  destruct (delete_gone _ _ _ _ _ _ _ _ _ r P2 Hg Hn2) as (s' & E & -> & P3).
  { by rewrite (re_frame _ _ _ _ _ _ _ _ _ R). }
  { apply (unlisted_addr _ _ _ _ _ _ _ _ _ r P2). rewrite not_elem_of_app in *. tauto. }
  do 6 eexists. split; [exact E|]. split; [exact P3|]. split.
  - intros x Hx Hnx. unfold rc. cbn [set_hp hp]. rewrite lookup_delete_ne; [by apply Q2|]. intros <-. apply Hn2, elem_of_app. by left.
  - apply (released_drop s A A' N Ts fl r s1 Ts1 s2 A2 Ts2 fl2); try done.
    + apply dying_nodup.
    + intros y _ Hy. by apply lookup_delete_ne.
    + intros x. split; [|tauto]. intros Hx. split; [done|]. by intros ->.
    + intros h. rewrite Hh. split; [by left | by intros [?|?]].
    + apply lookup_delete_eq.
Qed.

Lemma dying_unlisted : listable (body o) = false -> r ∉ Ts.
Proof. rewrite dying_body. intros Hl Hin. by rewrite (ph_kinds _ _ _ _ _ _ _ _ _ P r Hin) in Hl. Qed.

(** Strings, resources, constant expressions. *)
Lemma other_ok : body o = T_OTHER -> ends (other_dtor r s) s A N Ts W ds fl.
Proof.
  intros Eb. destruct (phase_drop _ _ _ _ _ _ _ _ _ _ _ P HA Hz) as (P1 & _). pose proof dying_kids as Ek.
  rewrite Eb in Ek. injection Ek as Ek. rewrite <- Ek in P1. rewrite (other_frees r s).
  apply (free_last s Ts s A' Ts ts us fl); try done; try (by eexists); try (by rewrite <- dying_body, Eb); [apply released_refl | apply dying_unlisted; by rewrite Eb].
Qed.

Lemma reference_ok v : body o = T_REFERENCE v ->
  ends (let! g := i_zval_ptr_dtor collect unclean f v s in efree r g) s A N Ts W ds fl.
Proof.
  intros Eb. destruct (phase_drop _ _ _ _ _ _ _ _ _ _ _ P HA Hz) as (P1 & _). pose proof dying_kids as Ek.
  rewrite Eb in Ek. destruct (dtor_values_ok n f F [v] s A' N Ts W ds ts us fl) as (s2 & A2 & Ts2 & ts2 & us2 & fl2 & E & P2 & Q2 & R2); [|done| |].
  { assert (E : omap counted [v] = K r) by (destruct v; simpl in *; by injection Ek). by rewrite E. }
  { exact dying_length. }
  cbn [dtor_values] in E. destruct (i_zval_ptr_dtor collect unclean f v s) as [s2'|]; [|done]. injection E as ->. rsimp.
  apply (free_last s Ts s2 A2 Ts2 ts2 us2 fl2); try done; try (by eexists); try (by rewrite <- dying_body, Eb). apply dying_unlisted. by rewrite Eb.
Qed.

(** The entry goes, and the structure is marked destroyed. *)
Lemma array_ok used : body o = T_ARRAY used -> ends (array_destroy collect unclean f r used s) s A N Ts W ds fl.
Proof.
  intros Eb. destruct (phase_drop _ _ _ _ _ _ _ _ _ _ _ P HA Hz) as (P1 & Hg & Hn'). pose proof dying_kids as Ek.
  rewrite Eb in Ek. simpl in Ek. destruct (wa_in _ Waste r Hg) as [_ Ht]. rewrite bool_decide_eq_false_2 in Ek by done.
  rewrite (direct_values env used) in Ek by (apply (wa_array _ Waste r); [done | by rewrite <- dying_body]). injection Ek as Ek. rewrite <- Ek in P1.
  destruct (remove_gone _ _ _ _ _ _ _ _ _ r o P1 Hg Hn' Ho) as (s1 & Ts1 & ts1 & us1 & i & E1 & P2 & HT & Eh & Ei & Eo).
  unfold array_destroy. rewrite E1. rsimp. assert (Ho1 : hp s1 !! r = Some (set_info i o)) by (rewrite Eh; apply lookup_insert_eq).
  rewrite (get_counted_ok _ _ _ Ho1). rsimp. set (s1' := set_hp _ s1).
  rewrite not_elem_of_app in Hn'. destruct Hn' as [HrA HrN].
  assert (P3 : phase s1' A' N Ts1 (omap counted used ++ W) ds ts1 us1 fl).
  { apply (phase_cell s1 _ r); try done.
    - intros y Hy. by rewrite lookup_insert_ne.
    - unfold addr_of, info. rewrite lookup_insert_eq, Ho1. simpl. by rewrite Ei. }
  assert (Hoth : forall y, y <> r -> hp s1' !! y = hp s !! y).
  { intros y Hy. unfold s1'. cbn [set_hp hp]. by rewrite lookup_insert_ne, Eh, lookup_insert_ne. }
  destruct (dtor_values_ok n f F used s1' A' N Ts1 W ds ts1 us1 fl P3) as (s2 & A2 & Ts2 & ts2 & us2 & fl2 & E & P4 & Q4 & R4).
  { intros x Hx Hnx. unfold rc. rewrite Hoth by (by intros ->). apply Hpos; [done|]. intros Hin. apply Hnx, HT. split; [done | by intros ->]. }
  { exact dying_length. }
  rewrite E. rsimp. apply (free_last s1' Ts1 s2 A2 Ts2 ts2 us2 fl2); try done.
  - auto.
  - intros x Hx. rewrite HT. tauto.
  - rewrite HT. tauto.
  - unfold s1'. cbn [set_hp hp]. rewrite lookup_insert_eq. by eexists.
  - by rewrite <- dying_body, Eb.
  - unfold s1'. cbn [set_hp objects]. by rewrite Eo.
Qed.

(** The handle is free when the memory is. *)
Lemma object_ok obj : body o = T_OBJECT obj -> ends (zend_objects_store_del collect unclean f r obj s) s A N Ts W ds fl.
Proof.
  intros Eb. destruct (phase_drop _ _ _ _ _ _ _ _ _ _ _ P HA Hz) as (P1 & Hg & Hn'). pose proof dying_kids as Ek. rewrite Eb in Ek.
  assert (Hh : handle_of (body0 r) = Some (handle obj)) by (by rewrite <- dying_body, Eb).
  destruct (dropped_handle _ _ _ _ _ _ _ _ _ _ r (handle obj) P HA Hh) as [Fs Gb].
  unfold zend_objects_store_del. destruct (sw_buckets _ _ (ph_store _ _ _ _ _ _ _ _ _ P)) as (l & El & _). rewrite El, Gb. rsimp.
  rewrite obj_word_valid, (get_counted_ok _ _ _ Ho). rsimp. assert (Ez : gc_refcount o = 0) by (unfold rc in Hz; by rewrite Ho in Hz).
  rewrite Ez, Z.eqb_refl. destruct (call_destructor_ok r obj s o (wa_quiet _ Waste r Hg) Ho Eb) as (s1 & o1 & E1 & T1 & Ho1 & Ez1 & _ & Eb1); [lia|].
  assert (exists obj1, body o1 = T_OBJECT obj1 /\ (obj1 = obj \/ obj1 = set_destructor_called obj)) as (obj1 & Eb1' & Eo).
  { rewrite Eb in Eb1. destruct Eb1 as [E|(obj' & [= <-] & E)]; [exists obj; auto | exists (set_destructor_called obj); auto]. }
  clear Eb1. rename Eb1' into Eb1. rewrite Ez in Ez1.
  rewrite E1. rsimp. rewrite (get_counted_ok _ _ _ Ho1). rsimp. rewrite Ez1, Z.eqb_refl. unfold the_object. rewrite (get_counted_ok _ _ _ Ho1). rsimp.
  rewrite Eb1. rsimp. assert (Eh : handle obj1 = handle obj) by (by destruct Eo as [->| ->]). rewrite Eh.
  assert (Ek1 : kids_of env r (T_OBJECT obj1) = Ok (K r)) by (rewrite <- Ek; by destruct Eo as [->| ->]).
  pose proof Hn' as Hn0. rewrite not_elem_of_app in Hn0. destruct Hn0 as [HrA HrN].
  pose proof (phase_touch _ _ _ _ _ _ _ _ _ _ r P1 Hg HrA T1) as P2. pose proof (pos_touch _ _ _ _ _ HrA T1 Hpos) as Q2.
  destruct (phase_bucket s1 A' N Ts (K r ++ W) ds ts us fl (handle obj) (SET_OBJ_INVALID (obj_word r)) P2) as (s2 & E2 & P3 & Fs2 & Ehp & _ & Et2).
  { destruct Fs. split; [|done|done]. by rewrite (to_objects _ _ _ T1). }
  rewrite E2. rsimp. destruct (free_obj_ok n f F s2 A' N Ts W ds ts us fl r obj1 o1 P3)
    as (s3 & s4 & s5 & A2 & Ts2 & ts2 & us2 & fl2 & E3 & P4 & Q4 & T3 & R & T4); try done; [|exact dying_length|by rewrite Ehp| |].
  { intros x Hx Hnx. unfold rc. rewrite Ehp. by apply Q2. }
  { pose proof (wa_frees _ Waste r obj Hg) as Hs. rewrite <- dying_body in Hs. specialize (Hs Eb). destruct Eo as [->| ->]; [done | by apply shown_flag]. }
  rewrite E3. rsimp. pose proof (dying_gone _ _ _ _ _ _ R) as Hn2. destruct (to_cell _ _ _ T4) as (_ & o5 & _ & Ho5 & _).
  destruct (remove_gone _ _ _ _ _ _ _ _ _ r o5 P4 Hg Hn2 Ho5) as (s6 & Ts6 & ts6 & us6 & i & E6 & P6 & HT & Eh6 & Ei & Eo6).
  rewrite E6. rsimp. assert (Ho6 : hp s6 !! r = Some (set_info i o5)) by (rewrite Eh6; apply lookup_insert_eq).
  destruct (delete_gone _ _ _ _ _ _ _ _ _ r P6 Hg Hn2) as (s7 & E7 & E7' & P7); [by eexists | unfold addr_of, info; by rewrite Ho6 |].
  rewrite E7. rsimp. assert (Fs7 : free_slot s7 A2 (handle obj) fl2).
  { destruct (free_slot_later s3 A' N Ts fl s4 A2 Ts2 fl2 (handle obj)) as [a b c]; [|exact R|].
    - destruct Fs2 as [a b c]. split; [|done|done]. by rewrite (to_objects _ _ _ T3).
    - split; [|done|done]. rewrite E7'. cbn [set_hp objects]. by rewrite Eo6, (to_objects _ _ _ T4). }
  destruct (phase_free_handle _ _ _ _ _ _ _ _ _ _ P7 Fs7) as (s8 & E8 & P8 & Ehp8 & _ & Et8). rewrite E8.
  assert (Hlast : forall y, y <> r -> hp s8 !! y = hp s4 !! y).
  { intros y Hy. rewrite Ehp8, E7'. cbn [set_hp hp]. rewrite lookup_delete_ne, Eh6, lookup_insert_ne by done. by apply T4. }
  do 6 eexists. split; [done|]. split; [exact P8|]. split.
  - intros x Hx Hnx. assert (Hxr : x <> r) by (intros ->; apply Hn2, elem_of_app; by left). pose proof (to_other _ _ _ T4 x Hxr) as E.
    unfold rc. rewrite Hlast, <- E by done. apply Q4; [done|]. intros Hin. by apply Hnx, HT.
  - apply (released_drop s A A' N Ts fl r s3 Ts s4 A2 Ts2 fl2); try done.
    + apply dying_nodup.
    + intros y _ Hy. rewrite (to_other _ _ _ T3 y Hy), Ehp. by apply T1.
    + intros y _. apply Hlast.
    + intros h. rewrite Hh, elem_of_cons. split; [intros [->|?]; auto | intros [?|[= ->]]; auto].
    + by rewrite (to_objects _ _ _ T3), Et2, (to_objects _ _ _ T1).
    + rewrite Et8, E7'. cbn [set_hp objects]. by rewrite Eo6, (to_objects _ _ _ T4).
    + rewrite Ehp8, E7'. apply lookup_delete_eq.
Qed.
End Destroy.

(** [zval_dtor_func] is right for as many structures as it has fuel. *)
Lemma zval_dtor_ok n : dtor_spec n (_zval_dtor_func collect unclean (S n)).
Proof.
  induction n as [|n IH]; split.
  - intros s A A' N Ts W ds ts us fl r P HA _ _ Hn. rewrite (Permutation_length HA) in Hn. simpl in Hn. lia.
  - intros s r o Ho Eb. cbn [_zval_dtor_func]. rewrite (get_counted_ok _ _ _ Ho). rsimp. by rewrite Eb.
  - intros s A A' N Ts W ds ts us fl r P HA Hz Hpos Hn.
    assert (HrA : r ∈ A) by (rewrite HA; left). assert (Hg : r ∈ Gs) by (apply P; left; apply elem_of_app; by left).
    destruct (referred_in _ _ _ _ _ _ _ _ _ r P) as [o Ho]; [by apply (wa_in _ Waste) | by left |].
    remember (S n) as m eqn:Em. cbn [_zval_dtor_func]. rewrite (get_counted_ok _ _ _ Ho). rsimp. subst m. destruct (body o) as [obj|used|v| |] eqn:Eb.
    + by eapply object_ok.
    + by eapply array_ok.
    + by eapply reference_ok.
    + by eapply other_ok.
    + exfalso. apply (wa_null _ Waste r Hg). by rewrite <- (alive_body _ _ _ _ _ _ _ _ _ r o P (or_introl HrA) Ho).
  - intros s r o Ho Eb. cbn [_zval_dtor_func]. rewrite (get_counted_ok _ _ _ Ho). rsimp. by rewrite Eb.
Qed.
End Values.
End Phase.
