(* ===== verification/GcHusks.v ===== *)
(** * The cycle collector: the loop that destroys the garbage

    Each piece of garbage on the list becomes a husk and releases what it
    holds; in the end nothing of the garbage is alive. *)
From S2P Require Export GcRelease.

Section Husks.
Context {H : Handlers} (collect : GC -> res GC) (unclean : bool).
Context (env : genv) (h0 : heap) (Hok : heap_ok env h0) {L : HandlersOk} (Gs : list addr) (Waste : waste env h0 Gs).
Abbreviation K := (kids env h0).
Abbreviation body0 := (body0 h0).
Abbreviation phase := (phase env h0 Gs).
Abbreviation released := (released h0 Gs).

(** What the destruction of some of the list did. *)
Record destroyed (s : GC) (A N : list addr) (fl : list Z) (s' : GC) (A' N' : list addr) (fl' : list Z) : Prop := mkDestroyed {
  de_alive x : x ∈ A' -> x ∈ A;
  de_husks x : x ∈ N -> x ∈ N';
  de_new x : x ∈ N' -> x ∈ N \/ x ∈ A;
  de_frame y : y ∈ Gs -> y ∉ A ++ N -> hp s' !! y = hp s !! y;
  de_gone x : x ∈ Gs -> x ∈ A -> x ∉ A' ++ N' -> hp s' !! x = None;
  de_free h : h ∈ fl' <-> h ∈ fl \/ exists x, x ∈ A /\ (x ∉ A') /\ handle_of (body0 x) = Some h;
  de_top : top (objects s') = top (objects s)
}.

Lemma destroyed_refl s A N fl : destroyed s A N fl s A N fl.
Proof.
  split; try done.
  - by left.
  - intros x _ Hx Hn. destruct Hn. apply elem_of_app. by left.
  - intros h. split; [by left|]. intros [?|(x & ? & ? & _)]; done.
Qed.

Lemma destroyed_trans s1 A1 N1 fl1 s2 A2 N2 fl2 s3 A3 N3 fl3 :
  destroyed s1 A1 N1 fl1 s2 A2 N2 fl2 -> destroyed s2 A2 N2 fl2 s3 A3 N3 fl3 -> destroyed s1 A1 N1 fl1 s3 A3 N3 fl3.
Proof.
  intros [a1 b1 c1 d1 e1 f1 g1] [a2 b2 c2 d2 e2 f2 g2].
  assert (Hframe : forall y, y ∈ Gs -> y ∉ A2 ++ N2 -> hp s3 !! y = hp s2 !! y) by auto. split; [auto | auto | | | | |by rewrite g2].
  - intros x Hx. destruct (c2 x Hx) as [?|?]; auto.
  - intros y Hy Hn. rewrite not_elem_of_app in Hn. destruct Hn as [Hn1 Hn2]. rewrite Hframe, d1; [done|done|rewrite not_elem_of_app; tauto|done|].
    rewrite not_elem_of_app. split; [auto|]. intros Hin. by apply c1 in Hin as [?|?].
  - intros x Hg Hx Hn. rewrite not_elem_of_app in Hn. destruct Hn as [Hn1 Hn2]. destruct (decide (x ∈ A2)) as [Hin|Hin].
    + apply e2; [done|done|]. by rewrite not_elem_of_app.
    + assert (x ∉ A2 ++ N2) by (rewrite not_elem_of_app; auto). rewrite Hframe by done. by apply e1.
  - intros h. rewrite f2, f1. split.
    + intros [[?|(x & ? & ? & ?)]|(x & ? & ? & ?)]; naive_solver.
    + intros [?|(x & H1 & H2 & H3)]; [auto|]. destruct (decide (x ∈ A2)); [right; by exists x | left; right; by exists x].
Qed.

(** One of the list becomes a husk. *)
Lemma destroyed_step s A A' N fl x s1 Ts1 s2 A2 Ts2 fl2 s' fl' : A ≡ₚ x :: A' -> NoDup A ->
  released s1 A' (N ++ [x]) Ts1 fl s2 A2 Ts2 fl2 ->
  (forall y, y ≠ x -> hp s1 !! y = hp s !! y) -> (forall y, y ≠ x -> hp s' !! y = hp s2 !! y) ->
  (forall h, h ∈ fl' <-> h ∈ fl2 \/ handle_of (body0 x) = Some h) ->
  top (objects s1) = top (objects s) -> top (objects s') = top (objects s2) ->
  destroyed s A N fl s' A2 (N ++ [x]) fl'.
Proof.
  intros HA Nd R H1 H2 Hf Et1 Et2. destruct R as [a b c d e i f g]. rewrite HA in Nd. inversion_clear Nd as [|? ? Nr _].
  assert (HinA : forall y, y ∈ A <-> y = x \/ y ∈ A') by (intros y; by rewrite HA, elem_of_cons).
  assert (Hr2 : x ∉ A2) by auto. split.
  - intros y Hy. apply HinA. auto.
  - intros y Hy. apply elem_of_app. by left.
  - intros y. rewrite elem_of_app, list_elem_of_singleton, HinA. tauto.
  - intros y Hy Hn. rewrite not_elem_of_app, HinA in Hn. assert (y <> x) by tauto. rewrite H2 by done. rewrite b; [by apply H1 | done |].
    rewrite !not_elem_of_app, not_elem_of_cons. split; [tauto|]. split; [tauto|]. split; [done | apply not_elem_of_nil].
  - intros y Hg Hy Hn. assert (y <> x) by (intros ->; apply Hn; rewrite !elem_of_app, list_elem_of_singleton; auto).
    rewrite H2 by done. apply i; [done| |done]. apply HinA in Hy. tauto.
  - intros h. rewrite Hf, f. split.
    + intros [[?|(y & ? & ? & ?)]|Hh]; [by left | right; exists y; rewrite HinA; auto | right; exists x; rewrite HinA; auto].
    + intros [?|(y & Hy & Hn & Hh)]; [auto|]. apply HinA in Hy as [->|Hy]; [by right|]. left. right. by exists y.
  - by rewrite Et2, g.
Qed.

(** ** One step *)
Definition husk_of (s : GC) (x : addr) (o : refcounted) (ts : list rootp) : GC :=
  mkGC (<[x := mkCounted (gc_refcount o) (gc_info o) T_NULL]> (hp s)) (set_next_to_free (Some (hd LOCAL ts)) (gg s)) (objects s).

Lemma phase_husk s A A' N x Ts W ds p ts us fl o : phase s A N (x :: Ts) W ds (p :: ts) us fl -> A ≡ₚ x :: A' -> hp s !! x = Some o ->
  phase (husk_of s x o ts) A' (N ++ [x]) Ts (K x ++ W) (ds ++ [p]) ts us fl.
Proof.
  intros P HA Ho. assert (HinA : forall y, y ∈ A <-> y = x \/ y ∈ A') by (intros y; by rewrite HA, elem_of_cons).
  pose proof (ph_nodup _ _ _ _ _ _ _ _ _ _ _ _ P) as Nd. rewrite HA in Nd. simpl in Nd.
  assert (Hp : A' ++ N ++ [x] ≡ₚ x :: A' ++ N) by (rewrite <- Permutation_cons_append, <- Permutation_middle; done).
  pose proof Nd as Nd0. inversion_clear Nd0 as [|? ? Nx _]. rewrite not_elem_of_app in Nx. destruct Nx as [NxA NxN].
  set (h := <[x := mkCounted (gc_refcount o) (gc_info o) T_NULL]> (hp s)). assert (Hinfo : forall y, info h y = info (hp s) y).
  { intros y. unfold info, h. destruct (decide (x = y)) as [<-|Hn]; [by rewrite lookup_insert_eq, Ho | by rewrite lookup_insert_ne]. }
  assert (Hrc : forall y, rc h y = rc (hp s) y).
  { intros y. unfold rc, h. destruct (decide (x = y)) as [<-|Hn]; [by rewrite lookup_insert_eq, Ho | by rewrite lookup_insert_ne]. }
  assert (Hoth : forall y, y ∈ A' \/ y ∉ Gs -> h !! y = hp s !! y).
  { intros y Hy. unfold h. rewrite lookup_insert_ne; [done|]. intros <-. destruct Hy as [?|Hy]; [done|]. apply Hy, P. left.
    apply elem_of_app. left. apply HinA. by left. }
  assert (Hocc : forall y, occ y (flat_map K A' ++ K x ++ W) = occ y (flat_map K A ++ W)).
  { intros y. rewrite (occ_app y (flat_map K A)), (occ_perm y _ _ (Permutation_flat_map K HA)). cbn [flat_map]. rewrite !occ_app. lia. }
  destruct P as [B Ad Dn Td Al Li Nx Ac _ Ga Co Ki Av Hu In Ct Go Bd St Ha]. inversion Td as [|? ? ? ? Hx Td' E1 E2]; subst.
  split; cbn [husk_of hp gg objects].
  - destruct B as [B1 B2 B3 B4]. rewrite <- app_assoc. split; [destruct B1; by split | done..].
  - by apply (adds_same (gg s)).
  - apply Forall2_app; [|constructor; [|constructor]].
    + eapply Forall2_impl; [exact Dn|]. intros q y. unfold addr_of. by rewrite Hinfo.
    + unfold addr_of. by rewrite Hinfo.
  - eapply Forall2_impl; [exact Td'|]. intros q y. unfold addr_of. by rewrite Hinfo.
  - intros y. unfold addr_of. rewrite Hinfo. intros Hy. apply Al in Hy. rewrite <- app_assoc. exact Hy.
  - rewrite <- app_assoc. exact Li.
  - done.
  - done.
  - by rewrite Hp.
  - intros y Hy. apply Ga. rewrite Hp in Hy. rewrite elem_of_app, HinA. rewrite !elem_of_cons, elem_of_app in *. tauto.
  - intros y Hy Hc. assert (Hy' : y ∈ A) by (apply HinA; by right). pose proof (Co y Hy' Hc) as Hin. apply elem_of_cons in Hin as [->|?]; [done | done].
  - intros y Hy. apply Ki. by right.
  - intros y Hy. rewrite Hoth by done. apply Av. destruct Hy; [left; apply HinA; by right | by right].
  - intros y. unfold h. rewrite elem_of_app, list_elem_of_singleton. intros Hy. destruct (decide (x = y)) as [<-|Hn].
    + by rewrite lookup_insert_eq.
    + rewrite lookup_insert_ne by done. apply Hu. destruct Hy; [done | congruence].
  - intros y Hy. rewrite Hinfo. auto.
  - intros y Hy. rewrite Hrc, Hocc. apply Ct. rewrite HinA. tauto.
  - intros y Hy Hn. rewrite Hocc. apply Go; [done|]. rewrite Hp in Hn. rewrite elem_of_app, HinA. rewrite !elem_of_cons, elem_of_app in Hn. tauto.
  - intros y. rewrite Hocc. auto.
  - done.
  - intros y k Hy. apply Ha. rewrite HinA. tauto.
Qed.

Lemma alive_size s A N Ts W ds ts us fl : phase s A N Ts W ds ts us fl -> (length A <= size (hp s))%nat.
Proof.
  intros P. pose proof (ph_nodup _ _ _ _ _ _ _ _ _ _ _ _ P) as Nd. apply NoDup_app in Nd as [Nd _].
  rewrite <- (size_dom (D := gset addr)), <- (size_list_to_set (C := gset addr) A Nd). apply subseteq_size. intros x.
  rewrite elem_of_list_to_set, elem_of_dom. intros Hx. eapply referred_in; [exact P | | by left].
  apply (wa_in _ _ _ Waste), P. left. apply elem_of_app. by left.
Qed.

(** What a step leaves. *)
Definition stepped (m : res GC) (s : GC) (A N : list addr) (x : addr) (Ts : list addr) (ds : list rootp) (p : rootp) (fl : list Z) : Prop :=
  exists s' A' Ts' ts' us' fl', m = Ok s' /\ phase s' A' (N ++ [x]) Ts' [] (ds ++ [p]) ts' us' fl' /\ pos s' A' Ts' /\
    (forall y, y ∈ Ts' -> y ∈ Ts /\ y ∈ A') /\ destroyed s A N fl s' A' (N ++ [x]) fl'.

Section Step.
Context (s : GC) (A A' N Ts : list addr) (ds : list rootp) (p : rootp) (ts us : list rootp) (fl : list Z) (x : addr) (o : refcounted).
Context (P : phase s A N (x :: Ts) [] ds (p :: ts) us fl) (HA : A ≡ₚ x :: A') (Ho : hp s !! x = Some o).
Context (Hpos : pos s A (x :: Ts)) (Hin : forall y, y ∈ x :: Ts -> y ∈ A).
Abbreviation s0 := (on_gg (set_next_to_free (Some (hd LOCAL ts))) s).
Abbreviation s1 := (husk_of s x o ts).

Lemma step_facts : NoDup A /\ (x ∉ A') /\ (x ∉ Ts) /\ (length A' <= size (hp s))%nat /\ pos s1 A' Ts /\ body o = body0 x /\
  kids_of env x (body o) = Ok (K x) /\ x ∈ Gs.
Proof.
  pose proof (ph_nodup _ _ _ _ _ _ _ _ _ _ _ _ P) as Nd. apply NoDup_app in Nd as [Nd _]. split; [done|].
  pose proof Nd as Nd'. rewrite HA in Nd'. inversion_clear Nd' as [|? ? Nx _]. split; [done|].
  pose proof (ph_listed _ _ _ _ _ _ _ _ _ _ _ _ P) as Nl. apply NoDup_app in Nl as (_ & _ & Nl). inversion_clear Nl as [|? ? Nt _].
  split; [done|]. split. { pose proof (alive_size _ _ _ _ _ _ _ _ _ P) as Hl. rewrite (Permutation_length HA) in Hl. simpl in Hl. lia. }
  split.
  { intros y Hy Hn. replace (rc (hp s1) y) with (rc (hp s) y).
    - apply Hpos; [rewrite HA; by right|]. rewrite not_elem_of_cons. split; [by intros ->|done].
    - unfold rc. cbn [husk_of hp]. rewrite lookup_insert_ne; [done|]. by intros <-. }
  assert (HxA : x ∈ A) by (rewrite HA; left). assert (Hg : x ∈ Gs) by (apply P; left; apply elem_of_app; by left).
  pose proof (alive_body _ _ _ _ _ _ _ _ _ _ _ _ x o P (or_introl HxA) Ho) as Eb. split; [done|]. split; [|done].
  rewrite Eb. destruct (wa_in _ _ _ Waste x Hg) as [[o0 H0] _]. unfold kids, GcWhite.body0. rewrite H0.
  destruct (ho_kids _ _ Hok x o0 H0) as (l & El & _). by rewrite El.
Qed.

Lemma husk_body : set_body x T_NULL s0 = Ok s1.
Proof. by rewrite (set_body_touch x T_NULL o s0 Ho). Qed.

(** The rest of the list stays alive. *)
Lemma step_sub A2 Ts2 sa sb fl2 : released sa A' (N ++ [x]) Ts fl sb A2 Ts2 fl2 -> forall y, y ∈ Ts2 -> y ∈ Ts /\ y ∈ A2.
Proof.
  intros R y Hy. pose proof (re_sub _ _ _ _ _ _ _ _ _ _ _ R y Hy) as Hy'. split; [done|]. apply (re_left _ _ _ _ _ _ _ _ _ _ _ R y Hy).
  assert (HyA : y ∈ A) by (apply Hin; by right). rewrite HA in HyA. apply elem_of_cons in HyA as [->|?]; [|done].
  destruct step_facts as (_ & _ & Nx & _). done.
Qed.

Lemma destroy_array_ok used : body o = T_ARRAY used -> stepped (destroy_zval collect unclean x s0) s A N x Ts ds p fl.
Proof.
  intros Eb. destruct step_facts as (Nd & NxA & NxT & Hlen & Q1 & Eb0 & Ek & Hg). unfold destroy_zval. cbn [on_gg hp].
  rewrite (get_counted_ok _ _ _ Ho). rsimp. rewrite Eb, husk_body. rsimp. rewrite Eb in Ek. simpl in Ek.
  destruct (wa_in _ _ _ Waste x Hg) as [_ Ht]. rewrite bool_decide_eq_false_2 in Ek by done.
  rewrite (direct_values env used) in Ek by (apply (wa_array _ _ _ Waste x); [done | by rewrite <- Eb0]). injection Ek as Ek.
  pose proof (phase_husk _ _ _ _ _ _ _ _ _ _ _ _ _ P HA Ho) as P1. rewrite <- Ek in P1.
  destruct (dtor_values_ok env h0 Hok Gs Waste collect unclean _ _ (zval_dtor_ok env h0 Hok Gs Waste collect unclean (size (hp s))) used
    _ _ _ _ _ _ _ _ _ P1 Q1 Hlen) as (s2 & A2 & Ts2 & ts2 & us2 & fl2 & E & P2 & Q2 & R2).
  exists s2, A2, Ts2, ts2, us2, fl2. split; [exact E|]. split; [exact P2|]. split; [exact Q2|]. split; [by eapply step_sub|].
  apply (destroyed_step s A A' N fl x s1 Ts s2 A2 Ts2 fl2); try done.
  - intros y Hy. cbn [husk_of hp]. by apply lookup_insert_ne.
  - intros h. rewrite <- Eb0, Eb. split; [by left | by intros [?|?]].
Qed.

Lemma destroy_object_ok obj : body o = T_OBJECT obj -> stepped (destroy_zval collect unclean x s0) s A N x Ts ds p fl.
Proof.
  intros Eb. destruct step_facts as (Nd & NxA & NxT & Hlen & Q1 & Eb0 & Ek & Hg). unfold destroy_zval. cbn [on_gg hp].
  rewrite (get_counted_ok _ _ _ Ho). rsimp. rewrite Eb. rewrite Eb in Ek.
  assert (Hh : handle_of (body0 x) = Some (handle obj)) by (by rewrite <- Eb0, Eb).
  pose proof (phase_husk _ _ _ _ _ _ _ _ _ _ _ _ _ P HA Ho) as P1.
  destruct (dropped_handle _ _ _ _ _ _ _ _ _ _ _ _ _ x (handle obj) P HA Hh) as [[F1 F2 F3] _].
  assert (Fs : free_slot h0 Gs s1 A' (handle obj) fl) by (by split).
  destruct (phase_bucket _ _ _ _ _ _ _ _ _ _ _ _ (handle obj) (SET_OBJ_INVALID (obj_word x)) P1 Fs) as (s2 & E2 & P2 & Fs2 & Eh2 & Eg2 & Et2).
  unfold on_objects in E2 |- *. cbn [on_gg husk_of objects] in E2 |- *.
  destruct (set_bucket (handle obj) (SET_OBJ_INVALID (obj_word x)) (objects s)) as [st|]; [|done]. injection E2 as E2. rsimp.
  rewrite (set_body_touch x T_NULL o (set_objects st s0) Ho). rsimp. change (set_hp _ (set_objects st s0)) with (set_objects st s1).
  rewrite E2. assert (Ho2 : hp s2 !! x = Some (mkCounted (gc_refcount o) (gc_info o) T_NULL)).
  { rewrite Eh2. cbn [husk_of hp]. apply lookup_insert_eq. }
  destruct (free_obj_ok env h0 Hok Gs Waste collect unclean _ _ (zval_dtor_ok env h0 Hok Gs Waste collect unclean (size (hp s)))
    s2 A' (N ++ [x]) Ts [] _ _ _ _ x obj (mkCounted (gc_refcount o) (gc_info o) T_NULL) P2) as (s3 & s4 & s5 & A2 & Ts2 & ts2 & us2 & fl2 & E3 & P4 & Q4 & T3 & R & T4); try done.
  { intros y. unfold rc. rewrite Eh2. apply Q1. }
  { by apply (wa_frees _ _ _ Waste); [|rewrite <- Eb0]. }
  rewrite E3. rsimp. assert (Fs5 : free_slot h0 Gs s5 A2 (handle obj) fl2).
  { destruct (free_slot_later h0 Gs s3 A' (N ++ [x]) Ts fl s4 A2 Ts2 fl2 (handle obj)) as [a b c]; [|exact R|].
    - destruct Fs2 as [a b c]. split; [|done|done]. by rewrite (to_objects _ _ _ T3).
    - split; [|done|done]. by rewrite (to_objects _ _ _ T4). }
  destruct (phase_free_handle _ _ _ _ _ _ _ _ _ _ _ _ _ P4 Fs5) as (s6 & E6 & P6 & Eh6 & Eg6 & Et6).
  unfold on_objects in E6. exists s6, A2, Ts2, ts2, us2, (handle obj :: fl2). split; [exact E6|]. split; [exact P6|]. split.
  { intros y. unfold rc. rewrite Eh6. apply Q4. }
  split; [by eapply step_sub|]. apply (destroyed_step s A A' N fl x s3 Ts s4 A2 Ts2 fl2); try done.
  - intros y Hy. rewrite (to_other _ _ _ T3 y Hy), Eh2. cbn [husk_of hp]. by apply lookup_insert_ne.
  - intros y Hy. rewrite Eh6. by apply T4.
  - intros h. rewrite Hh, elem_of_cons. split; [intros [->|?]; auto | intros [?|[= ->]]; auto].
  - by rewrite (to_objects _ _ _ T3), Et2.
  - by rewrite Et6, (to_objects _ _ _ T4).
Qed.
End Step.

(** ** The loop *)
Lemma destroy_zvals_ok fuel : forall s A N Ts ds ts us fl, phase s A N Ts [] ds ts us fl -> pos s A Ts -> (forall y, y ∈ Ts -> y ∈ A) ->
  (length ts < fuel)%nat ->
  exists s' A' N' ds' us' fl', destroy_zvals collect unclean fuel (hd LOCAL ts) s = Ok s' /\ phase s' A' N' [] [] ds' [] us' fl' /\
    pos s' A' [] /\ destroyed s A N fl s' A' N' fl'.
Proof.
  induction fuel as [|fuel IH]; intros s A N Ts ds ts us fl P Hpos Hin Hf; [lia|]. pose proof (ph_todo _ _ _ _ _ _ _ _ _ _ _ _ P) as F.
  inversion F as [|p x ts0 Ts0 [Hr Hx] F' E1 E2]; subst; cbn [destroy_zvals hd].
  { rewrite bool_decide_eq_true_2 by done. exists s, A, N, ds, us, fl. split; [done|]. split; [done|]. split; [done | apply destroyed_refl]. }
  pose proof (ph_bufs _ _ _ _ _ _ _ _ _ _ _ _ P) as B. rewrite bool_decide_eq_false_2.
  2: { apply (valid_not_local (gg s)), (lb_valid _ _ _ B), elem_of_app. right. left. }
  rewrite (field_ok _ _ _ Hr). rsimp. destruct (lb_ring _ _ _ B) as [Sg _]. apply segment_app in Sg as [_ Sg].
  unfold step_to_free. rewrite (field_ok _ _ _ (segment_next _ _ _ _ Sg)). rsimp.
  assert (HxA : x ∈ A) by (apply Hin; left). pose proof (proj1 (elem_of_Permutation _ _) HxA) as [A' HA].
  assert (Hg : x ∈ Gs) by (apply P; left; apply elem_of_app; by left).
  destruct (referred_in _ _ _ _ _ _ _ _ _ _ _ _ x P) as [o Ho]; [by apply (wa_in _ _ _ Waste) | by left |].
  assert (Hl : listable (body o) = true).
  { rewrite (alive_body _ _ _ _ _ _ _ _ _ _ _ _ x o P (or_introl HxA) Ho). apply P. left. }
  assert (St : stepped (destroy_zval collect unclean x (on_gg (set_next_to_free (Some (hd LOCAL ts0))) s)) s A N x Ts0 ds p fl).
  { destruct (body o) as [obj|used|v| |] eqn:Eb; try done; [by eapply destroy_object_ok | by eapply destroy_array_ok]. }
  destruct St as (s1 & A1 & Ts1 & ts1 & us1 & fl1 & E & P1 & Q1 & Hsub & D1). rewrite E. rsimp.
  unfold next_current. rewrite (ph_next _ _ _ _ _ _ _ _ _ _ _ _ P1). rsimp.
  assert (Hlen : (length ts1 <= length ts0)%nat).
  { rewrite (Forall2_length _ _ _ (ph_todo _ _ _ _ _ _ _ _ _ _ _ _ P1)), (Forall2_length _ _ _ F').
    apply submseteq_length, NoDup_submseteq; [|intros y Hy; by apply Hsub].
    pose proof (ph_listed _ _ _ _ _ _ _ _ _ _ _ _ P1) as Nl. by apply NoDup_app in Nl as (_ & _ & ?). }
  simpl in Hf. destruct (IH s1 A1 (N ++ [x]) Ts1 (ds ++ [p]) ts1 us1 fl1 P1 Q1) as (s2 & A2 & N2 & ds2 & us2 & fl2 & E2 & P2 & Q2 & D2); [intros y Hy; by apply Hsub | lia |].
  exists s2, A2, N2, ds2, us2, fl2. split; [exact E2|]. split; [exact P2|]. split; [exact Q2|]. by eapply destroyed_trans.
Qed.

(** Unlisted garbage is kept alive by listed garbage only. *)
Lemma nothing_alive s A N ds us fl : phase s A N [] [] ds [] us fl -> pos s A [] -> A = [].
Proof.
  intros P Hpos. destruct A as [|x A0] eqn:EA; [done|]. exfalso. rewrite <- EA in *. assert (Hx : x ∈ A) by (rewrite EA; left). clear EA A0.
  assert (Hback : forall y, y ∈ A -> exists z, z ∈ A /\ body0 z = T_REFERENCE (GV_COUNTED y)).
  { intros y Hy. pose proof (Hpos y Hy ltac:(apply not_elem_of_nil)) as Hc. rewrite (ph_count _ _ _ _ _ _ _ _ _ _ _ _ P y (or_introl Hy)) in Hc.
    assert (Hg : y ∈ Gs) by (apply P; left; apply elem_of_app; by left). rewrite (base_garbage _ _ _ Waste y Hg), app_nil_r in Hc.
    destruct (decide (y ∈ flat_map K A)) as [Hin|Hn]; [|rewrite (occ_notin _ _ Hn) in Hc; lia].
    apply list_elem_of_In, in_flat_map in Hin as (z & Hz & Hyz). rewrite <- !list_elem_of_In in Hz, Hyz. exists z. split; [done|].
    assert (Hc' : collects (body0 z) = false).
    { destruct (collects (body0 z)) eqn:Ec; [|done]. pose proof (ph_collects _ _ _ _ _ _ _ _ _ _ _ _ P z Hz Ec) as Hin. by apply not_elem_of_nil in Hin. }
    unfold kids in Hyz. unfold GcWhite.body0 in *. destruct (h0 !! z) as [o|]; [|by apply not_elem_of_nil in Hyz].
    destruct (body o) as [obj|used|v| |]; simpl in *; try done; try by apply not_elem_of_nil in Hyz.
    - destruct (obj_free_called obj); simpl in *; [by apply not_elem_of_nil in Hyz|]. destruct (get_gc obj); [done|]. by apply not_elem_of_nil in Hyz.
    - destruct v; try by apply not_elem_of_nil in Hyz. by apply list_elem_of_singleton in Hyz as ->. }
  destruct (Hback x Hx) as (y & Hy & Ey). destruct (Hback y Hy) as (z & Hz & Ez).
  assert (Hg : z ∈ Gs) by (apply P; left; apply elem_of_app; by left). by apply (wa_ref _ _ _ Waste z y _ Hg Ez Ey).
Qed.
End Husks.

(** * The cycle collector: freeing the husks *)

(** ** [gc_collect_roots] leaves the objects store alone *)
Section Keeps.
Context {A B : Type} (child : A -> addr -> res (A * Z)) (f : A -> B).
Context (Hchild : forall s r s' n, child s r = Ok (s', n) -> f s' = f s).

Lemma collect_each_keeps l : forall s c s' c', collect_each child l s c = Ok (s', c') -> f s' = f s.
Proof.
  induction l as [|v l IH]; intros s c s' c'; simpl; [by intros [= ->]|]. destruct (counted v) as [r|]; [|apply IH].
  destruct (child s r) as [[s1 n]|] eqn:E; [|done]. rsimp. intros E1. by rewrite (IH _ _ _ _ E1), (Hchild _ _ _ _ E).
Qed.

Lemma collect_values_keeps tested l s c s' c' : collect_values child tested l s c = Ok (s', c') -> f s' = f s.
Proof.
  unfold collect_values. destruct (count_back tested l (length l) c) as [c1 [n|]]; [|by intros [= ->]].
  destruct (collect_each child (take n l) s c1) as [[s1 c2]|] eqn:E; [|done]. rsimp. destruct (l !! n) as [[| |r|]|]; try done.
  destruct (child s1 r) as [[s2 m]|] eqn:E1; [|done]. rsimp. intros [= <- _]. by rewrite (Hchild _ _ _ _ E1), (collect_each_keeps _ _ _ _ _ E).
Qed.

Lemma collect_ht_keeps env used s c s' c' : collect_ht child env used s c = Ok (s', c') -> f s' = f s.
Proof.
  unfold collect_ht. destruct (length used =? 0)%nat; [by intros [= ->]|]. destruct (ht_values env used); [|done]. apply collect_values_keeps.
Qed.

Lemma collect_object_keeps env view s c s' c' : collect_object child env view s c = Ok (s', c') -> f s' = f s.
Proof.
  unfold collect_object. destruct (gc_ht view) as [used|].
  - destruct (collect_each child (gc_table view) s c) as [[s1 c1]|] eqn:E; [|done]. rsimp. intros E1.
    by rewrite (collect_ht_keeps _ _ _ _ _ _ E1), (collect_each_keeps _ _ _ _ _ E).
  - destruct (gc_table view); [by intros [= ->] | apply collect_values_keeps].
Qed.
End Keeps.

Ltac bind_case :=
  match goal with |- (rbind ?m _ = Ok _) -> _ => let a := fresh "a" in let E := fresh "E" in destruct m as [a|] eqn:E; [cbn [rbind] | done] end.

Lemma add_if_new_keeps ref g g' : add_if_new ref g = Ok g' -> objects g' = objects g.
Proof.
  unfold add_if_new. bind_case. destruct (gc_info a =? 0); [|by intros [= ->]]. unfold gc_add_garbage. bind_case. destruct a0 as [[b i] gl].
  bind_case. bind_case. by intros [= <-].
Qed.

Lemma collect_white_keeps env fuel : forall (s : GC * Z) r s' n, gc_collect_white fuel env s r = Ok (s', n) ->
  objects (fst s') = objects (fst s).
Proof.
  induction fuel as [|fuel IH]; [done|]. intros [g flags] ref s' n. cbn [gc_collect_white]. bind_case. destruct (a =? GC_WHITE); [|by intros [= <- _]].
  bind_case. bind_case. change (objects (fst (g, flags))) with (objects (set_hp a0 g)). set (g1 := set_hp a0 g). clearbody g1.
  set (child := fun (s : GC * Z) (r : addr) => let! g := add_ref r (fst s) in gc_collect_white fuel env (g, snd s) r).
  assert (Hc : forall s x s1 m, child s x = Ok (s1, m) -> objects (fst s1) = objects (fst s)).
  { intros s x s1 m. unfold child, add_ref. destruct (add_refcount 1 x (hp (fst s))); [cbn [rbind]|done]. intros Ec. by apply IH in Ec. }
  destruct (body a1) as [obj|used|v| |]; [| | |by intros [= <- _]..].
  - destruct (negb (obj_free_called obj)); [|by intros [= <- _]]. destruct (get_gc obj); [|by intros [= <- _]]. bind_case. intros Ec.
    rewrite <- (add_if_new_keeps _ _ _ E2). by apply (collect_object_keeps child (fun s => objects (fst s)) Hc) in Ec.
  - bind_case. intros Ec. rewrite <- (add_if_new_keeps _ _ _ E2). by apply (collect_ht_keeps child (fun s => objects (fst s)) Hc) in Ec.
  - destruct v; try by intros [= <- _]. bind_case. destruct a2 as [s1 m]. intros [= <- _]. by apply Hc in E2.
Qed.

Lemma remove_black_keeps fuel : forall current g g', remove_black fuel current g = Ok g' -> objects g' = objects g.
Proof.
  induction fuel as [|fuel IH]; [done|]. intros current g g'. cbn [remove_black]. case_bool_decide; [by intros [= ->]|].
  bind_case. bind_case. bind_case. destruct (GC_REF_GET_COLOR a1 =? GC_BLACK); cbn [rbind]; [|apply IH].
  destruct (if _ <? _ then _ else _); [|done]. cbn [rbind]. intros Ec. by apply IH in Ec.
Qed.

Lemma collect_loop_keeps env fuel : forall current s count s' n, collect_roots_loop fuel env current s count = Ok (s', n) ->
  objects (fst s') = objects (fst s).
Proof.
  induction fuel as [|fuel IH]; [done|]. intros current s count s' n. cbn [collect_roots_loop]. case_bool_decide; [by intros [= ->]|].
  bind_case. bind_case. destruct (a0 =? GC_WHITE).
  - destruct (gc_collect_white _ env s a) as [[s1 m]|] eqn:E1; [|done]. rsimp. bind_case.
    intros Ec. apply IH in Ec. by rewrite Ec, (collect_white_keeps _ _ _ _ _ _ E1).
  - rsimp. bind_case. apply IH.
Qed.

Lemma collect_roots_keeps env g flags g' flags' n : gc_collect_roots env g flags = Ok (g', flags', n) -> objects g' = objects g.
Proof.
  unfold gc_collect_roots. bind_case. bind_case. bind_case. bind_case. destruct a2 as [[g1 f1] m]. bind_case. intros [= <- _ _].
  apply collect_loop_keeps in E2. apply remove_black_keeps in E0. transitivity (objects g1); [done | by transitivity (objects a0)].
Qed.

(** ** Following the local list *)
Fixpoint leads (nx : gmap rootp rootp) (ps : list rootp) : Prop :=
  match ps with [] => True | p :: ps => nx !! p = Some (hd LOCAL ps) /\ leads nx ps end.

Lemma segment_leads l a ps : segment l a ps LOCAL -> leads (rb_next l) ps.
Proof. revert a. induction ps as [|p ps IH]; intros a; simpl; [done|]. intros (_ & _ & S). split; [apply (segment_next _ _ _ _ S) | by apply (IH p)]. Qed.

Abbreviation refer := (fun (l : links) (p : rootp) (r : addr) => rb_ref l !! p = Some r).

(** *** Freeing *)
Lemma unused_entry_ok g us p : bufs_ok g [] [] us -> in_buf p -> valid_entry g p -> p ∉ us ->
  bufs_ok (set_unused (Some p) (set_lk (set_prev p (unused g) (lk g)) g)) [] [] (p :: us).
Proof.
  intros B Hp Hv Hn. destruct (head_not_valid _ _ Hv) as [H1 H2]. split; simpl.
  - apply B.
  - destruct (bo_roots _ _ _ _ B) as [[R1 R2] N]. split; [|done]. simpl. by rewrite lookup_insert_ne.
  - destruct (bo_free _ _ _ _ B) as [[R1 R2] N]. split; [|done]. simpl. by rewrite lookup_insert_ne.
  - split; [done|]. exists (unused g). rewrite lookup_insert_eq. split; [done|]. eapply unused_frame; [apply B|].
    intros u Hu. apply lookup_insert_ne. by intros <-.
  - intros q [->|Hq]%elem_of_cons; [done | by apply (bo_valid _ _ _ _ B q)].
  - intros q [->|Hq]%elem_of_cons; [done | by apply (bo_buf _ _ _ _ B q)].
  - constructor; [done | by apply (bo_nodup _ _ _ _ B)].
  - apply B.
Qed.

Lemma free_objects_ok fuel : forall ds N us s, leads (rb_next (lk (gg s))) ds -> Forall2 (refer (lk (gg s))) ds N ->
  bufs_ok (gg s) [] [] us -> (forall p, p ∈ ds -> valid_entry (gg s) p) -> NoDup (ds ++ us) -> NoDup N ->
  (forall x, x ∈ N -> is_Some (hp s !! x)) -> (length ds < fuel)%nat ->
  exists s' u l us', free_objects fuel (hd LOCAL ds) s = Ok s' /\ gg s' = set_unused u (set_lk l (gg s)) /\ objects s' = objects s /\
    bufs_ok (gg s') [] [] us' /\ forall x, hp s' !! x = if bool_decide (x ∈ N) then None else hp s !! x.
Proof.
  induction fuel as [|fuel IH]; intros ds N us s Hl F B Hv Nd NdN Hs Hf; [lia|].
  inversion F as [|p x ds0 N0 Hr F' E1 E2]; subst; cbn [free_objects hd].
  { rewrite bool_decide_eq_true_2 by done. exists s, (unused (gg s)), (lk (gg s)), us. split; [done|]. split; [by destruct s as [? []]|].
    split; [done|]. split; [done|]. intros x. by rewrite bool_decide_eq_false_2 by apply not_elem_of_nil. }
  assert (Hvp : valid_entry (gg s) p) by (apply Hv; left). rewrite bool_decide_eq_false_2 by (by apply (valid_not_local (gg s))).
  destruct Hl as [Hn Hl]. rewrite (field_ok _ _ _ Hn). rsimp. rewrite (field_ok _ _ _ Hr). rsimp. destruct (Hs x ltac:(left)) as [o Ho].
  set (s1 := match p with BUF _ => _ | _ => s end). simpl in Nd. inversion_clear Nd as [|? ? Np Nd']. rewrite not_elem_of_app in Np. destruct Np as [Npd Npu].
  inversion_clear NdN as [|? ? Nx NdN'].
  assert (exists u l us1, gg s1 = set_unused u (set_lk l (gg s)) /\ hp s1 = hp s /\ objects s1 = objects s /\ bufs_ok (gg s1) [] [] us1 /\
    rb_next l = rb_next (lk (gg s)) /\ rb_ref l = rb_ref (lk (gg s)) /\ NoDup (ds0 ++ us1)) as (u & l & us1 & Eg & Eh & Eo & B1 & En & Er & Nd1).
  { unfold s1. destruct p as [| |i|b i|]; try done.
    - eexists _, _, (BUF i :: us). split; [done|]. do 2 (split; [done|]). split; [by apply unused_entry_ok|]. do 2 (split; [done|]).
      rewrite <- Permutation_middle. constructor; [by rewrite not_elem_of_app | done].
    - exists (unused (gg s)), (lk (gg s)), us. split; [by destruct s as [? []] | done]. }
  unfold efree. rewrite Eh, (get_counted_ok _ _ _ Ho). rsimp. set (s2 := set_hp _ s1).
  assert (Elk : lk (gg s2) = l) by (cbn [s2 set_hp gg]; by rewrite Eg).
  destruct (IH ds0 N0 us1 s2) as (s' & u' & l' & us' & E & Eg' & Eo' & B' & Hh); try done.
  - by rewrite Elk, En.
  - eapply Forall2_impl; [exact F'|]. intros q y. by rewrite Elk, Er.
  - intros q Hq. cbn [s2 set_hp gg]. rewrite Eg. apply (Hv q). by right.
  - intros y Hy. cbn [s2 set_hp hp]. rewrite lookup_delete_ne by (by intros <-). apply Hs. by right.
  - simpl in Hf. lia.
  - exists s', u', l', us'. split; [exact E|]. split; [by rewrite Eg'; cbn [s2 set_hp gg]; rewrite Eg|]. split; [by rewrite Eo'|]. split; [done|].
    intros y. rewrite Hh. cbn [s2 set_hp hp]. destruct (decide (x = y)) as [<-|Hne].
    + rewrite (bool_decide_eq_true_2 (x ∈ x :: N0)) by left. case_bool_decide; [done | apply lookup_delete_eq].
    + rewrite lookup_delete_ne by done. rewrite (bool_decide_ext (y ∈ x :: N0) (y ∈ N0)); [done|]. rewrite elem_of_cons.
      split; [intros [?|?]; [congruence | done] | by right].
Qed.

Lemma free_additional_all adds : free_additional 0 adds = Ok [].
Proof. by induction adds. Qed.

(** *** Destructors that do nothing *)
Definition flagged (h h' : heap) : Prop := forall x, option_Forall2 flag_of (h !! x) (h' !! x).

Lemma flag_refl o : flag_of o o.
Proof. do 2 (split; [done|]). by left. Qed.

Lemma flagged_refl h : flagged h h.
Proof. intros x. destruct (h !! x); constructor. apply flag_refl. Qed.

Lemma flag_trans o1 o2 o3 : flag_of o1 o2 -> flag_of o2 o3 -> flag_of o1 o3.
Proof.
  intros (a1 & b1 & c1) (a2 & b2 & c2). split; [congruence|]. split; [congruence|].
  destruct c1 as [c1|(obj & c1 & d1)], c2 as [c2|(obj' & c2 & d2)].
  - left. congruence.
  - right. exists obj'. split; congruence.
  - right. exists obj. split; congruence.
  - right. exists obj. split; [done|]. rewrite d2. rewrite d1 in c2. injection c2 as <-. done.
Qed.

Lemma flagged_trans h1 h2 h3 : flagged h1 h2 -> flagged h2 h3 -> flagged h1 h3.
Proof.
  intros H1 H2 x. specialize (H1 x). specialize (H2 x). destruct (h1 !! x), (h2 !! x), (h3 !! x); try by inversion H1; inversion H2.
  - inversion H1; inversion H2; subst. constructor. by eapply flag_trans.
Qed.

Lemma flagged_rc h h' x : flagged h h' -> rc h' x = rc h x /\ info h' x = info h x.
Proof. intros Hf. specialize (Hf x). unfold rc, info. destruct (h !! x), (h' !! x); inversion Hf as [? ? (? & ? & _)|]; subst; done. Qed.

Lemma flagged_some h h' x : flagged h h' -> is_Some (h !! x) -> is_Some (h' !! x).
Proof. intros Hf [o Ho]. specialize (Hf x). rewrite Ho in Hf. destruct (h' !! x); [by eexists | by inversion Hf]. Qed.

Section Quiet.
Context {H : Handlers}.

(** The fields of the collector but [next_to_free] stay. *)
Definition moved (g g' : zend_gc_globals) : Prop := exists y, g' = set_next_to_free y g.

Lemma moved_refl g : moved g g.
Proof. exists (next_to_free g). by destruct g. Qed.

Lemma moved_set y g g' : moved (set_next_to_free y g) g' -> moved g g'.
Proof. intros [z ->]. by exists z. Qed.

Lemma moved_links g g' : moved g g' -> lk g' = lk g.
Proof. by intros [y ->]. Qed.

Lemma remember_ok fuel : forall ps fs saved s, leads (rb_next (lk (gg s))) ps -> Forall2 (refer (lk (gg s))) ps fs -> NoDup ps ->
  LOCAL ∉ ps -> (forall x, x ∈ fs -> is_Some (hp s !! x)) -> (length ps < fuel)%nat ->
  exists saved', remember_refcounts fuel (hd LOCAL ps) saved s = Ok saved' /\ (forall p, p ∉ ps -> saved' !! p = saved !! p) /\
    Forall2 (fun p x => saved' !! p = Some (rc (hp s) x)) ps fs.
Proof.
  induction fuel as [|fuel IH]; intros ps fs saved s Hl F Nd HL Hs Hf; [lia|].
  inversion F as [|p x ps0 fs0 Hr F' E1 E2]; subst; cbn [remember_refcounts hd].
  { rewrite bool_decide_eq_true_2 by done. by exists saved. }
  apply not_elem_of_cons in HL as [HL0 HL]. rewrite bool_decide_eq_false_2 by congruence. destruct Hl as [Hn Hl].
  inversion_clear Nd as [|? ? Np Nd']. rewrite (field_ok _ _ _ Hr). rsimp. destruct (Hs x ltac:(left)) as [o Ho]. rewrite (get_counted_ok _ _ _ Ho). rsimp.
  rewrite (field_ok _ _ _ Hn). rsimp. destruct (IH ps0 fs0 (<[p := gc_refcount o]> saved) s) as (saved' & E & Hout & Fs); try done.
  { intros y Hy. apply Hs. by right. } { simpl in Hf. lia. }
  exists saved'. split; [exact E|]. split.
  - intros q Hq. apply not_elem_of_cons in Hq as [Hq1 Hq2]. rewrite Hout, lookup_insert_ne by done. done.
  - constructor; [|done]. rewrite Hout by done. rewrite lookup_insert_eq. unfold rc. by rewrite Ho.
Qed.

Lemma call_destructors_ok fuel : forall ps fs s, leads (rb_next (lk (gg s))) ps -> Forall2 (refer (lk (gg s))) ps fs -> LOCAL ∉ ps ->
  (forall x, x ∈ fs -> is_Some (hp s !! x) /\ 0 <= rc (hp s) x < 2 ^ 32 /\ forall g, dtor_obj x g = Ok g) -> (length ps < fuel)%nat ->
  exists s', call_destructors fuel (hd LOCAL ps) s = Ok s' /\ moved (gg s) (gg s') /\ objects s' = objects s /\
    flagged (hp s) (hp s') /\ forall x, x ∉ fs -> hp s' !! x = hp s !! x.
Proof.
  induction fuel as [|fuel IH]; intros ps fs s Hl F HL Hs Hf; [lia|]. inversion F as [|p x ps0 fs0 Hr F' E1 E2]; subst; cbn [call_destructors hd].
  { rewrite bool_decide_eq_true_2 by done. exists s. split; [done|]. split; [apply moved_refl|]. split; [done|]. split; [apply flagged_refl | done]. }
  apply not_elem_of_cons in HL as [HL0 HL]. rewrite bool_decide_eq_false_2 by congruence. destruct Hl as [Hn Hl].
  rewrite (field_ok _ _ _ Hr). rsimp. unfold step_to_free. rewrite (field_ok _ _ _ Hn). rsimp. set (s1 := on_gg _ s).
  destruct (Hs x ltac:(left)) as ([o Ho] & Hrc & Hq). change (hp s1) with (hp s). rewrite (get_counted_ok _ _ _ Ho). rsimp.
  assert (exists s2, match body o with T_OBJECT obj => call_destructor x obj s1 | _ => Ok s1 end = Ok s2 /\ gg s2 = gg s1 /\
    objects s2 = objects s1 /\ flagged (hp s) (hp s2) /\ forall y, y <> x -> hp s2 !! y = hp s !! y) as (s2 & E & Eg & Eo & Fl & Hoth).
  { destruct (body o) as [obj|used|v| |] eqn:Eb; try (exists s1; do 3 (split; [done|]); split; [apply flagged_refl | done]).
    unfold rc in Hrc. rewrite Ho in Hrc. destruct (call_destructor_ok x obj s1 o Hq Ho Eb Hrc) as (s2 & o2 & E & T & Ho2 & Fo).
    exists s2. split; [done|]. split; [by apply T|]. split; [by apply T|]. split; [|by apply T].
    intros y. destruct (decide (y = x)) as [->|Hy]; [rewrite Ho, Ho2; by constructor|]. rewrite (to_other _ _ _ T y Hy). apply flagged_refl. }
  rewrite E. rsimp. unfold next_current. rewrite Eg. cbn [s1 on_gg gg set_next_to_free next_to_free deref_root rbind].
  destruct (IH ps0 fs0 s2) as (s' & E' & Hm & Eo' & Fl' & Hoth'); try (by rewrite Eg).
  - done.
  - intros y Hy. destruct (Hs y ltac:(by right)) as (Hs1 & Hs2 & Hs3). split; [exact (flagged_some _ _ y Fl Hs1)|]. split; [|done].
    by rewrite (proj1 (flagged_rc _ _ y Fl)).
  - simpl in Hf. lia.
  - exists s'. split; [exact E'|]. split; [rewrite Eg in Hm; exact (moved_set _ _ _ Hm)|]. split; [by rewrite Eo', Eo|]. split; [exact (flagged_trans _ _ _ Fl Fl')|].
    intros y Hy. apply not_elem_of_cons in Hy as [Hy1 Hy2]. rewrite Hoth' by done. by apply Hoth.
Qed.

(** No count has risen, so nothing was captured. *)
Lemma remove_captured_ok fuel env saved : forall ps fs s, leads (rb_next (lk (gg s))) ps -> Forall2 (refer (lk (gg s))) ps fs -> LOCAL ∉ ps ->
  (forall x, x ∈ fs -> is_Some (hp s !! x)) -> Forall2 (fun p x => saved !! p = Some (rc (hp s) x)) ps fs -> (length ps < fuel)%nat ->
  exists s', remove_captured fuel env saved (hd LOCAL ps) s = Ok s' /\ moved (gg s) (gg s') /\ objects s' = objects s /\ hp s' = hp s.
Proof.
  induction fuel as [|fuel IH]; intros ps fs s Hl F HL Hs Fs Hf; [lia|]. inversion F as [|p x ps0 fs0 Hr F' E1 E2]; subst; cbn [remove_captured hd].
  { rewrite bool_decide_eq_true_2 by done. exists s. split; [done|]. split; [apply moved_refl | done]. }
  apply not_elem_of_cons in HL as [HL0 HL]. rewrite bool_decide_eq_false_2 by congruence. destruct Hl as [Hn Hl].
  inversion Fs as [|? ? ? ? Hsv Fs' E1 E2]; subst. unfold step_to_free. rewrite (field_ok _ _ _ Hn). rsimp. set (s1 := on_gg _ s).
  change (lk (gg s1)) with (lk (gg s)). change (hp s1) with (hp s). rewrite (field_ok _ _ _ Hr). rsimp. destruct (Hs x ltac:(left)) as [o Ho].
  rewrite (get_counted_ok _ _ _ Ho). rsimp. rewrite (field_ok _ _ _ Hsv). rsimp. unfold rc. rewrite Ho, Z.ltb_irrefl. rsimp.
  unfold next_current. cbn [s1 on_gg gg set_next_to_free next_to_free deref_root rbind].
  destruct (IH ps0 fs0 s1) as (s' & E' & Hm & Eo' & Eh'); try done.
  - intros y Hy. apply Hs. by right.
  - simpl in Hf. lia.
  - exists s'. split; [exact E'|]. split; [exact (moved_set _ _ _ Hm) | done].
Qed.

Lemma run_destructors_ok env ps us fs s : local_bufs (gg s) ps us -> Forall2 (refer (lk (gg s))) ps fs ->
  (forall x, x ∈ fs -> is_Some (hp s !! x) /\ 0 <= rc (hp s) x < 2 ^ 32 /\ forall g, dtor_obj x g = Ok g) ->
  exists s', run_destructors env s = Ok s' /\ moved (gg s) (gg s') /\ objects s' = objects s /\ flagged (hp s) (hp s') /\
    forall x, x ∉ fs -> hp s' !! x = hp s !! x.
Proof.
  intros B F Hs. destruct (lb_ring _ _ _ B) as [Sg Nd]. inversion_clear Nd as [|? ? NL Nd']. pose proof (segment_leads _ _ _ Sg) as Hl.
  pose proof (ring_size _ _ _ (lb_ring _ _ _ B)) as Hsz. unfold run_destructors, ring_fuel. rewrite (field_ok _ _ _ (segment_next _ _ _ _ Sg)). rsimp.
  destruct (remember_ok (S (size (rb_next (lk (gg s))))) ps fs ∅ s) as (saved & E1 & _ & Fs); try done.
  { intros x Hx. by apply Hs. } { lia. }
  rewrite E1. rsimp. destruct (call_destructors_ok (S (size (rb_next (lk (gg s))))) ps fs s) as (s1 & E2 & M1 & Eo & Fl & Hoth); try done; [lia|].
  rewrite E2. rsimp. pose proof (moved_links _ _ M1) as El. rewrite El, (field_ok _ _ _ (segment_next _ _ _ _ Sg)). rsimp.
  destruct (remove_captured_ok (S (size (rb_next (lk (gg s1)))) ) env saved ps fs s1) as (s2 & E3 & M2 & Eo2 & Eh2); try (by rewrite El).
  - done.
  - intros x Hx. eapply flagged_some; [exact Fl | by apply Hs].
  - eapply Forall2_impl; [exact Fs|]. intros p x. by rewrite (proj1 (flagged_rc _ _ x Fl)).
  - rewrite El. lia.
  - rewrite El in E3. exists s2. split; [exact E3|]. split.
    { destruct M1 as [y Ey]. rewrite Ey in M2. exact (moved_set _ _ _ M2). }
    rewrite Eo2, Eo, Eh2. done.
Qed.
End Quiet.
