(* ===== verification/GcCorrect.v ===== *)
(** * The cycle collector: from the list to free to the end *)
From S2P Require Export GcHusks.

(** ** Heaps with the same shape

    They differ in [gc_info] and in the flag of called destructors. *)
Definition kin (h h' : heap) : Prop := forall x, option_Forall2 (fun o o' => gc_refcount o' = gc_refcount o /\
  (body o' = body o \/ exists obj, body o = T_OBJECT obj /\ body o' = T_OBJECT (set_destructor_called obj))) (h !! x) (h' !! x).

Lemma flagged_kin h h' : flagged h h' -> kin h h'.
Proof. intros F x. specialize (F x). inversion F as [? ? (? & _ & ?)|]; constructor. done. Qed.

Section Kin.
Context (env : genv) (h h' : heap) (Kin : kin h h').

Lemma kin_in x : in_heap h' x <-> in_heap h x.
Proof. unfold in_heap. pose proof (Kin x) as F. by inversion F. Qed.

Lemma kin_rc x : rc h' x = rc h x.
Proof. unfold rc. pose proof (Kin x) as F. inversion F as [? ? (E & _)|]; subst; done. Qed.

Lemma kin_body x : body0 h' x = body0 h x \/ exists obj, body0 h x = T_OBJECT obj /\ body0 h' x = T_OBJECT (set_destructor_called obj).
Proof. unfold body0. pose proof (Kin x) as F. inversion F as [? ? (_ & E)|]; subst; auto. Qed.

Lemma kin_kids x : kids env h' x = kids env h x.
Proof.
  unfold kids. pose proof (Kin x) as F. inversion F as [o o' (_ & E) E1 E2|]; subst; [|done].
  destruct E as [->|(obj & -> & ->)]; [done|]. simpl. done.
Qed.

Lemma kin_collects x : collects (body0 h' x) = collects (body0 h x).
Proof. by destruct (kin_body x) as [->|(obj & -> & ->)]. Qed.

Lemma kin_listable x : listable (body0 h' x) = listable (body0 h x).
Proof. by destruct (kin_body x) as [->|(obj & -> & ->)]. Qed.

Lemma kin_handle x : handle_of (body0 h' x) = handle_of (body0 h x).
Proof. by destruct (kin_body x) as [->|(obj & -> & ->)]. Qed.

Lemma kin_heap_ok : heap_ok env h -> heap_ok env h'.
Proof.
  intros [H1 H2 H3]. split.
  - intros x o' Ho'. pose proof (Kin x) as F. rewrite Ho' in F. inversion F as [o ? (_ & E) Eo|]; subst.
    destruct (H1 x o (eq_sym Eo)) as (l & El & Hl). exists l. split; [|intros r Hr; by apply kin_in, Hl].
    by destruct E as [->|(obj & Eb & ->)]; [|rewrite Eb in El].
  - intros o' Ho'. pose proof (Kin (symbol_table env)) as F. rewrite Ho' in F. inversion F as [o ? (_ & E) Eo|]; subst.
    destruct (H2 o (eq_sym Eo)) as [used Eu]. exists used. destruct E as [->|(obj & Eb & _)]; [done | congruence].
  - intros x. by rewrite kin_rc.
Qed.

Lemma kin_flat Gs : flat_map (kids env h') Gs = flat_map (kids env h) Gs.
Proof. apply flat_map_ext. apply kin_kids. Qed.

Lemma kin_waste {H : Handlers} {L : HandlersOk} Gs : waste env h Gs -> waste env h' Gs.
Proof.
  intros [a b c d e f i j k l]. split; rewrite ?kin_flat.
  - done.
  - intros x Hx. rewrite kin_in. auto.
  - intros x y Hx. rewrite kin_kids. by apply c.
  - intros x Hx. rewrite kin_rc. auto.
  - intros y. rewrite kin_rc. auto.
  - intros x used Hx Eb. apply (f x); [done|]. destruct (kin_body x) as [E|(obj & E & E')]; congruence.
  - intros x r v Hx Eb Er. apply (i x r v Hx).
    + destruct (kin_body x) as [E|(obj & E & E')]; congruence.
    + destruct (kin_body r) as [E|(obj & E & E')]; congruence.
  - intros x Hx Eb. apply (j x Hx). destruct (kin_body x) as [E|(obj & E & E')]; congruence.
  - done.
  - intros x obj Hx Eb. destruct (kin_body x) as [E|(obj' & E & E')]; [apply l; congruence|]. rewrite Eb in E'. injection E' as ->.
    by apply shown_flag, l.
Qed.
End Kin.

Lemma like_kin h h' : like h h' -> (forall x, in_heap h x -> rc h' x = rc h x) -> kin h h'.
Proof.
  intros L Hr x. pose proof (lk_body _ _ L x) as Hb. destruct (h !! x) as [o|] eqn:E, (h' !! x) as [o'|] eqn:E'; try done; constructor.
  injection Hb as Hb. split; [|by left]. specialize (Hr x ltac:(by exists o)). unfold rc in Hr. by rewrite E, E' in Hr.
Qed.

(** ** Freeing the garbage *)
Section FreeGarbage.
Context {H : Handlers} (collect : GC -> res GC) (unclean : bool) (env : genv) {L : HandlersOk}.

(** What the collection has found: [Gs] is garbage, and [fs] of it is on the list. *)
Record found (h : heap) (st : zend_objects_store) (Gs fs : list addr) (fl : list Z) : Prop := mkFound {
  fo_heap : heap_ok env h;
  fo_waste : waste env h Gs;
  fo_list x : x ∈ fs -> x ∈ Gs /\ listable (body0 h x) = true;
  fo_collects x : x ∈ Gs -> collects (body0 h x) = true -> x ∈ fs;
  fo_referred x : x ∈ Gs -> x ∉ fs -> 0 < rc h x;
  fo_store : store_wf st fl;
  fo_handles x k : in_heap h x -> handle_of (body0 h x) = Some k -> live_at st k x
}.

Lemma kin_found h h' st Gs fs fl : kin h h' -> found h st Gs fs fl -> found h' st Gs fs fl.
Proof.
  intros Kin [a b c d e f i]. split.
  - by apply (kin_heap_ok env h).
  - by apply (kin_waste env h).
  - intros x Hx. rewrite (kin_listable h h' Kin). auto.
  - intros x. rewrite (kin_collects h h' Kin). auto.
  - intros x. rewrite (kin_rc h h' Kin). auto.
  - done.
  - intros x k. rewrite (kin_in h h' Kin), (kin_handle h h' Kin). auto.
Qed.

(** The destruction starts with all garbage alive. *)
Lemma phase_start s Gs fs fl ps us : found (hp s) (objects s) Gs fs fl -> local_bufs (gg s) ps us -> adds_ok (gg s) ->
  rooted (hp s) (lk (gg s)) ps fs -> next_to_free (gg s) = Some (hd LOCAL ps) -> gc_active (gg s) = true ->
  phase env (hp s) Gs s Gs [] fs [] [] ps us fl.
Proof.
  intros [Hok W Hfs Hco Hrf St Ha] B Ad [F N A] En Ea. split; try done; rewrite ?app_nil_r; try (intros y; rewrite ?app_nil_r).
  - apply W.
  - intros [?|Hy]; [done | by apply Hfs].
  - intros Hy. by apply Hfs.
  - by intros Hy%not_elem_of_nil.
  - unfold base. intros _. lia.
  - done.
  - lia.
  - intros k _ Hk. apply Ha; [|done]. unfold in_heap, GcWhite.body0 in *. destruct (hp s !! y); [by eexists | done].
Qed.

Lemma local_moved g g' ps us : moved g g' -> local_bufs g ps us -> local_bufs g' ps us.
Proof. intros [y ->] [B1 B2 B3 B4]. split; [destruct B1; by split | done..]. Qed.

(** [destroy_zvals] sets [next_to_free] before it reads it. *)
Lemma destroy_zvals_next fuel p y s : p <> LOCAL ->
  destroy_zvals collect unclean (S fuel) p (on_gg (set_next_to_free y) s) = destroy_zvals collect unclean (S fuel) p s.
Proof. intros Hp. cbn [destroy_zvals]. by rewrite bool_decide_eq_false_2. Qed.

(** What is left: the garbage is gone, the rest has lost the references from it. *)
Record reclaimed (h : heap) (Gs : list addr) (fl : list Z) (s' : GC) : Prop := mkReclaimed {
  rl_gone x : x ∈ Gs -> hp s' !! x = None;
  rl_body x : x ∉ Gs -> body <$> hp s' !! x = body <$> h !! x;
  rl_count x : x ∉ Gs -> rc (hp s') x = rc h x - occ x (flat_map (kids env h) Gs);
  rl_bufs : exists us, bufs_ok (gg s') [] [] us;
  rl_additional : additional (gg s') = [];
  rl_idle : gc_active (gg s') = false;
  rl_store : exists fl', store_wf (objects s') fl' /\ forall k, k ∈ fl' <-> k ∈ fl \/ exists x, x ∈ Gs /\ handle_of (body0 h x) = Some k;
  rl_handles x k : x ∉ Gs -> handle_of (body0 h x) = Some k -> live_at (objects s') k x
}.

(** Destroying and freeing, from the local list. *)
Lemma destroy_and_free s Gs fs fl p ps us count orig : found (hp s) (objects s) Gs fs fl -> local_bufs (gg s) (p :: ps) us -> adds_ok (gg s) ->
  rooted (hp s) (lk (gg s)) (p :: ps) fs -> gc_active (gg s) = true ->
  exists s1 s2 first, destroy_zvals collect unclean (ring_fuel s) p s = Ok s1 /\ field (rb_next (lk (gg s1))) LOCAL = Ok first /\
    free_objects (ring_fuel s1) first s1 = Ok s2 /\
    reclaimed (hp s) Gs fl (on_gg (fun gl => set_active false (set_next_to_free orig (set_collected (u32 (collected gl + count)) (set_additional [] gl)))) s2) /\
    forall x, x ∉ Gs -> info (hp s2) x = info (hp s) x.
Proof.
  intros Fo B Ad Rt Ea. set (s0 := on_gg (set_next_to_free (Some p)) s).
  assert (P0 : phase env (hp s) Gs s0 Gs [] fs [] [] (p :: ps) us fl).
  { apply (phase_start s0); [done | apply (local_moved (gg s)); [by eexists | done] | by apply (adds_same (gg s)) | done..]. }
  pose proof (fo_heap _ _ _ _ _ Fo) as Hok. pose proof (fo_waste _ _ _ _ _ Fo) as W.
  destruct (destroy_zvals_ok collect unclean env (hp s) Hok Gs W (ring_fuel s) s0 Gs [] fs [] (p :: ps) us fl P0)
    as (s1 & A' & N' & ds & us1 & fl1 & E1 & P1 & Q1 & D).
  { intros x Hx Hn. by apply (fo_referred _ _ _ _ _ Fo). } { intros x Hx. by apply (fo_list _ _ _ _ _ Fo). }
  { pose proof (ring_size _ _ _ (lb_ring _ _ _ B)). unfold ring_fuel. lia. }
  assert (A' = []) as -> by (by eapply (nothing_alive env (hp s) Gs W)).
  assert (Hp : p <> LOCAL) by (apply (valid_not_local (gg s)), (lb_valid _ _ _ B); left).
  unfold s0, ring_fuel in E1. cbn [hd] in E1. rewrite destroy_zvals_next in E1 by done.
  pose proof (ph_bufs _ _ _ _ _ _ _ _ _ _ _ _ P1) as B1. rewrite app_nil_r in B1. destruct (lb_ring _ _ _ B1) as [Sg _].
  pose proof (ph_listed _ _ _ _ _ _ _ _ _ _ _ _ P1) as NdN. rewrite app_nil_r in NdN.
  destruct (free_objects_ok (ring_fuel s1) ds N' us1 s1) as (s2 & u & l & us2 & E2 & Eg & Eo & B2 & Hh).
  { by apply (segment_leads _ LOCAL). } { eapply Forall2_impl; [apply P1|]. by intros q x [? _]. } { apply B1. } { apply B1. } { apply B1. } { done. }
  { intros x Hx. pose proof (ph_husk _ _ _ _ _ _ _ _ _ _ _ _ P1 x Hx) as Eb. destruct (hp s1 !! x); [by eexists | done]. }
  { pose proof (ring_size _ _ _ (lb_ring _ _ _ B1)). unfold ring_fuel. lia. }
  exists s1, s2, (hd LOCAL ds). split; [exact E1|]. split; [apply field_ok, (segment_next _ _ _ _ Sg)|]. split; [exact E2|].
  assert (HN : forall x, x ∈ N' -> x ∈ Gs) by (intros x Hx; apply P1; left; by apply elem_of_app; right).
  assert (Hout : forall x, x ∉ Gs -> hp s2 !! x = hp s1 !! x).
  { intros x Hx. rewrite Hh, bool_decide_eq_false_2; [done|]. intros Hin. by apply Hx, HN. }
  split.
  2: { intros x Hx. unfold info at 1. rewrite Hout by done. by apply P1. }
  split; cbn [on_gg hp gg objects set_active set_next_to_free set_collected set_additional gc_active additional].
  - intros x Hx. rewrite Hh. case_bool_decide as Hn; [done|]. by apply (de_gone _ _ _ _ _ _ _ _ _ _ D).
  - intros x Hx. rewrite Hout by done. apply P1. by right.
  - intros x Hx. unfold rc at 1. rewrite Hout by done. fold (rc (hp s1) x). rewrite (ph_count _ _ _ _ _ _ _ _ _ _ _ _ P1 x (or_intror Hx)). simpl. unfold base. lia.
  - exists us2. destruct B2 as [C1 C2 C3 C4 C5 C6 C7 C8]. split; try done.
    intros q Hq. simpl in Hq. pose proof (C6 q Hq) as Hb. pose proof (C5 q Hq) as Hv. by destruct q.
  - done.
  - done.
  - exists fl1. rewrite Eo. split; [apply P1|]. intros k. rewrite (de_free _ _ _ _ _ _ _ _ _ _ D). split.
    + intros [?|(x & Hx & _ & Hk)]; [by left | right; by exists x].
    + intros [?|(x & Hx & Hk)]; [by left|]. right. exists x. split; [done|]. split; [apply not_elem_of_nil | done].
  - intros x k Hx Hk. rewrite Eo. apply (ph_handles _ _ _ _ _ _ _ _ _ _ _ _ P1 x k); [by right | done].
Qed.
End FreeGarbage.

(** ** The garbage of a heap between collections *)

(** What a heap looks like when no structure is being destroyed: candidates are
    arrays and objects, references are not nested, the symbol table is held from
    outside, objects have handles of their own; and the garbage has no
    indirections and no destructors of the program, and releases what it shows. *)
Record shaped `{Handlers} (env : genv) (g : GC) (rs : list addr) (fl : list Z) : Prop := mkShaped {
  sh_candidates r : r ∈ rs -> listable (body0 (hp g) r) = true;
  sh_array x used : garbage env (hp g) rs x -> body0 (hp g) x = T_ARRAY used -> forallb direct used = true;
  sh_reference x r v : body0 (hp g) x = T_REFERENCE (GV_COUNTED r) -> body0 (hp g) r <> T_REFERENCE v;
  sh_null x : in_heap (hp g) x -> body0 (hp g) x <> T_NULL;
  sh_table : in_heap (hp g) (symbol_table env) -> external env (hp g) (symbol_table env);
  sh_store : store_wf (objects g) fl;
  sh_handles x k : in_heap (hp g) x -> handle_of (body0 (hp g) x) = Some k -> live_at (objects g) k x;
  sh_quiet x : garbage env (hp g) rs x -> forall g', dtor_obj x g' = Ok g';
  sh_frees x obj : garbage env (hp g) rs x -> body0 (hp g) x = T_OBJECT obj -> frees_shown env x obj
}.

Section Waste.
Context {H : Handlers} (env : genv) (g : GC) (rs : list addr) (fl : list Z).
Context (G : gc_state env g rs) (Sh : shaped env g rs fl).
Abbreviation K := (kids env (hp g)).
Abbreviation garb := (garbage env (hp g) rs).

Section Marked.
Context (hM : heap) (M : list addr) (HM : marked env (hp g) rs hM M) (Gs : list addr) (NdG : NoDup Gs) (HG : forall x, x ∈ Gs <-> garb x).

Lemma garbage_in x : x ∈ Gs -> x ∈ M.
Proof. intros Hx. apply HG, (garbage_marked env (hp g) (gs_heap _ _ _ G) rs hM M HM) in Hx. apply Hx. Qed.

Lemma marked_split : exists k, M ≡ₚ Gs ++ k /\ forall x, x ∈ k -> x ∈ M /\ x ∉ Gs.
Proof.
  assert (Gs ⊆+ M) as [k Hk]%submseteq_Permutation by (apply NoDup_submseteq; [done | apply garbage_in]).
  exists k. split; [done|]. pose proof (mk_nodup _ _ _ _ _ HM) as Nd. rewrite Hk in Nd. apply NoDup_app in Nd as (_ & Nd & _).
  intros x Hx. split; [rewrite Hk; apply elem_of_app; by right|]. intros Hg. by apply (Nd x).
Qed.

Lemma garbage_closed x y : x ∈ Gs -> x ∈ K y -> y ∈ Gs.
Proof. rewrite !HG. apply garbage_closed_back; apply G. Qed.

(** The references that marked structures hold are counted. *)
Lemma marked_counts x : in_heap (hp g) x -> occ x (flat_map K M) <= rc (hp g) x.
Proof.
  intros Hx. assert (M ⊆+ elements (dom (hp g))) as [k Hk]%submseteq_Permutation.
  { apply NoDup_submseteq; [apply HM|]. intros y Hy. apply elem_of_elements, elem_of_dom. by apply (mk_in _ _ _ _ _ HM). }
  pose proof (gs_counts _ _ _ G x Hx) as Hc. rewrite (occ_perm x _ _ (Permutation_flat_map K Hk)), flat_map_app, occ_app in Hc.
  pose proof (occ_nonneg x (flat_map K k)). lia.
Qed.

Lemma garbage_count x : x ∈ Gs -> rc (hp g) x = occ x (flat_map K Gs).
Proof.
  intros Hx. destruct marked_split as (k & Hk & Hkin). pose proof (garbage_in x Hx) as HxM. pose proof HxM as Hh. apply (mk_in _ _ _ _ _ HM) in Hh as [Hh _].
  pose proof (marked_counts x Hh) as H1. assert (H2 : rc (hp g) x <= occ x (flat_map K M)).
  { destruct (Z.le_gt_cases (rc (hp g) x) (occ x (flat_map K M))) as [|Hlt]; [done|]. apply HG in Hx as [_ Hn]. destruct Hn. exists x. split; [|done].
    by apply (held_kept env (hp g) (gs_heap _ _ _ G) rs hM M HM). }
  assert (H3 : occ x (flat_map K k) = 0).
  { apply occ_notin. intros Hin. apply list_elem_of_In, in_flat_map in Hin as (y & Hy & Hxy). rewrite <- !list_elem_of_In in Hy, Hxy.
    destruct (Hkin y Hy) as [_ Hn]. by apply Hn, (garbage_closed x). }
  rewrite (occ_perm x _ _ (Permutation_flat_map K Hk)), flat_map_app, occ_app in H1, H2. lia.
Qed.

(** What lives has a reference that the garbage does not hold. *)
Lemma lives_count y : y ∈ M -> lives env (hp g) M y -> occ y (flat_map K Gs) < rc (hp g) y.
Proof.
  intros HyM (z & Hz & Hp). destruct marked_split as (k & Hk & Hkin). pose proof (mk_in _ _ _ _ _ HM y HyM) as [Hh _].
  pose proof (marked_counts y Hh) as Hc. pose proof (occ_nonneg y (flat_map K k)) as Hk0.
  assert (Hlt : occ y (flat_map K M) < rc (hp g) y \/ 0 < occ y (flat_map K k)); [|rewrite (occ_perm y _ _ (Permutation_flat_map K Hk)), flat_map_app, occ_app in *; lia].
  apply rtc_inv_r in Hp as [<-|(w & Hzw & Hw)]; [left; apply Hz|]. destruct (decide (w ∈ M)) as [HwM|HwM].
  - right. apply occ_in, list_elem_of_In, in_flat_map. exists w. rewrite <- !list_elem_of_In. split; [|done]. rewrite Hk in HwM.
    apply elem_of_app in HwM as [HwG|?]; [|done]. apply HG, (garbage_marked env (hp g) (gs_heap _ _ _ G) rs hM M HM) in HwG as [_ Hn].
    destruct Hn. by exists z.
  - left. pose proof (outside_keeps env (hp g) (gs_heap _ _ _ G) (gs_counts _ _ _ G) rs hM M w y HM HwM Hw HyM) as Hy.
    apply (held_kept env (hp g) (gs_heap _ _ _ G) rs hM M HM) in Hy. apply Hy.
Qed.

Lemma other_count y : y ∉ Gs -> y ∈ flat_map K Gs -> occ y (flat_map K Gs) < rc (hp g) y.
Proof.
  intros Hy Hin. pose proof Hin as Hin'. apply list_elem_of_In, in_flat_map in Hin' as (x & Hx & Hxy). rewrite <- !list_elem_of_In in Hx, Hxy.
  destruct (mk_kids _ _ _ _ _ HM x y (garbage_in x Hx) Hxy) as [HyM| ->].
  - destruct (Z.le_gt_cases (rc (hp g) y) (occ y (flat_map K Gs))) as [Hle|]; [|lia]. destruct Hy. apply HG.
    apply (garbage_marked env (hp g) (gs_heap _ _ _ G) rs hM M HM). split; [done|]. intros Hl. pose proof (lives_count y HyM Hl). lia.
  - destruct (sh_table _ _ _ _ Sh) as [Hh Ho]; [by apply (kids_in env (hp g) (gs_heap _ _ _ G)) in Hxy as [_ ?]|].
    assert (Gs ⊆+ elements (dom (hp g))) as [k Hk]%submseteq_Permutation.
    { apply NoDup_submseteq; [done|]. intros y Hy'. apply elem_of_elements, elem_of_dom. by apply (mk_in _ _ _ _ _ HM), garbage_in. }
    rewrite (occ_perm _ _ _ (Permutation_flat_map K Hk)), flat_map_app, occ_app in Ho. pose proof (occ_nonneg (symbol_table env) (flat_map K k)). lia.
Qed.

Lemma garbage_waste : waste env (hp g) Gs.
Proof.
  split.
  - done.
  - intros x Hx. by apply (mk_in _ _ _ _ _ HM), garbage_in.
  - intros x y Hx. by apply garbage_closed.
  - apply garbage_count.
  - apply other_count.
  - intros x used Hx. by apply (sh_array _ _ _ _ Sh), HG.
  - intros x r v _. apply Sh.
  - intros x Hx. apply (sh_null _ _ _ _ Sh). by apply (mk_in _ _ _ _ _ HM), garbage_in.
  - intros x Hx. by apply (sh_quiet _ _ _ _ Sh), HG.
  - intros x obj Hx. by apply (sh_frees _ _ _ _ Sh), HG.
Qed.

(** The list to free. *)
Lemma garbage_found fs : (forall x, x ∈ fs <-> garb x /\ (x ∈ rs \/ collects (body0 (hp g) x) = true)) -> found env (hp g) (objects g) Gs fs fl.
Proof.
  intros Hfs. split.
  - apply G.
  - apply garbage_waste.
  - intros x Hx. apply Hfs in Hx as [Hx Hc]. split; [by apply HG|]. destruct Hc as [Hr|Hc]; [by apply (sh_candidates _ _ _ _ Sh)|].
    by destruct (body0 (hp g) x).
  - intros x Hx Hc. apply Hfs. split; [by apply HG | by right].
  - intros x Hx Hn. rewrite garbage_count by done. assert (Hg : garb x) by (by apply HG). apply occ_in. destruct Hg as [(_ & r & Hr & Hp) _].
    apply rtc_inv_r in Hp as [<-|(w & _ & Hw)].
    + destruct Hn. apply Hfs. split; [by apply HG | by left].
    + apply list_elem_of_In, in_flat_map. exists w. rewrite <- !list_elem_of_In. split; [|done]. by apply (garbage_closed x).
  - apply Sh.
  - apply Sh.
Qed.
End Marked.
End Waste.

(** * The cycle collector: a whole collection ([zend_gc_collect_cycles]) *)

Lemma reclaimed_kin env h h1 Gs fl s : kin h h1 -> (forall x, x ∉ Gs -> body <$> h1 !! x = body <$> h !! x) ->
  reclaimed env h1 Gs fl s -> reclaimed env h Gs fl s.
Proof.
  intros Kin Hb [a b c d e f (fl' & i & j) k]. split; try done.
  - intros x Hx. by rewrite b, Hb.
  - intros x Hx. by rewrite c, (kin_rc h h1 Kin), (kin_flat env h h1 Kin).
  - exists fl'. split; [done|]. intros n. rewrite j. by setoid_rewrite (kin_handle h h1 Kin).
  - intros x n. rewrite <- (kin_handle h h1 Kin). auto.
Qed.

Section Correct.
Context {H : Handlers} (collect : GC -> res GC) (unclean : bool) (env : genv) {L : HandlersOk}.

Lemma adds_of_list g ps fs h : adds_listed g ps -> rooted h (lk g) ps fs -> adds_ok g.
Proof.
  intros Ad [F N _]. split.
  - intros p Ha Hv. pose proof (Ad p Ha Hv) as Hp. apply list_elem_of_lookup in Hp as [i Hi].
    destruct (Forall2_lookup_l _ _ _ _ _ F Hi) as (r & _ & Hr & _). by exists r.
  - intros p q r Ha Hb Hvp Hvq Hp Hq. pose proof (Ad p Ha Hvp) as Hip. pose proof (Ad q Hb Hvq) as Hiq.
    apply list_elem_of_lookup in Hip as [i Hi], Hiq as [j Hj].
    destruct (Forall2_lookup_l _ _ _ _ _ F Hi) as (x & Hx & Hpx & _), (Forall2_lookup_l _ _ _ _ _ F Hj) as (y & Hy & Hqy & _).
    assert (i = j) as <-; [|congruence]. apply (NoDup_lookup _ _ _ r N); congruence.
Qed.

Lemma free_garbage_ok s Gs fs fl flags count : to_free_is s fs -> fs <> [] -> found env (hp s) (objects s) Gs fs fl ->
  exists s', free_garbage collect unclean env flags count 0 s = Ok (s', count) /\ reclaimed env (hp s) Gs fl s' /\
    forall x, x ∉ Gs -> info (hp s') x = info (hp s) x.
Proof.
  intros (ps & us & B & Rt & Ad) Hne Fo. destruct ps as [|p ps].
  { destruct Hne. pose proof (rt_refs _ _ _ _ Rt) as F. by inversion F. }
  destruct (take_to_free_ok (gg s) p ps us B) as (l & E & B1 & Er). unfold free_garbage. rewrite E. rsimp. set (s1 := on_gg (set_lk l) s).
  assert (Rt1 : rooted (hp s) l (p :: ps) fs).
  { destruct Rt as [F N A]. split; [|done|done]. eapply Forall2_impl; [exact F|]. intros q x. by rewrite Er. }
  assert (exists s2, (if negb (Z.land flags GC_HAS_DESTRUCTORS =? 0) then run_destructors env s1 else Ok s1) = Ok s2 /\
    moved (gg s1) (gg s2) /\ objects s2 = objects s /\ flagged (hp s) (hp s2) /\ forall x, x ∉ fs -> hp s2 !! x = hp s !! x)
    as (s2 & E2 & Mv & Eo & Fl & Hoth).
  { destruct (negb _); [|exists s1; split; [done|]; split; [apply moved_refl|]; split; [done|]; split; [apply flagged_refl | done]].
    apply (run_destructors_ok env (p :: ps) us fs s1); [done | |].
    - eapply Forall2_impl; [apply (rt_refs _ _ _ _ Rt1)|]. by intros q x [? _].
    - intros x Hx. pose proof (fo_waste _ _ _ _ _ _ Fo) as W. destruct (fo_list _ _ _ _ _ _ Fo x Hx) as [Hg _].
      split; [by apply (wa_in _ _ _ W)|]. split; [apply (ho_count _ _ (fo_heap _ _ _ _ _ _ Fo))|]. by apply (wa_quiet _ _ _ W). }
  rewrite E2. rsimp. set (s3 := on_gg (set_active true) s2). pose proof (moved_links _ _ Mv) as Elk.
  change (lk (gg s3)) with (lk (gg s2)). rewrite Elk. change (lk (gg s1)) with l.
  pose proof (lb_ring _ _ _ B1) as [Sg _]. rewrite (field_ok (rb_next l) LOCAL p (segment_next _ _ _ _ Sg)). rsimp.
  pose proof (flagged_kin _ _ Fl) as Kin. assert (B3 : local_bufs (gg s3) (p :: ps) us).
  { apply (local_moved _ (gg s2) _ _ Mv) in B1. destruct B1 as [C1 C2 C3 C4]. split; [destruct C1; by split | done..]. }
  assert (Ad3 : adds_ok (gg s3)).
  { apply (adds_same (gg s)); [| |by eapply adds_of_list].
    - change (rb_ref (lk (gg s2)) = rb_ref (lk (gg s))). by rewrite Elk, <- Er.
    - destruct Mv as [y Ey]. change (additional (gg s2) = additional (gg s)). by rewrite Ey. }
  assert (Rt3 : rooted (hp s3) (lk (gg s3)) (p :: ps) fs).
  { change (lk (gg s3)) with (lk (gg s2)). change (hp s3) with (hp s2). rewrite Elk. apply (rooted_ext (hp s)); [done|]. intros x. unfold addr_of. by rewrite (proj2 (flagged_rc _ _ x Fl)). }
  assert (Fo3 : found env (hp s3) (objects s3) Gs fs fl).
  { change (hp s3) with (hp s2). change (objects s3) with (objects s2). rewrite Eo. by apply (kin_found env (hp s)). }
  destruct (destroy_and_free collect unclean env s3 Gs fs fl p ps us count (next_to_free (gg s1)) Fo3 B3 Ad3 Rt3)
    as (s4 & s5 & first & E4 & E5 & E6 & R & Hi); [done|].
  cbn [hd]. rewrite E4. rsimp. rewrite E5. rsimp. rewrite E6. rsimp. rewrite free_additional_all. rsimp. eexists. split; [done|]. split.
  - apply (reclaimed_kin env (hp s) (hp s2)); [done | | exact R]. intros x Hx. rewrite Hoth; [done|]. intros Hin.
    by apply Hx, (fo_list _ _ _ _ _ _ Fo x Hin).
  - intros x Hx. change (info (hp s5) x = info (hp s) x). rewrite Hi by done. apply (flagged_rc _ _ x Fl).
Qed.

End Correct.

(** ** The state after a collection *)
Section State.
Context {H : Handlers} {L : HandlersOk} (env : genv).

Lemma reclaimed_state h Gs fl s : heap_ok env h -> counts_ok env h -> waste env h Gs -> reclaimed env h Gs fl s ->
  (forall x, x ∉ Gs -> col (hp s) x = GC_BLACK /\ addr_of (hp s) x = 0) -> gc_state env s [].
Proof.
  intros Hok Hco W R Hclean. pose proof (rl_gone _ _ _ _ _ R) as Hgone. pose proof (rl_body _ _ _ _ _ R) as Hbody.
  assert (Hin : forall x, in_heap (hp s) x <-> in_heap h x /\ x ∉ Gs).
  { intros x. unfold in_heap. destruct (decide (x ∈ Gs)) as [Hx|Hx].
    - rewrite Hgone by done. split; [by intros [? ?] | tauto].
    - rewrite <- (fmap_is_Some body (hp s !! x)), Hbody, fmap_is_Some by done. tauto. }
  assert (Hk : forall x, kids env (hp s) x = if bool_decide (x ∈ Gs) then [] else kids env h x).
  { intros x. unfold kids. case_bool_decide as Hx; [by rewrite Hgone|]. pose proof (Hbody x Hx) as E.
    destruct (hp s !! x), (h !! x); try done. by injection E as ->. }
  assert (Hrc : forall x, 0 <= rc (hp s) x < 2 ^ 32).
  { intros x. destruct (decide (x ∈ Gs)) as [Hx|Hx]; [unfold rc; rewrite Hgone by done; lia|].
    rewrite (rl_count _ _ _ _ _ R x Hx). pose proof (base_nonneg env h Hok Gs W x) as Hb. unfold base in Hb.
    pose proof (ho_count _ _ Hok x). pose proof (occ_nonneg x (flat_map (kids env h) Gs)). lia. }
  split.
  - split; [| |done].
    + intros x o Ho. assert (Hx : in_heap (hp s) x) by (by exists o). apply Hin in Hx as [[o0 H0] Hx]. pose proof (Hbody x Hx) as E.
      rewrite Ho, H0 in E. injection E as E. destruct (ho_kids _ _ Hok x o0 H0) as (l & El & Hl). rewrite E. exists l. split; [done|].
      intros r Hr. apply Hin. split; [by apply Hl|]. intros Hg. apply Hx, (wa_closed _ _ _ W r x Hg). unfold kids. by rewrite H0, El.
    + intros o Ho. assert (Hx : in_heap (hp s) (symbol_table env)) by (by exists o). apply Hin in Hx as [[o0 H0] Hx]. pose proof (Hbody _ Hx) as E.
      rewrite Ho, H0 in E. injection E as E. rewrite E. by apply (ho_table _ _ Hok).
  - intros x Hx. apply Hin in Hx as [Hx Hg]. rewrite (rl_count _ _ _ _ _ R x Hg).
    assert (Hd : elements (dom h) ≡ₚ elements (dom (hp s)) ++ Gs).
    { apply NoDup_Permutation; [apply NoDup_elements | |].
      - apply NoDup_app. split; [apply NoDup_elements|]. split; [|apply W]. intros y Hy. apply elem_of_elements, elem_of_dom in Hy. by apply Hin in Hy as [_ ?].
      - intros y. rewrite elem_of_app, !elem_of_elements, !elem_of_dom. rewrite (Hin y). destruct (decide (y ∈ Gs)) as [Hy|Hy]; [|tauto].
        split; [tauto|]. intros _. by apply (wa_in _ _ _ W). }
    pose proof (Hco x Hx) as Hc. rewrite (occ_perm x _ _ (Permutation_flat_map (kids env h) Hd)), flat_map_app, occ_app in Hc.
    replace (flat_map (kids env (hp s)) (elements (dom (hp s)))) with (flat_map (kids env h) (elements (dom (hp s)))); [lia|].
    assert (Hl : forall y, y ∈ elements (dom (hp s)) -> y ∉ Gs) by (intros y Hy; apply elem_of_elements, elem_of_dom in Hy; by apply Hin in Hy as [_ ?]).
    clear Hd Hc. induction (elements (dom (hp s))) as [|y l IH]; [done|]. cbn [flat_map]. rewrite Hk, bool_decide_eq_false_2 by (apply Hl; left).
    f_equal. apply IH. intros z Hz. apply Hl. by right.
  - split; [by intros r ?%not_elem_of_nil|]. intros x _. destruct (decide (x ∈ Gs)) as [Hx|Hx]; [unfold col; by rewrite Hgone | by apply Hclean].
  - destruct (rl_bufs _ _ _ _ _ R) as [us B]. exists [], us. split; [exact B|]. split; [|by apply no_adds, R]. split; [constructor | constructor|].
    intros x Hx. destruct Hx. destruct (decide (x ∈ Gs)) as [Hg|Hg]; [unfold addr_of, info; by rewrite Hgone | by apply Hclean].
  - apply R.
Qed.

(** Flags and statistics of the collector do not matter. *)
Lemma bufs_same gl gl' xs ts us : bufs_ok gl xs ts us -> lk gl' = lk gl -> unused gl' = unused gl -> first_unused gl' = first_unused gl ->
  last_unused gl' = last_unused gl -> additional gl' = additional gl -> bufs_ok gl' xs ts us.
Proof.
  intros [a b c d e f i j] El Eu Ef Ea Ead. split; rewrite ?El, ?Eu, ?Ef, ?Ea, ?Ead; try done.
  intros p Hp. specialize (e p Hp). destruct p; try done; cbn in *; by rewrite ?Ef, ?Ead.
Qed.

Lemma listed_same gl gl' xs : adds_listed gl xs -> additional gl' = additional gl -> adds_listed gl' xs.
Proof. intros A E p Hp Hv. apply A; [done|]. destruct p; try done. cbn in *. by rewrite <- E. Qed.

Lemma state_same g f rs : gc_state env g rs -> (forall gl, lk (f gl) = lk gl) -> (forall gl, unused (f gl) = unused gl) ->
  (forall gl, first_unused (f gl) = first_unused gl) -> (forall gl, last_unused (f gl) = last_unused gl) ->
  (forall gl, additional (f gl) = additional gl) -> gc_state env (on_gg f g) rs.
Proof.
  intros [a b c (xs & us & B & R & A) e] E1 E2 E3 E4 E5. split; try done; [|cbn [on_gg gg]; by rewrite E5].
  exists xs, us. cbn [on_gg gg hp]. split; [by apply (bufs_same (gg g))|]. rewrite E1. split; [done | by apply (listed_same (gg g))].
Qed.

(** An additional buffer has an entry in use. *)
Lemma no_listed_adds gl us : bufs_ok gl [] [] us -> adds_listed gl [] -> additional gl = [].
Proof.
  intros B Ad. pose proof (bo_add _ _ _ _ B) as F. destruct (additional gl) as [|u below] eqn:E; [done|]. exfalso.
  apply Forall_cons in F as [Hu _]. apply (not_elem_of_nil (ADD (Z.of_nat (length below)) 0)), (Ad (ADD (Z.of_nat (length below)) 0) I). exists (length below), u.
  split; [done|]. split; [|lia]. rewrite E. simpl. rewrite lookup_app_r by (by rewrite length_rev). by rewrite length_rev, Nat.sub_diag.
Qed.

(** When nothing is garbage. *)
Lemma nothing_reclaimed h fl s : like h (hp s) -> (forall x, in_heap h x -> rc (hp s) x = rc h x) -> (exists us, bufs_ok (gg s) [] [] us) ->
  additional (gg s) = [] -> gc_active (gg s) = false -> store_wf (objects s) fl ->
  (forall x k, in_heap h x -> handle_of (body0 h x) = Some k -> live_at (objects s) k x) -> reclaimed env h [] fl s.
Proof.
  intros Lk Hr B Ea Ei St Ha. split; try done.
  - by intros x ?%not_elem_of_nil.
  - intros x _. apply Lk.
  - intros x _. rewrite (kin_rc h (hp s) (like_kin _ _ Lk Hr)). simpl. lia.
  - exists fl. split; [done|]. intros k. split; [by left|]. intros [?|(x & Hx & _)]; [done | by apply not_elem_of_nil in Hx].
  - intros x k _ Hk. apply Ha; [|done]. unfold in_heap, GcWhite.body0 in *. destruct (h !! x); [by eexists | done].
Qed.

(** The phases up to the list to free. *)
Lemma garbage_back g rs r x : gc_state env g rs -> rtc (edge env (hp g)) r x -> garbage env (hp g) rs x -> garbage env (hp g) rs r.
Proof.
  intros G Hp. induction Hp as [x|r y x He Hp IH]; [done|]. intros Hg. apply (garbage_closed_back env (hp g) (gs_heap _ _ _ G) (gs_counts _ _ _ G) rs (gs_candidates _ _ _ G) y); auto.
Qed.

Lemma phases_ok g rs fl : gc_state env g rs -> shaped env g rs fl -> exists g1 g2 g3 flags count Gs fs,
  gc_mark_roots env g = Ok g1 /\ gc_scan_roots env g1 = Ok g2 /\ additional (gg g2) = [] /\
  gc_collect_roots env g2 0 = Ok (g3, flags, count) /\ objects g3 = objects g /\
  (NoDup Gs /\ forall x, x ∈ Gs <-> garbage env (hp g) rs x) /\ kin (hp g) (hp g3) /\
  (forall x, body <$> hp g3 !! x = body <$> hp g !! x) /\ (forall x, col (hp g3) x = GC_BLACK) /\
  to_free_is g3 fs /\ waste env (hp g) Gs /\ found env (hp g3) (objects g3) Gs fs fl /\ (fs = [] -> Gs = []).
Proof.
  intros G Sh. destruct (mark_and_scan env g rs G) as (hM & M & hS & EM & HM & ES & S).
  destruct (collect_roots_ok env g rs G hM M HM hS S) as (g3 & flags & count & EC & Lk & Hb & Hr & (fs & Hfs & Hin) & _).
  assert (Hg : forall y, col hS y = GC_WHITE <-> garbage env (hp g) rs y).
  { intros y. rewrite (so_white _ _ _ _ S). symmetry. apply (garbage_marked env (hp g) (gs_heap _ _ _ G) rs hM M HM). }
  set (Gs := dark M hS). assert (NdG : NoDup Gs) by (by apply (dark_nodup env (hp g) rs hM M HM)).
  assert (HG : forall x, x ∈ Gs <-> garbage env (hp g) rs x).
  { intros x. rewrite <- Hg. by eapply white_dark. }
  assert (Hfg : forall x, x ∈ fs <-> garbage env (hp g) rs x /\ (x ∈ rs \/ collects (body0 (hp g) x) = true)).
  { intros x. rewrite Hin. by rewrite Hg. }
  pose proof (like_kin _ _ Lk Hr) as Kin. assert (Eo : objects g3 = objects g) by (by apply collect_roots_keeps in EC).
  exists (set_hp hM g), (set_hp hS g), g3, flags, count, Gs, fs. do 2 (split; [done|]). split; [apply G|]. do 3 (split; [done|]).
  split; [done|]. split; [apply Lk|]. split; [done|]. split; [done|].
  split; [by apply (garbage_waste env g rs fl G Sh hM M HM Gs NdG HG)|]. split.
  - rewrite Eo. apply (kin_found env (hp g)); [done|]. by apply (garbage_found env g rs fl G Sh hM M HM Gs NdG HG).
  - intros Ef. destruct Gs as [|x Gs0] eqn:EG; [done|]. exfalso. assert (Hx : garbage env (hp g) rs x) by (apply HG; left).
    pose proof Hx as [(_ & r & Hrr & Hp) _]. assert (Hrf : r ∈ fs) by (apply Hfg; split; [by apply (garbage_back g rs r x) | by left]).
    rewrite Ef in Hrf. by apply not_elem_of_nil in Hrf.
Qed.
End State.

(** C8: C?: A collection frees exactly the garbage. *)
Theorem zend_gc_collect_cycles_correct {H : Handlers} collect unclean env {L : HandlersOk} g rs fl :
  gc_state env g rs -> gc_active (gg g) = false -> shaped env g rs fl ->
  exists g' n Gs, zend_gc_collect_cycles collect unclean env g = Ok (g', n) /\
    (NoDup Gs /\ forall x, x ∈ Gs <-> garbage env (hp g) rs x) /\ reclaimed env (hp g) Gs fl g' /\ gc_state env g' [].
Proof.
  intros G Hidle Sh. pose proof G as G0. destruct (gs_roots _ _ _ G) as (xs & us & B & R & _). destruct (bo_roots _ _ _ _ B) as [Sg _].
  unfold zend_gc_collect_cycles. rewrite (field_ok _ _ _ (segment_next _ _ _ _ Sg)). rsimp. case_bool_decide as Ex.
  { assert (rs = []) as ->.
    { destruct xs as [|x xs]; [pose proof (rt_refs _ _ _ _ R) as F; by inversion F|]. simpl in Ex. subst x.
      destruct (head_not_valid (gg g) ROOTS) as [? _]; [|done]. apply B. left. }
    exists g, 0, []. split; [done|]. split; [split; [constructor|]|split; [|done]].
    - intros x. split; [by intros ?%not_elem_of_nil|]. intros [(_ & r & Hr & _) _]. by apply not_elem_of_nil in Hr.
    - apply nothing_reclaimed; try apply Sh; try done; [apply (like_refl env), G | | apply G].
      destruct xs as [|x xs]; [by exists us|]. pose proof (rt_refs _ _ _ _ R) as F. by inversion F. }
  rewrite Hidle. set (gA := on_gg _ g). assert (GA : gc_state env gA rs) by (by apply state_same).
  assert (ShA : shaped env gA rs fl) by (by destruct Sh).
  destruct (phases_ok env gA rs fl GA ShA) as (g1 & g2 & g3 & flags & count & Gs & fs & E1 & E2 & Ea & E3 & Eo & HG & Kin & Hb & Hcol & Tf & W & Fo & Hne).
  rewrite E1. rsimp. rewrite E2. rsimp. rewrite Ea, E3. cbn [rbind length]. set (g4 := on_gg (set_active false) g3).
  pose proof Tf as (ps & us' & B' & R' & A'). destruct (bo_free _ _ _ _ B') as [Sg' _]. change (lk (gg g4)) with (lk (gg g3)).
  rewrite (field_ok _ _ _ (segment_next _ _ _ _ Sg')). rsimp.
  assert (Hfin : forall g5, reclaimed env (hp g) Gs fl g5 -> (forall x, x ∉ Gs -> info (hp g5) x = info (hp g3) x) -> gc_state env g5 []).
  { intros g5 Rc Hi. apply (reclaimed_state env (hp g) Gs fl); [apply G | apply G | done | done |].
    intros x Hx. rewrite col_info. unfold addr_of. rewrite Hi by done. split; [rewrite <- col_info; apply Hcol|].
    destruct (Z.eq_dec (addr_of (hp g3) x) 0) as [|Hn]; [done|]. apply (rt_all _ _ _ _ R') in Hn.
    by apply (fo_list _ _ _ _ _ _ Fo) in Hn as [? _]. }
  case_bool_decide as Ef.
  - assert (ps = []) as ->.
    { destruct ps as [|p ps]; [done|]. simpl in Ef. subst p. destruct (head_not_valid (gg g3) TO_FREE) as [_ ?]; [|done]. apply B'. left. }
    assert (Efs : fs = []) by (pose proof (rt_refs _ _ _ _ R') as F; by inversion F). rewrite (Hne Efs) in *. exists g4, 0, [].
    split; [done|]. split; [done|]. assert (Rc : reclaimed env (hp g) [] fl g4); [|split; [done | by apply Hfin]].
    pose proof (fo_store _ _ _ _ _ _ Fo) as St. apply nothing_reclaimed; try done.
    + split; [done|]. intros x. rewrite (kin_rc _ _ Kin). apply (ho_count _ _ (gs_heap _ _ _ G)).
    + intros x _. apply (kin_rc _ _ Kin).
    + exists us'. by apply (bufs_same (gg g3)).
    + by apply (no_listed_adds (gg g3) us').
    + intros x k. change (objects g4) with (objects g3). rewrite Eo. apply ShA.
  - assert (Tf4 : to_free_is g4 fs).
    { exists ps, us'. split; [by apply (bufs_same (gg g3))|]. split; [done | by apply (listed_same (gg g3))]. }
    destruct (free_garbage_ok collect unclean env g4 Gs fs fl flags count Tf4) as (g5 & E5 & R5 & Hi5); [|done|].
    { intros ->. pose proof (rt_refs _ _ _ _ R') as F. inversion F; subst. done. }
    rewrite E5. exists g5, count, Gs. split; [done|]. split; [done|].
    assert (Rc : reclaimed env (hp g) Gs fl g5) by (by apply (reclaimed_kin env (hp g) (hp g3))). split; [done | by apply Hfin].
Qed.
