(* ===== verification/GcCandidates.v ===== *)
(** * The cycle collector: executable checks and a sample state *)
From S2P Require Export GcCycles.

(** ** Checks of the invariants *)
Definition counted_okb (env : genv) (h : heap) (xo : addr * refcounted) : bool :=
  match kids_of env (fst xo) (body (snd xo)) with
  | Ok l => forallb (fun r => isSome (h !! r)) l
  | Err _ => false
  end && (0 <=? gc_refcount (snd xo)) && (gc_refcount (snd xo) <? 2 ^ 32).

Definition heap_okb (env : genv) (h : heap) : bool :=
  forallb (counted_okb env h) (map_to_list h) &&
  match h !! symbol_table env with
  | Some o => match body o with T_ARRAY _ => true | _ => false end
  | None => true
  end.

Definition counts_okb (env : genv) (h : heap) : bool :=
  forallb (fun xo => occ (fst xo) (flat_map (kids env h) (elements (dom h))) <=? gc_refcount (snd xo)) (map_to_list h).

Definition candidatesb (h : heap) (rs : list addr) : bool :=
  forallb (fun r => isSome (h !! r) && (col h r =? GC_PURPLE)) rs &&
  forallb (fun xo => bool_decide (fst xo ∈ rs) || (GC_REF_GET_COLOR (snd xo) =? GC_BLACK)) (map_to_list h).

Lemma forall_map_to_list (h : heap) (f : addr * refcounted -> bool) x o :
  forallb f (map_to_list h) = true -> h !! x = Some o -> f (x, o) = true.
Proof. rewrite forallb_forall. intros H Ho. apply H, list_elem_of_In, elem_of_map_to_list, Ho. Qed.

Lemma heap_okb_sound env h : heap_okb env h = true -> heap_ok env h.
Proof.
  intros [H T]%andb_prop. split.
  - intros x o Ho. pose proof (forall_map_to_list _ _ _ _ H Ho) as Hx. unfold counted_okb in Hx. simpl in Hx.
    apply andb_prop in Hx as [[Hx _]%andb_prop _]. destruct (kids_of env x (body o)) as [l|]; [|done]. exists l. split; [done|].
    intros r Hr. rewrite forallb_forall in Hx. specialize (Hx r (proj1 (list_elem_of_In _ _) Hr)). by destruct (h !! r).
  - intros o Ho. rewrite Ho in T. destruct (body o); try done. by eexists.
  - intros x. unfold rc. destruct (h !! x) as [o|] eqn:Ho; [|lia]. pose proof (forall_map_to_list _ _ _ _ H Ho) as Hx.
    unfold counted_okb in Hx. simpl in Hx. zbool. lia.
Qed.

Lemma counts_okb_sound env h : counts_okb env h = true -> counts_ok env h.
Proof.
  intros H x [o Ho]. pose proof (forall_map_to_list _ _ _ _ H Ho) as Hx. simpl in Hx. apply Z.leb_le in Hx.
  unfold rc. by rewrite Ho.
Qed.

Lemma candidatesb_sound h rs : candidatesb h rs = true -> candidates h rs.
Proof.
  intros [H1 H2]%andb_prop. split.
  - intros r Hr. rewrite forallb_forall in H1. specialize (H1 r (proj1 (list_elem_of_In _ _) Hr)).
    apply andb_prop in H1 as [H1 Hc]. zbool. split; [|done]. unfold in_heap. destruct (h !! r); [by eexists | done].
  - intros x Hx. unfold col. destruct (h !! x) as [o|] eqn:Ho; [|done].
    pose proof (forall_map_to_list _ _ _ _ H2 Ho) as Hb. simpl in Hb. rewrite bool_decide_eq_false_2 in Hb by done.
    apply Z.eqb_eq. exact Hb.
Qed.

(** ** A sample: the array 1 and the object 2 refer to each other and to the
    string 3; the array 4 and the reference 5 are a cycle that a variable holds.
    The arrays have been announced as possible roots. *)
Definition sample_env : genv := mkEnv ∅ 9%positive.

Definition sample_object : zend_object :=
  mkObject 1 false false true false true true
    (Some (mkView [GV_COUNTED 1%positive; GV_UNDEF; GV_COUNTED 3%positive; GV_PLAIN] None)).

Definition sample_heap : heap :=
  list_to_map [
    (1%positive, mkCounted 1 0 (T_ARRAY [GV_PLAIN; GV_COUNTED 2%positive; GV_UNDEF]));
    (2%positive, mkCounted 1 0 (T_OBJECT sample_object));
    (3%positive, mkCounted 2 0 T_OTHER);
    (4%positive, mkCounted 2 0 (T_ARRAY [GV_COUNTED 5%positive]));
    (5%positive, mkCounted 1 0 (T_REFERENCE (GV_COUNTED 4%positive)))].

Definition empty_globals : zend_gc_globals :=
  mkGlobals false false false false (mkLinks ∅ ∅ ∅) None None None None [] 0 0.

Definition enable (g : zend_gc_globals) : zend_gc_globals :=
  mkGlobals true (gc_active g) (gc_full g) (buf g) (lk g) (unused g) (first_unused g) (last_unused g) (next_to_free g)
    (additional g) (gc_runs g) (collected g).

(** After start-up, with no candidate. *)
(** The object 2 has the handle 1. *)
Definition sample_store : zend_objects_store := mkStore (Some [Some 0; Some (obj_word 2%positive); None]) 2 3 (-1) false.

Definition start_gc : GC := mkGC sample_heap (gc_init (enable (gc_globals_ctor_ex empty_globals))) sample_store.

(** The state in which the candidates 4 and 1 are recorded. *)
Definition sample_gc : GC :=
  match (let! g := gc_possible_root (fun g => Ok g) (fun _ g => Ok g) false 1%positive start_gc in
         gc_possible_root (fun g => Ok g) (fun _ g => Ok g) false 4%positive g) with
  | Ok g => g
  | Err _ => start_gc
  end.

Lemma start_state : gc_state sample_env start_gc [].
Proof.
  split; [apply heap_okb_sound | apply counts_okb_sound | apply candidatesb_sound | |]; [vm_compute; reflexivity..| |reflexivity].
  exists [], []. split; [|split; [|by apply no_adds]].
  - split; simpl; try by (intros p ?%not_elem_of_nil).
    + exists 1. split; [done|]. split; [done|]. unfold GC_ROOT_BUFFER_MAX_ENTRIES. lia.
    + split; [split; vm_compute; reflexivity|]. apply (bool_decide_unpack _). vm_compute. exact I.
    + split; [split; vm_compute; reflexivity|]. apply (bool_decide_unpack _). vm_compute. exact I.
    + done.
    + constructor.
    + constructor.
  - split; [constructor | constructor|]. intros x Hx. destruct Hx. unfold addr_of, info.
    destruct (hp start_gc !! x) as [o|] eqn:E; [|done].
    apply elem_of_list_to_map_2 in E. simpl in E.
    repeat (apply elem_of_cons in E as [[= -> ->]|E]; [done|]). by apply not_elem_of_nil in E.
Qed.

(** * The cycle collector: candidates come and go ([gc_possible_root],
    [gc_remove_from_buffer] of [Zend/zend_gc.c]) *)

(** ** A heap that differs in words and counts only *)
Section Like.
Context (env : genv) (h h' : heap) (L : like h h').

Lemma like_kids_eq x : kids env h' x = kids env h x.
Proof.
  pose proof (lk_body _ _ L x) as Hb. unfold kids. destruct (h' !! x), (h !! x); simpl in Hb; try done. by injection Hb as ->.
Qed.

Lemma like_heap_ok : heap_ok env h -> heap_ok env h'.
Proof.
  intros Hok. assert (Hsome : forall x, is_Some (h !! x) -> is_Some (h' !! x)).
  { intros x [o Ho]. pose proof (lk_body _ _ L x) as Hb. rewrite Ho in Hb. destruct (h' !! x); [by eexists | done]. }
  split.
  - intros x o Ho. pose proof (lk_body _ _ L x) as Hb. rewrite Ho in Hb. destruct (h !! x) as [o0|] eqn:E; [|done].
    injection Hb as Hb. destruct (ho_kids _ _ Hok x o0 E) as (l & Hl & Hr). exists l. rewrite Hb. auto.
  - intros o Ho. pose proof (lk_body _ _ L (symbol_table env)) as Hb. rewrite Ho in Hb.
    destruct (h !! symbol_table env) as [o0|] eqn:E; [|done]. injection Hb as Hb. rewrite Hb. by apply (ho_table _ _ Hok).
  - apply L.
Qed.

Lemma like_counts_ok : (forall x, rc h' x = rc h x) -> counts_ok env h -> counts_ok env h'.
Proof.
  intros Hrc Hco x Hx. assert (Hdom : dom h' = dom h).
  { apply set_eq. intros y. rewrite !elem_of_dom. pose proof (lk_body _ _ L y) as Hb.
    destruct (h' !! y), (h !! y); simpl in Hb; try done; split; by eexists. }
  rewrite Hrc, Hdom. rewrite (flat_map_ext (kids env h') (kids env h)) by apply like_kids_eq.
  apply Hco. unfold in_heap in *. rewrite <- elem_of_dom in Hx |- *. by rewrite <- Hdom.
Qed.
End Like.

Lemma word_like (h : heap) r o i : (forall x, 0 <= rc h x < 2 ^ 32) -> h !! r = Some o -> like h (<[r := set_info i o]> h).
Proof. intros Hc Ho. apply (write_info h h r o i); [by split | done]. Qed.

(** ** The word of a candidate *)
Lemma purple_word i : 0 <= i < 2 ^ 14 -> GC_INFO_GET_COLOR (Z.lor i GC_PURPLE) = GC_PURPLE /\ GC_ADDRESS (Z.lor i GC_PURPLE) = i.
Proof.
  intros Hi. unfold GC_INFO_GET_COLOR, GC_ADDRESS. rewrite !Z.land_lor_distr_l. split.
  - destruct (address_small i Hi) as [E _]. unfold GC_INFO_GET_COLOR in E. rewrite E. done.
  - destruct (address_small i Hi) as [_ E]. unfold GC_ADDRESS in E. rewrite E. apply Z.lor_0_r.
Qed.

Section Candidate.
Context (env : genv) (g : GC) (rs : list addr) (G : gc_state env g rs).

(** The state after an entry has been taken for [ref]. *)
Lemma record_root_ok ref xs us b i gl us' : info (hp g) ref = 0 -> in_heap (hp g) ref ->
  bufs_ok (gg g) xs [] us -> rooted (hp g) (lk (gg g)) xs rs -> taken (gg g) xs [] b i gl us' -> in_buf b -> additional gl = [] ->
  exists g', record_root ref b (set_gg gl g) = Ok g' /\ gc_state env g' (ref :: rs) /\
    (forall x, body <$> hp g' !! x = body <$> hp g !! x) /\ (forall x, rc (hp g') x = rc (hp g) x).
Proof.
  intros Hinfo [o Ho] B Rt T Hb Had. destruct b as [| |j| |]; try done. pose proof (tk_index _ _ _ _ _ _ _ T) as Ei. simpl in Ei. subst j.
  pose proof (taken_range _ _ _ _ _ _ _ T) as Hi. destruct (purple_word i ltac:(lia)) as [Wc Wa].
  assert (Ha : addr_of (hp g) ref = 0) by (unfold addr_of; by rewrite Hinfo).
  destruct (enlist_ok g xs us (BUF i) i gl us' ref o (Z.lor i GC_PURPLE) rs B Rt (no_adds _ _ (gs_additional _ _ _ G)) T Ha Wa) as (l & El & R).
  pose proof (gs_heap _ _ _ G) as Hok. pose proof (word_like (hp g) ref o (Z.lor i GC_PURPLE) (ho_count _ _ Hok) Ho) as L.
  unfold record_root. cbn [set_gg hp gg]. rewrite (get_counted_ok _ _ _ Ho). cbn [rbind buf_index set_gg set_hp hp gg]. rewrite El. rsimp.
  set (h1 := <[ref := _]> (hp g)) in *. exists (mkGC h1 (set_lk l gl) (objects g)). split; [done|]. cbn [hp]. split; [|split; [apply L | intros x; by apply rc_write]].
  split; cbn [hp gg].
  - by apply (like_heap_ok env (hp g)).
  - apply (like_counts_ok env (hp g)); [done | intros x; by apply rc_write | apply G].
  - destruct (gs_candidates _ _ _ G) as [C1 C2]. split.
    + intros r [->|Hr]%elem_of_cons.
      * split; [unfold in_heap, h1; rewrite lookup_insert_eq; by eexists|]. unfold h1. by rewrite col_info, info_write, bool_decide_eq_true_2.
      * destruct (C1 r Hr) as [[o1 Ho1] Hc]. unfold h1. rewrite col_info, info_write. case_bool_decide as E.
        -- subst r. by rewrite col_info, Hinfo in Hc.
        -- split; [|by rewrite <- col_info]. exists o1. by rewrite lookup_insert_ne.
    + intros x [Hx1 Hx2]%not_elem_of_cons. unfold h1. rewrite col_info, info_write, bool_decide_eq_false_2 by done.
      rewrite <- col_info. by apply C2.
  - by exists (BUF i :: xs).
  - done.
Qed.

(** With room in the buffer the structure is recorded. *)
Lemma possible_root_ok collect dtor_func ref : gc_active (gg g) = false -> info (hp g) ref = 0 -> in_heap (hp g) ref ->
  unused (gg g) <> None \/ first_unused (gg g) <> last_unused (gg g) ->
  exists g', gc_possible_root collect dtor_func false ref g = Ok g' /\ gc_state env g' (ref :: rs) /\
    (forall x, body <$> hp g' !! x = body <$> hp g !! x) /\ (forall x, rc (hp g') x = rc (hp g) x).
Proof.
  intros Ha Hinfo Hin Hroom. destruct (gs_roots _ _ _ G) as (xs & us & B & Rt & Ad). unfold gc_possible_root. rewrite Ha. simpl.
  destruct (unused (gg g)) as [b|] eqn:Eu.
  - pose proof (bo_unused _ _ _ _ B) as C. destruct us as [|u us]; simpl in C; [congruence|].
    destruct C as (Ec & q & Hq & C). rewrite Eu in Ec. injection Ec as <-. rewrite (field_ok _ _ _ Hq). rsimp.
    destruct (taken_unused (gg g) xs [] (b :: us) b q B Eu Hq) as (i & us' & -> & _ & T).
    by apply (record_root_ok ref xs (BUF i :: us) (BUF i) i _ us' Hinfo Hin B Rt T); [|apply G].
  - destruct Hroom as [?|Hf]; [done|]. rewrite bool_decide_eq_false_2 by done. simpl.
    destruct (bo_size _ _ _ _ B) as (f & E & _). rewrite E.
    pose proof (taken_first (gg g) xs [] us f B E Hf) as T.
    by apply (record_root_ok ref xs us (BUF f) f _ us Hinfo Hin B Rt T); [|apply G].
Qed.

(** [gc_possible_root] does nothing while a collection or an unclean
    shutdown is under way, nor when the buffer is full and collection is
    disabled; with room in the buffer it makes a black structure that is not
    in the buffer a purple candidate, in front of the others. *)
Theorem possible_root_correct collect dtor_func ref :
  (forall unclean, unclean || gc_active (gg g) = true -> gc_possible_root collect dtor_func unclean ref g = Ok g) /\
  (gc_active (gg g) = false -> unused (gg g) = None -> first_unused (gg g) = last_unused (gg g) ->
   gc_enabled (gg g) = false -> gc_possible_root collect dtor_func false ref g = Ok g) /\
  (gc_active (gg g) = false -> info (hp g) ref = 0 -> in_heap (hp g) ref ->
   unused (gg g) <> None \/ first_unused (gg g) <> last_unused (gg g) ->
   exists g', gc_possible_root collect dtor_func false ref g = Ok g' /\ gc_state env g' (ref :: rs) /\
     (forall x, body <$> hp g' !! x = body <$> hp g !! x) /\ (forall x, rc (hp g') x = rc (hp g) x)).
Proof.
  split; [|split].
  - intros unclean Hu. unfold gc_possible_root. by rewrite Hu.
  - intros Ha Hu Hf He. unfold gc_possible_root. rewrite Ha, Hu, bool_decide_eq_true_2 by done. simpl. by rewrite He.
  - apply possible_root_ok.
Qed.
End Candidate.

Lemma remove_from_roots_fields x gl gl' : gc_remove_from_roots x gl = Ok gl' ->
  unused gl' = Some x /\ additional gl' = additional gl.
Proof. unfold gc_remove_from_roots. destruct (unlink_root x (lk gl)) as [l|]; [|done]. rsimp. intros [= <-]. done. Qed.

(** [gc_remove_from_buffer] takes a candidate out of the buffer and
    makes it black; its entry is the next to be used, and [next_to_free] moves on
    if it stood on that entry. *)
Theorem remove_from_buffer_correct env g rs1 r rs2 : gc_state env g (rs1 ++ r :: rs2) ->
  exists g' p n, GC_REMOVE_FROM_BUFFER r g = Ok g' /\ gc_state env g' (rs1 ++ rs2) /\ info (hp g') r = 0 /\
    (forall x, rc (hp g') x = rc (hp g) x) /\ rb_ref (lk (gg g)) !! p = Some r /\ rb_next (lk (gg g)) !! p = Some n /\
    unused (gg g') = Some p /\
    next_to_free (gg g') = (if bool_decide (next_to_free (gg g) = Some p) then Some n else next_to_free (gg g)).
Proof.
  intros G. destruct (gs_roots _ _ _ G) as (xs & us & B & Rt & Ad).
  destruct (proj1 (Forall2_app_inv_r _ _ _ _) (rt_refs _ _ _ _ Rt)) as (xs1 & xs2' & F1 & F2 & ->).
  inversion F2 as [|x ? xs2 ? [Hr Ha] F2' E1 E2]; subst. clear F2.
  assert (Hv : valid_entry (gg g) x) by (apply (bo_valid _ _ _ _ B); rewrite !elem_of_app, elem_of_cons; auto).
  destruct x as [| |i|b i|]; try done.
  2: { destruct Hv as (n & used & _ & Hn & _). by rewrite (gs_additional _ _ _ G) in Hn. }
  assert (Hnz : addr_of (hp g) r <> 0) by (apply (rooted_nonzero _ _ _ _ _ _ _ B Rt); rewrite elem_of_app, elem_of_cons; auto).
  destruct (hp g !! r) as [o|] eqn:Ho; [|by unfold addr_of, info in Hnz; rewrite Ho in Hnz].
  assert (Eo : GC_ADDRESS (gc_info o) = i) by (simpl in Ha; rewrite <- Ha; unfold addr_of, info; by rewrite Ho).
  destruct (bo_roots _ _ _ _ B) as [S _]. apply segment_app in S as [_ S]. pose proof (segment_next _ _ _ _ S) as Hn.
  destruct (remove_entry_ok _ _ _ _ _ _ B) as (gl & us' & E & [Bok Bref Bnext Bntf _]).
  assert (Hlt : (i <? GC_ROOT_BUFFER_MAX_ENTRIES) = true).
  { apply (buf_test (gg g) (BUF i)); [|done]. destruct (bo_size _ _ _ _ B) as (f & ? & _ & ?). by exists f. }
  unfold remove_entry in E. cbn [entry_index] in E. rewrite Hlt in E. destruct (remove_from_roots_fields _ _ _ E) as [Eu Ead].
  pose proof (gs_heap _ _ _ G) as Hok. pose proof (word_like (hp g) r o 0 (ho_count _ _ Hok) Ho) as L.
  set (h1 := <[r := set_info 0 o]> (hp g)) in *.
  set (ntf := if bool_decide (next_to_free (gg g) = Some (BUF i)) then Some (hd ROOTS xs2) else next_to_free (gg g)).
  exists (mkGC h1 (set_next_to_free ntf gl) (objects g)), (BUF i), (hd ROOTS xs2). split; [|split; [|split; [|split]]]; try done.
  - unfold GC_REMOVE_FROM_BUFFER, gc_remove_from_buffer. rewrite (get_counted_ok _ _ _ Ho). rsimp. rewrite Eo.
    simpl in Ha. rewrite <- Ha, (proj2 (Z.eqb_neq _ _) Hnz), Ha, Hlt. cbn [negb]. rewrite E. rsimp.
    rewrite Bntf. unfold ntf. case_bool_decide.
    + rewrite (field_ok _ (BUF i) (hd ROOTS xs2)) by (by rewrite Bnext). done.
    + do 2 f_equal. rewrite <- Bntf. by destruct gl.
  - pose proof (rt_nodup _ _ _ _ Rt) as N.
    assert (Hperm : rs1 ++ r :: rs2 ≡ₚ r :: (rs1 ++ rs2)) by (symmetry; apply Permutation_middle).
    rewrite Hperm in N. inversion_clear N as [|? ? Hnr N'].
    assert (Haddr : forall y, addr_of h1 y = if bool_decide (y = r) then 0 else addr_of (hp g) y).
    { intros y. unfold addr_of, h1. rewrite info_write. by case_bool_decide. }
    split; cbn [hp gg].
    + by apply (like_heap_ok env (hp g)).
    + apply (like_counts_ok env (hp g)); [done | intros x; by apply rc_write | apply G].
    + destruct (gs_candidates _ _ _ G) as [C1 C2]. split.
      * intros y Hy. assert (y <> r) by (by intros ->). destruct (C1 y) as [Hi Hc].
        { rewrite Hperm. by right. }
        rewrite col_info. unfold h1. rewrite info_write, bool_decide_eq_false_2 by done. rewrite <- col_info. split; [|done].
        unfold in_heap. by rewrite lookup_insert_ne.
      * intros y Hy. rewrite col_info. unfold h1. rewrite info_write. case_bool_decide; [done|]. rewrite <- col_info.
        apply C2. rewrite Hperm. by rewrite not_elem_of_cons.
    + exists (xs1 ++ xs2), us'. split; [by destruct Bok|]. split; [|apply no_adds; cbn; rewrite Ead; apply G]. split; [|done|].
      * apply (Forall2_weaken (fun p q => rb_ref (lk (gg g)) !! p = Some q /\ addr_of (hp g) q = entry_index p)).
        -- by apply Forall2_app.
        -- intros p q _ Hq [Hp1 Hp2]. simpl. rewrite Bref, Haddr, bool_decide_eq_false_2; [done|]. by intros ->.
      * intros y. rewrite Haddr. case_bool_decide; [done|]. intros Hy. apply (rt_all _ _ _ _ Rt) in Hy. rewrite Hperm in Hy.
        by apply elem_of_cons in Hy as [|].
    + simpl. rewrite Ead. apply G.
  - cbn [hp]. unfold h1. by rewrite info_write, bool_decide_eq_true_2.
  - cbn [hp]. intros x. by apply rc_write.
Qed.

(** ** The sample state *)
Definition sample_gc1 : GC :=
  match gc_possible_root (fun g => Ok g) (fun _ g => Ok g) false 1%positive start_gc with Ok g => g | Err _ => start_gc end.

Lemma sample_state1 : gc_possible_root (fun g => Ok g) (fun _ g => Ok g) false 1%positive start_gc = Ok sample_gc1 /\
  gc_state sample_env sample_gc1 [1%positive].
Proof.
  destruct (possible_root_ok sample_env start_gc [] start_state (fun g => Ok g) (fun _ g => Ok g) 1%positive) as (g' & E & G & _).
  - reflexivity.
  - vm_compute. reflexivity.
  - eexists. vm_compute. reflexivity.
  - right. vm_compute. discriminate.
  - unfold sample_gc1. rewrite E. done.
Qed.

Lemma sample_state : gc_state sample_env sample_gc [4%positive; 1%positive].
Proof.
  destruct sample_state1 as [E1 G1]. unfold sample_gc. rewrite E1. rsimp.
  destruct (possible_root_ok sample_env sample_gc1 [1%positive] G1 (fun g => Ok g) (fun _ g => Ok g) 4%positive) as (g' & E & G & _).
  - vm_compute. reflexivity.
  - vm_compute. reflexivity.
  - eexists. vm_compute. reflexivity.
  - right. vm_compute. discriminate.
  - by rewrite E.
Qed.

Lemma possible_root_correct_witness : exists g', gc_possible_root (fun g => Ok g) (fun _ g => Ok g) false 1%positive start_gc = Ok g' /\
  gc_state sample_env g' [1%positive].
Proof.
  destruct (possible_root_correct sample_env start_gc [] start_state (fun g => Ok g) (fun _ g => Ok g) 1%positive) as (_ & _ & H).
  destruct H as (g' & E & G & _).
  - reflexivity.
  - vm_compute. reflexivity.
  - eexists. vm_compute. reflexivity.
  - right. vm_compute. discriminate.
  - exists g'. split; [exact E | exact G].
Defined.

Lemma remove_from_buffer_correct_witness : exists g', GC_REMOVE_FROM_BUFFER 1%positive sample_gc = Ok g' /\
  gc_state sample_env g' [4%positive] /\ info (hp g') 1%positive = 0.
Proof.
  destruct (remove_from_buffer_correct sample_env sample_gc [4%positive] 1%positive [] sample_state) as (g' & p & n & E & G & I & _).
  exists g'. split; [exact E|]. split; [exact G | exact I].
Defined.

(** * The cycle collector: the properties of a collection ([Zend/zend_gc.c]) *)

(** ** The properties of a collection *)

(** C9: Marking and scanning return, and a structure is white after them
    exactly when it is garbage: it is reachable from a candidate, and no
    structure reachable from the candidates that has more references than these
    hold leads to it.  Nothing else changes colour for good, and no address. *)
Theorem gc_mark_scan_correct env g rs : gc_state env g rs ->
  exists hM hS, gc_mark_roots env g = Ok (set_hp hM g) /\ gc_scan_roots env (set_hp hM g) = Ok (set_hp hS g) /\
    (forall x, col hS x = GC_WHITE <-> garbage env (hp g) rs x) /\
    (forall x, col hS x = GC_WHITE \/ col hS x = GC_BLACK) /\
    (forall x, addr_of hS x = addr_of (hp g) x).
Proof.
  intros G. destruct (mark_and_scan env g rs G) as (hM & M & hS & EM & HM & ES & S). exists hM, hS.
  split; [done|]. split; [done|]. split; [|split; [apply S | apply S]].
  intros x. rewrite (so_white _ _ _ _ S). symmetry. apply (garbage_marked env (hp g) (gs_heap _ _ _ G) rs hM M HM).
Qed.

(** What is white after marking and scanning cannot be reached: no
    structure that something outside the heap refers to leads to it, and every
    structure that refers to it is white too. *)
Theorem white_unreachable env g rs g1 g2 x : gc_state env g rs ->
  gc_mark_roots env g = Ok g1 -> gc_scan_roots env g1 = Ok g2 -> col (hp g2) x = GC_WHITE ->
  (forall z, external env (hp g) z -> ~ rtc (edge env (hp g)) z x) /\
  (forall y, x ∈ kids env (hp g) y -> col (hp g2) y = GC_WHITE).
Proof.
  intros G E1 E2 Hw. destruct (mark_and_scan env g rs G) as (hM & M & hS & EM & HM & ES & S).
  rewrite EM in E1. injection E1 as <-. rewrite ES in E2. injection E2 as <-. simpl in *.
  destruct G as [Hok Hco Hca _ _].
  assert (Hg : forall y, col hS y = GC_WHITE <-> garbage env (hp g) rs y).
  { intros y. rewrite (so_white _ _ _ _ S). symmetry. apply (garbage_marked env (hp g) Hok rs hM M HM). }
  apply Hg in Hw. split.
  - intros z Hz Hp. by apply (external_not_garbage env (hp g) Hok Hco rs Hca z x Hz Hp).
  - intros y Hy. apply Hg. by apply (garbage_closed_back env (hp g) Hok Hco rs Hca x y).
Qed.

(** After [gc_collect_roots] every reference count is what it was
    and everything is black again; the list of roots is empty, and the list to
    free holds each piece of garbage that was a candidate or is an array or an
    object with a [get_gc] handler, once; the flag says whether one of them has
    a destructor. *)
Theorem gc_collect_correct env g rs : gc_state env g rs ->
  exists g1 g2 g3 flags count, gc_mark_roots env g = Ok g1 /\ gc_scan_roots env g1 = Ok g2 /\
    gc_collect_roots env g2 0 = Ok (g3, flags, count) /\
    (forall x, body <$> hp g3 !! x = body <$> hp g !! x) /\ (forall x, rc (hp g3) x = rc (hp g) x) /\
    (forall x, col (hp g3) x = GC_BLACK) /\
    (exists fs, to_free_is g3 fs /\
      forall x, x ∈ fs <-> garbage env (hp g) rs x /\ (x ∈ rs \/ collects (body0 (hp g) x) = true)) /\
    (Z.testbit flags 0 = true <-> exists x, garbage env (hp g) rs x /\ destructs (body0 (hp g) x) = true).
Proof.
  intros G. destruct (mark_and_scan env g rs G) as (hM & M & hS & EM & HM & ES & S).
  destruct (collect_roots_ok env g rs G hM M HM hS S) as (g3 & flags & count & EC & L & Hb & Hr & (fs & Hfs & Hin) & Hf).
  assert (Hg : forall y, col hS y = GC_WHITE <-> garbage env (hp g) rs y).
  { intros y. rewrite (so_white _ _ _ _ S). symmetry. apply (garbage_marked env (hp g) (gs_heap _ _ _ G) rs hM M HM). }
  exists (set_hp hM g), (set_hp hS g), g3, flags, count. split; [done|]. split; [done|]. split; [done|].
  split; [apply L|]. split; [|split; [done|split]].
  - intros x. destruct (hp g !! x) as [o|] eqn:E; [apply Hr; by exists o|]. unfold rc at 2. rewrite E.
    pose proof (lk_body _ _ L x) as Hbx. rewrite E in Hbx. unfold rc. by destruct (hp g3 !! x).
  - exists fs. split; [done|]. intros x. rewrite Hin. by rewrite Hg.
  - rewrite Hf. split; intros (x & Hx & Hd); exists x; by rewrite Hg in *.
Qed.

(** In the sample the array 1 and the object 2 are garbage. *)
Lemma gc_mark_scan_correct_witness : exists hM hS, gc_mark_roots sample_env sample_gc = Ok (set_hp hM sample_gc) /\
  gc_scan_roots sample_env (set_hp hM sample_gc) = Ok (set_hp hS sample_gc) /\
  (col hS 1%positive = GC_WHITE <-> garbage sample_env (hp sample_gc) [4%positive; 1%positive] 1%positive).
Proof.
  destruct (gc_mark_scan_correct sample_env sample_gc [4%positive; 1%positive] sample_state) as (hM & hS & E1 & E2 & H & _).
  exists hM, hS. split; [exact E1|]. split; [exact E2 | exact (H 1%positive)].
Defined.

Definition run_phases (g : GC) : res (GC * GC) :=
  let! g1 := gc_mark_roots sample_env g in let! g2 := gc_scan_roots sample_env g1 in Ok (g1, g2).

Lemma sample_white :
  match run_phases sample_gc with Ok (_, g2) => col (hp g2) 2%positive = GC_WHITE | Err _ => False end.
Proof. vm_compute. reflexivity. Qed.

Lemma white_unreachable_witness :
  match run_phases sample_gc with
  | Ok (_, g2) => forall z, external sample_env (hp sample_gc) z -> ~ rtc (edge sample_env (hp sample_gc)) z 2%positive
  | Err _ => False
  end.
Proof.
  pose proof sample_white as H. unfold run_phases in *.
  destruct (gc_mark_roots sample_env sample_gc) as [g1|] eqn:E1; [|exact H]. cbn [rbind] in *.
  destruct (gc_scan_roots sample_env g1) as [g2|] eqn:E2; [|exact H]. cbn [rbind] in *.
  destruct (white_unreachable sample_env sample_gc [4%positive; 1%positive] g1 g2 2%positive sample_state E1 E2 H) as [N _].
  exact N.
Defined.

Lemma gc_collect_correct_witness : exists g1 g2 g3 flags count, gc_mark_roots sample_env sample_gc = Ok g1 /\
  gc_scan_roots sample_env g1 = Ok g2 /\ gc_collect_roots sample_env g2 0 = Ok (g3, flags, count) /\
  (forall x, rc (hp g3) x = rc (hp sample_gc) x).
Proof.
  destruct (gc_collect_correct sample_env sample_gc [4%positive; 1%positive] sample_state)
    as (g1 & g2 & g3 & flags & count & E1 & E2 & E3 & _ & H & _).
  exists g1, g2, g3, flags, count. split; [exact E1|]. split; [exact E2|]. split; [exact E3 | exact H].
Defined.

(** The backward search in the table of an object counts by the type of the
    first slot: with an undefined first slot, the integers behind the last
    counted value are not counted, though the same values before it are. *)
Example collect_counts_first_slot :
  let child (s : unit) (r : addr) : res (unit * Z) := Ok (s, 0) in
  collect_object child sample_env (mkView [GV_UNDEF; GV_COUNTED 1%positive; GV_PLAIN; GV_PLAIN] None) tt 0 = Ok (tt, 0) /\
  collect_object child sample_env (mkView [GV_UNDEF; GV_PLAIN; GV_PLAIN; GV_COUNTED 1%positive] None) tt 0 = Ok (tt, 2).
Proof. split; reflexivity. Qed.
