(* ===== verification/GcExample.v ===== *)
(** * The cycle collector: a collection of the sample *)
From S2P Require Export GcCorrect GcCandidates ObjectLoops.

(** [free_obj] of the sample releases the slots; destructors do nothing. *)
#[local] Instance sample_handlers : Handlers := {
  free_obj_values obj := match get_gc obj with Some view => gc_table view | None => [] end;
  dtor_obj _ g := Ok g;
  other_dtor := efree
}.

#[local] Instance sample_handlers_ok : HandlersOk.
Proof. by split. Qed.

(** The shape of one structure of the sample. *)
Definition sample_shape (h : heap) (xo : addr * refcounted) : bool :=
  match body (snd xo) with
  | T_OBJECT obj => bool_decide (obj = sample_object) && bool_decide (fst xo = 2%positive)
  | T_ARRAY used => forallb direct used
  | T_REFERENCE (GV_COUNTED r) => match body0 h r with T_REFERENCE _ => false | _ => true end
  | T_NULL => false
  | _ => true
  end.

Lemma sample_shaped x : in_heap (hp sample_gc) x -> exists o, hp sample_gc !! x = Some o /\ body0 (hp sample_gc) x = body o /\
  sample_shape (hp sample_gc) (x, o) = true.
Proof.
  intros [o Ho]. exists o. split; [done|]. split; [unfold body0; by rewrite Ho|].
  apply (forall_map_to_list (hp sample_gc) (sample_shape (hp sample_gc)) x o); [vm_compute; reflexivity | done].
Qed.

Lemma sample_body x b : body0 (hp sample_gc) x = b -> b <> T_NULL -> exists o, body o = b /\ sample_shape (hp sample_gc) (x, o) = true.
Proof.
  intros Eb Hb. destruct (sample_shaped x) as (o & _ & E & Hs); [|exists o; by rewrite <- E, Eb].
  unfold body0, in_heap in *. destruct (hp sample_gc !! x); [by eexists | congruence].
Qed.

Lemma sample_object_only x obj : body0 (hp sample_gc) x = T_OBJECT obj -> obj = sample_object /\ x = 2%positive.
Proof.
  intros Eb. destruct (sample_body x _ Eb) as (o & Eo & Hs); [done|]. unfold sample_shape in Hs. cbn [fst snd] in Hs. rewrite Eo in Hs.
  apply andb_prop in Hs as [H1 H2]. by apply bool_decide_eq_true in H1, H2.
Qed.

Lemma sample_store_wf : store_wf sample_store [].
Proof. split; simpl; try lia; try done; [by eexists | by intros h ?%not_elem_of_nil | constructor]. Qed.

Lemma sample_is_shaped : shaped sample_env sample_gc [4%positive; 1%positive] [].
Proof.
  assert (Eo : objects sample_gc = sample_store) by (vm_compute; reflexivity). split.
  - intros r Hr. rewrite !elem_of_cons in Hr. destruct Hr as [->|[->|Hr]]; [vm_compute; reflexivity.. | by apply not_elem_of_nil in Hr].
  - intros x used _ Eb. destruct (sample_body x _ Eb) as (o & Eo' & Hs); [done|]. unfold sample_shape in Hs. cbn [snd] in Hs. by rewrite Eo' in Hs.
  - intros x r v Eb Er. destruct (sample_body x _ Eb) as (o & Eo' & Hs); [done|]. unfold sample_shape in Hs. cbn [snd] in Hs. by rewrite Eo', Er in Hs.
  - intros x Hx Eb. destruct (sample_shaped x Hx) as (o & _ & E & Hs). unfold sample_shape in Hs. cbn [snd] in Hs. by rewrite <- E, Eb in Hs.
  - intros [o Ho]. assert (E : hp sample_gc !! symbol_table sample_env = None) by (vm_compute; reflexivity). by rewrite E in Ho.
  - rewrite Eo. apply sample_store_wf.
  - intros x k _ Hk. destruct (body0 (hp sample_gc) x) as [obj| | | |] eqn:Eb; try done. apply sample_object_only in Eb as [-> ->].
    injection Hk as <-. rewrite Eo. split; [simpl; lia | vm_compute; reflexivity].
  - done.
  - intros x obj _ Eb. apply sample_object_only in Eb as [-> ->]. intros l Hl _. vm_compute in Hl. injection Hl as <-. vm_compute. reflexivity.
Qed.

(** The array 1 and the object 2 are gone afterwards. *)
Lemma zend_gc_collect_cycles_correct_witness : exists g' n Gs,
  zend_gc_collect_cycles (fun g => Ok g) false sample_env sample_gc = Ok (g', n) /\ reclaimed sample_env (hp sample_gc) Gs [] g' /\
  gc_state sample_env g' [].
Proof.
  destruct (zend_gc_collect_cycles_correct (fun g => Ok g) false sample_env sample_gc [4%positive; 1%positive] [] sample_state)
    as (g' & n & Gs & E & _ & R & S'); [vm_compute; reflexivity | exact sample_is_shaped |].
  exists g', n, Gs. split; [exact E|]. split; [exact R | exact S'].
Defined.

Definition after_collection : res (GC * Z) := zend_gc_collect_cycles (fun g => Ok g) false sample_env sample_gc.

(** The string 3 has lost a reference and the handle 1 is free. *)
Example sample_collected : match after_collection with
  | Ok (g', n) => hp g' !! 1%positive = None /\ hp g' !! 2%positive = None /\ rc (hp g') 3%positive = 1 /\
      rc (hp g') 4%positive = 2 /\ free_list_head (objects g') = 1 /\ col (hp g') 4%positive = GC_BLACK
  | Err _ => False end.
Proof. vm_compute. repeat split. Qed.

Lemma sample_objects_ok : objects_ok sample_gc.
Proof.
  assert (Eo : objects sample_gc = sample_store) by (vm_compute; reflexivity). split; rewrite Eo; [|simpl; lia | done].
  intros h Hh. simpl in Hh. assert (h = 1) as -> by lia. exists (obj_word 2%positive). split; [vm_compute; reflexivity|]. intros _.
  exists 2%positive. eexists _, sample_object. split; [done|]. split; vm_compute; reflexivity.
Qed.

Lemma marked_objects_not_destructed_witness : exists g', zend_objects_store_mark_destructed sample_gc = Ok g' /\
  zend_objects_store_call_destructors 2 g' = Ok (set_objects (set_no_reuse true (objects g')) g').
Proof.
  destruct (marked_objects_not_destructed sample_gc 2 sample_objects_ok) as (g' & E1 & _ & E2); [vm_compute; discriminate|].
  exists g'. split; [exact E1 | exact E2].
Defined.

Lemma zend_objects_store_put_correct_witness : exists h g', zend_objects_store_put 2%positive sample_gc = Ok g' /\ live_at (objects g') h 2%positive.
Proof.
  destruct (zend_objects_store_put_correct 2%positive sample_gc sample_object []) as (h & g' & fl & E & _ & _ & _ & _ & Hl & _).
  - vm_compute. reflexivity.
  - exact (eq_rect_r (fun s => store_wf s []) sample_store_wf (eq_refl : objects sample_gc = sample_store)).
  - vm_compute. reflexivity.
  - exists h, g'. split; [exact E | exact Hl].
Defined.

(** At a shutdown the object 2 releases its slots; the array 1, which only it
    refers to, is destroyed and the string 3 loses a reference. *)
Example sample_storage_freed :
  match zend_objects_store_free_object_storage (fun g => Ok g) true (fun _ => true) 9 false sample_gc with
  | Ok g' => hp g' !! 1%positive = None /\ rc (hp g') 3%positive = 1 /\
      match the_object 2%positive g' with Ok obj => obj_free_called obj = true | Err _ => False end
  | Err _ => False end /\
  match zend_objects_store_free_object_storage (fun g => Ok g) true (fun _ => true) 9 true sample_gc with
  | Ok g' => rc (hp g') 1%positive = 1 /\ rc (hp g') 3%positive = 2
  | Err _ => False end.
Proof. vm_compute. repeat split. Qed.
