(* ===== verification/MmBits.v ===== *)
(** * Bit sets of the memory manager ([Zend/zend_alloc.c], [Zend/zend_bitset.h])

    A bit set is an array of 64-bit words.  [bit_of] reads it as a function
    from bit numbers to booleans; the lemmas of this file state every
    operation through it, the word-wise range operations included. *)
From S2P Require Export Prelude.

(** ** Words *)
Definition ZEND_MM_BITSET_LEN : Z := 64.

(** [(zend_mm_bitset)-1] *)
Definition all_ones : Z := u64 (-1).

(** One halving step of the searches below: skip [k] bits when the low [k]
    bits are the ones that are searched past. *)
Definition skip_if (test : bool) (k : Z) (s : Z * Z) : Z * Z :=
  if test then (fst s + k, Z.shiftr (snd s) k) else s.

Definition skip_ones (k m : Z) (s : Z * Z) : Z * Z := skip_if (Z.land (snd s) m =? m) k s.
Definition skip_zeros (k m : Z) (s : Z * Z) : Z * Z := skip_if (Z.land (snd s) m =? 0) k s.

(** number of trailing set (1) bits *)
Definition zend_mm_bitset_nts (bitset : Z) : Z :=
  if bitset =? all_ones then ZEND_MM_BITSET_LEN
  else
    let s := skip_ones 32 0xffffffff (0, bitset) in
    let s := skip_ones 16 0x0000ffff s in
    let s := skip_ones 8 0x000000ff s in
    let s := skip_ones 4 0x0000000f s in
    let s := skip_ones 2 0x00000003 s in
    fst s + Z.land (snd s) 1.

(** number of trailing zero bits *)
Definition zend_ulong_ntz (num : Z) : Z :=
  if num =? 0 then 64
  else
    let s := skip_zeros 32 0xffffffff (1, num) in
    let s := skip_zeros 16 0x0000ffff s in
    let s := skip_zeros 8 0x000000ff s in
    let s := skip_zeros 4 0x0000000f s in
    let s := skip_zeros 2 0x00000003 s in
    fst s - Z.land (snd s) 1.

(** ** Sets *)
Fixpoint find_word (f : Z -> option Z) (bitset : list Z) (i size : Z) (fuel : nat) : res Z :=
  match fuel with
  | O => Err OutOfFuel
  | S fuel =>
      let! tmp := aget bitset i in
      match f tmp with
      | Some n => Ok (i * ZEND_MM_BITSET_LEN + n)
      | None => let i := i + 1 in if i <? size then find_word f bitset i size fuel else Ok (-1)
      end
  end.

Definition zend_mm_bitset_find_zero (bitset : list Z) (size : Z) : res Z :=
  find_word (fun tmp => if tmp =? all_ones then None else Some (zend_mm_bitset_nts tmp))
    bitset 0 size (S (Z.to_nat size)).

Definition zend_mm_bitset_find_one (bitset : list Z) (size : Z) : res Z :=
  find_word (fun tmp => if tmp =? 0 then None else Some (zend_ulong_ntz tmp))
    bitset 0 size (S (Z.to_nat size)).

(** The word of a bit, and its mask [1 << (bit & 63)]. *)
Definition bit_mask (bit : Z) : Z := u64 (Z.shiftl 1 (Z.land bit (ZEND_MM_BITSET_LEN - 1))).

Definition upd_word (bitset : list Z) (pos : Z) (f : Z -> Z) : res (list Z) :=
  let! w := aget bitset pos in
  aset bitset pos (f w).

Definition zend_mm_bitset_is_set (bitset : list Z) (bit : Z) : res bool :=
  let! w := aget bitset (bit / ZEND_MM_BITSET_LEN) in
  Ok (negb (Z.land w (bit_mask bit) =? 0)).

Definition zend_mm_bitset_set_bit (bitset : list Z) (bit : Z) : res (list Z) :=
  upd_word bitset (bit / ZEND_MM_BITSET_LEN) (fun w => Z.lor w (bit_mask bit)).

(** [~] on 64 bits *)
Definition not64 (w : Z) : Z := u64 (Z.lnot w).

Definition zend_mm_bitset_reset_bit (bitset : list Z) (bit : Z) : res (list Z) :=
  upd_word bitset (bit / ZEND_MM_BITSET_LEN) (fun w => Z.land w (not64 (bit_mask bit))).

(** [(zend_mm_bitset)-1 << bit]: the bits from [bit] up, and
    [(zend_mm_bitset)-1 >> (63 - end)]: the bits up to [end]. *)
Definition mask_from (bit : Z) : Z := u64 (Z.shiftl all_ones bit).
Definition mask_upto (e : Z) : Z := Z.shiftr all_ones ((ZEND_MM_BITSET_LEN - 1) - e).

(** [while (pos != end) bitset[pos++] = w] *)
Fixpoint fill_words (bitset : list Z) (pos e w : Z) (fuel : nat) : res (list Z) :=
  match fuel with
  | O => Err OutOfFuel
  | S fuel =>
      if pos =? e then Ok bitset
      else
        let! bitset := aset bitset pos w in
        fill_words bitset (pos + 1) e w fuel
  end.

Definition zend_mm_bitset_set_range (bitset : list Z) (start len : Z) : res (list Z) :=
  if len =? 1 then zend_mm_bitset_set_bit bitset start
  else
    let pos := start / ZEND_MM_BITSET_LEN in
    let e := (start + len - 1) / ZEND_MM_BITSET_LEN in
    let bit := Z.land start (ZEND_MM_BITSET_LEN - 1) in
    let last := Z.land (start + len - 1) (ZEND_MM_BITSET_LEN - 1) in
    if negb (pos =? e) then
      let! bitset := upd_word bitset pos (fun w => Z.lor w (mask_from bit)) in
      let! bitset := fill_words bitset (pos + 1) e all_ones (S (Z.to_nat (e - pos))) in
      upd_word bitset e (fun w => Z.lor w (mask_upto last))
    else
      upd_word bitset pos (fun w => Z.lor w (Z.land (mask_from bit) (mask_upto last))).

(** The first word is cleared with [~((1 << bit) - 1)], complemented. *)
Definition zend_mm_bitset_reset_range (bitset : list Z) (start len : Z) : res (list Z) :=
  if len =? 1 then zend_mm_bitset_reset_bit bitset start
  else
    let pos := start / ZEND_MM_BITSET_LEN in
    let e := (start + len - 1) / ZEND_MM_BITSET_LEN in
    let bit := Z.land start (ZEND_MM_BITSET_LEN - 1) in
    let last := Z.land (start + len - 1) (ZEND_MM_BITSET_LEN - 1) in
    if negb (pos =? e) then
      let tmp := not64 (u64 (Z.shiftl 1 bit) - 1) in
      let! bitset := upd_word bitset pos (fun w => Z.land w (not64 tmp)) in
      let! bitset := fill_words bitset (pos + 1) e 0 (S (Z.to_nat (e - pos))) in
      upd_word bitset e (fun w => Z.land w (not64 (mask_upto last)))
    else
      upd_word bitset pos (fun w => Z.land w (not64 (Z.land (mask_from bit) (mask_upto last)))).

(** [while (pos != end) if (bitset[pos++] != 0) return 0] *)
Fixpoint zero_words (bitset : list Z) (pos e : Z) (fuel : nat) : res bool :=
  match fuel with
  | O => Err OutOfFuel
  | S fuel =>
      if pos =? e then Ok true
      else
        let! w := aget bitset pos in
        if negb (w =? 0) then Ok false else zero_words bitset (pos + 1) e fuel
  end.

Definition zend_mm_bitset_is_free_range (bitset : list Z) (start len : Z) : res bool :=
  if len =? 1 then let! b := zend_mm_bitset_is_set bitset start in Ok (negb b)
  else
    let pos := start / ZEND_MM_BITSET_LEN in
    let e := (start + len - 1) / ZEND_MM_BITSET_LEN in
    let bit := Z.land start (ZEND_MM_BITSET_LEN - 1) in
    let last := Z.land (start + len - 1) (ZEND_MM_BITSET_LEN - 1) in
    if negb (pos =? e) then
      let! w := aget bitset pos in
      if negb (Z.land w (mask_from bit) =? 0) then Ok false
      else
        let! z := zero_words bitset (pos + 1) e (S (Z.to_nat (e - pos))) in
        if negb z then Ok false
        else
          let! w := aget bitset e in
          Ok (Z.land w (mask_upto last) =? 0)
    else
      let! w := aget bitset pos in
      Ok (Z.land w (Z.land (mask_from bit) (mask_upto last)) =? 0).

(** ** Bits of words *)
Definition word64 (w : Z) : Prop := 0 <= w < 2 ^ 64.

Lemma testbit_high w j : word64 w -> 64 <= j -> Z.testbit w j = false.
Proof.
  intros Hw Hj. destruct (Z.eq_dec w 0) as [->|]; [apply Z.bits_0|].
  apply Z.bits_above_log2; [unfold word64 in Hw; lia|].
  unfold word64 in Hw. pose proof (Z.log2_lt_pow2 w 64). lia.
Qed.

Lemma word64_bits w : 0 <= w -> (forall j, 64 <= j -> Z.testbit w j = false) -> word64 w.
Proof.
  intros Hw H. split; [done|]. apply Z.lt_nge. intros Hge.
  assert (Hl : 64 <= Z.log2 w) by (apply Z.log2_le_pow2; lia).
  pose proof (Z.bit_log2 w ltac:(lia)) as Hb. by rewrite H in Hb.
Qed.

Lemma word_inj v w :
  word64 v -> word64 w -> (forall j, 0 <= j < 64 -> Z.testbit v j = Z.testbit w j) -> v = w.
Proof.
  intros Hv Hw H. apply Z.bits_inj'. intros j Hj.
  destruct (Z.lt_ge_cases j 64) as [Hlt|Hge]; [by apply H|].
  by rewrite !testbit_high.
Qed.

Lemma u64_testbit z j : 0 <= j < 64 -> Z.testbit (u64 z) j = Z.testbit z j.
Proof. intros Hj. unfold u64. apply Z.mod_pow2_bits_low. lia. Qed.

Lemma u64_word z : word64 (u64 z).
Proof. apply u64_range. Qed.

Lemma land_word v w : word64 w -> word64 (Z.land w v).
Proof.
  intros Hw. apply word64_bits.
  - rewrite Z.land_nonneg. unfold word64 in Hw. lia.
  - intros j Hj. by rewrite Z.land_spec, (testbit_high w).
Qed.

Lemma lor_word v w : word64 w -> word64 v -> word64 (Z.lor w v).
Proof.
  intros Hw Hv. apply word64_bits.
  - rewrite Z.lor_nonneg. unfold word64 in *. lia.
  - intros j Hj. by rewrite Z.lor_spec, !testbit_high.
Qed.

Lemma shiftr_word w k : 0 <= k -> word64 w -> word64 (Z.shiftr w k).
Proof.
  intros Hk Hw. apply word64_bits.
  - rewrite Z.shiftr_nonneg. unfold word64 in *. lia.
  - intros j Hj. rewrite Z.shiftr_spec by lia. apply testbit_high; [done|lia].
Qed.

Lemma all_ones_word : word64 all_ones.
Proof. unfold word64. by vm_compute. Qed.

Lemma all_ones_testbit j : 0 <= j < 64 -> Z.testbit all_ones j = true.
Proof.
  intros Hj. unfold all_ones. rewrite u64_testbit by done. apply Z.bits_m1. lia.
Qed.

Lemma bit_mask_word bit : word64 (bit_mask bit).
Proof. apply u64_word. Qed.

Lemma land63 z : Z.land z (ZEND_MM_BITSET_LEN - 1) = z mod 64.
Proof. change (ZEND_MM_BITSET_LEN - 1) with (Z.ones 6). by rewrite Z.land_ones. Qed.

Lemma bit_mask_testbit bit j :
  0 <= j < 64 -> Z.testbit (bit_mask bit) j = (j =? bit mod 64).
Proof.
  intros Hj. unfold bit_mask. rewrite u64_testbit, land63, Z.shiftl_spec by lia.
  pose proof (Z.mod_pos_bound bit 64).
  destruct (Z.eqb_spec j (bit mod 64)) as [->|Hne].
  - by rewrite Z.sub_diag.
  - destruct (Z.lt_ge_cases j (bit mod 64)); [apply Z.testbit_neg_r; lia|].
    change 1 with (2 ^ 0). apply Z.pow2_bits_false. lia.
Qed.

Lemma not64_word w : word64 (not64 w).
Proof. apply u64_word. Qed.

Lemma not64_testbit w j : 0 <= j < 64 -> Z.testbit (not64 w) j = negb (Z.testbit w j).
Proof. intros Hj. unfold not64. rewrite u64_testbit by done. apply Z.lnot_spec. lia. Qed.

Lemma mask_from_testbit bit j :
  0 <= bit -> 0 <= j < 64 -> Z.testbit (mask_from bit) j = (bit <=? j).
Proof.
  intros Hb Hj. unfold mask_from. rewrite u64_testbit, Z.shiftl_spec by lia.
  zcases; [apply all_ones_testbit; lia | apply Z.testbit_neg_r; lia].
Qed.

Lemma mask_upto_testbit e j :
  0 <= e < 64 -> 0 <= j < 64 -> Z.testbit (mask_upto e) j = (j <=? e).
Proof.
  intros He Hj. unfold mask_upto, ZEND_MM_BITSET_LEN. rewrite Z.shiftr_spec by lia.
  zcases; [apply all_ones_testbit; lia | apply testbit_high; [apply all_ones_word | lia]].
Qed.

Lemma mask_from_word bit : word64 (mask_from bit).
Proof. apply u64_word. Qed.

Lemma mask_upto_word e : e < 64 -> word64 (mask_upto e).
Proof. intros He. apply shiftr_word; [unfold ZEND_MM_BITSET_LEN; lia | apply all_ones_word]. Qed.

Lemma low_mask_testbit bit j :
  0 <= bit < 64 -> 0 <= j < 64 -> Z.testbit (u64 (Z.shiftl 1 bit) - 1) j = (j <? bit).
Proof.
  intros Hb Hj.
  assert (Z.shiftl 1 bit < 2 ^ 64)
    by (rewrite Z.shiftl_1_l; apply Z.pow_lt_mono_r; lia).
  rewrite u64_small by (rewrite Z.shiftl_1_l in *; pose proof (Z.pow_pos_nonneg 2 bit); lia).
  rewrite Z.shiftl_1_l, Z.sub_1_r, <- Z.ones_equiv. zcases.
  - apply Z.ones_spec_low. lia.
  - apply Z.ones_spec_high. lia.
Qed.

Lemma word_zero w : word64 w -> (w =? 0) = true <-> forall j, 0 <= j < 64 -> Z.testbit w j = false.
Proof.
  intros Hw. rewrite Z.eqb_eq. split.
  - intros -> j _. apply Z.bits_0.
  - intros H. apply word_inj; [done | by vm_compute |]. intros j Hj.
    rewrite H by done. symmetry. apply Z.bits_0.
Qed.

Lemma word_nonzero w : word64 w -> w <> 0 -> exists j, 0 <= j < 64 /\ Z.testbit w j = true.
Proof.
  intros Hw Hne. exists (Z.log2 w). unfold word64 in Hw.
  pose proof (Z.log2_nonneg w). pose proof (Z.log2_lt_pow2 w 64).
  split; [lia | apply Z.bit_log2; lia].
Qed.

Lemma word_not_full w : word64 w -> w <> all_ones -> exists j, 0 <= j < 64 /\ Z.testbit w j = false.
Proof.
  intros Hw Hne. destruct (word_nonzero (not64 w)) as (j & Hj & Hb).
  - apply not64_word.
  - intros H0. apply Hne. apply word_inj; [done | apply all_ones_word |]. intros j Hj.
    rewrite all_ones_testbit by done.
    pose proof (not64_testbit w j Hj) as Hn. rewrite H0, Z.bits_0 in Hn.
    by destruct (Z.testbit w j).
  - exists j. split; [done|]. rewrite not64_testbit in Hb by done. by destruct (Z.testbit w j).
Qed.

#[export] Hint Resolve u64_word land_word lor_word shiftr_word all_ones_word bit_mask_word
  not64_word mask_from_word : php.

(** ** Trailing bits *)

(** [k] is the number of the first bit with value [v] of [w], below [b]. *)
Definition first_bit (v : bool) (w k : Z) : Prop :=
  0 <= k /\ Z.testbit w k = v /\ forall j, 0 <= j < k -> Z.testbit w j = negb v.

(** Some bit below [b] has the value [v]. *)
Definition has_bit (v : bool) (w b : Z) : Prop := exists j, 0 <= j < b /\ Z.testbit w j = v.

Lemma low_ones_spec w k :
  0 <= k -> Z.land w (Z.ones k) = Z.ones k <-> forall j, 0 <= j < k -> Z.testbit w j = true.
Proof.
  intros Hk. split.
  - intros H j Hj. assert (Z.testbit (Z.land w (Z.ones k)) j = true)
      by (rewrite H; apply Z.ones_spec_low; lia).
    rewrite Z.land_spec in *. by destruct (Z.testbit w j).
  - intros H. apply Z.bits_inj'. intros j Hj. rewrite Z.land_spec.
    destruct (Z.lt_ge_cases j k); [rewrite H by lia; done|].
    by rewrite Z.ones_spec_high, andb_false_r by lia.
Qed.

Lemma low_zeros_spec w k :
  0 <= k -> Z.land w (Z.ones k) = 0 <-> forall j, 0 <= j < k -> Z.testbit w j = false.
Proof.
  intros Hk. split.
  - intros H j Hj. assert (Z.testbit (Z.land w (Z.ones k)) j = false)
      by (rewrite H; apply Z.bits_0).
    rewrite Z.land_spec, Z.ones_spec_low, andb_true_r in *; [done|lia].
  - intros H. apply Z.bits_inj'. intros j Hj. rewrite Z.land_spec, Z.bits_0.
    destruct (Z.lt_ge_cases j k); [by rewrite H by lia|].
    by rewrite Z.ones_spec_high, andb_false_r by lia.
Qed.

(** What the halving steps keep: [n] bits of [w] have been skipped, all with
    the other value, and one of the next [b] bits has the value [v]. *)
Definition search_at (v : bool) (w n0 b : Z) (s : Z * Z) : Prop :=
  let n := fst s - n0 in
  0 <= n /\ snd s = Z.shiftr w n /\
  (forall j, 0 <= j < n -> Z.testbit w j = negb v) /\ has_bit v (snd s) b.

Lemma skip_step v w n0 k s test :
  0 < k -> search_at v w n0 (2 * k) s ->
  (test = true <-> forall j, 0 <= j < k -> Z.testbit (snd s) j = negb v) ->
  search_at v w n0 k (skip_if test k s).
Proof.
  intros Hk (Hn & Hs & Hlow & j & Hj & Hv) Ht. unfold skip_if, search_at in *.
  destruct test; cbn [fst snd].
  - assert (H : forall j, 0 <= j < k -> Z.testbit (snd s) j = negb v) by (by apply Ht).
    replace (fst s + k - n0) with (fst s - n0 + k) by lia.
    split; [lia|]. split; [rewrite Hs, Z.shiftr_shiftr; f_equal; lia|]. split.
    + intros i Hi. destruct (Z.lt_ge_cases i (fst s - n0)) as [?|Hge]; [by apply Hlow; lia|].
      rewrite <- (H (i - (fst s - n0))) by lia. rewrite Hs, Z.shiftr_spec by lia. f_equal. lia.
    + exists (j - k). destruct (Z.lt_ge_cases j k) as [Hlt|Hge].
      { rewrite H in Hv by lia. by destruct v. }
      split; [lia|]. rewrite Z.shiftr_spec by lia. by replace (j - k + k) with j by lia.
  - split; [done|]. split; [done|]. split; [done|].
    destruct (decide (Exists (fun i => Z.testbit (snd s) i = v) (seqZ 0 k))) as [He|He].
    + apply Exists_exists in He. destruct He as (i & Hi & Hb).
      apply elem_of_seqZ in Hi. exists i. split; [lia | done].
    + exfalso. cut (false = true); [done|]. apply Ht. intros i Hi.
      destruct (Bool.bool_dec (Z.testbit (snd s) i) v) as [Hb|Hb].
      * exfalso. apply He. apply Exists_exists. exists i. split; [apply elem_of_seqZ; lia | done].
      * by destruct v, (Z.testbit (snd s) i).
Qed.

Lemma search_start v w b n0 : has_bit v w b -> search_at v w n0 b (n0, w).
Proof.
  intros H. unfold search_at. cbn [fst snd]. rewrite Z.sub_diag, Z.shiftr_0_r.
  split; [done|]. split; [done|]. split; [intros; lia | done].
Qed.

Lemma skip_ones_step w k m s :
  0 < k -> m = Z.ones k -> search_at false w 0 (2 * k) s -> search_at false w 0 k (skip_ones k m s).
Proof.
  intros Hk -> H. apply skip_step; [done..|]. rewrite Z.eqb_eq. by apply low_ones_spec; lia.
Qed.

Lemma skip_zeros_step w k m s :
  0 < k -> m = Z.ones k -> search_at true w 1 (2 * k) s -> search_at true w 1 k (skip_zeros k m s).
Proof.
  intros Hk -> H. apply skip_step; [done..|]. rewrite Z.eqb_eq. by apply low_zeros_spec; lia.
Qed.

Lemma land1 z : Z.land z 1 = Z.b2z (Z.testbit z 0).
Proof. change 1 with (Z.ones 1) at 1. rewrite Z.land_ones by lia. by rewrite Z.bit0_mod. Qed.

(** The last step: one of the two low bits has the value [v]. *)
Lemma search_end v w n0 s :
  search_at v w n0 2 s ->
  first_bit v w (fst s - n0 + Z.b2z (Bool.eqb (Z.testbit (snd s) 0) (negb v))).
Proof.
  intros (Hn & Hs & Hlow & j & Hj & Hv). unfold first_bit.
  assert (Hb : forall i, 0 <= i -> Z.testbit (snd s) i = Z.testbit w (fst s - n0 + i)).
  { intros i Hi. rewrite Hs, Z.shiftr_spec by lia. f_equal. lia. }
  destruct (Bool.eqb (Z.testbit (snd s) 0) (negb v)) eqn:E; cbn [Z.b2z].
  - apply Bool.eqb_prop in E. split; [lia|].
    assert (j <> 0) by (intros ->; rewrite E in Hv; by destruct v).
    replace j with 1 in Hv by lia. rewrite Hb in E, Hv by lia. split; [done|].
    intros i Hi. destruct (Z.lt_ge_cases i (fst s - n0)); [by apply Hlow; lia|].
    replace i with (fst s - n0 + 0) by lia. done.
  - apply Bool.eqb_false_iff in E. rewrite Z.add_0_r. split; [lia|]. split; [|done].
    rewrite Hb, Z.add_0_r in E by lia. by destruct v, (Z.testbit w (fst s - n0)).
Qed.

(** [zend_mm_bitset_nts] finds the first clear bit, [zend_ulong_ntz] the
    first set one. *)
Lemma nts_first_bit w : word64 w -> w <> all_ones -> first_bit false w (zend_mm_bitset_nts w).
Proof.
  intros Hw Hne. unfold zend_mm_bitset_nts. zcases; [done|]. cbv zeta.
  pose proof (search_start false w 64 0 (word_not_full w Hw Hne)) as H.
  apply (skip_ones_step w 32 0xffffffff) in H; [|lia|done].
  apply (skip_ones_step w 16 0xffff) in H; [|lia|done].
  apply (skip_ones_step w 8 0xff) in H; [|lia|done].
  apply (skip_ones_step w 4 0xf) in H; [|lia|done].
  apply (skip_ones_step w 2 0x3) in H; [|lia|done].
  apply search_end in H. rewrite land1, Z.sub_0_r in *.
  by destruct (Z.testbit _ 0) in H |- *.
Qed.

Lemma ntz_first_bit w : word64 w -> w <> 0 -> first_bit true w (zend_ulong_ntz w).
Proof.
  intros Hw Hne. unfold zend_ulong_ntz. zcases; [done|]. cbv zeta.
  pose proof (search_start true w 64 1 (word_nonzero w Hw Hne)) as H.
  apply (skip_zeros_step w 32 0xffffffff) in H; [|lia|done].
  apply (skip_zeros_step w 16 0xffff) in H; [|lia|done].
  apply (skip_zeros_step w 8 0xff) in H; [|lia|done].
  apply (skip_zeros_step w 4 0xf) in H; [|lia|done].
  apply (skip_zeros_step w 2 0x3) in H; [|lia|done].
  apply search_end in H. rewrite land1.
  match goal with |- first_bit _ _ ?a => match type of H with first_bit _ _ ?b =>
    replace a with b; [done|] end end.
  match goal with |- context [fst ?s] => generalize s; intros p end.
  destruct (Z.testbit (snd p) 0); simpl; lia.
Qed.

Lemma first_bit_range v w k : word64 w -> has_bit v w 64 -> first_bit v w k -> 0 <= k < 64.
Proof.
  intros Hw (j & Hj & Hv) (H0 & Hk & Hlow). split; [done|]. apply Z.lt_nge. intros Hge.
  rewrite Hlow in Hv by lia. by destruct v.
Qed.

(** ** Bits of sets *)
Definition bit_of (bitset : list Z) (i : Z) : bool :=
  match bitset !! Z.to_nat (i / 64) with Some w => Z.testbit w (i mod 64) | None => false end.

Definition words_ok (bitset : list Z) : Prop := Forall word64 bitset.

(** The number of bits of a set. *)
Definition nbits (bitset : list Z) : Z := 64 * Z.of_nat (length bitset).

Lemma word_index (bitset : list Z) i :
  0 <= i < nbits bitset -> 0 <= i / 64 < Z.of_nat (length bitset).
Proof. unfold nbits. intros Hi. split; [apply Z.div_pos | apply Z.div_lt_upper_bound]; lia. Qed.

Lemma get_word bitset pos :
  words_ok bitset -> 0 <= pos < Z.of_nat (length bitset) ->
  exists w, aget bitset pos = Ok w /\ bitset !! Z.to_nat pos = Some w /\ word64 w.
Proof.
  intros Hw Hp. destruct (lookup_lt_is_Some_2 bitset (Z.to_nat pos)) as [w E]; [lia|].
  exists w. split; [by apply aget_okZ; [lia|]|]. split; [done|].
  eapply Forall_lookup_1; eauto.
Qed.

Lemma bit_of_word bitset pos w j :
  bitset !! Z.to_nat pos = Some w -> 0 <= pos -> 0 <= j < 64 ->
  bit_of bitset (64 * pos + j) = Z.testbit w j.
Proof.
  intros E Hp Hj. unfold bit_of.
  rewrite (Z.mul_comm 64), Z.div_add_l, (Z.div_small j), Z.add_0_r, E by lia.
  f_equal. rewrite Z.add_comm, Z.mod_add, Z.mod_small; lia.
Qed.

Lemma bit_of_insert bitset pos w i :
  0 <= pos < Z.of_nat (length bitset) -> 0 <= i ->
  bit_of (<[Z.to_nat pos := w]> bitset) i =
    if i / 64 =? pos then Z.testbit w (i mod 64) else bit_of bitset i.
Proof.
  intros Hp Hi. unfold bit_of. assert (0 <= i / 64) by (apply Z.div_pos; lia). zcases.
  - subst pos. by rewrite list_lookup_insert_eq by lia.
  - by rewrite list_lookup_insert_ne by lia.
Qed.

(** What an operation that rewrites words does to the set. *)
Definition same_shape (b b' : list Z) : Prop := length b' = length b /\ words_ok b'.

Lemma upd_word_spec bitset pos f :
  words_ok bitset -> 0 <= pos < Z.of_nat (length bitset) ->
  (forall w, word64 w -> word64 (f w)) ->
  exists w b', upd_word bitset pos f = Ok b' /\ same_shape bitset b' /\ word64 w /\
    bitset !! Z.to_nat pos = Some w /\
    forall i, 0 <= i -> bit_of b' i = if i / 64 =? pos then Z.testbit (f w) (i mod 64) else bit_of bitset i.
Proof.
  intros Hw Hp Hf. destruct (get_word bitset pos Hw Hp) as (w & Hg & Hl & Hww).
  exists w, (<[Z.to_nat pos := f w]> bitset). unfold upd_word. rewrite Hg. rsimp.
  rewrite aset_okZ by lia. split; [done|]. split.
  { split; [apply length_insert|]. apply Forall_insert; auto. }
  split; [done|]. split; [done|]. intros i Hi. by apply bit_of_insert.
Qed.

(** The bits of [upd_word], each from the old one by [g]. *)
Lemma upd_word_bits bitset pos f g :
  words_ok bitset -> 0 <= pos < Z.of_nat (length bitset) ->
  (forall w, word64 w -> word64 (f w)) ->
  (forall w j, word64 w -> 0 <= j < 64 -> Z.testbit (f w) j = g j (Z.testbit w j)) ->
  exists b', upd_word bitset pos f = Ok b' /\ same_shape bitset b' /\
    forall i, 0 <= i -> bit_of b' i = if i / 64 =? pos then g (i mod 64) (bit_of bitset i) else bit_of bitset i.
Proof.
  intros Hw Hp Hf Hg. destruct (upd_word_spec bitset pos f Hw Hp Hf) as (w & b' & Hu & Hs & Hww & Hl & Hb).
  exists b'. split; [done|]. split; [done|]. intros i Hi. rewrite Hb by done.
  pose proof (Z.mod_pos_bound i 64). destruct (Z.eqb_spec (i / 64) pos) as [<-|]; [|done].
  rewrite Hg by (done || lia). unfold bit_of. by rewrite Hl.
Qed.

Lemma fill_words_spec w fuel : forall bitset pos e,
  words_ok bitset -> 0 <= pos <= e -> e <= Z.of_nat (length bitset) -> word64 w ->
  e - pos < Z.of_nat fuel ->
  exists b', fill_words bitset pos e w fuel = Ok b' /\ same_shape bitset b' /\
    forall i, 0 <= i ->
      bit_of b' i = if (pos <=? i / 64) && (i / 64 <? e) then Z.testbit w (i mod 64) else bit_of bitset i.
Proof.
  induction fuel as [|fuel IH]; intros bitset pos e Hw Hp He Hww Hf; [lia|].
  cbn [fill_words]. destruct (Z.eqb_spec pos e) as [->|Hne].
  - exists bitset. split; [done|]. split; [done|]. intros i Hi. zcases; simpl; try done. lia.
  - rewrite aset_okZ by lia. rsimp.
    destruct (IH (<[Z.to_nat pos := w]> bitset) (pos + 1) e) as (b' & Hb & [Hl Hs] & Hbits);
      [by apply Forall_insert | lia | rewrite length_insert; lia | done | lia |].
    exists b'. split; [done|]. rewrite length_insert in Hl. split; [done|].
    intros i Hi. rewrite Hbits, bit_of_insert by lia.
    zcases; simpl; try done; lia.
Qed.

(** ** Single bits and ranges *)

(** The quotient and the remainder of [i] by the word length, for [lia]. *)
Ltac split_bit i :=
  let H := fresh in let H1 := fresh in
  pose proof (Z.div_mod i 64 ltac:(lia)) as H;
  pose proof (Z.mod_pos_bound i 64 ltac:(lia)) as H1.

Definition in_range (start len i : Z) : bool := (start <=? i) && (i <? start + len).

Section Ranges.
Context (bitset : list Z) (Hwords : words_ok bitset).

Lemma is_set_spec bit :
  0 <= bit < nbits bitset -> zend_mm_bitset_is_set bitset bit = Ok (bit_of bitset bit).
Proof using Hwords.
  intros Hb. unfold zend_mm_bitset_is_set.
  destruct (get_word bitset (bit / 64) Hwords (word_index _ _ Hb)) as (w & Hg & Hl & Hww).
  unfold ZEND_MM_BITSET_LEN. rewrite Hg. rsimp. f_equal. unfold bit_of. rewrite Hl.
  split_bit bit. destruct (Z.testbit w (bit mod 64)) eqn:E.
  - apply negb_true_iff, not_true_iff_false. rewrite word_zero by auto with php.
    intros H2. specialize (H2 (bit mod 64) ltac:(lia)).
    rewrite Z.land_spec, E, bit_mask_testbit, Z.eqb_refl in H2 by lia. done.
  - apply negb_false_iff, word_zero; [auto with php|]. intros j Hj.
    rewrite Z.land_spec, bit_mask_testbit by lia.
    destruct (Z.eqb_spec j (bit mod 64)) as [->|]; [by rewrite E | apply andb_false_r].
Qed.

Lemma set_bit_spec bit :
  0 <= bit < nbits bitset ->
  exists b', zend_mm_bitset_set_bit bitset bit = Ok b' /\ same_shape bitset b' /\
    forall i, 0 <= i -> bit_of b' i = (i =? bit) || bit_of bitset i.
Proof using Hwords.
  intros Hb. unfold zend_mm_bitset_set_bit.
  destruct (upd_word_bits bitset (bit / 64) (fun w => Z.lor w (bit_mask bit))
    (fun j v => (j =? bit mod 64) || v) Hwords (word_index _ _ Hb)) as (b' & Hu & Hs & Hbits).
  - auto with php.
  - intros w j Hw Hj. by rewrite Z.lor_spec, bit_mask_testbit, orb_comm by lia.
  - exists b'. split; [done|]. split; [done|]. intros i Hi. rewrite Hbits by done.
    split_bit i. split_bit bit. zcases; simpl; try done; lia.
Qed.

Lemma reset_bit_spec bit :
  0 <= bit < nbits bitset ->
  exists b', zend_mm_bitset_reset_bit bitset bit = Ok b' /\ same_shape bitset b' /\
    forall i, 0 <= i -> bit_of b' i = negb (i =? bit) && bit_of bitset i.
Proof using Hwords.
  intros Hb. unfold zend_mm_bitset_reset_bit.
  destruct (upd_word_bits bitset (bit / 64) (fun w => Z.land w (not64 (bit_mask bit)))
    (fun j v => negb (j =? bit mod 64) && v) Hwords (word_index _ _ Hb)) as (b' & Hu & Hs & Hbits).
  - auto with php.
  - intros w j Hw Hj. by rewrite Z.land_spec, not64_testbit, bit_mask_testbit, andb_comm by lia.
  - exists b'. split; [done|]. split; [done|]. intros i Hi. rewrite Hbits by done.
    split_bit i. split_bit bit. zcases; simpl; try done; lia.
Qed.

(** A range that spans several words: the first word is changed from the
    start of the range, the last one up to its end, those between wholly. *)
Lemma span_spec start len v (f g : Z -> Z) (fill : Z) :
  let pos := start / 64 in let e := (start + len - 1) / 64 in
  0 <= start -> 1 <= len -> start + len <= nbits bitset -> pos <> e ->
  (forall w, word64 w -> word64 (f w)) -> (forall w, word64 w -> word64 (g w)) ->
  (forall w j, word64 w -> 0 <= j < 64 -> Z.testbit (f w) j = if start mod 64 <=? j then v else Z.testbit w j) ->
  (forall w j, word64 w -> 0 <= j < 64 ->
    Z.testbit (g w) j = if j <=? (start + len - 1) mod 64 then v else Z.testbit w j) ->
  word64 fill -> (forall j, 0 <= j < 64 -> Z.testbit fill j = v) ->
  exists b',
    (let! b := upd_word bitset pos f in
     let! b := fill_words b (pos + 1) e fill (S (Z.to_nat (e - pos))) in
     upd_word b e g) = Ok b' /\ same_shape bitset b' /\
    forall i, 0 <= i -> bit_of b' i = if in_range start len i then v else bit_of bitset i.
Proof using Hwords.
  intros pos e Hs Hl Hr Hne Hf Hg Hfb Hgb Hfw Hfv.
  assert (Hpos : 0 <= pos < Z.of_nat (length bitset)) by (apply word_index; lia).
  assert (He : 0 <= e < Z.of_nat (length bitset)) by (apply word_index; lia).
  assert (Hlt : pos < e).
  { assert (pos <= e) by (apply Z.div_le_mono; lia). lia. }
  destruct (upd_word_bits bitset pos f (fun j b => if start mod 64 <=? j then v else b) Hwords Hpos Hf Hfb)
    as (b1 & -> & [Hl1 Hw1] & Hb1). rsimp.
  destruct (fill_words_spec fill (S (Z.to_nat (e - pos))) b1 (pos + 1) e) as (b2 & -> & [Hl2 Hw2] & Hb2);
    [done | lia | lia | done | lia |]. rsimp.
  destruct (upd_word_bits b2 e g (fun j b => if j <=? (start + len - 1) mod 64 then v else b) Hw2)
    as (b3 & -> & [Hl3 Hw3] & Hb3); [lia | done | done |].
  exists b3. split; [done|]. split; [split; [congruence | done]|].
  intros i Hi. rewrite Hb3, Hb2, Hb1 by done. rewrite Hfv by (apply Z.mod_pos_bound; lia).
  unfold in_range. split_bit i. split_bit start. split_bit (start + len - 1).
  subst pos e. zcases; simpl; try done; lia.
Qed.

Lemma set_range_spec start len :
  0 <= start -> 1 <= len -> start + len <= nbits bitset ->
  exists b', zend_mm_bitset_set_range bitset start len = Ok b' /\ same_shape bitset b' /\
    forall i, 0 <= i -> bit_of b' i = in_range start len i || bit_of bitset i.
Proof using Hwords.
  intros Hs Hl Hr. unfold zend_mm_bitset_set_range.
  assert (Hst : 0 <= start < nbits bitset) by lia.
  assert (Hen : 0 <= start + len - 1 < nbits bitset) by lia.
  destruct (Z.eqb_spec len 1) as [->|H1].
  { destruct (set_bit_spec start Hst) as (b' & Hb & Hsh & Hbits).
    exists b'. split; [done|]. split; [done|]. intros i Hi. rewrite Hbits by done.
    unfold in_range. zcases; simpl; try done; lia. }
  cbv zeta. rewrite !land63. unfold ZEND_MM_BITSET_LEN.
  pose proof (Z.mod_pos_bound start 64). pose proof (Z.mod_pos_bound (start + len - 1) 64).
  destruct (Z.eqb_spec (start / 64) ((start + len - 1) / 64)) as [Heq|Hne]; simpl negb; cbv iota.
  - destruct (upd_word_bits bitset (start / 64)
      (fun w => Z.lor w (Z.land (mask_from (start mod 64)) (mask_upto ((start + len - 1) mod 64))))
      (fun j b => (start mod 64 <=? j) && (j <=? (start + len - 1) mod 64) || b) Hwords (word_index _ _ Hst))
      as (b' & Hu & Hsh & Hbits).
    + auto with php.
    + intros w j Hw Hj. rewrite Z.lor_spec, Z.land_spec, mask_from_testbit, mask_upto_testbit by lia.
      apply orb_comm.
    + exists b'. split; [done|]. split; [done|]. intros i Hi. rewrite Hbits by done.
      unfold in_range. split_bit i. split_bit start. split_bit (start + len - 1).
      zcases; simpl; try done; lia.
  - destruct (span_spec start len true
      (fun w => Z.lor w (mask_from (start mod 64)))
      (fun w => Z.lor w (mask_upto ((start + len - 1) mod 64))) all_ones) as (b' & Hb & Hsh & Hbits); try done.
    + auto with php.
    + intros w Hw. apply lor_word; [done | apply mask_upto_word; lia].
    + intros w j Hw Hj. rewrite Z.lor_spec, mask_from_testbit by lia.
      zcases; [apply orb_true_r | apply orb_false_r].
    + intros w j Hw Hj. rewrite Z.lor_spec, mask_upto_testbit by lia.
      zcases; [apply orb_true_r | apply orb_false_r].
    + apply all_ones_testbit.
    + exists b'. split; [done|]. split; [done|]. intros i Hi. rewrite Hbits by done.
      by destruct (in_range start len i).
Qed.

Lemma reset_range_spec start len :
  0 <= start -> 1 <= len -> start + len <= nbits bitset ->
  exists b', zend_mm_bitset_reset_range bitset start len = Ok b' /\ same_shape bitset b' /\
    forall i, 0 <= i -> bit_of b' i = negb (in_range start len i) && bit_of bitset i.
Proof using Hwords.
  intros Hs Hl Hr. unfold zend_mm_bitset_reset_range.
  assert (Hst : 0 <= start < nbits bitset) by lia.
  assert (Hen : 0 <= start + len - 1 < nbits bitset) by lia.
  destruct (Z.eqb_spec len 1) as [->|H1].
  { destruct (reset_bit_spec start Hst) as (b' & Hb & Hsh & Hbits).
    exists b'. split; [done|]. split; [done|]. intros i Hi. rewrite Hbits by done.
    unfold in_range. zcases; simpl; try done; lia. }
  cbv zeta. rewrite !land63. unfold ZEND_MM_BITSET_LEN.
  pose proof (Z.mod_pos_bound start 64). pose proof (Z.mod_pos_bound (start + len - 1) 64).
  destruct (Z.eqb_spec (start / 64) ((start + len - 1) / 64)) as [Heq|Hne]; simpl negb; cbv iota.
  - destruct (upd_word_bits bitset (start / 64)
      (fun w => Z.land w (not64 (Z.land (mask_from (start mod 64)) (mask_upto ((start + len - 1) mod 64)))))
      (fun j b => negb ((start mod 64 <=? j) && (j <=? (start + len - 1) mod 64)) && b) Hwords (word_index _ _ Hst))
      as (b' & Hu & Hsh & Hbits).
    + auto with php.
    + intros w j Hw Hj.
      rewrite Z.land_spec, not64_testbit, Z.land_spec, mask_from_testbit, mask_upto_testbit by lia.
      apply andb_comm.
    + exists b'. split; [done|]. split; [done|]. intros i Hi. rewrite Hbits by done.
      unfold in_range. split_bit i. split_bit start. split_bit (start + len - 1).
      zcases; simpl; try done; lia.
  - destruct (span_spec start len false
      (fun w => Z.land w (not64 (not64 (u64 (Z.shiftl 1 (start mod 64)) - 1))))
      (fun w => Z.land w (not64 (mask_upto ((start + len - 1) mod 64)))) 0) as (b' & Hb & Hsh & Hbits); try done.
    + auto with php.
    + auto with php.
    + intros w j Hw Hj. rewrite Z.land_spec, !not64_testbit, low_mask_testbit, negb_involutive by lia.
      zcases; first [lia | apply andb_false_r | apply andb_true_r].
    + intros w j Hw Hj. rewrite Z.land_spec, not64_testbit, mask_upto_testbit by lia.
      zcases; [apply andb_false_r | apply andb_true_r].
    + intros j _. apply Z.bits_0.
    + exists b'. split; [done|]. split; [done|]. intros i Hi. rewrite Hbits by done.
      by destruct (in_range start len i).
Qed.
End Ranges.

(** ** Testing a range *)
Lemma zero_words_spec bitset fuel : forall pos e,
  words_ok bitset -> 0 <= pos <= e -> e <= Z.of_nat (length bitset) -> e - pos < Z.of_nat fuel ->
  exists b, zero_words bitset pos e fuel = Ok b /\
    (b = true <-> forall i, 0 <= i -> pos <= i / 64 < e -> bit_of bitset i = false).
Proof.
  induction fuel as [|fuel IH]; intros pos e Hw Hp He Hf; [lia|].
  cbn [zero_words]. destruct (Z.eqb_spec pos e) as [->|Hne].
  - exists true. split; [done|]. split; [intros _ i Hi ?; lia | done].
  - destruct (get_word bitset pos Hw) as (w & Hg & Hl & Hww); [lia|]. rewrite Hg. rsimp.
    assert (Hword : forall j, 0 <= j < 64 -> bit_of bitset (64 * pos + j) = Z.testbit w j)
      by (intros j Hj; apply (bit_of_word bitset pos w); done || lia).
    destruct (w =? 0) eqn:E; cbn [negb].
    + rewrite word_zero in E by done.
      destruct (IH (pos + 1) e Hw) as (b & Hb & Hiff); [lia..|].
      exists b. split; [done|]. rewrite Hiff. split; intros H i Hi Hr; [|apply H; lia].
      destruct (Z.eq_dec (i / 64) pos) as [Heq|Hneq]; [|apply H; lia].
      split_bit i. replace i with (64 * pos + i mod 64) by lia. rewrite Hword by lia. apply E. lia.
    + exists false. split; [done|]. split; [done|]. intros H. exfalso.
      cut ((w =? 0) = true); [by rewrite E|]. apply word_zero; [done|]. intros j Hj. rewrite <- Hword by done. apply H; [lia|].
      replace (64 * pos + j) with (j + pos * 64) by lia. rewrite Z.div_add, Z.div_small; lia.
Qed.

Lemma masked_zero bitset pos w m :
  word64 w -> bitset !! Z.to_nat pos = Some w -> 0 <= pos ->
  (Z.land w m =? 0) = true <->
  forall i, 0 <= i -> i / 64 = pos -> Z.testbit m (i mod 64) = true -> bit_of bitset i = false.
Proof.
  intros Hw Hl Hp. rewrite word_zero by auto with php. split.
  - intros H i Hi <- Hm. pose proof (Z.mod_pos_bound i 64). specialize (H (i mod 64) ltac:(lia)).
    rewrite Z.land_spec, Hm, andb_true_r in H. unfold bit_of. by rewrite Hl.
  - intros H j Hj. rewrite Z.land_spec. destruct (Z.testbit m j) eqn:E; [|apply andb_false_r].
    rewrite andb_true_r, <- (bit_of_word bitset pos w) by (done || lia).
    assert (Hm : (64 * pos + j) mod 64 = j)
      by (rewrite Z.add_comm, Z.mul_comm, Z.mod_add, Z.mod_small; lia).
    apply H; [lia | | by rewrite Hm].
    rewrite Z.mul_comm, Z.div_add_l, Z.div_small; lia.
Qed.

Lemma is_free_range_spec bitset start len :
  words_ok bitset -> 0 <= start -> 1 <= len -> start + len <= nbits bitset ->
  exists b, zend_mm_bitset_is_free_range bitset start len = Ok b /\
    (b = true <-> forall i, start <= i < start + len -> bit_of bitset i = false).
Proof.
  intros Hwords Hs Hl Hr. unfold zend_mm_bitset_is_free_range.
  assert (Hst : 0 <= start < nbits bitset) by lia.
  assert (Hen : 0 <= start + len - 1 < nbits bitset) by lia.
  destruct (Z.eqb_spec len 1) as [->|H1].
  { rewrite is_set_spec by done. rsimp. eexists. split; [done|]. rewrite negb_true_iff.
    split; [intros H i Hi; by replace i with start by lia | intros H; apply H; lia]. }
  cbv zeta. rewrite !land63. unfold ZEND_MM_BITSET_LEN.
  pose proof (Z.mod_pos_bound start 64). pose proof (Z.mod_pos_bound (start + len - 1) 64).
  destruct (get_word bitset (start / 64) Hwords (word_index _ _ Hst)) as (w & Hg & Hlw & Hww).
  rewrite Hg. split_bit start. split_bit (start + len - 1).
  assert (0 <= start / 64) by (apply Z.div_pos; lia).
  destruct (Z.eqb_spec (start / 64) ((start + len - 1) / 64)) as [Heq|Hne]; cbn [negb]; rsimp.
  - eexists. split; [done|]. rewrite (masked_zero bitset (start / 64)) by done.
    split; intros H' i Hi.
    + apply H'; [lia | split_bit i; lia |].
      rewrite Z.land_spec, mask_from_testbit, mask_upto_testbit by (split_bit i; lia).
      split_bit i. zcases; simpl; done || lia.
    + intros Hq. split_bit i. rewrite Z.land_spec, mask_from_testbit, mask_upto_testbit by lia.
      intros Hm. apply andb_prop in Hm as [??]. zbool. apply H'. lia.
  - assert (Hlt : start / 64 < (start + len - 1) / 64) by lia.
    assert (Hend : (start + len - 1) / 64 < Z.of_nat (length bitset)) by (by apply word_index).
    pose proof (masked_zero bitset (start / 64) w (mask_from (start mod 64)) Hww Hlw ltac:(lia)) as Hfirst.
    destruct (Z.land w (mask_from (start mod 64)) =? 0) eqn:E; cbn [negb].
    2:{ exists false. split; [done|]. split; [done|]. intros H'. apply Hfirst.
        intros i Hi Hq Hm. apply H'. split_bit i. rewrite mask_from_testbit in Hm by lia. zbool. lia. }
    destruct (zero_words_spec bitset (S (Z.to_nat ((start + len - 1) / 64 - start / 64)))
      (start / 64 + 1) ((start + len - 1) / 64) Hwords) as (z & -> & Hz); [lia..|]. rsimp.
    destruct (get_word bitset ((start + len - 1) / 64) Hwords) as (w' & Hg' & Hlw' & Hww'); [lia|].
    rewrite Hg'. destruct z; cbn [negb].
    2:{ exists false. split; [done|]. split; [done|]. intros H'. apply Hz.
        intros i Hi Hq. apply H'. split_bit i. lia. }
    rsimp. eexists. split; [done|]. rewrite (masked_zero bitset ((start + len - 1) / 64)) by (done || lia).
    split; intros H' i Hi.
    + split_bit i. destruct (Z.eq_dec (i / 64) (start / 64)) as [Hf|Hf].
      { apply (proj1 Hfirst eq_refl); [lia | done |]. rewrite mask_from_testbit by lia. zcases; done || lia. }
      destruct (Z.eq_dec (i / 64) ((start + len - 1) / 64)) as [Hf'|Hf'].
      { apply H'; [lia | done |]. rewrite mask_upto_testbit by lia. zcases; done || lia. }
      apply (proj1 Hz eq_refl); lia.
    + intros Hq Hm. split_bit i. rewrite mask_upto_testbit in Hm by lia. zbool. apply H'. lia.
Qed.
