(* ===== verification/MmState.v ===== *)
(** * Data of the memory manager ([Zend/zend_alloc.c], [zend_alloc_sizes.h])

    Addresses are integers.  The chunk headers are records in a map by the
    address of their chunk; the bytes of the blocks, in which the manager keeps
    its free lists and its list of huge blocks, are a map from addresses to
    bytes.  The heap structure is a record with the address [h_addr].

    The build is a release build on Linux with [ZEND_MM_STAT],
    [ZEND_MM_LIMIT] and no custom heap or storage: [use_custom_heap] is
    [ZEND_MM_CUSTOM_HEAP_NONE] and [storage] is [NULL], as [zend_mm_init]
    leaves them. *)
From stdpp Require Export gmap.
From Stdlib Require Export Floats.SpecFloat.
From S2P Require Export Prelude MmBits.

(** ** Sizes *)
Definition ZEND_MM_CHUNK_SIZE : Z := 2 * 1024 * 1024.
Definition ZEND_MM_PAGE_SIZE : Z := 4 * 1024.
Definition REAL_PAGE_SIZE : Z := ZEND_MM_PAGE_SIZE.
Definition ZEND_MM_PAGES : Z := ZEND_MM_CHUNK_SIZE / ZEND_MM_PAGE_SIZE.
Definition ZEND_MM_FIRST_PAGE : Z := 1.
Definition ZEND_MM_PAGE_MAP_LEN : Z := ZEND_MM_PAGES / ZEND_MM_BITSET_LEN.
Definition ZEND_MM_MAX_SMALL_SIZE : Z := 3072.
Definition ZEND_MM_MAX_LARGE_SIZE : Z := ZEND_MM_CHUNK_SIZE - ZEND_MM_PAGE_SIZE * ZEND_MM_FIRST_PAGE.
Definition ZEND_MM_BINS : Z := 30.

(** size, count, pages of every bin *)
Definition ZEND_MM_BINS_INFO : list (Z * Z * Z) :=
  [(8, 512, 1); (16, 256, 1); (24, 170, 1); (32, 128, 1); (40, 102, 1);
   (48, 85, 1); (56, 73, 1); (64, 64, 1); (80, 51, 1); (96, 42, 1);
   (112, 36, 1); (128, 32, 1); (160, 25, 1); (192, 21, 1); (224, 18, 1);
   (256, 16, 1); (320, 64, 5); (384, 32, 3); (448, 9, 1); (512, 8, 1);
   (640, 32, 5); (768, 16, 3); (896, 9, 2); (1024, 8, 2); (1280, 16, 5);
   (1536, 8, 3); (1792, 16, 7); (2048, 8, 4); (2560, 8, 5); (3072, 4, 3)].

Definition bin_info (bin_num : Z) : Z * Z * Z := nth (Z.to_nat bin_num) ZEND_MM_BINS_INFO (0, 0, 0).
Definition bin_data_size (bin_num : Z) : Z := fst (fst (bin_info bin_num)).
Definition bin_elements (bin_num : Z) : Z := snd (fst (bin_info bin_num)).
Definition bin_pages (bin_num : Z) : Z := snd (bin_info bin_num).

(** ** Alignment *)
Definition ZEND_MM_ALIGNED_OFFSET (size alignment : Z) : Z := Z.land size (alignment - 1).
Definition ZEND_MM_ALIGNED_BASE (size alignment : Z) : Z := Z.land size (not64 (alignment - 1)).
Definition ZEND_MM_SIZE_TO_NUM (size alignment : Z) : Z := u64 (size + (alignment - 1)) / alignment.
Definition ZEND_MM_ALIGNED_SIZE_EX (size alignment : Z) : Z :=
  Z.land (u64 (size + alignment - 1)) (not64 (alignment - 1)).

(** ** The 32-bit page information *)
Definition ZEND_MM_IS_LRUN : Z := 0x40000000.
Definition ZEND_MM_IS_SRUN : Z := 0x80000000.
Definition ZEND_MM_LRUN_PAGES_MASK : Z := 0x000003ff.
Definition ZEND_MM_SRUN_BIN_NUM_MASK : Z := 0x0000001f.
Definition ZEND_MM_SRUN_FREE_COUNTER_MASK : Z := 0x01ff0000.
Definition ZEND_MM_NRUN_OFFSET_MASK : Z := 0x01ff0000.

Definition ZEND_MM_LRUN_PAGES (info : Z) : Z := Z.land info ZEND_MM_LRUN_PAGES_MASK.
Definition ZEND_MM_SRUN_BIN_NUM (info : Z) : Z := Z.land info ZEND_MM_SRUN_BIN_NUM_MASK.
Definition ZEND_MM_SRUN_FREE_COUNTER (info : Z) : Z :=
  Z.shiftr (Z.land info ZEND_MM_SRUN_FREE_COUNTER_MASK) 16.
Definition ZEND_MM_NRUN_OFFSET (info : Z) : Z := Z.shiftr (Z.land info ZEND_MM_NRUN_OFFSET_MASK) 16.

Definition ZEND_MM_LRUN (count : Z) : Z := Z.lor ZEND_MM_IS_LRUN count.
Definition ZEND_MM_SRUN (bin_num : Z) : Z := Z.lor ZEND_MM_IS_SRUN bin_num.
Definition ZEND_MM_SRUN_EX (bin_num count : Z) : Z :=
  Z.lor (Z.lor ZEND_MM_IS_SRUN bin_num) (Z.shiftl count 16).
Definition ZEND_MM_NRUN (bin_num offset : Z) : Z :=
  Z.lor (Z.lor (Z.lor ZEND_MM_IS_SRUN ZEND_MM_IS_LRUN) bin_num) (Z.shiftl offset 16).

(** [info & flag] as a condition *)
Definition info_has (info flag : Z) : bool := negb (Z.land info flag =? 0).

(** ** The structures *)
Record zend_mm_chunk := Chunk {
  c_heap : Z;          (* address of the heap *)
  c_next : Z;
  c_prev : Z;
  free_pages : Z;      (* uint32_t *)
  free_tail : Z;
  num : Z;
  free_map : list Z;   (* zend_mm_page_map: 8 words *)
  page_map : list Z    (* [map]: ZEND_MM_PAGES infos *)
}.

Record zend_mm_heap := Heap {
  h_size : Z;
  h_peak : Z;
  free_slot : list Z;
  real_size : Z;
  real_peak : Z;
  limit : Z;
  overflow : Z;
  huge_list : Z;
  main_chunk : Z;
  cached_chunks : Z;
  chunks_count : Z;
  peak_chunks_count : Z;
  cached_chunks_count : Z;
  avg_chunks_count : spec_float;  (* double *)
  last_chunks_delete_boundary : Z;
  last_chunks_delete_count : Z
}.

Section ChunkSetters.
Context (c : zend_mm_chunk).
Definition set_c_heap (v : Z) := Chunk v (c_next c) (c_prev c) (free_pages c) (free_tail c) (num c) (free_map c) (page_map c).
Definition set_c_next (v : Z) := Chunk (c_heap c) v (c_prev c) (free_pages c) (free_tail c) (num c) (free_map c) (page_map c).
Definition set_c_prev (v : Z) := Chunk (c_heap c) (c_next c) v (free_pages c) (free_tail c) (num c) (free_map c) (page_map c).
Definition set_free_pages (v : Z) := Chunk (c_heap c) (c_next c) (c_prev c) v (free_tail c) (num c) (free_map c) (page_map c).
Definition set_free_tail (v : Z) := Chunk (c_heap c) (c_next c) (c_prev c) (free_pages c) v (num c) (free_map c) (page_map c).
Definition set_num (v : Z) := Chunk (c_heap c) (c_next c) (c_prev c) (free_pages c) (free_tail c) v (free_map c) (page_map c).
Definition set_free_map (v : list Z) := Chunk (c_heap c) (c_next c) (c_prev c) (free_pages c) (free_tail c) (num c) v (page_map c).
Definition set_page_map (v : list Z) := Chunk (c_heap c) (c_next c) (c_prev c) (free_pages c) (free_tail c) (num c) (free_map c) v.
End ChunkSetters.

Section HeapSetters.
Context (h : zend_mm_heap).
Definition set_h_size (v : Z) := Heap v (h_peak h) (free_slot h) (real_size h) (real_peak h)
  (limit h) (overflow h) (huge_list h) (main_chunk h) (cached_chunks h) (chunks_count h)
  (peak_chunks_count h) (cached_chunks_count h) (avg_chunks_count h) (last_chunks_delete_boundary
  h) (last_chunks_delete_count h).
Definition set_h_peak (v : Z) := Heap (h_size h) v (free_slot h) (real_size h) (real_peak h)
  (limit h) (overflow h) (huge_list h) (main_chunk h) (cached_chunks h) (chunks_count h)
  (peak_chunks_count h) (cached_chunks_count h) (avg_chunks_count h) (last_chunks_delete_boundary
  h) (last_chunks_delete_count h).
Definition set_free_slot (v : list Z) := Heap (h_size h) (h_peak h) v (real_size h) (real_peak h)
  (limit h) (overflow h) (huge_list h) (main_chunk h) (cached_chunks h) (chunks_count h)
  (peak_chunks_count h) (cached_chunks_count h) (avg_chunks_count h) (last_chunks_delete_boundary
  h) (last_chunks_delete_count h).
Definition set_real_size (v : Z) := Heap (h_size h) (h_peak h) (free_slot h) v (real_peak h)
  (limit h) (overflow h) (huge_list h) (main_chunk h) (cached_chunks h) (chunks_count h)
  (peak_chunks_count h) (cached_chunks_count h) (avg_chunks_count h) (last_chunks_delete_boundary
  h) (last_chunks_delete_count h).
Definition set_real_peak (v : Z) := Heap (h_size h) (h_peak h) (free_slot h) (real_size h) v
  (limit h) (overflow h) (huge_list h) (main_chunk h) (cached_chunks h) (chunks_count h)
  (peak_chunks_count h) (cached_chunks_count h) (avg_chunks_count h) (last_chunks_delete_boundary
  h) (last_chunks_delete_count h).
Definition set_limit (v : Z) := Heap (h_size h) (h_peak h) (free_slot h) (real_size h) (real_peak
  h) v (overflow h) (huge_list h) (main_chunk h) (cached_chunks h) (chunks_count h)
  (peak_chunks_count h) (cached_chunks_count h) (avg_chunks_count h) (last_chunks_delete_boundary
  h) (last_chunks_delete_count h).
Definition set_overflow (v : Z) := Heap (h_size h) (h_peak h) (free_slot h) (real_size h)
  (real_peak h) (limit h) v (huge_list h) (main_chunk h) (cached_chunks h) (chunks_count h)
  (peak_chunks_count h) (cached_chunks_count h) (avg_chunks_count h) (last_chunks_delete_boundary
  h) (last_chunks_delete_count h).
Definition set_huge_list (v : Z) := Heap (h_size h) (h_peak h) (free_slot h) (real_size h)
  (real_peak h) (limit h) (overflow h) v (main_chunk h) (cached_chunks h) (chunks_count h)
  (peak_chunks_count h) (cached_chunks_count h) (avg_chunks_count h) (last_chunks_delete_boundary
  h) (last_chunks_delete_count h).
Definition set_main_chunk (v : Z) := Heap (h_size h) (h_peak h) (free_slot h) (real_size h)
  (real_peak h) (limit h) (overflow h) (huge_list h) v (cached_chunks h) (chunks_count h)
  (peak_chunks_count h) (cached_chunks_count h) (avg_chunks_count h) (last_chunks_delete_boundary
  h) (last_chunks_delete_count h).
Definition set_cached_chunks (v : Z) := Heap (h_size h) (h_peak h) (free_slot h) (real_size h)
  (real_peak h) (limit h) (overflow h) (huge_list h) (main_chunk h) v (chunks_count h)
  (peak_chunks_count h) (cached_chunks_count h) (avg_chunks_count h) (last_chunks_delete_boundary
  h) (last_chunks_delete_count h).
Definition set_chunks_count (v : Z) := Heap (h_size h) (h_peak h) (free_slot h) (real_size h)
  (real_peak h) (limit h) (overflow h) (huge_list h) (main_chunk h) (cached_chunks h) v
  (peak_chunks_count h) (cached_chunks_count h) (avg_chunks_count h) (last_chunks_delete_boundary
  h) (last_chunks_delete_count h).
Definition set_peak_chunks_count (v : Z) := Heap (h_size h) (h_peak h) (free_slot h) (real_size h)
  (real_peak h) (limit h) (overflow h) (huge_list h) (main_chunk h) (cached_chunks h)
  (chunks_count h) v (cached_chunks_count h) (avg_chunks_count h) (last_chunks_delete_boundary h)
  (last_chunks_delete_count h).
Definition set_cached_chunks_count (v : Z) := Heap (h_size h) (h_peak h) (free_slot h) (real_size
  h) (real_peak h) (limit h) (overflow h) (huge_list h) (main_chunk h) (cached_chunks h)
  (chunks_count h) (peak_chunks_count h) v (avg_chunks_count h) (last_chunks_delete_boundary h)
  (last_chunks_delete_count h).
Definition set_avg_chunks_count (v : spec_float) := Heap (h_size h) (h_peak h) (free_slot h)
  (real_size h) (real_peak h) (limit h) (overflow h) (huge_list h) (main_chunk h) (cached_chunks
  h) (chunks_count h) (peak_chunks_count h) (cached_chunks_count h) v (last_chunks_delete_boundary
  h) (last_chunks_delete_count h).
Definition set_last_chunks_delete_boundary (v : Z) := Heap (h_size h) (h_peak h) (free_slot h)
  (real_size h) (real_peak h) (limit h) (overflow h) (huge_list h) (main_chunk h) (cached_chunks
  h) (chunks_count h) (peak_chunks_count h) (cached_chunks_count h) (avg_chunks_count h) v
  (last_chunks_delete_count h).
Definition set_last_chunks_delete_count (v : Z) := Heap (h_size h) (h_peak h) (free_slot h)
  (real_size h) (real_peak h) (limit h) (overflow h) (huge_list h) (main_chunk h) (cached_chunks
  h) (chunks_count h) (peak_chunks_count h) (cached_chunks_count h) (avg_chunks_count h)
  (last_chunks_delete_boundary h) v.
End HeapSetters.

(** * State of the memory manager: bytes, the operating system, accessors

    [mmap] and [munmap] are not code of the repository: they are the
    operations of the class [OS], and [OSLaws] states what the manager relies
    on, as their manual pages promise it: a new mapping covers no byte that
    is mapped, starts at a page boundary and is not [NULL], and unmapping
    concerns the given range only.  [sim_os] is an instance. *)

(** ** Bytes *)
Definition byte_at (m : gmap Z Z) (a : Z) : Z := default 0 (m !! a).

Fixpoint load_bytes (m : gmap Z Z) (a : Z) (n : nat) : Z :=
  match n with
  | O => 0
  | S n => byte_at m a + 256 * load_bytes m (a + 1) n
  end.

Fixpoint store_bytes (m : gmap Z Z) (a : Z) (n : nat) (v : Z) : gmap Z Z :=
  match n with
  | O => m
  | S n => store_bytes (<[a := v mod 256]> m) (a + 1) n (v / 256)
  end.

(** An 8-byte field of an object in memory. *)
Definition load64 (m : gmap Z Z) (a : Z) : Z := load_bytes m a 8.
Definition store64 (m : gmap Z Z) (a v : Z) : gmap Z Z := store_bytes m a 8 v.

(** [memcpy] *)
Fixpoint copy_bytes (m : gmap Z Z) (dst src : Z) (n : nat) : gmap Z Z :=
  match n with
  | O => m
  | S n => copy_bytes (<[dst := byte_at m src]> m) (dst + 1) (src + 1) n
  end.

Lemma byte_at_insert m a v b : byte_at (<[a := v]> m) b = if b =? a then v else byte_at m b.
Proof.
  unfold byte_at. destruct (Z.eqb_spec b a) as [->|]; [by rewrite lookup_insert_eq|].
  by rewrite lookup_insert_ne.
Qed.

Lemma store_bytes_frame n : forall m a v b,
  b < a \/ a + Z.of_nat n <= b -> byte_at (store_bytes m a n v) b = byte_at m b.
Proof.
  induction n as [|n IH]; intros m a v b Hb; [done|]. cbn [store_bytes].
  rewrite IH, byte_at_insert by lia. zcases; [lia | done].
Qed.

Lemma load_bytes_ext n : forall m m' a,
  (forall b, a <= b < a + Z.of_nat n -> byte_at m b = byte_at m' b) ->
  load_bytes m a n = load_bytes m' a n.
Proof.
  induction n as [|n IH]; intros m m' a H; [done|]. cbn [load_bytes].
  rewrite (H a) by lia. f_equal. f_equal. apply IH. intros b Hb. apply H. lia.
Qed.

Lemma load_store_bytes n : forall m a v,
  0 <= v < 2 ^ (8 * Z.of_nat n) -> load_bytes (store_bytes m a n v) a n = v.
Proof.
  induction n as [|n IH]; intros m a v Hv; [change (2 ^ (8 * Z.of_nat 0)) with 1 in Hv; simpl; lia|].
  cbn [load_bytes store_bytes]. rewrite store_bytes_frame, byte_at_insert, Z.eqb_refl by lia.
  rewrite IH.
  - pose proof (Z.div_mod v 256). lia.
  - replace (8 * Z.of_nat (S n)) with (8 + 8 * Z.of_nat n) in Hv by lia.
    rewrite Z.pow_add_r in Hv by lia. split; [apply Z.div_pos; lia|].
    apply Z.div_lt_upper_bound; lia.
Qed.

Lemma load_store64 m a v : word64 v -> load64 (store64 m a v) a = v.
Proof. intros Hv. apply load_store_bytes. unfold word64 in Hv. lia. Qed.

Lemma store64_frame m a v b : b < a \/ a + 8 <= b -> byte_at (store64 m a v) b = byte_at m b.
Proof. intros Hb. apply store_bytes_frame. lia. Qed.

Lemma load64_ext m m' a :
  (forall b, a <= b < a + 8 -> byte_at m b = byte_at m' b) -> load64 m a = load64 m' a.
Proof. intros H. apply load_bytes_ext. intros b Hb. apply H. lia. Qed.

Lemma load64_store64_ne m a b v :
  b + 8 <= a \/ a + 8 <= b -> load64 (store64 m a v) b = load64 m b.
Proof. intros Hb. apply load64_ext. intros c Hc. apply store64_frame. lia. Qed.

(** Copying between ranges that do not overlap. *)
Lemma copy_bytes_spec n : forall m dst src b,
  dst + Z.of_nat n <= src \/ src + Z.of_nat n <= dst ->
  byte_at (copy_bytes m dst src n) b =
    if (dst <=? b) && (b <? dst + Z.of_nat n) then byte_at m (src + (b - dst)) else byte_at m b.
Proof.
  induction n as [|n IH]; intros m dst src b H.
  - cbn [copy_bytes]. zcases; simpl; done || lia.
  - cbn [copy_bytes]. rewrite IH by lia. rewrite !byte_at_insert.
    replace (src + 1 + (b - (dst + 1))) with (src + (b - dst)) by lia.
    zcases; simpl; try done; try lia. subst b. f_equal. lia.
Qed.

(** ** The operating system *)
Class OS := {
  os_state : Type;
  mmap : os_state -> Z -> Z -> option Z * os_state;  (* hint, length *)
  munmap : os_state -> Z -> Z -> os_state
}.

(** The address space of a process. *)
Definition ADDRESS_SPACE : Z := 2 ^ 47.

Class OSLaws {Sys : OS} := {
  mapped : os_state -> Z -> Prop;
  mmap_some o hint size p o' : 0 < size -> size mod REAL_PAGE_SIZE = 0 ->
    mmap o hint size = (Some p, o') ->
    0 < p /\ p mod REAL_PAGE_SIZE = 0 /\ p + size <= ADDRESS_SPACE /\
    (forall a, p <= a < p + size -> ~ mapped o a) /\
    (forall a, mapped o' a <-> mapped o a \/ p <= a < p + size);
  mmap_none o hint size o' : mmap o hint size = (None, o') ->
    forall a, mapped o' a <-> mapped o a;
  mmap_zero o hint : fst (mmap o hint 0) = None;
  munmap_range o p size a :
    mapped (munmap o p size) a <-> mapped o a /\ ~ (p <= a < p + size)
}.

(** The lowest address of a process in the layout of the System V ABI for
    AMD64: the first page of the text of an executable that is not relocated. *)
Definition LOWEST_ADDRESS : Z := 0x400000.

(** Nothing is mapped below it.  Only requests for memory rely on this, when
    the system refuses an enlarged mapping ([zend_mm_chunk_alloc_int]). *)
Class LowMemory {Sys : OS} {Laws : OSLaws} := {
  lowest_address o a : mapped o a -> LOWEST_ADDRESS <= a
}.

(** ** The state *)
Record mm {Sys : OS} := MM {
  h_addr : Z;
  heap : zend_mm_heap;
  chunks : gmap Z zend_mm_chunk;
  mem : gmap Z Z;
  os : os_state
}.

Section Accessors.
Context {Sys : OS} (st : mm).
Definition set_heap (h : zend_mm_heap) : mm := MM _ (h_addr st) h (chunks st) (mem st) (os st).
Definition set_chunks (cs : gmap Z zend_mm_chunk) : mm := MM _ (h_addr st) (heap st) cs (mem st) (os st).
Definition set_mem (m : gmap Z Z) : mm := MM _ (h_addr st) (heap st) (chunks st) m (os st).
Definition set_os (o : os_state) : mm := MM _ (h_addr st) (heap st) (chunks st) (mem st) o.

(** [heap->f = ..] *)
Definition upd_heap (f : zend_mm_heap -> zend_mm_heap) : mm := set_heap (f (heap st)).

(** Reading and writing the header of the chunk at an address; an address
    without a chunk is a dangling pointer. *)
Definition get_chunk (p : Z) : res zend_mm_chunk :=
  match chunks st !! p with Some c => Ok c | None => Err OutOfBounds end.
Definition put_chunk (p : Z) (c : zend_mm_chunk) : mm := set_chunks (<[p := c]> (chunks st)).
Definition upd_chunk (p : Z) (f : zend_mm_chunk -> zend_mm_chunk) : res mm :=
  let! c := get_chunk p in Ok (put_chunk p (f c)).
End Accessors.
Arguments MM {Sys}.

(** ** An instance: regions in a list, new ones at the least free hint or
    behind the last region *)
Record sim_state := Sim { regions : list (Z * Z); brk : Z }.

Definition region_has (a : Z) (r : Z * Z) : bool := (fst r <=? a) && (a <? fst r + snd r).
Definition region_free (p size : Z) (r : Z * Z) : bool :=
  (p + size <=? fst r) || (fst r + snd r <=? p).

(** The parts of a region before and behind a range. *)
Definition region_cut (p size : Z) (r : Z * Z) : list (Z * Z) :=
  let e := fst r + snd r in
  List.filter (fun r => 0 <? snd r)
    [(fst r, Z.min e p - fst r); (Z.max (fst r) (p + size), e - Z.max (fst r) (p + size))].

(** The place of a new region: the hint when it is free. *)
Definition sim_place (o : sim_state) (hint size : Z) : Z :=
  if (0 <? hint) && (hint mod REAL_PAGE_SIZE =? 0) && forallb (region_free hint size) (regions o)
  then hint else brk o.

Definition sim_mmap (o : sim_state) (hint size : Z) : option Z * sim_state :=
  let p := sim_place o hint size in
  if (0 <? size) && (size mod REAL_PAGE_SIZE =? 0) && (p + size <=? ADDRESS_SPACE) && (LOWEST_ADDRESS <=? p) &&
     (p mod REAL_PAGE_SIZE =? 0) && forallb (region_free p size) (regions o)
  then (Some p, Sim ((p, size) :: regions o) (Z.max (brk o) (p + size)))
  else (None, o).

Definition sim_munmap (o : sim_state) (p size : Z) : sim_state :=
  if 0 <? size then Sim (flat_map (region_cut p size) (regions o)) (brk o) else o.

#[export] Instance sim_os : OS :=
  {| os_state := sim_state; mmap := sim_mmap; munmap := sim_munmap |}.

Definition sim_mapped (o : sim_state) (a : Z) : Prop :=
  LOWEST_ADDRESS <= a /\ Exists (fun r => region_has a r = true) (regions o).

Lemma region_has_spec a r : region_has a r = true <-> fst r <= a < fst r + snd r.
Proof. unfold region_has. rewrite andb_true_iff, Z.leb_le, Z.ltb_lt. done. Qed.

Lemma sim_mmap_some o hint size p o' :
  sim_mmap o hint size = (Some p, o') ->
  LOWEST_ADDRESS <= p /\ p mod REAL_PAGE_SIZE = 0 /\ p + size <= ADDRESS_SPACE /\
  forallb (region_free p size) (regions o) = true /\ regions o' = (p, size) :: regions o.
Proof.
  unfold sim_mmap. generalize (sim_place o hint size). intros q. cbv zeta.
  destruct (forallb (region_free q size) (regions o)) eqn:E; [|rewrite andb_false_r; discriminate].
  rewrite andb_true_r. zcases; simpl; intros [= -> <-]; done.
Qed.

#[export] Instance sim_os_laws : @OSLaws sim_os.
Proof.
  refine (@Build_OSLaws sim_os (sim_mapped : @os_state sim_os -> Z -> Prop) _ _ _ _).
  - intros o hint size p o' Hs Hm (Hp & Hpm & Hsp & Hf & Hr)%sim_mmap_some.
    unfold LOWEST_ADDRESS in Hp. split; [lia|]. split; [done|]. split; [done|]. split.
    + intros a Ha [_ Hmap]. apply Exists_exists in Hmap as (r & Hin & Hh).
      rewrite forallb_forall in Hf. specialize (Hf r ltac:(by apply list_elem_of_In)).
      apply region_has_spec in Hh. unfold region_free in Hf.
      apply orb_prop in Hf as [H1|H1]; zbool; lia.
    + intros a. unfold sim_mapped. rewrite Hr, Exists_cons, region_has_spec. unfold LOWEST_ADDRESS. simpl.
      split; [tauto|]. intros [?|?]; [tauto|]. split; [lia | by left].
  - intros o hint size o' H a. cbn [mmap sim_os] in H. unfold sim_mmap in H. cbv zeta in H.
    destruct (_ && _); [discriminate | by injection H as <-].
  - intros o hint. cbn [mmap sim_os]. unfold sim_mmap. done.
  - intros o p size a. cbn [munmap sim_os]. unfold sim_munmap, sim_mapped. zcases.
    2:{ split; [intros Hm; split; [done | lia] | tauto]. }
    cbn [regions]. rewrite !Exists_exists. split.
    + intros (Hlow & r & Hin & Hh). apply list_elem_of_In, in_flat_map in Hin as (q & Hq & Hc).
      apply region_has_spec in Hh. unfold region_cut in Hc. cbv zeta in Hc.
      apply filter_In in Hc as [Hc _]. destruct Hc as [<- | [<- | []]]; cbn [fst snd] in Hh;
        (split; [split; [done|]; exists q; split; [by apply list_elem_of_In|]; apply region_has_spec; lia | lia]).
    + intros ((Hlow & r & Hin & Hh) & Hn). split; [done|]. apply region_has_spec in Hh.
      destruct (Z.lt_ge_cases a p).
      * exists (fst r, Z.min (fst r + snd r) p - fst r). split; [|apply region_has_spec; simpl; lia].
        apply list_elem_of_In, in_flat_map. exists r. split; [by apply list_elem_of_In|].
        apply filter_In. split; [by left | simpl; apply Z.ltb_lt; lia].
      * exists (Z.max (fst r) (p + size), fst r + snd r - Z.max (fst r) (p + size)).
        split; [|apply region_has_spec; simpl; lia].
        apply list_elem_of_In, in_flat_map. exists r. split; [by apply list_elem_of_In|].
        apply filter_In. split; [by right; left | simpl; apply Z.ltb_lt; lia].
Defined.

#[export] Instance sim_low_memory : @LowMemory sim_os sim_os_laws.
Proof. split. by intros o a [H _]. Defined.
