(* ===== verification/MmChunk.v ===== *)
(** * Chunks of the memory manager: page infos, runs, the chunk invariant

    A chunk has 512 pages, of which the first holds its header.  The others
    are free or belong to runs: large runs, and runs of a bin that is cut
    into small blocks.  [chunk_ok] says what the bit set, the page map and the
    counters of a header have to do with the runs. *)
From S2P Require Export MmState.

(** ** Checking a finite range by computation *)
Lemma check_range (f : Z -> bool) lo n :
  forallb f (seqZ lo n) = true -> forall i, lo <= i < lo + n -> f i = true.
Proof.
  intros H i Hi. rewrite forallb_forall in H. apply H.
  apply list_elem_of_In, elem_of_seqZ. lia.
Qed.

Lemma check_range2 (f : Z -> Z -> bool) lo n lo' n' :
  forallb (fun i => forallb (f i) (seqZ lo' n')) (seqZ lo n) = true ->
  forall i j, lo <= i < lo + n -> lo' <= j < lo' + n' -> f i j = true.
Proof.
  intros H i j Hi Hj. apply (check_range (f i) lo' n'); [|done].
  exact (check_range (fun i => forallb (f i) (seqZ lo' n')) lo n H i Hi).
Qed.

(** ** Page infos *)
Lemma lrun_info n :
  0 <= n < 1024 ->
  info_has (ZEND_MM_LRUN n) ZEND_MM_IS_SRUN = false /\ ZEND_MM_LRUN_PAGES (ZEND_MM_LRUN n) = n.
Proof.
  intros Hn.
  assert (H : negb (info_has (ZEND_MM_LRUN n) ZEND_MM_IS_SRUN) && (ZEND_MM_LRUN_PAGES (ZEND_MM_LRUN n) =? n) = true)
    by (apply (check_range (fun n => negb (info_has (ZEND_MM_LRUN n) ZEND_MM_IS_SRUN) &&
          (ZEND_MM_LRUN_PAGES (ZEND_MM_LRUN n) =? n)) 0 1024); [by vm_compute | lia]).
  by zbool.
Qed.

Definition srun_check (b k : Z) : bool :=
  let info := ZEND_MM_SRUN_EX b k in
  info_has info ZEND_MM_IS_SRUN && negb (info_has info ZEND_MM_IS_LRUN) &&
  (ZEND_MM_SRUN_BIN_NUM info =? b) && (ZEND_MM_SRUN_FREE_COUNTER info =? k mod 512).

Lemma srun_info b k :
  0 <= b < ZEND_MM_BINS -> 0 <= k <= 512 ->
  info_has (ZEND_MM_SRUN_EX b k) ZEND_MM_IS_SRUN = true /\
  info_has (ZEND_MM_SRUN_EX b k) ZEND_MM_IS_LRUN = false /\
  ZEND_MM_SRUN_BIN_NUM (ZEND_MM_SRUN_EX b k) = b /\
  ZEND_MM_SRUN_FREE_COUNTER (ZEND_MM_SRUN_EX b k) = k mod 512.
Proof.
  unfold ZEND_MM_BINS. intros Hb Hk.
  assert (H : srun_check b k = true)
    by (apply (check_range2 srun_check 0 30 0 513); [by vm_compute | lia..]).
  unfold srun_check in H. cbv zeta in H. by zbool.
Qed.

Lemma srun_ex_0 b : ZEND_MM_SRUN b = ZEND_MM_SRUN_EX b 0.
Proof. unfold ZEND_MM_SRUN, ZEND_MM_SRUN_EX. by rewrite Z.shiftl_0_l, Z.lor_0_r. Qed.

Definition nrun_check (b i : Z) : bool :=
  let info := ZEND_MM_NRUN b i in
  info_has info ZEND_MM_IS_SRUN && info_has info ZEND_MM_IS_LRUN &&
  (ZEND_MM_SRUN_BIN_NUM info =? b) && (ZEND_MM_NRUN_OFFSET info =? i).

Lemma nrun_info b i :
  0 <= b < ZEND_MM_BINS -> 0 <= i < 8 ->
  info_has (ZEND_MM_NRUN b i) ZEND_MM_IS_SRUN = true /\
  info_has (ZEND_MM_NRUN b i) ZEND_MM_IS_LRUN = true /\
  ZEND_MM_SRUN_BIN_NUM (ZEND_MM_NRUN b i) = b /\
  ZEND_MM_NRUN_OFFSET (ZEND_MM_NRUN b i) = i.
Proof.
  unfold ZEND_MM_BINS. intros Hb Hi.
  assert (H : nrun_check b i = true)
    by (apply (check_range2 nrun_check 0 30 0 8); [by vm_compute | lia..]).
  unfold nrun_check in H. cbv zeta in H. by zbool.
Qed.

(** ** The table of the bins *)
Definition bin_check (b : Z) : bool :=
  (8 <=? bin_data_size b) && (bin_data_size b mod 8 =? 0) && (bin_data_size b <=? 3072) &&
  (2 <=? bin_elements b) && (bin_elements b <=? 512) && (1 <=? bin_pages b) && (bin_pages b <=? 7) &&
  (bin_data_size b * bin_elements b <=? bin_pages b * ZEND_MM_PAGE_SIZE).

Lemma bin_facts b :
  0 <= b < ZEND_MM_BINS ->
  8 <= bin_data_size b <= 3072 /\ bin_data_size b mod 8 = 0 /\ 2 <= bin_elements b <= 512 /\
  1 <= bin_pages b <= 7 /\ bin_data_size b * bin_elements b <= bin_pages b * 4096.
Proof.
  unfold ZEND_MM_BINS. intros Hb.
  assert (H : bin_check b = true) by (apply (check_range bin_check 0 30); [by vm_compute | lia]).
  unfold bin_check in H. change ZEND_MM_PAGE_SIZE with 4096 in H. zbool. lia.
Qed.

(** ** Runs *)
Inductive run := LargeRun (pages : Z) | SmallRun (bin : Z).

#[export] Instance run_eq_dec : EqDecision run.
Proof. solve_decision. Defined.

Definition run_pages (r : run) : Z :=
  match r with LargeRun n => n | SmallRun b => bin_pages b end.

Definition run_wf (r : run) : Prop :=
  match r with LargeRun n => 1 <= n < ZEND_MM_PAGES | SmallRun b => 0 <= b < ZEND_MM_BINS end.

(** The page infos of the run that starts at page [s]; [k] is the counter of
    free blocks, which is only used while the collector of [MmGc] runs. *)
Definition run_infos (pm : list Z) (k s : Z) (r : run) : Prop :=
  match r with
  | LargeRun n => aget pm s = Ok (ZEND_MM_LRUN n)
  | SmallRun b =>
      aget pm s = Ok (ZEND_MM_SRUN_EX b k) /\
      forall i, 1 <= i < bin_pages b -> aget pm (s + i) = Ok (ZEND_MM_NRUN b i)
  end.

Definition in_run (rs : gmap Z run) (i : Z) : Prop :=
  exists s r, rs !! s = Some r /\ s <= i < s + run_pages r.

(** The number of clear bits, of a range and of a chunk. *)
Fixpoint count_clear (f : Z -> bool) (lo : Z) (n : nat) : Z :=
  match n with
  | O => 0
  | S n => (if f lo then 0 else 1) + count_clear f (lo + 1) n
  end.

Definition count_free (fm : list Z) : Z := count_clear (bit_of fm) 0 512.
#[global] Arguments count_free : simpl never.

Record chunk_ok_with (cnt : Z -> Z) (c : zend_mm_chunk) (rs : gmap Z run) : Prop := {
  co_words : words_ok (free_map c);
  co_len : length (free_map c) = 8%nat;
  co_map_len : length (page_map c) = 512%nat;
  co_bits i : 0 <= i < 512 -> bit_of (free_map c) i = true <-> i = 0 \/ in_run rs i;
  co_wf s r : rs !! s = Some r -> run_wf r /\ 1 <= s /\ s + run_pages r <= 512;
  co_infos s r : rs !! s = Some r -> run_infos (page_map c) (cnt s) s r;
  co_disj s r t q : rs !! s = Some r -> rs !! t = Some q -> s < t -> s + run_pages r <= t;
  co_start s r : rs !! s = Some r -> s < free_tail c;
  co_tail : 1 <= free_tail c <= 512;
  co_free : free_pages c = count_free (free_map c)
}.

Definition chunk_ok : zend_mm_chunk -> gmap Z run -> Prop := chunk_ok_with (fun _ => 0).

Lemma run_pages_pos r : run_wf r -> 1 <= run_pages r < 512.
Proof.
  destruct r as [n|b]; cbn [run_wf run_pages].
  - change ZEND_MM_PAGES with 512. lia.
  - intros Hb. pose proof (bin_facts b Hb). lia.
Qed.

(** ** Counting free pages *)
Lemma count_clear_app f n m : forall lo,
  count_clear f lo (n + m) = count_clear f lo n + count_clear f (lo + Z.of_nat n) m.
Proof.
  induction n as [|n IH]; intros lo; [simpl; by rewrite Z.add_0_r|].
  cbn [count_clear Nat.add]. rewrite IH.
  replace (lo + Z.of_nat (S n)) with (lo + 1 + Z.of_nat n) by lia. lia.
Qed.

Lemma count_clear_ext f g n : forall lo,
  (forall i, lo <= i < lo + Z.of_nat n -> f i = g i) -> count_clear f lo n = count_clear g lo n.
Proof.
  induction n as [|n IH]; intros lo H; [done|]. cbn [count_clear].
  rewrite (H lo) by lia. f_equal. apply IH. intros i Hi. apply H. lia.
Qed.

Lemma count_clear_const f b n : forall lo,
  (forall i, lo <= i < lo + Z.of_nat n -> f i = b) -> count_clear f lo n = if b then 0 else Z.of_nat n.
Proof.
  induction n as [|n IH]; intros lo H; [by destruct b|]. cbn [count_clear].
  rewrite (H lo) by lia. rewrite IH by (intros i Hi; apply H; lia). destruct b; lia.
Qed.

Lemma count_clear_bound f n : forall lo, 0 <= count_clear f lo n <= Z.of_nat n.
Proof.
  induction n as [|n IH]; intros lo; [simpl; lia|]. cbn [count_clear].
  specialize (IH (lo + 1)). destruct (f lo); lia.
Qed.

(** Setting or clearing a range whose bits all had the other value. *)
Lemma count_free_range fm fm' start len b :
  0 <= start -> 0 <= len -> start + len <= 512 ->
  (forall i, start <= i < start + len -> bit_of fm i = b /\ bit_of fm' i = negb b) ->
  (forall i, 0 <= i < 512 -> ~ (start <= i < start + len) -> bit_of fm' i = bit_of fm i) ->
  count_free fm' = count_free fm + (if b then len else - len).
Proof.
  intros Hs Hl Hr Hin Hout. unfold count_free.
  replace 512%nat with (Z.to_nat start + (Z.to_nat len + Z.to_nat (512 - (start + len))))%nat by lia.
  rewrite !count_clear_app.
  rewrite (count_clear_ext (bit_of fm') (bit_of fm) (Z.to_nat start)) by (intros; apply Hout; lia).
  rewrite (count_clear_ext (bit_of fm') (bit_of fm) (Z.to_nat (512 - (start + len))))
    by (intros; apply Hout; lia).
  rewrite (count_clear_const (bit_of fm') (negb b) (Z.to_nat len)) by (intros; apply Hin; lia).
  rewrite (count_clear_const (bit_of fm) b (Z.to_nat len)) by (intros; apply Hin; lia).
  destruct b; simpl; lia.
Qed.

(** A free range is no longer than the number of free pages. *)
Lemma count_free_ge fm start len :
  0 <= start -> 0 <= len -> start + len <= 512 ->
  (forall i, start <= i < start + len -> bit_of fm i = false) -> len <= count_free fm.
Proof.
  intros Hs Hl Hr H. unfold count_free.
  replace 512%nat with (Z.to_nat start + (Z.to_nat len + Z.to_nat (512 - (start + len))))%nat by lia.
  rewrite !count_clear_app.
  rewrite (count_clear_const (bit_of fm) false (Z.to_nat len)) by (intros; apply H; lia).
  pose proof (count_clear_bound (bit_of fm) (Z.to_nat start) 0).
  pose proof (count_clear_bound (bit_of fm) (Z.to_nat (512 - (start + len))) (0 + Z.of_nat (Z.to_nat start) + Z.of_nat (Z.to_nat len))).
  lia.
Qed.
