(* ===== verification/MmSearch.v ===== *)
(** * Best-fit search for free pages ([zend_mm_alloc_pages] of [Zend/zend_alloc.c])

    The search walks over the words of the bit set: it skips allocated
    pages, measures the free run behind them, and fills the part of the
    current word that it has passed with ones.  [best_fit_spec] says which
    free run it chooses; the reference is [free_run], the maximal ranges of
    clear bits. *)
From S2P Require Export MmChunk.

(** ** The search *)
Inductive found := Found (page_num : Z) | NotFound.

(** skip allocated blocks: [None] when the end of the chunk is reached *)
Fixpoint skip_allocated (bitset : list Z) (i tmp : Z) (fuel : nat) : res (option (Z * Z)) :=
  match fuel with
  | O => Err OutOfFuel
  | S fuel =>
      if tmp =? all_ones then
        let i := i + ZEND_MM_BITSET_LEN in
        if i =? ZEND_MM_PAGES then Ok None
        else
          let! tmp := aget bitset (i / ZEND_MM_BITSET_LEN) in
          skip_allocated bitset i tmp fuel
      else Ok (Some (i, tmp))
  end.

(** skip free blocks: [None] when [free_tail] or the end is reached *)
Fixpoint skip_free (bitset : list Z) (free_tail i tmp : Z) (fuel : nat) : res (option (Z * Z)) :=
  match fuel with
  | O => Err OutOfFuel
  | S fuel =>
      if tmp =? 0 then
        let i := i + ZEND_MM_BITSET_LEN in
        if (free_tail <=? i) || (i =? ZEND_MM_PAGES) then Ok None
        else
          let! tmp := aget bitset (i / ZEND_MM_BITSET_LEN) in
          skip_free bitset free_tail i tmp fuel
      else Ok (Some (i, tmp))
  end.

(** [best > 0 ? found : not_found] *)
Definition found_best (best : Z) : found := if 0 <? best then Found best else NotFound.

(** At most [ZEND_MM_PAGES / 64 + 1] words are skipped at a time, and every
    turn of the outer loop passes a page. *)
Fixpoint best_fit (chunk : zend_mm_chunk) (pages_count best best_len i tmp : Z) (fuel : nat)
  : res (found * zend_mm_chunk) :=
  match fuel with
  | O => Err OutOfFuel
  | S fuel =>
      let bitset := free_map chunk in
      let! next := skip_allocated bitset i tmp 9 in
      match next with
      | None => Ok (found_best best, chunk)
      | Some (i, tmp) =>
          (* find first 0 bit *)
          let page_num := i + zend_mm_bitset_nts tmp in
          (* reset bits from 0 to "bit" *)
          let tmp := Z.land tmp (u64 (tmp + 1)) in
          let! next := skip_free bitset (free_tail chunk) i tmp 9 in
          match next with
          | None =>
              let len := ZEND_MM_PAGES - page_num in
              if (pages_count <=? len) && (len <? best_len) then
                Ok (Found page_num, set_free_tail chunk (page_num + pages_count))
              else
                (* set accurate value *)
                Ok (found_best best, set_free_tail chunk page_num)
          | Some (i, tmp) =>
              (* find first 1 bit *)
              let len := i + zend_ulong_ntz tmp - page_num in
              if (pages_count <=? len) && (len =? pages_count) then Ok (Found page_num, chunk)
              else
                let (best, best_len) :=
                  if (pages_count <=? len) && (len <? best_len) then (page_num, len) else (best, best_len) in
                (* set bits from 0 to "bit" *)
                let tmp := Z.lor tmp (tmp - 1) in
                best_fit chunk pages_count best best_len i tmp fuel
          end
      end
  end.

(** The search from the start of the chunk. *)
Definition search_chunk (chunk : zend_mm_chunk) (pages_count : Z) : res (found * zend_mm_chunk) :=
  if free_pages chunk <? pages_count then Ok (NotFound, chunk)
  else
    let! tmp := aget (free_map chunk) 0 in
    best_fit chunk pages_count (-1) ZEND_MM_PAGES 0 tmp 513.

(** ** Clearing and setting the trailing bits *)
Lemma ldiff_ones_split w k :
  0 <= k -> w = Z.ldiff w (Z.ones k) + Z.land w (Z.ones k).
Proof.
  intros Hk. rewrite Z.add_nocarry_lxor, Z.lxor_lor.
  - apply Z.bits_inj'. intros j Hj. rewrite Z.lor_spec, Z.ldiff_spec, Z.land_spec.
    by destruct (Z.testbit w j), (Z.testbit (Z.ones k) j).
  - apply Z.bits_inj'. intros j Hj. rewrite !Z.land_spec, Z.ldiff_spec, Z.bits_0.
    by destruct (Z.testbit w j), (Z.testbit (Z.ones k) j).
  - apply Z.bits_inj'. intros j Hj. rewrite !Z.land_spec, Z.ldiff_spec, Z.bits_0.
    by destruct (Z.testbit w j), (Z.testbit (Z.ones k) j).
Qed.

Lemma ones_testbit k j : 0 <= k -> 0 <= j -> Z.testbit (Z.ones k) j = (j <? k).
Proof.
  intros Hk Hj. zcases; [apply Z.ones_spec_low; lia | apply Z.ones_spec_high; lia].
Qed.

Lemma pow2_testbit k j : 0 <= k -> Z.testbit (2 ^ k) j = (j =? k).
Proof.
  intros Hk. destruct (Z.eqb_spec j k) as [->|]; [by apply Z.pow2_bits_true|].
  by apply Z.pow2_bits_false.
Qed.

Lemma succ_testbit w k j :
  first_bit false w k -> 0 <= j ->
  Z.testbit (w + 1) j = if j <? k then false else (j =? k) || Z.testbit w j.
Proof.
  intros (Hk & Hb & Hlow) Hj.
  assert (Hl : Z.land w (Z.ones k) = Z.ones k) by (by apply low_ones_spec).
  rewrite (ldiff_ones_split w k Hk) at 1. rewrite Hl, <- Z.add_assoc.
  replace (Z.ones k + 1) with (2 ^ k) by (rewrite Z.ones_equiv; lia).
  assert (H0 : Z.land (Z.ldiff w (Z.ones k)) (2 ^ k) = 0).
  { apply Z.bits_inj'. intros i Hi. rewrite Z.land_spec, Z.ldiff_spec, pow2_testbit, Z.bits_0 by done.
    destruct (Z.eqb_spec i k) as [->|]; [by rewrite Hb | apply andb_false_r]. }
  rewrite Z.add_nocarry_lxor, Z.lxor_lor by done.
  rewrite Z.lor_spec, Z.ldiff_spec, ones_testbit, pow2_testbit by done.
  zcases; simpl; try lia; destruct (Z.testbit w j); done.
Qed.

Lemma pred_testbit w k j :
  first_bit true w k -> 0 <= j ->
  Z.testbit (w - 1) j = if j <? k then true else negb (j =? k) && Z.testbit w j.
Proof.
  intros (Hk & Hb & Hlow) Hj.
  assert (Hones : first_bit false (w - 1) k -> Z.testbit (w - 1) j = if j <? k then true else negb (j =? k) && Z.testbit w j).
  { intros H. pose proof (succ_testbit (w - 1) k j H Hj) as Hs.
    replace (w - 1 + 1) with w in Hs by lia. destruct H as (_ & Hb' & Hlow').
    zcases; simpl in *; [by apply Hlow' | by subst | done]. }
  apply Hones.
  assert (Hlw : Z.land w (Z.ones k) = 0) by (by apply low_zeros_spec).
  assert (Hw : w - 1 = Z.ldiff w (2 ^ k) + Z.ones k).
  { assert (Hs : w = Z.ldiff w (2 ^ k) + 2 ^ k).
    { rewrite Z.add_nocarry_lxor, Z.lxor_lor.
      - apply Z.bits_inj'. intros i Hi. rewrite Z.lor_spec, Z.ldiff_spec, pow2_testbit by done.
        destruct (Z.eqb_spec i k) as [->|]; [by rewrite Hb | by rewrite andb_true_r, orb_false_r].
      - apply Z.bits_inj'. intros i Hi. rewrite Z.land_spec, Z.ldiff_spec, pow2_testbit, Z.bits_0 by done.
        zcases; simpl; by rewrite ?andb_false_r.
      - apply Z.bits_inj'. intros i Hi. rewrite Z.land_spec, Z.ldiff_spec, pow2_testbit, Z.bits_0 by done.
        zcases; simpl; by rewrite ?andb_false_r. }
    rewrite Hs at 1. rewrite Z.ones_equiv. lia. }
  rewrite Hw.
  assert (Hd : Z.land (Z.ldiff w (2 ^ k)) (Z.ones k) = 0).
  { apply Z.bits_inj'. intros i Hi. rewrite Z.land_spec, Z.ldiff_spec, ones_testbit, Z.bits_0 by done.
    zcases; [by rewrite Hlow by lia | apply andb_false_r]. }
  rewrite Z.add_nocarry_lxor, Z.lxor_lor by done. split; [done|]. split.
  - rewrite Z.lor_spec, Z.ldiff_spec, pow2_testbit, ones_testbit, Z.eqb_refl, Z.ltb_irrefl by done.
    by rewrite andb_false_r.
  - intros i Hi. rewrite Z.lor_spec, ones_testbit by lia. zcases; [apply orb_true_r | lia].
Qed.

Lemma clear_trailing w k j :
  word64 w -> first_bit false w k -> 0 <= j < 64 ->
  Z.testbit (Z.land w (u64 (w + 1))) j = if j <? k then false else Z.testbit w j.
Proof.
  intros Hw Hf Hj. rewrite Z.land_spec, u64_testbit, (succ_testbit w k) by (done || lia).
  destruct Hf as (_ & Hb & _).
  zcases; simpl; [apply andb_false_r | by rewrite andb_true_r | by destruct (Z.testbit w j)].
Qed.

Lemma set_trailing w k j :
  first_bit true w k -> 0 <= j ->
  Z.testbit (Z.lor w (w - 1)) j = if j <? k then true else Z.testbit w j.
Proof.
  intros Hf Hj. rewrite Z.lor_spec, (pred_testbit w k) by done. destruct Hf as (_ & Hb & _).
  zcases; simpl; [apply orb_true_r | by rewrite orb_false_r | by destruct (Z.testbit w j)].
Qed.

(** ** What the search finds *)

(** The maximal free ranges [a, b) of a set of pages. *)
Definition free_run (F : Z -> bool) (a b : Z) : Prop :=
  0 < a < b /\ b <= 512 /\ F (a - 1) = true /\ (forall p, a <= p < b -> F p = false) /\
  (b = 512 \/ F b = true).

(** No allocated page follows a free one at or behind [ft]. *)
Definition tail_free (F : Z -> bool) (ft : Z) : Prop :=
  forall q, 0 < q < 512 -> F (q - 1) = false -> F q = true -> q < ft.

(** All pages from [z] on are free. *)
Definition free_from (F : Z -> bool) (z : Z) : Prop := forall p, z <= p < 512 -> F p = false.

Section Search.
Context (fm : list Z) (Hwords : words_ok fm) (Hlen : length fm = 8%nat).
#[local] Abbreviation F := (bit_of fm).
Context (ft : Z) (Hft : 1 <= ft <= 512) (Htail : tail_free F ft).

(** [tmp] is the word at [i] where the bits before page [s] are [v]. *)
Definition scan (v : bool) (i tmp s : Z) : Prop :=
  i mod 64 = 0 /\ 0 <= i < 512 /\ i <= s <= i + 64 /\ word64 tmp /\
  forall j, 0 <= j < 64 -> Z.testbit tmp j = if i + j <? s then v else F (i + j).

Lemma scan_next v i :
  i mod 64 = 0 -> 0 <= i < 512 ->
  exists tmp, aget fm (i / ZEND_MM_BITSET_LEN) = Ok tmp /\ scan v i tmp i.
Proof using Hlen Hwords.
  intros Hi Hr. unfold ZEND_MM_BITSET_LEN. split_bit i.
  destruct (get_word fm (i / 64) Hwords) as (w & Hg & Hl & Hw); [rewrite Hlen; lia|].
  exists w. split; [done|]. split; [done|]. split; [done|]. split; [lia|]. split; [done|].
  intros j Hj. zcases; [lia|]. rewrite <- (bit_of_word fm (i / 64) w j) by (done || lia).
  f_equal. lia.
Qed.

Lemma skip_allocated_spec fuel : forall i tmp s,
  scan true i tmp s -> 512 - i < 64 * Z.of_nat fuel ->
  exists r, skip_allocated fm i tmp fuel = Ok r /\
    match r with
    | None => forall p, s <= p < 512 -> F p = true
    | Some (i', tmp') =>
        let z := i' + zend_mm_bitset_nts tmp' in
        s <= z < 512 /\ z < i' + 64 /\ F z = false /\ (forall p, s <= p < z -> F p = true) /\
        scan false i' (Z.land tmp' (u64 (tmp' + 1))) z
    end.
Proof using Hlen Hwords.
  induction fuel as [|fuel IH]; intros i tmp s (Hi & Hr & Hs & Hw & Hb) Hf; [lia|].
  cbn [skip_allocated]. destruct (Z.eqb_spec tmp all_ones) as [->|Hne].
  - assert (Hall : forall p, s <= p < i + 64 -> F p = true).
    { intros p Hp. specialize (Hb (p - i) ltac:(lia)). rewrite all_ones_testbit in Hb by lia.
      replace (i + (p - i)) with p in Hb by lia.
      destruct (Z.ltb_spec p s); [lia | done]. }
    change ZEND_MM_PAGES with 512. unfold ZEND_MM_BITSET_LEN.
    destruct (Z.eqb_spec (i + 64) 512) as [He|He].
    + exists None. split; [done|]. intros p Hp. apply Hall. lia.
    + assert (Hi' : (i + 64) mod 64 = 0) by (rewrite Z.add_mod, Hi by lia; done).
      assert (i + 64 < 512) by (split_bit i; lia).
      destruct (scan_next true (i + 64) Hi') as (tmp & Hg & Hsc); [lia|].
      unfold ZEND_MM_BITSET_LEN in Hg. rewrite Hg. rsimp.
      destruct (IH (i + 64) tmp (i + 64) Hsc) as (r & Hr' & Hpost); [lia|].
      exists r. split; [done|]. destruct r as [[i' tmp']|].
      * cbv zeta in *. destruct Hpost as (Hz & Hz64 & HF & Hbef & Hsc'). split; [lia|]. split; [done|]. split; [done|].
        split; [|done]. intros p Hp. destruct (Z.lt_ge_cases p (i + 64)); [by apply Hall; lia|].
        apply Hbef. lia.
      * intros p Hp. destruct (Z.lt_ge_cases p (i + 64)); [by apply Hall; lia|]. apply Hpost. lia.
  - exists (Some (i, tmp)). split; [done|]. cbv zeta.
    pose proof (nts_first_bit tmp Hw Hne) as Hfb.
    pose proof (first_bit_range false tmp _ Hw (word_not_full tmp Hw Hne) Hfb) as Hk.
    assert (Hfb' := Hfb). destruct Hfb' as (_ & Hz & Hlow).
    assert (Hsz : s <= i + zend_mm_bitset_nts tmp).
    { apply Z.nlt_ge. intros Hlt. rewrite Hb in Hz by done.
      destruct (Z.ltb_spec (i + zend_mm_bitset_nts tmp) s); [done | lia]. }
    split_bit i. split; [lia|]. split; [lia|]. split; [|split].
    + rewrite Hb in Hz by done. destruct (Z.ltb_spec (i + zend_mm_bitset_nts tmp) s); [lia | done].
    + intros p Hp. specialize (Hlow (p - i) ltac:(lia)). rewrite Hb in Hlow by lia.
      replace (i + (p - i)) with p in Hlow by lia. destruct (Z.ltb_spec p s); [lia | done].
    + split; [done|]. split; [done|]. split; [lia|]. split; [by apply land_word|].
      intros j Hj. rewrite (clear_trailing tmp (zend_mm_bitset_nts tmp)) by done.
      rewrite Hb by done. zcases; try done; lia.
Qed.

Lemma skip_free_spec fuel : forall i tmp z,
  scan false i tmp z -> z < i + 64 -> F z = false -> 512 - i < 64 * Z.of_nat fuel ->
  exists r, skip_free fm ft i tmp fuel = Ok r /\
    match r with
    | None => free_from F z
    | Some (i', tmp') =>
        let q := i' + zend_ulong_ntz tmp' in
        z < q < 512 /\ F q = true /\ (forall p, z <= p < q -> F p = false) /\
        scan true i' (Z.lor tmp' (tmp' - 1)) q
    end.
Proof using Hlen Hwords Htail Hft.
  intros i tmp z Hsc Hzi HFz. revert i tmp Hsc Hzi.
  assert (Hgen : forall i tmp, (scan false i tmp (Z.max z i)) -> z < i + 64 ->
    (forall p, z <= p < i -> F p = false) -> 512 - i < 64 * Z.of_nat fuel ->
    exists r, skip_free fm ft i tmp fuel = Ok r /\
    match r with
    | None => free_from F z
    | Some (i', tmp') =>
        let q := i' + zend_ulong_ntz tmp' in
        z < q < 512 /\ F q = true /\ (forall p, z <= p < q -> F p = false) /\
        scan true i' (Z.lor tmp' (tmp' - 1)) q
    end).
  2:{ intros i tmp Hsc Hzi Hf. destruct (Hsc) as (_ & ? & ? & _). apply Hgen; [|done| |done].
      - by replace (Z.max z i) with z by lia.
      - intros p Hp. lia. }
  induction fuel as [|fuel IH]; intros i tmp (Hi & Hr & Hs & Hw & Hb) Hzi Hbef Hf; [lia|].
  cbn [skip_free]. destruct (Z.eqb_spec tmp 0) as [->|Hne].
  - assert (Hall : forall p, z <= p < i + 64 -> F p = false).
    { intros p Hp. destruct (Z.lt_ge_cases p i); [by apply Hbef; lia|].
      specialize (Hb (p - i) ltac:(lia)). rewrite Z.bits_0 in Hb.
      replace (i + (p - i)) with p in Hb by lia.
      destruct (Z.ltb_spec p (Z.max z i)); [lia | done]. }
    change ZEND_MM_PAGES with 512. unfold ZEND_MM_BITSET_LEN.
    destruct ((ft <=? i + 64) || (i + 64 =? 512)) eqn:E.
    + exists None. split; [done|]. intros p Hp. apply orb_prop in E.
      assert (Hind : forall n : nat, i + 64 + Z.of_nat n <= 512 -> forall p, z <= p < i + 64 + Z.of_nat n -> F p = false).
      { induction n as [|n IHn]; intros Hn q Hq; [apply Hall; lia|].
        destruct (Z.eq_dec q (i + 64 + Z.of_nat n)) as [->|]; [|apply IHn; lia].
        destruct (F (i + 64 + Z.of_nat n)) eqn:EF; [|done]. exfalso.
        assert (Hq' : i + 64 + Z.of_nat n < ft).
        { apply Htail; [lia | apply IHn; lia | done]. }
        destruct E; zbool; lia. }
      destruct (Z.lt_ge_cases p (i + 64)); [apply Hall; lia|].
      apply (Hind (Z.to_nat (512 - (i + 64)))); lia.
    + apply orb_false_elim in E as [E1 E2]. zbool.
      assert (Hi' : (i + 64) mod 64 = 0) by (rewrite Z.add_mod, Hi by lia; done).
      assert (i + 64 < 512) by (split_bit i; lia).
      destruct (scan_next false (i + 64) Hi') as (tmp & Hg & Hsc); [lia|].
      unfold ZEND_MM_BITSET_LEN in Hg. rewrite Hg. rsimp.
      apply IH; [by replace (Z.max z (i + 64)) with (i + 64) by lia | lia | done | lia].
  - exists (Some (i, tmp)). split; [done|]. cbv zeta.
    pose proof (ntz_first_bit tmp Hw Hne) as Hfb.
    pose proof (first_bit_range true tmp _ Hw (word_nonzero tmp Hw Hne) Hfb) as Hk.
    assert (Hfb' := Hfb). destruct Hfb' as (_ & Hq & Hlow).
    assert (Hbq : (i + zend_ulong_ntz tmp <? Z.max z i) = false /\ F (i + zend_ulong_ntz tmp) = true).
    { rewrite Hb in Hq by done. by destruct (_ <? _). }
    destruct Hbq as [Hge HF]. zbool.
    assert (z <> i + zend_ulong_ntz tmp) by (intros Heq; rewrite <- Heq, HFz in HF; done).
    split_bit i. split; [lia|]. split; [done|]. split.
    + intros p Hp. destruct (Z.lt_ge_cases p i); [by apply Hbef; lia|].
      specialize (Hlow (p - i) ltac:(lia)). rewrite Hb in Hlow by lia.
      replace (i + (p - i)) with p in Hlow by lia. destruct (Z.ltb_spec p (Z.max z i)); [lia | done].
    + split; [done|]. split; [done|]. split; [lia|]. split.
      { apply lor_word; [done|]. unfold word64 in *. lia. }
      intros j Hj. rewrite (set_trailing tmp (zend_ulong_ntz tmp)) by (done || lia).
      rewrite Hb by done. zcases; try done; lia.
Qed.

(** What is known at page [s] about the runs before it. *)
Definition best_so_far (count s best best_len : Z) : Prop :=
  (best = -1 /\ best_len = 512 /\ forall a b, free_run F a b -> a < s -> b - a < count) \/
  (0 < best /\ free_run F best (best + best_len) /\ best + best_len <= s /\ count < best_len /\
   forall a b, free_run F a b -> a < s -> count <= b - a -> best_len <= b - a).

(** The result: the chosen page starts a best-fitting free run, and what
    becomes of [free_tail]. *)
Definition best_found (count p ft' : Z) : Prop :=
  exists e, free_run F p e /\ count <= e - p /\
    (forall a b, free_run F a b -> count <= b - a -> e - p <= b - a) /\
    ((ft' = ft /\ e < 512) \/
     (ft' = p + count /\ e = 512) \/
     (free_from F ft' /\ e < ft' < 512)).

Definition none_found (count ft' : Z) : Prop :=
  (forall a b, free_run F a b -> b - a < count) /\
  (ft' = ft \/ (1 <= ft' < 512 /\ free_from F ft')).

Definition search_result (count : Z) (r : found) (ft' : Z) : Prop :=
  match r with Found p => best_found count p ft' | NotFound => none_found count ft' end.

(** Between [s] and [q] there is one free run at most. *)
Lemma run_between s z q a b :
  F s = true -> s <= z <= q -> (forall p, s <= p < z -> F p = true) -> (forall p, z <= p < q -> F p = false) ->
  (q = 512 \/ F q = true) -> z < q -> q <= 512 ->
  free_run F a b -> s <= a < q -> a = z /\ b = q.
Proof.
  intros HFs Hz Halloc Hfree Hq Hzq Hq5 (Hab & Hb5 & Hprev & Hin & Hend) Ha.
  assert (a = z).
  { destruct (Z.lt_trichotomy a z) as [Hlt|[->|Hgt]]; [|done|].
    - specialize (Hin a ltac:(lia)).
      rewrite Halloc in Hin by lia. done.
    - rewrite Hfree in Hprev by lia. done. }
  subst a. split; [done|].
  destruct (Z.lt_trichotomy b q) as [Hlt|[->|Hgt]]; [|done|].
  - destruct Hend as [->|Hend]; [lia|]. rewrite Hfree in Hend by lia. done.
  - destruct Hq as [->|Hq]; [lia|]. rewrite Hin in Hq by lia. done.
Qed.

Lemma search_end_best s best best_len count ft' :
  F 0 = true -> 0 < count < 512 -> best_so_far count s best best_len ->
  (forall a b, free_run F a b -> s <= a -> count <= b - a -> best_len <= b - a) ->
  (best = -1 -> forall a b, free_run F a b -> s <= a -> b - a < count) ->
  (ft' = ft \/ (s <= ft' < 512 /\ 1 <= ft' /\ free_from F ft')) -> s < 512 ->
  search_result count (found_best best) ft'.
Proof.
  intros HF0 Hc [(-> & -> & Hno)|(Hb & Hrun & Hbs & Hcl & Hmin)] Hrest Hrest1 Hft' Hs;
    unfold found_best.
  - zcases; [lia|]. split.
    + intros a b Hab. destruct (Z.lt_ge_cases a s); [by apply Hno | by apply Hrest1].
    + destruct Hft' as [->|(? & ? & ?)]; [by left | right; split; [lia | done]].
  - zcases; [|lia]. exists (best + best_len). split; [done|]. split; [lia|]. split.
    + intros a b Hab Hca. destruct (Z.lt_ge_cases a s) as [Has|Has].
      * specialize (Hmin a b Hab Has Hca). lia.
      * specialize (Hrest a b Hab Has Hca). lia.
    + destruct Hft' as [->|(Hft1 & _ & Hff)]; [left; lia|].
      right. right. split; [done|].
      destruct (Z.eq_dec ft' (best + best_len)) as [->|]; [|lia]. exfalso.
      destruct Hrun as (? & ? & ? & ? & [?|Hend]); [lia|]. rewrite Hff in Hend by lia. done.
Qed.

Lemma best_fit_spec c count : free_map c = fm -> free_tail c = ft -> F 0 = true -> 0 < count < 512 ->
  forall fuel best best_len i tmp s,
  scan true i tmp s -> s < 512 -> F s = true -> best_so_far count s best best_len ->
  512 - s < Z.of_nat fuel ->
  exists r ft', best_fit c count best best_len i tmp fuel = Ok (r, set_free_tail c ft') /\
    search_result count r ft'.
Proof using Hlen Hwords Htail Hft.
  intros Hfm Hftc HF0 Hc.
  assert (Hsame : c = set_free_tail c ft) by (destruct c; simpl in *; by subst).
  induction fuel as [|fuel IH]; intros best best_len i tmp s Hsc Hs HFs Hbest Hf; [lia|].
  cbn [best_fit]. rewrite Hfm, Hftc. cbv zeta.
  assert (Hs0 : 0 <= s) by (destruct Hsc as (_ & ? & ? & _); lia).
  destruct (skip_allocated_spec 9 i tmp s Hsc) as (r & -> & Hr); [destruct Hsc as (_ & ? & _); lia|].
  rsimp. destruct r as [[i1 tmp1]|].
  2:{ exists (found_best best), ft. rewrite <- Hsame. split; [done|].
      apply (search_end_best s best best_len); try done; [| | by left].
      - intros a b (? & ? & ? & Hin & ?) Has. specialize (Hin a ltac:(lia)).
        rewrite Hr in Hin by lia. done.
      - intros _ a b (? & ? & ? & Hin & ?) Has. specialize (Hin a ltac:(lia)).
        rewrite Hr in Hin by lia. done. }
  cbv zeta in Hr. destruct Hr as (Hz & Hz64 & HFz & Halloc & Hsc1).
  set (z := i1 + zend_mm_bitset_nts tmp1) in *.
  assert (s <> z) by congruence.
  destruct (skip_free_spec 9 i1 (Z.land tmp1 (u64 (tmp1 + 1))) z Hsc1) as (r & -> & Hr);
    [done | done | destruct Hsc1 as (_ & ? & _); lia |].
  assert (HFp : F (z - 1) = true) by (apply Halloc; lia).
  rsimp. destruct r as [[i2 tmp2]|].
  - cbv zeta in Hr. destruct Hr as (Hq & HFq & Hfree & Hsc2).
    set (q := i2 + zend_ulong_ntz tmp2) in *.
    assert (Hrun : free_run F z q) by (split; [lia|]; split; [lia|]; split; [done|]; auto).
    assert (Hbetween : forall a b, free_run F a b -> s <= a < q -> a = z /\ b = q).
    { intros a b Hab Ha. apply (run_between s z q a b); auto; lia. }
    destruct ((count <=? q - z) && (q - z =? count)) eqn:Eex.
    { apply andb_prop in Eex as [_ Eex]. zbool. exists (Found z), ft. rewrite <- Hsame.
      split; [done|]. exists q. split; [done|]. split; [lia|]. split; [intros; lia | by left; lia]. }
    set (bb := if (count <=? q - z) && (q - z <? best_len) then (z, q - z) else (best, best_len)).
    assert (Hbb : best_so_far count q (fst bb) (snd bb)).
    { subst bb. destruct ((count <=? q - z) && (q - z <? best_len)) eqn:Eb; cbn [fst snd].
      - apply andb_prop in Eb as [Eb1 Eb2]. zbool. right.
        replace (z + (q - z)) with q by lia. split; [lia|]. split; [done|]. split; [lia|].
        split. { apply andb_false_iff in Eex. destruct Eex; zbool; lia. }
        intros a b Hab Ha Hca. destruct (Z.lt_ge_cases a s) as [Has|Has].
        + destruct Hbest as [(-> & -> & Hno)|(_ & _ & _ & _ & Hmin)].
          * specialize (Hno a b Hab Has). lia.
          * specialize (Hmin a b Hab Has Hca). lia.
        + destruct (Hbetween a b Hab) as [-> ->]; lia.
      - apply andb_false_iff in Eb.
        destruct Hbest as [(-> & -> & Hno)|(Hb0 & Hbr & Hbs & Hcl & Hmin)]; [left | right].
        + split; [done|]. split; [done|]. intros a b Hab Ha.
          destruct (Z.lt_ge_cases a s) as [Has|Has]; [by apply Hno|].
          destruct (Hbetween a b Hab) as [-> ->]; [lia|]. destruct Eb; zbool; lia.
        + split; [done|]. split; [done|]. split; [lia|]. split; [done|]. intros a b Hab Ha Hca.
          destruct (Z.lt_ge_cases a s) as [Has|Has]; [by apply Hmin|].
          destruct (Hbetween a b Hab) as [-> ->]; [lia|]. destruct Eb; zbool; lia. }
    destruct bb as [best' best_len']. apply (IH _ _ _ _ q); [done | lia | done | done | lia].
  - change ZEND_MM_PAGES with 512.
    assert (Hrun : free_run F z 512).
    { split; [lia|]. split; [lia|]. split; [done|]. split; [|by left].
      intros p Hp. apply Hr. lia. }
    assert (Hbetween : forall a b, free_run F a b -> s <= a -> a = z /\ b = 512).
    { intros a b Hab Ha. apply (run_between s z 512 a b); auto; try lia.
      destruct Hab; lia. }
    destruct ((count <=? 512 - z) && (512 - z <? best_len)) eqn:Et.
    + apply andb_prop in Et as [Et1 Et2]. zbool. exists (Found z), (z + count). split; [done|].
      exists 512. split; [done|]. split; [lia|]. split; [|by right; left].
      intros a b Hab Hca. destruct (Z.lt_ge_cases a s) as [Has|Has].
      * destruct Hbest as [(-> & -> & Hno)|(_ & _ & _ & _ & Hmin)].
        -- specialize (Hno a b Hab Has). lia.
        -- specialize (Hmin a b Hab Has Hca). lia.
      * destruct (Hbetween a b Hab) as [-> ->]; lia.
    + apply andb_false_iff in Et. exists (found_best best), z. split; [done|].
      apply (search_end_best s best best_len); try done.
      * intros a b Hab Ha Hca. destruct (Hbetween a b Hab) as [-> ->]; [lia|].
        destruct Et; zbool; lia.
      * intros -> a b Hab Ha. destruct (Hbetween a b Hab) as [-> ->]; [lia|].
        destruct Hbest as [(_ & -> & _)|(? & _)]; [|lia]. destruct Et; zbool; lia.
      * right. split; [lia|]. split; [lia | done].
Qed.
End Search.

(** ** The search in a chunk *)
Record searchable (c : zend_mm_chunk) : Prop := {
  se_words : words_ok (free_map c);
  se_len : length (free_map c) = 8%nat;
  se_first : bit_of (free_map c) 0 = true;
  se_tail : 1 <= free_tail c <= 512;
  se_tail_free : tail_free (bit_of (free_map c)) (free_tail c);
  se_free : free_pages c = count_free (free_map c)
}.

Lemma search_chunk_spec c count :
  searchable c -> 0 < count < 512 ->
  exists r ft', search_chunk c count = Ok (r, set_free_tail c ft') /\
    search_result (free_map c) (free_tail c) count r ft'.
Proof.
  intros [Hw Hl Hf Ht Htf Hn] Hc. unfold search_chunk.
  assert (Hsame : c = set_free_tail c (free_tail c)) by (by destruct c).
  zcases.
  - exists NotFound, (free_tail c). rewrite <- Hsame. split; [done|]. split; [|by left].
    intros a b (Hab & Hb & _ & Hin & _).
    pose proof (count_free_ge (free_map c) a (b - a)) as Hcnt.
    enough (b - a <= count_free (free_map c)) by lia.
    apply Hcnt; [lia..|]. intros i Hi. apply Hin. lia.
  - destruct (scan_next (free_map c) Hw Hl true 0) as (tmp & Hg & Hsc); [done | lia |].
    change (0 / ZEND_MM_BITSET_LEN) with 0 in Hg. rewrite Hg. rsimp.
    destruct (best_fit_spec (free_map c) Hw Hl (free_tail c) Ht Htf c count eq_refl eq_refl Hf Hc
      513 (-1) ZEND_MM_PAGES 0 tmp 0) as (r & ft' & Hb & Hr); [done | lia | done | | lia |].
    + left. split; [done|]. split; [done|]. intros a b (? & _) ?. lia.
    + exists r, ft'. done.
Qed.

Lemma chunk_searchable cnt c rs : chunk_ok_with cnt c rs -> searchable c.
Proof.
  intros [Hw Hl Hm Hb Hwf Hi Hd Hs Ht Hf]. split; try done.
  - apply Hb; [lia | by left].
  - intros q Hq Hprev Hcur. apply Hb in Hcur; [|lia]. destruct Hcur as [->|(s & r & Hr & Hsr)]; [lia|].
    destruct (Z.eq_dec s q) as [->|Hne]; [by eapply Hs|]. exfalso.
    assert (Hp : bit_of (free_map c) (q - 1) = true); [|by rewrite Hp in Hprev].
    apply Hb; [lia|]. right. exists s, r. split; [done | lia].
Qed.

(** A run of [count] pages that the search has found. *)
Record fits (c : zend_mm_chunk) (p count : Z) : Prop := {
  fit_range : 1 <= p /\ p + count <= 512;
  fit_free i : p <= i < p + count -> bit_of (free_map c) i = false;
  fit_tail : p <= free_tail c
}.

Lemma search_chunk_ok cnt c rs count :
  chunk_ok_with cnt c rs -> 0 < count < 512 ->
  exists r ft', search_chunk c count = Ok (r, set_free_tail c ft') /\
    chunk_ok_with cnt (set_free_tail c ft') rs /\
    match r with
    | Found p => fits (set_free_tail c ft') p count
    | NotFound => forall a b, free_run (bit_of (free_map c)) a b -> b - a < count
    end.
Proof.
  intros Hok Hc. pose proof (chunk_searchable _ _ _ Hok) as Hse.
  destruct (search_chunk_spec c count Hse Hc) as (r & ft' & Hs & Hr).
  exists r, ft'. split; [done|].
  assert (Hkeep : 1 <= ft' <= 512 -> (forall s q, rs !! s = Some q -> s < ft') ->
    chunk_ok_with cnt (set_free_tail c ft') rs).
  { intros Hft Hst. destruct Hok as [Hw Hl Hm Hb Hwf Hi Hd _ Ht Hf]. by split. }
  assert (Hbit : forall s q, rs !! s = Some q -> bit_of (free_map c) s = true /\ 1 <= s < 512).
  { intros s q Hq. destruct (co_wf _ _ _ Hok s q Hq) as (Hwf & Hs1 & Hs2).
    pose proof (run_pages_pos q Hwf). split; [|lia]. apply (co_bits _ _ _ Hok); [lia|].
    right. exists s, q. split; [done | lia]. }
  pose proof (co_tail _ _ _ Hok) as Htl.
  assert (Hff : free_from (bit_of (free_map c)) ft' -> forall s q, rs !! s = Some q -> s < ft').
  { intros Hff s q Hq. destruct (Hbit s q Hq) as [Hb Hs12]. apply Z.nle_gt. intros Hle.
    by rewrite Hff in Hb by lia. }
  destruct r as [p|]; cbn [search_result] in Hr.
  - destruct Hr as (e & Hrun & Hce & _ & Hft). pose proof Hrun as (Hpe & He5 & Hprev & Hin & Hend).
    assert (Hpt : p < ft').
    { destruct Hft as [[-> He]|[[-> ->]|[_ ?]]]; [|lia..].
      enough (e < free_tail c) by lia. destruct Hend as [->|Hend]; [lia|].
      apply (se_tail_free _ Hse); [lia | apply Hin; lia | done]. }
    split.
    + apply Hkeep; [destruct Hft as [[-> ?]|[[-> ->]|[? ?]]]; lia|].
      destruct Hft as [[-> He]|[[-> ->]|[Hff' ?]]]; [apply (co_start _ _ _ Hok) | | by apply Hff].
      intros s q Hq. destruct (Hbit s q Hq) as [Hb Hs12]. apply Z.nle_gt. intros Hle.
      by rewrite Hin in Hb by lia.
    + split; [lia | | cbn; lia]. intros i Hi. apply Hin. lia.
  - destruct Hr as [Hno Hft]. split; [|done]. destruct Hft as [->|[? Hff']].
    + apply Hkeep; [done | apply (co_start _ _ _ Hok)].
    + apply Hkeep; [lia | by apply Hff].
Qed.
