(* ===== verification/MmRuns.v ===== *)
(** * Marking and releasing runs of pages ([Zend/zend_alloc.c])

    The parts of [zend_mm_alloc_pages], [zend_mm_alloc_small_slow],
    [zend_mm_free_pages_ex] and [zend_mm_realloc_heap] that change the header
    of a chunk, and that each keeps the chunk invariant for the runs it
    leaves. *)
From S2P Require Export MmSearch.

(** ** Operations *)

(** [zend_mm_alloc_pages]: mark run as allocated *)
Definition mark_run (chunk : zend_mm_chunk) (page_num pages_count : Z) : res zend_mm_chunk :=
  let chunk := set_free_pages chunk (u32 (free_pages chunk - pages_count)) in
  let! fm := zend_mm_bitset_set_range (free_map chunk) page_num pages_count in
  let chunk := set_free_map chunk fm in
  let! pm := aset (page_map chunk) page_num (ZEND_MM_LRUN pages_count) in
  let chunk := set_page_map chunk pm in
  Ok (if page_num =? free_tail chunk then set_free_tail chunk (page_num + pages_count) else chunk).

(** [zend_mm_alloc_small_slow]: the infos of the pages of a bin *)
Fixpoint set_nruns (pm : list Z) (page_num bin_num i : Z) (fuel : nat) : res (list Z) :=
  match fuel with
  | O => Err OutOfFuel
  | S fuel =>
      let! pm := aset pm (page_num + i) (ZEND_MM_NRUN bin_num i) in
      let i := i + 1 in
      if i <? bin_pages bin_num then set_nruns pm page_num bin_num i fuel else Ok pm
  end.

Definition mark_bin (chunk : zend_mm_chunk) (page_num bin_num : Z) : res zend_mm_chunk :=
  let! pm := aset (page_map chunk) page_num (ZEND_MM_SRUN bin_num) in
  let! pm := if 1 <? bin_pages bin_num then set_nruns pm page_num bin_num 1 8 else Ok pm in
  Ok (set_page_map chunk pm).

(** [zend_mm_free_pages_ex]: the chunk *)
Definition release_run (chunk : zend_mm_chunk) (page_num pages_count : Z) : res zend_mm_chunk :=
  let chunk := set_free_pages chunk (u32 (free_pages chunk + pages_count)) in
  let! fm := zend_mm_bitset_reset_range (free_map chunk) page_num pages_count in
  let chunk := set_free_map chunk fm in
  let! pm := aset (page_map chunk) page_num 0 in
  let chunk := set_page_map chunk pm in
  Ok (if free_tail chunk =? page_num + pages_count then set_free_tail chunk page_num else chunk).

(** [zend_mm_realloc_heap]: free tail pages *)
Definition shrink_run (chunk : zend_mm_chunk) (page_num new_pages_count rest_pages_count : Z) : res zend_mm_chunk :=
  let! pm := aset (page_map chunk) page_num (ZEND_MM_LRUN new_pages_count) in
  let chunk := set_page_map chunk pm in
  let chunk := set_free_pages chunk (u32 (free_pages chunk + rest_pages_count)) in
  let! fm := zend_mm_bitset_reset_range (free_map chunk) (page_num + new_pages_count) rest_pages_count in
  Ok (set_free_map chunk fm).

(** [zend_mm_realloc_heap]: allocate tail pages after this block *)
Definition grow_run (chunk : zend_mm_chunk) (page_num old_pages_count new_pages_count : Z) : res zend_mm_chunk :=
  let chunk := set_free_pages chunk (u32 (free_pages chunk - (new_pages_count - old_pages_count))) in
  let! fm := zend_mm_bitset_set_range (free_map chunk) (page_num + old_pages_count)
               (new_pages_count - old_pages_count) in
  let chunk := set_free_map chunk fm in
  let! pm := aset (page_map chunk) page_num (ZEND_MM_LRUN new_pages_count) in
  Ok (set_page_map chunk pm).

(** What these operations leave alone. *)
Definition same_links (c c' : zend_mm_chunk) : Prop :=
  c_heap c' = c_heap c /\ c_next c' = c_next c /\ c_prev c' = c_prev c /\ num c' = num c.

(** ** Runs *)
Lemma in_run_insert rs p r i :
  rs !! p = None -> in_run (<[p := r]> rs) i <-> p <= i < p + run_pages r \/ in_run rs i.
Proof.
  intros Hn. split.
  - intros (s & q & Hq & Hi). apply lookup_insert_Some in Hq as [[-> ->]|[Hne Hq]]; [by left|].
    right. by exists s, q.
  - intros [Hi|(s & q & Hq & Hi)]; [exists p, r; split; [apply lookup_insert_eq | done]|].
    exists s, q. split; [|done]. apply lookup_insert_Some. right. split; [|done]. intros ->.
    by rewrite Hn in Hq.
Qed.

Section Runs.
Context (cnt : Z -> Z) (c : zend_mm_chunk) (rs : gmap Z run) (Hok : chunk_ok_with cnt c rs).

Lemma run_bit s r i :
  rs !! s = Some r -> s <= i < s + run_pages r -> bit_of (free_map c) i = true.
Proof using Hok.
  intros Hr Hi. destruct (co_wf _ _ _ Hok s r Hr) as (_ & ? & ?).
  apply (co_bits _ _ _ Hok); [lia|]. right. by exists s, r.
Qed.

Lemma runs_disjoint s r t q i :
  rs !! s = Some r -> rs !! t = Some q ->
  s <= i < s + run_pages r -> t <= i < t + run_pages q -> s = t.
Proof using Hok.
  intros Hr Hq Hs Ht. destruct (Z.lt_trichotomy s t) as [Hlt|[?|Hlt]]; [|done|].
  - pose proof (co_disj _ _ _ Hok s r t q Hr Hq Hlt). lia.
  - pose proof (co_disj _ _ _ Hok t q s r Hq Hr Hlt). lia.
Qed.

(** Changing the info of a page outside a run leaves its infos alone. *)
Lemma run_infos_insert pm k s r p v :
  (p < s \/ s + run_pages r <= p) -> 1 <= run_pages r -> 0 <= s -> 0 <= p ->
  run_infos pm k s r -> run_infos (<[Z.to_nat p := v]> pm) k s r.
Proof using.
  intros Hp Hr Hs Hp0.
  assert (Hget : forall i x, 0 <= i -> i <> p -> aget pm i = Ok x -> aget (<[Z.to_nat p := v]> pm) i = Ok x).
  { intros i x Hi Hne Hg. apply aget_inv in Hg as (n & -> & Hn). apply aget_ok.
    by rewrite list_lookup_insert_ne by lia. }
  destruct r as [n|b]; cbn [run_infos run_pages] in *.
  - intros H. apply Hget; [lia | lia | done].
  - intros [H1 H2]. split; [apply Hget; [lia | lia | done]|].
    intros i Hi. apply Hget; [lia | lia | by apply H2].
Qed.

Lemma aget_insert_eq {A} (l : list A) p v :
  0 <= p < Z.of_nat (length l) -> aget (<[Z.to_nat p := v]> l) p = Ok v.
Proof using.
  intros Hp. apply aget_okZ; [lia|]. apply list_lookup_insert_eq. lia.
Qed.

Lemma free_page_no_run p : bit_of (free_map c) p = false -> rs !! p = None.
Proof using Hok.
  intros Hb. destruct (rs !! p) as [q|] eqn:E; [|done]. exfalso.
  destruct (co_wf _ _ _ Hok p q E) as (Hwf & _ & _). pose proof (run_pages_pos q Hwf).
  by rewrite (run_bit p q p E) in Hb by lia.
Qed.

Lemma mark_run_ok p count :
  1 <= count -> fits c p count ->
  exists c', mark_run c p count = Ok c' /\ chunk_ok_with cnt c' (<[p := LargeRun count]> rs) /\
    free_pages c' = free_pages c - count /\ same_links c c' /\ rs !! p = None.
Proof using Hok.
  intros Hc [Hp Hfree Htl].
  pose proof Hok as [Hw Hl Hm Hb Hwf Hi Hd Hs Ht Hf].
  assert (Hnb : nbits (free_map c) = 512) by (unfold nbits; rewrite Hl; done).
  destruct (set_range_spec (free_map c) Hw p count) as (fm' & Hset & [Hl' Hw'] & Hbits); [lia..|].
  assert (Hnone : rs !! p = None) by (apply free_page_no_run, Hfree; lia).
  pose proof (count_free_ge (free_map c) p count ltac:(lia) ltac:(lia) ltac:(lia) Hfree) as Hge.
  pose proof (count_clear_bound (bit_of (free_map c)) 512 0) as Hcb. fold (count_free (free_map c)) in Hcb.
  unfold mark_run. cbn [free_map page_map free_tail set_free_pages set_free_map set_page_map].
  rewrite Hset. rsimp. rewrite aset_okZ by lia. rsimp. eexists. split; [done|].
  rewrite u32_small by lia.
  assert (Hcf : count_free fm' = count_free (free_map c) - count).
  { rewrite (count_free_range (free_map c) fm' p count false) by
      (try lia; intros; rewrite Hbits by lia; unfold in_range; zcases; simpl; try (split; [by apply Hfree | done]); try done; lia).
    lia. }
  assert (Hdis : forall s q, rs !! s = Some q -> p < s \/ s + run_pages q <= p).
  { intros s q Hq. destruct (Z.lt_ge_cases p s); [by left|]. right. apply Z.nlt_ge. intros Hlt.
    assert (Hpb : bit_of (free_map c) p = true) by (apply (run_bit s q); [done | lia]).
    by rewrite Hfree in Hpb by lia. }
  assert (Hdis' : forall s q, rs !! s = Some q -> p < s -> p + count <= s).
  { intros s q Hq Hlt. apply Z.nlt_ge. intros Hgt. destruct (Hwf s q Hq) as (Hqw & _ & _).
    pose proof (run_pages_pos q Hqw).
    assert (Hsb : bit_of (free_map c) s = true) by (apply (run_bit s q); [done | lia]).
    by rewrite Hfree in Hsb by lia. }
  set (c1 := set_page_map _ _).
  assert (Hc1 : chunk_ok_with cnt (set_free_tail c1 (if p =? free_tail c then p + count else free_tail c))
    (<[p := LargeRun count]> rs)).
  { split; cbn; try done.
    - congruence.
    - by rewrite length_insert.
    - intros i Hir. rewrite Hbits, in_run_insert by (done || lia). cbn [run_pages].
      rewrite orb_true_iff, (Hb i) by done. unfold in_range. rewrite andb_true_iff, Z.leb_le, Z.ltb_lt. tauto.
    - intros s r Hr. apply lookup_insert_Some in Hr as [[<- <-]|[Hne Hr]]; [|by apply Hwf].
      cbn. change ZEND_MM_PAGES with 512. lia.
    - intros s r Hr. apply lookup_insert_Some in Hr as [[<- <-]|[Hne Hr]].
      + apply aget_insert_eq. lia.
      + destruct (Hwf s r Hr) as (Hrw & ? & ?). pose proof (run_pages_pos r Hrw).
        apply run_infos_insert; [by apply Hdis | lia..| by apply Hi].
    - intros s r t q Hr Hq Hlt.
      apply lookup_insert_Some in Hr as [[<- <-]|[Hne Hr]];
        apply lookup_insert_Some in Hq as [[<- <-]|[Hne' Hq]].
      + lia.
      + cbn. by apply (Hdis' t q).
      + destruct (Hdis s r Hr); lia.
      + by apply (Hd s r t q).
    - intros s r Hr. apply lookup_insert_Some in Hr as [[<- <-]|[Hne Hr]].
      + zcases; lia.
      + pose proof (Hs s r Hr). zcases; lia.
    - zcases; lia.
    - lia. }
  destruct (Z.eqb_spec p (free_tail c)) as [Heq|Hne]; (split; [exact Hc1|]); cbn; done.
Qed.

(** Changing the infos of one run and none of the others. *)
Lemma retag_run p r r' pm' :
  rs !! p = Some r -> run_wf r' -> run_pages r' = run_pages r ->
  length pm' = 512%nat -> run_infos pm' (cnt p) p r' ->
  (forall i x, 0 <= i -> ~ (p <= i < p + run_pages r) -> aget (page_map c) i = Ok x -> aget pm' i = Ok x) ->
  chunk_ok_with cnt (set_page_map c pm') (<[p := r']> rs).
Proof using Hok.
  intros Hr Hwf' Hpg Hlen Hinf Hkeep.
  pose proof Hok as [Hw Hl Hm Hb Hwf Hi Hd Hs Ht Hf].
  destruct (Hwf p r Hr) as (Hrw & Hp1 & Hp2). pose proof (run_pages_pos r Hrw) as Hrp.
  split; cbn; try done.
  - intros i Hir. rewrite (Hb i) by done. apply or_iff_compat_l. unfold in_run. split.
    + intros (s & q & Hq & Hiq). destruct (Z.eq_dec s p) as [->|Hne].
      * exists p, r'. split; [apply lookup_insert_eq|]. rewrite Hr in Hq. injection Hq as <-. lia.
      * exists s, q. by rewrite lookup_insert_ne.
    + intros (s & q & Hq & Hiq). apply lookup_insert_Some in Hq as [[<- <-]|[Hne Hq]].
      * exists p, r. split; [done | lia].
      * by exists s, q.
  - intros s q Hq. apply lookup_insert_Some in Hq as [[<- <-]|[Hne Hq]]; [|by apply Hwf].
    split; [done | lia].
  - intros s q Hq. apply lookup_insert_Some in Hq as [[<- <-]|[Hne Hq]]; [done|].
    destruct (Hwf s q Hq) as (Hqw & Hs1 & _). pose proof (run_pages_pos q Hqw) as Hqp.
    assert (Hout : forall i, s <= i < s + run_pages q -> ~ (p <= i < p + run_pages r)).
    { intros i Hi' Hi''. by apply Hne, (runs_disjoint p r s q i). }
    specialize (Hi s q Hq). destruct q as [n|b]; cbn [run_infos run_pages] in *.
    + apply Hkeep; [lia | apply Hout; lia | done].
    + destruct Hi as [Hi1 Hi2]. split; [apply Hkeep; [lia | apply Hout; lia | done]|].
      intros i Hir. apply Hkeep; [lia | apply Hout; lia | by apply Hi2].
  - intros s q t q' Hq Hq' Hlt.
    assert (Hold : forall u v, <[p := r']> rs !! u = Some v -> exists w, rs !! u = Some w /\ run_pages w = run_pages v).
    { intros u v Hu. apply lookup_insert_Some in Hu as [[<- <-]|[Hne Hu]]; [by exists r | by exists v]. }
    destruct (Hold s q Hq) as (w & Hw1 & <-). destruct (Hold t q' Hq') as (w' & Hw2 & _).
    by apply (Hd s w t w').
  - intros s q Hq. apply lookup_insert_Some in Hq as [[<- <-]|[Hne Hq]]; by eapply Hs.
Qed.

Lemma set_nruns_spec p b fuel : forall pm i,
  1 <= p -> 1 <= i < bin_pages b -> p + bin_pages b <= Z.of_nat (length pm) -> bin_pages b - i <= Z.of_nat fuel ->
  exists pm', set_nruns pm p b i fuel = Ok pm' /\ length pm' = length pm /\
    (forall j, i <= j < bin_pages b -> aget pm' (p + j) = Ok (ZEND_MM_NRUN b j)) /\
    (forall j x, 0 <= j -> ~ (p + i <= j < p + bin_pages b) -> aget pm j = Ok x -> aget pm' j = Ok x).
Proof using.
  induction fuel as [|fuel IH]; intros pm i Hp Hi Hl Hf; [lia|].
  cbn [set_nruns]. rewrite aset_okZ by lia. rsimp.
  set (pm1 := <[Z.to_nat (p + i) := ZEND_MM_NRUN b i]> pm).
  assert (Hl1 : length pm1 = length pm) by apply length_insert.
  assert (Hget : forall j x, 0 <= j -> j <> p + i -> aget pm j = Ok x -> aget pm1 j = Ok x).
  { intros j x Hj Hne Hg. apply aget_inv in Hg as (n & -> & Hn). apply aget_ok.
    unfold pm1. by rewrite list_lookup_insert_ne by lia. }
  assert (Heq : aget pm1 (p + i) = Ok (ZEND_MM_NRUN b i)) by (apply aget_insert_eq; lia).
  zcases.
  - destruct (IH pm1 (i + 1)) as (pm' & Hpm & Hl2 & Hin & Hout); [lia..|].
    exists pm'. split; [done|]. split; [congruence|]. split.
    + intros j Hj. destruct (Z.eq_dec j i) as [->|]; [apply Hout; [lia..|done] | apply Hin; lia].
    + intros j x Hj Hne Hg. apply Hout; [lia | lia |]. apply Hget; [lia | lia | done].
  - exists pm1. split; [done|]. split; [done|]. split.
    + intros j Hj. by replace j with i by lia.
    + intros j x Hj Hne Hg. apply Hget; [lia | lia | done].
Qed.

Lemma mark_bin_ok p b :
  rs !! p = Some (LargeRun (bin_pages b)) -> 0 <= b < ZEND_MM_BINS -> cnt p = 0 ->
  exists c', mark_bin c p b = Ok c' /\ chunk_ok_with cnt c' (<[p := SmallRun b]> rs) /\
    free_pages c' = free_pages c /\ same_links c c'.
Proof using Hok.
  intros Hr Hb Hcnt. unfold mark_bin.
  destruct (co_wf _ _ _ Hok p _ Hr) as (_ & Hp1 & Hp2). cbn [run_pages] in Hp2.
  pose proof (bin_facts b Hb) as (_ & _ & _ & Hbp & _). pose proof (co_map_len _ _ _ Hok) as Hm.
  rewrite aset_okZ by lia. rsimp.
  set (pm1 := <[Z.to_nat p := ZEND_MM_SRUN b]> (page_map c)).
  assert (Hl1 : length pm1 = 512%nat) by (unfold pm1; rewrite length_insert; done).
  assert (Hp : aget pm1 p = Ok (ZEND_MM_SRUN_EX b (cnt p)))
    by (rewrite Hcnt, <- srun_ex_0; apply aget_insert_eq; lia).
  assert (Hget : forall j x, 0 <= j -> j <> p -> aget (page_map c) j = Ok x -> aget pm1 j = Ok x).
  { intros j x Hj Hne Hg. apply aget_inv in Hg as (n & -> & Hn). apply aget_ok.
    unfold pm1. by rewrite list_lookup_insert_ne by lia. }
  assert (H : exists pm2, (if 1 <? bin_pages b then set_nruns pm1 p b 1 8 else Ok pm1) = Ok pm2 /\
    length pm2 = 512%nat /\ run_infos pm2 (cnt p) p (SmallRun b) /\
    forall i x, 0 <= i -> ~ (p <= i < p + bin_pages b) -> aget (page_map c) i = Ok x -> aget pm2 i = Ok x).
  { zcases.
    - destruct (set_nruns_spec p b 8 pm1 1) as (pm2 & Hpm & Hl2 & Hin & Hout); [lia..|].
      exists pm2. split; [done|]. split; [congruence|]. split.
      + split; [apply Hout; [lia..|done] | done].
      + intros i x Hi Hne Hg. apply Hout; [lia | lia |]. apply Hget; [lia | lia | done].
    - exists pm1. split; [done|]. split; [done|]. split.
      + split; [done|]. intros i Hi. lia.
      + intros i x Hi Hne Hg. apply Hget; [lia | lia | done]. }
  destruct H as (pm2 & -> & Hl2 & Hinf & Hout). rsimp. eexists. split; [done|]. split; [|done].
  by apply (retag_run p (LargeRun (bin_pages b))).
Qed.

Lemma release_run_ok p r :
  rs !! p = Some r ->
  exists c', release_run c p (run_pages r) = Ok c' /\ chunk_ok_with cnt c' (delete p rs) /\
    free_pages c' = free_pages c + run_pages r /\ same_links c c' /\
    (forall i, 0 <= i -> bit_of (free_map c') i = negb (in_range p (run_pages r) i) && bit_of (free_map c) i).
Proof using Hok.
  intros Hr. pose proof Hok as [Hw Hl Hm Hb Hwf Hi Hd Hs Ht Hf].
  destruct (Hwf p r Hr) as (Hrw & Hp1 & Hp2). pose proof (run_pages_pos r Hrw) as Hrp.
  set (n := run_pages r) in *.
  assert (Hnb : nbits (free_map c) = 512) by (unfold nbits; rewrite Hl; done).
  destruct (reset_range_spec (free_map c) Hw p n) as (fm' & Hset & [Hl' Hw'] & Hbits); [lia..|].
  assert (Hset1 : forall i, p <= i < p + n -> bit_of (free_map c) i = true)
    by (intros i Hir; by apply (run_bit p r)).
  assert (Hcf : count_free fm' = count_free (free_map c) + n).
  { rewrite (count_free_range (free_map c) fm' p n true) by
      (try lia; intros; rewrite Hbits by lia; unfold in_range; zcases; simpl; try (split; [by apply Hset1 | done]); try done; lia).
    lia. }
  pose proof (count_clear_bound (bit_of fm') 512 0) as Hcb. fold (count_free fm') in Hcb.
  pose proof (count_clear_bound (bit_of (free_map c)) 512 0) as Hcb'. fold (count_free (free_map c)) in Hcb'.
  unfold release_run. cbn [free_map page_map free_tail set_free_pages set_free_map set_page_map].
  rewrite Hset. rsimp. rewrite aset_okZ by lia. rsimp. eexists. split; [done|].
  rewrite u32_small by lia. set (c1 := set_page_map _ _).
  assert (Hdel : forall i, in_run (delete p rs) i <-> in_run rs i /\ ~ (p <= i < p + n)).
  { intros i. split.
    - intros (s & q & Hq & Hiq). apply lookup_delete_Some in Hq as [Hne Hq].
      split; [by exists s, q|]. intros Hpi. by apply Hne, (runs_disjoint p r s q i).
    - intros [(s & q & Hq & Hiq) Hn]. exists s, q. split; [|done].
      apply lookup_delete_Some. split; [|done]. intros <-. rewrite Hr in Hq. injection Hq as <-. done. }
  assert (Hc1 : chunk_ok_with cnt (set_free_tail c1 (if free_tail c =? p + n then p else free_tail c)) (delete p rs)).
  { split; cbn; try done.
    - congruence.
    - by rewrite length_insert.
    - intros i Hir. rewrite Hbits, Hdel, andb_true_iff, negb_true_iff, (Hb i) by lia.
      unfold in_range. rewrite andb_false_iff, Z.leb_gt, Z.ltb_ge.
      split; [intros [Hn [->|Hin]]; [by left | right; split; [done | lia]] |
              intros [->|[Hin Hn]]; [split; [lia | by left] | split; [lia | by right]]].
    - intros s q Hq. apply lookup_delete_Some in Hq as [_ Hq]. by apply Hwf.
    - intros s q Hq. apply lookup_delete_Some in Hq as [Hne Hq].
      destruct (Hwf s q Hq) as (Hqw & ? & ?). pose proof (run_pages_pos q Hqw).
      apply run_infos_insert; [|lia..|by apply Hi].
      destruct (Z.lt_ge_cases p s); [by left|]. right. apply (Hd s q p r); [done..|lia].
    - intros s q t q' Hq Hq'. apply lookup_delete_Some in Hq as [_ Hq].
      apply lookup_delete_Some in Hq' as [_ Hq']. by apply (Hd s q t q').
    - intros s q Hq. apply lookup_delete_Some in Hq as [Hne Hq]. pose proof (Hs s q Hq).
      zcases; [|done]. apply Z.nle_gt. intros Hle.
      pose proof (Hd p r s q Hr Hq ltac:(lia)). lia.
    - zcases; lia.
    - lia. }
  destruct (Z.eqb_spec (free_tail c) (p + n)) as [Heq|Hne]; (split; [exact Hc1|]); cbn; done.
Qed.

(** Changing the counter of a small run. *)
Lemma recount_run cnt' s b pm' :
  rs !! s = Some (SmallRun b) -> aset (page_map c) s (ZEND_MM_SRUN_EX b (cnt' s)) = Ok pm' ->
  (forall t, t <> s -> cnt' t = cnt t) -> chunk_ok_with cnt' (set_page_map c pm') rs.
Proof using Hok.
  intros Hr Hset Hcnt. pose proof Hok as [Hw Hl Hm Hb Hwf Hi Hd Hs Ht Hf].
  destruct (Hwf s _ Hr) as (Hrw & Hs1 & Hs2). pose proof (run_pages_pos _ Hrw) as Hp.
  rewrite aset_okZ in Hset by lia. injection Hset as <-.
  split; cbn; try done.
  - by rewrite length_insert.
  - intros t q Hq. destruct (Z.eq_dec t s) as [->|Hne].
    + rewrite Hr in Hq. injection Hq as <-. split; [apply aget_insert_eq; lia|].
      intros i Hi'. destruct (Hi s _ Hr) as [_ H2]. specialize (H2 i Hi').
      apply aget_inv in H2 as (n & En & Hn). rewrite En. apply aget_ok. by rewrite list_lookup_insert_ne by lia.
    + rewrite (Hcnt t) by done. destruct (Hwf t q Hq) as (Hqw & ? & ?). pose proof (run_pages_pos q Hqw).
      apply run_infos_insert; [|lia..|by apply Hi].
      destruct (Z.lt_ge_cases s t); [by left|]. right. apply (Hd t q s _ Hq Hr). lia.
Qed.

(** Resizing a large run in place: the pages it gains were free. *)
Lemma resize_run p n m fm' fp' :
  rs !! p = Some (LargeRun n) -> 1 <= m < 512 -> p + m <= 512 ->
  (forall i, p + n <= i < p + m -> bit_of (free_map c) i = false) ->
  same_shape (free_map c) fm' -> fp' = count_free fm' ->
  (forall i, 0 <= i -> bit_of fm' i = in_range p m i || (bit_of (free_map c) i && negb (in_range p n i))) ->
  chunk_ok_with cnt (set_page_map (set_free_map (set_free_pages c fp') fm')
    (<[Z.to_nat p := ZEND_MM_LRUN m]> (page_map c))) (<[p := LargeRun m]> rs).
Proof using Hok.
  intros Hr Hm Hpm Hgain [Hl' Hw'] Hfp Hbits.
  pose proof Hok as [Hw Hl Hml Hb Hwf Hi Hd Hs Ht Hf].
  destruct (Hwf p _ Hr) as (Hrw & Hp1 & Hp2). cbn in Hrw, Hp2. change ZEND_MM_PAGES with 512 in Hrw.
  assert (Hnext : forall t q, rs !! t = Some q -> p < t -> p + n <= t /\ p + m <= t).
  { intros t q Hq Hlt. pose proof (Hd p _ t q Hr Hq Hlt) as Hpt. cbn in Hpt. split; [done|].
    apply Z.nlt_ge. intros Hlt'. destruct (Hwf t q Hq) as (Hqw & _). pose proof (run_pages_pos q Hqw).
    assert (Hbt : bit_of (free_map c) t = true) by (apply (run_bit t q); [done | lia]).
    by rewrite Hgain in Hbt by lia. }
  assert (Hother : forall i, (exists s q, rs !! s = Some q /\ s <> p /\ s <= i < s + run_pages q) <->
    in_run rs i /\ ~ (p <= i < p + n)).
  { intros i. split.
    - intros (s & q & Hq & Hne & Hiq). split; [by exists s, q|]. intros Hpi.
      by apply Hne, (runs_disjoint s q p (LargeRun n) i).
    - intros [(s & q & Hq & Hiq) Hn]. exists s, q. split; [done|]. split; [|done]. intros ->.
      rewrite Hr in Hq. injection Hq as <-. done. }
  split; cbn; try done.
  - congruence.
  - by rewrite length_insert.
  - intros i Hir. rewrite Hbits by lia.
    rewrite orb_true_iff, andb_true_iff, negb_true_iff, (Hb i) by lia.
    unfold in_range. rewrite andb_true_iff, andb_false_iff, Z.leb_le, Z.ltb_lt, Z.leb_gt, Z.ltb_ge.
    split.
    + intros [Hin|[[->|Hin] Hn]]; [right | by left | right].
      * exists p, (LargeRun m). split; [apply lookup_insert_eq | done].
      * destruct (proj2 (Hother i)) as (s & q & Hq & Hne & Hiq); [split; [done | lia]|].
        exists s, q. split; [by rewrite lookup_insert_ne | done].
    + intros [->|(s & q & Hq & Hiq)]; [right; split; [by left | lia]|].
      apply lookup_insert_Some in Hq as [[<- <-]|[Hne Hq]]; [by left|]. right.
      destruct (proj1 (Hother i)) as [? ?]; [by exists s, q|]. split; [by right | lia].
  - intros s q Hq. apply lookup_insert_Some in Hq as [[<- <-]|[Hne Hq]]; [|by apply Hwf].
    cbn. change ZEND_MM_PAGES with 512. lia.
  - intros s q Hq. apply lookup_insert_Some in Hq as [[<- <-]|[Hne Hq]]; [apply aget_insert_eq; lia|].
    destruct (Hwf s q Hq) as (Hqw & ? & ?). pose proof (run_pages_pos q Hqw).
    apply run_infos_insert; [|lia..|by apply Hi].
    destruct (Z.lt_ge_cases p s); [by left|]. right. apply (Hd s q p _ Hq Hr). lia.
  - intros s q t q' Hq Hq' Hlt.
    apply lookup_insert_Some in Hq as [[<- <-]|[Hne Hq]];
      apply lookup_insert_Some in Hq' as [[<- <-]|[Hne' Hq']].
    + lia.
    + cbn. by apply (Hnext t q').
    + by apply (Hd s q p (LargeRun n)).
    + by apply (Hd s q t q').
  - intros s q Hq. apply lookup_insert_Some in Hq as [[<- <-]|[Hne Hq]]; by eapply Hs.
Qed.

Lemma shrink_run_ok p n m :
  rs !! p = Some (LargeRun n) -> 1 <= m < n ->
  exists c', shrink_run c p m (n - m) = Ok c' /\ chunk_ok_with cnt c' (<[p := LargeRun m]> rs) /\
    same_links c c' /\ free_pages c' = free_pages c + (n - m).
Proof using Hok.
  intros Hr Hm. destruct (co_wf _ _ _ Hok p _ Hr) as (Hrw & Hp1 & Hp2). cbn in Hrw, Hp2.
  change ZEND_MM_PAGES with 512 in Hrw.
  pose proof (co_len _ _ _ Hok) as Hl. pose proof (co_map_len _ _ _ Hok) as Hml.
  pose proof (co_words _ _ _ Hok) as Hw. pose proof (co_free _ _ _ Hok) as Hf.
  assert (Hnb : nbits (free_map c) = 512) by (unfold nbits; rewrite Hl; done).
  destruct (reset_range_spec (free_map c) Hw (p + m) (n - m)) as (fm' & Hset & Hsh & Hbits); [lia..|].
  assert (Hset1 : forall i, p <= i < p + n -> bit_of (free_map c) i = true)
    by (intros i Hir; by apply (run_bit p (LargeRun n))).
  assert (Hcf : count_free fm' = count_free (free_map c) + (n - m)).
  { rewrite (count_free_range (free_map c) fm' (p + m) (n - m) true); [done | lia..| |].
    - intros i Hir. rewrite Hset1, Hbits by lia. unfold in_range. zcases; simpl; done || lia.
    - intros i Hir Hn. rewrite Hbits by lia. unfold in_range. zcases; simpl; done || lia. }
  pose proof (count_clear_bound (bit_of fm') 512 0) as Hcb. fold (count_free fm') in Hcb.
  pose proof (count_clear_bound (bit_of (free_map c)) 512 0) as Hcb'. fold (count_free (free_map c)) in Hcb'.
  unfold shrink_run. rewrite aset_okZ by lia. rsimp. cbn [free_map set_page_map set_free_pages].
  rewrite Hset. rsimp. eexists. split; [done|]. cbn [free_pages set_page_map]. rewrite u32_small by lia.
  split; [|done]. apply (resize_run p n m fm' (free_pages c + (n - m))); [done | lia | lia | intros; lia | done | lia |].
  intros i Hi. rewrite Hbits by done. destruct (in_range p m i) eqn:E.
  - unfold in_range in *. zbool. rewrite Hset1 by lia. zcases; simpl; done || lia.
  - unfold in_range in *. destruct (bit_of (free_map c) i); [|by rewrite andb_false_r].
    apply andb_false_iff in E. destruct E; zbool; zcases; simpl; done || lia.
Qed.

Lemma grow_run_ok p n m :
  rs !! p = Some (LargeRun n) -> n < m -> p + m <= 512 ->
  (forall i, p + n <= i < p + m -> bit_of (free_map c) i = false) ->
  exists c', grow_run c p n m = Ok c' /\ chunk_ok_with cnt c' (<[p := LargeRun m]> rs) /\
    same_links c c' /\ free_pages c' = free_pages c - (m - n).
Proof using Hok.
  intros Hr Hm Hpm Hgain. destruct (co_wf _ _ _ Hok p _ Hr) as (Hrw & Hp1 & Hp2). cbn in Hrw, Hp2.
  change ZEND_MM_PAGES with 512 in Hrw.
  pose proof (co_len _ _ _ Hok) as Hl. pose proof (co_map_len _ _ _ Hok) as Hml.
  pose proof (co_words _ _ _ Hok) as Hw. pose proof (co_free _ _ _ Hok) as Hf.
  assert (Hnb : nbits (free_map c) = 512) by (unfold nbits; rewrite Hl; done).
  destruct (set_range_spec (free_map c) Hw (p + n) (m - n)) as (fm' & Hset & Hsh & Hbits); [lia..|].
  assert (Hset1 : forall i, p <= i < p + n -> bit_of (free_map c) i = true)
    by (intros i Hir; by apply (run_bit p (LargeRun n))).
  pose proof (count_free_ge (free_map c) (p + n) (m - n) ltac:(lia) ltac:(lia) ltac:(lia)
    ltac:(intros i Hi; apply Hgain; lia)) as Hge.
  assert (Hcf : count_free fm' = count_free (free_map c) - (m - n)).
  { rewrite (count_free_range (free_map c) fm' (p + n) (m - n) false); [lia | lia..| |].
    - intros i Hir. rewrite Hgain, Hbits by lia. unfold in_range. zcases; simpl; done || lia.
    - intros i Hir Hn. rewrite Hbits by lia. unfold in_range. zcases; simpl; done || lia. }
  pose proof (count_clear_bound (bit_of (free_map c)) 512 0) as Hcb'. fold (count_free (free_map c)) in Hcb'.
  unfold grow_run. cbn [free_map set_free_pages]. rewrite Hset. rsimp.
  cbn [page_map set_free_pages set_free_map]. rewrite aset_okZ by lia. rsimp.
  eexists. split; [done|]. rewrite u32_small by lia. split; [|done].
  apply (resize_run p n m fm' (free_pages c - (m - n))); [done | lia | lia | done | done | lia |].
  intros i Hi. rewrite Hbits by done. destruct (bit_of (free_map c) i) eqn:E.
  - unfold in_range. zcases; simpl; try done; lia.
  - rewrite orb_false_r. destruct (in_range p n i) eqn:E2.
    + unfold in_range in E2. zbool. by rewrite Hset1 in E by lia.
    + unfold in_range in *. rewrite orb_false_r. apply andb_false_iff in E2.
      destruct E2; zbool; zcases; simpl; done || lia.
Qed.
End Runs.
