(* ===== verification/MmRing.v ===== *)
(** * Doubly linked rings

    [chain nx pv l]: the successors [nx] lead through [l] from its head to its
    last element and the predecessors [pv] back.  A ring is a chain that ends
    where it starts; the lemmas unlink an element and insert one. *)
From S2P Require Export Prelude.

Section Chain.
Context {P : Type} `{EqDecision P}.
Implicit Types (nx pv : P -> option P) (l xs : list P) (a b x h p : P).

Fixpoint chain nx pv l : Prop :=
  match l with
  | a :: (b :: _) as t => (nx a = Some b /\ pv b = Some a) /\ chain nx pv t
  | _ => True
  end.

Lemma chain_cons nx pv a b l :
  chain nx pv (a :: b :: l) <-> (nx a = Some b /\ pv b = Some a) /\ chain nx pv (b :: l).
Proof. done. Qed.

Lemma chain_app nx pv l1 a l2 :
  chain nx pv (l1 ++ a :: l2) <-> chain nx pv (l1 ++ [a]) /\ chain nx pv (a :: l2).
Proof.
  induction l1 as [|x l1 IH]; [simpl; tauto|].
  destruct l1 as [|y l1]; cbn [app] in *; rewrite !chain_cons; [simpl; tauto|]. rewrite IH. tauto.
Qed.

(** A chain reads [nx] on all elements but the last, [pv] on all but the first. *)
Lemma chain_frame nx pv nx' pv' l :
  chain nx pv l -> (forall p, p ∈ removelast l -> nx' p = nx p) ->
  (forall p, p ∈ tail l -> pv' p = pv p) -> chain nx' pv' l.
Proof.
  induction l as [|a l IH]; [done|]. destruct l as [|b l]; [done|].
  intros [[Hn Hp] Hc] Hnx Hpv. apply chain_cons. split.
  - rewrite Hnx, Hpv by (simpl; left). done.
  - apply IH; [done| |].
    + intros p Hin. apply Hnx. change (p ∈ a :: removelast (b :: l)). by right.
    + intros p Hin. apply Hpv. simpl. by right.
Qed.

Lemma removelast_snoc l (x : P) : removelast (l ++ [x]) = l.
Proof. rewrite removelast_app by done. simpl. by rewrite app_nil_r. Qed.

Lemma removelast_in l (x p : P) : p ∈ removelast (x :: l) -> p ∈ x :: l.
Proof.
  revert x. induction l as [|y l IH]; intros x; simpl; [by inversion 1|].
  rewrite !elem_of_cons. intros [->|Hp]; [by left | right]. by apply elem_of_cons, IH.
Qed.

(** The elements of [l1 ++ a :: l2] that [nx] and [pv] are read on. *)
Lemma chain_nodup_split l1 (a : P) l2 :
  NoDup (removelast (l1 ++ a :: l2)) -> NoDup (tail (l1 ++ a :: l2)) ->
  (forall p, p ∈ l1 -> p ∉ removelast (a :: l2)) /\ NoDup l1 /\ NoDup (removelast (a :: l2)) /\
  (forall p, p ∈ tail (l1 ++ [a]) -> p ∉ l2) /\ NoDup (tail (l1 ++ [a])) /\ NoDup l2.
Proof.
  intros H1 H2. rewrite removelast_app in H1 by done. apply NoDup_app in H1 as (N1 & D1 & N2).
  assert (Ht : tail (l1 ++ a :: l2) = tail (l1 ++ [a]) ++ l2).
  { destruct l1; simpl; [done|]. by rewrite <- app_assoc. }
  rewrite Ht in H2. apply NoDup_app in H2 as (N3 & D2 & N4). done.
Qed.

Lemma chain_unlink nx pv nx' pv' l1 a x b l2 :
  chain nx pv (l1 ++ a :: x :: b :: l2) ->
  NoDup (removelast (l1 ++ a :: x :: b :: l2)) -> NoDup (tail (l1 ++ a :: x :: b :: l2)) ->
  nx' a = Some b -> pv' b = Some a ->
  (forall p, p <> a -> nx' p = nx p) -> (forall p, p <> b -> pv' p = pv p) ->
  chain nx' pv' (l1 ++ a :: b :: l2).
Proof.
  intros Hc Hn1 Hn2 Ha Hb Hnx Hpv.
  apply chain_nodup_split in Hn1 as (D1 & N1 & N2 & D2 & N3 & N4); [|done].
  apply chain_app in Hc as [Hc1 Hc2]. rewrite !chain_cons in Hc2. destruct Hc2 as (_ & _ & Hc2).
  apply chain_app. split.
  - apply (chain_frame nx pv); [done| |].
    + intros p Hp. rewrite removelast_snoc in Hp. apply Hnx. intros ->. apply (D1 a Hp). simpl. left.
    + intros p Hp. apply Hpv. intros ->. apply (D2 b Hp). right. left.
  - apply chain_cons. split; [done|]. apply (chain_frame nx pv); [done| |].
    + intros p Hp. apply Hnx. intros ->. cbn [removelast] in N2.
      inversion_clear N2 as [|? ? Hnot _]. apply Hnot. right. exact Hp.
    + intros p Hp. apply Hpv. intros ->. inversion_clear N4 as [|? ? _ N5].
      inversion_clear N5 as [|? ? Hnot _]. by apply Hnot.
Qed.

Lemma chain_insert nx pv nx' pv' l1 a x b l2 :
  chain nx pv (l1 ++ a :: b :: l2) ->
  NoDup (removelast (l1 ++ a :: b :: l2)) -> NoDup (tail (l1 ++ a :: b :: l2)) ->
  x ∉ l1 ++ a :: b :: l2 ->
  nx' a = Some x -> nx' x = Some b -> pv' x = Some a -> pv' b = Some x ->
  (forall p, p <> a -> p <> x -> nx' p = nx p) -> (forall p, p <> b -> p <> x -> pv' p = pv p) ->
  chain nx' pv' (l1 ++ a :: x :: b :: l2).
Proof.
  intros Hc Hn1 Hn2 Hx Ha Hx1 Hx2 Hb Hnx Hpv.
  apply chain_nodup_split in Hn1 as (D1 & N1 & N2 & D2 & N3 & N4); [|done].
  apply chain_app in Hc as [Hc1 Hc2]. rewrite !chain_cons in Hc2. destruct Hc2 as (_ & Hc2).
  rewrite elem_of_app, !elem_of_cons in Hx.
  apply chain_app. split; [|apply chain_cons; split; [done|]; apply chain_cons; split; [done|]].
  - apply (chain_frame nx pv); [done| |].
    + intros p Hp. rewrite removelast_snoc in Hp. apply Hnx; intros ->; [|tauto].
      apply (D1 a Hp). simpl. left.
    + intros p Hp. apply Hpv; intros ->.
      * apply (D2 b Hp). left.
      * apply Hx. assert (Hin : x ∈ l1 ++ [a]).
        { destruct (l1 ++ [a]); simpl in Hp; [by inversion Hp | by right]. }
        rewrite elem_of_app, list_elem_of_singleton in Hin. tauto.
  - apply (chain_frame nx pv); [done| |].
    + intros p Hp. apply Hnx; intros ->.
      * cbn [removelast] in N2. inversion_clear N2 as [|? ? Hnot _]. by apply Hnot.
      * apply removelast_in in Hp. rewrite elem_of_cons in Hp. tauto.
    + intros p Hp. simpl in Hp. apply Hpv; intros ->; [|tauto].
      inversion_clear N4 as [|? ? Hnot _]. by apply Hnot.
Qed.

(** ** Rings: the head and the others *)
Definition cring nx pv (h : P) (xs : list P) : Prop := chain nx pv (h :: xs ++ [h]) /\ NoDup (h :: xs).

Lemma cring_nodup h xs : NoDup (h :: xs) ->
  NoDup (removelast (h :: xs ++ [h])) /\ NoDup (tail (h :: xs ++ [h])).
Proof.
  intros Hn. rewrite app_comm_cons, removelast_snoc. split; [done|]. simpl.
  rewrite NoDup_cons in Hn. destruct Hn as [Hh Hn]. apply NoDup_app. split; [done|].
  split; [|apply NoDup_singleton]. intros y Hy ->%list_elem_of_singleton. done.
Qed.

(** The neighbours of an element of a ring. *)
Lemma cring_split nx pv h xs x : cring nx pv h xs -> x ∈ xs ->
  exists l1 a b l2, h :: xs ++ [h] = l1 ++ a :: x :: b :: l2 /\ nx x = Some b /\ pv x = Some a /\
    a ∈ h :: xs /\ b ∈ h :: xs.
Proof.
  intros [Hc Hn] Hx. apply list_elem_of_split in Hx as (o1 & o2 & ->).
  destruct (exists_last (l := h :: o1)) as (l1 & a & Hl1); [done|].
  destruct (o2 ++ [h]) as [|b l2] eqn:Eo; [by destruct o2|].
  assert (Hfull : h :: (o1 ++ x :: o2) ++ [h] = l1 ++ a :: x :: b :: l2).
  { rewrite <- app_assoc. cbn [app]. rewrite Eo, app_comm_cons, Hl1, <- app_assoc. done. }
  exists l1, a, b, l2. split; [done|]. rewrite Hfull in Hc.
  apply chain_app in Hc as [_ Hc]. rewrite !chain_cons in Hc. destruct Hc as ((H1 & H2) & (H3 & H4) & _).
  split; [done|]. split; [done|]. split.
  - assert (Ha : a ∈ h :: o1) by (rewrite Hl1; apply elem_of_app; right; left).
    rewrite elem_of_cons in Ha. rewrite elem_of_cons, elem_of_app. tauto.
  - assert (Hb : b ∈ o2 ++ [h]) by (rewrite Eo; left).
    rewrite elem_of_app, list_elem_of_singleton in Hb. rewrite !elem_of_cons, elem_of_app, elem_of_cons. tauto.
Qed.

Lemma cring_unlink nx pv nx' pv' h xs x a b :
  cring nx pv h xs -> x ∈ xs -> nx x = Some b -> pv x = Some a ->
  nx' a = Some b -> pv' b = Some a ->
  (forall p, p <> a -> nx' p = nx p) -> (forall p, p <> b -> pv' p = pv p) ->
  exists o1 o2, xs = o1 ++ x :: o2 /\ cring nx' pv' h (o1 ++ o2).
Proof.
  intros Hr Hx Hb Ha Ha' Hb' Hnx Hpv. pose proof Hr as [Hc Hn].
  apply list_elem_of_split in Hx as (o1 & o2 & ->). exists o1, o2. split; [done|].
  destruct (exists_last (l := h :: o1)) as (l1 & a0 & Hl1); [done|].
  destruct (o2 ++ [h]) as [|b0 l2] eqn:Eo; [by destruct o2|].
  assert (Hfull : h :: (o1 ++ x :: o2) ++ [h] = l1 ++ a0 :: x :: b0 :: l2).
  { rewrite <- app_assoc. cbn [app]. rewrite Eo, app_comm_cons, Hl1, <- app_assoc. done. }
  destruct (cring_nodup _ _ Hn) as [Hn1 Hn2]. rewrite Hfull in *.
  assert (Hlink := Hc). apply chain_app in Hlink as [_ Hlink]. rewrite !chain_cons in Hlink.
  destruct Hlink as ((H1 & H2) & (H3 & H4) & _).
  rewrite Hb in H3. injection H3 as <-. rewrite Ha in H2. injection H2 as <-. split.
  - assert (Hfull' : h :: (o1 ++ o2) ++ [h] = l1 ++ a :: b :: l2).
    { rewrite <- app_assoc, Eo, app_comm_cons, Hl1, <- app_assoc. done. }
    rewrite Hfull'. by apply (chain_unlink nx pv nx' pv' l1 a x b l2).
  - rewrite NoDup_cons in Hn. destruct Hn as [Hh Hn]. rewrite elem_of_app, elem_of_cons in Hh.
    apply NoDup_cons. split; [rewrite elem_of_app; tauto|].
    apply NoDup_app in Hn as (D1 & D2 & D3). apply NoDup_cons in D3 as [D3 D4]. apply NoDup_app.
    split; [done|]. split; [|done]. intros y Hy1 Hy2. apply (D2 y Hy1). by right.
Qed.

(** The neighbours of an element are other elements of the ring. *)
Lemma cring_neighbours nx pv h xs x : cring nx pv h xs -> x ∈ xs ->
  exists a b, nx x = Some b /\ pv x = Some a /\ a ∈ h :: xs /\ b ∈ h :: xs /\ a <> x /\ b <> x.
Proof.
  intros Hr Hx. destruct (cring_split _ _ _ _ _ Hr Hx) as (l1 & a & b & l2 & Hl & Hb & Ha & Hia & Hib).
  exists a, b. split; [done|]. split; [done|]. split; [done|]. split; [done|].
  destruct (cring_nodup h xs (proj2 Hr)) as [Hn1 Hn2]. rewrite Hl in Hn1, Hn2. split.
  - apply chain_nodup_split in Hn1 as (_ & _ & Hn1 & _); [|done]. cbn [removelast] in Hn1.
    apply NoDup_cons in Hn1 as [Hn1 _]. intros ->. apply Hn1. left.
  - assert (Hn3 : NoDup (x :: b :: l2)).
    { replace (l1 ++ a :: x :: b :: l2) with ((l1 ++ [a]) ++ x :: b :: l2) in Hn2 by (by rewrite <- app_assoc).
      destruct (l1 ++ [a]) as [|y l'] eqn:E; [by destruct l1|]. cbn [app tail] in Hn2.
      by apply NoDup_app in Hn2 as (_ & _ & Hn2). }
    apply NoDup_cons in Hn3 as [Hn3 _]. intros ->. apply Hn3. left.
Qed.

Lemma cring_head_next nx pv h xs : cring nx pv h xs -> exists b, nx h = Some b /\ b ∈ h :: xs /\ pv b = Some h.
Proof.
  intros [Hc _]. destruct xs as [|b xs]; simpl in Hc.
  - exists h. split; [tauto|]. split; [left | tauto].
  - exists b. split; [tauto|]. split; [right; left | tauto].
Qed.

Lemma cring_head_prev nx pv h xs : cring nx pv h xs -> exists a, pv h = Some a /\ a ∈ h :: xs /\ nx a = Some h.
Proof.
  intros [Hc _]. destruct (exists_last (l := h :: xs)) as (l & a & E); [done|]. exists a.
  rewrite app_comm_cons, E, <- app_assoc in Hc. apply chain_app in Hc as [_ Hc]. simpl in Hc.
  split; [tauto|]. split; [|tauto]. rewrite E. apply elem_of_app. right. left.
Qed.

(** Insertion behind the head and before it. *)
Lemma cring_insert_front nx pv nx' pv' h xs x b :
  cring nx pv h xs -> x ∉ h :: xs -> nx h = Some b ->
  nx' h = Some x -> nx' x = Some b -> pv' x = Some h -> pv' b = Some x ->
  (forall p, p <> h -> p <> x -> nx' p = nx p) -> (forall p, p <> b -> p <> x -> pv' p = pv p) ->
  cring nx' pv' h (x :: xs).
Proof.
  intros [Hc Hn] Hx Hb H1 H2 H3 H4 H5 H6. destruct (cring_nodup _ _ Hn) as [Hn1 Hn2].
  destruct (xs ++ [h]) as [|b0 l2] eqn:E; [by destruct xs|].
  assert (b0 = b) as ->. { rewrite chain_cons in Hc. destruct Hc as ((Hb0 & _) & _). congruence. }
  split.
  - cbn [app]. rewrite E. apply (chain_insert nx pv nx' pv' [] h x b l2); try done.
    cbn [app]. rewrite <- E. rewrite !not_elem_of_cons in Hx. destruct Hx as [Hx1 Hx2].
    rewrite elem_of_cons, elem_of_app, list_elem_of_singleton. tauto.
  - rewrite !NoDup_cons in *. rewrite !elem_of_cons in *. destruct Hn. split; [|tauto].
    intros [->|?]; [apply Hx; by left | tauto].
Qed.

Lemma cring_insert_back nx pv nx' pv' h xs x a :
  cring nx pv h xs -> x ∉ h :: xs -> pv h = Some a ->
  nx' a = Some x -> nx' x = Some h -> pv' x = Some a -> pv' h = Some x ->
  (forall p, p <> a -> p <> x -> nx' p = nx p) -> (forall p, p <> h -> p <> x -> pv' p = pv p) ->
  cring nx' pv' h (xs ++ [x]).
Proof.
  intros [Hc Hn] Hx Ha H1 H2 H3 H4 H5 H6. destruct (cring_nodup _ _ Hn) as [Hn1 Hn2].
  destruct (exists_last (l := h :: xs)) as (l1 & a0 & Hl1); [done|].
  assert (Hfull : h :: xs ++ [h] = l1 ++ a0 :: [h]) by (rewrite app_comm_cons, Hl1, <- app_assoc; done).
  rewrite Hfull in *.
  assert (a0 = a) as ->.
  { apply chain_app in Hc as [_ Hc]. rewrite chain_cons in Hc. destruct Hc as ((_ & Ha0) & _). congruence. }
  split.
  - assert (Hfull' : h :: (xs ++ [x]) ++ [h] = l1 ++ a :: x :: [h]).
    { rewrite <- app_assoc, app_comm_cons, Hl1, <- app_assoc. done. }
    rewrite Hfull'. apply (chain_insert nx pv nx' pv' l1 a x h []); try done.
    rewrite <- Hfull. rewrite !not_elem_of_cons in Hx. destruct Hx as [Hx1 Hx2].
    rewrite elem_of_cons, elem_of_app, list_elem_of_singleton. tauto.
  - rewrite app_comm_cons. apply NoDup_app. split; [done|].
    split; [|apply NoDup_singleton]. intros y Hy ->%list_elem_of_singleton. done.
Qed.
End Chain.
