(* ===== verification/MmPages.v ===== *)
(** * Pages of the memory manager ([Zend/zend_alloc.c])

    Chunks from the operating system, the ring of chunks in use and the list
    of cached ones, allocation and release of pages, and the collector of free
    runs.  [zend_mm_safe_error] is [Fatal] and [zend_mm_panic] is [Panic]:
    both leave the function for good. *)
From S2P Require Export MmRuns MmRing.

Section Pages.
Context {Sys : OS}.
Implicit Types (st : mm) (o : os_state).

(** ** OS Allocation *)
Definition zend_mm_mmap_fixed o (addr size : Z) : option Z * os_state :=
  match mmap o addr size with
  | (None, o) => (None, o)
  | (Some ptr, o) => if ptr =? addr then (Some ptr, o) else (None, munmap o ptr size)
  end.

Definition zend_mm_mmap o (size : Z) : option Z * os_state := mmap o 0 size.

Definition zend_mm_munmap o (addr size : Z) : os_state := munmap o addr size.

(** ** Chunks *)

(** The second mapping is not tested for [NULL]: when it fails, the code goes
    on with the null pointer, which is aligned; it unmaps the pages behind the
    address [size] and returns [NULL]. *)
Definition zend_mm_chunk_alloc_int o (size alignment : Z) : res (option Z * os_state) :=
  match zend_mm_mmap o size with
  | (None, o) => Ok (None, o)
  | (Some ptr, o) =>
      if ZEND_MM_ALIGNED_OFFSET ptr alignment =? 0 then Ok (Some ptr, o)
      else
        (* chunk has to be aligned *)
        let o := zend_mm_munmap o ptr size in
        match zend_mm_mmap o (u64 (size + alignment - REAL_PAGE_SIZE)) with
        | (None, o) =>
            Ok (None, if REAL_PAGE_SIZE <? alignment
                      then zend_mm_munmap o (0 + size) (alignment - REAL_PAGE_SIZE) else o)
        | (Some ptr, o) =>
            let offset := ZEND_MM_ALIGNED_OFFSET ptr alignment in
            let '(ptr, alignment, o) :=
              if negb (offset =? 0) then
                let offset := alignment - offset in
                (ptr + offset, alignment - offset, zend_mm_munmap o ptr offset)
              else (ptr, alignment, o) in
            let o := if REAL_PAGE_SIZE <? alignment
                     then zend_mm_munmap o (ptr + size) (alignment - REAL_PAGE_SIZE) else o in
            Ok (Some ptr, o)
        end
  end.

(** [heap->storage] is [NULL]. *)
Definition zend_mm_chunk_alloc st (size alignment : Z) : res (option Z * mm) :=
  let! (ptr, o) := zend_mm_chunk_alloc_int (os st) size alignment in
  Ok (ptr, set_os st o).

(** The header of an unmapped chunk is gone with it. *)
Definition zend_mm_chunk_free st (addr size : Z) : mm :=
  set_chunks (set_os st (zend_mm_munmap (os st) addr size)) (delete addr (chunks st)).

Definition zend_mm_chunk_truncate st (addr old_size new_size : Z) : bool * mm :=
  (true, set_os st (zend_mm_munmap (os st) (addr + new_size) (old_size - new_size))).

Definition zend_mm_chunk_extend st (addr old_size new_size : Z) : bool * mm :=
  let (p, o) := zend_mm_mmap_fixed (os st) (addr + old_size) (new_size - old_size) in
  (isSome p, set_os st o).

(** A header in fresh memory. *)
Definition zero_chunk : zend_mm_chunk :=
  Chunk 0 0 0 0 0 0 (replicate 8 0) (replicate 512 0).

Definition zend_mm_chunk_init st (chunk : Z) : res mm :=
  let main := main_chunk (heap st) in
  let! m := get_chunk st main in
  let prev := c_prev m in
  let! st := upd_chunk st chunk (fun c => set_c_prev (set_c_next (set_c_heap c (h_addr st)) main) prev) in
  let! st := upd_chunk st prev (fun c => set_c_next c chunk) in
  let! st := upd_chunk st main (fun c => set_c_prev c chunk) in
  let! p := get_chunk st prev in
  let! c := get_chunk st chunk in
  let c := set_free_pages c (ZEND_MM_PAGES - ZEND_MM_FIRST_PAGE) in
  let c := set_free_tail c ZEND_MM_FIRST_PAGE in
  let c := set_num c (u32 (num p + 1)) in
  let! fm := aset (free_map c) 0 (Z.shiftl 1 ZEND_MM_FIRST_PAGE - 1) in
  let! pm := aset (page_map c) 0 (ZEND_MM_LRUN ZEND_MM_FIRST_PAGE) in
  Ok (put_chunk st chunk (set_page_map (set_free_map c fm) pm)).

(** [(double)z], and [heap->chunks_count + heap->cached_chunks_count <
    heap->avg_chunks_count + 0.1] with the rounding of binary64. *)
Definition to_double (z : Z) : spec_float := binary_normalize 53 1024 z 0 false.
Definition dbl_0_1 : spec_float := S754_finite false 7205759403792794 (-56).

Definition delay_deletion (h : zend_mm_heap) : bool :=
  SFltb (to_double (chunks_count h + cached_chunks_count h)) (SFadd 53 1024 (avg_chunks_count h) dbl_0_1) ||
  ((chunks_count h =? last_chunks_delete_boundary h) && (4 <=? last_chunks_delete_count h)).

(** The deletions since the number of chunks last changed. *)
Definition count_deletion (h : zend_mm_heap) : zend_mm_heap :=
  if negb (chunks_count h =? last_chunks_delete_boundary h) then
    set_last_chunks_delete_count (set_last_chunks_delete_boundary h (chunks_count h)) 0
  else set_last_chunks_delete_count h (s32 (last_chunks_delete_count h + 1)).

(** [chunk->next->prev = chunk->prev; chunk->prev->next = chunk->next] *)
Definition unlink_chunk st (chunk : Z) : res mm :=
  let! c := get_chunk st chunk in
  let! st := upd_chunk st (c_next c) (fun n => set_c_prev n (c_prev c)) in
  let! c := get_chunk st chunk in
  upd_chunk st (c_prev c) (fun p => set_c_next p (c_next c)).

Definition zend_mm_delete_chunk st (chunk : Z) : res mm :=
  let! st := unlink_chunk st chunk in
  let st := upd_heap st (fun h => set_chunks_count h (s32 (chunks_count h - 1))) in
  let cached := cached_chunks (heap st) in
  if delay_deletion (heap st) then
    (* delay deletion *)
    let st := upd_heap st (fun h => set_cached_chunks_count h (s32 (cached_chunks_count h + 1))) in
    let! st := upd_chunk st chunk (fun c => set_c_next c cached) in
    Ok (upd_heap st (fun h => set_cached_chunks h chunk))
  else
    let st := upd_heap st (fun h => set_real_size h (u64 (real_size h - ZEND_MM_CHUNK_SIZE))) in
    let st :=
      if cached =? 0 then upd_heap st count_deletion else st in
    if cached =? 0 then Ok (zend_mm_chunk_free st chunk ZEND_MM_CHUNK_SIZE)
    else
      let! c := get_chunk st chunk in
      let! k := get_chunk st cached in
      if num k <? num c then Ok (zend_mm_chunk_free st chunk ZEND_MM_CHUNK_SIZE)
      else
        let! st := upd_chunk st chunk (fun c => set_c_next c (c_next k)) in
        let st := zend_mm_chunk_free st cached ZEND_MM_CHUNK_SIZE in
        Ok (upd_heap st (fun h => set_cached_chunks h chunk)).

(** ** Releasing pages *)
Definition zend_mm_free_pages_ex st (chunk page_num pages_count : Z) (free_chunk : bool) : res mm :=
  let! c := get_chunk st chunk in
  let! c := release_run c page_num pages_count in
  let st := put_chunk st chunk c in
  if free_chunk && (free_pages c =? ZEND_MM_PAGES - ZEND_MM_FIRST_PAGE)
  then zend_mm_delete_chunk st chunk else Ok st.

Definition zend_mm_free_pages st (chunk page_num pages_count : Z) : res mm :=
  zend_mm_free_pages_ex st chunk page_num pages_count true.

Definition zend_mm_free_large st (chunk page_num pages_count : Z) : res mm :=
  let st := upd_heap st (fun h => set_h_size h (u64 (h_size h - pages_count * ZEND_MM_PAGE_SIZE))) in
  zend_mm_free_pages st chunk page_num pages_count.

(** ** The collector: [zend_mm_gc] *)

(** The run that a free slot belongs to: its chunk, first page and info. *)
Definition slot_run st (p : Z) : res (Z * Z * Z) :=
  let chunk := ZEND_MM_ALIGNED_BASE p ZEND_MM_CHUNK_SIZE in
  let! c := get_chunk st chunk in
  if negb (c_heap c =? h_addr st) then Err Panic
  else
    let page_offset := ZEND_MM_ALIGNED_OFFSET p ZEND_MM_CHUNK_SIZE in
    let page_num := page_offset / ZEND_MM_PAGE_SIZE in
    let! info := aget (page_map c) page_num in
    if info_has info ZEND_MM_IS_LRUN then
      let page_num := page_num - ZEND_MM_NRUN_OFFSET info in
      let! info := aget (page_map c) page_num in
      Ok (chunk, page_num, info)
    else Ok (chunk, page_num, info).

(** Count the free slots of every run of bin [i] in its page info. *)
Fixpoint gc_count st (i p : Z) (has_free_pages : bool) (fuel : nat) : res (bool * mm) :=
  match fuel with
  | O => Err OutOfFuel
  | S fuel =>
      if p =? 0 then Ok (has_free_pages, st)
      else
        let! (chunk, page_num, info) := slot_run st p in
        let free_counter := ZEND_MM_SRUN_FREE_COUNTER info + 1 in
        let has_free_pages := if free_counter =? bin_elements i then true else has_free_pages in
        let! c := get_chunk st chunk in
        let! pm := aset (page_map c) page_num (ZEND_MM_SRUN_EX i free_counter) in
        let st := put_chunk st chunk (set_page_map c pm) in
        gc_count st i (load64 (mem st) p) has_free_pages fuel
  end.

(** [*q = p], where [q] is the head of the list of bin [i] or the link of a slot. *)
Definition set_link st (i : Z) (q : option Z) (p : Z) : res mm :=
  match q with
  | None => let! fs := aset (free_slot (heap st)) i p in Ok (upd_heap st (fun h => set_free_slot h fs))
  | Some q => Ok (set_mem st (store64 (mem st) q p))
  end.

(** Take the slots of the wholly free runs out of the list. *)
Fixpoint gc_unlink st (i : Z) (q : option Z) (p : Z) (fuel : nat) : res mm :=
  match fuel with
  | O => Err OutOfFuel
  | S fuel =>
      if p =? 0 then Ok st
      else
        let! (_, _, info) := slot_run st p in
        if ZEND_MM_SRUN_FREE_COUNTER info =? bin_elements i then
          (* remove from cache *)
          let p := load64 (mem st) p in
          let! st := set_link st i q p in
          gc_unlink st i q p fuel
        else gc_unlink st i (Some p) (load64 (mem st) p) fuel
  end.

(** No list is longer than the number of 8-byte slots in all chunks. *)
Definition slots_bound st : nat := S (Z.to_nat (ZEND_MM_PAGES * 512 * Z.of_nat (size (chunks st)))).

Fixpoint gc_bins st (i : Z) (fuel : nat) : res mm :=
  match fuel with
  | O => Err OutOfFuel
  | S fuel =>
      if i <? ZEND_MM_BINS then
        let! p := aget (free_slot (heap st)) i in
        let! (has_free_pages, st) := gc_count st i p false (slots_bound st) in
        if negb has_free_pages then gc_bins st (i + 1) fuel
        else
          let! p := aget (free_slot (heap st)) i in
          let! st := gc_unlink st i None p (slots_bound st) in
          gc_bins st (i + 1) fuel
      else Ok st
  end.

(** The runs of a chunk: free those whose slots are all free, reset the
    counters of the others. *)
Fixpoint gc_chunk st (chunk i collected : Z) (fuel : nat) : res (Z * mm) :=
  match fuel with
  | O => Err OutOfFuel
  | S fuel =>
      let! c := get_chunk st chunk in
      if i <? free_tail c then
        let! set := zend_mm_bitset_is_set (free_map c) i in
        if set then
          let! info := aget (page_map c) i in
          if info_has info ZEND_MM_IS_SRUN then
            let bin_num := ZEND_MM_SRUN_BIN_NUM info in
            let pages_count := bin_pages bin_num in
            if ZEND_MM_SRUN_FREE_COUNTER info =? bin_elements bin_num then
              (* all elements are free *)
              let! st := zend_mm_free_pages_ex st chunk i pages_count false in
              gc_chunk st chunk (i + bin_pages bin_num) (u64 (collected + pages_count)) fuel
            else
              (* reset counter *)
              let! pm := aset (page_map c) i (ZEND_MM_SRUN bin_num) in
              gc_chunk (put_chunk st chunk (set_page_map c pm)) chunk (i + bin_pages bin_num) collected fuel
          else gc_chunk st chunk (i + ZEND_MM_LRUN_PAGES info) collected fuel
        else gc_chunk st chunk (i + 1) collected fuel
      else Ok (collected, st)
  end.

(** Every turn of [gc_chunk] passes a page. *)
Definition page_fuel : nat := Z.to_nat (ZEND_MM_PAGES + 1).

Fixpoint gc_chunks st (chunk collected : Z) (pages : nat) (fuel : nat) : res (Z * mm) :=
  match fuel with
  | O => Err OutOfFuel
  | S fuel =>
      let! (collected, st) := gc_chunk st chunk ZEND_MM_FIRST_PAGE collected pages in
      let! c := get_chunk st chunk in
      let next_chunk := c_next c in
      let! st :=
        if free_pages c =? ZEND_MM_PAGES - ZEND_MM_FIRST_PAGE
        then zend_mm_delete_chunk st chunk else Ok st in
      if negb (next_chunk =? main_chunk (heap st)) then gc_chunks st next_chunk collected pages fuel
      else Ok (collected, st)
  end.

Definition zend_mm_gc st : res (Z * mm) :=
  let! st := gc_bins st 0 31 in
  let! (collected, st) := gc_chunks st (main_chunk (heap st)) 0 page_fuel (S (size (chunks st))) in
  Ok (u64 (collected * ZEND_MM_PAGE_SIZE), st).

(** ** Allocating pages *)

(** Search the ring from [chunk] on: the chunk and page found, if any, and
    the number of steps. *)
Fixpoint find_pages st (chunk pages_count steps : Z) (fuel : nat) : res (option (Z * Z) * Z * mm) :=
  match fuel with
  | O => Err OutOfFuel
  | S fuel =>
      let! c := get_chunk st chunk in
      let! (r, c) := search_chunk c pages_count in
      let st := put_chunk st chunk c in
      match r with
      | Found page_num => Ok (Some (chunk, page_num), steps, st)
      | NotFound =>
          if c_next c =? main_chunk (heap st) then Ok (None, steps, st)
          else find_pages st (c_next c) pages_count (steps + 1) fuel
      end
  end.

(** [real_size] grows by [size], and the peak with it. *)
Definition add_real_size (size : Z) (h : zend_mm_heap) : zend_mm_heap :=
  let size := u64 (real_size h + size) in
  set_real_peak (set_real_size h size) (Z.max (real_peak h) size).

(** A chunk from the operating system; [None] is a retry with [goto get_chunk]. *)
Definition new_chunk st : res (option Z * mm) :=
  let! (retry, st) :=
    if limit (heap st) <? u64 (real_size (heap st) + ZEND_MM_CHUNK_SIZE) then
      let! (collected, st) := zend_mm_gc st in
      if negb (collected =? 0) then Ok (true, st)
      else if overflow (heap st) =? 0 then Err Fatal
      else Ok (false, st)
    else Ok (false, st) in
  if retry then Ok (None, st)
  else
    let! (chunk, st) := zend_mm_chunk_alloc st ZEND_MM_CHUNK_SIZE ZEND_MM_CHUNK_SIZE in
    let! (chunk, st) :=
      match chunk with
      | Some chunk => Ok (chunk, st)
      | None =>
          (* insufficient memory *)
          let! (collected, st) := zend_mm_gc st in
          if negb (collected =? 0) then
            let! (chunk, st) := zend_mm_chunk_alloc st ZEND_MM_CHUNK_SIZE ZEND_MM_CHUNK_SIZE in
            match chunk with Some chunk => Ok (chunk, st) | None => Err Fatal end
          else Err Fatal
      end in
    let st := put_chunk st chunk zero_chunk in
    Ok (Some chunk, upd_heap st (add_real_size ZEND_MM_CHUNK_SIZE)).

(** [get_chunk:] a cached chunk or a new one.  Each retry follows a collection
    that has freed pages. *)
Fixpoint take_chunk st (fuel : nat) : res (Z * mm) :=
  match fuel with
  | O => Err OutOfFuel
  | S fuel =>
      let chunk := cached_chunks (heap st) in
      if negb (chunk =? 0) then
        let! c := get_chunk st chunk in
        Ok (chunk, upd_heap st (fun h =>
          set_cached_chunks (set_cached_chunks_count h (s32 (cached_chunks_count h - 1))) (c_next c)))
      else
        let! (chunk, st) := new_chunk st in
        match chunk with Some chunk => Ok (chunk, st) | None => take_chunk st fuel end
  end.

Definition ZEND_MM_PAGE_ADDR (chunk page_num : Z) : Z := chunk + page_num * ZEND_MM_PAGE_SIZE.

(** move chunk into the head of the linked-list *)
Definition move_to_front st (chunk : Z) : res mm :=
  let main := main_chunk (heap st) in
  let! c := get_chunk st chunk in
  let! st := upd_chunk st (c_prev c) (fun p => set_c_next p (c_next c)) in
  let! c := get_chunk st chunk in
  let! st := upd_chunk st (c_next c) (fun n => set_c_prev n (c_prev c)) in
  let! m := get_chunk st main in
  let! st := upd_chunk st chunk (fun c => set_c_prev (set_c_next c (c_next m)) main) in
  let! st := upd_chunk st main (fun m => set_c_next m chunk) in
  let! c := get_chunk st chunk in
  upd_chunk st (c_next c) (fun n => set_c_prev n chunk).

Definition zend_mm_alloc_pages st (pages_count : Z) : res (Z * mm) :=
  let! (hit, steps, st) := find_pages st (main_chunk (heap st)) pages_count 0 (S (size (chunks st))) in
  let! (chunk, page_num, st) :=
    match hit with
    | Some (chunk, page_num) => Ok (chunk, page_num, st)
    | None =>
        let! (chunk, st) := take_chunk st (S (S (Z.to_nat (ZEND_MM_PAGES * Z.of_nat (size (chunks st)))))) in
        let st := upd_heap st (fun h => set_chunks_count h (s32 (chunks_count h + 1))) in
        let st := upd_heap st (fun h =>
          if peak_chunks_count h <? chunks_count h then set_peak_chunks_count h (chunks_count h) else h) in
        let! st := zend_mm_chunk_init st chunk in
        Ok (chunk, ZEND_MM_FIRST_PAGE, st)
    end in
  (* found: *)
  let! st := if (2 <? steps) && (pages_count <? 8) then move_to_front st chunk else Ok st in
  let! c := get_chunk st chunk in
  let! c := mark_run c page_num pages_count in
  Ok (ZEND_MM_PAGE_ADDR chunk page_num, put_chunk st chunk c).
End Pages.
