(* ===== verification/MmHeap.v ===== *)
(** * Small, large and huge blocks ([Zend/zend_alloc.c])

    [zend_mm_alloc_heap], [zend_mm_free_heap] and [zend_mm_realloc_heap] with
    what they call.  A huge block is recorded in a list whose nodes are small
    blocks of the same heap, so allocating a huge block calls the allocator
    again, once; [zend_mm_alloc_heap_rec] counts these calls. *)
From S2P Require Export MmPages.

Section Heap.
Context {Sys : OS}.
Implicit Types (st : mm) (o : os_state).

(** ** Statistics *)

(** [heap->size] grows by [n], and the peak with it. *)
Definition add_size (n : Z) (h : zend_mm_heap) : zend_mm_heap :=
  let size := u64 (h_size h + n) in
  set_h_peak (set_h_size h size) (Z.max (h_peak h) size).

Definition sub_size (n : Z) (h : zend_mm_heap) : zend_mm_heap := set_h_size h (u64 (h_size h - n)).
Definition sub_real_size (n : Z) (h : zend_mm_heap) : zend_mm_heap := set_real_size h (u64 (real_size h - n)).

(** ** Large Runs *)
Definition zend_mm_alloc_large st (size : Z) : res (Z * mm) :=
  let pages_count := ZEND_MM_SIZE_TO_NUM size ZEND_MM_PAGE_SIZE in
  let! (ptr, st) := zend_mm_alloc_pages st pages_count in
  Ok (ptr, upd_heap st (add_size (pages_count * ZEND_MM_PAGE_SIZE))).

(** ** Small Runs *)

(** higher set bit number *)
Definition zend_mm_small_size_to_bit (size : Z) : Z :=
  let n := 16 in
  let '(n, size) := if size <=? 0x00ff then (n - 8, Z.shiftl size 8) else (n, size) in
  let '(n, size) := if size <=? 0x0fff then (n - 4, Z.shiftl size 4) else (n, size) in
  let '(n, size) := if size <=? 0x3fff then (n - 2, Z.shiftl size 2) else (n, size) in
  if size <=? 0x7fff then n - 1 else n.

Definition zend_mm_small_size_to_bin (size : Z) : Z :=
  if size <=? 64 then Z.shiftr (size - (if size =? 0 then 0 else 1)) 3
  else
    let t1 := size - 1 in
    let t2 := zend_mm_small_size_to_bit t1 - 3 in
    let t1 := Z.shiftr t1 t2 in
    let t2 := t2 - 3 in
    let t2 := Z.shiftl t2 2 in
    t1 + t2.

(** create a linked list of elements from [p] to [end] *)
Fixpoint link_slots (m : gmap Z Z) (p e size : Z) (fuel : nat) : res (gmap Z Z) :=
  match fuel with
  | O => Err OutOfFuel
  | S fuel =>
      let m := store64 m p (p + size) in
      let p := p + size in
      if negb (p =? e) then link_slots m p e size fuel
      else Ok (store64 m p 0) (* terminate list using NULL *)
  end.

Definition zend_mm_alloc_small_slow st (bin_num : Z) : res (Z * mm) :=
  let! (bin, st) := zend_mm_alloc_pages st (bin_pages bin_num) in
  let chunk := ZEND_MM_ALIGNED_BASE bin ZEND_MM_CHUNK_SIZE in
  let page_num := ZEND_MM_ALIGNED_OFFSET bin ZEND_MM_CHUNK_SIZE / ZEND_MM_PAGE_SIZE in
  let! c := get_chunk st chunk in
  let! c := mark_bin c page_num bin_num in
  let st := put_chunk st chunk c in
  let size := bin_data_size bin_num in
  let e := bin + size * (bin_elements bin_num - 1) in
  let! st := set_link st bin_num None (bin + size) in
  let! m := link_slots (mem st) (bin + size) e size (Z.to_nat (bin_elements bin_num)) in
  Ok (bin, set_mem st m).

Definition zend_mm_alloc_small st (bin_num : Z) : res (Z * mm) :=
  let st := upd_heap st (add_size (bin_data_size bin_num)) in
  let! p := aget (free_slot (heap st)) bin_num in
  if negb (p =? 0) then
    let! st := set_link st bin_num None (load64 (mem st) p) in
    Ok (p, st)
  else zend_mm_alloc_small_slow st bin_num.

Definition zend_mm_free_small st (ptr bin_num : Z) : res mm :=
  let st := upd_heap st (sub_size (bin_data_size bin_num)) in
  let! p := aget (free_slot (heap st)) bin_num in
  let st := set_mem st (store64 (mem st) ptr p) in
  set_link st bin_num None ptr.

(** ** Huge Runs *)

(** [struct _zend_mm_huge_list]: ptr, size, next *)
Definition huge_ptr st (list : Z) : Z := load64 (mem st) list.
Definition huge_size st (list : Z) : Z := load64 (mem st) (list + 8).
Definition huge_next st (list : Z) : Z := load64 (mem st) (list + 16).
Definition sizeof_huge_list : Z := 24.

(** The node of a block and the node before it. *)
Fixpoint find_huge st (ptr prev list : Z) (fuel : nat) : res (Z * Z) :=
  match fuel with
  | O => Err OutOfFuel
  | S fuel =>
      if list =? 0 then Ok (prev, list)
      else if huge_ptr st list =? ptr then Ok (prev, list)
      else find_huge st ptr list (huge_next st list) fuel
  end.

Definition zend_mm_get_huge_block_size st (ptr : Z) : res Z :=
  let! (_, list) := find_huge st ptr 0 (huge_list (heap st)) (slots_bound st) in
  if list =? 0 then Err Panic else Ok (huge_size st list).

Definition zend_mm_change_huge_block_size st (ptr size : Z) : res mm :=
  let! (_, list) := find_huge st ptr 0 (huge_list (heap st)) (slots_bound st) in
  if list =? 0 then Ok st else Ok (set_mem st (store64 (mem st) (list + 8) size)).

(** [zend_mm_add_huge_block] behind its allocation *)
Definition link_huge st (list ptr size : Z) : mm :=
  let m := store64 (mem st) list ptr in
  let m := store64 m (list + 8) size in
  let m := store64 m (list + 16) (huge_list (heap st)) in
  upd_heap (set_mem st m) (fun h => set_huge_list h list).

(** [real_size + n] against the limit: collect, and fail if that does not help *)
Definition check_limit st (n : Z) : res mm :=
  if limit (heap st) <? u64 (real_size (heap st) + n) then
    let! (collected, st) := zend_mm_gc st in
    if negb (collected =? 0) && (u64 (real_size (heap st) + n) <=? limit (heap st)) then Ok st
    else if overflow (heap st) =? 0 then Err Fatal
    else Ok st
  else Ok st.

(** [zend_mm_alloc_huge]; [alloc] is [zend_mm_alloc_heap], for the node of the list *)
Definition zend_mm_alloc_huge (alloc : mm -> Z -> res (Z * mm)) st (size : Z) : res (Z * mm) :=
  let new_size := ZEND_MM_ALIGNED_SIZE_EX size REAL_PAGE_SIZE in
  let! st := check_limit st new_size in
  let! (ptr, st) := zend_mm_chunk_alloc st new_size ZEND_MM_CHUNK_SIZE in
  let! (ptr, st) :=
    match ptr with
    | Some ptr => Ok (ptr, st)
    | None =>
        (* insufficient memory *)
        let! (collected, st) := zend_mm_gc st in
        if negb (collected =? 0) then
          let! (ptr, st) := zend_mm_chunk_alloc st new_size ZEND_MM_CHUNK_SIZE in
          match ptr with Some ptr => Ok (ptr, st) | None => Err Fatal end
        else Err Fatal
    end in
  let! (list, st) := alloc st sizeof_huge_list in
  let st := link_huge st list ptr new_size in
  let st := upd_heap st (add_real_size new_size) in
  Ok (ptr, upd_heap st (add_size new_size)).

(** ** Heap *)
Fixpoint zend_mm_alloc_heap_rec (depth : nat) st (size : Z) : res (Z * mm) :=
  match depth with
  | O => Err OutOfFuel
  | S depth =>
      if size <=? ZEND_MM_MAX_SMALL_SIZE then zend_mm_alloc_small st (zend_mm_small_size_to_bin size)
      else if size <=? ZEND_MM_MAX_LARGE_SIZE then zend_mm_alloc_large st size
      else zend_mm_alloc_huge (zend_mm_alloc_heap_rec depth) st size
  end.

Definition zend_mm_alloc_heap st (size : Z) : res (Z * mm) := zend_mm_alloc_heap_rec 2 st size.

(** [zend_mm_del_huge_block]; [free] is [zend_mm_free_heap], for the node *)
Definition zend_mm_del_huge_block (free : mm -> Z -> res mm) st (ptr : Z) : res (Z * mm) :=
  let! (prev, list) := find_huge st ptr 0 (huge_list (heap st)) (slots_bound st) in
  if list =? 0 then Err Panic
  else
    let next := huge_next st list in
    let st :=
      if negb (prev =? 0) then set_mem st (store64 (mem st) (prev + 16) next)
      else upd_heap st (fun h => set_huge_list h next) in
    let size := huge_size st list in
    let! st := free st list in
    Ok (size, st).

Definition zend_mm_free_huge (free : mm -> Z -> res mm) st (ptr : Z) : res mm :=
  if negb (ZEND_MM_ALIGNED_OFFSET ptr ZEND_MM_CHUNK_SIZE =? 0) then Err Panic
  else
    let! (size, st) := zend_mm_del_huge_block free st ptr in
    let st := zend_mm_chunk_free st ptr size in
    Ok (upd_heap st (fun h => sub_size size (sub_real_size size h))).

Fixpoint zend_mm_free_heap_rec (depth : nat) st (ptr : Z) : res mm :=
  match depth with
  | O => Err OutOfFuel
  | S depth =>
      let page_offset := ZEND_MM_ALIGNED_OFFSET ptr ZEND_MM_CHUNK_SIZE in
      if page_offset =? 0 then
        if negb (ptr =? 0) then zend_mm_free_huge (zend_mm_free_heap_rec depth) st ptr else Ok st
      else
        let chunk := ZEND_MM_ALIGNED_BASE ptr ZEND_MM_CHUNK_SIZE in
        let page_num := page_offset / ZEND_MM_PAGE_SIZE in
        let! c := get_chunk st chunk in
        let! info := aget (page_map c) page_num in
        if negb (c_heap c =? h_addr st) then Err Panic
        else if info_has info ZEND_MM_IS_SRUN then
          zend_mm_free_small st ptr (ZEND_MM_SRUN_BIN_NUM info)
        else if negb (ZEND_MM_ALIGNED_OFFSET page_offset ZEND_MM_PAGE_SIZE =? 0) then Err Panic
        else zend_mm_free_large st chunk page_num (ZEND_MM_LRUN_PAGES info)
  end.

Definition zend_mm_free_heap st (ptr : Z) : res mm := zend_mm_free_heap_rec 2 st ptr.

Definition zend_mm_size st (ptr : Z) : res Z :=
  let page_offset := ZEND_MM_ALIGNED_OFFSET ptr ZEND_MM_CHUNK_SIZE in
  if page_offset =? 0 then zend_mm_get_huge_block_size st ptr
  else
    let! c := get_chunk st (ZEND_MM_ALIGNED_BASE ptr ZEND_MM_CHUNK_SIZE) in
    let! info := aget (page_map c) (page_offset / ZEND_MM_PAGE_SIZE) in
    if negb (c_heap c =? h_addr st) then Err Panic
    else if info_has info ZEND_MM_IS_SRUN then Ok (bin_data_size (ZEND_MM_SRUN_BIN_NUM info))
    else Ok (ZEND_MM_LRUN_PAGES info * ZEND_MM_PAGE_SIZE).

(** ** Reallocation *)

(** A huge block that stays huge: the new state when it can keep its place. *)
Definition realloc_huge st (ptr old_size size : Z) : res (bool * mm) :=
  if ZEND_MM_MAX_LARGE_SIZE <? size then
    let new_size := ZEND_MM_ALIGNED_SIZE_EX size REAL_PAGE_SIZE in
    if new_size =? old_size then
      let! st := zend_mm_change_huge_block_size st ptr new_size in Ok (true, st)
    else if new_size <? old_size then
      (* unmap tail *)
      let (ok, st) := zend_mm_chunk_truncate st ptr old_size new_size in
      if ok then
        let st := upd_heap st (fun h => sub_size (old_size - new_size) (sub_real_size (old_size - new_size) h)) in
        let! st := zend_mm_change_huge_block_size st ptr new_size in Ok (true, st)
      else Ok (false, st)
    else
      let! st := check_limit st (new_size - old_size) in
      (* try to map tail right after this block *)
      let (ok, st) := zend_mm_chunk_extend st ptr old_size new_size in
      if ok then
        let st := upd_heap st (fun h => add_size (new_size - old_size) (add_real_size (new_size - old_size) h)) in
        let! st := zend_mm_change_huge_block_size st ptr new_size in Ok (true, st)
      else Ok (false, st)
  else Ok (false, st).

(** A large block that stays large. *)
Definition realloc_large st (chunk : Z) (c : zend_mm_chunk) (page_num old_size size : Z) : res (bool * mm) :=
  if (ZEND_MM_MAX_SMALL_SIZE <? size) && (size <=? ZEND_MM_MAX_LARGE_SIZE) then
    let new_size := ZEND_MM_ALIGNED_SIZE_EX size ZEND_MM_PAGE_SIZE in
    if new_size =? old_size then Ok (true, st)
    else if new_size <? old_size then
      (* free tail pages *)
      let new_pages_count := new_size / ZEND_MM_PAGE_SIZE in
      let rest_pages_count := (old_size - new_size) / ZEND_MM_PAGE_SIZE in
      let st := upd_heap st (sub_size (rest_pages_count * ZEND_MM_PAGE_SIZE)) in
      let! c := shrink_run c page_num new_pages_count rest_pages_count in
      Ok (true, put_chunk st chunk c)
    else
      let new_pages_count := new_size / ZEND_MM_PAGE_SIZE in
      let old_pages_count := old_size / ZEND_MM_PAGE_SIZE in
      (* try to allocate tail pages after this block *)
      let! free :=
        if page_num + new_pages_count <=? ZEND_MM_PAGES then
          zend_mm_bitset_is_free_range (free_map c) (page_num + old_pages_count) (new_pages_count - old_pages_count)
        else Ok false in
      if free then
        let st := upd_heap st (add_size (new_size - old_size)) in
        let! c := grow_run c page_num old_pages_count new_pages_count in
        Ok (true, put_chunk st chunk c)
      else Ok (false, st)
  else Ok (false, st).

(** Naive reallocation *)
Definition realloc_naive st (ptr old_size size copy_size : Z) : res (Z * mm) :=
  let orig_peak := h_peak (heap st) in
  let orig_real_peak := real_peak (heap st) in
  let! (ret, st) := zend_mm_alloc_heap st size in
  let st := set_mem st (copy_bytes (mem st) ret ptr (Z.to_nat (Z.min old_size copy_size))) in
  let! st := zend_mm_free_heap st ptr in
  Ok (ret, upd_heap st (fun h =>
    set_real_peak (set_h_peak h (Z.max orig_peak (h_size h))) (Z.max orig_real_peak (real_size h)))).

Definition zend_mm_realloc_heap st (ptr size copy_size : Z) : res (Z * mm) :=
  let page_offset := ZEND_MM_ALIGNED_OFFSET ptr ZEND_MM_CHUNK_SIZE in
  if page_offset =? 0 then
    if ptr =? 0 then zend_mm_alloc_heap st size
    else
      let! old_size := zend_mm_get_huge_block_size st ptr in
      let! (in_place, st) := realloc_huge st ptr old_size size in
      if in_place then Ok (ptr, st) else realloc_naive st ptr old_size size copy_size
  else
    let chunk := ZEND_MM_ALIGNED_BASE ptr ZEND_MM_CHUNK_SIZE in
    let page_num := page_offset / ZEND_MM_PAGE_SIZE in
    let! c := get_chunk st chunk in
    let! info := aget (page_map c) page_num in
    if negb (c_heap c =? h_addr st) then Err Panic
    else if info_has info ZEND_MM_IS_SRUN then
      let old_bin_num := ZEND_MM_SRUN_BIN_NUM info in
      let old_size := bin_data_size old_bin_num in
      if (size <=? ZEND_MM_MAX_SMALL_SIZE) && (old_bin_num =? zend_mm_small_size_to_bin size) then Ok (ptr, st)
      else realloc_naive st ptr old_size size copy_size
    else if negb (ZEND_MM_ALIGNED_OFFSET page_offset ZEND_MM_PAGE_SIZE =? 0) then Err Panic
    else
      let old_size := ZEND_MM_LRUN_PAGES info * ZEND_MM_PAGE_SIZE in
      let! (in_place, st) := realloc_large st chunk c page_num old_size size in
      if in_place then Ok (ptr, st) else realloc_naive st ptr old_size size copy_size.

(** ** Initialization *)

(** The heap structure lies in the header of its first chunk. *)
Definition heap_slot_offset : Z := 64.

Definition zend_mm_init (o : os_state) : res (option mm * os_state) :=
  let! (chunk, o) := zend_mm_chunk_alloc_int o ZEND_MM_CHUNK_SIZE ZEND_MM_CHUNK_SIZE in
  match chunk with
  | None => Ok (None, o)
  | Some chunk =>
      let h_addr := chunk + heap_slot_offset in
      let! fm := aset (free_map zero_chunk) 0 (Z.shiftl 1 ZEND_MM_FIRST_PAGE - 1) in
      let! pm := aset (page_map zero_chunk) 0 (ZEND_MM_LRUN ZEND_MM_FIRST_PAGE) in
      let c := Chunk h_addr chunk chunk (ZEND_MM_PAGES - ZEND_MM_FIRST_PAGE) ZEND_MM_FIRST_PAGE 0 fm pm in
      let h := Heap 0 0 (replicate 30 0) ZEND_MM_CHUNK_SIZE ZEND_MM_CHUNK_SIZE (Z.shiftr all_ones 1) 0 0
                 chunk 0 1 1 0 (to_double 1) 0 0 in
      Ok (Some (MM h_addr h {[chunk := c]} ∅ o), o)
  end.
End Heap.
