(* ===== verification/MmOs.v ===== *)
(** * Chunks from the operating system are aligned, mapped and fresh

    [outcome] is the form of the results about the parts of the manager: a call
    returns with the postcondition, or ends the request with a fatal error.
    It neither panics nor goes astray; why it may fail is the subject of
    [MmProgress], which gives the cause of every fatal error. *)
From S2P Require Export MmHeap.

(** ** Alignment *)
Lemma aligned_offset p : ZEND_MM_ALIGNED_OFFSET p ZEND_MM_CHUNK_SIZE = p mod 2 ^ 21.
Proof.
  unfold ZEND_MM_ALIGNED_OFFSET. change (ZEND_MM_CHUNK_SIZE - 1) with (Z.ones 21).
  by apply Z.land_ones.
Qed.

Lemma page_offset p : ZEND_MM_ALIGNED_OFFSET p ZEND_MM_PAGE_SIZE = p mod 2 ^ 12.
Proof.
  unfold ZEND_MM_ALIGNED_OFFSET. change (ZEND_MM_PAGE_SIZE - 1) with (Z.ones 12).
  by apply Z.land_ones.
Qed.

Lemma land_not_ones w k : word64 w -> 0 <= k <= 64 -> Z.land w (not64 (Z.ones k)) = w - w mod 2 ^ k.
Proof.
  intros Hw Hk. rewrite <- Z.land_ones by lia.
  assert (Hs : w - Z.land w (Z.ones k) = Z.ldiff w (Z.ones k))
    by (rewrite (ldiff_ones_split w k) at 1 by lia; lia).
  rewrite Hs. apply word_inj; [by apply land_word| |].
  - apply word64_bits; [rewrite Z.ldiff_nonneg; unfold word64 in Hw; lia|].
    intros j Hj. by rewrite Z.ldiff_spec, testbit_high.
  - intros j Hj. by rewrite Z.land_spec, not64_testbit, Z.ldiff_spec.
Qed.

Lemma aligned_base p : word64 p -> ZEND_MM_ALIGNED_BASE p ZEND_MM_CHUNK_SIZE = p - p mod 2 ^ 21.
Proof.
  intros Hp. unfold ZEND_MM_ALIGNED_BASE. change (ZEND_MM_CHUNK_SIZE - 1) with (Z.ones 21).
  by apply land_not_ones.
Qed.

(** The chunk and the offset of an address inside a chunk. *)
Lemma chunk_address ch off :
  0 <= ch -> ch mod 2 ^ 21 = 0 -> 0 <= off < 2 ^ 21 -> ch + off < 2 ^ 64 ->
  ZEND_MM_ALIGNED_OFFSET (ch + off) ZEND_MM_CHUNK_SIZE = off /\
  ZEND_MM_ALIGNED_BASE (ch + off) ZEND_MM_CHUNK_SIZE = ch.
Proof.
  intros Hc Hm Ho Hb. rewrite aligned_base, aligned_offset by (unfold word64; lia).
  rewrite <- Zplus_mod_idemp_l, Hm, Z.add_0_l, Z.mod_small by lia. lia.
Qed.

(** Rounding up to whole pages. *)
Lemma aligned_size_ex n :
  0 <= n < 2 ^ 64 - 4096 ->
  let m := ZEND_MM_ALIGNED_SIZE_EX n ZEND_MM_PAGE_SIZE in
  n <= m < n + 4096 /\ m mod 4096 = 0.
Proof.
  intros Hn m. subst m. unfold ZEND_MM_ALIGNED_SIZE_EX. change (ZEND_MM_PAGE_SIZE - 1) with (Z.ones 12).
  rewrite land_not_ones by (apply u64_word || lia). unfold ZEND_MM_PAGE_SIZE. rewrite u64_small by lia.
  change (2 ^ 12) with 4096. change (4 * 1024) with 4096.
  pose proof (Z.div_mod (n + 4096 - 1) 4096). pose proof (Z.mod_pos_bound (n + 4096 - 1) 4096).
  split; [lia|].
  replace (n + 4096 - 1 - (n + 4096 - 1) mod 4096) with ((n + 4096 - 1) / 4096 * 4096) by lia.
  by apply Z.mod_mul.
Qed.

Definition outcome {A} (r : res A) (post : A -> Prop) : Prop :=
  match r with
  | Ok a => post a
  | Err Fatal => True
  | Err _ => False
  end.

Lemma outcome_bind {A B} (m : res A) (k : A -> res B) P Q :
  outcome m P -> (forall a, P a -> outcome (k a) Q) -> outcome (rbind m k) Q.
Proof. destruct m as [a|[]]; simpl; auto. Qed.

Lemma outcome_weaken {A} (r : res A) (P Q : A -> Prop) :
  outcome r P -> (forall a, P a -> Q a) -> outcome r Q.
Proof. destruct r as [a|[]]; simpl; auto. Qed.

(** ** Mappings *)

(** A range [b, e) is added and the range [x, y) cut off one of its ends. *)
Lemma mapped_cut (M : Prop) a b e x y b' e' :
  (b' = b /\ x = e' /\ y = e \/ x = b /\ y = b' /\ e' = e) -> b <= b' <= e' -> e' <= e ->
  (M -> ~ (b <= a < e)) ->
  ((M \/ b <= a < e) /\ ~ (x <= a < y)) <-> (M \/ b' <= a < e').
Proof.
  intros Hc Hb He Hm. split.
  - intros [[?|?] ?]; [by left | right; lia].
  - intros [Hma|?]; [|split; [right|]; lia]. split; [by left|].
    intros ?. apply (Hm Hma). lia.
Qed.

Section Mappings.
Context {Sys : OS} {Laws : OSLaws}.

(** [o'] maps what [o] maps and the range of [size] bytes at [p], which [o] does not map. *)
Record new_mapping (o o' : os_state) (p size : Z) : Prop := {
  nm_pos : 0 < p;
  nm_end : p + size <= ADDRESS_SPACE;
  nm_fresh a : p <= a < p + size -> ~ mapped o a;
  nm_mapped a : mapped o' a <-> mapped o a \/ p <= a < p + size
}.

Definition same_mapping (o o' : os_state) : Prop := forall a, mapped o' a <-> mapped o a.

Lemma mmap_outcome o size :
  0 <= size -> size mod 4096 = 0 ->
  match zend_mm_mmap o size with
  | (None, o') => same_mapping o o'
  | (Some p, o') => 0 < size /\ p mod 4096 = 0 /\ new_mapping o o' p size
  end.
Proof.
  intros Hs Hm. unfold zend_mm_mmap. destruct (mmap o 0 size) as [[p|] o'] eqn:E.
  - destruct (Z.eq_dec size 0) as [->|Hne].
    + pose proof (mmap_zero o 0) as H0. by rewrite E in H0.
    + apply mmap_some in E as (Hp & Hpm & Hend & Hf & Hmap); [|lia | done].
      split; [lia|]. split; [exact Hpm|]. by split.
  - intros a. by apply (mmap_none o 0 size).
Qed.

(** Nothing is mapped where a refused enlarged mapping makes the code unmap. *)
Definition null_free (o : os_state) (size : Z) : Prop :=
  forall a, size <= a < size + (ZEND_MM_CHUNK_SIZE - REAL_PAGE_SIZE) -> ~ mapped o a.

Lemma null_free_mono o o' size : (forall a, mapped o' a -> mapped o a) -> null_free o size -> null_free o' size.
Proof. intros Hm Hf a Ha Hma. by apply (Hf a Ha), Hm. Qed.

(** It is so for a chunk. *)
Lemma chunk_null_free {Low : LowMemory} o : null_free o ZEND_MM_CHUNK_SIZE.
Proof.
  intros a Ha Hm. apply lowest_address in Hm. unfold LOWEST_ADDRESS, ZEND_MM_CHUNK_SIZE, REAL_PAGE_SIZE, ZEND_MM_PAGE_SIZE in *. lia.
Qed.

Lemma chunk_alloc_int_spec o size :
  0 <= size < 2 ^ 64 -> size mod 4096 = 0 -> null_free o size ->
  outcome (zend_mm_chunk_alloc_int o size ZEND_MM_CHUNK_SIZE) (fun r =>
    match r with
    | (None, o') => same_mapping o o'
    | (Some p, o') => 0 < size /\ p mod 2 ^ 21 = 0 /\ new_mapping o o' p size
    end).
Proof.
  intros Hs Hm Hnull. unfold zend_mm_chunk_alloc_int.
  pose proof (mmap_outcome o size ltac:(lia) Hm) as H1.
  destruct (zend_mm_mmap o size) as [[p|] o1] eqn:E1; [|exact H1].
  destruct H1 as (Hpos & Hpm & [Hp0 Hpe Hfr Hmap]). rewrite aligned_offset.
  destruct (Z.eqb_spec (p mod 2 ^ 21) 0) as [Ha|Ha]; [simpl; split; [done|]; split; [done | by split]|].
  assert (Hsm : size <= ADDRESS_SPACE) by lia. unfold ADDRESS_SPACE in Hsm.
  unfold REAL_PAGE_SIZE, ZEND_MM_PAGE_SIZE, ZEND_MM_CHUNK_SIZE.
  rewrite u64_small by lia. set (big := size + 2 * 1024 * 1024 - 4 * 1024).
  assert (Hbig : big = size + 2093056) by (subst big; lia).
  assert (Hbm : big mod 4096 = 0).
  { subst big. replace (size + 2 * 1024 * 1024 - 4 * 1024) with (size + 511 * 4096) by lia.
    by rewrite Z.mod_add. }
  pose proof (mmap_outcome (zend_mm_munmap o1 p size) big ltac:(lia) Hbm) as H2.
  assert (Hun : same_mapping o (zend_mm_munmap o1 p size)).
  { intros a. unfold zend_mm_munmap. rewrite munmap_range, Hmap. specialize (Hfr a).
    destruct (decide (p <= a < p + size)); tauto. }
  destruct (zend_mm_mmap (zend_mm_munmap o1 p size) big) as [[q|] o2] eqn:E2.
  2:{ change (4 * 1024 <? 2 * 1024 * 1024) with true. cbn [outcome]. cbv iota. unfold zend_mm_munmap at 1. intros a. rewrite munmap_range, (H2 a), (Hun a), Z.add_0_l.
      split; [by intros [? _]|]. intros Hma. split; [done|]. intros Ha'. by apply (Hnull a). }
  destruct H2 as (_ & Hqm & [Hq0 Hqe Hqf Hqmap]). cbv zeta.
  change (2 * 1024 * 1024) with ZEND_MM_CHUNK_SIZE. rewrite aligned_offset.
  pose proof (Z.mod_pos_bound q (2 ^ 21)) as Hoff. set (off := q mod 2 ^ 21) in *.
  assert (Hoff4 : off mod 4096 = 0).
  { subst off. rewrite (Z.div_mod q (2 ^ 21)) in Hqm by lia.
    replace (2 ^ 21 * (q / 2 ^ 21) + q mod 2 ^ 21) with (q mod 2 ^ 21 + (512 * (q / 2 ^ 21)) * 4096) in Hqm by lia.
    by rewrite Z.mod_add in Hqm by lia. }
  pose proof (Z.div_mod off 4096 ltac:(lia)) as Hod.
  change ZEND_MM_CHUNK_SIZE with 2097152. change (4 * 1024) with 4096.
  destruct (Z.eqb_spec off 0) as [Ho|Ho]; cbn [negb]; cbv iota beta.
  - replace (4096 <? 2097152) with true by done. split; [done|]. split; [done|]. split; [done | lia | |].
    + intros a Ha'. rewrite <- (Hun a). apply Hqf. lia.
    + intros a. unfold zend_mm_munmap at 1. rewrite munmap_range, Hqmap, (Hun a).
      apply mapped_cut; [lia.. |]. intros Hma Hr. apply (Hqf a); [lia | by apply Hun].
  - assert (Hfin : forall a, q + (2097152 - off) <= a < q + (2097152 - off) + size -> ~ mapped o a)
      by (intros a Ha'; rewrite <- (Hun a); apply Hqf; lia).
    assert (Hex : forall a, mapped o a -> ~ (q <= a < q + big)) by (intros a Hma Hr; by apply (Hqf a Hr), Hun).
    split; [done|]. split.
    { replace (q + (2097152 - off)) with (((q / 2 ^ 21) + 1) * 2 ^ 21)
        by (pose proof (Z.div_mod q (2 ^ 21)); lia). by apply Z.mod_mul. }
    split; [lia | lia | done |]. intros a. specialize (Hex a).
    destruct (Z.ltb_spec 4096 (2097152 - (2097152 - off))).
    + unfold zend_mm_munmap at 1 2. rewrite !munmap_range, Hqmap, (Hun a).
      rewrite (mapped_cut (mapped o a) a q (q + big) q (q + (2097152 - off)) (q + (2097152 - off)) (q + big)) by (done || lia).
      apply mapped_cut; [lia..|]. intros Hma Hr. apply Hex; [done | lia].
    + unfold zend_mm_munmap at 1. rewrite munmap_range, Hqmap, (Hun a).
      apply mapped_cut; [lia..|]. intros Hma Hr. apply Hex; [done | lia].
Qed.
End Mappings.

(** ** Operations that neither take nor give back a chunk *)
Definition view {Sys : OS} (st : mm) :=
  (dom (chunks st) : gset Z, os st, h_size (heap st), limit (heap st), overflow (heap st), real_size (heap st)).

Definition same {Sys : OS} (st st' : mm) : Prop := view st' = view st.

(** One step back from a result: a bind, a condition, a pair. *)
Ltac back :=
  match goal with
  | H : Err _ = Ok _ |- _ => discriminate H
  | H : Ok _ = Ok _ |- _ => injection H as H; subst
  | H : (_, _) = (_, _) |- _ => injection H as H; subst
  | H : rbind _ _ = Ok _ |- _ =>
      let a := fresh "a" in let Ha := fresh "Ha" in apply rbind_inv in H; destruct H as (a & Ha & H)
  | H : context [if ?b then _ else _] |- _ => destruct b
  | H : match ?x with Some _ => _ | None => _ end = Ok _ |- _ => destruct x
  | H : match ?x with Found _ => _ | NotFound => _ end = Ok _ |- _ => destruct x
  | H : (let (_, _) := ?x in _) = Ok _ |- _ => destruct x
  | x : (_ * _)%type |- _ => destruct x
  end.

(** What is known of the operations that have run; extended below. *)
Ltac same_fact H := fail.

Ltac sames :=
  repeat (back; cbv beta iota in *; cbn [fst snd] in * );
  repeat match goal with H : _ = Ok _ |- _ => same_fact H end;
  unfold same, view, upd_heap in *; cbn in *; try congruence.

Section Same.
Context {Sys : OS}.
Implicit Types (st : mm).

Lemma get_chunk_dom st p c : get_chunk st p = Ok c -> chunks st !! p = Some c.
Proof. unfold get_chunk. destruct (chunks st !! p); congruence. Qed.

Lemma put_chunk_same st p c c0 : chunks st !! p = Some c0 -> same st (put_chunk st p c).
Proof.
  intros H. unfold same, view, put_chunk. cbn. do 5 f_equal. rewrite dom_insert_L. apply elem_of_dom_2 in H. set_solver.
Qed.

Lemma same_trans st1 st2 st3 : same st1 st2 -> same st2 st3 -> same st1 st3.
Proof. unfold same. congruence. Qed.

Lemma upd_chunk_same st p f st' : upd_chunk st p f = Ok st' -> same st st'.
Proof. unfold upd_chunk. intros H. inv_bind. apply get_chunk_dom in Ha. by apply (put_chunk_same _ _ _ a). Qed.

Lemma set_link_same st i q p st' : set_link st i q p = Ok st' -> same st st'.
Proof. unfold set_link. intros H. destruct q; sames. Qed.

(** A header that is read and written back. *)
Lemma reput_same st p c c' : get_chunk st p = Ok c' -> same st (put_chunk st p c).
Proof. intros H. apply get_chunk_dom in H. by apply (put_chunk_same _ _ _ c'). Qed.
End Same.

Ltac same_fact H ::= first [apply upd_chunk_same in H | apply set_link_same in H].

Section Same2.
Context {Sys : OS}.
Implicit Types (st : mm).

Lemma unlink_chunk_same st p st' : unlink_chunk st p = Ok st' -> same st st'.
Proof. unfold unlink_chunk. intros H. sames. Qed.

Lemma chunk_init_same st p st' : zend_mm_chunk_init st p = Ok st' -> same st st'.
Proof.
  unfold zend_mm_chunk_init. intros H. inv_bind. eapply same_trans; [|by eapply reput_same]. sames.
Qed.

Lemma move_to_front_same st p st' : move_to_front st p = Ok st' -> same st st'.
Proof. unfold move_to_front. intros H. sames. Qed.

(** The collector *)
Lemma gc_count_same fuel : forall st i p b b' st', gc_count st i p b fuel = Ok (b', st') -> same st st'.
Proof.
  induction fuel as [|fuel IH]; intros st i p b b' st' H; [done|]. cbn [gc_count] in H.
  destruct (p =? 0); [sames|]. inv_bind. destruct a as [[chunk page] info]. inv_bind. apply IH in H.
  eapply same_trans; [|exact H]. by eapply reput_same.
Qed.

Lemma gc_unlink_same fuel : forall st i q p st', gc_unlink st i q p fuel = Ok st' -> same st st'.
Proof.
  induction fuel as [|fuel IH]; intros st i q p st' H; [done|]. cbn [gc_unlink] in H.
  destruct (p =? 0); [sames|]. inv_bind. destruct a as [[chunk page] info]. destruct (_ =? _); inv_bind.
  - apply set_link_same in Ha0. apply IH in H. by eapply same_trans.
  - by apply IH in H.
Qed.

Lemma gc_bins_same fuel : forall st i st', gc_bins st i fuel = Ok st' -> same st st'.
Proof.
  induction fuel as [|fuel IH]; intros st i st' H; [done|]. cbn [gc_bins] in H. destruct (i <? _); [|sames].
  inv_bind. destruct a0 as [b st1]. apply gc_count_same in Ha0. destruct (negb b); inv_bind.
  - apply IH in H. by eapply same_trans.
  - apply gc_unlink_same in Ha2. apply IH in H. do 2 (eapply same_trans; [eassumption|]). done.
Qed.

(** Finding pages *)
Lemma find_pages_same fuel : forall st c n k r k' st', find_pages st c n k fuel = Ok (r, k', st') -> same st st'.
Proof.
  induction fuel as [|fuel IH]; intros st c n k r k' st' H; [done|]. cbn [find_pages] in H. inv_bind.
  destruct a0 as [f c']. pose proof (reput_same st c c' _ Ha) as Hs. destruct f; [by inv_bind|].
  destruct (_ =? _); [by inv_bind|]. apply IH in H. by eapply same_trans.
Qed.
End Same2.

(** ** Mappings are only given back *)
Section Drops.
Context {Sys : OS}.
Implicit Types (st : mm).

(** The only requests to the system are releases. *)
Definition unmaps : os_state -> os_state -> Prop := rtc (fun o o' => exists p n, o' = munmap o p n).

Definition drops st st' : Prop := unmaps (os st) (os st').

Lemma drops_trans st1 st2 st3 : drops st1 st2 -> drops st2 st3 -> drops st1 st3.
Proof. unfold drops, unmaps. intros H1 H2. by etrans. Qed.

Lemma same_drops st st' : same st st' -> drops st st'.
Proof. unfold same, view, drops. intros [= _ -> _ _ _ _]. apply rtc_refl. Qed.

Lemma chunk_free_drops st p n : drops st (zend_mm_chunk_free st p n).
Proof. apply rtc_once. by exists p, n. Qed.

Lemma delete_chunk_drops st p st' : zend_mm_delete_chunk st p = Ok st' -> drops st st'.
Proof.
  unfold zend_mm_delete_chunk. intros H. apply rbind_inv in H as (st1 & Hu & H). apply unlink_chunk_same, same_drops in Hu.
  apply (drops_trans _ st1); [done|]. clear Hu. destruct (delay_deletion _).
  - apply rbind_inv in H as (st2 & H2 & H). injection H as <-. apply upd_chunk_same, same_drops in H2. exact H2.
  - destruct (_ =? 0); [injection H as <-; apply (chunk_free_drops st1)|].
    apply rbind_inv in H as (c & _ & H). apply rbind_inv in H as (k & _ & H).
    destruct (_ <? _); [injection H as <-; apply (chunk_free_drops st1)|].
    apply rbind_inv in H as (st2 & H2 & H). injection H as <-. apply upd_chunk_same, same_drops in H2.
    eapply drops_trans; [exact H2|]. apply (chunk_free_drops st2).
Qed.

Lemma free_pages_drops st c p n b st' : zend_mm_free_pages_ex st c p n b = Ok st' -> drops st st'.
Proof.
  unfold zend_mm_free_pages_ex. intros H. inv_bind. destruct (b && _); [|inv_bind; apply rtc_refl]. by apply delete_chunk_drops in H.
Qed.

Lemma gc_chunk_drops fuel : forall st c i n n' st', gc_chunk st c i n fuel = Ok (n', st') -> drops st st'.
Proof.
  induction fuel as [|fuel IH]; intros st c i n n' st' H; [done|]. cbn [gc_chunk] in H. inv_bind.
  destruct (i <? _); [|inv_bind; apply rtc_refl]. inv_bind. destruct a0; [|by apply IH in H]. inv_bind.
  destruct (info_has _ _); [|by apply IH in H]. destruct (_ =? _); inv_bind; apply IH in H; [|exact H].
  apply free_pages_drops in Ha2. by eapply drops_trans.
Qed.

Lemma gc_chunks_drops fuel : forall st c n k n' st', gc_chunks st c n k fuel = Ok (n', st') -> drops st st'.
Proof.
  induction fuel as [|fuel IH]; intros st c n k n' st' H; [done|]. cbn [gc_chunks] in H. inv_bind.
  destruct a as [m st1]. apply gc_chunk_drops in Ha. inv_bind.
  assert (Hs : drops st1 a0) by (destruct (_ =? _); [by apply delete_chunk_drops in Ha1 | inv_bind; apply rtc_refl]).
  assert (Hs0 : drops st a0) by (by eapply drops_trans).
  destruct (negb _); [apply IH in H; by eapply drops_trans | by inv_bind].
Qed.

Lemma gc_drops st n st' : zend_mm_gc st = Ok (n, st') -> drops st st'.
Proof.
  unfold zend_mm_gc. intros H. inv_bind. destruct a0 as [m st1]. apply gc_bins_same, same_drops in Ha.
  apply gc_chunks_drops in Ha0. inv_bind. by eapply drops_trans.
Qed.
End Drops.

Section Sheds.
Context {Sys : OS} {Laws : OSLaws}.
Implicit Types (st : mm).

Definition sheds st st' : Prop := forall a, mapped (os st') a -> mapped (os st) a.

Lemma sheds_refl st : sheds st st.
Proof. by intros a. Qed.

Lemma gc_sheds st n st' : zend_mm_gc st = Ok (n, st') -> sheds st st'.
Proof.
  intros H a. apply gc_drops in H. unfold drops, unmaps in H. induction H as [|o1 o2 o3 (p & k & ->) _ IH]; [done|].
  intros Ha. apply IH, munmap_range in Ha. by destruct Ha.
Qed.
End Sheds.
