(* ===== verification/MmInv.v ===== *)
(** * The invariant of the memory manager

    A [layout] lists what the pointers of a heap lead to: the other chunks of
    the ring behind the main one, the cached chunks, the chunks that an operation is
    moving, the runs by chunk and
    page, the free slots of every bin, the huge blocks with the list nodes
    that describe them and the huge blocks that an operation is moving.  [mm_ok] relates it to the state.  [owned] is the set
    of ranges that are handed out: large runs, the slots that are on no free
    list, huge blocks.  [mm_ok_with] carries the counters of free slots that
    the page infos hold while [zend_mm_gc] runs. *)
From S2P Require Export MmOs.

(** ** Linked lists *)
Fixpoint llist (next : Z -> option Z) (p : Z) (l : list Z) : Prop :=
  match l with
  | [] => p = 0
  | x :: l => p = x /\ x <> 0 /\ exists q, next x = Some q /\ llist next q l
  end.

Lemma llist_frame next next' l : forall p,
  llist next p l -> (forall x, x ∈ l -> next' x = next x) -> llist next' p l.
Proof.
  induction l as [|x l IH]; intros p; [done|]. simpl.
  intros (-> & Hx & q & Hq & Hl) H. split; [done|]. split; [done|]. exists q.
  split; [rewrite H by left; done|]. apply IH; [done|]. intros y Hy. apply H. by right.
Qed.

Lemma llist_nonzero next l : forall p x, llist next p l -> x ∈ l -> x <> 0.
Proof.
  induction l as [|y l IH]; intros p x Hl Hx; [by inversion Hx|].
  destruct Hl as (-> & Hy & q & _ & Hl). apply elem_of_cons in Hx as [->|Hx]; [done | by eapply IH].
Qed.

(** ** Disjoint ranges *)
Definition rdisj (r q : Z * Z) : Prop := fst r + snd r <= fst q \/ fst q + snd q <= fst r.

Fixpoint pairwise (l : list (Z * Z)) : Prop :=
  match l with [] => True | r :: l => Forall (rdisj r) l /\ pairwise l end.

Lemma rdisj_sym r q : rdisj r q -> rdisj q r.
Proof. unfold rdisj. tauto. Qed.

Lemma pairwise_perm l l' : l ≡ₚ l' -> pairwise l -> pairwise l'.
Proof.
  intros Hp. induction Hp as [|r l l' Hp IH|r q l|l1 l2 l3 _ IH1 _ IH2]; simpl; [done| | |tauto].
  - intros [Hf Hw]. split; [by rewrite <- Hp | by apply IH].
  - rewrite !Forall_cons. intros [[Hq Hf] [Hf' Hw]]. split; [split; [by apply rdisj_sym | done] | done].
Qed.

Lemma pairwise_in l r q : pairwise l -> r ∈ l -> q ∈ l -> r = q \/ rdisj r q.
Proof.
  induction l as [|x l IH]; [by inversion 2|]. intros [Hf Hw] Hr Hq. rewrite Forall_forall in Hf.
  apply elem_of_cons in Hr as [->|Hr]; apply elem_of_cons in Hq as [->|Hq].
  - by left.
  - right. by apply Hf.
  - right. by apply rdisj_sym, Hf.
  - by apply IH.
Qed.

Lemma pairwise_app l l' :
  pairwise (l ++ l') <-> pairwise l /\ pairwise l' /\ forall r q, r ∈ l -> q ∈ l' -> rdisj r q.
Proof.
  induction l as [|x l IH]; simpl.
  - split; [intros H; split; [done|]; split; [done|]; intros ? ? Hr; by inversion Hr | tauto].
  - rewrite IH, Forall_app, !Forall_forall. split.
    + intros ((Hx & Hx') & Hl & Hl' & Hd). split; [done|]. split; [done|].
      intros r q Hr Hq. apply elem_of_cons in Hr as [->|Hr]; auto.
    + intros ((Hx & Hl) & Hl' & Hd). split; [|split; [done|]; split; [done|]].
      * split; [done|]. intros q Hq. apply Hd; [left | done].
      * intros r q Hr Hq. apply Hd; [by right | done].
Qed.

(** ** The layout *)
Record layout := Layout {
  others : list Z;
  cache : list Z;
  spare : list Z;            (* chunks on their way in or out *)
  runs : gmap (Z * Z) run;
  slots : Z -> list Z;
  huges : list (Z * Z * Z);  (* node, block, size *)
  held : list (Z * Z)        (* huge blocks on their way in or out: block, size *)
}.

Definition node_of (h : Z * Z * Z) : Z := fst (fst h).
Definition huge_range (h : Z * Z * Z) : Z * Z := (snd (fst h), snd h).

Definition slot_addr (ch s b i : Z) : Z := ch + s * 4096 + i * bin_data_size b.

Definition is_slot (R : gmap (Z * Z) run) (b p : Z) : Prop :=
  exists ch s i, R !! (ch, s) = Some (SmallRun b) /\ 0 <= i < bin_elements b /\ p = slot_addr ch s b i.

(** The ranges that the heap has from the system. *)
Definition regions_of (main : Z) (L : layout) : list (Z * Z) :=
  map (fun ch => (ch, ZEND_MM_CHUNK_SIZE)) (main :: others L ++ cache L ++ spare L) ++
  map huge_range (huges L) ++ held L.

Inductive owned (L : layout) : Z -> Z -> Prop :=
| owned_large ch s n : runs L !! (ch, s) = Some (LargeRun n) -> owned L (ch + s * 4096) (n * 4096)
| owned_small b p : is_slot (runs L) b p -> p ∉ slots L b -> owned L p (bin_data_size b)
| owned_huge node p n : (node, p, n) ∈ huges L -> owned L p n.

(** The blocks of the user: the nodes of the huge list are the manager's own. *)
Definition block (L : layout) (p n : Z) : Prop := owned L p n /\ p ∉ map node_of (huges L).

(** What the process has mapped besides the heap. *)
Class Foreign := foreign : Z -> Prop.

Section Invariant.
Context {Sys : OS} {Laws : OSLaws} {Rest : Foreign}.
Implicit Types (st : mm).

Definition nexts st (p : Z) : option Z := c_next <$> chunks st !! p.
Definition prevs st (p : Z) : option Z := c_prev <$> chunks st !! p.
Definition slot_next st (p : Z) : option Z := Some (load64 (mem st) p).
Definition node_next st (p : Z) : option Z := Some (load64 (mem st) (p + 16)).
Definition main st : Z := main_chunk (heap st).

Record region_ok (o : os_state) (r : Z * Z) : Prop := {
  rg_pos : 0 < fst r;
  rg_size : 0 < snd r;
  rg_aligned : fst r mod 2 ^ 21 = 0;
  rg_pages : snd r mod 4096 = 0;
  rg_end : fst r + snd r <= ADDRESS_SPACE;
  rg_mapped a : fst r <= a < fst r + snd r -> mapped o a
}.

Definition covers (l : list (Z * Z)) (a : Z) : Prop := exists r, r ∈ l /\ fst r <= a < fst r + snd r.

(** The mappings are the foreign ones and those of the heap. *)
Definition exactly (o : os_state) (l : list (Z * Z)) : Prop :=
  forall a, (mapped o a <-> foreign a \/ covers l a) /\ (covers l a -> ~ foreign a).

Definition regions_ok (o : os_state) (l : list (Z * Z)) : Prop := (Forall (region_ok o) l /\ pairwise l) /\ exactly o l.

Lemma covers_cons r l a : covers (r :: l) a <-> fst r <= a < fst r + snd r \/ covers l a.
Proof.
  split.
  - intros (q & Hq & Ha). apply elem_of_cons in Hq as [->|Hq]; [by left | right; by exists q].
  - intros [Ha|(q & Hq & Ha)]; [exists r; split; [left | done] | exists q; split; [by right | done]].
Qed.

Lemma covers_apart r l a : Forall (rdisj r) l -> fst r <= a < fst r + snd r -> ~ covers l a.
Proof.
  intros Hd Ha (q & Hq & Hqa). rewrite Forall_forall in Hd. specialize (Hd q Hq). unfold rdisj in Hd. lia.
Qed.

Definition chunk_runs (R : gmap (Z * Z) run) (ch : Z) (rs : gmap Z run) : Prop :=
  forall s, rs !! s = R !! (ch, s).

(** A header whose pages are free, but for the first word of the bit set. *)
Record blank (c : zend_mm_chunk) : Prop := {
  bl_words : words_ok (free_map c);
  bl_len : length (free_map c) = 8%nat;
  bl_map_len : length (page_map c) = 512%nat;
  bl_bits i : 64 <= i < 512 -> bit_of (free_map c) i = false
}.

Lemma empty_blank cnt c rs : chunk_ok_with cnt c rs -> rs = ∅ -> blank c.
Proof.
  intros Hok ->. split; [apply Hok..|]. intros i Hi.
  destruct (bit_of (free_map c) i) eqn:E; [|done]. apply (co_bits _ _ _ Hok) in E; [|lia].
  destruct E as [->|(s & r & Hs & _)]; [lia | by rewrite lookup_empty in Hs].
Qed.

Record mm_ok_with (cnt : Z -> Z -> Z) st (L : layout) : Prop := {
  ok_ring : cring (nexts st) (prevs st) (main st) (others L);
  ok_cache : llist (nexts st) (cached_chunks (heap st)) (cache L);
  ok_regions : regions_ok (os st) (regions_of (main st) L);
  ok_chunk ch : ch ∈ main st :: others L ->
    exists c rs, chunks st !! ch = Some c /\ c_heap c = h_addr st /\ chunk_runs (runs L) ch rs /\
      chunk_ok_with (cnt ch) c rs;
  ok_runs ch s r : runs L !! (ch, s) = Some r -> ch ∈ main st :: others L;
  ok_cached ch : ch ∈ cache L ++ spare L -> exists c, chunks st !! ch = Some c /\ blank c;
  ok_slot_len : length (free_slot (heap st)) = 30%nat;
  ok_lists b : 0 <= b < 30 -> exists p, aget (free_slot (heap st)) b = Ok p /\ llist (slot_next st) p (slots L b);
  ok_slots b p : p ∈ slots L b -> 0 <= b < 30 /\ is_slot (runs L) b p;
  ok_slots_nodup b : NoDup (slots L b);
  ok_huge_list : llist (node_next st) (huge_list (heap st)) (map node_of (huges L));
  ok_huge h : h ∈ huges L ->
    load64 (mem st) (node_of h) = fst (huge_range h) /\ load64 (mem st) (node_of h + 8) = snd (huge_range h) /\
    is_slot (runs L) 2 (node_of h) /\ node_of h ∉ slots L 2;
  ok_huge_nodup : NoDup (map node_of (huges L))
}.

Definition mm_ok : mm -> layout -> Prop := mm_ok_with (fun _ _ => 0).

(** ** Consequences *)
Section Facts.
Context (cnt : Z -> Z -> Z) (st : mm) (L : layout) (Hok : mm_ok_with cnt st L).

Lemma chunk_region ch : ch ∈ main st :: others L ++ cache L ++ spare L -> region_ok (os st) (ch, ZEND_MM_CHUNK_SIZE).
Proof using Hok.
  intros Hch. destruct (proj1 (ok_regions _ _ _ Hok)) as [Hf _]. rewrite Forall_forall in Hf. apply Hf.
  apply elem_of_app. left. apply list_elem_of_fmap. by exists ch.
Qed.

Lemma ring_region ch : ch ∈ main st :: others L -> region_ok (os st) (ch, ZEND_MM_CHUNK_SIZE).
Proof using Hok.
  intros Hch. apply chunk_region. rewrite elem_of_cons in *. rewrite elem_of_app. tauto.
Qed.

(** A run: its chunk, what the chunk says of it, where it lies. *)
Lemma run_facts ch s r : runs L !! (ch, s) = Some r ->
  ch ∈ main st :: others L /\ 0 < ch /\ ch mod 2 ^ 21 = 0 /\ ch + 2 ^ 21 <= 2 ^ 47 /\
  run_wf r /\ 1 <= s /\ s + run_pages r <= 512 /\ 1 <= run_pages r /\
  exists c rs, chunks st !! ch = Some c /\ c_heap c = h_addr st /\ chunk_runs (runs L) ch rs /\
    chunk_ok_with (cnt ch) c rs /\ rs !! s = Some r.
Proof using Hok.
  intros Hr. pose proof (ok_runs _ _ _ Hok ch s r Hr) as Hin. split; [done|].
  destruct (ring_region ch Hin) as [Hp _ Ha _ He _]. cbn [fst snd] in *.
  change ZEND_MM_CHUNK_SIZE with (2 ^ 21) in He. unfold ADDRESS_SPACE in He.
  destruct (ok_chunk _ _ _ Hok ch Hin) as (c & rs & Hc & Hh & Hrs & Hcok).
  assert (Hr' : rs !! s = Some r) by (by rewrite Hrs).
  destruct (co_wf _ _ _ Hcok s r Hr') as (Hw & Hs1 & Hs2). pose proof (run_pages_pos r Hw).
  split; [done|]. split; [done|]. split; [done|]. split; [done|]. split; [done|]. split; [done|].
  split; [lia|]. by exists c, rs.
Qed.

(** The address range of a run. *)
Definition run_range (ch s : Z) (r : run) : Z * Z := (ch + s * 4096, run_pages r * 4096).

Lemma runs_apart ch s r ch' s' r' :
  runs L !! (ch, s) = Some r -> runs L !! (ch', s') = Some r' -> (ch, s) <> (ch', s') ->
  rdisj (run_range ch s r) (run_range ch' s' r').
Proof using Hok.
  intros Hr Hr' Hne. destruct (run_facts ch s r Hr) as (Hin & Hc & Ha & He & Hw & Hs & Hse & Hp & c & rs & Hcc & _ & Hrs & Hcok & Hl).
  destruct (run_facts ch' s' r' Hr') as (Hin' & Hc' & Ha' & He' & Hw' & Hs' & Hse' & Hp' & _).
  unfold rdisj, run_range; cbn [fst snd]. destruct (Z.eq_dec ch ch') as [->|Hch].
  - assert (s <> s') by congruence. assert (Hl' : rs !! s' = Some r') by (by rewrite Hrs).
    destruct (Z.lt_trichotomy s s') as [Hlt|[?|Hlt]]; [|done|].
    + pose proof (co_disj _ _ _ Hcok s r s' r' Hl Hl' Hlt). lia.
    + pose proof (co_disj _ _ _ Hcok s' r' s r Hl' Hl Hlt). lia.
  - pose proof (Z.div_mod ch (2 ^ 21)). pose proof (Z.div_mod ch' (2 ^ 21)).
    destruct (Z.lt_ge_cases (ch / 2 ^ 21) (ch' / 2 ^ 21)); [left | right]; lia.
Qed.

(** A slot lies inside its run. *)
Lemma slot_inside ch s b i :
  runs L !! (ch, s) = Some (SmallRun b) -> 0 <= i < bin_elements b ->
  ch + s * 4096 <= slot_addr ch s b i /\
  slot_addr ch s b i + bin_data_size b <= ch + (s + bin_pages b) * 4096.
Proof using Hok.
  intros Hr Hi. destruct (run_facts ch s _ Hr) as (_ & _ & _ & _ & Hb & _).
  destruct (bin_facts b Hb) as (Hd & _ & _ & _ & Hfit). unfold slot_addr. nia.
Qed.

(** The run of a range that lies in two runs is the same. *)
Lemma same_run ch s r ch' s' r' p :
  runs L !! (ch, s) = Some r -> runs L !! (ch', s') = Some r' ->
  ch + s * 4096 <= p < ch + (s + run_pages r) * 4096 ->
  ch' + s' * 4096 <= p < ch' + (s' + run_pages r') * 4096 -> ch = ch' /\ s = s' /\ r = r'.
Proof using Hok.
  intros Hr Hr' Hp Hp'. destruct (decide ((ch, s) = (ch', s'))) as [E|E].
  - injection E as -> ->. rewrite Hr in Hr'. by injection Hr' as ->.
  - pose proof (runs_apart _ _ _ _ _ _ Hr Hr' E) as Hd. unfold rdisj, run_range in Hd. cbn [fst snd] in Hd. lia.
Qed.

Lemma slot_unique b p b' p' ch s i ch' s' i' :
  runs L !! (ch, s) = Some (SmallRun b) -> 0 <= i < bin_elements b -> p = slot_addr ch s b i ->
  runs L !! (ch', s') = Some (SmallRun b') -> 0 <= i' < bin_elements b' -> p' = slot_addr ch' s' b' i' ->
  (ch = ch' /\ s = s' /\ b = b' /\ i = i') \/ rdisj (p, bin_data_size b) (p', bin_data_size b').
Proof using Hok.
  intros Hr Hi -> Hr' Hi' ->.
  pose proof (slot_inside ch s b i Hr Hi). pose proof (slot_inside ch' s' b' i' Hr' Hi').
  destruct (decide ((ch, s) = (ch', s'))) as [E|E].
  - injection E as -> ->. rewrite Hr in Hr'. injection Hr' as ->.
    destruct (run_facts _ _ _ Hr) as (_ & _ & _ & _ & Hb & _). destruct (bin_facts _ Hb) as (Hd & _).
    unfold rdisj, slot_addr; cbn [fst snd].
    destruct (Z.lt_trichotomy i i') as [Hlt|[->|Hlt]]; [right; left; nia | by left | right; right; nia].
  - right. pose proof (runs_apart _ _ _ _ _ _ Hr Hr' E) as Hd.
    unfold rdisj, run_range in *. cbn [fst snd run_pages] in *. lia.
Qed.

Lemma is_slot_bin b p : is_slot (runs L) b p -> 0 <= b < 30.
Proof using Hok.
  intros (ch & s & i & Hr & _). by destruct (run_facts _ _ _ Hr) as (_ & _ & _ & _ & Hb & _).
Qed.

Lemma is_slot_inj b b' p : is_slot (runs L) b p -> is_slot (runs L) b' p -> b = b'.
Proof using Hok.
  intros H1 H2. pose proof (is_slot_bin _ _ H1) as Hb. pose proof (is_slot_bin _ _ H2) as Hb'.
  destruct H1 as (ch & s & i & Hr & Hi & Hp), H2 as (ch' & s' & i' & Hr' & Hi' & Hp').
  destruct (slot_unique _ _ _ _ _ _ _ _ _ _ Hr Hi Hp Hr' Hi' Hp') as [(_ & _ & H & _)|Hd]; [done|].
  destruct (bin_facts b Hb) as (? & _), (bin_facts b' Hb') as (? & _).
  unfold rdisj in Hd. cbn [fst snd] in Hd. lia.
Qed.

Lemma slots_apart b p b' p' :
  is_slot (runs L) b p -> is_slot (runs L) b' p' ->
  p = p' \/ rdisj (p, bin_data_size b) (p', bin_data_size b').
Proof using Hok.
  intros (ch & s & i & Hr & Hi & Hp) (ch' & s' & i' & Hr' & Hi' & Hp').
  destruct (slot_unique _ _ _ _ _ _ _ _ _ _ Hr Hi Hp Hr' Hi' Hp') as [(-> & -> & -> & ->)|Hd]; [|by right].
  left. congruence.
Qed.

(** A large block or a slot lies inside a run, a huge block in its own region. *)
Lemma owned_cases p n : owned L p n ->
  (exists ch s r, runs L !! (ch, s) = Some r /\ ch + s * 4096 <= p /\
     p + n <= ch + (s + run_pages r) * 4096 /\ 0 < n) \/
  (exists node, (node, p, n) ∈ huges L).
Proof using Hok.
  intros [ch s k Hr|b q (ch & s & i & Hr & Hi & ->) _|node q k Hin]; [left|left|right; by exists node].
  - exists ch, s, (LargeRun k). destruct (run_facts _ _ _ Hr) as (_ & _ & _ & _ & Hw & _). cbn in Hw.
    split; [done|]. cbn. lia.
  - exists ch, s, (SmallRun b). pose proof (slot_inside _ _ _ _ Hr Hi).
    destruct (bin_facts b) as (? & _); [by destruct (run_facts _ _ _ Hr) as (_ & _ & _ & _ & Hb & _)|].
    split; [done|]. cbn. lia.
Qed.

Lemma huge_region h : h ∈ huges L -> region_ok (os st) (huge_range h).
Proof using Hok.
  intros Hh. destruct (proj1 (ok_regions _ _ _ Hok)) as [Hf _]. rewrite Forall_forall in Hf. apply Hf.
  apply elem_of_app. right. apply elem_of_app. left. apply list_elem_of_fmap. by exists h.
Qed.

Lemma run_huge_apart ch s r h : runs L !! (ch, s) = Some r -> h ∈ huges L ->
  rdisj (run_range ch s r) (huge_range h).
Proof using Hok.
  intros Hr Hh. destruct (run_facts _ _ _ Hr) as (Hin & ? & ? & ? & ? & ? & ? & _).
  destruct (proj1 (ok_regions _ _ _ Hok)) as [_ Hp]. apply pairwise_app in Hp as (_ & _ & Hd).
  specialize (Hd (ch, ZEND_MM_CHUNK_SIZE) (huge_range h)). unfold rdisj, run_range in *. cbn [fst snd] in *.
  change ZEND_MM_CHUNK_SIZE with (2 ^ 21) in Hd. destruct Hd; [| |lia|lia].
  - apply list_elem_of_fmap. exists ch. split; [done|]. rewrite elem_of_cons in *. rewrite elem_of_app. tauto.
  - apply elem_of_app. left. apply list_elem_of_fmap. by exists h.
Qed.

Lemma owned_range p n : owned L p n -> 0 < p /\ 0 < n /\ p + n <= 2 ^ 47.
Proof using Hok.
  intros Ho. destruct (owned_cases p n Ho) as [(ch & s & r & Hr & ? & ? & ?)|(node & Hin)].
  - destruct (run_facts _ _ _ Hr) as (_ & ? & _ & ? & _ & ? & ? & _). lia.
  - destruct (huge_region _ Hin) as [? ? _ _ He _]. cbn in *. unfold ADDRESS_SPACE in He. lia.
Qed.

(** Ranges that are handed out do not overlap. *)
Lemma owned_apart p n q m : owned L p n -> owned L q m -> (p = q /\ n = m) \/ rdisj (p, n) (q, m).
Proof using Hok.
  intros Hp Hq.
  assert (Hcross : forall p n node q m, owned L p n -> (exists ch s r, runs L !! (ch, s) = Some r /\
    ch + s * 4096 <= p /\ p + n <= ch + (s + run_pages r) * 4096 /\ 0 < n) ->
    (node, q, m) ∈ huges L -> rdisj (p, n) (q, m)).
  { intros p' n' node q' m' _ (ch & s & r & Hr & ? & ? & ?) Hin.
    pose proof (run_huge_apart _ _ _ _ Hr Hin) as Hd. unfold rdisj, run_range, huge_range in *. cbn [fst snd] in *. lia. }
  destruct (owned_cases p n Hp) as [Hin|(node & Hin)], (owned_cases q m Hq) as [Hin'|(node' & Hin')].
  - destruct Hp as [ch s k Hr|b p Hs Hf|node p n Hh], Hq as [ch' s' k' Hr'|b' q Hs' Hf'|node' q m Hh'].
    + destruct (decide ((ch, s) = (ch', s'))) as [E|E].
      * injection E as -> ->. rewrite Hr in Hr'. injection Hr' as ->. by left.
      * right. pose proof (runs_apart _ _ _ _ _ _ Hr Hr' E) as Hd.
        unfold rdisj, run_range in *. cbn [fst snd run_pages] in *. lia.
    + right. destruct Hs' as (ch' & s' & i & Hr' & Hi & ->). pose proof (slot_inside _ _ _ _ Hr' Hi).
      assert (E : (ch, s) <> (ch', s')) by congruence.
      pose proof (runs_apart _ _ _ _ _ _ Hr Hr' E) as Hd.
      unfold rdisj, run_range in *. cbn [fst snd run_pages] in *. lia.
    + right. by apply (Hcross _ _ node'); [constructor|..].
    + right. destruct Hs as (ch & s & i & Hr & Hi & ->). pose proof (slot_inside _ _ _ _ Hr Hi).
      assert (E : (ch, s) <> (ch', s')) by congruence.
      pose proof (runs_apart _ _ _ _ _ _ Hr Hr' E) as Hd.
      unfold rdisj, run_range in *. cbn [fst snd run_pages] in *. lia.
    + destruct (slots_apart _ _ _ _ Hs Hs') as [->|Hd]; [left | by right].
      split; [done|]. by rewrite (is_slot_inj _ _ _ Hs Hs').
    + right. by apply (Hcross _ _ node'); [econstructor|..].
    + right. apply rdisj_sym. by apply (Hcross _ _ node); [constructor|..].
    + right. apply rdisj_sym. by apply (Hcross _ _ node); [econstructor|..].
    + destruct Hin as (ch & s & r & Hr & ? & ? & ?).
      pose proof (run_huge_apart _ _ _ _ Hr Hh) as Hd. unfold rdisj, run_range, huge_range in Hd. cbn [fst snd] in Hd. lia.
  - right. by apply (Hcross _ _ node').
  - right. apply rdisj_sym. by apply (Hcross _ _ node).
  - destruct (proj1 (ok_regions _ _ _ Hok)) as [_ Hw]. apply pairwise_app in Hw as (_ & Hw & _). apply pairwise_app in Hw as (Hw & _ & _).
    destruct (pairwise_in _ (p, n) (q, m) Hw) as [E|Hd].
    + apply list_elem_of_fmap. by exists (node, p, n).
    + apply list_elem_of_fmap. by exists (node', q, m).
    + left. by injection E as -> ->.
    + by right.
Qed.
End Facts.
End Invariant.
