(* ===== verification/MmFrame.v ===== *)
(** * What parts of the state the invariant of the memory manager reads

    Lemmas that carry [mm_ok_with] over a change of one part of the state:
    the statistics, the bytes of blocks, the links of the chunks, the header
    of one chunk. *)
From S2P Require Export MmInv.

Section Frame.
Context {Sys : OS} {Laws : OSLaws} {Rest : Foreign}.
Implicit Types (st : mm).

(** ** Statistics and bytes *)

(** The fields of the heap that lead to its structures. *)
Definition same_lists (h h' : zend_mm_heap) : Prop :=
  main_chunk h' = main_chunk h /\ cached_chunks h' = cached_chunks h /\
  free_slot h' = free_slot h /\ huge_list h' = huge_list h.

(** The bytes that the manager itself uses: the links of the free slots and
    the nodes of the huge list. *)
Definition same_links_mem (L : layout) (m m' : gmap Z Z) : Prop :=
  (forall b p, p ∈ slots L b -> load64 m' p = load64 m p) /\
  (forall h i, h ∈ huges L -> i ∈ [0; 8; 16] -> load64 m' (node_of h + i) = load64 m (node_of h + i)).

Lemma ok_ext cnt st st' L :
  mm_ok_with cnt st L -> h_addr st' = h_addr st -> chunks st' = chunks st -> os st' = os st ->
  same_lists (heap st) (heap st') -> same_links_mem L (mem st) (mem st') -> mm_ok_with cnt st' L.
Proof.
  intros [Hr Hc Hrg Hch Hru Hca Hsl Hls Hss Hsn Hhl Hh Hhn] Ha Hcs Hos (Hm & Hcc & Hf & Hhu) [Hs Hn].
  assert (Hnx : nexts st' = nexts st) by (unfold nexts; by rewrite Hcs).
  assert (Hpv : prevs st' = prevs st) by (unfold prevs; by rewrite Hcs).
  assert (Hmain : main st' = main st) by done.
  split; rewrite ?Hnx, ?Hpv, ?Hmain, ?Hcc, ?Hos, ?Hcs, ?Ha, ?Hf, ?Hhu; try done.
  - intros b Hb. destruct (Hls b Hb) as (p & Hp & Hl). exists p. split; [done|].
    apply (llist_frame _ _ _ _ Hl). intros x Hx. unfold slot_next. by rewrite (Hs b x).
  - apply (llist_frame _ _ _ _ Hhl). intros x Hx. apply list_elem_of_fmap in Hx as (h & -> & Hin).
    unfold node_next. rewrite Hn; [done..|]. right. right. left.
  - intros h Hin. destruct (Hh h Hin) as (H1 & H2 & H3). split; [|split; [|done]].
    + rewrite <- (Z.add_0_r (node_of h)), Hn, Z.add_0_r; [done..|]. left.
    + rewrite Hn; [done..|]. right. left.
Qed.

Lemma same_links_mem_refl L m : same_links_mem L m m.
Proof. done. Qed.

Lemma ok_upd_heap cnt st f L :
  mm_ok_with cnt st L -> same_lists (heap st) (f (heap st)) -> mm_ok_with cnt (upd_heap st f) L.
Proof. intros Hok Hs. by apply (ok_ext cnt st). Qed.

(** ** Links of chunks *)
Definition unlinked (c : zend_mm_chunk) : zend_mm_chunk := set_c_next (set_c_prev c 0) 0.

Record links_only st st' : Prop := {
  lo_addr : h_addr st' = h_addr st;
  lo_heap : heap st' = heap st;
  lo_mem : mem st' = mem st;
  lo_os : os st' = os st;
  lo_chunks p : unlinked <$> chunks st' !! p = unlinked <$> chunks st !! p
}.

Lemma links_only_refl st : links_only st st.
Proof. by split. Qed.

Lemma links_only_trans st1 st2 st3 : links_only st1 st2 -> links_only st2 st3 -> links_only st1 st3.
Proof. intros [] []. split; congruence. Qed.

Lemma links_only_chunk st st' p c :
  links_only st st' -> chunks st !! p = Some c -> exists c', chunks st' !! p = Some c' /\ unlinked c' = unlinked c.
Proof.
  intros Hl Hc. pose proof (lo_chunks _ _ Hl p) as H. rewrite Hc in H.
  destruct (chunks st' !! p) as [c'|]; simpl in H; [|done]. exists c'. split; [done|].
  by apply (inj Some) in H.
Qed.

Lemma unlinked_ok cnt c c' rs : unlinked c' = unlinked c -> chunk_ok_with cnt c rs -> chunk_ok_with cnt c' rs.
Proof.
  intros E Hok. injection E as E1 E2 E3 E4 E5 E6. destruct Hok. split; rewrite ?E2, ?E3, ?E5, ?E6; done.
Qed.

Lemma unlinked_heap c c' : unlinked c' = unlinked c -> c_heap c' = c_heap c.
Proof. by intros [=]. Qed.

Lemma get_chunk_ok st p c : chunks st !! p = Some c -> get_chunk st p = Ok c.
Proof. unfold get_chunk. by intros ->. Qed.

Lemma put_chunk_lookup st p c q :
  chunks (put_chunk st p c) !! q = if decide (q = p) then Some c else chunks st !! q.
Proof.
  cbn. destruct (decide (q = p)) as [->|]; [by rewrite lookup_insert_eq | by rewrite lookup_insert_ne].
Qed.

Lemma put_links_only st p c c' :
  chunks st !! p = Some c -> unlinked c' = unlinked c -> links_only st (put_chunk st p c').
Proof.
  intros Hc Hu. split; try done. intros q. rewrite put_chunk_lookup.
  destruct (decide (q = p)) as [->|]; [|done]. rewrite Hc. simpl. by rewrite Hu.
Qed.

Lemma nexts_put st p c q : nexts (put_chunk st p c) q = if decide (q = p) then Some (c_next c) else nexts st q.
Proof. unfold nexts. rewrite put_chunk_lookup. by destruct (decide (q = p)). Qed.

Lemma prevs_put st p c q : prevs (put_chunk st p c) q = if decide (q = p) then Some (c_prev c) else prevs st q.
Proof. unfold prevs. rewrite put_chunk_lookup. by destruct (decide (q = p)). Qed.

(** [p->next = v] and [p->prev = v] *)
Lemma upd_next_ok st p v : is_Some (chunks st !! p) ->
  exists st', upd_chunk st p (fun c => set_c_next c v) = Ok st' /\ links_only st st' /\
    (forall q, nexts st' q = if decide (q = p) then Some v else nexts st q) /\
    (forall q, prevs st' q = prevs st q).
Proof.
  intros [c Hc]. eexists. unfold upd_chunk. rewrite (get_chunk_ok _ _ _ Hc). rsimp. split; [done|].
  split; [by apply (put_links_only _ _ c)|]. split; [intros q; apply nexts_put|].
  intros q. rewrite prevs_put. destruct (decide (q = p)) as [->|]; [|done]. unfold prevs. by rewrite Hc.
Qed.

Lemma upd_prev_ok st p v : is_Some (chunks st !! p) ->
  exists st', upd_chunk st p (fun c => set_c_prev c v) = Ok st' /\ links_only st st' /\
    (forall q, prevs st' q = if decide (q = p) then Some v else prevs st q) /\
    (forall q, nexts st' q = nexts st q).
Proof.
  intros [c Hc]. eexists. unfold upd_chunk. rewrite (get_chunk_ok _ _ _ Hc). rsimp. split; [done|].
  split; [by apply (put_links_only _ _ c)|]. split; [intros q; apply prevs_put|].
  intros q. rewrite nexts_put. destruct (decide (q = p)) as [->|]; [|done]. unfold nexts. by rewrite Hc.
Qed.

Lemma links_only_some st st' p : links_only st st' -> is_Some (chunks st !! p) -> is_Some (chunks st' !! p).
Proof. intros Hl [c Hc]. destruct (links_only_chunk _ _ _ _ Hl Hc) as (c' & ? & _). by exists c'. Qed.

Lemma get_next st p n : nexts st p = Some n -> exists c, get_chunk st p = Ok c /\ chunks st !! p = Some c /\ c_next c = n.
Proof.
  unfold nexts. destruct (chunks st !! p) as [c|] eqn:E; [|done]. intros [= <-]. exists c.
  split; [by apply get_chunk_ok | done].
Qed.

Lemma get_prev st p n : prevs st p = Some n -> exists c, get_chunk st p = Ok c /\ chunks st !! p = Some c /\ c_prev c = n.
Proof.
  unfold prevs. destruct (chunks st !! p) as [c|] eqn:E; [|done]. intros [= <-]. exists c.
  split; [by apply get_chunk_ok | done].
Qed.

(** ** Layouts *)
Definition with_chunks (L : layout) (o k d : list Z) : layout := Layout o k d (runs L) (slots L) (huges L) (held L).
Definition with_runs (L : layout) (R : gmap (Z * Z) run) : layout := Layout (others L) (cache L) (spare L) R (slots L) (huges L) (held L).
Definition with_slots (L : layout) (S : Z -> list Z) : layout := Layout (others L) (cache L) (spare L) (runs L) S (huges L) (held L).
Definition with_huges (L : layout) (h : list (Z * Z * Z)) (k : list (Z * Z)) : layout :=
  Layout (others L) (cache L) (spare L) (runs L) (slots L) h k.

(** The chunks of the ring and the cached ones are different. *)
Lemma pairwise_nodup l : pairwise (map (fun ch => (ch, ZEND_MM_CHUNK_SIZE)) l) -> NoDup l.
Proof.
  induction l as [|x l IH]; [constructor|].
  cbn [map pairwise]. intros [Hf Hw]. constructor; [|by apply IH]. intros Hin. rewrite Forall_forall in Hf.
  specialize (Hf (x, ZEND_MM_CHUNK_SIZE)). unfold rdisj in Hf. cbn [fst snd] in Hf.
  destruct Hf; [apply list_elem_of_fmap; by exists x | unfold ZEND_MM_CHUNK_SIZE in *; lia..].
Qed.

Lemma chunks_nodup cnt st L : mm_ok_with cnt st L -> NoDup (main st :: others L ++ cache L ++ spare L).
Proof.
  intros Hok. destruct (proj1 (ok_regions _ _ _ Hok)) as [_ Hp]. apply pairwise_app in Hp as (Hp & _ & _).
  by apply pairwise_nodup.
Qed.

(** Different keys of a map are no more than its size. *)
Lemma keys_size {A} (m : gmap Z A) l : NoDup l -> (forall x, x ∈ l -> is_Some (m !! x)) -> (length l <= size m)%nat.
Proof.
  intros Hn Hl. rewrite <- size_dom, <- (size_list_to_set (C := gset Z) l) by done.
  apply subseteq_size. intros x Hx. apply elem_of_list_to_set in Hx. by apply elem_of_dom, Hl.
Qed.

Lemma ring_not_cached cnt st L x : mm_ok_with cnt st L -> x ∈ main st :: others L -> x ∉ cache L ++ spare L.
Proof.
  intros Hok Hx Hc. pose proof (chunks_nodup _ _ _ Hok) as Hn. rewrite app_comm_cons in Hn.
  apply NoDup_app in Hn as (_ & Hd & _). by apply (Hd x).
Qed.

Lemma regions_perm m L o k d :
  o ++ k ++ d ≡ₚ others L ++ cache L ++ spare L ->
  regions_of m (with_chunks L o k d) ≡ₚ regions_of m L.
Proof. intros Hp. unfold regions_of. by rewrite Hp. Qed.

Lemma regions_ok_perm o l l' : l ≡ₚ l' -> regions_ok o l -> regions_ok o l'.
Proof.
  intros Hp [[H1 H2] H3]. split; [split; [by rewrite <- Hp | by eapply pairwise_perm]|].
  intros a. assert (E : covers l' a <-> covers l a) by (unfold covers; by setoid_rewrite Hp). rewrite E. apply H3.
Qed.

(** What an operation on chunks leaves alone. *)
Record keeps st st' : Prop := {
  kp_addr : h_addr st' = h_addr st;
  kp_mem : mem st' = mem st;
  kp_main : main_chunk (heap st') = main_chunk (heap st);
  kp_slots : free_slot (heap st') = free_slot (heap st);
  kp_huge : huge_list (heap st') = huge_list (heap st)
}.

Lemma keeps_refl st : keeps st st.
Proof. by split. Qed.

Lemma keeps_trans st1 st2 st3 : keeps st1 st2 -> keeps st2 st3 -> keeps st1 st3.
Proof. intros [] []. split; congruence. Qed.

Lemma links_keeps st st' : links_only st st' -> keeps st st'.
Proof. intros []. split; congruence. Qed.

Lemma unlinked_blank c c' : unlinked c' = unlinked c -> blank c -> blank c'.
Proof. intros E [? ? ? ?]. injection E as E1 E2 E3 E4 E5 E6. split; rewrite ?E5, ?E6; done. Qed.

Lemma chunk_runs_empty R ch rs : chunk_runs R ch rs -> (forall s, R !! (ch, s) = None) -> rs = ∅.
Proof. intros Hrs Hn. apply map_eq. intros s. by rewrite Hrs, Hn, lookup_empty. Qed.

(** Chunks change places between the ring, the cache and the moving ones;
    those that leave the ring have no runs. *)
Lemma ok_move cnt st st' L o k d :
  mm_ok_with cnt st L -> keeps st st' -> os st' = os st ->
  (forall p, unlinked <$> chunks st' !! p = unlinked <$> chunks st !! p) ->
  o ++ k ++ d ≡ₚ others L ++ cache L ++ spare L ->
  (forall ch, ch ∈ o -> ch ∈ others L) ->
  (forall ch, ch ∈ others L -> ch ∉ o -> forall s, runs L !! (ch, s) = None) ->
  cring (nexts st') (prevs st') (main st) o -> llist (nexts st') (cached_chunks (heap st')) k ->
  mm_ok_with cnt st' (with_chunks L o k d).
Proof.
  intros Hok [Ha Hm Hmain Hfs Hhu] Ho Hu Hp Hsub Hgone Hr Hl.
  pose proof Hok as [_ _ Hrg Hch Hru Hcc Hsl Hls Hss Hsn Hhl Hh Hhn].
  assert (Hmn : main st' = main st) by done.
  assert (Hlook : forall p c, chunks st !! p = Some c -> exists c', chunks st' !! p = Some c' /\ unlinked c' = unlinked c).
  { intros p c Hc. specialize (Hu p). rewrite Hc in Hu. destruct (chunks st' !! p) as [c'|]; simpl in Hu; [|done].
    exists c'. split; [done|]. by apply (inj Some) in Hu. }
  split; rewrite ?Hmn, ?Ho, ?Hfs, ?Hhu; cbn [others cache spare runs slots huges with_chunks]; try done.
  - eapply regions_ok_perm; [|exact Hrg]. symmetry. by apply regions_perm.
  - intros ch Hc. destruct (Hch ch) as (c & rs & Hc1 & Hc2 & Hc3 & Hc4).
    { rewrite elem_of_cons in *. destruct Hc as [->|Hc]; [by left | right; by apply Hsub]. }
    destruct (Hlook _ _ Hc1) as (c' & Hc' & Hu'). exists c', rs. split; [done|].
    split; [rewrite (unlinked_heap _ _ Hu'); congruence|]. split; [done|]. by apply (unlinked_ok _ c).
  - intros ch s r Hr'. pose proof (Hru ch s r Hr') as Hin. rewrite elem_of_cons in *.
    destruct Hin as [->|Hin]; [by left|]. right. destruct (decide (ch ∈ o)) as [|Hn]; [done|].
    by rewrite (Hgone ch Hin Hn) in Hr'.
  - intros ch Hc.
    assert (Hblank : exists c, chunks st !! ch = Some c /\ blank c).
    { assert (Hin : ch ∈ others L ++ cache L ++ spare L) by (rewrite <- Hp; apply elem_of_app; by right).
      apply elem_of_app in Hin as [Hin|Hin]; [|by apply Hcc].
      destruct (Hch ch) as (c & rs & Hc1 & _ & Hc3 & Hc4); [by right|]. exists c. split; [done|].
      apply (empty_blank _ _ _ Hc4), (chunk_runs_empty _ _ _ Hc3), Hgone; [done|]. intros Hco.
      pose proof (chunks_nodup _ _ _ Hok) as Hn. rewrite <- Hp, NoDup_cons in Hn. destruct Hn as [_ Hn].
      apply NoDup_app in Hn as (_ & Hd & _). by apply (Hd ch Hco). }
    destruct Hblank as (c & Hc1 & Hc2). destruct (Hlook _ _ Hc1) as (c' & Hc' & Hu').
    exists c'. split; [done|]. by apply (unlinked_blank c).
  - intros b Hb. destruct (Hls b Hb) as (p & Hp1 & Hp2). exists p. split; [done|].
    apply (llist_frame _ _ _ _ Hp2). intros x Hx. unfold slot_next. by rewrite Hm.
  - apply (llist_frame _ _ _ _ Hhl). intros x Hx. unfold node_next. by rewrite Hm.
  - intros h Hh'. rewrite Hm. by apply Hh.
Qed.

(** Changing the links of the ring only. *)
Lemma ok_relink cnt st st' L o :
  mm_ok_with cnt st L -> links_only st st' -> o ≡ₚ others L ->
  cring (nexts st') (prevs st') (main st) o -> (forall p, p ∈ cache L -> nexts st' p = nexts st p) ->
  mm_ok_with cnt st' (with_chunks L o (cache L) (spare L)).
Proof.
  intros Hok Hl Hp Hr Hc. apply (ok_move cnt st); try done; [by apply links_keeps | apply Hl | apply Hl | | | | ].
  - by rewrite Hp.
  - intros ch. by rewrite Hp.
  - intros ch H1 H2. by rewrite Hp in H2.
  - rewrite (lo_heap _ _ Hl). by apply (llist_frame (nexts st)); [apply Hok|].
Qed.

(** Rewriting the header of a ring chunk, with the runs in it. *)
Lemma ok_put_chunk cnt cnt' st L ch c c' R rs :
  mm_ok_with cnt st L -> ch ∈ main st :: others L -> chunks st !! ch = Some c -> same_links c c' ->
  (forall ch' s, ch' <> ch -> R !! (ch', s) = runs L !! (ch', s)) ->
  (forall ch' s, ch' <> ch -> cnt' ch' s = cnt ch' s) ->
  chunk_runs R ch rs -> chunk_ok_with (cnt' ch) c' rs ->
  (forall b p, p ∈ slots L b -> is_slot R b p) ->
  (forall h, h ∈ huges L -> is_slot R 2 (node_of h)) ->
  mm_ok_with cnt' (put_chunk st ch c') (with_runs L R).
Proof.
  intros Hok Hch Hc (Hsh & Hsn & Hsp & _) HR Hcnt Hrs Hcok Hslot Hnode.
  pose proof Hok as [Hri Hca Hrg Hchk Hru Hcc Hsl Hls Hss Hsd Hhl Hh Hhn].
  assert (Hnx : forall q, nexts (put_chunk st ch c') q = nexts st q).
  { intros q. rewrite nexts_put. destruct (decide (q = ch)) as [->|]; [|done].
    unfold nexts. by rewrite Hc, Hsn. }
  assert (Hpv : forall q, prevs (put_chunk st ch c') q = prevs st q).
  { intros q. rewrite prevs_put. destruct (decide (q = ch)) as [->|]; [|done].
    unfold prevs. by rewrite Hc, Hsp. }
  split; cbn [others cache spare runs slots huges with_runs]; try done.
  - destruct Hri as [Hri Hnd]. split; [|done]. by apply (chain_frame (nexts st) (prevs st)).
  - by apply (llist_frame (nexts st)).
  - intros q Hq. rewrite put_chunk_lookup. destruct (decide (q = ch)) as [->|Hne].
    + exists c', rs. split; [done|]. split; [|done]. rewrite Hsh.
      change (h_addr (put_chunk st ch c')) with (h_addr st).
      destruct (Hchk ch Hch) as (c0 & _ & Hc0 & Hh0 & _). congruence.
    + destruct (Hchk q Hq) as (c0 & rs0 & Hc0 & Hh0 & Hr0 & Hk0). exists c0, rs0.
      split; [done|]. split; [done|]. split; [intros s; by rewrite HR|].
      destruct Hk0 as [A1 A2 A3 A4 A5 A6 A7 A8 A9 A10]. split; try done. intros s r Hr. rewrite Hcnt by done. by apply A6.
  - intros q s r Hr. destruct (decide (q = ch)) as [->|Hne]; [done|]. rewrite HR in Hr by done. by eapply Hru.
  - intros q Hq. rewrite put_chunk_lookup. destruct (decide (q = ch)) as [->|Hne]; [|by apply Hcc].
    exfalso. by apply (ring_not_cached _ _ _ ch Hok).
  - intros b p Hp. split; [by eapply Hss | by apply Hslot].
  - intros h Hin. destruct (Hh h Hin) as (H1 & H2 & H3 & H4). split; [done|]. split; [done|]. split; [by apply Hnode | done].
Qed.
End Frame.
