(* ===== verification/MmLinks.v ===== *)
(** * Chunks entering and leaving the ring

    [zend_mm_delete_chunk], [zend_mm_chunk_init] and the move to the front of
    the ring keep the invariant; a chunk that is deleted is cached or given
    back to the system. *)
From S2P Require Export MmFrame.

Section Links.
Context {Sys : OS} {Laws : OSLaws} {Rest : Foreign}.
Implicit Types (st : mm).

(** ** Unlinking *)
Lemma ring_chunk cnt st L x : mm_ok_with cnt st L -> x ∈ main st :: others L -> is_Some (chunks st !! x).
Proof. intros Hok Hx. destruct (ok_chunk _ _ _ Hok x Hx) as (c & _ & Hc & _). by exists c. Qed.

(** [x] leaves the ring: its neighbours [a] and [b] are linked. *)
Lemma unlink_chunk_ok cnt st L x :
  mm_ok_with cnt st L -> x ∈ others L ->
  exists st' pre post a, unlink_chunk st x = Ok st' /\ links_only st st' /\ others L = pre ++ x :: post /\
    cring (nexts st') (prevs st') (main st) (pre ++ post) /\
    a ∈ main st :: others L /\ a <> x /\ (forall p, p <> a -> nexts st' p = nexts st p).
Proof.
  intros Hok Hx. pose proof (ok_ring _ _ _ Hok) as Hr.
  destruct (cring_neighbours _ _ _ _ _ Hr Hx) as (a & b & Hb & Ha & Hia & Hib & Hax & Hbx).
  destruct (get_next _ _ _ Hb) as (c & Hg & Hc & Hcn).
  assert (Hcp : c_prev c = a) by (unfold prevs in Ha; rewrite Hc in Ha; by injection Ha).
  unfold unlink_chunk. rewrite Hg. rsimp. rewrite Hcn, Hcp.
  destruct (upd_prev_ok st b a (ring_chunk _ _ _ _ Hok Hib)) as (st1 & -> & Hl1 & Hp1 & Hn1). rsimp.
  assert (Hb1 : nexts st1 x = Some b) by (by rewrite Hn1).
  assert (Ha1 : prevs st1 x = Some a) by (rewrite Hp1; by destruct (decide (x = b))).
  destruct (get_next _ _ _ Hb1) as (c1 & Hg1 & Hc1 & Hcn1).
  assert (Hcp1 : c_prev c1 = a) by (unfold prevs in Ha1; rewrite Hc1 in Ha1; by injection Ha1).
  rewrite Hg1. rsimp. rewrite Hcn1, Hcp1.
  destruct (upd_next_ok st1 a b) as (st2 & -> & Hl2 & Hn2 & Hp2).
  { by apply (links_only_some st), (ring_chunk _ _ _ _ Hok). }
  destruct (cring_unlink (nexts st) (prevs st) (nexts st2) (prevs st2) (main st) (others L) x a b)
    as (pre & post & Hsplit & Hring); try done.
  - rewrite Hn2. by destruct (decide (a = a)).
  - rewrite Hp2, Hp1. by destruct (decide (b = b)).
  - intros p Hp. rewrite Hn2, Hn1. by destruct (decide (p = a)).
  - intros p Hp. rewrite Hp2, Hp1. by destruct (decide (p = b)).
  - exists st2, pre, post, a. split; [done|]. split; [by eapply links_only_trans|].
    split; [done|]. split; [done|]. split; [done|]. split; [done|].
    intros p Hp. rewrite Hn2, Hn1. by destruct (decide (p = a)).
Qed.

(** ** Giving a chunk back to the system *)
Lemma spare_region cnt st L x : mm_ok_with cnt st L -> x ∈ cache L ++ spare L ->
  region_ok (os st) (x, ZEND_MM_CHUNK_SIZE).
Proof. intros Hok Hx. apply (chunk_region cnt st L Hok). right. apply elem_of_app. by right. Qed.

(** Unmapping a range that is disjoint from the regions of [l]. *)
Lemma regions_unmap o l r :
  regions_ok o (r :: l) -> regions_ok (zend_mm_munmap o (fst r) (snd r)) l.
Proof.
  intros [[Hf [Hd Hp]] He]. split; [split; [|done]|].
  2:{ intros a. destruct (He a) as [H1 H2]. rewrite covers_cons in H1, H2. pose proof (covers_apart r l a Hd) as H3.
      unfold zend_mm_munmap. rewrite munmap_range. tauto. }
  apply Forall_cons in Hf as [_ Hf].
  rewrite Forall_forall in *. intros q Hq. destruct (Hf q Hq) as [A B C D E Hm]. split; try done.
  intros a Ha. apply munmap_range. split; [by apply Hm|]. specialize (Hd q Hq). unfold rdisj in Hd. lia.
Qed.

Lemma ok_free_spare cnt st L x d :
  mm_ok_with cnt st L -> spare L = x :: d ->
  mm_ok_with cnt (zend_mm_chunk_free st x ZEND_MM_CHUNK_SIZE) (with_chunks L (others L) (cache L) d).
Proof.
  intros Hok Hd. pose proof Hok as [Hr Hca Hrg Hch Hru Hcc Hsl Hls Hss Hsn Hhl Hh Hhn].
  pose proof (chunks_nodup _ _ _ Hok) as Hnd. rewrite Hd in *.
  assert (Hp : main st :: others L ++ cache L ++ x :: d ≡ₚ x :: main st :: others L ++ cache L ++ d) by solve_Permutation.
  assert (Hx : x ∉ main st :: others L ++ cache L ++ d).
  { rewrite Hp, NoDup_cons in Hnd. tauto. }
  assert (Hkeep : forall p, p ∈ main st :: others L ++ cache L ++ d ->
    chunks (zend_mm_chunk_free st x ZEND_MM_CHUNK_SIZE) !! p = chunks st !! p).
  { intros p Hin. cbn. apply lookup_delete_ne. by intros ->. }
  assert (Hin1 : forall p, p ∈ main st :: others L -> p ∈ main st :: others L ++ cache L ++ d)
    by (intros p; rewrite !elem_of_cons, !elem_of_app; tauto).
  split; cbn [others cache spare runs slots huges with_chunks]; try done.
  - destruct Hr as [Hr Hn]. split; [|done]. apply (chain_frame (nexts st) (prevs st)); [done| |].
    + intros p Hin. rewrite app_comm_cons, removelast_snoc in Hin. unfold nexts. by rewrite Hkeep by auto.
    + intros p Hin. unfold prevs. rewrite Hkeep; [done|]. apply Hin1. simpl in Hin.
      rewrite elem_of_app, list_elem_of_singleton in Hin. rewrite elem_of_cons. tauto.
  - apply (llist_frame _ _ _ _ Hca). intros p Hin. unfold nexts. rewrite Hkeep; [done|].
    rewrite elem_of_cons, !elem_of_app. tauto.
  - apply (regions_unmap (os st) _ (x, ZEND_MM_CHUNK_SIZE)). eapply regions_ok_perm; [|exact Hrg].
    unfold regions_of. rewrite Hd. cbn [others cache spare huges with_chunks].
    by rewrite Hp.
  - intros ch Hc. rewrite Hkeep by auto. by apply Hch.
  - intros ch Hc. rewrite Hkeep; [|rewrite elem_of_cons, elem_of_app; by right; right].
    apply Hcc. rewrite elem_of_app, elem_of_cons in *. tauto.
Qed.

(** ** Deleting a chunk *)
Lemma keeps_heap st f :
  main_chunk (f (heap st)) = main_chunk (heap st) -> free_slot (f (heap st)) = free_slot (heap st) ->
  huge_list (f (heap st)) = huge_list (heap st) -> keeps st (upd_heap st f).
Proof. by split. Qed.

(** Links of chunks outside the ring do not matter for the ring. *)
Lemma cring_frame nx pv nx' pv' (h : Z) xs :
  cring nx pv h xs -> (forall p, p ∈ h :: xs -> nx' p = nx p) -> (forall p, p ∈ h :: xs -> pv' p = pv p) ->
  cring nx' pv' h xs.
Proof.
  intros [Hc Hn] Hnx Hpv. split; [|done]. apply (chain_frame nx pv); [done| |].
  - intros p Hp. rewrite app_comm_cons, removelast_snoc in Hp. by apply Hnx.
  - intros p Hp. simpl in Hp. apply Hpv. rewrite elem_of_app, list_elem_of_singleton in Hp.
    rewrite elem_of_cons. tauto.
Qed.

Lemma count_deletion_lists h : same_lists h (count_deletion h).
Proof. unfold count_deletion. by destruct (negb _). Qed.

(** A moving chunk becomes the head of the cache. *)
Lemma ok_to_cache cnt st L x k d v f :
  mm_ok_with cnt st L -> x ∈ spare L -> x :: k ++ d ≡ₚ cache L ++ spare L ->
  llist (nexts st) v k ->
  main_chunk (f (heap st)) = main_chunk (heap st) -> free_slot (f (heap st)) = free_slot (heap st) ->
  huge_list (f (heap st)) = huge_list (heap st) -> cached_chunks (f (heap st)) = x ->
  exists st', upd_chunk st x (fun c => set_c_next c v) = Ok st' /\
    mm_ok_with cnt (upd_heap st' f) (with_chunks L (others L) (x :: k) d) /\ keeps st (upd_heap st' f).
Proof.
  intros Hok Hx Hp Hl H1 H2 H3 H4.
  destruct (ok_cached _ _ _ Hok x) as (c & Hc & _); [apply elem_of_app; by right|].
  destruct (upd_next_ok st x v) as (st' & Hu & Hlo & Hn & Hpv); [by exists c|].
  exists st'. split; [done|].
  assert (Hk : keeps st (upd_heap st' f)).
  { destruct Hlo as [Ha Hh Hm Ho _]. by split; cbn; rewrite ?Hh. }
  split; [|done]. pose proof (chunks_nodup _ _ _ Hok) as Hnd.
  apply (ok_move cnt st); try done.
  - apply Hlo.
  - apply Hlo.
  - by rewrite <- Hp.
  - apply (cring_frame _ _ _ _ _ _ (ok_ring _ _ _ Hok)); intros p Hin; [|apply Hpv].
    change (nexts (upd_heap st' f) p) with (nexts st' p). rewrite Hn.
    destruct (decide (p = x)) as [->|]; [|done]. exfalso. rewrite app_comm_cons in Hnd.
    apply NoDup_app in Hnd as (_ & Hd & _). apply (Hd x Hin). apply elem_of_app. by right.
  - cbn [llist]. split; [cbn; rewrite (lo_heap _ _ Hlo); done|]. split.
    { destruct (spare_region _ _ _ x Hok) as [Hpos _ _ _ _ _]; [apply elem_of_app; by right|]. simpl in Hpos. lia. }
    exists v. split; [change (nexts (upd_heap st' f) x) with (nexts st' x); rewrite Hn; by destruct (decide (x = x))|].
    apply (llist_frame _ _ _ _ Hl). intros p Hin.
    change (nexts (upd_heap st' f) p) with (nexts st' p). rewrite Hn.
    destruct (decide (p = x)) as [->|]; [|done]. exfalso.
    apply NoDup_cons in Hnd as [_ Hnd]. apply NoDup_app in Hnd as (_ & _ & Hnd). rewrite <- Hp in Hnd.
    apply NoDup_cons in Hnd as [Hnd _]. apply Hnd. apply elem_of_app. by left.
Qed.

(** [delay_deletion] and the other statistics only decide where the chunk goes. *)
Lemma delete_chunk_ok cnt st L x :
  mm_ok_with cnt st L -> x ∈ others L -> (forall s, runs L !! (x, s) = None) ->
  exists st' pre post k, zend_mm_delete_chunk st x = Ok st' /\ others L = pre ++ x :: post /\
    mm_ok_with cnt st' (with_chunks L (pre ++ post) k (spare L)) /\ keeps st st'.
Proof.
  intros Hok Hx Hno.
  destruct (unlink_chunk_ok cnt st L x Hok Hx) as (st1 & pre & post & a & Hu & Hl & Hsplit & Hring & Hia & Hax & Hnx).
  unfold zend_mm_delete_chunk. rewrite Hu. rsimp.
  set (L1 := with_chunks L (pre ++ post) (cache L) (x :: spare L)).
  assert (Hok1 : mm_ok_with cnt st1 L1).
  { apply (ok_move cnt st); try done; [by apply links_keeps | apply Hl | apply Hl | | | | ].
    - rewrite Hsplit. solve_Permutation.
    - intros ch. rewrite Hsplit, !elem_of_app, elem_of_cons. tauto.
    - intros ch Hc Hn. rewrite Hsplit, elem_of_app, elem_of_cons in Hc. rewrite elem_of_app in Hn.
      assert (ch = x) as -> by tauto. done.
    - rewrite (lo_heap _ _ Hl). apply (llist_frame (nexts st)); [apply Hok|]. intros p Hp. apply Hnx.
      intros ->. apply (ring_not_cached _ _ _ _ Hok Hia). apply elem_of_app. by left. }
  set (f1 := fun h => set_chunks_count h (s32 (chunks_count h - 1))).
  assert (Hok2 : mm_ok_with cnt (upd_heap st1 f1) L1) by (by apply ok_upd_heap).
  assert (Hk2 : keeps st (upd_heap st1 f1)).
  { apply (keeps_trans _ st1); [by apply links_keeps | by apply keeps_heap]. }
  set (st2 := upd_heap st1 f1) in *.
  assert (Hca : llist (nexts st2) (cached_chunks (heap st2)) (cache L)) by apply (ok_cache _ _ _ Hok2).
  destruct (delay_deletion (heap st2)).
  - (* cached *)
    set (f2 := fun h => set_cached_chunks_count h (s32 (cached_chunks_count h + 1))).
    destruct (ok_to_cache cnt (upd_heap st2 f2) L1 x (cache L) (spare L) (cached_chunks (heap st2))
      (fun h => set_cached_chunks h x)) as (st3 & Hu3 & Hok3 & Hk3); try done.
    + by apply ok_upd_heap.
    + left.
    + cbn. solve_Permutation.
    + exists (upd_heap st3 (fun h => set_cached_chunks h x)), pre, post, (x :: cache L).
      rewrite Hu3. rsimp. split; [done|]. split; [done|]. split; [exact Hok3|].
      by apply (keeps_trans _ st2), (keeps_trans _ (upd_heap st2 f2)); [|apply keeps_heap|].
  - set (f3 := fun h => set_real_size h (u64 (real_size h - ZEND_MM_CHUNK_SIZE))).
    cbv zeta.
    match goal with |- context [if ?b then upd_heap ?s ?g else ?s] => set (st3 := if b then upd_heap s g else s) end.
    assert (Hok3 : mm_ok_with cnt st3 L1 /\ keeps st st3 /\ cached_chunks (heap st3) = cached_chunks (heap st2) /\
      chunks st3 = chunks st2).
    { subst st3. destruct (cached_chunks (heap st2) =? 0).
      - pose proof (count_deletion_lists (heap (upd_heap st2 f3))) as (D1 & D2 & D3 & D4).
        split; [apply ok_upd_heap; [by apply ok_upd_heap | done]|]. split; [|done].
        apply (keeps_trans _ st2); [done|]. apply (keeps_trans _ (upd_heap st2 f3)); [by apply keeps_heap|].
        by apply keeps_heap.
      - split; [by apply ok_upd_heap|]. split; [|done].
        apply (keeps_trans _ st2); [done | by apply keeps_heap]. }
    destruct Hok3 as (Hok3 & Hk3 & Hcc3 & Hch3). clearbody st3.
    assert (Hfree : mm_ok_with cnt (zend_mm_chunk_free st3 x ZEND_MM_CHUNK_SIZE) (with_chunks L (pre ++ post) (cache L) (spare L)) /\
      keeps st (zend_mm_chunk_free st3 x ZEND_MM_CHUNK_SIZE)).
    { split; [by apply (ok_free_spare cnt st3 L1) | by apply (keeps_trans _ st3)]. }
    destruct (Z.eqb_spec (cached_chunks (heap st2)) 0) as [Hz|Hz].
    { eexists _, pre, post, (cache L). split; [done|]. split; [done|]. exact Hfree. }
    destruct (cache L) as [|k0 rest] eqn:Ek; [by destruct Hz|].
    destruct Hca as (Hk0 & Hk0n & q & Hq & Hrest). rewrite Hk0.
    destruct (ok_cached _ _ _ Hok3 x) as (cx & Hcx & _).
    { change (x ∈ (k0 :: rest) ++ x :: spare L). apply elem_of_app. right. left. }
    destruct (ok_cached _ _ _ Hok3 k0) as (ck & Hck & _).
    { change (k0 ∈ (k0 :: rest) ++ x :: spare L). left. }
    rewrite (get_chunk_ok _ _ _ Hcx), (get_chunk_ok _ _ _ Hck). rsimp.
    destruct (num ck <? num cx).
    { eexists _, pre, post, (k0 :: rest). split; [done|]. split; [done|]. exact Hfree. }
    assert (Hckn : c_next ck = q).
    { unfold nexts in Hq. rewrite <- Hch3, Hck in Hq. by injection Hq. }
    destruct (ok_to_cache cnt st3 L1 x rest (k0 :: spare L) (c_next ck) (fun h => set_cached_chunks h x))
      as (st4 & Hu4 & Hok4 & Hk4); try done.
    + left.
    + cbn. solve_Permutation.
    + rewrite Hckn. unfold nexts in *. by rewrite Hch3.
    + rewrite Hu4. rsimp. eexists _, pre, post, (x :: rest). split; [done|]. split; [done|]. split.
      * exact (ok_free_spare cnt _ _ k0 (spare L) Hok4 eq_refl).
      * apply (keeps_trans _ st3); [done|]. by apply (keeps_trans _ (upd_heap st4 (fun h => set_cached_chunks h x))).
Qed.

(** ** Moving a chunk to the front of the ring *)
Lemma move_to_front_ok cnt st L x :
  mm_ok_with cnt st L -> x ∈ others L ->
  exists st' o, move_to_front st x = Ok st' /\ links_only st st' /\ o ≡ₚ others L /\
    mm_ok_with cnt st' (with_chunks L o (cache L) (spare L)).
Proof.
  intros Hok Hx. pose proof (ok_ring _ _ _ Hok) as Hr.
  destruct (cring_neighbours _ _ _ _ _ Hr Hx) as (a & b & Hb & Ha & Hia & Hib & Hax & Hbx).
  assert (Hxm : x <> main st).
  { destruct Hr as [_ Hn]. apply NoDup_cons in Hn as [Hn _]. by intros ->. }
  unfold move_to_front. fold (main st).
  destruct (get_next _ _ _ Hb) as (c & Hg & Hc & Hcn). rewrite Hg. rsimp.
  assert (Hcp : c_prev c = a) by (unfold prevs in Ha; rewrite Hc in Ha; by injection Ha).
  rewrite Hcn, Hcp.
  destruct (upd_next_ok st a b (ring_chunk _ _ _ _ Hok Hia)) as (st1 & -> & Hl1 & Hn1 & Hp1). rsimp.
  assert (Hb1 : nexts st1 x = Some b) by (rewrite Hn1; by destruct (decide (x = a))).
  assert (Ha1 : prevs st1 x = Some a) by (by rewrite Hp1).
  destruct (get_next _ _ _ Hb1) as (c1 & Hg1 & Hc1 & Hcn1). rewrite Hg1. rsimp.
  assert (Hcp1 : c_prev c1 = a) by (unfold prevs in Ha1; rewrite Hc1 in Ha1; by injection Ha1).
  rewrite Hcn1, Hcp1.
  destruct (upd_prev_ok st1 b a) as (st2 & -> & Hl2 & Hp2 & Hn2).
  { by apply (links_only_some st), (ring_chunk _ _ _ _ Hok). }
  rsimp. assert (Hl12 : links_only st st2) by (by eapply links_only_trans).
  destruct (cring_unlink (nexts st) (prevs st) (nexts st2) (prevs st2) (main st) (others L) x a b)
    as (pre & post & Hsplit & Hring); try done.
  { rewrite Hn2, Hn1. by destruct (decide (a = a)). }
  { rewrite Hp2. by destruct (decide (b = b)). }
  { intros p Hp. rewrite Hn2, Hn1. by destruct (decide (p = a)). }
  { intros p Hp. rewrite Hp2, Hp1. by destruct (decide (p = b)). }
  destruct (cring_head_next _ _ _ _ Hring) as (n & Hmn & Hin & Hpn).
  assert (Hsub : forall p, p ∈ main st :: pre ++ post -> p ∈ main st :: others L).
  { intros p. rewrite Hsplit, !elem_of_cons, !elem_of_app, elem_of_cons. tauto. }
  assert (Hxn : x ∉ main st :: pre ++ post).
  { pose proof (proj2 Hr) as Hnd. apply NoDup_cons in Hnd as [_ Hnd]. rewrite Hsplit in Hnd.
    rewrite elem_of_cons. intros [?|Hin']; [done|]. apply NoDup_app in Hnd as (_ & Hd & Hnd).
    apply NoDup_cons in Hnd as [Hnd _]. apply elem_of_app in Hin' as [Hin'|Hin']; [|done].
    apply (Hd x Hin'). left. }
  destruct (get_next _ _ _ Hmn) as (m & Hgm & Hm & Hmnn). rewrite Hgm. rsimp. rewrite Hmnn.
  (* chunk->next = main->next; chunk->prev = main *)
  destruct (links_only_some _ _ x Hl12 (ring_chunk _ _ _ _ Hok ltac:(by right))) as [cx Hcx].
  assert (Hu3 : upd_chunk st2 x (fun c => set_c_prev (set_c_next c n) (main st)) =
    Ok (put_chunk st2 x (set_c_prev (set_c_next cx n) (main st)))).
  { unfold upd_chunk. by rewrite (get_chunk_ok _ _ _ Hcx). }
  rewrite Hu3. rsimp. set (st3 := put_chunk st2 x _).
  assert (Hl3 : links_only st2 st3) by (by apply (put_links_only _ _ cx)).
  assert (Hl13 : links_only st st3) by (by eapply links_only_trans).
  destruct (upd_next_ok st3 (main st) x) as (st4 & -> & Hl4 & Hn4 & Hp4).
  { apply (links_only_some st), (ring_chunk _ _ _ _ Hok); [done | left]. }
  rsimp. assert (Hl14 : links_only st st4) by (by eapply links_only_trans).
  assert (Hx4 : nexts st4 x = Some n).
  { rewrite Hn4. destruct (decide (x = main st)); [done|]. unfold st3. rewrite nexts_put.
    by destruct (decide (x = x)). }
  destruct (get_next _ _ _ Hx4) as (c4 & Hg4 & _ & Hcn4). rewrite Hg4. rsimp. rewrite Hcn4.
  destruct (upd_prev_ok st4 n x) as (st5 & -> & Hl5 & Hp5 & Hn5).
  { apply (links_only_some st); [done|]. by apply (ring_chunk _ _ _ _ Hok), Hsub. }
  assert (Hl15 : links_only st st5) by (by eapply links_only_trans).
  exists st5, (x :: pre ++ post). split; [done|]. split; [done|].
  assert (Hperm : x :: pre ++ post ≡ₚ others L) by (rewrite Hsplit; solve_Permutation).
  assert (Hmne : forall p, p <> main st -> p <> x -> nexts st5 p = nexts st2 p).
  { intros p H1 H2. rewrite Hn5, Hn4. destruct (decide (p = main st)); [done|].
    unfold st3. rewrite nexts_put. by destruct (decide (p = x)). }
  split; [done|]. apply (ok_relink cnt st); try done.
  - apply (cring_insert_front (nexts st2) (prevs st2) _ _ _ _ _ n Hring); try done.
    + rewrite Hn5, Hn4. by destruct (decide (main st = main st)).
    + by rewrite Hn5.
    + rewrite Hp5, Hp4. destruct (decide (x = n)) as [->|]; [done|]. unfold st3. rewrite prevs_put.
      by destruct (decide (x = x)).
    + rewrite Hp5. by destruct (decide (n = n)).
    + intros p H1 H2. rewrite Hp5, Hp4. destruct (decide (p = n)); [done|].
      unfold st3. rewrite prevs_put. by destruct (decide (p = x)).
  - intros p Hp. assert (Hnr : p ∉ main st :: others L).
    { intros Hin'. apply (ring_not_cached _ _ _ _ Hok Hin'). apply elem_of_app. by left. }
    rewrite Hmne, Hn2, Hn1.
    + destruct (decide (p = a)) as [->|]; done.
    + intros ->. apply Hnr. left.
    + intros ->. apply Hnr. by right.
Qed.

(** ** A chunk enters the ring *)
Lemma ok_enter cnt st st' L x d c :
  mm_ok_with cnt st L -> spare L = x :: d -> keeps st st' -> os st' = os st ->
  (forall p, p <> x -> unlinked <$> chunks st' !! p = unlinked <$> chunks st !! p) ->
  chunks st' !! x = Some c -> c_heap c = h_addr st -> chunk_ok c ∅ ->
  cring (nexts st') (prevs st') (main st) (others L ++ [x]) ->
  cached_chunks (heap st') = cached_chunks (heap st) -> (forall p, p ∈ cache L -> nexts st' p = nexts st p) ->
  mm_ok_with cnt st' (with_chunks L (others L ++ [x]) (cache L) d).
Proof.
  intros Hok Hd [Ha Hm Hmain Hfs Hhu] Ho Hu Hcx Hch0 Hcok Hring Hcc0 Hnc.
  pose proof Hok as [_ Hca Hrg Hch Hru Hcc Hsl Hls Hss Hsn Hhl Hh Hhn].
  assert (Hmn : main st' = main st) by done.
  pose proof (chunks_nodup _ _ _ Hok) as Hnd. rewrite Hd in Hnd.
  assert (Hxr : x ∉ main st :: others L).
  { intros Hin. apply (ring_not_cached _ _ _ _ Hok Hin). rewrite Hd. apply elem_of_app. right. left. }
  assert (Hxc : x ∉ cache L ++ d).
  { apply NoDup_cons in Hnd as [_ Hnd]. apply NoDup_app in Hnd as (_ & _ & Hnd).
    rewrite <- Permutation_middle, NoDup_cons in Hnd. tauto. }
  assert (Hlook : forall p c, p <> x -> chunks st !! p = Some c -> exists c', chunks st' !! p = Some c' /\ unlinked c' = unlinked c).
  { intros p c0 Hp Hc. specialize (Hu p Hp). rewrite Hc in Hu.
    destruct (chunks st' !! p) as [c'|]; simpl in Hu; [|done].
    exists c'. split; [done|]. by apply (inj Some) in Hu. }
  split; rewrite ?Hmn, ?Ho, ?Hfs, ?Hhu; cbn [others cache spare runs slots huges with_chunks]; try done.
  - rewrite Hcc0. by apply (llist_frame (nexts st)).
  - eapply regions_ok_perm; [|exact Hrg]. symmetry. apply regions_perm. rewrite Hd. solve_Permutation.
  - intros ch Hc. rewrite app_comm_cons in Hc. apply elem_of_app in Hc as [Hc|Hc].
    + destruct (Hch ch Hc) as (c1 & rs & Hc1 & Hc2 & Hc3 & Hc4).
      assert (Hne : ch <> x) by (by intros ->).
      destruct (Hlook _ _ Hne Hc1) as (c' & Hc' & Hu'). exists c', rs. split; [done|].
      split; [rewrite (unlinked_heap _ _ Hu'); congruence|]. split; [done|]. by apply (unlinked_ok _ c1).
    + apply list_elem_of_singleton in Hc as ->. exists c, ∅. split; [done|]. split; [congruence|]. split.
      * intros s. rewrite lookup_empty. destruct (runs L !! (x, s)) as [r|] eqn:E; [|done].
        exfalso. by apply Hxr, (Hru x s r).
      * destruct Hcok as [A1 A2 A3 A4 A5 A6 A7 A8 A9 A10]. split; try done.
  - intros ch s r Hr'. rewrite app_comm_cons. apply elem_of_app. left. by eapply Hru.
  - intros ch Hc. destruct (Hcc ch) as (c1 & Hc1 & Hc2).
    { rewrite Hd, elem_of_app, elem_of_cons. rewrite elem_of_app in Hc. tauto. }
    assert (Hne : ch <> x) by (by intros ->).
    destruct (Hlook _ _ Hne Hc1) as (c' & Hc' & Hu'). exists c'. split; [done|]. by apply (unlinked_blank c1).
  - intros b Hb. destruct (Hls b Hb) as (p & Hp1 & Hp2). exists p. split; [done|].
    apply (llist_frame _ _ _ _ Hp2). intros y Hy. unfold slot_next. by rewrite Hm.
  - apply (llist_frame _ _ _ _ Hhl). intros y Hy. unfold node_next. by rewrite Hm.
  - intros h Hh'. rewrite Hm. by apply Hh.
Qed.

(** The header that initialisation writes. *)
Lemma init_header c : blank c ->
  exists fm pm, aset (free_map c) 0 (Z.shiftl 1 ZEND_MM_FIRST_PAGE - 1) = Ok fm /\
    aset (page_map c) 0 (ZEND_MM_LRUN ZEND_MM_FIRST_PAGE) = Ok pm /\
    (forall i, 0 <= i < 512 -> bit_of fm i = (i =? 0)) /\
    forall h n p k, chunk_ok (Chunk h n p (ZEND_MM_PAGES - ZEND_MM_FIRST_PAGE) ZEND_MM_FIRST_PAGE k fm pm) ∅.
Proof.
  intros [Hw Hl Hm Hb]. rewrite !aset_okZ by (rewrite ?Hl, ?Hm; lia). eexists _, _.
  split; [done|]. split; [done|]. change (Z.shiftl 1 ZEND_MM_FIRST_PAGE - 1) with 1.
  set (fm := <[Z.to_nat 0 := 1]> (free_map c)).
  assert (Hbits : forall i, 0 <= i < 512 -> bit_of fm i = (i =? 0)).
  { intros i Hi. unfold fm. rewrite bit_of_insert by (rewrite ?Hl; lia). split_bit i.
    destruct (Z.eqb_spec (i / 64) 0) as [Hz|Hz].
    - replace (i mod 64) with i by lia. change 1 with (2 ^ 0). by rewrite pow2_testbit.
    - rewrite Hb by lia. symmetry. apply Z.eqb_neq. lia. }
  split; [done|]. intros h n p k.
  split; cbn [free_map page_map free_tail free_pages]; unfold ZEND_MM_FIRST_PAGE.
  - apply Forall_insert; [done|]. split; [lia | reflexivity].
  - unfold fm. by rewrite length_insert.
  - by rewrite length_insert.
  - intros i Hi. rewrite Hbits, Z.eqb_eq by done. split; [by left|].
    intros [?|(s & r & Hr & _)]; [done | by rewrite lookup_empty in Hr].
  - intros s r Hr. by rewrite lookup_empty in Hr.
  - intros s r Hr. by rewrite lookup_empty in Hr.
  - intros s r t q Hr. by rewrite lookup_empty in Hr.
  - intros s r Hr. by rewrite lookup_empty in Hr.
  - lia.
  - unfold count_free. change 512%nat with (1 + 511)%nat. rewrite count_clear_app.
    rewrite (count_clear_const _ true 1) by (intros i Hi; rewrite Hbits by lia; by apply Z.eqb_eq; lia).
    rewrite (count_clear_const _ false 511) by (intros i Hi; rewrite Hbits by lia; apply Z.eqb_neq; lia).
    done.
Qed.

Lemma chunk_init_ok cnt st L x d :
  mm_ok_with cnt st L -> spare L = x :: d ->
  exists st' c, zend_mm_chunk_init st x = Ok st' /\
    mm_ok_with cnt st' (with_chunks L (others L ++ [x]) (cache L) d) /\ keeps st st' /\
    x ∉ main st :: others L /\ chunks st' !! x = Some c /\ (forall n, 0 < n < 512 -> fits c 1 n).
Proof.
  intros Hok Hd. pose proof (ok_ring _ _ _ Hok) as Hr.
  assert (Hxc : x ∈ cache L ++ spare L) by (rewrite Hd; apply elem_of_app; right; left).
  assert (Hxr : x ∉ main st :: others L) by (intros Hin; by apply (ring_not_cached _ _ _ _ Hok Hin)).
  destruct (ok_cached _ _ _ Hok x Hxc) as (c & Hc & Hbl).
  destruct (cring_head_prev _ _ _ _ Hr) as (a & Hpa & Hia & Hna).
  assert (Hax : a <> x) by (by intros ->).
  assert (Hmx : main st <> x) by (intros <-; apply Hxr; left).
  unfold zend_mm_chunk_init. fold (main st).
  destruct (get_prev _ _ _ Hpa) as (m & Hgm & _ & Hmp). rewrite Hgm. rsimp. rewrite Hmp.
  set (c1 := set_c_prev (set_c_next (set_c_heap c (h_addr st)) (main st)) a).
  assert (Hu1 : upd_chunk st x (fun c => set_c_prev (set_c_next (set_c_heap c (h_addr st)) (main st)) a) =
    Ok (put_chunk st x c1)) by (unfold upd_chunk; by rewrite (get_chunk_ok _ _ _ Hc)).
  rewrite Hu1. rsimp. set (st1 := put_chunk st x c1).
  assert (Hlk1 : forall p, p <> x -> chunks st1 !! p = chunks st !! p).
  { intros p Hp. unfold st1. rewrite put_chunk_lookup. by destruct (decide (p = x)). }
  destruct (upd_next_ok st1 a x) as (st2 & -> & Hl2 & Hn2 & Hp2).
  { rewrite Hlk1 by done. by apply (ring_chunk _ _ _ _ Hok). }
  rsimp. destruct (upd_prev_ok st2 (main st) x) as (st3 & -> & Hl3 & Hp3 & Hn3).
  { apply (links_only_some st1); [done|]. rewrite Hlk1 by done. apply (ring_chunk _ _ _ _ Hok). left. }
  rsimp. assert (Hl13 : links_only st1 st3) by (by eapply links_only_trans).
  destruct (links_only_some _ _ a Hl13) as [pa Hpa3].
  { rewrite Hlk1 by done. by apply (ring_chunk _ _ _ _ Hok). }
  rewrite (get_chunk_ok _ _ _ Hpa3). rsimp.
  destruct (links_only_chunk st1 st3 x c1 Hl13) as (c3 & Hc3 & Hu3).
  { unfold st1. rewrite put_chunk_lookup. by destruct (decide (x = x)). }
  rewrite (get_chunk_ok _ _ _ Hc3). rsimp.
  assert (Hbl3 : blank c3) by (apply (unlinked_blank c1); [done|]; by destruct Hbl).
  destruct (init_header c3 Hbl3) as (fm & pm & Hfm & Hpm & Hbits & Hhdr).
  cbn [free_map page_map set_free_pages set_free_tail set_num]. rewrite Hfm. rsimp. rewrite Hpm. rsimp.
  set (c4 := set_page_map _ _). assert (Hok4 : chunk_ok c4 ∅) by apply Hhdr.
  set (st4 := put_chunk st3 x c4).
  assert (Hn4 : forall q, nexts st4 q = nexts st3 q).
  { intros q. unfold st4. rewrite nexts_put. destruct (decide (q = x)) as [->|]; [|done].
    unfold nexts. by rewrite Hc3. }
  assert (Hp4 : forall q, prevs st4 q = prevs st3 q).
  { intros q. unfold st4. rewrite prevs_put. destruct (decide (q = x)) as [->|]; [|done].
    unfold prevs. by rewrite Hc3. }
  assert (Hn1x : nexts st1 x = Some (main st)).
  { unfold st1. rewrite nexts_put. by destruct (decide (x = x)). }
  assert (Hp1x : prevs st1 x = Some a).
  { unfold st1. rewrite prevs_put. by destruct (decide (x = x)). }
  assert (Hc4 : chunks st4 !! x = Some c4).
  { unfold st4. rewrite put_chunk_lookup. by destruct (decide (x = x)). }
  exists st4, c4. split; [done|].
  assert (Hk : keeps st st4) by (destruct Hl13 as [A1 A2 A3 A4 _]; by split; cbn; rewrite ?A2, ?A3).
  split; [|split; [done|]; split; [done|]; split; [done|]].
  2:{ intros n Hn. change ZEND_MM_FIRST_PAGE with 1. split.
      - lia.
      - intros i Hi. cbn. rewrite Hbits by lia. apply Z.eqb_neq. lia.
      - cbn. unfold ZEND_MM_FIRST_PAGE. lia. }
  apply (ok_enter cnt st st4 L x d c4); try done.
  - apply Hl13.
  - intros p Hp. unfold st4. rewrite put_chunk_lookup. destruct (decide (p = x)); [done|].
    rewrite (lo_chunks _ _ Hl13). by rewrite Hlk1.
  - cbn. rewrite (unlinked_heap _ _ Hu3). done.
  - apply (cring_insert_back (nexts st) (prevs st) _ _ _ _ _ a Hr); try done.
    + rewrite Hn4, Hn3, Hn2. by destruct (decide (a = a)).
    + rewrite Hn4, Hn3, Hn2. by destruct (decide (x = a)).
    + rewrite Hp4, Hp3. destruct (decide (x = main st)); [by subst|]. by rewrite Hp2.
    + rewrite Hp4, Hp3. by destruct (decide (main st = main st)).
    + intros p H1 H2. rewrite Hn4, Hn3, Hn2. destruct (decide (p = a)); [done|].
      unfold nexts. by rewrite Hlk1.
    + intros p H1 H2. rewrite Hp4, Hp3. destruct (decide (p = main st)); [done|]. rewrite Hp2.
      unfold prevs. by rewrite Hlk1.
  - cbn. by rewrite (lo_heap _ _ Hl13).
  - intros p Hp. rewrite Hn4, Hn3, Hn2. destruct (decide (p = a)) as [->|].
    { exfalso. apply (ring_not_cached _ _ _ _ Hok Hia). apply elem_of_app. by left. }
    unfold nexts. rewrite Hlk1; [done|]. intros ->.
    pose proof (chunks_nodup _ _ _ Hok) as Hnd. rewrite Hd in Hnd.
    apply NoDup_cons in Hnd as [_ Hnd]. apply NoDup_app in Hnd as (_ & _ & Hnd).
    apply NoDup_app in Hnd as (_ & Hnd & _). apply (Hnd x Hp). left.
Qed.
End Links.
