(* ===== verification/MmUnlink.v ===== *)
(** * Counting free slots and changing the free lists ([zend_mm_gc] of [Zend/zend_alloc.c])

    [gc_count] leaves in the page info of every run of a bin the number of its
    slots on the free list, and tells whether some run is wholly free. *)
From S2P Require Export MmLinks.

(** ** Slots in a range *)
Definition count_in (lo hi : Z) (l : list Z) : Z :=
  Z.of_nat (length (filter (fun p => lo <= p < hi) l)).

Lemma count_in_app lo hi l1 l2 : count_in lo hi (l1 ++ l2) = count_in lo hi l1 + count_in lo hi l2.
Proof. unfold count_in. rewrite filter_app, length_app. lia. Qed.

Lemma count_in_nonneg lo hi l : 0 <= count_in lo hi l.
Proof. unfold count_in. lia. Qed.

(** The slots of a run that are on a free list. *)
Definition run_lo (ch s : Z) : Z := ch + s * 4096.
Definition run_hi (ch s b : Z) : Z := ch + (s + bin_pages b) * 4096.
Definition free_in (b ch s : Z) (l : list Z) : Z := count_in (run_lo ch s) (run_hi ch s b) l.

Definition run_slots (ch s b : Z) : list Z := map (slot_addr ch s b) (seqZ 0 (bin_elements b)).

Section Count.
Context {Sys : OS} {Laws : OSLaws} {Rest : Foreign}.
Implicit Types (st : mm).

Section Slots.
Context (cnt : Z -> Z -> Z) (st : mm) (L : layout) (Hok : mm_ok_with cnt st L).

Lemma slot_in_run b p ch s :
  is_slot (runs L) b p -> runs L !! (ch, s) = Some (SmallRun b) -> run_lo ch s <= p < run_hi ch s b ->
  p ∈ run_slots ch s b.
Proof using Hok.
  intros (ch' & s' & i & Hr' & Hi & ->) Hr Hp. pose proof (slot_inside cnt st L Hok _ _ _ _ Hr' Hi) as Hin.
  destruct (run_facts cnt st L Hok _ _ _ Hr') as (_ & _ & _ & _ & Hb & _). destruct (bin_facts b Hb) as (Hd & _).
  destruct (same_run cnt st L Hok _ _ _ _ _ _ (slot_addr ch' s' b i) Hr' Hr) as (-> & -> & _);
    [cbn; lia | unfold run_lo, run_hi in Hp; cbn; lia |].
  apply list_elem_of_fmap. exists i. split; [done|]. apply elem_of_seqZ. lia.
Qed.

Lemma run_slot_range ch s b p :
  runs L !! (ch, s) = Some (SmallRun b) -> p ∈ run_slots ch s b -> run_lo ch s <= p < run_hi ch s b.
Proof using Hok.
  intros Hr Hp. apply list_elem_of_fmap in Hp as (i & -> & Hi). apply elem_of_seqZ in Hi.
  pose proof (slot_inside cnt st L Hok ch s b i Hr ltac:(lia)).
  destruct (run_facts cnt st L Hok _ _ _ Hr) as (_ & _ & _ & _ & Hb & _). destruct (bin_facts b Hb) as (Hd & _).
  unfold run_lo, run_hi. lia.
Qed.

Lemma run_slots_length ch s b : 0 <= b < 30 -> Z.of_nat (length (run_slots ch s b)) = bin_elements b.
Proof using.
  intros Hb. destruct (bin_facts b Hb) as (_ & _ & He & _). unfold run_slots. rewrite length_map, length_seqZ. lia.
Qed.

(** A list of slots without duplicates has no more of a run than there are,
    and has all of them when it has that many. *)
Lemma free_in_bound b ch s l :
  NoDup l -> (forall p, p ∈ l -> is_slot (runs L) b p) -> runs L !! (ch, s) = Some (SmallRun b) ->
  free_in b ch s l <= bin_elements b /\
  (free_in b ch s l = bin_elements b -> forall p, p ∈ run_slots ch s b -> p ∈ l).
Proof using Hok.
  intros Hn Hl Hr. destruct (run_facts cnt st L Hok _ _ _ Hr) as (_ & _ & _ & _ & Hb & _).
  unfold free_in, count_in. set (f := filter _ l).
  assert (Hsub : f ⊆+ run_slots ch s b).
  { apply NoDup_submseteq; [by apply NoDup_filter|]. intros p Hp. apply list_elem_of_filter in Hp as [Hp Hin].
    by apply slot_in_run; [apply Hl|..]. }
  pose proof (submseteq_length _ _ Hsub) as Hlen. rewrite <- (run_slots_length ch s b Hb). split; [lia|].
  intros Heq p Hp. assert (Hperm : f ≡ₚ run_slots ch s b) by (apply submseteq_length_Permutation; [done | lia]).
  rewrite <- Hperm in Hp. by apply list_elem_of_filter in Hp as [_ Hp].
Qed.

(** Finding the run of a slot. *)
Lemma slot_run_ok ch s b i :
  runs L !! (ch, s) = Some (SmallRun b) -> 0 <= i < bin_elements b -> 0 <= cnt ch s <= 512 ->
  slot_run st (slot_addr ch s b i) = Ok (ch, s, ZEND_MM_SRUN_EX b (cnt ch s)).
Proof using Hok.
  intros Hr Hi Hcnt. pose proof (slot_inside cnt st L Hok ch s b i Hr Hi) as Hin.
  destruct (run_facts cnt st L Hok _ _ _ Hr) as (_ & Hc0 & Hca & Hce & Hb & Hs & Hse & _ & c & rs & Hc & Hh & Hrs & Hcok & Hl).
  destruct (bin_facts b Hb) as (Hd & _ & _ & Hp & _). cbn [run_pages] in *.
  set (off := slot_addr ch s b i - ch).
  destruct (chunk_address ch off) as [Ho Hba]; [lia | done | subst off; lia | subst off; lia |].
  replace (ch + off) with (slot_addr ch s b i) in Ho, Hba by (subst off; lia).
  unfold slot_run. rewrite Ho, Hba, (get_chunk_ok _ _ _ Hc). rsimp.
  destruct (Z.eqb_spec (c_heap c) (h_addr st)); [|done]. cbn [negb].
  destruct (co_infos _ _ _ Hcok s _ Hl) as [Hi0 Hin0].
  set (pg := off / ZEND_MM_PAGE_SIZE).
  assert (Hpg : s <= pg < s + bin_pages b).
  { subst pg off. change ZEND_MM_PAGE_SIZE with 4096. split;
      [apply Z.div_le_lower_bound; lia | apply Z.div_lt_upper_bound; lia]. }
  destruct (srun_info b (cnt ch s) Hb Hcnt) as (_ & Hlr & _).
  destruct (Z.eq_dec pg s) as [->|Hne].
  - rewrite Hi0. rsimp. by rewrite Hlr.
  - specialize (Hin0 (pg - s) ltac:(lia)). replace (s + (pg - s)) with pg in Hin0 by lia. rewrite Hin0. rsimp.
    destruct (nrun_info b (pg - s) Hb ltac:(lia)) as (_ & Hnl & _ & Hno). rewrite Hnl, Hno.
    replace (pg - (pg - s)) with s by lia. rewrite Hi0. done.
Qed.
End Slots.

(** ** The counting pass *)

(** Only the page maps change. *)
Record same_but_chunks st st' : Prop := {
  sb_addr : h_addr st' = h_addr st;
  sb_heap : heap st' = heap st;
  sb_mem : mem st' = mem st;
  sb_os : os st' = os st;
  sb_dom : dom (chunks st') = dom (chunks st)
}.

Lemma same_but_refl st : same_but_chunks st st.
Proof. by split. Qed.

Lemma same_but_trans st1 st2 st3 : same_but_chunks st1 st2 -> same_but_chunks st2 st3 -> same_but_chunks st1 st3.
Proof. intros [] []. split; congruence. Qed.

Lemma same_but_put st p c c' : chunks st !! p = Some c -> same_but_chunks st (put_chunk st p c').
Proof. intros Hc. split; try done. cbn. rewrite dom_insert_lookup_L; [done | by exists c]. Qed.

(** The counters while bin [i] is counted: [base] before, the slots of [l] since. *)
Definition counting (R : gmap (Z * Z) run) (base : Z -> Z -> Z) (i : Z) (l : list Z) (ch s : Z) : Z :=
  if decide (R !! (ch, s) = Some (SmallRun i)) then free_in i ch s l else base ch s.

Lemma ok_counters cnt cnt' st L :
  mm_ok_with cnt st L -> (forall ch s b, runs L !! (ch, s) = Some (SmallRun b) -> cnt' ch s = cnt ch s) ->
  mm_ok_with cnt' st L.
Proof.
  intros Hok Hc. pose proof Hok as [A1 A2 A3 A4 A5 A6 A7 A8 A9 A10 A11 A12 A13]. split; try done.
  intros ch Hch. destruct (A4 ch Hch) as (c & rs & B1 & B2 & B3 & B4). exists c, rs.
  split; [done|]. split; [done|]. split; [done|].
  destruct B4 as [C1 C2 C3 C4 C5 C6 C7 C8 C9 C10]. split; try done.
  intros s r Hr. specialize (C6 s r Hr). destruct r as [n|b]; [done|].
  rewrite (Hc ch s b) by (by rewrite <- B3). done.
Qed.

Lemma gc_count_ok i L base : 0 <= i < 30 -> forall l2 l1 fuel st has p,
  slots L i = l1 ++ l2 -> mm_ok_with (counting (runs L) base i l1) st L ->
  llist (slot_next st) p l2 -> (length l2 < fuel)%nat ->
  (has = false -> forall ch s, runs L !! (ch, s) = Some (SmallRun i) -> free_in i ch s l1 < bin_elements i) ->
  exists has' st', gc_count st i p has fuel = Ok (has', st') /\ same_but_chunks st st' /\
    mm_ok_with (counting (runs L) base i (slots L i)) st' L /\
    (has' = false -> forall ch s, runs L !! (ch, s) = Some (SmallRun i) -> free_in i ch s (slots L i) < bin_elements i).
Proof.
  intros Hib. induction l2 as [|x l2 IH]; intros l1 fuel st has p Hsl Hok Hl Hf Hhas.
  - destruct fuel as [|fuel]; [lia|]. cbn [gc_count llist] in *. rewrite Hl. cbn [Z.eqb].
    rewrite app_nil_r in Hsl. rewrite Hsl. exists has, st. split; [done|]. split; [apply same_but_refl|]. done.
  - destruct fuel as [|fuel]; [simpl in Hf; lia|]. cbn [gc_count]. destruct Hl as (-> & Hx0 & q & Hq & Hl).
    destruct (Z.eqb_spec x 0) as [|_]; [done|].
    assert (Hxin : x ∈ slots L i) by (rewrite Hsl; apply elem_of_app; right; left).
    destruct (ok_slots _ _ _ Hok i x Hxin) as (_ & ch & s & j & Hr & Hj & Hxe).
    set (cnt := counting (runs L) base i l1) in *.
    assert (Hcnt : cnt ch s = free_in i ch s l1) by (unfold cnt, counting; by destruct (decide _)).
    pose proof (ok_slots_nodup _ _ _ Hok i) as Hnd. rewrite Hsl in Hnd.
    assert (Hnd1 : NoDup (l1 ++ [x])).
    { replace (l1 ++ x :: l2) with ((l1 ++ [x]) ++ l2) in Hnd by (by rewrite <- app_assoc).
      by apply NoDup_app in Hnd as (? & _). }
    destruct (free_in_bound _ _ _ Hok i ch s (l1 ++ [x]) Hnd1) as [Hbound _]; [|done|].
    { intros y Hy. apply (ok_slots _ _ _ Hok). rewrite Hsl. rewrite elem_of_app, list_elem_of_singleton in Hy.
      rewrite elem_of_app, elem_of_cons. tauto. }
    assert (Hone : forall ch' s', runs L !! (ch', s') = Some (SmallRun i) ->
      free_in i ch' s' (l1 ++ [x]) = free_in i ch' s' l1 + if decide ((ch', s') = (ch, s)) then 1 else 0).
    { intros ch' s' Hr'. unfold free_in. rewrite count_in_app. f_equal. unfold count_in. cbn [filter list_filter].
      pose proof (run_slot_range _ _ _ Hok ch s i x Hr) as Hrange.
      assert (Hxs : x ∈ run_slots ch s i).
      { rewrite Hxe. apply list_elem_of_fmap. exists j. split; [done|]. apply elem_of_seqZ. lia. }
      specialize (Hrange Hxs). destruct (decide ((ch', s') = (ch, s))) as [E|E].
      - injection E as -> ->. by destruct (decide (run_lo ch s <= x < run_hi ch s i)).
      - destruct (decide (run_lo ch' s' <= x < run_hi ch' s' i)) as [Hin|]; [|done]. exfalso.
        unfold run_lo, run_hi in *. destruct (same_run _ _ _ Hok _ _ _ _ _ _ x Hr Hr') as (-> & -> & _); done. }
    pose proof (Hone ch s Hr) as Hone'. destruct (decide ((ch, s) = (ch, s))); [|done].
    destruct (bin_facts i Hib) as (_ & _ & He & _). pose proof (count_in_nonneg (run_lo ch s) (run_hi ch s i) l1) as Hnn.
    fold (free_in i ch s l1) in Hnn.
    assert (Hcb : 0 <= cnt ch s < 512) by lia.
    rewrite Hxe, (slot_run_ok _ _ _ Hok ch s i j Hr Hj) by lia. rsimp. rewrite <- Hxe.
    destruct (srun_info i (cnt ch s) Hib ltac:(lia)) as (_ & _ & _ & Hcf). rewrite Hcf, Hcnt.
    destruct (run_facts _ _ _ Hok _ _ _ Hr) as (Hin & _ & _ & _ & _ & Hs1 & Hs2 & Hrp & c & rs & Hc & _ & Hrs & Hcok & Hlk).
    rewrite (get_chunk_ok _ _ _ Hc). rsimp. rewrite Z.mod_small by lia.
    rewrite aset_okZ by (rewrite (co_map_len _ _ _ Hcok); lia). rsimp.
    set (pm := <[Z.to_nat s := _]> (page_map c)). set (st1 := put_chunk st ch (set_page_map c pm)).
    set (cnt1 := counting (runs L) base i (l1 ++ [x])).
    assert (Hcnt1 : forall ch' s', cnt1 ch' s' = cnt ch' s' + if decide ((ch', s') = (ch, s)) then 1 else 0).
    { intros ch' s'. unfold cnt1, cnt, counting. destruct (decide (runs L !! (ch', s') = Some (SmallRun i))) as [Hr'|Hr'].
      - by apply Hone.
      - destruct (decide ((ch', s') = (ch, s))) as [E|E]; [by injection E as -> -> | lia]. }
    assert (Hok1 : mm_ok_with cnt1 st1 L).
    { replace L with (with_runs L (runs L)) by (by destruct L).
      apply (ok_put_chunk cnt _ st L ch c _ _ rs); try done.
      - intros ch' s' Hne. rewrite Hcnt1. destruct (decide ((ch', s') = (ch, s))); [congruence | lia].
      - apply (recount_run (cnt ch) c rs Hcok (cnt1 ch) s i); [done| |].
        + rewrite aset_okZ by (rewrite (co_map_len _ _ _ Hcok); lia). unfold pm. do 3 f_equal.
          rewrite Hcnt1. destruct (decide ((ch, s) = (ch, s))); [lia | done].
        + intros t Ht. rewrite Hcnt1. destruct (decide ((ch, t) = (ch, s))); [congruence | lia].
      - intros b p Hp. by apply (ok_slots _ _ _ Hok).
      - intros h Hh. by apply (ok_huge _ _ _ Hok). }
    injection Hq as <-.
    destruct (IH (l1 ++ [x]) fuel st1 (if free_in i ch s l1 + 1 =? bin_elements i then true else has) (load64 (mem st) x))
      as (has' & st' & Hg & Hsame & Hfin); try done.
    + by rewrite <- app_assoc.
    + simpl in Hf. lia.
    + intros Hfalse ch' s' Hr'. rewrite Hone by done.
      destruct (Z.eqb_spec (free_in i ch s l1 + 1) (bin_elements i)) as [|Hne]; [done|].
      specialize (Hhas Hfalse ch' s' Hr'). destruct (decide ((ch', s') = (ch, s))) as [E|E]; [|lia].
      injection E as -> ->. lia.
    + exists has', st'. split; [done|]. split; [|done]. eapply same_but_trans; [|exact Hsame]. by apply (same_but_put _ _ c).
Qed.
End Count.

(** * Changing the free lists ([zend_mm_gc] of [Zend/zend_alloc.c], second part)

    [set_link] writes the head of a free list or the link of one of its slots.
    [gc_unlink] uses it to take the slots of the wholly free runs out. *)

Lemma aget_insert_ne {A} (l : list A) i j v :
  0 <= i -> i <> j -> 0 <= j -> aget (<[Z.to_nat j := v]> l) i = aget l i.
Proof.
  intros Hi Hne Hj. unfold aget. destruct (i <? 0); [done|]. by rewrite list_lookup_insert_ne by lia.
Qed.

Section Unlink.
Context {Sys : OS} {Laws : OSLaws} {Rest : Foreign}.
Implicit Types (st : mm).

(** ** Lists of one bin *)
Definition set_bin (L : layout) (i : Z) (l : list Z) : layout :=
  with_slots L (fun b => if b =? i then l else slots L b).

Lemma set_bin_same L i l : slots (set_bin L i l) i = l.
Proof. cbn. by rewrite Z.eqb_refl. Qed.

Lemma set_bin_other L i l b : b <> i -> slots (set_bin L i l) b = slots L b.
Proof. cbn. by destruct (Z.eqb_spec b i). Qed.

(** The parts of the state that the lists of slots are not in. *)
Record same_chunks st st' : Prop := {
  sc_addr : h_addr st' = h_addr st;
  sc_chunks : chunks st' = chunks st;
  sc_os : os st' = os st;
  sc_main : main_chunk (heap st') = main_chunk (heap st);
  sc_cached : cached_chunks (heap st') = cached_chunks (heap st);
  sc_huge : huge_list (heap st') = huge_list (heap st)
}.

Lemma same_chunks_refl st : same_chunks st st.
Proof. by split. Qed.

Lemma same_chunks_trans st1 st2 st3 : same_chunks st1 st2 -> same_chunks st2 st3 -> same_chunks st1 st3.
Proof. intros [] []. split; congruence. Qed.

(** The bytes of the nodes of the huge list. *)
Definition same_nodes (L : layout) (m m' : gmap Z Z) : Prop :=
  forall h k, h ∈ huges L -> k ∈ [0; 8; 16] -> load64 m' (node_of h + k) = load64 m (node_of h + k).

Lemma ok_set_bin cnt st st' L i l :
  mm_ok_with cnt st L -> 0 <= i < 30 -> same_chunks st st' ->
  length (free_slot (heap st')) = 30%nat ->
  (forall b, 0 <= b < 30 -> b <> i -> aget (free_slot (heap st')) b = aget (free_slot (heap st)) b) ->
  (forall b p, b <> i -> p ∈ slots L b -> load64 (mem st') p = load64 (mem st) p) ->
  (exists p, aget (free_slot (heap st')) i = Ok p /\ llist (slot_next st') p l) ->
  NoDup l -> (forall p, p ∈ l -> is_slot (runs L) i p) ->
  (forall h, h ∈ huges L -> i = 2 -> node_of h ∉ l) -> same_nodes L (mem st) (mem st') ->
  mm_ok_with cnt st' (set_bin L i l).
Proof.
  intros [Hr Hc Hrg Hch Hru Hca Hsl Hls Hss Hsn Hhl Hh Hhn] Hi [Ha Hcs Hos Hm Hcc Hhu] Hlen Hfs Hm' Hl Hnd Hin Hno Hn.
  assert (Hnx : nexts st' = nexts st) by (unfold nexts; by rewrite Hcs).
  assert (Hpv : prevs st' = prevs st) by (unfold prevs; by rewrite Hcs).
  assert (Hmain : main st' = main st) by done.
  split; rewrite ?Hnx, ?Hpv, ?Hmain, ?Hcc, ?Hos, ?Hcs, ?Ha, ?Hhu; try done.
  - intros b Hb. destruct (decide (b = i)) as [->|Hne]; [by rewrite set_bin_same|].
    rewrite set_bin_other by done. destruct (Hls b Hb) as (p & Hp & Hll). exists p.
    split; [by rewrite Hfs|]. apply (llist_frame _ _ _ _ Hll). intros x Hx. unfold slot_next. by rewrite (Hm' b x).
  - intros b p. destruct (decide (b = i)) as [->|Hne]; [rewrite set_bin_same; auto|].
    rewrite set_bin_other by done. apply Hss.
  - intros b. destruct (decide (b = i)) as [->|Hne]; [by rewrite set_bin_same|]. by rewrite set_bin_other.
  - apply (llist_frame _ _ _ _ Hhl). intros x Hx. apply list_elem_of_fmap in Hx as (h & -> & Hhin).
    unfold node_next. rewrite Hn; [done..|]. right. right. left.
  - intros h Hhin. destruct (Hh h Hhin) as (H1 & H2 & H3 & H4). split; [|split; [|split; [done|]]].
    + rewrite <- (Z.add_0_r (node_of h)), Hn, Z.add_0_r; [done..|]. left.
    + rewrite Hn; [done..|]. right. left.
    + destruct (decide (i = 2)) as [->|Hne]; [rewrite set_bin_same; by apply Hno|]. by rewrite set_bin_other.
Qed.

(** ** Writing the link of a slot *)

(** It leaves the bytes of all other slots alone. *)
Lemma store_slot_frame cnt st L i q v b p k :
  mm_ok_with cnt st L -> is_slot (runs L) i q -> is_slot (runs L) b p -> p <> q ->
  0 <= k -> k + 8 <= bin_data_size b -> load64 (store64 (mem st) q v) (p + k) = load64 (mem st) (p + k).
Proof.
  intros Hok Hq Hp Hne Hk Hb. apply load64_store64_ne.
  destruct (slots_apart _ _ _ Hok _ _ _ _ Hq Hp) as [|Hd]; [congruence|].
  destruct (bin_facts i (is_slot_bin _ _ _ Hok _ _ Hq)) as (? & _). unfold rdisj in Hd. cbn [fst snd] in Hd. lia.
Qed.

Lemma store_slot_link cnt st L i q v b p :
  mm_ok_with cnt st L -> is_slot (runs L) i q -> is_slot (runs L) b p -> p <> q ->
  load64 (store64 (mem st) q v) p = load64 (mem st) p.
Proof.
  intros Hok Hq Hp Hne. destruct (bin_facts b (is_slot_bin _ _ _ Hok _ _ Hp)) as (? & _).
  rewrite <- (Z.add_0_r p). apply (store_slot_frame cnt st L i q v b p); done || lia.
Qed.

(** A slot that is no node of the huge list. *)
Lemma store_slot_nodes cnt st L i q v :
  mm_ok_with cnt st L -> is_slot (runs L) i q -> q ∉ map node_of (huges L) ->
  same_nodes L (mem st) (store64 (mem st) q v).
Proof.
  intros Hok Hq Hno h k Hh Hk. destruct (ok_huge _ _ _ Hok h Hh) as (_ & _ & Hs & _).
  apply (store_slot_frame cnt st L i q v 2); try done.
  - intros <-. apply Hno, list_elem_of_fmap. by exists h.
  - rewrite !elem_of_cons, elem_of_nil in Hk. destruct Hk as [->|[->|[->|[]]]]; lia.
  - change (bin_data_size 2) with 24. rewrite !elem_of_cons, elem_of_nil in Hk. destruct Hk as [->|[->|[->|[]]]]; lia.
Qed.

Lemma free_not_node cnt st L i q : mm_ok_with cnt st L -> q ∈ slots L i -> q ∉ map node_of (huges L).
Proof.
  intros Hok Hq Hin. apply list_elem_of_fmap in Hin as (h & -> & Hh).
  destruct (ok_huge _ _ _ Hok h Hh) as (_ & _ & Hs & Hn). destruct (ok_slots _ _ _ Hok _ _ Hq) as (_ & Hs').
  by rewrite (is_slot_inj _ _ _ Hok _ _ _ Hs Hs') in Hn.
Qed.

(** What happens to the bytes that are handed out: nothing. *)
Definition owned_kept (L : layout) (m m' : gmap Z Z) : Prop :=
  forall p n a, owned L p n -> p <= a < p + n -> byte_at m' a = byte_at m a.

Lemma owned_kept_refl L m : owned_kept L m m.
Proof. by intros p n a. Qed.

Lemma owned_kept_trans L m1 m2 m3 : owned_kept L m1 m2 -> owned_kept L m2 m3 -> owned_kept L m1 m3.
Proof. intros H1 H2 p n a Ho Ha. by rewrite (H2 p n a Ho Ha), (H1 p n a Ho Ha). Qed.

(** A slot on a free list is apart from all that is handed out. *)
Lemma free_slot_apart cnt st L i q p n :
  mm_ok_with cnt st L -> q ∈ slots L i -> owned L p n -> rdisj (q, bin_data_size i) (p, n).
Proof.
  intros Hok Hq Ho. destruct (ok_slots _ _ _ Hok _ _ Hq) as (Hib & Hs).
  pose proof Hs as (ch & s & j & Hr & Hj & Hqe). pose proof (slot_inside _ _ _ Hok _ _ _ _ Hr Hj) as Hin. rewrite <- Hqe in Hin.
  destruct Ho as [ch' s' m Hr'|b p Hp Hf|node p m Hh].
  - assert (Hne : (ch, s) <> (ch', s')) by congruence.
    pose proof (runs_apart _ _ _ Hok _ _ _ _ _ _ Hr Hr' Hne) as Hd.
    unfold rdisj, run_range in *. cbn [fst snd run_pages] in *. lia.
  - destruct (slots_apart _ _ _ Hok _ _ _ _ Hs Hp) as [->|Hd]; [|done].
    by rewrite (is_slot_inj _ _ _ Hok _ _ _ Hs Hp) in Hq.
  - pose proof (run_huge_apart _ _ _ Hok _ _ _ _ Hr Hh) as Hd. unfold rdisj, run_range, huge_range in *.
    cbn [fst snd run_pages] in *. lia.
Qed.

Lemma store_free_kept cnt st L i q v :
  mm_ok_with cnt st L -> q ∈ slots L i -> owned_kept L (mem st) (store64 (mem st) q v).
Proof.
  intros Hok Hq p n a Ho Ha. apply store64_frame.
  pose proof (free_slot_apart _ _ _ _ _ _ _ Hok Hq Ho) as Hd. unfold rdisj in Hd. cbn [fst snd] in Hd.
  destruct (ok_slots _ _ _ Hok _ _ Hq) as (Hib & _). destruct (bin_facts i Hib) as (? & _). lia.
Qed.

Lemma slot_word cnt st L i p : mm_ok_with cnt st L -> is_slot (runs L) i p -> word64 p.
Proof.
  intros Hok Hp. pose proof (is_slot_bin _ _ _ Hok _ _ Hp) as Hb. destruct Hp as (ch & s & j & Hr & Hj & ->).
  destruct (run_facts _ _ _ Hok _ _ _ Hr) as (_ & ? & _ & ? & _ & ? & ? & _). cbn [run_pages] in *.
  pose proof (slot_inside _ _ _ Hok _ _ _ _ Hr Hj). destruct (bin_facts i Hb) as (? & _). unfold word64. lia.
Qed.

(** ** Taking a slot out of its list *)
Lemma llist_remove nx nx' l1 : forall h x l2 v,
  llist nx h (l1 ++ x :: l2) -> nx x = Some v ->
  (forall y, y ∈ l1 ++ x :: l2 -> Some y <> last l1 -> nx' y = nx y) ->
  (forall q, last l1 = Some q -> nx' q = Some v) -> NoDup (l1 ++ x :: l2) ->
  llist nx' (match l1 with [] => v | _ => h end) (l1 ++ l2).
Proof.
  induction l1 as [|y l1 IH]; intros h x l2 v Hl Hx Hkeep Hlast Hnd.
  - cbn [app] in *. destruct Hl as (_ & _ & q & Hq & Hl). rewrite Hx in Hq. injection Hq as <-.
    apply (llist_frame _ _ _ _ Hl). intros z Hz. apply Hkeep; [by right | done].
  - cbn [app] in *. destruct Hl as (-> & Hy & q & Hq & Hl). apply NoDup_cons in Hnd as [Hyn Hnd].
    split; [done|]. split; [done|]. destruct l1 as [|z l1].
    + exists v. split; [by apply Hlast|]. apply (IH q x l2 v Hl Hx); [|done|done].
      intros w Hw _. apply Hkeep; [by right|]. cbn. intros [= ->]. done.
    + exists q. split.
      * rewrite Hkeep; [done | left|]. intros Hlz. apply Hyn, elem_of_app. left.
        rewrite last_cons_cons in Hlz. symmetry in Hlz. apply last_Some in Hlz as (l' & ->).
        apply elem_of_app. right. left.
      * apply (IH q x l2 v Hl Hx); [|by intros w; rewrite <- (last_cons_cons y); apply Hlast|done].
        intros w Hw Hne. apply Hkeep; [by right | by rewrite last_cons_cons].
Qed.

Lemma slot_next_inv st x q : slot_next st x = Some q -> q = load64 (mem st) x.
Proof. unfold slot_next. congruence. Qed.

Lemma set_link_ok cnt st L i l1 x l2 :
  mm_ok_with cnt st L -> 0 <= i < 30 -> slots L i = l1 ++ x :: l2 ->
  exists st', set_link st i (last l1) (load64 (mem st) x) = Ok st' /\
    mm_ok_with cnt st' (set_bin L i (l1 ++ l2)) /\ same_chunks st st' /\ owned_kept L (mem st) (mem st') /\
    (forall y, y ∈ slots L i -> Some y <> last l1 -> load64 (mem st') y = load64 (mem st) y).
Proof.
  intros Hok Hi Hsl. destruct (ok_lists _ _ _ Hok i Hi) as (h & Hh & Hl). rewrite Hsl in Hl.
  pose proof (ok_slots_nodup _ _ _ Hok i) as Hnd. rewrite Hsl in Hnd.
  assert (Hnd' : NoDup (l1 ++ l2)).
  { apply (sublist_NoDup _ (l1 ++ x :: l2)); [done|]. apply sublist_app; [done | by constructor]. }
  assert (Hsub : forall y, y ∈ l1 ++ l2 -> y ∈ slots L i).
  { intros y. rewrite Hsl, !elem_of_app, elem_of_cons. tauto. }
  assert (Hslot : forall y, y ∈ slots L i -> is_slot (runs L) i y) by (intros y Hy; by apply (ok_slots _ _ _ Hok)).
  assert (Hnodes : forall h, h ∈ huges L -> i = 2 -> node_of h ∉ l1 ++ l2).
  { intros g Hg -> Hin. destruct (ok_huge _ _ _ Hok g Hg) as (_ & _ & _ & Hn). by apply Hn, Hsub. }
  pose proof (ok_slot_len _ _ _ Hok) as Hlen.
  assert (Hw : word64 (load64 (mem st) x)).
  { assert (Hx : llist (slot_next st) (load64 (mem st) x) l2).
    { clear -Hl. revert h Hl. induction l1 as [|y l1 IH]; intros h Hl; cbn [app llist] in Hl.
      - destruct Hl as (_ & _ & q & Hq & Hl). by rewrite <- (slot_next_inv _ _ _ Hq).
      - destruct Hl as (_ & _ & q & _ & Hl). by eapply IH. }
    destruct l2 as [|y l2]; [cbn [llist] in Hx; rewrite Hx; unfold word64; lia|].
    destruct Hx as (-> & _). apply (slot_word cnt st L i); [done|]. apply Hslot, Hsub.
    rewrite elem_of_app, elem_of_cons. tauto. }
  destruct (last l1) as [q|] eqn:Elast; cbn [set_link].
  - assert (Hqin : q ∈ slots L i).
    { apply Hsub, elem_of_app. left. apply last_Some in Elast as (l' & ->). apply elem_of_app. right. left. }
    eexists. split; [done|]. set (m' := store64 (mem st) q _).
    assert (Hq : load64 m' q = load64 (mem st) x) by (by apply load_store64).
    assert (Hother : forall b p, is_slot (runs L) b p -> p <> q -> load64 m' p = load64 (mem st) p).
    { intros b p Hp Hne. apply (store_slot_link cnt st L i q _ b); auto. }
    split; [|split; [by split|split; [by apply (store_free_kept cnt st L i)|]]].
    + apply (ok_set_bin cnt st); try done; auto.
      * intros b p Hne Hp. apply (Hother b); [by apply (ok_slots _ _ _ Hok)|]. intros ->.
        apply Hne, (is_slot_inj _ _ _ Hok _ _ q); [by apply (ok_slots _ _ _ Hok) | auto].
      * exists h. split; [done|].
        assert (Hh' : match l1 with [] => load64 (mem st) x | _ => h end = h) by (by destruct l1).
        rewrite <- Hh'. apply (llist_remove (slot_next st)  _ l1 h x); try done.
        -- intros y Hy Hne. unfold slot_next. cbn [mem set_mem]. f_equal. apply (Hother i); [apply Hslot; by rewrite Hsl|].
           intros ->. by apply Hne.
        -- intros q' Hq'. rewrite Elast in Hq'. injection Hq' as <-. unfold slot_next. cbn [mem set_mem]. by rewrite Hq.
      * apply (store_slot_nodes cnt st L i); [done | by apply Hslot | by apply (free_not_node cnt st L i)].
    + intros y Hy Hne. cbn [mem set_mem]. apply (Hother i); [by apply Hslot|]. intros ->. by apply Hne.
  - apply last_None in Elast as ->. cbn [app] in *. destruct Hl as (-> & _ & q & Hq & Hl). apply slot_next_inv in Hq as ->.
    rewrite aset_okZ by lia. rsimp. eexists. split; [done|].
    split; [|split; [by split|split; [done|done]]].
    apply (ok_set_bin cnt st); try done; auto.
    + cbn. by rewrite length_insert.
    + intros b Hb Hne. cbn. apply aget_insert_ne; [lia | done | lia].
    + exists (load64 (mem st) x). split; [|done]. cbn. apply aget_insert_eq. lia.
Qed.

(** ** Taking the slots of the full runs out *)

(** All slots of the run are free, according to its counter. *)
Definition full_run (cnt : Z -> Z -> Z) (R : gmap (Z * Z) run) (ch s b : Z) : Prop :=
  R !! (ch, s) = Some (SmallRun b) /\ cnt ch s mod 512 = bin_elements b.

Definition in_full_run (cnt : Z -> Z -> Z) (R : gmap (Z * Z) run) (b p : Z) : Prop :=
  exists ch s, full_run cnt R ch s b /\ p ∈ run_slots ch s b.

Lemma slot_in_full_run cnt cnt' st L ch s b p :
  mm_ok_with cnt' st L -> runs L !! (ch, s) = Some (SmallRun b) -> p ∈ run_slots ch s b ->
  in_full_run cnt (runs L) b p -> full_run cnt (runs L) ch s b.
Proof.
  intros Hok Hr Hp (ch' & s' & Hf & Hp'). pose proof Hf as [Hr' _].
  pose proof (run_slot_range _ _ _ Hok _ _ _ _ Hr Hp) as H1. pose proof (run_slot_range _ _ _ Hok _ _ _ _ Hr' Hp') as H2.
  unfold run_lo, run_hi in *. by destruct (same_run _ _ _ Hok _ _ _ _ _ _ p Hr Hr') as (-> & -> & _).
Qed.

(** Layouts with the same lists of slots. *)
Lemma ok_slots_ext cnt st L S : mm_ok_with cnt st L -> (forall b, S b = slots L b) -> mm_ok_with cnt st (with_slots L S).
Proof.
  intros [Hr Hc Hrg Hch Hru Hca Hsl Hls Hss Hsn Hhl Hh Hhn] HS. split; cbn [slots with_slots]; try done.
  - intros b Hb. rewrite HS. by apply Hls.
  - intros b p. rewrite HS. apply Hss.
  - intros b. by rewrite HS.
  - intros h Hin. rewrite HS. by apply Hh.
Qed.

(** With fewer free slots, more is handed out. *)
Lemma owned_slots_mono L S p n : (forall b x, x ∈ S b -> x ∈ slots L b) -> owned L p n -> owned (with_slots L S) p n.
Proof.
  intros HS [ch s k Hr|b q Hs Hf|node q k Hh].
  - by apply (owned_large (with_slots L S) ch s k).
  - apply (owned_small (with_slots L S) b q); [done|]. cbn. auto.
  - by apply (owned_huge (with_slots L S) node).
Qed.

Lemma owned_kept_mono L S m m' :
  (forall b x, x ∈ S b -> x ∈ slots L b) -> owned_kept (with_slots L S) m m' -> owned_kept L m m'.
Proof. intros HS H p n a Ho. by apply H, owned_slots_mono. Qed.

Lemma gc_unlink_ok cnt i : 0 <= i < 30 -> forall l2 l1 fuel st L p,
  mm_ok_with cnt st L -> slots L i = l1 ++ l2 ->
  (forall ch s, runs L !! (ch, s) = Some (SmallRun i) -> 0 <= cnt ch s <= 512) ->
  llist (slot_next st) p l2 -> (length l2 < fuel)%nat ->
  exists st' l', gc_unlink st i (last l1) p fuel = Ok st' /\ mm_ok_with cnt st' (set_bin L i (l1 ++ l')) /\
    (forall x, x ∈ l' <-> x ∈ l2 /\ ~ in_full_run cnt (runs L) i x) /\
    same_chunks st st' /\ owned_kept L (mem st) (mem st').
Proof.
  intros Hi. induction l2 as [|x l2 IH]; intros l1 fuel st L p Hok Hsl Hcnt Hl Hf.
  - destruct fuel as [|fuel]; [lia|]. cbn [gc_unlink llist] in *. rewrite Hl. cbn [Z.eqb].
    exists st, []. split; [done|]. split; [|split; [|split; [apply same_chunks_refl | apply owned_kept_refl]]].
    + apply ok_slots_ext; [done|]. intros b. destruct (Z.eqb_spec b i) as [->|]; [by rewrite Hsl | done].
    + intros x. rewrite elem_of_nil. tauto.
  - destruct fuel as [|fuel]; [simpl in Hf; lia|]. cbn [gc_unlink]. destruct Hl as (-> & Hx0 & q & Hq & Hl).
    apply slot_next_inv in Hq as ->. destruct (Z.eqb_spec x 0) as [|_]; [done|].
    assert (Hxin : x ∈ slots L i) by (rewrite Hsl; apply elem_of_app; right; left).
    destruct (ok_slots _ _ _ Hok i x Hxin) as (_ & ch & s & j & Hr & Hj & Hxe).
    pose proof (Hcnt ch s Hr) as Hc.
    rewrite Hxe, (slot_run_ok _ _ _ Hok ch s i j Hr Hj Hc), <- Hxe. rsimp.
    destruct (srun_info i (cnt ch s) Hi Hc) as (_ & _ & _ & ->).
    assert (Hxs : x ∈ run_slots ch s i) by (rewrite Hxe; apply list_elem_of_fmap; exists j; split; [done | apply elem_of_seqZ; lia]).
    destruct (Z.eqb_spec (cnt ch s mod 512) (bin_elements i)) as [Hfull|Hfull].
    + destruct (set_link_ok cnt st L i l1 x l2 Hok Hi Hsl) as (st1 & -> & Hok1 & Hsame & Hkept & Hlinks). rsimp.
      destruct (IH l1 fuel st1 (set_bin L i (l1 ++ l2)) (load64 (mem st) x)) as (st' & l' & Hg & Hok' & Hl' & Hs' & Hk');
        [done | apply set_bin_same | done | | simpl in Hf; lia |].
      { apply (llist_frame _ _ _ _ Hl). intros y Hy. unfold slot_next. f_equal. apply Hlinks; [rewrite Hsl, elem_of_app, elem_of_cons; tauto|].
        intros Hly. symmetry in Hly. apply last_Some in Hly as (l' & ->).
        pose proof (ok_slots_nodup _ _ _ Hok i) as Hnd. rewrite Hsl in Hnd. apply NoDup_app in Hnd as (_ & Hnd & _).
        apply (Hnd y); [apply elem_of_app; right; left | by right]. }
      exists st', l'. split; [done|]. split.
      { apply (ok_slots_ext _ _ _ (fun b => if b =? i then l1 ++ l' else slots L b)) in Hok'; [exact Hok'|].
        intros b. cbn. by destruct (b =? i). }
      split; [|split; [by eapply same_chunks_trans|]].
      * intros y. rewrite Hl', elem_of_cons. cbn. split; [tauto|]. intros [[->|Hy] Hn]; [|done].
        exfalso. apply Hn. by exists ch, s.
      * eapply owned_kept_trans; [exact Hkept|]. eapply owned_kept_mono; [|exact Hk'].
        intros b y. cbn beta. destruct (Z.eqb_spec b i) as [->|]; [|by intros]. rewrite Hsl, !elem_of_app, elem_of_cons. tauto.
    + destruct (IH (l1 ++ [x]) fuel st L (load64 (mem st) x)) as (st' & l' & Hg & Hok' & Hl' & Hs' & Hk'); try done.
      * by rewrite <- app_assoc.
      * simpl in Hf; lia.
      * rewrite last_snoc in Hg. exists st', (x :: l'). split; [done|]. rewrite <- app_assoc in Hok'.
        split; [done|]. split; [|done]. intros y. rewrite !elem_of_cons, Hl'. split; [|tauto].
        intros [->|[Hy Hn]]; [|tauto]. split; [by left|]. intros Hfr.
        by destruct (slot_in_full_run _ _ _ _ _ _ _ _ Hok Hr Hxs Hfr).
Qed.
End Unlink.
