(* ===== verification/MmBins.v ===== *)
(** * The bins pass of the collector ([zend_mm_gc] of [Zend/zend_alloc.c])

    [gc_bins] counts the free slots of every run and takes the slots of the
    wholly free runs out of the free lists. *)
From S2P Require Export MmUnlink.

Section Bins.
Context {Sys : OS} {Laws : OSLaws} {Rest : Foreign}.
Implicit Types (st : mm).

(** ** The bound of the lists *)
Lemma chunk_ring_size cnt st L : mm_ok_with cnt st L -> (length (main st :: others L) <= size (chunks st))%nat.
Proof.
  intros Hok. apply keys_size.
  - pose proof (chunks_nodup _ _ _ Hok) as Hn. rewrite app_comm_cons in Hn. by apply NoDup_app in Hn as (? & _).
  - intros x Hx. destruct (ok_chunk _ _ _ Hok x Hx) as (c & _ & Hc & _). by exists c.
Qed.

Lemma length_places (l : list Z) :
  length (l ≫= fun ch => (fun k => ch + 8 * k) <$> seqZ 0 262144) = (length l * Z.to_nat 262144)%nat.
Proof.
  induction l as [|x l IH]; [done|]. cbn [mbind list_bind length].
  rewrite length_app, length_fmap, length_seqZ. rewrite IH. lia.
Qed.

Lemma slot_list_bound cnt st L b l : mm_ok_with cnt st L -> NoDup l -> (forall p, p ∈ l -> is_slot (runs L) b p) ->
  (length l < slots_bound st)%nat.
Proof.
  intros Hok Hnd Hl. pose proof (chunk_ring_size _ _ _ Hok) as Hsz.
  assert (Hsub : l ⊆+ (main st :: others L) ≫= fun ch => (fun k => ch + 8 * k) <$> seqZ 0 262144).
  { apply NoDup_submseteq; [done|]. intros p Hp. pose proof (is_slot_bin _ _ _ Hok _ _ (Hl p Hp)) as Hb.
    destruct (Hl p Hp) as (ch & s & i & Hr & Hi & Hpe).
    destruct (run_facts _ _ _ Hok _ _ _ Hr) as (Hin & _ & _ & _ & _ & Hs & Hse & _). cbn [run_pages] in Hse.
    pose proof (slot_inside _ _ _ Hok _ _ _ _ Hr Hi) as Hins. rewrite <- Hpe in Hins.
    destruct (bin_facts b Hb) as (Hd & Hd8 & _). apply list_elem_of_bind. exists ch. split; [|done].
    apply list_elem_of_fmap. exists (s * 512 + i * (bin_data_size b / 8)). pose proof (Z.div_mod (bin_data_size b) 8 ltac:(lia)) as Hdm.
    unfold slot_addr in Hpe. split; [nia|]. apply elem_of_seqZ. nia. }
  apply submseteq_length in Hsub. rewrite length_places in Hsub. unfold slots_bound.
  change ZEND_MM_PAGES with 512. nia.
Qed.

Lemma slots_bound_ok cnt st L b : mm_ok_with cnt st L -> (length (slots L b) < slots_bound st)%nat.
Proof.
  intros Hok. apply (slot_list_bound cnt st L b); [done | apply (ok_slots_nodup _ _ _ Hok)|].
  intros p Hp. by apply (ok_slots _ _ _ Hok).
Qed.

(** ** The counters *)

(** The free slots of the runs of the bins below [i]. *)
Definition tally_upto (L : layout) (i ch s : Z) : Z :=
  match runs L !! (ch, s) with
  | Some (SmallRun b) => if b <? i then free_in b ch s (slots L b) else 0
  | _ => 0
  end.

Definition tally (L : layout) : Z -> Z -> Z := tally_upto L 30.

Lemma tally_range cnt st L i ch s b :
  mm_ok_with cnt st L -> runs L !! (ch, s) = Some (SmallRun b) -> 0 <= tally_upto L i ch s <= 512.
Proof.
  intros Hok Hr. unfold tally_upto. rewrite Hr. destruct (b <? i); [|lia].
  destruct (free_in_bound _ _ _ Hok b ch s (slots L b)) as [Hb _]; [apply (ok_slots_nodup _ _ _ Hok)| |done|].
  - intros p Hp. by apply (ok_slots _ _ _ Hok).
  - destruct (run_facts _ _ _ Hok _ _ _ Hr) as (_ & _ & _ & _ & Hbb & _). destruct (bin_facts b Hbb) as (_ & _ & He & _).
    split; [apply count_in_nonneg | lia].
Qed.

(** The slots that stay on the lists. *)
Definition kept_slots (L : layout) (b : Z) (l : list Z) : Prop :=
  forall x, x ∈ l <-> x ∈ slots L b /\ ~ in_full_run (tally L) (runs L) b x.

Record bins_done (L : layout) (i : Z) (S : Z -> list Z) : Prop := {
  bd_below b : 0 <= b < i -> kept_slots L b (S b);
  bd_above b : ~ (0 <= b < i) -> S b = slots L b
}.

Record bins_frame (L : layout) st st' : Prop := {
  bf_addr : h_addr st' = h_addr st;
  bf_os : os st' = os st;
  bf_main : main_chunk (heap st') = main_chunk (heap st);
  bf_dom : dom (chunks st') = dom (chunks st);
  bf_kept : owned_kept L (mem st) (mem st')
}.

Lemma bins_frame_trans L S st1 st2 st3 :
  (forall b x, x ∈ S b -> x ∈ slots L b) ->
  bins_frame L st1 st2 -> bins_frame (with_slots L S) st2 st3 -> bins_frame L st1 st3.
Proof.
  intros HS [] [? ? ? ? Hk]. split; try congruence. eapply owned_kept_trans; [done|]. by eapply owned_kept_mono.
Qed.

(** [cnt] and [cnt'] agree on the runs of bin [b]. *)
Lemma in_full_run_ext cnt cnt' R b x :
  (forall ch s, R !! (ch, s) = Some (SmallRun b) -> cnt ch s = cnt' ch s) ->
  in_full_run cnt R b x <-> in_full_run cnt' R b x.
Proof.
  intros H. split; intros (ch & s & [Hr Hc] & Hx); exists ch, s; (split; [|done]); (split; [done|]);
    [rewrite <- H by done | rewrite H by done]; done.
Qed.

Lemma tally_next (L : layout) i ch s r :
  runs L !! (ch, s) = Some r -> counting (runs L) (tally_upto L i) i (slots L i) ch s = tally_upto L (i + 1) ch s.
Proof.
  intros Hr. unfold counting, tally_upto. rewrite Hr. destruct (decide _) as [E|E].
  - injection E as ->. destruct (Z.ltb_spec i (i + 1)); [done | lia].
  - destruct r as [n|b]; [done|]. assert (b <> i) by congruence. zcases; try done; lia.
Qed.

Lemma tally_same (L : layout) i j b ch s :
  runs L !! (ch, s) = Some (SmallRun b) -> b < i -> b < j -> tally_upto L i ch s = tally_upto L j ch s.
Proof. intros Hr Hi Hj. unfold tally_upto. rewrite Hr. zcases; try done; lia. Qed.

(** The slots of bin [i] are done. *)
Lemma bins_done_next (L : layout) i S l : 0 <= i -> bins_done L i S -> kept_slots L i l ->
  bins_done L (i + 1) (fun b => if b =? i then l else S b).
Proof.
  intros Hi [Hb Ha] Hl. split.
  - intros b Hb'. destruct (Z.eqb_spec b i) as [->|]; [done|]. apply Hb. lia.
  - intros b Hb'. destruct (Z.eqb_spec b i) as [->|]; [lia|]. apply Ha. lia.
Qed.

Lemma bins_done_sub (L : layout) i S b x : bins_done L i S -> x ∈ S b -> x ∈ slots L b.
Proof.
  intros [Hb Ha] Hx. destruct (decide (0 <= b < i)) as [Hbi|Hbi]; [by apply (Hb b Hbi) | by rewrite <- Ha].
Qed.

Lemma gc_bin_ok L st S i :
  0 <= i < 30 -> bins_done L i S -> mm_ok_with (tally_upto L i) st (with_slots L S) ->
  exists p st1 st' l, aget (free_slot (heap st)) i = Ok p /\
    (gc_count st i p false (slots_bound st) = Ok (false, st1) /\ st' = st1 \/
     gc_count st i p false (slots_bound st) = Ok (true, st1) /\
     exists q, aget (free_slot (heap st1)) i = Ok q /\ gc_unlink st1 i None q (slots_bound st1) = Ok st') /\
    kept_slots L i l /\ mm_ok_with (tally_upto L (i + 1)) st' (set_bin (with_slots L S) i l) /\
    bins_frame (with_slots L S) st st'.
Proof.
  intros Hi Hd Hok. set (L1 := with_slots L S) in *.
  assert (Hsl : slots L1 i = slots L i) by (apply (bd_above _ _ _ Hd); lia).
  destruct (ok_lists _ _ _ Hok i Hi) as (p & Hp & Hl). exists p.
  destruct (gc_count_ok i L1 (tally_upto L i) Hi (slots L1 i) [] (slots_bound st) st false p) as (has & st1 & Hg & Hsame & Hok1 & Hhas);
    [done | | done | by apply (slots_bound_ok _ _ _ _ Hok) | | ].
  { apply (ok_counters (tally_upto L i)); [done|]. intros ch s r Hr. unfold counting. destruct (decide _) as [E|]; [|done].
    unfold tally_upto. change (runs L) with (runs L1). rewrite E. by rewrite Z.ltb_irrefl. }
  { intros _ ch s Hr. destruct (bin_facts i Hi) as (_ & _ & ? & _). unfold free_in, count_in. simpl. lia. }
  rewrite Hsl in Hok1, Hhas.
  assert (Hok1' : mm_ok_with (tally_upto L (i + 1)) st1 L1).
  { eapply ok_counters; [exact Hok1|]. intros ch s r Hr. symmetry. by apply (tally_next L i ch s (SmallRun r)). }
  assert (Hframe1 : bins_frame L1 st st1).
  { destruct Hsame. split; try congruence. }
  assert (Hcnt : forall ch s, runs L !! (ch, s) = Some (SmallRun i) -> tally L ch s = free_in i ch s (slots L i)).
  { intros ch s Hr. unfold tally, tally_upto. rewrite Hr. destruct (Z.ltb_spec i 30); [done | lia]. }
  destruct has.
  - destruct (ok_lists _ _ _ Hok1' i Hi) as (q & Hq & Hl1).
    destruct (gc_unlink_ok (tally_upto L (i + 1)) i Hi (slots L1 i) [] (slots_bound st1) st1 L1 q) as (st' & l & Hu & Hok2 & Hkl & Hsc & Hk);
      [done | done | | done | by apply (slots_bound_ok _ _ _ _ Hok1') |].
    { intros ch s Hr. pose proof (tally_range _ _ _ (i + 1) ch s i Hok1' Hr) as Ht.
      revert Ht. unfold tally_upto. change (runs L) with (runs L1). rewrite Hr, Hsl. done. }
    exists st1, st', l. split; [done|]. split; [right; split; [done|]; by exists q|]. split; [|split; [done|]].
    + intros x. rewrite Hkl, Hsl. change (runs L1) with (runs L).
      rewrite (in_full_run_ext (tally_upto L (i + 1)) (tally L)); [done|].
      intros ch s Hr. apply (tally_same L _ _ i); [done | lia..].
    + destruct Hframe1, Hsc. split; try congruence. by eapply owned_kept_trans.
  - exists st1, st1, (slots L i). split; [done|]. split; [by left|]. split; [|split; [|done]].
    + intros x. split; [|tauto]. intros Hx. split; [done|]. intros (ch & s & [Hr Hc] & _).
      specialize (Hhas eq_refl ch s Hr). rewrite (Hcnt ch s Hr) in Hc.
      pose proof (count_in_nonneg (run_lo ch s) (run_hi ch s i) (slots L i)). fold (free_in i ch s (slots L i)) in *.
      destruct (bin_facts i Hi) as (_ & _ & ? & _). rewrite Z.mod_small in Hc by lia. lia.
    + apply ok_slots_ext; [done|]. intros b. destruct (Z.eqb_spec b i) as [->|]; [by rewrite Hsl | done].
Qed.

Lemma gc_bins_ok L : forall fuel i st S,
  0 <= i <= 30 -> 30 - i < Z.of_nat fuel -> bins_done L i S -> mm_ok_with (tally_upto L i) st (with_slots L S) ->
  exists st' S', gc_bins st i fuel = Ok st' /\ bins_done L 30 S' /\ mm_ok_with (tally L) st' (with_slots L S') /\
    bins_frame (with_slots L S) st st'.
Proof.
  induction fuel as [|fuel IH]; intros i st S Hi Hf Hd Hok; [lia|]. cbn [gc_bins]. change ZEND_MM_BINS with 30.
  destruct (Z.ltb_spec i 30) as [Hlt|Hge].
  - destruct (gc_bin_ok L st S i ltac:(lia) Hd Hok) as (p & st1 & st2 & l & Hp & Hrun & Hl & Hok2 & Hfr).
    rewrite Hp. rsimp. set (S2 := fun b => if b =? i then l else S b).
    assert (Hd2 : bins_done L (i + 1) S2) by (apply bins_done_next; done || lia).
    destruct (IH (i + 1) st2 S2 ltac:(lia) ltac:(lia) Hd2 Hok2) as (st' & S' & Hg & Hd' & Hok' & Hfr').
    exists st', S'. split.
    { destruct Hrun as [[-> ->] | [-> (q & Hq & Hu)]]; rsimp; cbn [negb]; [done|]. rewrite Hq. rsimp. by rewrite Hu. }
    split; [done|]. split; [done|]. apply (bins_frame_trans _ S2 _ st2); [|done|done].
    intros b x. unfold S2. destruct (Z.eqb_spec b i) as [->|]; [|done]. intros Hx. cbn [slots with_slots].
    rewrite (bd_above _ _ _ Hd i) by lia. by apply Hl.
  - assert (i = 30) as -> by lia. exists st, S. split; [done|]. split; [done|]. split; [done|].
    split; done.
Qed.
End Bins.
