(* ===== verification/MmGc.v ===== *)
(** * The sweep of the collector ([zend_mm_gc] of [Zend/zend_alloc.c])

    [gc_chunk] frees the wholly free runs of a chunk and resets the counters
    of the others. *)
From S2P Require Export MmBins.

(** The pages of all runs. *)
Definition run_total (R : gmap (Z * Z) run) : Z := map_fold (fun _ r n => run_pages r + n) 0 R.

Lemma run_total_delete R k r : R !! k = Some r -> run_total R = run_pages r + run_total (delete k R).
Proof.
  intros Hr. unfold run_total.
  apply (map_fold_delete_L (fun _ r n => run_pages r + n) 0 k r R); [|done].
  intros j1 j2 z1 z2 y _ _ _. lia.
Qed.

Section Sweep.
Context {Sys : OS} {Laws : OSLaws} {Rest : Foreign}.
Implicit Types (st : mm).

(** Wholly free runs have no slots on the lists and no nodes. *)
Definition full_unused (cnt : Z -> Z -> Z) (L : layout) : Prop :=
  forall ch s b p, full_run cnt (runs L) ch s b -> p ∈ run_slots ch s b -> (p ∉ slots L b) /\ (p ∉ map node_of (huges L)).

(** [R'] is [R] without the full runs among those that [P] selects. *)
Definition swept (cnt : Z -> Z -> Z) (P : Z -> Z -> Prop) (R R' : gmap (Z * Z) run) : Prop :=
  forall ch s r, R' !! (ch, s) = Some r <->
    R !! (ch, s) = Some r /\ ~ (P ch s /\ exists b, r = SmallRun b /\ cnt ch s mod 512 = bin_elements b).

(** The counters of the selected runs are reset. *)
Definition reset_counters (cnt cnt' : Z -> Z -> Z) (P : Z -> Z -> Prop) (R : gmap (Z * Z) run) : Prop :=
  forall ch s b, R !! (ch, s) = Some (SmallRun b) -> (P ch s -> cnt' ch s = 0) /\ (~ P ch s -> cnt' ch s = cnt ch s).

(** No run covers page [i] of the chunk from before. *)
Definition boundary (R : gmap (Z * Z) run) (ch i : Z) : Prop :=
  forall s r, R !! (ch, s) = Some r -> s < i -> s + run_pages r <= i.

(** Deleting a run that is not in use. *)
Lemma ok_release cnt st L ch s b :
  mm_ok_with cnt st L -> runs L !! (ch, s) = Some (SmallRun b) ->
  (forall p, p ∈ run_slots ch s b -> (p ∉ slots L b) /\ (p ∉ map node_of (huges L))) ->
  exists st', zend_mm_free_pages_ex st ch s (bin_pages b) false = Ok st' /\
    mm_ok_with cnt st' (with_runs L (delete (ch, s) (runs L))) /\ keeps st st'.
Proof.
  intros Hok Hr Hno.
  destruct (run_facts _ _ _ Hok _ _ _ Hr) as (Hin & _ & _ & _ & Hb & Hs & Hse & _ & c & rs & Hc & Hh & Hrs & Hcok & Hl).
  destruct (release_run_ok _ _ _ Hcok s _ Hl) as (c' & Hrel & Hcok' & _ & Hlinks & _). cbn [run_pages] in *.
  unfold zend_mm_free_pages_ex. rewrite (get_chunk_ok _ _ _ Hc). rsimp. rewrite Hrel. rsimp. cbn [andb].
  eexists. split; [done|]. split; [|by split].
  assert (Hkeep : forall b' p, is_slot (runs L) b' p -> ~ (b' = b /\ p ∈ run_slots ch s b) -> is_slot (delete (ch, s) (runs L)) b' p).
  { intros b' p (ch' & s' & j & Hr' & Hj & Hp) Hn. exists ch', s', j. split; [|done].
    rewrite lookup_delete_ne; [done|]. intros E. injection E as <- <-. rewrite Hr in Hr'. injection Hr' as <-.
    apply Hn. split; [done|]. apply list_elem_of_fmap. exists j. split; [done|]. apply elem_of_seqZ. lia. }
  apply (ok_put_chunk cnt cnt st L ch c c' _ (delete s rs)); try done.
  - intros ch' s' Hne. by rewrite lookup_delete_ne by congruence.
  - intros t. destruct (decide (t = s)) as [->|Hne]; [by rewrite !lookup_delete_eq|].
    rewrite !lookup_delete_ne by congruence. apply Hrs.
  - intros b' p Hp. apply Hkeep; [by apply (ok_slots _ _ _ Hok)|]. intros (-> & Hp').
    by destruct (Hno p Hp') as [Hn _].
  - intros h Hh'. apply Hkeep; [by apply (ok_huge _ _ _ Hok)|]. intros (<- & Hp').
    destruct (Hno _ Hp') as [_ Hn]. apply Hn, list_elem_of_fmap. by exists h.
Qed.

(** Resetting the counter of a run. *)
Lemma ok_reset cnt st L ch s b c :
  mm_ok_with cnt st L -> runs L !! (ch, s) = Some (SmallRun b) -> chunks st !! ch = Some c ->
  exists pm, aset (page_map c) s (ZEND_MM_SRUN b) = Ok pm /\
    mm_ok_with (fun ch' s' => if decide ((ch', s') = (ch, s)) then 0 else cnt ch' s') (put_chunk st ch (set_page_map c pm)) L.
Proof.
  intros Hok Hr Hc0.
  destruct (run_facts _ _ _ Hok _ _ _ Hr) as (Hin & _ & _ & _ & Hb & Hs & Hse & Hrp & c' & rs & Hc & Hh & Hrs & Hcok & Hl).
  rewrite Hc0 in Hc. injection Hc as <-.
  assert (Hset : aset (page_map c) s (ZEND_MM_SRUN b) = Ok (<[Z.to_nat s := ZEND_MM_SRUN b]> (page_map c)))
    by (apply aset_okZ; rewrite (co_map_len _ _ _ Hcok); lia).
  eexists. split; [exact Hset|]. replace L with (with_runs L (runs L)) by (by destruct L).
  apply (ok_put_chunk cnt _ st L ch c _ _ rs); try done.
  - intros ch' s' Hne. destruct (decide _) as [E|]; [congruence | done].
  - apply (recount_run (cnt ch) c rs Hcok _ s b); [done| |].
    + destruct (decide _); [|done]. by rewrite <- srun_ex_0.
    + intros t Ht. destruct (decide _) as [E|]; [congruence | done].
  - intros b' p Hp. by apply (ok_slots _ _ _ Hok).
  - intros h Hh'. by apply (ok_huge _ _ _ Hok).
Qed.

Lemma swept_refl cnt P R : (forall ch s r, R !! (ch, s) = Some r -> ~ P ch s) -> swept cnt P R R.
Proof. intros H ch s r. split; [|tauto]. intros Hr. split; [done|]. intros [HP _]. by apply (H ch s r). Qed.

Definition pages_from (ch i : Z) (ch' s : Z) : Prop := ch' = ch /\ i <= s.

(** The runs that a page can belong to. *)
Lemma page_free_or_run cnt st L ch i c :
  mm_ok_with cnt st L -> ch ∈ main st :: others L -> chunks st !! ch = Some c -> 1 <= i < 512 -> boundary (runs L) ch i ->
  exists bit, zend_mm_bitset_is_set (free_map c) i = Ok bit /\
    if bit then exists r, runs L !! (ch, i) = Some r /\ boundary (runs L) ch (i + run_pages r) /\
      forall s, i < s < i + run_pages r -> runs L !! (ch, s) = None
    else runs L !! (ch, i) = None /\ boundary (runs L) ch (i + 1).
Proof.
  intros Hok Hch Hc Hi Hbd. destruct (ok_chunk _ _ _ Hok ch Hch) as (c' & rs & Hc' & _ & Hrs & Hcok).
  rewrite Hc in Hc'. injection Hc' as <-. exists (bit_of (free_map c) i).
  split; [apply is_set_spec; [apply Hcok | unfold nbits; rewrite (co_len _ _ _ Hcok); lia]|].
  destruct (bit_of (free_map c) i) eqn:Ebit.
  - apply (co_bits _ _ _ Hcok) in Ebit as [?|(s & r & Hs & Hr)]; [lia | | lia]. rewrite Hrs in Hs.
    assert (s = i) as ->.
    { destruct (Z.lt_ge_cases s i) as [Hlt|]; [|lia]. specialize (Hbd s r Hs Hlt). lia. }
    exists r. split; [done|].
    assert (Hgap : forall s' r', runs L !! (ch, s') = Some r' -> i < s' -> i + run_pages r <= s').
    { intros s' r' Hs' Hg. rewrite <- Hrs in Hs, Hs'. by apply (co_disj _ _ _ Hcok i r s' r'). }
    split; [|intros s' Hs'; destruct (runs L !! (ch, s')) as [r'|] eqn:E; [|done]; specialize (Hgap s' r' E); lia].
    intros s' r' Hs' Hlt. destruct (Z.lt_trichotomy s' i) as [Hl|[->|Hg]].
    + specialize (Hbd s' r' Hs' Hl). lia.
    + rewrite Hs in Hs'. by injection Hs' as <-.
    + specialize (Hgap s' r' Hs' Hg). lia.
  - assert (Hnone : runs L !! (ch, i) = None).
    { rewrite <- Hrs. by apply (free_page_no_run _ _ _ Hcok). }
    split; [done|]. intros s r Hs Hlt. destruct (Z.eq_dec s i) as [->|]; [by rewrite Hnone in Hs|].
    specialize (Hbd s r Hs ltac:(lia)). lia.
Qed.

Lemma u64_add_l a b : u64 (u64 a + b) = u64 (a + b).
Proof. apply Zplus_mod_idemp_l. Qed.

Definition counters_ok (cnt : Z -> Z -> Z) (R : gmap (Z * Z) run) : Prop :=
  forall ch s b, R !! (ch, s) = Some (SmallRun b) -> 0 <= cnt ch s <= 512.

(** The run at page [i], when there is one, is dealt with: it is gone when it
    was full, and its counter is reset when it was not. *)
Record page_done (cnt cnt1 : Z -> Z -> Z) (R R1 : gmap (Z * Z) run) (ch i j : Z) : Prop := {
  pd_next : i < j;
  pd_runs ch' s r : R1 !! (ch', s) = Some r <->
    R !! (ch', s) = Some r /\ ~ ((ch', s) = (ch, i) /\ exists b, r = SmallRun b /\ cnt ch' s mod 512 = bin_elements b);
  pd_gap s : i < s < j -> R !! (ch, s) = None;
  pd_cnt ch' s b : R1 !! (ch', s) = Some (SmallRun b) -> cnt1 ch' s = if decide ((ch', s) = (ch, i)) then 0 else cnt ch' s
}.

Lemma swept_page cnt cnt1 R R1 R' ch i j :
  page_done cnt cnt1 R R1 ch i j -> swept cnt1 (pages_from ch j) R1 R' -> swept cnt (pages_from ch i) R R'.
Proof.
  intros [Hij HR Hgap Hc] Hsw ch' s r. rewrite (Hsw ch' s r), (HR ch' s r).
  assert (Hcc : forall b, R1 !! (ch', s) = Some (SmallRun b) -> (ch', s) <> (ch, i) -> cnt1 ch' s = cnt ch' s).
  { intros b Hr Hne. rewrite (Hc ch' s b Hr). by destruct (decide _). }
  split.
  - intros [[Hr Hn] Hn']. split; [done|]. intros [[-> Hs] (b & -> & Hb)].
    destruct (decide (s = i)) as [->|Hne]; [apply Hn; split; [done | by exists b]|].
    assert (j <= s) by (destruct (Z.lt_ge_cases s j); [by rewrite (Hgap s) in Hr by lia | done]).
    apply Hn'. split; [by split|]. exists b. split; [done|]. rewrite Hcc with (b := b); [done | |congruence].
    by apply HR.
  - intros [Hr Hn].
    assert (Hn1 : ~ ((ch', s) = (ch, i) ∧ (exists b, r = SmallRun b /\ cnt ch' s mod 512 = bin_elements b))).
    { intros [E Hb]. injection E as -> ->. apply Hn. split; [split; [done | lia] | done]. }
    split; [by split|]. intros [[-> Hs] (b & -> & Hb)].
    apply Hn. split; [split; [done | lia]|]. exists b. split; [done|].
    rewrite <- (Hcc b); [done | by apply HR | ]. intros [= ->]. lia.
Qed.

Lemma reset_page cnt cnt1 cnt' R R1 R' ch i j :
  page_done cnt cnt1 R R1 ch i j -> swept cnt1 (pages_from ch j) R1 R' ->
  reset_counters cnt1 cnt' (pages_from ch j) R' -> reset_counters cnt cnt' (pages_from ch i) R'.
Proof.
  intros [Hij HR Hgap Hc] Hsw Hrc ch' s b Hr. destruct (Hrc ch' s b Hr) as [H1 H2].
  apply Hsw in Hr as [Hr _]. specialize (Hc ch' s b Hr). apply HR in Hr as [Hr _]. split.
  - intros [-> Hs]. destruct (decide (j <= s)) as [|Hj]; [by apply H1|].
    rewrite H2 by (intros [_ ?]; lia). destruct (decide (s = i)) as [->|Hne].
    + by rewrite Hc, decide_True by done.
    + by rewrite (Hgap s) in Hr by lia.
  - intros Hn. rewrite H2 by (intros [-> Hs]; apply Hn; split; [done | lia]). rewrite Hc.
    rewrite decide_False; [done|]. intros [= -> ->]. apply Hn. by split.
Qed.

Lemma gc_chunk_ok ch : forall fuel i st L cnt collected,
  mm_ok_with cnt st L -> ch ∈ main st :: others L -> 1 <= i <= 512 -> 512 - i < Z.of_nat fuel ->
  boundary (runs L) ch i -> full_unused cnt L -> counters_ok cnt (runs L) -> 0 <= collected < 2 ^ 64 ->
  exists st' R' cnt', gc_chunk st ch i collected fuel =
      Ok (u64 (collected + (run_total (runs L) - run_total R')), st') /\
    mm_ok_with cnt' st' (with_runs L R') /\ keeps st st' /\ swept cnt (pages_from ch i) (runs L) R' /\
    reset_counters cnt cnt' (pages_from ch i) R'.
Proof.
  induction fuel as [|fuel IH]; intros i st L cnt collected Hok Hch Hi Hf Hbd Hfu Hcnt Hcol; [lia|].
  cbn [gc_chunk]. destruct (ok_chunk _ _ _ Hok ch Hch) as (c & rs & Hc & _ & Hrs & Hcok).
  rewrite (get_chunk_ok _ _ _ Hc). rsimp. pose proof (co_tail _ _ _ Hcok) as Htl.
  destruct (Z.ltb_spec i (free_tail c)) as [Hlt|Hge].
  2:{ assert (Hnone : forall ch' s r, runs L !! (ch', s) = Some r -> ~ pages_from ch i ch' s).
      { intros ch' s r Hr [-> Hs]. rewrite <- Hrs in Hr. pose proof (co_start _ _ _ Hcok s r Hr). lia. }
      exists st, (runs L), cnt. rewrite Z.sub_diag, Z.add_0_r, u64_small by done. split; [done|].
      split; [by destruct L|]. split; [apply keeps_refl|]. split; [by apply swept_refl|].
      intros ch' s b Hr. split; [|done]. intros HP. by destruct (Hnone _ _ _ Hr). }
  assert (Hskip : forall j, i < j -> (forall s, i < s < j -> runs L !! (ch, s) = None) ->
    (forall b, runs L !! (ch, i) <> Some (SmallRun b)) -> page_done cnt cnt (runs L) (runs L) ch i j).
  { intros j Hij Hgap Hno. split; [done| |done|].
    - intros ch' s r. split; [|tauto]. intros Hr. split; [done|]. intros [E (b & -> & _)]. rewrite E in Hr. by apply (Hno b).
    - intros ch' s b Hr. destruct (decide _) as [E|]; [|done]. rewrite E in Hr. by destruct (Hno b). }
  destruct (page_free_or_run _ _ _ ch i c Hok Hch Hc ltac:(lia) Hbd) as (bit & -> & Hbit). rsimp.
  destruct bit; cycle 1.
  { (* a free page *)
    destruct Hbit as [Hnone Hbd'].
    destruct (IH (i + 1) st L cnt collected) as (st' & R' & cnt' & Hg & Hok' & Hk & Hsw & Hrc); try done; [lia..|].
    assert (Hpd : page_done cnt cnt (runs L) (runs L) ch i (i + 1)) by (apply Hskip; [lia | intros s ?; lia | congruence]).
    exists st', R', cnt'. split; [done|]. split; [done|]. split; [done|].
    split; [by eapply swept_page | by eapply reset_page]. }
  destruct Hbit as (r & Hr & Hbd' & Hgap). destruct (run_facts _ _ _ Hok _ _ _ Hr) as (_ & _ & _ & _ & Hwf & _ & Hre & Hrp & _).
  assert (Hlr : rs !! i = Some r) by (by rewrite Hrs).
  pose proof (co_infos _ _ _ Hcok i r Hlr) as Hinf. destruct r as [n|b]; cbn [run_infos run_pages run_wf] in *.
  { (* a large run *)
    rewrite Hinf. rsimp. change ZEND_MM_PAGES with 512 in Hwf. destruct (lrun_info n ltac:(lia)) as [-> ->].
    destruct (IH (i + n) st L cnt collected) as (st' & R' & cnt' & Hg & Hok' & Hk & Hsw & Hrc); try done; [lia..|].
    assert (Hpd : page_done cnt cnt (runs L) (runs L) ch i (i + n)) by (apply Hskip; [lia | done | congruence]).
    exists st', R', cnt'. split; [done|]. split; [done|]. split; [done|].
    split; [by eapply swept_page | by eapply reset_page]. }
  destruct Hinf as [Hinf _]. rewrite Hinf. rsimp.
  destruct (srun_info b (cnt ch i) Hwf ltac:(by apply (Hcnt ch i b))) as (-> & _ & -> & ->).
  destruct (bin_facts b Hwf) as (_ & _ & Hel & _).
  destruct (Z.eqb_spec (cnt ch i mod 512) (bin_elements b)) as [Hfull|Hfull].
  - (* all elements are free *)
    destruct (ok_release cnt st L ch i b Hok Hr) as (st1 & -> & Hok1 & Hk1); [intros p; by apply Hfu|]. rsimp.
    set (R1 := delete (ch, i) (runs L)) in *.
    assert (HR1 : forall ch' s r, R1 !! (ch', s) = Some r <-> (ch', s) <> (ch, i) /\ runs L !! (ch', s) = Some r).
    { intros ch' s r. unfold R1. rewrite lookup_delete_Some. split; intros [H ?]; (split; [|done]); by intros [= -> ->]. }
    assert (Hpd : page_done cnt cnt (runs L) R1 ch i (i + bin_pages b)).
    { split; [lia| |done|].
      - intros ch' s r. rewrite HR1. split.
        + intros [Hne Hr']. split; [done|]. by intros [? _].
        + intros [Hr' Hn]. split; [|done]. intros E. apply Hn. split; [done|]. injection E as -> ->.
          rewrite Hr in Hr'. injection Hr' as <-. by exists b.
      - intros ch' s b' Hr'. apply HR1 in Hr' as [Hne _]. by rewrite decide_False. }
    destruct (IH (i + bin_pages b) st1 (with_runs L R1) cnt (u64 (collected + bin_pages b)))
      as (st' & R' & cnt' & Hg & Hok' & Hk & Hsw & Hrc); try done; [|lia|lia| | | | |].
    + cbn [others with_runs]. unfold main. by rewrite (kp_main _ _ Hk1).
    + intros s r' Hr' Hs. apply HR1 in Hr' as [_ Hr']. by apply Hbd'.
    + intros ch' s b' p [Hr' Hc'] Hp. apply HR1 in Hr' as [_ Hr']. by apply (Hfu ch' s b' p).
    + intros ch' s b' Hr'. apply HR1 in Hr' as [_ Hr']. by eapply Hcnt.
    + apply u64_range.
    + exists st', R', cnt'. split.
      { rewrite Hg, u64_add_l. do 3 f_equal. cbn [runs with_runs]. rewrite (run_total_delete (runs L) _ _ Hr).
        cbn [run_pages]. fold R1. lia. }
      split; [done|]. split; [by eapply keeps_trans|]. split; [by eapply swept_page | by eapply reset_page].
  - (* reset counter *)
    destruct (ok_reset cnt st L ch i b c Hok Hr Hc) as (pm & -> & Hok1). rsimp.
    set (cnt1 := fun ch' s' => if decide ((ch', s') = (ch, i)) then 0 else cnt ch' s') in *.
    assert (Hpd : page_done cnt cnt1 (runs L) (runs L) ch i (i + bin_pages b)).
    { split; [lia| |done|done]. intros ch' s r. split; [|tauto]. intros Hr'. split; [done|].
      intros [E (b' & -> & Hb')]. injection E as -> ->. rewrite Hr in Hr'. injection Hr' as <-. done. }
    destruct (IH (i + bin_pages b) _ L cnt1 collected Hok1) as (st' & R' & cnt' & Hg & Hok' & Hk & Hsw & Hrc);
      try done; [lia..| | |].
    + intros ch' s b' p [Hr' Hc'] Hp. apply (Hfu ch' s b' p); [|done]. split; [done|]. unfold cnt1 in Hc'.
      destruct (decide _) as [E|]; [|done]. exfalso.
      destruct (run_facts _ _ _ Hok _ _ _ Hr') as (_ & _ & _ & _ & Hb' & _).
      destruct (bin_facts b' Hb') as (_ & _ & He & _). cbn in Hc'. rewrite Z.mod_0_l in Hc' by lia. lia.
    + intros ch' s b' Hr'. unfold cnt1. destruct (decide _); [lia | by eapply Hcnt].
    + exists st', R', cnt'. split; [done|]. split; [done|].
      split; [eapply keeps_trans; [|done]; by split|]. split; [by eapply swept_page | by eapply reset_page].
Qed.
End Sweep.

(** * The collector of free runs is correct ([zend_mm_gc])

    [gc_of L L'] relates the layouts before and after: exactly the runs whose
    slots were all on a free list are gone, except those of bins with 512
    slots, whose counters the page info cannot hold; the slots of the other
    runs stay on the lists; what is handed out is the same. *)

Lemma nodup_split {A} (x : A) l1 : forall l2 k1 k2,
  NoDup (l1 ++ x :: l2) -> l1 ++ x :: l2 = k1 ++ x :: k2 -> l1 = k1 /\ l2 = k2.
Proof.
  induction l1 as [|y l1 IH]; intros l2 k1 k2 Hn E.
  - destruct k1 as [|z k1]; cbn [app] in E; [by injection E as <-|]. injection E as <- ->.
    apply NoDup_cons in Hn as [Hn _]. destruct Hn. apply elem_of_app. right. left.
  - destruct k1 as [|z k1]; cbn [app] in E.
    + injection E as -> <-. apply NoDup_cons in Hn as [Hn _]. destruct Hn. apply elem_of_app. right. left.
    + injection E as <- E. apply NoDup_cons in Hn as [_ Hn]. destruct (IH _ _ _ Hn E) as [-> ->]. done.
Qed.

Lemma count_clear_succ f lo n : count_clear f lo (S n) = (if f lo then 0 else 1) + count_clear f (lo + 1) n.
Proof. done. Qed.

Section Gc.
Context {Sys : OS} {Laws : OSLaws} {Rest : Foreign}.
Implicit Types (st : mm).

(** ** The ring *)
Lemma ring_nodup cnt st L : mm_ok_with cnt st L -> NoDup (main st :: others L).
Proof. intros Hok. apply (ok_ring _ _ _ Hok). Qed.

Lemma ring_next cnt st L pre ch post :
  mm_ok_with cnt st L -> main st :: others L = pre ++ ch :: post ->
  exists c, chunks st !! ch = Some c /\ c_next c = hd (main st) post.
Proof.
  intros Hok E. destruct (ok_ring _ _ _ Hok) as [Hc _]. rewrite app_comm_cons, E, <- app_assoc in Hc.
  cbn [app] in Hc. apply chain_app in Hc as [_ Hc].
  assert (Hn : nexts st ch = Some (hd (main st) post)).
  { destruct post as [|x post]; cbn [app] in Hc; apply chain_cons in Hc as [[Hc _] _]; exact Hc. }
  destruct (get_next _ _ _ Hn) as (c & _ & Hcc & Hcn). by exists c.
Qed.

(** A chunk with all pages free has no runs. *)
Lemma all_free_no_runs cnt st L ch c :
  mm_ok_with cnt st L -> ch ∈ main st :: others L -> chunks st !! ch = Some c ->
  (free_pages c =? ZEND_MM_PAGES - ZEND_MM_FIRST_PAGE) = true <-> forall s, runs L !! (ch, s) = None.
Proof.
  intros Hok Hch Hc. destruct (ok_chunk _ _ _ Hok ch Hch) as (c' & rs & Hc' & _ & Hrs & Hcok).
  rewrite Hc in Hc'. injection Hc' as <-. rewrite Z.eqb_eq. change (ZEND_MM_PAGES - ZEND_MM_FIRST_PAGE) with 511.
  rewrite (co_free _ _ _ Hcok). assert (H0 : bit_of (free_map c) 0 = true) by (apply (co_bits _ _ _ Hcok); [lia | by left]).
  assert (Hcf : count_free (free_map c) = count_clear (bit_of (free_map c)) 1 511).
  { unfold count_free. replace 512%nat with (S (Z.to_nat 511)) by lia. rewrite count_clear_succ, H0.
    by replace 511%nat with (Z.to_nat 511) by lia. }
  rewrite Hcf. split.
  - intros Hf s. rewrite <- Hrs. destruct (rs !! s) as [r|] eqn:E; [|done]. exfalso.
    destruct (co_wf _ _ _ Hcok s r E) as (Hw & Hs1 & Hs2). pose proof (run_pages_pos r Hw).
    assert (Hb : bit_of (free_map c) s = true) by (apply (run_bit _ _ _ Hcok s r); done || lia).
    replace 511%nat with (Z.to_nat (s - 1) + S (Z.to_nat (511 - s)))%nat in Hf by lia.
    rewrite count_clear_app, count_clear_succ in Hf.
    replace (1 + Z.of_nat (Z.to_nat (s - 1))) with s in Hf by lia. rewrite Hb in Hf.
    pose proof (count_clear_bound (bit_of (free_map c)) (Z.to_nat (s - 1)) 1).
    pose proof (count_clear_bound (bit_of (free_map c)) (Z.to_nat (511 - s)) (s + 1)). lia.
  - intros Hno. rewrite (count_clear_const _ false); [done|]. intros i Hi.
    destruct (bit_of (free_map c) i) eqn:E; [|done]. apply (co_bits _ _ _ Hcok) in E; [|lia].
    destruct E as [->|(s & r & Hs & _)]; [lia|]. by rewrite Hrs, Hno in Hs.
Qed.

(** ** The chunks *)
Definition among (l : list Z) (ch s : Z) : Prop := ch ∈ l.

(** A run that the collector keeps. *)
Definition kept_run (cnt : Z -> Z -> Z) (ch s : Z) (r : run) : Prop :=
  ~ exists b, r = SmallRun b /\ cnt ch s mod 512 = bin_elements b.

Lemma swept_next cnt cnt1 R R1 R' ch post :
  ch ∉ post -> (forall s r, R !! (ch, s) = Some r -> 1 <= s) ->
  swept cnt (pages_from ch 1) R R1 -> reset_counters cnt cnt1 (pages_from ch 1) R1 ->
  swept cnt1 (among post) R1 R' -> swept cnt (among (ch :: post)) R R'.
Proof.
  intros Hnp Hs1 Hsw Hrc Hsw' ch' s r. rewrite (Hsw' ch' s r), (Hsw ch' s r). unfold among, pages_from.
  rewrite elem_of_cons.
  assert (Hcc : forall b, R1 !! (ch', s) = Some (SmallRun b) -> ch' <> ch -> cnt1 ch' s = cnt ch' s).
  { intros b Hr Hne. apply (Hrc ch' s b Hr). intros [-> _]. done. }
  split.
  - intros [[Hr Hn] Hn']. split; [done|]. intros [[->|Hin] Hb].
    + apply Hn. split; [split; [done | by eapply Hs1] | done].
    + apply Hn'. split; [done|]. destruct Hb as (b & -> & Hb). exists b. split; [done|].
      rewrite (Hcc b); [done| |by intros ->]. by apply Hsw.
  - intros [Hr Hn].
    assert (H1 : ~ ((ch' = ch /\ 1 <= s) /\ exists b, r = SmallRun b /\ cnt ch' s mod 512 = bin_elements b)).
    { intros [[-> _] Hb]. apply Hn. split; [by left | done]. }
    split; [done|]. intros [Hin (b & -> & Hb)]. apply Hn. split; [by right|]. exists b. split; [done|].
    rewrite <- (Hcc b); [done| by apply Hsw | by intros ->].
Qed.

Lemma reset_next cnt cnt1 cnt' R R1 R' ch post :
  ch ∉ post -> (forall s r, R !! (ch, s) = Some r -> 1 <= s) -> swept cnt (pages_from ch 1) R R1 ->
  reset_counters cnt cnt1 (pages_from ch 1) R1 -> swept cnt1 (among post) R1 R' ->
  reset_counters cnt1 cnt' (among post) R' -> reset_counters cnt cnt' (among (ch :: post)) R'.
Proof.
  intros Hnp Hs1 Hsw Hrc Hsw' Hrc' ch' s b Hr. destruct (Hrc' ch' s b Hr) as [H1 H2]. unfold among in *.
  apply Hsw' in Hr as [Hr _]. destruct (Hrc ch' s b Hr) as [H3 H4]. apply Hsw in Hr as [Hr _].
  rewrite elem_of_cons. split.
  - intros [->|Hin]; [|by apply H1]. rewrite H2 by done. apply H3. split; [done | by eapply Hs1].
  - intros Hn. rewrite H2 by tauto. apply H4. intros [-> _]. apply Hn. by left.
Qed.

(** What holds of the counters in between. *)
Record sweeping (cnt : Z -> Z -> Z) st (L : layout) : Prop := {
  sw_ok : mm_ok_with cnt st L;
  sw_unused : full_unused cnt L;
  sw_cnt : counters_ok cnt (runs L);
  sw_pin : exists s r, runs L !! (main st, s) = Some r /\ kept_run cnt (main st) s r
}.

Lemma reset_kept b : 0 <= b < 30 -> 0 mod 512 <> bin_elements b.
Proof. intros Hb. destruct (bin_facts b Hb) as (_ & _ & He & _). rewrite Z.mod_0_l; lia. Qed.

Lemma sweeping_next cnt cnt1 st st1 L o k R1 ch :
  sweeping cnt st L -> swept cnt (pages_from ch 1) (runs L) R1 -> reset_counters cnt cnt1 (pages_from ch 1) R1 ->
  main st1 = main st -> mm_ok_with cnt1 st1 (with_runs (with_chunks L o k (spare L)) R1) ->
  sweeping cnt1 st1 (with_runs (with_chunks L o k (spare L)) R1).
Proof.
  intros [Hok Hfu Hcnt (s0 & r0 & Hr0 & Hk0)] Hsw Hrc Hm Hok1.
  assert (Hcases : forall ch' s b, R1 !! (ch', s) = Some (SmallRun b) ->
    0 <= b < 30 /\ runs L !! (ch', s) = Some (SmallRun b) /\ (cnt1 ch' s = 0 \/ cnt1 ch' s = cnt ch' s)).
  { intros ch' s b Hr. destruct (Hrc ch' s b Hr) as [H1 H2]. apply Hsw in Hr as [Hr _].
    destruct (run_facts _ _ _ Hok _ _ _ Hr) as (_ & _ & _ & _ & Hb & _). split; [done|]. split; [done|].
    destruct (decide (ch' = ch)) as [->|]; [|right; apply H2; by intros [? _]].
    destruct (decide (1 <= s)); [left; by apply H1 | right; apply H2; by intros [_ ?]]. }
  split; [done| | |].
  - intros ch' s b p [Hr Hc] Hp. destruct (Hcases _ _ _ Hr) as (Hb & Hr' & [E|E]).
    + rewrite E in Hc. by destruct (reset_kept b Hb).
    + apply (Hfu ch' s b p); [|done]. split; [done | by rewrite <- E].
  - intros ch' s b Hr. destruct (Hcases _ _ _ Hr) as (Hb & Hr' & [E|E]); rewrite E; [lia | by eapply Hcnt].
  - assert (Hr1 : R1 !! (main st, s0) = Some r0) by (apply Hsw; split; [done|]; by intros [_ ?]).
    exists s0, r0. rewrite Hm. split; [done|]. intros (b & -> & Hb). destruct (Hcases _ _ _ Hr1) as (Hbb & _ & [E|E]).
    + rewrite E in Hb. by destruct (reset_kept b Hbb).
    + rewrite E in Hb. apply Hk0. by exists b.
Qed.

(** One chunk of the ring: sweep it, and delete it when it is empty. *)
Lemma gc_visit_ok pre ch post st L cnt collected :
  main st :: others L = pre ++ ch :: post -> sweeping cnt st L -> 0 <= collected < 2 ^ 64 ->
  exists st2 o k R1 cnt1 pre', let col := u64 (collected + (run_total (runs L) - run_total R1)) in
    (forall fuel, gc_chunks st ch collected page_fuel (S fuel) =
       if negb (hd (main st) post =? main st2) then gc_chunks st2 (hd (main st) post) col page_fuel fuel
       else Ok (col, st2)) /\
    main st2 :: o = pre' ++ post /\ pre' <> [] /\ sweeping cnt1 st2 (with_runs (with_chunks L o k (spare L)) R1) /\ keeps st st2 /\
    swept cnt (pages_from ch 1) (runs L) R1 /\ reset_counters cnt cnt1 (pages_from ch 1) R1.
Proof.
  intros E Hs Hcol. pose proof Hs as [Hok Hfu Hcnt Hpin].
  assert (Hch : ch ∈ main st :: others L) by (rewrite E; apply elem_of_app; right; left).
  assert (Hbd : boundary (runs L) ch 1).
  { intros s r Hr. destruct (run_facts _ _ _ Hok _ _ _ Hr) as (_ & _ & _ & _ & _ & ? & _). lia. }
  destruct (gc_chunk_ok ch page_fuel 1 st L cnt collected) as (st1 & R1 & cnt1 & Hg & Hok1 & Hk1 & Hsw & Hrc);
    [done | done | lia | unfold page_fuel; change ZEND_MM_PAGES with 512; lia | done..|].
  set (L1 := with_runs L R1) in *. assert (Hm1 : main st1 = main st) by apply Hk1.
  assert (E1 : main st1 :: others L1 = pre ++ ch :: post) by (by rewrite Hm1).
  destruct (ring_next _ _ _ _ _ _ Hok1 E1) as (c & Hc & Hcn).
  assert (Hch1 : ch ∈ main st1 :: others L1) by (by rewrite Hm1).
  pose proof (all_free_no_runs _ _ _ _ _ Hok1 Hch1 Hc) as Hempty.
  assert (Hs1 : forall o k st2, mm_ok_with cnt1 st2 (with_runs (with_chunks L o k (spare L)) R1) -> main st2 = main st ->
    sweeping cnt1 st2 (with_runs (with_chunks L o k (spare L)) R1)).
  { intros o k st2 Hok2 Hm2. by apply (sweeping_next cnt cnt1 st st2 L o k R1 ch). }
  assert (Hbody : forall fuel, gc_chunks st ch collected page_fuel (S fuel) =
    let! st2 := if free_pages c =? ZEND_MM_PAGES - ZEND_MM_FIRST_PAGE then zend_mm_delete_chunk st1 ch else Ok st1 in
    if negb (hd (main st) post =? main st2)
    then gc_chunks st2 (hd (main st) post) (u64 (collected + (run_total (runs L) - run_total R1))) page_fuel fuel
    else Ok (u64 (collected + (run_total (runs L) - run_total R1)), st2)).
  { intros fuel. cbn [gc_chunks]. change ZEND_MM_FIRST_PAGE with 1 at 1. rewrite Hg. rsimp.
    rewrite (get_chunk_ok _ _ _ Hc). rsimp. by rewrite Hcn, Hm1. }
  destruct (free_pages c =? ZEND_MM_PAGES - ZEND_MM_FIRST_PAGE) eqn:Ef.
  - assert (Hno : forall s, R1 !! (ch, s) = None) by (by apply Hempty).
    assert (Hcho : ch ∈ others L1).
    { apply elem_of_cons in Hch1 as [->|]; [|done]. exfalso. destruct Hpin as (s & r & Hr & Hkr).
      assert (Hr1 : R1 !! (main st, s) = Some r) by (apply Hsw; split; [done|]; by intros [_ ?]).
      specialize (Hno s). by rewrite Hm1, Hr1 in Hno. }
    destruct (delete_chunk_ok _ _ _ _ Hok1 Hcho Hno) as (st2 & pre2 & post2 & k & Hdel & Hsplit & Hok2 & Hk2).
    assert (Hm2 : main st2 = main st) by (rewrite <- Hm1; apply Hk2).
    assert (Heq : pre = main st :: pre2 /\ post = post2).
    { apply (nodup_split ch); [rewrite <- E; by apply (ring_nodup _ _ _ Hok)|]. rewrite <- E. cbn [app]. by f_equal. }
    destruct Heq as [-> ->]. exists st2, (pre2 ++ post2), k, R1, cnt1, (main st :: pre2). split.
    { intros fuel. rewrite Hbody, Hdel. done. }
    split; [by rewrite Hm2|]. split; [done|]. split; [by apply Hs1|]. split; [by eapply keeps_trans|]. done.
  - exists st1, (others L), (cache L), R1, cnt1, (pre ++ [ch]). split; [intros fuel; by rewrite Hbody|].
    split; [by rewrite <- app_assoc|]. split; [by destruct pre|]. split; [by apply Hs1|]. done.
Qed.

Lemma hd_in_ring cnt st L pre x post :
  mm_ok_with cnt st L -> main st :: others L = pre ++ x :: post -> pre <> [] -> x <> main st.
Proof.
  intros Hok E Hpre ->. destruct pre as [|y pre]; [done|]. cbn [app] in E. injection E as _ E.
  pose proof (ring_nodup _ _ _ Hok) as Hn. rewrite E in Hn. apply NoDup_cons in Hn as [Hn _].
  apply Hn, elem_of_app. right. left.
Qed.

Lemma gc_chunks_ok : forall post pre ch fuel st L cnt collected,
  main st :: others L = pre ++ ch :: post -> sweeping cnt st L -> (length post < fuel)%nat -> 0 <= collected < 2 ^ 64 ->
  exists st' o k R' cnt', gc_chunks st ch collected page_fuel fuel =
      Ok (u64 (collected + (run_total (runs L) - run_total R')), st') /\
    mm_ok_with cnt' st' (with_runs (with_chunks L o k (spare L)) R') /\ keeps st st' /\
    swept cnt (among (ch :: post)) (runs L) R' /\ reset_counters cnt cnt' (among (ch :: post)) R'.
Proof.
  induction post as [|x post IH]; intros pre ch fuel st L cnt collected E Hs Hf Hcol.
  all: destruct fuel as [|fuel]; [cbn [length] in Hf; lia|].
  all: destruct (gc_visit_ok _ _ _ _ _ _ _ E Hs Hcol)
    as (st2 & o & k & R1 & cnt1 & pre' & Hrun & E2 & Hp' & Hs2 & Hk2 & Hsw & Hrc).
  all: pose proof (sw_ok _ _ _ Hs) as Hok; pose proof (sw_ok _ _ _ Hs2) as Hok2; rewrite Hrun; cbn [hd].
  all: assert (Hm2 : main st2 = main st) by apply Hk2.
  all: assert (Hs1 : forall s r, runs L !! (ch, s) = Some r -> 1 <= s)
    by (intros s r Hr; by destruct (run_facts _ _ _ Hok _ _ _ Hr) as (_ & _ & _ & _ & _ & ? & _)).
  - rewrite Hm2, Z.eqb_refl. exists st2, o, k, R1, cnt1. split; [done|]. split; [done|]. split; [done|]. split.
    + eapply (swept_next cnt cnt1); try done; [by intros ?%elem_of_nil|]. apply swept_refl. intros ? ? ? _ H. by apply elem_of_nil in H.
    + eapply (reset_next cnt cnt1); try done; [by intros ?%elem_of_nil| |].
      * apply swept_refl. intros ? ? ? _ H. by apply elem_of_nil in H.
      * intros ch' s b _. split; [intros H; by apply elem_of_nil in H | done].
  - pose proof (hd_in_ring _ _ _ _ _ _ Hok2 E2 Hp') as Hx. destruct (Z.eqb_spec x (main st2)) as [|_]; [done|]. cbn [negb].
    destruct (IH pre' x fuel st2 (with_runs (with_chunks L o k (spare L)) R1) cnt1
        (u64 (collected + (run_total (runs L) - run_total R1))) E2 Hs2 ltac:(cbn [length] in Hf; lia) ltac:(apply u64_range))
      as (st' & o' & k' & R' & cnt' & Hg & Hok' & Hk' & Hsw' & Hrc').
    exists st', o', k', R', cnt'. split.
    { rewrite Hg, u64_add_l. do 3 f_equal. cbn [runs with_runs]. lia. }
    assert (Hnp : ch ∉ x :: post).
    { pose proof (ring_nodup _ _ _ Hok) as Hn. rewrite E in Hn. apply NoDup_app in Hn as (_ & _ & Hn).
      by apply NoDup_cons in Hn as [Hn _]. }
    split; [done|]. split; [by eapply keeps_trans|].
    split; [by eapply (swept_next cnt cnt1) | by eapply (reset_next cnt cnt1)].
Qed.
End Gc.
