(* ===== verification/MmCollect.v ===== *)
(** * [zend_mm_gc] as a whole

    [gc_of L L'] relates the layouts before and after a collection: exactly
    the runs whose slots were all on a free list are gone, except those of
    bins with 512 slots, whose number the counter of the page info cannot
    hold; the slots of the other runs stay on the lists; what is handed out is
    the same. *)
From S2P Require Export MmGc.

(** A run that can be collected. *)
Definition garbage (L : layout) (ch s : Z) (r : run) : Prop :=
  exists b, r = SmallRun b /\ bin_elements b < 512 /\ forall p, p ∈ run_slots ch s b -> p ∈ slots L b.

Record gc_of (L L' : layout) : Prop := {
  gc_spare : spare L' = spare L;
  gc_huges : huges L' = huges L;
  gc_held : held L' = held L;
  gc_runs ch s r : runs L' !! (ch, s) = Some r <-> runs L !! (ch, s) = Some r /\ ~ garbage L ch s r;
  gc_slots b p : p ∈ slots L' b <-> p ∈ slots L b /\ is_slot (runs L') b p
}.

Section Collect.
Context {Sys : OS} {Laws : OSLaws} {Rest : Foreign}.
Implicit Types (st : mm).

(** ** Counters and lists *)
Lemma run_slots_nodup ch s b : 0 <= b < 30 -> NoDup (run_slots ch s b).
Proof.
  intros Hb. destruct (bin_facts b Hb) as (Hd & _). apply NoDup_fmap_2_strong; [|apply NoDup_seqZ].
  intros i j _ _ E. unfold slot_addr in E. nia.
Qed.

Lemma full_iff_garbage cnt st L ch s b :
  mm_ok_with cnt st L -> runs L !! (ch, s) = Some (SmallRun b) ->
  tally L ch s mod 512 = bin_elements b <-> garbage L ch s (SmallRun b).
Proof.
  intros Hok Hr. destruct (run_facts _ _ _ Hok _ _ _ Hr) as (_ & _ & _ & _ & Hb & _).
  change (0 <= b < 30) in Hb. destruct (bin_facts b Hb) as (_ & _ & He & _). unfold tally, tally_upto. rewrite Hr.
  destruct (Z.ltb_spec b 30) as [_|?]; [|lia].
  pose proof (count_in_nonneg (run_lo ch s) (run_hi ch s b) (slots L b)) as Hnn. fold (free_in b ch s (slots L b)) in Hnn.
  destruct (free_in_bound _ _ _ Hok b ch s (slots L b)) as [Hle Hall];
    [apply (ok_slots_nodup _ _ _ Hok) | intros p Hp; by apply (ok_slots _ _ _ Hok) | done |].
  split.
  - intros Hm. exists b. split; [done|]. destruct (Z.eq_dec (free_in b ch s (slots L b)) 512) as [E|E].
    + rewrite E in Hm. change (512 mod 512) with 0 in Hm. lia.
    + rewrite Z.mod_small in Hm by lia. split; [lia | by apply Hall].
  - intros (b' & [= <-] & Hlt & Hin).
    assert (Hge : bin_elements b <= free_in b ch s (slots L b)).
    { rewrite <- (run_slots_length ch s b Hb). unfold free_in, count_in. apply inj_le.
      apply submseteq_length, NoDup_submseteq; [by apply run_slots_nodup|]. intros p Hp.
      apply list_elem_of_filter. split; [by apply (run_slot_range _ _ _ Hok) | by apply Hin]. }
    rewrite Z.mod_small; lia.
Qed.

(** ** What is handed out *)
Lemma slot_run_slots R b p : is_slot R b p <-> exists ch s, R !! (ch, s) = Some (SmallRun b) /\ p ∈ run_slots ch s b.
Proof.
  split.
  - intros (ch & s & i & Hr & Hi & ->). exists ch, s. split; [done|]. apply list_elem_of_fmap. exists i.
    split; [done|]. apply elem_of_seqZ. lia.
  - intros (ch & s & Hr & Hp). apply list_elem_of_fmap in Hp as (i & -> & Hi). apply elem_of_seqZ in Hi.
    exists ch, s, i. split; [done|]. split; [lia | done].
Qed.

Lemma gc_owned L L' p n : gc_of L L' -> owned L' p n <-> owned L p n.
Proof.
  intros [_ Hh _ Hr Hs]. split.
  - intros [ch s k Hrun|b q Hq Hf|node q k Hin].
    + apply (owned_large L ch s k). by apply Hr.
    + apply (owned_small L b q).
      * destruct Hq as (ch & s & i & Hrun & Hi & Hp). exists ch, s, i. split; [by apply Hr | done].
      * intros Hin. apply Hf, Hs. done.
    + apply (owned_huge L node). by rewrite <- Hh.
  - intros [ch s k Hrun|b q Hq Hf|node q k Hin].
    + apply (owned_large L' ch s k), Hr. split; [done|]. by intros (b & ? & _).
    + apply (owned_small L' b q).
      * apply slot_run_slots in Hq as (ch & s & Hrun & Hq). apply slot_run_slots. exists ch, s. split; [|done].
        apply Hr. split; [done|]. intros (b' & [= <-] & _ & Hall). by apply Hf, Hall.
      * intros Hin. by apply Hs in Hin as [? _].
    + apply (owned_huge L' node). by rewrite Hh.
Qed.

Lemma gc_block L L' p n : gc_of L L' -> block L' p n <-> block L p n.
Proof. intros Hg. unfold block. by rewrite (gc_owned L L') , (gc_huges _ _ Hg). Qed.

(** Something in the main chunk is in use: [zend_mm_gc] would give it back
    to the system otherwise. *)
Definition pinned st (L : layout) : Prop :=
  exists p n, owned L p n /\ main st <= p < main st + ZEND_MM_CHUNK_SIZE.

Lemma pinned_run cnt st L : mm_ok_with cnt st L -> pinned st L ->
  exists s r, runs L !! (main st, s) = Some r /\ ~ garbage L (main st) s r.
Proof.
  intros Hok (p & n & Ho & Hp). change ZEND_MM_CHUNK_SIZE with 2097152 in Hp.
  assert (Hch : forall ch s r, runs L !! (ch, s) = Some r -> ch + s * 4096 <= p < ch + (s + run_pages r) * 4096 -> ch = main st).
  { intros ch s r Hr Hin. destruct (run_facts _ _ _ Hok _ _ _ Hr) as (_ & ? & Hm & _ & _ & ? & ? & _).
    destruct (ring_region _ _ _ Hok (main st) ltac:(left)) as [? _ Hmm _ _ _]. cbn [fst] in Hmm.
    pose proof (Z.div_mod ch (2 ^ 21)). pose proof (Z.div_mod (main st) (2 ^ 21)). nia. }
  destruct Ho as [ch s k Hr|b q Hq Hf|node q k Hin].
  - assert (ch = main st) as ->.
    { eapply Hch; [exact Hr|]. destruct (run_facts _ _ _ Hok _ _ _ Hr) as (_ & _ & _ & _ & _ & _ & _ & ? & _). lia. }
    exists s, (LargeRun k). split; [done|]. by intros (b & ? & _).
  - apply slot_run_slots in Hq as (ch & s & Hr & Hq). assert (ch = main st) as ->.
    { eapply Hch; [exact Hr|]. pose proof (run_slot_range _ _ _ Hok _ _ _ _ Hr Hq) as Hin.
      unfold run_lo, run_hi in Hin. cbn [run_pages]. lia. }
    exists s, (SmallRun b). split; [done|]. intros (b' & [= <-] & _ & Hall). by apply Hf, Hall.
  - exfalso. destruct (proj1 (ok_regions _ _ _ Hok)) as [_ Hw]. apply pairwise_app in Hw as (_ & _ & Hd).
    specialize (Hd (main st, ZEND_MM_CHUNK_SIZE) (q, k)). unfold rdisj in Hd. cbn [fst snd] in Hd.
    destruct (huge_region _ _ _ Hok _ Hin) as [_ Hk _ _ _ _]. cbn [huge_range fst snd] in Hk.
    change ZEND_MM_CHUNK_SIZE with 2097152 in Hd. destruct Hd; [left | | lia | lia].
    apply elem_of_app. left. apply list_elem_of_fmap. by exists (node, q, k).
Qed.

(** ** The collection *)
Lemma size_runs_bound cnt st L : mm_ok_with cnt st L -> (size (runs L) <= 512 * size (chunks st))%nat.
Proof.
  intros Hok. pose proof (chunk_ring_size _ _ _ Hok) as Hsz.
  assert (Hsub : elements (dom (runs L)) ⊆+ (main st :: others L) ≫= fun ch => (fun k => (ch, k)) <$> seqZ 0 512).
  { apply NoDup_submseteq; [apply NoDup_elements|]. intros [ch s] Hin.
    apply elem_of_elements, elem_of_dom in Hin as [r Hr].
    destruct (run_facts _ _ _ Hok _ _ _ Hr) as (Hch & _ & _ & _ & _ & Hs & Hse & Hp & _).
    apply list_elem_of_bind. exists ch. split; [|done]. apply list_elem_of_fmap. exists s. split; [done|].
    apply elem_of_seqZ. lia. }
  apply submseteq_length in Hsub. rewrite <- size_dom.
  change (size (dom (runs L))) with (length (elements (dom (runs L)))).
  assert (Hlen : forall l : list Z, length (l ≫= fun ch => (fun k => (ch, k)) <$> seqZ 0 512) = (length l * Z.to_nat 512)%nat).
  { induction l as [|x l IH]; [done|]. cbn [mbind list_bind length]. rewrite length_app, length_fmap, length_seqZ, IH. lia. }
  rewrite Hlen in Hsub. lia.
Qed.

(** The bytes and addresses that stay. *)
Record gc_frame (L : layout) st st' : Prop := {
  gf_addr : h_addr st' = h_addr st;
  gf_main : main st' = main st;
  gf_kept : owned_kept L (mem st) (mem st')
}.

Lemma gc_ok st L : mm_ok st L -> pinned st L ->
  exists st' L', zend_mm_gc st = Ok (u64 ((run_total (runs L) - run_total (runs L')) * 4096), st') /\
    mm_ok st' L' /\ gc_of L L' /\ gc_frame L st st'.
Proof.
  intros Hok Hpin. destruct (pinned_run _ _ _ Hok Hpin) as (s0 & r0 & Hr0 & Hg0).
  assert (Hok0 : mm_ok_with (tally_upto L 0) st (with_slots L (slots L))).
  { replace (with_slots L (slots L)) with L by (by destruct L). apply (ok_counters (fun _ _ => 0)); [done|].
    intros ch s b Hr. destruct (run_facts _ _ _ Hok _ _ _ Hr) as (_ & _ & _ & _ & Hb & _). unfold tally_upto. rewrite Hr.
    cbn in Hb. destruct (Z.ltb_spec b 0); [lia | done]. }
  destruct (gc_bins_ok L 31 0 st (slots L)) as (st1 & S & Hbins & Hd & Hok1 & Hf1); [lia | lia | | done |].
  { split; [intros b ?; lia | done]. }
  assert (Hm1 : main st1 = main st) by apply Hf1.
  assert (Hkept : forall b x, x ∈ S b <-> x ∈ slots L b /\ ~ in_full_run (tally L) (runs L) b x).
  { intros b x. destruct (decide (0 <= b < 30)) as [Hb|Hb]; [by apply (bd_below _ _ _ Hd)|].
    rewrite (bd_above _ _ _ Hd b Hb). split; [|tauto]. intros Hx. split; [done|].
    by destruct (ok_slots _ _ _ Hok b x Hx). }
  assert (Hs : sweeping (tally L) st1 (with_slots L S)).
  { split; [done| | |].
    - intros ch s b p Hfull Hp. cbn [slots huges runs with_slots] in *. split.
      + intros Hin. apply Hkept in Hin as [_ Hin]. apply Hin. by exists ch, s.
      + intros Hin. apply list_elem_of_fmap in Hin as (h & -> & Hh).
        destruct (ok_huge _ _ _ Hok h Hh) as (_ & _ & Hs & Hn). pose proof Hfull as [Hr Hc].
        assert (Hsl : is_slot (runs L) b (node_of h)) by (apply slot_run_slots; by exists ch, s).
        pose proof (is_slot_inj _ _ _ Hok _ _ _ Hs Hsl) as <-.
        apply (full_iff_garbage _ _ _ _ _ _ Hok Hr) in Hc as (b' & [= <-] & _ & Hall). by apply Hn, Hall.
    - intros ch s b Hr. by apply (tally_range _ _ _ _ _ _ b Hok).
    - exists s0, r0. rewrite Hm1. split; [done|]. intros (b & -> & Hb). apply Hg0.
      by apply (full_iff_garbage _ _ _ _ _ _ Hok Hr0). }
  destruct (gc_chunks_ok (others L) [] (main st1) (Datatypes.S (size (chunks st1))) st1 (with_slots L S) (tally L) 0)
    as (st' & o & k & R' & cnt' & Hg & Hok' & Hk' & Hsw & Hrc); [done | done | | lia |].
  { pose proof (chunk_ring_size _ _ _ Hok1) as Hsz. cbn [others with_slots length] in Hsz. lia. }
  set (L' := with_runs (with_chunks (with_slots L S) o k (spare (with_slots L S))) R') in *.
  assert (Hruns : forall ch s r, R' !! (ch, s) = Some r <-> runs L !! (ch, s) = Some r /\ ~ garbage L ch s r).
  { intros ch s r. rewrite (Hsw ch s r). cbn [runs with_slots]. split; intros [Hr Hn]; (split; [done|]).
    - intros Hgb. apply Hn. split; [rewrite Hm1; by apply (ok_runs _ _ _ Hok ch s r)|].
      pose proof Hgb as (b & -> & _). exists b. split; [done|]. by apply (full_iff_garbage _ _ _ _ _ _ Hok Hr).
    - intros [_ (b & -> & Hb)]. by apply Hn, (full_iff_garbage _ _ _ _ _ _ Hok Hr). }
  exists st', L'. split; [|split; [|split]].
  - unfold zend_mm_gc. rewrite Hbins. rsimp. fold (main st1). rewrite Hg. rsimp. do 2 f_equal.
    rewrite Z.add_0_l. cbn [runs with_slots L' with_runs with_chunks]. change ZEND_MM_PAGE_SIZE with 4096.
    apply Zmult_mod_idemp_l.
  - apply (ok_counters cnt'); [done|]. intros ch s b Hr. destruct (Hrc ch s b Hr) as [H0 _]. symmetry. apply H0.
    unfold among. rewrite Hm1. apply Hruns in Hr as [Hr _]. by apply (ok_runs _ _ _ Hok ch s (SmallRun b)).
  - split; [done|done|done|exact Hruns|]. intros b p. cbn [slots runs with_slots L' with_runs with_chunks]. rewrite (Hkept b p). split.
    + intros [Hin Hn]. split; [done|]. apply (ok_slots _ _ _ Hok'). by apply Hkept.
    + intros [Hin Hs']. split; [done|]. intros Hfull. apply slot_run_slots in Hs' as (ch & s & Hr & Hp).
      apply Hruns in Hr as [Hr Hn]. apply Hn, (full_iff_garbage _ _ _ _ _ _ Hok Hr).
      by destruct (slot_in_full_run _ _ _ _ _ _ _ _ Hok Hr Hp Hfull).
  - split; [by rewrite (kp_addr _ _ Hk'), (bf_addr _ _ _ Hf1) | unfold main; by rewrite (kp_main _ _ Hk')|].
    intros p n a Ho Ha. rewrite (kp_mem _ _ Hk'). apply (bf_kept _ _ _ Hf1 p n a); [by apply owned_slots_mono | done].
Qed.

(** A collection that returns something has freed a run. *)
Lemma gc_progress L L' n : gc_of L L' -> n = u64 ((run_total (runs L) - run_total (runs L')) * 4096) -> n <> 0 ->
  (size (runs L') < size (runs L))%nat.
Proof.
  intros Hg -> Hn.
  assert (Hsub : runs L' ⊆ runs L).
  { apply map_subseteq_spec. intros [ch s] r Hr. by apply (gc_runs _ _ Hg) in Hr as [? _]. }
  destruct (decide (size (runs L') < size (runs L))%nat) as [|Hge]; [done|].
  exfalso. apply Hn. rewrite (map_subseteq_size_eq _ _ Hsub) by lia. by rewrite Z.sub_diag.
Qed.
End Collect.
