(* ===== verification/MmFind.v ===== *)
(** * Allocating pages: the search and the chunks ([zend_mm_alloc_pages])

    [find_pages] walks the ring; [take_chunk] takes a cached chunk or a new
    one, after a collection when the limit or the system demands it. *)
From S2P Require Export MmCollect.

Section Find.
Context {Sys : OS} {Laws : OSLaws} {Low : LowMemory} {Rest : Foreign}.
Implicit Types (st : mm).

(** ** The search in the ring *)
Lemma ok_put_same cnt st L ch c c' rs :
  mm_ok_with cnt st L -> ch ∈ main st :: others L -> chunks st !! ch = Some c -> same_links c c' ->
  chunk_runs (runs L) ch rs -> chunk_ok_with (cnt ch) c' rs -> mm_ok_with cnt (put_chunk st ch c') L.
Proof.
  intros Hok Hch Hc Hs Hrs Hcc. replace L with (with_runs L (runs L)) by (by destruct L).
  apply (ok_put_chunk cnt cnt st L ch c c' _ rs); try done.
  - intros b p Hp. by apply (ok_slots _ _ _ Hok).
  - intros h Hh. by apply (ok_huge _ _ _ Hok).
Qed.

(** The whole of an empty chunk is one free run. *)
Lemma empty_free_run cnt c rs : chunk_ok_with cnt c rs -> rs = ∅ -> free_run (bit_of (free_map c)) 1 512.
Proof.
  intros Hok ->. assert (Hb : forall i, 0 <= i < 512 -> bit_of (free_map c) i = true <-> i = 0).
  { intros i Hi. rewrite (co_bits _ _ _ Hok i Hi). split; [|by left]. intros [?|(s & r & Hs & _)]; [done|].
    by rewrite lookup_empty in Hs. }
  split; [lia|]. split; [lia|]. split; [by apply Hb; [lia|]|]. split; [|by left].
  intros p Hp. destruct (bit_of (free_map c) p) eqn:E; [|done]. apply Hb in E; lia.
Qed.

(** The search in one chunk. *)
Lemma find_visit_ok n pre ch post st L :
  0 < n < 512 -> main st :: others L = pre ++ ch :: post -> mm_ok st L ->
  exists r st1, (forall steps fuel, find_pages st ch n steps (S fuel) =
      match r with
      | Found p => Ok (Some (ch, p), steps, st1)
      | NotFound => if hd (main st) post =? main st then Ok (None, steps, st1)
                    else find_pages st1 (hd (main st) post) n (steps + 1) fuel
      end) /\ mm_ok st1 L /\ keeps st st1 /\
    match r with
    | Found p => exists c, chunks st1 !! ch = Some c /\ fits c p n
    | NotFound => ~ forall s, runs L !! (ch, s) = None
    end.
Proof.
  intros Hn E Hok. destruct (ring_next _ _ _ _ _ _ Hok E) as (c & Hc & Hcn).
  assert (Hch : ch ∈ main st :: others L) by (rewrite E; apply elem_of_app; right; left).
  destruct (ok_chunk _ _ _ Hok ch Hch) as (c0 & rs & Hc0 & _ & Hrs & Hcok).
  rewrite Hc in Hc0. injection Hc0 as <-.
  destruct (search_chunk_ok _ c rs n Hcok Hn) as (r & ft & Hs & Hcok' & Hr).
  exists r, (put_chunk st ch (set_free_tail c ft)). split; [|split; [|split; [done|]]].
  - intros steps fuel. cbn [find_pages]. rewrite (get_chunk_ok _ _ _ Hc). rsimp. rewrite Hs. rsimp.
    destruct r as [p|]; [done|]. cbn [c_next set_free_tail]. rewrite Hcn. done.
  - by apply (ok_put_same _ st L ch c _ rs).
  - destruct r as [p|].
    + exists (set_free_tail c ft). rewrite put_chunk_lookup. by destruct (decide (ch = ch)).
    + intros Hno. specialize (Hr 1 512). pose proof (chunk_runs_empty _ _ _ Hrs Hno) as ->.
      specialize (Hr (empty_free_run _ _ _ Hcok eq_refl)). lia.
Qed.

(** What the search has found in the chunks of [l]. *)
Definition found_in st (n : Z) (r : option (Z * Z)) (l : list Z) : Prop :=
  match r with
  | Some (ch, p) => ch ∈ l /\ exists c, chunks st !! ch = Some c /\ fits c p n
  | None => True
  end.

Lemma find_pages_ok n : 0 < n < 512 -> forall post pre ch fuel steps st L,
  main st :: others L = pre ++ ch :: post -> mm_ok st L -> (length post < fuel)%nat ->
  exists r steps' st', find_pages st ch n steps fuel = Ok (r, steps', st') /\ mm_ok st' L /\ keeps st st' /\
    found_in st' n r (ch :: post) /\ (steps' = steps \/ found_in st' n r post) /\
    ((forall s, runs L !! (ch, s) = None) -> r <> None).
Proof.
  intros Hn. induction post as [|x post IH]; intros pre ch fuel steps st L E Hok Hf.
  all: destruct fuel as [|fuel]; [cbn [length] in Hf; lia|].
  all: destruct (find_visit_ok n pre ch _ st L Hn E Hok) as ([p|] & st1 & Hrun & Hok1 & Hk1 & Hr);
    rewrite Hrun; cbn [hd].
  - exists (Some (ch, p)), steps, st1. split; [done|]. split; [done|]. split; [done|].
    split; [split; [left | done]|]. split; [by left | done].
  - rewrite Z.eqb_refl. exists None, steps, st1. split; [done|]. split; [done|]. split; [done|]. split; [done|]. split; [by left | done].
  - exists (Some (ch, p)), steps, st1. split; [done|]. split; [done|]. split; [done|].
    split; [split; [left | done]|]. split; [by left | done].
  - assert (Hm1 : main st1 = main st) by apply Hk1.
    assert (E1 : main st1 :: others L = (pre ++ [ch]) ++ x :: post) by (by rewrite Hm1, <- app_assoc).
    pose proof (hd_in_ring _ _ _ _ _ _ Hok1 E1) as Hx. rewrite <- Hm1.
    destruct (Z.eqb_spec x (main st1)) as [|_]; [by destruct Hx; [destruct pre|]|].
    destruct (IH _ x fuel (steps + 1) st1 L E1 Hok1 ltac:(cbn [length] in Hf; lia))
      as (r & steps' & st' & Hg & Hok' & Hk' & Hfi & _ & _).
    exists r, steps', st'. split; [done|]. split; [done|]. split; [by eapply keeps_trans|].
    split; [|split; [by right | done]]. destruct r as [[ch' p]|]; [|done]. destruct Hfi as [Hin Hc].
    split; [by right | done].
Qed.

(** ** Quiet steps: what is handed out stays as it is *)
Record quiet (L L' : layout) : Prop := {
  q_owned p n : owned L' p n <-> owned L p n;
  q_huges : huges L' = huges L;
  q_held : held L' = held L;
  q_slots b p : p ∈ slots L' b -> p ∈ slots L b
}.

Lemma quiet_refl L : quiet L L.
Proof. by split. Qed.

Lemma quiet_trans L1 L2 L3 : quiet L1 L2 -> quiet L2 L3 -> quiet L1 L3.
Proof.
  intros [A1 A2 A3 A4] [B1 B2 B3 B4]. split; [intros p n; by rewrite B1 | congruence.. | auto].
Qed.

Lemma gc_quiet L L' : gc_of L L' -> quiet L L'.
Proof. intros Hg. split; [intros; by apply gc_owned | apply Hg.. |]. intros b p Hp. by apply (gc_slots _ _ Hg). Qed.

Lemma owned_chunks L o k d p n : owned (with_chunks L o k d) p n <-> owned L p n.
Proof.
  split; intros [ch s m Hr|b q Hs Hf|node q m Hin].
  1,4: by econstructor. 1,3: by constructor. all: by econstructor.
Qed.

Lemma quiet_chunks L o k d : quiet L (with_chunks L o k d).
Proof. split; [intros; apply owned_chunks | done..]. Qed.

Lemma owned_kept_quiet L L' m m' : quiet L L' -> owned_kept L' m m' -> owned_kept L m m'.
Proof. intros Hq H p n a Ho. by apply H, (q_owned _ _ Hq). Qed.

Lemma gc_frame_refl L st : gc_frame L st st.
Proof. by split. Qed.

Lemma gc_frame_trans L L' st1 st2 st3 : quiet L L' -> gc_frame L st1 st2 -> gc_frame L' st2 st3 -> gc_frame L st1 st3.
Proof.
  intros Hq [] [? ? Hk]. split; [congruence..|]. eapply owned_kept_trans; [done|]. by eapply owned_kept_quiet.
Qed.

Lemma keeps_frame L st st' : keeps st st' -> gc_frame L st st'.
Proof. intros []. split; [done | done|]. intros p n a _ _. congruence. Qed.

Lemma pinned_quiet st st' L L' : main st' = main st -> quiet L L' -> pinned st L -> pinned st' L'.
Proof. intros Hm Hq (p & n & Ho & Hp). exists p, n. rewrite Hm. by rewrite (q_owned _ _ Hq). Qed.

(** ** Memory from the system *)
Lemma regions_mono o o' l : (forall a, mapped o a -> mapped o' a) -> Forall (region_ok o) l -> Forall (region_ok o') l.
Proof. intros Hm Hf. eapply Forall_impl; [exact Hf|]. intros r [A1 A2 A3 A4 A5 A6]. split; auto. Qed.

Lemma ok_set_os cnt st L o : mm_ok_with cnt st L -> same_mapping (os st) o -> mm_ok_with cnt (set_os st o) L.
Proof.
  intros [Hr Hc Hrg Hch Hru Hca Hsl Hls Hss Hsn Hhl Hh Hhn] Hm. split; try done. destruct Hrg as [[Hf Hp] He].
  split; [split; [apply (regions_mono (os st)); [intros a; apply Hm | done] | done]|]. intros a. rewrite (Hm a). apply He.
Qed.

(** A fresh region is apart from those in use. *)
Lemma regions_new o o' l p size :
  regions_ok o l -> new_mapping o o' p size -> 0 < size -> p mod 2 ^ 21 = 0 -> size mod 4096 = 0 ->
  regions_ok o' ((p, size) :: l).
Proof.
  intros Hl [Hp He Hfr Hm] Hs Ha Hsm.
  assert (Hl' : Forall (region_ok o') l) by (apply (regions_mono o); [intros a Hma; apply Hm; by left | apply Hl]).
  destruct Hl as [[Hf Hw] Hex]. split; [split|].
  - constructor; [|done]. split; cbn [fst snd]; try done. intros a Hr. apply Hm. by right.
  - split; [|done]. apply Forall_forall. intros [q k] Hin. rewrite Forall_forall in Hf.
    destruct (Hf _ Hin) as [Hq Hk _ _ _ Hmq]. cbn [fst snd] in *. unfold rdisj. cbn [fst snd].
    destruct (Z.le_gt_cases (p + size) q); [by left|]. destruct (Z.le_gt_cases (q + k) p); [by right|].
    exfalso. apply (Hfr (Z.max p q)); [lia|]. apply Hmq. lia.
  - intros a. destruct (Hex a) as [H1 H2]. rewrite covers_cons, Hm. cbn [fst snd]. specialize (Hfr a). tauto.
Qed.

Lemma zero_blank : blank zero_chunk.
Proof.
  split; [|done|done|].
  - apply Forall_replicate. split; [lia | reflexivity].
  - intros i Hi. unfold bit_of, zero_chunk. cbn [free_map].
    destruct (replicate 8 0 !! Z.to_nat (i / 64)) as [w|] eqn:E; [|done].
    apply lookup_replicate in E as [-> _]. apply Z.testbit_0_l.
Qed.

Lemma chunk_alloc_ok st size : 0 <= size < 2 ^ 64 -> size mod 4096 = 0 -> null_free (os st) size ->
  outcome (zend_mm_chunk_alloc st size ZEND_MM_CHUNK_SIZE) (fun r => exists o, snd r = set_os st o /\
    match fst r with
    | None => same_mapping (os st) o
    | Some p => 0 < size /\ p mod 2 ^ 21 = 0 /\ new_mapping (os st) o p size
    end).
Proof.
  intros Hs Hm Hn. unfold zend_mm_chunk_alloc. eapply outcome_bind; [by apply chunk_alloc_int_spec|].
  intros [[p|] o] H; cbn; by exists o.
Qed.

Lemma chunk_request_ok st :
  outcome (zend_mm_chunk_alloc st ZEND_MM_CHUNK_SIZE ZEND_MM_CHUNK_SIZE) (fun r => exists o, snd r = set_os st o /\
    match fst r with
    | None => same_mapping (os st) o
    | Some p => 0 < ZEND_MM_CHUNK_SIZE /\ p mod 2 ^ 21 = 0 /\ new_mapping (os st) o p ZEND_MM_CHUNK_SIZE
    end).
Proof. apply chunk_alloc_ok; [unfold ZEND_MM_CHUNK_SIZE; lia | done | apply chunk_null_free]. Qed.

(** The chunk of a new mapping. *)
Lemma ok_new_chunk cnt st L o x :
  mm_ok_with cnt st L -> new_mapping (os st) o x ZEND_MM_CHUNK_SIZE -> x mod 2 ^ 21 = 0 ->
  mm_ok_with cnt (put_chunk (set_os st o) x zero_chunk) (with_chunks L (others L) (cache L) (x :: spare L)).
Proof.
  intros Hok Hnew Hx. pose proof Hok as [Hr Hc Hrg Hch Hru Hca Hsl Hls Hss Hsn Hhl Hh Hhn].
  assert (Hfresh : x ∉ main st :: others L ++ cache L ++ spare L).
  { intros Hin. pose proof (chunk_region _ _ _ Hok x Hin) as Hreg.
    apply (nm_fresh _ _ _ _ Hnew x); [unfold ZEND_MM_CHUNK_SIZE; lia|]. apply (rg_mapped _ _ Hreg).
    cbn [fst snd]. unfold ZEND_MM_CHUNK_SIZE. lia. }
  set (st' := put_chunk (set_os st o) x zero_chunk).
  assert (Hlk : forall p, p ∈ main st :: others L ++ cache L ++ spare L -> chunks st' !! p = chunks st !! p).
  { intros p Hp. unfold st'. rewrite put_chunk_lookup. destruct (decide (p = x)) as [->|]; [done | done]. }
  assert (Hring : forall p, p ∈ main st :: others L -> p ∈ main st :: others L ++ cache L ++ spare L).
  { intros p. rewrite !elem_of_cons, !elem_of_app. tauto. }
  split; cbn [others cache spare runs slots huges held with_chunks]; try done.
  - apply (cring_frame (nexts st) (prevs st)); [done| |]; intros p Hp; unfold nexts, prevs; by rewrite Hlk by auto.
  - apply (llist_frame (nexts st)); [done|]. intros p Hp. unfold nexts. rewrite Hlk; [done|].
    rewrite elem_of_cons, !elem_of_app. tauto.
  - apply (regions_ok_perm _ ((x, ZEND_MM_CHUNK_SIZE) :: regions_of (main st) L)).
    + unfold regions_of. cbn [others cache spare huges held with_chunks]. rewrite app_comm_cons.
      apply Permutation_app; [|done]. change (main st') with (main st).
      change ((x, ZEND_MM_CHUNK_SIZE) :: map (fun ch => (ch, ZEND_MM_CHUNK_SIZE)) (main st :: others L ++ cache L ++ spare L))
        with (map (fun ch => (ch, ZEND_MM_CHUNK_SIZE)) (x :: main st :: others L ++ cache L ++ spare L)).
      apply Permutation_map. solve_Permutation.
    + by apply (regions_new (os st)).
  - intros ch Hin. rewrite Hlk by auto. by apply Hch.
  - intros ch Hin. destruct (decide (ch = x)) as [->|Hne].
    + exists zero_chunk. unfold st'. rewrite put_chunk_lookup, decide_True by done. split; [done | apply zero_blank].
    + assert (Hin' : ch ∈ cache L ++ spare L).
      { rewrite !elem_of_app, elem_of_cons in Hin. rewrite elem_of_app. tauto. }
      rewrite Hlk; [by apply Hca|]. rewrite elem_of_cons, elem_of_app. tauto.
Qed.

(** [new_chunk]: either a chunk, or a collection that has freed a run. *)
Definition new_chunk_post st (L : layout) (r : option Z * mm) : Prop :=
  exists L', mm_ok (snd r) L' /\ quiet L L' /\ gc_frame L st (snd r) /\
    match fst r with
    | Some x => spare L' = x :: spare L
    | None => spare L' = spare L /\ (size (runs L') < size (runs L))%nat
    end.

(** A chunk from the system, after the limit has been dealt with. *)
Lemma get_chunk_post st L o x f :
  mm_ok st L -> new_mapping (os st) o x ZEND_MM_CHUNK_SIZE -> x mod 2 ^ 21 = 0 ->
  (forall h, same_lists h (f h)) ->
  exists L', mm_ok (upd_heap (put_chunk (set_os st o) x zero_chunk) f) L' /\ quiet L L' /\
    gc_frame L st (upd_heap (put_chunk (set_os st o) x zero_chunk) f) /\ spare L' = x :: spare L.
Proof.
  intros Hok Hnew Hx Hf. exists (with_chunks L (others L) (cache L) (x :: spare L)).
  split; [apply ok_upd_heap; [by apply ok_new_chunk | apply Hf]|]. split; [apply quiet_chunks|].
  split; [|done]. split; [done | apply Hf | apply owned_kept_refl].
Qed.

Lemma add_real_size_lists n h : same_lists h (add_real_size n h).
Proof. done. Qed.

Lemma new_chunk_ok st L : mm_ok st L -> pinned st L -> outcome (new_chunk st) (new_chunk_post st L).
Proof.
  intros Hok Hpin. unfold new_chunk.
  eapply (outcome_bind _ _ (fun r => exists L1, mm_ok (snd r) L1 /\ quiet L L1 /\ gc_frame L st (snd r) /\ spare L1 = spare L /\
    (fst r = true -> (size (runs L1) < size (runs L))%nat))).
  { destruct (_ <? _); [|exists L; split; [done|]; split; [apply quiet_refl|]; split; [apply gc_frame_refl | done]].
    destruct (gc_ok st L Hok Hpin) as (st1 & L1 & -> & Hok1 & Hg & Hf). rsimp.
    pose proof (gc_progress L L1 _ Hg eq_refl) as Hpr.
    destruct (negb (_ =? 0)) eqn:En.
    - exists L1. split; [done|]. split; [by apply gc_quiet|]. split; [done|]. split; [apply Hg|]. intros _. apply Hpr.
      by zbool.
    - destruct (overflow (heap st1) =? 0); [done|]. exists L1. split; [done|]. split; [by apply gc_quiet|]. split; [done|].
      split; [apply Hg | done]. }
  intros [retry st1] (L1 & Hok1 & Hq1 & Hf1 & Hsp1 & Hr1). cbn [fst snd] in *.
  destruct retry.
  { unfold new_chunk_post. cbn [outcome fst snd]. exists L1. split; [done|]. split; [done|]. split; [done|]. by auto. }
  assert (Hpin1 : pinned st1 L1) by (apply (pinned_quiet st _ L); [apply Hf1 | done..]).
  eapply outcome_bind; [by apply chunk_request_ok|].
  intros [[x|] st2'] (o & E & Hm); cbn [fst snd] in *; subst st2'.
  - destruct Hm as (_ & Hx & Hnew).
    destruct (get_chunk_post st1 L1 o x (add_real_size ZEND_MM_CHUNK_SIZE) Hok1 Hnew Hx) as (L' & Hok' & Hq' & Hf' & Hsp');
      [done|]. exists L'. split; [done|]. split; [by eapply quiet_trans|]. split; [by eapply gc_frame_trans|].
    cbn [fst]. congruence.
  - set (st2 := set_os st1 o).
    assert (Hok2 : mm_ok st2 L1) by (by apply ok_set_os).
    destruct (gc_ok st2 L1 Hok2 Hpin1) as (st3 & L3 & -> & Hok3 & Hg & Hf3). rsimp.
    assert (Hf13 : gc_frame L1 st1 st3) by (destruct Hf3; by split).
    destruct (negb (_ =? 0)); [|done].
    eapply outcome_bind; [eapply outcome_bind; [by apply chunk_request_ok|]|].
    { intros [[x|] st4] H; cbn [fst snd] in H; [|done].
      exact (H : (fun r : Z * mm => exists o, snd r = set_os st3 o /\ 0 < ZEND_MM_CHUNK_SIZE /\ fst r mod 2 ^ 21 = 0 /\
        new_mapping (os st3) o (fst r) ZEND_MM_CHUNK_SIZE) (x, st4)). }
    intros [x st4] (o' & E & _ & Hx & Hnew). cbn [fst snd] in *. subst st4.
    destruct (get_chunk_post st3 L3 o' x (add_real_size ZEND_MM_CHUNK_SIZE) Hok3 Hnew Hx) as (L' & Hok' & Hq' & Hf' & Hsp');
      [done|]. pose proof (gc_quiet _ _ Hg) as Hq3. exists L'. split; [done|].
    split; [eapply quiet_trans; [exact Hq1|]; by eapply quiet_trans|].
    split; [eapply gc_frame_trans; [exact Hq1|exact Hf1|]; by apply (gc_frame_trans _ L3 _ st3)|].
    cbn [fst]. rewrite Hsp', (gc_spare _ _ Hg). congruence.
Qed.
End Find.

(** * Allocating pages ([zend_mm_alloc_pages], second part)

    [alloc_pages_ok]: the pages are those of a new large run, and nothing that
    is handed out changes. *)

Section AllocPages.
Context {Sys : OS} {Laws : OSLaws} {Low : LowMemory} {Rest : Foreign}.
Implicit Types (st : mm).

(** ** A chunk *)
Definition take_chunk_post st (L : layout) (r : Z * mm) : Prop :=
  exists L', mm_ok (snd r) L' /\ quiet L L' /\ gc_frame L st (snd r) /\ spare L' = fst r :: spare L.

Lemma take_chunk_ok : forall fuel st L, mm_ok st L -> pinned st L -> (size (runs L) < fuel)%nat ->
  outcome (take_chunk st fuel) (take_chunk_post st L).
Proof.
  induction fuel as [|fuel IH]; intros st L Hok Hpin Hf; [lia|]. cbn [take_chunk].
  pose proof (ok_cache _ _ _ Hok) as Hca. destruct (Z.eqb_spec (cached_chunks (heap st)) 0) as [E|E]; cbn [negb].
  - eapply outcome_bind; [by apply new_chunk_ok|]. intros [[x|] st1] (L1 & Hok1 & Hq1 & Hf1 & Hsp); cbn [fst snd] in *.
    + by exists L1.
    + destruct Hsp as [Hsp Hlt]. eapply outcome_weaken.
      * apply (IH st1 L1 Hok1); [|lia]. by apply (pinned_quiet st _ L); [apply Hf1|..].
      * intros [y st2] (L2 & Hok2 & Hq2 & Hf2 & Hsp2). exists L2. cbn [fst snd] in *. split; [done|].
        split; [by eapply quiet_trans|]. split; [by eapply gc_frame_trans|]. congruence.
  - destruct (cache L) as [|x k] eqn:Ek; [done|]. destruct Hca as (Hx & _ & q & Hq & Hl). rewrite Hx in *.
    destruct (get_next _ _ _ Hq) as (c & Hg & Hc & Hcn). rewrite Hg. rsimp. cbn [outcome].
    exists (with_chunks L (others L) k (x :: spare L)). cbn [fst snd]. split; [|split; [apply quiet_chunks|]; split; [by split|done]].
    apply (ok_move _ st); try done.
    + rewrite Ek. solve_Permutation.
    + apply (ok_ring _ _ _ Hok).
    + cbn. by rewrite Hcn.
Qed.

(** ** The pages *)

(** Pages found at [p] of the chunk at [ch] become a run. *)
Lemma mark_pages_ok st L ch p n c :
  mm_ok st L -> ch ∈ main st :: others L -> chunks st !! ch = Some c -> 1 <= n -> fits c p n ->
  exists c', mark_run c p n = Ok c' /\ runs L !! (ch, p) = None /\
    mm_ok (put_chunk st ch c') (with_runs L (<[(ch, p) := LargeRun n]> (runs L))).
Proof.
  intros Hok Hch Hc Hn Hfit. destruct (ok_chunk _ _ _ Hok ch Hch) as (c0 & rs & Hc0 & _ & Hrs & Hcok).
  rewrite Hc in Hc0. injection Hc0 as <-.
  destruct (mark_run_ok _ _ _ Hcok p n Hn Hfit) as (c' & Hm & Hcok' & _ & Hsl & Hno).
  assert (Hno' : runs L !! (ch, p) = None) by (by rewrite <- Hrs).
  assert (Hkeep : forall b q, is_slot (runs L) b q -> is_slot (<[(ch, p) := LargeRun n]> (runs L)) b q).
  { intros b q (ch' & s & i & Hr & Hi & Hq). exists ch', s, i. split; [|done].
    rewrite lookup_insert_ne; [done|]. intros [= <- <-]. by rewrite Hno' in Hr. }
  exists c'. split; [done|]. split; [done|].
  apply (ok_put_chunk (fun _ _ => 0) (fun _ _ => 0) st L ch c c' _ (<[p := LargeRun n]> rs)); try done.
  - intros ch' s Hne. by rewrite lookup_insert_ne by congruence.
  - intros s. destruct (decide (s = p)) as [->|Hne]; [by rewrite !lookup_insert_eq|].
    rewrite !lookup_insert_ne by congruence. apply Hrs.
  - intros b q Hq. apply Hkeep. by apply (ok_slots _ _ _ Hok).
  - intros h Hh. apply Hkeep. by apply (ok_huge _ _ _ Hok).
Qed.

Definition main_empty st (L : layout) : Prop := forall s, runs L !! (main st, s) = None.

Definition new_run_post st (L : layout) (n : Z) (r : Z * mm) : Prop :=
  exists L1 ch s, fst r = ch + s * 4096 /\ quiet L L1 /\ runs L1 !! (ch, s) = None /\
    mm_ok (snd r) (with_runs L1 (<[(ch, s) := LargeRun n]> (runs L1))) /\
    gc_frame L st (snd r) /\ spare L1 = spare L.

Lemma owned_kept_eq L m m' : m' = m -> owned_kept L m m'.
Proof. by intros ->. Qed.

Lemma alloc_pages_ok st L n : mm_ok st L -> 0 < n < 512 -> pinned st L \/ main_empty st L ->
  outcome (zend_mm_alloc_pages st n) (new_run_post st L n).
Proof.
  intros Hok Hn Hsafe. unfold zend_mm_alloc_pages. fold (main st).
  destruct (find_pages_ok n Hn (others L) [] (main st) (S (size (chunks st))) 0 st L) as (r & steps & st1 & Hf & Hok1 & Hk1 & Hfi & Hst & Hne);
    [done | done | pose proof (chunk_ring_size _ _ _ Hok) as Hsz; cbn [length] in Hsz; lia |].
  rewrite Hf. rsimp. assert (Hm1 : main st1 = main st) by apply Hk1.
  (* the chunk *)
  eapply (outcome_bind _ _ (fun x => let '(ch, p, st2) := x in exists L2 c, mm_ok st2 L2 /\ quiet L L2 /\ gc_frame L st st2 /\
    spare L2 = spare L /\ ch ∈ main st2 :: others L2 /\ chunks st2 !! ch = Some c /\ fits c p n /\
    (steps = 0 \/ ch ∈ others L2))).
  { destruct r as [[ch p]|].
    - destruct Hfi as [Hch (c & Hc & Hfit)]. exists L, c. split; [done|]. split; [apply quiet_refl|].
      split; [by apply keeps_frame|]. split; [done|]. split; [by rewrite Hm1|]. split; [done|]. split; [done|].
      destruct Hst as [?|[? _]]; [by left | by right].
    - destruct Hsafe as [Hpin|Hemp]; [|by destruct (Hne Hemp)].
      eapply outcome_bind.
      { apply (take_chunk_ok _ st1 L Hok1); [by apply (pinned_quiet st _ L); [..|apply quiet_refl|]|].
        pose proof (size_runs_bound _ _ _ Hok1) as Hsz. change ZEND_MM_PAGES with 512. lia. }
      intros [x st2] (L2 & Hok2 & Hq2 & Hf2 & Hsp2). cbn [fst snd] in *.
      set (st3 := upd_heap (upd_heap st2 _) _).
      assert (Hok3 : mm_ok st3 L2).
      { apply ok_upd_heap; [apply ok_upd_heap; done|]. by destruct (_ <? _). }
      destruct (chunk_init_ok _ st3 L2 x (spare L) Hok3 Hsp2) as (st4 & c & Hi & Hok4 & Hk4 & _ & Hc & Hfit).
      rewrite Hi. rsimp. cbn [outcome].
      exists (with_chunks L2 (others L2 ++ [x]) (cache L2) (spare L)), c. split; [done|].
      split; [eapply quiet_trans; [done | apply quiet_chunks]|]. split.
      { apply (gc_frame_trans L L _ st1); [apply quiet_refl | by apply keeps_frame|].
        apply (gc_frame_trans L L2 _ st2); [done | done|]. destruct Hk4 as [A1 A2 A3 A4 A5].
        split; [done | unfold main; rewrite A3; cbn; by destruct (_ <? _) | by apply owned_kept_eq]. }
      split; [done|]. assert (Hx : x ∈ others L2 ++ [x]) by (apply elem_of_app; right; left).
      split; [by right|]. split; [done|]. split; [by apply Hfit | by right]. }
  intros [[ch p] st2] (L2 & c & Hok2 & Hq2 & Hf2 & Hsp2 & Hch & Hc & Hfit & Hsteps).
  (* moving it to the front *)
  eapply (outcome_bind _ _ (fun st3 => exists L3 c', mm_ok st3 L3 /\ quiet L L3 /\ gc_frame L st st3 /\ spare L3 = spare L /\
    ch ∈ main st3 :: others L3 /\ chunks st3 !! ch = Some c' /\ fits c' p n)).
  { destruct ((2 <? steps) && (n <? 8)) eqn:Em; [|by exists L2, c]. apply andb_prop in Em as [Em _]. zbool.
    destruct Hsteps as [->|Hin]; [lia|].
    destruct (move_to_front_ok _ st2 L2 ch Hok2 Hin) as (st3 & o & Hmv & Hl & Hp & Hok3). rewrite Hmv. cbn [outcome].
    destruct (links_only_chunk _ _ _ _ Hl Hc) as (c' & Hc' & Hu).
    exists (with_chunks L2 o (cache L2) (spare L2)), c'. split; [done|].
    split; [eapply quiet_trans; [done | apply quiet_chunks]|].
    split; [apply (gc_frame_trans L L2 _ st2); [done | done | by apply keeps_frame, links_keeps]|].
    split; [done|]. split; [right; cbn; by rewrite Hp|]. split; [done|].
    destruct Hfit as [F1 F2 F3]. injection Hu as U1 U2 U3 U4 U5 U6. by split; rewrite ?U5, ?U3. }
  intros st3 (L3 & c' & Hok3 & Hq3 & Hf3 & Hsp3 & Hch3 & Hc3 & Hfit3).
  rewrite (get_chunk_ok _ _ _ Hc3). rsimp.
  destruct (mark_pages_ok st3 L3 ch p n c' Hok3 Hch3 Hc3 ltac:(lia) Hfit3) as (c4 & Hm & Hno & Hok4). rewrite Hm. rsimp.
  exists L3, ch, p. split; [done|]. split; [done|]. split; [done|]. split; [done|]. split; [|done].
  apply (gc_frame_trans L L3 _ st3); [done | done|]. by split.
Qed.
End AllocPages.
