(* ===== verification/MmAlloc.v ===== *)
(** * Allocating small and large blocks ([zend_mm_alloc_small], [zend_mm_alloc_large])

    [alloc_post]: a block of at least the requested size that is apart from
    all that is handed out, which stays as it is. *)
From S2P Require Export MmFind.

Section Alloc.
Context {Sys : OS} {Laws : OSLaws} {Low : LowMemory} {Rest : Foreign}.
Implicit Types (st : mm).

(** The block [(p, n)] is added to what is handed out. *)
Record allocated (L : layout) (p n : Z) (L' : layout) : Prop := {
  al_owned q m : owned L' q m <-> owned L q m \/ (q = p /\ m = n);
  al_fresh q m : owned L q m -> rdisj (p, n) (q, m);
  al_huges : huges L' = huges L;
  al_held : held L' = held L;
  al_spare : spare L' = spare L
}.

Definition alloc_post st (L : layout) (n : Z) (r : Z * mm) : Prop :=
  exists L', mm_ok (snd r) L' /\ allocated L (fst r) n L' /\ gc_frame L st (snd r).

Lemma allocated_quiet L L1 p n L' : quiet L L1 -> spare L1 = spare L -> allocated L1 p n L' -> allocated L p n L'.
Proof.
  intros [Q1 Q2 Q3 Q4] Hs [A1 A2 A3 A4 A5]. split; try congruence.
  - intros q m. by rewrite A1, Q1.
  - intros q m Ho. apply A2. by apply Q1.
Qed.

(** ** A new run *)
Lemma is_slot_insert R ch s n b p : R !! (ch, s) = None ->
  is_slot (<[(ch, s) := LargeRun n]> R) b p <-> is_slot R b p.
Proof.
  intros Hno. split; intros (ch' & s' & i & Hr & Hi).
  - apply lookup_insert_Some in Hr as [[_ ?]|[_ Hr]]; [done|]. by exists ch', s', i.
  - exists ch', s', i. split; [|done]. rewrite lookup_insert_ne; [done|]. intros [= -> ->]. by rewrite Hno in Hr.
Qed.

Lemma owned_insert L ch s n q m : runs L !! (ch, s) = None ->
  owned (with_runs L (<[(ch, s) := LargeRun n]> (runs L))) q m <-> owned L q m \/ (q = ch + s * 4096 /\ m = n * 4096).
Proof.
  intros Hno. split.
  - intros [ch' s' k Hr|b p Hs Hf|node p k Hin].
    + cbn [runs with_runs] in Hr. apply lookup_insert_Some in Hr as [[E1 E2]|[_ Hr]]; [injection E1 as <- <-; injection E2 as <-; by right|].
      left. by apply (owned_large L ch' s' k).
    + left. constructor; [by apply is_slot_insert in Hs | done].
    + left. by apply (owned_huge L node).
  - intros [[ch' s' k Hr|b p Hs Hf|node p k Hin]|[-> ->]].
    + apply (owned_large (with_runs L _) ch' s' k). cbn. rewrite lookup_insert_ne; [done|].
      intros [= -> ->]. by rewrite Hno in Hr.
    + apply (owned_small (with_runs L _) b p); [by apply is_slot_insert | done].
    + by apply (owned_huge (with_runs L _) node).
    + apply (owned_large (with_runs L _) ch s n). apply lookup_insert_eq.
Qed.

(** It is apart from what was handed out before. *)
Lemma new_run_apart cnt st L ch s r q m :
  mm_ok_with cnt st (with_runs L (<[(ch, s) := r]> (runs L))) -> runs L !! (ch, s) = None -> owned L q m ->
  rdisj (run_range ch s r) (q, m).
Proof.
  intros Hok Hno Ho. set (R := <[(ch, s) := r]> (runs L)) in *.
  assert (Hnew : R !! (ch, s) = Some r) by apply lookup_insert_eq.
  assert (Hold : forall ch' s' r', runs L !! (ch', s') = Some r' -> R !! (ch', s') = Some r' /\ (ch, s) <> (ch', s')).
  { intros ch' s' r' Hr. assert (Hne : (ch, s) <> (ch', s')) by (intros [= <- <-]; by rewrite Hno in Hr).
    split; [|done]. unfold R. by rewrite lookup_insert_ne. }
  destruct Ho as [ch' s' k Hr|b p (ch' & s' & i & Hr & Hi & ->) Hf|node p k Hin].
  - destruct (Hold _ _ _ Hr) as [Hr' Hne].
    pose proof (runs_apart _ _ _ Hok _ _ _ _ _ _ Hnew Hr' Hne) as Hd. exact Hd.
  - destruct (Hold _ _ _ Hr) as [Hr' Hne].
    pose proof (runs_apart _ _ _ Hok _ _ _ _ _ _ Hnew Hr' Hne) as Hd.
    pose proof (slot_inside _ _ _ Hok _ _ _ _ Hr' Hi) as Hin.
    unfold rdisj, run_range in *. cbn [fst snd run_pages] in *. lia.
  - apply (run_huge_apart _ _ _ Hok _ _ _ (node, p, k) Hnew Hin).
Qed.

Lemma alloc_large_run st L n : mm_ok st L -> 0 < n < 512 -> pinned st L \/ main_empty st L ->
  outcome (zend_mm_alloc_pages st n) (alloc_post st L (n * 4096)).
Proof.
  intros Hok Hn Hsafe. eapply outcome_weaken; [by apply alloc_pages_ok|].
  intros [p st'] (L1 & ch & s & Hp & Hq & Hno & Hok' & Hf & Hsp). cbn [fst snd] in *. subst p.
  eexists. split; [exact Hok'|]. split; [|done]. apply (allocated_quiet L L1); [done | done|]. split; try done.
  - intros q m. by apply owned_insert.
  - intros q m Ho. by apply (new_run_apart _ _ _ ch s (LargeRun n) q m Hok').
Qed.

Lemma size_to_num size : ZEND_MM_MAX_SMALL_SIZE < size <= ZEND_MM_MAX_LARGE_SIZE ->
  let n := ZEND_MM_SIZE_TO_NUM size ZEND_MM_PAGE_SIZE in 0 < n < 512 /\ size <= n * 4096 < size + 4096.
Proof.
  change ZEND_MM_MAX_SMALL_SIZE with 3072. change ZEND_MM_MAX_LARGE_SIZE with 2093056. intros Hs n. subst n.
  unfold ZEND_MM_SIZE_TO_NUM. change ZEND_MM_PAGE_SIZE with 4096. rewrite u64_small by lia.
  pose proof (Z.div_mod (size + (4096 - 1)) 4096 ltac:(lia)). pose proof (Z.mod_pos_bound (size + (4096 - 1)) 4096 ltac:(lia)).
  lia.
Qed.

Lemma alloc_post_upd st L n p st' f :
  (forall h, same_lists h (f h)) -> alloc_post st L n (p, st') -> alloc_post st L n (p, upd_heap st' f).
Proof.
  intros Hf (L' & Hok & Ha & [F1 F2 F3]). exists L'. split; [by apply ok_upd_heap|]. split; [done|].
  split; [done | rewrite <- F2; apply Hf | done].
Qed.

Lemma alloc_large_ok st L size :
  mm_ok st L -> ZEND_MM_MAX_SMALL_SIZE < size <= ZEND_MM_MAX_LARGE_SIZE -> pinned st L \/ main_empty st L ->
  outcome (zend_mm_alloc_large st size) (alloc_post st L (ZEND_MM_SIZE_TO_NUM size ZEND_MM_PAGE_SIZE * 4096)).
Proof.
  intros Hok Hs Hsafe. destruct (size_to_num size Hs) as [Hn _]. unfold zend_mm_alloc_large.
  eapply outcome_bind; [by apply alloc_large_run|]. intros [p st'] H. by apply alloc_post_upd.
Qed.

(** ** A slot from a free list *)
Lemma owned_take L b x l q m : NoDup (x :: l) -> slots L b = x :: l -> is_slot (runs L) b x ->
  (forall b', is_slot (runs L) b' x -> b' = b) ->
  owned (set_bin L b l) q m <-> owned L q m \/ (q = x /\ m = bin_data_size b).
Proof.
  intros Hnd Hsl Hx Hinj. apply NoDup_cons in Hnd as [Hnx _]. split.
  - intros [ch s k Hr|b' p Hs Hf|node p k Hin].
    + left. by apply (owned_large L ch s k).
    + destruct (decide (b' = b)) as [->|Hne].
      * rewrite set_bin_same in Hf. destruct (decide (p = x)) as [->|Hpx]; [by right|].
        left. constructor; [done|]. rewrite Hsl, elem_of_cons. tauto.
      * rewrite set_bin_other in Hf by done. left. by constructor.
    + left. by apply (owned_huge L node).
  - intros [[ch s k Hr|b' p Hs Hf|node p k Hin]|[-> ->]].
    + by apply (owned_large (set_bin L b l) ch s k).
    + apply (owned_small (set_bin L b l) b' p); [done|]. destruct (decide (b' = b)) as [->|Hne].
      * rewrite set_bin_same. intros Hin. apply Hf. rewrite Hsl. by right.
      * by rewrite set_bin_other.
    + by apply (owned_huge (set_bin L b l) node).
    + apply (owned_small (set_bin L b l) b x); [done|]. by rewrite set_bin_same.
Qed.

Lemma take_slot_ok st L b x l :
  mm_ok st L -> 0 <= b < 30 -> slots L b = x :: l ->
  exists st', set_link st b None (load64 (mem st) x) = Ok st' /\ alloc_post st L (bin_data_size b) (x, st').
Proof.
  intros Hok Hb Hsl. destruct (set_link_ok _ st L b [] x l Hok Hb Hsl) as (st' & Hset & Hok' & Hsc & Hk & _).
  exists st'. split; [done|]. exists (set_bin L b l). cbn [fst snd app] in *. split; [done|].
  assert (Hx : x ∈ slots L b) by (rewrite Hsl; left).
  destruct (ok_slots _ _ _ Hok b x Hx) as [_ Hs]. split.
  - split; try done.
    + intros q m. apply owned_take; [rewrite <- Hsl; apply (ok_slots_nodup _ _ _ Hok) | done | done|].
      intros b' Hs'. by apply (is_slot_inj _ _ _ Hok _ _ x).
    + intros q m Ho. by apply (free_slot_apart _ _ _ b x q m Hok).
  - split; [apply Hsc | apply Hsc | done].
Qed.

(** ** A new run of slots *)
Definition links_chunk (b : Z) : bool := 3 <=? bin_elements b.

Lemma bin_elements_3 b : 0 <= b < 30 -> 3 <= bin_elements b.
Proof.
  intros Hb. apply Z.leb_le, (check_range links_chunk 0 30); [by vm_compute | lia].
Qed.

Lemma link_slots_ok size e : 8 <= size -> forall k fuel m p,
  0 < p -> e = p + Z.of_nat (S k) * size -> e + size < 2 ^ 64 -> (S k < fuel)%nat ->
  exists m', link_slots m p e size fuel = Ok m' /\
    (forall j, 0 <= j <= Z.of_nat k -> load64 m' (p + j * size) = p + (j + 1) * size) /\ load64 m' e = 0 /\
    (forall a, a < p \/ e + 8 <= a -> byte_at m' a = byte_at m a).
Proof.
  intros Hsz. induction k as [|k IH]; intros fuel m p Hp He Hw Hf; (destruct fuel as [|fuel]; [lia|]); cbn [link_slots].
  - assert (e = p + size) as -> by lia. rewrite Z.eqb_refl. cbn [negb]. eexists. split; [done|]. split; [|split].
    + intros j Hj. assert (j = 0) as -> by lia. rewrite Z.mul_0_l, Z.add_0_r.
      rewrite load64_store64_ne by lia. rewrite load_store64 by (unfold word64; lia). lia.
    + apply load_store64. unfold word64. lia.
    + intros a Ha. rewrite !store64_frame by lia. done.
  - destruct (Z.eqb_spec (p + size) e) as [E|E]; [nia|]. cbn [negb].
    destruct (IH fuel (store64 m p (p + size)) (p + size)) as (m' & Hl & Hj & H0 & Hfr); [lia..|].
    exists m'. split; [done|]. split; [|split; [done|]].
    + intros j Hjr. destruct (Z.eq_dec j 0) as [->|Hne].
      * rewrite Z.mul_0_l, Z.add_0_r. rewrite (load64_ext _ (store64 m p (p + size))) by (intros a Ha; apply Hfr; lia).
        rewrite load_store64 by (unfold word64; lia). lia.
      * specialize (Hj (j - 1) ltac:(lia)). replace (p + j * size) with (p + size + (j - 1) * size) by lia. rewrite Hj. lia.
    + intros a Ha. rewrite Hfr by lia. apply store64_frame. nia.
Qed.

(** The pages of a large run become the run of a bin. *)
Lemma mark_bin_pages st L ch s b :
  mm_ok st L -> runs L !! (ch, s) = Some (LargeRun (bin_pages b)) -> 0 <= b < 30 ->
  exists c c', chunks st !! ch = Some c /\ mark_bin c s b = Ok c' /\
    mm_ok (put_chunk st ch c') (with_runs L (<[(ch, s) := SmallRun b]> (runs L))).
Proof.
  intros Hok Hr Hb. destruct (run_facts _ _ _ Hok _ _ _ Hr) as (Hin & _ & _ & _ & _ & _ & _ & _ & c & rs & Hc & _ & Hrs & Hcok & Hl).
  destruct (mark_bin_ok _ _ _ Hcok s b Hl Hb eq_refl) as (c' & Hm & Hcok' & _ & Hsl).
  exists c, c'. split; [done|]. split; [done|].
  assert (Hkeep : forall b' q, is_slot (runs L) b' q -> is_slot (<[(ch, s) := SmallRun b]> (runs L)) b' q).
  { intros b' q (ch' & s' & i & Hr' & Hi & Hq). exists ch', s', i. split; [|done].
    rewrite lookup_insert_ne; [done|]. intros [= <- <-]. by rewrite Hr in Hr'. }
  apply (ok_put_chunk (fun _ _ => 0) (fun _ _ => 0) st L ch c c' _ (<[s := SmallRun b]> rs)); try done.
  - intros ch' s' Hne. by rewrite lookup_insert_ne by congruence.
  - intros t. destruct (decide (t = s)) as [->|Hne]; [by rewrite !lookup_insert_eq|].
    rewrite !lookup_insert_ne by congruence. apply Hrs.
  - intros b' q Hq. apply Hkeep. by apply (ok_slots _ _ _ Hok).
  - intros h Hh. apply Hkeep. by apply (ok_huge _ _ _ Hok).
Qed.

(** The slots behind the first one. *)
Definition rest_slots (ch s b : Z) : list Z := map (slot_addr ch s b) (seqZ 1 (bin_elements b - 1)).

Lemma llist_rest nx ch s b : forall n i, 0 <= i -> 0 < ch -> 0 <= s -> 0 <= bin_data_size b ->
  (forall j, i <= j < i + Z.of_nat n -> nx (slot_addr ch s b j) = Some (slot_addr ch s b (j + 1))) ->
  nx (slot_addr ch s b (i + Z.of_nat n)) = Some 0 ->
  llist nx (slot_addr ch s b i) (map (slot_addr ch s b) (seqZ i (Z.of_nat (S n)))).
Proof.
  assert (Hpos : forall i, 0 <= i -> 0 < ch -> 0 <= s -> 0 <= bin_data_size b -> slot_addr ch s b i <> 0)
    by (intros i ? ? ? ?; unfold slot_addr; nia).
  induction n as [|n IH]; intros i Hi Hc Hs Hd Hnx Hend.
  - rewrite Z.add_0_r in Hend. cbn. split; [done|]. split; [by apply Hpos|]. by exists 0.
  - rewrite seqZ_cons by lia. cbn [map llist]. split; [done|]. split; [by apply Hpos|].
    exists (slot_addr ch s b (i + 1)). split; [apply Hnx; lia|].
    replace (Z.pred (Z.of_nat (S (S n)))) with (Z.of_nat (S n)) by lia. replace (Z.succ i) with (i + 1) by lia.
    apply IH; [lia | done..| |].
    + intros j Hj. apply Hnx. lia.
    + by replace (i + 1 + Z.of_nat n) with (i + Z.of_nat (S n)) by lia.
Qed.

(** All slots of a new run but the first go to the list of the bin. *)
Lemma owned_new_bin L ch s b q m :
  runs L !! (ch, s) = None -> slots L b = [] -> 1 < bin_elements b ->
  (forall b' x, x ∈ slots L b' -> is_slot (runs L) b' x) ->
  (forall i j, 0 <= i < bin_elements b -> 0 <= j < bin_elements b -> slot_addr ch s b i = slot_addr ch s b j -> i = j) ->
  (forall b' x i, is_slot (runs L) b' x -> 0 <= i < bin_elements b -> x <> slot_addr ch s b i) ->
  owned (set_bin (with_runs L (<[(ch, s) := SmallRun b]> (runs L))) b (rest_slots ch s b)) q m <->
  owned L q m \/ (q = slot_addr ch s b 0 /\ m = bin_data_size b).
Proof.
  intros Hno Hnil He Hsl Hinj Hap. set (R := <[(ch, s) := SmallRun b]> (runs L)).
  assert (Hlk : forall ch' s' r, runs L !! (ch', s') = Some r -> R !! (ch', s') = Some r).
  { intros ch' s' r Hr. unfold R. rewrite lookup_insert_ne; [done|]. intros [= <- <-]. by rewrite Hno in Hr. }
  assert (Hrest : forall i, 0 <= i < bin_elements b -> slot_addr ch s b i ∈ rest_slots ch s b <-> i <> 0).
  { intros i Hi. unfold rest_slots. rewrite list_elem_of_fmap. split.
    - intros (j & Hj & Hjin). apply elem_of_seqZ in Hjin. intros ->. assert (0 = j); [|lia]. apply Hinj; [lia | lia | done].
    - intros Hne. exists i. split; [done|]. apply elem_of_seqZ. lia. }
  split.
  - intros [ch' s' k Hr|b' p Hs Hf|node p k Hin].
    + cbn [runs set_bin with_slots with_runs] in Hr. apply lookup_insert_Some in Hr as [[_ ?]|[_ Hr]]; [done|].
      left. by apply (owned_large L ch' s' k).
    + destruct Hs as (ch' & s' & i & Hr & Hi & ->). cbn [runs set_bin with_slots with_runs] in Hr.
      apply lookup_insert_Some in Hr as [[E1 E2]|[_ Hr]].
      * injection E1 as <- <-. injection E2 as <-. rewrite set_bin_same in Hf. right.
        destruct (decide (i = 0)) as [->|Hne]; [done|]. by destruct Hf; apply Hrest.
      * left. constructor; [by exists ch', s', i|]. destruct (decide (b' = b)) as [->|Hne].
        -- rewrite Hnil. apply not_elem_of_nil.
        -- by rewrite set_bin_other in Hf.
    + left. by apply (owned_huge L node).
  - intros [[ch' s' k Hr|b' p Hs Hf|node p k Hin]|[-> ->]].
    + apply (owned_large (set_bin _ _ _) ch' s' k). by apply Hlk.
    + apply (owned_small (set_bin _ _ _) b' p).
      * destruct Hs as (ch' & s' & i & Hr & Hi). exists ch', s', i. split; [by apply Hlk | done].
      * destruct (decide (b' = b)) as [->|Hne]; [|by rewrite set_bin_other]. rewrite set_bin_same.
        intros Hin. apply list_elem_of_fmap in Hin as (i & -> & Hi). apply elem_of_seqZ in Hi.
        by apply (Hap b (slot_addr ch s b i) i); [|lia|].
    + by apply (owned_huge (set_bin _ _ _) node).
    + apply (owned_small (set_bin _ _ _) b _); [exists ch, s, 0; split; [apply lookup_insert_eq | split; [lia | done]]|].
      rewrite set_bin_same. intros Hin. apply Hrest in Hin; lia.
Qed.
End Alloc.

(** * Allocating small blocks ([zend_mm_alloc_small], [zend_mm_alloc_small_slow]) *)

Section Small.
Context {Sys : OS} {Laws : OSLaws} {Low : LowMemory} {Rest : Foreign}.
Implicit Types (st : mm).

(** The chunk and the page of an address in a run. *)
Lemma run_address cnt st L ch s r a :
  mm_ok_with cnt st L -> runs L !! (ch, s) = Some r -> ch + s * 4096 <= a < ch + (s + run_pages r) * 4096 ->
  ZEND_MM_ALIGNED_BASE a ZEND_MM_CHUNK_SIZE = ch /\ ZEND_MM_ALIGNED_OFFSET a ZEND_MM_CHUNK_SIZE = a - ch /\
  s <= (a - ch) / 4096 < s + run_pages r /\ a - ch <> 0.
Proof.
  intros Hok Hr Ha. destruct (run_facts _ _ _ Hok _ _ _ Hr) as (_ & Hc0 & Hca & Hce & _ & Hs & Hse & Hp & _).
  destruct (chunk_address ch (a - ch)) as [Ho Hb]; [lia | done | lia | lia |].
  replace (ch + (a - ch)) with a in Ho, Hb by lia. split; [done|]. split; [done|]. split; [|lia].
  split; [apply Z.div_le_lower_bound; lia | apply Z.div_lt_upper_bound; lia].
Qed.

(** Writing the head of a free list. *)
Lemma set_free_head st b v : length (free_slot (heap st)) = 30%nat -> 0 <= b < 30 ->
  exists st1, set_link st b None v = Ok st1 /\ same_chunks st st1 /\ mem st1 = mem st /\
    length (free_slot (heap st1)) = 30%nat /\ aget (free_slot (heap st1)) b = Ok v /\
    (forall b', 0 <= b' < 30 -> b' <> b -> aget (free_slot (heap st1)) b' = aget (free_slot (heap st)) b').
Proof.
  intros Hl Hb. cbn [set_link]. rewrite aset_okZ by lia. rsimp. eexists. split; [done|]. split; [by split|].
  split; [done|]. cbn. split; [by rewrite length_insert|]. split; [apply aget_insert_eq; lia|].
  intros b' Hb' Hne. apply aget_insert_ne; [lia | done | lia].
Qed.

(** The free list of a bin is made of all slots of a new run but the first. *)
Lemma fill_bin_ok st L ch s b :
  mm_ok st (with_runs L (<[(ch, s) := SmallRun b]> (runs L))) -> runs L !! (ch, s) = None -> 0 <= b < 30 -> slots L b = [] ->
  (forall b' x, x ∈ slots L b' -> is_slot (runs L) b' x) -> (forall h, h ∈ huges L -> is_slot (runs L) 2 (node_of h)) ->
  let bin := ch + s * 4096 in let size := bin_data_size b in
  exists st1 m, set_link st b None (bin + size) = Ok st1 /\
    link_slots (mem st1) (bin + size) (bin + size * (bin_elements b - 1)) size (Z.to_nat (bin_elements b)) = Ok m /\
    alloc_post st L size (bin, set_mem st1 m).
Proof.
  intros Hok Hno Hb Hnil Hold Hnode bin size. set (L3 := with_runs L _) in *.
  assert (Hr : runs L3 !! (ch, s) = Some (SmallRun b)) by apply lookup_insert_eq.
  destruct (run_facts _ _ _ Hok _ _ _ Hr) as (_ & Hc0 & _ & Hce & _ & Hs & Hse & _). cbn [run_pages] in Hse.
  destruct (bin_facts b Hb) as (Hd & _ & He & Hbp & Hfit). pose proof (bin_elements_3 b Hb) as He3. fold size in Hd, Hfit.
  assert (Hbd : bin = ch + s * 4096) by done.
  assert (Hlk : forall ch' s' r, runs L !! (ch', s') = Some r -> runs L3 !! (ch', s') = Some r /\ (ch, s) <> (ch', s')).
  { intros ch' s' r Hr'. assert (Hne : (ch, s) <> (ch', s')) by (intros [= <- <-]; by rewrite Hno in Hr').
    split; [|done]. cbn. by rewrite lookup_insert_ne. }
  assert (Hap : forall b' p, is_slot (runs L) b' p -> rdisj (run_range ch s (SmallRun b)) (p, bin_data_size b')).
  { intros b' p (ch' & s' & i & Hr' & Hi & ->). destruct (Hlk _ _ _ Hr') as [Hr3 Hne].
    pose proof (runs_apart _ _ _ Hok _ _ _ _ _ _ Hr Hr3 Hne) as Hdj. pose proof (slot_inside _ _ _ Hok _ _ _ _ Hr3 Hi) as Hin.
    unfold rdisj, run_range in *. cbn [fst snd run_pages] in *. lia. }
  destruct (set_free_head st b (bin + size)) as (st1 & Hset & Hsc1 & Hm1 & Hfs); [exact (ok_slot_len _ _ _ Hok) | done |].
  destruct (link_slots_ok size (bin + size * (bin_elements b - 1)) ltac:(lia) (Z.to_nat (bin_elements b - 3))
    (Z.to_nat (bin_elements b)) (mem st1) (bin + size)) as (m & Hlink & Hnx & Hend & Hfr); [lia | | nia | lia |].
  { replace (Z.of_nat (S (Z.to_nat (bin_elements b - 3)))) with (bin_elements b - 2) by lia. lia. }
  exists st1, m. split; [done|]. split; [done|].
  assert (Hbytes : forall a, a < bin \/ bin + bin_pages b * 4096 <= a -> byte_at m a = byte_at (mem st) a).
  { intros a Ha. rewrite Hfr by (destruct Ha; nia). by rewrite Hm1. }
  assert (Hout : forall b' p k, is_slot (runs L) b' p -> 0 <= k -> k + 8 <= bin_data_size b' ->
    load64 m (p + k) = load64 (mem st) (p + k)).
  { intros b' p k Hp Hk Hkb. apply load64_ext. intros a Ha. apply Hbytes.
    pose proof (Hap b' p Hp) as Hdj. unfold rdisj, run_range in Hdj. cbn [fst snd run_pages] in Hdj. lia. }
  assert (Hbin0 : forall b' p, is_slot (runs L) b' p -> 8 <= bin_data_size b').
  { intros b' p (ch' & s' & i & Hr' & _). destruct (Hlk _ _ _ Hr') as [Hr3 _].
    destruct (run_facts _ _ _ Hok _ _ _ Hr3) as (_ & _ & _ & _ & Hb' & _). by destruct (bin_facts b' Hb') as ((? & _) & _). }
  assert (Hslot0 : slot_addr ch s b 0 = bin) by (unfold slot_addr; lia).
  exists (set_bin L3 b (rest_slots ch s b)). cbn [fst snd]. split; [|split].
  - apply (ok_set_bin _ st); try done.
    + destruct Hsc1. by split.
    + apply Hfs.
    + intros b' Hb' Hne. by apply Hfs.
    + intros b' p Hne Hp. cbn [mem set_mem]. pose proof (Hold b' p Hp) as Hs'. rewrite <- (Z.add_0_r p).
      apply (Hout b'); [done | lia | pose proof (Hbin0 _ _ Hs'); lia].
    + exists (bin + size). split; [apply Hfs|]. unfold rest_slots.
      replace (bin_elements b - 1) with (Z.of_nat (S (Z.to_nat (bin_elements b - 2)))) by lia.
      replace (bin + size) with (slot_addr ch s b 1) by (unfold slot_addr; fold size; lia).
      apply llist_rest; [lia | done | lia | fold size; lia | |].
      * intros j Hj. unfold slot_next. f_equal. cbn [mem set_mem]. specialize (Hnx (j - 1) ltac:(lia)).
        replace (bin + size + (j - 1) * size) with (slot_addr ch s b j) in Hnx by (unfold slot_addr; fold size; lia).
        rewrite Hnx. unfold slot_addr. fold size. lia.
      * unfold slot_next. f_equal. cbn [mem set_mem]. rewrite <- Hend. f_equal. unfold slot_addr. fold size. lia.
    + apply NoDup_fmap_2_strong; [|apply NoDup_seqZ]. intros i j _ _ E. unfold slot_addr in E. fold size in E. nia.
    + intros p Hp. apply list_elem_of_fmap in Hp as (i & -> & Hi). apply elem_of_seqZ in Hi. exists ch, s, i.
      split; [done|]. split; [lia | done].
    + intros h Hh -> Hin. apply list_elem_of_fmap in Hin as (i & Hni & Hi). apply elem_of_seqZ in Hi.
      pose proof (Hap 2 _ (Hnode h Hh)) as Hdj. pose proof (slot_inside _ _ _ Hok ch s 2 i Hr ltac:(lia)) as Hin.
      unfold rdisj, run_range in Hdj. cbn [fst snd run_pages] in Hdj. rewrite Hni in Hdj.
      change (bin_data_size 2) with 24 in *. lia.
    + intros h k Hh Hk. cbn [mem set_mem]. apply (Hout 2); [by apply Hnode | |]; change (bin_data_size 2) with 24;
        rewrite !elem_of_cons, elem_of_nil in Hk; destruct Hk as [->|[->|[->|[]]]]; lia.
  - split; try done.
    + intros q m'. unfold L3. rewrite (owned_new_bin L ch s b q m' Hno Hnil); [by rewrite Hslot0 | lia | done | |].
      * intros i j _ _ E. unfold slot_addr in E. fold size in E. nia.
      * intros b' x i Hx Hi ->. pose proof (Hap b' _ Hx) as Hdj. pose proof (slot_inside _ _ _ Hok ch s b i Hr Hi) as Hin.
        pose proof (Hbin0 _ _ Hx). unfold rdisj, run_range in Hdj. cbn [fst snd run_pages] in Hdj. fold size in Hin. lia.
    + intros q m' Ho. pose proof (new_run_apart _ _ _ _ _ _ _ _ Hok Hno Ho) as Hdj.
      unfold rdisj, run_range in *. cbn [fst snd run_pages] in *. fold bin in Hdj. nia.
  - split; [apply Hsc1 | apply Hsc1|]. intros p n a Ho Ha. cbn [mem set_mem].
    pose proof (new_run_apart _ _ _ _ _ _ _ _ Hok Hno Ho) as Hdj. apply Hbytes.
    unfold rdisj, run_range in Hdj. cbn [fst snd run_pages] in Hdj. fold bin in Hdj. lia.
Qed.

Lemma alloc_small_slow_ok st L b : mm_ok st L -> 0 <= b < 30 -> slots L b = [] -> pinned st L \/ main_empty st L ->
  outcome (zend_mm_alloc_small_slow st b) (alloc_post st L (bin_data_size b)).
Proof.
  intros Hok Hb Hnil Hsafe. destruct (bin_facts b Hb) as (_ & _ & He & Hbp & _). unfold zend_mm_alloc_small_slow.
  eapply outcome_bind; [apply alloc_pages_ok; [done | lia | done]|].
  intros [bin st1] (L1 & ch & s & Hp & Hq & Hno & Hok1 & Hf1 & Hsp). cbn [fst snd] in *. subst bin.
  set (L2 := with_runs L1 _) in *.
  assert (Hr : runs L2 !! (ch, s) = Some (LargeRun (bin_pages b))) by apply lookup_insert_eq.
  destruct (run_address _ _ _ ch s _ (ch + s * 4096) Hok1 Hr) as (-> & -> & _); [cbn; lia|].
  replace (ch + s * 4096 - ch) with (s * 4096) by lia. change ZEND_MM_PAGE_SIZE with 4096. rewrite Z.div_mul by lia.
  destruct (mark_bin_pages st1 L2 ch s b Hok1 Hr Hb) as (c & c' & Hc & Hm & Hok2).
  rewrite (get_chunk_ok _ _ _ Hc). rsimp. rewrite Hm. rsimp. set (st2 := put_chunk st1 ch c') in *.
  assert (Hok2' : mm_ok st2 (with_runs L1 (<[(ch, s) := SmallRun b]> (runs L1)))).
  { unfold L2 in Hok2. cbn [runs with_runs] in Hok2. by rewrite insert_insert_eq in Hok2. }
  destruct (fill_bin_ok st2 L1 ch s b Hok2' Hno Hb) as (st3 & m & Hset & Hlink & Hpost).
  - destruct (slots L1 b) as [|x l] eqn:E; [done|]. exfalso.
    assert (Hx : x ∈ slots L b) by (apply (q_slots _ _ Hq); rewrite E; left). rewrite Hnil in Hx. by apply elem_of_nil in Hx.
  - intros b' x Hx. destruct (ok_slots _ _ _ Hok1 b' x Hx) as [_ Hs]. by apply is_slot_insert in Hs.
  - intros h Hh. destruct (ok_huge _ _ _ Hok1 h Hh) as (_ & _ & Hs & _). by apply is_slot_insert in Hs.
  - rewrite Hset. rsimp. rewrite Hlink. rsimp. destruct Hpost as (L' & Hok' & Ha & Hf'). cbn [outcome].
    exists L'. split; [done|]. split; [by apply (allocated_quiet L L1)|].
    apply (gc_frame_trans L L1 _ st2); [done | | done]. destruct Hf1. by split.
Qed.

Lemma alloc_small_ok st L b : mm_ok st L -> 0 <= b < 30 -> pinned st L \/ main_empty st L ->
  outcome (zend_mm_alloc_small st b) (alloc_post st L (bin_data_size b)).
Proof.
  intros Hok Hb Hsafe. unfold zend_mm_alloc_small. set (st1 := upd_heap st _).
  assert (Hok1 : mm_ok st1 L) by (by apply ok_upd_heap).
  assert (Hf1 : gc_frame L st st1) by done.
  assert (Hpost : forall r, alloc_post st1 L (bin_data_size b) r -> alloc_post st L (bin_data_size b) r).
  { intros r (L' & Hok' & Ha & Hf'). exists L'. split; [done|]. split; [done|].
    apply (gc_frame_trans L L _ st1); [apply quiet_refl | done..]. }
  destruct (ok_lists _ _ _ Hok1 b Hb) as (p & Hp & Hl). rewrite Hp. rsimp.
  destruct (slots L b) as [|x l] eqn:E; cbn [llist] in Hl.
  - rewrite Hl. cbn [Z.eqb negb]. eapply outcome_weaken; [by apply alloc_small_slow_ok|]. apply Hpost.
  - destruct Hl as (-> & Hx0 & _). destruct (Z.eqb_spec x 0) as [|_]; [done|]. cbn [negb].
    destruct (take_slot_ok st1 L b x l Hok1 Hb E) as (st2 & Hset & Hpo). rewrite Hset. rsimp. by apply Hpost.
Qed.
End Small.
