(* ===== verification/MmHuge.v ===== *)
(** * Allocating huge blocks, and [zend_mm_alloc_heap] *)
From S2P Require Export MmAlloc.

(** ** Sizes *)
Definition small_bin_check (size : Z) : bool :=
  let b := zend_mm_small_size_to_bin size in
  (0 <=? b) && (b <? 30) && (size <=? bin_data_size b) && ((b =? 0) || (bin_data_size (b - 1) <? size)).

Lemma small_bin_computed : forallb small_bin_check (seqZ 0 3073) = true.
Proof. by vm_compute. Qed.

(** The bin of a size is the least one whose blocks are large enough. *)
Lemma small_bin_spec size : 0 <= size <= ZEND_MM_MAX_SMALL_SIZE ->
  let b := zend_mm_small_size_to_bin size in
  0 <= b < 30 /\ size <= bin_data_size b /\ (b = 0 \/ bin_data_size (b - 1) < size).
Proof.
  change ZEND_MM_MAX_SMALL_SIZE with 3072. intros Hs b.
  pose proof (check_range small_bin_check 0 3073 small_bin_computed size ltac:(lia)) as H.
  unfold small_bin_check in H. fold b in H. cbv zeta in H.
  apply andb_prop in H as [H H4]. apply andb_prop in H as [H H3]. apply andb_prop in H as [H1 H2].
  apply orb_prop in H4. zbool. split; [lia|]. split; [done|]. destruct H4; zbool; [by left | by right].
Qed.

(** Rounding a huge size up: the sum wraps around to 0 near [2 ^ 64]. *)
Lemma huge_size_cases size : 0 <= size < 2 ^ 64 ->
  let m := ZEND_MM_ALIGNED_SIZE_EX size REAL_PAGE_SIZE in
  m mod 4096 = 0 /\ 0 <= m < 2 ^ 64 /\ (m = 0 \/ size <= m < size + 4096).
Proof.
  intros Hs m. subst m. unfold ZEND_MM_ALIGNED_SIZE_EX. change (REAL_PAGE_SIZE - 1) with (Z.ones 12).
  rewrite land_not_ones by (apply u64_word || lia). change REAL_PAGE_SIZE with 4096. change (2 ^ 12) with 4096.
  set (u := u64 (size + 4096 - 1)). assert (Hu : 0 <= u < 2 ^ 64) by apply u64_range.
  pose proof (Z.div_mod u 4096 ltac:(lia)). pose proof (Z.mod_pos_bound u 4096 ltac:(lia)).
  replace (u - u mod 4096) with (u / 4096 * 4096) by lia. split; [by apply Z.mod_mul|].
  assert (0 <= u / 4096) by (apply Z.div_pos; lia). split; [lia|].
  destruct (Z.lt_ge_cases (size + 4096 - 1) (2 ^ 64)).
  - right. assert (u = size + 4096 - 1) by (unfold u; rewrite u64_small; lia). lia.
  - left. assert (u = size + 4096 - 1 - 2 ^ 64).
    { unfold u, u64. replace (size + 4096 - 1) with (size + 4096 - 1 - 2 ^ 64 + 1 * 2 ^ 64) by lia.
      rewrite Z.mod_add, Z.mod_small; lia. }
    lia.
Qed.

(** The number of bytes that a request gets: the size of its bin, or whole pages. *)
Definition block_size (size : Z) : Z :=
  if size <=? ZEND_MM_MAX_SMALL_SIZE then bin_data_size (zend_mm_small_size_to_bin size)
  else if size <=? ZEND_MM_MAX_LARGE_SIZE then ZEND_MM_SIZE_TO_NUM size ZEND_MM_PAGE_SIZE * ZEND_MM_PAGE_SIZE
  else ZEND_MM_ALIGNED_SIZE_EX size REAL_PAGE_SIZE.

Lemma block_size_huge size : ZEND_MM_MAX_LARGE_SIZE < size -> block_size size = ZEND_MM_ALIGNED_SIZE_EX size REAL_PAGE_SIZE.
Proof.
  change ZEND_MM_MAX_LARGE_SIZE with 2093056. intros Hs. unfold block_size. change ZEND_MM_MAX_SMALL_SIZE with 3072.
  change ZEND_MM_MAX_LARGE_SIZE with 2093056. destruct (Z.leb_spec size 3072), (Z.leb_spec size 2093056); done || lia.
Qed.

Section Huge.
Context {Sys : OS} {Laws : OSLaws} {Low : LowMemory} {Rest : Foreign}.
Implicit Types (st : mm).

(** ** Regions that are held *)
Lemma ok_hold cnt st L o p size :
  mm_ok_with cnt st L -> new_mapping (os st) o p size -> 0 < size -> p mod 2 ^ 21 = 0 -> size mod 4096 = 0 ->
  mm_ok_with cnt (set_os st o) (with_huges L (huges L) ((p, size) :: held L)).
Proof.
  intros Hok Hnew Hs Hp Hm. pose proof Hok as [Hr Hc Hrg Hch Hru Hca Hsl Hls Hss Hsn Hhl Hh Hhn].
  split; try done. apply (regions_ok_perm _ ((p, size) :: regions_of (main st) L)).
  - unfold regions_of. cbn [others cache spare huges held with_huges]. change (main (set_os st o)) with (main st).
    solve_Permutation.
  - by apply (regions_new (os st)).
Qed.

Lemma owned_huges L h k q m : owned (with_huges L h k) q m ->
  (forall x, x ∈ h -> x ∈ huges L) -> owned L q m.
Proof.
  intros [ch s n Hr|b p Hs Hf|node p n Hin] Hsub.
  - by apply (owned_large L ch s n).
  - by constructor.
  - apply (owned_huge L node). by apply Hsub.
Qed.

Lemma owned_with_huges L h k q m : (forall x, x ∈ huges L -> x ∈ h) -> owned L q m -> owned (with_huges L h k) q m.
Proof.
  intros Hsub [ch s n Hr|b p Hs Hf|node p n Hin].
  - by apply (owned_large (with_huges L h k) ch s n).
  - by apply (owned_small (with_huges L h k)).
  - apply (owned_huge (with_huges L h k) node). by apply Hsub.
Qed.

Lemma held_apart cnt st L r q m : mm_ok_with cnt st L -> r ∈ held L -> owned L q m -> rdisj r (q, m).
Proof.
  intros Hok Hr Ho. destruct (proj1 (ok_regions _ _ _ Hok)) as [_ Hw]. apply pairwise_app in Hw as (_ & Hw & Hd).
  apply pairwise_app in Hw as (_ & _ & Hd2). destruct (owned_cases _ _ _ Hok q m Ho) as [(ch & s & x & Hx & H1 & H2 & H3)|(node & Hin)].
  - destruct (run_facts _ _ _ Hok _ _ _ Hx) as (Hin & ? & ? & ? & ? & ? & ? & _).
    specialize (Hd (ch, ZEND_MM_CHUNK_SIZE) r). unfold rdisj in *. cbn [fst snd] in *.
    change ZEND_MM_CHUNK_SIZE with (2 ^ 21) in Hd. destruct Hd; [| |right; lia|left; lia].
    + apply list_elem_of_fmap. exists ch. split; [done|]. rewrite elem_of_cons in *. rewrite elem_of_app. tauto.
    + apply elem_of_app. by right.
  - apply rdisj_sym. apply (Hd2 (q, m) r); [|done]. apply list_elem_of_fmap. by exists (node, q, m).
Qed.

(** ** The node of a huge block *)
Lemma owned_24 cnt st L p : mm_ok_with cnt st L -> owned L p 24 -> is_slot (runs L) 2 p /\ p ∉ slots L 2.
Proof.
  intros Hok Ho. inversion Ho as [ch s n Hr E1 E2|b q Hs Hf E1 E2|node q n Hin E1 E2]; subst.
  - lia.
  - pose proof (is_slot_bin _ _ _ Hok _ _ Hs) as Hb.
    assert (b = 2) as ->; [|done].
    assert (H : (negb (bin_data_size b =? 24) || (b =? 2)) = true)
      by (apply (check_range (fun b => negb (bin_data_size b =? 24) || (b =? 2)) 0 30); [by vm_compute | lia]).
    rewrite E2 in H. cbn in H. by zbool.
  - destruct (huge_region _ _ _ Hok _ Hin) as [_ _ _ Hm _ _]. by cbn in Hm.
Qed.

(** The held block becomes the first of the huge list. *)
Lemma link_huge_ok st L node p size k :
  mm_ok st L -> held L = (p, size) :: k -> owned L node 24 -> node ∉ map node_of (huges L) ->
  mm_ok (link_huge st node p size) (with_huges L ((node, p, size) :: huges L) k) /\
  (forall a, a < node \/ node + 24 <= a -> byte_at (mem (link_huge st node p size)) a = byte_at (mem st) a).
Proof.
  intros Hok Hk Ho Hn. pose proof Hok as [Hr Hc Hrg Hch Hru Hca Hsl Hls Hss Hsn Hhl Hh Hhn].
  destruct (owned_24 _ _ _ _ Hok Ho) as [Hs Hf]. destruct (owned_range _ _ _ Hok _ _ Ho) as (Hn0 & _ & Hne).
  assert (Hreg : region_ok (os st) (p, size)).
  { destruct (proj1 Hrg) as [Hfa _]. rewrite Forall_forall in Hfa. apply Hfa. unfold regions_of. rewrite Hk.
    apply elem_of_app. right. apply elem_of_app. right. left. }
  destruct Hreg as [Hp Hsz _ _ He _]. cbn [fst snd] in *. unfold ADDRESS_SPACE in He.
  set (m' := mem (link_huge st node p size)).
  assert (Hfr : forall a, a < node \/ node + 24 <= a -> byte_at m' a = byte_at (mem st) a).
  { intros a Ha. unfold m', link_huge. cbn [mem upd_heap set_heap set_mem]. rewrite !store64_frame by lia. done. }
  split; [|done].
  assert (Hload : forall b q j, is_slot (runs L) b q -> q <> node -> 0 <= j -> j + 8 <= bin_data_size b ->
    load64 m' (q + j) = load64 (mem st) (q + j)).
  { intros b q j Hq Hne' Hj Hjb. apply load64_ext. intros a Ha. apply Hfr.
    destruct (slots_apart _ _ _ Hok _ _ _ _ Hs Hq) as [->|Hd]; [done|]. unfold rdisj in Hd. cbn [fst snd] in Hd.
    change (bin_data_size 2) with 24 in Hd. lia. }
  assert (Hlw : word64 (huge_list (heap st))).
  { destruct (huges L) as [|h l] eqn:E; cbn [map llist] in Hhl; [rewrite Hhl; unfold word64; lia|].
    destruct Hhl as (-> & _). apply (slot_word (fun _ _ => 0) st L 2); [done|]. apply (Hh h). left. }
  assert (Hnode0 : load64 m' node = p).
  { unfold m', link_huge. cbn [mem upd_heap set_heap set_mem]. rewrite !load64_store64_ne by lia.
    apply load_store64. unfold word64. lia. }
  assert (Hnode8 : load64 m' (node + 8) = size).
  { unfold m', link_huge. cbn [mem upd_heap set_heap set_mem]. rewrite load64_store64_ne by lia.
    apply load_store64. unfold word64. lia. }
  assert (Hnode16 : load64 m' (node + 16) = huge_list (heap st)).
  { unfold m', link_huge. cbn [mem upd_heap set_heap set_mem]. by apply load_store64. }
  assert (Hold : forall h, h ∈ huges L -> node_of h <> node).
  { intros h Hin <-. apply Hn, list_elem_of_fmap. by exists h. }
  split; cbn [others cache spare runs slots huges held with_huges]; try done.
  - apply (regions_ok_perm _ (regions_of (main st) L)); [|done]. unfold regions_of. rewrite Hk.
    cbn [others cache spare huges held with_huges map huge_range fst snd]. change (main (link_huge st node p size)) with (main st).
    solve_Permutation.
  - intros b Hb. destruct (Hls b Hb) as (q & Hq & Hl). exists q. split; [done|].
    apply (llist_frame _ _ _ _ Hl). intros x Hx. unfold slot_next. f_equal. destruct (Hss b x Hx) as [_ Hsx].
    rewrite <- (Z.add_0_r x). destruct (bin_facts b Hb) as (? & _). apply (Hload b); [done| |lia|lia].
    intros ->. rewrite (is_slot_inj _ _ _ Hok _ _ _ Hsx Hs) in Hx. done.
  - cbn [map node_of fst]. split; [done|]. split; [lia|]. exists (huge_list (heap st)).
    split; [unfold node_next; f_equal; exact Hnode16|]. apply (llist_frame _ _ _ _ Hhl).
    intros x Hx. apply list_elem_of_fmap in Hx as (h & -> & Hin). unfold node_next. f_equal.
    apply (Hload 2); [by apply Hh | by apply Hold | lia | change (bin_data_size 2) with 24; lia].
  - intros h Hin. apply elem_of_cons in Hin as [->|Hin]; [by cbn|].
    destruct (Hh h Hin) as (H1 & H2 & H3 & H4). split; [|split; [|done]].
    + rewrite <- H1. pose proof (Hload 2 (node_of h) 0) as E. rewrite !Z.add_0_r in E.
      apply E; [done | by apply Hold | lia | change (bin_data_size 2) with 24; lia].
    + rewrite <- H2. apply (Hload 2); [done | by apply Hold | lia | change (bin_data_size 2) with 24; lia].
  - cbn [map node_of fst]. by constructor.
Qed.

(** ** Blocks of the user *)
Definition block_kept (L : layout) (m m' : gmap Z Z) : Prop :=
  forall p n a, block L p n -> p <= a < p + n -> byte_at m' a = byte_at m a.

(** The block [(p, n)] is new. *)
Record block_added (L : layout) (p n : Z) (L' : layout) : Prop := {
  ba_block q m : block L' q m <-> block L q m \/ (q = p /\ m = n);
  ba_fresh q m : block L q m -> rdisj (p, n) (q, m);
  ba_held : held L' = held L;
  ba_spare : spare L' = spare L
}.

Record block_frame (L : layout) st st' : Prop := {
  bk_addr : h_addr st' = h_addr st;
  bk_main : main st' = main st;
  bk_kept : block_kept L (mem st) (mem st')
}.

Lemma gc_block_frame L st st' : gc_frame L st st' -> block_frame L st st'.
Proof. intros [A B C]. split; [done..|]. intros p n a [Ho _]. by apply (C p n a). Qed.

Definition alloc_heap_post st (L : layout) (size : Z) (r : Z * mm) : Prop :=
  exists L' n, (size <= n /\ n = block_size size) /\ mm_ok (snd r) L' /\ block_added L (fst r) n L' /\ block_frame L st (snd r).

Lemma node_owned cnt st L h : mm_ok_with cnt st L -> h ∈ huges L -> owned L (node_of h) 24.
Proof.
  intros Hok Hh. destruct (ok_huge _ _ _ Hok h Hh) as (_ & _ & Hs & Hf).
  change 24 with (bin_data_size 2). by constructor.
Qed.

(** A block that is no huge one. *)
Lemma alloc_post_block st L n size r : mm_ok st L -> 0 < n -> size <= n /\ n = block_size size -> alloc_post st L n r -> alloc_heap_post st L size r.
Proof.
  intros Hok Hn Hs (L' & Hok' & [A1 A2 A3 A4 A5] & Hf). exists L', n. split; [done|]. split; [done|].
  split; [|by apply gc_block_frame].
  assert (Hno : fst r ∉ map node_of (huges L)).
  { intros Hin. apply list_elem_of_fmap in Hin as (h & E & Hh).
    pose proof (A2 _ _ (node_owned _ _ _ _ Hok Hh)) as Hd. unfold rdisj in Hd. cbn [fst snd] in Hd. rewrite E in Hd. lia. }
  split; [|by intros q m [Ho _]; apply A2|done|done].
  intros q m. unfold block. rewrite A1, A3. split; [tauto|]. intros [[Ho Hq]|[-> ->]]; tauto.
Qed.

Lemma check_limit_ok st L n : mm_ok st L -> pinned st L -> outcome (check_limit st n) (fun st1 =>
  exists L1, mm_ok st1 L1 /\ quiet L L1 /\ spare L1 = spare L /\ gc_frame L st st1 /\ sheds st st1).
Proof.
  intros Hok Hpin. unfold check_limit. destruct (_ <? _).
  2:{ exists L. split; [done|]. split; [apply quiet_refl|]. split; [done|]. split; [apply gc_frame_refl | apply sheds_refl]. }
  destruct (gc_ok st L Hok Hpin) as (st1 & L1 & E & Hok1 & Hg & Hf). pose proof (gc_sheds _ _ _ E) as Hsh. rewrite E. rsimp.
  destruct (negb _ && _); [|destruct (overflow _ =? 0); [done|]];
    (exists L1; split; [done|]; split; [by apply gc_quiet|]; split; [apply Hg | done]).
Qed.

(** The mapping of a huge block, after a collection if the system refuses. *)
Lemma huge_map_ok st L size : mm_ok st L -> pinned st L -> 0 <= size < 2 ^ 64 -> size mod 4096 = 0 -> null_free (os st) size ->
  outcome (let! (ptr, st) := zend_mm_chunk_alloc st size ZEND_MM_CHUNK_SIZE in
    match ptr with
    | Some ptr => Ok (ptr, st)
    | None =>
        let! (collected, st) := zend_mm_gc st in
        if negb (collected =? 0) then
          let! (ptr, st) := zend_mm_chunk_alloc st size ZEND_MM_CHUNK_SIZE in
          match ptr with Some ptr => Ok (ptr, st) | None => Err Fatal end
        else Err Fatal
    end) (fun r => exists L1, 0 < size /\ mm_ok (snd r) (with_huges L1 (huges L1) ((fst r, size) :: held L1)) /\
      quiet L L1 /\ spare L1 = spare L /\ gc_frame L st (snd r)).
Proof.
  intros Hok Hpin Hs Hm Hnull.
  assert (Hone : forall st1 L1 o p, mm_ok st1 L1 -> 0 < size /\ p mod 2 ^ 21 = 0 /\ new_mapping (os st1) o p size ->
    mm_ok (set_os st1 o) (with_huges L1 (huges L1) ((p, size) :: held L1))).
  { intros st1 L1 o p Hok1 (Hsz & Hp & Hnew). by apply ok_hold. }
  eapply outcome_bind; [by apply chunk_alloc_ok|]. intros [[p|] st1'] (o & E & H); cbn [fst snd] in *; subst st1'.
  - exists L. split; [tauto|]. split; [by apply Hone|]. split; [apply quiet_refl|]. split; [done|]. by split.
  - set (st1 := set_os st o). assert (Hok1 : mm_ok st1 L) by (by apply ok_set_os).
    destruct (gc_ok st1 L Hok1 Hpin) as (st2 & L2 & Eg & Hok2 & Hg & Hf). rewrite Eg. rsimp.
    destruct (negb _); [|done]. eapply outcome_bind.
    { apply chunk_alloc_ok; [done..|]. apply (null_free_mono (os st)); [|done]. intros a Ha. by apply H, (gc_sheds _ _ _ Eg). }
    intros [[p|] st3'] (o' & E & H'); cbn [fst snd] in *; subst st3'; [|done]. cbn [outcome].
    exists L2. split; [tauto|]. split; [by apply Hone|]. split; [by apply gc_quiet|]. split; [apply Hg|].
    destruct Hf. by split.
Qed.
End Huge.

(** * [zend_mm_alloc_heap] *)

Section AllocHeap.
Context {Sys : OS} {Laws : OSLaws} {Low : LowMemory} {Rest : Foreign}.
Implicit Types (st : mm).

Lemma owned_held L h q m : owned (with_huges L (huges L) h) q m <-> owned L q m.
Proof. split; [intros Ho; by apply (owned_huges L (huges L) h) | intros Ho; by apply owned_with_huges]. Qed.

Lemma pinned_held st st' L h : main st' = main st -> pinned st L -> pinned st' (with_huges L (huges L) h).
Proof. intros Hm (p & n & Ho & Hp). exists p, n. rewrite Hm. by rewrite owned_held. Qed.

(** The block appears when its node has been linked. *)
Lemma huge_block_added L L2 L3 node p size :
  quiet L L2 -> allocated (with_huges L2 (huges L2) ((p, size) :: held L2)) node 24 L3 ->
  node ∉ map node_of (huges L3) -> spare L2 = spare L ->
  (forall q m, owned L2 q m -> rdisj (p, size) (q, m) /\ 0 < m) -> p <> node -> p ∉ map node_of (huges L3) ->
  block_added L p size (with_huges L3 ((node, p, size) :: huges L3) (held L2)).
Proof.
  intros [Q1 Q2 Q3 Q4] [A1 A2 A3 A4 A5] Hn Hsp Hap Hpn Hpl. cbn [huges held spare with_huges] in *.
  assert (Hown : forall q m, owned (with_huges L3 ((node, p, size) :: huges L3) (held L2)) q m <->
    owned L3 q m \/ (q = p /\ m = size)).
  { intros q m. split.
    - intros [ch s n Hr|b x Hs Hf|nd x n Hin].
      + left. by apply (owned_large L3 ch s n).
      + left. by constructor.
      + cbn in Hin. apply elem_of_cons in Hin as [[= -> -> ->]|Hin]; [by right|]. left. by apply (owned_huge L3 nd).
    - intros [Ho|[-> ->]]; [apply owned_with_huges; [intros x Hx; by right | done]|].
      apply (owned_huge _ node). left. }
  split; [|intros q m [Ho _]; apply (Hap q m); by apply Q1|exact Q3|cbn [spare with_huges]; congruence].
  intros q m. unfold block. rewrite Hown, A1, owned_held, Q1. cbn [huges with_huges map node_of fst].
  rewrite elem_of_cons, A3, Q2. rewrite A3, Q2 in Hn, Hpl. split.
  - intros [[[Ho|[-> ->]]|[-> ->]] Hq]; [left; tauto | tauto | by right].
  - intros [[Ho Hq]|[-> ->]].
    + split; [tauto|]. intros [->|?]; [|tauto]. assert (Hd := A2 node m).
      rewrite owned_held, Q1 in Hd. specialize (Hd Ho). unfold rdisj in Hd. cbn [fst snd] in Hd.
      destruct (Hap node m) as [_ ?]; [by apply Q1 | lia].
    + split; [tauto|]. intros [->|?]; tauto.
Qed.

Lemma alloc_huge_ok alloc st L size :
  (forall st1 L1, mm_ok st1 L1 -> pinned st1 L1 -> outcome (alloc st1 sizeof_huge_list) (alloc_post st1 L1 24)) ->
  mm_ok st L -> pinned st L -> ZEND_MM_MAX_LARGE_SIZE < size < 2 ^ 64 -> null_free (os st) (block_size size) ->
  outcome (zend_mm_alloc_huge alloc st size) (alloc_heap_post st L size).
Proof.
  intros Halloc Hok Hpin Hs Hnull. rewrite block_size_huge in Hnull by lia.
  change ZEND_MM_MAX_LARGE_SIZE with 2093056 in Hs. unfold zend_mm_alloc_huge.
  destruct (huge_size_cases size ltac:(lia)) as (Hm & Hr & Hc). set (n := ZEND_MM_ALIGNED_SIZE_EX size REAL_PAGE_SIZE) in *.
  eapply outcome_bind; [by apply check_limit_ok|]. intros st1 (L1 & Hok1 & Hq1 & Hsp1 & Hf1 & Hsh1).
  assert (Hpin1 : pinned st1 L1) by (apply (pinned_quiet st _ L); [apply Hf1 | done..]).
  pose proof (huge_map_ok st1 L1 n Hok1 Hpin1 Hr Hm (null_free_mono _ _ _ Hsh1 Hnull)) as Hmap.
  destruct (zend_mm_chunk_alloc st1 n ZEND_MM_CHUNK_SIZE) as [[ptr0 st2']|e] eqn:Ec; [|by destruct e].
  cbn [rbind] in Hmap |- *. eapply outcome_bind; [exact Hmap|]. clear Hmap Ec ptr0 st2'.
  intros [p st2] (L2 & Hn0 & Hok2 & Hq2 & Hsp2 & Hf2). cbn [fst snd] in *.
  set (L2' := with_huges L2 (huges L2) ((p, n) :: held L2)) in *.
  assert (Hm2 : main st2 = main st) by (rewrite (gf_main _ _ _ Hf2); apply Hf1).
  assert (Hq : quiet L L2) by (by eapply quiet_trans).
  assert (Hpin2 : pinned st2 L2').
  { apply (pinned_held st2); [done|]. by apply (pinned_quiet st _ L). }
  eapply outcome_bind; [by apply Halloc|]. intros [node st3] (L3 & Hok3 & Ha & Hf3). cbn [fst snd] in *.
  assert (Ho24 : owned L3 node 24) by (apply Ha; by right).
  assert (Hnn : node ∉ map node_of (huges L3)).
  { rewrite (al_huges _ _ _ _ Ha). intros Hin. apply list_elem_of_fmap in Hin as (h & E & Hh).
    pose proof (al_fresh _ _ _ _ Ha _ _ (node_owned _ _ _ _ Hok2 Hh)) as Hd. unfold rdisj in Hd. cbn [fst snd] in Hd. lia. }
  assert (Hheld : (p, n) ∈ held L3) by (rewrite (al_held _ _ _ _ Ha); left).
  pose proof (held_apart _ _ _ _ _ _ Hok3 Hheld Ho24) as Hpn.
  assert (Hpnode : p <> node) by (intros ->; unfold rdisj in Hpn; cbn [fst snd] in Hpn; lia).
  assert (Hpl : p ∉ map node_of (huges L3)).
  { intros Hin. apply list_elem_of_fmap in Hin as (h & E & Hh).
    pose proof (held_apart _ _ _ _ _ _ Hok3 Hheld (node_owned _ _ _ _ Hok3 Hh)) as Hd. unfold rdisj in Hd. cbn [fst snd] in Hd. lia. }
  destruct (link_huge_ok st3 L3 node p n (held L2) Hok3 (al_held _ _ _ _ Ha) Ho24 Hnn) as [Hok4 Hbytes].
  cbn [outcome]. eexists _, n. split.
  { split; [lia|]. unfold block_size. change ZEND_MM_MAX_SMALL_SIZE with 3072. change ZEND_MM_MAX_LARGE_SIZE with 2093056.
    destruct (Z.leb_spec size 3072); [lia|]. destruct (Z.leb_spec size 2093056); [lia | done]. } split; [apply ok_upd_heap; [apply ok_upd_heap; [exact Hok4 | done] | done]|].
  split.
  - cbn [fst]. apply (huge_block_added L L2 L3); try done.
    + by rewrite Hsp2.
    + intros q m Ho. split; [apply (held_apart _ _ _ _ _ _ Hok2); [left | by apply owned_held]|].
      by destruct (owned_range _ _ _ Hok2 q m) as (_ & ? & _); [by apply owned_held|].
  - destruct Hf1 as [A1 B1 C1], Hf2 as [A2 B2 C2], Hf3 as [A3 B3 C3]. cbn [snd].
    split; [by rewrite <- A1, <- A2, <- A3 | by rewrite <- B1, <- B2, <- B3|].
    intros q m a [Ho _] Hra.
    assert (Ho1 : owned L1 q m) by (by apply Hq1). assert (Ho2 : owned L2' q m) by (apply owned_held; by apply Hq2).
    assert (Hd : rdisj (node, 24) (q, m)) by (by apply Ha). unfold rdisj in Hd. cbn [fst snd] in Hd.
    change (byte_at (mem (link_huge st3 node p n)) a = byte_at (mem st) a).
    rewrite Hbytes by lia. rewrite (C3 q m a Ho2 Hra), (C2 q m a Ho1 Hra). by apply (C1 q m).
Qed.

(** A refused enlarged mapping of the block of a request does no harm. *)
Definition spared st (size : Z) : Prop := size <= ZEND_MM_MAX_LARGE_SIZE \/ null_free (os st) (block_size size).

(** What an allocation needs: collecting is possible, or not necessary. *)
Definition can_alloc st (L : layout) (size : Z) : Prop :=
  (pinned st L /\ spared st size) \/ (main_empty st L /\ size <= ZEND_MM_MAX_LARGE_SIZE).

Lemma alloc_heap_ok st L size : mm_ok st L -> 0 <= size < 2 ^ 64 -> can_alloc st L size ->
  outcome (zend_mm_alloc_heap st size) (alloc_heap_post st L size).
Proof.
  intros Hok Hs Hcan.
  assert (Hsafe : pinned st L \/ main_empty st L) by (destruct Hcan as [[? _]|[? _]]; tauto).
  unfold zend_mm_alloc_heap. cbn [zend_mm_alloc_heap_rec]. destruct (Z.leb_spec size ZEND_MM_MAX_SMALL_SIZE) as [Hsm|Hsm].
  { cbv iota. destruct (small_bin_spec size ltac:(lia)) as (Hb & Hle & _).
    destruct (bin_facts (zend_mm_small_size_to_bin size) Hb) as (Hd & _).
    eapply outcome_weaken; [by apply alloc_small_ok|].
    intros r Hr. refine (alloc_post_block _ _ _ _ _ Hok _ (conj Hle _) Hr); [lia|].
    unfold block_size. by destruct (Z.leb_spec size ZEND_MM_MAX_SMALL_SIZE); [|lia]. }
  destruct (Z.leb_spec size ZEND_MM_MAX_LARGE_SIZE) as [Hla|Hla].
  { destruct (size_to_num size ltac:(lia)) as [Hn Hle]. eapply outcome_weaken; [by apply alloc_large_ok|].
    intros r Hr. refine (alloc_post_block _ _ _ _ _ Hok _ (conj _ _) Hr); [lia | lia|]. unfold block_size.
    destruct (Z.leb_spec size ZEND_MM_MAX_SMALL_SIZE); [lia|]. by destruct (Z.leb_spec size ZEND_MM_MAX_LARGE_SIZE); [|lia]. }
  destruct Hcan as [[Hpin [?|Hnull]]|[_ ?]]; [lia | |lia].
  apply alloc_huge_ok; [|done|done|lia|done].
  intros st1 L1 Hok1 Hpin1. change (sizeof_huge_list <=? ZEND_MM_MAX_SMALL_SIZE) with true. cbv iota.
  change (zend_mm_small_size_to_bin sizeof_huge_list) with 2. change 24 with (bin_data_size 2).
  apply alloc_small_ok; [done | lia | by left].
Qed.
End AllocHeap.
