(* ===== verification/MmFree.v ===== *)
(** * Releasing blocks: small, large and huge ones, and [zend_mm_free_heap] *)
From S2P Require Export MmHuge.

Section Free.
Context {Sys : OS} {Laws : OSLaws} {Rest : Foreign}.
Implicit Types (st : mm).

(** The block at [p] is gone, the others are as they were. *)
Record freed (L : layout) (p : Z) (L' : layout) : Prop := {
  fr_owned q m : owned L' q m <-> owned L q m /\ q <> p;
  fr_huges : huges L' = huges L;
  fr_held : held L' = held L;
  fr_spare : spare L' = spare L
}.

Definition free_post st (L : layout) (p : Z) st' : Prop :=
  exists L', mm_ok st' L' /\ freed L p L' /\ h_addr st' = h_addr st /\ main st' = main st /\
    owned_kept L' (mem st) (mem st').

(** ** Slots *)
Lemma slot_not_large cnt st L b p ch s n : mm_ok_with cnt st L -> is_slot (runs L) b p ->
  runs L !! (ch, s) = Some (LargeRun n) -> p <> ch + s * 4096.
Proof.
  intros Hok (ch' & s' & i & Hr & Hi & Hp) Hr' ->. pose proof (slot_inside _ _ _ Hok _ _ _ _ Hr Hi) as Hin. rewrite <- Hp in Hin.
  destruct (run_facts _ _ _ Hok _ _ _ Hr') as (_ & _ & _ & _ & _ & _ & _ & Hpos & _).
  destruct (run_facts _ _ _ Hok _ _ _ Hr) as (_ & _ & _ & _ & Hb & _). destruct (bin_facts b Hb) as (? & _).
  by destruct (same_run _ _ _ Hok _ _ _ _ _ _ (ch + s * 4096) Hr Hr') as (_ & _ & ?); [cbn [run_pages] in *; lia..|].
Qed.

Lemma slot_not_huge cnt st L b p node n : mm_ok_with cnt st L -> is_slot (runs L) b p -> (node, p, n) ∉ huges L.
Proof.
  intros Hok (ch & s & i & Hr & Hi & Hp) Hin. pose proof (slot_inside _ _ _ Hok _ _ _ _ Hr Hi) as Hins. rewrite <- Hp in Hins.
  pose proof (run_huge_apart _ _ _ Hok _ _ _ _ Hr Hin) as Hd. destruct (huge_region _ _ _ Hok _ Hin) as [_ Hn _ _ _ _].
  destruct (run_facts _ _ _ Hok _ _ _ Hr) as (_ & _ & _ & _ & Hb & _). destruct (bin_facts b Hb) as (? & _).
  unfold rdisj, run_range, huge_range in *. cbn [fst snd run_pages] in *. lia.
Qed.

Lemma owned_give cnt st L b p q m : mm_ok_with cnt st L -> is_slot (runs L) b p -> p ∉ slots L b ->
  owned (set_bin L b (p :: slots L b)) q m <-> owned L q m /\ q <> p.
Proof.
  intros Hok Hp Hf. split.
  - intros [ch s n Hr|b' x Hs Hx|node x n Hin].
    + split; [by apply (owned_large L ch s n)|]. intros E. by apply (slot_not_large _ _ _ b p ch s n Hok Hp Hr).
    + destruct (decide (b' = b)) as [->|Hne].
      * rewrite set_bin_same, elem_of_cons in Hx. split; [constructor; tauto | tauto].
      * rewrite set_bin_other in Hx by done. split; [by constructor|]. intros ->.
        by apply Hne, (is_slot_inj _ _ _ Hok _ _ p).
    + split; [by apply (owned_huge L node)|]. intros ->. by apply (slot_not_huge _ _ _ b p node n Hok Hp).
  - intros [[ch s n Hr|b' x Hs Hx|node x n Hin] Hne].
    + by apply (owned_large (set_bin L b _) ch s n).
    + apply (owned_small (set_bin L b _) b' x); [done|]. destruct (decide (b' = b)) as [->|].
      * rewrite set_bin_same, elem_of_cons. tauto.
      * by rewrite set_bin_other.
    + by apply (owned_huge (set_bin L b _) node).
Qed.

Lemma free_small_ok st L p b :
  mm_ok st L -> is_slot (runs L) b p -> p ∉ slots L b -> p ∉ map node_of (huges L) ->
  exists st', zend_mm_free_small st p b = Ok st' /\ free_post st L p st' /\ heap st' = set_free_slot (sub_size (bin_data_size b) (heap st)) (free_slot (heap st')).
Proof.
  intros Hok Hp Hf Hn. pose proof (is_slot_bin _ _ _ Hok _ _ Hp) as Hb. unfold zend_mm_free_small.
  destruct (ok_lists _ _ _ Hok b Hb) as (h & Hh & Hl). cbn [heap upd_heap set_heap sub_size set_h_size free_slot]. rewrite Hh. rsimp.
  set (st1 := set_mem _ _).
  destruct (set_free_head st1 b p) as (st2 & Hset & Hsc & Hm & Hfs1 & Hfs2 & Hfs3); [exact (ok_slot_len _ _ _ Hok) | done |].
  rewrite Hset. exists st2. split; [done|].
  assert (Hm' : mem st2 = store64 (mem st) p h) by done.
  assert (Hw : word64 h).
  { destruct (slots L b) as [|x l] eqn:E; cbn [llist] in Hl; [rewrite Hl; unfold word64; lia|].
    destruct Hl as (-> & _). apply (slot_word (fun _ _ => 0) st L b); [done|]. apply (ok_slots _ _ _ Hok b x). rewrite E. left. }
  assert (Hp0 : p <> 0) by (destruct (owned_range _ _ _ Hok p (bin_data_size b)) as (? & _); [by constructor | lia]).
  assert (Hother : forall b' x, x ∈ slots L b' -> load64 (mem st2) x = load64 (mem st) x).
  { intros b' x Hx. rewrite Hm'. apply (store_slot_link (fun _ _ => 0) st L b p _ b'); [done | done | by apply (ok_slots _ _ _ Hok)|].
    intros ->. destruct (ok_slots _ _ _ Hok b' p Hx) as [_ Hs]. by rewrite (is_slot_inj _ _ _ Hok _ _ _ Hs Hp) in Hx. }
  split.
  - exists (set_bin L b (p :: slots L b)). split; [|split; [|split; [apply Hsc|split; [apply Hsc|]]]].
    + apply (ok_set_bin _ st); try done.
      * destruct Hsc. by split.
      * intros b' x _ Hx. by apply (Hother b').
      * exists p. split; [done|]. cbn [llist]. split; [done|]. split; [done|]. exists h.
        split; [unfold slot_next; f_equal; rewrite Hm'; by apply load_store64|].
        apply (llist_frame _ _ _ _ Hl). intros x Hx. unfold slot_next. by rewrite (Hother b x).
      * constructor; [done | apply (ok_slots_nodup _ _ _ Hok)].
      * intros x Hx. apply elem_of_cons in Hx as [->|Hx]; [done | by apply (ok_slots _ _ _ Hok)].
      * intros g Hg -> Hin. apply elem_of_cons in Hin as [<-|Hin]; [apply Hn, list_elem_of_fmap; by exists g|].
        by destruct (ok_huge _ _ _ Hok g Hg) as (_ & _ & _ & ?).
      * rewrite Hm'. by apply (store_slot_nodes (fun _ _ => 0) st L b).
    + split; try done. intros q m. by apply (owned_give (fun _ _ => 0) st).
    + intros q m a Ho Ha. apply (owned_give (fun _ _ => 0) st L b p) in Ho as [Ho Hne]; [|done..].
      rewrite Hm'. apply store64_frame. assert (Hop : owned L p (bin_data_size b)) by (by constructor).
      destruct (bin_facts b Hb) as (? & _).
      destruct (owned_apart _ _ _ Hok _ _ _ _ Ho Hop) as [[? _]|Hd]; [done|]. unfold rdisj in Hd. cbn [fst snd] in Hd. lia.
  - revert Hset. cbn [set_link]. destruct (aset _ _ _) as [fs|]; [|done]. rsimp. by intros [= <-].
Qed.

(** ** Large runs *)
Lemma owned_delete cnt st L ch s n q m : mm_ok_with cnt st L -> runs L !! (ch, s) = Some (LargeRun n) ->
  owned (with_runs L (delete (ch, s) (runs L))) q m <-> owned L q m /\ q <> ch + s * 4096.
Proof.
  intros Hok Hr. assert (Ho : owned L (ch + s * 4096) (n * 4096)) by (by apply (owned_large L ch s n)).
  assert (Hsl : forall b x, is_slot (delete (ch, s) (runs L)) b x <-> is_slot (runs L) b x).
  { intros b x. split; intros (ch' & s' & i & Hr' & Hi); exists ch', s', i; (split; [|done]).
    - by apply lookup_delete_Some in Hr' as [_ ?].
    - rewrite lookup_delete_ne; [done|]. intros [= <- <-]. by rewrite Hr in Hr'. }
  split.
  - intros [ch' s' k Hr'|b x Hs Hx|node x k Hin].
    + cbn [runs with_runs] in Hr'. apply lookup_delete_Some in Hr' as [Hne Hr']. split; [by apply (owned_large L ch' s' k)|].
      intros E. apply Hne. pose proof (runs_apart _ _ _ Hok _ _ _ _ _ _ Hr Hr' Hne) as Hd.
      destruct (run_facts _ _ _ Hok _ _ _ Hr) as (_ & _ & _ & _ & _ & _ & _ & ? & _).
      destruct (run_facts _ _ _ Hok _ _ _ Hr') as (_ & _ & _ & _ & _ & _ & _ & ? & _).
      unfold rdisj, run_range in Hd. cbn [fst snd] in Hd. lia.
    + apply Hsl in Hs. split; [by constructor|]. intros ->. by apply (slot_not_large _ _ _ b _ ch s n Hok Hs Hr).
    + split; [by apply (owned_huge L node)|]. intros ->.
      pose proof (run_huge_apart _ _ _ Hok _ _ _ _ Hr Hin) as Hd. destruct (huge_region _ _ _ Hok _ Hin) as [_ Hk _ _ _ _].
      destruct (run_facts _ _ _ Hok _ _ _ Hr) as (_ & _ & _ & _ & _ & _ & _ & ? & _).
      unfold rdisj, run_range, huge_range in *. cbn [fst snd] in *. lia.
  - intros [[ch' s' k Hr'|b x Hs Hx|node x k Hin] Hne].
    + apply (owned_large (with_runs L _) ch' s' k). cbn. apply lookup_delete_Some. split; [|done]. intros [= <- <-]. done.
    + apply (owned_small (with_runs L _) b x); [by apply Hsl | done].
    + by apply (owned_huge (with_runs L _) node).
Qed.

(** The main chunk stays in use. *)
Definition still_pinned st (L : layout) (p : Z) : Prop :=
  exists q m, block L q m /\ q <> p /\ main st <= q < main st + ZEND_MM_CHUNK_SIZE.

Definition can_free st (L : layout) (p n : Z) : Prop :=
  still_pinned st L p \/ ~ (main st <= p < main st + ZEND_MM_CHUNK_SIZE) \/ n <= ZEND_MM_MAX_SMALL_SIZE.

Lemma free_large_ok st L ch s n :
  mm_ok st L -> runs L !! (ch, s) = Some (LargeRun n) -> can_free st L (ch + s * 4096) (n * 4096) ->
  exists st', zend_mm_free_large st ch s n = Ok st' /\ free_post st L (ch + s * 4096) st'.
Proof.
  intros Hok Hr Hcan. unfold zend_mm_free_large. set (st0 := upd_heap st _).
  assert (Hok0 : mm_ok st0 L) by (by apply ok_upd_heap).
  destruct (run_facts _ _ _ Hok0 _ _ _ Hr) as (Hin & Hc0 & _ & Hce & Hwf & Hs & Hse & Hnp & c & rs & Hc & Hh & Hrs & Hcok & Hl).
  destruct (release_run_ok _ _ _ Hcok s _ Hl) as (c' & Hrel & Hcok' & _ & Hlinks & _). cbn [run_pages] in *.
  unfold zend_mm_free_pages, zend_mm_free_pages_ex. rewrite (get_chunk_ok _ _ _ Hc). rsimp. rewrite Hrel. rsimp. cbn [andb].
  set (st1 := put_chunk st0 ch c'). set (L1 := with_runs L (delete (ch, s) (runs L))).
  assert (Hkeep : forall b q, is_slot (runs L) b q -> is_slot (delete (ch, s) (runs L)) b q).
  { intros b q (ch' & s' & i & Hr' & Hi). exists ch', s', i. split; [|done]. rewrite lookup_delete_ne; [done|].
    intros [= <- <-]. by rewrite Hr in Hr'. }
  assert (Hok1 : mm_ok st1 L1).
  { apply (ok_put_chunk (fun _ _ => 0) (fun _ _ => 0) st0 L ch c c' _ (delete s rs)); try done.
    - intros ch' s' Hne. by rewrite lookup_delete_ne by congruence.
    - intros t. destruct (decide (t = s)) as [->|Hne]; [by rewrite !lookup_delete_eq|].
      rewrite !lookup_delete_ne by congruence. apply Hrs.
    - intros b q Hq. apply Hkeep. by apply (ok_slots _ _ _ Hok0).
    - intros h Hh'. apply Hkeep. by apply (ok_huge _ _ _ Hok0). }
  assert (Hfr : forall o k, freed L (ch + s * 4096) (with_chunks L1 o k (spare L1))).
  { intros o k. split; try done. intros q m. rewrite owned_chunks. by apply (owned_delete _ _ _ _ _ n _ _ Hok0). }
  assert (Hc1 : chunks st1 !! ch = Some c') by (unfold st1; rewrite put_chunk_lookup; by destruct (decide (ch = ch))).
  pose proof (all_free_no_runs _ _ _ _ _ Hok1 Hin Hc1) as Hempty.
  destruct (free_pages c' =? ZEND_MM_PAGES - ZEND_MM_FIRST_PAGE) eqn:Ef.
  - assert (Hno : forall t, runs L1 !! (ch, t) = None) by (by apply Hempty).
    assert (Hch : ch ∈ others L1).
    { apply elem_of_cons in Hin as [->|]; [|done]. exfalso. change (main st0) with (main st) in *.
      destruct Hcan as [(q & m & [Ho _] & Hne & Hq)|[Hout|Hsm]].
      - assert (Hpin : pinned st1 L1).
        { exists q, m. split; [|done]. by apply (owned_delete _ _ _ _ _ n _ _ Hok0). }
        destruct (pinned_run _ _ _ Hok1 Hpin) as (t & r & Hr' & _). change (main st1) with (main st) in Hr'.
        by rewrite Hno in Hr'.
      - apply Hout. change ZEND_MM_CHUNK_SIZE with 2097152. lia.
      - change ZEND_MM_MAX_SMALL_SIZE with 3072 in Hsm. lia. }
    destruct (delete_chunk_ok _ _ _ _ Hok1 Hch Hno) as (st2 & pre & post & k & Hdel & _ & Hok2 & Hk2).
    exists st2. split; [done|]. eexists. split; [exact Hok2|]. split; [apply Hfr|]. destruct Hk2 as [A1 A2 A3 A4 A5].
    split; [done|]. split; [done|]. by apply owned_kept_eq.
  - exists st1. split; [done|]. exists (with_chunks L1 (others L1) (cache L1) (spare L1)).
    split; [by destruct L|]. split; [apply Hfr|]. done.
Qed.
End Free.

(** * Freeing huge blocks, and [zend_mm_free_heap] *)

Section FreeHuge.
Context {Sys : OS} {Laws : OSLaws} {Rest : Foreign}.
Implicit Types (st : mm).

(** ** The node of a huge block *)
Lemma huge_bound cnt st L : mm_ok_with cnt st L -> (length (huges L) < slots_bound st)%nat.
Proof.
  intros Hok. rewrite <- (length_fmap node_of). apply (slot_list_bound cnt st L 2); [done | apply (ok_huge_nodup _ _ _ Hok)|].
  intros p Hp. apply list_elem_of_fmap in Hp as (h & -> & Hh). by apply (ok_huge _ _ _ Hok).
Qed.

(** The node before the end of a list. *)
Definition prev_node (d : Z) (l : list (Z * Z * Z)) : Z := default d (last (map node_of l)).

Lemma find_huge_ok cnt st L p : mm_ok_with cnt st L -> forall l2 l1 cur prev fuel,
  huges L = l1 ++ l2 -> llist (node_next st) cur (map node_of l2) -> (length l2 < fuel)%nat ->
  (exists m1 node n m2, l2 = m1 ++ (node, p, n) :: m2 /\ (forall h, h ∈ m1 -> snd (fst h) <> p) /\
     find_huge st p prev cur fuel = Ok (prev_node prev m1, node)) \/
  ((forall h, h ∈ l2 -> snd (fst h) <> p) /\ exists q, find_huge st p prev cur fuel = Ok (q, 0)).
Proof.
  intros Hok. induction l2 as [|[[node q] n] l2 IH]; intros l1 cur prev fuel E Hl Hf;
    (destruct fuel as [|fuel]; [cbn [length] in Hf; lia|]); cbn [find_huge map llist] in *.
  - right. split; [intros h Hh; by apply elem_of_nil in Hh|]. exists prev. by rewrite Hl.
  - destruct Hl as (-> & Hn0 & x & Hx & Hl). cbn [node_of fst] in *. destruct (Z.eqb_spec node 0) as [|_]; [done|].
    assert (Hin : (node, q, n) ∈ huges L) by (rewrite E; apply elem_of_app; right; left).
    destruct (ok_huge _ _ _ Hok _ Hin) as (Hq & _ & _). cbn [node_of huge_range fst snd] in Hq. unfold huge_ptr. rewrite Hq.
    destruct (Z.eqb_spec q p) as [->|Hne].
    + left. exists [], node, n, l2. split; [done|]. split; [intros h Hh; by apply elem_of_nil in Hh | done].
    + assert (Hx' : huge_next st node = x) by (unfold node_next in Hx; unfold huge_next; congruence). rewrite Hx'.
      destruct (IH (l1 ++ [(node, q, n)]) x node fuel) as [(m1 & nd & k & m2 & -> & Hm1 & Hfi)|(Hno & Hfi)];
        [by rewrite <- app_assoc | done | cbn [length] in Hf; lia | left | right].
      * exists ((node, q, n) :: m1), nd, k, m2. split; [done|]. split.
        { intros h Hh. apply elem_of_cons in Hh as [->|Hh]; [done | by apply Hm1]. }
        rewrite Hfi. do 2 f_equal. unfold prev_node. cbn [map node_of fst].
        destruct m1 as [|h m1]; [done|]. cbn [map]. rewrite last_cons_cons, !last_cons. by destruct (last (map node_of m1)).
      * split; [|done]. intros h Hh. apply elem_of_cons in Hh as [->|Hh]; [done | by apply Hno].
Qed.

Lemma node_next_word st L node : mm_ok st L -> node ∈ map node_of (huges L) -> word64 (load64 (mem st) (node + 16)).
Proof.
  intros Hok Hn. pose proof (ok_huge_list _ _ _ Hok) as Hl.
  assert (H : forall l cur, llist (node_next st) cur l -> node ∈ l -> (forall x, x ∈ l -> word64 x) -> word64 (load64 (mem st) (node + 16))).
  { induction l as [|x l IH]; intros cur Hll Hin Hw; [by apply elem_of_nil in Hin|].
    destruct Hll as (-> & _ & q & Hq & Hll). apply elem_of_cons in Hin as [->|Hin].
    - unfold node_next in Hq. assert (load64 (mem st) (x + 16) = q) as -> by congruence.
      destruct l as [|y l]; cbn [llist] in Hll; [rewrite Hll; unfold word64; lia|]. destruct Hll as (-> & _).
      apply Hw. right. left.
    - apply (IH q Hll Hin). intros y Hy. apply Hw. by right. }
  apply (H _ _ Hl Hn). intros x Hx. apply list_elem_of_fmap in Hx as (h & -> & Hh).
  apply (slot_word (fun _ _ => 0) st L 2); [done|]. by apply (ok_huge _ _ _ Hok).
Qed.

(** Taking the node out of the list; the block is held. *)
Definition unlink_huge st (prev node : Z) : mm :=
  if negb (prev =? 0) then set_mem st (store64 (mem st) (prev + 16) (huge_next st node))
  else upd_heap st (fun h => set_huge_list h (huge_next st node)).

Lemma unlink_huge_ok st L m1 node p n m2 :
  mm_ok st L -> huges L = m1 ++ (node, p, n) :: m2 ->
  let st1 := unlink_huge st (prev_node 0 m1) node in
  mm_ok st1 (with_huges L (m1 ++ m2) ((p, n) :: held L)) /\
  (forall a, ~ (exists nd, nd ∈ map node_of (huges L) /\ nd <> node /\ nd <= a < nd + 24) ->
    byte_at (mem st1) a = byte_at (mem st) a) /\
  load64 (mem st1) (node + 8) = n.
Proof.
  intros Hok E st1. pose proof Hok as [Hr Hc Hrg Hch Hru Hca Hsl Hls Hss Hsn Hhl Hh Hhn].
  assert (Hin : (node, p, n) ∈ huges L) by (rewrite E; apply elem_of_app; right; left).
  destruct (Hh _ Hin) as (_ & Hsz & Hns & _). cbn [node_of huge_range fst snd] in *.
  assert (Hnn : node ∉ map node_of (m1 ++ m2)).
  { rewrite E, map_app in Hhn. cbn [map node_of fst] in Hhn. rewrite map_app, elem_of_app.
    apply NoDup_app in Hhn as (_ & H1 & H2). apply NoDup_cons in H2 as [H2 _]. intros [?|?]; [by apply (H1 node); [|left] | done]. }
  assert (Hsub : forall h, h ∈ m1 ++ m2 -> h ∈ huges L).
  { intros h. rewrite E, !elem_of_app, elem_of_cons. tauto. }
  assert (Hprev : prev_node 0 m1 = 0 /\ m1 = [] \/ prev_node 0 m1 <> 0 /\ last (map node_of m1) = Some (prev_node 0 m1) /\
    prev_node 0 m1 ∈ map node_of (huges L) /\ prev_node 0 m1 <> node).
  { destruct m1 as [|h0 m1']; [by left | right]. assert (Hlast : last (map node_of (h0 :: m1')) = Some (prev_node 0 (h0 :: m1'))).
    { unfold prev_node. destruct (last (map node_of (h0 :: m1'))) eqn:El; [done|]. by apply last_None in El. }
    assert (Hpin : prev_node 0 (h0 :: m1') ∈ map node_of (h0 :: m1')).
    { apply last_Some in Hlast as (l' & ->). apply elem_of_app. right. left. }
    split; [|split; [done|split]].
    - apply (llist_nonzero _ _ _ _ Hhl). rewrite E, map_app, elem_of_app. by left.
    - rewrite E, map_app, elem_of_app. by left.
    - intros Heq. apply Hnn. rewrite map_app, elem_of_app, <- Heq. by left. }
  assert (Hmem : forall a, (prev_node 0 m1 = 0 \/ a < prev_node 0 m1 + 16 \/ prev_node 0 m1 + 24 <= a) ->
    byte_at (mem st1) a = byte_at (mem st) a).
  { intros a Ha. unfold st1, unlink_huge. destruct (Z.eqb_spec (prev_node 0 m1) 0); [done|]. cbn [negb mem set_mem].
    apply store64_frame. lia. }
  assert (Hload : forall b q j, is_slot (runs L) b q -> q <> prev_node 0 m1 -> 0 <= j -> j + 8 <= bin_data_size b ->
    load64 (mem st1) (q + j) = load64 (mem st) (q + j)).
  { intros b q j Hq Hne Hj Hjb. apply load64_ext. intros a Ha. apply Hmem.
    destruct Hprev as [[? _]|(_ & _ & Hpin & _)]; [by left | right].
    apply list_elem_of_fmap in Hpin as (h & Eh & Hhin). destruct (Hh h Hhin) as (_ & _ & Hs & _). rewrite <- Eh in Hs.
    destruct (slots_apart _ _ _ Hok _ _ _ _ Hs Hq) as [?|Hd]; [congruence|]. unfold rdisj in Hd. cbn [fst snd] in Hd.
    change (bin_data_size 2) with 24 in Hd. lia. }
  assert (Hfields : forall h, h ∈ huges L -> forall j, j = 0 \/ j = 8 -> load64 (mem st1) (node_of h + j) = load64 (mem st) (node_of h + j)).
  { intros h Hhin j Hj. apply load64_ext. intros a Ha. apply Hmem. destruct Hprev as [[? _]|(_ & _ & Hpin & _)]; [by left | right].
    apply list_elem_of_fmap in Hpin as (h' & Eh & Hhin'). destruct (Hh h' Hhin') as (_ & _ & Hs' & _).
    destruct (Hh h Hhin) as (_ & _ & Hs & _). rewrite Eh.
    destruct (slots_apart _ _ _ Hok _ _ _ _ Hs' Hs) as [->|Hd]; [lia|]. unfold rdisj in Hd. cbn [fst snd] in Hd.
    change (bin_data_size 2) with 24 in Hd. lia. }
  split; [|split].
  - assert (Hos : os st1 = os st) by (unfold st1, unlink_huge; by destruct (negb _)).
    assert (Hm : main st1 = main st) by (unfold st1, unlink_huge; by destruct (negb _)).
    assert (Hfs : free_slot (heap st1) = free_slot (heap st)) by (unfold st1, unlink_huge; by destruct (negb _)).
    split; cbn [others cache spare runs slots huges held with_huges].
    all: try (unfold st1, unlink_huge; destruct (negb _); done).
    + rewrite Hos, Hm. apply (regions_ok_perm _ (regions_of (main st) L)); [|done]. unfold regions_of. rewrite E.
      cbn [others cache spare huges held with_huges]. rewrite !map_app. cbn [map huge_range fst snd]. solve_Permutation.
    + rewrite Hfs. intros b Hb. destruct (Hls b Hb) as (q & Hq & Hl). exists q. split; [done|].
      apply (llist_frame _ _ _ _ Hl). intros x Hx. unfold slot_next. f_equal. rewrite <- (Z.add_0_r x).
      destruct (Hss b x Hx) as [_ Hsx]. destruct (bin_facts b Hb) as (? & _). apply (Hload b); [done| |lia|lia].
      intros Ex. destruct Hprev as [[Ep _]|(_ & _ & Hpin & _)].
      * apply (llist_nonzero _ _ _ _ Hl Hx). congruence.
      * apply (free_not_node _ _ _ _ _ Hok Hx). by rewrite Ex.
    + done.
    + done.
    + assert (Hl1 : llist (node_next st) (huge_list (heap st)) (map node_of m1 ++ node :: map node_of m2))
        by (rewrite E, map_app in Hhl; exact Hhl).
      assert (Hnd : NoDup (map node_of m1 ++ node :: map node_of m2)) by (rewrite E, map_app in Hhn; exact Hhn).
      rewrite map_app. replace (huge_list (heap st1)) with (match map node_of m1 with [] => huge_next st node | _ => huge_list (heap st) end).
      2:{ unfold st1, unlink_huge. destruct Hprev as [[-> ->]|(Hp0 & Hlast & _)]; [done|].
          destruct (Z.eqb_spec (prev_node 0 m1) 0); [done|]. by destruct m1. }
      apply (llist_remove (node_next st) _ _ _ node); [done | done | | | done].
      * intros y Hy Hne. unfold node_next. f_equal. assert (Hyin : y ∈ map node_of (huges L)) by (by rewrite E, map_app).
        apply list_elem_of_fmap in Hyin as (h & -> & Hhin). apply (Hload 2); [by apply Hh | | lia | change (bin_data_size 2) with 24; lia].
        intros Heq. destruct Hprev as [[Hp0 _]|(_ & Hlast & _)]; [|congruence].
        rewrite Hp0 in Heq. by apply (llist_nonzero _ _ _ (node_of h) Hhl); [apply list_elem_of_fmap; exists h|].
      * intros q Hq. destruct Hprev as [[_ ->]|(Hp0 & Hlast & _)]; [done|]. rewrite Hlast in Hq. injection Hq as <-.
        unfold node_next. f_equal. unfold st1, unlink_huge. destruct (Z.eqb_spec (prev_node 0 m1) 0); [done|].
        cbn [negb mem set_mem]. apply load_store64. apply (node_next_word st L); [done|]. apply list_elem_of_fmap. by exists (node, p, n).
    + intros h Hhin. apply Hsub in Hhin. destruct (Hh h Hhin) as (H1 & H2 & H3). split; [|split; [|done]].
      * pose proof (Hfields h Hhin 0 ltac:(by left)) as Ef. rewrite !Z.add_0_r in Ef. rewrite Ef. exact H1.
      * rewrite (Hfields h Hhin) by (by right). exact H2.
    + rewrite E, map_app in Hhn. cbn [map] in Hhn. rewrite map_app. apply NoDup_app in Hhn as (N1 & N2 & N3).
      apply NoDup_cons in N3 as [_ N3]. apply NoDup_app. split; [done|]. split; [|done]. intros x Hx Hx'. apply (N2 x Hx). by right.
  - intros a Ha. apply Hmem. destruct Hprev as [[? _]|(_ & _ & Hpin & Hne)]; [by left | right].
    destruct (decide (prev_node 0 m1 + 16 <= a < prev_node 0 m1 + 24)) as [Hin'|]; [|lia]. exfalso. apply Ha.
    exists (prev_node 0 m1). split; [done|]. split; [done | lia].
  - change node with (node_of (node, p, n)). rewrite (Hfields _ Hin) by (by right). exact Hsz.
Qed.
End FreeHuge.

(** * [zend_mm_free_heap] *)

Section FreeHeap.
Context {Sys : OS} {Laws : OSLaws} {Rest : Foreign}.
Implicit Types (st : mm).

(** ** Looking a block up *)

(** What the page map says of an address in a run. *)
Lemma run_info st L ch s r a :
  mm_ok st L -> runs L !! (ch, s) = Some r -> ch + s * 4096 <= a < ch + (s + run_pages r) * 4096 ->
  exists c, get_chunk st ch = Ok c /\ chunks st !! ch = Some c /\ c_heap c = h_addr st /\
    match r with
    | LargeRun n => aget (page_map c) s = Ok (ZEND_MM_LRUN n)
    | SmallRun b => exists info, aget (page_map c) ((a - ch) / 4096) = Ok info /\
        info_has info ZEND_MM_IS_SRUN = true /\ ZEND_MM_SRUN_BIN_NUM info = b
    end.
Proof.
  intros Hok Hr Ha. destruct (run_address _ _ _ _ _ _ _ Hok Hr Ha) as (_ & _ & Hpg & _).
  destruct (run_facts _ _ _ Hok _ _ _ Hr) as (_ & _ & _ & _ & Hwf & Hs & Hse & Hp & c & rs & Hc & Hh & Hrs & Hcok & Hl).
  exists c. split; [by apply get_chunk_ok|]. split; [done|]. split; [done|].
  pose proof (co_infos _ _ _ Hcok s r Hl) as Hinf. destruct r as [n|b]; cbn [run_infos run_pages run_wf] in *; [done|].
  destruct Hinf as [H0 Hn]. destruct (bin_facts b Hwf) as (_ & _ & _ & Hbp & _).
  destruct (Z.eq_dec ((a - ch) / 4096) s) as [->|Hne].
  - destruct (srun_info b 0 Hwf ltac:(lia)) as (H1 & _ & H2 & _). by exists (ZEND_MM_SRUN_EX b 0).
  - specialize (Hn ((a - ch) / 4096 - s) ltac:(lia)). replace (s + ((a - ch) / 4096 - s)) with ((a - ch) / 4096) in Hn by lia.
    destruct (nrun_info b ((a - ch) / 4096 - s) Hwf ltac:(lia)) as (H1 & _ & H2 & _). by exists (ZEND_MM_NRUN b ((a - ch) / 4096 - s)).
Qed.

Lemma slot_in_range cnt st L b p : mm_ok_with cnt st L -> is_slot (runs L) b p ->
  exists ch s, runs L !! (ch, s) = Some (SmallRun b) /\ ch + s * 4096 <= p < ch + (s + bin_pages b) * 4096.
Proof.
  intros Hok (ch & s & i & Hr & Hi & ->). exists ch, s. split; [done|]. pose proof (slot_inside _ _ _ Hok _ _ _ _ Hr Hi).
  destruct (run_facts _ _ _ Hok _ _ _ Hr) as (_ & _ & _ & _ & Hb & _). destruct (bin_facts b Hb) as (? & _). lia.
Qed.

Lemma free_rec_small d st L p b : mm_ok st L -> is_slot (runs L) b p ->
  zend_mm_free_heap_rec (S d) st p = zend_mm_free_small st p b.
Proof.
  intros Hok Hs. destruct (slot_in_range _ _ _ _ _ Hok Hs) as (ch & s & Hr & Hin).
  destruct (run_address _ _ _ _ _ _ p Hok Hr Hin) as (Hb & Ho & _ & Hne).
  destruct (run_info _ _ _ _ _ p Hok Hr Hin) as (c & Hg & _ & Hh & info & Hi & Hsr & Hbin).
  cbn [zend_mm_free_heap_rec]. rewrite Ho, Hb. destruct (Z.eqb_spec (p - ch) 0) as [|_]; [done|].
  rewrite Hg. rsimp. change ZEND_MM_PAGE_SIZE with 4096. rewrite Hi. rsimp. rewrite Hh, Z.eqb_refl, Hsr, Hbin. done.
Qed.

Lemma free_rec_large d st L ch s n : mm_ok st L -> runs L !! (ch, s) = Some (LargeRun n) ->
  zend_mm_free_heap_rec (S d) st (ch + s * 4096) = zend_mm_free_large st ch s n.
Proof.
  intros Hok Hr. destruct (run_facts _ _ _ Hok _ _ _ Hr) as (_ & _ & _ & _ & Hwf & Hs & Hse & Hp & _).
  assert (Hin : ch + s * 4096 <= ch + s * 4096 < ch + (s + run_pages (LargeRun n)) * 4096) by lia.
  destruct (run_address _ _ _ _ _ _ _ Hok Hr Hin) as (Hb & Ho & _ & Hne).
  destruct (run_info _ _ _ _ _ _ Hok Hr Hin) as (c & Hg & _ & Hh & Hi).
  cbn [zend_mm_free_heap_rec]. rewrite Ho, Hb. replace (ch + s * 4096 - ch) with (s * 4096) by lia.
  destruct (Z.eqb_spec (s * 4096) 0) as [|_]; [lia|]. rewrite Hg. rsimp. change ZEND_MM_PAGE_SIZE with 4096 at 1.
  rewrite Z.div_mul, Hi by lia. rsimp. cbn in Hwf. change ZEND_MM_PAGES with 512 in Hwf.
  destruct (lrun_info n ltac:(lia)) as [-> ->]. rewrite Hh, Z.eqb_refl. cbn [negb].
  rewrite page_offset. change (2 ^ 12) with 4096. rewrite Z.mod_mul by lia. cbn [Z.eqb negb].
  change ZEND_MM_PAGE_SIZE with 4096. by rewrite Z.div_mul by lia.
Qed.

(** ** Giving a huge block back *)
Lemma ok_release_held cnt st L p n k :
  mm_ok_with cnt st L -> held L = (p, n) :: k ->
  mm_ok_with cnt (zend_mm_chunk_free st p n) (with_huges L (huges L) k).
Proof.
  intros Hok Hk. pose proof Hok as [Hr Hca Hrg Hch Hru Hcc Hsl Hls Hss Hsn Hhl Hh Hhn].
  assert (Hx : p ∉ main st :: others L ++ cache L ++ spare L).
  { intros Hin. destruct (proj1 Hrg) as [Hf Hw]. apply pairwise_app in Hw as (_ & _ & Hd).
    specialize (Hd (p, ZEND_MM_CHUNK_SIZE) (p, n)). unfold rdisj in Hd. cbn [fst snd] in Hd. rewrite Forall_forall in Hf.
    assert (Hpn : (p, n) ∈ map huge_range (huges L) ++ held L) by (apply elem_of_app; right; rewrite Hk; left).
    destruct (Hf (p, n)) as [_ Hn _ _ _ _]; [apply elem_of_app; by right|]. cbn [snd] in Hn.
    change ZEND_MM_CHUNK_SIZE with 2097152 in Hd. destruct Hd; [|done|lia|lia]. apply list_elem_of_fmap. by exists p. }
  assert (Hkeep : forall q, q ∈ main st :: others L ++ cache L ++ spare L ->
    chunks (zend_mm_chunk_free st p n) !! q = chunks st !! q).
  { intros q Hin. cbn. apply lookup_delete_ne. by intros ->. }
  assert (Hin1 : forall q, q ∈ main st :: others L -> q ∈ main st :: others L ++ cache L ++ spare L)
    by (intros q; rewrite !elem_of_cons, !elem_of_app; tauto).
  split; cbn [others cache spare runs slots huges held with_huges]; try done.
  - apply (cring_frame (nexts st) (prevs st)); [done| |]; intros q Hq; unfold nexts, prevs; by rewrite Hkeep by auto.
  - apply (llist_frame _ _ _ _ Hca). intros q Hin. unfold nexts. rewrite Hkeep; [done|].
    rewrite elem_of_cons, !elem_of_app. tauto.
  - apply (regions_unmap (os st) _ (p, n)). eapply regions_ok_perm; [|exact Hrg].
    unfold regions_of. rewrite Hk. cbn [others cache spare huges held with_huges]. change (main (zend_mm_chunk_free st p n)) with (main st).
    solve_Permutation.
  - intros ch Hc. rewrite Hkeep by auto. by apply Hch.
  - intros ch Hc. rewrite Hkeep; [by apply Hcc|]. rewrite elem_of_cons, elem_of_app. tauto.
Qed.

(** The block at [p] is no block any more. *)
Record block_removed (L : layout) (p : Z) (L' : layout) : Prop := {
  br_block q m : block L' q m <-> block L q m /\ q <> p;
  br_held : held L' = held L;
  br_spare : spare L' = spare L
}.

Definition free_heap_post st (L : layout) (p : Z) st' : Prop :=
  exists L', mm_ok st' L' /\ block_removed L p L' /\ block_frame L' st st'.

Lemma free_post_block st L p st' : free_post st L p st' -> p ∉ map node_of (huges L) -> free_heap_post st L p st'.
Proof.
  intros (L' & Hok & [F1 F2 F3 F4] & Ha & Hm & Hk) Hp. exists L'. split; [done|]. split.
  - split; try done. intros q m. unfold block. rewrite F1, F2. tauto.
  - split; [done..|]. intros q m a [Ho _]. by apply (Hk q m a).
Qed.

Lemma huge_ptr_unique cnt st L h1 h2 : mm_ok_with cnt st L -> h1 ∈ huges L -> h2 ∈ huges L ->
  snd (fst h1) = snd (fst h2) -> huge_range h1 = huge_range h2.
Proof.
  intros Hok H1 H2 E. destruct (proj1 (ok_regions _ _ _ Hok)) as [Hf Hw]. apply pairwise_app in Hw as (_ & Hw & _).
  apply pairwise_app in Hw as (Hw & _ & _).
  destruct (pairwise_in _ (huge_range h1) (huge_range h2) Hw) as [?|Hd]; [apply list_elem_of_fmap; by exists h1 | apply list_elem_of_fmap; by exists h2 | done|].
  destruct (huge_region _ _ _ Hok _ H1) as [_ Hn1 _ _ _ _]. destruct (huge_region _ _ _ Hok _ H2) as [_ Hn2 _ _ _ _].
  unfold rdisj, huge_range in *. cbn [fst snd] in *. lia.
Qed.

Lemma free_huge_ok st L node p n :
  mm_ok st L -> (node, p, n) ∈ huges L ->
  exists st', zend_mm_free_huge (zend_mm_free_heap_rec 1) st p = Ok st' /\ free_heap_post st L p st'.
Proof.
  intros Hok Hin. destruct (huge_region _ _ _ Hok _ Hin) as [Hp0 Hn0 Hpa _ _ _]. cbn [huge_range fst snd] in *.
  unfold zend_mm_free_huge. rewrite aligned_offset, Hpa. cbn [Z.eqb negb]. unfold zend_mm_del_huge_block.
  destruct (find_huge_ok _ st L p Hok (huges L) [] (huge_list (heap st)) 0 (slots_bound st)) as
    [(m1 & nd & k & m2 & E & _ & Hfi)|(Hno & _)]; [done | apply (ok_huge_list _ _ _ Hok) | by apply (huge_bound _ _ _ Hok) | |
    exfalso; by apply (Hno _ Hin)].
  rewrite Hfi. rsimp. set (st1 := unlink_huge st (prev_node 0 m1) nd).
  assert (Hnd : (nd, p, k) ∈ huges L) by (rewrite E; apply elem_of_app; right; left).
  pose proof (huge_ptr_unique _ _ _ _ _ Hok Hin Hnd eq_refl) as Er. injection Er as <-.
  destruct (ok_huge _ _ _ Hok _ Hnd) as (_ & _ & Hs & Hf). cbn [node_of fst] in *.
  pose proof (node_owned _ _ _ _ Hok Hnd) as Ho. cbn [node_of fst] in Ho. destruct (owned_range _ _ _ Hok _ _ Ho) as (Hnd0 & _).
  destruct (Z.eqb_spec nd 0) as [|_]; [lia|].
  destruct (unlink_huge_ok st L m1 nd p n m2 Hok E) as (Hok1 & Hbytes & Hsz). fold st1 in Hok1, Hbytes, Hsz.
  change (if negb (prev_node 0 m1 =? 0) then set_mem st (store64 (mem st) (prev_node 0 m1 + 16) (huge_next st nd))
    else upd_heap st (fun h => set_huge_list h (huge_next st nd))) with st1.
  unfold huge_size. rewrite Hsz. set (L1 := with_huges L (m1 ++ m2) ((p, n) :: held L)) in *.
  assert (Hnn : nd ∉ map node_of (m1 ++ m2)).
  { pose proof (ok_huge_nodup _ _ _ Hok) as Hd. rewrite E, map_app in Hd. cbn [map node_of fst] in Hd. rewrite map_app, elem_of_app.
    apply NoDup_app in Hd as (_ & H1 & H2). apply NoDup_cons in H2 as [H2 _]. intros [?|?]; [by apply (H1 nd); [|left] | done]. }
  rewrite (free_rec_small 0 st1 L1 nd 2 Hok1 Hs).
  destruct (free_small_ok st1 L1 nd 2 Hok1 Hs Hf Hnn) as (st2 & Hfree & (L2 & Hok2 & [F1 F2 F3 F4] & Ha2 & Hm2 & Hk2) & _).
  rewrite Hfree. rsimp. eexists. split; [done|].
  pose proof (ok_release_held _ st2 L2 p n (held L) Hok2 F3) as Hok3.
  exists (with_huges L2 (huges L2) (held L)). split; [by apply ok_upd_heap|].
  assert (Hown1 : forall q m, owned L1 q m <-> owned L q m /\ q <> p).
  { intros q m. split.
    - intros Ho1. split; [apply (owned_huges _ _ _ _ _ Ho1); intros x; rewrite E, !elem_of_app, elem_of_cons; tauto|].
      intros ->. assert (Hheld : (p, n) ∈ held L1) by left. pose proof (held_apart _ _ _ _ _ _ Hok1 Hheld Ho1) as Hd.
      destruct (owned_range _ _ _ Hok1 _ _ Ho1) as (_ & ? & _). unfold rdisj in Hd. cbn [fst snd] in Hd. lia.
    - intros [[ch s k Hr|b x Hs' Hf'|node' x k Hin'] Hne].
      + by apply (owned_large L1 ch s k).
      + by apply (owned_small L1 b x).
      + apply (owned_huge L1 node'). cbn. rewrite E, elem_of_app, elem_of_cons in Hin'. rewrite elem_of_app.
        destruct Hin' as [?|[[= -> -> ->]|?]]; tauto. }
  assert (Hnodes : forall q, q ∈ map node_of (huges L) <-> q = nd \/ q ∈ map node_of (m1 ++ m2)).
  { intros q. rewrite E, !map_app, !elem_of_app. cbn [map node_of fst]. rewrite elem_of_cons. tauto. }
  assert (Hblk : forall q m, block (with_huges L2 (huges L2) (held L)) q m <-> block L q m /\ q <> p).
  { intros q m. unfold block. rewrite owned_held, F1, Hown1. cbn [huges with_huges]. rewrite F2, Hnodes. cbn [huges L1 with_huges]. tauto. }
  split; [split; [done | done | exact F4]|].
  assert (Hm1 : main st1 = main st) by (unfold st1, unlink_huge; by destruct (negb _)).
  assert (Ha1 : h_addr st1 = h_addr st) by (unfold st1, unlink_huge; by destruct (negb _)).
  split; [by rewrite <- Ha1, <- Ha2 | by rewrite <- Hm1, <- Hm2|].
  intros q m a Hb Hra. cbn [mem upd_heap set_heap zend_mm_chunk_free set_chunks set_os].
  assert (Ho2 : owned L2 q m) by (apply (owned_held L2 (held L)); apply Hb).
  change (byte_at (mem st2) a = byte_at (mem st) a).
  rewrite (Hk2 q m a Ho2 Hra). apply Hbytes. intros (nd' & Hnd' & _ & Hin').
  apply Hblk in Hb as [[Hoq Hq] _]. apply list_elem_of_fmap in Hnd' as (h & -> & Hh).
  destruct (owned_apart _ _ _ Hok _ _ _ _ Hoq (node_owned _ _ _ _ Hok Hh)) as [[-> _]|Hd].
  - apply Hq, list_elem_of_fmap. by exists h.
  - unfold rdisj in Hd. cbn [fst snd] in Hd. lia.
Qed.

Lemma free_heap_ok st L p n : mm_ok st L -> block L p n -> can_free st L p n ->
  exists st', zend_mm_free_heap st p = Ok st' /\ free_heap_post st L p st'.
Proof.
  intros Hok [Ho Hn] Hcan. unfold zend_mm_free_heap. destruct Ho as [ch s k Hr|b q Hs Hf|node q k Hin].
  - rewrite (free_rec_large 1 st L ch s k Hok Hr).
    destruct (free_large_ok st L ch s k Hok Hr Hcan) as (st' & Hfr & Hp). exists st'. split; [done|]. by apply free_post_block.
  - rewrite (free_rec_small 1 st L q b Hok Hs).
    destruct (free_small_ok st L q b Hok Hs Hf Hn) as (st' & Hfr & Hp & _). exists st'. split; [done|]. by apply free_post_block.
  - destruct (huge_region _ _ _ Hok _ Hin) as [Hp0 _ Hpa _ _ _]. cbn [huge_range fst snd] in *.
    cbn [zend_mm_free_heap_rec]. rewrite aligned_offset, Hpa. cbn [Z.eqb]. destruct (Z.eqb_spec q 0) as [|_]; [lia|].
    cbn [negb]. by apply (free_huge_ok st L node q k).
Qed.
End FreeHeap.
