(* ===== verification/MmRealloc.v ===== *)
(** * Resizing a block ([zend_mm_size], [zend_mm_realloc_heap], first part) *)
From S2P Require Export MmFree.

Section Size.
Context {Sys : OS} {Laws : OSLaws} {Low : LowMemory} {Rest : Foreign}.
Implicit Types (st : mm).

(** ** Writing to a block *)
Lemma outside_block cnt st L p n q m : mm_ok_with cnt st L -> block L p n -> owned L q m -> q <> p -> rdisj (p, n) (q, m).
Proof.
  intros Hok [Hp _] Hq Hne. destruct (owned_apart _ _ _ Hok _ _ _ _ Hp Hq) as [[? _]|]; [congruence | done].
Qed.

(** The manager keeps nothing in the blocks of the user. *)
Lemma write_block_ok st L p n m' : mm_ok st L -> block L p n ->
  (forall a, ~ (p <= a < p + n) -> byte_at m' a = byte_at (mem st) a) -> mm_ok (set_mem st m') L.
Proof.
  intros Hok Hb Hw. apply (ok_ext _ st); try done. split.
  - intros b q Hq. apply load64_ext. intros a Ha. apply Hw. intros Hin.
    pose proof (free_slot_apart _ _ _ _ _ _ _ Hok Hq (proj1 Hb)) as Hd.
    destruct (ok_slots _ _ _ Hok b q Hq) as [Hbb _]. destruct (bin_facts b Hbb) as (? & _).
    unfold rdisj in Hd. cbn [fst snd] in Hd. lia.
  - intros h i Hh Hi. apply load64_ext. intros a Ha. apply Hw. intros Hin.
    assert (Hne : node_of h <> p) by (intros <-; apply (proj2 Hb), list_elem_of_fmap; by exists h).
    pose proof (outside_block _ _ _ _ _ _ _ Hok Hb (node_owned _ _ _ _ Hok Hh) Hne) as Hd.
    unfold rdisj in Hd. cbn [fst snd] in Hd. rewrite !elem_of_cons, elem_of_nil in Hi. destruct Hi as [->|[->|[->|[]]]]; lia.
Qed.

(** ** The size of a block *)
Lemma huge_size_ok st L node p n : mm_ok st L -> (node, p, n) ∈ huges L -> zend_mm_get_huge_block_size st p = Ok n.
Proof.
  intros Hok Hin. unfold zend_mm_get_huge_block_size.
  destruct (find_huge_ok _ st L p Hok (huges L) [] (huge_list (heap st)) 0 (slots_bound st)) as
    [(m1 & nd & k & m2 & E & _ & Hfi)|(Hno & _)]; [done | apply (ok_huge_list _ _ _ Hok) | by apply (huge_bound _ _ _ Hok) | |
    exfalso; by apply (Hno _ Hin)].
  assert (Hnd : (nd, p, k) ∈ huges L) by (rewrite E; apply elem_of_app; right; left).
  pose proof (huge_ptr_unique _ _ _ _ _ Hok Hin Hnd eq_refl) as Er. injection Er as <-.
  destruct (owned_range _ _ _ Hok _ _ (node_owned _ _ _ _ Hok Hnd)) as (Hnd0 & _). cbn [node_of fst] in Hnd0.
  rewrite Hfi. rsimp. destruct (Z.eqb_spec nd 0) as [|_]; [lia|]. f_equal. by destruct (ok_huge _ _ _ Hok _ Hnd) as (_ & ? & _).
Qed.

Lemma size_ok st L p n : mm_ok st L -> owned L p n -> zend_mm_size st p = Ok n.
Proof.
  intros Hok [ch s k Hr|b q Hs Hf|node q k Hin]; unfold zend_mm_size.
  - destruct (run_facts _ _ _ Hok _ _ _ Hr) as (_ & _ & _ & _ & Hwf & Hs & Hse & Hp & _).
    assert (Hin : ch + s * 4096 <= ch + s * 4096 < ch + (s + run_pages (LargeRun k)) * 4096) by lia.
    destruct (run_address _ _ _ _ _ _ _ Hok Hr Hin) as (Hb & Ho & _ & Hne).
    destruct (run_info _ _ _ _ _ _ Hok Hr Hin) as (c & Hg & _ & Hh & Hi).
    rewrite Ho, Hb. replace (ch + s * 4096 - ch) with (s * 4096) by lia.
    destruct (Z.eqb_spec (s * 4096) 0) as [|_]; [lia|]. rewrite Hg. rsimp. change ZEND_MM_PAGE_SIZE with 4096.
    rewrite Z.div_mul, Hi by lia. rsimp. cbn in Hwf. change ZEND_MM_PAGES with 512 in Hwf.
    destruct (lrun_info k ltac:(lia)) as [-> ->]. by rewrite Hh, Z.eqb_refl.
  - destruct (slot_in_range _ _ _ _ _ Hok Hs) as (ch & s & Hr & Hin).
    destruct (run_address _ _ _ _ _ _ q Hok Hr Hin) as (Hb & Ho & _ & Hne).
    destruct (run_info _ _ _ _ _ q Hok Hr Hin) as (c & Hg & _ & Hh & info & Hi & Hsr & Hbin).
    rewrite Ho, Hb. destruct (Z.eqb_spec (q - ch) 0) as [|_]; [done|].
    rewrite Hg. rsimp. change ZEND_MM_PAGE_SIZE with 4096. rewrite Hi. rsimp. by rewrite Hh, Z.eqb_refl, Hsr, Hbin.
  - destruct (huge_region _ _ _ Hok _ Hin) as [_ _ Hpa _ _ _]. cbn [huge_range fst snd] in Hpa.
    rewrite aligned_offset, Hpa. by apply (huge_size_ok st L node).
Qed.
End Size.

(** ** Resizing in place *)

Section Resize.
Context {Sys : OS} {Laws : OSLaws} {Low : LowMemory} {Rest : Foreign}.
Implicit Types (st : mm).

(** The block at [p] has now [k] bytes. *)
Record resized (L : layout) (p k : Z) (L' : layout) : Prop := {
  rs_block q m : block L' q m <-> (block L q m /\ q <> p) \/ (q = p /\ m = k);
  rs_held : held L' = held L;
  rs_spare : spare L' = spare L
}.

(** ** Regions *)
Lemma regions_truncate o rest p n k : regions_ok o ((p, n) :: rest) -> 0 < k <= n -> k mod 4096 = 0 ->
  regions_ok (munmap o (p + k) (n - k)) ((p, k) :: rest).
Proof.
  intros [[Hf [Hd Hw]] He] Hk Hm. pose proof (fun a => covers_apart (p, n) rest a Hd) as Hca.
  apply Forall_cons in Hf as [[A1 A2 A3 A4 A5 A6] Hf]. cbn [fst snd] in *.
  rewrite Forall_forall in Hd, Hf. split; [split|].
  - apply Forall_cons. split.
    + split; cbn [fst snd]; try done; try lia. intros a Ha. apply munmap_range. split; [apply A6; lia | lia].
    + apply Forall_forall. intros q Hq. destruct (Hf q Hq) as [B1 B2 B3 B4 B5 B6]. split; try done. intros a Ha.
      apply munmap_range. split; [by apply B6|]. specialize (Hd q Hq). unfold rdisj in Hd. cbn [fst snd] in Hd. lia.
  - split; [|done]. apply Forall_forall. intros q Hq. specialize (Hd q Hq). unfold rdisj in *. cbn [fst snd] in *. lia.
  - intros a. specialize (He a). specialize (Hca a). rewrite munmap_range. rewrite !covers_cons in *. cbn [fst snd] in *.
    destruct (decide (p <= a < p + n)), (decide (p <= a < p + k)), (decide (p + k <= a < p + k + (n - k))); try lia; tauto.
Qed.

Lemma regions_extend o o' l p n k : regions_ok o ((p, n) :: l) -> n < k -> k mod 4096 = 0 ->
  new_mapping o o' (p + n) (k - n) -> regions_ok o' ((p, k) :: l).
Proof.
  intros Hok Hk Hm [N1 N2 N3 N4].
  assert (Hf : Forall (region_ok o') ((p, n) :: l)) by (apply (regions_mono o); [intros a Ha; apply N4; by left | apply Hok]).
  destruct Hok as [[Hf0 [Hd Hw]] He]. apply Forall_cons in Hf0 as [_ Hf0]. rewrite Forall_forall in Hf0. apply Forall_cons in Hf as [[A1 A2 A3 A4 A5 A6] Hf]. cbn [fst snd] in *.
  rewrite Forall_forall in Hd. split; [split|].
  - apply Forall_cons. split; [|done]. split; cbn [fst snd]; try done; try lia. intros a Ha.
    destruct (Z.lt_ge_cases a (p + n)); [apply A6; lia | apply N4; right; lia].
  - split; [|done]. apply Forall_forall. intros q Hq. specialize (Hd q Hq). destruct (Hf0 q Hq) as [B1 B2 _ _ _ B6].
    unfold rdisj in *. cbn [fst snd] in *. destruct Hd as [Hd|Hd]; [|by right].
    destruct (Z.le_gt_cases (p + k) (fst q)); [by left|]. exfalso. apply (N3 (fst q)); [lia|]. apply B6. lia.
  - intros a. specialize (He a). specialize (N3 a). rewrite N4, !covers_cons in *. cbn [fst snd] in *.
    destruct (decide (p <= a < p + n)), (decide (p + n <= a < p + n + (k - n))), (decide (p <= a < p + k)); try lia; tauto.
Qed.

(** ** Huge blocks *)

(** The node that the list has for a huge block. *)
Lemma find_huge_node st L node p n : mm_ok st L -> (node, p, n) ∈ huges L ->
  exists prev nd m1 m2, find_huge st p 0 (huge_list (heap st)) (slots_bound st) = Ok (prev, nd) /\
    huges L = m1 ++ (nd, p, n) :: m2 /\ 0 < nd.
Proof.
  intros Hok Hin. destruct (find_huge_ok _ st L p Hok (huges L) [] (huge_list (heap st)) 0 (slots_bound st)) as
    [(m1 & nd & k & m2 & E & _ & Hfi)|(Hno & _)]; [done | apply (ok_huge_list _ _ _ Hok) | by apply (huge_bound _ _ _ Hok) | |
    exfalso; by apply (Hno _ Hin)].
  assert (Hnd : (nd, p, k) ∈ huges L) by (rewrite E; apply elem_of_app; right; left).
  pose proof (huge_ptr_unique _ _ _ _ _ Hok Hin Hnd eq_refl) as Er. injection Er as <-.
  destruct (owned_range _ _ _ Hok _ _ (node_owned _ _ _ _ Hok Hnd)) as (Hnd0 & _).
  by exists (prev_node 0 m1), nd, m1, m2.
Qed.

Lemma find_huge_mem st st' p fuel : mem st' = mem st ->
  forall prev cur, find_huge st' p prev cur fuel = find_huge st p prev cur fuel.
Proof.
  intros E. induction fuel as [|fuel IH]; intros prev cur; [done|]. cbn [find_huge]. destruct (cur =? 0); [done|].
  unfold huge_ptr, huge_next. rewrite E. destruct (load64 (mem st) cur =? p); [done | apply IH].
Qed.

Lemma regions_huge m L nd p n m1 m2 : huges L = m1 ++ (nd, p, n) :: m2 ->
  exists rest, regions_of m L ≡ₚ (p, n) :: rest /\
    forall k, regions_of m (with_huges L (m1 ++ (nd, p, k) :: m2) (held L)) ≡ₚ (p, k) :: rest.
Proof.
  intros E. exists (map (fun ch => (ch, ZEND_MM_CHUNK_SIZE)) (m :: others L ++ cache L ++ spare L) ++ map huge_range (m1 ++ m2) ++ held L).
  assert (Hp : forall k (A : list (Z * Z)), A ++ map huge_range (m1 ++ (nd, p, k) :: m2) ++ held L ≡ₚ
    (p, k) :: A ++ map huge_range (m1 ++ m2) ++ held L).
  { intros k A. rewrite !map_app. cbn [map huge_range fst snd]. solve_Permutation. }
  unfold regions_of. cbn [others cache spare huges held with_huges]. rewrite E. split; [|intros k]; apply Hp.
Qed.

Lemma change_size_ok st L o f node p n k :
  mm_ok st L -> (node, p, n) ∈ huges L -> (forall h, same_lists h (f h)) -> 0 <= k < 2 ^ 64 ->
  (forall rest, regions_ok (os st) ((p, n) :: rest) -> regions_ok o ((p, k) :: rest)) ->
  exists st' L', zend_mm_change_huge_block_size (upd_heap (set_os st o) f) p k = Ok st' /\
    mm_ok st' L' /\ resized L p k L' /\ block_frame L st st'.
Proof.
  intros Hok Hin Hf Hk Hrk. destruct (find_huge_node _ _ _ _ _ Hok Hin) as (prev & nd & m1 & m2 & Hfi & E & Hnd0).
  pose proof Hok as [Hr Hc Hrg Hch Hru Hca Hsl Hls Hss Hsn Hhl Hh Hhn].
  destruct (Hf (heap st)) as (F1 & F2 & F3 & F4).
  unfold zend_mm_change_huge_block_size.
  change (slots_bound (upd_heap (set_os st o) f)) with (slots_bound st).
  change (heap (upd_heap (set_os st o) f)) with (f (heap st)).
  rewrite (find_huge_mem st) by done. rewrite F4, Hfi. rsimp. destruct (Z.eqb_spec nd 0) as [|_]; [lia|].
  assert (Hnd : (nd, p, n) ∈ huges L) by (rewrite E; apply elem_of_app; right; left).
  destruct (Hh _ Hnd) as (Hp1 & Hp2 & Hs & Hnf). cbn [node_of huge_range fst snd] in *.
  destruct (regions_huge (main st) L nd p n m1 m2 E) as (rest & Hrest & Hrest').
  set (L' := with_huges L (m1 ++ (nd, p, k) :: m2) (held L)). eexists _, L'. split; [done|].
  set (m' := store64 (mem st) (nd + 8) k).
  assert (Hfr : forall a, a < nd + 8 \/ nd + 16 <= a -> byte_at m' a = byte_at (mem st) a) by (intros a Ha; apply store64_frame; lia).
  assert (Hload : forall b q j, is_slot (runs L) b q -> q <> nd -> 0 <= j -> j + 8 <= bin_data_size b ->
    load64 m' (q + j) = load64 (mem st) (q + j)).
  { intros b q j Hq Hne Hj Hjb. apply load64_ext. intros a Ha. apply Hfr.
    destruct (slots_apart _ _ _ Hok _ _ _ _ Hs Hq) as [?|Hd]; [congruence|]. unfold rdisj in Hd. cbn [fst snd] in Hd.
    change (bin_data_size 2) with 24 in Hd. lia. }
  assert (Hnodes : map node_of (m1 ++ (nd, p, k) :: m2) = map node_of (huges L)) by (by rewrite E, !map_app).
  assert (Hsub : forall h, h ∈ m1 ++ (nd, p, k) :: m2 -> h = (nd, p, k) \/ (h ∈ huges L /\ node_of h <> nd)).
  { intros h Hin'. assert (Hcase : h = (nd, p, k) \/ h ∈ m1 \/ h ∈ m2) by (rewrite elem_of_app, elem_of_cons in Hin'; tauto).
    destruct Hcase as [->|Hm]; [by left | right]. split; [rewrite E, elem_of_app, elem_of_cons; tauto|].
    intros En. pose proof Hhn as Hn. rewrite E, map_app in Hn. cbn [map node_of fst] in Hn. apply NoDup_app in Hn as (_ & N1 & N2).
    apply NoDup_cons in N2 as [N2 _]. destruct Hm as [Hm|Hm].
    - apply (N1 nd); [|left]. rewrite <- En. apply list_elem_of_fmap. by exists h.
    - apply N2. rewrite <- En. apply list_elem_of_fmap. by exists h. }
  split; [|split].
  - split; cbn [others cache spare runs slots huges held with_huges L']; try done.
    + unfold main. cbn. rewrite F1. exact Hr.
    + cbn. rewrite F2. exact Hc.
    + unfold main. cbn [heap os set_mem upd_heap set_heap set_os]. rewrite F1. fold (main st).
      apply (regions_ok_perm _ ((p, k) :: rest)); [symmetry; apply Hrest'|]. apply Hrk.
      apply (regions_ok_perm _ (regions_of (main st) L)); [exact Hrest | done].
    + intros ch Hin'. unfold main in Hin'. cbn in Hin'. rewrite F1 in Hin'. by apply Hch.
    + intros ch s r Hr'. unfold main. cbn. rewrite F1. by apply (Hru ch s r).
    + cbn. by rewrite F3.
    + intros b Hb. destruct (Hls b Hb) as (q & Hq & Hl). exists q. split; [cbn; by rewrite F3|].
      apply (llist_frame _ _ _ _ Hl). intros x Hx. unfold slot_next. f_equal. rewrite <- (Z.add_0_r x).
      destruct (Hss b x Hx) as [_ Hsx]. destruct (bin_facts b Hb) as (? & _). apply (Hload b); [done| |lia|lia].
      intros ->. by rewrite (is_slot_inj _ _ _ Hok _ _ _ Hsx Hs) in Hx.
    + rewrite Hnodes. cbn [heap set_mem upd_heap set_heap set_os]. rewrite F4. apply (llist_frame _ _ _ _ Hhl).
      intros x Hx. unfold node_next. f_equal. apply list_elem_of_fmap in Hx as (h & -> & Hin').
      destruct (decide (node_of h = nd)) as [->|Hne].
      * apply load64_ext. intros a Ha. apply Hfr. lia.
      * apply (Hload 2); [by apply Hh | done | lia | change (bin_data_size 2) with 24; lia].
    + intros h Hin'. apply Hsub in Hin' as [->|[Hin' Hne]].
      * cbn [node_of huge_range fst snd]. split; [|split; [|done]].
        -- rewrite <- Hp1. apply load64_ext. intros a Ha. apply Hfr. lia.
        -- by apply load_store64.
      * destruct (Hh h Hin') as (H1 & H2 & H3). split; [|split; [|done]].
        -- pose proof (Hload 2 (node_of h) 0) as Ef. rewrite !Z.add_0_r in Ef.
           change (load64 m' (node_of h) = fst (huge_range h)). rewrite Ef; [exact H1 | apply H3 | done | lia | change (bin_data_size 2) with 24; lia].
        -- change (load64 m' (node_of h + 8) = snd (huge_range h)). rewrite (Hload 2); [exact H2 | apply H3 | done | lia | change (bin_data_size 2) with 24; lia].
    + by rewrite Hnodes.
  - split; [|done|done]. intros q m. unfold block. change (huges L') with (m1 ++ (nd, p, k) :: m2). rewrite Hnodes.
    assert (Hpn : p ∉ map node_of (huges L)).
    { intros Hp. apply list_elem_of_fmap in Hp as (h & Eh & Hhin). destruct (Hh h Hhin) as (_ & _ & Hsh & _).
      rewrite <- Eh in Hsh. by apply (slot_not_huge _ _ _ 2 p nd n Hok Hsh). }
    assert (Huniq : forall x m3, (x, p, m3) ∈ m1 ++ m2 -> False).
    { intros x m3 Hx. destruct (proj1 Hrg) as [_ Hw]. apply pairwise_app in Hw as (_ & Hw & _).
      apply pairwise_app in Hw as (Hw & _ & _). rewrite E in Hw.
      assert (Hp : map huge_range (m1 ++ (nd, p, n) :: m2) ≡ₚ (p, n) :: map huge_range (m1 ++ m2)).
      { rewrite !map_app. cbn [map huge_range fst snd]. solve_Permutation. }
      apply (pairwise_perm _ _ Hp) in Hw as [Hw _]. rewrite Forall_forall in Hw.
      specialize (Hw (p, m3)). destruct (huge_region _ _ _ Hok _ Hnd) as [_ Hn _ _ _ _].
      assert (Hxl : (x, p, m3) ∈ huges L) by (rewrite E; rewrite elem_of_app, elem_of_cons in *; tauto).
      destruct (huge_region _ _ _ Hok _ Hxl) as [_ Hm3 _ _ _ _]. unfold rdisj in Hw. cbn [huge_range fst snd] in *.
      destruct Hw; [apply list_elem_of_fmap; by exists (x, p, m3) | lia..]. }
    split.
    + intros [[ch s j Hr'|b x Hs' Hf'|node' x j Hin'] Hq].
      * left. split; [split; [by apply (owned_large L ch s j) | done]|]. intros Ep.
        pose proof (run_huge_apart _ _ _ Hok _ _ _ _ Hr' Hnd) as Hd. destruct (huge_region _ _ _ Hok _ Hnd) as [_ Hn _ _ _ _].
        destruct (run_facts _ _ _ Hok _ _ _ Hr') as (_ & _ & _ & _ & _ & _ & _ & ? & _).
        unfold rdisj, run_range, huge_range in *. cbn [fst snd] in *. lia.
      * left. split; [split; [by constructor | done]|]. intros ->. by apply (slot_not_huge _ _ _ b p nd n Hok Hs').
      * cbn in Hin'. assert (Hcase : (node', x, j) = (nd, p, k) \/ (node', x, j) ∈ m1 ++ m2) by (rewrite elem_of_app, elem_of_cons in *; tauto).
        destruct Hcase as [[= -> -> ->]|Hm]; [by right|]. left. split; [split; [|done]|].
        -- apply (owned_huge L node'). rewrite E, elem_of_app, elem_of_cons. rewrite elem_of_app in Hm. tauto.
        -- intros ->. by apply (Huniq _ _ Hm).
    + intros [[[Ho Hq] Hne]|[-> ->]]; (split; [|done]).
      * destruct Ho as [ch s j Hr'|b x Hs' Hf'|node' x j Hin'].
        -- by apply (owned_large L' ch s j).
        -- by apply (owned_small L' b x).
        -- apply (owned_huge L' node'). cbn. rewrite E, elem_of_app, elem_of_cons in Hin'. rewrite elem_of_app, elem_of_cons.
           destruct Hin' as [?|[[= -> -> ->]|?]]; tauto.
      * apply (owned_huge L' nd). cbn. apply elem_of_app. right. left.
  - split; [done | unfold main; cbn; by rewrite F1|]. intros q m a [Ho Hq] Ha. change (byte_at m' a = byte_at (mem st) a). apply Hfr.
    pose proof (node_owned _ _ _ _ Hok Hnd) as Hno. cbn [node_of fst] in Hno.
    destruct (owned_apart _ _ _ Hok _ _ _ _ Ho Hno) as [[-> _]|Hd].
    + exfalso. apply Hq, list_elem_of_fmap. by exists (nd, p, n).
    + unfold rdisj in Hd. cbn [fst snd] in Hd. lia.
Qed.
End Resize.

(** * [zend_mm_realloc_heap] *)

Section Realloc.
Context {Sys : OS} {Laws : OSLaws} {Low : LowMemory} {Rest : Foreign}.
Implicit Types (st : mm).

(** A block that keeps its place, or a state in which it has not been possible. *)
Definition in_place_post st (L : layout) (p size : Z) (r : bool * mm) : Prop :=
  if fst r then exists L' k, (size <= k /\ k = block_size size) /\ mm_ok (snd r) L' /\ resized L p k L' /\ block_frame L st (snd r)
  else exists L1, mm_ok (snd r) L1 /\ quiet L L1 /\ spare L1 = spare L /\ gc_frame L st (snd r) /\
    sheds st (snd r) /\ (size <= ZEND_MM_MAX_LARGE_SIZE -> snd r = st /\ L1 = L).

Lemma unchanged_post st L p size : mm_ok st L -> in_place_post st L p size (false, st).
Proof.
  intros Hok. exists L. split; [done|]. split; [apply quiet_refl|]. split; [done|]. split; [apply gc_frame_refl|].
  split; [apply sheds_refl | done].
Qed.

Lemma quiet_block L L1 q m : quiet L L1 -> block L1 q m <-> block L q m.
Proof. intros [Q1 Q2 _ _]. unfold block. by rewrite Q1, Q2. Qed.

Lemma quiet_resized L L1 p k L' : quiet L L1 -> spare L1 = spare L -> resized L1 p k L' -> resized L p k L'.
Proof.
  intros Hq Hs [R1 R2 R3]. split; [|rewrite R2; apply Hq | congruence]. intros q m. by rewrite R1, (quiet_block L).
Qed.

Lemma block_frame_trans L L1 st1 st2 st3 : (forall q m, block L q m -> block L1 q m) ->
  block_frame L st1 st2 -> block_frame L1 st2 st3 -> block_frame L st1 st3.
Proof.
  intros Hb [A1 A2 A3] [B1 B2 B3]. split; [congruence..|]. intros q m a Hq Ha.
  rewrite (B3 q m a) by auto. by apply (A3 q m).
Qed.

(** ** Sizes *)
Lemma block_size_large size : ZEND_MM_MAX_SMALL_SIZE < size <= ZEND_MM_MAX_LARGE_SIZE ->
  ZEND_MM_ALIGNED_SIZE_EX size ZEND_MM_PAGE_SIZE = block_size size.
Proof.
  intros Hs. destruct (size_to_num size Hs) as [_ Hle]. change ZEND_MM_MAX_SMALL_SIZE with 3072 in Hs.
  change ZEND_MM_MAX_LARGE_SIZE with 2093056 in Hs. destruct (aligned_size_ex size ltac:(lia)) as [Hn Hm].
  unfold block_size. change ZEND_MM_MAX_SMALL_SIZE with 3072. change ZEND_MM_MAX_LARGE_SIZE with 2093056.
  destruct (Z.leb_spec size 3072), (Z.leb_spec size 2093056); try lia. change ZEND_MM_PAGE_SIZE with 4096 in *.
  pose proof (Z.div_mod (ZEND_MM_ALIGNED_SIZE_EX size 4096) 4096 ltac:(lia)). lia.
Qed.

(** ** Huge blocks *)
Lemma extend_ok st p n k : 0 < p + n -> n < k -> (k - n) mod 4096 = 0 ->
  exists o, snd (zend_mm_chunk_extend st p n k) = set_os st o /\
    if fst (zend_mm_chunk_extend st p n k) then new_mapping (os st) o (p + n) (k - n) else same_mapping (os st) o.
Proof.
  intros Hp Hk Hm. unfold zend_mm_chunk_extend, zend_mm_mmap_fixed.
  destruct (mmap (os st) (p + n) (k - n)) as [[q|] o] eqn:E.
  - apply mmap_some in E as (H1 & H2 & H3 & H4 & H5); [|lia | done].
    destruct (Z.eqb_spec q (p + n)) as [->|Hne]; cbn [isSome fst snd]; eexists; (split; [done|]).
    + by split.
    + intros a. rewrite munmap_range, H5. specialize (H4 a). destruct (decide (q <= a < q + (k - n))); tauto.
  - cbn [isSome fst snd]. exists o. split; [done|]. intros a. by apply (mmap_none (os st) (p + n) (k - n)).
Qed.

Lemma realloc_huge_ok st L node p n size :
  mm_ok st L -> (node, p, n) ∈ huges L -> 0 <= size <= 2 ^ 64 - REAL_PAGE_SIZE -> can_alloc st L size ->
  outcome (realloc_huge st p n size) (in_place_post st L p size).
Proof.
  intros Hok Hin Hs Hcan. change REAL_PAGE_SIZE with 4096 in Hs. unfold realloc_huge.
  destruct (Z.ltb_spec ZEND_MM_MAX_LARGE_SIZE size) as [Hlarge|]; [|by apply unchanged_post].
  assert (Hpin : pinned st L) by (destruct Hcan as [[? _]|[_ ?]]; [done | lia]).
  destruct (huge_region _ _ _ Hok _ Hin) as [Hp0 Hn0 _ Hn4 Hpe _]. cbn [huge_range fst snd] in *. unfold ADDRESS_SPACE in Hpe.
  assert (Hk : exists k, ZEND_MM_ALIGNED_SIZE_EX size REAL_PAGE_SIZE = k /\ k mod 4096 = 0 /\ size <= k < 2 ^ 64 /\ 0 < k).
  { destruct (huge_size_cases size ltac:(lia)) as (Hm & Hr & Hc). eexists. split; [done|].
    change ZEND_MM_MAX_LARGE_SIZE with 2093056 in Hlarge. split; [done|].
    destruct Hc as [Hz|?]; [|lia]. exfalso. revert Hz. unfold ZEND_MM_ALIGNED_SIZE_EX. change (REAL_PAGE_SIZE - 1) with (Z.ones 12).
    rewrite land_not_ones by (apply u64_word || lia). change REAL_PAGE_SIZE with 4096. rewrite u64_small by lia.
    change (2 ^ 12) with 4096. pose proof (Z.mod_pos_bound (size + 4096 - 1) 4096 ltac:(lia)). lia. }
  destruct Hk as (k & Ek & Hk4 & Hk & Hk0).
  assert (Eb : block_size size = k) by (rewrite <- Ek; by apply block_size_huge). rewrite Ek.
  assert (Hid : forall s : mm, s = upd_heap (set_os s (os s)) (fun h => h)) by (by intros []).
  destruct (Z.eqb_spec k n) as [->|Hkn].
  { destruct (change_size_ok st L (os st) (fun h => h) node p n n) as (st' & L' & Hch & Hok' & Hr & Hf); [done | done | done | lia | done|].
    rewrite (Hid st) at 1. rewrite Hch. rsimp. exists L', n. split; [lia | done]. }
  destruct (Z.ltb_spec k n) as [Hlt|Hgt].
  - unfold zend_mm_chunk_truncate. cbv iota beta. set (f := fun h : zend_mm_heap => _).
    destruct (change_size_ok st L (zend_mm_munmap (os st) (p + k) (n - k)) f node p n k) as (st' & L' & Hch & Hok' & Hr & Hf);
      [done | done | done | lia | |].
    { intros rest Hrest. apply regions_truncate; [done | lia | done]. }
    rewrite Hch. rsimp. exists L', k. split; [lia | done].
  - eapply outcome_bind; [by apply check_limit_ok|]. intros st1 (L1 & Hok1 & Hq1 & Hsp1 & Hf1 & Hsh1).
    assert (Hm : (k - n) mod 4096 = 0) by (rewrite Zminus_mod, Hk4, Hn4; done).
    destruct (extend_ok st1 p n k ltac:(lia) ltac:(lia) Hm) as (o & E & Ho).
    destruct (zend_mm_chunk_extend st1 p n k) as [ok st2]. cbn [fst snd] in *. subst st2.
    assert (Hin1 : (node, p, n) ∈ huges L1) by (by rewrite (q_huges _ _ Hq1)).
    destruct ok.
    + set (f := fun h : zend_mm_heap => _).
      destruct (change_size_ok st1 L1 o f node p n k) as (st' & L' & Hch & Hok' & Hr & Hf); [done | done | done | lia | |].
      { intros rest Hrest. apply (regions_extend (os st1) _ _ _ n); [done | lia | done | done]. }
      rewrite Hch. rsimp. exists L', k. split; [lia|]. split; [done|]. split; [by apply (quiet_resized L L1)|].
      apply (block_frame_trans L L1 st st1); [intros q m Hb; by apply (quiet_block L) | by apply gc_block_frame | done].
    + exists L1. cbn [fst snd]. split; [by apply ok_set_os|]. split; [done|]. split; [done|].
      split; [destruct Hf1; by split|]. split; [intros a Ha; by apply Hsh1, Ho | lia].
Qed.

(** ** Large blocks *)
Lemma owned_resize cnt st L ch s n k q m : mm_ok_with cnt st L -> runs L !! (ch, s) = Some (LargeRun n) ->
  owned (with_runs L (<[(ch, s) := LargeRun k]> (runs L))) q m <->
  (owned L q m /\ q <> ch + s * 4096) \/ (q = ch + s * 4096 /\ m = k * 4096).
Proof.
  intros Hok Hr. rewrite <- (owned_delete _ _ _ _ _ _ q m Hok Hr). set (L0 := with_runs L (delete (ch, s) (runs L))).
  replace (with_runs L (<[(ch, s) := LargeRun k]> (runs L))) with (with_runs L0 (<[(ch, s) := LargeRun k]> (runs L0))).
  - apply owned_insert. apply lookup_delete_eq.
  - unfold L0, with_runs. cbn. by rewrite insert_delete_eq.
Qed.

Lemma resize_run_ok st L ch s n k c c' rs : mm_ok st L -> runs L !! (ch, s) = Some (LargeRun n) -> chunks st !! ch = Some c ->
  chunk_runs (runs L) ch rs -> same_links c c' -> chunk_ok c' (<[s := LargeRun k]> rs) ->
  mm_ok (put_chunk st ch c') (with_runs L (<[(ch, s) := LargeRun k]> (runs L))) /\
  resized L (ch + s * 4096) (k * 4096) (with_runs L (<[(ch, s) := LargeRun k]> (runs L))).
Proof.
  intros Hok Hr Hc Hrs Hsl Hcok.
  assert (Hkeep : forall b q, is_slot (runs L) b q -> is_slot (<[(ch, s) := LargeRun k]> (runs L)) b q).
  { intros b q (ch' & s' & i & Hr' & Hi). exists ch', s', i. split; [|done]. rewrite lookup_insert_ne; [done|].
    intros [= <- <-]. by rewrite Hr in Hr'. }
  split.
  - apply (ok_put_chunk (fun _ _ => 0) (fun _ _ => 0) st L ch c c' _ (<[s := LargeRun k]> rs)); try done.
    + by apply (ok_runs _ _ _ Hok ch s (LargeRun n)).
    + intros ch' s' Hne. by rewrite lookup_insert_ne by congruence.
    + intros t. destruct (decide (t = s)) as [->|Hne]; [by rewrite !lookup_insert_eq|].
      rewrite !lookup_insert_ne by congruence. apply Hrs.
    + intros b q Hq. apply Hkeep. by apply (ok_slots _ _ _ Hok).
    + intros h Hh. apply Hkeep. by apply (ok_huge _ _ _ Hok).
  - split; try done. intros q m. unfold block. rewrite (owned_resize _ _ _ _ _ n _ _ _ Hok Hr). cbn [huges with_runs].
    assert (Hno : ch + s * 4096 ∉ map node_of (huges L)).
    { intros Hin. apply list_elem_of_fmap in Hin as (h & Eh & Hh). destruct (ok_huge _ _ _ Hok h Hh) as (_ & _ & Hs & _).
      by apply (slot_not_large _ _ _ _ _ ch s n Hok Hs Hr). }
    split; [tauto|]. intros [?|[-> ->]]; tauto.
Qed.

Lemma realloc_large_ok st L ch s n c size :
  mm_ok st L -> runs L !! (ch, s) = Some (LargeRun n) -> chunks st !! ch = Some c ->
  exists r, realloc_large st ch c s (n * 4096) size = Ok r /\ in_place_post st L (ch + s * 4096) size r.
Proof.
  intros Hok Hr Hc. destruct (run_facts _ _ _ Hok _ _ _ Hr) as (_ & _ & _ & _ & Hwf & Hs & Hse & _ & c0 & rs & Hc0 & _ & Hrs & Hcok & Hl).
  rewrite Hc in Hc0. injection Hc0 as <-. cbn [run_wf run_pages] in *. change ZEND_MM_PAGES with 512 in Hwf.
  unfold realloc_large. destruct ((ZEND_MM_MAX_SMALL_SIZE <? size) && (size <=? ZEND_MM_MAX_LARGE_SIZE)) eqn:Ec.
  2:{ exists (false, st). split; [done | by apply unchanged_post]. }
  apply andb_prop in Ec as [E1 E2]. zbool. change ZEND_MM_MAX_SMALL_SIZE with 3072 in E1. change ZEND_MM_MAX_LARGE_SIZE with 2093056 in E2.
  destruct (aligned_size_ex size ltac:(lia)) as [Hn1 Hn2]. set (ns := ZEND_MM_ALIGNED_SIZE_EX size ZEND_MM_PAGE_SIZE) in *.
  assert (Ebs : ns = block_size size) by (by apply block_size_large).
  set (k := ns / 4096). assert (Ens : ns = k * 4096) by (pose proof (Z.div_mod ns 4096 ltac:(lia)); lia).
  change ZEND_MM_PAGE_SIZE with 4096. rewrite Z.div_mul by lia. fold k.
  assert (Hk : 1 <= k < 512) by lia.
  destruct (Z.eqb_spec ns (n * 4096)) as [E|Hne].
  { exists (true, st). split; [done|]. exists L, (n * 4096). split; [lia|]. split; [done|]. split; [|done].
    assert (Ho : owned L (ch + s * 4096) (n * 4096)) by (by apply (owned_large L ch s n)).
    split; try done. intros q m. split.
    - intros Hb. destruct (decide (q = ch + s * 4096)) as [->|]; [right | by left]. split; [done|].
      destruct (owned_apart _ _ _ Hok _ _ _ _ (proj1 Hb) Ho) as [[_ ?]|Hd]; [done|].
      destruct (owned_range _ _ _ Hok _ _ (proj1 Hb)) as (_ & ? & _). unfold rdisj in Hd. cbn [fst snd] in Hd. lia.
    - intros [[? _]|[-> ->]]; [done|]. split; [done|]. intros Hin.
      apply list_elem_of_fmap in Hin as (h & Eh & Hh). destruct (ok_huge _ _ _ Hok h Hh) as (_ & _ & Hsl & _).
      by apply (slot_not_large _ _ _ _ _ ch s n Hok Hsl Hr). }
  destruct (Z.ltb_spec ns (n * 4096)) as [Hlt|Hgt].
  - replace ((n * 4096 - ns) / 4096) with (n - k) by (rewrite Ens, <- Z.mul_sub_distr_r, Z.div_mul; lia).
    destruct (shrink_run_ok _ c rs Hcok s n k Hl ltac:(lia)) as (c' & Hsh & Hcok' & Hsl & _). rewrite Hsh. rsimp.
    eexists. split; [done|]. set (st0 := upd_heap st _).
    assert (Hok0 : mm_ok st0 L) by (by apply ok_upd_heap).
    destruct (resize_run_ok st0 L ch s n k c c' rs Hok0 Hr Hc Hrs Hsl Hcok') as [Hok' Hres].
    eexists _, (k * 4096). split; [lia|]. split; [exact Hok'|]. split; [exact Hres|]. by split.
  - assert (Hfree : exists b, (if s + k <=? ZEND_MM_PAGES then zend_mm_bitset_is_free_range (free_map c) (s + n) (k - n) else Ok false) = Ok b /\
      (b = true -> s + k <= 512 /\ forall i, s + n <= i < s + k -> bit_of (free_map c) i = false)).
    { change ZEND_MM_PAGES with 512. destruct (Z.leb_spec (s + k) 512); [|by exists false].
      destruct (is_free_range_spec (free_map c) (s + n) (k - n) (co_words _ _ _ Hcok)) as (b & Hb & Hbb);
        [lia | lia | unfold nbits; rewrite (co_len _ _ _ Hcok); lia |].
      exists b. split; [done|]. intros Eb. split; [done|]. intros i Hi. apply Hbb; [done | lia]. }
    destruct Hfree as (b & -> & Hb). rsimp. destruct b; [|exists (false, st); split; [done | by apply unchanged_post]].
    destruct (Hb eq_refl) as [Hsk Hbits].
    destruct (grow_run_ok _ c rs Hcok s n k Hl ltac:(lia) Hsk Hbits) as (c' & Hsh & Hcok' & Hsl & _). rewrite Hsh. rsimp.
    eexists. split; [done|]. set (st0 := upd_heap st _).
    assert (Hok0 : mm_ok st0 L) by (by apply ok_upd_heap).
    destruct (resize_run_ok st0 L ch s n k c c' rs Hok0 Hr Hc Hrs Hsl Hcok') as [Hok' Hres].
    eexists _, (k * 4096). split; [lia|]. split; [exact Hok'|]. split; [exact Hres|]. by split.
Qed.

(** ** The result *)
Record realloc_post_in st (L : layout) (p n copy q k : Z) st' (L' : layout) : Prop := {
  rp_ok : mm_ok st' L';
  rp_block x m : block L' x m <-> (block L x m /\ x <> p) \/ (x = q /\ m = k);
  rp_held : held L' = held L;
  rp_spare : spare L' = spare L;
  rp_addr : h_addr st' = h_addr st;
  rp_main : main st' = main st;
  rp_kept x m a : block L x m -> x <> p -> x <= a < x + m -> byte_at (mem st') a = byte_at (mem st) a;
  rp_copied i : 0 <= i < Z.min n copy -> byte_at (mem st') (q + i) = byte_at (mem st) (p + i);
  rp_fresh : q = p \/ forall x m, block L x m -> rdisj (q, k) (x, m)
}.

Definition realloc_post st (L : layout) (p n size copy : Z) (r : Z * mm) : Prop :=
  exists L' k, (size <= k /\ k = block_size size) /\ realloc_post_in st L p n copy (fst r) k (snd r) L'.

Lemma in_place_realloc st L p n size copy st' :
  mm_ok st L -> block L p n -> copy <= size -> in_place_post st L p size (true, st') -> realloc_post st L p n size copy (p, st').
Proof.
  intros Hok Hb Hc (L' & k & Hk & Hok' & [R1 R2 R3] & [F1 F2 F3]). exists L', k. split; [done|]. cbn [fst snd] in *.
  split; try done.
  - intros x m a Hx _ Ha. by apply (F3 x m).
  - intros i Hi. apply (F3 p n); [done | lia].
  - by left.
Qed.

(** Through a quiet step. *)
Lemma realloc_post_quiet st st1 L L1 p n size copy r : quiet L L1 -> spare L1 = spare L -> gc_frame L st st1 -> block L p n ->
  realloc_post st1 L1 p n size copy r -> realloc_post st L p n size copy r.
Proof.
  intros Hq Hs Hf Hb (L' & k & Hk & [A1 A2 A3 A4 A5 A6 A7 A8 A9]). destruct Hf as [F1 F2 F3].
  exists L', k. split; [done|]. split; try done.
  - intros x m. by rewrite A2, (quiet_block L).
  - rewrite A3. apply Hq.
  - congruence.
  - congruence.
  - congruence.
  - intros x m a Hx Hne Ha. rewrite (A7 x m a) by (done || by apply (quiet_block L)). apply (F3 x m a); [apply Hx | done].
  - intros i Hi. rewrite A8 by done. apply (F3 p n); [apply Hb | lia].
  - destruct A9 as [?|A9]; [by left | right]. intros x m Hx. apply A9. by apply (quiet_block L).
Qed.

Lemma realloc_naive_ok st L p n size copy :
  mm_ok st L -> block L p n -> 0 <= size < 2 ^ 64 -> 0 <= copy <= size -> can_alloc st L size -> can_free st L p n ->
  outcome (realloc_naive st p n size copy) (realloc_post st L p n size copy).
Proof.
  intros Hok Hb Hs Hc Hca Hcf. unfold realloc_naive. eapply outcome_bind; [by apply alloc_heap_ok|].
  intros [q st1] (L1 & k & Hk & Hok1 & [B1 B2 B3 B4] & [F1 F2 F3]). cbn [fst snd] in *.
  set (cnt := Z.to_nat (Z.min n copy)). set (m1 := copy_bytes (mem st1) q p cnt). set (st2 := set_mem st1 m1).
  destruct (owned_range _ _ _ Hok _ _ (proj1 Hb)) as (_ & Hn & _).
  assert (Hq1 : block L1 q k) by (apply B1; by right). destruct (owned_range _ _ _ Hok1 _ _ (proj1 Hq1)) as (_ & Hk0 & _).
  pose proof (B2 _ _ Hb) as Hd. unfold rdisj in Hd. cbn [fst snd] in Hd.
  assert (Hqp : q <> p) by (intros ->; lia).
  assert (Hcopy : forall a, byte_at m1 a = if (q <=? a) && (a <? q + Z.min n copy) then byte_at (mem st1) (p + (a - q)) else byte_at (mem st1) a).
  { intros a. unfold m1. rewrite copy_bytes_spec by lia. replace (Z.of_nat cnt) with (Z.min n copy) by lia. done. }
  assert (Hok2 : mm_ok st2 L1).
  { apply (write_block_ok st1 L1 q k m1 Hok1 Hq1). intros a Ha. rewrite Hcopy.
    destruct (Z.leb_spec q a), (Z.ltb_spec a (q + Z.min n copy)); cbn [andb]; try done. lia. }
  assert (Hb1 : block L1 p n) by (apply B1; by left).
  destruct (free_heap_ok st2 L1 p n Hok2 Hb1) as (st3 & -> & L3 & Hok3 & [C1 C2 C3] & [G1 G2 G3]).
  { destruct Hcf as [(x & m & Hx & Hne & Hr)|[Hout|Hsm]]; [left|right; left|by right; right].
    - exists x, m. split; [apply B1; by left|]. split; [done|]. change (main st2) with (main st1). by rewrite F2.
    - change (main st2) with (main st1). by rewrite F2. }
  rsimp. exists L3, k. split; [done|]. cbn [fst snd].
  assert (Hbl : forall x m, block L3 x m <-> (block L x m /\ x <> p) \/ (x = q /\ m = k)).
  { intros x m. rewrite C1, B1. split; [tauto|]. intros [?|[-> ->]]; [tauto|]. split; [by right | done]. }
  split; try done.
  - by apply ok_upd_heap.
  - congruence.
  - congruence.
  - exact (eq_trans G1 F1).
  - exact (eq_trans G2 F2).
  - intros x m a Hx Hne Ha. change (byte_at (mem st3) a = byte_at (mem st) a).
    rewrite (G3 x m a) by (done || apply Hbl; by left). change (mem st2) with m1. rewrite Hcopy.
    pose proof (B2 x m Hx) as Hdx. unfold rdisj in Hdx. cbn [fst snd] in Hdx.
    destruct (Z.leb_spec q a), (Z.ltb_spec a (q + Z.min n copy)); cbn [andb]; try lia; by apply (F3 x m).
  - intros i Hi. change (byte_at (mem st3) (q + i) = byte_at (mem st) (p + i)).
    rewrite (G3 q k (q + i)); [|apply Hbl; by right | lia]. change (mem st2) with m1. rewrite Hcopy.
    destruct (Z.leb_spec q (q + i)), (Z.ltb_spec (q + i) (q + Z.min n copy)); cbn [andb]; try lia.
    replace (p + (q + i - q)) with (p + i) by lia. apply (F3 p n); [done | lia].
  - by right.
Qed.

Lemma can_alloc_quiet st st1 L L1 size : quiet L L1 -> main st1 = main st -> sheds st st1 -> (size <= ZEND_MM_MAX_LARGE_SIZE -> st1 = st /\ L1 = L) ->
  can_alloc st L size -> can_alloc st1 L1 size.
Proof.
  intros Hq Hm Hsh Hsame Hc. destruct (Z.le_gt_cases size ZEND_MM_MAX_LARGE_SIZE) as [Hle|Hgt].
  - by destruct (Hsame Hle) as [-> ->].
  - destruct Hc as [[Hp Hs]|[_ ?]]; [|lia]. left. split; [by apply (pinned_quiet st _ L)|].
    destruct Hs as [?|Hs]; [by left | right]. by apply (null_free_mono (os st)).
Qed.

Lemma can_free_quiet st st1 L L1 p n : quiet L L1 -> main st1 = main st -> can_free st L p n -> can_free st1 L1 p n.
Proof.
  intros Hq Hm [(x & m & Hx & Hr)|[Hout|Hsm]]; [left|right; left|by right; right]; [|by rewrite Hm].
  exists x, m. rewrite Hm. split; [by apply (quiet_block L) | done].
Qed.

Lemma realloc_heap_ok st L p n size copy :
  mm_ok st L -> block L p n -> 0 <= size <= 2 ^ 64 - REAL_PAGE_SIZE -> 0 <= copy <= size -> can_alloc st L size -> can_free st L p n ->
  outcome (zend_mm_realloc_heap st p size copy) (realloc_post st L p n size copy).
Proof.
  intros Hok Hb Hs Hc Hca Hcf. change REAL_PAGE_SIZE with 4096 in Hs. pose proof Hb as [Ho Hno]. unfold zend_mm_realloc_heap.
  destruct Ho as [ch s k Hr|b q Hsl Hf|node q k Hin].
  - destruct (run_facts _ _ _ Hok _ _ _ Hr) as (_ & _ & _ & _ & Hwf & Hs1 & Hse & Hp & _).
    assert (Hin : ch + s * 4096 <= ch + s * 4096 < ch + (s + run_pages (LargeRun k)) * 4096) by lia.
    destruct (run_address _ _ _ _ _ _ _ Hok Hr Hin) as (Hbs & Hoff & _ & Hne).
    destruct (run_info _ _ _ _ _ _ Hok Hr Hin) as (c & Hg & Hcc & Hh & Hi).
    rewrite Hoff, Hbs. replace (ch + s * 4096 - ch) with (s * 4096) by lia.
    destruct (Z.eqb_spec (s * 4096) 0) as [|_]; [lia|]. rewrite Hg. rsimp. change ZEND_MM_PAGE_SIZE with 4096.
    rewrite Z.div_mul, Hi by lia. rsimp. cbn in Hwf. change ZEND_MM_PAGES with 512 in Hwf.
    destruct (lrun_info k ltac:(lia)) as [-> ->]. rewrite Hh, Z.eqb_refl. cbn [negb].
    change 4096 with ZEND_MM_PAGE_SIZE at 2. rewrite page_offset. change (2 ^ 12) with 4096. rewrite Z.mod_mul by lia. cbn [Z.eqb negb].
    destruct (realloc_large_ok st L ch s k c size Hok Hr Hcc) as ([ip st1] & Hrl & Hpost). rewrite Hrl. rsimp.
    destruct ip; [apply in_place_realloc; done || lia|]. destruct Hpost as (L1 & Hok1 & Hq1 & Hsp1 & Hf1 & Hsh & Hsame). cbn [fst snd] in *.
    eapply outcome_weaken; [|intros r Hpost; by apply (realloc_post_quiet st st1 L L1)].
    apply realloc_naive_ok; [done | by apply (quiet_block L) | lia | done | |].
    + apply (can_alloc_quiet st st1 L L1); [done | apply Hf1 | done..].
    + apply (can_free_quiet st st1 L L1); [done | apply Hf1 | done].
  - destruct (slot_in_range _ _ _ _ _ Hok Hsl) as (ch & s & Hr & Hin).
    destruct (run_address _ _ _ _ _ _ q Hok Hr Hin) as (Hbs & Hoff & _ & Hne).
    destruct (run_info _ _ _ _ _ q Hok Hr Hin) as (c & Hg & _ & Hh & info & Hi & Hsr & Hbin).
    rewrite Hoff, Hbs. destruct (Z.eqb_spec (q - ch) 0) as [|_]; [done|].
    rewrite Hg. rsimp. change ZEND_MM_PAGE_SIZE with 4096. rewrite Hi. rsimp. rewrite Hh, Z.eqb_refl, Hsr, Hbin. cbn [negb].
    destruct ((size <=? ZEND_MM_MAX_SMALL_SIZE) && (b =? zend_mm_small_size_to_bin size)) eqn:E; [|apply realloc_naive_ok; done || lia].
    apply andb_prop in E as [E1 E2]. zbool. cbn [outcome].
    destruct (small_bin_spec size ltac:(lia)) as (_ & Hle & _). rewrite <- E2 in Hle.
    apply (in_place_realloc st L q (bin_data_size b)); [done..| lia |].
    exists L, (bin_data_size b). cbn [fst snd]. split; [split; [done|]|].
    { unfold block_size. destruct (Z.leb_spec size ZEND_MM_MAX_SMALL_SIZE); [by rewrite E2 | lia]. }
    split; [done|]. split; [|done].
    split; try done. intros x m. split.
    + intros Hx. destruct (decide (x = q)) as [->|]; [right | by left]. split; [done|].
      destruct (owned_apart _ _ _ Hok _ _ _ _ (proj1 Hx) (proj1 Hb)) as [[_ ?]|Hd]; [done|].
      destruct (owned_range _ _ _ Hok _ _ (proj1 Hx)) as (_ & ? & _). destruct (owned_range _ _ _ Hok _ _ (proj1 Hb)) as (_ & ? & _).
      unfold rdisj in Hd. cbn [fst snd] in Hd. lia.
    + by intros [[? _]|[-> ->]].
  - destruct (huge_region _ _ _ Hok _ Hin) as [Hp0 _ Hpa _ _ _]. cbn [huge_range fst snd] in *.
    rewrite aligned_offset, Hpa. cbn [Z.eqb]. destruct (Z.eqb_spec q 0) as [|_]; [lia|].
    rewrite (huge_size_ok st L node q k Hok Hin). rsimp.
    eapply outcome_bind; [by apply (realloc_huge_ok st L node)|]. intros [ip st1] Hpost.
    destruct ip; [apply in_place_realloc; done || lia|]. destruct Hpost as (L1 & Hok1 & Hq1 & Hsp1 & Hf1 & Hsh & Hsame). cbn [fst snd] in *.
    eapply outcome_weaken; [|intros r Hpost; by apply (realloc_post_quiet st st1 L L1)].
    apply realloc_naive_ok; [done | by apply (quiet_block L) | lia | done | |].
    + apply (can_alloc_quiet st st1 L L1); [done | apply Hf1 | done..].
    + apply (can_free_quiet st st1 L L1); [done | apply Hf1 | done].
Qed.
End Realloc.
