(* ===== verification/MmSpec.v ===== *)
(** * What the memory manager promises

    [represents st live]: the heap has handed out exactly the blocks of the
    map [live] from addresses to sizes.  Allocation, release, reallocation and
    collection are operations on this map; the bytes of the blocks belong to
    the user. *)
From S2P Require Export MmRealloc.

Section Spec.
Context {Sys : OS} {Laws : OSLaws} {Low : LowMemory} {Rest : Foreign}.
Implicit Types (st : mm) (live : gmap Z Z).

(** The heap structure lies in the header of the main chunk. *)
Definition heap_in_chunk st : Prop := h_addr st = main st + heap_slot_offset.

Definition represents st live : Prop :=
  heap_in_chunk st /\
  exists L, mm_ok st L /\ spare L = [] /\ held L = [] /\ forall p n, live !! p = Some n <-> block L p n.

(** The bytes of the blocks stay as they are. *)
Definition same_contents live st st' : Prop :=
  forall p n a, live !! p = Some n -> p <= a < p + n -> byte_at (mem st') a = byte_at (mem st) a.

(** Some block lies in the main chunk.  When there is none, releasing pages
    and collecting give the main chunk back to the system. *)
Definition main_in_use st live : Prop :=
  exists p n, live !! p = Some n /\ main st <= p < main st + ZEND_MM_CHUNK_SIZE.

(** All pages of the main chunk are free. *)
Definition main_unused st : Prop :=
  exists c, chunks st !! main st = Some c /\ free_pages c = ZEND_MM_PAGES - ZEND_MM_FIRST_PAGE.

(** ** Initialization *)
Definition layout0 : layout := Layout [] [] [] ∅ (fun _ => []) [] [].

Lemma init_ok (o : os_state) : (forall a, foreign a <-> mapped o a) ->
  outcome (zend_mm_init o) (fun r => match fst r with
    | None => same_mapping o (snd r)
    | Some st => mm_ok st layout0 /\ main_unused st /\ os st = snd r /\ heap_in_chunk st
    end).
Proof.
  intros Hfo. unfold zend_mm_init. eapply outcome_bind; [apply chunk_alloc_int_spec; [unfold ZEND_MM_CHUNK_SIZE; lia | done | apply chunk_null_free]|].
  intros [[ch|] o'] H; [|exact H]. destruct H as (_ & Hm & Hnew).
  destruct (init_header zero_chunk zero_blank) as (fm & pm & Hfm & Hpm & _ & Hok). rewrite Hfm. rsimp. rewrite Hpm. rsimp.
  cbn [outcome fst snd]. set (c := Chunk _ _ _ _ _ _ _ _). set (h := Heap _ _ _ _ _ _ _ _ _ _ _ _ _ _ _ _).
  set (st := MM _ h _ _ _).
  assert (Hlk : chunks st !! ch = Some c) by (cbn; apply lookup_singleton_eq).
  assert (Hcok : chunk_ok c ∅) by apply Hok.
  split; [|split; [|split; [done | reflexivity]]].
  - split; cbn [others cache spare runs slots huges held layout0]; try done.
    + split; [|apply NoDup_singleton]. cbn [app]. apply chain_cons. split; [|done].
      unfold nexts, prevs. change (main st) with ch. rewrite Hlk. by cbn.
    + unfold regions_of. cbn [others cache spare huges held layout0 app map].
      apply (regions_new o); [|exact Hnew|unfold ZEND_MM_CHUNK_SIZE; lia|done|done].
      split; [split; [constructor | done]|]. intros a. rewrite Hfo. split; [|by intros (r & Hr & _); apply elem_of_nil in Hr].
      split; [by left | intros [?|(r & Hr & _)]; [done | by apply elem_of_nil in Hr]].
    + intros p Hp. change (main st) with ch in Hp. apply elem_of_cons in Hp as [->|Hp]; [|by apply elem_of_nil in Hp].
      exists c, ∅. split; [done|]. split; [done|]. split; [intros s; by rewrite !lookup_empty | done].
    + intros p Hp. by apply elem_of_nil in Hp.
    + intros b Hb. exists 0. split; [|done]. apply aget_okZ; [lia|]. apply lookup_replicate. split; [done | lia].
    + intros b p Hp. by apply elem_of_nil in Hp.
    + intros b. constructor.
    + intros g Hg. by apply elem_of_nil in Hg.
    + constructor.
  - exists c. split; [exact Hlk | done].
Qed.

Lemma no_blocks L live : runs L = ∅ -> huges L = [] -> (forall p n, live !! p = Some n <-> block L p n) <-> live = ∅.
Proof.
  intros Hr Hh. assert (Hno : forall p n, ~ block L p n).
  { intros p n [[ch s k Hk|b q (ch & s & i & Hk & _) _|node q k Hin] _]; rewrite ?Hr, ?Hh in *;
      [by rewrite lookup_empty in Hk | by rewrite lookup_empty in Hk | by apply elem_of_nil in Hin]. }
  split.
  - intros H. apply map_empty. intros p. destruct (live !! p) as [n|] eqn:E; [|done]. exfalso. by apply (Hno p n), H.
  - intros -> p n. rewrite lookup_empty. split; [done|]. intros Hb. by destruct (Hno p n).
Qed.

Lemma layout0_blocks live : (forall p n, live !! p = Some n <-> block layout0 p n) <-> live = ∅.
Proof. by apply no_blocks. Qed.

(** ** From layouts to maps *)
Lemma owned_covered cnt st L p n : mm_ok_with cnt st L -> owned L p n ->
  forall a, p <= a < p + n -> covers (regions_of (main st) L) a.
Proof.
  intros Hok Ho a Ha. destruct (owned_cases _ _ _ Hok p n Ho) as [(ch & s & r & Hr & H1 & H2 & _)|(node & Hin)].
  - destruct (run_facts _ _ _ Hok _ _ _ Hr) as (Hin & _ & _ & _ & _ & ? & ? & _). exists (ch, ZEND_MM_CHUNK_SIZE). split.
    + apply elem_of_app. left. apply list_elem_of_fmap. exists ch. split; [done|]. rewrite elem_of_cons in *. rewrite elem_of_app. tauto.
    + cbn [fst snd]. change ZEND_MM_CHUNK_SIZE with 2097152. lia.
  - exists (huge_range (node, p, n)). split; [|done].
    apply elem_of_app. right. apply elem_of_app. left. apply list_elem_of_fmap. by exists (node, p, n).
Qed.

Lemma represents_layout st st' L live : heap_in_chunk st -> h_addr st' = h_addr st -> main st' = main st ->
  mm_ok st' L -> spare L = [] -> held L = [] -> (forall p n, live !! p = Some n <-> block L p n) -> represents st' live.
Proof. unfold heap_in_chunk. intros Hh Ha Hm ? ? ? ?. split; [unfold heap_in_chunk; congruence | by exists L]. Qed.

Lemma frame_contents st st' L live : (forall p n, live !! p = Some n -> block L p n) -> block_frame L st st' -> same_contents live st st'.
Proof. intros Hl [_ _ Hk] p n a Hp. by apply (Hk p n a), Hl. Qed.

Lemma in_use_pinned st L live : (forall p n, live !! p = Some n <-> block L p n) -> main_in_use st live -> pinned st L.
Proof. intros Hl (p & n & Hp & Hr). exists p, n. split; [by apply Hl | done]. Qed.

Lemma unused_empty st L : mm_ok st L -> main_unused st -> main_empty st L.
Proof.
  intros Hok (c & Hc & Hf).
  assert (Hin : main st ∈ main st :: others L) by left.
  destruct (all_free_no_runs _ _ _ _ _ Hok Hin Hc) as [H _].
  intros s. apply H. by apply Z.eqb_eq.
Qed.

(** When an allocation of [size] bytes cannot lose the main chunk, nor unmap
    what others have mapped at the low addresses that the code releases after
    a refused mapping of a huge block ([spared]). *)
Definition may_alloc st live (size : Z) : Prop :=
  (main_in_use st live /\ spared st size) \/ (main_unused st /\ size <= ZEND_MM_MAX_LARGE_SIZE).

(** The same for the release of the block at [p]. *)
Definition may_free st live (p n : Z) : Prop :=
  main_in_use st (delete p live) \/ ~ (main st <= p < main st + ZEND_MM_CHUNK_SIZE) \/ n <= ZEND_MM_MAX_SMALL_SIZE.

Lemma may_can_alloc st L live size : mm_ok st L -> (forall p n, live !! p = Some n <-> block L p n) ->
  may_alloc st live size -> can_alloc st L size.
Proof.
  intros Hok Hl [[Hu Hs]|[Hu Hs]]; [left; split; [by apply (in_use_pinned st L live) | done] | right; split; [by apply unused_empty | done]].
Qed.

Lemma may_can_free st L live p n : (forall p n, live !! p = Some n <-> block L p n) ->
  may_free st live p n -> can_free st L p n.
Proof.
  intros Hl [(q & m & Hq & Hr)|[?|?]]; [left|by right; left|by right; right].
  apply lookup_delete_Some in Hq as [Hne Hq]. exists q, m. split; [by apply Hl|]. split; [congruence | done].
Qed.

(** ** The operations *)

Lemma alloc_represents st live size :
  represents st live -> 0 <= size < 2 ^ 64 -> may_alloc st live size ->
  outcome (zend_mm_alloc_heap st size) (fun r => let '(p, st') := r in let n := block_size size in
    size <= n /\ live !! p = None /\ represents st' (<[p := n]> live) /\
    (forall q m, live !! q = Some m -> rdisj (p, n) (q, m)) /\ same_contents live st st').
Proof.
  intros (Ha & L & Hok & Hsp & Hh & Hl) Hs Hm. eapply outcome_weaken.
  { apply (alloc_heap_ok st L size Hok Hs). by apply (may_can_alloc st L live). }
  intros [p st'] (L' & n & [Hn En] & Hok' & [B1 B2 B3 B4] & Hf). cbn [fst snd] in *. cbv zeta. rewrite <- En. clear En.
  split; [done|].
  assert (Hdis : forall q m, live !! q = Some m -> rdisj (p, n) (q, m)) by (intros q m Hq; by apply B2, Hl).
  assert (Hnone : live !! p = None).
  { destruct (live !! p) as [m|] eqn:E; [|done]. exfalso. pose proof (Hdis p m E) as Hd. apply Hl in E.
    destruct (owned_range _ _ _ Hok _ _ (proj1 E)) as (_ & ? & _).
    assert (Hb : block L' p n) by (apply B1; by right). destruct (owned_range _ _ _ Hok' _ _ (proj1 Hb)) as (_ & ? & _).
    unfold rdisj in Hd. cbn [fst snd] in Hd. lia. }
  split; [done|]. split; [|split; [done|]].
  - apply (represents_layout st _ L'); [done | apply Hf | apply Hf | done | congruence | congruence|]. intros q m. rewrite B1, <- Hl.
    rewrite lookup_insert_Some. split.
    + intros [[-> ->]|[_ ?]]; [by right | by left].
    + intros [Hq|[-> ->]]; [right | by left]. split; [|done]. intros <-. by rewrite Hnone in Hq.
  - apply (frame_contents _ _ L); [intros q m; apply Hl | done].
Qed.

Lemma free_represents st live p n :
  represents st live -> live !! p = Some n -> may_free st live p n ->
  exists st', zend_mm_free_heap st p = Ok st' /\ represents st' (delete p live) /\ same_contents (delete p live) st st'.
Proof.
  intros (Ha & L & Hok & Hsp & Hh & Hl) Hp Hm. assert (Hb : block L p n) by (by apply Hl).
  destruct (free_heap_ok st L p n Hok Hb) as (st' & Hfree & L' & Hok' & [C1 C2 C3] & Hf); [by apply (may_can_free st L live)|].
  exists st'. split; [done|].
  assert (Hl' : forall q m, delete p live !! q = Some m <-> block L' q m).
  { intros q m. rewrite C1, lookup_delete_Some, Hl. split; intros [? ?]; split; done || congruence. }
  split; [apply (represents_layout st _ L'); [done | apply Hf | apply Hf | done | congruence | congruence | done]|].
  apply (frame_contents _ _ L'); [intros q m; apply Hl' | done].
Qed.

(** C4: [zend_mm_free_heap] succeeds on a block that is handed out, takes
    exactly this block away and leaves the bytes of the others alone, if
    another block stays in the main chunk, or the block does not lie in the
    main chunk, or it is a small one ([may_free]).  The release of the last
    pages in use of the main chunk is excluded: it makes the main chunk a
    cached one ([main_chunk_is_deleted] and [main_chunk_is_lost]). *)
Theorem zend_mm_free_heap_correct st live p n :
  represents st live -> live !! p = Some n -> may_free st live p n ->
  exists st', zend_mm_free_heap st p = Ok st' /\ represents st' (delete p live) /\ same_contents (delete p live) st st'.
Proof. apply free_represents. Qed.

Lemma realloc_represents st live p n size copy_size :
  represents st live -> live !! p = Some n -> 0 <= size <= 2 ^ 64 - REAL_PAGE_SIZE -> 0 <= copy_size <= size ->
  may_alloc st live size -> may_free st live p n ->
  outcome (zend_mm_realloc_heap st p size copy_size) (fun r => let '(q, st') := r in let k := block_size size in
    size <= k /\ (q = p \/ live !! q = None) /\ represents st' (<[q := k]> (delete p live)) /\
    same_contents (delete p live) st st' /\
    (forall i, 0 <= i < Z.min n copy_size -> byte_at (mem st') (q + i) = byte_at (mem st) (p + i))).
Proof.
  intros (Ha & L & Hok & Hsp & Hh & Hl) Hp Hs Hc Hma Hmf. assert (Hb : block L p n) by (by apply Hl).
  eapply outcome_weaken.
  { apply (realloc_heap_ok st L p n size copy_size Hok Hb Hs Hc); [by apply (may_can_alloc st L live) | by apply (may_can_free st L live)]. }
  intros [q st'] (L' & k & [Hk Ek] & [R1 R2 R3 R4 R5 R6 R7 R8 R9]). cbn [fst snd] in *. cbv zeta. rewrite <- Ek. clear Ek. split; [done|].
  assert (Hq : q = p \/ live !! q = None).
  { destruct (decide (q = p)) as [|Hne]; [by left | right]. destruct (live !! q) as [m|] eqn:E; [|done]. exfalso.
    destruct R9 as [?|R9]; [done|]. apply Hl in E. pose proof (R9 q m E) as Hd.
    assert (Hqk : block L' q k) by (apply R2; by right).
    destruct (owned_range _ _ _ Hok _ _ (proj1 E)) as (_ & ? & _). destruct (owned_range _ _ _ R1 _ _ (proj1 Hqk)) as (_ & ? & _).
    unfold rdisj in Hd. cbn [fst snd] in Hd. lia. }
  split; [done|]. split; [|split; [|done]].
  - apply (represents_layout st _ L'); [done..| congruence | congruence|]. intros x m. rewrite R2, <- Hl, lookup_insert_Some, lookup_delete_Some.
    split.
    + intros [[-> ->]|[Hne [Hnp ?]]]; [by right | left; split; congruence].
    + intros [[Hx Hne]|[-> ->]]; [right | by left]. split; [|split; congruence]. intros <-. destruct Hq as [->|Hq]; [done|].
      by rewrite Hq in Hx.
  - intros x m a Hx Hra. apply lookup_delete_Some in Hx as [Hne Hx]. apply (R7 x m a); [by apply Hl | congruence | done].
Qed.

(** The blocks do not overlap, and their bytes are mapped for the heap. *)
Lemma represents_blocks st live :
  represents st live ->
  (forall p n, live !! p = Some n -> 0 < p /\ 0 < n /\ forall a, p <= a < p + n -> mapped (os st) a /\ ~ foreign a) /\
  (forall p n q m, live !! p = Some n -> live !! q = Some m -> p <> q -> rdisj (p, n) (q, m)).
Proof.
  intros (_ & L & Hok & _ & _ & Hl). split.
  - intros p n Hp. apply Hl in Hp as [Ho _]. destruct (owned_range _ _ _ Hok _ _ Ho) as (? & ? & _).
    split; [done|]. split; [done|]. intros a Ha. pose proof (owned_covered _ _ _ _ _ Hok Ho a Ha) as Hc.
    destruct (proj2 (ok_regions _ _ _ Hok) a) as [Hm Hf]. split; [apply Hm; by right | by apply Hf].
  - intros p n q m Hp Hq Hne. apply Hl in Hp, Hq.
    by destruct (owned_apart _ _ _ Hok _ _ _ _ (proj1 Hp) (proj1 Hq)) as [[? _]|].
Qed.

(** The manager keeps nothing in a block: the user may write to it. *)
Lemma write_represents st live p n m' :
  represents st live -> live !! p = Some n -> (forall a, ~ (p <= a < p + n) -> byte_at m' a = byte_at (mem st) a) ->
  represents (set_mem st m') live.
Proof.
  intros (Ha & L & Hok & Hsp & Hh & Hl) Hp Hw. apply (represents_layout st _ L); try done.
  apply (write_block_ok st L p n); [done | by apply Hl | done].
Qed.

(** [zend_mm_size] is the size that the block was handed out with. *)
Theorem zend_mm_size_correct st live p n : represents st live -> live !! p = Some n -> zend_mm_size st p = Ok n.
Proof. intros (_ & L & Hok & _ & _ & Hl) Hp. apply (size_ok st L p n Hok). by apply Hl. Qed.

Lemma gc_represents st live :
  represents st live -> main_in_use st live ->
  exists n st', zend_mm_gc st = Ok (n, st') /\ represents st' live /\ same_contents live st st'.
Proof.
  intros (Ha & L & Hok & Hsp & Hh & Hl) Hu.
  destruct (gc_ok st L Hok) as (st' & L' & Hgc & Hok' & Hg & Hf); [by apply (in_use_pinned st L live)|].
  eexists _, st'. split; [exact Hgc|]. split.
  - apply (represents_layout st _ L'); [done | apply Hf | apply Hf | done | by rewrite (gc_spare _ _ Hg) | by rewrite (gc_held _ _ Hg)|].
    intros p n. by rewrite (gc_block L).
  - apply (frame_contents _ _ L); [intros p n; apply Hl | by apply gc_block_frame].
Qed.

(** C12: [zend_mm_gc] terminates normally on every heap whose main chunk
    is in use, and neither the blocks nor their bytes change. *)
Theorem zend_mm_gc_correct st live :
  represents st live -> main_in_use st live ->
  exists n st', zend_mm_gc st = Ok (n, st') /\ represents st' live /\ same_contents live st st'.
Proof. apply gc_represents. Qed.

(** C10: [zend_mm_gc] frees exactly the runs of a bin whose slots are all
    on the free list of the bin, unless the bin has 512 slots to a run; it
    takes their slots off the lists and returns the number of freed bytes. *)
Theorem zend_mm_gc_exact st L :
  mm_ok st L -> pinned st L ->
  exists st' L', zend_mm_gc st = Ok (u64 ((run_total (runs L) - run_total (runs L')) * ZEND_MM_PAGE_SIZE), st') /\ mm_ok st' L' /\
    (forall ch s r, runs L' !! (ch, s) = Some r <-> runs L !! (ch, s) = Some r /\
       ~ exists b, r = SmallRun b /\ bin_elements b < 512 /\
           forall i, 0 <= i < bin_elements b -> slot_addr ch s b i ∈ slots L b) /\
    (forall b p, p ∈ slots L' b <-> p ∈ slots L b /\ is_slot (runs L') b p) /\ huges L' = huges L.
Proof.
  intros Hok Hpin. destruct (gc_ok st L Hok Hpin) as (st' & L' & Hgc & Hok' & [_ G2 _ G4 G5] & _).
  exists st', L'. split; [exact Hgc|]. split; [done|]. split; [|done]. intros ch s r. rewrite G4.
  assert (E : garbage L ch s r <-> exists b, r = SmallRun b /\ bin_elements b < 512 /\
    forall i, 0 <= i < bin_elements b -> slot_addr ch s b i ∈ slots L b); [|by rewrite E].
  split; intros (b & -> & He & Hall); exists b; (split; [done|]); (split; [done|]).
  - intros i Hi. apply Hall, list_elem_of_fmap. exists i. split; [done|]. apply elem_of_seqZ. lia.
  - intros p Hp. apply list_elem_of_fmap in Hp as (i & -> & Hi). apply elem_of_seqZ in Hi. apply Hall. lia.
Qed.

Lemma init_represents (o : os_state) : (forall a, foreign a <-> mapped o a) ->
  outcome (zend_mm_init o) (fun r => match r with
    | (None, o') => same_mapping o o'
    | (Some st, o') => represents st ∅ /\ main_unused st /\ os st = o'
    end).
Proof.
  intros Hfo. eapply outcome_weaken; [by apply init_ok|]. intros [[st|] o']; [|done]. cbn [fst snd].
  intros (Hok & Hu & Ho & Hh). split; [|done]. apply (represents_layout st st layout0); try done. by apply layout0_blocks.
Qed.
End Spec.

(** [zend_mm_init] maps a chunk and returns a heap that has handed
    out nothing, or leaves the mappings as they were. *)
Theorem zend_mm_init_correct {Sys : OS} {Laws : OSLaws} {Low : LowMemory} (o : os_state) :
  outcome (zend_mm_init o) (fun r => match r with
    | (None, o') => same_mapping o o'
    | (Some st, o') => represents (Rest := mapped o) st ∅ /\ main_unused st /\ os st = o'
    end).
Proof. by apply (init_represents (Rest := mapped o)). Qed.
