(* ===== verification/MmShutdown.v ===== *)
(** * Shutting the memory manager down ([zend_mm_shutdown] of [Zend/zend_alloc.c])

    Huge blocks are given back to the system and all chunks but the first one
    become cached chunks.  A full shutdown gives back every chunk, so that the
    process has mapped what it had before the heap; another one keeps some
    cached chunks and leaves the heap as a new one.  [closing] is what remains
    of the invariant between the two. *)
From S2P Require Export MmSpec.

(** ** The operation *)
Section Operation.
Context {Sys : OS}.
Implicit Types (st : mm).

(** free huge blocks *)
Fixpoint free_huges st (list : Z) (fuel : nat) : res mm :=
  match fuel with
  | O => Err OutOfFuel
  | S fuel =>
      if list =? 0 then Ok st
      else
        let q := list in
        let list := huge_next st list in
        free_huges (zend_mm_chunk_free st (huge_ptr st q) (huge_size st q)) list fuel
  end.

(** move all chunks except of the first one into the cache *)
Fixpoint cache_chunks st (p : Z) (fuel : nat) : res mm :=
  match fuel with
  | O => Err OutOfFuel
  | S fuel =>
      if p =? main_chunk (heap st) then Ok st
      else
        let! c := get_chunk st p in
        let q := c_next c in
        let! st := upd_chunk st p (fun c => set_c_next c (cached_chunks (heap st))) in
        let st := upd_heap st (fun h => set_cached_chunks h p) in
        let st := upd_heap st (fun h => set_chunks_count h (s32 (chunks_count h - 1))) in
        let st := upd_heap st (fun h => set_cached_chunks_count h (s32 (cached_chunks_count h + 1))) in
        cache_chunks st q fuel
  end.

(** [p = heap->cached_chunks; heap->cached_chunks = p->next; zend_mm_chunk_free(p)] *)
Definition drop_cached st : res mm :=
  let p := cached_chunks (heap st) in
  let! c := get_chunk st p in
  Ok (zend_mm_chunk_free (upd_heap st (fun h => set_cached_chunks h (c_next c))) p ZEND_MM_CHUNK_SIZE).

(** free all cached chunks *)
Fixpoint free_cached st (fuel : nat) : res mm :=
  match fuel with
  | O => Err OutOfFuel
  | S fuel =>
      if cached_chunks (heap st) =? 0 then Ok st
      else let! st := drop_cached st in free_cached st fuel
  end.

(** The binary64 number closest to 0.9. *)
Definition dbl_0_9 : spec_float := S754_finite false 8106479329266893 (-53).

(** [(double)heap->cached_chunks_count + 0.9 > heap->avg_chunks_count] *)
Definition too_many_cached (h : zend_mm_heap) : bool :=
  SFltb (avg_chunks_count h) (SFadd 53 1024 (to_double (cached_chunks_count h)) dbl_0_9).

(** free some cached chunks to keep average count *)
Fixpoint trim_cached st (fuel : nat) : res mm :=
  match fuel with
  | O => Err OutOfFuel
  | S fuel =>
      if too_many_cached (heap st) && negb (cached_chunks (heap st) =? 0) then
        let! st := drop_cached st in
        trim_cached (upd_heap st (fun h => set_cached_chunks_count h (s32 (cached_chunks_count h - 1)))) fuel
      else Ok st
  end.

(** clear cached chunks *)
Fixpoint clear_cached st (p : Z) (fuel : nat) : res mm :=
  match fuel with
  | O => Err OutOfFuel
  | S fuel =>
      if p =? 0 then Ok st
      else
        let! c := get_chunk st p in
        let q := c_next c in
        clear_cached (put_chunk st p (set_c_next zero_chunk q)) q fuel
  end.

(** reinitialize the first chunk and heap *)
Definition reinit_heap st : res mm :=
  let p := main_chunk (heap st) in
  let h := set_free_slot (heap st) (replicate 30 0) in
  let! fm := aset (free_map zero_chunk) 0 (Z.shiftl 1 ZEND_MM_FIRST_PAGE - 1) in
  let! pm := aset (page_map zero_chunk) 0 (ZEND_MM_LRUN ZEND_MM_FIRST_PAGE) in
  let c := Chunk (p + heap_slot_offset) p p (ZEND_MM_PAGES - ZEND_MM_FIRST_PAGE) ZEND_MM_FIRST_PAGE 0 fm pm in
  let h := set_peak_chunks_count (set_chunks_count h 1) 1 in
  let h := set_last_chunks_delete_count (set_last_chunks_delete_boundary h 0) 0 in
  let h := set_real_peak (set_real_size h ZEND_MM_CHUNK_SIZE) ZEND_MM_CHUNK_SIZE in
  let h := set_h_size (set_h_peak h 0) 0 in
  Ok (put_chunk (set_heap st h) p c).

(** [heap->avg_chunks_count = (heap->avg_chunks_count + (double)heap->peak_chunks_count) / 2.0] *)
Definition new_average (h : zend_mm_heap) : spec_float :=
  SFdiv 53 1024 (SFadd 53 1024 (avg_chunks_count h) (to_double (peak_chunks_count h))) (to_double 2).

(** There is no heap after a full shutdown. *)
Definition zend_mm_shutdown st (full : bool) : res (option mm * os_state) :=
  let fuel := S (size (chunks st)) in
  let list := huge_list (heap st) in
  let st := upd_heap st (fun h => set_huge_list h 0) in
  let! st := free_huges st list (slots_bound st) in
  let! m := get_chunk st (main_chunk (heap st)) in
  let! st := cache_chunks st (c_next m) fuel in
  if full then
    let! st := free_cached st fuel in
    let st := zend_mm_chunk_free st (main_chunk (heap st)) ZEND_MM_CHUNK_SIZE in
    Ok (None, os st)
  else
    let st := upd_heap st (fun h => set_avg_chunks_count h (new_average h)) in
    let! st := trim_cached st fuel in
    let! st := clear_cached st (cached_chunks (heap st)) fuel in
    let! st := reinit_heap st in
    Ok (Some st, os st).
End Operation.

(** ** What holds between the phases *)
Fixpoint path (next : Z -> option Z) (p : Z) (l : list Z) (e : Z) : Prop :=
  match l with
  | [] => p = e
  | x :: l => p = x /\ exists q, next x = Some q /\ path next q l e
  end.

Lemma path_frame next next' e l : forall p,
  path next p l e -> (forall x, x ∈ l -> next' x = next x) -> path next' p l e.
Proof.
  induction l as [|x l IH]; intros p; [done|]. simpl. intros (-> & q & Hq & Hl) H. split; [done|]. exists q.
  split; [rewrite H by left; done|]. apply IH; [done|]. intros y Hy. apply H. by right.
Qed.

Lemma chain_path nx pv (h : Z) xs : forall a, chain nx pv (a :: xs ++ [h]) -> exists n, nx a = Some n /\ path nx n xs h.
Proof.
  induction xs as [|x xs IH]; intros a Hc.
  - exists h. split; [apply Hc | done].
  - cbn [app] in Hc. apply chain_cons in Hc as [[Hn _] Hc]. exists x. split; [done|].
    destruct (IH x Hc) as (n & ? & ?). split; [done | by exists n].
Qed.

Section Shutdown.
Context {Sys : OS} {Laws : OSLaws} {Rest : Foreign}.
Implicit Types (st : mm).

Definition chunk_ranges (l : list Z) : list (Z * Z) := map (fun ch => (ch, ZEND_MM_CHUNK_SIZE)) l.

(** [rest] is the part of the ring from [p] on that is not cached yet. *)
Record closing st (p : Z) (rest cached : list Z) : Prop := {
  cl_path : path (nexts st) p rest (main st);
  cl_cache : llist (nexts st) (cached_chunks (heap st)) cached;
  cl_chunk x : x ∈ main st :: rest ++ cached -> is_Some (chunks st !! x);
  cl_regions : regions_ok (os st) (chunk_ranges (main st :: rest ++ cached))
}.

Lemma closing_nodup st p rest cached : closing st p rest cached -> NoDup (main st :: rest ++ cached).
Proof. intros Hc. apply pairwise_nodup, (cl_regions _ _ _ _ Hc). Qed.

Lemma closing_pos st p rest cached x : closing st p rest cached -> x ∈ main st :: rest ++ cached -> 0 < x.
Proof.
  intros Hc Hx. destruct (proj1 (cl_regions _ _ _ _ Hc)) as [Hf _]. rewrite Forall_forall in Hf.
  apply (rg_pos _ _ (Hf (x, ZEND_MM_CHUNK_SIZE) ltac:(apply list_elem_of_fmap; by exists x))).
Qed.

(** The fields that the rest of the shutdown does not read do not matter. *)
Lemma closing_heap st f p rest cached : closing st p rest cached ->
  main_chunk (f (heap st)) = main st -> cached_chunks (f (heap st)) = cached_chunks (heap st) ->
  closing (upd_heap st f) p rest cached.
Proof.
  intros [C1 C2 C3 C4] Hm Hcc. assert (Em : main (upd_heap st f) = main st) by done.
  split; rewrite ?Em; try done. cbn [heap upd_heap set_heap]. by rewrite Hcc.
Qed.

(** What the loops over the chunks leave alone. *)
Definition kept (h : zend_mm_heap) := (limit h, huge_list h, overflow h).

(** ** The phases *)
Lemma start_closing cnt st L : mm_ok_with cnt st L -> spare L = [] ->
  mm_ok_with cnt (upd_heap st (fun h => set_huge_list h 0)) (with_huges L [] (map huge_range (huges L) ++ held L)).
Proof.
  intros Hok Hs. pose proof Hok as [Hr Hca Hrg Hch Hru Hcc Hsl Hls Hss Hsn Hhl Hh Hhn].
  split; cbn [others cache spare runs slots huges held with_huges]; try done.
  - intros h Hin. by apply elem_of_nil in Hin.
  - constructor.
Qed.

Lemma free_huges_ok cnt hs : forall st L list fuel, mm_ok_with cnt st L -> huges L = [] -> held L = map huge_range hs ->
  llist (node_next st) list (map node_of hs) ->
  (forall h, h ∈ hs -> load64 (mem st) (node_of h) = fst (huge_range h) /\ load64 (mem st) (node_of h + 8) = snd (huge_range h)) ->
  (length hs < fuel)%nat ->
  exists st', free_huges st list fuel = Ok st' /\ mm_ok_with cnt st' (with_huges L [] []) /\
    heap st' = heap st /\ h_addr st' = h_addr st.
Proof.
  induction hs as [|h hs IH]; intros st L list fuel Hok Hhu Hhe Hl Hn Hf; (destruct fuel as [|fuel]; [lia|]); cbn [free_huges map length] in *.
  - cbn in Hl. subst list. exists st. split; [done|]. split; [|done]. destruct L. cbn in *. by subst.
  - destruct Hl as (-> & Hnz & q & Hq & Hl). destruct (Z.eqb_spec (node_of h) 0) as [|_]; [done|].
    destruct (Hn h) as [E1 E2]; [left|]. injection Hq as Hq. unfold huge_next, huge_ptr, huge_size. rewrite E1, E2, Hq.
    pose proof (ok_release_held cnt st L (fst (huge_range h)) (snd (huge_range h)) (map huge_range hs) Hok) as Hok'.
    rewrite Hhu in Hok'. destruct (IH (zend_mm_chunk_free st (fst (huge_range h)) (snd (huge_range h)))
      (with_huges L [] (map huge_range hs)) q fuel) as (st' & Hr & Hok2 & Hh & Ha); try done.
    + apply Hok'. rewrite Hhe. by destruct (huge_range h).
    + intros g Hg. apply Hn. by right.
    + lia.
    + by exists st'.
Qed.

Lemma ring_closing cnt st L : mm_ok_with cnt st L -> huges L = [] -> held L = [] -> spare L = [] ->
  exists m, get_chunk st (main st) = Ok m /\ closing st (c_next m) (others L) (cache L).
Proof.
  intros Hok Hhu Hhe Hsp. pose proof (ok_regions _ _ _ Hok) as Hrg. unfold regions_of in Hrg.
  rewrite Hhu, Hhe, Hsp, !app_nil_r in Hrg.
  destruct (chain_path _ _ _ _ _ (proj1 (ok_ring _ _ _ Hok))) as (n & Hn & Hp).
  destruct (get_next _ _ _ Hn) as (m & Hg & Hm & <-). exists m. split; [done|]. split; [done | apply (ok_cache _ _ _ Hok) | | exact Hrg].
  intros x. rewrite app_comm_cons, elem_of_app. intros [Hx|Hx].
  - destruct (ok_chunk _ _ _ Hok x Hx) as (c & _ & Hc & _). by exists c.
  - destruct (ok_cached _ _ _ Hok x) as (c & Hc & _); [rewrite Hsp, app_nil_r; done|]. by exists c.
Qed.

(** The first chunk of the rest is cached. *)
Lemma cache_step st p rest cached : closing st p (p :: rest) cached ->
  exists c st', chunks st !! p = Some c /\ upd_chunk st p (fun c => set_c_next c (cached_chunks (heap st))) = Ok st' /\
    heap st' = heap st /\ h_addr st' = h_addr st /\
    closing (upd_heap st' (fun h => set_cached_chunks h p)) (c_next c) rest (p :: cached).
Proof.
  intros Hcl. pose proof (closing_nodup _ _ _ _ Hcl) as Hnd. pose proof Hcl as [(_ & q & Hq & Hp) C2 C3 C4].
  destruct (get_next _ _ _ Hq) as (c & _ & Hc & <-).
  destruct (upd_next_ok st p (cached_chunks (heap st))) as (st' & Hu & Hlo & Hn & _); [by exists c|].
  exists c, st'. split; [done|]. split; [done|]. split; [apply Hlo|]. split; [apply Hlo|].
  apply NoDup_cons in Hnd as [Hmain Hnd]. apply NoDup_cons in Hnd as [Hpn Hnd].
  assert (Hm : main (upd_heap st' (fun h => set_cached_chunks h p)) = main st) by (unfold main; cbn; by rewrite (lo_heap _ _ Hlo)).
  assert (Hne : forall x, x ∈ rest ++ cached -> nexts st' x = nexts st x).
  { intros x Hx. rewrite Hn. destruct (decide (x = p)) as [->|]; done. }
  split; rewrite ?Hm.
  - apply (path_frame (nexts st)); [done|]. intros x Hx. apply Hne, elem_of_app. by left.
  - cbn [llist]. split; [done|]. split; [pose proof (closing_pos _ _ _ _ p Hcl ltac:(right; left)); lia|].
    exists (cached_chunks (heap st)). split; [change (nexts st' p = Some (cached_chunks (heap st))); rewrite Hn; by destruct (decide (p = p))|].
    apply (llist_frame (nexts st)); [done|]. intros x Hx. apply Hne, elem_of_app. by right.
  - intros x Hx. change (is_Some (chunks st' !! x)). apply (links_only_some st); [done|]. apply C3. rewrite !elem_of_cons, !elem_of_app, ?elem_of_cons in *. tauto.
  - cbn [os upd_heap set_heap]. rewrite (lo_os _ _ Hlo). apply (regions_ok_perm _ (chunk_ranges (main st :: (p :: rest) ++ cached))); [|done].
    apply Permutation_map. solve_Permutation.
Qed.

Lemma cache_chunks_ok rest : forall st p cached fuel, closing st p rest cached -> (length rest < fuel)%nat ->
  exists st' cached', cache_chunks st p fuel = Ok st' /\ closing st' (main st') [] cached' /\
    main st' = main st /\ h_addr st' = h_addr st /\ kept (heap st') = kept (heap st) /\
    (length cached' <= length rest + length cached)%nat.
Proof.
  induction rest as [|x rest IH]; intros st p cached fuel Hcl Hf; (destruct fuel as [|fuel]; [cbn in Hf; lia|]); cbn [cache_chunks].
  - pose proof (cl_path _ _ _ _ Hcl) as Hp. cbn in Hp. subst p. fold (main st). rewrite Z.eqb_refl.
    by exists st, cached.
  - pose proof (cl_path _ _ _ _ Hcl) as Hp. cbn [path] in Hp. destruct Hp as [-> _].
    pose proof (closing_nodup _ _ _ _ Hcl) as Hnd. fold (main st). destruct (Z.eqb_spec x (main st)) as [->|_].
    { apply NoDup_cons in Hnd as [Hnd _]. exfalso. apply Hnd. left. }
    destruct (cache_step st x rest cached Hcl) as (c & st1 & Hc & Hu & Hh & Ha & Hcl1).
    rewrite (get_chunk_ok _ _ _ Hc). rsimp. rewrite Hu. rsimp.
    match goal with |- context [cache_chunks ?s _ _] => destruct (IH s (c_next c) (x :: cached) fuel) as (st' & k & Hr & Hk & Em & Ea & El & Hlen) end.
    + by apply closing_heap; [apply closing_heap|..].
    + cbn [length] in Hf. lia.
    + exists st', k. split; [done|]. split; [done|]. unfold main in *. rewrite Em, Ea, El. cbn. unfold kept. cbn. rewrite Hh, Ha.
      do 3 (split; [done|]). cbn [length] in Hlen. lia.
Qed.

(** The first cached chunk is given back. *)
Lemma drop_cached_ok st x k : closing st (main st) [] (x :: k) ->
  exists st', drop_cached st = Ok st' /\ closing st' (main st') [] k /\ main st' = main st /\ h_addr st' = h_addr st /\
    kept (heap st') = kept (heap st).
Proof.
  intros Hcl. pose proof (closing_nodup _ _ _ _ Hcl) as Hnd. pose proof Hcl as [_ (Hx & _ & q & Hq & Hk) C3 C4].
  destruct (get_next _ _ _ Hq) as (c & Hg & Hc & Hcn). unfold drop_cached. rewrite Hx, Hg. rsimp.
  eexists. split; [done|]. split; [|done].
  cbn [app] in Hnd. apply NoDup_cons in Hnd as [Hmain Hnd]. apply NoDup_cons in Hnd as [Hxk Hnd].
  assert (Hkeep : forall y, y ∈ main st :: k -> y <> x).
  { intros y Hy ->. apply elem_of_cons in Hy as [Hy|Hy]; [|done]. apply Hmain. rewrite Hy. left. }
  match goal with |- closing ?s _ _ _ => set (st' := s) end.
  assert (Hch : forall y, y <> x -> chunks st' !! y = chunks st !! y) by (intros y Hy; cbn; by apply lookup_delete_ne).
  split; [done| | |].
  - cbn [cached_chunks st' heap zend_mm_chunk_free set_chunks set_os upd_heap set_heap set_cached_chunks]. rewrite Hcn.
    apply (llist_frame (nexts st)); [done|]. intros y Hy. unfold nexts. rewrite Hch; [done|]. apply Hkeep. by right.
  - cbn [app]. intros y Hy. change (main st') with (main st) in Hy. rewrite Hch by by apply Hkeep. apply C3. cbn [app].
    rewrite !elem_of_cons in *. tauto.
  - apply (regions_unmap (os st) _ (x, ZEND_MM_CHUNK_SIZE)). change (main st') with (main st).
    eapply regions_ok_perm; [|exact C4]. cbn [app chunk_ranges map]. constructor.
Qed.

Lemma empty_cache st p rest cached : closing st p rest cached -> cached_chunks (heap st) = 0 -> cached = [].
Proof. intros [_ Hl _ _] Hz. destruct cached; [done|]. destruct Hl as (? & ? & _). congruence. Qed.

Lemma free_cached_ok k : forall st fuel, closing st (main st) [] k -> (length k < fuel)%nat ->
  exists st', free_cached st fuel = Ok st' /\ closing st' (main st') [] [] /\ main st' = main st.
Proof.
  induction k as [|x k IH]; intros st fuel Hcl Hf; (destruct fuel as [|fuel]; [cbn in Hf; lia|]); cbn [free_cached].
  - pose proof (cl_cache _ _ _ _ Hcl) as Hz. cbn in Hz. rewrite Hz. by exists st.
  - pose proof (cl_cache _ _ _ _ Hcl) as (Hx & Hnz & _). destruct (Z.eqb_spec (cached_chunks (heap st)) 0) as [|_]; [congruence|].
    destruct (drop_cached_ok st x k Hcl) as (st1 & -> & Hcl1 & Hm & _). rsimp.
    destruct (IH st1 fuel Hcl1) as (st' & Hr & Hcl' & Hm'); [cbn [length] in Hf; lia|].
    exists st'. split; [done|]. split; [done | congruence].
Qed.

Lemma trim_cached_ok k : forall st fuel, closing st (main st) [] k -> (length k < fuel)%nat ->
  exists st' k', trim_cached st fuel = Ok st' /\ closing st' (main st') [] k' /\ (length k' <= length k)%nat /\
    main st' = main st /\ h_addr st' = h_addr st /\ kept (heap st') = kept (heap st) /\
    (too_many_cached (heap st') = false \/ k' = []).
Proof.
  induction k as [|x k IH]; intros st fuel Hcl Hf; (destruct fuel as [|fuel]; [cbn in Hf; lia|]); cbn [trim_cached].
  - pose proof (cl_cache _ _ _ _ Hcl) as Hz. cbn in Hz. rewrite Hz, andb_false_r. exists st, []. split; [done|].
    split; [done|]. split; [done|]. split; [done|]. split; [done|]. split; [done | by right].
  - pose proof (cl_cache _ _ _ _ Hcl) as (Hx & Hnz & _). destruct (Z.eqb_spec (cached_chunks (heap st)) 0) as [|_]; [congruence|].
    destruct (too_many_cached (heap st)) eqn:Et; cbn [andb negb].
    + destruct (drop_cached_ok st x k Hcl) as (st1 & -> & Hcl1 & Hm & Ha & Hl). rsimp.
      match goal with |- context [trim_cached ?s _] => destruct (IH s fuel) as (st' & k' & Hr & Hcl' & Hk & Hm' & Ha' & Hl' & Hd) end.
      * by apply closing_heap.
      * cbn [length] in Hf. lia.
      * exists st', k'. split; [done|]. split; [done|]. split; [cbn [length]; lia|]. unfold main, kept in *. cbn in Hm', Ha', Hl'.
        split; [congruence|]. split; [congruence|]. split; [congruence | done].
    + exists st, (x :: k). split; [done|]. split; [done|]. split; [done|]. split; [done|]. split; [done|]. split; [done | by left].
Qed.

Lemma clear_cached_ok k : forall st p fuel, llist (nexts st) p k -> NoDup k -> (length k < fuel)%nat ->
  exists st', clear_cached st p fuel = Ok st' /\ heap st' = heap st /\ h_addr st' = h_addr st /\ os st' = os st /\
    (forall x, x ∉ k -> chunks st' !! x = chunks st !! x) /\
    (forall x, x ∈ k -> exists n, nexts st x = Some n /\ chunks st' !! x = Some (set_c_next zero_chunk n)).
Proof.
  induction k as [|x k IH]; intros st p fuel Hl Hnd Hf; (destruct fuel as [|fuel]; [cbn in Hf; lia|]); cbn [clear_cached].
  - cbn in Hl. subst p. exists st. do 5 (split; [done|]). intros x Hx. by apply elem_of_nil in Hx.
  - destruct Hl as (-> & Hnz & q & Hq & Hl). destruct (Z.eqb_spec x 0) as [|_]; [done|].
    destruct (get_next _ _ _ Hq) as (c & Hg & Hc & <-). rewrite Hg. rsimp. apply NoDup_cons in Hnd as [Hx Hnd].
    set (st1 := put_chunk st x (set_c_next zero_chunk (c_next c))).
    assert (Hch : forall y, y <> x -> chunks st1 !! y = chunks st !! y).
    { intros y Hy. unfold st1. rewrite put_chunk_lookup. by destruct (decide (y = x)). }
    destruct (IH st1 (c_next c) fuel) as (st' & Hr & Hh & Ha & Ho & H1 & H2); [|done | cbn [length] in Hf; lia|].
    { apply (llist_frame (nexts st)); [done|]. intros y Hy. unfold nexts. rewrite Hch; [done|]. by intros ->. }
    exists st'. do 4 (split; [done|]). split.
    + intros y Hy. rewrite elem_of_cons in Hy. rewrite H1 by tauto. apply Hch. tauto.
    + intros y Hy. apply elem_of_cons in Hy as [->|Hy].
      * exists (c_next c). split; [done|]. rewrite H1 by done. unfold st1. by rewrite put_chunk_lookup, decide_True.
      * destruct (H2 y Hy) as (n & Hn & Hcy). exists n. split; [|done]. unfold nexts in *. rewrite Hch in Hn; [done|]. by intros ->.
Qed.

Lemma blank_next c n : blank c -> blank (set_c_next c n).
Proof. intros []. by split. Qed.

(** The heap after a shutdown: nothing is handed out. *)
Definition fresh_layout (k : list Z) : layout := Layout [] k [] ∅ (fun _ => []) [] [].

Lemma reinit_heap_ok st k : closing st (main st) [] k -> heap_in_chunk st -> huge_list (heap st) = 0 ->
  (forall x, x ∈ k -> exists c, chunks st !! x = Some c /\ blank c) ->
  exists st', reinit_heap st = Ok st' /\ mm_ok st' (fresh_layout k) /\ main st' = main st /\ heap_in_chunk st' /\
    main_unused st' /\ os st' = os st /\ kept (heap st') = kept (heap st) /\
    cached_chunks (heap st') = cached_chunks (heap st) /\ too_many_cached (heap st') = too_many_cached (heap st) /\
    h_size (heap st') = 0 /\ real_size (heap st') = ZEND_MM_CHUNK_SIZE.
Proof.
  intros Hcl Hha Hhu Hbl. pose proof (closing_nodup _ _ _ _ Hcl) as Hnd. pose proof Hcl as [_ C2 C3 C4]. cbn [app] in *.
  destruct (init_header zero_chunk zero_blank) as (fm & pm & Hfm & Hpm & _ & Hok).
  unfold reinit_heap. rewrite Hfm. rsimp. rewrite Hpm. rsimp. eexists. split; [done|].
  match goal with |- mm_ok ?s _ /\ _ => set (st' := s) end.
  set (c := Chunk (main st + heap_slot_offset) (main st) (main st) (ZEND_MM_PAGES - ZEND_MM_FIRST_PAGE) ZEND_MM_FIRST_PAGE 0 fm pm).
  assert (Hm : main st' = main st) by done.
  assert (Hlk : chunks st' !! main st = Some c) by (unfold st'; rewrite put_chunk_lookup; by rewrite decide_True).
  assert (Hch : forall y, y ∈ k -> chunks st' !! y = chunks st !! y).
  { intros y Hy. unfold st'. rewrite put_chunk_lookup. change (main_chunk (heap st)) with (main st).
    destruct (decide (y = main st)) as [->|]; [|done]. by apply NoDup_cons in Hnd as [? _]. }
  split; [|split; [done|]; split; [done|]; split; [by exists c | done]].
  split; cbn [others cache spare runs slots huges held fresh_layout]; rewrite ?Hm; try done.
  - split; [|apply NoDup_singleton]. cbn [app]. apply chain_cons. split; [|done]. unfold nexts, prevs. rewrite Hlk. by cbn.
  - apply (llist_frame (nexts st)); [done|]. intros y Hy. unfold nexts. by rewrite Hch.
  - unfold regions_of. cbn [others cache spare huges held fresh_layout app map]. rewrite !app_nil_r. exact C4.
  - intros p Hp. apply elem_of_cons in Hp as [->|Hp]; [|by apply elem_of_nil in Hp].
    exists c, ∅. split; [done|]. split; [symmetry; exact Hha|]. split; [intros s; by rewrite !lookup_empty | apply Hok].
  - intros p Hp. rewrite app_nil_r in Hp. rewrite Hch by done. by apply Hbl.
  - intros b Hb. exists 0. split; [|done]. apply aget_okZ; [lia|]. apply lookup_replicate. split; [done | lia].
  - intros b p Hp. by apply elem_of_nil in Hp.
  - intros b. constructor.
  - intros g Hg. by apply elem_of_nil in Hg.
  - constructor.
Qed.

(** ** The result *)

(** The phases that both kinds of shutdown have in common. *)
Lemma shutdown_start st L : mm_ok st L -> spare L = [] -> held L = [] -> exists st1 m st2 k,
  free_huges (upd_heap st (fun h => set_huge_list h 0)) (huge_list (heap st)) (slots_bound st) = Ok st1 /\
  get_chunk st1 (main_chunk (heap st1)) = Ok m /\ cache_chunks st1 (c_next m) (S (size (chunks st))) = Ok st2 /\
  closing st2 (main st2) [] k /\ main st2 = main st /\ h_addr st2 = h_addr st /\
  kept (heap st2) = (limit (heap st), 0, overflow (heap st)) /\ (length k <= length (others L ++ cache L))%nat /\
  (length (others L ++ cache L) <= size (chunks st))%nat.
Proof.
  intros Hok Hsp Hhe. pose proof Hok as [_ _ _ _ _ _ _ _ _ _ Hhl Hh _].
  pose proof (start_closing _ _ _ Hok Hsp) as Hok0. rewrite Hhe, app_nil_r in Hok0.
  destruct (free_huges_ok _ (huges L) _ _ (huge_list (heap st)) (slots_bound st) Hok0 eq_refl eq_refl Hhl) as (st1 & Hf & Hok1 & Hh1 & Ha1).
  { intros h Hin. destruct (Hh h Hin) as (? & ? & _). done. }
  { by apply (huge_bound _ _ _ Hok). }
  destruct (ring_closing _ _ _ Hok1 eq_refl eq_refl Hsp) as (m & Hg & Hcl).
  assert (Hkeys : (length (others L ++ cache L) <= size (chunks st))%nat).
  { pose proof (chunks_nodup _ _ _ Hok) as Hn. rewrite Hsp, app_nil_r in Hn. apply NoDup_cons in Hn as [_ Hn].
    apply keys_size; [done|]. intros x Hx. apply elem_of_app in Hx as [Hx|Hx].
    - destruct (ok_chunk _ _ _ Hok x) as (c & _ & Hc & _); [by right | by exists c].
    - destruct (ok_cached _ _ _ Hok x) as (c & Hc & _); [apply elem_of_app; by left | by exists c]. }
  destruct (cache_chunks_ok (others L) st1 (c_next m) (cache L) (S (size (chunks st))) Hcl) as (st2 & k & Hc & Hcl2 & Hm2 & Ha2 & Hk2 & Hlen).
  { rewrite length_app in Hkeys. lia. }
  exists st1, m, st2, k. split; [done|]. split; [done|]. split; [done|]. split; [done|].
  unfold main, kept in *. rewrite Hk2, Hm2, Ha2, Hh1, Ha1. do 3 (split; [done|]). split; [|done].
  rewrite length_app. lia.
Qed.

Lemma shutdown_full_ok st L : mm_ok st L -> spare L = [] -> held L = [] ->
  exists o, zend_mm_shutdown st true = Ok (None, o) /\ forall a, mapped o a <-> foreign a.
Proof.
  intros Hok Hsp Hhe. destruct (shutdown_start st L Hok Hsp Hhe) as (st1 & m & st2 & k & Hf & Hg & Hc & Hcl & _ & _ & _ & Hl1 & Hl2).
  unfold zend_mm_shutdown. change (slots_bound (upd_heap st (fun h => set_huge_list h 0))) with (slots_bound st).
  rewrite Hf. rsimp. rewrite Hg. rsimp. rewrite Hc. rsimp.
  destruct (free_cached_ok k st2 (S (size (chunks st))) Hcl) as (st3 & -> & Hcl3 & Hm3); [lia|]. rsimp.
  eexists. split; [done|]. fold (main st3).
  pose proof (regions_unmap (os st3) [] (main st3, ZEND_MM_CHUNK_SIZE) (cl_regions _ _ _ _ Hcl3)) as [_ He].
  intros a. destruct (He a) as [H1 _]. cbn [os set_chunks zend_mm_chunk_free set_os]. cbn [fst snd] in H1. rewrite H1.
  split; [intros [?|(r & Hr & _)]; [done | by apply elem_of_nil in Hr] | by left].
Qed.

Lemma shutdown_reset_ok st L : mm_ok st L -> spare L = [] -> held L = [] -> heap_in_chunk st ->
  exists st' k, zend_mm_shutdown st false = Ok (Some st', os st') /\ mm_ok st' (fresh_layout k) /\ main st' = main st /\
    heap_in_chunk st' /\ main_unused st' /\ limit (heap st') = limit (heap st) /\
    (too_many_cached (heap st') = false \/ k = []) /\ (length k <= length (others L ++ cache L))%nat /\
    h_size (heap st') = 0 /\ real_size (heap st') = ZEND_MM_CHUNK_SIZE.
Proof.
  intros Hok Hsp Hhe Hha. destruct (shutdown_start st L Hok Hsp Hhe) as (st1 & m & st2 & k & Hf & Hg & Hc & Hcl & Hm2 & Ha2 & Hk2 & Hl1 & Hl2).
  unfold zend_mm_shutdown. change (slots_bound (upd_heap st (fun h => set_huge_list h 0))) with (slots_bound st).
  rewrite Hf. rsimp. rewrite Hg. rsimp. rewrite Hc. rsimp.
  set (st3 := upd_heap st2 (fun h => set_avg_chunks_count h (new_average h))).
  assert (Hcl3 : closing st3 (main st3) [] k) by (by apply closing_heap).
  destruct (trim_cached_ok k st3 (S (size (chunks st))) Hcl3) as (st4 & k' & -> & Hcl4 & Hlen & Hm4 & Ha4 & Hk4 & Hd); [lia|]. rsimp.
  pose proof (closing_nodup _ _ _ _ Hcl4) as Hnd. cbn [app] in Hnd. apply NoDup_cons in Hnd as [Hmk Hnd].
  destruct (clear_cached_ok k' st4 (cached_chunks (heap st4)) (S (size (chunks st))) (cl_cache _ _ _ _ Hcl4) Hnd)
    as (st5 & -> & Hh5 & Ha5 & Ho5 & Hout & Hin); [lia|]. rsimp.
  assert (Hm5 : main st5 = main st4) by (unfold main; by rewrite Hh5).
  destruct (reinit_heap_ok st5 k') as (st6 & Hr & Hok6 & Hm6 & Hha6 & Hu6 & Ho6 & Hk6 & Hcc6 & Ht6 & Hs6 & Hr6).
  - rewrite Hm5. pose proof Hcl4 as [_ D2 D3 D4]. split; rewrite ?Hm5, ?Hh5, ?Ho5; try done.
    + apply (llist_frame (nexts st4)); [done|]. intros x Hx. destruct (Hin x Hx) as (n & Hn & Hx'). unfold nexts at 1. rewrite Hx', Hn. done.
    + cbn [app] in *. intros x Hx. destruct (decide (x ∈ k')) as [Hxk|Hxk]; [destruct (Hin x Hxk) as (n & _ & ->); by eexists|].
      rewrite Hout by done. by apply D3.
  - unfold heap_in_chunk, main, kept in *. rewrite Hh5. cbn in Hm4, Ha4. congruence.
  - rewrite Hh5. unfold kept in *. cbn in Hk4. congruence.
  - intros x Hx. destruct (Hin x Hx) as (n & _ & ->). exists (set_c_next zero_chunk n). split; [done | apply blank_next, zero_blank].
  - rewrite Hr. rsimp. exists st6, k'. split; [done|]. split; [done|].
    unfold main, kept in *. cbn in Hm4, Hk4.
    split; [congruence|]. split; [done|]. split; [done|]. split; [congruence|]. split; [|split; [lia | done]].
    destruct Hd as [Hd|Hd]; [left | by right]. by rewrite Ht6, Hh5.
Qed.

Lemma fresh_blocks k (live : gmap Z Z) : (forall p n, live !! p = Some n <-> block (fresh_layout k) p n) <-> live = ∅.
Proof. by apply no_blocks. Qed.

(** A shutdown that is not full always returns: the heap is as
    after [zend_mm_init], with the limit it had and at most as many cached
    chunks as the average of the requests asks for. *)
Theorem zend_mm_shutdown_resets st (live : gmap Z Z) : represents st live ->
  exists st', zend_mm_shutdown st false = Ok (Some st', os st') /\ represents st' ∅ /\ main_unused st' /\
    main st' = main st /\ limit (heap st') = limit (heap st) /\ h_size (heap st') = 0 /\
    (too_many_cached (heap st') = false \/ cached_chunks (heap st') = 0).
Proof.
  intros (Ha & L & Hok & Hsp & Hhe & _).
  destruct (shutdown_reset_ok st L Hok Hsp Hhe Ha) as (st' & k & Hs & Hok' & Hm & Hha & Hu & Hl & Ht & _ & Hz & _).
  exists st'. split; [done|]. split; [split; [done|]; exists (fresh_layout k); do 3 (split; [done|]); by apply fresh_blocks|].
  do 4 (split; [done|]). destruct Ht as [Ht| ->]; [by left | right]. apply (ok_cache _ _ _ Hok').
Qed.
End Shutdown.

(** C14: A full shutdown gives every mapping of the heap back: after
    it the process has mapped what it had mapped when [zend_mm_init] was
    called, whatever has been done with the heap in between. *)
Theorem zend_mm_shutdown_gives_back {Sys : OS} {Laws : OSLaws} (o : os_state) (st : mm) (live : gmap Z Z) :
  represents (Rest := mapped o) st live ->
  exists o', zend_mm_shutdown st true = Ok (None, o') /\ same_mapping o o'.
Proof.
  intros (_ & L & Hok & Hsp & Hhe & _). destruct (shutdown_full_ok (Rest := mapped o) st L Hok Hsp Hhe) as (o' & Hs & Hm).
  exists o'. split; [done|]. intros a. apply Hm.
Qed.
