(* ===== verification/MmApi.v ===== *)
(** * The public functions of the memory manager ([Zend/zend_alloc.c],
    [Zend/zend_alloc.h], [Zend/zend_multiply.h])

    [AG(mm_heap)] is the state.  A request whose size is a constant of the
    program is dispatched at compile time by [ZEND_ALLOCATOR] and
    [ZEND_DEALLOCATOR]; the others go through [_emalloc] and [_efree].  A
    string argument is an address in the memory of the state. *)
From S2P Require Export MmShutdown.

(** ** Products that do not overflow: [mul], [add], [adc] of amd64 *)
Definition zend_safe_address (nmemb size offset : Z) : bool * Z :=
  let low := u64 (nmemb * size) in
  let high := Z.shiftr (nmemb * size) 64 in
  let res := u64 (low + offset) in
  let m_overflow := u64 (high + (if 2 ^ 64 <=? low + offset then 1 else 0)) in
  if negb (m_overflow =? 0) then (true, 0) else (false, res).

Definition zend_safe_address_guarded (nmemb size offset : Z) : res Z :=
  let (overflow, ret) := zend_safe_address nmemb size offset in
  if overflow then Err Overflow else Ok ret.

Section Api.
Context {Sys : OS}.
Implicit Types (st : mm).

(** ** Requests *)
Definition _emalloc st (size : Z) : res (Z * mm) := zend_mm_alloc_heap st size.
Definition _efree st (ptr : Z) : res mm := zend_mm_free_heap st ptr.
Definition _erealloc st (ptr size : Z) : res (Z * mm) := zend_mm_realloc_heap st ptr size size.
Definition _erealloc2 st (ptr size copy_size : Z) : res (Z * mm) := zend_mm_realloc_heap st ptr size copy_size.
Definition _zend_mem_block_size st (ptr : Z) : res Z := zend_mm_size st ptr.

Definition _zend_mm_alloc st (size : Z) : res (Z * mm) := zend_mm_alloc_heap st size.
Definition _zend_mm_free st (ptr : Z) : res mm := zend_mm_free_heap st ptr.
Definition _zend_mm_realloc st (ptr size : Z) : res (Z * mm) := zend_mm_realloc_heap st ptr size size.
Definition _zend_mm_realloc2 st (ptr size copy_size : Z) : res (Z * mm) := zend_mm_realloc_heap st ptr size copy_size.
Definition _zend_mm_block_size st (ptr : Z) : res Z := zend_mm_size st ptr.

(** ** Requests of a constant size *)

(** [_emalloc_8] .. [_emalloc_3072] *)
Definition _emalloc_bin st (num : Z) : res (Z * mm) := zend_mm_alloc_small st num.
Definition _emalloc_large st (size : Z) : res (Z * mm) := zend_mm_alloc_large st size.
Definition _emalloc_huge st (size : Z) : res (Z * mm) := zend_mm_alloc_huge zend_mm_alloc_heap st size.

(** [_ZEND_BIN_ALLOCATOR_SELECTOR_START] over the bins from [num] on *)
Fixpoint select_allocator st (size num : Z) (bins : list (Z * Z * Z)) : res (Z * mm) :=
  match bins with
  | [] => if size <=? ZEND_MM_MAX_LARGE_SIZE then _emalloc_large st size else _emalloc_huge st size
  | (bin_size, _, _) :: bins =>
      if size <=? bin_size then _emalloc_bin st num else select_allocator st size (num + 1) bins
  end.

Definition ZEND_ALLOCATOR st (size : Z) : res (Z * mm) := select_allocator st size 0 ZEND_MM_BINS_INFO.

(** [_efree_8] .. [_efree_3072] *)
Definition _efree_bin st (ptr num : Z) : res mm :=
  let! c := get_chunk st (ZEND_MM_ALIGNED_BASE ptr ZEND_MM_CHUNK_SIZE) in
  if negb (c_heap c =? h_addr st) then Err Panic
  else zend_mm_free_small st ptr num.

Definition _efree_large st (ptr size : Z) : res mm :=
  let page_offset := ZEND_MM_ALIGNED_OFFSET ptr ZEND_MM_CHUNK_SIZE in
  let chunk := ZEND_MM_ALIGNED_BASE ptr ZEND_MM_CHUNK_SIZE in
  let page_num := page_offset / ZEND_MM_PAGE_SIZE in
  let pages_count := ZEND_MM_ALIGNED_SIZE_EX size ZEND_MM_PAGE_SIZE / ZEND_MM_PAGE_SIZE in
  let! c := get_chunk st chunk in
  if negb ((c_heap c =? h_addr st) && (ZEND_MM_ALIGNED_OFFSET page_offset ZEND_MM_PAGE_SIZE =? 0)) then Err Panic
  else zend_mm_free_large st chunk page_num pages_count.

Definition _efree_huge st (ptr : Z) : res mm := zend_mm_free_huge zend_mm_free_heap st ptr.

Fixpoint select_deallocator st (ptr size num : Z) (bins : list (Z * Z * Z)) : res mm :=
  match bins with
  | [] => if size <=? ZEND_MM_MAX_LARGE_SIZE then _efree_large st ptr size else _efree_huge st ptr
  | (bin_size, _, _) :: bins =>
      if size <=? bin_size then _efree_bin st ptr num else select_deallocator st ptr size (num + 1) bins
  end.

Definition ZEND_DEALLOCATOR st (ptr size : Z) : res mm := select_deallocator st ptr size 0 ZEND_MM_BINS_INFO.

(** ** Arrays and strings *)
Definition _safe_emalloc st (nmemb size offset : Z) : res (Z * mm) :=
  let! n := zend_safe_address_guarded nmemb size offset in _emalloc st n.

Definition _safe_erealloc st (ptr nmemb size offset : Z) : res (Z * mm) :=
  let! n := zend_safe_address_guarded nmemb size offset in _erealloc st ptr n.

(** [memset(p, v, n)] *)
Fixpoint memset (m : gmap Z Z) (p v : Z) (n : nat) : gmap Z Z :=
  match n with
  | O => m
  | S n => memset (<[p := v]> m) (p + 1) v n
  end.

Definition _ecalloc st (nmemb size : Z) : res (Z * mm) :=
  let! (p, st) := _safe_emalloc st nmemb size 0 in
  Ok (p, set_mem st (memset (mem st) p 0 (Z.to_nat (u64 (size * nmemb))))).

(** The bytes before the first zero byte. *)
Fixpoint strlen (m : gmap Z Z) (s : Z) (fuel : nat) : res Z :=
  match fuel with
  | O => Err OutOfFuel
  | S fuel => if byte_at m s =? 0 then Ok 0 else let! n := strlen m (s + 1) fuel in Ok (n + 1)
  end.

Definition _estrdup st (s : Z) (fuel : nat) : res (Z * mm) :=
  let! length := strlen (mem st) s fuel in
  if u64 (length + 1) =? 0 then Err Fatal
  else
    let! (p, st) := _emalloc st (u64 (length + 1)) in
    Ok (p, set_mem st (copy_bytes (mem st) p s (Z.to_nat (length + 1)))).

Definition _estrndup st (s length : Z) : res (Z * mm) :=
  if u64 (length + 1) =? 0 then Err Fatal
  else
    let! (p, st) := _emalloc st (u64 (length + 1)) in
    let m := copy_bytes (mem st) p s (Z.to_nat length) in
    Ok (p, set_mem st (<[p + length := 0]> m)).

(** ** Limit and statistics *)
Definition zend_set_memory_limit st (memory_limit : Z) : mm :=
  upd_heap st (fun h => set_limit h (if ZEND_MM_CHUNK_SIZE <=? memory_limit then memory_limit else ZEND_MM_CHUNK_SIZE)).

Definition zend_memory_usage st (real_usage : bool) : Z :=
  if real_usage then real_size (heap st) else h_size (heap st).

Definition zend_memory_peak_usage st (real_usage : bool) : Z :=
  if real_usage then real_peak (heap st) else h_peak (heap st).

Definition shutdown_memory_manager st (full_shutdown : bool) : res (option mm * os_state) :=
  zend_mm_shutdown st full_shutdown.
End Api.

(** ** Overflow *)
Lemma safe_address_spec nmemb size offset :
  0 <= nmemb < 2 ^ 64 -> 0 <= size < 2 ^ 64 -> 0 <= offset < 2 ^ 64 ->
  zend_safe_address nmemb size offset =
    if nmemb * size + offset <? 2 ^ 64 then (false, nmemb * size + offset) else (true, 0).
Proof.
  intros Hn Hs Ho. unfold zend_safe_address. rewrite Z.shiftr_div_pow2 by lia.
  set (p := nmemb * size). assert (Hp : 0 <= p <= (2 ^ 64 - 1) * (2 ^ 64 - 1)) by (subst p; nia).
  pose proof (Z.div_mod p (2 ^ 64) ltac:(lia)) as Hd. pose proof (Z.mod_pos_bound p (2 ^ 64) ltac:(lia)) as Hm.
  change (u64 p) with (p mod 2 ^ 64). set (q := p / 2 ^ 64) in *. set (r := p mod 2 ^ 64) in *.
  assert (Hq : 0 <= q <= 2 ^ 64 - 2) by nia.
  destruct (Z.leb_spec (2 ^ 64) (r + offset)), (Z.ltb_spec (p + offset) (2 ^ 64)).
  - nia.
  - rewrite u64_small by lia. destruct (Z.eqb_spec (q + 1) 0); [lia | done].
  - assert (q = 0) as -> by nia. rewrite !u64_small by lia. cbn [Z.add Z.eqb negb]. f_equal. lia.
  - rewrite (u64_small (q + 0)) by lia. destruct (Z.eqb_spec (q + 0) 0); [|done]. nia.
Qed.

(** ** Bytes *)
Lemma memset_spec n : forall m p v b,
  byte_at (memset m p v n) b = if (p <=? b) && (b <? p + Z.of_nat n) then v else byte_at m b.
Proof.
  induction n as [|n IH]; intros m p v b.
  - cbn [memset]. zcases; simpl; done || lia.
  - cbn [memset]. rewrite IH, byte_at_insert. zcases; simpl; done || lia.
Qed.

Lemma strlen_ok m n : forall s fuel, (forall i, 0 <= i < Z.of_nat n -> byte_at m (s + i) <> 0) -> byte_at m (s + Z.of_nat n) = 0 ->
  (n < fuel)%nat -> strlen m s fuel = Ok (Z.of_nat n).
Proof.
  induction n as [|n IH]; intros s fuel Hn Hz Hf; (destruct fuel as [|fuel]; [lia|]); cbn [strlen].
  - rewrite Z.add_0_r in Hz. by rewrite Hz.
  - pose proof (Hn 0 ltac:(lia)) as H0. rewrite Z.add_0_r in H0. destruct (Z.eqb_spec (byte_at m s) 0); [done|].
    rewrite (IH (s + 1)); [cbn [rbind]; f_equal; lia| | |lia].
    + intros i Hi. replace (s + 1 + i) with (s + (i + 1)) by lia. apply Hn. lia.
    + by replace (s + 1 + Z.of_nat n) with (s + Z.of_nat (S n)) by lia.
Qed.

(** ** The dispatch by size *)
Fixpoint select_bin (size num : Z) (bins : list (Z * Z * Z)) : option Z :=
  match bins with
  | [] => None
  | (bin_size, _, _) :: bins => if size <=? bin_size then Some num else select_bin size (num + 1) bins
  end.

Definition select_check (size : Z) : bool :=
  match select_bin size 0 ZEND_MM_BINS_INFO with Some b => b =? zend_mm_small_size_to_bin size | None => false end.

Lemma select_computed : forallb select_check (map Z.of_nat (seq 0 3073)) = true.
Proof. by vm_compute. Qed.

Lemma select_small size : 0 <= size <= 3072 -> select_bin size 0 ZEND_MM_BINS_INFO = Some (zend_mm_small_size_to_bin size).
Proof.
  intros Hs. pose proof (check_range select_check 0 3073 select_computed size ltac:(lia)) as H. unfold select_check in H.
  destruct (select_bin size 0 ZEND_MM_BINS_INFO); [|done]. f_equal. by apply Z.eqb_eq.
Qed.

Lemma select_bin_large size bins num : Forall (fun b => fst (fst b) <= 3072) bins -> 3072 < size -> select_bin size num bins = None.
Proof.
  intros Hb Hs. revert num. induction Hb as [|[[b e] p] bins Hle Hb IH]; intros num; [done|]. cbn [select_bin].
  cbn in Hle. destruct (Z.leb_spec size b); [lia | apply IH].
Qed.

Lemma select_large size : 3072 < size -> select_bin size 0 ZEND_MM_BINS_INFO = None.
Proof. intros Hs. apply select_bin_large; [|done]. unfold ZEND_MM_BINS_INFO. repeat constructor; cbn; lia. Qed.

Section Dispatch.
Context {Sys : OS}.
Implicit Types (st : mm).

Lemma select_allocator_eq st size bins : forall num, select_allocator st size num bins =
  match select_bin size num bins with
  | Some b => _emalloc_bin st b
  | None => if size <=? ZEND_MM_MAX_LARGE_SIZE then _emalloc_large st size else _emalloc_huge st size
  end.
Proof. induction bins as [|[[b e] p] bins IH]; intros num; [done|]. cbn. destruct (size <=? b); [done | apply IH]. Qed.

Lemma select_deallocator_eq st ptr size bins : forall num, select_deallocator st ptr size num bins =
  match select_bin size num bins with
  | Some b => _efree_bin st ptr b
  | None => if size <=? ZEND_MM_MAX_LARGE_SIZE then _efree_large st ptr size else _efree_huge st ptr
  end.
Proof. induction bins as [|[[b e] p] bins IH]; intros num; [done|]. cbn. destruct (size <=? b); [done | apply IH]. Qed.

(** The allocation of the node does not depend on the depth. *)
Lemma alloc_huge_ext alloc alloc' st size : (forall st, alloc st sizeof_huge_list = alloc' st sizeof_huge_list) ->
  zend_mm_alloc_huge alloc st size = zend_mm_alloc_huge alloc' st size.
Proof.
  intros He. unfold zend_mm_alloc_huge. destruct (check_limit st _) as [st1|]; [|done]. cbn [rbind].
  destruct (zend_mm_chunk_alloc st1 _ _) as [[p st2]|]; [|done]. cbn [rbind].
  destruct (match p with Some _ => _ | None => _ end) as [[q st3]|]; [|done]. cbn [rbind]. by rewrite He.
Qed.

(** A request of a constant size, dispatched at compile time by
    comparisons with the sizes of the bins, is the request of that size. *)
Theorem allocator_agrees st size : 0 <= size -> ZEND_ALLOCATOR st size = _emalloc st size.
Proof.
  intros Hs. unfold ZEND_ALLOCATOR, _emalloc, zend_mm_alloc_heap. rewrite select_allocator_eq. cbn [zend_mm_alloc_heap_rec].
  change ZEND_MM_MAX_SMALL_SIZE with 3072. destruct (Z.leb_spec size 3072).
  - by rewrite select_small.
  - rewrite select_large by done. destruct (size <=? ZEND_MM_MAX_LARGE_SIZE); [done|]. by apply alloc_huge_ext.
Qed.
End Dispatch.

Section Blocks.
Context {Sys : OS} {Laws : OSLaws} {Rest : Foreign}.
Implicit Types (st : mm) (live : gmap Z Z).

(** ** Releasing a block of a constant size *)
Definition same_bin_check (a b : Z) : bool := negb (bin_data_size a =? bin_data_size b) || (a =? b).

Lemma bin_size_inj a b : 0 <= a < 30 -> 0 <= b < 30 -> bin_data_size a = bin_data_size b -> a = b.
Proof.
  intros Ha Hb E. assert (H : same_bin_check a b = true) by (apply (check_range2 same_bin_check 0 30 0 30); [by vm_compute | lia..]).
  unfold same_bin_check in H. apply orb_prop in H as [H|H]; zbool; done.
Qed.

Lemma aligned_offset_run st L ch s r : mm_ok st L -> runs L !! (ch, s) = Some r ->
  ZEND_MM_ALIGNED_OFFSET (ch + s * 4096) ZEND_MM_CHUNK_SIZE = s * 4096 /\ ZEND_MM_ALIGNED_BASE (ch + s * 4096) ZEND_MM_CHUNK_SIZE = ch.
Proof.
  intros Hok Hr. destruct (run_facts _ _ _ Hok _ _ _ Hr) as (_ & _ & _ & _ & _ & _ & _ & Hp & _).
  destruct (run_address _ _ _ _ _ _ (ch + s * 4096) Hok Hr ltac:(lia)) as (Hb & Ho & _). rewrite Hb, Ho. lia.
Qed.

Lemma large_pages size : 3072 < size <= 2093056 ->
  ZEND_MM_ALIGNED_SIZE_EX size ZEND_MM_PAGE_SIZE / ZEND_MM_PAGE_SIZE = ZEND_MM_SIZE_TO_NUM size ZEND_MM_PAGE_SIZE.
Proof.
  intros Hs. destruct (huge_size_cases size ltac:(lia)) as (Hm & Hr & Hc). destruct (size_to_num size Hs) as [Hn Hle].
  change REAL_PAGE_SIZE with ZEND_MM_PAGE_SIZE in *. change ZEND_MM_PAGE_SIZE with 4096 in *.
  set (m := ZEND_MM_ALIGNED_SIZE_EX size 4096) in *. pose proof (Z.div_mod m 4096 ltac:(lia)) as Hd. rewrite Hm in Hd. destruct Hc as [Hc|Hc].
  - exfalso. revert Hc. unfold m, ZEND_MM_ALIGNED_SIZE_EX. change (4096 - 1) with (Z.ones 12).
    rewrite land_not_ones by (apply u64_word || lia). rewrite u64_small by lia. change (2 ^ 12) with 4096.
    pose proof (Z.mod_pos_bound (size + 4096 - 1) 4096 ltac:(lia)). lia.
  - lia.
Qed.

Lemma free_rec_depth st p d : ZEND_MM_ALIGNED_OFFSET p ZEND_MM_CHUNK_SIZE <> 0 ->
  zend_mm_free_heap_rec (S d) st p = zend_mm_free_heap_rec 1 st p.
Proof. intros Hne. cbn [zend_mm_free_heap_rec]. by destruct (Z.eqb_spec (ZEND_MM_ALIGNED_OFFSET p ZEND_MM_CHUNK_SIZE) 0). Qed.

Lemma free_rec_huge st p d : ZEND_MM_ALIGNED_OFFSET p ZEND_MM_CHUNK_SIZE = 0 -> p <> 0 ->
  zend_mm_free_heap_rec (S d) st p = zend_mm_free_huge (zend_mm_free_heap_rec d) st p.
Proof. intros Ho Hp. cbn [zend_mm_free_heap_rec]. rewrite Ho. cbn [Z.eqb]. by destruct (Z.eqb_spec p 0). Qed.

Lemma efree_huge_eq st L node p n : mm_ok st L -> (node, p, n) ∈ huges L -> _efree_huge st p = zend_mm_free_heap st p.
Proof.
  intros Hok Hin. destruct (huge_region _ _ _ Hok _ Hin) as [Hp0 _ Hpa _ _ _]. cbn [huge_range fst snd] in *.
  unfold zend_mm_free_heap at 1. rewrite (free_rec_huge st p 1) by (rewrite ?aligned_offset; lia).
  unfold _efree_huge, zend_mm_free_huge. rewrite aligned_offset, Hpa. cbn [Z.eqb negb].
  destruct (find_huge_node _ _ _ _ _ Hok Hin) as (prev & nd & m1 & m2 & Hfi & E & Hnd0). unfold zend_mm_del_huge_block. rewrite Hfi. rsimp.
  destruct (Z.eqb_spec nd 0) as [|_]; [lia|].
  assert (Hnd : (nd, p, n) ∈ huges L) by (rewrite E; apply elem_of_app; right; left).
  destruct (ok_huge _ _ _ Hok _ Hnd) as (_ & _ & Hs & _). cbn [node_of fst] in Hs.
  destruct (slot_in_range _ _ _ _ _ Hok Hs) as (ch & s & Hr & Hrange).
  destruct (run_address _ _ _ _ _ _ nd Hok Hr Hrange) as (_ & Ho & _ & Hne).
  unfold zend_mm_free_heap. by rewrite (free_rec_depth _ nd 1) by (rewrite Ho; exact Hne).
Qed.

(** Releasing a block of a constant size through
    [ZEND_DEALLOCATOR] is releasing it with [_efree], for a block that a
    request of that size has got. *)
Theorem deallocator_agrees st live p size :
  represents st live -> 0 <= size < 2 ^ 64 -> live !! p = Some (block_size size) ->
  (ZEND_MM_ALIGNED_OFFSET p ZEND_MM_CHUNK_SIZE = 0 -> ZEND_MM_MAX_LARGE_SIZE < size) ->
  ZEND_DEALLOCATOR st p size = _efree st p.
Proof.
  intros (_ & L & Hok & _ & _ & Hl) Hs Hp Hhuge. apply Hl in Hp as [Ho _]. change ZEND_MM_MAX_LARGE_SIZE with 2093056 in Hhuge.
  unfold ZEND_DEALLOCATOR, _efree. rewrite select_deallocator_eq. revert Ho. unfold block_size.
  change ZEND_MM_MAX_SMALL_SIZE with 3072. change ZEND_MM_MAX_LARGE_SIZE with 2093056. change ZEND_MM_PAGE_SIZE with 4096 at 2.
  destruct (Z.leb_spec size 3072) as [Hsm|Hsm].
  - rewrite select_small by lia. destruct (small_bin_spec size) as (Hb & _); [change ZEND_MM_MAX_SMALL_SIZE with 3072; lia|].
    destruct (bin_facts _ Hb) as (Hd & _). set (b := zend_mm_small_size_to_bin size) in *. intros Ho. remember (bin_data_size b) as n eqn:En.
    destruct Ho as [ch s k Hr|b' q Hq Hf|node q k Hin].
    + destruct (run_facts _ _ _ Hok _ _ _ Hr) as (_ & _ & _ & _ & Hw & _). cbn in Hw. lia.
    + assert (b' = b) as -> by (apply bin_size_inj; [by apply (is_slot_bin _ _ _ Hok _ _ Hq) | done | done]).
      unfold zend_mm_free_heap. rewrite (free_rec_small 1 st L q b Hok Hq). unfold _efree_bin.
      destruct (slot_in_range _ _ _ _ _ Hok Hq) as (ch & s & Hr & Hin).
      destruct (run_address _ _ _ _ _ _ q Hok Hr Hin) as (Hba & _). destruct (run_info _ _ _ _ _ q Hok Hr Hin) as (c & Hg & _ & Hh & _).
      rewrite Hba, Hg. rsimp. by rewrite Hh, Z.eqb_refl.
    + destruct (huge_region _ _ _ Hok _ Hin) as [_ Hk _ Hm _ _]. cbn [huge_range fst snd] in *.
      pose proof (Z.div_mod k 4096 ltac:(lia)). nia.
  - rewrite select_large by done. destruct (Z.leb_spec size 2093056) as [Hla|Hla]; intros Ho.
    + destruct (size_to_num size) as [Hn Hle]; [change ZEND_MM_MAX_SMALL_SIZE with 3072; change ZEND_MM_MAX_LARGE_SIZE with 2093056; lia|].
      set (k := ZEND_MM_SIZE_TO_NUM size ZEND_MM_PAGE_SIZE) in *. remember (k * 4096) as n eqn:En.
      destruct Ho as [ch s k' Hr|b' q Hq Hf|node q k' Hin].
      * assert (k' = k) as -> by lia. unfold zend_mm_free_heap. rewrite (free_rec_large 1 st L ch s k Hok Hr). unfold _efree_large.
        destruct (aligned_offset_run _ _ _ _ _ Hok Hr) as [Hof Hba]. rewrite Hof, Hba.
        destruct (run_facts _ _ _ Hok _ _ _ Hr) as (_ & _ & _ & _ & _ & _ & _ & Hp1 & _). cbn [run_pages] in Hp1.
        destruct (run_info _ _ _ _ _ (ch + s * 4096) Hok Hr) as (c & Hg & _ & Hh & _); [cbn [run_pages]; lia|].
        rewrite Hg. rsimp. rewrite Hh, Z.eqb_refl, large_pages, page_offset by lia. fold k.
        change ZEND_MM_PAGE_SIZE with 4096. change (2 ^ 12) with 4096. rewrite Z.mod_mul, Z.div_mul by lia. done.
      * destruct (bin_facts b') as (? & _); [by apply (is_slot_bin _ _ _ Hok _ _ Hq) | lia].
      * destruct (huge_region _ _ _ Hok _ Hin) as [_ _ Ha _ _ _]. cbn [huge_range fst snd] in Ha. rewrite aligned_offset in Hhuge.
        specialize (Hhuge Ha). lia.
    + destruct (huge_size_cases size Hs) as (Hm & Hr & Hc). remember (ZEND_MM_ALIGNED_SIZE_EX size REAL_PAGE_SIZE) as n eqn:En.
      destruct (owned_range _ _ _ Hok _ _ Ho) as (_ & Hn0 & _).
      destruct Ho as [ch s k' Hr'|b' q Hq Hf|node q k' Hin].
      * destruct (run_facts _ _ _ Hok _ _ _ Hr') as (_ & _ & _ & _ & Hw & _). cbn in Hw. change ZEND_MM_PAGES with 512 in Hw. lia.
      * destruct (bin_facts b') as (? & _); [by apply (is_slot_bin _ _ _ Hok _ _ Hq) | lia].
      * by apply (efree_huge_eq st L node q k').
Qed.

End Blocks.
