(* ===== verification/MmTally.v ===== *)
(** * What the page level does to the statistics ([Zend/zend_alloc.c])

    [heap->real_size] counts the chunks and the huge blocks; [heap->size] and
    the limit are left alone by everything up to [zend_mm_alloc_pages].
    [tally T U st]: [real_size] is the bytes of the chunks and [T] bytes of
    huge blocks, which lie in the range [U].  [steady] and [trims] say what an
    operation on pages keeps of it. *)
From S2P Require Export MmApi.

(** ** The tally *)

(** Different integers of a range are no more than its length. *)
Lemma range_length (l : list Z) n : 0 <= n -> NoDup l -> Forall (fun x => 0 <= x < n) l -> Z.of_nat (length l) <= n.
Proof.
  intros H0 Hn Hf. assert (Hs : l ⊆+ seqZ 0 n).
  { apply NoDup_submseteq; [done|]. intros x Hx. rewrite Forall_forall in Hf. apply elem_of_seqZ. specialize (Hf x Hx). lia. }
  apply submseteq_length in Hs. rewrite length_seqZ in Hs. lia.
Qed.

Section Tally.
Context {Sys : OS} {Laws : OSLaws} {Low : LowMemory} (T : Z) (U : Z -> Prop).
Hypothesis (T_range : 0 <= T <= 2 ^ 47) (U_base : forall a, U a -> U (a / 2 ^ 21 * 2 ^ 21)).
Implicit Types (st : mm).

Record tally st : Prop := {
  ty_keys p : p ∈ (dom (chunks st) : gset Z) ->
    0 < p /\ p mod 2 ^ 21 = 0 /\ p + 2 ^ 21 <= 2 ^ 47 /\ mapped (os st) p /\ ~ U p;
  ty_mapped a : U a -> mapped (os st) a;
  ty_real : real_size (heap st) = 2 ^ 21 * Z.of_nat (size (dom (chunks st) : gset Z)) + T
}.

Lemma tally_view st st' : same st st' -> tally st -> tally st'.
Proof using Type.
  unfold same, view. intros [= Hd Ho _ _ _ Hr] [Hk Hm Ht]. split; rewrite ?Hd, ?Ho; [exact Hk | exact Hm | by rewrite Hr].
Qed.

Lemma tally_count st : tally st -> Z.of_nat (size (dom (chunks st) : gset Z)) <= 2 ^ 26.
Proof using Type.
  intros [Hk _ _]. unfold size, set_size, compose. rewrite <- (length_map (fun p => p / 2 ^ 21)). apply range_length; [lia|..].
  - apply NoDup_fmap_2_strong; [|apply NoDup_elements]. intros x y Hx Hy E.
    apply elem_of_elements, Hk in Hx as (_ & Hx & _). apply elem_of_elements, Hk in Hy as (_ & Hy & _).
    pose proof (Z.div_mod x (2 ^ 21)). pose proof (Z.div_mod y (2 ^ 21)). lia.
  - apply Forall_fmap, Forall_forall. intros x Hx. apply elem_of_elements, Hk in Hx as (H0 & Hx & Hb & _). unfold compose.
    pose proof (Z.div_mod x (2 ^ 21)). lia.
Qed.

Lemma tally_real st : tally st -> 0 <= real_size (heap st) <= 2 ^ 48.
Proof using T_range. intros Ht. pose proof (tally_count _ Ht). rewrite (ty_real _ Ht). lia. Qed.

(** The fields of the heap that the page level leaves alone. *)
Definition kept_stats st st' : Prop :=
  h_size (heap st') = h_size (heap st) /\ limit (heap st') = limit (heap st) /\ overflow (heap st') = overflow (heap st).

(** An operation that at most gives chunks back. *)
Definition trims st st' : Prop := tally st ->
  tally st' /\ kept_stats st st' /\ real_size (heap st') <= real_size (heap st) /\ (forall a, mapped (os st') a -> mapped (os st) a).

(** One that may take a chunk, within the limit unless an error is being reported. *)
Definition steady st st' : Prop := tally st ->
  tally st' /\ kept_stats st st' /\ real_size (heap st') <= real_size (heap st) + ZEND_MM_CHUNK_SIZE /\
  (overflow (heap st) = 0 -> real_size (heap st') <= Z.max (real_size (heap st)) (limit (heap st))).

Lemma same_stats st st' : same st st' -> kept_stats st st'.
Proof using Type. unfold same, view. by intros [= _ _ ? ? ? _]. Qed.

Lemma same_trims st st' : same st st' -> trims st st'.
Proof using Type.
  intros Hs Ht. split; [by eapply tally_view|]. split; [by apply same_stats|]. unfold same, view in Hs.
  injection Hs as _ Ho _ _ _ Hr. rewrite Ho, Hr. split; [lia | done].
Qed.

Lemma kept_trans st1 st2 st3 : kept_stats st1 st2 -> kept_stats st2 st3 -> kept_stats st1 st3.
Proof using Type. unfold kept_stats. intros (? & ? & ?) (? & ? & ?). split; [|split]; congruence. Qed.

Lemma trims_trans st1 st2 st3 : trims st1 st2 -> trims st2 st3 -> trims st1 st3.
Proof using Type.
  intros H1 H2 Ht. destruct (H1 Ht) as (Ht2 & K1 & R1 & M1). destruct (H2 Ht2) as (Ht3 & K2 & R2 & M2).
  split; [done|]. split; [by eapply kept_trans|]. split; [lia | auto].
Qed.

Lemma trims_steady st st' : trims st st' -> steady st st'.
Proof using Type. intros H Ht. destruct (H Ht) as (Ht' & K & R & _). split; [done|]. split; [done|]. unfold ZEND_MM_CHUNK_SIZE. lia. Qed.

Lemma steady_after st1 st2 st3 : trims st1 st2 -> steady st2 st3 -> steady st1 st3.
Proof using Type.
  intros H1 H2 Ht. destruct (H1 Ht) as (Ht2 & K1 & R1 & _). destruct (H2 Ht2) as (Ht3 & K2 & B & R2).
  split; [done|]. split; [by eapply kept_trans|]. destruct K1 as (_ & KL & KO). rewrite KL, KO in R2. lia.
Qed.

Lemma steady_before st1 st2 st3 : steady st1 st2 -> trims st2 st3 -> steady st1 st3.
Proof using Type.
  intros H1 H2 Ht. destruct (H1 Ht) as (Ht2 & K1 & B & R1). destruct (H2 Ht2) as (Ht3 & K2 & R2 & _).
  split; [done|]. split; [by eapply kept_trans|]. lia.
Qed.

Lemma same_steady st st' : same st st' -> steady st st'.
Proof using Type. intros H. by apply trims_steady, same_trims. Qed.

(** A chunk is given back. *)
Lemma drop_trims st st' p :
  p ∈ (dom (chunks st) : gset Z) -> (dom (chunks st') : gset Z) = dom (chunks st) ∖ {[p]} ->
  os st' = zend_mm_munmap (os st) p ZEND_MM_CHUNK_SIZE -> kept_stats st st' ->
  real_size (heap st') = u64 (real_size (heap st) - ZEND_MM_CHUNK_SIZE) -> trims st st'.
Proof using T_range U_base.
  clear Low. intros Hp Hd Ho Hk Hr Ht. pose proof (tally_real _ Ht) as Hrr. pose proof (tally_count _ Ht) as Hc. destruct Ht as [Hkeys Hm Hre].
  assert (Hsz : size (dom (chunks st) : gset Z) = S (size (dom (chunks st') : gset Z))).
  { rewrite Hd, (union_difference_L {[p]} (dom (chunks st))) at 1 by set_solver. rewrite size_union, size_singleton by set_solver. done. }
  change ZEND_MM_CHUNK_SIZE with (2 ^ 21) in *. rewrite u64_small in Hr by lia.
  assert (Hun : forall a, mapped (os st') a <-> mapped (os st) a /\ ~ (p <= a < p + 2 ^ 21)).
  { intros a. rewrite Ho. unfold zend_mm_munmap. apply munmap_range. }
  split; [|split; [done|]; split; [lia|]; intros a Ha; by apply Hun].
  destruct (Hkeys p Hp) as (Hp0 & Hpa & _ & _ & HpU). pose proof (Z.div_mod p (2 ^ 21) ltac:(lia)) as Hpd.
  split.
  - intros q Hq. rewrite Hd in Hq. apply elem_of_difference in Hq as [Hq Hne]. rewrite elem_of_singleton in Hne.
    destruct (Hkeys q Hq) as (Hq0 & Hqa & Hqb & Hqm & HqU). do 3 (split; [done|]). split; [|done]. apply Hun. split; [done|].
    pose proof (Z.div_mod q (2 ^ 21) ltac:(lia)). intros Hin. apply Hne. lia.
  - intros a Ha. apply Hun. split; [by apply Hm|]. intros Hin. apply HpU.
    replace p with (a / 2 ^ 21 * 2 ^ 21); [by apply U_base|]. pose proof (Z.div_mod a (2 ^ 21) ltac:(lia)).
    pose proof (Z.mod_pos_bound a (2 ^ 21) ltac:(lia)). lia.
  - rewrite Hr, Hre, Hsz. lia.
Qed.

Lemma count_deletion_stats h : h_size (count_deletion h) = h_size h /\ limit (count_deletion h) = limit h /\
  overflow (count_deletion h) = overflow h /\ real_size (count_deletion h) = real_size h.
Proof using Type. unfold count_deletion. by destruct (negb _). Qed.

Lemma delete_chunk_trims st p st' : zend_mm_delete_chunk st p = Ok st' -> trims st st'.
Proof using T_range U_base.
  unfold zend_mm_delete_chunk. intros H. apply rbind_inv in H as (st1 & Hu & H).
  assert (Hp : p ∈ (dom (chunks st1) : gset Z)).
  { pose proof (unlink_chunk_same _ _ _ Hu) as Hs. unfold same, view in Hs. injection Hs as -> _ _ _ _ _.
    unfold unlink_chunk in Hu. apply rbind_inv in Hu as (c & Hc & _). apply get_chunk_dom in Hc. by apply elem_of_dom_2 in Hc. }
  apply unlink_chunk_same in Hu. apply (trims_trans _ st1); [by apply same_trims|]. clear Hu.
  destruct (delay_deletion _); [apply same_trims; sames|]. destruct (_ =? 0) eqn:Ec.
  - injection H as <-. destruct (count_deletion_stats
      (set_real_size (set_chunks_count (heap st1) (s32 (chunks_count (heap st1) - 1))) (u64 (real_size (heap st1) - ZEND_MM_CHUNK_SIZE))))
      as (E1 & E2 & E3 & E4). apply (drop_trims st1 _ p Hp); cbn; rewrite ?dom_delete_L; [done | done | | done].
    split; [|split]; done.
  - apply rbind_inv in H as (c & Hc & H). apply rbind_inv in H as (k & Hk & H). destruct (_ <? _).
    + injection H as <-. apply (drop_trims st1 _ p Hp); cbn; rewrite ?dom_delete_L; done.
    + apply rbind_inv in H as (st2 & H2 & H). injection H as <-. apply upd_chunk_same in H2. unfold same, view in H2. cbn in H2.
      injection H2 as Hd Ho E1 E2 E3 E4. apply get_chunk_dom, elem_of_dom_2 in Hk. cbn in Hk.
      apply (drop_trims st1 _ (cached_chunks (heap st1)) Hk); cbn; rewrite ?dom_delete_L, ?Hd, ?Ho; done.
Qed.

Lemma free_pages_trims st c p n b st' : zend_mm_free_pages_ex st c p n b = Ok st' -> trims st st'.
Proof using T_range U_base.
  unfold zend_mm_free_pages_ex. intros H. inv_bind. pose proof (reput_same st c a0 _ Ha) as Hs.
  destruct (b && _); [|inv_bind; by apply same_trims]. apply delete_chunk_trims in H. eapply trims_trans; [by apply same_trims | done].
Qed.

Lemma gc_chunk_trims fuel : forall st c i n n' st', gc_chunk st c i n fuel = Ok (n', st') -> trims st st'.
Proof using T_range U_base.
  induction fuel as [|fuel IH]; intros st c i n n' st' H; [done|]. cbn [gc_chunk] in H. inv_bind.
  destruct (i <? _); [|inv_bind; by apply same_trims]. inv_bind. destruct a0; [|by apply IH in H]. inv_bind.
  destruct (info_has _ _); [|by apply IH in H]. destruct (_ =? _); inv_bind.
  - apply free_pages_trims in Ha2. apply IH in H. by eapply trims_trans.
  - apply IH in H. eapply trims_trans; [|exact H]. apply same_trims. by eapply reput_same.
Qed.

Lemma gc_chunks_trims fuel : forall st c n k n' st', gc_chunks st c n k fuel = Ok (n', st') -> trims st st'.
Proof using T_range U_base.
  induction fuel as [|fuel IH]; intros st c n k n' st' H; [done|]. cbn [gc_chunks] in H. inv_bind.
  destruct a as [m st1]. apply gc_chunk_trims in Ha. inv_bind.
  assert (Hs : trims st1 a0) by (destruct (_ =? _); [by apply delete_chunk_trims in Ha1 | inv_bind; by apply same_trims]).
  assert (Hs0 : trims st a0) by (by eapply trims_trans).
  destruct (negb _); [apply IH in H; by eapply trims_trans | by inv_bind].
Qed.

Lemma gc_trims st n st' : zend_mm_gc st = Ok (n, st') -> trims st st'.
Proof using T_range U_base.
  unfold zend_mm_gc. intros H. inv_bind. destruct a0 as [m st1]. apply gc_bins_same in Ha. apply gc_chunks_trims in Ha0.
  inv_bind. eapply trims_trans; [by apply same_trims | done].
Qed.

(** ** Taking a chunk *)
Lemma remap_trims st o : same_mapping (os st) o -> trims st (set_os st o).
Proof using Type.
  intros Hm Ht. destruct Ht as [Hk HU Hr]. split; [|split; [done|]; split; [cbn; lia | intros a; apply Hm]].
  split; [|intros a Ha; by apply Hm, HU | done]. intros p Hp. cbn in Hp. destruct (Hk p Hp) as (? & ? & ? & Hmp & ?).
  do 3 (split; [done|]). split; [by apply Hm | done].
Qed.

Lemma new_steady st o x : new_mapping (os st) o x ZEND_MM_CHUNK_SIZE -> x mod 2 ^ 21 = 0 ->
  (overflow (heap st) = 0 -> real_size (heap st) + ZEND_MM_CHUNK_SIZE <= limit (heap st)) ->
  steady st (upd_heap (put_chunk (set_os st o) x zero_chunk) (add_real_size ZEND_MM_CHUNK_SIZE)).
Proof using T_range U_base.
  clear Low. intros [Hx0 Hxe Hfr Hma] Hxa Hl Ht. pose proof (tally_real _ Ht) as Hrr. destruct Ht as [Hk HU Hr].
  change ZEND_MM_CHUNK_SIZE with (2 ^ 21) in *. unfold ADDRESS_SPACE in Hxe.
  assert (Hnx : ~ mapped (os st) x) by (apply Hfr; lia).
  assert (Hnd : x ∉ (dom (chunks st) : gset Z)) by (intros Hin; by destruct (Hk x Hin) as (_ & _ & _ & ? & _)).
  assert (Hu : u64 (real_size (heap st) + 2 ^ 21) = real_size (heap st) + 2 ^ 21) by (apply u64_small; lia).
  split; [|split; [done|]; cbn; rewrite Hu; lia]. split.
  - intros p Hp. cbn in Hp. rewrite dom_insert_L in Hp. apply elem_of_union in Hp as [Hp|Hp].
    + apply elem_of_singleton in Hp as ->. do 3 (split; [done|]). split; [apply Hma; right; lia|]. intros HUx. by apply Hnx, HU.
    + destruct (Hk p Hp) as (? & ? & ? & ? & ?). do 3 (split; [done|]). split; [apply Hma; by left | done].
  - intros a Ha. apply Hma. left. by apply HU.
  - cbn. rewrite Hu, Hr, dom_insert_L, size_union, size_singleton by set_solver. lia.
Qed.

Lemma chunk_alloc_cases st r st' : zend_mm_chunk_alloc st ZEND_MM_CHUNK_SIZE ZEND_MM_CHUNK_SIZE = Ok (r, st') ->
  exists o, st' = set_os st o /\
    match r with
    | None => same_mapping (os st) o
    | Some p => p mod 2 ^ 21 = 0 /\ new_mapping (os st) o p ZEND_MM_CHUNK_SIZE
    end.
Proof using Low.
  clear T_range. intros H. assert (Ho := chunk_request_ok st).
  rewrite H in Ho. destruct Ho as (o & E & Hr). cbn [fst snd] in *. exists o. split; [done|]. destruct r; tauto.
Qed.

(** The limit has been dealt with: there is room, pages have been freed, or an
    error is being reported. *)
Lemma limit_trims st n b st' : 0 <= n < 2 ^ 63 ->
  (if limit (heap st) <? u64 (real_size (heap st) + n) then
    let! (collected, st) := zend_mm_gc st in
    if negb (collected =? 0) then Ok (true, st) else if overflow (heap st) =? 0 then Err Fatal else Ok (false, st)
   else Ok (false, st)) = Ok (b, st') ->
  trims st st' /\ (tally st -> b = false -> overflow (heap st') = 0 -> real_size (heap st') + n <= limit (heap st')).
Proof using T_range U_base.
  intros Hn. destruct (Z.ltb_spec (limit (heap st)) (u64 (real_size (heap st) + n))) as [Hl|Hl]; intros H; inv_bind.
  - destruct a as [k st1]. apply gc_trims in Ha. destruct (negb _); [by inv_bind|]. destruct (Z.eqb_spec (overflow (heap st1)) 0); [done|].
    inv_bind. done.
  - split; [by apply same_trims|]. intros Ht _ _. pose proof (tally_real _ Ht). rewrite u64_small in Hl by lia. lia.
Qed.

Lemma new_chunk_steady st r st' : new_chunk st = Ok (r, st') ->
  match r with Some _ => steady st st' | None => trims st st' end.
Proof using Low T_range U_base.
  unfold new_chunk. intros H. apply rbind_inv in H as ([retry st1] & Ha & H).
  apply limit_trims in Ha as (Ht1 & Hroom); [|unfold ZEND_MM_CHUNK_SIZE; lia].
  destruct retry; [by inv_bind|].
  apply rbind_inv in H as ([x st2] & Hb & H). apply chunk_alloc_cases in Hb as (o & -> & Hx).
  apply rbind_inv in H as ([y st3] & Hc & H). injection H as <- <-. intros Ht. specialize (Hroom Ht eq_refl). destruct x as [x|].
  - destruct Hx as (Hxa & Hnew). injection Hc as <- <-.
    by apply (steady_after st st1); [| apply new_steady |].
  - apply rbind_inv in Hc as ([k st4] & Hg & Hc). apply gc_trims in Hg. destruct (negb _); [|done].
    apply rbind_inv in Hc as ([z st5] & Hd & Hc). apply chunk_alloc_cases in Hd as (o' & -> & Hz). destruct z as [z|]; [|done].
    injection Hc as <- <-. destruct Hz as (Hza & Hnew).
    assert (Ht4 : trims st1 st4) by (eapply trims_trans; [by apply remap_trims | done]).
    destruct (Ht1 Ht) as (Htal1 & _ & _). destruct (Ht4 Htal1) as (_ & (_ & El & Eo) & Hr4 & _).
    apply (steady_after st st4); [by eapply trims_trans | | done]. apply new_steady; [done | done|].
    rewrite Eo, El. intros H0. specialize (Hroom H0). lia.
Qed.

Lemma take_chunk_steady fuel : forall st c st', take_chunk st fuel = Ok (c, st') -> steady st st'.
Proof using Low T_range U_base.
  induction fuel as [|fuel IH]; intros st c st' H; [done|]. cbn [take_chunk] in H. destruct (negb _); inv_bind.
  - by apply same_steady.
  - destruct a as [[p|] st1]; apply new_chunk_steady in Ha; [by inv_bind|]. apply IH in H. by eapply steady_after.
Qed.

Lemma alloc_pages_steady st n p st' : zend_mm_alloc_pages st n = Ok (p, st') -> steady st st'.
Proof using Low T_range U_base.
  unfold zend_mm_alloc_pages. intros H. inv_bind. destruct a as [[hit steps] st1]. apply find_pages_same in Ha.
  inv_bind. destruct a as [[chunk page] st2].
  assert (Hs : steady st1 st2).
  { clear H. destruct hit as [[c0 p0]|]; inv_bind; [by apply same_steady|]. destruct a as [c1 st3].
    apply take_chunk_steady in Ha1. inv_bind. apply chunk_init_same in Ha2. eapply steady_before; [exact Ha1|].
    apply same_trims. unfold same, view in *. cbn in Ha2. destruct (_ <? _) in Ha2; exact Ha2. }
  inv_bind. assert (Hs3 : same st2 a) by (destruct (_ && _); [by apply move_to_front_same in Ha1 | by inv_bind]).
  eapply steady_after; [by apply same_trims|]. eapply steady_before; [done|]. apply same_trims.
  eapply same_trans; [done|]. by eapply reput_same.
Qed.
End Tally.
