(* ===== verification/MmUsage.v ===== *)
(** * Memory usage ([zend_memory_usage], the memory limit)

    [accounted st live]: [heap->real_size] is exactly the bytes of the chunks
    and of the huge blocks, and [heap->size] the bytes handed out, the list
    nodes of huge blocks included.  Every request keeps this, and takes memory
    beyond the limit for at most the chunk of such a node. *)
From S2P Require Export MmTally.

(** ** Sums over a map of blocks *)
Definition total (f : Z -> Z -> Z) (m : gmap Z Z) : Z := map_fold (fun p n acc => f p n + acc) 0 m.

Lemma total_empty f : total f ∅ = 0.
Proof. apply map_fold_empty. Qed.

Lemma total_add f m p n : m !! p = None -> total f (<[p := n]> m) = f p n + total f m.
Proof. intros H. unfold total. apply (map_fold_insert_L (fun p n acc => f p n + acc)); [lia | done]. Qed.

Lemma total_delete f m p n : m !! p = Some n -> total f m = f p n + total f (delete p m).
Proof. intros H. unfold total. apply (map_fold_delete_L (fun p n acc => f p n + acc)); [lia | done]. Qed.

Lemma total_replace f m p n n' : m !! p = Some n -> total f (<[p := n']> m) = total f m - f p n + f p n'.
Proof.
  intros H. rewrite <- insert_delete_eq, (total_add f (delete p m)) by apply lookup_delete_eq.
  rewrite (total_delete f m p n) by done. lia.
Qed.

Lemma total_le f g m : (forall p n, m !! p = Some n -> f p n <= g p n) -> total f m <= total g m.
Proof.
  induction m as [|p n m Hp IH] using map_ind; intros H; [rewrite !total_empty; lia|].
  rewrite !total_add by done. pose proof (H p n (lookup_insert_eq _ _ _)).
  enough (total f m <= total g m) by lia. apply IH. intros q k Hq. apply H. rewrite lookup_insert_ne; [done|]. congruence.
Qed.

(** Disjoint ranges are no longer than what holds them: count the ranges below
    [a], point by point. *)
Definition below (a p n : Z) : Z := Z.max 0 (Z.min (p + n) a - p).

Lemma total_below m a : (forall p n q k, m !! p = Some n -> m !! q = Some k -> p <> q -> rdisj (p, n) (q, k)) ->
  total (below (a + 1)) m <= total (below a) m + 1 /\
  ((forall p n, m !! p = Some n -> ~ (p <= a < p + n)) -> total (below (a + 1)) m <= total (below a) m).
Proof.
  induction m as [|p n m Hp IH] using map_ind; intros Hd; [rewrite !total_empty; lia|].
  assert (Hd' : forall p n q k, m !! p = Some n -> m !! q = Some k -> p <> q -> rdisj (p, n) (q, k)).
  { intros q k q' k' Hq Hq' Hne. apply Hd; [rewrite lookup_insert_ne; [done | congruence]..|done]. }
  destruct (IH Hd') as [I1 I2]. rewrite !total_add by done.
  assert (Hb : below (a + 1) p n <= below a p n + 1 /\ (~ (p <= a < p + n) -> below (a + 1) p n <= below a p n)) by (unfold below; lia).
  destruct Hb as [Hb1 Hb2]. split.
  - destruct (decide (p <= a < p + n)) as [Hin|Hout].
    + assert (total (below (a + 1)) m <= total (below a) m); [|lia]. apply I2. intros q k Hq Hin'.
      assert (Hne : p <> q) by congruence. assert (Hr : rdisj (p, n) (q, k)).
      { apply Hd; [apply lookup_insert_eq | by rewrite lookup_insert_ne | done]. }
      unfold rdisj in Hr. cbn [fst snd] in Hr. lia.
    + specialize (Hb2 Hout). lia.
  - intros Hno. pose proof (Hno p n (lookup_insert_eq _ _ _)) as Hnp. specialize (Hb2 Hnp).
    assert (total (below (a + 1)) m <= total (below a) m); [|lia]. apply I2. intros q k Hq. apply Hno.
    rewrite lookup_insert_ne; [done | congruence].
Qed.

Lemma disjoint_total m A : 0 <= A -> (forall p n, m !! p = Some n -> 0 <= p /\ 0 <= n /\ p + n <= A) ->
  (forall p n q k, m !! p = Some n -> m !! q = Some k -> p <> q -> rdisj (p, n) (q, k)) ->
  total (fun _ n => n) m <= A.
Proof.
  intros HA Hb Hd. assert (H : forall a, 0 <= a -> total (below a) m <= a).
  { apply natlike_ind; [|intros a Ha IH; destruct (total_below m a Hd) as [H _]; rewrite <- Z.add_1_r; lia].
    transitivity (total (fun _ _ => 0) m); [apply total_le; intros p n Hp; destruct (Hb p n Hp); unfold below; lia|].
    clear. induction m as [|p n m Hp IH] using map_ind; [by rewrite total_empty|]. rewrite total_add by done. lia. }
  specialize (H A HA). enough (total (fun _ n => n) m <= total (below A) m) by lia. apply total_le. intros p n Hp.
  destruct (Hb p n Hp) as (? & ? & ?). unfold below. lia.
Qed.

(** ** Small and large blocks *)
Section Requests.
Context {Sys : OS} {Laws : OSLaws} {Low : LowMemory} (T : Z) (U : Z -> Prop).
Hypothesis (T_range : 0 <= T <= 2 ^ 47) (U_base : forall a, U a -> U (a / 2 ^ 21 * 2 ^ 21)).
Implicit Types (st : mm).

(** The statistics after an operation that adds [k] to [heap->size]. *)
Definition moved (k : Z) st st' : Prop :=
  h_size (heap st') = u64 (h_size (heap st) + k) /\ limit (heap st') = limit (heap st) /\
  overflow (heap st') = overflow (heap st).

Definition spends (k : Z) st st' : Prop := tally T U st ->
  tally T U st' /\ moved k st st' /\ real_size (heap st') <= real_size (heap st) + ZEND_MM_CHUNK_SIZE /\
  (overflow (heap st) = 0 -> real_size (heap st') <= Z.max (real_size (heap st)) (limit (heap st))).

Definition gives (k : Z) st st' : Prop := tally T U st ->
  tally T U st' /\ moved (- k) st st' /\ real_size (heap st') <= real_size (heap st).

(** A change of [heap->size] only. *)
Lemma resize_tally st f : (forall h, real_size (f h) = real_size h) -> tally T U st <-> tally T U (upd_heap st f).
Proof using Type. intros Hf. split; intros [Hk Hm Hr]; (split; [exact Hk | exact Hm|]); cbn in *; rewrite Hf in *; exact Hr. Qed.

Definition adds (k : Z) (f : zend_mm_heap -> zend_mm_heap) : Prop := forall h,
  real_size (f h) = real_size h /\ h_size (f h) = u64 (h_size h + k) /\ limit (f h) = limit h /\ overflow (f h) = overflow h.

Lemma add_size_adds k : adds k (add_size k).
Proof using Type. done. Qed.

Lemma sub_size_adds k : adds (- k) (sub_size k).
Proof using Type. done. Qed.

Lemma steady_spends k f st st' : adds k f -> steady T U (upd_heap st f) st' -> spends k st st'.
Proof using Type.
  intros Hf Hs Ht. destruct (Hf (heap st)) as (Hr & Hh & Hl & Ho).
  destruct Hs as (Ht' & (K1 & K2 & K3) & B & M); [by apply resize_tally; [intros h; apply Hf|]|].
  cbn [heap upd_heap set_heap] in *. rewrite Hr, Hh, Hl, Ho in *. done.
Qed.

Lemma spends_steady k f st st' : adds k f -> steady T U st st' -> spends k st (upd_heap st' f).
Proof using Type.
  intros Hf Hs Ht. destruct (Hs Ht) as (Ht' & (K1 & K2 & K3) & B & M). destruct (Hf (heap st')) as (Hr & Hh & Hl & Ho).
  split; [by apply resize_tally; [intros h; apply Hf|]|]. cbn [heap upd_heap set_heap]. rewrite Hr. split; [|done].
  unfold moved. cbn [heap upd_heap set_heap]. rewrite Hh, Hl, Ho, K1. done.
Qed.

Lemma trims_gives k f st st' : adds (- k) f -> trims T U (upd_heap st f) st' -> gives k st st'.
Proof using Type.
  intros Hf Hs Ht. destruct (Hf (heap st)) as (Hr & Hh & Hl & Ho).
  destruct Hs as (Ht' & (K1 & K2 & K3) & R & M); [by apply resize_tally; [intros h; apply Hf|]|].
  cbn [heap upd_heap set_heap] in *. rewrite Hr, Hh, Hl, Ho in *. done.
Qed.

Lemma alloc_small_slow_steady st b p st' : zend_mm_alloc_small_slow st b = Ok (p, st') -> steady T U st st'.
Proof using Low T_range U_base.
  unfold zend_mm_alloc_small_slow. intros H. inv_bind. destruct a as [bin st1]. apply (alloc_pages_steady T U) in Ha; [|done..].
  inv_bind. eapply steady_before; [done|]. apply same_trims. eapply same_trans; [by eapply reput_same|].
  apply set_link_same in Ha2. eapply same_trans; [exact Ha2 | done].
Qed.

Lemma alloc_small_spends st b p st' : zend_mm_alloc_small st b = Ok (p, st') -> spends (bin_data_size b) st st'.
Proof using Low T_range U_base.
  unfold zend_mm_alloc_small. intros H. apply (steady_spends _ (add_size (bin_data_size b))); [apply add_size_adds|].
  inv_bind. destruct (negb _); inv_bind.
  - apply set_link_same in Ha0. by apply same_steady.
  - by apply alloc_small_slow_steady in H.
Qed.

Lemma alloc_large_spends st n p st' : zend_mm_alloc_large st n = Ok (p, st') ->
  spends (ZEND_MM_SIZE_TO_NUM n ZEND_MM_PAGE_SIZE * ZEND_MM_PAGE_SIZE) st st'.
Proof using Low T_range U_base.
  unfold zend_mm_alloc_large. intros H. inv_bind. destruct a as [q st1]. apply (alloc_pages_steady T U) in Ha; [|done..]. inv_bind.
  apply spends_steady; [apply add_size_adds | done].
Qed.

Lemma free_small_gives st p b st' : zend_mm_free_small st p b = Ok st' -> gives (bin_data_size b) st st'.
Proof using Type.
  unfold zend_mm_free_small. intros H. inv_bind. apply (trims_gives _ (sub_size (bin_data_size b))); [apply sub_size_adds|].
  apply same_trims. apply set_link_same in H. done.
Qed.

Lemma free_large_gives st c p n st' : zend_mm_free_large st c p n = Ok st' -> gives (n * ZEND_MM_PAGE_SIZE) st st'.
Proof using T_range U_base.
  unfold zend_mm_free_large, zend_mm_free_pages. intros H. apply (free_pages_trims T U) in H; [|done..].
  eapply trims_gives; [|exact H]. by intros h.
Qed.

Lemma check_limit_trims st n st' : 0 <= n -> check_limit st n = Ok st' ->
  trims T U st st' /\
  (n < 2 ^ 63 -> tally T U st -> overflow (heap st') = 0 -> real_size (heap st') + n <= limit (heap st')).
Proof using T_range U_base.
  intros Hn. unfold check_limit. destruct (Z.ltb_spec (limit (heap st)) (u64 (real_size (heap st) + n))) as [Hl|Hl]; intros H; inv_bind.
  - destruct a as [k st1]. apply (gc_trims T U) in Ha; [|done..]. destruct (_ && _) eqn:E.
    + inv_bind. split; [done|]. intros Hn63 Ht _. apply andb_prop in E as [_ E]. apply Z.leb_le in E.
      destruct (Ha Ht) as (Ht' & _). pose proof (tally_real T U T_range _ Ht'). rewrite u64_small in E by lia. done.
    + destruct (Z.eqb_spec (overflow (heap st1)) 0); [done|]. by inv_bind.
  - split; [by apply same_trims|]. intros Hn63 Ht _. pose proof (tally_real T U T_range _ Ht). rewrite u64_small in Hl by lia. done.
Qed.
End Requests.

(** ** Huge blocks *)
Section Huge.
Context {Sys : OS} {Laws : OSLaws} {Low : LowMemory} (T : Z) (U : Z -> Prop).
Hypothesis (T_range : 0 <= T <= 2 ^ 47) (U_base : forall a, U a -> U (a / 2 ^ 21 * 2 ^ 21)).
Implicit Types (st : mm).

(** The range of a huge block is added. *)
Definition plus (p n : Z) (a : Z) : Prop := U a \/ p <= a < p + n.

Lemma plus_base p n a : p mod 2 ^ 21 = 0 -> plus p n a -> plus p n (a / 2 ^ 21 * 2 ^ 21).
Proof using U_base.
  intros Hp [Ha|Ha]; [left; by apply U_base | right]. pose proof (Z.div_mod p (2 ^ 21)). pose proof (Z.div_mod a (2 ^ 21)).
  pose proof (Z.mod_pos_bound a (2 ^ 21)). lia.
Qed.

Lemma tally_map st o p n : tally T U st -> new_mapping (os st) o p n -> tally T (plus p n) (set_os st o).
Proof using Type.
  intros [Hk Hm Hr] [Hp He Hf Hma]. split; [|intros a [Ha|Ha]; apply Hma; [left; by apply Hm | by right] | done].
  intros q Hq. destruct (Hk q Hq) as (? & ? & ? & Hmq & HU). do 3 (split; [done|]). split; [apply Hma; by left|].
  intros [?|Hin]; [done|]. by apply (Hf q).
Qed.

Lemma tally_add st p n : 0 <= n <= 2 ^ 47 -> tally T (plus p n) st -> tally (T + n) (plus p n) (upd_heap st (add_real_size n)).
Proof using T_range.
  intros Hn Ht. pose proof (tally_real T (plus p n) T_range _ Ht) as Hr. destruct Ht as [Hk Hm Hre]. split; [exact Hk | exact Hm|].
  cbn. rewrite u64_small by lia. rewrite Hre. lia.
Qed.

Lemma alloc_node_spends d st p st' : zend_mm_alloc_heap_rec (S d) st sizeof_huge_list = Ok (p, st') -> spends T U 24 st st'.
Proof using Low T_range U_base. cbn [zend_mm_alloc_heap_rec]. intros H. by apply (alloc_small_spends T U) in H. Qed.
End Huge.

Section HugeAlloc.
Context {Sys : OS} {Laws : OSLaws} {Low : LowMemory} (T : Z) (U : Z -> Prop).
Hypothesis (T_range : 0 <= T <= 2 ^ 47) (U_base : forall a, U a -> U (a / 2 ^ 21 * 2 ^ 21)).
Implicit Types (st : mm).

Lemma alloc_cases st n r st' : 0 <= n < 2 ^ 64 -> n mod 4096 = 0 -> null_free (os st) n -> zend_mm_chunk_alloc st n ZEND_MM_CHUNK_SIZE = Ok (r, st') ->
  exists o, st' = set_os st o /\
    match r with
    | None => same_mapping (os st) o
    | Some p => 0 < n /\ p mod 2 ^ 21 = 0 /\ new_mapping (os st) o p n
    end.
Proof using Laws.
  clear T_range U_base. intros Hn Hm Hf H. assert (Ho := chunk_alloc_ok st n Hn Hm Hf). rewrite H in Ho. exact Ho.
Qed.

(** The block is mapped, after collections that give chunks back. *)
Lemma map_huge st n r st1 p st' : 0 <= n < 2 ^ 64 -> n mod 4096 = 0 -> null_free (os st) n ->
  zend_mm_chunk_alloc st n ZEND_MM_CHUNK_SIZE = Ok (r, st1) ->
  match r with
  | Some ptr => Ok (ptr, st1)
  | None =>
      let! (collected, st) := zend_mm_gc st1 in
      if negb (collected =? 0) then
        let! (ptr, st) := zend_mm_chunk_alloc st n ZEND_MM_CHUNK_SIZE in
        match ptr with Some ptr => Ok (ptr, st) | None => Err Fatal end
      else Err Fatal
  end = Ok (p, st') ->
  exists st2 o, trims T U st st2 /\ st' = set_os st2 o /\ p mod 2 ^ 21 = 0 /\ 0 < n /\ new_mapping (os st2) o p n.
Proof using T_range U_base.
  intros Hn Hm Hnull Ha H. apply alloc_cases in Ha as (o & -> & Hx); [|done..]. destruct r as [x|].
  - injection H as <- <-. destruct Hx as (H0 & Hxa & Hnew). exists st, o. split; [by apply same_trims | done].
  - apply rbind_inv in H as ([k st2] & Hg & H). pose proof (gc_sheds _ _ _ Hg) as Hsh. apply (gc_trims T U) in Hg; [|done..].
    destruct (negb _); [|done]. apply rbind_inv in H as ([y st3] & Hb & H). apply alloc_cases in Hb as (o' & -> & Hy); [|done..|].
    2:{ apply (null_free_mono (os st)); [|done]. intros a Ha. by apply Hx, Hsh. }
    destruct y as [y|]; [|done]. injection H as <- <-. destruct Hy as (H0 & Hya & Hnew). exists st2, o'.
    split; [|done]. eapply trims_trans; [by apply remap_trims | done].
Qed.

Lemma alloc_huge_spends d st size p st' : 0 <= size < 2 ^ 64 ->
  let n := ZEND_MM_ALIGNED_SIZE_EX size REAL_PAGE_SIZE in null_free (os st) n ->
  zend_mm_alloc_huge (zend_mm_alloc_heap_rec (S d)) st size = Ok (p, st') -> tally T U st ->
  tally (T + n) (plus U p n) st' /\ moved (n + 24) st st' /\
  (overflow (heap st) = 0 -> real_size (heap st') <= Z.max (real_size (heap st)) (limit (heap st) + ZEND_MM_CHUNK_SIZE)) /\
  p mod 2 ^ 21 = 0.
Proof using Low T_range U_base.
  intros Hs n Hnull H Ht. destruct (huge_size_cases size Hs) as (Hnm & Hn & _). fold n in Hnm, Hn.
  unfold zend_mm_alloc_huge in H. fold n in H. apply rbind_inv in H as (st0 & H0 & H).
  apply rbind_inv in H as ([r st1'] & Hr & H). apply rbind_inv in H as ([q st1] & H1 & H).
  assert (Hnull0 : null_free (os st0) n).
  { pose proof (check_limit_trims T U T_range U_base _ _ _ (proj1 Hn) H0) as (Htr0 & _).
    apply (null_free_mono (os st)); [by apply Htr0 | done]. }
  apply (map_huge _ _ _ _ _ _ Hn Hnm Hnull0 Hr) in H1 as (st2 & o & Htr & -> & Hpa & Hn0 & Hnew).
  apply rbind_inv in H as ([node st3] & H3 & H). injection H as <- <-.
  assert (Hn47 : n <= 2 ^ 47) by (pose proof (nm_end _ _ _ _ Hnew); pose proof (nm_pos _ _ _ _ Hnew); unfold ADDRESS_SPACE in *; lia).
  apply (check_limit_trims T U) in H0 as (Htr0 & Hroom); [|done|done|lia]. specialize (Hroom ltac:(lia) Ht).
  destruct (Htr0 Ht) as (Ht0 & (K1 & K2 & K3) & R0 & _). destruct (Htr Ht0) as (Ht2 & (K4 & K5 & K6) & R2 & _).
  pose proof (tally_map T U st2 o q n Ht2 Hnew) as Ht2'.
  apply (alloc_node_spends T (plus U q n)) in H3; [|done | intros a; by apply plus_base].
  destruct (H3 Ht2') as (Ht3 & (M1 & M2 & M3) & B & _). cbn [heap set_os] in M1, M2, M3, B.
  assert (Hl : same st3 (link_huge st3 node q n)) by done.
  pose proof (tally_real T _ T_range _ Ht3) as Hr3.
  split; [|split; [|split; [|done]]].
  - apply resize_tally; [done|]. apply tally_add; [done | lia|]. by eapply tally_view.
  - unfold moved, link_huge. cbn. rewrite M1, M2, M3, K5, K2, K6, K3, K4, K1, u64_add_l. split; [|done]. f_equal. lia.
  - intros Ho. unfold link_huge. cbn. rewrite u64_small by lia. rewrite K3 in Hroom. specialize (Hroom Ho).
    rewrite K2 in Hroom. lia.
Qed.
End HugeAlloc.

(** ** The account of a heap *)
Definition aligned (p : Z) : bool := p mod 2 ^ 21 =? 0.
Definition huge_part (p n : Z) : Z := if aligned p then n else 0.

(** The bytes that a block takes: a huge one has a list node. *)
Definition block_cost (p n : Z) : Z := n + if aligned p then sizeof_huge_list else 0.

Lemma small_parts p n : aligned p = false -> huge_part p n = 0 /\ block_cost p n = n.
Proof. unfold huge_part, block_cost. intros ->. lia. Qed.

Lemma huge_parts p n : aligned p = true -> huge_part p n = n /\ block_cost p n = n + 24.
Proof. unfold huge_part, block_cost. by intros ->. Qed.

Definition in_huge (live : gmap Z Z) (a : Z) : Prop := exists p n, live !! p = Some n /\ aligned p = true /\ p <= a < p + n.

Section Account.
Context {Sys : OS} {Laws : OSLaws} {Low : LowMemory} {Rest : Foreign}.
Implicit Types (st : mm) (live : gmap Z Z).

Record accounted st live : Prop := {
  ac_tally : tally (total huge_part live) (in_huge live) st;
  ac_size : h_size (heap st) = u64 (total block_cost live)
}.

Lemma tally_ext T T' U U' st : T = T' -> (forall a, U a <-> U' a) -> tally T U st -> tally T' U' st.
Proof.
  intros <- HU [Hk Hm Hr]. split; [|intros a Ha; apply Hm; by apply HU | done]. intros p Hp.
  destruct (Hk p Hp) as (? & ? & ? & ? & Hn). do 4 (split; [done|]). intros Hp'. by apply Hn, HU.
Qed.

Lemma in_huge_base live a : in_huge live a -> in_huge live (a / 2 ^ 21 * 2 ^ 21).
Proof.
  intros (p & n & Hp & Ha & Hin). exists p, n. split; [done|]. split; [done|]. unfold aligned in Ha. apply Z.eqb_eq in Ha.
  pose proof (Z.div_mod p (2 ^ 21)). pose proof (Z.div_mod a (2 ^ 21)). pose proof (Z.mod_pos_bound a (2 ^ 21)). lia.
Qed.

Lemma live_bounds st live p n : represents st live -> live !! p = Some n -> 0 < p /\ 0 < n /\ p + n <= 2 ^ 47.
Proof.
  intros (_ & L & Hok & _ & _ & Hl) Hp. apply Hl in Hp as [Ho _].
  destruct (owned_range _ _ _ Hok _ _ Ho) as (? & ? & ?). done.
Qed.

Lemma live_apart st live p n q k : represents st live -> live !! p = Some n -> live !! q = Some k -> p <> q -> rdisj (p, n) (q, k).
Proof.
  intros (_ & L & Hok & _ & _ & Hl) Hp Hq Hne. apply Hl in Hp, Hq.
  by destruct (owned_apart _ _ _ Hok _ _ _ _ (proj1 Hp) (proj1 Hq)) as [[? _]|].
Qed.

Lemma huge_range_total st live : represents st live -> 0 <= total huge_part live <= 2 ^ 47.
Proof.
  intros Hr. split.
  - transitivity (total (fun _ _ => 0) live).
    + clear. induction live as [|p n m Hp IH] using map_ind; [by rewrite total_empty|]. rewrite total_add by done. lia.
    + apply total_le. intros p n Hp. destruct (live_bounds st live p n Hr Hp) as (? & ? & ?). unfold huge_part. destruct (aligned p); lia.
  - transitivity (total (fun _ n => n) live).
    + apply total_le. intros p n Hp. destruct (live_bounds st live p n Hr Hp) as (? & ? & ?). unfold huge_part. destruct (aligned p); lia.
    + apply disjoint_total; [lia | |]; [intros p n Hp; destruct (live_bounds st live p n Hr Hp); lia|].
      intros p n q k Hp Hq. by apply (live_apart st live).
Qed.

(** The blocks at chunk boundaries are the huge ones. *)
Lemma aligned_huge st L p n : mm_ok st L -> owned L p n -> aligned p = true <-> exists node, (node, p, n) ∈ huges L.
Proof.
  intros Hok Ho. unfold aligned. rewrite Z.eqb_eq. split.
  - intros Ha. destruct Ho as [ch s k Hr|b q Hs Hf|node q k Hin]; [| |by exists node]; exfalso.
    + destruct (run_facts _ _ _ Hok _ _ _ Hr) as (_ & Hc & Hca & _ & _ & Hs & Hse & Hp & _). cbn [run_pages] in *.
      pose proof (Z.div_mod ch (2 ^ 21)). pose proof (Z.div_mod (ch + s * 4096) (2 ^ 21)). lia.
    + destruct (slot_in_range _ _ _ _ _ Hok Hs) as (ch & s & Hr & Hin).
      destruct (run_address _ _ _ _ _ _ q Hok Hr Hin) as (_ & Hof & _ & Hne). rewrite <- Hof, aligned_offset in Hne. done.
  - intros (node & Hin). destruct (huge_region _ _ _ Hok _ Hin) as [_ _ Ha _ _ _]. exact Ha.
Qed.

(** What a request leaves, for a block that is not huge. *)
Lemma accounted_small st st' live p n : accounted st live -> live !! p = None -> aligned p = false -> 
  spends (total huge_part live) (in_huge live) n st st' -> accounted st' (<[p := n]> live).
Proof.
  intros [Ht Hs] Hp Ha Hsp. destruct (Hsp Ht) as (Ht' & (Hm & _) & _). split.
  - eapply tally_ext; [| |exact Ht'].
    + rewrite total_add by done. destruct (small_parts p n Ha). lia.
    + intros a. split; intros (q & k & Hq & Hqa & Hin); exists q, k; (split; [|done]).
      * rewrite lookup_insert_ne; [done|]. intros ->. by rewrite Hp in Hq.
      * apply lookup_insert_Some in Hq as [[-> ->]|[_ Hq]]; [by rewrite Ha in Hqa | done].
  - rewrite Hm, Hs, u64_add_l, total_add by done. destruct (small_parts p n Ha). f_equal. lia.
Qed.

Lemma accounted_huge st st' live p n : accounted st live -> live !! p = None -> aligned p = true ->
  tally (total huge_part live + n) (plus (in_huge live) p n) st' -> moved (n + 24) st st' -> accounted st' (<[p := n]> live).
Proof.
  intros [Ht Hs] Hp Ha Ht' (Hm & _). split.
  - eapply tally_ext; [| |exact Ht'].
    + rewrite total_add by done. destruct (huge_parts p n Ha). lia.
    + intros a. unfold plus. split.
      * intros [(q & k & Hq & Hqa)|Hin].
        -- exists q, k. split; [|done]. rewrite lookup_insert_ne; [done|]. intros ->. by rewrite Hp in Hq.
        -- exists p, n. split; [apply lookup_insert_eq | done].
      * intros (q & k & Hq & Hqa & Hin). apply lookup_insert_Some in Hq as [[-> ->]|[_ Hq]]; [by right | left; by exists q, k].
  - rewrite Hm, Hs, u64_add_l, total_add by done. destruct (huge_parts p n Ha). f_equal. lia.
Qed.

(** The heap after a request that is within the limit, but for a chunk. *)
Definition limited st st' : Prop :=
  limit (heap st') = limit (heap st) /\ overflow (heap st') = overflow (heap st) /\
  (overflow (heap st) = 0 -> real_size (heap st') <= Z.max (real_size (heap st)) (limit (heap st) + ZEND_MM_CHUNK_SIZE)).

Lemma small_unaligned st L n r : mm_ok st L -> alloc_post st L n r -> 0 < n -> aligned (fst r) = false.
Proof.
  intros Hok (L' & Hok' & [Ao Af Ah _ _] & _) Hn. destruct (aligned (fst r)) eqn:E; [|done]. exfalso.
  assert (Ho : owned L' (fst r) n) by (apply Ao; by right). apply (aligned_huge _ _ _ _ Hok' Ho) in E as (node & Hin).
  rewrite Ah in Hin. pose proof (Af (fst r) n (owned_huge _ _ _ _ Hin)) as Hd. unfold rdisj in Hd. cbn [fst snd] in Hd. lia.
Qed.

Lemma alloc_accounted st live size p st' :
  represents st live -> accounted st live -> 0 <= size < 2 ^ 64 -> may_alloc st live size ->
  zend_mm_alloc_heap st size = Ok (p, st') -> live !! p = None ->
  accounted st' (<[p := block_size size]> live) /\ limited st st'.
Proof.
  intros Hr Hac Hs Hm H Hp. pose proof (huge_range_total _ _ Hr) as HT. destruct Hr as (_ & L & Hok & _ & _ & Hl).
  pose proof (may_can_alloc st L live size Hok Hl Hm) as Hcan.
  assert (Hsafe : pinned st L \/ main_empty st L) by (destruct Hcan as [[? _]|[? _]]; tauto).
  assert (Hfin : forall n, spends (total huge_part live) (in_huge live) n st st' -> limited st st').
  { intros n Hsp. destruct (Hsp (ac_tally _ _ Hac)) as (_ & (_ & Hli & Hov) & _ & Hb). do 2 (split; [done|]). unfold ZEND_MM_CHUNK_SIZE. lia. }
  unfold zend_mm_alloc_heap in H. cbn [zend_mm_alloc_heap_rec] in H. unfold block_size.
  destruct (Z.leb_spec size ZEND_MM_MAX_SMALL_SIZE) as [Hsm|Hsm]; [|destruct (Z.leb_spec size ZEND_MM_MAX_LARGE_SIZE) as [Hla|Hla]].
  - destruct (small_bin_spec size ltac:(lia)) as (Hb & _). destruct (bin_facts _ Hb) as (Hd & _).
    pose proof (alloc_small_ok st L _ Hok Hb Hsafe) as Hpost. rewrite H in Hpost. cbn [outcome] in Hpost.
    apply (small_unaligned _ _ _ _ Hok) in Hpost; [|lia]. cbn [fst] in Hpost.
    apply (alloc_small_spends (total huge_part live) (in_huge live)) in H; [|done|apply in_huge_base].
    split; [by eapply accounted_small | by eapply Hfin].
  - destruct (size_to_num size ltac:(lia)) as [Hn _].
    pose proof (alloc_large_ok st L size Hok ltac:(lia) Hsafe) as Hpost. rewrite H in Hpost. cbn [outcome] in Hpost.
    apply (small_unaligned _ _ _ _ Hok) in Hpost; [|lia]. cbn [fst] in Hpost.
    apply (alloc_large_spends (total huge_part live) (in_huge live)) in H; [|done|apply in_huge_base].
    split; [by eapply accounted_small | by eapply Hfin].
  - pose proof Hac as [Ht _]. assert (Hnull : null_free (os st) (ZEND_MM_ALIGNED_SIZE_EX size REAL_PAGE_SIZE)).
    { rewrite <- block_size_huge by done. by destruct Hcan as [[_ [?|?]]|[_ ?]]; [lia | | lia]. }
    destruct (alloc_huge_spends _ _ HT (in_huge_base live) 0 st size p st' Hs Hnull H Ht) as (Ht' & Hmo & Hb & Hpa).
    split; [apply accounted_huge with (st := st); try done|]. 
    + unfold aligned. by rewrite Hpa.
    + destruct Hmo as (_ & ? & ?). done.
Qed.
End Account.

(** ** Releases and reallocations *)

Section Release.
Context {Sys : OS} {Laws : OSLaws} {Low : LowMemory} {Rest : Foreign}.
Implicit Types (st : mm) (live : gmap Z Z).

(** A part of the huge range is unmapped. *)
Lemma tally_unmap T U U' st st' x k : 0 <= T <= 2 ^ 47 -> tally T U st -> 0 <= k <= T ->
  (dom (chunks st') : gset Z) = dom (chunks st) -> os st' = zend_mm_munmap (os st) x k ->
  real_size (heap st') = u64 (real_size (heap st) - k) ->
  (forall a, x <= a < x + k -> U a) -> (forall a, U' a -> U a /\ ~ (x <= a < x + k)) -> tally (T - k) U' st'.
Proof.
  intros HT Ht Hk Hd Ho Hr Hx HU. pose proof (tally_real T U HT _ Ht) as Hrr. destruct Ht as [Hkeys Hm Hre]. 
  assert (Hun : forall a, mapped (os st') a <-> mapped (os st) a /\ ~ (x <= a < x + k)).
  { intros a. rewrite Ho. unfold zend_mm_munmap. apply munmap_range. }
  split.
  - intros q Hq. rewrite Hd in Hq. destruct (Hkeys q Hq) as (? & ? & ? & ? & Hn). do 3 (split; [done|]). split.
    + apply Hun. split; [done|]. intros Hin. by apply Hn, Hx.
    + intros Hq'. by apply Hn, HU.
  - intros a Ha. apply HU in Ha as [Ha Hna]. apply Hun. split; [by apply Hm | done].
  - rewrite Hr, Hd, u64_small by lia. lia.
Qed.

Lemma in_huge_delete st live p n a : represents st live -> live !! p = Some n -> aligned p = true ->
  in_huge (delete p live) a <-> in_huge live a /\ ~ (p <= a < p + n).
Proof.
  intros Hr Hp Ha. split.
  - intros (q & k & Hq & Hqa & Hin). apply lookup_delete_Some in Hq as [Hne Hq]. split; [by exists q, k|].
    pose proof (live_apart _ _ _ _ _ _ Hr Hp Hq Hne) as Hd. unfold rdisj in Hd. cbn [fst snd] in Hd. lia.
  - intros [(q & k & Hq & Hqa & Hin) Hn]. exists q, k. split; [|done]. apply lookup_delete_Some. split; [|done].
    intros <-. rewrite Hp in Hq. injection Hq as <-. done.
Qed.

Lemma released_small st st' live p n : accounted st live -> live !! p = Some n -> aligned p = false ->
  gives (total huge_part live) (in_huge live) n st st' -> accounted st' (delete p live).
Proof.
  intros [Ht Hs] Hp Ha Hg. destruct (Hg Ht) as (Ht' & (Hm & _) & _). split.
  - eapply tally_ext; [| |exact Ht'].
    + rewrite (total_delete _ live p n Hp). destruct (small_parts p n Ha). lia.
    + intros a. split; intros (q & k & Hq & Hqa & Hin); exists q, k; (split; [|done]).
      * apply lookup_delete_Some. split; [|done]. intros <-. by rewrite Ha in Hqa.
      * by apply lookup_delete_Some in Hq as [_ Hq].
  - rewrite Hm, Hs, u64_add_l, (total_delete _ live p n Hp). destruct (small_parts p n Ha). f_equal. lia.
Qed.

Lemma gives_limited T U k st st' : tally T U st -> gives T U k st st' ->
  limited st st' /\ real_size (heap st') <= real_size (heap st).
Proof.
  intros Ht Hg. destruct (Hg Ht) as (_ & (_ & Hl & Ho) & Hr). split; [|done]. split; [done|]. split; [done|]. lia.
Qed.

Lemma huge_part_le st live p n : represents st live -> live !! p = Some n -> aligned p = true -> 0 <= n <= total huge_part live.
Proof.
  intros Hr Hp Ha. destruct (live_bounds _ _ _ _ Hr Hp) as (_ & Hn & _). rewrite (total_delete _ live p n Hp).
  destruct (huge_parts p n Ha) as [E _]. assert (0 <= total huge_part (delete p live)); [|lia].
  transitivity (total (fun _ _ => 0) (delete p live)).
  - clear. induction (delete p live) as [|q k m Hq IH] using map_ind; [by rewrite total_empty|]. rewrite total_add by done. lia.
  - apply total_le. intros q k Hq. apply lookup_delete_Some in Hq as [_ Hq].
    destruct (live_bounds st live q k Hr Hq) as (? & ? & ?). unfold huge_part. destruct (aligned q); lia.
Qed.

(** A huge block is released: its node first, then its pages. *)
Lemma release_huge st live L node p n st' :
  represents st live -> accounted st live -> mm_ok st L -> (node, p, n) ∈ huges L -> live !! p = Some n ->
  zend_mm_free_huge (zend_mm_free_heap_rec 1) st p = Ok st' ->
  accounted st' (delete p live) /\ limited st st' /\ real_size (heap st') <= real_size (heap st).
Proof.
  intros Hrep Hac Hok Hin Hp H. pose proof (huge_range_total _ _ Hrep) as HT. destruct Hac as [Ht Hs].
  destruct (huge_region _ _ _ Hok _ Hin) as [Hp0 Hn0 Hpa _ Hpe _]. cbn [huge_range fst snd] in *.
  assert (Ha : aligned p = true) by (unfold aligned; by rewrite Hpa).
  unfold zend_mm_free_huge in H. rewrite aligned_offset, Hpa in H. cbn [Z.eqb negb] in H. unfold zend_mm_del_huge_block in H.
  destruct (find_huge_ok _ st L p Hok (huges L) [] (huge_list (heap st)) 0 (slots_bound st)) as
    [(m1 & nd & k & m2 & E & _ & Hfi)|(Hno & _)]; [done | apply (ok_huge_list _ _ _ Hok) | by apply (huge_bound _ _ _ Hok) | |
    exfalso; by apply (Hno _ Hin)].
  rewrite Hfi in H. cbn [rbind] in H.
  assert (Hnd : (nd, p, k) ∈ huges L) by (rewrite E; apply elem_of_app; right; left).
  pose proof (huge_ptr_unique _ _ _ _ _ Hok Hin Hnd eq_refl) as Er. injection Er as <-.
  destruct (nd =? 0); [done|].
  destruct (unlink_huge_ok st L m1 nd p n m2 Hok E) as (Hok1 & _ & Hsz).
  destruct (ok_huge _ _ _ Hok _ Hnd) as (_ & _ & Hns & _). cbn [node_of fst] in Hns.
  change (if negb (prev_node 0 m1 =? 0) then set_mem st (store64 (mem st) (prev_node 0 m1 + 16) (huge_next st nd))
    else upd_heap st (fun h => set_huge_list h (huge_next st nd))) with (unlink_huge st (prev_node 0 m1) nd) in H.
  unfold huge_size in H. rewrite Hsz in H.
  assert (Hsame : same st (unlink_huge st (prev_node 0 m1) nd)) by (unfold unlink_huge; by destruct (negb _)).
  set (st1 := unlink_huge st (prev_node 0 m1) nd) in *. rewrite (free_rec_small 0 st1 _ nd 2 Hok1 Hns) in H. 
  apply rbind_inv in H as ([size st2] & H2 & H). apply rbind_inv in H2 as (st3 & H3 & H2). injection H2 as <- ->. injection H as <-.
  apply (free_small_gives (total huge_part live) (in_huge live)) in H3.
  destruct (H3 (tally_view _ _ _ _ Hsame Ht)) as (Ht2 & (M1 & M2 & M3) & R2). 
  pose proof (same_stats _ _ Hsame) as (S1 & S2 & S3). unfold same, view in Hsame. injection Hsame as _ _ _ _ _ S4.
  assert (Hrng : forall a, p <= a < p + n -> in_huge live a) by (intros a Hin'; by exists p, n).
  pose proof (huge_part_le st live p n Hrep Hp Ha) as Hk.
  assert (Hpd : p ∉ (dom (chunks st2) : gset Z)).
  { intros Hd. destruct (ty_keys _ _ _ Ht2 p Hd) as (_ & _ & _ & _ & Hn). apply Hn, Hrng. lia. }
  pose proof (tally_real _ _ HT _ Ht2) as Hr2.
  assert (Hur : u64 (real_size (heap st2) - n) = real_size (heap st2) - n).
  { apply u64_small. pose proof (ty_real _ _ _ Ht2). lia. }
  split; [split|].
  - eapply tally_ext; [| |eapply (tally_unmap _ _ (in_huge (delete p live)) st2 _ p n HT Ht2 Hk)]; try done.
    + rewrite (total_delete _ live p n Hp). destruct (huge_parts p n Ha) as [E2 _]. lia.
    + cbn. rewrite dom_delete_L. set_solver.
    + intros a Hina. by apply (in_huge_delete st live p n a).
  - cbn. rewrite M1, S1, Hs, !u64_add_l, (total_delete _ live p n Hp). destruct (huge_parts p n Ha).
    change (bin_data_size 2) with 24.
    rewrite <- Z.add_opp_r, u64_add_l. f_equal. lia.
  - split; [|cbn; lia]. split; [cbn; congruence|]. split; [cbn; congruence|]. cbn. lia.
Qed.

Lemma free_accounted st live p n st' :
  represents st live -> accounted st live -> live !! p = Some n -> zend_mm_free_heap st p = Ok st' ->
  accounted st' (delete p live) /\ limited st st' /\ real_size (heap st') <= real_size (heap st).
Proof.
  intros Hrep Hac Hp H. pose proof (huge_range_total _ _ Hrep) as HT. pose proof Hrep as (_ & L & Hok & _ & _ & Hl).
  pose proof Hp as Hb. apply Hl in Hb as [Ho _]. destruct (aligned p) eqn:Ea.
  - apply (aligned_huge _ _ _ _ Hok Ho) in Ea as (node & Hin). apply (release_huge st live L node p n); try done.
    destruct (huge_region _ _ _ Hok _ Hin) as [Hp0 _ Hpa _ _ _]. cbn [huge_range fst snd] in *.
    unfold zend_mm_free_heap in H. rewrite (free_rec_huge st p 1) in H by (rewrite ?aligned_offset; lia). exact H.
  - assert (Hg : gives (total huge_part live) (in_huge live) n st st').
    { destruct Ho as [ch s k Hr|b q Hs Hf|node q k Hin].
      - unfold zend_mm_free_heap in H. rewrite (free_rec_large 1 st L ch s k Hok Hr) in H.
        apply (free_large_gives _ _ HT (in_huge_base live)) in H. exact H.
      - unfold zend_mm_free_heap in H. rewrite (free_rec_small 1 st L q b Hok Hs) in H.
        by apply (free_small_gives (total huge_part live) (in_huge live)) in H.
      - exfalso. rewrite (proj2 (aligned_huge _ _ q k Hok (owned_huge _ _ _ _ Hin))) in Ea; [done | by exists node]. }
    split; [by eapply released_small|]. apply (gives_limited _ _ n _ _ (ac_tally _ _ Hac) Hg).
Qed.

(** ** Reallocation *)

(** Another block in the place of one that is not huge. *)
Lemma replace_small st st' live p n k : accounted st live -> live !! p = Some n -> aligned p = false ->
  same st (upd_heap st' (fun h => set_h_size h (h_size (heap st)))) -> h_size (heap st') = u64 (h_size (heap st) + k - n) ->
  accounted st' (<[p := k]> (delete p live)).
Proof.
  intros Hac Hp Ha Hs Hh. rewrite insert_delete_eq. destruct Hac as [Ht Hsz]. split.
  - apply (tally_view _ _ _ _ Hs) in Ht. rewrite <- resize_tally in Ht by done. eapply tally_ext; [| |exact Ht].
    + rewrite (total_replace _ live p n k Hp). destruct (small_parts p n Ha), (small_parts p k Ha). lia.
    + intros a. split; intros (q & m & Hq & Hqa & Hin).
      * exists q, m. split; [|done]. rewrite lookup_insert_ne; [done|]. intros <-. by rewrite Ha in Hqa.
      * apply lookup_insert_Some in Hq as [[<- ->]|[_ Hq]]; [by rewrite Ha in Hqa | by exists q, m].
  - rewrite Hh, Hsz, (total_replace _ live p n k Hp). destruct (small_parts p n Ha), (small_parts p k Ha).
    rewrite <- Z.add_sub_assoc, u64_add_l. f_equal. lia.
Qed.

Lemma limited_trans st1 st2 st3 : limited st1 st2 -> limit (heap st3) = limit (heap st2) -> overflow (heap st3) = overflow (heap st2) ->
  real_size (heap st3) <= real_size (heap st2) -> limited st1 st3.
Proof. intros (A1 & A2 & A3) B1 B2 B3. split; [congruence|]. split; [congruence|]. lia. Qed.

Lemma trims_accounted st st' live : accounted st live -> trims (total huge_part live) (in_huge live) st st' ->
  accounted st' live /\ limit (heap st') = limit (heap st) /\ overflow (heap st') = overflow (heap st) /\
  real_size (heap st') <= real_size (heap st).
Proof.
  intros [Ht Hs] Htr. destruct (Htr Ht) as (Ht' & (K1 & K2 & K3) & R & _). split; [split; [done | congruence] | done].
Qed.

Lemma realloc_naive_accounted st live p n size copy q st' :
  represents st live -> accounted st live -> live !! p = Some n -> 0 <= size < 2 ^ 64 -> 0 <= copy <= size -> may_alloc st live size ->
  realloc_naive st p n size copy = Ok (q, st') ->
  accounted st' (<[q := block_size size]> (delete p live)) /\ limited st st'.
Proof.
  intros Hr Hac Hp Hs Hc Hm H. unfold realloc_naive in H. apply rbind_inv in H as ([r st1] & H1 & H).
  pose proof (alloc_represents st live size Hr Hs Hm) as Ha. rewrite H1 in Ha. cbn [outcome] in Ha.
  destruct Ha as (Hle & Hnone & Hr1 & Hd & _).
  destruct (alloc_accounted _ _ _ _ _ Hr Hac Hs Hm H1 Hnone) as (Hac1 & Hl1).
  apply rbind_inv in H as (st3 & H3 & H). injection H as -> <-.
  set (st2 := set_mem st1 (copy_bytes (mem st1) q p (Z.to_nat (Z.min n copy)))) in *.
  assert (Hne : q <> p) by (intros ->; by rewrite Hp in Hnone).
  assert (Hp1 : <[q := block_size size]> live !! p = Some n) by (by rewrite lookup_insert_ne).
  assert (Hr2 : represents st2 (<[q := block_size size]> live)).
  { apply (write_represents st1 _ q (block_size size) _ Hr1 (lookup_insert_eq _ _ _)). intros a Ha.
    pose proof (Hd p n Hp) as Hdp. unfold rdisj in Hdp. cbn [fst snd] in Hdp. rewrite copy_bytes_spec by lia.
    destruct (Z.leb_spec q a), (Z.ltb_spec a (q + Z.of_nat (Z.to_nat (Z.min n copy)))); cbn [andb]; try done. lia. }
  assert (Hac2 : accounted st2 (<[q := block_size size]> live)) by (destruct Hac1 as [[A B C] D]; by split; [split|]).
  destruct (free_accounted st2 _ p n st3 Hr2 Hac2 Hp1 H3) as ([[A B C] D] & (F1 & F2 & _) & F3).
  rewrite delete_insert_ne in A, B, C, D by done.
  split; [by split; [split|]|]. by apply (limited_trans st st1).
Qed.

(** ** In its place *)
Lemma same_limited st st' : limit (heap st') = limit (heap st) -> overflow (heap st') = overflow (heap st) ->
  real_size (heap st') <= real_size (heap st) -> limited st st'.
Proof. intros H1 H2 H3. split; [done|]. split; [done|]. lia. Qed.

Lemma realloc_large_accounted st live L ch s n c size b st' :
  mm_ok st L -> accounted st live -> runs L !! (ch, s) = Some (LargeRun n) -> live !! (ch + s * 4096) = Some (n * 4096) ->
  chunks st !! ch = Some c -> realloc_large st ch c s (n * 4096) size = Ok (b, st') ->
  if b then accounted st' (<[ch + s * 4096 := block_size size]> (delete (ch + s * 4096) live)) /\ limited st st'
  else st' = st.
Proof.
  intros Hok Hac Hr Hp Hc H. set (p := ch + s * 4096) in *.
  assert (Ha : aligned p = false).
  { destruct (aligned p) eqn:E; [|done]. assert (Ho : owned L p (n * 4096)) by (by apply (owned_large L ch s n)).
    apply (aligned_huge _ _ _ _ Hok Ho) in E as (node & Hin). exfalso.
    pose proof (run_huge_apart _ _ _ Hok _ _ _ _ Hr Hin) as Hd. destruct (huge_region _ _ _ Hok _ Hin) as [_ Hn _ _ _ _].
    unfold rdisj, run_range, huge_range in *. cbn [fst snd run_pages] in *. lia. }
  unfold realloc_large in H. destruct (_ && _) eqn:Ec; [|by injection H as <- <-]. apply andb_prop in Ec as [E1 E2].
  apply Z.ltb_lt in E1. apply Z.leb_le in E2. rewrite (block_size_large size) in H by lia.
  destruct (Z.eqb_spec (block_size size) (n * 4096)) as [E|Hne].
  { injection H as <- <-. split; [|by apply same_limited]. rewrite E. by rewrite insert_delete_eq, insert_id. }
  assert (Hb : exists k, block_size size = k * 4096).
  { rewrite <- (block_size_large size) by lia. destruct (aligned_size_ex size) as [_ Hm].
    - change ZEND_MM_MAX_SMALL_SIZE with 3072 in E1. change ZEND_MM_MAX_LARGE_SIZE with 2093056 in E2. lia.
    - exists (ZEND_MM_ALIGNED_SIZE_EX size ZEND_MM_PAGE_SIZE / 4096). pose proof (Z.div_mod (ZEND_MM_ALIGNED_SIZE_EX size ZEND_MM_PAGE_SIZE) 4096). lia. }
  destruct Hb as (k & Ek). rewrite Ek in *. change ZEND_MM_PAGE_SIZE with 4096 in H.
  assert (Hfin : forall c' f, adds (k * 4096 - n * 4096) f -> st' = put_chunk (upd_heap st f) ch c' ->
    accounted st' (<[p := k * 4096]> (delete p live)) /\ limited st st').
  { intros c' f Hf ->. destruct (Hf (heap st)) as (F1 & F2 & F3 & F4). split; [|apply same_limited; cbn; lia || done].
    apply (replace_small st _ live p (n * 4096)); [done | done | done | | cbn; rewrite F2; f_equal; lia].
    pose proof (put_chunk_same st ch c' c Hc) as Hsame. unfold same, view in *. cbn in *. rewrite F1, F3, F4. exact Hsame. }
  destruct (Z.ltb_spec (k * 4096) (n * 4096)) as [Hlt|Hgt].
  - replace ((n * 4096 - k * 4096) / 4096) with (n - k) in H by (rewrite <- Z.mul_sub_distr_r, Z.div_mul; lia).
    apply rbind_inv in H as (c' & _ & H). injection H as <- E. apply (Hfin c' (sub_size ((n - k) * 4096))); [|done].
    intros h. replace (k * 4096 - n * 4096) with (- ((n - k) * 4096)) by lia. apply sub_size_adds.
  - apply rbind_inv in H as (free & _ & H). destruct free; [|by injection H as <- <-].
    apply rbind_inv in H as (c' & _ & H). injection H as <- E. by apply (Hfin c' (add_size (k * 4096 - n * 4096))).
Qed.

(** A huge block of another size. *)
Lemma in_huge_replace st live p n k a : represents st live -> live !! p = Some n -> aligned p = true ->
  in_huge (<[p := k]> (delete p live)) a <-> (in_huge live a /\ ~ (p <= a < p + n)) \/ p <= a < p + k.
Proof.
  intros Hr Hp Ha. rewrite <- (in_huge_delete st live p n a Hr Hp Ha). split.
  - intros (q & m & Hq & Hqa & Hin). apply lookup_insert_Some in Hq as [[-> ->]|[_ Hq]]; [by right | left; by exists q, m].
  - intros [(q & m & Hq & Hqa & Hin)|Hin].
    + exists q, m. split; [|done]. rewrite lookup_insert_ne; [done|]. intros <-. by rewrite lookup_delete_eq in Hq.
    + exists p, k. split; [apply lookup_insert_eq | done].
Qed.

Lemma change_size_same st p k st' : zend_mm_change_huge_block_size st p k = Ok st' -> same st st'.
Proof. unfold zend_mm_change_huge_block_size. intros H. apply rbind_inv in H as ([q list] & _ & H). destruct (_ =? 0); by injection H as <-. Qed.

(** The sums after a huge block has got another size. *)
Lemma accounted_resize st0 st st' live p n k : represents st0 live -> live !! p = Some n -> aligned p = true ->
  tally (total huge_part live + (k - n)) (in_huge (<[p := k]> (delete p live))) st' ->
  h_size (heap st) = u64 (total block_cost live) -> h_size (heap st') = u64 (h_size (heap st) + (k - n)) ->
  accounted st' (<[p := k]> (delete p live)).
Proof.
  intros Hr Hp Ha Ht Hs Hs'. destruct (huge_parts p n Ha) as [A1 A2], (huge_parts p k Ha) as [B1 B2]. split.
  - eapply tally_ext; [|done|exact Ht]. rewrite insert_delete_eq, (total_replace _ live p n k Hp). lia.
  - rewrite Hs', Hs, u64_add_l, insert_delete_eq, (total_replace _ live p n k Hp). f_equal. lia.
Qed.

Lemma realloc_huge_accounted st live L node p n size b st' :
  represents st live -> mm_ok st L -> accounted st live -> (node, p, n) ∈ huges L -> live !! p = Some n ->
  0 <= size <= 2 ^ 64 - REAL_PAGE_SIZE -> realloc_huge st p n size = Ok (b, st') ->
  if b then accounted st' (<[p := block_size size]> (delete p live)) /\ limited st st'
  else accounted st' live /\ limit (heap st') = limit (heap st) /\ overflow (heap st') = overflow (heap st) /\
    real_size (heap st') <= real_size (heap st).
Proof.
  intros Hr Hok Hac Hin Hp Hs H. change REAL_PAGE_SIZE with 4096 in Hs. pose proof (huge_range_total _ _ Hr) as HT.
  destruct (huge_region _ _ _ Hok _ Hin) as [Hp0 Hn0 Hpa Hn4 Hpe _]. cbn [huge_range fst snd] in *. unfold ADDRESS_SPACE in Hpe.
  assert (Ha : aligned p = true) by (unfold aligned; by rewrite Hpa). pose proof (huge_part_le _ _ _ _ Hr Hp Ha) as HnT.
  pose proof Hac as [Ht Hsz]. pose proof (tally_real _ _ HT _ Ht) as Hrr.
  assert (HinU : forall a, p <= a < p + n -> in_huge live a) by (intros a Hr'; by exists p, n).
  unfold realloc_huge in H. destruct (Z.ltb_spec ZEND_MM_MAX_LARGE_SIZE size) as [Hlarge|]; [|by injection H as <- <-].
  destruct (huge_size_cases size ltac:(lia)) as (Hk4 & Hk & _). rewrite <- (block_size_huge size Hlarge) in *.
  set (k := block_size size) in *. destruct (Z.eqb_spec k n) as [E|Hkn].
  { apply rbind_inv in H as (st1 & H1 & H). injection H as <- <-. apply change_size_same in H1.
    rewrite E, insert_delete_eq, insert_id by done. pose proof (same_stats _ _ H1) as (S1 & S2 & S3).
    split; [split; [by eapply tally_view | congruence]|]. unfold same, view in H1. injection H1 as _ _ _ _ _ S4. apply same_limited; lia || done. }
  destruct (Z.ltb_spec k n) as [Hlt|Hgt].
  - unfold zend_mm_chunk_truncate in H. cbv iota beta in H. apply rbind_inv in H as (st1 & H1 & H). injection H as <- <-.
    apply change_size_same in H1. pose proof (same_stats _ _ H1) as (S1 & S2 & S3). cbn in S1, S2, S3.
    assert (Hu : u64 (real_size (heap st) - (n - k)) = real_size (heap st) - (n - k)) by (apply u64_small; pose proof (ty_real _ _ _ Ht); lia).
    split.
    + apply (accounted_resize st st _ live p n k Hr Hp Ha); [|done|rewrite S1; f_equal; lia]. apply (tally_view _ _ _ _ H1).
      replace (total huge_part live + (k - n)) with (total huge_part live - (n - k)) by lia.
      eapply (tally_unmap _ _ _ st _ (p + k) (n - k) HT Ht); [lia | done | done | done | |].
      * intros a Hra. apply HinU. lia.
      * intros a Hra. apply (in_huge_replace st live p n k a Hr Hp Ha) in Hra as [[? ?]|?]; [split; [done | lia]|].
        split; [apply HinU; lia | lia].
    + unfold same, view in H1. injection H1 as _ _ _ _ _ S4. cbn in S4. apply same_limited; [done..|]. rewrite S4. lia.
  - apply rbind_inv in H as (st1 & H1 & H).
    apply (check_limit_trims (total huge_part live) (in_huge live) HT (in_huge_base live)) in H1 as (Htr & Hroom); [|lia].
    destruct (trims_accounted _ _ _ Hac Htr) as ([Ht1 Hs1] & L1 & O1 & R1).
    assert (Hm : (k - n) mod 4096 = 0) by (rewrite Zminus_mod, Hk4, Hn4; done).
    destruct (extend_ok st1 p n k ltac:(lia) ltac:(lia) Hm) as (o & E & Ho).
    destruct (zend_mm_chunk_extend st1 p n k) as [ok st2]. cbn [fst snd] in *. subst st2. destruct ok.
    2:{ injection H as <- <-. destruct (trims_accounted st1 _ live ltac:(by split) (remap_trims _ _ st1 o Ho)) as (Hac2 & L2 & O2 & R2).
        split; [done|]. split; [congruence|]. split; [congruence | lia]. }
    assert (Hk47 : k - n <= 2 ^ 47) by (pose proof (nm_end _ _ _ _ Ho); unfold ADDRESS_SPACE in *; lia).
    specialize (Hroom ltac:(lia) Ht). apply rbind_inv in H as (st3 & H3 & H). injection H as <- <-. apply change_size_same in H3.
    pose proof (same_stats _ _ H3) as (S1 & S2 & S3). cbn in S1, S2, S3. pose proof (tally_real _ _ HT _ Ht1) as Hr1.
    split.
    + apply (accounted_resize st st1 _ live p n k Hr Hp Ha); [|done|exact S1]. apply (tally_view _ _ _ _ H3).
      pose proof (tally_map _ _ st1 o (p + n) (k - n) Ht1 Ho) as Htm.
      apply (tally_add _ _ HT (set_os st1 o) (p + n) (k - n) ltac:(lia)) in Htm.
      eapply tally_ext; [reflexivity| |].
      2:{ apply (resize_tally _ _ (upd_heap (set_os st1 o) (add_real_size (k - n))) (add_size (k - n))) in Htm; [exact Htm | done]. }
      intros a. rewrite (in_huge_replace st live p n k a Hr Hp Ha). unfold plus. specialize (HinU a).
      destruct (decide (p <= a < p + n)), (decide (p + n <= a < p + k)); split; intros Hx; try tauto; try lia;
        destruct Hx as [Hx|Hx]; try lia; try tauto; right; lia.
    + unfold same, view in H3. injection H3 as _ _ _ _ _ S4. cbn in S4. split; [congruence|]. split; [congruence|].
      intros H0. rewrite O1, L1 in Hroom. specialize (Hroom H0). unfold ZEND_MM_CHUNK_SIZE. rewrite S4, u64_small by lia. lia.
Qed.

(** A huge block that cannot keep its place: only a collection has happened. *)
Lemma realloc_huge_stays st live p n size st1 :
  represents st live -> accounted st live -> live !! p = Some n -> aligned p = true -> 0 <= size <= 2 ^ 64 - REAL_PAGE_SIZE ->
  may_alloc st live size -> realloc_huge st p n size = Ok (false, st1) ->
  represents st1 live /\ accounted st1 live /\ may_alloc st1 live size /\ limit (heap st1) = limit (heap st) /\
  overflow (heap st1) = overflow (heap st) /\ real_size (heap st1) <= real_size (heap st).
Proof.
  intros Hrep Hac Hp Ha Hs Hma H. pose proof Hrep as (Hadr & L & Hok & Hsp & Hhe & Hl).
  assert (Hin : exists node, (node, p, n) ∈ huges L) by (apply (aligned_huge st); [done | by apply Hl | done]).
  destruct Hin as (node & Hin).
  destruct (realloc_huge_accounted st live L node p n size false st1 Hrep Hok Hac Hin Hp Hs H) as (Hac1 & K).
  pose proof (realloc_huge_ok st L node p n size Hok Hin Hs (may_can_alloc st L live size Hok Hl Hma)) as Hip.
  rewrite H in Hip. cbn [outcome] in Hip. destruct Hip as (L1 & Hok1 & Hq1 & Hsp1 & [F1 F2 _] & Hsh & Hsame). cbn [fst snd] in *.
  split.
  { apply (represents_layout st st1 L1 live Hadr F1 F2 Hok1); [congruence | by rewrite (q_held _ _ Hq1)|].
    intros y m. by rewrite (quiet_block L). }
  split; [done|]. split; [|done].
  destruct (Z.le_gt_cases size ZEND_MM_MAX_LARGE_SIZE) as [Hle|Hgt]; [by destruct (Hsame Hle) as [-> _]|].
  destruct Hma as [[(y & m & Hy & Hm) [?|Hn]]|[_ ?]]; [lia | | lia]. left. split; [exists y, m; by rewrite F2|].
  right. by apply (null_free_mono (os st)).
Qed.

Lemma realloc_accounted st live p n size copy q st' :
  represents st live -> accounted st live -> live !! p = Some n -> 0 <= size <= 2 ^ 64 - REAL_PAGE_SIZE -> 0 <= copy <= size ->
  may_alloc st live size -> zend_mm_realloc_heap st p size copy = Ok (q, st') ->
  accounted st' (<[q := block_size size]> (delete p live)) /\ limited st st'.
Proof.
  intros Hrep Hac Hlp Hs Hc Hma H. pose proof Hrep as (Hadr & L & Hok & Hsp & Hhe & Hl). pose proof Hlp as Hb. apply Hl in Hb.
  pose proof Hs as Hs'. change REAL_PAGE_SIZE with 4096 in Hs'. pose proof Hb as [Ho _]. unfold zend_mm_realloc_heap in H.
  destruct Ho as [ch s k Hr|b x Hsl Hf|node x k Hin].
  - destruct (run_facts _ _ _ Hok _ _ _ Hr) as (_ & _ & _ & _ & Hwf & Hs1 & Hse & Hp & _).
    assert (Hin : ch + s * 4096 <= ch + s * 4096 < ch + (s + run_pages (LargeRun k)) * 4096) by lia.
    destruct (run_address _ _ _ _ _ _ _ Hok Hr Hin) as (Hbs & Hoff & _ & Hne).
    destruct (run_info _ _ _ _ _ _ Hok Hr Hin) as (c & Hg & Hcc & Hh & Hi).
    rewrite Hoff, Hbs in H. replace (ch + s * 4096 - ch) with (s * 4096) in H by lia.
    destruct (Z.eqb_spec (s * 4096) 0) as [|_]; [lia|]. rewrite Hg in H. cbn [rbind] in H. change ZEND_MM_PAGE_SIZE with 4096 in H.
    rewrite Z.div_mul, Hi in H by lia. cbn [rbind] in H. cbn in Hwf. change ZEND_MM_PAGES with 512 in Hwf.
    destruct (lrun_info k ltac:(lia)) as [Hi1 Hi2]. rewrite Hi1, Hi2, Hh, Z.eqb_refl in H. cbn [negb] in H.
    destruct (negb _) in H; [done|]. apply rbind_inv in H as ([ip st1] & Hrl & H).
    pose proof (realloc_large_accounted st live L ch s k c size ip st1 Hok Hac Hr Hlp Hcc Hrl) as Hpost. destruct ip.
    + injection H as <- <-. exact Hpost.
    + subst st1. apply (realloc_naive_accounted st live (ch + s * 4096) (k * 4096) size copy); done || lia.
  - destruct (slot_in_range _ _ _ _ _ Hok Hsl) as (ch & s & Hr & Hin).
    destruct (run_address _ _ _ _ _ _ x Hok Hr Hin) as (Hbs & Hoff & _ & Hne).
    destruct (run_info _ _ _ _ _ x Hok Hr Hin) as (c & Hg & _ & Hh & info & Hi & Hsr & Hbin).
    rewrite Hoff, Hbs in H. destruct (Z.eqb_spec (x - ch) 0) as [|_]; [done|].
    rewrite Hg in H. cbn [rbind] in H. change ZEND_MM_PAGE_SIZE with 4096 in H. rewrite Hi in H. cbn [rbind] in H.
    rewrite Hh, Z.eqb_refl, Hsr, Hbin in H. cbn [negb] in H.
    destruct ((size <=? ZEND_MM_MAX_SMALL_SIZE) && (b =? zend_mm_small_size_to_bin size)) eqn:E;
      [|apply (realloc_naive_accounted st live x (bin_data_size b) size copy); done || lia].
    apply andb_prop in E as [E1 E2]. apply Z.eqb_eq in E2. injection H as <- <-.
    assert (Eb : block_size size = bin_data_size b) by (unfold block_size; rewrite E1; by rewrite E2).
    rewrite Eb, insert_delete_eq, insert_id by done. split; [done | by apply same_limited].
  - destruct (huge_region _ _ _ Hok _ Hin) as [Hp0 _ Hpa _ _ _]. cbn [huge_range fst snd] in *.
    rewrite aligned_offset, Hpa in H. cbn [Z.eqb] in H. destruct (Z.eqb_spec x 0) as [|_]; [lia|].
    rewrite (huge_size_ok st L node x k Hok Hin) in H. cbn [rbind] in H.
    apply rbind_inv in H as ([ip st1] & Hrh & H).
    pose proof (realloc_huge_accounted st live L node x k size ip st1 Hrep Hok Hac Hin Hlp Hs Hrh) as Hpost.
    destruct ip; [injection H as <- <-; exact Hpost|].
    assert (Ea : aligned x = true) by (apply (aligned_huge _ _ _ _ Hok (owned_huge _ _ _ _ Hin)); by exists node).
    destruct (realloc_huge_stays st live x k size st1 Hrep Hac Hlp Ea Hs Hma Hrh) as (Hrep1 & Hac1 & Hma1 & K1 & K2 & K3).
    destruct (realloc_naive_accounted st1 live x k size copy q st') as (Hac' & M1 & M2 & M3); try done; [lia|].
    split; [done|]. split; [congruence|]. split; [congruence|]. intros H0. rewrite K1, K2 in M3. specialize (M3 H0). lia.
Qed.
End Release.
