(* ===== verification/MmProgress.v ===== *)
(** * Requests, and when they fail ([zend_mm_safe_error] of [Zend/zend_alloc.c])

    A request ends with a fatal error only where the code asks the system for
    memory: [calm] says that a result is no such error, which holds of all the
    rest.  What remains is the memory limit ([exhausted]) and a refusal of the
    system in a state that the steps of a request lead to ([turned_away]):
    [blocked] is the disjunction.  The theorems about requests have the form
    [ends r post why]: [r] is a result with [post], or the fatal error, and then
    [why] holds; there is no other error. *)
From S2P Require Export MmUsage.

Definition calm {A} (r : res A) : Prop := r <> Err Fatal.

Lemma calm_bind {A B} (m : res A) (k : A -> res B) : calm m -> (forall a, m = Ok a -> calm (k a)) -> calm (rbind m k).
Proof. unfold calm. destruct m as [a|e]; cbn [rbind]; [intros _ H; by apply H | intros H _ E; apply H; congruence]. Qed.

(** A fatal error of a sequence is one of its parts. *)
Lemma fatal_bind {A B} (m : res A) (k : A -> res B) : rbind m k = Err Fatal -> m = Err Fatal \/ exists a, m = Ok a /\ k a = Err Fatal.
Proof. destruct m as [a|e]; cbn [rbind]; [right; by exists a | intros [= ->]; by left]. Qed.

Create HintDb calm.

Ltac calms :=
  repeat first
    [ solve [auto with calm nocore]
    | discriminate
    | match goal with
      | |- calm (rbind _ _) => apply calm_bind; [|intros ? _]
      | |- calm (if ?b then _ else _) => destruct b
      | |- calm (match ?x with _ => _ end) => destruct x
      | |- calm (let _ := ?x in _) => cbv zeta
      end ].

(** A fatal error of a calm result. *)
Ltac calm_down H := exfalso; revert H; match goal with |- ?r = Err Fatal -> False => change (calm r) end; calms.

(** ** Words and headers *)
Lemma aget_calm {A} (l : list A) i : calm (aget l i).
Proof. unfold aget. calms. Qed.

Lemma aset_calm {A} (l : list A) i x : calm (aset l i x).
Proof. unfold aset. calms. Qed.
#[export] Hint Resolve aget_calm aset_calm : calm.

Lemma upd_word_calm l i f : calm (upd_word l i f).
Proof. unfold upd_word. calms. Qed.
#[export] Hint Resolve upd_word_calm : calm.

Lemma zero_words_calm fuel : forall l i e, calm (zero_words l i e fuel).
Proof. induction fuel as [|fuel IH]; intros l i e; cbn [zero_words]; calms. Qed.
#[export] Hint Resolve zero_words_calm : calm.

Lemma is_set_calm l i : calm (zend_mm_bitset_is_set l i).
Proof. unfold zend_mm_bitset_is_set. calms. Qed.

Lemma fill_words_calm fuel : forall l i e w, calm (fill_words l i e w fuel).
Proof. induction fuel as [|fuel IH]; intros l i e w; cbn [fill_words]; calms. Qed.
#[export] Hint Resolve is_set_calm fill_words_calm : calm.

Lemma set_range_calm l i n : calm (zend_mm_bitset_set_range l i n).
Proof. unfold zend_mm_bitset_set_range, zend_mm_bitset_set_bit. calms. Qed.

Lemma reset_range_calm l i n : calm (zend_mm_bitset_reset_range l i n).
Proof. unfold zend_mm_bitset_reset_range, zend_mm_bitset_reset_bit. calms. Qed.
#[export] Hint Resolve set_range_calm reset_range_calm : calm.

Lemma skip_allocated_calm fuel : forall l i t, calm (skip_allocated l i t fuel).
Proof. induction fuel as [|fuel IH]; intros l i t; cbn [skip_allocated]; calms. Qed.

Lemma skip_free_calm fuel : forall l f i t, calm (skip_free l f i t fuel).
Proof. induction fuel as [|fuel IH]; intros l f i t; cbn [skip_free]; calms. Qed.
#[export] Hint Resolve skip_allocated_calm skip_free_calm : calm.

Lemma best_fit_calm fuel : forall c n b k i t, calm (best_fit c n b k i t fuel).
Proof. induction fuel as [|fuel IH]; intros c n b k i t; cbn [best_fit]; calms. Qed.
#[export] Hint Resolve best_fit_calm : calm.

Lemma search_chunk_calm c n : calm (search_chunk c n).
Proof. unfold search_chunk. calms. Qed.

Lemma mark_run_calm c p n : calm (mark_run c p n).
Proof. unfold mark_run. calms. Qed.

Lemma release_run_calm c p n : calm (release_run c p n).
Proof. unfold release_run. calms. Qed.

Lemma set_nruns_calm fuel : forall pm p b i, calm (set_nruns pm p b i fuel).
Proof. induction fuel as [|fuel IH]; intros pm p b i; cbn [set_nruns]; calms. Qed.
#[export] Hint Resolve search_chunk_calm mark_run_calm release_run_calm set_nruns_calm : calm.

Lemma mark_bin_calm c p b : calm (mark_bin c p b).
Proof. unfold mark_bin. calms. Qed.

Lemma link_slots_calm fuel : forall m p e n, calm (link_slots m p e n fuel).
Proof. induction fuel as [|fuel IH]; intros m p e n; cbn [link_slots]; calms. Qed.
#[export] Hint Resolve mark_bin_calm link_slots_calm : calm.

(** ** Chunks and the collector *)
Section Calm.
Context {Sys : OS}.
Implicit Types (st : mm).

Lemma get_chunk_calm st p : calm (get_chunk st p).
Proof. unfold get_chunk. calms. Qed.
#[local] Hint Resolve get_chunk_calm : calm.

Lemma upd_chunk_calm st p f : calm (upd_chunk st p f).
Proof. unfold upd_chunk. calms. Qed.
#[local] Hint Resolve upd_chunk_calm : calm.

Lemma chunk_alloc_calm st n a : calm (zend_mm_chunk_alloc st n a).
Proof. unfold zend_mm_chunk_alloc, zend_mm_chunk_alloc_int. calms. Qed.

Lemma chunk_init_calm st p : calm (zend_mm_chunk_init st p).
Proof. unfold zend_mm_chunk_init. calms. Qed.

Lemma delete_chunk_calm st p : calm (zend_mm_delete_chunk st p).
Proof. unfold zend_mm_delete_chunk, unlink_chunk. calms. Qed.
#[local] Hint Resolve delete_chunk_calm : calm.

Lemma free_pages_calm st c p n b : calm (zend_mm_free_pages_ex st c p n b).
Proof. unfold zend_mm_free_pages_ex. calms. Qed.
#[local] Hint Resolve free_pages_calm : calm.

Lemma slot_run_calm st p : calm (slot_run st p).
Proof. unfold slot_run. calms. Qed.

Lemma set_link_calm st i q p : calm (set_link st i q p).
Proof. unfold set_link. calms. Qed.
#[local] Hint Resolve slot_run_calm set_link_calm : calm.

Lemma gc_count_calm fuel : forall st i p b, calm (gc_count st i p b fuel).
Proof. induction fuel as [|fuel IH]; intros st i p b; cbn [gc_count]; calms. Qed.

Lemma gc_unlink_calm fuel : forall st i q p, calm (gc_unlink st i q p fuel).
Proof. induction fuel as [|fuel IH]; intros st i q p; cbn [gc_unlink]; calms. Qed.
#[local] Hint Resolve gc_count_calm gc_unlink_calm : calm.

Lemma gc_bins_calm fuel : forall st i, calm (gc_bins st i fuel).
Proof. induction fuel as [|fuel IH]; intros st i; cbn [gc_bins]; calms. Qed.

Lemma gc_chunk_calm fuel : forall st c i n, calm (gc_chunk st c i n fuel).
Proof. induction fuel as [|fuel IH]; intros st c i n; cbn [gc_chunk]; calms. Qed.
#[local] Hint Resolve gc_bins_calm gc_chunk_calm : calm.

Lemma gc_chunks_calm fuel : forall st c n k, calm (gc_chunks st c n k fuel).
Proof. induction fuel as [|fuel IH]; intros st c n k; cbn [gc_chunks]; calms. Qed.
#[local] Hint Resolve gc_chunks_calm : calm.

Lemma gc_calm st : calm (zend_mm_gc st).
Proof. unfold zend_mm_gc. calms. Qed.

Lemma find_pages_calm fuel : forall st c n k, calm (find_pages st c n k fuel).
Proof. induction fuel as [|fuel IH]; intros st c n k; cbn [find_pages]; calms. Qed.

Lemma move_to_front_calm st p : calm (move_to_front st p).
Proof. unfold move_to_front. calms. Qed.
#[local] Hint Resolve move_to_front_calm : calm.

Lemma find_huge_calm fuel : forall st p q l, calm (find_huge st p q l fuel).
Proof. induction fuel as [|fuel IH]; intros st p q l; cbn [find_huge]; calms. Qed.
#[local] Hint Resolve find_huge_calm : calm.

Lemma change_size_calm st p n : calm (zend_mm_change_huge_block_size st p n).
Proof. unfold zend_mm_change_huge_block_size. calms. Qed.

Lemma free_heap_calm st p : calm (zend_mm_free_heap st p).
Proof.
  unfold zend_mm_free_heap. revert st p. generalize 2%nat. intros d. induction d as [|d IH]; intros st p; [done|].
  cbn [zend_mm_free_heap_rec]. unfold zend_mm_free_huge, zend_mm_del_huge_block, zend_mm_free_small, zend_mm_free_large,
    zend_mm_free_pages. cbv zeta. calms.
Qed.
End Calm.
#[export] Hint Resolve get_chunk_calm upd_chunk_calm chunk_alloc_calm chunk_init_calm set_link_calm gc_calm find_pages_calm
  move_to_front_calm find_huge_calm change_size_calm free_heap_calm : calm.

(** ** The causes *)
Section Refusals.
Context {Sys : OS}.
Implicit Types (st : mm).

(** [room] more bytes are beyond the memory limit. *)
Definition exhausted st (room : Z) : Prop :=
  overflow (heap st) = 0 /\ limit (heap st) < real_size (heap st) + room.

(** Asked in the state [o] for [n] bytes at a chunk boundary, the system refuses
    them, or gives them elsewhere and refuses the enlarged mapping. *)
Definition refused (o : os_state) (n : Z) : Prop :=
  fst (zend_mm_mmap o n) = None \/
  exists p o1, zend_mm_mmap o n = (Some p, o1) /\ ZEND_MM_ALIGNED_OFFSET p ZEND_MM_CHUNK_SIZE <> 0 /\
    fst (zend_mm_mmap (zend_mm_munmap o1 p n) (u64 (n + ZEND_MM_CHUNK_SIZE - REAL_PAGE_SIZE))) = None.

(** What a request does before it asks the system: it counts, searches the
    chunks and collects. *)
Inductive prepares st : mm -> Prop :=
| prep_count k : prepares st (upd_heap st (add_size k))
| prep_find n r steps st' :
    find_pages st (main_chunk (heap st)) n 0 (S (size (chunks st))) = Ok (r, steps, st') -> prepares st st'
| prep_gc n st' : zend_mm_gc st = Ok (n, st') -> prepares st st'.

(** The system refuses [n] bytes in a state that such steps lead to from the
    present one. *)
Definition turned_away st (n : Z) : Prop := exists st1, rtc prepares st st1 /\ refused (os st1) n.

Definition cause st (n : Z) : Prop := exhausted st n \/ turned_away st n.

(** What a request for [size] bytes asks for: a chunk, or the block when it is huge. *)
Definition asks (size : Z) : Z := if size <=? ZEND_MM_MAX_LARGE_SIZE then ZEND_MM_CHUNK_SIZE else block_size size.

(** The huge block has been mapped, and the chunk for its list node is refused. *)
Definition node_turned_away st (size : Z) : Prop :=
  ZEND_MM_MAX_LARGE_SIZE < size /\ exists st1 p st2, rtc prepares st st1 /\
    zend_mm_chunk_alloc st1 (block_size size) ZEND_MM_CHUNK_SIZE = Ok (Some p, st2) /\ turned_away st2 ZEND_MM_CHUNK_SIZE.

Definition room (size : Z) : Z := Z.max ZEND_MM_CHUNK_SIZE (block_size size).

(** Why a request for [size] bytes may fail. *)
Definition blocked st (size : Z) : Prop :=
  exhausted st (room size) \/ turned_away st (asks size) \/ node_turned_away st size.

(** Why a reallocation may fail: a huge block that could not be extended is
    moved with a request in the state that the attempt has left. *)
Definition realloc_blocked st (p n size : Z) : Prop :=
  blocked st size \/ exists st1, realloc_huge st p n size = Ok (false, st1) /\ blocked st1 size.

(** A result with [post], or a fatal error for which there is a reason. *)
Definition ends {A} (r : res A) (post : A -> Prop) (why : Prop) : Prop :=
  match r with
  | Ok a => post a
  | Err Fatal => why
  | Err _ => False
  end.

Lemma ends_bind {A B} (m : res A) (k : A -> res B) P Q why :
  ends m P why -> (forall a, P a -> ends (k a) Q why) -> ends (rbind m k) Q why.
Proof. destruct m as [a|[]]; simpl; auto. Qed.

Lemma outcome_ends {A} (r : res A) post (why : Prop) : outcome r post -> (r = Err Fatal -> why) -> ends r post why.
Proof. destruct r as [a|[]]; simpl; auto. Qed.

Lemma alloc_none st n st' : zend_mm_chunk_alloc st n ZEND_MM_CHUNK_SIZE = Ok (None, st') -> refused (os st) n.
Proof.
  unfold zend_mm_chunk_alloc, zend_mm_chunk_alloc_int, refused. intros H. apply rbind_inv in H as ([r o] & H & E).
  destruct (zend_mm_mmap (os st) n) as [[p|] o1]; [right|by left]. injection E as -> _. exists p, o1. split; [done|].
  destruct (Z.eqb_spec (ZEND_MM_ALIGNED_OFFSET p ZEND_MM_CHUNK_SIZE) 0); [done|]. split; [done|].
  destruct (zend_mm_mmap _ _) as [[q|] o2]; [|done]. destruct (negb _); cbv iota beta in H; done.
Qed.

Lemma exhausted_le st st' n n' : limit (heap st') = limit (heap st) -> overflow (heap st') = overflow (heap st) ->
  real_size (heap st') + n <= real_size (heap st) + n' -> exhausted st' n -> exhausted st n'.
Proof. unfold exhausted. intros -> -> Hr [H1 H2]. split; [done | lia]. Qed.

Lemma turned_away_after st st' n : rtc prepares st st' -> turned_away st' n -> turned_away st n.
Proof. intros Hp (st1 & H1 & H). exists st1. split; [by etrans | done]. Qed.

Lemma check_limit_prepares st n st' : check_limit st n = Ok st' -> rtc prepares st st'.
Proof.
  unfold check_limit. destruct (_ <? _); [|by intros [= <-]]. intros H. apply rbind_inv in H as ([k st1] & Hg & H).
  apply rtc_once, (prep_gc st k). destruct (_ && _); [by injection H as <-|]. destruct (_ =? 0); [done | by injection H as <-].
Qed.

Lemma new_chunk_retry st st' : new_chunk st = Ok (None, st') -> rtc prepares st st'.
Proof.
  unfold new_chunk. intros H. apply rbind_inv in H as ([retry st1] & H1 & H). destruct retry.
  - injection H as <-. destruct (_ <? _); [|done]. apply rbind_inv in H1 as ([k st2] & Hg & H1). apply rtc_once, (prep_gc st k).
    destruct (negb _); [by injection H1 as <-|]. by destruct (_ =? 0).
  - apply rbind_inv in H as ([r st2] & _ & H). by apply rbind_inv in H as ([x st3] & _ & H).
Qed.

Lemma realloc_large_calm st ch c p n size : calm (realloc_large st ch c p n size).
Proof.
  unfold realloc_large, zend_mm_bitset_is_free_range, shrink_run, grow_run. cbv zeta. calms.
Qed.

Lemma realloc_large_stays st ch c p n size st' : realloc_large st ch c p n size = Ok (false, st') -> st' = st.
Proof.
  unfold realloc_large. destruct (_ && _); [|by intros [= <-]]. destruct (_ =? n); [done|]. destruct (_ <? n).
  - intros H. by apply rbind_inv in H as (c' & _ & H).
  - intros H. apply rbind_inv in H as ([] & _ & H); [by apply rbind_inv in H as (c' & _ & H) | by injection H].
Qed.
End Refusals.

Section Tallied.
Context {Sys : OS} {Laws : OSLaws} {Low : LowMemory} (T : Z) (U : Z -> Prop).
Hypothesis (T_range : 0 <= T <= 2 ^ 47) (U_base : forall a, U a -> U (a / 2 ^ 21 * 2 ^ 21)).
Implicit Types (st : mm).

Lemma cause_after st st' n : tally T U st -> trims T U st st' -> rtc prepares st st' -> cause st' n -> cause st n.
Proof using Type.
  intros Ht Htr Hp. destruct (Htr Ht) as (_ & (_ & K2 & K3) & R & _). intros [H|H]; [left | right].
  - apply (exhausted_le st st' n n); [done | done | lia | done].
  - by apply (turned_away_after st st').
Qed.

Lemma u64_le z : 0 <= z -> u64 z <= z.
Proof using Type. intros H. unfold u64. apply Z.mod_le; lia. Qed.

Lemma new_chunk_fatal st : tally T U st -> new_chunk st = Err Fatal -> cause st ZEND_MM_CHUNK_SIZE.
Proof using T_range U_base.
  intros Ht H. pose proof (tally_real T U T_range _ Ht) as Hr. unfold new_chunk in H. apply fatal_bind in H as [H|([retry st1] & H1 & H)].
  - left. destruct (Z.ltb_spec (limit (heap st)) (u64 (real_size (heap st) + ZEND_MM_CHUNK_SIZE))) as [Hl|]; [|done].
    apply fatal_bind in H as [H|([k st1] & Hg & H)]; [by apply gc_calm in H|]. destruct (negb _); [done|].
    destruct (Z.eqb_spec (overflow (heap st1)) 0) as [Ho|]; [|done]. apply (gc_trims T U) in Hg; [|done..].
    destruct (Hg Ht) as (_ & (_ & _ & K3) & _). split; [congruence|].
    pose proof (u64_le (real_size (heap st) + ZEND_MM_CHUNK_SIZE) ltac:(unfold ZEND_MM_CHUNK_SIZE; lia)). lia.
  - assert (Htr : trims T U st st1 /\ rtc prepares st st1).
    { destruct (_ <? _); [|injection H1 as <- <-; split; [by apply same_trims | done]].
      apply rbind_inv in H1 as ([k st2] & Hg & H1). assert (st2 = st1) as ->.
      { destruct (negb _); [by injection H1|]. destruct (_ =? 0); [done | by injection H1]. }
      split; [by apply (gc_trims T U) in Hg | by eapply rtc_once, prep_gc]. }
    destruct Htr as [Htr Hp]. apply (cause_after st st1); [done..|]. right. destruct retry; [done|].
    apply fatal_bind in H as [H|([x st2] & Hb & H)]; [by apply chunk_alloc_calm in H|].
    destruct x as [x|]; [by apply fatal_bind in H as [H|([? ?] & _ & H)]|].
    exists st1. split; [done|]. by apply alloc_none in Hb.
Qed.

Lemma take_chunk_fatal fuel : forall st, tally T U st -> take_chunk st fuel = Err Fatal -> cause st ZEND_MM_CHUNK_SIZE.
Proof using Low T_range U_base.
  induction fuel as [|fuel IH]; intros st Ht H; [done|]. cbn [take_chunk] in H. destruct (negb _).
  - apply fatal_bind in H as [H|(c & _ & H)]; [by apply get_chunk_calm in H | done].
  - apply fatal_bind in H as [H|([[x|] st1] & Hn & H)]; [by apply new_chunk_fatal | done|].
    pose proof (new_chunk_retry _ _ Hn) as Hp. apply (new_chunk_steady T U T_range U_base) in Hn. destruct (Hn Ht) as (Ht1 & _).
    apply (cause_after st st1); [done..|]. by apply IH.
Qed.

Lemma alloc_pages_fatal st n : tally T U st -> zend_mm_alloc_pages st n = Err Fatal -> cause st ZEND_MM_CHUNK_SIZE.
Proof using Low T_range U_base.
  intros Ht H. unfold zend_mm_alloc_pages in H.
  apply fatal_bind in H as [H|([[hit steps] st1] & Hf & H)]; [by apply find_pages_calm in H|].
  pose proof (rtc_once _ _ (prep_find _ _ _ _ _ Hf)) as Hp. apply find_pages_same in Hf.
  apply (cause_after st st1); [done | by apply same_trims | done|].
  apply (tally_view T U _ _ Hf) in Ht. apply fatal_bind in H as [H|([[chunk page] st2] & _ & H)].
  - destruct hit as [[? ?]|]; [done|]. apply fatal_bind in H as [H|([c st2] & _ & H)]; [by eapply take_chunk_fatal|].
    calm_down H.
  - calm_down H.
Qed.

Lemma alloc_small_fatal st b : tally T U st -> zend_mm_alloc_small st b = Err Fatal -> cause st ZEND_MM_CHUNK_SIZE.
Proof using Low T_range U_base.
  intros Ht H. unfold zend_mm_alloc_small in H. apply fatal_bind in H as [H|(p & _ & H)]; [by apply aget_calm in H|].
  destruct (negb _); [calm_down H|]. unfold zend_mm_alloc_small_slow in H.
  apply fatal_bind in H as [H|([bin st1] & _ & H)]; [|calm_down H].
  apply alloc_pages_fatal in H; [|by apply resize_tally].
  destruct H as [H|H]; [left; exact H | right]. eapply turned_away_after; [|exact H]. apply rtc_once, prep_count.
Qed.

Lemma alloc_large_fatal st n : tally T U st -> zend_mm_alloc_large st n = Err Fatal -> cause st ZEND_MM_CHUNK_SIZE.
Proof using Low T_range U_base.
  intros Ht H. unfold zend_mm_alloc_large in H. apply fatal_bind in H as [H|([q st1] & _ & H)]; [|done]. by apply alloc_pages_fatal in H.
Qed.

Lemma check_limit_fatal st n : 0 <= n -> tally T U st -> check_limit st n = Err Fatal -> exhausted st n.
Proof using T_range U_base.
  intros Hn Ht H. pose proof (tally_real T U T_range _ Ht) as Hr. unfold check_limit in H.
  destruct (Z.ltb_spec (limit (heap st)) (u64 (real_size (heap st) + n))) as [Hl|]; [|done].
  apply fatal_bind in H as [H|([k st1] & Hg & H)]; [by apply gc_calm in H|]. destruct (_ && _); [done|].
  destruct (Z.eqb_spec (overflow (heap st1)) 0) as [Ho|]; [|done]. apply (gc_trims T U) in Hg; [|done..].
  destruct (Hg Ht) as (_ & (_ & _ & K3) & _). split; [congruence|]. pose proof (u64_le (real_size (heap st) + n) ltac:(lia)). lia.
Qed.

Lemma chunk_blocked st size : size <= ZEND_MM_MAX_LARGE_SIZE -> cause st ZEND_MM_CHUNK_SIZE -> blocked st size.
Proof using Type.
  intros Hs [H|H]; [left; apply (exhausted_le st st ZEND_MM_CHUNK_SIZE); done || unfold room; lia | right; left].
  unfold asks. by destruct (Z.leb_spec size ZEND_MM_MAX_LARGE_SIZE); [|lia].
Qed.
End Tallied.

(** ** A huge block and its node *)
Section TalliedHuge.
Context {Sys : OS} {Laws : OSLaws} {Low : LowMemory} (T : Z) (U : Z -> Prop).
Hypothesis (T_range : 0 <= T <= 2 ^ 47) (U_base : forall a, U a -> U (a / 2 ^ 21 * 2 ^ 21)).
Implicit Types (st : mm).

(** The node is allocated when the block is mapped already. *)
Lemma node_fatal d st1 st o p size : tally T U st -> trims T U st st1 -> rtc prepares st st1 -> ZEND_MM_MAX_LARGE_SIZE < size ->
  zend_mm_chunk_alloc st1 (block_size size) ZEND_MM_CHUNK_SIZE = Ok (Some p, set_os st1 o) -> p mod 2 ^ 21 = 0 ->
  new_mapping (os st1) o p (block_size size) ->
  zend_mm_alloc_heap_rec (S d) (set_os st1 o) sizeof_huge_list = Err Fatal -> blocked st size.
Proof using Low T_range U_base.
  intros Ht Htr Hp Hl Hc Hpa Hnew H. destruct (Htr Ht) as (Ht1 & (_ & K2 & K3) & R & _).
  apply (alloc_small_fatal T (plus U p (block_size size)) T_range) in H; [|intros a; by apply plus_base | by apply tally_map].
  destruct H as [H|H]; [left | right; right].
  - apply (exhausted_le st (set_os st1 o) ZEND_MM_CHUNK_SIZE (room size)); [done | done | unfold room; cbn; lia | done].
  - split; [done|]. by exists st1, p, (set_os st1 o).
Qed.

Lemma alloc_huge_fatal d st size : tally T U st -> 0 <= size < 2 ^ 64 -> ZEND_MM_MAX_LARGE_SIZE < size ->
  null_free (os st) (block_size size) ->
  zend_mm_alloc_huge (zend_mm_alloc_heap_rec (S d)) st size = Err Fatal -> blocked st size.
Proof using Low T_range U_base.
  intros Ht Hs Hl Hnull H. destruct (huge_size_cases size Hs) as (Hnm & Hn & _). pose proof (block_size_huge size Hl) as Hb.
  unfold zend_mm_alloc_huge in H. rewrite <- Hb in H, Hnm, Hn. clear Hb.
  apply fatal_bind in H as [H|(st0 & H0 & H)].
  { apply (check_limit_fatal T U T_range U_base st _ (proj1 Hn) Ht) in H. left.
    apply (exhausted_le st st (block_size size)); done || unfold room; lia. }
  pose proof (check_limit_prepares _ _ _ H0) as Hp.
  apply (check_limit_trims T U T_range U_base) in H0 as (Htr0 & _); [|lia]. destruct (Htr0 Ht) as (_ & _ & _ & M).
  apply fatal_bind in H as [H|([r st1] & H1 & H)]; [by apply chunk_alloc_calm in H|]. destruct r as [p|].
  - cbn [rbind] in H. apply fatal_bind in H as [H|([node st3] & _ & H)]; [|done]. pose proof H1 as Hc.
    apply alloc_cases in H1 as (o & -> & Hn0 & Hpa & Hnew); [|done..|by apply (null_free_mono (os st))].
    by apply (node_fatal d st0 st o p size).
  - right. left. exists st0. split; [done|]. apply alloc_none in H1. unfold asks.
    by destruct (Z.leb_spec size ZEND_MM_MAX_LARGE_SIZE); [lia|].
Qed.

Lemma realloc_huge_fatal st p n size : tally T U st -> 0 < n -> realloc_huge st p n size = Err Fatal -> blocked st size.
Proof using T_range U_base.
  intros Ht Hn H. unfold realloc_huge in H. destruct (Z.ltb_spec ZEND_MM_MAX_LARGE_SIZE size) as [Hl|]; [|done].
  rewrite <- (block_size_huge size Hl) in H. destruct (_ =? n); [calm_down H|].
  destruct (Z.ltb_spec (block_size size) n) as [|Hge]; [unfold zend_mm_chunk_truncate in H; cbv iota beta in H; calm_down H|].
  apply fatal_bind in H as [H|(st1 & _ & H)].
  - apply (check_limit_fatal T U T_range U_base) in H; [|lia|done]. left.
    apply (exhausted_le st st (block_size size - n)); done || unfold room; lia.
  - destruct (zend_mm_chunk_extend _ _ _ _) as [[] st2]; [calm_down H | done].
Qed.
End TalliedHuge.

(** ** Requests *)
Section Progress.
Context {Sys : OS} {Laws : OSLaws} {Low : LowMemory} {Rest : Foreign}.
Implicit Types (st : mm) (live : gmap Z Z).

Lemma alloc_fatal st live size : represents st live -> accounted st live -> 0 <= size < 2 ^ 64 -> may_alloc st live size ->
  zend_mm_alloc_heap st size = Err Fatal -> blocked st size.
Proof.
  intros Hr [Ht _] Hs Hm H. pose proof (huge_range_total _ _ Hr) as HT. unfold zend_mm_alloc_heap in H. cbn [zend_mm_alloc_heap_rec] in H.
  destruct (Z.leb_spec size ZEND_MM_MAX_SMALL_SIZE) as [Hsm|]; [|destruct (Z.leb_spec size ZEND_MM_MAX_LARGE_SIZE)].
  - apply chunk_blocked; [change ZEND_MM_MAX_SMALL_SIZE with 3072 in Hsm; change ZEND_MM_MAX_LARGE_SIZE with 2093056; lia|].
    by apply (alloc_small_fatal _ _ HT (in_huge_base live)) in H.
  - apply chunk_blocked; [done|]. by apply (alloc_large_fatal _ _ HT (in_huge_base live)) in H.
  - apply (alloc_huge_fatal _ _ HT (in_huge_base live) 0); try done. by destruct Hm as [[_ [?|?]]|[_ ?]]; [lia | | lia].
Qed.

Lemma request_ends st live size :
  represents st live -> accounted st live -> 0 <= size < 2 ^ 64 -> may_alloc st live size ->
  ends (zend_mm_alloc_heap st size) (fun r => let '(p, st') := r in let n := block_size size in
    size <= n /\ live !! p = None /\ represents st' (<[p := n]> live) /\
    (forall q m, live !! q = Some m -> rdisj (p, n) (q, m)) /\ same_contents live st st') (blocked st size).
Proof. intros Hr Hac Hs Hm. apply outcome_ends; [by apply alloc_represents|]. by apply (alloc_fatal st live). Qed.

(** C3: A request returns a block of the size of its bin or of whole pages, at
    least the requested size, at an address that was not in use; the block
    overlaps no other one, it is added to the blocks, and the bytes of the
    others stay.  Or the request ends with the fatal error of the manager, and
    then the memory limit leaves no room for a chunk or for the block, or the
    system refuses a chunk, the block or the chunk for the list node of the
    block, in a state to which counting, searching and collecting lead from
    the present one ([turned_away]).  There is no other error.  [may_alloc]:
    the main chunk is in use, and nothing is mapped at the low addresses that
    the code unmaps when the system refuses the enlarged mapping of a huge
    block; or no page of the main chunk is in use and the block is not huge. *)
Theorem zend_mm_alloc_heap_correct st live size :
  represents st live -> accounted st live -> 0 <= size < 2 ^ 64 -> may_alloc st live size ->
  ends (zend_mm_alloc_heap st size) (fun r => let '(p, st') := r in let n := block_size size in
    size <= n /\ live !! p = None /\ represents st' (<[p := n]> live) /\
    (forall q m, live !! q = Some m -> rdisj (p, n) (q, m)) /\ same_contents live st st') (blocked st size).
Proof. apply request_ends. Qed.

Lemma realloc_naive_fatal st live p n size copy :
  represents st live -> accounted st live -> 0 <= size < 2 ^ 64 -> may_alloc st live size ->
  realloc_naive st p n size copy = Err Fatal -> blocked st size.
Proof.
  intros Hr Hac Hs Hm H. unfold realloc_naive in H. apply fatal_bind in H as [H|([q st1] & _ & H)]; [by apply (alloc_fatal st live)|].
  calm_down H.
Qed.

Lemma realloc_fatal st live p n size copy :
  represents st live -> accounted st live -> live !! p = Some n -> 0 <= size <= 2 ^ 64 - REAL_PAGE_SIZE -> may_alloc st live size ->
  zend_mm_realloc_heap st p size copy = Err Fatal -> realloc_blocked st p n size.
Proof.
  intros Hr Hac Hp Hs Hm H. pose proof Hs as Hs'. change REAL_PAGE_SIZE with 4096 in Hs'.
  assert (Hnaive : forall st1, represents st1 live -> accounted st1 live -> may_alloc st1 live size -> forall n,
    realloc_naive st1 p n size copy = Err Fatal -> blocked st1 size).
  { intros st1 Hr1 Hac1 Hm1 m. apply (realloc_naive_fatal st1 live); done || lia. }
  destruct (live_bounds _ _ _ _ Hr Hp) as (Hp0 & Hn0 & _). unfold zend_mm_realloc_heap in H. cbv zeta in H.
  destruct (Z.eqb_spec (ZEND_MM_ALIGNED_OFFSET p ZEND_MM_CHUNK_SIZE) 0) as [Ha|_].
  - destruct (Z.eqb_spec p 0); [lia|]. rewrite aligned_offset in Ha.
    assert (Ea : aligned p = true) by (unfold aligned; by rewrite Ha).
    pose proof Hr as (_ & L & Hok & _ & _ & Hl). assert (Ho : owned L p n) by (by apply Hl).
    destruct (proj1 (aligned_huge _ _ _ _ Hok Ho) Ea) as (node & Hin).
    rewrite (huge_size_ok st L node p n Hok Hin) in H. cbn [rbind] in H.
    apply fatal_bind in H as [H|([[] st1] & H1 & H)]; [|done|].
    + left. by apply (realloc_huge_fatal _ _ (huge_range_total _ _ Hr) (in_huge_base live) st p n size (ac_tally _ _ Hac) Hn0) in H.
    + destruct (realloc_huge_stays st live p n size st1 Hr Hac Hp Ea Hs Hm H1) as (Hr1 & Hac1 & Hm1 & K).
      right. exists st1. split; [done|]. by apply Hnaive in H.
  - left. apply fatal_bind in H as [H|(c & _ & H)]; [calm_down H|]. apply fatal_bind in H as [H|(info & _ & H)]; [calm_down H|].
    destruct (negb _); [done|]. destruct (info_has _ _).
    { destruct (_ && _); [done|]. by apply Hnaive in H. }
    destruct (negb _); [done|]. apply fatal_bind in H as [H|([ip st1] & H1 & H)].
    { exfalso. revert H. by apply realloc_large_calm. }
    destruct ip; [done|]. apply realloc_large_stays in H1 as ->. by apply Hnaive in H.
Qed.

(** C5: [zend_mm_realloc_heap] returns a block of the size that a request of
    the new size gets, at least the new size, in place of the old one; it
    holds the first bytes of the old block, as many as both sizes and
    [copy_size] allow; the other blocks are untouched.  Or it ends with the
    fatal error of the manager, for one of the reasons of a request of the new
    size, in this state or in the one that an attempt to extend the block has
    left.  The new size is below [2 ^ 64] by a page, and the main chunk is not
    lost by the request or the release ([may_alloc], [may_free]). *)
Theorem zend_mm_realloc_heap_correct st live p n size copy_size :
  represents st live -> accounted st live -> live !! p = Some n ->
  0 <= size <= 2 ^ 64 - REAL_PAGE_SIZE -> 0 <= copy_size <= size -> may_alloc st live size -> may_free st live p n ->
  ends (zend_mm_realloc_heap st p size copy_size) (fun r => let '(q, st') := r in let k := block_size size in
    size <= k /\ (q = p \/ live !! q = None) /\ represents st' (<[q := k]> (delete p live)) /\
    same_contents (delete p live) st st' /\
    (forall i, 0 <= i < Z.min n copy_size -> byte_at (mem st') (q + i) = byte_at (mem st) (p + i))) (realloc_blocked st p n size).
Proof.
  intros Hr Hac Hp Hs Hc Hma Hmf. apply outcome_ends; [by apply realloc_represents|]. by apply (realloc_fatal st live p n).
Qed.

(** A fresh heap has one chunk and no block. *)
Lemma init_accounted o st o' : zend_mm_init o = Ok (Some st, o') -> accounted st ∅.
Proof.
  unfold zend_mm_init. intros H. apply rbind_inv in H as ([c o1] & Hc & H).
  pose proof (chunk_alloc_int_spec o ZEND_MM_CHUNK_SIZE ltac:(done) ltac:(done) (chunk_null_free o)) as Hs. rewrite Hc in Hs. cbn [outcome] in Hs.
  destruct c as [c|]; [|done]. destruct Hs as (_ & Ha & [Hp He _ Hm]). apply rbind_inv in H as (fm & _ & H).
  apply rbind_inv in H as (pm & _ & H). injection H as <- <-. split; [|done].
  assert (Hno : forall a, ~ in_huge ∅ a) by (intros a (p & n & Hl & _); by rewrite lookup_empty in Hl).
  split; cbn [chunks heap os real_size].
  - intros p Hd. rewrite dom_singleton_L in Hd. apply elem_of_singleton in Hd as ->.
    do 2 (split; [done|]). split; [exact He|]. split; [apply Hm; right; unfold ZEND_MM_CHUNK_SIZE; lia | apply Hno].
  - intros a Hu. by apply Hno in Hu.
  - rewrite dom_singleton_L, size_singleton. done.
Qed.

(** C13: From the first heap on, after every request, [memory_get_usage(true)] is the bytes of
    the mapped chunks and huge blocks and [memory_get_usage()] the bytes handed
    out, with the list nodes; and [real_size] is within the limit but for one
    chunk, or no larger than before. *)
Theorem requests_accounted st live : represents st live -> accounted st live ->
  (forall o st' o', zend_mm_init o = Ok (Some st', o') -> accounted st' ∅) /\
  (forall size p st', 0 <= size < 2 ^ 64 -> may_alloc st live size -> zend_mm_alloc_heap st size = Ok (p, st') ->
    accounted st' (<[p := block_size size]> live) /\ limited st st') /\
  (forall p n st', live !! p = Some n -> zend_mm_free_heap st p = Ok st' ->
    accounted st' (delete p live) /\ zend_memory_usage st' true <= zend_memory_usage st true) /\
  (forall p n size copy q st', live !! p = Some n -> 0 <= size <= 2 ^ 64 - REAL_PAGE_SIZE -> 0 <= copy <= size ->
    may_alloc st live size -> zend_mm_realloc_heap st p size copy = Ok (q, st') ->
    accounted st' (<[q := block_size size]> (delete p live)) /\ limited st st') /\
  (forall n st', zend_mm_gc st = Ok (n, st') -> accounted st' live /\ zend_memory_usage st' true <= zend_memory_usage st true).
Proof.
  intros Hr Hac. split; [exact init_accounted|]. split; [|split; [|split]].
  - intros size p st' Hs Hm H. pose proof (alloc_represents st live size Hr Hs Hm) as Ho. rewrite H in Ho.
    destruct Ho as (_ & Hn & _). by apply (alloc_accounted st live size p st').
  - intros p n st' Hp H. destruct (free_accounted st live p n st' Hr Hac Hp H) as (? & _ & ?). done.
  - intros p n size copy q st' Hp Hs Hc Hm H. by apply (realloc_accounted st live p n size copy q st').
  - intros n st' H. apply (gc_trims _ _ (huge_range_total _ _ Hr) (in_huge_base live)) in H.
    destruct (trims_accounted _ _ _ Hac H) as (? & _ & _ & ?). done.
Qed.

End Progress.

(** ** Blocks that are filled *)
Section Clients.
Context {Sys : OS} {Laws : OSLaws} {Low : LowMemory} {Rest : Foreign}.
Implicit Types (st : mm) (live : gmap Z Z).

Lemma guarded_ok nmemb size : 0 <= nmemb < 2 ^ 64 -> 0 <= size < 2 ^ 64 ->
  zend_safe_address_guarded nmemb size 0 = if nmemb * size <? 2 ^ 64 then Ok (nmemb * size) else Err Overflow.
Proof.
  intros Hn Hs. unfold zend_safe_address_guarded. rewrite safe_address_spec, Z.add_0_r by lia. by destruct (_ <? _).
Qed.

(** C15: [_ecalloc] ends the request with the error of [zend_safe_address_guarded]
    exactly when the product of its arguments does not fit in 64 bits.
    Otherwise it returns a block at an address that was not in use, whose bytes
    up to the product are zero, and leaves the other blocks alone; or the
    request of that many bytes fails, for one of the reasons of [blocked]; the
    request is one that [may_alloc] admits. *)
Theorem ecalloc_correct st live nmemb size :
  represents st live -> accounted st live -> 0 <= nmemb < 2 ^ 64 -> 0 <= size < 2 ^ 64 ->
  (nmemb * size < 2 ^ 64 -> may_alloc st live (nmemb * size)) ->
  (_ecalloc st nmemb size = Err Overflow <-> 2 ^ 64 <= nmemb * size) /\
  (nmemb * size < 2 ^ 64 -> ends (_ecalloc st nmemb size) (fun r => let '(p, st') := r in
    live !! p = None /\ represents st' (<[p := block_size (nmemb * size)]> live) /\ same_contents live st st' /\
    forall i, 0 <= i < nmemb * size -> byte_at (mem st') (p + i) = 0) (blocked st (nmemb * size))).
Proof.
  intros Hr Hac Hn Hs Hm. assert (Hfit : nmemb * size < 2 ^ 64 -> ends (_ecalloc st nmemb size) (fun r => let '(p, st') := r in
    live !! p = None /\ represents st' (<[p := block_size (nmemb * size)]> live) /\ same_contents live st st' /\
    forall i, 0 <= i < nmemb * size -> byte_at (mem st') (p + i) = 0) (blocked st (nmemb * size))).
  { intros Hlt. unfold _ecalloc, _safe_emalloc. rewrite guarded_ok by done.
    destruct (Z.ltb_spec (nmemb * size) (2 ^ 64)); [|lia]. rsimp. rewrite (Z.mul_comm size nmemb), u64_small by nia.
    eapply ends_bind; [apply (request_ends st live); [done | done | nia | by apply Hm]|].
    intros [p st1] (Hle & Hnone & Hr1 & Hd & Hc). cbn [ends]. set (m := memset _ _ _ _).
    assert (Hset : forall a, byte_at m a = if (p <=? a) && (a <? p + nmemb * size) then 0 else byte_at (mem st1) a)
      by (intros a; subst m; by rewrite memset_spec, Z2Nat.id by nia).
    split; [done|]. split; [|split].
    - apply (write_represents st1 _ p (block_size (nmemb * size))); [done | apply lookup_insert_eq|].
      intros a Ha. rewrite Hset. zcases; simpl; done || lia.
    - intros q k a Hq Ha. cbn [mem set_mem]. rewrite Hset. specialize (Hd q k Hq). unfold rdisj in Hd. cbn [fst snd] in Hd.
      zcases; simpl; try lia; by apply (Hc q k).
    - intros i Hi. cbn [mem set_mem]. rewrite Hset. zcases; simpl; done || lia. }
  split; [|exact Hfit]. split.
  - intros E. destruct (Z.lt_ge_cases (nmemb * size) (2 ^ 64)) as [Hlt|]; [|done]. specialize (Hfit Hlt). by rewrite E in Hfit.
  - intros Hge. unfold _ecalloc, _safe_emalloc. rewrite guarded_ok by done. by destruct (Z.ltb_spec (nmemb * size) (2 ^ 64)); [lia|].
Qed.

(** [_estrndup] returns a fresh block with the bytes of the
    string and a zero byte behind them. *)
Theorem estrndup_correct st live q k s length :
  represents st live -> accounted st live -> live !! q = Some k -> q <= s -> 0 <= length -> s + length <= q + k -> length + 1 < 2 ^ 64 ->
  may_alloc st live (length + 1) ->
  ends (_estrndup st s length) (fun r => let '(p, st') := r in
    live !! p = None /\ represents st' (<[p := block_size (length + 1)]> live) /\ same_contents live st st' /\
    (forall i, 0 <= i < length -> byte_at (mem st') (p + i) = byte_at (mem st) (s + i)) /\ byte_at (mem st') (p + length) = 0)
    (blocked st (length + 1)).
Proof.
  intros Hr Hac Hq Hqs Hl Hsq Hb Hm. unfold _estrndup. rewrite u64_small by lia. destruct (Z.eqb_spec (length + 1) 0); [lia|].
  assert (Hcopy : forall p m, rdisj (p, length + 1) (q, k) -> forall a, byte_at (copy_bytes m p s (Z.to_nat length)) a =
    if (p <=? a) && (a <? p + length) then byte_at m (s + (a - p)) else byte_at m a).
  { intros p m Hd a. unfold rdisj in Hd. cbn [fst snd] in Hd. rewrite copy_bytes_spec by lia. by rewrite Z2Nat.id by lia. }
  eapply ends_bind; [apply (request_ends st live); done || lia|].
  intros [p st1] (Hle & Hnone & Hr1 & Hd & Hc). cbn [ends].
  assert (Hdq : rdisj (p, length + 1) (q, k)).
  { specialize (Hd q k Hq). unfold rdisj in *. cbn [fst snd] in *. lia. }
  split; [done|]. split; [|split].
  - apply (write_represents st1 _ p (block_size (length + 1))); [done | apply lookup_insert_eq|].
    intros a Ha. rewrite byte_at_insert, (Hcopy p) by done. zcases; simpl; done || lia.
  - intros x j a Hx Ha. cbn [mem set_mem]. specialize (Hd x j Hx). unfold rdisj in Hd. cbn [fst snd] in Hd.
    rewrite byte_at_insert, (Hcopy p) by done. zcases; simpl; try lia; by apply (Hc x j).
  - cbn [mem set_mem]. split.
    + intros i Hi. rewrite byte_at_insert, (Hcopy p) by done. zcases; simpl; try lia.
      replace (s + (p + i - p)) with (s + i) by lia. apply (Hc q k); [done | lia].
    + by rewrite byte_at_insert, Z.eqb_refl.
Qed.
End Clients.

(** ** Sessions

    A program uses the manager through these operations; what it may rely on
    are the blocks it holds and the bytes it has stored in them. *)
Inductive op :=
| Malloc (size : Z)
| Free (p : Z)
| Realloc (p size copy_size : Z)
| Collect
| Store (a v : Z).

(** An operation returns the address of a block, or the freed bytes. *)
Definition execute {Sys : OS} (st : mm) (o : op) : res (Z * mm) :=
  match o with
  | Malloc size => _emalloc st size
  | Free p => let! st := _efree st p in Ok (0, st)
  | Realloc p size copy_size => _erealloc2 st p size copy_size
  | Collect => zend_mm_gc st
  | Store a v => Ok (0, set_mem st (<[a := v]> (mem st)))
  end.

Record user := User { blocks : gmap Z Z; stored : Z -> option Z }.

Definition within (p n a : Z) : bool := (p <=? a) && (a <? p + n).

(** What the program knows after the answer [r] to an operation. *)
Definition learns (u : user) (o : op) (r : Z) : user :=
  match o with
  | Malloc size => User (<[r := block_size size]> (blocks u)) (stored u)
  | Free p =>
      let n := default 0 (blocks u !! p) in
      User (delete p (blocks u)) (fun a => if within p n a then None else stored u a)
  | Realloc p size copy_size =>
      let n := default 0 (blocks u !! p) in
      User (<[r := block_size size]> (delete p (blocks u)))
        (fun a => if within r (Z.min n copy_size) a then stored u (p + (a - r))
                  else if within p n a then None else stored u a)
  | Collect => u
  | Store a v => User (blocks u) (fun b => if b =? a then Some v else stored u b)
  end.

Section Sessions.
Context {Sys : OS} {Laws : OSLaws} {Low : LowMemory} {Rest : Foreign}.
Implicit Types (st : mm) (u : user).

(** The duties of the program: it releases and writes its own blocks only. *)
Definition permitted st u (o : op) : Prop :=
  match o with
  | Malloc size => 0 <= size < 2 ^ 64 /\ may_alloc st (blocks u) size
  | Free p => exists n, blocks u !! p = Some n /\ may_free st (blocks u) p n
  | Realloc p size copy_size => exists n, blocks u !! p = Some n /\ may_free st (blocks u) p n /\
      0 <= size <= 2 ^ 64 - REAL_PAGE_SIZE /\ 0 <= copy_size <= size /\ may_alloc st (blocks u) size
  | Collect => main_in_use st (blocks u)
  | Store a v => exists p n, blocks u !! p = Some n /\ p <= a < p + n
  end.

Inductive session : mm -> user -> Prop :=
| session_start o st o' :
    (forall a, foreign a <-> mapped o a) -> zend_mm_init o = Ok (Some st, o') -> session st (User ∅ (fun _ => None))
| session_step st u o r st' :
    session st u -> permitted st u o -> execute st o = Ok (r, st') -> session st' (learns u o r).

(** Why an operation may end the session: only requests do. *)
Definition stopped st u (o : op) : Prop :=
  match o with
  | Malloc size => blocked st size
  | Realloc p size _ => realloc_blocked st p (default 0 (blocks u !! p)) size
  | _ => False
  end.

(** The invariant of a session. *)
Record holds st u : Prop := {
  ho_blocks : represents st (blocks u);
  ho_account : accounted st (blocks u);
  ho_stored a v : stored u a = Some v -> byte_at (mem st) a = v /\ exists p n, blocks u !! p = Some n /\ p <= a < p + n
}.

Lemma within_spec p n a : within p n a = true <-> p <= a < p + n.
Proof. unfold within. rewrite andb_true_iff, Z.leb_le, Z.ltb_lt. done. Qed.

Lemma within_not p n a : within p n a = false <-> ~ (p <= a < p + n).
Proof. rewrite <- within_spec. by destruct (within p n a). Qed.

(** A byte of another block than [p]. *)
Lemma elsewhere st u p n a v : holds st u -> blocks u !! p = Some n -> stored u a = Some v -> within p n a = false ->
  byte_at (mem st) a = v /\ exists q k, delete p (blocks u) !! q = Some k /\ q <= a < q + k.
Proof.
  intros [_ _ Hs] Hp Ha Hw. apply within_not in Hw. destruct (Hs a v Ha) as (Hb & q & k & Hq & Hin). split; [done|].
  exists q, k. split; [|done]. apply lookup_delete_Some. split; [|done]. intros <-. rewrite Hp in Hq. by injection Hq as <-.
Qed.

Lemma malloc_holds st u size : holds st u -> 0 <= size < 2 ^ 64 -> may_alloc st (blocks u) size ->
  ends (execute st (Malloc size)) (fun x => holds (snd x) (learns u (Malloc size) (fst x)) /\ size <= block_size size /\ blocks u !! fst x = None)
    (blocked st size).
Proof.
  intros [Hr Hac Hst] Hs Hm. cbn [execute learns]. unfold _emalloc. pose proof (request_ends st (blocks u) size Hr Hac Hs Hm) as He.
  destruct (zend_mm_alloc_heap st size) as [[p st']|[]] eqn:E; cbn [ends fst snd] in *; try done.
  destruct He as (Hle & Hno & Hr' & Hd & Hc). split; [|done]. split; cbn [blocks stored]; [done| |].
  - by apply (alloc_accounted st (blocks u) size p st').
  - intros a v Ha. destruct (Hst a v Ha) as (Hb & q & k & Hq & Hin). split; [by rewrite (Hc q k a)|].
    exists q, k. split; [|done]. rewrite lookup_insert_ne; [done|]. intros ->. by rewrite Hno in Hq.
Qed.

Lemma free_holds st u p n : holds st u -> blocks u !! p = Some n -> may_free st (blocks u) p n ->
  exists st', execute st (Free p) = Ok (0, st') /\ holds st' (learns u (Free p) 0).
Proof.
  intros Hh Hp Hm. pose proof Hh as [Hr Hac _]. cbn [execute learns]. unfold _efree.
  destruct (free_represents st (blocks u) p n Hr Hp Hm) as (st' & E & Hr' & Hc). rewrite E. exists st'. split; [done|].
  rewrite Hp. change (default 0 (Some n)) with n. split; cbn [blocks stored]; [done | by apply (free_accounted st (blocks u) p n)|].
  intros a v. destruct (within p n a) eqn:Ew; [done|]. intros Ha.
  destruct (elsewhere st u p n a v Hh Hp Ha Ew) as (Hb & q & k & Hq & Hin). split; [by rewrite (Hc q k a) | by exists q, k].
Qed.

Lemma realloc_holds st u p n size copy : holds st u -> blocks u !! p = Some n -> may_free st (blocks u) p n ->
  0 <= size <= 2 ^ 64 - REAL_PAGE_SIZE -> 0 <= copy <= size -> may_alloc st (blocks u) size ->
  ends (execute st (Realloc p size copy)) (fun x => holds (snd x) (learns u (Realloc p size copy) (fst x)) /\
    size <= block_size size /\ (fst x = p \/ blocks u !! fst x = None)) (realloc_blocked st p n size).
Proof.
  intros Hh Hp Hmf Hs Hc Hm. pose proof Hh as [Hr Hac Hst]. cbn [execute learns]. unfold _erealloc2. rewrite Hp. change (default 0 (Some n)) with n.
  pose proof (realloc_represents st (blocks u) p n size copy Hr Hp Hs Hc Hm Hmf) as Ho.
  pose proof (realloc_fatal st (blocks u) p n size copy Hr Hac Hp Hs Hm) as Hf.
  destruct (zend_mm_realloc_heap st p size copy) as [[q st']|[]] eqn:E; cbn [ends outcome fst snd] in *; try done; [|by apply Hf].
  destruct Ho as (Hle & Hq & Hr' & Hsame & Hcopy). split; [|done]. split; cbn [blocks stored]; [done| |].
  - by apply (realloc_accounted st (blocks u) p n size copy q st').
  - intros a v. destruct (within q (Z.min n copy) a) eqn:Ew.
    + apply within_spec in Ew. intros Ha. destruct (Hst _ v Ha) as (Hb & _). split.
      * replace a with (q + (a - q)) by lia. rewrite Hcopy by lia. done.
      * exists q, (block_size size). split; [apply lookup_insert_eq | lia].
    + destruct (within p n a) eqn:Ew'; [done|]. intros Ha.
      destruct (elsewhere st u p n a v Hh Hp Ha Ew') as (Hb & x & k & Hx & Hin). split; [by rewrite (Hsame x k a)|].
      exists x, k. split; [|done]. apply lookup_delete_Some in Hx as [Hne Hx]. rewrite lookup_insert_ne.
      * by rewrite lookup_delete_ne.
      * intros ->. destruct Hq as [->|Hq]; [done | by rewrite Hq in Hx].
Qed.

Lemma collect_holds st u : holds st u -> main_in_use st (blocks u) ->
  exists n st', execute st Collect = Ok (n, st') /\ holds st' (learns u Collect n).
Proof.
  intros [Hr Hac Hst] Hm. cbn [execute learns]. destruct (gc_represents st (blocks u) Hr Hm) as (n & st' & E & Hr' & Hc).
  exists n, st'. split; [done|]. split; [done| |].
  - apply (gc_trims _ _ (huge_range_total _ _ Hr) (in_huge_base (blocks u))) in E. by destruct (trims_accounted _ _ _ Hac E).
  - intros a v Ha. destruct (Hst a v Ha) as (Hb & q & k & Hq & Hin). split; [by rewrite (Hc q k a) | by exists q, k].
Qed.

Lemma store_holds st u a v : holds st u -> (exists p n, blocks u !! p = Some n /\ p <= a < p + n) ->
  exists st', execute st (Store a v) = Ok (0, st') /\ holds st' (learns u (Store a v) 0).
Proof.
  intros [Hr [[A B C] D] Hst] (p & n & Hp & Hin). eexists. split; [done|]. split; cbn [blocks stored learns].
  - apply (write_represents st _ p n); [done..|]. intros b Hb. rewrite byte_at_insert. by destruct (Z.eqb_spec b a); [lia|].
  - by split; [split|].
  - intros b w. cbn [mem set_mem]. rewrite byte_at_insert. destruct (Z.eqb_spec b a) as [->|]; [|apply Hst].
    intros [= <-]. split; [done|]. by exists p, n.
Qed.

Definition granted u (o : op) (r : Z) : Prop :=
  match o with
  | Malloc size => size <= block_size size /\ blocks u !! r = None
  | Realloc p size _ => size <= block_size size /\ (r = p \/ blocks u !! r = None)
  | _ => True
  end.

Lemma execute_holds st u o : holds st u -> permitted st u o ->
  ends (execute st o) (fun x => holds (snd x) (learns u o (fst x)) /\ granted u o (fst x)) (stopped st u o).
Proof.
  intros Hh Hp. destruct o as [size|p|p size copy| |a v]; cbn [stopped granted].
  - by apply malloc_holds; [| apply Hp | apply Hp].
  - destruct Hp as (n & Hp & Hm). destruct (free_holds st u p n Hh Hp Hm) as (st' & -> & H). by cbn.
  - destruct Hp as (n & Hp & Hmf & Hs & Hc & Hm). pose proof (realloc_holds st u p n size copy Hh Hp Hmf Hs Hc Hm) as H.
    by rewrite Hp.
  - destruct (collect_holds st u Hh Hp) as (n & st' & -> & H). by cbn.
  - destruct (store_holds st u a v Hh Hp) as (st' & -> & H). by cbn.
Qed.

Lemma session_holds st u : session st u -> holds st u.
Proof.
  induction 1 as [o st o' Hfo E|st u o r st' _ IH Hp E].
  - split; cbn [blocks stored]; [| by apply (init_accounted o st o') | done].
    pose proof (init_represents o Hfo) as Hi. rewrite E in Hi. apply Hi.
  - pose proof (execute_holds st u o IH Hp) as He. rewrite E in He. apply He.
Qed.

(** C11: Any sequence of allocations, releases, reallocations, collections and
    writes to blocks, from the first heap on, refines a map of blocks and the
    bytes stored in them.  At every point the blocks that the program holds
    are mapped for the heap, not for anybody else, and do not overlap; every
    byte has the value stored last, through reallocations too; [real_size] and
    [size] are accurate; and the next operation that the program may call
    succeeds, with a large enough block at an address not in use, or it is a
    request that fails for one of the reasons of [blocked].  [permitted] says
    what the program may call: it names blocks it holds and does not lose the
    main chunk ([may_alloc], [may_free]). *)
Theorem session_correct st u : session st u ->
  (forall p n, blocks u !! p = Some n -> 0 < p /\ 0 < n /\ forall a, p <= a < p + n -> mapped (os st) a /\ ~ foreign a) /\
  (forall p n q m, blocks u !! p = Some n -> blocks u !! q = Some m -> p <> q -> rdisj (p, n) (q, m)) /\
  (forall a v, stored u a = Some v -> byte_at (mem st) a = v) /\
  accounted st (blocks u) /\
  forall o, permitted st u o -> ends (execute st o) (fun x => session (snd x) (learns u o (fst x)) /\ granted u o (fst x)) (stopped st u o).
Proof.
  intros Hse. pose proof (session_holds st u Hse) as Hh. pose proof Hh as [Hr Hac Hst].
  destruct (represents_blocks st (blocks u) Hr) as [H1 H2]. split; [exact H1|]. split; [exact H2|].
  split; [intros a v Ha; by apply Hst|]. split; [done|]. intros o Hp. pose proof (execute_holds st u o Hh Hp) as He.
  destruct (execute st o) as [[r st']|e] eqn:E; [|exact He]. cbn [ends fst snd] in *. split; [|apply He].
  by apply (session_step st u o r st').
Qed.
End Sessions.
