(* ===== verification/MmSample.v ===== *)
(** * The memory manager on concrete states

    A heap in simulated memory: a first chunk that has to be aligned, then a
    block of 112 bytes.  The examples at the end show what the hypotheses
    of the theorems exclude. *)
From S2P Require Export MmApi MmProgress.

Definition sample_os : @os_state sim_os := Sim [] 0x10001000.

#[local] Instance sample_rest : Foreign := mapped sample_os.

Definition no_heap : mm :=
  MM 0 (Heap 0 0 [] 0 0 0 0 0 0 0 0 0 0 S754_nan 0 0) ∅ ∅ sample_os.

Definition sample0 : mm := match zend_mm_init sample_os with Ok (Some st, _) => st | _ => no_heap end.
Definition sample1 : Z * mm := match zend_mm_alloc_heap sample0 100 with Ok r => r | Err _ => (0, no_heap) end.

(** Whether a computation succeeds. *)
Definition is_ok {A} (r : res A) : bool := match r with Ok _ => true | Err _ => false end.

Lemma init_some : match zend_mm_init sample_os with Ok (Some _, _) => true | _ => false end = true.
Proof. by vm_compute. Qed.

Lemma ok_of {A} (r : res A) e : is_ok r = true -> r <> Err e.
Proof. by intros H ->. Qed.

Lemma sample0_ok : mm_ok sample0 layout0 /\ main_unused sample0 /\ heap_in_chunk sample0.
Proof.
  pose proof (init_ok sample_os (fun a => iff_refl _)) as H. pose proof init_some as Hs. unfold sample0.
  destruct (zend_mm_init sample_os) as [[[st|] o]|e] eqn:E; [by destruct H as (? & ? & _ & ?) | |]; done.
Qed.

Lemma sample0_represents : represents sample0 ∅.
Proof.
  destruct sample0_ok as (Hok & _ & Ha). split; [exact Ha|]. exists layout0. split; [exact Hok|]. split; [done|]. split; [done|].
  by apply layout0_blocks.
Qed.

Lemma sample1_size : match zend_mm_size (snd sample1) (fst sample1) with Ok n => n =? 112 | Err _ => false end = true.
Proof. by vm_compute. Qed.

(** The heap with its one block. *)
Lemma sample1_ok : exists L, heap_in_chunk (snd sample1) /\ mm_ok (snd sample1) L /\ spare L = [] /\ held L = [] /\
  forall q m, block L q m <-> q = fst sample1 /\ m = 112.
Proof.
  destruct sample0_ok as (Hok & Hu & Hha). pose proof sample1_size as Hsz.
  pose proof (alloc_heap_ok sample0 layout0 100 Hok) as H. unfold sample1 in *.
  destruct (zend_mm_alloc_heap sample0 100) as [[p st]|e] eqn:E; [|exfalso; revert E; apply ok_of; by vm_compute].
  cbn [fst snd] in *. destruct H as (L & n & [Hn _] & Hok' & [B1 _ B3 B4] & [F1 F2 _]);
    [lia | right; split; [by apply (unused_empty _ _ Hok) | by vm_compute]|].
  cbn [fst snd] in *. assert (Hbp : block L p n) by (apply B1; right; split; reflexivity).
  rewrite (size_ok _ _ _ _ Hok' (proj1 Hbp)) in Hsz. zbool. subst n.
  exists L. split; [unfold heap_in_chunk in *; congruence|]. split; [done|]. split; [done|]. split; [done|]. intros q m. rewrite B1.
  split; [|intros Hq; right; exact Hq]. intros [Hb|Hq]; [|exact Hq]. exfalso.
  assert (Hl : (∅ : gmap Z Z) !! q = Some m) by (apply (layout0_blocks ∅); done). by rewrite lookup_empty in Hl.
Qed.

Lemma sample1_in_main : main (snd sample1) <= fst sample1 < main (snd sample1) + ZEND_MM_CHUNK_SIZE.
Proof.
  assert (E : (main (snd sample1) <=? fst sample1) && (fst sample1 <? main (snd sample1) + ZEND_MM_CHUNK_SIZE) = true)
    by (by vm_compute).
  apply andb_prop in E as [E1 E2]. split; [exact (proj1 (Z.leb_le _ _) E1) | exact (proj1 (Z.ltb_lt _ _) E2)].
Qed.

Definition live1 : gmap Z Z := {[fst sample1 := 112]}.

Lemma sample1_represents : represents (snd sample1) live1.
Proof.
  destruct sample1_ok as (L & Ha & Hok & Hs & Hh & Hb). split; [exact Ha|]. exists L. split; [exact Hok|]. split; [exact Hs|]. split; [exact Hh|].
  intros q m. rewrite Hb. unfold live1. rewrite lookup_singleton_Some. intuition congruence.
Qed.

Lemma live1_block : live1 !! fst sample1 = Some 112.
Proof. apply lookup_singleton_eq. Qed.

Lemma sample1_in_use : main_in_use (snd sample1) live1.
Proof. exists (fst sample1), 112. split; [apply live1_block | apply sample1_in_main]. Qed.

Lemma sample0_accounted : accounted sample0 ∅.
Proof.
  pose proof init_some as Hs. unfold sample0. destruct (zend_mm_init sample_os) as [[[st|] o]|e] eqn:E; [|done..].
  by apply (init_accounted sample_os st o).
Qed.

Lemma sample0_may_alloc size : size <= ZEND_MM_MAX_LARGE_SIZE -> may_alloc sample0 ∅ size.
Proof. intros H. right. split; [exact (proj1 (proj2 sample0_ok)) | exact H]. Qed.

Lemma sample1_accounted : accounted (snd sample1) live1.
Proof.
  unfold sample1. destruct (zend_mm_alloc_heap sample0 100) as [[p st]|e] eqn:E; [|exfalso; revert E; apply ok_of; by vm_compute].
  assert (Ep : live1 = <[p := block_size 100]> ∅) by (unfold live1, sample1; by rewrite E). rewrite Ep.
  by apply (alloc_accounted sample0 ∅ 100 p st sample0_represents sample0_accounted ltac:(lia) (sample0_may_alloc 100 ltac:(by vm_compute))).
Qed.

Lemma sample1_may_alloc size : size <= ZEND_MM_MAX_LARGE_SIZE -> may_alloc (snd sample1) live1 size.
Proof. intros H. left. split; [apply sample1_in_use | by left]. Qed.

(** ** Witnesses *)
Lemma zend_mm_alloc_heap_correct_witness : exists p st, zend_mm_alloc_heap sample0 100 = Ok (p, st) /\
  represents st (<[p := 112]> ∅).
Proof.
  pose proof (zend_mm_alloc_heap_correct sample0 ∅ 100 sample0_represents sample0_accounted ltac:(lia)
    (sample0_may_alloc 100 ltac:(by vm_compute))) as H.
  destruct (zend_mm_alloc_heap sample0 100) as [[p st]|e] eqn:E; [|exfalso; revert E; apply ok_of; by vm_compute].
  destruct H as (_ & _ & Hr & _). exists p, st. split; [reflexivity | exact Hr].
Defined.

Lemma zend_mm_free_heap_correct_witness : exists st, zend_mm_free_heap (snd sample1) (fst sample1) = Ok st /\
  represents st (delete (fst sample1) live1).
Proof.
  destruct (zend_mm_free_heap_correct (snd sample1) live1 (fst sample1) 112 sample1_represents live1_block)
    as (st & Hf & Hr & _); [right; right; by vm_compute|]. exists st. split; [exact Hf | exact Hr].
Defined.

Lemma zend_mm_realloc_heap_correct_witness : exists q st, zend_mm_realloc_heap (snd sample1) (fst sample1) 5000 112 = Ok (q, st) /\
  represents st (<[q := block_size 5000]> (delete (fst sample1) live1)) /\
  forall i, 0 <= i < 112 -> byte_at (mem st) (q + i) = byte_at (mem (snd sample1)) (fst sample1 + i).
Proof.
  pose proof (zend_mm_realloc_heap_correct (snd sample1) live1 (fst sample1) 112 5000 112 sample1_represents sample1_accounted live1_block
    ltac:(by vm_compute) ltac:(lia) (sample1_may_alloc 5000 ltac:(by vm_compute)) ltac:(right; right; by vm_compute)) as H.
  destruct (zend_mm_realloc_heap (snd sample1) (fst sample1) 5000 112) as [[q st]|e] eqn:E;
    [|exfalso; revert E; apply ok_of; by vm_compute].
  destruct H as (_ & _ & Hr & _ & Hc). exists q, st. split; [reflexivity|]. split; [exact Hr | exact Hc].
Defined.

Lemma requests_accounted_witness : accounted (snd sample1) live1 /\
  zend_memory_usage (snd sample1) false = 112 /\ zend_memory_usage (snd sample1) true = 2 ^ 21.
Proof.
  split; [|split; by vm_compute].
  destruct (requests_accounted sample0 ∅ sample0_represents sample0_accounted) as (_ & H & _).
  apply (H 100 (fst sample1) (snd sample1) ltac:(lia) (sample0_may_alloc 100 ltac:(by vm_compute))).
  unfold sample1. destruct (zend_mm_alloc_heap sample0 100) as [[p st]|e] eqn:E; [done|].
  exfalso; revert E; apply ok_of; by vm_compute.
Defined.

Lemma zend_mm_size_correct_witness : zend_mm_size (snd sample1) (fst sample1) = Ok 112.
Proof. exact (zend_mm_size_correct (snd sample1) live1 (fst sample1) 112 sample1_represents live1_block). Defined.

Lemma zend_mm_gc_correct_witness : exists n st, zend_mm_gc (snd sample1) = Ok (n, st) /\ represents st live1.
Proof.
  destruct (zend_mm_gc_correct (snd sample1) live1 sample1_represents sample1_in_use) as (n & st & Hg & Hr & _).
  exists n, st. split; [exact Hg | exact Hr].
Defined.

Lemma zend_mm_gc_exact_witness : exists L st, mm_ok (snd sample1) L /\
  zend_mm_gc (snd sample1) = Ok (0, st).
Proof.
  destruct sample1_ok as (L & _ & Hok & Hs & Hh & Hb).
  assert (Hpin : pinned (snd sample1) L).
  { apply (in_use_pinned _ _ live1); [|apply sample1_in_use]. intros q m. rewrite Hb. unfold live1.
    rewrite lookup_singleton_Some. intuition congruence. }
  destruct (zend_mm_gc_exact (snd sample1) L Hok Hpin) as (st & L' & Hg & _). exists L, st. split; [exact Hok|].
  assert (E : match zend_mm_gc (snd sample1) with Ok (n, _) => n =? 0 | Err _ => false end = true) by (by vm_compute).
  rewrite Hg in E. apply Z.eqb_eq in E. by rewrite <- E.
Defined.

Lemma zend_mm_shutdown_resets_witness : exists st, zend_mm_shutdown (snd sample1) false = Ok (Some st, os st) /\ represents st ∅.
Proof.
  destruct (zend_mm_shutdown_resets (snd sample1) live1 sample1_represents) as (st & Hs & Hr & _).
  exists st. split; [exact Hs | exact Hr].
Defined.

Lemma zend_mm_shutdown_gives_back_witness : exists o, zend_mm_shutdown (snd sample1) true = Ok (None, o) /\ same_mapping sample_os o.
Proof. exact (zend_mm_shutdown_gives_back sample_os (snd sample1) live1 sample1_represents). Defined.

Lemma allocator_agrees_witness : ZEND_ALLOCATOR sample0 100 = _emalloc sample0 100.
Proof. apply (allocator_agrees sample0 100). lia. Defined.

Lemma deallocator_agrees_witness : ZEND_DEALLOCATOR (snd sample1) (fst sample1) 100 = _efree (snd sample1) (fst sample1).
Proof.
  apply (deallocator_agrees (snd sample1) live1 (fst sample1) 100 sample1_represents); [lia | exact live1_block|].
  intros H. exfalso. revert H. by vm_compute.
Defined.

Lemma ecalloc_correct_witness : exists p st, _ecalloc sample0 10 10 = Ok (p, st) /\ represents st (<[p := 112]> ∅) /\
  forall i, 0 <= i < 100 -> byte_at (mem st) (p + i) = 0.
Proof.
  destruct (ecalloc_correct sample0 ∅ 10 10 sample0_represents sample0_accounted ltac:(lia) ltac:(lia)
    (fun _ => sample0_may_alloc 100 ltac:(by vm_compute))) as [_ H]. specialize (H ltac:(lia)).
  destruct (_ecalloc sample0 10 10) as [[p st]|e] eqn:E; [|exfalso; revert E; apply ok_of; by vm_compute].
  destruct H as (_ & Hr & _ & Hz). exists p, st. split; [reflexivity|]. split; [exact Hr | exact Hz].
Defined.

Lemma estrndup_correct_witness : exists p st, _estrndup (snd sample1) (fst sample1) 5 = Ok (p, st) /\
  (forall i, 0 <= i < 5 -> byte_at (mem st) (p + i) = byte_at (mem (snd sample1)) (fst sample1 + i)) /\ byte_at (mem st) (p + 5) = 0.
Proof.
  pose proof (estrndup_correct (snd sample1) live1 (fst sample1) 112 (fst sample1) 5 sample1_represents sample1_accounted live1_block
    ltac:(lia) ltac:(lia) ltac:(lia) ltac:(lia) (sample1_may_alloc 6 ltac:(by vm_compute))) as H.
  destruct (_estrndup (snd sample1) (fst sample1) 5) as [[p st]|e] eqn:E; [|exfalso; revert E; apply ok_of; by vm_compute].
  destruct H as (_ & _ & _ & Hc & Hz). exists p, st. split; [reflexivity|]. split; [exact Hc | exact Hz].
Defined.

(** A session: a block is requested, a byte is stored in it, and it is moved. *)
Definition user0 : user := User ∅ (fun _ => None).
Definition user1 : user := learns user0 (Malloc 100) (fst sample1).
Definition sample2 : mm := set_mem (snd sample1) (<[fst sample1 := 7]> (mem (snd sample1))).
Definition user2 : user := learns user1 (Store (fst sample1) 7) 0.
Definition sample3 : Z * mm := match execute sample2 (Realloc (fst sample1) 5000 112) with Ok r => r | Err _ => (0, no_heap) end.
Definition user3 : user := learns user2 (Realloc (fst sample1) 5000 112) (fst sample3).

Lemma user1_blocks : blocks user1 = live1.
Proof. done. Qed.

Lemma sample1_session : session (snd sample1) user1.
Proof.
  destruct (zend_mm_init sample_os) as [[[st|] o]|e] eqn:E; [|exfalso; pose proof init_some as H; by rewrite E in H..].
  assert (E0 : sample0 = st) by (unfold sample0; by rewrite E).
  apply (session_step sample0 user0 (Malloc 100) (fst sample1)).
  - rewrite E0. by apply (session_start sample_os st o).
  - split; [lia | by apply sample0_may_alloc].
  - unfold execute, _emalloc, sample1. destruct (zend_mm_alloc_heap sample0 100) as [[p st']|e] eqn:E1; [done|].
    exfalso; revert E1; apply ok_of; by vm_compute.
Qed.

Lemma sample3_session : session (snd sample3) user3.
Proof.
  assert (H2 : session sample2 user2).
  { apply (session_step (snd sample1) user1 (Store (fst sample1) 7) 0); [apply sample1_session | | done].
    exists (fst sample1), 112. split; [exact live1_block | lia]. }
  apply (session_step sample2 user2 (Realloc (fst sample1) 5000 112) (fst sample3)); [done| |].
  - exists 112. split; [exact live1_block|]. split; [right; right; by vm_compute|]. split; [by vm_compute|]. split; [lia|].
    left. split; [|left; by vm_compute]. exists (fst sample1), 112. split; [exact live1_block | exact sample1_in_main].
  - unfold sample3. destruct (execute sample2 _) as [[q st]|e] eqn:E; [done|]. exfalso; revert E; apply ok_of; by vm_compute.
Qed.

Lemma session_correct_witness : fst sample3 <> fst sample1 /\ byte_at (mem (snd sample3)) (fst sample3) = 7 /\
  mapped (os (snd sample3)) (fst sample3 + 8191).
Proof.
  destruct (session_correct (snd sample3) user3 sample3_session) as (Hb & _ & Hs & _). split; [|split].
  - by vm_compute.
  - apply Hs. by vm_compute.
  - assert (El : blocks user3 !! fst sample3 = Some 8192) by (apply lookup_insert_eq).
    destruct (Hb (fst sample3) 8192 El) as (_ & _ & Hm). apply Hm. lia.
Defined.

(** ** A request that cannot fail

    The reasons for a failure are not always there: as long as there is room
    behind its last region, the simulated system refuses no chunk, whatever
    the request has given back before. *)
Definition sim_room (o : sim_state) : Prop :=
  LOWEST_ADDRESS <= brk o /\ brk o mod 4096 = 0 /\ brk o + 3 * ZEND_MM_CHUNK_SIZE <= ADDRESS_SPACE /\
  Forall (fun r => fst r + snd r <= brk o) (regions o).

Lemma below_free b n l : 0 <= n -> Forall (fun r : Z * Z => fst r + snd r <= b) l -> forallb (region_free b n) l = true.
Proof.
  intros Hn Hl. apply forallb_forall. intros r Hr. apply list_elem_of_In in Hr. rewrite Forall_forall in Hl.
  specialize (Hl r Hr). unfold region_free. apply orb_true_iff. right. by apply Z.leb_le.
Qed.

Lemma sim_grant o n : LOWEST_ADDRESS <= brk o -> brk o mod 4096 = 0 -> 0 < n -> n mod 4096 = 0 -> brk o + n <= ADDRESS_SPACE ->
  Forall (fun r => fst r + snd r <= brk o) (regions o) ->
  sim_mmap o 0 n = (Some (brk o), Sim ((brk o, n) :: regions o) (Z.max (brk o) (brk o + n))).
Proof.
  intros Hl Hb Hn Hm He Hr. unfold sim_mmap, sim_place. change (0 <? 0) with false. cbv iota zeta. cbn [andb].
  change REAL_PAGE_SIZE with 4096. rewrite Hb, Hm, (below_free (brk o) n) by (done || lia).
  destruct (Z.ltb_spec 0 n), (Z.leb_spec (brk o + n) ADDRESS_SPACE), (Z.leb_spec LOWEST_ADDRESS (brk o)); done || lia.
Qed.

Lemma cut_below b p n l : Forall (fun r : Z * Z => fst r + snd r <= b) l ->
  Forall (fun r => fst r + snd r <= b) (flat_map (region_cut p n) l).
Proof.
  rewrite !Forall_forall. intros H r Hr. apply list_elem_of_In, in_flat_map in Hr as (q & Hq & Hin).
  apply list_elem_of_In, H in Hq. unfold region_cut in Hin. apply filter_In in Hin as [[<-|[<-|[]]] _]; cbn; lia.
Qed.

Lemma sim_room_unmaps (o o' : @os_state sim_os) : unmaps o o' -> sim_room o -> sim_room o'.
Proof.
  unfold unmaps. induction 1 as [|o1 o2 o3 (p & n & ->) _ IH]; [done|]. intros (H1 & H2 & H3 & H4). apply IH.
  cbn [munmap sim_os]. unfold sim_munmap. destruct (0 <? n); [|done]. split; [done|]. split; [done|]. split; [done|].
  by apply cut_below.
Qed.

Lemma sim_not_refused (o : @os_state sim_os) : sim_room o -> ~ refused o ZEND_MM_CHUNK_SIZE.
Proof.
  intros (H1 & H2 & H3 & H4) H. change ZEND_MM_CHUNK_SIZE with 2097152 in *.
  assert (E : zend_mm_mmap o 2097152 = (Some (brk o), Sim ((brk o, 2097152) :: regions o) (Z.max (brk o) (brk o + 2097152))))
    by (by apply sim_grant; try lia).
  destruct H as [H|(p & o1 & H & _ & H')]; [by rewrite E in H|]. rewrite E in H. injection H as <- <-.
  set (o1 := zend_mm_munmap _ _ _) in H'.
  assert (Hb : brk o1 = brk o + 2097152) by (subst o1; cbn; lia).
  assert (Hr : Forall (fun r => fst r + snd r <= brk o1) (regions o1)).
  { rewrite Hb. apply (cut_below (brk o + 2097152) (brk o) 2097152 ((brk o, 2097152) :: regions o)). constructor; [cbn; lia|].
    eapply Forall_impl; [exact H4|]. cbn. intros r Hr. lia. }
  change (u64 _) with 4190208 in H'. unfold zend_mm_mmap in H'. cbn [mmap sim_os] in H'.
  rewrite (sim_grant o1) in H'; [done| | |lia|done| |done]; rewrite Hb; [lia | | lia].
  rewrite Z.add_mod, H2 by lia. done.
Qed.

Lemma prepares_unmaps (st st' : @mm sim_os) : rtc prepares st st' -> unmaps (os st) (os st').
Proof.
  unfold unmaps. induction 1 as [|st1 st2 st3 H _ IH]; [done|]. etrans; [|exact IH].
  destruct H as [k|n r steps st' H|n st' H]; [done | | by apply gc_drops in H].
  apply find_pages_same in H. by apply same_drops in H.
Qed.

Example sample0_not_blocked : ~ blocked sample0 100.
Proof.
  assert (Hroom : sim_room (os sample0)).
  { assert (E : (LOWEST_ADDRESS <=? brk (os sample0)) && (brk (os sample0) mod 4096 =? 0) &&
      (brk (os sample0) + 3 * ZEND_MM_CHUNK_SIZE <=? ADDRESS_SPACE) &&
      forallb (fun r => fst r + snd r <=? brk (os sample0)) (regions (os sample0)) = true) by (by vm_compute).
    apply andb_prop in E as [E E4]. apply andb_prop in E as [E E3]. apply andb_prop in E as [E1 E2]. zbool.
    do 3 (split; [done|]). apply Forall_forall. intros r Hr. rewrite forallb_forall in E4.
    specialize (E4 r ltac:(by apply list_elem_of_In)). by apply Z.leb_le. }
  intros [[_ H]|[(st & Hp & H)|[H _]]].
  - revert H. by vm_compute.
  - apply (sim_not_refused (os st)); [|exact H]. by apply (sim_room_unmaps (os sample0)), Hroom; apply prepares_unmaps.
  - revert H. by vm_compute.
Qed.

(** ** What the hypotheses exclude *)

(** Releasing the only pages in use of the main chunk makes it a cached chunk,
    out of the ring, while it stays the main chunk: an allocation that does
    not fit in it then follows its null successor. *)
Example main_chunk_is_deleted :
  match (let! (a, st) := zend_mm_alloc_heap sample0 5000 in zend_mm_free_heap st a) with
  | Ok st => cached_chunks (heap st) =? main st
  | Err _ => false
  end = true.
Proof. by vm_compute. Qed.

Example main_chunk_is_lost :
  (let! (a, st) := zend_mm_alloc_heap sample0 5000 in let! st := zend_mm_free_heap st a in
   let! (b, st) := zend_mm_alloc_heap st 5000 in let! (c, st) := zend_mm_alloc_heap st 2000000 in
   let! (d, st) := zend_mm_alloc_heap st 2000000 in Ok (b, c, d)) = Err OutOfBounds.
Proof. by vm_compute. Qed.

(** The system grants 256 MB at the end of the address space, off the boundary,
    and refuses the enlarged mapping: [NULL] is returned, and a page that was
    mapped at the address 256 MB is gone. *)
Example null_range_is_unmapped :
  match zend_mm_chunk_alloc_int (Sim [(0x10000000, 4096)] (2 ^ 47 - 0x10000000 - 4096)) 0x10000000 ZEND_MM_CHUNK_SIZE with
  | Ok (None, o) => match regions o with [] => true | _ => false end
  | _ => false
  end = true.
Proof. by vm_compute. Qed.

(** The counter of free slots has 9 bits: a run of 512 slots is never collected. *)
Example first_bin_is_not_collected :
  (let! (z, st) := zend_mm_alloc_heap sample0 5000 in
   let! (a, st) := zend_mm_alloc_heap st 8 in let! st := zend_mm_free_heap st a in
   let! (g1, st) := zend_mm_gc st in
   let! (b, st) := zend_mm_alloc_heap st 16 in let! st := zend_mm_free_heap st b in
   let! (g2, st) := zend_mm_gc st in Ok (g1, g2)) = Ok (0, 4096).
Proof. by vm_compute. Qed.

(** The size of a huge block wraps around to 0 when it is enlarged to nearly
    [2 ^ 64] bytes: the block is cut to nothing and returned. *)
Example huge_realloc_wraps :
  (let! (z, st) := zend_mm_alloc_heap sample0 5000 in let! (a, st) := zend_mm_alloc_heap st 5000000 in
   let! (b, st) := zend_mm_realloc_heap st a (2 ^ 64 - 1) 10 in
   let! n := zend_mm_size st b in Ok (b =? a, n)) = Ok (true, 0).
Proof. by vm_compute. Qed.

(** The statistics after a shutdown count one chunk, whatever is cached: two
    chunks are mapped here. *)
Example cached_chunks_are_not_counted :
  (let! (a, st) := zend_mm_alloc_heap sample0 1500000 in let! (b, st) := zend_mm_alloc_heap st 1500000 in
   let! (c, st) := zend_mm_alloc_heap st 1500000 in let! (r, o) := zend_mm_shutdown st false in
   match r with
   | Some st => Ok (zend_memory_usage st true, map snd (regions o))
   | None => Err Fatal
   end) = Ok (2097152, [2097152; 2097152]).
Proof. by vm_compute. Qed.
