(* ===== verification/Base64.v ===== *)
(** * Base64: [ext/standard/base64.c]

    The encoder and the decoder, which write into the buffer of a string they
    have allocated; a write outside the bytes that were asked for is an
    error.  The decoder is described by a function on the list of its 6-bit
    values, and inverts the encoder. *)
From Stdlib Require Import Strings.Byte.
From S2P Require Export StrCmp.
From S2P Require MmApi.

(** ** The tables *)

Definition base64_table : list char :=
  [x41; x42; x43; x44; x45; x46; x47; x48; x49; x4a; x4b; x4c; x4d; x4e; x4f; x50;
   x51; x52; x53; x54; x55; x56; x57; x58; x59; x5a; x61; x62; x63; x64; x65; x66;
   x67; x68; x69; x6a; x6b; x6c; x6d; x6e; x6f; x70; x71; x72; x73; x74; x75; x76;
   x77; x78; x79; x7a; x30; x31; x32; x33; x34; x35; x36; x37; x38; x39; x2b; x2f; x00].

Definition base64_pad : char := x3d.

Definition base64_reverse_table : list Z :=
  [-2; -2; -2; -2; -2; -2; -2; -2; -2; -1; -1; -2; -2; -1; -2; -2;
   -2; -2; -2; -2; -2; -2; -2; -2; -2; -2; -2; -2; -2; -2; -2; -2;
   -1; -2; -2; -2; -2; -2; -2; -2; -2; -2; -2; 62; -2; -2; -2; 63;
   52; 53; 54; 55; 56; 57; 58; 59; 60; 61; -2; -2; -2; -2; -2; -2;
   -2;  0;  1;  2;  3;  4;  5;  6;  7;  8;  9; 10; 11; 12; 13; 14;
   15; 16; 17; 18; 19; 20; 21; 22; 23; 24; 25; -2; -2; -2; -2; -2;
   -2; 26; 27; 28; 29; 30; 31; 32; 33; 34; 35; 36; 37; 38; 39; 40;
   41; 42; 43; 44; 45; 46; 47; 48; 49; 50; 51; -2; -2; -2; -2; -2]
  ++ replicate 128 (-2).

(** ** Encoding *)

(** [*p++ = base64_table[v];] *)
Definition put_table (buf : list char) (p v : Z) : res (list char * Z) :=
  let! c := aget base64_table v in
  let! buf := aset buf p c in
  Ok (buf, p + 1).

Definition put_char (buf : list char) (p : Z) (c : char) : res (list char * Z) :=
  let! buf := aset buf p c in Ok (buf, p + 1).

(** The loop over groups of three bytes: the position and length that are left. *)
Fixpoint encode_loop (fuel : nat) (str : list char) (current length : Z) (buf : list char) (p : Z)
    {struct fuel} : res (Z * Z * list char * Z) :=
  match fuel with
  | O => Err OutOfFuel
  | S fuel =>
      if 2 <? length then
        let! c0 := aget str current in
        let! c1 := aget str (current + 1) in
        let! c2 := aget str (current + 2) in
        let! (buf, p) := put_table buf p (Z.shiftr (uchar c0) 2) in
        let! (buf, p) := put_table buf p (Z.shiftl (Z.land (uchar c0) 3) 4 + Z.shiftr (uchar c1) 4) in
        let! (buf, p) := put_table buf p (Z.shiftl (Z.land (uchar c1) 15) 2 + Z.shiftr (uchar c2) 6) in
        let! (buf, p) := put_table buf p (Z.land (uchar c2) 63) in
        encode_loop fuel str (current + 3) (length - 3) buf p
      else Ok (current, length, buf, p)
  end.

(** "now deal with the tail end of things" *)
Definition encode_tail (str : list char) (current length : Z) (buf : list char) (p : Z)
    : res (list char * Z) :=
  if negb (length =? 0) then
    let! c0 := aget str current in
    let! (buf, p) := put_table buf p (Z.shiftr (uchar c0) 2) in
    if 1 <? length then
      let! c1 := aget str (current + 1) in
      let! (buf, p) := put_table buf p (Z.shiftl (Z.land (uchar c0) 3) 4 + Z.shiftr (uchar c1) 4) in
      let! (buf, p) := put_table buf p (Z.shiftl (Z.land (uchar c1) 15) 2) in
      put_char buf p base64_pad
    else
      let! (buf, p) := put_table buf p (Z.shiftl (Z.land (uchar c0) 3) 4) in
      let! (buf, p) := put_char buf p base64_pad in
      put_char buf p base64_pad
  else Ok (buf, p).

(** [zend_string_safe_alloc (n, m, 0, 0)]: the bytes behind the header of 24
    bytes, which hold [junk]. *)
Definition zend_string_safe_alloc (n m : Z) (junk : char) : res (list char) :=
  let! size := MmApi.zend_safe_address_guarded n m 32 in
  Ok (replicate (Z.to_nat (size - 24)) junk).

(** The result is the contents of the string. *)
Definition php_base64_encode (str : list char) (junk : char) : res (list char) :=
  let len := Z.of_nat (length str) in
  let! buf := zend_string_safe_alloc (u64 (len + 2) / 3) 4 junk in
  let! (current, rest, buf, p) := encode_loop (S (length str)) str 0 len buf 0 in
  let! (buf, p) := encode_tail str current rest buf p in
  let! buf := aset buf p x00 in
  Ok (take (Z.to_nat p) buf).

(** ** Decoding *)

(** [ZSTR_VAL(result)[j] |= v] and [ZSTR_VAL(result)[j] = v], which keep the
    low eight bits. *)
Definition or_at (buf : list char) (j v : Z) : res (list char) :=
  let! b := aget buf j in aset buf j (char_of (Z.lor (uchar b) v)).
Definition put_at (buf : list char) (j v : Z) : res (list char) := aset buf j (char_of v).

(** [switch(i % 4)] *)
Definition decode_put (i j ch : Z) (buf : list char) : res (Z * list char) :=
  let r := Z.rem i 4 in
  if r =? 0 then
    let! buf := put_at buf j (Z.shiftl ch 2) in Ok (j, buf)
  else if r =? 1 then
    let! buf := or_at buf j (Z.shiftr ch 4) in
    let j := s32 (j + 1) in
    let! buf := put_at buf j (Z.shiftl (Z.land ch 15) 4) in Ok (j, buf)
  else if r =? 2 then
    let! buf := or_at buf j (Z.shiftr ch 2) in
    let j := s32 (j + 1) in
    let! buf := put_at buf j (Z.shiftl (Z.land ch 3) 6) in Ok (j, buf)
  else if r =? 3 then
    let! buf := or_at buf j ch in Ok (s32 (j + 1), buf)
  else Ok (j, buf).

(** The loop over the input; [None] is [goto fail]. *)
Fixpoint decode_loop (strict : bool) (current : list char) (i j padding : Z) (buf : list char)
    {struct current} : res (option (Z * Z * Z * list char)) :=
  match current with
  | [] => Ok (Some (i, j, padding, buf))
  | c :: current =>
      if bool_decide (c = base64_pad) then decode_loop strict current i j (s32 (padding + 1)) buf
      else
        let! ch := aget base64_reverse_table (uchar c) in
        if negb strict && (ch <? 0) then decode_loop strict current i j padding buf
        else if strict && (ch =? -1) then decode_loop strict current i j padding buf
        else if strict && ((ch =? -2) || negb (padding =? 0)) then Ok None
        else
          let! (j, buf) := decode_put i j ch buf in
          decode_loop strict current (s32 (i + 1)) j padding buf
  end.

(** [None] is the result NULL.  The buffer has the [length + 1] bytes that
    [zend_string_alloc (length, 0)] provides. *)
Definition php_base64_decode_ex (str : list char) (strict : bool) (junk : char)
    : res (option (list char)) :=
  let! r := decode_loop strict str 0 0 0 (replicate (S (length str)) junk) in
  match r with
  | None => Ok None
  | Some (i, j, padding, buf) =>
      if strict && (Z.rem i 4 =? 1) then Ok None
      else if strict && negb (padding =? 0) &&
              ((2 <? padding) || negb (Z.rem (s32 (i + padding)) 4 =? 0)) then Ok None
      else
        let! buf := aset buf j x00 in
        Ok (Some (take (Z.to_nat j) buf))
  end.

(** ** Specification *)

(** The bytes of a list of 6-bit values; a last incomplete byte is dropped. *)
Fixpoint bytes_of (v : list Z) : list Z :=
  match v with
  | a :: b :: c :: d :: v =>
      4 * a + b / 16 :: 16 * (b mod 16) + c / 4 :: 64 * (c mod 4) + d :: bytes_of v
  | [a; b; c] => [4 * a + b / 16; 16 * (b mod 16) + c / 4]
  | [a; b] => [4 * a + b / 16]
  | _ => []
  end.

(** That incomplete byte. *)
Fixpoint pending (v : list Z) : option Z :=
  match v with
  | _ :: _ :: _ :: _ :: v => pending v
  | [_; _; c] => Some (64 * (c mod 4))
  | [_; b] => Some (16 * (b mod 16))
  | [a] => Some (4 * a)
  | [] => None
  end.

(** The value of a character: below 0 for the padding and what is not in the alphabet. *)
Definition value (c : char) : Z := nth (Z.to_nat (uchar c)) base64_reverse_table (-2).

Definition values (str : list char) : list Z :=
  omap (fun c => if 0 <=? value c then Some (value c) else None) str.

Definition is_pad (c : char) : bool := bool_decide (c = base64_pad).

(** What the strict decoder accepts: letters and white space, then padding
    and white space; one letter alone in the last group is not enough, and
    the padding, if there is any, has the right length. *)
Fixpoint well_padded (padded : bool) (str : list char) : bool :=
  match str with
  | [] => true
  | c :: str =>
      if is_pad c then well_padded true str
      else if value c =? -1 then well_padded padded str
      else (0 <=? value c) && negb padded && well_padded padded str
  end.

Definition strict_ok (str : list char) : bool :=
  let n := Z.of_nat (length (values str)) in
  let pad := Z.of_nat (length (List.filter is_pad str)) in
  well_padded false str && negb (n mod 4 =? 1)
  && ((pad =? 0) || (pad <=? 2) && ((n + pad) mod 4 =? 0)).

(** The groups of the encoder. *)
Fixpoint sextets (s : list Z) : list Z :=
  match s with
  | a :: b :: c :: s => a / 4 :: 16 * (a mod 4) + b / 16 :: 4 * (b mod 16) + c / 64 :: c mod 64 :: sextets s
  | [a; b] => [a / 4; 16 * (a mod 4) + b / 16; 4 * (b mod 16)]
  | [a] => [a / 4; 16 * (a mod 4)]
  | [] => []
  end.

Definition letter (v : Z) : char := nth (Z.to_nat v) base64_table x00.

Definition pads (n : nat) : list char :=
  match (n mod 3)%nat with 0%nat => [] | 1%nat => [base64_pad; base64_pad] | _ => [base64_pad] end.

Definition encoded (str : list char) : list char :=
  map letter (sextets (map uchar str)) ++ pads (length str).

Example encode_foobar : php_base64_encode [x66; x6f; x6f; x62; x61]%byte xff =
  Ok [x5a; x6d; x39; x76; x59; x6d; x45; x3d]%byte.
Proof. vm_compute. reflexivity. Qed.
Example decode_foobar : php_base64_decode_ex [x5a; x6d; x39; x76; x20; x59; x6d; x45; x3d]%byte true xff =
  Ok (Some [x66; x6f; x6f; x62; x61]%byte).
Proof. vm_compute. reflexivity. Qed.

(** ** The tables are inverse *)

Definition sextet (v : Z) : Prop := 0 <= v < 64.

Lemma forall_below (P : nat -> bool) n : forallb P (seq 0 n) = true -> forall i, (i < n)%nat -> P i = true.
Proof. intros H i Hi. rewrite forallb_forall in H. apply H, in_seq. lia. Qed.

Lemma reverse_table_length : length base64_reverse_table = 256%nat.
Proof. reflexivity. Qed.

Lemma reverse_lookup c : aget base64_reverse_table (uchar c) = Ok (value c).
Proof.
  pose proof (uchar_range c) as Hc. unfold value. apply aget_okZ; [lia|].
  destruct (lookup_lt_is_Some_2 base64_reverse_table (Z.to_nat (uchar c))) as [v Hv];
    [rewrite reverse_table_length; lia|].
  rewrite Hv. f_equal. symmetry. by apply nth_lookup_Some.
Qed.

Lemma letter_value_range c : -2 <= value c < 64.
Proof.
  pose proof (uchar_range c) as Hc. unfold value.
  pose proof (forall_below (fun i => let v := nth i base64_reverse_table (-2) in (-2 <=? v) && (v <? 64)) 256
    ltac:(vm_compute; reflexivity) (Z.to_nat (uchar c)) ltac:(lia)) as H. cbv beta zeta in H. zbool. lia.
Qed.

Lemma value_pad c : is_pad c = true -> value c = -2.
Proof. intros ->%bool_decide_eq_true. reflexivity. Qed.

Lemma table_lookup v : sextet v -> aget base64_table v = Ok (letter v).
Proof.
  intros Hv. unfold letter. apply aget_okZ; [apply Hv|].
  destruct (lookup_lt_is_Some_2 base64_table (Z.to_nat v)) as [c Hc];
    [change (length base64_table) with 65%nat; unfold sextet in Hv; lia|].
  rewrite Hc. f_equal. symmetry. by apply nth_lookup_Some.
Qed.

Lemma value_letter v : sextet v -> value (letter v) = v /\ is_pad (letter v) = false.
Proof.
  intros Hv. pose proof (forall_below (fun i => (value (nth i base64_table x00) =? Z.of_nat i)
    && negb (is_pad (nth i base64_table x00))) 64 ltac:(vm_compute; reflexivity) (Z.to_nat v)) as H.
  cbv beta in H. unfold sextet, letter in *. specialize (H ltac:(lia)). zbool. split; [lia|done].
Qed.

(** ** The bytes of one more value *)

Lemma list4_ind (P : list Z -> Prop) : P [] -> (forall a, P [a]) -> (forall a b, P [a; b]) ->
  (forall a b c, P [a; b; c]) -> (forall a b c d v, P v -> P (a :: b :: c :: d :: v)) -> forall v, P v.
Proof.
  intros H0 H1 H2 H3 H4 v. induction v as [v IH] using (induction_ltof1 _ length).
  destruct v as [|a [|b [|c [|d v]]]]; auto. apply H4, IH. unfold ltof. simpl. lia.
Qed.

(** How the bytes grow with the last value [x]. *)
Definition grows (v : list Z) (x : Z) : Prop :=
  match Z.of_nat (length v) mod 4, pending v with
  | 0, None => bytes_of (v ++ [x]) = bytes_of v /\ pending (v ++ [x]) = Some (4 * x)
  | 1, Some q => (exists a, q = 4 * a /\ sextet a) /\
      bytes_of (v ++ [x]) = bytes_of v ++ [q + x / 16] /\ pending (v ++ [x]) = Some (16 * (x mod 16))
  | 2, Some q => (exists a, q = 16 * a /\ 0 <= a < 16) /\
      bytes_of (v ++ [x]) = bytes_of v ++ [q + x / 4] /\ pending (v ++ [x]) = Some (64 * (x mod 4))
  | 3, Some q => (exists a, q = 64 * a /\ 0 <= a < 4) /\
      bytes_of (v ++ [x]) = bytes_of v ++ [q + x] /\ pending (v ++ [x]) = None
  | _, _ => False
  end.

Lemma bytes_of_grows v x : Forall sextet v -> grows v x.
Proof.
  induction v as [|a|a b|a b c|a b c d v IH] using list4_ind; intros Hv; unfold grows.
  - done.
  - simpl. split; [exists a; split; [done|by apply Forall_inv in Hv]|done].
  - simpl. split; [exists (b mod 16); split; [done|apply Z.mod_pos_bound; lia]|done].
  - simpl. split; [exists (c mod 4); split; [done|apply Z.mod_pos_bound; lia]|done].
  - do 4 (apply Forall_inv_tail in Hv). specialize (IH Hv). unfold grows in IH.
    replace (Z.of_nat (length (a :: b :: c :: d :: v)) mod 4) with (Z.of_nat (length v) mod 4)
      by (simpl length; rewrite <- (Z.mod_add (Z.of_nat (length v)) 1 4) by lia; f_equal; lia).
    simpl pending. simpl app. simpl bytes_of.
    destruct (Z.of_nat (length v) mod 4) as [|[[]|[]|]|]; destruct (pending v); try done;
      cbn [pending]; try (destruct IH as (H1 & H2 & H3); rewrite H2, H3; done).
    destruct IH as (H2 & H3). by rewrite H2, H3.
Qed.

Lemma bytes_of_length v : 4 * Z.of_nat (length (bytes_of v)) <= 3 * Z.of_nat (length v).
Proof. induction v as [|a|a b|a b c|a b c d v IH] using list4_ind; simpl in *; lia. Qed.

(** A disjoint [or] is a sum. *)
Lemma lor_is_add a b n : 0 <= n -> 0 <= b < 2 ^ n -> Z.lor (2 ^ n * a) b = 2 ^ n * a + b.
Proof.
  intros Hn Hb. rewrite Z.mul_comm, <- Z.shiftl_mul_pow2 by done.
  assert (E : Z.land (Z.shiftl a n) b = 0).
  { apply Z.bits_inj'. intros i Hi. rewrite Z.land_spec, Z.bits_0.
    destruct (Z.lt_ge_cases i n); [by rewrite Z.shiftl_spec_low|].
    rewrite <- (Z.mod_small b (2 ^ n)) by done. rewrite Z.mod_pow2_bits_high by lia.
    apply andb_false_r. }
  rewrite Z.add_nocarry_lxor by done. symmetry. by apply Z.lxor_lor.
Qed.

(** ** The decoder's loop *)

(** The counters and the buffer of [L] bytes after the values [v]. *)
Record decoded (L : nat) (v : list Z) (i j : Z) (buf : list char) : Prop := mk_decoded {
  dc_values : Forall sextet v;
  dc_i : i = Z.of_nat (length v);
  dc_j : j = Z.of_nat (length (bytes_of v));
  dc_length : length buf = L;
  dc_bytes : take (Z.to_nat j) buf = map char_of (bytes_of v);
  dc_pending : match pending v with Some q => buf !! Z.to_nat j = Some (char_of q) | None => True end
}.

Lemma or_at_ok buf j a q r n : 0 <= j -> buf !! Z.to_nat j = Some (char_of q) -> q = 2 ^ n * a ->
  0 <= q < 256 -> 0 <= n -> 0 <= r < 2 ^ n -> or_at buf j r = Ok (<[Z.to_nat j := char_of (q + r)]> buf).
Proof.
  intros Hj Hb Hq Hr Hn Hr'. unfold or_at. rewrite (aget_okZ _ _ _ Hj Hb). rsimp.
  rewrite uchar_char_of, Hq, lor_is_add by lia. apply aset_okZ.
  apply lookup_lt_Some in Hb. lia.
Qed.

Lemma decoded_first L v j buf x : decoded L v (Z.of_nat (length v)) j buf -> sextet x ->
  (length v < L)%nat -> grows v x -> Z.of_nat (length v) mod 4 = 0 ->
  exists buf', put_at buf j (Z.shiftl x 2) = Ok buf' /\
    decoded L (v ++ [x]) (Z.of_nat (length v) + 1) j buf'.
Proof.
  intros [Hv _ Hj Hl Hb _] Hx HL Hg Em. unfold grows in Hg. rewrite Em in Hg.
  destruct (pending v); [done|]. destruct Hg as [Eb Ep]. pose proof (bytes_of_length v).
  unfold put_at. rewrite aset_okZ by lia. eexists. split; [done|].
  split; rewrite ?Eb, ?Ep, ?length_insert, ?length_app; simpl; try done; try lia.
  - apply Forall_app. auto.
  - by rewrite take_insert_ge by lia.
  - rewrite list_lookup_insert_eq by lia. do 2 f_equal. rewrite Z.shiftl_mul_pow2 by lia. lia.
Qed.

(** Completing a byte: [q + r] is written at [j]. *)
Lemma decoded_byte L v j buf x q r : decoded L v (Z.of_nat (length v)) j buf -> sextet x ->
  (length (bytes_of v) < L)%nat -> bytes_of (v ++ [x]) = bytes_of v ++ [q + r] ->
  pending (v ++ [x]) = None ->
  decoded L (v ++ [x]) (Z.of_nat (length v) + 1) (j + 1) (<[Z.to_nat j := char_of (q + r)]> buf).
Proof.
  intros [Hv _ Hj Hl Hb _] Hx HL Eb Ep.
  split; rewrite ?Eb, ?Ep, ?length_insert, ?length_app; simpl; try done; try lia.
  - apply Forall_app. auto.
  - replace (Z.to_nat (j + 1)) with (S (Z.to_nat j)) by lia.
    rewrite take_insert_S by lia. by rewrite Hb, map_app.
Qed.

(** The same, when [p] is left over for the next byte. *)
Lemma decoded_more L v j buf x q r p w : decoded L v (Z.of_nat (length v)) j buf -> sextet x ->
  (S (length (bytes_of v)) < L)%nat -> bytes_of (v ++ [x]) = bytes_of v ++ [q + r] ->
  pending (v ++ [x]) = Some p -> w = p ->
  exists buf', put_at (<[Z.to_nat j := char_of (q + r)]> buf) (j + 1) w = Ok buf' /\
    decoded L (v ++ [x]) (Z.of_nat (length v) + 1) (j + 1) buf'.
Proof.
  intros [Hv _ Hj Hl Hb _] Hx HL Eb Ep ->. unfold put_at. rewrite aset_okZ by (rewrite length_insert; lia).
  eexists. split; [done|].
  split; rewrite ?Eb, ?Ep, ?length_insert, ?length_app; simpl; try done; try lia.
  - apply Forall_app. auto.
  - replace (Z.to_nat (j + 1)) with (S (Z.to_nat j)) by lia.
    rewrite take_insert_ge, take_insert_S by lia. by rewrite Hb, map_app.
  - rewrite list_lookup_insert_eq; [done|]. rewrite length_insert. lia.
Qed.

Lemma shiftr_div x n : 0 <= n -> Z.shiftr x n = x / 2 ^ n.
Proof. apply Z.shiftr_div_pow2. Qed.

Lemma land_low x n k : 0 <= n -> k = Z.ones n -> Z.land x k = x mod 2 ^ n.
Proof. intros Hn ->. by apply Z.land_ones. Qed.

(** [lia] with quotients and remainders. *)
Ltac div_lia := Z.to_euclidean_division_equations; lia.

Lemma decode_put_ok L v j buf x : decoded L v (Z.of_nat (length v)) j buf -> sextet x ->
  (S (length v) < L)%nat -> Z.of_nat L <= 2 ^ 31 -> exists j' buf',
  decode_put (Z.of_nat (length v)) j x buf = Ok (j', buf') /\
  decoded L (v ++ [x]) (Z.of_nat (length v) + 1) j' buf'.
Proof.
  intros Hd Hx HL Hmax. pose proof (bytes_of_grows v x (dc_values _ _ _ _ _ Hd)) as Hg.
  pose proof (bytes_of_length v) as Hlen. pose proof (dc_j _ _ _ _ _ Hd) as Hj.
  pose proof (dc_pending _ _ _ _ _ Hd) as Hp.
  assert (Hs : s32 (j + 1) = j + 1) by (apply s32_small; lia).
  unfold decode_put. rewrite Z.rem_mod_nonneg, Hs by lia.
  pose proof (Z.mod_pos_bound (Z.of_nat (length v)) 4 ltac:(lia)) as Hm.
  destruct (Z.eqb_spec (Z.of_nat (length v) mod 4) 0) as [Em|]; [|
  destruct (Z.eqb_spec (Z.of_nat (length v) mod 4) 1) as [Em|]; [|
  destruct (Z.eqb_spec (Z.of_nat (length v) mod 4) 2) as [Em|]; [|
  destruct (Z.eqb_spec (Z.of_nat (length v) mod 4) 3) as [Em|]; [|lia]]]].
  1: { destruct (decoded_first L v j buf x Hd Hx ltac:(lia) Hg Em) as (buf' & -> & Hd'). rsimp. eauto. }
  all: unfold grows in Hg; rewrite Em in Hg; destruct (pending v) as [q|]; [|done];
    destruct Hg as ((a & Hq & Ha) & Eb & Ep); unfold sextet in *.
  - rewrite shiftr_div, (or_at_ok _ _ a q _ 2) by (done || div_lia). rsimp.
    destruct (decoded_more L v j buf x q (x / 2 ^ 4) _ (Z.shiftl (Z.land x 15) 4) Hd Hx ltac:(lia) Eb Ep)
      as (buf' & -> & Hd'); [|rsimp; eauto].
    rewrite (land_low x 4), Z.shiftl_mul_pow2 by (done || lia). change (2 ^ 4) with 16. lia.
  - rewrite shiftr_div, (or_at_ok _ _ a q _ 4) by (done || div_lia). rsimp.
    destruct (decoded_more L v j buf x q (x / 2 ^ 2) _ (Z.shiftl (Z.land x 3) 6) Hd Hx ltac:(lia) Eb Ep)
      as (buf' & -> & Hd'); [|rsimp; eauto].
    rewrite (land_low x 2), Z.shiftl_mul_pow2 by (done || lia). change (2 ^ 2) with 4. lia.
  - rewrite (or_at_ok _ _ a q _ 6) by (done || lia). rsimp. do 2 eexists. split; [done|].
    apply decoded_byte; try done. lia.
Qed.

Lemma values_cons c str : values (c :: str) =
  (if 0 <=? value c then [value c] else []) ++ values str.
Proof. unfold values. simpl. by destruct (0 <=? value c). Qed.

Definition pad_count (str : list char) : Z := Z.of_nat (length (List.filter is_pad str)).

Lemma pad_count_cons c str : pad_count (c :: str) = (if is_pad c then 1 else 0) + pad_count str.
Proof. unfold pad_count. simpl. destruct (is_pad c); simpl; lia. Qed.

Lemma pad_count_le str : 0 <= pad_count str <= Z.of_nat (length str).
Proof. unfold pad_count. pose proof (filter_length_le is_pad str). lia. Qed.

Lemma decode_loop_ok strict str L v j pad buf :
  decoded L v (Z.of_nat (length v)) j buf -> (length v + length str < L)%nat -> Z.of_nat L <= 2 ^ 31 ->
  0 <= pad -> pad + Z.of_nat (length str) < 2 ^ 31 ->
  if strict && negb (well_padded (negb (pad =? 0)) str)
  then decode_loop strict str (Z.of_nat (length v)) j pad buf = Ok None
  else exists j' buf', decode_loop strict str (Z.of_nat (length v)) j pad buf =
      Ok (Some (Z.of_nat (length (v ++ values str)), j', pad + pad_count str, buf')) /\
    decoded L (v ++ values str) (Z.of_nat (length (v ++ values str))) j' buf'.
Proof.
  revert v j pad buf. induction str as [|c str IH]; intros v j pad buf Hd HL Hmax Hp Hpl.
  { simpl. rewrite andb_false_r, app_nil_r. exists j, buf. unfold pad_count. simpl.
    by rewrite Z.add_0_r. }
  simpl in HL, Hpl. rewrite values_cons, pad_count_cons. cbn [decode_loop well_padded].
  change (bool_decide (c = base64_pad)) with (is_pad c). destruct (is_pad c) eqn:Ec.
  - rewrite (value_pad c Ec), s32_small by lia. change (0 <=? -2) with false. cbn [app].
    specialize (IH v j (pad + 1) buf Hd ltac:(lia) Hmax ltac:(lia) ltac:(lia)).
    destruct (Z.eqb_spec (pad + 1) 0); [lia|]. cbn [negb] in IH.
    destruct (strict && negb _); [done|]. destruct IH as (j' & buf' & -> & Hd').
    exists j', buf'. by rewrite Z.add_assoc.
  - rewrite reverse_lookup. rsimp. pose proof (letter_value_range c) as Hv. rewrite Z.add_0_l.
    pose proof (IH v j pad buf Hd ltac:(lia) Hmax ltac:(lia) ltac:(lia)) as Hskip.
    destruct (Z.leb_spec 0 (value c)) as [Hpos|Hneg].
    + replace (value c <? 0) with false by (symmetry; apply Z.ltb_ge; lia).
      replace (value c =? -1) with false by (symmetry; apply Z.eqb_neq; lia).
      replace (value c =? -2) with false by (symmetry; apply Z.eqb_neq; lia).
      rewrite !andb_false_r. cbn [orb andb].
      destruct (strict && negb (pad =? 0)) eqn:Es.
      { apply andb_prop in Es as [-> ->]. done. }
      destruct (decode_put_ok L v j buf (value c) Hd) as (j1 & buf1 & -> & Hd1);
        [unfold sextet; lia|lia|done|]. rsimp. rewrite s32_small by lia.
      assert (El : Z.of_nat (length v) + 1 = Z.of_nat (length (v ++ [value c])))
        by (rewrite length_app; simpl; lia).
      rewrite El in *. rewrite app_assoc.
      specialize (IH (v ++ [value c]) j1 pad buf1 Hd1).
      rewrite length_app in IH at 1. specialize (IH ltac:(simpl; lia) Hmax Hp ltac:(lia)).
      destruct strict; simpl in Es |- *; [|exact IH]. rewrite Es in *. exact IH.
    + replace (value c <? 0) with true by (symmetry; apply Z.ltb_lt; lia). rewrite !andb_true_r.
      cbn [app]. destruct strict; cbn [negb andb] in *; [|exact Hskip].
      destruct (Z.eqb_spec (value c) (-1)) as [|Hne]; [exact Hskip|].
      replace (value c =? -2) with true by (symmetry; apply Z.eqb_eq; lia). done.
Qed.

Lemma decoded_start L junk : (0 < L)%nat -> decoded L [] 0 0 (replicate L junk).
Proof. intros H. split; simpl; try done. by rewrite length_replicate. Qed.

Lemma decode_ok str strict junk : Z.of_nat (length str) < 2 ^ 31 - 1 ->
  php_base64_decode_ex str strict junk =
  Ok (if strict && negb (strict_ok str) then None else Some (map char_of (bytes_of (values str)))).
Proof.
  intros Hlen. unfold php_base64_decode_ex.
  pose proof (decode_loop_ok strict str (S (length str)) [] 0 0 (replicate (S (length str)) junk)
    (decoded_start (S (length str)) junk ltac:(lia)) ltac:(simpl; lia) ltac:(lia) ltac:(lia) ltac:(lia)) as H.
  change (Z.of_nat (length [])) with 0 in H. change (negb (0 =? 0)) with false in H.
  unfold strict_ok. destruct strict, (well_padded false str) eqn:Ew; cbn [andb negb] in *.
  2: by rewrite H.
  all: destruct H as (j & buf & -> & Hd); rsimp; cbn [app] in *.
  all: pose proof (dc_j _ _ _ _ _ Hd) as Hj; pose proof (bytes_of_length (values str)) as Hb.
  all: assert (Hv : (length (values str) <= length str)%nat) by apply omap_length_le.
  all: assert (Hset : exists buf', aset buf j x00 = Ok buf' /\ take (Z.to_nat j) buf' = map char_of (bytes_of (values str)))
    by (rewrite aset_okZ by (rewrite (dc_length _ _ _ _ _ Hd); lia); eexists; split; [done|];
        rewrite take_insert_ge by lia; apply Hd).
  all: destruct Hset as (buf' & Es & Et); rewrite Es; rsimp; rewrite ?Et; try done.
  pose proof (pad_count_le str) as Hp. rewrite Z.add_0_l. fold (pad_count str).
  assert (Hs : s32 (Z.of_nat (length (values str)) + pad_count str) =
    Z.of_nat (length (values str)) + pad_count str).
  { apply s32_small. assert (Hn : (length (values str) + length (List.filter is_pad str) <= length str)%nat).
    { clear. induction str as [|c str IH]; [done|]. rewrite values_cons. simpl List.filter.
      destruct (is_pad c) eqn:Ec; [rewrite (value_pad c Ec)|destruct (0 <=? value c)]; simpl in *; lia. }
    unfold pad_count. lia. }
  rewrite Hs, !Z.rem_mod_nonneg by lia.
  destruct (_ mod 4 =? 1); [done|]. cbn [negb andb].
  destruct (Z.eqb_spec (pad_count str) 0); [done|]. cbn [negb andb orb].
  rewrite Z.leb_antisym. destruct (2 <? pad_count str); [done|]. cbn [negb andb orb].
  by destruct (_ =? 0).
Qed.

(** ** The encoder *)

(** The first bytes of the buffer. *)
Definition wrote (N : nat) (buf out : list char) : Prop :=
  length buf = N /\ take (length out) buf = out.

Lemma put_char_ok N buf out c : wrote N buf out -> (length out < N)%nat -> exists buf',
  put_char buf (Z.of_nat (length out)) c = Ok (buf', Z.of_nat (length (out ++ [c]))) /\
  wrote N buf' (out ++ [c]).
Proof.
  intros [Hl Hb] HN. unfold put_char. rewrite aset_okZ by lia. rsimp. eexists.
  rewrite Nat2Z.id, length_app. simpl. split; [do 2 f_equal; lia|]. split.
  - by rewrite length_insert.
  - rewrite length_app, Nat.add_1_r, take_insert_S by lia. by rewrite Hb.
Qed.

Lemma put_table_ok N buf out v w : wrote N buf out -> (length out < N)%nat -> w = v -> sextet v ->
  exists buf', put_table buf (Z.of_nat (length out)) w = Ok (buf', Z.of_nat (length (out ++ [letter v]))) /\
  wrote N buf' (out ++ [letter v]).
Proof.
  intros Hw HN -> Hv. unfold put_table. rewrite (table_lookup v Hv). rsimp. by apply put_char_ok.
Qed.

(** The values the encoder computes. *)
Lemma first_value a b : 0 <= a < 256 -> b = a -> Z.shiftr b 2 = a / 4 /\ sextet (a / 4).
Proof. intros Ha ->. rewrite shiftr_div by lia. change (2 ^ 2) with 4. unfold sextet. split; [done|div_lia]. Qed.

Lemma second_value a b : 0 <= a < 256 -> 0 <= b < 256 ->
  Z.shiftl (Z.land a 3) 4 + Z.shiftr b 4 = 16 * (a mod 4) + b / 16 /\ sextet (16 * (a mod 4) + b / 16).
Proof.
  intros Ha Hb. rewrite shiftr_div, Z.shiftl_mul_pow2, (land_low a 2) by (done || lia).
  change (2 ^ 2) with 4. change (2 ^ 4) with 16. unfold sextet. split; [lia|div_lia].
Qed.

Lemma third_value a b : 0 <= a < 256 -> 0 <= b < 256 ->
  Z.shiftl (Z.land a 15) 2 + Z.shiftr b 6 = 4 * (a mod 16) + b / 64 /\ sextet (4 * (a mod 16) + b / 64).
Proof.
  intros Ha Hb. rewrite shiftr_div, Z.shiftl_mul_pow2, (land_low a 4) by (done || lia).
  change (2 ^ 2) with 4. change (2 ^ 4) with 16. change (2 ^ 6) with 64. unfold sextet. split; [lia|div_lia].
Qed.

Lemma fourth_value a : 0 <= a < 256 -> Z.land a 63 = a mod 64 /\ sextet (a mod 64).
Proof. intros Ha. rewrite (land_low a 6) by (done || lia). change (2 ^ 6) with 64. unfold sextet. split; [done|div_lia]. Qed.

Lemma encoded_cons a b c s : encoded (a :: b :: c :: s) =
  [letter (uchar a / 4); letter (16 * (uchar a mod 4) + uchar b / 16);
   letter (4 * (uchar b mod 16) + uchar c / 64); letter (uchar c mod 64)] ++ encoded s.
Proof.
  unfold encoded. simpl map. simpl length. cbn [sextets map app]. do 4 f_equal. f_equal.
  unfold pads. replace (S (S (S (length s)))) with (length s + 1 * 3)%nat by lia.
  by rewrite Nat.Div0.mod_add.
Qed.

Lemma encoded_length s : Z.of_nat (length (encoded s)) = 4 * ((Z.of_nat (length s) + 2) / 3).
Proof.
  induction s as [s IH] using (induction_ltof1 _ length).
  destruct s as [|a [|b [|c s]]]; try done.
  rewrite encoded_cons, length_app, Nat2Z.inj_add, IH by (unfold ltof; simpl; lia). simpl length.
  replace (Z.of_nat (S (S (S (length s)))) + 2) with (Z.of_nat (length s) + 2 + 1 * 3) by lia.
  rewrite Z.div_add by lia. lia.
Qed.

Section Encode.
Context (str : list char) (N : nat).

Lemma put_group k buf out a b c : wrote N buf out -> (length out + 4 < N)%nat ->
  str !! k = Some a -> str !! S k = Some b -> str !! S (S k) = Some c ->
  exists buf', wrote N buf' (out ++ [letter (uchar a / 4); letter (16 * (uchar a mod 4) + uchar b / 16);
    letter (4 * (uchar b mod 16) + uchar c / 64); letter (uchar c mod 64)]) /\
  forall fuel rest, 2 < rest ->
    encode_loop (S fuel) str (Z.of_nat k) rest buf (Z.of_nat (length out)) =
    encode_loop fuel str (Z.of_nat (S (S (S k)))) (rest - 3) buf' (Z.of_nat (length out + 4)).
Proof.
  intros Hw HN Ha Hb Hc.
  pose proof (uchar_range a) as Ra. pose proof (uchar_range b) as Rb. pose proof (uchar_range c) as Rc.
  destruct (first_value _ _ Ra eq_refl) as [E1 S1], (second_value _ _ Ra Rb) as [E2 S2],
    (third_value _ _ Rb Rc) as [E3 S3], (fourth_value _ Rc) as [E4 S4].
  destruct (put_table_ok N buf out _ _ Hw ltac:(lia) E1 S1) as (b1 & P1 & H1).
  destruct (put_table_ok N b1 _ _ _ H1 ltac:(rewrite !length_app; simpl; lia) E2 S2) as (b2 & P2 & H2).
  destruct (put_table_ok N b2 _ _ _ H2 ltac:(rewrite !length_app; simpl; lia) E3 S3) as (b3 & P3 & H3).
  destruct (put_table_ok N b3 _ _ _ H3 ltac:(rewrite !length_app; simpl; lia) E4 S4) as (b4 & P4 & H4).
  exists b4. rewrite <- !app_assoc in H4. split; [exact H4|]. intros fuel rest Hr. cbn [encode_loop].
  destruct (Z.ltb_spec 2 rest); [|lia].
  replace (Z.of_nat k + 1) with (Z.of_nat (S k)) by lia.
  replace (Z.of_nat k + 2) with (Z.of_nat (S (S k))) by lia.
  rewrite (aget_ok _ _ _ Ha), (aget_ok _ _ _ Hb), (aget_ok _ _ _ Hc). rsimp.
  rewrite P1. rsimp. rewrite P2. rsimp. rewrite P3. rsimp. rewrite P4. rsimp.
  f_equal; [lia|]. rewrite !length_app. simpl. lia.
Qed.

Lemma encode_tail_ok k buf out : wrote N buf out -> (length out + 4 < N)%nat ->
  (k <= length str)%nat -> (length str - k <= 2)%nat -> exists buf',
  encode_tail str (Z.of_nat k) (Z.of_nat (length str - k)) buf (Z.of_nat (length out)) =
    Ok (buf', Z.of_nat (length (out ++ encoded (drop k str)))) /\
  wrote N buf' (out ++ encoded (drop k str)).
Proof.
  intros Hw HN Hk Hr. unfold encode_tail. pose proof (length_drop str k) as Hd.
  assert (Hat : forall i c, drop k str !! i = Some c -> aget str (Z.of_nat (k + i)) = Ok c).
  { intros i c. rewrite lookup_drop. apply aget_ok. }
  destruct (drop k str) as [|a [|b [|]]]; simpl in Hd; try lia; rewrite <- Hd; simpl (negb _).
  - exists buf. unfold encoded. simpl. by rewrite app_nil_r.
  - pose proof (Hat 0%nat a eq_refl) as Ga. rewrite Nat.add_0_r in Ga. rewrite Ga. rsimp.
    pose proof (uchar_range a) as Ra. destruct (first_value _ _ Ra eq_refl) as [E1 S1].
    destruct (second_value _ 0 Ra ltac:(lia)) as [E2 S2].
    rewrite Z.shiftr_0_l, Z.div_0_l, !Z.add_0_r in * by lia.
    destruct (put_table_ok N buf out _ _ Hw ltac:(lia) E1 S1) as (b1 & -> & H1). rsimp. simpl (1 <? _).
    destruct (put_table_ok N b1 _ _ _ H1 ltac:(rewrite !length_app; simpl; lia) E2 S2) as (b2 & -> & H2). rsimp.
    destruct (put_char_ok N b2 _ base64_pad H2 ltac:(rewrite !length_app; simpl; lia)) as (b3 & -> & H3). rsimp.
    destruct (put_char_ok N b3 _ base64_pad H3 ltac:(rewrite !length_app; simpl; lia)) as (b4 & -> & H4).
    exists b4. rewrite <- !app_assoc in *. split; [done|exact H4].
  - pose proof (Hat 0%nat a eq_refl) as Ga. rewrite Nat.add_0_r in Ga. rewrite Ga. rsimp.
    pose proof (Hat 1%nat b eq_refl) as Gb. replace (Z.of_nat (k + 1)) with (Z.of_nat k + 1) in Gb by lia.
    pose proof (uchar_range a) as Ra. pose proof (uchar_range b) as Rb.
    destruct (first_value _ _ Ra eq_refl) as [E1 S1], (second_value _ _ Ra Rb) as [E2 S2].
    destruct (third_value _ 0 Rb ltac:(lia)) as [E3 S3].
    rewrite Z.shiftr_0_l, Z.div_0_l, !Z.add_0_r in * by lia.
    destruct (put_table_ok N buf out _ _ Hw ltac:(lia) E1 S1) as (b1 & -> & H1). rsimp. simpl (1 <? _).
    rewrite Gb. rsimp.
    destruct (put_table_ok N b1 _ _ _ H1 ltac:(rewrite !length_app; simpl; lia) E2 S2) as (b2 & -> & H2). rsimp.
    destruct (put_table_ok N b2 _ _ _ H2 ltac:(rewrite !length_app; simpl; lia) E3 S3) as (b3 & -> & H3). rsimp.
    destruct (put_char_ok N b3 _ base64_pad H3 ltac:(rewrite !length_app; simpl; lia)) as (b4 & -> & H4).
    exists b4. rewrite <- !app_assoc in *. split; [done|exact H4].
Qed.
End Encode.

Lemma encode_all str N fuel k buf out : (k <= length str)%nat -> (length str - k < fuel)%nat ->
  wrote N buf out -> (length out + length (encoded (drop k str)) + 4 < N)%nat ->
  exists current rest buf1 p buf',
  encode_loop fuel str (Z.of_nat k) (Z.of_nat (length str - k)) buf (Z.of_nat (length out)) =
    Ok (current, rest, buf1, p) /\
  encode_tail str current rest buf1 p = Ok (buf', Z.of_nat (length (out ++ encoded (drop k str)))) /\
  wrote N buf' (out ++ encoded (drop k str)).
Proof.
  revert k buf out. induction fuel as [|fuel IH]; intros k buf out Hk Hf Hw HN; [lia|].
  destruct (decide (length str - k <= 2)%nat) as [Hs|Hb].
  - destruct (encode_tail_ok str N k buf out Hw ltac:(lia) Hk Hs) as (buf' & E & Hw').
    do 4 eexists. exists buf'. split; [|split; [exact E|exact Hw']]. cbn [encode_loop].
    destruct (Z.ltb_spec 2 (Z.of_nat (length str - k))); [lia|done].
  - destruct (lookup_lt_is_Some_2 str k ltac:(lia)) as [a Ha].
    destruct (lookup_lt_is_Some_2 str (S k) ltac:(lia)) as [b Hb'].
    destruct (lookup_lt_is_Some_2 str (S (S k)) ltac:(lia)) as [c Hc].
    assert (Ed : drop k str = a :: b :: c :: drop (S (S (S k))) str)
      by (rewrite (drop_S _ _ _ Ha), (drop_S _ _ _ Hb'), (drop_S _ _ _ Hc); done).
    destruct (put_group str N k buf out a b c Hw ltac:(lia) Ha Hb' Hc) as (buf1 & Hw1 & E).
    rewrite Ed, encoded_cons in HN |- *. rewrite length_app in HN. cbn [length] in HN.
    rewrite app_assoc. rewrite E by lia.
    replace (Z.of_nat (length str - k) - 3) with (Z.of_nat (length str - S (S (S k)))) by lia.
    set (out1 := out ++ _) in *.
    replace (length out + 4)%nat with (length out1) by (unfold out1; rewrite length_app; done).
    apply IH; try lia; [done|]. unfold out1. rewrite length_app. cbn [length]. lia.
Qed.

Lemma encode_ok str junk : Z.of_nat (length str) < 2 ^ 62 ->
  php_base64_encode str junk = Ok (encoded str).
Proof.
  intros Hlen. unfold php_base64_encode, zend_string_safe_alloc.
  rewrite u64_small by lia. set (n := (Z.of_nat (length str) + 2) / 3).
  assert (Hn : 0 <= n /\ 3 * n <= Z.of_nat (length str) + 2) by (unfold n; split; div_lia).
  unfold MmApi.zend_safe_address_guarded. rewrite MmApi.safe_address_spec by lia.
  destruct (Z.ltb_spec (n * 4 + 32) (2 ^ 64)); [|lia]. rsimp.
  set (N := Z.to_nat (n * 4 + 32 - 24)). set (buf := replicate N junk).
  pose proof (encoded_length str) as He. fold n in He.
  assert (Hw : wrote N buf []) by (split; [by unfold buf; rewrite length_replicate|done]).
  destruct (encode_all str N (S (length str)) 0 buf [] ltac:(lia) ltac:(lia) Hw)
    as (cur & rest & buf1 & p & buf' & E1 & E2 & [Hl Hb]); [rewrite drop_0; cbn [length]; unfold N; lia|].
  rewrite Nat.sub_0_r in E1. change (Z.of_nat (length [])) with 0 in E1. change (Z.of_nat 0) with 0 in E1.
  rewrite E1. rsimp. rewrite E2. rsimp. rewrite drop_0 in *. cbn [app] in *.
  rewrite aset_okZ by (rewrite Hl; unfold N; lia). rsimp. f_equal.
  rewrite Nat2Z.id, take_insert_ge by lia. exact Hb.
Qed.

(** ** Round trip *)

Lemma list3_ind (P : list Z -> Prop) : P [] -> (forall a, P [a]) -> (forall a b, P [a; b]) ->
  (forall a b c v, P v -> P (a :: b :: c :: v)) -> forall v, P v.
Proof.
  intros H0 H1 H2 H3 v. induction v as [v IH] using (induction_ltof1 _ length).
  destruct v as [|a [|b [|c v]]]; auto. apply H3, IH. unfold ltof. simpl. lia.
Qed.

Definition is_byte (x : Z) : Prop := 0 <= x < 256.

Lemma bytes_cons a s : Forall is_byte (a :: s) -> 0 <= a < 256 /\ Forall is_byte s.
Proof. intros H. split; [exact (Forall_inv H)|by apply Forall_inv_tail in H]. Qed.

Lemma sextets_ok s : Forall is_byte s ->
  Forall sextet (sextets s) /\ bytes_of (sextets s) = s /\ Z.of_nat (length (sextets s)) mod 4 <> 1.
Proof.
  unfold sextet. induction s as [|a|a b|a b c s IH] using list3_ind; intros Hs.
  - done.
  - apply bytes_cons in Hs as [Ha _]. split; [repeat apply Forall_cons_2; [div_lia..|apply Forall_nil_2]|].
    split; [|done]. cbn [sextets bytes_of]. f_equal. div_lia.
  - apply bytes_cons in Hs as [Ha [Hb _]%bytes_cons].
    split; [repeat apply Forall_cons_2; [div_lia..|apply Forall_nil_2]|]. split; [|done].
    cbn [sextets bytes_of]. f_equal; [div_lia|f_equal; div_lia].
  - apply bytes_cons in Hs as [Ha [Hb [Hc Hs]%bytes_cons]%bytes_cons].
    destruct (IH Hs) as (I1 & I2 & I3). cbn [sextets bytes_of length].
    split; [repeat apply Forall_cons_2; [div_lia..|done]|]. rewrite I2.
    split; [f_equal; [div_lia|f_equal; [div_lia|f_equal; div_lia]]|].
    replace (Z.of_nat (S (S (S (S (length (sextets s))))))) with (Z.of_nat (length (sextets s)) + 1 * 4) by lia.
    by rewrite Z.mod_add.
Qed.

Lemma letters_values v : Forall sextet v -> forall t,
  values (map letter v ++ t) = v ++ values t /\
  pad_count (map letter v ++ t) = pad_count t /\
  well_padded false (map letter v ++ t) = well_padded false t.
Proof.
  induction 1 as [|x v Hx Hv IH]; intros t; [done|]. cbn [map app well_padded].
  destruct (value_letter x Hx) as [E Ep], (IH t) as (I1 & I2 & I3).
  rewrite values_cons, pad_count_cons, E, Ep, I1, I2, I3. unfold sextet in Hx.
  destruct (Z.leb_spec 0 x); [|lia]. destruct (Z.eqb_spec x (-1)); [lia|]. done.
Qed.

Lemma pads_ok n : values (pads n) = [] /\ well_padded false (pads n) = true /\
  0 <= pad_count (pads n) <= 2 /\ pad_count (pads n) = Z.of_nat (length (pads n)).
Proof. unfold pads. destruct (n mod 3)%nat as [|[|]]; done. Qed.

Lemma char_of_uchar c : char_of (uchar c) = c.
Proof. apply uchar_inj, uchar_char_of, uchar_range. Qed.

Lemma encoded_decodes str : strict_ok (encoded str) = true /\
  map char_of (bytes_of (values (encoded str))) = str.
Proof.
  assert (Hb : Forall is_byte (map uchar str)).
  { apply Forall_forall. intros x (c & -> & _)%list_elem_of_fmap. apply uchar_range. }
  destruct (sextets_ok _ Hb) as (Hs & Eb & Hm). pose proof (encoded_length str) as Hl.
  destruct (letters_values _ Hs (pads (length str))) as (Ev & Ep & Ew).
  destruct (pads_ok (length str)) as (Pv & Pw & Pc & Pl).
  rewrite Pv, app_nil_r in Ev. rewrite Pw in Ew. unfold strict_ok. fold (pad_count (encoded str)).
  fold (encoded str) in Ev, Ep, Ew. rewrite Ev, Ep, Ew. split.
  - destruct (Z.eqb_spec (Z.of_nat (length (sextets (map uchar str))) mod 4) 1); [done|].
    cbn [andb negb]. apply orb_true_intro. right. apply andb_true_intro. split; [apply Z.leb_le; lia|].
    apply Z.eqb_eq. rewrite Pl, <- Nat2Z.inj_add.
    unfold encoded in Hl. rewrite length_app, length_map in Hl. rewrite Hl, Z.mul_comm. by apply Z.mod_mul.
  - rewrite Eb, map_map. rewrite (map_ext _ id) by apply char_of_uchar. apply map_id.
Qed.

(** *** Properties *)

(** C22: Encoding a string takes no access outside the buffer and gives a text of
    [4 * ceil (n / 3)] characters, from which the decoder, strict or not,
    gets the string back. *)
Theorem base64_roundtrip str strict junk junk' : Z.of_nat (length str) < 2 ^ 30 -> exists text,
  php_base64_encode str junk = Ok text /\
  Z.of_nat (length text) = 4 * ((Z.of_nat (length str) + 2) / 3) /\
  php_base64_decode_ex text strict junk' = Ok (Some str).
Proof.
  intros Hlen. exists (encoded str). rewrite encode_ok by lia. split; [done|].
  rewrite encoded_length. split; [done|]. destruct (encoded_decodes str) as [Hs Hv].
  rewrite decode_ok, Hs, andb_false_r, Hv; [done|]. rewrite encoded_length. div_lia.
Qed.

Lemma base64_roundtrip_witness : exists text,
  php_base64_encode [x00; xff; x10; x41]%byte x00 = Ok text /\
  Z.of_nat (length text) = 4 * ((Z.of_nat 4 + 2) / 3) /\
  php_base64_decode_ex text true x2e = Ok (Some [x00; xff; x10; x41]%byte).
Proof. apply (base64_roundtrip [x00; xff; x10; x41]%byte true x00 x2e). vm_compute. reflexivity. Defined.

(** C23: On any input of fewer than [2 ^ 31 - 1] characters (beyond, its [int] counters overflow) the decoder stays in its buffer of [length + 1] bytes.  It
    returns the bytes that the letters of the alphabet stand for; when strict, it fails
    exactly on texts with a foreign character, a letter behind padding, a single letter in the last
    group or a wrong number of padding characters. *)
Theorem base64_decode_correct str strict junk : Z.of_nat (length str) < 2 ^ 31 - 1 ->
  php_base64_decode_ex str strict junk =
  Ok (if strict && negb (strict_ok str) then None else Some (map char_of (bytes_of (values str)))).
Proof. apply decode_ok. Qed.

(** "Zm8=Zg" has a letter behind the padding. *)
Lemma base64_decode_correct_witness :
  php_base64_decode_ex [x5a; x6d; x38; x3d; x5a; x67]%byte true x00 = Ok None /\
  php_base64_decode_ex [x5a; x6d; x38; x3d; x5a; x67]%byte false x00 = Ok (Some [x66; x6f; x19]%byte).
Proof.
  split; rewrite (base64_decode_correct [x5a; x6d; x38; x3d; x5a; x67]%byte) by (vm_compute; reflexivity);
    vm_compute; reflexivity.
Defined.
